(* ===== verification/_CoqProject ===== *)
-Q . S2P
Prelude.v
Memory.v
ListHead.v
Kalloc.v
Slab.v
Pipe.v
Signal.v
Path.v
Vfs.v
File.v
Vma.v
Vm.v
VmSpace.v
Mmap.v
Exec.v
Proc.v
Spinlock.v
Block.v
Bcache.v
Icache.v
IndexTree.v
Easyfs.v
EasyfsFile.v
EasyfsDir.v
TmpfsFile.v
TmpfsDir.v
TmpfsTree.v
Ext4.v
Ext4Dir.v
Overlay.v
Mix.v
Pci.v
PciAssign.v
VirtioPci.v
VirtioBlk.v
