(* ===== verification/Prelude.v ===== *)
(** * FrostVistaOS: a verification library of the kernel

    FrostVistaOS is a small Unix-like kernel in C for RISC-V and LoongArch.
    This library models the parts of it that carry its own logic as executable
    Rocq definitions and proves what makes each of them correct.  Names follow
    the source; a definition that models one part of a C function says which.

    ** The system

    Memory: kernel/mm/kalloc.c hands out pages with reference counts;
    kernel/mm/slab and kmalloc.c cut pages into objects; arch/riscv/mm/vm.c
    builds page tables from pages, shares them copy-on-write between processes
    and copies to and from user memory; kernel/mm/mmap.c keeps the areas of an
    address space.  Processes: kernel/core/proc.c, proc_base.c, wait.c and
    signal.c, over the locks of spinlock.c and sleeplock.c; exec.c replaces the
    memory of a process by the image of an ELF file.  Files:
    kernel/core/file.c and sysfile.c keep open files and descriptors over pipes
    (pipe.c) and the VFS (kernel/fs/vfs.c, fs.c), which resolves paths and
    calls a file system; easyfs keeps files on the disk through the block cache
    (kernel/fs/block_cache.c), tmpfs keeps them in pages, and ext4fs reads an
    ext4 image with the changes kept in tmpfs.  Devices: kernel/driver/pci.c
    and pci_resource.c enumerate the PCI bus and place the BARs, virtio_pci.c
    finds the block device, and virtio_blk.c moves blocks through its queue.

    ** The files

    - Prelude.v: C integers, the monad of kernel routines, loops, tactics, the
      hint database [frost], shared lemmas.
    - Memory.v: byte memory and kernel/core/string.c.
    - ListHead.v: include/kernel/list.h, circular lists with their abstraction
      [dlist].
    - Kalloc.v: kernel/mm/kalloc.c; the free list refines an abstract pool.
    - Slab.v: kernel/mm/slab/slab.c and kmalloc.c over the pages of Kalloc.v.
    - Pipe.v: kernel/core/pipe.c; readers and writers interleave.
    - Signal.v: kernel/core/signal.c and the signal calls of sysproc.c.
    - Path.v, Vfs.v: kernel/fs/fs.c and vfs.c; the file systems below are the
      operations of a class.
    - File.v: kernel/core/file.c, the descriptor calls of sysfile.c and
      alloc_fd of proc.c, with the pipes as references.
    - Vma.v: the area table of kernel/mm/mmap.c.
    - Vm.v: arch/riscv/mm/vm.c over an abstract page pool, which is what
      Kalloc.v refines to.  Its invariant [vm_rel] accounts for every page in
      use: a table, a mapped frame or a reference the kernel holds.
    - VmSpace.v: whole address spaces of vm.c: made, filled, given back.
    - Mmap.v: do_mmap and do_munmap of mmap.c and the loops over the areas in
      fork, exit and exec, over Vma.v, Vm.v and File.v.
    - Exec.v: kernel/core/exec.c over VmSpace.v, Mmap.v and Signal.v; the file
      is read through the class [ExecNodes].
    - Proc.v: proc.c, proc_base.c, wait.c and signal_send of signal.c; calls
      and scheduler switches are the events of a transition system.
    - Spinlock.v: spinlock.c, the atomic parts of acquire and release
      interleaved over any number of CPUs.
    - Block.v: bytes and words of a block and the interfaces [BlockStore] and
      [BlockReader] that the block cache promises the file systems.
    - Bcache.v: block_cache.c and sleeplock.c, threads interleaved; the cache
      implements both interfaces ([cache_store], [cache_reader]).
    - Icache.v: inode_cache.c; its users interleave their calls.
    - IndexTree.v: the tree of direct and indirect positions that files of both
      easyfs and tmpfs use, and the bytes it stands for.
    - Easyfs.v: balloc, bfree, ialloc and ifree over [BlockStore].
    - EasyfsFile.v: bmap, reading, writing, truncation, iupdate and ilock.
    - EasyfsDir.v: directory entries: lookup and dirlink.
    - TmpfsFile.v: file data of kernel/fs/tmpfs/inode.c over the page interface
      of Kalloc.v: tmpfs_bmap, reading, writing, truncation.
    - TmpfsDir.v: the rest of inode.c and mount.c over kmalloc (the interface
      at the end of Slab.v) and the inode cache: lookup, create, unlink, readdir.
    - TmpfsTree.v: tmpfs as a whole under every sequence of calls.
    - Ext4.v: ext4fs/helper.h, read.c and the superblock: inodes, extents and
      files over [BlockReader].
    - Ext4Dir.v: ext4fs/dir.c: names, positions and paths of directories.
    - Overlay.v: the tables of ext4fs/mix.c: the hashed overlay entries, which
      refine a list, and the map to copied files.
    - Mix.v: ext4fs/inode.c and mix.c over tmpfs, ext4, the inode cache and the
      overlay.
    - Pci.v: pci.c and the probing of BARs in pci_resource.c over the registers
      of the bus, a class.
    - PciAssign.v: pci_assign_memory_bars: checking, placing, mapping, undoing.
    - VirtioPci.v: the capability list and the discovery in virtio_pci.c.
    - VirtioBlk.v: virtio_blk.c, threads, interrupt handler and device
      interleaved; the device is a class.

    ** How C is modelled

    An integer is a [Z]; where the width matters the wrap is written out ([u8],
    [u32], [i32], ...).  A routine is a function [K S A] from a state to an
    outcome: it returns ([Ret]), calls panic ([Panic]), does something C leaves
    undefined, such as following a null pointer or leaving an array ([Fault]),
    or loops without end ([NoFuel]).  Loops that are not over a fixed range have
    fuel: the length of the list they walk, the number of pages or blocks a
    range spans, the number of buffers or slots of a table; the theorems state
    that the routine returns, so the fuel is enough.  A wait for another thread
    is the end of one event and the start of a later one.  Code outside the
    repository, and parts of the kernel modelled in another file, are classes
    whose laws are what the caller relies on; each has an instance that the
    witnesses use.  Where such code may stop the kernel, the class has the
    operations only, a second class the law that they return, and the theorems
    without it allow for that stop ([halts], [agrees] at the end of Prelude.v;
    [ProcMem] and [ProcMemTotal], [FileNodes] and [FileNodesTotal]).

    ** What the theorems show

    The allocator runs every history of page operations the abstract pool
    allows; what kmalloc hands out, slab objects and whole pages, is disjoint
    and comes back, and it fails for want of a page only. fork shares pages so that
    every process keeps reading what it read, a copy-on-write fault separates
    one page, copyin and copyout move exactly the bytes of the address space,
    and copyout refuses a page only for want of memory or of permission.
    An address space that is given back leaves no page behind.  mmap returns
    the lowest range that meets no area, munmap takes away exactly what it
    names, as long as that is in the user half.  exec leaves everything as it
    was when it fails; when it succeeds the process has the segments, the stack
    and the registers that the file and the arguments describe, and the old
    image is gone; it panics only when not one page is free.
    The process table keeps its invariant in every state reached from boot,
    whoever exits and whatever the memory code does, as long as the pid counter
    does not overflow; no call deadlocks on a lock or panics there unless the
    code it calls stops or fork finds no memory, and wait4 reaps each child once.
    Pipes are first-in first-out.  A delivered signal returns to where it came
    from.  A normalised path is the path of its resolved components.
    Reference counts of open files are the numbers of their holders, and the
    end of a pipe is open as long as a file is that end.  A
    spinlock has one holder.  The block cache is transparent for all blocks but block 0.  The inode cache
    has one slot per inode and neither loses nor frees twice a page.  A file
    of easyfs reads back what was written, no two positions share a block,
    truncation frees each block once, and nothing else on the disk changes; the
    same holds of tmpfs and the pages of memory.  Its tree stays a tree, an open
    file stays alive until its last reference goes, and nothing leaks.
    ext4 files and directories are read as their extents and records say, and
    reading ends on every image.  The overlay finds what was added last;
    a file of ext4 that is unlinked is not found, one that is created is, for
    names shorter than DIRSIZ.  A path is resolved by its components, the mount
    table first.
    BARs are placed in the window without overlap, or the device, its registers
    and the table are put back; the capability walk ends on every device and
    accepts exactly the lists whose structures lie in their BARs.  The block
    driver is an
    atomic disk under every interleaving, and every request ends as long as
    the device answers.
    Theorems named after a defect (exit_wait_lost_wakeup,
    init_exit_leaves_orphan, fork_makes_readonly_writable, stale_append_faults, kfree_phystop_fault,
    bread_full_fault, read_hole_leaks, ialloc_outside_area,
    find_free_range_crosses_stack, uvmcopy_failure_loses_cow,
    kill_leaves_sleeper, put_inode_null_panics, tmpfs_hole_is_end,
    full_cache_duplicates, unlink_resurrects, unlink_twice, readdir_past_end,
    readdir_stops_early, dir_overrun, big_block_overrun, extent_overrun,
    legacy_groups, ext4_full_cache_fault, overlay_long_name,
    anon_past_user_top, munmap_frees_kernel_page, mmap_huge_length,
    exec_overlap_panics, exec_no_page_panics) show what the code does in the
    case they describe.

    ** Not modelled

    The LoongArch port repeats the interfaces of the RISC-V one.  devtmpfs, the
    dispatch of syscall.c and the rest of sysfile.c fetch arguments and call
    what is modelled.  Of the drivers, the negotiation with the device in
    virtio_disk_init and the register accesses of the two VirtIO transports,
    the UART and the interrupt controllers are sequences of device accesses;
    boot code, trap entry and printf talk to hardware that is not in the
    repository.  swtch and the trap return are assembly.  The directory
    operations of easyfs that combine its parts with the inode cache are left
    out. *)
From Stdlib Require Export ZArith Lia.
From stdpp Require Export base numbers option strings gmap sets list.
Export stdpp.list_basics.list.

#[global] Open Scope Z_scope.

(** * Notations of the development *)

Declare Scope frost_scope.
Delimit Scope frost_scope with frost.
#[global] Open Scope frost_scope.

(** * Machine integers

    Every C integer is a [Z]; the width-[w] types wrap explicitly. *)

Definition u8 (z : Z) : Z := z mod 2 ^ 8.
Definition u16 (z : Z) : Z := z mod 2 ^ 16.
Definition u32 (z : Z) : Z := z mod 2 ^ 32.
Definition u64 (z : Z) : Z := z mod 2 ^ 64.
Definition i32 (z : Z) : Z := (z + 2 ^ 31) mod 2 ^ 32 - 2 ^ 31.
Definition i64 (z : Z) : Z := (z + 2 ^ 63) mod 2 ^ 64 - 2 ^ 63.

(** [~x] of a 64-bit unsigned value. *)
Definition not64 (z : Z) : Z := 2 ^ 64 - 1 - z.

(** The C test of a bit mask: [x & m] is nonzero. *)
Definition has (x m : Z) : bool := bool_decide (Z.land x m ≠ 0).

(** include/kernel/macros.h: [ALIGN_UP] and [ALIGN_DOWN] on [uint64]. *)
Definition ALIGN_UP (value alignment : Z) : Z :=
  Z.land (u64 (value + alignment - 1)) (Z.lnot (alignment - 1)).
Definition ALIGN_DOWN (value alignment : Z) : Z :=
  Z.land value (Z.lnot (alignment - 1)).

(** include/kernel/minmax.h *)
Definition min_u64 (a b : Z) : Z := if decide (a < b) then a else b.
Definition max_u64 (a b : Z) : Z := if decide (a > b) then a else b.

Definition PGSIZE : Z := 4096.
Definition PGROUNDUP (v : Z) : Z := ALIGN_UP v PGSIZE.
Definition PGROUNDDOWN (v : Z) : Z := ALIGN_DOWN v PGSIZE.

(** include/kernel/errno.h: the error numbers the modelled code returns. *)
Definition ENOENT : Z := 2.
Definition ESRCH : Z := 3.
Definition EINTR : Z := 4.
Definition EIO : Z := 5.
Definition E2BIG : Z := 7.
Definition ENOEXEC : Z := 8.
Definition EBADF : Z := 9.
Definition ECHILD : Z := 10.
Definition EAGAIN : Z := 11.
Definition ENOMEM : Z := 12.
Definition EFAULT : Z := 14.
Definition EBUSY : Z := 16.
Definition EEXIST : Z := 17.
Definition ENOTDIR : Z := 20.
Definition EISDIR : Z := 21.
Definition EINVAL : Z := 22.
Definition ENFILE : Z := 23.
Definition EMFILE : Z := 24.
Definition ESPIPE : Z := 29.
Definition EPIPE : Z := 32.
Definition ERANGE : Z := 34.
Definition ENAMETOOLONG : Z := 36.
Definition ENOSYS : Z := 38.
Definition EOPNOTSUPP : Z := 95.

(** * The kernel monad

    A kernel routine maps a state to an outcome: it returns, it stops the
    kernel through [panic], it performs an access that C leaves undefined
    ([Fault]: a null or wild pointer, an index outside an array), or a
    loop of the model runs out of its fuel ([NoFuel]). *)

Inductive outcome (A : Type) : Type :=
  | Ret (a : A)
  | Panic (why : string)
  | Fault
  | NoFuel.
Arguments Ret {_} _.
Arguments Panic {_} _.
Arguments Fault {_}.
Arguments NoFuel {_}.

Definition K (S A : Type) : Type := S → outcome (A * S).

#[export] Instance K_ret {S} : MRet (K S) := λ A a s, Ret (a, s).
#[export] Instance K_bind {S} : MBind (K S) := λ A B f m s,
  match m s with
  | Ret (a, s') => f a s'
  | Panic w => Panic w
  | Fault => Fault
  | NoFuel => NoFuel
  end.

Definition kpanic {S A} (why : string) : K S A := λ _, Panic why.
Definition kfault {S A} : K S A := λ _, Fault.
Definition gets {S A} (f : S → A) : K S A := λ s, Ret (f s, s).
Definition modify {S} (f : S → S) : K S unit := λ s, Ret (tt, f s).

(** A spinlock as the CPU that runs the routine sees it: a flag that
    [acquire] raises and [release] lowers; taking it twice or releasing it
    unheld is the panic of kernel/core/spinlock.c. *)
Definition acquire {S} (held : S → bool) (set : bool → S → S) : K S unit :=
  λ s, if held s then Panic "acquire: already holding lock" else Ret (tt, set true s).
Definition release {S} (held : S → bool) (set : bool → S → S) : K S unit :=
  λ s, if held s then Ret (tt, set false s) else Panic "release: not holding lock".

(** Run a routine of a sub-component on its part of the state. *)
Definition zoom {S T A} (get : S → T) (set : T → S → S) (m : K T A) : K S A :=
  λ s, match m (get s) with
       | Ret (a, t) => Ret (a, set t s)
       | Panic w => Panic w
       | Fault => Fault
       | NoFuel => NoFuel
       end.

(** [for (x in l) body]: the body runs once per element. *)
Fixpoint forM {S A} (l : list A) (body : A → K S unit) : K S unit :=
  match l with
  | [] => mret tt
  | x :: l => body x ;; forM l body
  end.

(** [for (x in l) { ... return r; ... }]: stops at the first element whose
    body gives [Some r]. *)
Fixpoint for_find {S A R} (l : list A) (body : A → K S (option R)) : K S (option R) :=
  match l with
  | [] => mret None
  | x :: l => r ← body x; match r with Some v => mret (Some v) | None => for_find l body end
  end.

(** [while]: the body says whether it goes round again ([inl]) or leaves with
    a value ([inr]); [NoFuel] after [n] rounds. *)
Fixpoint loop {S A R} (n : nat) (body : A → K S (A + R)) (a : A) : K S R :=
  match n with
  | O => λ _, NoFuel
  | S n => r ← body a; match r with inl a' => loop n body a' | inr v => mret v end
  end.

(** * Lemmas on machine integers *)

Lemma u64_small z : 0 ≤ z < 2 ^ 64 → u64 z = z.
Proof. apply Z.mod_small. Qed.
Lemma u32_small z : 0 ≤ z < 2 ^ 32 → u32 z = z.
Proof. apply Z.mod_small. Qed.
Lemma u16_small z : 0 ≤ z < 2 ^ 16 → u16 z = z.
Proof. apply Z.mod_small. Qed.
Lemma u8_small z : 0 ≤ z < 2 ^ 8 → u8 z = z.
Proof. apply Z.mod_small. Qed.
Lemma u8_range z : 0 ≤ u8 z < 256.
Proof. apply (Z.mod_pos_bound z (2 ^ 8)). lia. Qed.
Lemma u32_range z : 0 ≤ u32 z < 2 ^ 32.
Proof. apply Z.mod_pos_bound. lia. Qed.
Lemma u64_range z : 0 ≤ u64 z < 2 ^ 64.
Proof. apply Z.mod_pos_bound. lia. Qed.

Lemma i32_small z : - 2 ^ 31 ≤ z < 2 ^ 31 → i32 z = z.
Proof. intros H. unfold i32. rewrite Z.mod_small; lia. Qed.
Lemma i32_range z : - 2 ^ 31 ≤ i32 z < 2 ^ 31.
Proof. unfold i32. pose proof (Z.mod_pos_bound (z + 2 ^ 31) (2 ^ 32)). lia. Qed.

Lemma u64_ne x y : x ≠ y → - 2 ^ 64 < x - y < 2 ^ 64 → u64 x ≠ u64 y.
Proof.
  intros Hne Hd Heq. unfold u64 in Heq.
  pose proof (Z.div_mod x (2 ^ 64)). pose proof (Z.div_mod y (2 ^ 64)). nia.
Qed.

(** Masking with [~(2^k - 1)] rounds down to a multiple of [2^k]. *)
Lemma land_lnot_ones v k : 0 ≤ k → Z.land v (Z.lnot (2 ^ k - 1)) = v / 2 ^ k * 2 ^ k.
Proof.
  intros Hk. replace (2 ^ k - 1) with (Z.ones k) by (rewrite Z.ones_equiv; lia).
  by rewrite <-Z.ldiff_land, Z.ldiff_ones_r, Z.shiftl_mul_pow2, Z.shiftr_div_pow2.
Qed.

Lemma ALIGN_DOWN_pow2 v k : 0 ≤ k → ALIGN_DOWN v (2 ^ k) = v / 2 ^ k * 2 ^ k.
Proof. apply land_lnot_ones. Qed.

Lemma ALIGN_UP_pow2 v k :
  0 ≤ k → ALIGN_UP v (2 ^ k) = u64 (v + 2 ^ k - 1) / 2 ^ k * 2 ^ k.
Proof. apply land_lnot_ones. Qed.

Lemma PGROUNDDOWN_eq v : PGROUNDDOWN v = v / 4096 * 4096.
Proof. apply (ALIGN_DOWN_pow2 v 12). lia. Qed.

Lemma PGROUNDUP_eq v : 0 ≤ v < 2 ^ 64 - 4095 → PGROUNDUP v = (v + 4095) / 4096 * 4096.
Proof.
  intros Hv. unfold PGROUNDUP. change PGSIZE with (2 ^ 12).
  rewrite ALIGN_UP_pow2 by lia. rewrite u64_small by lia. f_equal. f_equal. lia.
Qed.

Lemma PGROUNDDOWN_bounds v :
  PGROUNDDOWN v ≤ v < PGROUNDDOWN v + 4096 ∧ PGROUNDDOWN v mod 4096 = 0.
Proof.
  rewrite PGROUNDDOWN_eq. split; [| by rewrite Z.mod_mul by lia].
  pose proof (Z.div_mod v 4096). pose proof (Z.mod_pos_bound v 4096). lia.
Qed.

Lemma PGROUNDDOWN_aligned v : v mod 4096 = 0 → PGROUNDDOWN v = v.
Proof. intros H. rewrite PGROUNDDOWN_eq. pose proof (Z.div_mod v 4096). lia. Qed.

Lemma PGROUNDUP_bounds v :
  0 ≤ v < 2 ^ 64 - 4095 →
  v ≤ PGROUNDUP v < v + 4096 ∧ PGROUNDUP v mod 4096 = 0.
Proof.
  intros Hv. rewrite PGROUNDUP_eq by done. split; [| by rewrite Z.mod_mul by lia].
  pose proof (Z.div_mod (v + 4095) 4096). pose proof (Z.mod_pos_bound (v + 4095) 4096). lia.
Qed.

(** Setting the low bits rounds up to the end of the block. *)
Lemma lor_ones v k : 0 ≤ k → Z.lor v (2 ^ k - 1) = v / 2 ^ k * 2 ^ k + (2 ^ k - 1).
Proof.
  intros Hk. rewrite <-land_lnot_ones by done.
  rewrite <-Z.add_lor_land, <-Z.land_assoc, (Z.land_comm (Z.lnot _)), Z.land_lnot_diag.
  rewrite Z.land_0_r, Z.add_0_r. apply Z.bits_inj'. intros i Hi.
  rewrite !Z.lor_spec, Z.land_spec, Z.lnot_spec by done. by destruct (Z.testbit v i), (Z.testbit (2 ^ k - 1) i).
Qed.

(** Single-bit masks. *)
Lemma land_pow2 x k : 0 ≤ k → Z.land x (2 ^ k) = if Z.testbit x k then 2 ^ k else 0.
Proof.
  intros Hk. apply Z.bits_inj'. intros i Hi.
  rewrite Z.land_spec, Z.pow2_bits_eqb by done.
  destruct (Z.eqb_spec k i) as [->|Hne].
  - destruct (Z.testbit x i); [|by rewrite Z.bits_0].
    by rewrite Z.pow2_bits_true.
  - rewrite andb_false_r. destruct (Z.testbit x k); [|by rewrite Z.bits_0].
    by rewrite Z.pow2_bits_false by lia.
Qed.

Lemma has_pow2 x k : 0 ≤ k → has x (2 ^ k) = Z.testbit x k.
Proof.
  intros Hk. unfold has. rewrite land_pow2 by done.
  pose proof (Z.pow_pos_nonneg 2 k).
  destruct (Z.testbit x k).
  - apply bool_decide_eq_true_2. lia.
  - apply bool_decide_eq_false_2. lia.
Qed.

Lemma testbit_high x k i : 0 ≤ x < 2 ^ k → k ≤ i → Z.testbit x i = false.
Proof.
  intros Hx Hi. destruct (decide (x = 0)) as [->|]; [apply Z.bits_0|].
  apply Z.bits_above_log2; [lia|]. apply Z.log2_lt_pow2; [lia|].
  assert (2 ^ k ≤ 2 ^ i) by (apply Z.pow_le_mono_r; lia). lia.
Qed.

Lemma not64_spec m i :
  0 ≤ m < 2 ^ 64 → 0 ≤ i → Z.testbit (not64 m) i = bool_decide (i < 64) && negb (Z.testbit m i).
Proof.
  intros Hm Hi. unfold not64. change (2 ^ 64 - 1) with (Z.ones 64).
  rewrite Z.sub_nocarry_ldiff.
  - rewrite Z.ldiff_spec. destruct (decide (i < 64)) as [Hlt|Hge].
    + by rewrite Z.ones_spec_low, bool_decide_eq_true_2 by lia.
    + by rewrite Z.ones_spec_high, bool_decide_eq_false_2 by lia.
  - destruct (decide (m = 0)) as [->|]; [done|].
    apply Z.ldiff_ones_r_low; [lia|]. apply Z.log2_lt_pow2; lia.
Qed.

Lemma not64_range m : 0 ≤ m < 2 ^ 64 → 0 ≤ not64 m < 2 ^ 64.
Proof. unfold not64. lia. Qed.

(** A number below [2^k] is one whose bits from [k] on are clear. *)
Lemma bits_range x k : 0 ≤ k → 0 ≤ x → (∀ i, k ≤ i → Z.testbit x i = false) → x < 2 ^ k.
Proof.
  intros Hk Hx Hb. destruct (decide (x = 0)) as [->|]; [lia|].
  apply Z.log2_lt_pow2; [lia|]. destruct (decide (Z.log2 x < k)) as [|Hge]; [done|].
  exfalso. pose proof (Z.bit_log2 x ltac:(lia)) as Hb2. rewrite Hb in Hb2 by lia. done.
Qed.

Lemma land_range x y k : 0 ≤ k → 0 ≤ x < 2 ^ k → 0 ≤ y → 0 ≤ Z.land x y < 2 ^ k.
Proof.
  intros Hk Hx Hy. assert (0 ≤ Z.land x y) by (apply Z.land_nonneg; lia).
  split; [done|]. apply bits_range; [done..|]. intros i Hi.
  rewrite Z.land_spec, (testbit_high x k) by done. done.
Qed.

Lemma lor_range x y k : 0 ≤ k → 0 ≤ x < 2 ^ k → 0 ≤ y < 2 ^ k → 0 ≤ Z.lor x y < 2 ^ k.
Proof.
  intros Hk Hx Hy. assert (0 ≤ Z.lor x y) by (apply Z.lor_nonneg; lia).
  split; [done|]. apply bits_range; [done..|]. intros i Hi.
  rewrite Z.lor_spec, !(testbit_high _ k) by done. done.
Qed.

(** * Lemmas on lists *)

Lemma filter_ne_notin {A} `{EqDecision A} (a : A) (l : list A) : a ∉ l → filter (.≠ a) l = l.
Proof.
  induction l as [|x l IH]; intros Ha; [done|].
  rewrite filter_cons_True, IH by set_solver. done.
Qed.

Lemma filter_ne_perm {A} `{EqDecision A} (a : A) (l : list A) :
  NoDup l → a ∈ l → l ≡ₚ a :: filter (.≠ a) l.
Proof.
  induction 1 as [|x l Hx Hnd IH]; intros Ha; [set_solver|].
  destruct (decide (x = a)) as [->|Hne].
  - rewrite filter_cons_False, filter_ne_notin by naive_solver. done.
  - rewrite filter_cons_True by done. rewrite Permutation_swap. f_equiv. apply IH. set_solver.
Qed.

(** * Lemmas on the monad *)

Section monad.
Context {S : Type}.

Lemma bind_assoc {A B C} (m : K S A) (f : A → K S B) (g : B → K S C) s :
  mbind g (mbind f m) s = mbind (λ a, mbind g (f a)) m s.
Proof. unfold mbind, K_bind. by destruct (m s) as [[a s']| | |]. Qed.

Lemma bind_Ret {A B} (m : K S A) (f : A → K S B) s a s' :
  m s = Ret (a, s') → mbind f m s = f a s'.
Proof. intros H. unfold mbind, K_bind. by rewrite H. Qed.

Lemma bind_gets {A B} (g : S → A) (f : A → K S B) s : (gets g ≫= f) s = f (g s) s.
Proof. done. Qed.
Lemma bind_mret {A B} (a : A) (f : A → K S B) s : (mret a ≫= f) s = f a s.
Proof. done. Qed.
Lemma bind_Ret_inv {A B} (m : K S A) (f : A → K S B) s b s' :
  mbind f m s = Ret (b, s') → ∃ a s1, m s = Ret (a, s1) ∧ f a s1 = Ret (b, s').
Proof. unfold mbind, K_bind. destruct (m s) as [[a s1]| | |] eqn:E; naive_solver. Qed.

Lemma zoom_Ret {T A} get set (m : K T A) (s : S) a t :
  m (get s) = Ret (a, t) → zoom get set m s = Ret (a, set t s).
Proof. intros H. unfold zoom. by rewrite H. Qed.

Lemma loop_S {A R} n (body : A → K S (A + R)) a :
  loop (Datatypes.S n) body a =
  (r ← body a; match r with inl a' => loop n body a' | inr v => mret v end).
Proof. done. Qed.

Lemma forM_app {A} (l1 l2 : list A) (body : A → K S unit) s :
  forM (l1 ++ l2) body s = mbind (λ _, forM l2 body) (forM l1 body) s.
Proof.
  revert s; induction l1 as [|x l1 IH]; intros s; [done|].
  simpl. rewrite bind_assoc. unfold mbind, K_bind in *.
  destruct (body x s) as [[[] s1]| | |]; [apply IH|done..].
Qed.

(** A loop invariant rule: the invariant is indexed by the elements done. *)
Lemma forM_inv {A} (P : list A → S → Prop) (body : A → K S unit) (l done_ : list A) s :
  (∀ d x r s1, l = d ++ x :: r → P (done_ ++ d) s1 →
     ∃ s2, body x s1 = Ret (tt, s2) ∧ P (done_ ++ d ++ [x]) s2) →
  P done_ s → ∃ s', forM l body s = Ret (tt, s') ∧ P (done_ ++ l) s'.
Proof.
  revert done_ s. induction l as [|x l IH]; intros d0 s Hstep HP.
  - exists s. by rewrite app_nil_r.
  - destruct (Hstep [] x l s) as (s2 & Hb & H2); [done|by rewrite app_nil_r|].
    destruct (IH (d0 ++ [x]) s2) as (s' & Hf & HP'); [|done|].
    + intros d y r s1 -> H1. rewrite <-app_assoc in H1 |- *. simpl in *.
      rewrite <-?app_assoc in *.
      apply (Hstep (x :: d) y r s1); [done|]. done.
    + exists s'. simpl. rewrite (bind_Ret _ _ _ _ _ Hb).
      rewrite <-app_assoc in HP'. done.
Qed.

(** A counted loop that may leave early: the invariant holds at the counter,
    or the early exit satisfies [Err]. *)
Lemma for_find_seq {R} (Inv : Z → S → Prop) (Err : R → S → Prop) (body : Z → K S (option R)) start n s :
  0 ≤ n →
  (∀ i s1, start ≤ i < start + n → Inv i s1 →
     ∃ x s2, body i s1 = Ret (x, s2) ∧ match x with None => Inv (i + 1) s2 | Some v => Err v s2 end) →
  Inv start s →
  ∃ x s', for_find (seqZ start n) body s = Ret (x, s') ∧
    match x with None => Inv (start + n) s' | Some v => Err v s' end.
Proof.
  intros Hn Hstep. remember (Z.to_nat n) as k eqn:Hk. revert start n s Hn Hk Hstep.
  induction k as [|k IH]; intros start n s Hn Hk Hstep HI.
  - replace n with 0 in * by lia. exists None, s. rewrite Z.add_0_r. done.
  - rewrite seqZ_cons by lia. simpl. destruct (Hstep start s) as (x & s2 & Hb & Hx); [lia|done|].
    rewrite (bind_Ret _ _ _ _ _ Hb). destruct x as [v|]; [by exists (Some v), s2|].
    destruct (IH (Z.succ start) (Z.pred n) s2) as (x' & s' & Hf & Hx'); [lia|lia| |by rewrite <-Z.add_1_r|].
    + intros i s1 Hi. apply Hstep. lia.
    + exists x', s'. split; [done|]. by replace (Z.succ start + Z.pred n) with (start + n) in Hx' by lia.
Qed.

(** A counted loop: the invariant holds at the counter. *)
Lemma forM_seq (Inv : Z → S → Prop) (body : Z → K S unit) start n s :
  0 ≤ n → (∀ i s1, start ≤ i < start + n → Inv i s1 → ∃ s2, body i s1 = Ret (tt, s2) ∧ Inv (i + 1) s2) →
  Inv start s → ∃ s', forM (seqZ start n) body s = Ret (tt, s') ∧ Inv (start + n) s'.
Proof.
  intros Hn Hstep HI. destruct (forM_inv (λ l, Inv (start + Z.of_nat (length l))) body (seqZ start n) [] s) as (s' & Hf & HI').
  - intros d x r s1 Hl HI1. simpl in *. assert (Hx : seqZ start n !! length d = Some x) by (rewrite Hl; by apply list_lookup_middle).
    apply lookup_seqZ in Hx as [-> Hlt]. destruct (Hstep (start + Z.of_nat (length d)) s1) as (s2 & Hb & HI2); [lia|done|].
    exists s2. split; [done|]. rewrite length_app. simpl. by replace (start + Z.of_nat (length d + 1)) with (start + Z.of_nat (length d) + 1) by lia.
  - simpl. by rewrite Z.add_0_r.
  - exists s'. split; [done|]. simpl in HI'. rewrite length_seqZ in HI'. by replace (start + Z.of_nat (Z.to_nat n)) with (start + n) in HI' by lia.
Qed.
End monad.

(** * Automation *)

(** Bit operations unfold only by computation. *)
#[global] Arguments Z.testbit : simpl never.
#[global] Arguments Z.land : simpl never.
#[global] Arguments Z.lor : simpl never.
#[global] Arguments Z.shiftl : simpl never.
#[global] Arguments Z.shiftr : simpl never.

Create HintDb frost.
#[export] Hint Resolve u8_range u32_range u64_range : frost.
Create Rewrite HintDb frost_len.
#[export] Hint Rewrite @length_insert @length_app @length_replicate @length_fmap : frost_len.

(** Expose the monadic structure of the goal or a hypothesis. *)
Ltac kunfold :=
  repeat progress (unfold mbind, mret, K_bind, K_ret, gets, modify, zoom, kpanic, kfault in *; simpl in * ).

(** Case analysis on every test of the goal, closing the impossible branches. *)
Ltac kcases :=
  repeat (case_decide || case_bool_decide || case_match); simplify_eq/=; try done; try lia.

(** * Components that may stop

    A routine calls operations of another component, which may panic or
    fault.  It is verified first over operations that all return; [agrees]
    carries the result over: unless one of the operations stops it, the
    routine does the same over the real ones. *)

Inductive stop := St_panic (why : string) | St_fault | St_fuel.
Definition halts {A} (o : outcome A) : option stop :=
  match o with Ret _ => None | Panic w => Some (St_panic w) | Fault => Some St_fault | NoFuel => Some St_fuel end.

(** [m], returning [d] where it would stop. *)
Definition tot {S A} (d : A) (m : K S A) : K S A := λ s, match m s with Ret y => Ret y | _ => Ret (d, s) end.

Lemma tot_unit {S} (m : K S unit) s : ∃ s', tot tt m s = Ret (tt, s').
Proof. unfold tot. destruct (m s) as [[[] s']| | |]; by eexists. Qed.
Lemma tot_val {S A} (d : A) (m : K S A) s : ∃ x s', tot d m s = Ret (x, s').
Proof. unfold tot. destruct (m s) as [[x s']| | |]; by eexists _, _. Qed.
Lemma tot_inv {S A} (d x : A) (m : K S A) s s' : x ≠ d → tot d m s = Ret (x, s') → m s = Ret (x, s').
Proof. unfold tot. intros Hne. destruct (m s) as [y| | |]; [done|congruence..]. Qed.

Section agrees.
(** The stops of the operations. *)
Context {S : Type} (P : stop → Prop).
Definition agrees {A} (f g : K S A) : Prop := ∀ s, f s = g s ∨ ∃ h, halts (f s) = Some h ∧ P h.

Lemma agrees_refl {A} (f : K S A) : agrees f f.
Proof. by left. Qed.
Lemma agrees_bind {A B} (m n : K S A) (f g : A → K S B) : agrees m n → (∀ x, agrees (f x) (g x)) → agrees (m ≫= f) (n ≫= g).
Proof.
  intros Hm Hf s. unfold mbind, K_bind. destruct (Hm s) as [->|(h & Hh & Hs)].
  - destruct (n s) as [[x s']| | |]; [apply Hf|by left..].
  - right. exists h. split; [|done]. by destruct (m s) as [[x s']| | |].
Qed.
Lemma agrees_zoom {T A} (get : S → T) set (d : A) (m : K T A) :
  (∀ t h, halts (m t) = Some h → P h) → agrees (zoom get set m) (zoom get set (tot d m)).
Proof.
  intros Hm s. unfold zoom, tot. specialize (Hm (get s)). destruct (m (get s)) as [[x t]| | |]; [by left|..];
    right; (eexists; split; [reflexivity|]); by apply Hm.
Qed.
Lemma agrees_forM {A} (l : list A) (f g : A → K S unit) : (∀ x, agrees (f x) (g x)) → agrees (forM l f) (forM l g).
Proof. intros Hf. induction l as [|x l IH]; [apply agrees_refl|]. simpl. apply agrees_bind; [apply Hf|done]. Qed.
Lemma agrees_Ret {A} (f g : K S A) s y : agrees f g → f s = Ret y → g s = Ret y.
Proof. intros Hfg Hf. destruct (Hfg s) as [<-|(h & Hh & _)]; [done|]. by rewrite Hf in Hh. Qed.
End agrees.

Create HintDb agree.
#[export] Hint Constants Opaque : agree.

(** Two runs of the same routine over the two kinds of operations; the
    routines it calls and the operations are hints of [agree]. *)
Ltac agree :=
  repeat first
    [ match goal with |- agrees _ ?f ?g => constr_eq f g; apply agrees_refl end
    | solve [auto 3 with agree nocore]
    | match goal with |- agrees _ (_ ≫= _) _ => apply agrees_bind; [|intros ?] end
    | match goal with |- agrees _ (forM _ _) _ => apply agrees_forM; intros ? end
    | match goal with
      | |- agrees _ (if ?b then _ else _) _ => destruct b
      | |- agrees _ (match ?x with _ => _ end) _ => destruct x
      end ].
