(* ===== verification/Memory.v ===== *)
(** Byte-addressed memory and kernel/core/string.c.

    Kernel memory (and the contents of a disk block) is a finite map from
    addresses (offsets) to bytes, read as 0 where nothing was stored.  Wider
    integers are little-endian, as on RV64 and LA64.  [memset], [memcpy],
    [memmove], [strcpy], [strncpy], [strcmp], [strncmp] and [strlen] are the
    loops of string.c over that memory; the lemmas give each its effect on
    every byte, including overlapping moves. *)
From S2P Require Import Prelude.

Abbreviation mem := (gmap Z Z).

Definition rd (m : mem) (a : Z) : Z := default 0 (m !! a).
Definition wr (m : mem) (a v : Z) : mem := <[a := v]> m.

(** Little-endian loads and stores of [n] bytes. *)
Fixpoint load (n : nat) (m : mem) (a : Z) : Z :=
  match n with
  | O => 0
  | S n => rd m a + 256 * load n m (a + 1)
  end.
Fixpoint store (n : nat) (m : mem) (a v : Z) : mem :=
  match n with
  | O => m
  | S n => store n (wr m a (v mod 256)) (a + 1) (v / 256)
  end.

(** Every stored byte is a byte. *)
Definition bytes_ok (m : mem) : Prop := ∀ a, 0 ≤ rd m a < 256.

(** ** kernel/core/string.c *)

Definition memset (m : mem) (s c n : Z) : mem :=
  foldl (λ m i, wr m (s + i) (u8 c)) m (seqZ 0 n).

Definition memcpy (m : mem) (dest src n : Z) : mem :=
  foldl (λ m i, wr m (dest + i) (rd m (src + i))) m (seqZ 0 n).

Definition memmove (m : mem) (dest src n : Z) : mem :=
  if decide (dest = src) then m
  else if decide (dest < src) then
    foldl (λ m i, wr m (dest + i) (rd m (src + i))) m (seqZ 0 n)
  else
    (* from the last byte down to the first *)
    foldr (λ i m, wr m (dest + i) (rd m (src + i))) m (seqZ 0 n).

(** The unbounded loops take the fuel [S (size m)]: a memory of [size m]
    stored bytes has no longer run of nonzero bytes. *)
Fixpoint strlen_loop (fuel : nat) (m : mem) (str cnt : Z) : option Z :=
  match fuel with
  | O => None
  | S f => if decide (rd m str = 0) then Some cnt else strlen_loop f m (str + 1) (cnt + 1)
  end.
Definition strlen (m : mem) (str : Z) : option Z := strlen_loop (S (size m)) m str 0.

Fixpoint strcpy_loop (fuel : nat) (m : mem) (s1 s2 : Z) : option mem :=
  match fuel with
  | O => None
  | S f =>
      let c := rd m s2 in
      let m := wr m s1 c in
      if decide (c = 0) then Some m else strcpy_loop f m (s1 + 1) (s2 + 1)
  end.
Definition strcpy (m : mem) (s1 s2 : Z) : option mem := strcpy_loop (S (size m)) m s1 s2.

(** [copying] is the first loop of strncpy, its end the zero-filling loop. *)
Fixpoint strncpy_loop (n : nat) (copying : bool) (m : mem) (s t : Z) : mem :=
  match n with
  | O => m
  | S n =>
      if copying then
        let c := rd m t in
        strncpy_loop n (negb (bool_decide (c = 0))) (wr m s c) (s + 1) (t + 1)
      else strncpy_loop n false (wr m s 0) (s + 1) t
  end.
Definition strncpy (m : mem) (s t n : Z) : mem := strncpy_loop (Z.to_nat n) true m s t.

Fixpoint strcmp_loop (fuel : nat) (m : mem) (s1 s2 : Z) : option Z :=
  match fuel with
  | O => None
  | S f =>
      if decide (rd m s1 ≠ 0 ∧ rd m s1 = rd m s2) then strcmp_loop f m (s1 + 1) (s2 + 1)
      else Some (u8 (rd m s1) - u8 (rd m s2))
  end.
Definition strcmp (m : mem) (s1 s2 : Z) : option Z := strcmp_loop (S (size m)) m s1 s2.

Fixpoint strncmp_loop (n : nat) (m : mem) (p q : Z) : Z :=
  match n with
  | O => 0
  | S n' =>
      if decide (rd m p ≠ 0 ∧ rd m p = rd m q) then strncmp_loop n' m (p + 1) (q + 1)
      else u8 (rd m p) - u8 (rd m q)
  end.
Definition strncmp (m : mem) (p q n : Z) : Z := strncmp_loop (Z.to_nat n) m p q.

(** The C string [l] (without its terminator) at address [a]. *)
Fixpoint cstr (m : mem) (a : Z) (l : list Z) : Prop :=
  match l with
  | [] => rd m a = 0
  | c :: l => c ≠ 0 ∧ rd m a = c ∧ cstr m (a + 1) l
  end.

(** The [n] bytes at [a]. *)
Definition bytes_at (m : mem) (a n : Z) : list Z := (λ i, rd m (a + i)) <$> seqZ 0 n.

(** * Lemmas *)

Lemma rd_wr m a v b : rd (wr m a v) b = if decide (a = b) then v else rd m b.
Proof. unfold rd, wr. rewrite lookup_insert. by case_decide. Qed.

Lemma rd_empty a : rd ∅ a = 0.
Proof. done. Qed.

Lemma load_ext n m1 m2 a :
  (∀ i, a ≤ i < a + Z.of_nat n → rd m1 i = rd m2 i) → load n m1 a = load n m2 a.
Proof.
  revert a. induction n as [|n IH]; intros a H; [done|]. simpl.
  rewrite H by lia. rewrite (IH (a + 1)); [done|]. intros; apply H; lia.
Qed.

Lemma rd_store_out n m a v b :
  b < a ∨ a + Z.of_nat n ≤ b → rd (store n m a v) b = rd m b.
Proof.
  revert m a v. induction n as [|n IH]; intros m a v H; [done|]. simpl.
  rewrite IH, rd_wr by lia. rewrite decide_False by lia. done.
Qed.

Lemma load_store_out k n m a v b :
  b + Z.of_nat k ≤ a ∨ a + Z.of_nat n ≤ b → load k (store n m a v) b = load k m b.
Proof. intros H. apply load_ext. intros i Hi. apply rd_store_out. lia. Qed.

Lemma load_store_same n m a v : load n (store n m a v) a = v mod 256 ^ Z.of_nat n.
Proof.
  revert m a v. induction n as [|n IH]; intros m a v; [by rewrite Z.mod_1_r|]. simpl.
  rewrite IH, rd_store_out, rd_wr, decide_True by (done || lia).
  rewrite Nat2Z.inj_succ, Z.pow_succ_r, Z.rem_mul_r; lia.
Qed.

Lemma load_range n m a : bytes_ok m → 0 ≤ load n m a < 256 ^ Z.of_nat n.
Proof.
  intros Hm. revert a. induction n as [|n IH]; intros a; [simpl; lia|]. simpl.
  rewrite Nat2Z.inj_succ, Z.pow_succ_r by lia.
  specialize (IH (a + 1)). specialize (Hm a). lia.
Qed.

Lemma wr_bytes_ok m a v : bytes_ok m → 0 ≤ v < 256 → bytes_ok (wr m a v).
Proof. intros Hm Hv b. rewrite rd_wr. case_decide; [done|apply Hm]. Qed.

Lemma store_bytes_ok n m a v : bytes_ok m → bytes_ok (store n m a v).
Proof.
  revert m a v. induction n as [|n IH]; intros m a v H; [done|]. simpl.
  apply IH, wr_bytes_ok; [done|]. apply Z.mod_pos_bound. lia.
Qed.

(** memset *)
Lemma rd_memset m s c n a :
  rd (memset m s c n) a = if decide (s ≤ a < s + n) then u8 c else rd m a.
Proof.
  unfold memset. destruct (decide (n < 0)).
  { rewrite seqZ_nil by lia. simpl. rewrite decide_False by lia. done. }
  rewrite <-(Z2Nat.id n) by lia. generalize (Z.to_nat n).
  intros k. induction k as [|k IH].
  { simpl. rewrite decide_False by lia. done. }
  rewrite seqZ_S, foldl_app. simpl. rewrite rd_wr, IH. repeat case_decide; lia.
Qed.

Lemma memset_bytes_ok m s c n : bytes_ok m → bytes_ok (memset m s c n).
Proof. intros Hm a. rewrite rd_memset. case_decide; [apply u8_range|apply Hm]. Qed.

(** Forward copy: right when the destination does not run into unread source. *)
Lemma rd_copy_forward m d s n a :
  d ≤ s ∨ s + n ≤ d →
  rd (foldl (λ m i, wr m (d + i) (rd m (s + i))) m (seqZ 0 n)) a =
  if decide (d ≤ a < d + n) then rd m (s + (a - d)) else rd m a.
Proof.
  destruct (decide (n < 0)).
  { rewrite seqZ_nil by lia. simpl. rewrite decide_False by lia. done. }
  rewrite <-(Z2Nat.id n) by lia. generalize (Z.to_nat n).
  intros k Hov. revert a. induction k as [|k IH]; intros a.
  { simpl. rewrite decide_False by lia. done. }
  rewrite seqZ_S, foldl_app. simpl. rewrite rd_wr, !IH by lia.
  destruct (decide (d + (0 + Z.of_nat k) = a)).
  - subst a. rewrite decide_False by lia. rewrite decide_True by lia. f_equal; lia.
  - destruct (decide (d ≤ a < d + Z.of_nat k)).
    + by rewrite decide_True by lia.
    + by rewrite decide_False by lia.
Qed.

(** Backward copy: right when the source lies below the destination. *)
Lemma rd_copy_backward m d s n a :
  s < d →
  rd (foldr (λ i m, wr m (d + i) (rd m (s + i))) m (seqZ 0 n)) a =
  if decide (d ≤ a < d + n) then rd m (s + (a - d)) else rd m a.
Proof.
  intros Hsd. destruct (decide (n < 0)).
  { rewrite seqZ_nil by lia. simpl. rewrite decide_False by lia. done. }
  rewrite <-(Z2Nat.id n) by lia. generalize (Z.to_nat n). intros k.
  enough (∀ j, 0 ≤ j → ∀ a,
    rd (foldr (λ i m, wr m (d + i) (rd m (s + i))) m (seqZ j (Z.of_nat k))) a =
    if decide (d + j ≤ a < d + j + Z.of_nat k) then rd m (s + (a - d)) else rd m a) as H.
  { rewrite H by lia. by rewrite !Z.add_0_r. }
  induction k as [|k IH]; intros j Hj b.
  { simpl. rewrite decide_False by lia. done. }
  rewrite seqZ_cons by lia. simpl.
  replace (Z.pred (Z.of_nat (S k))) with (Z.of_nat k) by lia.
  rewrite rd_wr, !IH by lia.
  destruct (decide (d + j = b)).
  - subst b. rewrite decide_False by lia. rewrite decide_True by lia. f_equal; lia.
  - destruct (decide (d + Z.succ j ≤ b < d + Z.succ j + Z.of_nat k)).
    + by rewrite decide_True by lia.
    + by rewrite decide_False by lia.
Qed.

(** memcpy is right as long as it does not overwrite source bytes it still
    has to read. *)
Lemma rd_memcpy m d s n a :
  d ≤ s ∨ s + n ≤ d →
  rd (memcpy m d s n) a = if decide (d ≤ a < d + n) then rd m (s + (a - d)) else rd m a.
Proof. apply rd_copy_forward. Qed.

Lemma rd_memmove m d s n a :
  rd (memmove m d s n) a = if decide (d ≤ a < d + n) then rd m (s + (a - d)) else rd m a.
Proof.
  unfold memmove. case_decide as Heq.
  { subst. case_decide; [|done]. f_equal. lia. }
  case_decide.
  - apply rd_copy_forward. lia.
  - apply rd_copy_backward. lia.
Qed.

Lemma memmove_bytes_ok m d s n : bytes_ok m → bytes_ok (memmove m d s n).
Proof. intros Hm a. rewrite rd_memmove. case_decide; apply Hm. Qed.

(** C strings. *)
Lemma cstr_det m a l1 l2 : cstr m a l1 → cstr m a l2 → l1 = l2.
Proof.
  revert a l2. induction l1 as [|c l1 IH]; intros a [|d l2]; simpl; [done|intros ? (?&?&?); congruence|intros (?&?&?) ?; congruence|].
  intros (? & Hc & H1) (? & Hd & H2). f_equal; [congruence|eauto].
Qed.

Lemma cstr_nonzero m a l i : cstr m a l → 0 ≤ i < Z.of_nat (length l) → rd m (a + i) ≠ 0.
Proof.
  revert a i. induction l as [|c l IH]; simpl; intros a i H Hi; [lia|].
  destruct H as (Hc & Ha & Hl). destruct (decide (i = 0)) as [->|].
  - rewrite Z.add_0_r. congruence.
  - replace (a + i) with (a + 1 + (i - 1)) by lia. apply IH; [done|lia].
Qed.

(** A memory of [size m] stored bytes has no longer run of nonzero bytes. *)
Lemma nonzero_run m s n :
  (∀ i, 0 ≤ i < Z.of_nat n → rd m (s + i) ≠ 0) → (n ≤ size m)%nat.
Proof.
  intros H. rewrite <-(size_dom m).
  set (X := list_to_set (C := gset Z) ((λ i, s + i) <$> seqZ 0 (Z.of_nat n))).
  assert (HX : size X = n).
  { unfold X. rewrite size_list_to_set, length_fmap, length_seqZ by
      (apply NoDup_fmap; [intros ??; lia|apply NoDup_seqZ]). lia. }
  enough (HX' : X ⊆ dom m) by (apply subseteq_size in HX'; lia).
  intros a. unfold X.
  rewrite elem_of_list_to_set, list_elem_of_fmap.
  intros (i & -> & Hi%elem_of_seqZ). apply elem_of_dom.
  specialize (H i). unfold rd in H. destruct (m !! (s + i)); [done|].
  simpl in H. lia.
Qed.

Lemma strlen_loop_fuel fuel m s cnt k :
  (∀ i, 0 ≤ i < Z.of_nat k → rd m (s - Z.of_nat k + i) ≠ 0) →
  (size m < fuel + k)%nat →
  ∃ l, cstr m s l ∧ strlen_loop fuel m s cnt = Some (cnt + Z.of_nat (length l)).
Proof.
  revert s cnt k. induction fuel as [|f IH]; intros s cnt k Hk Hf.
  { apply nonzero_run in Hk. lia. }
  simpl. destruct (decide (rd m s = 0)) as [H0|H0].
  - exists []. simpl. by rewrite Z.add_0_r.
  - destruct (IH (s + 1) (cnt + 1) (S k)) as (l & Hl & ->).
    + intros i Hi. destruct (decide (i = Z.of_nat k)) as [->|].
      * replace (s + 1 - _ + _) with s by lia. done.
      * replace (s + 1 - Z.of_nat (S k) + i) with (s - Z.of_nat k + i) by lia. apply Hk. lia.
    + lia.
    + exists (rd m s :: l). simpl. split; [done|]. f_equal. lia.
Qed.

Lemma strncmp_loop_zero n m p q l1 l2 :
  bytes_ok m → cstr m p l1 → cstr m q l2 →
  strncmp_loop n m p q = 0 ↔ take n l1 = take n l2.
Proof.
  intros Hm. revert p q l1 l2.
  assert (Hu : ∀ a, u8 (rd m a) = rd m a) by (intros a; apply u8_small, Hm).
  induction n as [|n IH]; intros p q l1 l2 H1 H2; [done|]. simpl. rewrite !Hu.
  destruct l1 as [|c1 l1], l2 as [|c2 l2]; simpl in *.
  - rewrite H1, H2. rewrite decide_False by naive_solver. done.
  - destruct H2 as (? & ? & _). rewrite decide_False by (intros [? ?]; lia).
    split; [lia|done].
  - destruct H1 as (? & ? & _). rewrite decide_False by (intros [? ?]; lia).
    split; [lia|done].
  - destruct H1 as (? & Ha1 & H1), H2 as (? & Ha2 & H2). case_decide.
    + rewrite (IH _ _ l1 l2) by done. split; [intros ->; f_equal; lia|naive_solver].
    + split; [lia|]. intros [= -> _]. exfalso. naive_solver congruence.
Qed.

Lemma strncpy_loop_pad n m s t a :
  rd (strncpy_loop n false m s t) a =
  if decide (s ≤ a < s + Z.of_nat n) then 0 else rd m a.
Proof.
  revert m s. induction n as [|n IH]; intros m s; simpl.
  { rewrite decide_False by lia. done. }
  rewrite IH, rd_wr. repeat case_decide; lia || done.
Qed.

Lemma strncpy_loop_spec n m s t l a :
  cstr m t l →
  s + Z.of_nat n ≤ t ∨ t + Z.of_nat (length l) < s →
  rd (strncpy_loop n true m s t) a =
  if decide (s ≤ a < s + Z.of_nat n)
  then default 0 (l !! Z.to_nat (a - s)) else rd m a.
Proof.
  revert m s t l. induction n as [|n IH]; intros m s t l Hl Hov.
  { simpl. rewrite decide_False by lia. done. }
  destruct l as [|c l]; simpl in *.
  - rewrite Hl. rewrite bool_decide_eq_true_2 by done. simpl.
    rewrite strncpy_loop_pad, rd_wr. repeat case_decide; lia || done.
  - destruct Hl as (Hc & Hrd & Hl). rewrite Hrd, bool_decide_eq_false_2 by done. simpl.
    rewrite (IH _ _ _ l).
    + rewrite rd_wr. destruct (decide (s = a)) as [->|].
      * rewrite decide_False by lia. rewrite decide_True by lia.
        rewrite Z.sub_diag. done.
      * destruct (decide (s + 1 ≤ a < s + 1 + Z.of_nat n)).
        -- rewrite decide_True by lia.
           replace (Z.to_nat (a - s)) with (S (Z.to_nat (a - (s + 1)))) by lia. done.
        -- by rewrite decide_False by lia.
    + clear -Hl Hov. revert t Hl Hov. revert l.
      induction l as [|d l IHl]; intros t; simpl; intros Hl Hov.
      * rewrite rd_wr. by rewrite decide_False by lia.
      * destruct Hl as (? & Hd & Hl). rewrite rd_wr, decide_False by lia.
        split; [done|]. split; [done|]. apply IHl; [done|lia].
    + lia.
Qed.

(** The definitions unfold only on demand from here on. *)
#[global] Arguments load : simpl never.
#[global] Arguments store : simpl never.
#[global] Arguments memset : simpl never.
#[global] Arguments memcpy : simpl never.
#[global] Arguments memmove : simpl never.

(** * Theorems *)

(** memmove copies as if through a temporary buffer. *)
Theorem memmove_spec m dest src n :
  bytes_at (memmove m dest src n) dest n = bytes_at m src n ∧
  ∀ a, ¬ (dest ≤ a < dest + n) → rd (memmove m dest src n) a = rd m a.
Proof.
  split.
  - unfold bytes_at. apply list_fmap_ext. intros k i Hi%list_elem_of_lookup_2%elem_of_seqZ.
    rewrite rd_memmove, decide_True by lia. f_equal. lia.
  - intros a Ha. rewrite rd_memmove. by rewrite decide_False.
Qed.

(** strlen terminates on every memory and counts the bytes before the first NUL. *)
Theorem strlen_spec m s :
  ∃ l, cstr m s l ∧ strlen m s = Some (Z.of_nat (length l)).
Proof. apply (strlen_loop_fuel (S (size m)) m s 0 0); simpl; lia. Qed.

(** strncmp gives 0 exactly when the strings agree on their first [n] bytes. *)
Theorem strncmp_spec m p q n l1 l2 :
  bytes_ok m → cstr m p l1 → cstr m q l2 →
  strncmp m p q n = 0 ↔ take (Z.to_nat n) l1 = take (Z.to_nat n) l2.
Proof. apply strncmp_loop_zero. Qed.

(** strncpy writes exactly [n] bytes: the string cut to [n], zero-padded. *)
Theorem strncpy_spec m s t n l :
  0 ≤ n → cstr m t l → s + n ≤ t ∨ t + Z.of_nat (length l) < s →
  (∀ i, 0 ≤ i < n → rd (strncpy m s t n) (s + i) = default 0 (l !! Z.to_nat i)) ∧
  (∀ a, ¬ (s ≤ a < s + n) → rd (strncpy m s t n) a = rd m a).
Proof.
  intros Hn Hl Hov. unfold strncpy.
  assert (Hspec : ∀ a, rd (strncpy_loop (Z.to_nat n) true m s t) a =
    if decide (s ≤ a < s + n) then default 0 (l !! Z.to_nat (a - s)) else rd m a).
  { intros a. rewrite (strncpy_loop_spec _ m s t l) by (done || lia). by rewrite Z2Nat.id. }
  split; intros; rewrite Hspec.
  - rewrite decide_True by lia. do 3 f_equal. lia.
  - by rewrite decide_False.
Qed.
