(* ===== verification/ListHead.v ===== *)
(** include/kernel/list.h: intrusive circular doubly linked lists.

    The store maps the address of a [struct list_head] to its two pointers;
    an access through an address that holds no node faults.  The macros are
    routines over that store.  [dlist h head l] relates a store to the
    sequence [l] of nodes linked behind the sentinel [head]: it is the
    abstraction the slab allocator (slab.c) relies on when it moves slabs
    between its three lists. *)
From S2P Require Import Prelude.

(** [struct list_head { next; prev; }] *)
Record list_head := mk_list_head { next : Z; prev : Z }.

Abbreviation nodes := (gmap Z list_head).

Definition get_next (a : Z) : K nodes Z :=
  λ h, match h !! a with Some n => Ret (next n, h) | None => Fault end.
Definition get_prev (a : Z) : K nodes Z :=
  λ h, match h !! a with Some n => Ret (prev n, h) | None => Fault end.
Definition set_next (a v : Z) : K nodes unit :=
  λ h, match h !! a with
       | Some n => Ret (tt, <[a := mk_list_head v (prev n)]> h) | None => Fault end.
Definition set_prev (a v : Z) : K nodes unit :=
  λ h, match h !! a with
       | Some n => Ret (tt, <[a := mk_list_head (next n) v]> h) | None => Fault end.

Definition list_init (list : Z) : K nodes unit :=
  set_next list list ;; set_prev list list.

Definition list_add_tail (new_node head : Z) : K nodes unit :=
  set_next new_node head ;;
  p ← get_prev head;
  set_prev new_node p ;;
  p ← get_prev head;
  set_next p new_node ;;
  set_prev head new_node.

Definition list_is_empty (head : Z) : K nodes bool :=
  n ← get_next head; mret (bool_decide (n = head)).

Definition list_first (head : Z) : K nodes Z := get_next head.

Definition list_del (head : Z) : K nodes unit :=
  n ← get_next head;
  p ← get_prev head;
  set_next p n ;;
  p ← get_prev head;
  set_prev n p ;;
  set_next head 0 ;;
  set_prev head 0.

(** [list_for_each_entry]: the nodes visited, from [head->next] until the
    walk is back at [head]. *)
Fixpoint for_each_loop (fuel : nat) (pos head : Z) : K nodes (list Z) :=
  match fuel with
  | O => λ _, NoFuel
  | S f =>
      if decide (pos = head) then mret []
      else n ← get_next pos; l ← for_each_loop f n head; mret (pos :: l)
  end.
Definition list_for_each_entry (fuel : nat) (head : Z) : K nodes (list Z) :=
  n ← get_next head; for_each_loop fuel n head.

(** ** The abstraction *)

Definition nxt (h : nodes) (a : Z) : option Z := next <$> h !! a.
Definition prv (h : nodes) (a : Z) : option Z := prev <$> h !! a.

(** From [a] through the nodes [l] to [b], linked in both directions. *)
Fixpoint seg (h : nodes) (a : Z) (l : list Z) (b : Z) : Prop :=
  match l with
  | [] => nxt h a = Some b ∧ prv h b = Some a
  | x :: l => nxt h a = Some x ∧ prv h x = Some a ∧ seg h x l b
  end.

Definition dlist (h : nodes) (head : Z) (l : list Z) : Prop :=
  NoDup (head :: l) ∧ seg h head l head.

(** * Lemmas *)

Lemma get_next_eq h a v : nxt h a = Some v → get_next a h = Ret (v, h).
Proof. unfold nxt, get_next. destruct (h !! a); naive_solver. Qed.
Lemma get_prev_eq h a v : prv h a = Some v → get_prev a h = Ret (v, h).
Proof. unfold prv, get_prev. destruct (h !! a); naive_solver. Qed.

(** One pointer write: the other pointer of the node and every other node
    keep their value. *)
Definition upd_next (h h' : nodes) (a v : Z) : Prop :=
  (∀ b, nxt h' b = if decide (b = a) then Some v else nxt h b) ∧
  (∀ b, prv h' b = prv h b) ∧ dom h' = dom h.
Definition upd_prev (h h' : nodes) (a v : Z) : Prop :=
  (∀ b, prv h' b = if decide (b = a) then Some v else prv h b) ∧
  (∀ b, nxt h' b = nxt h b) ∧ dom h' = dom h.

Lemma set_next_eq h a v : a ∈ dom h → ∃ h', set_next a v h = Ret (tt, h') ∧ upd_next h h' a v.
Proof.
  intros [n Hn]%elem_of_dom. unfold set_next. rewrite Hn. eexists; split; [done|].
  repeat split.
  - intros b. unfold nxt. rewrite lookup_insert. repeat case_decide; by subst.
  - intros b. unfold prv. rewrite lookup_insert. case_decide; subst; [|done]. by rewrite Hn.
  - apply dom_insert_lookup_L. eauto.
Qed.

Lemma set_prev_eq h a v : a ∈ dom h → ∃ h', set_prev a v h = Ret (tt, h') ∧ upd_prev h h' a v.
Proof.
  intros [n Hn]%elem_of_dom. unfold set_prev. rewrite Hn. eexists; split; [done|].
  repeat split.
  - intros b. unfold prv. rewrite lookup_insert. repeat case_decide; by subst.
  - intros b. unfold nxt. rewrite lookup_insert. case_decide; subst; [|done]. by rewrite Hn.
  - apply dom_insert_lookup_L. eauto.
Qed.

Lemma nxt_dom h a v : nxt h a = Some v → a ∈ dom h.
Proof. unfold nxt. rewrite elem_of_dom. destruct (h !! a); naive_solver. Qed.
Lemma prv_dom h a v : prv h a = Some v → a ∈ dom h.
Proof. unfold prv. rewrite elem_of_dom. destruct (h !! a); naive_solver. Qed.

Lemma seg_app h a l1 x l2 b : seg h a (l1 ++ x :: l2) b ↔ seg h a l1 x ∧ seg h x l2 b.
Proof. revert a. induction l1 as [|y l1 IH]; intros a; simpl; [tauto|]. rewrite IH. tauto. Qed.

Lemma seg_ext h h' a l b :
  (∀ x, x ∈ a :: l → nxt h' x = nxt h x) → (∀ y, y ∈ l ++ [b] → prv h' y = prv h y) →
  seg h a l b → seg h' a l b.
Proof.
  revert a. induction l as [|x l IH]; intros a Hn Hp; simpl.
  - intros [? ?]. rewrite Hn, Hp by set_solver. done.
  - intros (? & ? & ?). rewrite Hn, Hp by set_solver. split; [done|]. split; [done|].
    apply IH; [| |done]; intros; [apply Hn|apply Hp]; set_solver.
Qed.

(** The last node before [b], and the first node after [a]. *)
Lemma seg_last h a l b : seg h a l b → prv h b = Some (default a (last l)).
Proof.
  destruct l as [|y l _] using rev_ind; simpl; [by intros [_ ?]|].
  rewrite seg_app, last_snoc. simpl. naive_solver.
Qed.
Lemma seg_first h a l b : seg h a l b → nxt h a = Some (default b (head l)).
Proof. destruct l; simpl; naive_solver. Qed.

Lemma seg_dom h a l b : seg h a l b → a ∈ dom h ∧ b ∈ dom h ∧ ∀ x, x ∈ l → x ∈ dom h.
Proof.
  revert a. induction l as [|x l IH]; intros a; simpl.
  - intros [H1 H2]. split; [by eapply nxt_dom|]. split; [by eapply prv_dom|]. set_solver.
  - intros (H1 & H2 & H3). apply IH in H3 as (? & ? & ?).
    split; [by eapply nxt_dom|]. split; [done|]. set_solver.
Qed.

(** Run a list of pointer writes and reads symbolically. *)
Ltac heap_step :=
  match goal with
  | |- context [mbind _ (set_next ?a ?v) ?h] =>
      let h' := fresh "h" in let E := fresh "E" in let U := fresh "U" in
      destruct (set_next_eq h a v) as (h' & E & U);
      [| rewrite (bind_Ret _ _ _ _ _ E); clear E]
  | |- context [mbind _ (set_prev ?a ?v) ?h] =>
      let h' := fresh "h" in let E := fresh "E" in let U := fresh "U" in
      destruct (set_prev_eq h a v) as (h' & E & U);
      [| rewrite (bind_Ret _ _ _ _ _ E); clear E]
  end.

(** Rewrite every pointer of the goal through the recorded updates. *)
Ltac upd_rewrite :=
  repeat match goal with
  | U : upd_next ?h ?h' _ _ |- context [nxt ?h' _] => rewrite (proj1 U)
  | U : upd_prev ?h ?h' _ _ |- context [nxt ?h' _] => rewrite (proj1 (proj2 U))
  | U : upd_next ?h ?h' _ _ |- context [prv ?h' _] => rewrite (proj1 (proj2 U))
  | U : upd_prev ?h ?h' _ _ |- context [prv ?h' _] => rewrite (proj1 U)
  | U : upd_next ?h ?h' _ _ |- context [dom ?h'] => rewrite (proj2 (proj2 U))
  | U : upd_prev ?h ?h' _ _ |- context [dom ?h'] => rewrite (proj2 (proj2 U))
  end.

Lemma node_ext (h h' : nodes) b :
  nxt h' b = nxt h b → prv h' b = prv h b → h' !! b = h !! b.
Proof. unfold nxt, prv. destruct (h' !! b) as [[]|], (h !! b) as [[]|]; naive_solver. Qed.

(** Redirect the end of a segment: only the last node's [next] and the new
    end's [prev] matter. *)
Lemma seg_retarget h h' a l b b' :
  NoDup (a :: l) → seg h a l b →
  (∀ x, x ∈ a :: l → x ≠ default a (last l) → nxt h' x = nxt h x) →
  (∀ y, y ∈ l → prv h' y = prv h y) →
  nxt h' (default a (last l)) = Some b' → prv h' b' = Some (default a (last l)) →
  seg h' a l b'.
Proof.
  intros Hnd Hs Hn Hp Hz Hb. destruct l as [|z l0 _] using rev_ind; [done|].
  rewrite last_snoc in Hn, Hz, Hb. simpl in *. apply seg_app in Hs as [Hs _].
  apply seg_app. split; [|done]. apply (seg_ext h); [| |done].
  - intros x Hx. apply Hn; [set_solver|]. intros ->.
    rewrite app_comm_cons in Hnd. apply NoDup_app in Hnd as (_ & Hd & _). set_solver.
  - intros y Hy. by apply Hp.
Qed.

Lemma last_elem (a : Z) (l : list Z) : default a (last l) ∈ a :: l.
Proof.
  destruct (last l) as [z|] eqn:E; simpl; [|set_solver].
  apply last_Some in E as [l' ->]. set_solver.
Qed.
Lemma head_elem (l : list Z) (b : Z) : default b (head l) ∈ l ++ [b].
Proof. destruct l; set_solver. Qed.

Lemma list_add_tail_run h hd l x :
  dlist h hd l → x ∉ hd :: l → x ∈ dom h →
  ∃ h', list_add_tail x hd h = Ret (tt, h') ∧ dom h' = dom h ∧
    let z := default hd (last l) in
    (∀ b, nxt h' b = if decide (b = z) then Some x else if decide (b = x) then Some hd else nxt h b) ∧
    (∀ b, prv h' b = if decide (b = hd) then Some x else if decide (b = x) then Some z else prv h b).
Proof.
  intros [Hnd Hs] Hx Hdx. set (z := default hd (last l)).
  pose proof (seg_last _ _ _ _ Hs) as Hz. fold z in Hz.
  pose proof (seg_dom _ _ _ _ Hs) as (Hdh & _ & Hdl).
  assert (Hze : z ∈ hd :: l) by apply last_elem.
  clearbody z.
  assert (Hzd : z ∈ dom h) by (apply elem_of_cons in Hze as [->|]; [done|by apply Hdl]).
  assert (hd ≠ x) by set_solver. unfold list_add_tail.
  heap_step; [done|]. rewrite (bind_Ret (get_prev hd) _ _ z h0) by
    (apply get_prev_eq; by upd_rewrite).
  heap_step; [by upd_rewrite|]. rewrite (bind_Ret (get_prev hd) _ _ z h1) by
    (apply get_prev_eq; upd_rewrite; by rewrite decide_False).
  heap_step; [by upd_rewrite|].
  destruct (set_prev_eq h2 hd x) as (h3 & -> & U2); [by upd_rewrite|].
  exists h3. split; [done|]. split; [by upd_rewrite|].
  split; intros b; by upd_rewrite.
Qed.

Lemma list_del_run h hd l1 x l2 :
  dlist h hd (l1 ++ x :: l2) →
  ∃ h', list_del x h = Ret (tt, h') ∧ dom h' = dom h ∧
    let p := default hd (last l1) in let n := default hd (head l2) in
    (∀ b, nxt h' b = if decide (b = x) then Some 0 else if decide (b = p) then Some n else nxt h b) ∧
    (∀ b, prv h' b = if decide (b = x) then Some 0 else if decide (b = n) then Some p else prv h b).
Proof.
  intros [Hnd Hs]. pose proof (seg_dom _ _ _ _ Hs) as (Hdh & _ & Hdl).
  apply seg_app in Hs as [Hs1 Hs2].
  set (p := default hd (last l1)). set (n := default hd (head l2)).
  pose proof (seg_last _ _ _ _ Hs1) as Hp. fold p in Hp.
  pose proof (seg_first _ _ _ _ Hs2) as Hn. fold n in Hn.
  assert (Hpe : p ∈ hd :: l1) by apply last_elem.
  assert (Hne : n ∈ l2 ++ [hd]) by apply head_elem.
  clearbody p n.
  assert (Hxd : x ∈ dom h) by (apply Hdl; set_solver).
  assert (Hpd : p ∈ dom h) by (apply elem_of_cons in Hpe as [->|]; [done|]; apply Hdl; set_solver).
  assert (Hnn : n ∈ dom h) by (apply elem_of_app in Hne as [|Hne]; [apply Hdl; set_solver|];
    apply list_elem_of_singleton in Hne as ->; done).
  unfold list_del.
  rewrite (bind_Ret _ _ _ _ _ (get_next_eq _ _ _ Hn)).
  rewrite (bind_Ret _ _ _ _ _ (get_prev_eq _ _ _ Hp)).
  heap_step; [done|]. rewrite (bind_Ret (get_prev x) _ _ p h0) by
    (apply get_prev_eq; by upd_rewrite).
  heap_step; [by upd_rewrite|]. heap_step; [by upd_rewrite|].
  destruct (set_prev_eq h2 x 0) as (h3 & -> & U2); [by upd_rewrite|].
  exists h3. split; [done|]. split; [by upd_rewrite|].
  split; intros b; by upd_rewrite.
Qed.

Lemma for_each_loop_seg fuel h hd a l :
  hd ∉ l → (length l < fuel)%nat → seg h a l hd →
  (n ← get_next a; for_each_loop fuel n hd) h = Ret (l, h).
Proof.
  revert a fuel. induction l as [|x l IH]; intros a fuel Hh Hf Hs; simpl in *.
  - destruct Hs as [Hs _]. rewrite (bind_Ret _ _ _ _ _ (get_next_eq _ _ _ Hs)).
    destruct fuel; [lia|]. simpl. by rewrite decide_True.
  - destruct Hs as (Hn & _ & Hs). rewrite (bind_Ret _ _ _ _ _ (get_next_eq _ _ _ Hn)).
    destruct fuel as [|f]; [lia|]. simpl. rewrite decide_False by set_solver.
    specialize (IH x f). unfold mbind, K_bind in *.
    assert (Hgoal : (match get_next x h with
      | Ret (n, s') => for_each_loop f n hd s'
      | Panic w => Panic w | Fault => Fault | NoFuel => NoFuel end) = Ret (l, h))
      by (apply IH; [set_solver|lia|done]).
    destruct (get_next x h) as [[n h1]| | |]; [|done..]. by rewrite Hgoal.
Qed.

(** Redirecting the neighbours of a node takes it out of the list. *)
Lemma dlist_unlink h h' hd l1 x l2 :
  dlist h hd (l1 ++ x :: l2) →
  (∀ b, b ≠ x → nxt h' b = if decide (b = default hd (last l1)) then Some (default hd (head l2)) else nxt h b) →
  (∀ b, b ≠ x → prv h' b = if decide (b = default hd (head l2)) then Some (default hd (last l1)) else prv h b) →
  dlist h' hd (l1 ++ l2).
Proof.
  intros [Hnd Hs] Hn Hp. apply seg_app in Hs as [Hs1 Hs2].
  pose proof (last_elem hd l1) as Hpe. pose proof (head_elem l2 hd) as Hne.
  rewrite app_comm_cons in Hnd. apply NoDup_app in Hnd as (Hnd1 & Hdis & Hnd2).
  apply NoDup_cons in Hnd2 as [Hx2 Hnd2].
  assert (Hx1 : x ∉ hd :: l1) by set_solver.
  assert (Hdis' : ∀ y, y ∈ hd :: l1 → y ∉ l2) by set_solver.
  split; [rewrite app_comm_cons; by apply NoDup_app|].
  destruct l2 as [|n l2']; simpl in *.
  - rewrite app_nil_r. apply (seg_retarget h _ _ _ x); [done|done|..].
    + intros y Hy ?. rewrite Hn, decide_False by set_solver. done.
    + intros y Hy. rewrite NoDup_cons in Hnd1. rewrite Hp, decide_False by set_solver. done.
    + rewrite Hn, decide_True by set_solver. done.
    + rewrite Hp, decide_True by set_solver. done.
  - apply seg_app. destruct Hs2 as (_ & _ & Hs2). split.
    + apply (seg_retarget h _ _ _ x); [done|done|..].
      * intros y Hy ?. rewrite Hn, decide_False by set_solver. done.
      * intros y Hy. rewrite Hp, decide_False by set_solver. done.
      * rewrite Hn, decide_True by set_solver. done.
      * rewrite Hp, decide_True by set_solver. done.
    + rewrite NoDup_cons in Hnd2. apply (seg_ext h); [| |done].
      * intros y Hy. rewrite Hn, decide_False by set_solver. done.
      * intros y Hy. rewrite Hp, decide_False by set_solver. done.
Qed.

(** A node and its neighbours. *)
Lemma dlist_around h hd l1 x l2 :
  dlist h hd (l1 ++ x :: l2) →
  let p := default hd (last l1) in let n := default hd (head l2) in
  prv h x = Some p ∧ nxt h x = Some n ∧ x ≠ p ∧ x ≠ n ∧ x ∈ dom h ∧ p ∈ dom h ∧ n ∈ dom h ∧ x ∉ hd :: l1 ++ l2.
Proof.
  intros [Hnd Hs] p n. pose proof (seg_dom _ _ _ _ Hs) as (Hdh & _ & Hdl). apply seg_app in Hs as [Hs1 Hs2].
  assert (Hpe : p ∈ hd :: l1) by apply last_elem. assert (Hne : n ∈ l2 ++ [hd]) by apply head_elem.
  rewrite app_comm_cons in Hnd. apply NoDup_app in Hnd as (_ & Hdis & Hnd2). apply NoDup_cons in Hnd2 as [Hx2 _].
  assert (Hx1 : x ∉ hd :: l1) by (intros Hx; apply (Hdis x Hx); by left). apply not_elem_of_cons in Hx1 as [Hxh Hx1].
  split_and!.
  - exact (seg_last _ _ _ _ Hs1).
  - exact (seg_first _ _ _ _ Hs2).
  - intros ->. apply elem_of_cons in Hpe as [Hy|Hy]; done.
  - intros ->. apply elem_of_app in Hne as [Hy|Hy]; [done|]. by apply list_elem_of_singleton in Hy.
  - apply Hdl, elem_of_app. right. by left.
  - apply elem_of_cons in Hpe as [->|Hy]; [done|]. apply Hdl, elem_of_app. by left.
  - apply elem_of_app in Hne as [Hy|Hy]; [apply Hdl, elem_of_app; right; by right|]. by apply list_elem_of_singleton in Hy as ->.
  - rewrite not_elem_of_cons, elem_of_app. split; [done|]. by intros [|].
Qed.

(** * Lists kept in the order of use

    The buffers and the inodes of the kernel's caches carry their links; the
    cache's own node [HEAD] closes the circle. *)

Section recency.
Variable HEAD : Z.

(** A node linked behind the head. *)
Definition push_front (b : Z) : K nodes unit :=
  n ← get_next HEAD;
  set_next b n ;;
  set_prev b HEAD ;;
  n ← get_next HEAD;
  set_prev n b ;;
  set_next HEAD b.

(** The list from a position, following one of the pointers. *)
Fixpoint link_chain (h : nodes) (fwd : bool) (pos : Z) (l : list Z) : Prop :=
  match l with
  | [] => pos = HEAD
  | b :: l => pos = b ∧ b ≠ HEAD ∧ ∃ n, (if fwd then nxt h b else prv h b) = Some n ∧ link_chain h fwd n l
  end.

Lemma seg_chain_fwd h a l : HEAD ∉ l → seg h a l HEAD → ∃ n, nxt h a = Some n ∧ link_chain h true n l.
Proof.
  revert a. induction l as [|b l IH]; intros a Hh; simpl; [intros [Hn _]; by eexists|].
  apply not_elem_of_cons in Hh as [Hb Hh]. intros (Hn & _ & Hs). exists b. split; [done|].
  destruct (IH b Hh Hs) as (n & Hbn & Hc). split_and!; [done..|]. by exists n.
Qed.

Lemma seg_chain_bwd h l b : HEAD ∉ l → seg h HEAD l b → ∃ n, prv h b = Some n ∧ link_chain h false n (reverse l).
Proof.
  revert b. induction l as [|x l IH] using rev_ind; intros b Hh; simpl; [intros [_ Hp]; by eexists|].
  rewrite elem_of_app, list_elem_of_singleton in Hh. apply Decidable.not_or in Hh as [Hl Hx].
  intros [Hs1 [_ Hp]]%seg_app. destruct (IH x Hl Hs1) as (n & Hn & Hc). rewrite reverse_app. simpl.
  exists x. split; [done|]. split_and!; [done..|]. by exists n.
Qed.

Lemma push_front_run h l b :
  dlist h HEAD l → b ∉ HEAD :: l → b ∈ dom h →
  ∃ h', push_front b h = Ret (tt, h') ∧ dom h' = dom h ∧ dlist h' HEAD (b :: l).
Proof.
  intros [Hnd Hs] Hb Hd. pose proof (seg_dom _ _ _ _ Hs) as (Hdh & _ & Hdl).
  set (f := default HEAD (head l)). pose proof (seg_first _ _ _ _ Hs) as Hf. fold f in Hf.
  assert (Hfe : f ∈ l ++ [HEAD]) by apply head_elem.
  assert (Hfd : f ∈ dom h) by (apply elem_of_app in Hfe as [Hx|Hx]; [by apply Hdl|]; apply list_elem_of_singleton in Hx as ->; done).
  apply not_elem_of_cons in Hb as [Hbh Hbl].
  assert (Hbf : b ≠ f) by (intros ->; apply elem_of_app in Hfe as [Hx|Hx]; [done|]; apply list_elem_of_singleton in Hx; done).
  unfold push_front. rewrite (bind_Ret _ _ _ _ _ (get_next_eq _ _ _ Hf)).
  heap_step; [done|]. heap_step; [by upd_rewrite|].
  rewrite (bind_Ret (get_next HEAD) _ _ f h1) by (apply get_next_eq; upd_rewrite; by rewrite decide_False).
  heap_step; [by upd_rewrite|]. destruct (set_next_eq h2 HEAD b) as (h3 & -> & U3); [by upd_rewrite|].
  exists h3. split; [done|]. split; [by upd_rewrite|].
  assert (HN : ∀ x, nxt h3 x = if decide (x = HEAD) then Some b else if decide (x = b) then Some f else nxt h x) by (intros x; by upd_rewrite).
  assert (HP : ∀ x, prv h3 x = if decide (x = f) then Some b else if decide (x = b) then Some HEAD else prv h x) by (intros x; by upd_rewrite).
  split; [apply NoDup_cons in Hnd as [Hhl Hl]; constructor; [apply not_elem_of_cons; split; [done|done]|by constructor]|].
  simpl. rewrite HN, HP. rewrite decide_True, decide_False, decide_True by done. split; [done|]. split; [done|].
  apply NoDup_cons in Hnd as [Hhl Hl].
  destruct l as [|y l]; simpl in *.
  - rewrite HN, HP. rewrite decide_False, decide_True, decide_True by done. done.
  - destruct Hs as (Hn & Hp & Hs). rewrite HN, HP, decide_False, decide_True, decide_True by done. split; [done|]. split; [done|].
    apply NoDup_cons in Hl as [Hyl Hl]. apply (seg_ext h); [| |done].
    + intros x Hx. rewrite HN, !decide_False; [done|intros ->; done|intros ->; done].
    + intros x Hx. rewrite HP, !decide_False; [done| |].
      * intros ->. apply elem_of_app in Hx as [Hx|Hx]; [apply Hbl; by right|]. apply list_elem_of_singleton in Hx. done.
      * intros ->. unfold f in Hx. simpl in Hx. apply elem_of_app in Hx as [Hx|Hx]; [done|].
        apply list_elem_of_singleton in Hx. subst. apply Hhl. by left.
Qed.
End recency.

(** The first object, by its index in the table, that satisfies the test. *)
Fixpoint first_buf {X} (test : X → bool) (bs : list X) (l : list Z) : option Z :=
  match l with
  | [] => None
  | b :: l => match bs !! Z.to_nat b with
              | Some x => if test x then Some b else first_buf test bs l
              | None => None
              end
  end.

Lemma first_buf_Some {X} (test : X → bool) bs l b :
  first_buf test bs l = Some b → b ∈ l ∧ ∃ x, bs !! Z.to_nat b = Some x ∧ test x = true.
Proof.
  induction l as [|a l IH]; simpl; [done|]. destruct (bs !! Z.to_nat a) as [x|] eqn:Hx; [|done].
  destruct (test x) eqn:E.
  - intros [= <-]. split; [by left|]. by exists x.
  - intros [Hl Hr]%IH. split; [by right|done].
Qed.
Lemma first_buf_None {X} (test : X → bool) bs l :
  (∀ b, b ∈ l → is_Some (bs !! Z.to_nat b)) → first_buf test bs l = None →
  ∀ b x, b ∈ l → bs !! Z.to_nat b = Some x → test x = false.
Proof.
  induction l as [|a l IH]; intros Hl Hn b x Hb; [by apply elem_of_nil in Hb|]. simpl in Hn.
  destruct (Hl a) as [y Hy]; [by left|]. rewrite Hy in Hn. destruct (test y) eqn:E; [done|].
  apply elem_of_cons in Hb as [->|Hb]; [congruence|]. apply IH; [|done..]. intros c Hc. apply Hl. by right.
Qed.

(** * Theorems *)

(** list_init makes an empty list of a node. *)
Theorem list_init_spec h hd :
  hd ∈ dom h → ∃ h', list_init hd h = Ret (tt, h') ∧ dlist h' hd [].
Proof.
  intros Hd. unfold list_init. heap_step; [done|].
  destruct (set_prev_eq h0 hd hd) as (h1 & -> & U1); [by upd_rewrite|].
  exists h1. split; [done|]. split; [apply NoDup_singleton|].
  simpl. upd_rewrite. by rewrite !decide_True.
Qed.

(** list_add_tail appends; nodes outside the list are untouched. *)
Theorem list_add_tail_spec h hd l x :
  dlist h hd l → x ∉ hd :: l → x ∈ dom h →
  ∃ h', list_add_tail x hd h = Ret (tt, h') ∧ dlist h' hd (l ++ [x]) ∧
        ∀ b, b ∉ x :: hd :: l → h' !! b = h !! b.
Proof.
  intros Hdl Hx Hdx.
  destruct (list_add_tail_run h hd l x Hdl Hx Hdx) as (h' & -> & _ & Hn & Hp).
  destruct Hdl as [Hnd Hs]. pose proof (last_elem hd l) as Hz.
  apply NoDup_cons in Hnd as [Hhd Hndl].
  exists h'. split; [done|]. split; [split|].
  - rewrite app_comm_cons. apply NoDup_app. split; [by constructor|].
    split; [set_solver|apply NoDup_singleton].
  - apply seg_app. split.
    + apply (seg_retarget h _ _ _ hd); [by constructor|done|..].
      * intros y Hy Hne. rewrite Hn, decide_False, decide_False by set_solver. done.
      * intros y Hy. rewrite Hp, decide_False, decide_False by set_solver. done.
      * by rewrite Hn, decide_True.
      * rewrite Hp, decide_False, decide_True by set_solver. done.
    + split; [rewrite Hn, decide_False, decide_True by set_solver|rewrite Hp, decide_True by done]; done.
  - intros b Hb. apply node_ext; [rewrite Hn|rewrite Hp];
      rewrite decide_False, decide_False by set_solver; done.
Qed.

(** list_del unlinks a node and nulls its pointers. *)
Theorem list_del_spec h hd l1 x l2 :
  dlist h hd (l1 ++ x :: l2) →
  ∃ h', list_del x h = Ret (tt, h') ∧ dlist h' hd (l1 ++ l2) ∧
        h' !! x = Some (mk_list_head 0 0) ∧
        ∀ b, b ∉ hd :: l1 ++ x :: l2 → h' !! b = h !! b.
Proof.
  intros Hdl. destruct (list_del_run h hd l1 x l2 Hdl) as (h' & -> & Hd & Hn & Hp).
  exists h'. split; [done|]. split; [|split].
  - apply (dlist_unlink h h' hd l1 x l2 Hdl).
    + intros b Hb. rewrite Hn. by rewrite decide_False.
    + intros b Hb. rewrite Hp. by rewrite decide_False.
  - specialize (Hn x). specialize (Hp x). rewrite decide_True in Hn, Hp by done.
    unfold nxt, prv in *. destruct (h' !! x) as [[]|]; naive_solver.
  - pose proof (last_elem hd l1) as Hpe. pose proof (head_elem l2 hd) as Hne. clear Hdl.
    intros b Hb. apply node_ext; [rewrite Hn|rewrite Hp];
      rewrite decide_False, decide_False by set_solver; done.
Qed.

(** list_for_each_entry visits exactly the linked nodes, in order. *)
Theorem list_for_each_entry_spec h hd l fuel :
  dlist h hd l → (length l < fuel)%nat →
  list_for_each_entry fuel hd h = Ret (l, h).
Proof.
  intros [Hnd Hs] Hf. apply NoDup_cons in Hnd as [Hhd _].
  by apply for_each_loop_seg.
Qed.
