(* ===== verification/Kalloc.v ===== *)
(** kernel/mm/kalloc.c: the physical page allocator.

    Free pages form a singly linked list threaded through their own first
    eight bytes, behind the sentinel [head]; a reference count per page of
    DRAM supports copy-on-write sharing.  The state holds kernel memory
    itself, so that the links, the zeroing of pages and the links' damage
    by later writes are the real ones.  [free_list] is the invariant; the
    class [PageAllocator] at the end is what the other components (slab,
    page tables) rely on. *)
From S2P Require Import Prelude Memory.

(** arch/riscv/include/asm/machine.h *)
Definition KERNEL_VIRT_OFFSET : Z := 0xFFFFFFC000000000.
Definition DRAM_BASE_LOW : Z := 0x80000000.
Definition DRAM_SIZE : Z := 128 * 1024 * 1024.
Definition PHYSTOP_LOW : Z := DRAM_BASE_LOW + DRAM_SIZE.
Definition PHYSTOP_HIGH : Z := PHYSTOP_LOW + KERNEL_VIRT_OFFSET.

(** What the linker and the boot configuration fix: the load address
    ([KERNEL_BASE_LOW], one of the two of machine.h), the end of the kernel
    image, page aligned, and the address of the global [head] inside it. *)
Class KernelImage := {
  KERNEL_BASE_LOW : Z;
  kernel_end : Z;
  head_addr : Z;
  kernel_base_cases : KERNEL_BASE_LOW = DRAM_BASE_LOW ∨ KERNEL_BASE_LOW = 0x80200000;
  kernel_end_aligned : kernel_end mod PGSIZE = 0;
  kernel_end_le : kernel_end ≤ PHYSTOP_HIGH;
  head_in_image : KERNEL_BASE_LOW + KERNEL_VIRT_OFFSET ≤ head_addr < kernel_end
}.

Section kalloc.
Context `{KernelImage}.

Definition KERNEL_BASE_HIGH : Z := KERNEL_BASE_LOW + KERNEL_VIRT_OFFSET.

(** asm/mm.h and kernel/arch/mm.h *)
Definition arch_pa_to_kva (pa : Z) : Z := u64 (pa + KERNEL_VIRT_OFFSET).
Definition arch_kva_to_pa (va : Z) : Z := u64 (va - KERNEL_VIRT_OFFSET).
Definition arch_is_ram_kva (va : Z) : bool :=
  bool_decide (KERNEL_BASE_HIGH ≤ va ∧ va ≤ PHYSTOP_HIGH).

Record kmem := mk_kmem {
  k_mem : mem;               (* kernel memory *)
  head_next : Z;             (* head.next *)
  FMM_size : Z;              (* FMM.size, uint64 *)
  refcnt : gmap Z Z;         (* int refcnt[DRAM_SIZE / PGSIZE], 0 where unset *)
  mem_lock : bool;
  ekalloc_ptr : Z
}.

Definition set_k_mem (m : mem) (s : kmem) : kmem :=
  mk_kmem m (head_next s) (FMM_size s) (refcnt s) (mem_lock s) (ekalloc_ptr s).
Definition set_head_next (a : Z) (s : kmem) : kmem :=
  mk_kmem (k_mem s) a (FMM_size s) (refcnt s) (mem_lock s) (ekalloc_ptr s).
Definition set_FMM_size (n : Z) (s : kmem) : kmem :=
  mk_kmem (k_mem s) (head_next s) n (refcnt s) (mem_lock s) (ekalloc_ptr s).
Definition set_refcnt (r : gmap Z Z) (s : kmem) : kmem :=
  mk_kmem (k_mem s) (head_next s) (FMM_size s) r (mem_lock s) (ekalloc_ptr s).
Definition set_mem_lock (b : bool) (s : kmem) : kmem :=
  mk_kmem (k_mem s) (head_next s) (FMM_size s) (refcnt s) b (ekalloc_ptr s).
Definition set_ekalloc_ptr (a : Z) (s : kmem) : kmem :=
  mk_kmem (k_mem s) (head_next s) (FMM_size s) (refcnt s) (mem_lock s) a.

(** [refcnt[i]]: an index outside the array is undefined. *)
Definition ref_index_ok (i : Z) : bool := bool_decide (0 ≤ i < DRAM_SIZE `div` PGSIZE).
Definition ref_get (i : Z) : K kmem Z := λ s,
  if ref_index_ok i then Ret (default 0 (refcnt s !! i), s) else Fault.
Definition ref_set (i v : Z) : K kmem unit := λ s,
  if ref_index_ok i then Ret (tt, set_refcnt (<[i := v]> (refcnt s)) s) else Fault.

(** [(int64) (arch_kva_to_pa(va) - ARCH_DRAM_BASE_LOW) / ARCH_PGSIZE] *)
Definition refnum (va : Z) : Z := Z.quot (i64 (arch_kva_to_pa va - DRAM_BASE_LOW)) PGSIZE.

Definition refcnt_inc (va : Z) : K kmem Z :=
  acquire mem_lock set_mem_lock ;;
  let n := i32 (refnum va) in
  c ← ref_get n;
  (if decide (c ≤ 0) then kpanic "refcnt_inc: refcnt is 0" else mret tt) ;;
  ref_set n (i32 (c + 1)) ;;
  release mem_lock set_mem_lock ;;
  mret 0.

Definition refcnt_dec (va : Z) : K kmem Z :=
  acquire mem_lock set_mem_lock ;;
  let n := i32 (refnum va) in
  c ← ref_get n;
  (if decide (c ≤ 0) then kpanic "refcnt_dec: refcnt is 0" else mret tt) ;;
  ref_set n (i32 (c - 1)) ;;
  release mem_lock set_mem_lock ;;
  mret 0.

Definition kfree (va : Z) : K kmem unit :=
  if negb (arch_is_ram_kva va) then kpanic "kfree: Low-address space cannot be released"
  else if decide (va mod PGSIZE ≠ 0 ∨ va > PHYSTOP_HIGH ∨ va < kernel_end)
  then kpanic "kfree encounter an error"
  else
    acquire mem_lock set_mem_lock ;;
    c ← ref_get (refnum va);
    if decide (c > 1) then
      ref_set (refnum va) (i32 (c - 1)) ;;
      release mem_lock set_mem_lock
    else
      release mem_lock set_mem_lock ;;
      modify (λ s, set_k_mem (memset (k_mem s) va 0 PGSIZE) s) ;;
      acquire mem_lock set_mem_lock ;;
      modify (λ s, set_k_mem (store 8 (k_mem s) va (head_next s)) s) ;;
      modify (set_head_next va) ;;
      modify (λ s, set_FMM_size (u64 (FMM_size s + 1)) s) ;;
      release mem_lock set_mem_lock.

Definition kalloc : K kmem Z :=
  acquire mem_lock set_mem_lock ;;
  temp ← gets head_next;
  if decide (temp = head_addr) then
    release mem_lock set_mem_lock ;; mret 0
  else
    modify (λ s, set_head_next (load 8 (k_mem s) temp) s) ;;
    modify (λ s, set_FMM_size (u64 (FMM_size s - 1)) s) ;;
    ref_set (i32 (refnum temp)) 1 ;;
    release mem_lock set_mem_lock ;;
    modify (λ s, set_k_mem (memset (k_mem s) temp 0 PGSIZE) s) ;;
    mret temp.

(** The pages the loop [for (; ps + PGSIZE <= pe; ps += PGSIZE)] visits. *)
Definition page_range (ps pe : Z) : list Z :=
  (λ i, ps + i * PGSIZE) <$> seqZ 0 ((pe - ps) `div` PGSIZE).

Definition freerange (pa_start pa_end : Z) : K kmem unit :=
  if negb (arch_is_ram_kva pa_start) || negb (arch_is_ram_kva pa_end)
  then kpanic "freerange: It must be a high address"
  else forM (page_range pa_start pa_end) kfree.

Definition kalloc_init : K kmem unit :=
  modify (set_mem_lock false) ;;
  modify (set_head_next head_addr) ;;
  p ← gets ekalloc_ptr;
  freerange p PHYSTOP_HIGH.

Definition ekalloc : K kmem Z :=
  ret ← gets ekalloc_ptr;
  if decide (ret mod PGSIZE ≠ 0) then kpanic "ekalloc panic"
  else modify (set_ekalloc_ptr (u64 (ret + PGSIZE))) ;; mret (arch_kva_to_pa ret).

(** ** Invariant *)

(** The chain of links from [a] runs through the pages [l] back to the sentinel. *)
Fixpoint chain (m : mem) (a : Z) (l : list Z) : Prop :=
  match l with
  | [] => a = head_addr
  | p :: l => a = p ∧ chain m (load 8 m p) l
  end.

(** A page of allocatable RAM. *)
Definition page_ok (p : Z) : Prop :=
  p mod PGSIZE = 0 ∧ kernel_end ≤ p ∧ p + PGSIZE ≤ PHYSTOP_HIGH.

Record free_list (s : kmem) (l : list Z) : Prop := {
  fl_chain : chain (k_mem s) (head_next s) l;
  fl_nodup : NoDup l;
  fl_pages : Forall page_ok l;
  fl_size : FMM_size s = Z.of_nat (length l);
  fl_lock : mem_lock s = false
}.

(** The reference count of the page at [va]. *)
Definition refs (s : kmem) (va : Z) : Z := default 0 (refcnt s !! refnum va).

(** All 4096 bytes of the page at [p] are zero. *)
Definition page_zero (m : mem) (p : Z) : Prop := ∀ a, p ≤ a < p + PGSIZE → rd m a = 0.

(** * Lemmas *)

Lemma page_ok_bounds p :
  page_ok p → DRAM_BASE_LOW + KERNEL_VIRT_OFFSET < p ∧ p + PGSIZE ≤ PHYSTOP_HIGH ∧ p mod 4096 = 0.
Proof.
  intros (Ha & Hk & Hp). pose proof head_in_image. pose proof kernel_base_cases.
  unfold DRAM_BASE_LOW, PGSIZE in *. lia.
Qed.

Lemma refnum_page p :
  page_ok p →
  refnum p = p / 4096 - (DRAM_BASE_LOW + KERNEL_VIRT_OFFSET) / 4096 ∧ 0 ≤ refnum p < 32768.
Proof.
  intros Hp%page_ok_bounds.
  unfold refnum, arch_kva_to_pa, i64, u64, PHYSTOP_HIGH, PHYSTOP_LOW, DRAM_SIZE,
    DRAM_BASE_LOW, KERNEL_VIRT_OFFSET, PGSIZE in *.
  destruct Hp as (H1 & H2 & H3).
  rewrite (Z.mod_small (p - _)) by lia. rewrite Z.mod_small by lia.
  rewrite Z.quot_div_nonneg by lia.
  match goal with |- ?x / 4096 = _ ∧ _ => assert (Hx : x = p - 0xFFFFFFC080000000) by lia; rewrite Hx end.
  pose proof (Z.div_mod p 4096). change ((_ + _) / 4096) with 0xFFFFFFC080000.
  replace (p - _) with ((p / 4096 - 0xFFFFFFC080000) * 4096) by lia.
  rewrite Z.div_mul by lia. lia.
Qed.

Lemma refnum_i32 p : page_ok p → i32 (refnum p) = refnum p.
Proof. intros Hp%refnum_page. apply i32_small. lia. Qed.

Lemma refnum_index_ok p : page_ok p → ref_index_ok (refnum p) = true.
Proof. intros Hp%refnum_page. apply bool_decide_eq_true_2.
  change (DRAM_SIZE `div` PGSIZE) with 32768. lia. Qed.

Lemma refnum_inj p q : page_ok p → page_ok q → refnum p = refnum q → p = q.
Proof.
  intros Hp Hq. destruct (refnum_page p Hp) as [-> _], (refnum_page q Hq) as [-> _].
  apply page_ok_bounds in Hp as (_ & _ & Hp), Hq as (_ & _ & Hq).
  pose proof (Z.div_mod p 4096). pose proof (Z.div_mod q 4096). lia.
Qed.

Lemma pages_disjoint p q :
  page_ok p → page_ok q → p ≠ q → p + PGSIZE ≤ q ∨ q + PGSIZE ≤ p.
Proof.
  intros (_ & _ & Hp)%page_ok_bounds (_ & _ & Hq)%page_ok_bounds Hne. unfold PGSIZE.
  pose proof (Z.div_mod p 4096). pose proof (Z.div_mod q 4096). lia.
Qed.

(** There are at most [DRAM_SIZE / PGSIZE] pages. *)
Lemma pages_length l : NoDup l → Forall page_ok l → Z.of_nat (length l) ≤ 32768.
Proof.
  intros Hnd Hok. rewrite <-(length_fmap refnum l).
  replace 32768 with (Z.of_nat (length (seqZ 0 32768))) by (rewrite length_seqZ; lia).
  apply inj_le, submseteq_length, NoDup_submseteq.
  - clear -Hnd Hok H. induction Hnd as [|p l Hp Hnd IH]; simpl; [constructor|].
    apply Forall_cons in Hok as [Hpo Hok]. constructor; [|by apply IH].
    intros (q & Heq & Hq)%list_elem_of_fmap. rewrite Forall_forall in Hok.
    apply refnum_inj in Heq; [by subst|done|by apply Hok].
  - intros i (p & -> & Hp)%list_elem_of_fmap. rewrite Forall_forall in Hok.
    apply elem_of_seqZ. destruct (refnum_page p (Hok p Hp)) as [_ ?]. lia.
Qed.

Lemma chain_ext m m' a l :
  (∀ p, p ∈ l → load 8 m' p = load 8 m p) → chain m a l → chain m' a l.
Proof.
  revert a. induction l as [|p l IH]; intros a Hm; simpl; [done|].
  intros [-> Hc]. split; [done|]. rewrite Hm by set_solver. apply IH; [set_solver|done].
Qed.

(** The links of pages other than [p] survive a change within [p]. *)
Lemma chain_frame m m' a l p :
  page_ok p → Forall page_ok l → p ∉ l →
  (∀ b, ¬ (p ≤ b < p + PGSIZE) → rd m' b = rd m b) → chain m a l → chain m' a l.
Proof.
  intros Hp Hl Hni Hm. apply chain_ext. intros q Hq. apply load_ext. intros i Hi.
  rewrite Forall_forall in Hl.
  destruct (pages_disjoint p q) as [?|?]; [done|by apply Hl|set_solver| |];
    apply Hm; unfold PGSIZE in *; lia.
Qed.

Lemma head_not_page p : page_ok p → p ≠ head_addr.
Proof. intros (_ & ? & _). pose proof head_in_image. lia. Qed.

Lemma head_addr_range : 0 ≤ head_addr < 2 ^ 64.
Proof.
  pose proof head_in_image. pose proof kernel_end_le. pose proof kernel_base_cases.
  unfold PHYSTOP_HIGH, PHYSTOP_LOW, DRAM_BASE_LOW, DRAM_SIZE, KERNEL_VIRT_OFFSET in *. lia.
Qed.

Lemma page_ok_range p : page_ok p → 0 < p < 2 ^ 64.
Proof.
  intros ?%page_ok_bounds.
  unfold PHYSTOP_HIGH, PHYSTOP_LOW, DRAM_BASE_LOW, DRAM_SIZE, KERNEL_VIRT_OFFSET, PGSIZE in *. lia.
Qed.

Lemma chain_start m a l : Forall page_ok l → chain m a l → 0 ≤ a < 2 ^ 64.
Proof.
  destruct l as [|p l]; simpl; [intros _ ->; apply head_addr_range|].
  intros [Hp _]%Forall_cons [-> _]. apply page_ok_range in Hp. lia.
Qed.

Lemma kmem_unlock s : mem_lock s = false → set_mem_lock false (set_mem_lock true s) = s.
Proof. destruct s; simpl; by intros ->. Qed.

Lemma set_refcnt_refs p v s q :
  page_ok p → page_ok q →
  refs (set_refcnt (<[refnum p := v]> (refcnt s)) s) q = if decide (p = q) then v else refs s q.
Proof.
  intros Hp Hq. unfold refs. simpl. rewrite lookup_insert.
  destruct (decide (p = q)) as [->|Hne]; [by rewrite decide_True|].
  rewrite decide_False; [done|]. intros Heq. apply Hne. by apply refnum_inj.
Qed.

Lemma kalloc_empty s : free_list s [] → kalloc s = Ret (0, s).
Proof.
  intros [Hc _ _ _ Hlk]. unfold kalloc, acquire, release. kunfold. rewrite Hlk. simpl.
  rewrite decide_True by done. simpl. by rewrite kmem_unlock.
Qed.

Lemma kalloc_cons s p l :
  free_list s (p :: l) →
  ∃ s', kalloc s = Ret (p, s') ∧ free_list s' l ∧ page_zero (k_mem s') p ∧
    refcnt s' = <[refnum p := 1]> (refcnt s) ∧
    (∀ b, ¬ (p ≤ b < p + PGSIZE) → rd (k_mem s') b = rd (k_mem s) b).
Proof.
  intros [[Hh Hc] Hnd Hok Hsz Hlk].
  apply NoDup_cons in Hnd as [Hpl Hnd]. pose proof (Forall_cons_1 _ _ _ Hok) as [Hp Hl].
  pose proof (pages_length (p :: l)) as Hlen. simpl in Hsz, Hlen.
  unfold kalloc, acquire, release. kunfold. rewrite Hlk. simpl. rewrite Hh.
  rewrite decide_False by by apply head_not_page. simpl.
  unfold ref_set. rewrite refnum_i32, refnum_index_ok by done. simpl.
  eexists. split; [done|]. simpl. split; [split; simpl|split; [|split; [done|]]].
  - apply (chain_frame (k_mem s) _ _ _ p); [done|done|done| |done].
    intros b Hb. rewrite rd_memset. by rewrite decide_False.
  - done.
  - done.
  - rewrite Hsz. rewrite u64_small; [lia|]. split; [lia|].
    specialize (Hlen ltac:(by constructor) Hok). lia.
  - done.
  - intros b Hb. rewrite rd_memset. by rewrite decide_True.
  - intros b Hb. rewrite rd_memset. by rewrite decide_False.
Qed.

Lemma kfree_guards p s :
  page_ok p →
  kfree p s =
  (acquire mem_lock set_mem_lock ;;
    c ← ref_get (refnum p);
    if decide (c > 1) then
      ref_set (refnum p) (i32 (c - 1)) ;;
      release mem_lock set_mem_lock
    else
      release mem_lock set_mem_lock ;;
      modify (λ s, set_k_mem (memset (k_mem s) p 0 PGSIZE) s) ;;
      acquire mem_lock set_mem_lock ;;
      modify (λ s, set_k_mem (store 8 (k_mem s) p (head_next s)) s) ;;
      modify (set_head_next p) ;;
      modify (λ s, set_FMM_size (u64 (FMM_size s + 1)) s) ;;
      release mem_lock set_mem_lock) s.
Proof.
  intros Hp. unfold kfree, arch_is_ram_kva. rewrite bool_decide_eq_true_2.
  - simpl. rewrite decide_False; [done|]. destruct Hp as (? & ? & ?). unfold PGSIZE in *. lia.
  - pose proof head_in_image. destruct Hp as (? & ? & ?).
    unfold KERNEL_BASE_HIGH, PGSIZE in *. lia.
Qed.

Lemma kfree_dec s p :
  mem_lock s = false → page_ok p → refs s p > 1 →
  kfree p s = Ret (tt, set_refcnt (<[refnum p := i32 (refs s p - 1)]> (refcnt s)) s).
Proof.
  intros Hlk Hp Hr. rewrite kfree_guards by done. unfold acquire, release, ref_get, ref_set.
  kunfold. rewrite Hlk. simpl. rewrite refnum_index_ok by done. simpl.
  unfold refs in *. rewrite decide_True by done. simpl.
  destruct s; simpl in *. by subst.
Qed.

Lemma kfree_push s p l :
  free_list s l → page_ok p → p ∉ l → refs s p ≤ 1 →
  ∃ s', kfree p s = Ret (tt, s') ∧ free_list s' (p :: l) ∧ refcnt s' = refcnt s ∧
    (∀ b, ¬ (p ≤ b < p + PGSIZE) → rd (k_mem s') b = rd (k_mem s) b).
Proof.
  intros [Hc Hnd Hok Hsz Hlk] Hp Hpl Hr. rewrite kfree_guards by done.
  unfold acquire, release, ref_get. kunfold. rewrite Hlk. simpl.
  rewrite refnum_index_ok by done. simpl. unfold refs in Hr.
  rewrite decide_False by lia. simpl.
  assert (Hm : ∀ b, ¬ (p ≤ b < p + PGSIZE) →
    rd (store 8 (memset (k_mem s) p 0 PGSIZE) p (head_next s)) b = rd (k_mem s) b).
  { intros b Hb. rewrite rd_store_out, rd_memset by (unfold PGSIZE in *; lia).
    by rewrite decide_False. }
  eexists. split; [done|]. simpl. split; [split; simpl|by split].
  - split; [done|]. rewrite load_store_same.
    rewrite Z.mod_small by by eapply chain_start. by eapply chain_frame.
  - by constructor.
  - by constructor.
  - pose proof (pages_length (p :: l) ltac:(by constructor) ltac:(by constructor)).
    simpl in *. rewrite u64_small; lia.
  - done.
Qed.

Lemma refcnt_inc_run s p :
  mem_lock s = false → page_ok p → 0 < refs s p →
  refcnt_inc p s = Ret (0, set_refcnt (<[refnum p := i32 (refs s p + 1)]> (refcnt s)) s).
Proof.
  intros Hlk Hp Hr. unfold refcnt_inc, acquire, release, ref_get, ref_set. kunfold.
  rewrite Hlk. simpl. rewrite refnum_i32, refnum_index_ok by done. simpl. unfold refs in *.
  rewrite decide_False by lia. simpl. destruct s; simpl in *. by subst.
Qed.

Lemma refcnt_dec_run s p :
  mem_lock s = false → page_ok p → 0 < refs s p →
  refcnt_dec p s = Ret (0, set_refcnt (<[refnum p := i32 (refs s p - 1)]> (refcnt s)) s).
Proof.
  intros Hlk Hp Hr. unfold refcnt_dec, acquire, release, ref_get, ref_set. kunfold.
  rewrite Hlk. simpl. rewrite refnum_i32, refnum_index_ok by done. simpl. unfold refs in *.
  rewrite decide_False by lia. simpl. destruct s; simpl in *. by subst.
Qed.

Lemma set_refcnt_free_list r s l : free_list s l → free_list (set_refcnt r s) l.
Proof. intros []; by split. Qed.

(** ** Initialisation *)

Lemma page_range_app ps n :
  0 ≤ n →
  (λ i, ps + i * PGSIZE) <$> seqZ 0 (n + 1) =
  ((λ i, ps + i * PGSIZE) <$> seqZ 0 n) ++ [ps + n * PGSIZE].
Proof.
  intros Hn. replace n with (Z.of_nat (Z.to_nat n)) by lia.
  replace (Z.of_nat (Z.to_nat n) + 1) with (Z.of_nat (S (Z.to_nat n))) by lia.
  rewrite seqZ_S, fmap_app. done.
Qed.

Lemma page_range_elem ps pe p :
  ps mod PGSIZE = 0 → kernel_end ≤ ps → pe ≤ PHYSTOP_HIGH → p ∈ page_range ps pe → page_ok p.
Proof.
  intros Ha Hk Hpe. unfold page_range. rewrite list_elem_of_fmap.
  intros (i & -> & Hi%elem_of_seqZ). unfold page_ok, PGSIZE in *.
  rewrite Z.mod_add by lia. split; [done|]. split; [lia|].
  pose proof (Z.div_mod (pe - ps) 4096). pose proof (Z.mod_pos_bound (pe - ps) 4096). nia.
Qed.

Lemma page_range_NoDup ps pe : NoDup (page_range ps pe).
Proof. apply NoDup_fmap; [intros i j; unfold PGSIZE; lia|apply NoDup_seqZ]. Qed.

Lemma freerange_run ps s :
  ps mod PGSIZE = 0 → kernel_end ≤ ps ≤ PHYSTOP_HIGH →
  (∀ p, refs s p ≤ 1) → free_list s [] →
  ∃ s', freerange ps PHYSTOP_HIGH s = Ret (tt, s') ∧
        free_list s' (reverse (page_range ps PHYSTOP_HIGH)).
Proof.
  intros Ha Hk Hr Hfl. unfold freerange, arch_is_ram_kva.
  pose proof head_in_image. pose proof kernel_end_le. unfold KERNEL_BASE_HIGH.
  rewrite !bool_decide_eq_true_2 by lia. simpl.
  destruct (forM_inv (λ d s, free_list s (reverse d) ∧ ∀ p, refs s p ≤ 1) kfree
    (page_range ps PHYSTOP_HIGH) [] s) as (s' & Hs' & HP & _); [|done|by exists s'].
  intros d x r s1 Heq [Hd Hr1]. simpl in *.
  pose proof (page_range_NoDup ps PHYSTOP_HIGH) as Hnd. rewrite Heq in Hnd.
  apply NoDup_app in Hnd as (_ & Hdis & _).
  assert (Hx : page_ok x) by (apply (page_range_elem ps PHYSTOP_HIGH);
    [done|lia|lia|rewrite Heq; set_solver]).
  destruct (kfree_push s1 x (reverse d)) as (s2 & Hk2 & Hf2 & Hc2 & _);
    [done|done|rewrite elem_of_reverse; set_solver|apply Hr1|].
  exists s2. rewrite reverse_snoc. split; [done|]. split; [done|].
  intros p. unfold refs. rewrite Hc2. apply Hr1.
Qed.

(** ** The abstract page pool

    What the allocator promises: free pages, last freed first, and the pages
    handed out with the number of references their owners hold. *)
Record pool := mk_pool { pool_free : list Z; pool_owned : gmap Z Z }.

Inductive page_op :=
  | Op_alloc
  | Op_free (p : Z)
  | Op_inc (p : Z)
  | Op_dec (p : Z).

Definition page_exec (o : page_op) : K kmem Z :=
  match o with
  | Op_alloc => kalloc
  | Op_free p => kfree p ;; mret 0
  | Op_inc p => refcnt_inc p
  | Op_dec p => refcnt_dec p
  end.

(** [None]: the client breaks its contract (a page it does not own, a
    reference it does not hold, a count beyond [int]). *)
Definition pool_step (o : page_op) (a : pool) : option (Z * pool) :=
  match o with
  | Op_alloc =>
      match pool_free a with
      | [] => Some (0, a)
      | p :: l => Some (p, mk_pool l (<[p := 1]> (pool_owned a)))
      end
  | Op_free p =>
      n ← pool_owned a !! p;
      if decide (n > 1) then Some (0, mk_pool (pool_free a) (<[p := n - 1]> (pool_owned a)))
      else Some (0, mk_pool (p :: pool_free a) (delete p (pool_owned a)))
  | Op_inc p =>
      n ← pool_owned a !! p;
      if decide (0 < n < 2 ^ 31 - 1)
      then Some (0, mk_pool (pool_free a) (<[p := n + 1]> (pool_owned a))) else None
  | Op_dec p =>
      n ← pool_owned a !! p;
      if decide (0 < n)
      then Some (0, mk_pool (pool_free a) (<[p := n - 1]> (pool_owned a))) else None
  end.

Fixpoint pool_run (os : list page_op) (a : pool) : option (list Z * pool) :=
  match os with
  | [] => Some ([], a)
  | o :: os =>
      match pool_step o a with
      | Some (r, a1) =>
          match pool_run os a1 with Some (rs, a2) => Some (r :: rs, a2) | None => None end
      | None => None
      end
  end.
Fixpoint page_run (os : list page_op) : K kmem (list Z) :=
  match os with
  | [] => mret []
  | o :: os => r ← page_exec o; rs ← page_run os; mret (r :: rs)
  end.

Record pool_rel (s : kmem) (a : pool) : Prop := {
  pr_free : free_list s (pool_free a);
  pr_owned p n : pool_owned a !! p = Some n →
    page_ok p ∧ (p ∉ pool_free a) ∧ refs s p = n ∧ 0 ≤ n < 2 ^ 31
}.

Lemma pool_rel_refcnt s a p n v :
  pool_rel s a → pool_owned a !! p = Some n → 0 ≤ v < 2 ^ 31 →
  pool_rel (set_refcnt (<[refnum p := v]> (refcnt s)) s)
           (mk_pool (pool_free a) (<[p := v]> (pool_owned a))).
Proof.
  intros [Hf Ho] Hp Hv. split; [by apply set_refcnt_free_list|]. simpl.
  destruct (Ho p n Hp) as (Hpo & Hpf & _).
  intros q k. rewrite lookup_insert. destruct (decide (p = q)) as [<-|Hne].
  - intros [= <-]. rewrite set_refcnt_refs, decide_True by done. done.
  - intros Hq. destruct (Ho q k Hq) as (Hqo & Hqf & Hr & Hk).
    rewrite set_refcnt_refs, decide_False by done. done.
Qed.

Lemma pool_step_refines s a o r a' :
  pool_rel s a → pool_step o a = Some (r, a') →
  ∃ s', page_exec o s = Ret (r, s') ∧ pool_rel s' a'.
Proof.
  intros HR Hst. pose proof HR as [Hf Ho]. destruct o as [|p|p|p]; simpl in *.
  - destruct a as [[|p l] own]; simpl in *; injection Hst as <- <-.
    + exists s. by rewrite kalloc_empty.
    + destruct (kalloc_cons s p l Hf) as (s' & -> & Hf' & _ & Hrc & _).
      exists s'. split; [done|]. split; [done|]. simpl. destruct Hf as [_ Hnd Hok _ _].
      apply NoDup_cons in Hnd as [Hpl _]. apply Forall_cons in Hok as [Hp _].
      intros q n. rewrite lookup_insert. unfold refs. rewrite Hrc, lookup_insert.
      destruct (decide (p = q)) as [<-|Hne]; [intros [= <-]; by rewrite decide_True|].
      intros (Hqo & Hqf & Hr & Hn)%Ho. rewrite decide_False
        by (intros ?%refnum_inj; done). set_solver.
  - destruct (pool_owned a !! p) as [n|] eqn:Ep; [|done]. simpl in Hst.
    destruct (Ho p n Ep) as (Hpo & Hpf & Hr & Hn). kunfold. case_decide; simplify_eq.
    + rewrite kfree_dec by (done || apply Hf). eexists. split; [done|].
      rewrite i32_small by lia. by apply (pool_rel_refcnt s a p (refs s p)); [| |lia].
    + destruct (kfree_push s p (pool_free a)) as (s' & -> & Hf' & Hrc & _); [done..|lia|].
      eexists. split; [done|]. split; [done|]. simpl.
      intros q k. rewrite lookup_delete_Some. intros [Hne (Hqo & Hqf & Hrq & Hk)%Ho].
      unfold refs in *. rewrite Hrc. set_solver.
  - destruct (pool_owned a !! p) as [n|] eqn:Ep; [|done]. simpl in Hst.
    destruct (Ho p n Ep) as (Hpo & Hpf & Hr & Hn). case_decide; simplify_eq.
    rewrite refcnt_inc_run by (done || apply Hf || lia). eexists. split; [done|].
    rewrite i32_small by lia. by apply (pool_rel_refcnt s a p (refs s p)); [| |lia].
  - destruct (pool_owned a !! p) as [n|] eqn:Ep; [|done]. simpl in Hst.
    destruct (Ho p n Ep) as (Hpo & Hpf & Hr & Hn). case_decide; simplify_eq.
    rewrite refcnt_dec_run by (done || apply Hf || lia). eexists. split; [done|].
    rewrite i32_small by lia. by apply (pool_rel_refcnt s a p (refs s p)); [| |lia].
Qed.

(** * Theorems *)

(** kalloc on an empty free list returns 0 and changes nothing. *)
Theorem kalloc_spec s l :
  free_list s l →
  match l with
  | [] => kalloc s = Ret (0, s)
  | p :: l' => ∃ s', kalloc s = Ret (p, s') ∧ free_list s' l' ∧
      page_zero (k_mem s') p ∧ refs s' p = 1 ∧
      (∀ q, page_ok q → q ≠ p → refs s' q = refs s q) ∧
      (∀ b, ¬ (p ≤ b < p + PGSIZE) → rd (k_mem s') b = rd (k_mem s) b)
  end.
Proof.
  destruct l as [|p l]; [apply kalloc_empty|]. intros Hf.
  destruct (kalloc_cons s p l Hf) as (s' & -> & Hf' & Hz & Hrc & Hm).
  destruct Hf as [_ _ [Hp _]%Forall_cons _ _]. exists s'. split_and!; try done.
  - unfold refs. by rewrite Hrc, lookup_insert_eq.
  - intros q Hq Hne. unfold refs. rewrite Hrc, lookup_insert, decide_False; [done|].
    intros ?%refnum_inj; congruence.
Qed.

(** C1: Every sequence of page operations (kalloc, refcnt_inc, refcnt_dec,
    kfree) that the abstract pool of pages with reference counts allows is run
    by the free-list allocator without panic or fault, with the same results,
    and the free list, the counts and the abstract pool stay related. *)
Theorem page_run_refines os s a rs a' :
  pool_rel s a → pool_run os a = Some (rs, a') →
  ∃ s', page_run os s = Ret (rs, s') ∧ pool_rel s' a'.
Proof.
  revert s a rs a'. induction os as [|o os IH]; simpl; intros s a rs a' HR Hrun.
  { simplify_eq. by exists s. }
  destruct (pool_step o a) as [[r a1]|] eqn:E1; simpl in Hrun; [|done].
  destruct (pool_run os a1) as [[rs2 a2]|] eqn:E2; simplify_eq/=.
  destruct (pool_step_refines s a o r a1 HR E1) as (s1 & H1 & HR1).
  destruct (IH s1 a1 rs2 a' HR1 E2) as (s2 & H2 & HR2).
  exists s2. kunfold. rewrite H1, H2. done.
Qed.

(** kalloc_init. *)
Theorem kalloc_init_spec s :
  ekalloc_ptr s mod PGSIZE = 0 → kernel_end ≤ ekalloc_ptr s ≤ PHYSTOP_HIGH →
  FMM_size s = 0 → refcnt s = ∅ →
  ∃ s', kalloc_init s = Ret (tt, s') ∧
        free_list s' (reverse (page_range (ekalloc_ptr s) PHYSTOP_HIGH)).
Proof.
  intros Ha Hk Hsz Hrc. unfold kalloc_init. kunfold. apply freerange_run; simpl; [done..| |].
  - intros p. unfold refs. simpl. rewrite Hrc, lookup_empty. simpl. lia.
  - by split; simpl; [|constructor| | |].
Qed.

(** kfree accepts the address one past the managed memory and then
    indexes the reference counts out of bounds. *)
Theorem kfree_phystop_fault s :
  mem_lock s = false → kfree PHYSTOP_HIGH s = Fault.
Proof.
  intros Hlk. pose proof head_in_image. pose proof kernel_end_le. unfold kfree, arch_is_ram_kva.
  rewrite bool_decide_eq_true_2 by (unfold KERNEL_BASE_HIGH; lia). simpl.
  rewrite decide_False by (change (PHYSTOP_HIGH mod PGSIZE) with 0; lia).
  unfold acquire. kunfold. by rewrite Hlk.
Qed.
End kalloc.

(** ** Concrete image

    A kernel whose image ends three pages below the top of RAM. *)
#[local] Instance demo_image : KernelImage.
Proof.
  refine {| KERNEL_BASE_LOW := DRAM_BASE_LOW;
            kernel_end := PHYSTOP_HIGH - 3 * PGSIZE;
            head_addr := PHYSTOP_HIGH - 4 * PGSIZE |}; vm_compute; intuition congruence.
Defined.

Definition demo_boot : kmem := mk_kmem ∅ 0 0 ∅ false kernel_end.
Definition demo_page (i : Z) : Z := kernel_end + i * PGSIZE.
Definition demo_kmem : kmem :=
  mk_kmem (store 8 (store 8 ∅ (demo_page 1) head_addr) (demo_page 2) (demo_page 1))
    (demo_page 2) 2 {[ refnum (demo_page 0) := 2 ]} false PHYSTOP_HIGH.

Lemma demo_page_ok i : 0 ≤ i < 3 → page_ok (demo_page i).
Proof.
  intros Hi. unfold page_ok, demo_page. change kernel_end with (PHYSTOP_HIGH - 3 * PGSIZE).
  rewrite Z.mod_add by (by vm_compute). split; [done|]. unfold PGSIZE. lia.
Qed.

Lemma demo_free_list : free_list demo_kmem [demo_page 2; demo_page 1].
Proof.
  split; simpl; [|by apply (bool_decide_unpack _); vm_compute| |done|done].
  - split; [done|]. vm_compute. done.
  - repeat constructor; by apply (bool_decide_unpack _); vm_compute.
Qed.

Lemma kalloc_spec_witness :
  ∃ s', kalloc demo_kmem = Ret (demo_page 2, s') ∧ free_list s' [demo_page 1].
Proof.
  destruct (kalloc_spec demo_kmem [demo_page 2; demo_page 1] demo_free_list)
    as (s' & H & Hf & _).
  exists s'. done.
Defined.

Lemma page_run_refines_witness :
  ∃ s', page_run [Op_free (demo_page 0); Op_alloc; Op_free (demo_page 0); Op_alloc] demo_kmem
        = Ret ([0; demo_page 2; 0; demo_page 0], s').
Proof.
  edestruct (page_run_refines
    [Op_free (demo_page 0); Op_alloc; Op_free (demo_page 0); Op_alloc] demo_kmem
    (mk_pool [demo_page 2; demo_page 1] {[ demo_page 0 := 2 ]})) as (s' & H & _).
  - split; [apply demo_free_list|]. simpl. intros p n [<- <-]%lookup_singleton_Some.
    split; [|split; [|split]]; [|by apply (bool_decide_unpack _); vm_compute|done|done].
    by apply (bool_decide_unpack _); vm_compute.
  - vm_compute. reflexivity.
  - exists s'. done.
Defined.

Lemma kalloc_init_spec_witness :
  ∃ s', kalloc_init demo_boot = Ret (tt, s') ∧
        free_list s' [demo_page 2; demo_page 1; demo_page 0].
Proof.
  apply (kalloc_init_spec demo_boot); [done| |done|done].
  by apply (bool_decide_unpack _); vm_compute.
Defined.

Lemma kfree_phystop_fault_witness : kfree PHYSTOP_HIGH demo_boot = Fault.
Proof. apply kfree_phystop_fault. reflexivity. Defined.

(** ** The interface to the other components *)

(** What clients of the page allocator rely on: a pool of free pages [l],
    pages that are aligned and nonzero, allocation from the front of the
    pool, and release of an unshared page to its front. *)
Class PageAllocator (P : Type) := {
  page_alloc : K P Z;
  page_free : Z → K P unit;
  is_page : Z → Prop;
  page_pool : P → list Z → Prop;
  page_refs : P → Z → Z;
  image_end : Z;             (* _kernel_end: no page lies below *)
  is_page_range p : is_page p → 0 < p ∧ p + PGSIZE < 2 ^ 64 ∧ p mod PGSIZE = 0;
  is_page_image p : is_page p → image_end ≤ p;
  page_pool_pages s l : page_pool s l → NoDup l ∧ ∀ p, p ∈ l → is_page p;
  page_alloc_nil s : page_pool s [] → page_alloc s = Ret (0, s);
  page_alloc_cons s p l : page_pool s (p :: l) →
    ∃ s', page_alloc s = Ret (p, s') ∧ page_pool s' l ∧ page_refs s' p = 1 ∧
          ∀ q, is_page q → q ≠ p → page_refs s' q = page_refs s q;
  page_free_last s p l : page_pool s l → is_page p → p ∉ l → page_refs s p = 1 →
    ∃ s', page_free p s = Ret (tt, s') ∧ page_pool s' (p :: l) ∧
          ∀ q, is_page q → page_refs s' q = page_refs s q
}.

#[export] Instance kalloc_pages `{KernelImage} : PageAllocator kmem.
Proof.
  refine {| page_alloc := kalloc; page_free := kfree; is_page := page_ok;
            page_pool := free_list; page_refs := refs; image_end := kernel_end |}.
  - intros p Hp. pose proof (page_ok_range p Hp). destruct Hp as (? & ? & ?).
    pose proof kernel_end_le. unfold PHYSTOP_HIGH, PHYSTOP_LOW, DRAM_BASE_LOW, DRAM_SIZE,
      KERNEL_VIRT_OFFSET in *. lia.
  - by intros p (_ & ? & _).
  - intros s l [_ Hnd Hok _ _]. split; [done|]. by apply Forall_forall.
  - apply kalloc_empty.
  - intros s p l Hf. destruct (kalloc_cons s p l Hf) as (s' & -> & Hf' & _ & Hrc & _).
    destruct Hf as [_ _ [Hp _]%Forall_cons _ _]. exists s'. split_and!; try done.
    + unfold refs. by rewrite Hrc, lookup_insert_eq.
    + intros q Hq Hne. unfold refs. rewrite Hrc, lookup_insert, decide_False; [done|].
      intros ?%refnum_inj; congruence.
  - intros s p l Hf Hp Hl Hr.
    destruct (kfree_push s p l) as (s' & -> & Hf' & Hrc & _); [done..|lia|].
    exists s'. split_and!; try done. intros q _. unfold refs. by rewrite Hrc.
Defined.

(** The same allocator seen by a client while the pages [F] are in the hands of
    others: none of them is free, and their counts stay as they are. *)
Definition framed {P} `{PageAllocator P} (F : Z → Prop) : PageAllocator P.
Proof.
  refine {| page_alloc := page_alloc; page_free := page_free; is_page p := is_page p ∧ ¬ F p;
            page_pool s l := page_pool s l ∧ (∀ p, p ∈ l → ¬ F p) ∧ (∀ p, F p → is_page p → page_refs s p = 1);
            page_refs := page_refs; image_end := image_end |}.
  - intros p [Hp _]. by apply is_page_range.
  - intros p [Hp _]. by apply is_page_image.
  - intros s l (Hl & Hf & _). destruct (page_pool_pages s l Hl) as [Hnd Hpg]. split; [done|]. intros p Hp. split; auto.
  - intros s (Hl & _). by apply page_alloc_nil.
  - intros s p l (Hl & Hf & Hr). destruct (page_alloc_cons s p l Hl) as (s' & Ha & Hl' & H1 & Hq).
    exists s'. split_and!; try done.
    + intros q Hq'. apply Hf. by right.
    + intros q Hq' Hp. rewrite Hq; [by apply Hr|done|]. intros ->. apply (Hf p); [by left|done].
    + intros q [Hp _] Hne. by apply Hq.
  - intros s p l (Hl & Hf & Hr) [Hp Hpf] Hpl H1. destruct (page_free_last s p l Hl Hp Hpl H1) as (s' & Ha & Hl' & Hq).
    exists s'. split_and!; try done.
    + intros q [->|Hq']%elem_of_cons; [done|by apply Hf].
    + intros q Hq' Hp'. rewrite Hq by done. by apply Hr.
    + intros q [Hp' _]. by apply Hq.
Defined.
