(* ===== verification/Slab.v ===== *)
(** kernel/mm/slab/slab.c and kernel/mm/kmalloc.c: object caches over pages.

    A cache keeps three lists of slabs (full, partial, empty); a slab is one
    page of equal objects with its header in the page's last 48 bytes, so
    that the header of an object is found by rounding up its address.  Nodes
    of the intrusive lists are the header addresses themselves (the pointer
    work of list.h is verified in ListHead), the free list of a slab is the
    list of its free objects, and constructor, destructor and zeroing calls
    are recorded in a log.  Pages come from any [PageAllocator]. *)
From S2P Require Import Prelude Memory Kalloc.

Definition KM_SLEEP : Z := 0.
Definition KM_NOSLEEP : Z := 1.
(** sizeof(struct kmem_slab) *)
Definition SLAB_HDR : Z := 48.
Definition KMALLOC_MAX_SLAB_SIZE : Z := 2048.
Definition KMALLOC_NUM_CACHES : Z := 9.

Record kmem_slab := mk_slab {
  sl_mem : Z;
  total_objs : Z;
  free_objs : Z;
  sl_cache : Z;
  freelist : list Z
}.

Record kmem_cache := mk_cache {
  c_name : list Z;
  obj_size : Z;
  total_size : Z;
  c_align : Z;
  c_lock : bool;
  constructor : Z;             (* function pointers, 0 for none *)
  destructor : Z;
  slabs_full : list Z;
  slabs_partial : list Z;
  slabs_empty : list Z
}.

(** Calls whose effect is on the bytes of an object. *)
Inductive obj_call :=
  | Construct (f obj size : Z)
  | Destruct (f obj size : Z)
  | Zeroed (obj size : Z).

Record slab_state (P : Type) := mk_slab_state {
  sl_pages : P;
  caches : gmap Z kmem_cache;          (* by the page that holds the descriptor *)
  slab_at : gmap Z kmem_slab;          (* by header address *)
  cache_list : list Z;                 (* slab_cache.cache_list *)
  cache_list_lock : bool;              (* slab_cache.lock *)
  slab_cache_init : Z;
  obj_calls : list obj_call;
  kmalloc_caches : list Z;
  kmalloc_ready : Z
}.
Arguments mk_slab_state {_} _ _ _ _ _ _ _ _ _.
Arguments sl_pages {_} _.
Arguments caches {_} _.
Arguments slab_at {_} _.
Arguments cache_list {_} _.
Arguments cache_list_lock {_} _.
Arguments slab_cache_init {_} _.
Arguments obj_calls {_} _.
Arguments kmalloc_caches {_} _.
Arguments kmalloc_ready {_} _.

Section slab.
Context {P : Type} `{PageAllocator P}.
Abbreviation st := (slab_state P).

Definition set_pages (x : P) (s : st) : st :=
  mk_slab_state x (caches s) (slab_at s) (cache_list s) (cache_list_lock s)
    (slab_cache_init s) (obj_calls s) (kmalloc_caches s) (kmalloc_ready s).
Definition set_caches x (s : st) : st :=
  mk_slab_state (sl_pages s) x (slab_at s) (cache_list s) (cache_list_lock s)
    (slab_cache_init s) (obj_calls s) (kmalloc_caches s) (kmalloc_ready s).
Definition set_slab_at x (s : st) : st :=
  mk_slab_state (sl_pages s) (caches s) x (cache_list s) (cache_list_lock s)
    (slab_cache_init s) (obj_calls s) (kmalloc_caches s) (kmalloc_ready s).
Definition set_cache_list x (s : st) : st :=
  mk_slab_state (sl_pages s) (caches s) (slab_at s) x (cache_list_lock s)
    (slab_cache_init s) (obj_calls s) (kmalloc_caches s) (kmalloc_ready s).
Definition set_cache_list_lock x (s : st) : st :=
  mk_slab_state (sl_pages s) (caches s) (slab_at s) (cache_list s) x
    (slab_cache_init s) (obj_calls s) (kmalloc_caches s) (kmalloc_ready s).
Definition set_slab_cache_init x (s : st) : st :=
  mk_slab_state (sl_pages s) (caches s) (slab_at s) (cache_list s) (cache_list_lock s)
    x (obj_calls s) (kmalloc_caches s) (kmalloc_ready s).
Definition set_calls x (s : st) : st :=
  mk_slab_state (sl_pages s) (caches s) (slab_at s) (cache_list s) (cache_list_lock s)
    (slab_cache_init s) x (kmalloc_caches s) (kmalloc_ready s).
Definition set_kmalloc_caches x (s : st) : st :=
  mk_slab_state (sl_pages s) (caches s) (slab_at s) (cache_list s) (cache_list_lock s)
    (slab_cache_init s) (obj_calls s) x (kmalloc_ready s).
Definition log_call x (s : st) : st := set_calls (obj_calls s ++ [x]) s.
Definition set_kmalloc_ready x (s : st) : st :=
  mk_slab_state (sl_pages s) (caches s) (slab_at s) (cache_list s) (cache_list_lock s)
    (slab_cache_init s) (obj_calls s) (kmalloc_caches s) x.

(** ** Accesses through pointers; a wild pointer is a fault *)

Definition get_cache (cp : Z) : K st kmem_cache := λ s,
  match caches s !! cp with Some c => Ret (c, s) | None => Fault end.
Definition put_cache (cp : Z) (c : kmem_cache) : K st unit :=
  modify (λ s, set_caches (<[cp := c]> (caches s)) s).
Definition get_slab (a : Z) : K st kmem_slab := λ s,
  match slab_at s !! a with Some r => Ret (r, s) | None => Fault end.
Definition put_slab (a : Z) (r : kmem_slab) : K st unit :=
  modify (λ s, set_slab_at (<[a := r]> (slab_at s)) s).

Definition set_c_lock (b : bool) (c : kmem_cache) : kmem_cache :=
  mk_cache (c_name c) (obj_size c) (total_size c) (c_align c) b (constructor c) (destructor c)
    (slabs_full c) (slabs_partial c) (slabs_empty c).
Definition set_total_size (n : Z) (c : kmem_cache) : kmem_cache :=
  mk_cache (c_name c) (obj_size c) n (c_align c) (c_lock c) (constructor c) (destructor c)
    (slabs_full c) (slabs_partial c) (slabs_empty c).
Definition set_lists (f p e : list Z) (c : kmem_cache) : kmem_cache :=
  mk_cache (c_name c) (obj_size c) (total_size c) (c_align c) (c_lock c) (constructor c)
    (destructor c) f p e.

Definition acquire_cache (cp : Z) : K st unit :=
  c ← get_cache cp;
  if c_lock c then kpanic "acquire: already holding lock" else put_cache cp (set_c_lock true c).
Definition release_cache (cp : Z) : K st unit :=
  c ← get_cache cp;
  if c_lock c then put_cache cp (set_c_lock false c) else kpanic "release: not holding lock".

(** [list_del(&slab->list)]: the node leaves whichever list holds it. *)
Definition unlink_slab (a : Z) (c : kmem_cache) : kmem_cache :=
  set_lists (filter (.≠ a) (slabs_full c)) (filter (.≠ a) (slabs_partial c))
            (filter (.≠ a) (slabs_empty c)) c.
Definition slab_list_del (a : Z) : K st unit :=
  modify (λ s, set_caches (unlink_slab a <$> caches s) s).

(** [list_add_tail(&slab->list, &cp->slabs_...)] *)
Definition add_full (cp a : Z) : K st unit :=
  c ← get_cache cp;
  put_cache cp (set_lists (slabs_full c ++ [a]) (slabs_partial c) (slabs_empty c) c).
Definition add_partial (cp a : Z) : K st unit :=
  c ← get_cache cp;
  put_cache cp (set_lists (slabs_full c) (slabs_partial c ++ [a]) (slabs_empty c) c).
Definition add_empty (cp a : Z) : K st unit :=
  c ← get_cache cp;
  put_cache cp (set_lists (slabs_full c) (slabs_partial c) (slabs_empty c ++ [a]) c).

(** kalloc and kfree: a released page no longer holds a header or a
    descriptor. *)
Definition slab_kalloc : K st Z := zoom sl_pages set_pages page_alloc.
Definition slab_kfree (p : Z) : K st unit :=
  zoom sl_pages set_pages (page_free p) ;;
  modify (λ s, set_slab_at (delete (p + PGSIZE - SLAB_HDR) (slab_at s)) s) ;;
  modify (λ s, set_caches (delete p (caches s)) s).

(** ** slab.c *)

Definition is_power_of_two (x : Z) : bool :=
  bool_decide (x ≠ 0) && bool_decide (Z.land x (u64 (x - 1)) = 0).

Definition slab_init : K st unit :=
  i ← gets slab_cache_init;
  if decide (i = 1) then mret tt
  else
    modify (set_cache_list []) ;;
    modify (set_cache_list_lock false) ;;
    modify (set_slab_cache_init 1).

Definition kmem_cache_create (name : list Z) (size align ctor dtor : Z) : K st Z :=
  cache ← slab_kalloc;
  if decide (cache = 0) then mret 0 else
  let size := if decide (size < 8) then 8 else size in
  if bool_decide (align ≠ 0) && negb (is_power_of_two (u64 align)) then
    slab_kfree cache ;; mret 0
  else
  let align := if decide (align = 0) then 8 else align in
  let size := ALIGN_UP size align in
  put_cache cache (mk_cache (take 31 name) size 0 align false ctor dtor [] [] []) ;;
  acquire cache_list_lock set_cache_list_lock ;;
  modify (λ s, set_cache_list (cache_list s ++ [cache]) s) ;;
  release cache_list_lock set_cache_list_lock ;;
  mret cache.

(** The header of the page an address lies in. *)
Definition slab_of (buf : Z) : Z := u64 (Z.lor buf (PGSIZE - 1) + 1 - SLAB_HDR).

(** The objects of a slab, in the order the loops visit them. *)
Definition slab_objs (base size n : Z) : list Z := (λ i, base + i * size) <$> seqZ 0 n.

Definition kmem_cache_grow (cp : Z) : K st Z :=
  new_space ← slab_kalloc;
  if decide (new_space = 0) then mret 0 else
  let slab := slab_of new_space in
  c ← get_cache cp;
  if decide (obj_size c = 0) then kfault else
  let total := u32 ((PGSIZE - SLAB_HDR) / obj_size c) in
  put_slab slab (mk_slab new_space total 0 cp []) ;;
  if decide (total = 0) then slab_kfree new_space ;; mret 0 else
  forM (slab_objs new_space (obj_size c) total) (λ node,
    (if decide (constructor c ≠ 0)
     then modify (log_call (Construct (constructor c) node (obj_size c))) else mret tt) ;;
    r ← get_slab slab;
    put_slab slab (mk_slab new_space total total cp (node :: freelist r))) ;;
  acquire_cache cp ;;
  c ← get_cache cp;
  put_cache cp (set_total_size (u64 (total_size c + PGSIZE)) c) ;;
  add_empty cp slab ;;
  release_cache cp ;;
  mret PGSIZE.

(** The destructor loop shared by reap and destroy. *)
Definition destruct_objs (c : kmem_cache) (base n : Z) : K st unit :=
  forM (slab_objs base (obj_size c) n) (λ node,
    if decide (destructor c ≠ 0)
    then modify (log_call (Destruct (destructor c) node (obj_size c))) else mret tt).

Definition kmem_cache_reap (cp : Z) : K st Z :=
  if decide (cp = 0) then mret (-1) else
  acquire_cache cp ;;
  c ← get_cache cp;
  match slabs_empty c with
  | [] => release_cache cp ;; mret (-1)
  | a :: _ =>
      r ← get_slab a;
      if decide (free_objs r ≠ total_objs r) then release_cache cp ;; mret (-1) else
      slab_list_del a ;;
      c ← get_cache cp;
      put_cache cp (set_total_size (u64 (total_size c - PGSIZE)) c) ;;
      release_cache cp ;;
      destruct_objs c (sl_mem r) (total_objs r) ;;
      slab_kfree (sl_mem r) ;;
      mret 0
  end.

(** The choice of a slab at the head of kmem_cache_alloc's loop. *)
Definition pick_slab (c : kmem_cache) : option Z :=
  match slabs_partial c with
  | a :: _ => Some a
  | [] => match slabs_empty c with a :: _ => Some a | [] => None end
  end.

(** One round of the [for (;;)]: [inr (inl v)] returns [v], [inr (inr a)]
    breaks with slab [a], [inl] goes round again. *)
Definition alloc_round (cp flags : Z) : K st (unit + (Z + Z)) :=
  c ← get_cache cp;
  match pick_slab c with
  | Some a => mret (inr (inr a))
  | None =>
      if decide (flags = KM_NOSLEEP) then release_cache cp ;; mret (inr (inl 0)) else
      release_cache cp ;;
      g ← kmem_cache_grow cp;
      if decide (g = 0) then mret (inr (inl 0)) else
      acquire_cache cp ;; mret (inl tt)
  end.

(** What follows the loop: take the first free object of slab [a]. *)
Definition alloc_from (cp a : Z) : K st Z :=
  r ← get_slab a;
  if decide (free_objs r = 0) then release_cache cp ;; mret 0 else
  match freelist r with
  | [] => kfault                       (* node->next of a null node *)
  | node :: rest =>
      let was_empty := bool_decide (free_objs r = total_objs r) in
      let n := u32 (free_objs r - 1) in
      put_slab a (mk_slab (sl_mem r) (total_objs r) n (sl_cache r) rest) ;;
      (if was_empty then
         if decide (n ≠ 0) then slab_list_del a ;; add_partial cp a
         else slab_list_del a ;; add_full cp a
       else if decide (n = 0) then slab_list_del a ;; add_full cp a
       else mret tt) ;;
      release_cache cp ;;
      mret node
  end.

(** Two rounds are enough: grow leaves a slab on [slabs_empty]. *)
Definition kmem_cache_alloc (cp flags : Z) : K st Z :=
  if decide (cp = 0) then mret 0 else
  acquire_cache cp ;;
  res ← loop 2 (λ _, alloc_round cp flags) tt;
  match res with
  | inl v => mret v
  | inr a => alloc_from cp a
  end.

Definition kmem_cache_free (cp buf : Z) : K st unit :=
  if decide (cp = 0 ∨ buf = 0) then mret tt else
  acquire_cache cp ;;
  let slab := slab_of buf in
  r ← get_slab slab;
  if decide (buf < sl_mem r ∨ u64 (sl_mem r + PGSIZE) ≤ buf)
  then kpanic "kmem_cache_free: buf is not in slab" else
  if decide (buf ∈ freelist r) then release_cache cp else   (* double free *)
  let was_full := bool_decide (free_objs r = 0) in
  let n := u32 (free_objs r + 1) in
  put_slab slab (mk_slab (sl_mem r) (total_objs r) n (sl_cache r) (freelist r)) ;;
  if decide (n > total_objs r)
  then release_cache cp ;; kpanic "kmem_cache_free: slab->free_objs > slab->total_objs" else
  put_slab slab (mk_slab (sl_mem r) (total_objs r) n (sl_cache r) (buf :: freelist r)) ;;
  if decide (n = total_objs r) then
    slab_list_del slab ;; add_empty cp slab ;; release_cache cp
  else if was_full then
    slab_list_del slab ;; add_partial cp slab ;; release_cache cp
  else release_cache cp.

Definition destroy_round (cp : Z) : K st (unit + unit) :=
  acquire_cache cp ;;
  c ← get_cache cp;
  match slabs_empty c with
  | [] => release_cache cp ;; mret (inr tt)
  | a :: _ =>
      r ← get_slab a;
      if decide (free_objs r ≠ total_objs r) then kpanic "destroy non-empty slab" else
      slab_list_del a ;;
      c ← get_cache cp;
      if decide (total_size c < PGSIZE)
      then release_cache cp ;; kpanic "kmem_cache_destroy: cp->total_size < PGSIZE" else
      put_cache cp (set_total_size (u64 (total_size c - PGSIZE)) c) ;;
      release_cache cp ;;
      destruct_objs c (sl_mem r) (total_objs r) ;;
      slab_kfree (sl_mem r) ;;
      mret (inl tt)
  end.

(** Each round takes one slab off [slabs_empty]. *)
Definition kmem_cache_destroy (cp : Z) : K st unit :=
  if decide (cp = 0) then mret tt else
  acquire_cache cp ;;
  c ← get_cache cp;
  if decide (slabs_full c ≠ [] ∨ slabs_partial c ≠ []) then release_cache cp else
  release_cache cp ;;
  loop (S (length (slabs_empty c))) (λ _, destroy_round cp) tt ;;
  acquire cache_list_lock set_cache_list_lock ;;
  modify (λ s, set_cache_list (filter (.≠ cp) (cache_list s)) s) ;;
  release cache_list_lock set_cache_list_lock ;;
  slab_kfree cp.

(** ** kmalloc.c *)

(** [while ((8 << idx) < size) idx++] *)
Fixpoint size_class (fuel : nat) (idx size : Z) : Z :=
  match fuel with
  | O => idx
  | S f => if decide (Z.shiftl 8 idx < size) then size_class f (idx + 1) size else idx
  end.

(** The bytes of "kmalloc". *)
Definition kmalloc_name : list Z := [107; 109; 97; 108; 108; 111; 99].

Definition kmalloc_cache_init : K st Z :=
  ready ← gets kmalloc_ready;
  if decide (ready ≠ 0) then mret 0 else
  forM (seqZ 0 KMALLOC_NUM_CACHES) (λ idx,
    c ← kmem_cache_create kmalloc_name (Z.shiftl 8 idx) 0 0 0;
    modify (λ s, set_kmalloc_caches (<[Z.to_nat idx := c]> (kmalloc_caches s)) s)) ;;
  modify (set_kmalloc_ready 1) ;;
  mret 0.

Definition kmalloc (size : Z) : K st Z :=
  ready ← gets kmalloc_ready;
  (if decide (ready = 0) then kmalloc_cache_init ;; mret tt else mret tt) ;;
  if decide (size ≤ KMALLOC_MAX_SLAB_SIZE) then
    let idx := size_class 9 0 size in
    cs ← gets kmalloc_caches;
    match cs !! Z.to_nat idx with
    | None => kfault
    | Some cp =>
        if decide (cp = 0) then mret 0 else
        p ← kmem_cache_alloc cp KM_SLEEP;
        if decide (p = 0) then mret 0 else
        modify (log_call (Zeroed p (Z.shiftl 8 idx))) ;;
        mret p
    end
  else if decide (size ≤ PGSIZE - SLAB_HDR) then
    p ← slab_kalloc;
    if decide (p = 0) then mret 0 else
    put_slab (p + PGSIZE - SLAB_HDR) (mk_slab 0 0 0 0 []) ;;
    mret p
  else mret 0.

Definition kmfree (ptr : Z) : K st unit :=
  if decide (ptr = 0) then mret tt else
  if decide (ptr < image_end) then kpanic "kfree_any: bad pointer" else
  r ← get_slab (slab_of ptr);
  if decide (sl_cache r ≠ 0) then kmem_cache_free (sl_cache r) ptr else slab_kfree ptr.

(** ** Invariant *)

Definition all_slabs (c : kmem_cache) : list Z := slabs_full c ++ slabs_partial c ++ slabs_empty c.

(** A slab of a cache: where its header is, and its free list. *)
Record slab_wf (c : kmem_cache) (a : Z) (r : kmem_slab) : Prop := {
  sw_hdr : a = sl_mem r + (PGSIZE - SLAB_HDR);
  sw_total : total_objs r = (PGSIZE - SLAB_HDR) / obj_size c;
  sw_pos : 0 < total_objs r;
  sw_free : free_objs r = Z.of_nat (length (freelist r));
  sw_nodup : NoDup (freelist r);
  sw_objs o : o ∈ freelist r → o ∈ slab_objs (sl_mem r) (obj_size c) (total_objs r)
}.

(** The list a slab is on agrees with its count of free objects. *)
Record cache_wf (m : gmap Z kmem_slab) (cp : Z) (c : kmem_cache) : Prop := {
  cw_lock : c_lock c = false;
  cw_size : 8 ≤ obj_size c;
  cw_nodup : NoDup (all_slabs c);
  cw_slab a : a ∈ all_slabs c → ∃ r, m !! a = Some r ∧ sl_cache r = cp ∧ slab_wf c a r;
  cw_full a r : a ∈ slabs_full c → m !! a = Some r → free_objs r = 0;
  cw_partial a r : a ∈ slabs_partial c → m !! a = Some r → 0 < free_objs r < total_objs r;
  cw_empty a r : a ∈ slabs_empty c → m !! a = Some r → free_objs r = total_objs r;
  cw_total : total_size c = u64 (PGSIZE * Z.of_nat (length (all_slabs c)))
}.

(** A page the caches use: in no one else's hands. *)
Definition page_used (s : st) (l : list Z) (p : Z) : Prop :=
  is_page p ∧ (p ∉ l) ∧ page_refs (sl_pages s) p = 1.

Record slab_inv (s : st) (l : list Z) : Prop := {
  si_pool : page_pool (sl_pages s) l;
  si_lock : cache_list_lock s = false;
  si_caches cp c : caches s !! cp = Some c → page_used s l cp ∧ cache_wf (slab_at s) cp c;
  si_slabs a r : slab_at s !! a = Some r →
    page_used s l (a - (PGSIZE - SLAB_HDR)) ∧ caches s !! (a - (PGSIZE - SLAB_HDR)) = None ∧
    (sl_cache r ≠ 0 → ∃ c, caches s !! sl_cache r = Some c ∧ a ∈ all_slabs c)
}.

(** Object [o] of cache [cp] is in the hands of a client. *)
Definition live (s : st) (cp o : Z) : Prop :=
  ∃ c a r, caches s !! cp = Some c ∧ a ∈ all_slabs c ∧ slab_at s !! a = Some r ∧
    o ∈ slab_objs (sl_mem r) (obj_size c) (total_objs r) ∧ o ∉ freelist r.

(** ** Symbolic execution *)

Definition cput (cp : Z) (c : kmem_cache) (s : st) : st := set_caches (<[cp := c]> (caches s)) s.
Definition sput (a : Z) (r : kmem_slab) (s : st) : st := set_slab_at (<[a := r]> (slab_at s)) s.

Lemma cput_cput cp c1 c2 s : cput cp c2 (cput cp c1 s) = cput cp c2 s.
Proof. unfold cput, set_caches. simpl. by rewrite insert_insert_eq. Qed.
Lemma sput_sput a r1 r2 s : sput a r2 (sput a r1 s) = sput a r2 s.
Proof. unfold sput, set_slab_at. simpl. by rewrite insert_insert_eq. Qed.
Lemma sput_cput a r cp c s : sput a r (cput cp c s) = cput cp c (sput a r s).
Proof. done. Qed.
Lemma cput_id cp c s : caches s !! cp = Some c → cput cp c s = s.
Proof. intros E. destruct s; unfold cput, set_caches; simpl in *. by rewrite insert_id. Qed.
Lemma caches_cput cp c s : caches (cput cp c s) !! cp = Some c.
Proof. apply lookup_insert_eq. Qed.

Lemma get_cache_run cp c s : caches s !! cp = Some c → get_cache cp s = Ret (c, s).
Proof. intros E. unfold get_cache. by rewrite E. Qed.
Lemma get_slab_run a r s : slab_at s !! a = Some r → get_slab a s = Ret (r, s).
Proof. intros E. unfold get_slab. by rewrite E. Qed.

Lemma acquire_cache_run cp c s :
  caches s !! cp = Some c → c_lock c = false →
  acquire_cache cp s = Ret (tt, cput cp (set_c_lock true c) s).
Proof. intros E L. unfold acquire_cache. rewrite (bind_Ret _ _ _ _ _ (get_cache_run _ _ _ E)). by rewrite L. Qed.
Lemma release_cache_run cp c s :
  caches s !! cp = Some c → c_lock c = true →
  release_cache cp s = Ret (tt, cput cp (set_c_lock false c) s).
Proof. intros E L. unfold release_cache. rewrite (bind_Ret _ _ _ _ _ (get_cache_run _ _ _ E)). by rewrite L. Qed.

Lemma set_c_lock_id c : c_lock c = false → set_c_lock false (set_c_lock true c) = c.
Proof. destruct c; simpl; by intros ->. Qed.

Lemma unlink_notin a c : a ∉ all_slabs c → unlink_slab a c = c.
Proof.
  unfold all_slabs, unlink_slab, set_lists. intros Ha. destruct c; simpl in *.
  f_equal; apply filter_ne_notin; set_solver.
Qed.

Lemma slab_list_del_run a cp c s :
  caches s !! cp = Some c →
  (∀ cp' c', caches s !! cp' = Some c' → cp' ≠ cp → a ∉ all_slabs c') →
  slab_list_del a s = Ret (tt, cput cp (unlink_slab a c) s).
Proof.
  intros E Ho. unfold slab_list_del, modify, cput. do 2 f_equal.
  unfold set_caches. f_equal. apply map_eq. intros k. rewrite lookup_fmap, lookup_insert.
  case_decide as Hk; [subst; by rewrite E|].
  destruct (caches s !! k) as [c'|] eqn:Ek; [|done]. simpl. f_equal.
  apply unlink_notin. by eapply Ho.
Qed.

Lemma add_full_run cp a c s :
  caches s !! cp = Some c →
  add_full cp a s = Ret (tt, cput cp (set_lists (slabs_full c ++ [a]) (slabs_partial c) (slabs_empty c) c) s).
Proof. intros E. unfold add_full. by rewrite (bind_Ret _ _ _ _ _ (get_cache_run _ _ _ E)). Qed.
Lemma add_partial_run cp a c s :
  caches s !! cp = Some c →
  add_partial cp a s = Ret (tt, cput cp (set_lists (slabs_full c) (slabs_partial c ++ [a]) (slabs_empty c) c) s).
Proof. intros E. unfold add_partial. by rewrite (bind_Ret _ _ _ _ _ (get_cache_run _ _ _ E)). Qed.
Lemma add_empty_run cp a c s :
  caches s !! cp = Some c →
  add_empty cp a s = Ret (tt, cput cp (set_lists (slabs_full c) (slabs_partial c) (slabs_empty c ++ [a]) c) s).
Proof. intros E. unfold add_empty. by rewrite (bind_Ret _ _ _ _ _ (get_cache_run _ _ _ E)). Qed.

(** Lists of different caches are disjoint. *)
Lemma slab_owner s l a cp c cp' c' :
  slab_inv s l → caches s !! cp = Some c → a ∈ all_slabs c →
  caches s !! cp' = Some c' → a ∈ all_slabs c' → cp' = cp.
Proof.
  intros HI E Ha E' Ha'. destruct (si_caches _ _ HI _ _ E) as [_ W], (si_caches _ _ HI _ _ E') as [_ W'].
  destruct (cw_slab _ _ _ W a Ha) as (r & Hr & <- & _).
  destruct (cw_slab _ _ _ W' a Ha') as (r' & Hr' & <- & _). congruence.
Qed.

(** ** Objects and headers *)

Lemma slab_objs_elem base size n o :
  o ∈ slab_objs base size n ↔ ∃ i, 0 ≤ i < n ∧ o = base + i * size.
Proof.
  unfold slab_objs. rewrite list_elem_of_fmap. setoid_rewrite elem_of_seqZ.
  split; intros (i & ? & ?); exists i; split; lia || done.
Qed.

Lemma slab_objs_NoDup base size n : size ≠ 0 → NoDup (slab_objs base size n).
Proof. intros Hs. apply NoDup_fmap; [intros i j ?; nia|apply NoDup_seqZ]. Qed.

(** An object lies in its page, below the header. *)
Lemma obj_bounds c a r o :
  8 ≤ obj_size c → slab_wf c a r → o ∈ slab_objs (sl_mem r) (obj_size c) (total_objs r) →
  sl_mem r ≤ o ∧ o + obj_size c ≤ a.
Proof.
  intros Hs [-> Ht _ _ _ _] (i & Hi & ->)%slab_objs_elem. unfold PGSIZE, SLAB_HDR in *.
  pose proof (Z.div_mod (4096 - 48) (obj_size c)).
  pose proof (Z.mod_pos_bound (4096 - 48) (obj_size c)). nia.
Qed.

Lemma slab_of_page p o :
  is_page p → p ≤ o < p + PGSIZE → slab_of o = p + (PGSIZE - SLAB_HDR).
Proof.
  intros (Hp & Hp2 & Ha)%is_page_range Ho. unfold slab_of, PGSIZE, SLAB_HDR in *.
  change (4096 - 1) with (2 ^ 12 - 1). rewrite lor_ones by lia. change (2 ^ 12) with 4096.
  assert (o / 4096 = p / 4096) as -> by
    (pose proof (Z.div_mod p 4096); symmetry; apply Z.div_unique with (o - p); lia).
  pose proof (Z.div_mod p 4096). rewrite u64_small; lia.
Qed.

Lemma slab_of_obj s l cp c a r o :
  slab_inv s l → caches s !! cp = Some c → a ∈ all_slabs c → slab_at s !! a = Some r →
  o ∈ slab_objs (sl_mem r) (obj_size c) (total_objs r) →
  slab_of o = a ∧ sl_mem r ≤ o < u64 (sl_mem r + PGSIZE) ∧ o ≠ 0.
Proof.
  intros HI E Ha Er Ho. destruct (si_caches _ _ HI _ _ E) as [_ W].
  destruct (cw_slab _ _ _ W a Ha) as (r' & Hr' & _ & Hw). simplify_eq.
  pose proof (obj_bounds c a r o (cw_size _ _ _ W) Hw Ho).
  pose proof (cw_size _ _ _ W).
  destruct (si_slabs _ _ HI _ _ Er) as ((Hpg & _) & _).
  rewrite (sw_hdr _ _ _ Hw) in *. rewrite Z.add_simpl_r in Hpg.
  pose proof (is_page_range _ Hpg). unfold PGSIZE, SLAB_HDR in *.
  rewrite (slab_of_page (sl_mem r)) by (done || (unfold PGSIZE; lia)).
  rewrite u64_small; unfold PGSIZE, SLAB_HDR; lia.
Qed.

(** ** Updating one slab *)

Section update.
Context (s : st) (l : list Z) (cp a : Z) (c c' : kmem_cache) (r r' : kmem_slab).
Context (HI : slab_inv s l) (Ec : caches s !! cp = Some c) (Ha : a ∈ all_slabs c)
        (Er : slab_at s !! a = Some r).
Context (Hmem : sl_mem r' = sl_mem r) (Htot : total_objs r' = total_objs r)
        (Hown : sl_cache r' = sl_cache r) (Hwf : slab_wf c a r').
Context (Hsize : obj_size c' = obj_size c) (Hlock : c_lock c' = false)
        (Hts : total_size c' = total_size c) (Hperm : all_slabs c' ≡ₚ all_slabs c).
Context (Hother : ∀ b, b ≠ a →
          (b ∈ slabs_full c' ↔ b ∈ slabs_full c) ∧
          (b ∈ slabs_partial c' ↔ b ∈ slabs_partial c) ∧
          (b ∈ slabs_empty c' ↔ b ∈ slabs_empty c))
        (Hfull : a ∈ slabs_full c' → free_objs r' = 0)
        (Hpart : a ∈ slabs_partial c' → 0 < free_objs r' < total_objs r')
        (Hempt : a ∈ slabs_empty c' → free_objs r' = total_objs r').

Let s' := cput cp c' (sput a r' s).

Lemma update_slab_wf b rb : slab_wf c b rb → slab_wf c' b rb.
Proof. intros []; split; rewrite ?Hsize in *; done. Qed.

Lemma update_lookup_slab b : slab_at s' !! b = if decide (a = b) then Some r' else slab_at s !! b.
Proof. unfold s'. simpl. by rewrite lookup_insert. Qed.
Lemma update_lookup_cache k : caches s' !! k = if decide (cp = k) then Some c' else caches s !! k.
Proof. unfold s'. simpl. by rewrite lookup_insert. Qed.

Lemma update_cache_wf : cache_wf (slab_at s') cp c'.
Proof.
  destruct (si_caches _ _ HI _ _ Ec) as [_ W]. split.
  - done.
  - rewrite Hsize. apply W.
  - rewrite Hperm. apply W.
  - intros b. rewrite Hperm, update_lookup_slab. intros Hb.
    destruct (cw_slab _ _ _ W b Hb) as (rb & Hrb & Ho & Hw). case_decide as Hab.
    + subst b. exists r'. simplify_eq. split; [done|]. split; [done|]. by apply update_slab_wf.
    + exists rb. split; [done|]. split; [done|]. by apply update_slab_wf.
  - intros b rb Hb. rewrite update_lookup_slab. case_decide as Hab.
    + intros [= <-]. apply Hfull. by subst.
    + apply (cw_full _ _ _ W). by apply (Hother b).
  - intros b rb Hb. rewrite update_lookup_slab. case_decide as Hab.
    + intros [= <-]. apply Hpart. by subst.
    + apply (cw_partial _ _ _ W). by apply (Hother b).
  - intros b rb Hb. rewrite update_lookup_slab. case_decide as Hab.
    + intros [= <-]. apply Hempt. by subst.
    + apply (cw_empty _ _ _ W). by apply (Hother b).
  - rewrite Hts, Hperm. apply W.
Qed.

Lemma update_inv : slab_inv s' l.
Proof.
  destruct (si_caches _ _ HI _ _ Ec) as [Hu W]. split; [apply HI|apply HI|..].
  - intros k ck. rewrite update_lookup_cache. case_decide as Hk.
    + intros [= <-]. subst k. split; [done|apply update_cache_wf].
    + intros Ek. destruct (si_caches _ _ HI _ _ Ek) as [Hku Wk]. split; [done|].
      assert (Hna : a ∉ all_slabs ck).
      { intros Hak. apply Hk. symmetry. by apply (slab_owner s l a cp c k ck). }
      unfold all_slabs in Hna. destruct Wk as [L1 L2 L3 L4 L5 L6 L7 L8].
      split; try done; intros b; rewrite update_lookup_slab.
      * intros Hb. rewrite decide_False by (intros <-; done). by apply L4.
      * intros rb Hb. rewrite decide_False by set_solver. by apply L5.
      * intros rb Hb. rewrite decide_False by set_solver. by apply L6.
      * intros rb Hb. rewrite decide_False by set_solver. by apply L7.
  - intros b rb. rewrite update_lookup_slab. intros Hb.
    assert (∃ rb0, slab_at s !! b = Some rb0 ∧ sl_cache rb0 = sl_cache rb) as (rb0 & Eb & Hc).
    { case_decide; [exists r; subst; naive_solver|by exists rb]. }
    destruct (si_slabs _ _ HI _ _ Eb) as (H1 & H2 & H3). split; [done|].
    rewrite !update_lookup_cache. split.
    + rewrite decide_False; [done|]. intros ->. congruence.
    + rewrite <-Hc. intros (c0 & Ec0 & Hb0)%H3.
      destruct (decide (cp = sl_cache rb0)) as [Hk|Hk].
      * exists c'. split; [done|]. rewrite Hperm. rewrite <-Hk in Ec0. by simplify_eq.
      * by exists c0.
Qed.

Lemma update_live k o :
  live s' k o ↔
  (live s k o ∧ ¬ (k = cp ∧ o ∈ slab_objs (sl_mem r) (obj_size c) (total_objs r))) ∨
  (k = cp ∧ o ∈ slab_objs (sl_mem r) (obj_size c) (total_objs r) ∧ o ∉ freelist r').
Proof.
  unfold live. setoid_rewrite update_lookup_slab. setoid_rewrite update_lookup_cache.
  split.
  - intros (c1 & b & rb & E1 & Hb & Eb & Ho & Hf).
    destruct (decide (cp = k)) as [Hk|Hk].
    + subst k. injection E1 as <-. rewrite Hperm in Hb. rewrite Hsize in Ho.
      destruct (decide (a = b)) as [Hab|Hab].
      * subst b. injection Eb as <-. right. rewrite Hmem, Htot in Ho. done.
      * left. split; [by exists c, b, rb|]. intros [_ Ho'].
        destruct (slab_of_obj s l cp c a r o) as [Hs1 _]; [done..|].
        destruct (slab_of_obj s l cp c b rb o) as [Hs2 _]; [done..|]. congruence.
    + left. split; [|naive_solver].
      rewrite decide_False in Eb; [by exists c1, b, rb|]. intros <-.
      apply Hk. symmetry. by apply (slab_owner s l a cp c k c1).
  - intros [[(c1 & b & rb & E1 & Hb & Eb & Ho & Hf) Hn]|(-> & Ho & Hf)].
    + destruct (decide (cp = k)) as [<-|Hk].
      * assert (c1 = c) as -> by congruence. exists c', b, rb. rewrite Hperm, Hsize.
        split; [done|]. split; [done|]. rewrite decide_False; [done|].
        intros <-. apply Hn. assert (rb = r) as -> by congruence. done.
      * exists c1, b, rb. split; [done|]. split; [done|]. rewrite decide_False; [done|].
        intros <-. apply Hk. symmetry. by apply (slab_owner s l a cp c k c1).
    + exists c', a, r'. rewrite !decide_True by done. rewrite Hperm, Hmem, Htot, Hsize. done.
Qed.
End update.

(** ** Moving a slab between lists *)

Inductive slab_class := Full | Partial | Empty.

Definition moved (k : slab_class) (a : Z) (c : kmem_cache) : kmem_cache :=
  let c := unlink_slab a c in
  match k with
  | Full => set_lists (slabs_full c ++ [a]) (slabs_partial c) (slabs_empty c) c
  | Partial => set_lists (slabs_full c) (slabs_partial c ++ [a]) (slabs_empty c) c
  | Empty => set_lists (slabs_full c) (slabs_partial c) (slabs_empty c ++ [a]) c
  end.

Definition move_op (k : slab_class) (cp a : Z) : K st unit :=
  slab_list_del a ;;
  match k with
  | Full => add_full cp a
  | Partial => add_partial cp a
  | Empty => add_empty cp a
  end.

Lemma move_op_run k cp a c s :
  caches s !! cp = Some c →
  (∀ cp' c', caches s !! cp' = Some c' → cp' ≠ cp → a ∉ all_slabs c') →
  move_op k cp a s = Ret (tt, cput cp (moved k a c) s).
Proof.
  intros E Ho. unfold move_op. rewrite (bind_Ret _ _ _ _ _ (slab_list_del_run a cp c s E Ho)).
  destruct k; unfold moved;
    ((erewrite add_full_run || erewrite add_partial_run || erewrite add_empty_run);
     [by rewrite cput_cput|apply caches_cput]).
Qed.

Lemma moved_perm k a c : NoDup (all_slabs c) → a ∈ all_slabs c → all_slabs (moved k a c) ≡ₚ all_slabs c.
Proof.
  intros Hnd Ha. rewrite (filter_ne_perm a (all_slabs c)) by done.
  unfold all_slabs. rewrite !filter_app.
  destruct k; unfold moved, all_slabs, set_lists; simpl; solve_Permutation.
Qed.

Lemma moved_other k a c b :
  b ≠ a →
  (b ∈ slabs_full (moved k a c) ↔ b ∈ slabs_full c) ∧
  (b ∈ slabs_partial (moved k a c) ↔ b ∈ slabs_partial c) ∧
  (b ∈ slabs_empty (moved k a c) ↔ b ∈ slabs_empty c).
Proof.
  intros Hb. destruct k; unfold moved, set_lists; simpl;
    rewrite ?elem_of_app, !list_elem_of_filter, ?list_elem_of_singleton; naive_solver.
Qed.

Lemma moved_self k a c :
  (a ∈ slabs_full (moved k a c) → k = Full) ∧
  (a ∈ slabs_partial (moved k a c) → k = Partial) ∧
  (a ∈ slabs_empty (moved k a c) → k = Empty).
Proof.
  destruct k; unfold moved, set_lists; simpl;
    rewrite ?elem_of_app, !list_elem_of_filter, ?list_elem_of_singleton; naive_solver.
Qed.

Definition moved_opt (ok : option slab_class) (a : Z) (c : kmem_cache) : kmem_cache :=
  match ok with Some k => moved k a c | None => c end.

Lemma moved_opt_fields ok a c :
  obj_size (moved_opt ok a c) = obj_size c ∧ c_lock (moved_opt ok a c) = c_lock c ∧
  total_size (moved_opt ok a c) = total_size c.
Proof. by destruct ok as [[]|]. Qed.

Lemma moved_opt_perm ok a c :
  NoDup (all_slabs c) → a ∈ all_slabs c → all_slabs (moved_opt ok a c) ≡ₚ all_slabs c.
Proof. intros. destruct ok; [by apply moved_perm|done]. Qed.

Lemma moved_opt_unlock ok a c :
  c_lock c = false → set_c_lock false (moved_opt ok a (set_c_lock true c)) = moved_opt ok a c.
Proof. destruct c, ok as [[]|]; simpl; by intros ->. Qed.

(** The new count of free objects fits the list the slab goes to. *)
Definition class_ok (ok : option slab_class) (c : kmem_cache) (a : Z) (r' : kmem_slab) : Prop :=
  match ok with
  | Some Full => free_objs r' = 0
  | Some Partial => 0 < free_objs r' < total_objs r'
  | Some Empty => free_objs r' = total_objs r'
  | None => 0 < free_objs r' < total_objs r' ∧ a ∈ slabs_partial c
  end.

Lemma slab_update s l cp a c r r' ok :
  slab_inv s l → caches s !! cp = Some c → a ∈ all_slabs c → slab_at s !! a = Some r →
  sl_mem r' = sl_mem r → total_objs r' = total_objs r → sl_cache r' = sl_cache r →
  slab_wf c a r' → class_ok ok c a r' →
  let s' := cput cp (moved_opt ok a c) (sput a r' s) in
  slab_inv s' l ∧
  ∀ k o, live s' k o ↔
    (live s k o ∧ ¬ (k = cp ∧ o ∈ slab_objs (sl_mem r) (obj_size c) (total_objs r))) ∨
    (k = cp ∧ o ∈ slab_objs (sl_mem r) (obj_size c) (total_objs r) ∧ o ∉ freelist r').
Proof.
  intros HI Ec Ha Er Hm Ht Ho Hw Hcl s'.
  destruct (si_caches _ _ HI _ _ Ec) as [_ W]. pose proof (cw_nodup _ _ _ W) as Hnd.
  destruct (moved_opt_fields ok a c) as (F1 & F2 & F3). rewrite (cw_lock _ _ _ W) in F2.
  assert (Hp : all_slabs (moved_opt ok a c) ≡ₚ all_slabs c)
    by by apply moved_opt_perm.
  assert (Hoth : ∀ b, b ≠ a →
          (b ∈ slabs_full (moved_opt ok a c) ↔ b ∈ slabs_full c) ∧
          (b ∈ slabs_partial (moved_opt ok a c) ↔ b ∈ slabs_partial c) ∧
          (b ∈ slabs_empty (moved_opt ok a c) ↔ b ∈ slabs_empty c))
    by (destruct ok; [apply moved_other|done]).
  assert (Hself : (a ∈ slabs_full (moved_opt ok a c) → free_objs r' = 0) ∧
    (a ∈ slabs_partial (moved_opt ok a c) → 0 < free_objs r' < total_objs r') ∧
    (a ∈ slabs_empty (moved_opt ok a c) → free_objs r' = total_objs r')).
  { destruct ok as [k|].
    - destruct (moved_self k a c) as (M1 & M2 & M3). destruct k; naive_solver.
    - destruct Hcl as [Hcl Hin]. unfold all_slabs in Hnd.
      apply NoDup_app in Hnd as (_ & D1 & D2). apply NoDup_app in D2 as (_ & D2 & _).
      simpl. set_solver. }
  destruct Hself as (S1 & S2 & S3). unfold s'. split.
  - by apply (update_inv s l cp a c _ r r').
  - intros k o. by apply (update_live s l cp a c _ r r').
Qed.

Lemma total_objs_bound c a r : 8 ≤ obj_size c → slab_wf c a r → 0 < total_objs r ≤ 506.
Proof.
  intros Hs [_ Ht Hp _ _ _]. split; [done|]. rewrite Ht. unfold PGSIZE, SLAB_HDR.
  transitivity ((4096 - 48) / 8); [|by vm_compute]. apply Z.div_le_compat_l; lia.
Qed.

(** No more free objects than objects. *)
Lemma freelist_length c a r : 8 ≤ obj_size c → slab_wf c a r → free_objs r ≤ total_objs r.
Proof.
  intros Hs [_ _ Hp Hf Hnd Ho]. rewrite Hf.
  assert (length (freelist r) ≤ length (slab_objs (sl_mem r) (obj_size c) (total_objs r)))%nat as Hle
    by (apply submseteq_length, NoDup_submseteq; done).
  unfold slab_objs in Hle. rewrite length_fmap, length_seqZ in Hle. lia.
Qed.

Lemma pick_slab_spec s l cp c a :
  slab_inv s l → caches s !! cp = Some c → pick_slab c = Some a →
  a ∈ all_slabs c ∧ ∃ r, slab_at s !! a = Some r ∧ sl_cache r = cp ∧ slab_wf c a r ∧
    0 < free_objs r ∧ (free_objs r ≠ total_objs r → a ∈ slabs_partial c).
Proof.
  intros HI Ec Hpk. destruct (si_caches _ _ HI _ _ Ec) as [_ W].
  assert (Hin : a ∈ slabs_partial c ∨ a ∈ slabs_empty c).
  { unfold pick_slab in Hpk. destruct (slabs_partial c), (slabs_empty c); set_solver. }
  assert (Ha : a ∈ all_slabs c) by (unfold all_slabs; set_solver).
  split; [done|]. destruct (cw_slab _ _ _ W a Ha) as (r & Er & Hr & Hw).
  exists r. split_and!; try done.
  - destruct Hin as [Hin|Hin]; [pose proof (cw_partial _ _ _ W a r Hin Er); lia|].
    pose proof (cw_empty _ _ _ W a r Hin Er). pose proof (sw_pos _ _ _ Hw). lia.
  - intros Hne. destruct Hin as [Hin|Hin]; [done|]. by apply (cw_empty _ _ _ W a r) in Hin.
Qed.

(** Within one slab, live means not on the free list. *)
Lemma live_in_slab s l cp c a r o :
  slab_inv s l → caches s !! cp = Some c → a ∈ all_slabs c → slab_at s !! a = Some r →
  o ∈ slab_objs (sl_mem r) (obj_size c) (total_objs r) → live s cp o ↔ o ∉ freelist r.
Proof.
  intros HI Ec Ha Er Ho. split; [|by exists c, a, r].
  intros (c1 & b & rb & E1 & Hb & Eb & Ho1 & Hfl). assert (c1 = c) as -> by congruence.
  destruct (slab_of_obj s l cp c a r o) as [Hs1 _]; [done..|].
  destruct (slab_of_obj s l cp c b rb o) as [Hs2 _]; [done..|].
  by assert (rb = r) as -> by congruence.
Qed.

(** The page whose header is at [a] is an object of its own. *)
Definition whole (s : st) (a : Z) : Prop := sl_cache <$> slab_at s !! a = Some 0.
Lemma whole_sput s a r r' b : slab_at s !! a = Some r → sl_cache r' = sl_cache r → whole (sput a r' s) b ↔ whole s b.
Proof.
  intros Ha Hr. unfold whole. simpl. rewrite lookup_insert. case_decide; [subst b|done]. rewrite Ha. simpl. by rewrite Hr.
Qed.
Lemma whole_new s a r b : slab_at s !! a = None → sl_cache r ≠ 0 → whole (sput a r s) b ↔ whole s b.
Proof.
  intros Ha Hr. unfold whole. simpl. rewrite lookup_insert. case_decide; [subst b|done]. rewrite Ha. simpl. split; [|done]. by intros [= ?].
Qed.

(** The caches have the object sizes they had, and kmalloc its table and its
    pages. *)
Definition table_kept (s s' : st) : Prop :=
  kmalloc_ready s' = kmalloc_ready s ∧ kmalloc_caches s' = kmalloc_caches s ∧
  (∀ k, obj_size <$> caches s' !! k = obj_size <$> caches s !! k) ∧ ∀ a, whole s' a ↔ whole s a.
Lemma table_kept_cput s s' cp c c' :
  (∀ a, whole s' a ↔ whole s a) → kmalloc_ready s' = kmalloc_ready s → kmalloc_caches s' = kmalloc_caches s → caches s' = caches s →
  caches s !! cp = Some c → obj_size c' = obj_size c → table_kept s (cput cp c' s').
Proof.
  intros Hw H1 H2 H3 Ec Ho. split; [done|]. split; [done|]. split; [|done]. intros k. simpl. rewrite H3, lookup_insert.
  case_decide as Hd; [|done]. subst k. rewrite Ec. simpl. by f_equal.
Qed.
Lemma table_kept_trans s1 s2 s3 : table_kept s1 s2 → table_kept s2 s3 → table_kept s1 s3.
Proof.
  intros (A1 & A2 & A3 & A4) (B1 & B2 & B3 & B4). split_and!; [congruence|congruence| |]; intros k; [by rewrite B3|by rewrite B4].
Qed.

Definition alloc_post (s s' : st) (cp node : Z) : Prop :=
  node ≠ 0 ∧ ¬ live s cp node ∧ (∀ k o, live s' k o ↔ live s k o ∨ (k = cp ∧ o = node)) ∧ table_kept s s'.

(** The executed moves of alloc_from and kmem_cache_free. *)
Lemma move_release_run ok cp a c s :
  caches s !! cp = Some (set_c_lock true c) → c_lock c = false →
  (∀ cp' c', caches s !! cp' = Some c' → cp' ≠ cp → a ∉ all_slabs c') →
  ((match ok with Some k => move_op k cp a | None => mret tt end) ;; release_cache cp) s =
  Ret (tt, cput cp (moved_opt ok a c) s).
Proof.
  intros E L Ho. rewrite (bind_Ret _ _ _ tt (cput cp (moved_opt ok a (set_c_lock true c)) s)).
  - rewrite (release_cache_run cp (moved_opt ok a (set_c_lock true c))).
    + by rewrite cput_cput, moved_opt_unlock.
    + apply caches_cput.
    + destruct (moved_opt_fields ok a (set_c_lock true c)) as (_ & -> & _). done.
  - destruct ok; [by apply move_op_run|]. simpl. by rewrite cput_id.
Qed.

Lemma alloc_from_run s l cp c a :
  slab_inv s l → caches s !! cp = Some c → pick_slab c = Some a →
  ∃ node s', alloc_from cp a (cput cp (set_c_lock true c) s) = Ret (node, s') ∧
    slab_inv s' l ∧ alloc_post s s' cp node.
Proof.
  intros HI Ec Hpk. destruct (pick_slab_spec s l cp c a HI Ec Hpk) as (Ha & r & Er & Hr & Hw & Hf & Hpt).
  destruct (si_caches _ _ HI _ _ Ec) as [_ W]. pose proof (cw_size _ _ _ W) as Hs8.
  pose proof (total_objs_bound c a r Hs8 Hw). pose proof (freelist_length c a r Hs8 Hw).
  destruct Hw as [W1 W2 W3 W4 W5 W6]. destruct (freelist r) as [|node rest] eqn:Efl; [simpl in *; lia|].
  set (n := u32 (free_objs r - 1)).
  assert (Hn : n = Z.of_nat (length rest)) by (unfold n; rewrite u32_small; simpl in *; lia).
  set (r' := mk_slab (sl_mem r) (total_objs r) n (sl_cache r) rest).
  set (ok := if decide (n = 0) then Some Full
             else if bool_decide (free_objs r = total_objs r) then Some Partial else None).
  exists node, (cput cp (moved_opt ok a c) (sput a r' s)). apply NoDup_cons in W5 as [Hnode Hrest].
  assert (Hw' : slab_wf c a r') by (split; simpl; [done..|]; intros; apply W6; set_solver).
  destruct (slab_update s l cp a c r r' ok) as [HI' HL']; [done..| |].
  { unfold ok, class_ok. simpl in *. case_decide; [done|].
    case_bool_decide; simpl; [lia|]. split; [lia|by apply Hpt]. }
  split; [|split; [done|]].
  - unfold alloc_from. rewrite (bind_Ret _ _ _ _ _ (get_slab_run a r (cput cp _ s) Er)).
    rewrite decide_False, Efl by lia. fold n. unfold put_slab.
    change (modify _) with (modify (sput a r')). rewrite (bind_Ret _ _ _ tt (sput a r' (cput cp (set_c_lock true c) s))) by done.
    assert (Hmv : (if bool_decide (free_objs r = total_objs r)
         then if decide (n ≠ 0) then slab_list_del a ;; add_partial cp a
              else slab_list_del a ;; add_full cp a
         else if decide (n = 0) then slab_list_del a ;; add_full cp a else mret tt)
      = match ok with Some k => move_op k cp a | None => mret tt end)
      by (unfold ok; repeat case_decide; repeat case_bool_decide; done).
    rewrite Hmv, <-bind_assoc, (bind_Ret _ _ _ tt (cput cp (moved_opt ok a c)
      (sput a r' (cput cp (set_c_lock true c) s)))).
    + by rewrite sput_cput, cput_cput.
    + apply move_release_run; [apply caches_cput|apply W|]. intros k ck. simpl.
      rewrite lookup_insert. intros Hk Hne Hak. rewrite decide_False in Hk by done.
      apply Hne. by apply (slab_owner s l a cp c k ck).
  - assert (Hin : node ∈ slab_objs (sl_mem r) (obj_size c) (total_objs r)) by (apply W6; set_solver).
    pose proof (live_in_slab s l cp c a r node HI Ec Ha Er Hin) as Hlv. rewrite Efl in Hlv.
    split; [by eapply (slab_of_obj s l cp c a r)|]. split; [rewrite Hlv; set_solver|].
    split; [|by apply (table_kept_cput _ _ cp c); [by intros b; apply (whole_sput s a r)|..|apply moved_opt_fields]].
    intros k o. rewrite HL'. destruct (decide (k = cp)) as [->|Hk]; [|naive_solver].
    destruct (decide (o ∈ slab_objs (sl_mem r) (obj_size c) (total_objs r))) as [Ho|Ho].
    + rewrite (live_in_slab s l cp c a r o), Efl by done. simpl.
      destruct (decide (o = node)) as [->|]; set_solver.
    + naive_solver.
Qed.

Lemma kmem_cache_free_run s l cp c buf :
  slab_inv s l → caches s !! cp = Some c → live s cp buf →
  ∃ s', kmem_cache_free cp buf s = Ret (tt, s') ∧ slab_inv s' l ∧
    (∀ k o, live s' k o ↔ live s k o ∧ ¬ (k = cp ∧ o = buf)) ∧ table_kept s s' ∧
    ∃ c' a r', caches s' !! cp = Some c' ∧ a ∈ all_slabs c' ∧ slab_at s' !! a = Some r' ∧
      buf ∈ freelist r'.
Proof.
  intros HI Ec (c1 & a & r & E1 & Ha & Er & Ho & Hfl). assert (c1 = c) as -> by congruence.
  destruct (si_caches _ _ HI _ _ Ec) as [[Hpg _] W]. pose proof (cw_size _ _ _ W) as Hs8.
  destruct (cw_slab _ _ _ W a Ha) as (r0 & Er0 & Hr & Hw). assert (r0 = r) as -> by congruence.
  pose proof (slab_of_obj s l cp c a r buf HI Ec Ha Er Ho) as (Hof & Hb & Hb0).
  assert (Hcp0 : cp ≠ 0) by (apply is_page_range in Hpg; lia).
  pose proof (total_objs_bound c a r Hs8 Hw).
  set (n := u32 (free_objs r + 1)).
  set (r' := mk_slab (sl_mem r) (total_objs r) n (sl_cache r) (buf :: freelist r)).
  assert (Hw' : slab_wf c a r').
  { destruct Hw as [W1 W2 W3 W4 W5 W6]. pose proof (freelist_length c a r Hs8 ltac:(by split)).
    split; simpl; [done..| |by constructor|].
    - unfold n. rewrite u32_small; lia.
    - intros o [->|]%elem_of_cons; [done|by apply W6]. }
  pose proof (freelist_length c a r' Hs8 Hw') as Hlen. simpl in Hlen.
  pose proof (freelist_length c a r Hs8 Hw) as Hlen0. pose proof (sw_free _ _ _ Hw) as Hfree.
  assert (Hn : n = free_objs r + 1) by (unfold n; rewrite u32_small; lia).
  set (ok := if decide (n = total_objs r) then Some Empty
             else if bool_decide (free_objs r = 0) then Some Partial else None).
  exists (cput cp (moved_opt ok a c) (sput a r' s)).
  destruct (slab_update s l cp a c r r' ok) as [HI' HL']; [done..| |].
  { unfold ok, class_ok. simpl. case_decide; [done|]. case_bool_decide; simpl; [lia|].
    split; [lia|]. unfold all_slabs in Ha. rewrite !elem_of_app in Ha.
    destruct Ha as [Ha|[Ha|Ha]]; [|done|].
    - by pose proof (cw_full _ _ _ W a r Ha Er).
    - pose proof (cw_empty _ _ _ W a r Ha Er). lia. }
  split; [|split; [done|split; [|split; [by apply (table_kept_cput _ _ cp c); [by intros b; apply (whole_sput s a r)|..|apply moved_opt_fields]|] ] ] ].
  - unfold kmem_cache_free. rewrite decide_False by naive_solver.
    rewrite (bind_Ret _ _ _ _ _ (acquire_cache_run cp c s Ec (cw_lock _ _ _ W))).
    rewrite Hof. rewrite (bind_Ret _ _ _ _ _ (get_slab_run a r (cput cp _ s) Er)).
    rewrite decide_False, decide_False by (done || lia). fold n.
    rewrite (bind_Ret _ _ _ tt (sput a (mk_slab (sl_mem r) (total_objs r) n (sl_cache r) (freelist r))
      (cput cp (set_c_lock true c) s))) by done.
    rewrite decide_False by lia. fold r'.
    assert (Hput : ∀ x, put_slab a r' x = Ret (tt, sput a r' x)) by done.
    rewrite (bind_Ret _ _ _ _ _ (Hput _)), sput_sput.
    assert (Hfin : cput cp (moved_opt ok a c) (sput a r' s) =
      cput cp (moved_opt ok a c) (sput a r' (cput cp (set_c_lock true c) s)))
      by (by rewrite sput_cput, cput_cput).
    rewrite Hfin.
    rewrite <-(move_release_run ok cp a c (sput a r' (cput cp (set_c_lock true c) s))).
    + unfold ok. case_decide; [by rewrite <-bind_assoc|].
      case_bool_decide; [by rewrite <-bind_assoc|done].
    + apply caches_cput.
    + apply W.
    + intros k ck. simpl. rewrite lookup_insert. intros Hk Hne Hak. rewrite decide_False in Hk by done.
      apply Hne. by apply (slab_owner s l a cp c k ck).
  - intros k o. rewrite HL'. destruct (decide (k = cp)) as [->|Hk]; [|naive_solver].
    destruct (decide (o ∈ slab_objs (sl_mem r) (obj_size c) (total_objs r))) as [Hin|Hin].
    + rewrite (live_in_slab s l cp c a r o) by done. simpl. set_solver.
    + naive_solver.
  - exists (moved_opt ok a c), a, r'. rewrite caches_cput. split; [done|]. split.
    + by rewrite moved_opt_perm by (apply W || done).
    + split; [apply lookup_insert_eq|simpl; set_solver].
Qed.

(** Freeing a free object is detected. *)
Lemma double_free_run s l cp c a r buf :
  slab_inv s l → caches s !! cp = Some c → a ∈ all_slabs c → slab_at s !! a = Some r →
  buf ∈ freelist r → kmem_cache_free cp buf s = Ret (tt, s).
Proof.
  intros HI Ec Ha Er Hfl. destruct (si_caches _ _ HI _ _ Ec) as [[Hpg _] W].
  destruct (cw_slab _ _ _ W a Ha) as (r0 & Er0 & Hr & Hw). assert (r0 = r) as -> by congruence.
  pose proof (slab_of_obj s l cp c a r buf HI Ec Ha Er (sw_objs _ _ _ Hw buf Hfl)) as (Hof & Hb & Hb0).
  assert (Hcp0 : cp ≠ 0) by (apply is_page_range in Hpg; lia).
  unfold kmem_cache_free. rewrite decide_False by naive_solver.
  rewrite (bind_Ret _ _ _ _ _ (acquire_cache_run cp c s Ec (cw_lock _ _ _ W))).
  rewrite Hof. rewrite (bind_Ret _ _ _ _ _ (get_slab_run a r (cput cp _ s) Er)).
  rewrite decide_False, decide_True by (done || lia).
  rewrite (release_cache_run cp (set_c_lock true c)); [|apply caches_cput|done].
  rewrite cput_cput, set_c_lock_id by apply W. by rewrite cput_id.
Qed.

(** ** Growing a cache *)

Lemma inv_pages s l x l' :
  slab_inv s l → page_pool x l' →
  (∀ q, page_used s l q → page_refs x q = page_refs (sl_pages s) q ∧ q ∉ l') →
  slab_inv (set_pages x s) l'.
Proof.
  intros HI Hx Hu.
  assert (Hpu : ∀ q, page_used s l q → page_used (set_pages x s) l' q).
  { intros q Hq. destruct (Hu q Hq) as [Hr Hn]. destruct Hq as (? & ? & ?).
    split; [done|]. split; [done|]. simpl. congruence. }
  split; [done|apply HI|..]; simpl.
  - intros cp c E. destruct (si_caches _ _ HI _ _ E). auto.
  - intros a r E. destruct (si_slabs _ _ HI _ _ E) as (? & ? & ?). auto.
Qed.

(** Pages of the pool hold no descriptor and no header. *)
Lemma free_page_fresh s l p :
  slab_inv s l → p ∈ l → caches s !! p = None ∧ slab_at s !! (p + (PGSIZE - SLAB_HDR)) = None.
Proof.
  intros HI Hp. split.
  - destruct (caches s !! p) as [c|] eqn:E; [|done].
    by destruct (si_caches _ _ HI _ _ E) as [(_ & ? & _) _].
  - destruct (slab_at s !! _) as [r|] eqn:E; [|done].
    destruct (si_slabs _ _ HI _ _ E) as [(_ & Hn & _) _]. by rewrite Z.add_simpl_r in Hn.
Qed.

Lemma grow_loop p total cp size a ctor l f fl t :
  slab_at t !! a = Some (mk_slab p total f cp fl) →
  ∃ calls f', forM l (λ node,
    (if decide (ctor ≠ 0) then modify (log_call (Construct ctor node size)) else mret tt) ;;
    r ← get_slab a;
    put_slab a (mk_slab p total total cp (node :: freelist r))) t =
  Ret (tt, set_calls calls (sput a (mk_slab p total f' cp (reverse l ++ fl)) t)) ∧
  (f' = if l is [] then f else total).
Proof.
  revert f fl t. induction l as [|o l IH]; intros f fl t E; simpl.
  - exists (obj_calls t), f. split; [|done]. unfold sput. rewrite insert_id by done. by destruct t.
  - set (t1 := if decide (ctor ≠ 0) then log_call (Construct ctor o size) t else t).
    rewrite (bind_Ret _ _ _ tt (sput a (mk_slab p total total cp (o :: fl)) t1)).
    + destruct (IH total (o :: fl) (sput a (mk_slab p total total cp (o :: fl)) t1)) as (calls & f' & -> & Hf).
      { apply lookup_insert_eq. }
      exists calls, f'. rewrite sput_sput, reverse_cons, <-app_assoc. split; [by unfold t1; case_decide|].
      by destruct l.
    + rewrite (bind_Ret _ _ _ tt t1) by (unfold t1; by case_decide).
      rewrite (bind_Ret _ _ _ (mk_slab p total f cp fl) t1); [done|].
      apply get_slab_run. unfold t1. by case_decide.
Qed.

(** Adding a slab whose objects are all free. *)
Lemma inv_add s l cp c p r :
  slab_inv s l → caches s !! cp = Some c → page_used s l p →
  caches s !! p = None → slab_at s !! (p + (PGSIZE - SLAB_HDR)) = None →
  let a := p + (PGSIZE - SLAB_HDR) in
  sl_cache r = cp → slab_wf c a r → free_objs r = total_objs r →
  (∀ o, o ∈ slab_objs (sl_mem r) (obj_size c) (total_objs r) → o ∈ freelist r) →
  let c' := set_lists (slabs_full c) (slabs_partial c) (slabs_empty c ++ [a])
              (set_total_size (u64 (total_size c + PGSIZE)) c) in
  let s' := cput cp c' (sput a r s) in
  slab_inv s' l ∧ ∀ k o, live s' k o ↔ live s k o.
Proof.
  intros HI Ec Hp Hcp Hsa a Hr Hw Hfr Hall c' s'.
  destruct (si_caches _ _ HI _ _ Ec) as [Hcu W].
  assert (Hall' : all_slabs c' = all_slabs c ++ [a])
    by (unfold all_slabs, c'; simpl; by rewrite !app_assoc).
  assert (Hna : ∀ k ck, caches s !! k = Some ck → a ∉ all_slabs ck).
  { intros k ck Ek Hak. destruct (si_caches _ _ HI _ _ Ek) as [_ Wk].
    destruct (cw_slab _ _ _ Wk a Hak) as (r0 & E0 & _). unfold a in *. congruence. }
  assert (Hfrom : ∀ k ck b, caches s !! k = Some ck → b ∈ all_slabs ck → slab_at s' !! b = slab_at s !! b).
  { intros k ck b Ek Hb. unfold s'. simpl. apply lookup_insert_ne. intros ->. by eapply Hna. }
  assert (Hfrom' : ∀ b, b ∈ all_slabs c → slab_at s' !! b = slab_at s !! b) by eauto.
  assert (Ha' : slab_at s' !! a = Some r) by apply lookup_insert_eq.
  unfold all_slabs in Hfrom'. split; [split; [apply HI|apply HI|..]|].
  - intros k ck. unfold s' at 1. simpl. rewrite lookup_insert. case_decide as Hk.
    + intros [= <-]. subst k. split; [done|]. destruct W as [L1 L2 L3 L4 L5 L6 L7 L8]. split; try done.
      * rewrite Hall'. apply NoDup_app. split; [done|]. split; [|apply NoDup_singleton].
        intros b Hb ->%list_elem_of_singleton. by eapply Hna.
      * intros b. rewrite Hall', elem_of_app, list_elem_of_singleton. intros [Hb| ->].
        -- destruct (L4 b Hb) as (rb & Eb & ? & []). exists rb. rewrite (Hfrom cp c) by done.
           split; [done|]. split; [done|]. by split.
        -- exists r. split; [done|]. split; [done|]. destruct Hw. by split.
      * intros b rb Hb. rewrite Hfrom' by set_solver. by apply L5.
      * intros b rb Hb. rewrite Hfrom' by set_solver. by apply L6.
      * intros b rb. change (slabs_empty c') with (slabs_empty c ++ [a]). rewrite elem_of_app, list_elem_of_singleton. intros [Hb| ->]; [|rewrite lookup_insert_eq; by intros [= <-]].
        rewrite Hfrom' by set_solver. by apply L7.
      * rewrite Hall', length_app. simpl. rewrite L8. unfold u64, PGSIZE.
        rewrite Z.add_mod_idemp_l by lia. f_equal. lia.
    + intros Ek. destruct (si_caches _ _ HI _ _ Ek) as [Hku [L1 L2 L3 L4 L5 L6 L7 L8] ].
      split; [done|].
      assert (Hfk : ∀ b, b ∈ all_slabs ck → slab_at s' !! b = slab_at s !! b) by eauto.
      unfold all_slabs in Hfk. split; try done.
      * intros b Hb. rewrite Hfk by done. auto.
      * intros b rb Hb. rewrite Hfk by set_solver. by apply L5.
      * intros b rb Hb. rewrite Hfk by set_solver. by apply L6.
      * intros b rb Hb. rewrite Hfk by set_solver. by apply L7.
  - intros b rb. unfold s'. simpl. rewrite lookup_insert. case_decide as Hb.
    + intros [= <-]. subst b.
      assert (Hpe : a - (PGSIZE - SLAB_HDR) = p) by (unfold a; lia). rewrite Hpe. split; [done|].
      split; [rewrite lookup_insert_ne; congruence|]. intros _. exists c'.
      rewrite Hr, lookup_insert_eq. split; [done|]. rewrite Hall'. set_solver.
    + intros Eb. destruct (si_slabs _ _ HI _ _ Eb) as (H1 & H2 & H3). split; [done|].
      split; [rewrite lookup_insert_ne; congruence|]. intros (c0 & E0 & Hb0)%H3.
      destruct (decide (cp = sl_cache rb)) as [Hcr|Hcr].
      * exists c'. rewrite Hcr, lookup_insert_eq, Hall'. split; [done|].
        assert (c0 = c) as -> by congruence. set_solver.
      * exists c0. by rewrite lookup_insert_ne.
  - intros k o. unfold live. split.
    + intros (ck & b & rb & Ek & Hb & Eb & Ho & Hf). unfold s' in Ek. simpl in Ek.
      rewrite lookup_insert in Ek. case_decide as Hk.
      * injection Ek as <-. subst k. rewrite Hall', elem_of_app, list_elem_of_singleton in Hb.
        destruct Hb as [Hb| ->].
        -- exists c, b, rb. rewrite <-(Hfrom cp c) by done. done.
        -- exfalso. assert (rb = r) as -> by congruence. by apply Hf, Hall.
      * exists ck, b, rb. rewrite <-(Hfrom k ck) by done. done.
    + intros (ck & b & rb & Ek & Hb & Eb & Ho & Hf). unfold s'. simpl. rewrite lookup_insert.
      destruct (decide (cp = k)) as [Hk|Hk].
      * exists c', b, rb. subst k. assert (ck = c) as -> by congruence.
        rewrite Hall'. fold s'. rewrite (Hfrom cp c) by done. set_solver.
      * exists ck, b, rb. fold s'. rewrite (Hfrom k ck) by done. done.
Qed.

Lemma set_pages_inv s l x p :
  slab_inv s (p :: l) → page_pool x l → page_refs x p = 1 →
  (∀ q, is_page q → q ≠ p → page_refs x q = page_refs (sl_pages s) q) →
  slab_inv (set_pages x s) l ∧ page_used (set_pages x s) l p.
Proof.
  intros HI Hx Hp Hq. destruct (page_pool_pages _ _ (si_pool _ _ HI)) as [Hnd Hpg]. split.
  - apply (inv_pages s (p :: l)); [done|done|]. intros q (Hq1 & Hq2 & Hq3).
    split; [apply Hq; set_solver|set_solver].
  - split; [apply Hpg; set_solver|]. apply NoDup_cons in Hnd as [? _]. done.
Qed.

Lemma grow_fail s l p cp c :
  slab_inv s (p :: l) → caches s !! cp = Some c → PGSIZE - SLAB_HDR < obj_size c →
  ∃ x, kmem_cache_grow cp s = Ret (0, set_pages x s) ∧ slab_inv (set_pages x s) (p :: l).
Proof.
  intros HI Ec Hsz. pose proof (si_pool _ _ HI) as Hpool.
  destruct (page_pool_pages _ _ Hpool) as [Hnd Hpg].
  assert (Hp : is_page p) by (apply Hpg; set_solver).
  destruct (page_alloc_cons _ p l Hpool) as (x & Hx & Hpx & Hrx & Hqx).
  destruct (page_free_last x p l Hpx Hp) as (y & Hy & Hpy & Hqy);
    [by apply NoDup_cons in Hnd as [? _]|done|].
  destruct (free_page_fresh s (p :: l) p HI) as [Hf1 Hf2]; [set_solver|].
  pose proof (is_page_range p Hp) as (Hp0 & Hp1 & Hp2).
  exists y. split.
  - unfold kmem_cache_grow, slab_kalloc. rewrite (bind_Ret _ _ _ p (set_pages x s)) by (by apply zoom_Ret).
    rewrite decide_False by lia.
    rewrite (bind_Ret _ _ _ c (set_pages x s)) by (by apply get_cache_run).
    unfold PGSIZE, SLAB_HDR in Hsz.
    rewrite decide_False by lia. change (PGSIZE - SLAB_HDR) with 4048.
    rewrite (Z.div_small 4048) by lia. change (u32 0) with 0.
    rewrite (slab_of_page p) by (done || (unfold PGSIZE; lia)).
    rewrite (bind_Ret _ _ _ tt (sput (p + (PGSIZE - SLAB_HDR)) (mk_slab p 0 0 cp []) (set_pages x s))) by done.
    rewrite decide_True by done. unfold slab_kfree. rewrite bind_assoc.
    rewrite (bind_Ret _ _ _ tt (set_pages y (sput (p + (PGSIZE - SLAB_HDR)) (mk_slab p 0 0 cp [])
      (set_pages x s)))) by (by apply zoom_Ret). rewrite bind_assoc.
    unfold modify. kunfold. unfold sput, set_slab_at, set_caches, set_pages. simpl.
    rewrite <-(Z.add_sub_assoc p PGSIZE SLAB_HDR).
    rewrite delete_insert_eq, delete_id, delete_id by done. by destruct s.
  - apply (inv_pages s (p :: l)); [done|done|]. intros q (Hq1 & Hq2 & Hq3).
    split; [|done]. rewrite Hqy by done. apply Hqx; set_solver.
Qed.

Lemma grow_ok s l p cp c :
  slab_inv s (p :: l) → caches s !! cp = Some c → obj_size c ≤ PGSIZE - SLAB_HDR →
  ∃ s' c', kmem_cache_grow cp s = Ret (PGSIZE, s') ∧ slab_inv s' l ∧
    (∀ k o, live s' k o ↔ live s k o) ∧ caches s' !! cp = Some c' ∧
    table_kept s s' ∧ is_Some (pick_slab c').
Proof.
  intros HI Ec Hsz. pose proof (si_pool _ _ HI) as Hpool.
  destruct (page_pool_pages _ _ Hpool) as [Hnd Hpg].
  assert (Hp : is_page p) by (apply Hpg; set_solver).
  pose proof (is_page_range p Hp) as (Hp0 & Hp1 & Hp2).
  destruct (page_alloc_cons _ p l Hpool) as (x & Hx & Hpx & Hrx & Hqx).
  destruct (set_pages_inv s l x p HI Hpx Hrx Hqx) as [HIx Hpu].
  destruct (free_page_fresh s (p :: l) p HI) as [Hf1 Hf2]; [set_solver|].
  destruct (si_caches _ _ HI _ _ Ec) as [_ W]. pose proof (cw_size _ _ _ W) as Hs8.
  set (a := p + (PGSIZE - SLAB_HDR)). set (total := (PGSIZE - SLAB_HDR) / obj_size c).
  assert (Ht : 1 ≤ total ≤ 506).
  { unfold total, PGSIZE, SLAB_HDR in *. split; [apply Z.div_le_lower_bound; lia|].
    transitivity ((4096 - 48) / 8); [|by vm_compute]. apply Z.div_le_compat_l; lia. }
  set (objs := slab_objs p (obj_size c) total).
  assert (Hlen : Z.of_nat (length objs) = total)
    by (unfold objs, slab_objs; rewrite length_fmap, length_seqZ; lia).
  set (r := mk_slab p total total cp (reverse objs ++ [])).
  assert (Hw : slab_wf c a r).
  { split; simpl; [done..|lia| | |].
    - rewrite length_app, length_reverse. simpl. lia.
    - rewrite app_nil_r. rewrite reverse_Permutation. apply slab_objs_NoDup. lia.
    - intros o. rewrite app_nil_r, elem_of_reverse. done. }
  destruct (inv_add (set_pages x s) l cp c p r) as [HI' HL']; [done..| |].
  { intros o. simpl. by rewrite app_nil_r, elem_of_reverse. }
  set (c' := set_lists (slabs_full c) (slabs_partial c) (slabs_empty c ++ [a])
              (set_total_size (u64 (total_size c + PGSIZE)) c)) in *.
  destruct (grow_loop p total cp (obj_size c) a (constructor c) objs 0 []
    (sput a (mk_slab p total 0 cp []) (set_pages x s))) as (calls & f' & Hloop & Hf);
    [apply lookup_insert_eq|].
  assert (f' = total) as -> by (destruct objs; [simpl in *; lia|done]).
  rewrite sput_sput in Hloop. fold r in Hloop.
  exists (set_calls calls (cput cp c' (sput a r (set_pages x s)))), c'. split_and!.
  - unfold kmem_cache_grow, slab_kalloc. rewrite (bind_Ret _ _ _ p (set_pages x s)) by (by apply zoom_Ret).
    rewrite decide_False by lia.
    rewrite (bind_Ret _ _ _ c (set_pages x s)) by (by apply get_cache_run).
    rewrite decide_False by lia. fold total.
    rewrite (slab_of_page p) by (done || (unfold PGSIZE; lia)). fold a.
    rewrite u32_small by lia.
    rewrite (bind_Ret _ _ _ tt (sput a (mk_slab p total 0 cp []) (set_pages x s))) by done.
    rewrite decide_False by lia. fold objs. rewrite (bind_Ret _ _ _ _ _ Hloop).
    rewrite (bind_Ret _ _ _ _ _ (acquire_cache_run cp c (set_calls calls (sput a r (set_pages x s))) Ec (cw_lock _ _ _ W))).
    rewrite (bind_Ret _ _ _ _ _ (get_cache_run cp _ _ (caches_cput _ _ _))).
    assert (Hput : ∀ cc y, put_cache cp cc y = Ret (tt, cput cp cc y)) by done.
    rewrite (bind_Ret _ _ _ _ _ (Hput _ _)), cput_cput.
    rewrite (bind_Ret _ _ _ _ _ (add_empty_run cp a _ _ (caches_cput _ _ _))), cput_cput.
    erewrite bind_Ret by (apply release_cache_run; [apply caches_cput|done]). rewrite cput_cput.
    unfold mret, K_ret. do 3 f_equal. unfold cput, set_calls. simpl. unfold set_caches. simpl.
    f_equal. f_equal. unfold c', set_c_lock, set_lists, set_total_size. simpl.
    by rewrite (cw_lock _ _ _ W).
  - by destruct HI'; split.
  - intros k o. by rewrite <-(HL' k o).
  - apply lookup_insert_eq.
  - apply (table_kept_cput s (set_calls calls (sput a r (set_pages x s))) cp c); [|done..]. intros b.
    apply (whole_new (set_pages x s) a r b); [done|]. destruct (si_caches _ _ HI _ _ Ec) as [[Hcp _] _]. apply is_page_range in Hcp. simpl. lia.
  - unfold pick_slab. simpl. destruct (slabs_partial c); [|done]. by destruct (slabs_empty c).
Qed.

Lemma alloc_picked s l cp c flags :
  slab_inv s l → caches s !! cp = Some c → is_Some (pick_slab c) →
  ∃ node s', (res ← loop 1 (λ _, alloc_round cp flags) tt;
              match res with inl v => mret v | inr a => alloc_from cp a end)
             (cput cp (set_c_lock true c) s) = Ret (node, s') ∧
    slab_inv s' l ∧ alloc_post s s' cp node.
Proof.
  intros HI Ec [a Ha]. destruct (alloc_from_run s l cp c a HI Ec Ha) as (node & s' & Hrun & HI' & Hpost).
  exists node, s'. split; [|done].
  rewrite loop_S, bind_assoc. unfold alloc_round. rewrite bind_assoc.
  rewrite (bind_Ret _ _ _ _ _ (get_cache_run cp _ _ (caches_cput _ _ _))).
  change (pick_slab (set_c_lock true c)) with (pick_slab c). by rewrite Ha.
Qed.

Lemma alloc_run s l cp c flags :
  slab_inv s l → caches s !! cp = Some c →
  ∃ ret s' l', kmem_cache_alloc cp flags s = Ret (ret, s') ∧ slab_inv s' l' ∧
    (ret = 0 ∧ (∀ k o, live s' k o ↔ live s k o) ∧ table_kept s s' ∨ alloc_post s s' cp ret) ∧
    (flags ≠ KM_NOSLEEP → l ≠ [] → obj_size c ≤ PGSIZE - SLAB_HDR → ret ≠ 0).
Proof.
  intros HI Ec. destruct (si_caches _ _ HI _ _ Ec) as [[Hpg _] W].
  assert (Hcp : cp ≠ 0) by (apply is_page_range in Hpg; lia).
  unfold kmem_cache_alloc. rewrite decide_False by done.
  rewrite (bind_Ret _ _ _ _ _ (acquire_cache_run cp c s Ec (cw_lock _ _ _ W))).
  rewrite loop_S, bind_assoc. set (again := loop 1 (λ _ : (), alloc_round cp flags)).
  unfold alloc_round. rewrite bind_assoc.
  rewrite (bind_Ret _ _ _ _ _ (get_cache_run cp _ _ (caches_cput _ _ _))).
  change (pick_slab (set_c_lock true c)) with (pick_slab c).
  destruct (pick_slab c) as [a|] eqn:Epk.
  { destruct (alloc_from_run s l cp c a HI Ec Epk) as (node & s' & Hrun & HI' & Hpost).
    exists node, s', l. split; [|split; [done|]].
    - exact Hrun.
    - split; [by right|]. by intros _ _ _; apply Hpost. }
  assert (Hrel : release_cache cp (cput cp (set_c_lock true c) s) = Ret (tt, s)).
  { rewrite (release_cache_run cp (set_c_lock true c)); [|apply caches_cput|done].
    rewrite cput_cput. do 2 f_equal. apply cput_id. rewrite Ec. f_equal. symmetry.
    apply set_c_lock_id, W. }
  destruct (decide (flags = KM_NOSLEEP)) as [Hfl|Hfl].
  { rewrite bind_assoc, (bind_Ret _ _ _ _ _ Hrel).
    exists 0, s, l. split; [done|]. split; [done|]. split; [by left|done]. }
  rewrite bind_assoc, (bind_Ret _ _ _ _ _ Hrel), bind_assoc.
  destruct l as [|p l].
  { rewrite (bind_Ret _ _ _ 0 s).
    - exists 0, s, []. split; [done|]. split; [done|]. split; [by left|done].
    - unfold kmem_cache_grow, slab_kalloc. rewrite (bind_Ret _ _ _ 0 (set_pages (sl_pages s) s)).
      + rewrite decide_True by done. by destruct s.
      + apply zoom_Ret, page_alloc_nil, HI. }
  destruct (decide (PGSIZE - SLAB_HDR < obj_size c)) as [Hsz|Hsz].
  { destruct (grow_fail s l p cp c HI Ec Hsz) as (x & Hg & HIx).
    rewrite (bind_Ret _ _ _ _ _ Hg). exists 0, (set_pages x s), (p :: l).
    split; [done|]. split; [done|]. split; [by left|lia]. }
  destruct (grow_ok s l p cp c HI Ec) as (s1 & c1 & Hg & HI1 & HL1 & Ec1 & Hs1 & Hpk1); [lia|].
  destruct (si_caches _ _ HI1 _ _ Ec1) as [_ W1].
  destruct (alloc_picked s1 l cp c1 flags HI1 Ec1 Hpk1) as (node & s' & Hrun & HI' & Hn & Hnl & HL & Hsz').
  exists node, s', l. split; [|split; [done|split; [right|done]]].
  - rewrite (bind_Ret _ _ _ _ _ Hg). rewrite decide_False by done.
    rewrite bind_assoc, (bind_Ret _ _ _ _ _ (acquire_cache_run cp c1 s1 Ec1 (cw_lock _ _ _ W1))).
    exact Hrun.
  - split; [done|]. rewrite <-HL1. split; [done|].
    split; [intros k o; by rewrite HL, HL1|]. by eapply table_kept_trans.
Qed.

Lemma size_class_spec fuel idx size :
  0 ≤ idx → size ≤ Z.shiftl 8 (idx + Z.of_nat fuel) →
  let i := size_class fuel idx size in
  idx ≤ i ≤ idx + Z.of_nat fuel ∧ size ≤ Z.shiftl 8 i ∧
  (∀ j, idx ≤ j < i → Z.shiftl 8 j < size).
Proof.
  revert idx. induction fuel as [|f IH]; intros idx Hi Hs; simpl in *.
  - rewrite Z.add_0_r in *. split; [lia|]. split; [done|]. lia.
  - destruct (decide (Z.shiftl 8 idx < size)).
    + destruct (IH (idx + 1)) as (H1 & H2 & H3); [lia|by replace (idx + 1 + Z.of_nat f) with (idx + Z.of_nat (S f)) by lia|].
      split; [lia|]. split; [done|]. intros j Hj. destruct (decide (j = idx)) as [->|]; [done|].
      apply H3. lia.
    + split; [lia|]. split; [lia|]. lia.
Qed.

(** ** kmalloc *)

(** The table kmalloc_cache_init fills: entry [i] is 0 (creation failed) or
    a cache of [8 << i]-byte objects. *)
Definition kmalloc_table (s : st) : Prop :=
  kmalloc_ready s ≠ 0 ∧ length (kmalloc_caches s) = Z.to_nat KMALLOC_NUM_CACHES ∧
  ∀ i cp, kmalloc_caches s !! i = Some cp → cp ≠ 0 →
    obj_size <$> caches s !! cp = Some (Z.shiftl 8 (Z.of_nat i)).

Lemma page_alloc_free s l p x :
  slab_inv s (p :: l) → page_pool x l → page_refs x p = 1 →
  (∀ q, is_page q → q ≠ p → page_refs x q = page_refs (sl_pages s) q) →
  let s1 := sput (p + (PGSIZE - SLAB_HDR)) (mk_slab 0 0 0 0 []) (set_pages x s) in
  ∃ y, slab_kfree p s1 = Ret (tt, set_pages y s) ∧ slab_inv (set_pages y s) (p :: l).
Proof.
  intros HI Hpx Hrx Hqx s1. destruct (page_pool_pages _ _ (si_pool _ _ HI)) as [Hnd Hpg].
  assert (Hp : is_page p) by (apply Hpg; set_solver).
  destruct (page_free_last x p l Hpx Hp) as (y & Hy & Hpy & Hqy);
    [by apply NoDup_cons in Hnd as [? _]|done|].
  destruct (free_page_fresh s (p :: l) p HI) as [Hf1 Hf2]; [set_solver|].
  exists y. split.
  - unfold slab_kfree. rewrite (bind_Ret _ _ _ tt (set_pages y s1)) by (by apply zoom_Ret).
    kunfold. unfold sput, set_slab_at, set_caches, set_pages. simpl.
    rewrite <-(Z.add_sub_assoc p PGSIZE SLAB_HDR).
    rewrite delete_insert_eq, delete_id, delete_id by done. by destruct s.
  - apply (inv_pages s (p :: l)); [done|done|]. intros q (Hq1 & Hq2 & Hq3).
    split; [|done]. rewrite Hqy by done. apply Hqx; set_solver.
Qed.

Lemma inv_marker s l p :
  slab_inv s l → page_used s l p → caches s !! p = None →
  slab_at s !! (p + (PGSIZE - SLAB_HDR)) = None →
  let s' := sput (p + (PGSIZE - SLAB_HDR)) (mk_slab 0 0 0 0 []) s in
  slab_inv s' l ∧ ∀ k o, live s' k o ↔ live s k o.
Proof.
  intros HI Hp Hf1 Hf2. set (a := p + (PGSIZE - SLAB_HDR)) in *. intros s'.
  assert (Hold : ∀ k ck b, caches s !! k = Some ck → b ∈ all_slabs ck → slab_at s' !! b = slab_at s !! b).
  { intros k ck b Ek Hb. destruct (si_caches _ _ HI _ _ Ek) as [_ Wk].
    destruct (cw_slab _ _ _ Wk b Hb) as (rb & Eb & _). apply lookup_insert_ne. congruence. }
  split; [split; [apply HI|apply HI|..]|].
  - intros k ck Ek. destruct (si_caches _ _ HI _ _ Ek) as [Hku [L1 L2 L3 L4 L5 L6 L7 L8] ].
    split; [done|].
    assert (Hfk : ∀ b, b ∈ all_slabs ck → slab_at s' !! b = slab_at s !! b) by eauto.
    unfold all_slabs in Hfk. split; try done.
    + intros b Hb. rewrite Hfk by done. auto.
    + intros b rb Hb. rewrite Hfk by set_solver. by apply L5.
    + intros b rb Hb. rewrite Hfk by set_solver. by apply L6.
    + intros b rb Hb. rewrite Hfk by set_solver. by apply L7.
  - intros b rb. unfold s'. simpl. rewrite lookup_insert. case_decide as Hb; [|apply HI].
    intros [= <-]. subst b. unfold a. rewrite Z.add_simpl_r. done.
  - intros k o. unfold live. split.
    + intros (ck & b & rb & Ek & Hb & Eb & Hr). exists ck, b, rb. by rewrite <-(Hold k ck).
    + intros (ck & b & rb & Ek & Hb & Eb & Hr). exists ck, b, rb. by rewrite (Hold k ck).
Qed.

Lemma kmfree_object s l cp c p :
  slab_inv s l → caches s !! cp = Some c → live s cp p →
  ∃ s2, kmfree p s = Ret (tt, s2) ∧ slab_inv s2 l ∧
    (∀ k o, live s2 k o ↔ live s k o ∧ ¬ (k = cp ∧ o = p)) ∧ table_kept s s2.
Proof.
  intros HI Ec Hlv. pose proof Hlv as (c1 & a & r & E1 & Ha & Er & Ho & Hfl).
  assert (c1 = c) as -> by congruence. destruct (si_caches _ _ HI _ _ Ec) as [[Hpg _] W].
  destruct (cw_slab _ _ _ W a Ha) as (r0 & Er0 & Hr & Hw). assert (r0 = r) as -> by congruence.
  pose proof (slab_of_obj s l cp c a r p HI Ec Ha Er Ho) as (Hof & Hb & Hb0).
  destruct (si_slabs _ _ HI _ _ Er) as ((Hpa & _) & _).
  rewrite (sw_hdr _ _ _ Hw), Z.add_simpl_r in Hpa. pose proof (is_page_image _ Hpa).
  destruct (kmem_cache_free_run s l cp c p HI Ec Hlv) as (s2 & Hrun & HI2 & HL2 & Ht2 & _).
  exists s2. split; [|done]. unfold kmfree. rewrite decide_False, decide_False by lia.
  rewrite Hof, (bind_Ret _ _ _ _ _ (get_slab_run a r s Er)), Hr.
  rewrite decide_True; [done|]. apply is_page_range in Hpg. lia.
Qed.

Lemma kmalloc_small_run s l size :
  slab_inv s l → kmalloc_table s → 0 ≤ size ≤ KMALLOC_MAX_SLAB_SIZE →
  ∃ p s' l', kmalloc size s = Ret (p, s') ∧ slab_inv s' l' ∧ table_kept s s' ∧
    (p = 0 ∧ (∀ k o, live s' k o ↔ live s k o) ∧ (l = [] ∨ 0 ∈ kmalloc_caches s) ∨
     p ≠ 0 ∧ ∃ cp c, caches s' !! cp = Some c ∧ size ≤ obj_size c ∧ ¬ live s cp p ∧
       ∀ k o, live s' k o ↔ live s k o ∨ (k = cp ∧ o = p)).
Proof.
  intros HI (Hrd & Hlen & Htab) Hsz. unfold kmalloc.
  rewrite (bind_Ret (gets kmalloc_ready) _ _ (kmalloc_ready s) s) by done.
  rewrite (decide_False (P := kmalloc_ready s = 0)) by done. rewrite (bind_Ret (mret tt) _ _ tt s) by done.
  rewrite decide_True by lia. rewrite (bind_Ret _ _ _ (kmalloc_caches s) s) by done.
  unfold KMALLOC_MAX_SLAB_SIZE in Hsz.
  destruct (size_class_spec 9 0 size) as (Hi & Hi2 & Hi3); [done|change (Z.shiftl 8 _) with 4096; lia|].
  set (idx := size_class 9 0 size) in *.
  assert (Hi8 : idx ≤ 8).
  { destruct (decide (idx ≤ 8)); [done|]. specialize (Hi3 8). change (Z.shiftl 8 8) with 2048 in Hi3. lia. }
  destruct (kmalloc_caches s !! Z.to_nat idx) as [cp|] eqn:Ecp.
  2: { apply lookup_ge_None in Ecp. rewrite Hlen in Ecp. unfold KMALLOC_NUM_CACHES in *. lia. }
  destruct (decide (cp = 0)) as [Hcp|Hcp].
  { exists 0, s, l. split_and!; [done|done|done|]. left. split_and!; [done|done|right]. apply list_elem_of_lookup. exists (Z.to_nat idx). by rewrite Ecp, Hcp. }
  specialize (Htab _ _ Ecp Hcp). destruct (caches s !! cp) as [c|] eqn:Ec; [|done].
  simpl in Htab. injection Htab as Htab. rewrite Z2Nat.id in Htab by lia.
  destruct (alloc_run s l cp c KM_SLEEP HI Ec) as (p & s' & l' & Hal & HI' & Hpost & Hroom).
  rewrite (bind_Ret _ _ _ _ _ Hal). destruct Hpost as [(-> & HL & Hk)|(Hp & Hnl & HL & Hk)].
  { rewrite decide_True by done. exists 0, s', l'. split_and!; [done|done|done|]. left. split_and!; [done|done|left].
    destruct l; [done|]. exfalso. apply Hroom; [done|done| |done]. rewrite Htab. transitivity (Z.shiftl 8 8); [|done].
    rewrite !Z.shiftl_mul_pow2 by lia. apply Z.mul_le_mono_nonneg_l; [lia|]. apply Z.pow_le_mono_r; lia. }
  rewrite decide_False by done. pose proof Hk as (_ & _ & Hos & _). specialize (Hos cp). rewrite Ec in Hos. simpl in Hos.
  destruct (caches s' !! cp) as [c'|] eqn:Ec'; [|done]. injection Hos as Hos.
  exists p, (log_call (Zeroed p (Z.shiftl 8 idx)) s'), l'. split_and!; [done|by destruct HI'; split|done|].
  right. split; [done|]. exists cp, c'. split_and!; [done|lia|done|done].
Qed.

(** Two different live objects of any caches never overlap. *)
Lemma live_objects_disjoint s l cp1 c1 o1 cp2 c2 o2 :
  slab_inv s l → caches s !! cp1 = Some c1 → caches s !! cp2 = Some c2 →
  live s cp1 o1 → live s cp2 o2 → (cp1, o1) ≠ (cp2, o2) →
  o1 + obj_size c1 ≤ o2 ∨ o2 + obj_size c2 ≤ o1.
Proof.
  intros HI E1 E2 (c1' & a1 & r1 & E1' & Ha1 & Er1 & Ho1 & _) (c2' & a2 & r2 & E2' & Ha2 & Er2 & Ho2 & _) Hne.
  assert (c1' = c1) as -> by congruence. assert (c2' = c2) as -> by congruence.
  destruct (si_caches _ _ HI _ _ E1) as [_ W1], (si_caches _ _ HI _ _ E2) as [_ W2].
  destruct (cw_slab _ _ _ W1 a1 Ha1) as (r1' & ? & Hc1 & Hw1). assert (r1' = r1) as -> by congruence.
  destruct (cw_slab _ _ _ W2 a2 Ha2) as (r2' & ? & Hc2 & Hw2). assert (r2' = r2) as -> by congruence.
  destruct (decide (a1 = a2)) as [->|Hna].
  - assert (r2 = r1) as -> by congruence. assert (cp2 = cp1) as -> by congruence.
    assert (c2 = c1) as -> by congruence. pose proof (cw_size _ _ _ W1).
    apply slab_objs_elem in Ho1 as (i & Hi & ->), Ho2 as (j & Hj & ->).
    assert (i ≠ j) by (intros ->; done). nia.
  - pose proof (obj_bounds c1 a1 r1 o1 (cw_size _ _ _ W1) Hw1 Ho1).
    pose proof (obj_bounds c2 a2 r2 o2 (cw_size _ _ _ W2) Hw2 Ho2).
    destruct (si_slabs _ _ HI _ _ Er1) as ((Hp1 & _) & _), (si_slabs _ _ HI _ _ Er2) as ((Hp2 & _) & _).
    rewrite (sw_hdr _ _ _ Hw1), Z.add_simpl_r in *. rewrite (sw_hdr _ _ _ Hw2), Z.add_simpl_r in *.
    apply is_page_range in Hp1 as (_ & _ & Hm1), Hp2 as (_ & _ & Hm2). unfold PGSIZE, SLAB_HDR in *.
    pose proof (Z.div_mod (sl_mem r1) 4096). pose proof (Z.div_mod (sl_mem r2) 4096). lia.
Qed.

(** ** The memory in the hands of clients *)

(** The [n] bytes at [p]: an object of a cache, or a page without its header. *)
Definition in_use (s : st) (p n : Z) : Prop :=
  (∃ cp c, caches s !! cp = Some c ∧ live s cp p ∧ n = obj_size c) ∨ whole s (p + (PGSIZE - SLAB_HDR)) ∧ n = PGSIZE - SLAB_HDR.

Lemma in_use_kept s s' : table_kept s s' → (∀ k o, live s' k o ↔ live s k o) → ∀ p n, in_use s' p n ↔ in_use s p n.
Proof.
  intros (_ & _ & Hos & Hw) HL p n. unfold in_use. rewrite Hw.
  assert (Hsz : (∃ cp c, caches s' !! cp = Some c ∧ live s' cp p ∧ n = obj_size c) ↔ (∃ cp c, caches s !! cp = Some c ∧ live s cp p ∧ n = obj_size c)); [|by rewrite Hsz].
  split; intros (cp & c & Ec & Hl & ->); apply HL in Hl; specialize (Hos cp); rewrite Ec in Hos; simpl in Hos.
  - symmetry in Hos. apply fmap_Some in Hos as (c2 & Ec2 & Hc2). by exists cp, c2.
  - apply fmap_Some in Hos as (c2 & Ec2 & Hc2). by exists cp, c2.
Qed.
Lemma in_use_add s s' cp c p : table_kept s s' → caches s' !! cp = Some c → (∀ k o, live s' k o ↔ live s k o ∨ (k = cp ∧ o = p)) →
  ∀ q n, in_use s' q n ↔ in_use s q n ∨ q = p ∧ n = obj_size c.
Proof.
  intros (_ & _ & Hos & Hw) Ec HL q n. unfold in_use. rewrite Hw. split.
  - intros [(k & ck & Ek & Hl & ->)|?]; [|tauto]. apply HL in Hl as [Hl|[-> ->]]; [|right; split; [done|congruence]].
    specialize (Hos k). rewrite Ek in Hos. symmetry in Hos. apply fmap_Some in Hos as (c2 & Ec2 & Hc2). left. left. by exists k, c2.
  - intros [[(k & ck & Ek & Hl & ->)|?]|[-> ->]]; [|tauto|left; exists cp, c; split_and!; [done|apply HL; by right|done]].
    specialize (Hos k). rewrite Ek in Hos. apply fmap_Some in Hos as (c2 & Ec2 & Hc2). left. exists k, c2. split_and!; [done|apply HL; by left|done].
Qed.

Lemma whole_page s l a : slab_inv s l → whole s a → is_page (a - (PGSIZE - SLAB_HDR)).
Proof. intros HI Hw. apply fmap_Some in Hw as (r & Hr & _). by destruct (si_slabs _ _ HI _ _ Hr) as ((? & _) & _). Qed.
Lemma pages_apart a b : is_page a → is_page b → a ≠ b → a + PGSIZE ≤ b ∨ b + PGSIZE ≤ a.
Proof.
  intros (_ & _ & Ha)%is_page_range (_ & _ & Hb)%is_page_range Hne. unfold PGSIZE in *.
  pose proof (Z.div_mod a 4096). pose proof (Z.div_mod b 4096). lia.
Qed.
Lemma wholes_disjoint s l p q : slab_inv s l → whole s (p + (PGSIZE - SLAB_HDR)) → whole s (q + (PGSIZE - SLAB_HDR)) → p ≠ q →
  p + (PGSIZE - SLAB_HDR) ≤ q ∨ q + (PGSIZE - SLAB_HDR) ≤ p.
Proof.
  intros HI H1 H2 Hne. apply (whole_page s l) in H1, H2; [|done..]. rewrite Z.add_simpl_r in H1, H2.
  destruct (pages_apart p q H1 H2 Hne); unfold SLAB_HDR; lia.
Qed.
Lemma live_whole_disjoint s l cp c o q : slab_inv s l → caches s !! cp = Some c → live s cp o → whole s (q + (PGSIZE - SLAB_HDR)) →
  o + obj_size c ≤ q ∨ q + (PGSIZE - SLAB_HDR) ≤ o.
Proof.
  intros HI Ec (c1 & a & r & Ec1 & Ha & Er & Ho & _) Hw. assert (c1 = c) as -> by congruence.
  destruct (si_caches _ _ HI _ _ Ec) as [[Hcp _] W]. destruct (cw_slab _ _ _ W a Ha) as (r0 & Er0 & Hr & Hsw). assert (r0 = r) as -> by congruence.
  pose proof (obj_bounds c a r o (cw_size _ _ _ W) Hsw Ho). destruct (si_slabs _ _ HI _ _ Er) as ((Hp & _) & _).
  pose proof (whole_page s l _ HI Hw) as Hq. rewrite Z.add_simpl_r in Hq. rewrite (sw_hdr _ _ _ Hsw) in Hp, Er. rewrite Z.add_simpl_r in Hp.
  assert (Hne : sl_mem r ≠ q).
  { intros Heq. unfold whole in Hw. rewrite <-Heq, Er in Hw. simpl in Hw. injection Hw as Hw. apply is_page_range in Hcp. lia. }
  pose proof (sw_hdr _ _ _ Hsw). pose proof (cw_size _ _ _ W). destruct (pages_apart _ _ Hp Hq Hne); unfold SLAB_HDR, PGSIZE in *; lia.
Qed.

(** What kmalloc does with a request it can serve: the new bytes are large
    enough, overlap none in use, and kmfree gives back exactly them. *)
Definition served (s s' : st) (size p : Z) : Prop := p ≠ 0 ∧ ∃ n, size ≤ n ∧
  (∀ q m, in_use s' q m ↔ in_use s q m ∨ q = p ∧ m = n) ∧ (∀ q m, in_use s q m → q + m ≤ p ∨ p + n ≤ q) ∧
  ∃ s2 l2, kmfree p s' = Ret (tt, s2) ∧ slab_inv s2 l2 ∧ ∀ q m, in_use s2 q m ↔ in_use s q m.

Lemma kmalloc_large s l size :
  slab_inv s l → kmalloc_table s → KMALLOC_MAX_SLAB_SIZE < size ≤ PGSIZE - SLAB_HDR →
  (l = [] ∧ kmalloc size s = Ret (0, s)) ∨ ∃ p s' l', kmalloc size s = Ret (p, s') ∧ slab_inv s' l' ∧ served s s' size p.
Proof.
  intros HI (Hrd & _) Hsz. unfold kmalloc.
  rewrite (bind_Ret (gets kmalloc_ready) _ _ (kmalloc_ready s) s) by done.
  rewrite (decide_False (P := kmalloc_ready s = 0)) by done. rewrite (bind_Ret (mret tt) _ _ tt s) by done.
  rewrite decide_False, decide_True by lia. destruct l as [|p l]; [left|right].
  - rewrite (bind_Ret _ _ _ 0 (set_pages (sl_pages s) s)) by apply zoom_Ret, page_alloc_nil, HI.
    rewrite decide_True by done. split; [done|by destruct s].
  - destruct (page_pool_pages _ _ (si_pool _ _ HI)) as [Hnd Hpg].
    assert (Hp : is_page p) by (apply Hpg; set_solver).
    pose proof (is_page_range p Hp) as (Hp0 & Hp1 & Hp2). pose proof (is_page_image p Hp).
    destruct (page_alloc_cons _ p l (si_pool _ _ HI)) as (x & Hx & Hpx & Hrx & Hqx).
    rewrite (bind_Ret _ _ _ p (set_pages x s)) by (by apply zoom_Ret).
    rewrite decide_False by lia.
    destruct (set_pages_inv s l x p HI Hpx Hrx Hqx) as [HIx Hpu].
    destruct (free_page_fresh s (p :: l) p HI) as [Hf1 Hf2]; [set_solver|].
    destruct (inv_marker (set_pages x s) l p HIx Hpu Hf1 Hf2) as [HI1 HL1].
    destruct (page_alloc_free s l p x HI Hpx Hrx Hqx) as (y & Hfree & HIy).
    set (a := p + (PGSIZE - SLAB_HDR)) in *. replace (p + PGSIZE - SLAB_HDR) with a by (unfold a; lia).
    set (s1 := sput a (mk_slab 0 0 0 0 []) (set_pages x s)) in *.
    assert (Hw : ∀ b, whole s1 b ↔ whole s b ∨ b = a).
    { intros b. unfold whole, s1. simpl. rewrite lookup_insert. case_decide as Hb; [subst b|naive_solver]. split; [by right|done]. }
    exists p, s1, l. split; [done|]. split; [done|]. split; [lia|]. exists (PGSIZE - SLAB_HDR). split; [lia|]. split; [|split].
    + intros q m. unfold in_use. rewrite Hw. setoid_rewrite HL1. change (caches s1) with (caches s).
      assert (q + (PGSIZE - SLAB_HDR) = a ↔ q = p) as -> by (unfold a; lia). tauto.
    + intros q m [(cp & c & Ec & Hl & ->)|[Hq ->]].
      * apply (live_whole_disjoint s1 l cp c q p HI1 Ec); [by apply HL1|apply Hw; by right].
      * apply (wholes_disjoint s1 l q p HI1); [apply Hw; by left|apply Hw; by right|]. intros ->. unfold whole in Hq. fold a in Hq.
        change (slab_at (set_pages x s)) with (slab_at s) in Hf2. by rewrite Hf2 in Hq.
    + exists (set_pages y s), (p :: l). split; [|done].
      unfold kmfree. rewrite decide_False, decide_False by lia.
      rewrite (slab_of_page p p) by (done || (unfold PGSIZE; lia)). fold a.
      rewrite (bind_Ret _ _ _ _ _ (get_slab_run a _ s1 (lookup_insert_eq _ _ _))). done.
Qed.

Lemma kmalloc_small s l size :
  slab_inv s l → kmalloc_table s → 0 ≤ size ≤ KMALLOC_MAX_SLAB_SIZE →
  ∃ p s' l', kmalloc size s = Ret (p, s') ∧ slab_inv s' l' ∧
    (p = 0 ∧ (∀ q m, in_use s' q m ↔ in_use s q m) ∧ (l = [] ∨ 0 ∈ kmalloc_caches s) ∨ served s s' size p).
Proof.
  intros HI Ht Hsz. destruct (kmalloc_small_run s l size HI Ht Hsz) as (p & s' & l' & Hr & HI' & Hk & Hp).
  exists p, s', l'. split_and!; [done|done|]. destruct Hp as [(-> & HL & Hwhy)|(Hp0 & cp & c & Ec & Hos & Hnl & HL)].
  { left. split_and!; [done| |done]. by apply in_use_kept. }
  right. assert (Hlv : live s' cp p) by (apply HL; by right). split; [done|]. exists (obj_size c). split; [done|]. split; [by eapply in_use_add|]. split.
  - intros q m [(k & ck & Ek & Hl & ->)|[Hq ->]].
    + pose proof Hk as (_ & _ & Hsize & _). specialize (Hsize k). rewrite Ek in Hsize. apply fmap_Some in Hsize as (c2 & Ec2 & Hc2). rewrite Hc2.
      apply (live_objects_disjoint s' l' k c2 q cp c p HI' Ec2 Ec); [apply HL; by left|done|]. intros [= -> ->]. done.
    + pose proof Hk as (_ & _ & _ & Hw). destruct (live_whole_disjoint s' l' cp c p q HI' Ec Hlv); [by apply Hw|by right|by left].
  - destruct (kmfree_object s' l' cp c p HI' Ec Hlv) as (s2 & Hrun & HI2 & HL2 & Hk2).
    exists s2, l'. split_and!; [done|done|]. apply in_use_kept; [by eapply table_kept_trans|].
    intros k o. rewrite HL2, HL. clear -Hnl. naive_solver.
Qed.

(** * Theorems *)

(** C26: kmalloc of any size keeps the slab invariant. It returns 0 and
    changes nothing in use only if the size is more than a page without the
    slab header, no page is free, or a cache could not be made when kmalloc
    was first used. Else it returns memory that is large enough and overlaps
    nothing in use, be it a slab object or a whole page, nothing else comes
    into use, and kmfree takes it back so that exactly the memory that was in
    use before is in use. *)
Theorem kmalloc_kmfree_roundtrip s l size :
  slab_inv s l → kmalloc_table s → 0 ≤ size →
  ∃ p s' l', kmalloc size s = Ret (p, s') ∧ slab_inv s' l' ∧
    (p = 0 ∧ (∀ q m, in_use s' q m ↔ in_use s q m) ∧ (PGSIZE - SLAB_HDR < size ∨ l = [] ∨ 0 ∈ kmalloc_caches s) ∨
     served s s' size p).
Proof.
  intros HI Ht Hsz. destruct (decide (size ≤ KMALLOC_MAX_SLAB_SIZE)).
  - destruct (kmalloc_small s l size HI Ht) as (p & s' & l' & Hr & HI' & [?|?]); [lia| |]; exists p, s', l'; tauto.
  - destruct (decide (size ≤ PGSIZE - SLAB_HDR)).
    + destruct (kmalloc_large s l size HI Ht) as [[-> Hr]|(p & s' & l' & Hr & HI' & ?)]; [lia| |exists p, s', l'; tauto].
      exists 0, s, []. split_and!; [done|done|]. left. tauto.
    + exists 0, s, l. destruct Ht as [Hrd _]. split_and!; [|done|left; split_and!; [done|done|left; lia]]. unfold kmalloc.
      rewrite (bind_Ret (gets kmalloc_ready) _ _ (kmalloc_ready s) s) by done.
      rewrite (decide_False (P := kmalloc_ready s = 0)) by done. rewrite (bind_Ret (mret tt) _ _ tt s) by done.
      by rewrite !decide_False by lia.
Qed.

(** kmem_cache_alloc keeps the slab invariant, returns 0 without changing
    the live objects or a new live object, and succeeds whenever sleeping is
    allowed, a page is free and the object fits. *)
Theorem kmem_cache_alloc_spec s l cp c flags :
  slab_inv s l → caches s !! cp = Some c →
  ∃ ret s' l', kmem_cache_alloc cp flags s = Ret (ret, s') ∧ slab_inv s' l' ∧
    (ret = 0 ∧ (∀ k o, live s' k o ↔ live s k o) ∨ alloc_post s s' cp ret) ∧
    (flags ≠ KM_NOSLEEP → l ≠ [] → obj_size c ≤ PGSIZE - SLAB_HDR → ret ≠ 0).
Proof.
  intros HI Ec. destruct (alloc_run s l cp c flags HI Ec) as (ret & s' & l' & Hr & HI' & Hp & Hs).
  exists ret, s', l'. split_and!; [done|done| |done]. destruct Hp as [(? & ? & _)|?]; [by left|by right].
Qed.

(** kmem_cache_free of a live object removes exactly that object from the
    live ones and keeps the invariant; a second free of it changes nothing. *)
Theorem kmem_cache_free_spec s l cp c buf :
  slab_inv s l → caches s !! cp = Some c → live s cp buf →
  ∃ s', kmem_cache_free cp buf s = Ret (tt, s') ∧ slab_inv s' l ∧
    (∀ k o, live s' k o ↔ live s k o ∧ ¬ (k = cp ∧ o = buf)) ∧
    kmem_cache_free cp buf s' = Ret (tt, s').
Proof.
  intros HI Ec Hlv. destruct (kmem_cache_free_run s l cp c buf HI Ec Hlv) as (s' & Hf & HI' & HL & _ & c' & a & r & Ec' & Ha & Er & Hin).
  exists s'. split_and!; try done. by eapply (double_free_run s' l cp c' a r).
Qed.
End slab.

(** ** Concrete state

    A cache of 1024-byte objects in page 0, one slab in page 1 with its first
    object handed out, page 2 free. *)
#[local] Existing Instance demo_image.

Definition demo_pages : kmem :=
  mk_kmem (store 8 ∅ (demo_page 2) head_addr) (demo_page 2) 1
    {[ refnum (demo_page 0) := 1; refnum (demo_page 1) := 1 ]} false PHYSTOP_HIGH.
Definition demo_hdr : Z := demo_page 1 + (PGSIZE - SLAB_HDR).
Definition demo_cache : kmem_cache :=
  mk_cache kmalloc_name 1024 PGSIZE 8 false 0 0 [] [demo_hdr] [].
Definition demo_slab_rec : kmem_slab :=
  mk_slab (demo_page 1) 3 2 (demo_page 0) [demo_page 1 + 2048; demo_page 1 + 1024].
Definition demo_slabs : slab_state kmem :=
  mk_slab_state demo_pages {[ demo_page 0 := demo_cache ]} {[ demo_hdr := demo_slab_rec ]}
    [demo_page 0] false 1 [] [0; 0; 0; 0; 0; 0; 0; demo_page 0; 0] 1.

Lemma demo_pages_pool : free_list demo_pages [demo_page 2].
Proof.
  split; simpl; [|by apply (bool_decide_unpack _); vm_compute| |done|done].
  - split; [done|]. vm_compute. done.
  - repeat constructor; by apply (bool_decide_unpack _); vm_compute.
Qed.

Lemma demo_slab_inv : slab_inv demo_slabs [demo_page 2].
Proof.
  assert (Hpg : ∀ i, i = 0 ∨ i = 1 → page_used demo_slabs [demo_page 2] (demo_page i)).
  { intros i Hi. split; [apply demo_page_ok; lia|].
    destruct Hi as [-> | ->]; (split; [by apply (bool_decide_unpack _); vm_compute|by vm_compute]). }
  split; [apply demo_pages_pool|done|..].
  - intros cp c Hc. simpl in Hc. apply lookup_singleton_Some in Hc as [<- <-].
    split; [apply Hpg; by left|]. split; simpl; try done.
    + by apply (bool_decide_unpack _); vm_compute.
    + intros a ->%list_elem_of_singleton. exists demo_slab_rec. split; [done|]. split; [done|].
      split; simpl; [done..|by apply (bool_decide_unpack _); vm_compute|].
      intros o Ho. apply slab_objs_elem. simpl.
      rewrite !elem_of_cons in Ho. destruct Ho as [->|[->|Ho]]; [exists 2|exists 1|set_solver]; lia.
    + set_solver.
    + intros a r _ [_ <-]%lookup_singleton_Some. simpl. lia.
    + set_solver.
  - intros a r Hc. simpl in Hc. apply lookup_singleton_Some in Hc as [<- <-]. unfold demo_hdr. rewrite Z.add_simpl_r.
    split; [apply Hpg; by right|]. split; [done|]. intros _. exists demo_cache.
    split; [done|]. set_solver.
Qed.

Lemma demo_live : live demo_slabs (demo_page 0) (demo_page 1).
Proof.
  exists demo_cache, demo_hdr, demo_slab_rec. split; [done|]. split; [set_solver|]. split; [done|].
  split; [|by apply (bool_decide_unpack _); vm_compute]. apply slab_objs_elem. exists 0. simpl. lia.
Qed.

Lemma kmem_cache_alloc_spec_witness :
  ∃ ret s' l', kmem_cache_alloc (demo_page 0) KM_SLEEP demo_slabs = Ret (ret, s') ∧
    slab_inv s' l' ∧ ret ≠ 0.
Proof.
  destruct (kmem_cache_alloc_spec demo_slabs [demo_page 2] (demo_page 0) demo_cache KM_SLEEP)
    as (ret & s' & l' & H1 & H2 & _ & H3); [apply demo_slab_inv|done|].
  exists ret, s', l'. split; [done|]. split; [done|]. by apply H3.
Defined.

Lemma kmem_cache_free_spec_witness :
  ∃ s', kmem_cache_free (demo_page 0) (demo_page 1) demo_slabs = Ret (tt, s') ∧
    slab_inv s' [demo_page 2].
Proof.
  destruct (kmem_cache_free_spec demo_slabs [demo_page 2] (demo_page 0) demo_cache (demo_page 1))
    as (s' & H1 & H2 & _); [apply demo_slab_inv|done|apply demo_live|].
  by exists s'.
Defined.

Lemma kmalloc_kmfree_roundtrip_witness :
  ∃ p s' l', kmalloc 700 demo_slabs = Ret (p, s') ∧ slab_inv s' l' ∧ p ≠ 0 ∧ served demo_slabs s' 700 p.
Proof.
  destruct (kmalloc_kmfree_roundtrip demo_slabs [demo_page 2] 700) as (p & s' & l' & Hr & HI & Hp); [apply demo_slab_inv| |done|].
  - split; [done|]. split; [done|]. intros i cp Hi Hcp. do 9 (destruct i as [|i]; [simpl in Hi; simplify_eq; done|]). done.
  - destruct Hp as [(-> & _)|Hp]; [|exists p, s', l'; split_and!; [done|done|apply Hp|done]].
    exfalso. assert (Hc : match kmalloc 700 demo_slabs with Ret (q, _) => q =? 0 | _ => true end = false) by (vm_compute; reflexivity).
    by rewrite Hr in Hc.
Defined.

Lemma live_objects_disjoint_witness :
  ∃ s' l' o, slab_inv s' l' ∧ live s' (demo_page 0) (demo_page 1) ∧ live s' (demo_page 0) o ∧
    (demo_page 1 + 1024 ≤ o ∨ o + 1024 ≤ demo_page 1).
Proof.
  destruct (alloc_run demo_slabs [demo_page 2] (demo_page 0) demo_cache KM_SLEEP)
    as (o & s' & l' & _ & HI' & [(H0 & _)|(_ & Hn & HL & _ & _ & Hs & _)] & Hnz); [apply demo_slab_inv|done|..].
  { by destruct Hnz. }
  specialize (Hs (demo_page 0)). change (caches demo_slabs !! demo_page 0) with (Some demo_cache) in Hs.
  destruct (caches s' !! demo_page 0) as [c'|] eqn:Ec; [|done].
  assert (Hc : obj_size c' = 1024) by (by injection Hs).
  assert (Hl1 : live s' (demo_page 0) (demo_page 1)) by (apply HL; left; apply demo_live).
  assert (Hl2 : live s' (demo_page 0) o) by (apply HL; by right).
  exists s', l', o. split_and!; [done..|].
  pose proof (live_objects_disjoint s' l' (demo_page 0) c' (demo_page 1) (demo_page 0) c' o
    HI' Ec Ec Hl1 Hl2) as Hd. rewrite Hc in Hd. apply Hd.
  intros [= Heq]. apply Hn. rewrite <-Heq. apply demo_live.
Defined.

(** * The interface of kmalloc for its callers

    Objects of up to a slab object's size; a live object is nobody else's. *)

Class ObjAllocator (H : Type) := {
  obj_alloc : Z → K H Z;
  obj_free : Z → K H unit;
  obj_ok : H → Prop;
  obj_live : H → Z → Prop;
  is_obj : Z → Prop;
  is_obj_pos a : is_obj a → a ≠ 0;
  obj_live_is h a : obj_ok h → obj_live h a → is_obj a;
  obj_alloc_law h n : obj_ok h → 0 ≤ n ≤ KMALLOC_MAX_SLAB_SIZE →
    ∃ a h', obj_alloc n h = Ret (a, h') ∧ obj_ok h' ∧
      ((a = 0 ∧ ∀ b, obj_live h' b ↔ obj_live h b) ∨
       (a ≠ 0 ∧ is_obj a ∧ ¬ obj_live h a ∧ ∀ b, obj_live h' b ↔ b = a ∨ obj_live h b));
  obj_free_law h a : obj_ok h → obj_live h a →
    ∃ h', obj_free a h = Ret (tt, h') ∧ obj_ok h' ∧ ∀ b, obj_live h' b ↔ obj_live h b ∧ b ≠ a
}.

Section objects.
Context {P : Type} `{PageAllocator P}.
Abbreviation st := (slab_state P).

Lemma live_cache (s : st) cp o : live s cp o → ∃ c, caches s !! cp = Some c.
Proof. intros (c & _ & _ & Ec & _). by exists c. Qed.
Lemma live_once (s : st) l cp cp' o : slab_inv s l → live s cp o → live s cp' o → cp = cp'.
Proof.
  intros HI H1 H2. destruct (decide (cp = cp')) as [|Hne]; [done|]. exfalso.
  destruct (live_cache _ _ _ H1) as [c Ec], (live_cache _ _ _ H2) as [c' Ec'].
  pose proof (cw_size _ _ _ (proj2 (si_caches _ _ HI _ _ Ec))). pose proof (cw_size _ _ _ (proj2 (si_caches _ _ HI _ _ Ec'))).
  destruct (live_objects_disjoint s l cp c o cp' c' o HI Ec Ec' H1 H2); [congruence|lia|lia].
Qed.
Lemma live_above (s : st) l cp o : slab_inv s l → live s cp o → image_end ≤ o ∧ o ≠ 0.
Proof.
  intros HI (c & a & r & Ec & Ha & Er & Ho & _). destruct (si_caches _ _ HI _ _ Ec) as [_ W].
  destruct (cw_slab _ _ _ W a Ha) as (r0 & Er0 & _ & Hw). assert (r0 = r) as -> by congruence.
  pose proof (slab_of_obj s l cp c a r o HI Ec Ha Er Ho) as (_ & Hb & Hb0).
  destruct (si_slabs _ _ HI _ _ Er) as ((Hpa & _) & _). rewrite (sw_hdr _ _ _ Hw), Z.add_simpl_r in Hpa.
  pose proof (is_page_image _ Hpa). split; [lia|done].
Qed.

Lemma kmalloc_table_kept (s s' : st) : kmalloc_table s → table_kept s s' → kmalloc_table s'.
Proof.
  intros (H1 & H2 & H3) (E1 & E2 & E3 & _). unfold kmalloc_table. rewrite E1, E2. split_and!; [done|done|].
  intros i cp Hi Hcp. rewrite E3. by apply H3.
Qed.

(** kmalloc and kmfree keep what the interface says. *)
#[export] Instance slab_objects : ObjAllocator st.
Proof.
  refine {| obj_alloc := kmalloc; obj_free := kmfree; obj_ok s := kmalloc_table s ∧ ∃ l, slab_inv s l;
            obj_live s o := ∃ cp, live s cp o; is_obj a := image_end ≤ a ∧ a ≠ 0 |}.
  - by intros a [_ ?].
  - intros s a [_ [l HI]] [cp Hl]. by eapply live_above.
  - intros s n [Ht [l HI]] Hn. destruct (kmalloc_small_run s l n HI Ht Hn) as (p & s' & l' & Hr & HI' & Hk & Hp).
    exists p, s'. split; [done|]. split; [split; [by eapply kmalloc_table_kept|by exists l']|].
    destruct Hp as [(-> & HL & _)|(Hp0 & cp & c & Ec & _ & Hnl & HL)]; [left; split; [done|]; intros b; by setoid_rewrite HL|right].
    assert (Hlv : live s' cp p) by (apply HL; by right). split; [done|]. split; [by eapply live_above|]. split.
    + intros [k Hk']. assert (Hks : live s' k p) by (apply HL; by left). rewrite (live_once s' l' k cp p) in Hk' by done. done.
    + intros b. setoid_rewrite HL. split; [intros (k & [?|[_ ->] ]); [right; by exists k|by left]|].
      intros [->|[k ?] ]; [exists cp; by right|exists k; by left].
  - intros s a [Ht [l HI]] [cp Hlv]. destruct (live_cache _ _ _ Hlv) as [c Ec].
    destruct (kmfree_object s l cp c a HI Ec Hlv) as (s2 & Hr & HI2 & HL & Hk). exists s2.
    split; [done|]. split; [split; [by eapply kmalloc_table_kept|by exists l]|]. intros b. setoid_rewrite HL. split.
    + intros (k & Hkb & Hne). split; [by exists k|]. intros ->. apply Hne. split; [|done]. by apply (live_once s l k cp a).
    + intros [[k Hkb] Hne]. exists k. split; [done|]. by intros [_ ?].
Defined.
End objects.
