(* ===== verification/Pipe.v ===== *)
(** kernel/core/pipe.c: the ring buffer behind pipe file pairs.

    [nread] and [nwrite] are 32-bit counters that wrap; the ring index is the
    counter modulo 512.  A call that sleeps is modelled as a run from taking
    the pipe lock to the next point where it is released: either the call
    returns, or it sleeps and will be resumed by running it again.  Runs of
    different processes interleave freely between those points.  The copy of
    a byte from or to a process is a parameter, the class [UserBytes]. *)
From S2P Require Import Prelude.

Definition PIPE_BUF_SIZE : Z := 512.

(** copyin and copyout of one byte at address [a] of page table [pt]. *)
Class UserBytes (U : Type) := {
  get_byte : U → Z → Z → option Z;
  put_byte : Z → Z → Z → U → U * bool;
  put_byte_ok pt a b u u' : put_byte pt a b u = (u', true) →
    get_byte u' pt a = Some b ∧
    ∀ pt' a', (pt', a') ≠ (pt, a) → get_byte u' pt' a' = get_byte u pt' a';
  put_byte_fail pt a b u u' : put_byte pt a b u = (u', false) →
    ∀ pt' a', get_byte u' pt' a' = get_byte u pt' a'
}.

Inductive pipe_chan := Chan_nread | Chan_nwrite.

Record pipe := mk_pipe {
  p_buf : list Z;
  nread : Z;
  nwrite : Z;
  readable : Z;
  writable : Z;
  p_lock : bool
}.

(** The pipe, user memory, and the wakeup calls made so far. *)
Record pipe_st (U : Type) := mk_pipe_st {
  the_pipe : pipe;
  p_user : U;
  woken : list pipe_chan
}.
Arguments mk_pipe_st {_} _ _ _.
Arguments the_pipe {_} _.
Arguments p_user {_} _.
Arguments woken {_} _.

(** How a run ends: the call returns, or sleeps with [i] bytes done. *)
Inductive run_end :=
  | Returns (r : Z)
  | Sleeps (c : pipe_chan) (i : Z).

Section pipe.
Context {U : Type} `{UserBytes U}.
Abbreviation st := (pipe_st U).

Definition set_pipe (p : pipe) (s : st) : st := mk_pipe_st p (p_user s) (woken s).
Definition set_user (u : U) (s : st) : st := mk_pipe_st (the_pipe s) u (woken s).
Definition wakeup (c : pipe_chan) : K st unit :=
  modify (λ s, mk_pipe_st (the_pipe s) (p_user s) (woken s ++ [c])).

Definition set_nread (n : Z) (p : pipe) : pipe :=
  mk_pipe (p_buf p) n (nwrite p) (readable p) (writable p) (p_lock p).
Definition set_p_lock (b : bool) (p : pipe) : pipe :=
  mk_pipe (p_buf p) (nread p) (nwrite p) (readable p) (writable p) b.
Definition set_readable (n : Z) (p : pipe) : pipe :=
  mk_pipe (p_buf p) (nread p) (nwrite p) n (writable p) (p_lock p).
Definition set_writable (n : Z) (p : pipe) : pipe :=
  mk_pipe (p_buf p) (nread p) (nwrite p) (readable p) n (p_lock p).
(** [pi->buf[pi->nwrite++ % PIPE_BUF_SIZE] = ch] *)
Definition put_char (ch : Z) (p : pipe) : pipe :=
  mk_pipe (<[Z.to_nat (nwrite p mod PIPE_BUF_SIZE) := ch]> (p_buf p)) (nread p)
    (u32 (nwrite p + 1)) (readable p) (writable p) (p_lock p).

Definition acquire_pipe : K st unit :=
  acquire (λ s, p_lock (the_pipe s)) (λ b s, set_pipe (set_p_lock b (the_pipe s)) s).
Definition release_pipe : K st unit :=
  release (λ s, p_lock (the_pipe s)) (λ b s, set_pipe (set_p_lock b (the_pipe s)) s).

(** The pipe as pipe_alloc initialises it. *)
Definition pipe_new (buf : list Z) : pipe := mk_pipe buf 0 0 1 1 false.

(** pipe_close up to the release of the pipe's memory: [true] when both ends
    are closed and the caller frees it. *)
Definition pipe_close (w : Z) : K st bool :=
  acquire_pipe ;;
  (if decide (w ≠ 0)
   then modify (λ s, set_pipe (set_writable 0 (the_pipe s)) s) ;; wakeup Chan_nread
   else modify (λ s, set_pipe (set_readable 0 (the_pipe s)) s) ;; wakeup Chan_nwrite) ;;
  p ← gets the_pipe;
  release_pipe ;;
  mret (bool_decide (readable p = 0 ∧ writable p = 0)).

(** The copy loop of pipe_read; the fuel bounds the bytes in the ring. *)
Fixpoint read_loop (fuel : nat) (pt buffer size i : Z) : K st Z :=
  match fuel with
  | O => λ _, NoFuel
  | S f =>
      if decide (i < size) then
        p ← gets the_pipe;
        if decide (nread p = nwrite p) then mret i else
        match p_buf p !! Z.to_nat (nread p mod PIPE_BUF_SIZE) with
        | None => kfault
        | Some ch =>
            u ← gets p_user;
            let '(u', ok) := put_byte pt (u64 (buffer + i)) ch u in
            modify (set_user u') ;;
            if negb ok then mret (if decide (i = 0) then - EFAULT else i) else
            modify (λ s, set_pipe (set_nread (u32 (nread p + 1)) (the_pipe s)) s) ;;
            read_loop f pt buffer size (i + 1)
        end
      else mret i
  end.

Definition pipe_read (pt buffer size : Z) : K st run_end :=
  if decide (size = 0) then mret (Returns 0) else
  acquire_pipe ;;
  p ← gets the_pipe;
  if bool_decide (nread p = nwrite p) && bool_decide (writable p ≠ 0) then
    release_pipe ;; mret (Sleeps Chan_nread 0)
  else
    i ← read_loop (S (Z.to_nat (u32 (nwrite p - nread p)))) pt buffer size 0;
    wakeup Chan_nwrite ;;
    release_pipe ;;
    mret (Returns i).

(** The loop of pipe_write: [inl r] returns at once, [inr (inl i)] leaves the
    loop with [i], [inr (inr i)] sleeps.  A ring of 512 bytes bounds it. *)
Fixpoint write_loop (fuel : nat) (pt buffer size i : Z) : K st (Z + (Z + Z)) :=
  match fuel with
  | O => λ _, NoFuel
  | S f =>
      if decide (i < size) then
        p ← gets the_pipe;
        if decide (readable p = 0) then
          mret (inl (if decide (i > 0) then i else - EPIPE))
        else if decide (u32 (nwrite p - nread p) >= PIPE_BUF_SIZE) then
          wakeup Chan_nread ;; mret (inr (inr i))
        else
          u ← gets p_user;
          match get_byte u pt (u64 (buffer + i)) with
          | None => mret (inr (inl (if decide (i = 0) then - EFAULT else i)))
          | Some ch =>
              modify (λ s, set_pipe (put_char ch (the_pipe s)) s) ;;
              write_loop f pt buffer size (i + 1)
          end
      else mret (inr (inl i))
  end.

(** A run of pipe_write that has already written [i] bytes. *)
Definition pipe_write (pt buffer size i : Z) : K st run_end :=
  acquire_pipe ;;
  e ← write_loop (S (Z.to_nat PIPE_BUF_SIZE)) pt buffer size i;
  match e with
  | inl r => release_pipe ;; mret (Returns r)
  | inr (inr i) => release_pipe ;; mret (Sleeps Chan_nwrite i)
  | inr (inl i) => wakeup Chan_nread ;; release_pipe ;; mret (Returns i)
  end.

(** ** Abstraction: the queue of bytes in the ring *)

Definition count (p : pipe) : Z := u32 (nwrite p - nread p).
Definition queue (p : pipe) : list Z :=
  (λ i, nth (Z.to_nat ((nread p + i) mod PIPE_BUF_SIZE)) (p_buf p) 0) <$> seqZ 0 (count p).

Record pipe_wf (p : pipe) : Prop := {
  pw_len : length (p_buf p) = 512%nat;
  pw_nread : 0 ≤ nread p < 2 ^ 32;
  pw_nwrite : 0 ≤ nwrite p < 2 ^ 32;
  pw_count : count p ≤ PIPE_BUF_SIZE
}.

(** * Lemmas *)

Lemma count_range p : 0 ≤ count p < 2 ^ 32.
Proof. apply u32_range. Qed.

Lemma queue_length p : Z.of_nat (length (queue p)) = count p.
Proof. pose proof (count_range p). unfold queue. rewrite length_fmap, length_seqZ. lia. Qed.

Lemma count_zero p : pipe_wf p → count p = 0 ↔ nread p = nwrite p.
Proof.
  intros [_ Hr Hw _]. unfold count, u32. split; [|intros ->; by rewrite Z.sub_diag].
  intros H0. rewrite Z.mod_divide in H0 by lia. destruct H0 as [k Hk]. nia.
Qed.

(** 512 divides 2^32, so wrapped counters index the same cells. *)
Lemma u32_mod512 z : u32 z mod PIPE_BUF_SIZE = z mod PIPE_BUF_SIZE.
Proof.
  apply Z.mod_mod_divide. by exists 8388608.
Qed.

Lemma count_succ_read p :
  pipe_wf p → 0 < count p → count (set_nread (u32 (nread p + 1)) p) = count p - 1.
Proof.
  intros [_ Hr Hw _] Hc. unfold count in *. simpl. pose proof (u32_range (nwrite p - nread p)) as Hu.
  unfold u32 in *. rewrite Zminus_mod_idemp_r.
  replace (nwrite p - (nread p + 1)) with (nwrite p - nread p - 1) by lia.
  rewrite <-Zminus_mod_idemp_l. apply Z.mod_small. lia.
Qed.

Lemma count_succ_write p ch :
  pipe_wf p → count p < PIPE_BUF_SIZE → count (put_char ch p) = count p + 1.
Proof.
  intros [_ Hr Hw _] Hc. unfold count in *. simpl. pose proof (u32_range (nwrite p - nread p)) as Hu.
  unfold u32, PIPE_BUF_SIZE in *. rewrite Zminus_mod_idemp_l.
  replace (nwrite p + 1 - nread p) with (nwrite p - nread p + 1) by lia.
  rewrite <-Zplus_mod_idemp_l. apply Z.mod_small. lia.
Qed.

Lemma set_nread_wf p : pipe_wf p → 0 < count p → pipe_wf (set_nread (u32 (nread p + 1)) p).
Proof.
  intros Hw Hc. pose proof (count_succ_read p Hw Hc). destruct Hw. split; simpl; [done|apply u32_range|done|lia].
Qed.

Lemma put_char_wf p ch : pipe_wf p → count p < PIPE_BUF_SIZE → pipe_wf (put_char ch p).
Proof.
  intros Hw Hc. pose proof (count_succ_write p ch Hw Hc). destruct Hw.
  split; [simpl; by rewrite length_insert|done|apply u32_range|lia].
Qed.

(** Taking a byte removes the head of the queue. *)
Lemma queue_read p :
  pipe_wf p → 0 < count p →
  ∃ ch, p_buf p !! Z.to_nat (nread p mod PIPE_BUF_SIZE) = Some ch ∧
        queue p = ch :: queue (set_nread (u32 (nread p + 1)) p).
Proof.
  intros Hw Hc. pose proof (pw_len _ Hw) as Hlen.
  assert (Hb : 0 ≤ nread p mod PIPE_BUF_SIZE < 512) by (apply Z.mod_pos_bound; done).
  destruct (lookup_lt_is_Some_2 (p_buf p) (Z.to_nat (nread p mod PIPE_BUF_SIZE))) as [ch Hch]; [lia|].
  exists ch. split; [done|]. unfold queue at 1. rewrite seqZ_cons by lia. simpl. f_equal.
  - rewrite Z.add_0_r. by apply nth_lookup_Some.
  - unfold queue. rewrite count_succ_read by done. replace (Z.pred (count p)) with (count p - 1) by lia.
    replace (Z.succ 0) with 1 by done. rewrite <-(fmap_add_seqZ 1 0), <-list_fmap_compose.
    apply list_fmap_ext. intros _ i _. unfold compose. simpl.
    rewrite <-Zplus_mod_idemp_l, <-(Zplus_mod_idemp_l (u32 _)), u32_mod512.
    rewrite !Zplus_mod_idemp_l. do 3 f_equal. lia.
Qed.

Lemma nwrite_cell p : pipe_wf p → nwrite p mod PIPE_BUF_SIZE = (nread p + count p) mod PIPE_BUF_SIZE.
Proof.
  intros _. unfold count. rewrite <-Zplus_mod_idemp_r, u32_mod512, Zplus_mod_idemp_r.
  f_equal. lia.
Qed.

(** Writing a byte appends it to the queue. *)
Lemma queue_write p ch :
  pipe_wf p → count p < PIPE_BUF_SIZE → queue (put_char ch p) = queue p ++ [ch].
Proof.
  intros Hw Hc. pose proof (count_range p) as Hc0. pose proof (pw_len _ Hw) as Hlen.
  unfold queue. rewrite count_succ_write by done.
  replace (count p + 1) with (Z.of_nat (S (Z.to_nat (count p)))) by lia.
  rewrite seqZ_S, fmap_app. rewrite Z2Nat.id by lia. simpl.
  assert (Hb : ∀ z, 0 ≤ z mod PIPE_BUF_SIZE < 512) by (intros; by apply Z.mod_pos_bound).
  f_equal.
  - apply list_fmap_ext. intros _ i Hi%list_elem_of_lookup_2%elem_of_seqZ.
    rewrite nwrite_cell by done. apply nth_insert_ne || idtac.
    rewrite !nth_lookup. f_equal. apply list_lookup_insert_ne. intros Heq.
    apply Z2Nat.inj in Heq; [|apply Hb..]. unfold PIPE_BUF_SIZE in *.
    pose proof (Z.div_mod (nread p + i) 512). pose proof (Z.div_mod (nread p + count p) 512). lia.
  - f_equal. rewrite <-nwrite_cell by done. rewrite nth_lookup, list_lookup_insert_eq; [done|].
    rewrite Hlen. specialize (Hb (nwrite p)). lia.
Qed.

(** ** Effect of the read loop *)

(** [l] sits at address [a] of page table [pt]. *)
Definition user_holds (u : U) (pt a : Z) (l : list Z) : Prop :=
  ∀ j b, l !! j = Some b → get_byte u pt (u64 (a + Z.of_nat j)) = Some b.

(** Nothing outside the [n] bytes at [a] changed. *)
Definition user_frame (u u' : U) (pt a n : Z) : Prop :=
  ∀ pt' a', (pt' = pt → ∀ j, 0 ≤ j < n → a' ≠ u64 (a + j)) → get_byte u' pt' a' = get_byte u pt' a'.

(** Everything but [nread] and the user bytes is as before. *)
Record read_post (s s' : st) (pt a : Z) (l : list Z) : Prop := {
  rp_queue : queue (the_pipe s) = l ++ queue (the_pipe s');
  rp_wf : pipe_wf (the_pipe s');
  rp_same : set_nread 0 (the_pipe s') = set_nread 0 (the_pipe s);
  rp_woken : woken s' = woken s;
  rp_user : user_holds (p_user s') pt a l;
  rp_frame : user_frame (p_user s) (p_user s') pt a (Z.of_nat (length l))
}.

Lemma queue_nil p : pipe_wf p → nread p = nwrite p → queue p = [].
Proof. intros Hw Hn. unfold queue. apply count_zero in Hn; [|done]. by rewrite Hn. Qed.

Lemma read_loop_run fuel pt buffer size i s :
  pipe_wf (the_pipe s) → (Z.to_nat (count (the_pipe s)) < fuel)%nat → 0 ≤ i → i ≤ size →
  ∃ r s' l, read_loop fuel pt buffer size i s = Ret (r, s') ∧
    read_post s s' pt (buffer + i) l ∧ i + Z.of_nat (length l) ≤ size ∧
    (r = i + Z.of_nat (length l) ∨ r = - EFAULT ∧ i = 0 ∧ l = []) ∧
    (i + Z.of_nat (length l) = size ∨ queue (the_pipe s') = [] ∨
     ∃ b u, (put_byte pt (u64 (buffer + (i + Z.of_nat (length l)))) b u).2 = false).
Proof.
  revert i s. induction fuel as [|f IH]; intros i s Hw Hf Hi Hsz; [lia|]. simpl.
  assert (Hnil : read_post s s pt (buffer + i) []) by (split; done).
  destruct (decide (i < size)) as [Hlt|Hge].
  2: { exists i, s, []. split; [done|]. simpl. split; [done|]. lia. }
  kunfold. destruct (decide (nread (the_pipe s) = nwrite (the_pipe s))) as [He|Hne].
  { exists i, s, []. split; [done|]. simpl. split; [done|]. split; [lia|]. split; [lia|].
    right; left. by apply queue_nil. }
  assert (Hc : 0 < count (the_pipe s)).
  { pose proof (count_range (the_pipe s)). rewrite <-count_zero in Hne by done. lia. }
  destruct (queue_read (the_pipe s) Hw Hc) as (ch & Hch & Hq). rewrite Hch.
  destruct (put_byte pt (u64 (buffer + i)) ch (p_user s)) as [u' []] eqn:Ep; simpl.
  - set (s1 := set_pipe _ _). destruct (put_byte_ok _ _ _ _ _ Ep) as [Hu1 Hu2].
    destruct (IH (i + 1) s1) as (r & s' & l & Hrun & Hpost & Hle & Hr & Hend).
    + by apply set_nread_wf.
    + simpl. rewrite count_succ_read by done. lia.
    + lia.
    + lia.
    + exists r, s', (ch :: l). split; [done|]. destruct Hpost as [P1 P2 P3 P4 P5 P6].
      simpl length. pose proof (count_range (the_pipe s)). pose proof (pw_count _ Hw).
      assert (Hll : Z.of_nat (length l) < 2 ^ 64).
      { pose proof (queue_length (the_pipe s1)) as Hql. rewrite P1, length_app in Hql.
        simpl in Hql. rewrite count_succ_read in Hql by done. unfold PIPE_BUF_SIZE in *. lia. }
      split; [split|].
      * by rewrite Hq, <-app_comm_cons, <-P1.
      * done.
      * by rewrite P3.
      * done.
      * intros [|j] b Hj; simpl in Hj.
        -- injection Hj as <-. rewrite Z.add_0_r. rewrite P6; [done|].
           intros _ j Hj. apply u64_ne; lia.
        -- replace (buffer + i + Z.of_nat (S j)) with (buffer + (i + 1) + Z.of_nat j) by lia. by apply P5.
      * intros pt' a' Ha. rewrite P6.
        -- apply Hu2. intros [= -> ->]. apply (Ha eq_refl 0); [cbn [length]; lia|]. by rewrite Z.add_0_r.
        -- intros Hpt j Hj. replace (buffer + (i + 1) + j) with (buffer + i + (j + 1)) by lia.
           apply Ha; [done|cbn [length]; lia].
      * split; [lia|]. split; [|by replace (i + Z.of_nat (S (length l))) with (i + 1 + Z.of_nat (length l)) by lia].
        destruct Hr as [->|(_ & ? & _)]; [left|]; lia.
  - eexists _, _, []. split; [done|]. split; [split; try done|].
    + intros pt' a' _. by apply (put_byte_fail _ _ _ _ _ Ep).
    + simpl. split; [lia|]. split; [case_decide; [by right|left; lia]|].
      right; right. exists ch, (p_user s). rewrite Z.add_0_r. by rewrite Ep.
Qed.

(** ** Effect of the write loop *)

Definition ends_same (p p' : pipe) : Prop :=
  readable p' = readable p ∧ writable p' = writable p ∧ p_lock p' = p_lock p.

Definition write_end (s s' : st) (pt buffer size i : Z) (l : list Z) (e : Z + (Z + Z)) : Prop :=
  let n := i + Z.of_nat (length l) in
  match e with
  | inl r => readable (the_pipe s) = 0 ∧ i < size ∧ l = [] ∧ woken s' = woken s ∧
             r = (if decide (i > 0) then i else - EPIPE)
  | inr (inr k) => k = n ∧ n < size ∧ count (the_pipe s') = PIPE_BUF_SIZE ∧
             woken s' = woken s ++ [Chan_nread] ∧ readable (the_pipe s) ≠ 0
  | inr (inl r) => woken s' = woken s ∧
             (r = n ∧ n = size ∨
              get_byte (p_user s) pt (u64 (buffer + n)) = None ∧ r = (if decide (n = 0) then - EFAULT else n))
  end.

Lemma write_loop_run fuel pt buffer size i s :
  pipe_wf (the_pipe s) → PIPE_BUF_SIZE - count (the_pipe s) < Z.of_nat fuel → 0 ≤ i ≤ size →
  ∃ e s' l, write_loop fuel pt buffer size i s = Ret (e, s') ∧
    queue (the_pipe s') = queue (the_pipe s) ++ l ∧ pipe_wf (the_pipe s') ∧
    p_user s' = p_user s ∧ ends_same (the_pipe s) (the_pipe s') ∧
    user_holds (p_user s) pt (buffer + i) l ∧ i + Z.of_nat (length l) ≤ size ∧
    write_end s s' pt buffer size i l e.
Proof.
  revert i s. induction fuel as [|f IH]; intros i s Hw Hf Hi.
  { pose proof (pw_count _ Hw). lia. }
  assert (Hnil : ∀ e s', the_pipe s' = the_pipe s → p_user s' = p_user s → write_end s s' pt buffer size i [] e →
    ∃ e0 s0 l, Ret (e, s') = Ret (e0, s0) ∧ queue (the_pipe s0) = queue (the_pipe s) ++ l ∧
      pipe_wf (the_pipe s0) ∧ p_user s0 = p_user s ∧ ends_same (the_pipe s) (the_pipe s0) ∧
      user_holds (p_user s) pt (buffer + i) l ∧ i + Z.of_nat (length l) ≤ size ∧
      write_end s s0 pt buffer size i l e0).
  { intros e s' Hp Hu He. exists e, s', []. rewrite Hp, app_nil_r. split_and!; try done. simpl. lia. }
  simpl. destruct (decide (i < size)) as [Hlt|Hge].
  2: { kunfold. apply Hnil; [done..|]. simpl. split; [done|]. left. lia. }
  kunfold. destruct (decide (readable (the_pipe s) = 0)) as [Hr|Hr]; [by apply Hnil|].
  fold (count (the_pipe s)). destruct (decide (count (the_pipe s) >= PIPE_BUF_SIZE)) as [Hfull|Hroom].
  { apply Hnil; [done..|]. simpl. pose proof (pw_count _ Hw). split_and!; try done; lia. }
  destruct (get_byte (p_user s) pt (u64 (buffer + i))) as [ch|] eqn:Eg.
  2: { apply Hnil; [done..|]. simpl. rewrite Z.add_0_r. split; [done|]. by right. }
  assert (Hc : count (the_pipe s) < PIPE_BUF_SIZE) by lia.
  set (s1 := set_pipe (put_char ch (the_pipe s)) s).
  destruct (IH (i + 1) s1) as (e & s' & l & Hrun & Hq & Hw' & Hu & Hend & Hh & Hle & He).
  - by apply put_char_wf.
  - simpl. rewrite count_succ_write by done. lia.
  - lia.
  - exists e, s', (ch :: l). split_and!; try done.
    + rewrite Hq. simpl. rewrite queue_write by done. by rewrite <-app_assoc.
    + intros [|j] b Hj; simpl in Hj.
      * injection Hj as <-. by rewrite Z.add_0_r.
      * replace (buffer + i + Z.of_nat (S j)) with (buffer + (i + 1) + Z.of_nat j) by lia. by apply Hh.
    + cbn [length]. lia.
    + unfold write_end in *. cbn [length].
      replace (i + Z.of_nat (S (length l))) with (i + 1 + Z.of_nat (length l)) by lia.
      destruct e as [r|[r|k]]; [|done..]. destruct He as [? _]. by destruct Hr.
Qed.

(** ** Whole runs *)

Lemma acquire_pipe_run s :
  p_lock (the_pipe s) = false →
  acquire_pipe s = Ret (tt, set_pipe (set_p_lock true (the_pipe s)) s).
Proof. intros Hl. unfold acquire_pipe, acquire. by rewrite Hl. Qed.
Lemma release_pipe_run s :
  p_lock (the_pipe s) = true →
  release_pipe s = Ret (tt, set_pipe (set_p_lock false (the_pipe s)) s).
Proof. intros Hl. unfold release_pipe, release. by rewrite Hl. Qed.

Lemma lock_wf b p : pipe_wf (set_p_lock b p) ↔ pipe_wf p.
Proof. by split; intros []; split. Qed.

Lemma pipe_read_run pt buffer size s :
  pipe_wf (the_pipe s) → p_lock (the_pipe s) = false → 0 < size →
  (queue (the_pipe s) ≠ [] ∨ writable (the_pipe s) = 0) →
  ∃ r s' l, pipe_read pt buffer size s = Ret (Returns r, s') ∧
    queue (the_pipe s) = l ++ queue (the_pipe s') ∧ pipe_wf (the_pipe s') ∧
    ends_same (the_pipe s) (the_pipe s') ∧ woken s' = woken s ++ [Chan_nwrite] ∧
    user_holds (p_user s') pt buffer l ∧
    user_frame (p_user s) (p_user s') pt buffer (Z.of_nat (length l)) ∧
    Z.of_nat (length l) ≤ size ∧ (r = Z.of_nat (length l) ∨ r = - EFAULT ∧ l = []) ∧
    (Z.of_nat (length l) = size ∨ queue (the_pipe s') = [] ∨
     ∃ b u, (put_byte pt (u64 (buffer + Z.of_nat (length l))) b u).2 = false).
Proof.
  intros Hw Hl Hsz Hgo. unfold pipe_read. rewrite decide_False by lia.
  rewrite (bind_Ret _ _ _ _ _ (acquire_pipe_run s Hl)).
  set (s1 := set_pipe (set_p_lock true (the_pipe s)) s).
  rewrite (bind_Ret _ _ _ (the_pipe s1) s1) by done.
  assert (Hcond : bool_decide (nread (the_pipe s1) = nwrite (the_pipe s1)) &&
                  bool_decide (writable (the_pipe s1) ≠ 0) = false).
  { apply andb_false_iff. destruct Hgo as [Hq|Hz]; [left|right]; apply bool_decide_eq_false_2.
    - intros He. by apply Hq, queue_nil.
    - by intros []. }
  rewrite Hcond.
  destruct (read_loop_run (S (Z.to_nat (count (the_pipe s1)))) pt buffer size 0 s1)
    as (r & s' & l & Hrun & [P1 P2 P3 P4 P5 P6] & Hle & Hr & Hend); [by apply lock_wf|lia..|].
  rewrite (bind_Ret _ _ _ _ _ Hrun). clear Hrun.
  set (s2 := mk_pipe_st (the_pipe s') (p_user s') (woken s' ++ [Chan_nwrite])).
  rewrite (bind_Ret _ _ _ tt s2) by done.
  rewrite Z.add_0_r in P5, P6. rewrite Z.add_0_l in *.
  injection P3 as E1 E2 E3 E4 E5.
  rewrite (bind_Ret _ _ _ _ _ (release_pipe_run s2 E5)).
  exists r, (set_pipe (set_p_lock false (the_pipe s2)) s2), l.
  split; [done|]. split; [exact P1|]. split; [by apply lock_wf|]. split; [done|].
  split; [simpl; by rewrite P4|]. split_and!; try done. destruct Hr as [->|(-> & _ & ->)]; [by left|by right].
Qed.

Lemma pipe_read_sleep pt buffer size s :
  pipe_wf (the_pipe s) → p_lock (the_pipe s) = false → 0 < size →
  queue (the_pipe s) = [] → writable (the_pipe s) ≠ 0 →
  pipe_read pt buffer size s = Ret (Sleeps Chan_nread 0, s).
Proof.
  intros Hw Hl Hsz Hq Hwr. unfold pipe_read. rewrite decide_False by lia.
  rewrite (bind_Ret _ _ _ _ _ (acquire_pipe_run s Hl)).
  set (s1 := set_pipe (set_p_lock true (the_pipe s)) s).
  rewrite (bind_Ret _ _ _ (the_pipe s1) s1) by done.
  assert (He : nread (the_pipe s) = nwrite (the_pipe s)).
  { apply count_zero; [done|]. rewrite <-queue_length, Hq. done. }
  rewrite (bool_decide_eq_true_2 (nread _ = _)) by done.
  rewrite (bool_decide_eq_true_2 (writable _ ≠ 0)) by done. simpl.
  rewrite (bind_Ret _ _ _ _ _ (release_pipe_run s1 eq_refl)).
  destruct s as [[] ? ?]; simpl in *. by subst.
Qed.

(** What a run of pipe_write ends with. *)
Definition write_result (s s' : st) (pt buffer size i : Z) (l : list Z) (e : run_end) : Prop :=
  let n := i + Z.of_nat (length l) in
  match e with
  | Sleeps c k => c = Chan_nwrite ∧ k = n ∧ n < size ∧ count (the_pipe s') = PIPE_BUF_SIZE ∧
      woken s' = woken s ++ [Chan_nread]
  | Returns r =>
      readable (the_pipe s) = 0 ∧ i < size ∧ l = [] ∧ r = (if decide (i > 0) then i else - EPIPE) ∨
      woken s' = woken s ++ [Chan_nread] ∧
      (r = n ∧ n = size ∨
       get_byte (p_user s) pt (u64 (buffer + n)) = None ∧ r = (if decide (n = 0) then - EFAULT else n))
  end.

Lemma pipe_write_run pt buffer size i s :
  pipe_wf (the_pipe s) → p_lock (the_pipe s) = false → 0 ≤ i ≤ size →
  ∃ e s' l, pipe_write pt buffer size i s = Ret (e, s') ∧
    queue (the_pipe s') = queue (the_pipe s) ++ l ∧ pipe_wf (the_pipe s') ∧
    p_user s' = p_user s ∧ ends_same (the_pipe s) (the_pipe s') ∧
    user_holds (p_user s) pt (buffer + i) l ∧ write_result s s' pt buffer size i l e.
Proof.
  intros Hw Hl Hi. unfold pipe_write. rewrite (bind_Ret _ _ _ _ _ (acquire_pipe_run s Hl)).
  set (s1 := set_pipe (set_p_lock true (the_pipe s)) s).
  destruct (write_loop_run (S (Z.to_nat PIPE_BUF_SIZE)) pt buffer size i s1)
    as (e & s' & l & Hrun & Hq & Hw' & Hu & (E1 & E2 & E3) & Hh & Hle & He); [by apply lock_wf| |done|].
  { pose proof (count_range (the_pipe s1)). unfold PIPE_BUF_SIZE. lia. }
  rewrite (bind_Ret _ _ _ _ _ Hrun). clear Hrun. unfold write_end in He. simpl in *.
  destruct e as [r|[r|k]].
  - rewrite (bind_Ret _ _ _ _ _ (release_pipe_run s' E3)).
    exists (Returns r), (set_pipe (set_p_lock false (the_pipe s')) s'), l.
    split_and!; try done; [by apply lock_wf|]. simpl. left. naive_solver.
  - set (s2 := mk_pipe_st (the_pipe s') (p_user s') (woken s' ++ [Chan_nread])).
    rewrite (bind_Ret _ _ _ tt s2) by done. rewrite (bind_Ret _ _ _ _ _ (release_pipe_run s2 E3)).
    exists (Returns r), (set_pipe (set_p_lock false (the_pipe s2)) s2), l.
    split_and!; try done; [by apply lock_wf|]. simpl. right. destruct He as [-> He]. done.
  - rewrite (bind_Ret _ _ _ _ _ (release_pipe_run s' E3)).
    exists (Sleeps Chan_nwrite k), (set_pipe (set_p_lock false (the_pipe s')) s'), l.
    split_and!; try done; [by apply lock_wf|]. simpl. destruct He as (-> & ? & ? & ? & ?). done.
Qed.

(** ** Interleaved runs *)

(** The [n] bytes at [a] as the process sees them. *)
Definition ubytes (u : U) (pt a n : Z) : list Z :=
  (λ j, default 0 (get_byte u pt (u64 (a + j)))) <$> seqZ 0 n.

Inductive pipe_op :=
  | Op_read (pt buffer size : Z)
  | Op_write (pt buffer size i : Z)
  | Op_close (w : Z).

Definition op_ok (o : pipe_op) : Prop :=
  match o with
  | Op_read _ _ size => 0 ≤ size
  | Op_write _ _ size i => 0 ≤ i ≤ size
  | Op_close _ => True
  end.

(** One run, with the bytes it took from the writer's buffer and the bytes
    it left in the reader's. *)
Definition op_run (o : pipe_op) : K st (list Z * list Z) :=
  match o with
  | Op_read pt buffer size =>
      e ← pipe_read pt buffer size;
      u ← gets p_user;
      mret ([], match e with Returns n => ubytes u pt buffer n | Sleeps _ _ => [] end)
  | Op_write pt buffer size i =>
      u ← gets p_user;
      e ← pipe_write pt buffer size i;
      mret (match e with Returns n => ubytes u pt (buffer + i) (n - i)
                       | Sleeps _ k => ubytes u pt (buffer + i) (k - i) end, [])
  | Op_close w => pipe_close w ;; mret ([], [])
  end.

Fixpoint ops_run (os : list pipe_op) : K st (list Z * list Z) :=
  match os with
  | [] => mret ([], [])
  | o :: os =>
      r ← op_run o;
      rs ← ops_run os;
      mret (r.1 ++ rs.1, r.2 ++ rs.2)
  end.

Lemma ubytes_holds u pt a l : user_holds u pt a l → ubytes u pt a (Z.of_nat (length l)) = l.
Proof.
  intros Hh. apply list_eq. intros j. unfold ubytes. rewrite list_lookup_fmap.
  destruct (l !! j) as [b|] eqn:Ej.
  - pose proof (lookup_lt_Some _ _ _ Ej). rewrite lookup_seqZ_lt by lia. simpl.
    by rewrite ?Z.add_0_l, (Hh j b Ej).
  - apply lookup_ge_None in Ej. rewrite lookup_seqZ_ge by lia. done.
Qed.

Lemma ubytes_neg u pt a n : n ≤ 0 → ubytes u pt a n = [].
Proof. intros Hn. unfold ubytes. by rewrite seqZ_nil. Qed.

Lemma op_run_fifo o s :
  pipe_wf (the_pipe s) → p_lock (the_pipe s) = false → op_ok o →
  ∃ a d s', op_run o s = Ret ((a, d), s') ∧
    queue (the_pipe s) ++ a = d ++ queue (the_pipe s') ∧
    pipe_wf (the_pipe s') ∧ p_lock (the_pipe s') = false.
Proof.
  intros Hw Hl Hok. destruct o as [pt buffer size|pt buffer size i|w]; simpl in Hok.
  - destruct (decide (size = 0)) as [->|Hs0].
    { exists [], [], s. split; [done|]. by rewrite app_nil_r. }
    destruct (decide (queue (the_pipe s) = [] ∧ writable (the_pipe s) ≠ 0)) as [[Hq Hwr]|Hgo].
    + exists [], [], s. simpl. rewrite (bind_Ret _ _ _ _ _ (pipe_read_sleep pt buffer size s Hw Hl ltac:(lia) Hq Hwr)).
      split; [done|]. by rewrite app_nil_r.
    + destruct (pipe_read_run pt buffer size s Hw Hl) as (r & s' & l & Hrun & Hq & Hw' & Hend & _ & Hh & _ & _ & Hr & _);
        [lia|destruct (decide (queue (the_pipe s) = [])); [right|by left]; destruct (decide (writable (the_pipe s) = 0)); naive_solver|].
      exists [], l, s'. simpl. rewrite (bind_Ret _ _ _ _ _ Hrun). destruct Hend as (_ & _ & E3).
      split_and!; [|by rewrite app_nil_r|done|congruence].
      unfold gets. kunfold. do 3 f_equal. destruct Hr as [->|[-> ->]]; [by apply ubytes_holds|].
      apply ubytes_neg. unfold EFAULT. lia.
  - destruct (pipe_write_run pt buffer size i s Hw Hl Hok) as (e & s' & l & Hrun & Hq & Hw' & Hu & (_ & _ & E3) & Hh & He).
    exists l, [], s'. simpl. rewrite (bind_Ret _ _ _ (p_user s) s) by done.
    rewrite (bind_Ret _ _ _ _ _ Hrun). split_and!; [|done|done|congruence].
    kunfold. do 3 f_equal. unfold write_result in He. destruct e as [r|c k].
    + destruct He as [(_ & _ & -> & ->)|(_ & [(-> & _)|(_ & ->)])].
      * apply ubytes_neg. unfold EPIPE. case_decide; lia.
      * rewrite Z.add_simpl_l. by apply ubytes_holds.
      * case_decide as Hn; [|rewrite Z.add_simpl_l; by apply ubytes_holds].
        assert (l = []) as -> by (destruct l; [done|cbn [length] in Hn; lia]).
        apply ubytes_neg. unfold EFAULT. lia.
    + destruct He as (_ & -> & _). rewrite Z.add_simpl_l. by apply ubytes_holds.
  - exists [], []. simpl. unfold pipe_close.
    rewrite bind_assoc, (bind_Ret _ _ _ _ _ (acquire_pipe_run s Hl)).
    case_decide; kunfold; (eexists; split; [done|]); simpl; rewrite app_nil_r;
      (split; [done|]); (split; [|done]); by destruct Hw.
Qed.

(** * Theorems *)

(** pipe_read sleeps on an empty pipe with a writer; otherwise it returns
    a prefix of the ring of at most size bytes, stored in the user buffer, and
    stops early only on an empty ring or a bad address. *)
Theorem pipe_read_spec pt buffer size s :
  pipe_wf (the_pipe s) → p_lock (the_pipe s) = false → 0 < size →
  (queue (the_pipe s) = [] ∧ writable (the_pipe s) ≠ 0 ∧
   pipe_read pt buffer size s = Ret (Sleeps Chan_nread 0, s)) ∨
  ∃ r s' l, pipe_read pt buffer size s = Ret (Returns r, s') ∧
    queue (the_pipe s) = l ++ queue (the_pipe s') ∧ pipe_wf (the_pipe s') ∧
    woken s' = woken s ++ [Chan_nwrite] ∧ user_holds (p_user s') pt buffer l ∧
    user_frame (p_user s) (p_user s') pt buffer (Z.of_nat (length l)) ∧
    Z.of_nat (length l) ≤ size ∧ (r = Z.of_nat (length l) ∨ r = - EFAULT ∧ l = []) ∧
    (Z.of_nat (length l) = size ∨ queue (the_pipe s') = [] ∨
     ∃ b u, (put_byte pt (u64 (buffer + Z.of_nat (length l))) b u).2 = false).
Proof.
  intros Hw Hl Hs.
  destruct (decide (queue (the_pipe s) = [] ∧ writable (the_pipe s) ≠ 0)) as [[Hq Hwr]|Hgo].
  - left. split_and!; [done..|]. by apply pipe_read_sleep.
  - right. destruct (pipe_read_run pt buffer size s Hw Hl Hs) as (r & s' & l & Hr & Hq & Hw' & _ & Hx).
    2: by exists r, s', l.
    destruct (decide (queue (the_pipe s) = [])), (decide (writable (the_pipe s) = 0)); naive_solver.
Qed.

(** pipe_write appends to the ring exactly the bytes it took from the
    user buffer and ends by return, by sleeping on a full ring, or by EPIPE
    when no reader is left. *)
Theorem pipe_write_spec pt buffer size i s :
  pipe_wf (the_pipe s) → p_lock (the_pipe s) = false → 0 ≤ i ≤ size →
  ∃ e s' l, pipe_write pt buffer size i s = Ret (e, s') ∧
    queue (the_pipe s') = queue (the_pipe s) ++ l ∧ pipe_wf (the_pipe s') ∧
    p_user s' = p_user s ∧ ends_same (the_pipe s) (the_pipe s') ∧
    user_holds (p_user s) pt (buffer + i) l ∧ write_result s s' pt buffer size i l e.
Proof. apply pipe_write_run. Qed.

(** C18: Over any interleaving of reads and writes, the bytes the readers got
    followed by the bytes still in the ring are the bytes initially in the
    ring followed by those the writers put in: nothing is lost, duplicated or
    reordered. *)
Theorem pipe_fifo os s :
  pipe_wf (the_pipe s) → p_lock (the_pipe s) = false → Forall op_ok os →
  ∃ a d s', ops_run os s = Ret ((a, d), s') ∧
    queue (the_pipe s) ++ a = d ++ queue (the_pipe s') ∧ pipe_wf (the_pipe s').
Proof.
  revert s. induction os as [|o os IH]; intros s Hw Hl Hok.
  { exists [], [], s. by rewrite app_nil_r. }
  apply Forall_cons in Hok as [Ho Hok].
  destruct (op_run_fifo o s Hw Hl Ho) as (a1 & d1 & s1 & H1 & Hq1 & Hw1 & Hl1).
  destruct (IH s1 Hw1 Hl1 Hok) as (a2 & d2 & s2 & H2 & Hq2 & Hw2).
  exists (a1 ++ a2), (d1 ++ d2), s2. split; [|split; [|done]].
  - simpl. by rewrite (bind_Ret _ _ _ _ _ H1), (bind_Ret _ _ _ _ _ H2).
  - by rewrite app_assoc, Hq1, <-app_assoc, Hq2, app_assoc.
Qed.
End pipe.

(** ** Concrete user memory: one flat map per page table *)
#[local] Instance flat_user : UserBytes (gmap (Z * Z) Z).
Proof.
  refine {| get_byte := λ u pt a, u !! (pt, a); put_byte := λ pt a b u, (<[(pt, a) := b]> u, true) |}.
  - intros pt a b u u' [= <-]. split; [apply lookup_insert_eq|].
    intros pt' a' Hne. by apply lookup_insert_ne.
  - done.
Defined.

Definition demo_pipe_st : pipe_st (gmap (Z * Z) Z) :=
  mk_pipe_st (mk_pipe (replicate 512 0) (2 ^ 32 - 1) (2 ^ 32 - 1) 1 1 false)
    {[ (1, 100) := 65; (1, 101) := 66 ]} [].

Lemma demo_pipe_wf : pipe_wf (the_pipe demo_pipe_st).
Proof. by split; [vm_compute| | |vm_compute]. Qed.

Lemma pipe_read_spec_witness :
  pipe_read 2 200 8 demo_pipe_st = Ret (Sleeps Chan_nread 0, demo_pipe_st).
Proof.
  destruct (pipe_read_spec 2 200 8 demo_pipe_st demo_pipe_wf eq_refl ltac:(lia))
    as [(_ & _ & Hr)|(r & s' & l & Hr & _)]; [done|]. vm_compute in Hr. done.
Defined.

Lemma pipe_write_spec_witness :
  ∃ e s', pipe_write 1 100 2 0 demo_pipe_st = Ret (e, s') ∧ e = Returns 2 ∧ queue (the_pipe s') = [65; 66].
Proof.
  destruct (pipe_write_spec 1 100 2 0 demo_pipe_st demo_pipe_wf eq_refl ltac:(lia))
    as (e & s' & l & Hr & Hq & _).
  exists e, s'. split; [done|]. vm_compute in Hr. by injection Hr as <- <-.
Defined.

Lemma pipe_fifo_witness :
  ∃ s', ops_run [Op_write 1 100 2 0; Op_read 2 200 1; Op_close 1; Op_read 2 300 5] demo_pipe_st
        = Ret (([65; 66], [65; 66]), s') ∧ pipe_wf (the_pipe s').
Proof.
  destruct (pipe_fifo [Op_write 1 100 2 0; Op_read 2 200 1; Op_close 1; Op_read 2 300 5]
    demo_pipe_st demo_pipe_wf eq_refl) as (a & d & s' & Hr & Hq & Hw).
  { repeat constructor; simpl; lia. }
  exists s'. split; [|done]. rewrite Hr. vm_compute in Hr. by injection Hr as <- <- _.
Defined.
