(* ===== verification/Signal.v ===== *)
(** kernel/core/signal.c and the signal system calls of kernel/core/sysproc.c.

    A process' signal state is its pending and blocked masks (64-bit words,
    signal [n] at bit [n - 1]) and its table of 64 actions.  Delivery pushes
    a frame holding the interrupted trap frame and mask on the user stack;
    rt_sigreturn pops it.  Structures move to and from user memory through
    the class [UserObj]. *)
From S2P Require Import Prelude.

Definition NSIG : Z := 64.
Definition SIGKILL : Z := 9.
Definition SIGSTOP : Z := 19.
Definition SIG_DFL : Z := 0.
Definition SIG_IGN : Z := 1.
Definition SIG_BLOCK : Z := 0.
Definition SIG_UNBLOCK : Z := 1.
Definition SIG_SETMASK : Z := 2.
Definition SIGMASK (sig : Z) : Z := Z.shiftl 1 (sig - 1).

Record sigaction := mk_sigaction {
  handler : Z;
  sa_flags : Z;
  restorer : Z;
  sa_mask : Z
}.
Record sighand := mk_sighand {
  sig_pending : Z;
  sig_blocked : Z;
  actions : list sigaction
}.
(** The registers of the trap frame the signal code touches, and the rest. *)
Record trapframe := mk_trapframe {
  tf_sp : Z;
  tf_epc : Z;
  tf_a0 : Z;
  tf_ra : Z;
  tf_rest : list Z
}.
Record sigframe := mk_sigframe { saved_tf : trapframe; saved_mask : Z }.

(** copyin and copyout of a structure of type [A]. *)
Class UserObj (U A : Type) := {
  uget : U → Z → option A;
  uput : Z → A → U → U * bool;
  uget_uput a x u u' : uput a x u = (u', true) → uget u' a = Some x
}.

Record sigproc (U : Type) := mk_sigproc {
  sp_hand : sighand;
  sp_tf : trapframe;
  sp_lock : bool;
  sp_user : U
}.
Arguments mk_sigproc {_} _ _ _ _.
Arguments sp_hand {_} _.
Arguments sp_tf {_} _.
Arguments sp_lock {_} _.
Arguments sp_user {_} _.

(** check_signal comes back, or the process exits with a code. *)
Inductive sig_end := Returned | Exits (code : Z).

Definition lowest_set_bit (mask : Z) : Z :=
  let n := 0 in
  let '(mask, n) := if decide (Z.land mask 0xFFFFFFFF = 0) then (Z.shiftr mask 32, n + 32) else (mask, n) in
  let '(mask, n) := if decide (Z.land mask 0xFFFF = 0) then (Z.shiftr mask 16, n + 16) else (mask, n) in
  let '(mask, n) := if decide (Z.land mask 0xFF = 0) then (Z.shiftr mask 8, n + 8) else (mask, n) in
  let '(mask, n) := if decide (Z.land mask 0xF = 0) then (Z.shiftr mask 4, n + 4) else (mask, n) in
  let '(mask, n) := if decide (Z.land mask 0x3 = 0) then (Z.shiftr mask 2, n + 2) else (mask, n) in
  if decide (Z.land mask 0x1 = 0) then n + 1 else n.

(** [k] is the lowest set bit of [m]. *)
Definition is_lsb (m k : Z) : Prop :=
  0 ≤ k ∧ Z.testbit m k = true ∧ ∀ j, 0 ≤ j < k → Z.testbit m j = false.

Lemma is_lsb_exists m : 0 < m < 2 ^ 64 → ∃ k, is_lsb m k ∧ k < 64.
Proof.
  intros Hm. cut (∀ n : nat, (∀ j, 0 ≤ j < Z.of_nat n → Z.testbit m j = false) ∨
    ∃ k, is_lsb m k ∧ k < Z.of_nat n).
  { intros Hn. destruct (Hn 64%nat) as [Hz|Hk]; [|done]. exfalso.
    assert (m = 0); [|lia]. apply Z.bits_inj'. intros i Hi. rewrite Z.bits_0.
    destruct (decide (i < 64)); [apply Hz; lia|]. apply (testbit_high m 64); lia. }
  induction n as [|n [IH|(k & Hk & Hlt)]]; [left; lia| |right; exists k; split; [done|lia]].
  destruct (Z.testbit m (Z.of_nat n)) eqn:E.
  - right. exists (Z.of_nat n). split; [|lia]. split; [lia|done].
  - left. intros j Hj. destruct (decide (j = Z.of_nat n)) as [->|]; [done|]. apply IH. lia.
Qed.

(** One halving step of the binary search. *)
Lemma lsb_stage m k w :
  0 ≤ w → is_lsb m k →
  if decide (Z.land m (2 ^ w - 1) = 0) then w ≤ k ∧ is_lsb (Z.shiftr m w) (k - w) else k < w.
Proof.
  intros Hw (Hk & Hb & Hlo).
  assert (Hones : ∀ j, 0 ≤ j < w → Z.testbit (Z.land m (2 ^ w - 1)) j = Z.testbit m j).
  { intros j Hj. replace (2 ^ w - 1) with (Z.ones w) by (rewrite Z.ones_equiv; lia).
    rewrite Z.land_spec, Z.ones_spec_low, andb_true_r by lia. done. }
  case_decide as Hz.
  - assert (w ≤ k).
    { destruct (decide (w ≤ k)); [done|]. rewrite <-Hones, Hz, Z.bits_0 in Hb by lia. done. }
    split; [done|]. split; [lia|]. rewrite Z.shiftr_spec by lia.
    replace (k - w + w) with k by lia. split; [done|]. intros j Hj.
    rewrite Z.shiftr_spec by lia. apply Hlo. lia.
  - destruct (decide (k < w)); [done|]. exfalso. apply Hz. apply Z.bits_inj'. intros j Hj.
    rewrite Z.bits_0. destruct (decide (j < w)); [rewrite Hones by lia; apply Hlo; lia|].
    replace (2 ^ w - 1) with (Z.ones w) by (rewrite Z.ones_equiv; lia).
    by rewrite Z.land_spec, Z.ones_spec_high, andb_false_r by lia.
Qed.

Lemma lsb_next m k n w m' n' :
  0 ≤ w → is_lsb m k → k < 2 * w →
  (if decide (Z.land m (2 ^ w - 1) = 0) then (Z.shiftr m w, n + w) else (m, n)) = (m', n') →
  ∃ k', is_lsb m' k' ∧ k' < w ∧ n' + k' = n + k.
Proof.
  intros Hw Hm Hk E. pose proof (lsb_stage m k w Hw Hm) as Hs. case_decide; simplify_eq.
  - destruct Hs as [? Hs]. exists (k - w). split; [done|]. lia.
  - exists k. split; [done|]. lia.
Qed.

(** The binary search finds the lowest set bit. *)
Lemma lowest_set_bit_lsb m k : is_lsb m k → k < 64 → lowest_set_bit m = k.
Proof.
  intros Hm Hk. unfold lowest_set_bit.
  destruct (if decide (Z.land m 0xFFFFFFFF = 0) then _ else _) as [m1 n1] eqn:E1.
  destruct (lsb_next m k 0 32 m1 n1) as (k1 & H1 & Hk1 & Hn1); [done..|]. clear E1.
  destruct (if decide (Z.land m1 0xFFFF = 0) then _ else _) as [m2 n2] eqn:E2.
  destruct (lsb_next m1 k1 n1 16 m2 n2) as (k2 & H2 & Hk2 & Hn2); [done..|]. clear E2.
  destruct (if decide (Z.land m2 0xFF = 0) then _ else _) as [m3 n3] eqn:E3.
  destruct (lsb_next m2 k2 n2 8 m3 n3) as (k3 & H3 & Hk3 & Hn3); [done..|]. clear E3.
  destruct (if decide (Z.land m3 0xF = 0) then _ else _) as [m4 n4] eqn:E4.
  destruct (lsb_next m3 k3 n3 4 m4 n4) as (k4 & H4 & Hk4 & Hn4); [done..|]. clear E4.
  destruct (if decide (Z.land m4 0x3 = 0) then _ else _) as [m5 n5] eqn:E5.
  destruct (lsb_next m4 k4 n4 2 m5 n5) as (k5 & H5 & Hk5 & Hn5); [done..|]. clear E5.
  pose proof (lsb_stage m5 k5 1 ltac:(lia) H5) as Hs. change (2 ^ 1 - 1) with 1 in Hs.
  destruct H5 as (? & _). case_decide; lia.
Qed.

(** [x & (x - 1)] clears the lowest set bit. *)
Lemma clear_lowest m k i :
  is_lsb m k → 0 ≤ i → Z.testbit (Z.land m (m - 1)) i = Z.testbit m i && negb (bool_decide (i = k)).
Proof.
  intros (Hk & Hb & Hlo) Hi. set (q := m / 2 ^ (k + 1)).
  assert (Hm : m = 2 ^ (k + 1) * q + 2 ^ k).
  { unfold q. rewrite (Z.div_mod m (2 ^ (k + 1))) at 1 by (apply Z.pow_nonzero; lia). f_equal.
    apply Z.bits_inj'. intros j Hj. rewrite Z.pow2_bits_eqb by lia.
    destruct (decide (j < k + 1)).
    - rewrite Z.mod_pow2_bits_low by lia. destruct (Z.eqb_spec k j) as [->|]; [done|]. apply Hlo. lia.
    - rewrite Z.mod_pow2_bits_high by lia. symmetry. apply Z.eqb_neq. lia. }
  assert (Hp : 0 < 2 ^ k) by (apply Z.pow_pos_nonneg; lia).
  assert (Hp1 : 2 ^ (k + 1) = 2 * 2 ^ k) by (rewrite Z.pow_add_r; lia).
  rewrite Z.land_spec. destruct (decide (i < k + 1)) as [Hlt|Hge].
  - assert (Hm1 : Z.testbit (m - 1) i = Z.testbit (Z.ones k) i).
    { rewrite <-(Z.mod_pow2_bits_low (m - 1) (k + 1)) by lia. f_equal.
      rewrite Hm, Z.ones_equiv. symmetry. apply Z.mod_unique with q; lia. }
    rewrite Hm1. destruct (decide (i = k)) as [->|].
    + rewrite Z.ones_spec_high, bool_decide_eq_true_2 by (done || lia). simpl. by rewrite !andb_false_r.
    + rewrite Z.ones_spec_low, bool_decide_eq_false_2 by (done || lia). done.
  - rewrite bool_decide_eq_false_2 by lia. rewrite andb_true_r.
    enough (Z.testbit (m - 1) i = Z.testbit m i) as -> by apply andb_diag.
    replace i with (i - (k + 1) + (k + 1)) by lia. rewrite <-!Z.div_pow2_bits by lia. f_equal.
    fold q. symmetry. apply Z.div_unique with (2 ^ k - 1); lia.
Qed.

Section signal.
Context {U : Type} `{UserObj U sigframe, UserObj U sigaction, UserObj U Z}.
(** sizeof(struct sigframe) of the architecture. *)
Context (SIGFRAME_SIZE : Z).
Abbreviation st := (sigproc U).

Definition set_hand (h : sighand) (s : st) : st := mk_sigproc h (sp_tf s) (sp_lock s) (sp_user s).
Definition set_tf (t : trapframe) (s : st) : st := mk_sigproc (sp_hand s) t (sp_lock s) (sp_user s).
Definition set_sp_lock (b : bool) (s : st) : st := mk_sigproc (sp_hand s) (sp_tf s) b (sp_user s).
Definition set_sp_user (u : U) (s : st) : st := mk_sigproc (sp_hand s) (sp_tf s) (sp_lock s) u.
Definition set_pending (m : Z) (s : st) : st :=
  set_hand (mk_sighand m (sig_blocked (sp_hand s)) (actions (sp_hand s))) s.
Definition set_blocked (m : Z) (s : st) : st :=
  set_hand (mk_sighand (sig_pending (sp_hand s)) m (actions (sp_hand s))) s.
Definition set_actions (l : list sigaction) (s : st) : st :=
  set_hand (mk_sighand (sig_pending (sp_hand s)) (sig_blocked (sp_hand s)) l) s.

Definition acquire_proc : K st unit := acquire sp_lock set_sp_lock.
Definition release_proc : K st unit := release sp_lock set_sp_lock.

(** [actions[sig]]: outside the table is undefined. *)
Definition get_action (sig : Z) : K st sigaction := λ s,
  if decide (0 ≤ sig) then
    match actions (sp_hand s) !! Z.to_nat sig with Some a => Ret (a, s) | None => Fault end
  else Fault.

Definition signal_reset_on_exec : K st unit :=
  acquire_proc ;;
  modify (set_pending 0) ;;
  forM (seqZ 1 (NSIG - 1)) (λ i,
    a ← get_action i;
    if decide (handler a ≠ SIG_IGN)
    then modify (λ s, set_actions (<[Z.to_nat i := mk_sigaction SIG_DFL 0 0 0]> (actions (sp_hand s))) s)
    else mret tt) ;;
  release_proc.

Definition signal_pending (s : st) : bool :=
  bool_decide (Z.land (sig_pending (sp_hand s)) (not64 (sig_blocked (sp_hand s))) ≠ 0).

(** Setting the pending bit; the wake-up of the target is in Proc. *)
Definition signal_post (sig : Z) (s : st) : st :=
  set_pending (Z.lor (sig_pending (sp_hand s)) (SIGMASK sig)) s.

Definition clear_pending (sig : Z) : K st unit :=
  modify (λ s, set_pending (Z.land (sig_pending (sp_hand s)) (not64 (SIGMASK sig))) s).

(** Saving the context on the user stack; [false] when copyout fails. *)
Definition push_frame (sig : Z) (a : sigaction) : K st bool :=
  s ← gets id;
  let old_sp := tf_sp (sp_tf s) in
  let frame_sp := Z.land (u64 (old_sp - SIGFRAME_SIZE)) (not64 0xF) in
  let '(u, ok) := uput frame_sp (mk_sigframe (sp_tf s) (sig_blocked (sp_hand s))) (sp_user s) in
  modify (set_sp_user u) ;;
  if negb ok then release_proc ;; mret false else
  clear_pending sig ;;
  modify (λ s, set_tf (mk_trapframe frame_sp (handler a) sig (restorer a) (tf_rest (sp_tf s))) s) ;;
  modify (λ s, set_blocked (Z.lor (sig_blocked (sp_hand s)) (Z.lor (sa_mask a) (SIGMASK sig))) s) ;;
  mret true.

(** [while (ready)]: each round clears one of 64 bits. *)
Fixpoint deliver (fuel : nat) (ready : Z) : K st sig_end :=
  match fuel with
  | O => λ _, NoFuel
  | S f =>
      if decide (ready = 0) then release_proc ;; mret Returned else
      let sig := lowest_set_bit ready + 1 in
      let ready := Z.land ready (u64 (ready - 1)) in
      a ← get_action sig;
      if decide (handler a = SIG_IGN) then clear_pending sig ;; deliver f ready
      else if decide (handler a = SIG_DFL) then
        clear_pending sig ;; release_proc ;; mret (Exits (128 + sig))
      else if decide (restorer a = 0) then release_proc ;; mret Returned
      else
        ok ← push_frame sig a;
        if ok : bool then deliver f ready else mret Returned
  end.

Definition check_signal : K st sig_end :=
  acquire_proc ;;
  s ← gets id;
  let forced := Z.land (sig_pending (sp_hand s)) (Z.lor (SIGMASK SIGKILL) (SIGMASK SIGSTOP)) in
  if decide (forced ≠ 0) then
    if has forced (SIGMASK SIGKILL)
    then release_proc ;; mret (Exits (128 + SIGKILL))
    else release_proc ;; mret (Exits (128 + SIGSTOP))
  else
    let ready := Z.land (sig_pending (sp_hand s)) (not64 (sig_blocked (sp_hand s))) in
    deliver 65 ready.

(** ** System calls *)

(** [mem]: whether kmalloc had memory for the kernel copy of the action. *)
Definition sys_rt_sigaction (mem : bool) (sig act_addr old_act_addr sigsetsize : Z) : K st Z :=
  if decide (sig < 1 ∨ NSIG ≤ sig) then mret (- EINVAL) else
  if decide (sigsetsize ≠ NSIG / 8) then mret (- EINVAL) else
  if decide (sig = SIGKILL ∨ sig = SIGSTOP) then mret (- EINVAL) else
  if negb mem then mret (- ENOMEM) else
  u ← gets sp_user;
  match (if decide (act_addr ≠ 0) then Some <$> uget u act_addr else Some None) with
  | None => mret (- EFAULT)
  | Some act =>
      acquire_proc ;;
      old ← get_action sig;
      ok ← (if decide (old_act_addr ≠ 0) then
              let '(u', ok) := uput old_act_addr old u in
              modify (set_sp_user u') ;; mret ok
            else mret true);
      if negb ok then release_proc ;; mret (- EFAULT) else
      (match act with
       | Some a => modify (λ s, set_actions (<[Z.to_nat sig := a]> (actions (sp_hand s))) s)
       | None => mret tt
       end) ;;
      release_proc ;;
      mret 0
  end.

Definition sys_rt_sigprocmask (how set_addr old_set_addr sigsetsize : Z) : K st Z :=
  if decide (sigsetsize ≠ NSIG / 8) then mret (- EINVAL) else
  if decide (set_addr ≠ 0 ∧ (how < SIG_BLOCK ∨ SIG_SETMASK < how)) then mret (- EINVAL) else
  s ← gets id;
  let old := sig_blocked (sp_hand s) in
  r ← (if decide (set_addr ≠ 0) then
         match uget (sp_user s) set_addr with
         | None => mret (- EFAULT)
         | Some new_set =>
             let new_set := Z.land new_set (not64 (Z.lor (SIGMASK SIGKILL) (SIGMASK SIGSTOP))) in
             acquire_proc ;;
             (if decide (how = SIG_BLOCK) then
                modify (λ s, set_blocked (Z.lor (sig_blocked (sp_hand s)) new_set) s) ;; release_proc ;; mret 0
              else if decide (how = SIG_UNBLOCK) then
                modify (λ s, set_blocked (Z.land (sig_blocked (sp_hand s)) (not64 new_set)) s) ;; release_proc ;; mret 0
              else if decide (how = SIG_SETMASK) then
                modify (set_blocked new_set) ;; release_proc ;; mret 0
              else release_proc ;; mret (- EINVAL))
         end
       else mret 0);
  if decide (r < 0) then mret r else
  if decide (old_set_addr ≠ 0) then
    u ← gets sp_user;
    let '(u', ok) := uput old_set_addr old u in
    modify (set_sp_user u') ;;
    mret (if ok : bool then 0 else - EFAULT)
  else mret 0.

Definition sys_rt_sigreturn : K st Z :=
  s ← gets id;
  match uget (sp_user s) (tf_sp (sp_tf s)) with
  | None => mret (- EFAULT)
  | Some frame =>
      if decide (tf_epc (saved_tf frame) = 0 ∨ tf_sp (saved_tf frame) = 0) then mret (- EINVAL) else
      acquire_proc ;;
      modify (set_tf (saved_tf frame)) ;;
      modify (set_blocked (saved_mask frame)) ;;
      release_proc ;;
      mret 0
  end.

Definition sys_rt_sigpending (set_addr : Z) : K st Z :=
  if decide (set_addr = 0) then mret (- EFAULT) else
  acquire_proc ;;
  pending ← gets (λ s, sig_pending (sp_hand s));
  release_proc ;;
  u ← gets sp_user;
  let '(u', ok) := uput set_addr pending u in
  modify (set_sp_user u') ;;
  mret (if ok : bool then 0 else - EFAULT).

(** ** Invariant *)

Record sig_wf (s : st) : Prop := {
  sw_len : length (actions (sp_hand s)) = Z.to_nat NSIG;
  sw_pending : 0 ≤ sig_pending (sp_hand s) < 2 ^ 63;
  sw_blocked : 0 ≤ sig_blocked (sp_hand s) < 2 ^ 64;
  sw_masks : Forall (λ a, 0 ≤ sa_mask a < 2 ^ 64) (actions (sp_hand s))
}.

Lemma SIGMASK_pow2 sig : 1 ≤ sig → SIGMASK sig = 2 ^ (sig - 1).
Proof. intros Hs. unfold SIGMASK. rewrite Z.shiftl_mul_pow2 by lia. lia. Qed.

Lemma SIGMASK_range sig : 1 ≤ sig ≤ 64 → 0 ≤ SIGMASK sig < 2 ^ 64.
Proof.
  intros Hs. rewrite SIGMASK_pow2 by lia. split; [apply Z.pow_nonneg; lia|].
  apply Z.pow_lt_mono_r; lia.
Qed.

Lemma SIGMASK_bit sig i : 1 ≤ sig → 0 ≤ i → Z.testbit (SIGMASK sig) i = bool_decide (i = sig - 1).
Proof.
  intros Hs Hi. rewrite SIGMASK_pow2, Z.pow2_bits_eqb by lia.
  destruct (Z.eqb_spec (sig - 1) i); [rewrite bool_decide_eq_true_2|rewrite bool_decide_eq_false_2]; done || lia.
Qed.

(** Clearing the bit of one signal. *)
Lemma clear_bit p sig i :
  0 ≤ p < 2 ^ 63 → 1 ≤ sig ≤ 64 → 0 ≤ i →
  Z.testbit (Z.land p (not64 (SIGMASK sig))) i = Z.testbit p i && negb (bool_decide (i = sig - 1)).
Proof.
  intros Hp Hs Hi. rewrite Z.land_spec, not64_spec, SIGMASK_bit by (done || lia || by apply SIGMASK_range).
  destruct (decide (i < 64)); [by rewrite (bool_decide_eq_true_2 (i < 64))|].
  rewrite (testbit_high p 63) by lia. done.
Qed.

Lemma clear_range p sig : 0 ≤ p < 2 ^ 63 → 1 ≤ sig ≤ 64 → 0 ≤ Z.land p (not64 (SIGMASK sig)) < 2 ^ 63.
Proof.
  intros Hp Hs. apply land_range; [lia|done|]. apply not64_range. by apply SIGMASK_range.
Qed.

(** [m'] has no bit that [m] lacks. *)
Definition bits_sub (m' m : Z) : Prop := ∀ i, 0 ≤ i → Z.testbit m' i = true → Z.testbit m i = true.

(** What delivery of the signals [ready] may change. *)
Record deliver_post (ready : Z) (s s' : st) : Prop := {
  dp_wf : sig_wf s';
  dp_lock : sp_lock s' = false;
  dp_actions : actions (sp_hand s') = actions (sp_hand s);
  dp_keep i : 0 ≤ i → Z.testbit ready i = false →
    Z.testbit (sig_pending (sp_hand s')) i = Z.testbit (sig_pending (sp_hand s)) i;
  dp_pending : bits_sub (sig_pending (sp_hand s')) (sig_pending (sp_hand s));
  dp_blocked : bits_sub (sig_blocked (sp_hand s)) (sig_blocked (sp_hand s'))
}.

(** States that differ in the lock, the trap frame and user memory only. *)
Definition same_hand (s s' : st) : Prop := sp_hand s' = sp_hand s.

Lemma deliver_post_here ready s s' :
  sig_wf s → same_hand s s' → sp_lock s' = false → deliver_post ready s s'.
Proof.
  intros [? ? ? ?] Hh Hl. unfold same_hand in Hh. split; rewrite ?Hh; try done.
  - by split; rewrite Hh.
  - by intros i _.
  - by intros i _.
Qed.

(** Prefixing a step that clears [sig] and may extend the blocked mask. *)
Lemma deliver_post_step ready sig s s1 s' :
  sig_wf s → 1 ≤ sig ≤ 63 → Z.testbit ready (sig - 1) = true →
  actions (sp_hand s1) = actions (sp_hand s) →
  sig_pending (sp_hand s1) = Z.land (sig_pending (sp_hand s)) (not64 (SIGMASK sig)) →
  bits_sub (sig_blocked (sp_hand s)) (sig_blocked (sp_hand s1)) →
  ∀ ready', bits_sub ready' ready → deliver_post ready' s1 s' → deliver_post ready s s'.
Proof.
  intros Hw Hs Hr Ha Hp Hb ready' Hsub [D1 D2 D3 D4 D5 D6].
  assert (Hbit : ∀ i, 0 ≤ i → Z.testbit (sig_pending (sp_hand s1)) i =
    Z.testbit (sig_pending (sp_hand s)) i && negb (bool_decide (i = sig - 1))).
  { intros i Hi. rewrite Hp. apply clear_bit; [apply Hw|lia|done]. }
  split; try done.
  - congruence.
  - intros i Hi Hf. rewrite D4, Hbit by (done || (destruct (Z.testbit ready' i) eqn:E; [by rewrite (Hsub i Hi E) in Hf|done])).
    rewrite bool_decide_eq_false_2 by (intros ->; congruence). by rewrite andb_true_r.
  - intros i Hi Hx. apply D5 in Hx; [|done]. rewrite Hbit in Hx by done. by apply andb_true_iff in Hx as [? _].
  - intros i Hi Hx. apply D6; [done|]. by apply Hb.
Qed.

Lemma get_action_run sig s :
  sig_wf s → 0 ≤ sig < 64 → ∃ a, actions (sp_hand s) !! Z.to_nat sig = Some a ∧ get_action sig s = Ret (a, s) ∧
    0 ≤ sa_mask a < 2 ^ 64.
Proof.
  intros Hw Hs. destruct (lookup_lt_is_Some_2 (actions (sp_hand s)) (Z.to_nat sig)) as [a Ha].
  { rewrite (sw_len _ Hw). unfold NSIG. lia. }
  exists a. split; [done|]. unfold get_action. rewrite decide_True, Ha by lia. split; [done|].
  by apply (Forall_lookup_1 _ _ _ _ (sw_masks _ Hw) Ha).
Qed.

Lemma wf_clear sig s s1 :
  sig_wf s → 1 ≤ sig ≤ 63 → actions (sp_hand s1) = actions (sp_hand s) →
  sig_pending (sp_hand s1) = Z.land (sig_pending (sp_hand s)) (not64 (SIGMASK sig)) →
  0 ≤ sig_blocked (sp_hand s1) < 2 ^ 64 → sig_wf s1.
Proof.
  intros Hw Hs Ha Hp Hb. split; rewrite ?Ha; [apply Hw| |done|apply Hw].
  rewrite Hp. apply clear_range; [apply Hw|lia].
Qed.

Lemma deliver_run fuel lo ready s :
  sig_wf s → sp_lock s = true → 0 ≤ ready < 2 ^ 63 → 0 ≤ lo →
  (∀ j, 0 ≤ j < lo → Z.testbit ready j = false) → 63 - lo < Z.of_nat fuel → (0 < fuel)%nat →
  ∃ e s', deliver fuel ready s = Ret (e, s') ∧ deliver_post ready s s'.
Proof.
  revert lo ready s. induction fuel as [|f IH]; intros lo ready s Hw Hl Hr Hlo Hlow Hf Hf0; [lia|].
  simpl. destruct (decide (ready = 0)) as [->|Hne].
  { unfold release_proc, release. kunfold. rewrite Hl. eexists _, _. split; [done|].
    by apply deliver_post_here. }
  destruct (is_lsb_exists ready) as (k & Hk & Hk64); [lia|].
  rewrite (lowest_set_bit_lsb ready k Hk Hk64). pose proof Hk as (Hk0 & Hkb & _).
  assert (Hk63 : k < 63).
  { destruct (decide (k < 63)); [done|]. rewrite (testbit_high ready 63) in Hkb by lia. done. }
  assert (Hlk : lo ≤ k).
  { destruct (decide (lo ≤ k)); [done|]. rewrite Hlow in Hkb by lia. done. }
  rewrite (u64_small (ready - 1)) by lia.
  set (ready' := Z.land ready (ready - 1)).
  assert (Hrb : ∀ i, 0 ≤ i → Z.testbit ready' i = Z.testbit ready i && negb (bool_decide (i = k)))
    by (intros; by apply clear_lowest).
  assert (Hsub : bits_sub ready' ready).
  { intros i Hi Hb. rewrite Hrb in Hb by done. by apply andb_true_iff in Hb as [? _]. }
  assert (Hr' : 0 ≤ ready' < 2 ^ 63) by (apply land_range; lia).
  assert (Hlow' : ∀ j, 0 ≤ j < k + 1 → Z.testbit ready' j = false).
  { intros j Hj. rewrite Hrb by lia. destruct (decide (j = k)) as [->|].
    - rewrite bool_decide_eq_true_2 by done. apply andb_false_r.
    - destruct Hk as (_ & _ & Hkl). rewrite Hkl by lia. done. }
  destruct (get_action_run (k + 1) s Hw) as (a & Ha & Hget & Hmask); [lia|].
  rewrite (bind_Ret _ _ _ _ _ Hget).
  assert (Hbit : Z.testbit ready (k + 1 - 1) = true) by (by replace (k + 1 - 1) with k by lia).
  set (s1 := set_pending (Z.land (sig_pending (sp_hand s)) (not64 (SIGMASK (k + 1)))) s).
  destruct (decide (handler a = SIG_IGN)) as [Hign|Hign].
  { rewrite (bind_Ret _ _ _ tt s1) by done.
    destruct (IH (k + 1) ready' s1) as (e & s' & -> & Hpost); try done; [|lia..|].
    - apply (wf_clear (k + 1) s); [done|lia|done|done|apply Hw].
    - exists e, s'. split; [done|].
      by apply (deliver_post_step ready (k + 1) s s1 s' Hw ltac:(lia) Hbit eq_refl eq_refl ltac:(by intros ?) ready'). }
  destruct (decide (handler a = SIG_DFL)) as [Hdfl|Hdfl].
  { rewrite (bind_Ret _ _ _ tt s1) by done. unfold release_proc, release. kunfold. rewrite Hl.
    eexists _, _. split; [done|].
    apply (deliver_post_step ready (k + 1) s s1 _ Hw ltac:(lia) Hbit eq_refl eq_refl ltac:(by intros ?) ready'); [done|].
    apply deliver_post_here; [|done|done]. apply (wf_clear (k + 1) s); [done|lia|done|done|apply Hw]. }
  destruct (decide (restorer a = 0)) as [Hres|Hres].
  { unfold release_proc, release. kunfold. rewrite Hl. eexists _, _. split; [done|]. by apply deliver_post_here. }
  unfold push_frame. rewrite bind_assoc, (bind_Ret _ _ _ s s) by done.
  destruct (uput _ _ _) as [u []] eqn:Eu.
  2: { unfold release_proc, release. kunfold. rewrite Hl. eexists _, _. split; [done|]. by apply deliver_post_here. }
  unfold clear_pending. kunfold. set (s2 := set_blocked _ _).
  assert (Hb2 : 0 ≤ sig_blocked (sp_hand s2) < 2 ^ 64).
  { simpl. apply lor_range; [lia|apply Hw|]. apply lor_range; [lia|done|]. apply SIGMASK_range. lia. }
  destruct (IH (k + 1) ready' s2) as (e & s' & -> & Hpost); try done; [|lia..|].
  - by apply (wf_clear (k + 1) s); [done|lia|..].
  - exists e, s'. split; [done|].
    apply (deliver_post_step ready (k + 1) s s2 s' Hw ltac:(lia) Hbit eq_refl eq_refl) with ready'; [|done..].
    intros i Hi Hbi. simpl. by rewrite Z.lor_spec, Hbi.
Qed.

Lemma deliver_zero f s :
  sp_lock s = true → deliver (S f) 0 s = Ret (Returned, set_sp_lock false s).
Proof. intros Hl. simpl. unfold release_proc, release. kunfold. by rewrite Hl. Qed.

(** A round that meets a caught signal. *)
Lemma deliver_caught f ready sig a s :
  ready ≠ 0 → lowest_set_bit ready + 1 = sig → 0 ≤ sig →
  actions (sp_hand s) !! Z.to_nat sig = Some a →
  handler a ≠ SIG_IGN → handler a ≠ SIG_DFL → restorer a ≠ 0 →
  deliver (S f) ready s =
  (ok ← push_frame sig a; if ok : bool then deliver f (Z.land ready (u64 (ready - 1))) else mret Returned) s.
Proof.
  intros Hr Hsig Hs0 Ha Hh1 Hh2 Hh3. simpl. rewrite decide_False, Hsig by done.
  rewrite (bind_Ret (get_action sig) _ _ a s).
  - by rewrite decide_False, decide_False, decide_False by done.
  - unfold get_action. by rewrite decide_True, Ha.
Qed.

Arguments deliver : simpl never.

Lemma forced_none p :
  0 ≤ p → Z.testbit p 8 = false → Z.testbit p 18 = false →
  Z.land p (Z.lor (SIGMASK SIGKILL) (SIGMASK SIGSTOP)) = 0.
Proof.
  intros Hp H8 H18. apply Z.bits_inj'. intros i Hi. unfold SIGKILL, SIGSTOP.
  rewrite Z.bits_0, Z.land_spec, Z.lor_spec, !SIGMASK_bit by lia. simpl.
  destruct (decide (i = 8)) as [->|]; [by rewrite H8|].
  destruct (decide (i = 18)) as [->|]; [by rewrite H18|].
  rewrite !bool_decide_eq_false_2 by lia. by rewrite andb_false_r.
Qed.

Lemma forced_bit p k :
  k = 8 ∨ k = 18 → Z.testbit (Z.land p (Z.lor (SIGMASK SIGKILL) (SIGMASK SIGSTOP))) k = Z.testbit p k.
Proof.
  intros Hk. rewrite Z.land_spec, Z.lor_spec, !SIGMASK_bit by (unfold SIGKILL, SIGSTOP; lia).
  unfold SIGKILL, SIGSTOP. destruct Hk as [-> | ->]; apply andb_true_r.
Qed.

Lemma check_signal_forced s k :
  sp_lock s = false →
  (Z.testbit (sig_pending (sp_hand s)) 8 = true ∧ k = SIGKILL) ∨
  (Z.testbit (sig_pending (sp_hand s)) 8 = false ∧ Z.testbit (sig_pending (sp_hand s)) 18 = true ∧ k = SIGSTOP) →
  check_signal s = Ret (Exits (128 + k), s).
Proof.
  intros Hl Hk. unfold check_signal, acquire_proc, release_proc, acquire, release. kunfold. rewrite Hl. simpl.
  set (forced := Z.land _ _).
  pose proof (forced_bit (sig_pending (sp_hand s)) 8 ltac:(lia)) as H8. fold forced in H8.
  pose proof (forced_bit (sig_pending (sp_hand s)) 18 ltac:(lia)) as H18. fold forced in H18.
  assert (Hs : set_sp_lock false (set_sp_lock true s) = s) by (destruct s; simpl in *; by subst).
  rewrite decide_True.
  2: { intros Hz. rewrite Hz, Z.bits_0 in H8, H18. destruct Hk as [[? _]|(_ & ? & _)]; congruence. }
  change (SIGMASK SIGKILL) with (2 ^ 8). rewrite has_pow2, H8 by lia.
  destruct Hk as [[Hb ->]|(Hb & _ & ->)]; rewrite Hb; by rewrite Hs.
Qed.

Lemma check_signal_deliver s :
  sig_wf s → sp_lock s = false → Z.testbit (sig_pending (sp_hand s)) 8 = false →
  Z.testbit (sig_pending (sp_hand s)) 18 = false →
  check_signal s = deliver 65 (Z.land (sig_pending (sp_hand s)) (not64 (sig_blocked (sp_hand s)))) (set_sp_lock true s).
Proof.
  intros Hw Hl H8 H18. unfold check_signal, acquire_proc, acquire. kunfold. rewrite Hl. simpl.
  rewrite (forced_none _ ltac:(apply Hw) H8 H18). rewrite decide_False by (by intros []). done.
Qed.

Lemma ready_range s : sig_wf s →
  0 ≤ Z.land (sig_pending (sp_hand s)) (not64 (sig_blocked (sp_hand s))) < 2 ^ 63.
Proof. intros Hw. apply land_range; [lia|apply Hw|]. apply not64_range, Hw. Qed.

Lemma sig_wf_lock b s : sig_wf s → sig_wf (set_sp_lock b s).
Proof. by intros []; split. Qed.

(** * Theorems *)

(** A pending SIGKILL ends the process with status 137 whatever is
    blocked or ignored. *)
Theorem check_signal_kill s :
  sp_lock s = false → Z.testbit (sig_pending (sp_hand s)) (SIGKILL - 1) = true →
  check_signal s = Ret (Exits 137, s).
Proof. intros Hl Hk. apply (check_signal_forced s SIGKILL Hl). by left. Qed.

(** check_signal always ends with the lock free, never raises a signal,
    never touches handlers, and leaves every blocked signal pending. *)
Theorem check_signal_spec s :
  sig_wf s → sp_lock s = false →
  ∃ e s', check_signal s = Ret (e, s') ∧ sig_wf s' ∧ sp_lock s' = false ∧
    actions (sp_hand s') = actions (sp_hand s) ∧
    bits_sub (sig_pending (sp_hand s')) (sig_pending (sp_hand s)) ∧
    (∀ sig, 1 ≤ sig → Z.testbit (sig_blocked (sp_hand s)) (sig - 1) = true →
       Z.testbit (sig_pending (sp_hand s')) (sig - 1) = Z.testbit (sig_pending (sp_hand s)) (sig - 1)).
Proof.
  intros Hw Hl.
  destruct (Z.testbit (sig_pending (sp_hand s)) 8) eqn:E8;
    [|destruct (Z.testbit (sig_pending (sp_hand s)) 18) eqn:E18].
  - rewrite (check_signal_forced s SIGKILL) by (done || by left).
    eexists _, s. split_and!; try done. by intros i _.
  - rewrite (check_signal_forced s SIGSTOP) by (done || by right).
    eexists _, s. split_and!; try done. by intros i _.
  - rewrite check_signal_deliver by done.
    destruct (deliver_run 65 0 (Z.land (sig_pending (sp_hand s)) (not64 (sig_blocked (sp_hand s))))
      (set_sp_lock true s)) as (e & s' & -> & [D1 D2 D3 D4 D5 D6]);
      [by apply sig_wf_lock|done|by apply ready_range|lia..|].
    exists e, s'. split_and!; try done. intros sig Hs Hb. apply D4; [lia|].
    rewrite Z.land_spec, not64_spec, Hb by (lia || apply Hw). by rewrite !andb_false_r.
Qed.

(** C27: A handler is entered with the signal number, its restorer and the
    frame saved on the user stack; when the frame is still there rt_sigreturn
    restores the registers and the blocked mask exactly as they were before
    delivery. *)
Theorem signal_roundtrip s sig a u :
  sig_wf s → sp_lock s = false → 1 ≤ sig < 64 → sig ≠ SIGKILL → sig ≠ SIGSTOP →
  Z.testbit (sig_pending (sp_hand s)) 8 = false → Z.testbit (sig_pending (sp_hand s)) 18 = false →
  Z.land (sig_pending (sp_hand s)) (not64 (sig_blocked (sp_hand s))) = SIGMASK sig →
  actions (sp_hand s) !! Z.to_nat sig = Some a →
  handler a ≠ SIG_IGN → handler a ≠ SIG_DFL → restorer a ≠ 0 →
  tf_epc (sp_tf s) ≠ 0 → tf_sp (sp_tf s) ≠ 0 →
  let sp := Z.land (u64 (tf_sp (sp_tf s) - SIGFRAME_SIZE)) (not64 0xF) in
  uput sp (mk_sigframe (sp_tf s) (sig_blocked (sp_hand s))) (sp_user s) = (u, true) →
  ∃ s1, check_signal s = Ret (Returned, s1) ∧ sp_lock s1 = false ∧
    sp_tf s1 = mk_trapframe sp (handler a) sig (restorer a) (tf_rest (sp_tf s)) ∧
    Z.testbit (sig_pending (sp_hand s1)) (sig - 1) = false ∧
    sig_blocked (sp_hand s1) = Z.lor (sig_blocked (sp_hand s)) (Z.lor (sa_mask a) (SIGMASK sig)) ∧
    ∀ s2, sp_lock s2 = false → tf_sp (sp_tf s2) = sp →
      uget (A := sigframe) (sp_user s2) sp = uget (sp_user s1) sp →
      ∃ s3, sys_rt_sigreturn s2 = Ret (0, s3) ∧ sp_tf s3 = sp_tf s ∧
            sig_blocked (sp_hand s3) = sig_blocked (sp_hand s).
Proof.
  intros Hw Hl Hs Hk1 Hk2 H8 H18 Hready Ha Hi Hd Hr He Hsp sp Hput.
  rewrite check_signal_deliver by done. rewrite Hready.
  assert (Hlsb : is_lsb (SIGMASK sig) (sig - 1)).
  { split; [lia|]. rewrite SIGMASK_bit, bool_decide_eq_true_2 by lia. split; [done|].
    intros j Hj. rewrite SIGMASK_bit, bool_decide_eq_false_2 by lia. done. }
  assert (Hpos : 0 < SIGMASK sig < 2 ^ 64).
  { pose proof (SIGMASK_range sig ltac:(lia)). rewrite SIGMASK_pow2 in * by lia.
    pose proof (Z.pow_pos_nonneg 2 (sig - 1)). lia. }
  assert (Hz : Z.land (SIGMASK sig) (SIGMASK sig - 1) = 0).
  { apply Z.bits_inj'. intros i Hi0. rewrite (clear_lowest _ _ _ Hlsb Hi0), SIGMASK_bit, Z.bits_0 by lia.
    by destruct (bool_decide (i = sig - 1)). }
  rewrite (deliver_caught 64 (SIGMASK sig) sig a) by
    (done || lia || (rewrite (lowest_set_bit_lsb _ _ Hlsb); lia)).
  rewrite (u64_small (SIGMASK sig - 1)), Hz by lia.
  unfold push_frame, clear_pending. kunfold. fold sp. rewrite Hput. kunfold.
  rewrite deliver_zero by done. eexists. split; [done|]. simpl. split; [done|]. split; [done|]. split.
  - rewrite clear_bit by (apply Hw || lia). rewrite bool_decide_eq_true_2 by done. apply andb_false_r.
  - split; [done|]. intros s2 Hl2 Hsp2 Hu2. rewrite (uget_uput _ _ _ _ Hput) in Hu2.
    unfold sys_rt_sigreturn, acquire_proc, release_proc, acquire, release. kunfold.
    rewrite Hsp2, Hu2. simpl. rewrite decide_False by tauto. rewrite Hl2. simpl.
    eexists. split; [done|]. done.
Qed.

(** rt_sigprocmask never adds SIGKILL or SIGSTOP to the blocked mask. *)
Theorem sigprocmask_never_blocks_kill s how set_addr old_addr size k :
  sp_lock s = false → k = SIGKILL ∨ k = SIGSTOP →
  (∀ m, uget (sp_user s) set_addr = Some m → 0 ≤ m < 2 ^ 64) → 0 ≤ sig_blocked (sp_hand s) < 2 ^ 64 →
  ∃ r s', sys_rt_sigprocmask how set_addr old_addr size s = Ret (r, s') ∧ sp_lock s' = false ∧
    (Z.testbit (sig_blocked (sp_hand s')) (k - 1) = true →
     Z.testbit (sig_blocked (sp_hand s)) (k - 1) = true).
Proof.
  intros Hl Hk Hm Hbl. unfold sys_rt_sigprocmask, acquire_proc, release_proc, acquire, release.
  case_decide; [eexists _, _; by split_and!|]. case_decide as Hset; [eexists _, _; by split_and!|].
  set (forced := Z.lor (SIGMASK SIGKILL) (SIGMASK SIGSTOP)).
  assert (Hf : 0 ≤ forced < 2 ^ 64) by (by vm_compute).
  assert (Hkf : ∀ m, Z.testbit (Z.land m (not64 forced)) (k - 1) = false).
  { intros m. rewrite Z.land_spec, not64_spec by (done || (unfold SIGKILL, SIGSTOP in Hk; lia)).
    destruct Hk as [-> | ->]; apply andb_false_r. }
  assert (Hk0 : 0 ≤ k - 1) by (unfold SIGKILL, SIGSTOP in Hk; lia).
  kunfold. destruct (decide (set_addr ≠ 0)) as [Hsa|Hsa].
  - destruct (uget (sp_user s) set_addr) as [m|] eqn:Em; simpl.
    2: { eexists _, _. by split_and!. }
    fold forced. rewrite Hl. simpl.
    destruct (decide (how = SIG_BLOCK)); [|destruct (decide (how = SIG_UNBLOCK));
      [|destruct (decide (how = SIG_SETMASK))]]; simpl; repeat case_match; simplify_eq/=;
      (eexists _, _; split; [done|]; split; [done|]; simpl).
    all: rewrite ?Z.lor_spec, ?Hkf, ?orb_false_r; try done.
    all: rewrite Z.land_spec; intros ?; by destruct (Z.testbit (sig_blocked (sp_hand s)) (k - 1)).
  - simpl. repeat case_match; simplify_eq/=; (eexists _, _; split; [done|]; split; done).
Qed.
(** exec: pending signals are dropped, ignored signals stay ignored, every
    other action is the default; the mask and the registers are kept. *)
Record reset_on_exec (s s' : st) : Prop := {
  re_pending : sig_pending (sp_hand s') = 0;
  re_blocked : sig_blocked (sp_hand s') = sig_blocked (sp_hand s);
  re_frame : sp_tf s' = sp_tf s ∧ sp_lock s' = false ∧ sp_user s' = sp_user s;
  re_len : length (actions (sp_hand s')) = Z.to_nat NSIG;
  re_action i a : (1 ≤ i < Z.to_nat NSIG)%nat → actions (sp_hand s) !! i = Some a →
    actions (sp_hand s') !! i = Some (if decide (handler a = SIG_IGN) then a else mk_sigaction SIG_DFL 0 0 0)
}.

Lemma signal_reset_on_exec_run (s : st) :
  length (actions (sp_hand s)) = Z.to_nat NSIG → sp_lock s = false → ∃ s', signal_reset_on_exec s = Ret (tt, s') ∧ reset_on_exec s s'.
Proof.
  intros Hlen Hlock. unfold signal_reset_on_exec. set (s1 := set_pending 0 (set_sp_lock true s)).
  rewrite (bind_Ret _ _ s tt (set_sp_lock true s)) by (unfold acquire_proc, acquire; by rewrite Hlock).
  rewrite (bind_Ret _ _ _ tt s1) by done.
  destruct (forM_seq (λ j t, sig_pending (sp_hand t) = 0 ∧ sig_blocked (sp_hand t) = sig_blocked (sp_hand s) ∧
      sp_tf t = sp_tf s ∧ sp_lock t = true ∧ sp_user t = sp_user s ∧ length (actions (sp_hand t)) = Z.to_nat NSIG ∧
      ∀ i a, (1 ≤ i < Z.to_nat NSIG)%nat → actions (sp_hand s) !! i = Some a →
        actions (sp_hand t) !! i = Some (if decide (Z.of_nat i < j ∧ handler a ≠ SIG_IGN) then mk_sigaction SIG_DFL 0 0 0 else a))
    (λ i, a ← get_action i;
      if decide (handler a ≠ SIG_IGN)
      then modify (λ s, set_actions (<[Z.to_nat i := mk_sigaction SIG_DFL 0 0 0]> (actions (sp_hand s))) s)
      else mret tt) 1 (NSIG - 1) s1) as (s2 & Hrun & Hp & Hb & Ht & Hl & Hu & Hn & Ha).
  - done.
  - intros j t Hj (Hp & Hb & Ht & Hl & Hu & Hn & Ha). change (1 + (NSIG - 1)) with NSIG in Hj.
    assert (Hjn : (Z.to_nat j < Z.to_nat NSIG)%nat) by (unfold NSIG in *; lia).
    destruct (lookup_lt_is_Some_2 (actions (sp_hand s)) (Z.to_nat j)) as [a Hsa]; [lia|].
    pose proof (Ha (Z.to_nat j) a ltac:(lia) Hsa) as Hta. rewrite decide_False in Hta by lia.
    rewrite (bind_Ret _ _ t a t) by (unfold get_action; by rewrite decide_True, Hta by lia).
    assert (Hnext : ∀ i b, (1 ≤ i < Z.to_nat NSIG)%nat → i ≠ Z.to_nat j → actions (sp_hand s) !! i = Some b →
      actions (sp_hand t) !! i = Some (if decide (Z.of_nat i < j + 1 ∧ handler b ≠ SIG_IGN) then mk_sigaction SIG_DFL 0 0 0 else b)).
    { intros i b Hi Hne Hsb. rewrite (Ha i b Hi Hsb). f_equal. by apply decide_ext; split; intros [? ?]; split; lia || done. }
    case_decide as Hd.
    + eexists. split; [done|]. simpl. split_and!; try done; [by rewrite length_insert|]. intros i b Hi Hsb.
      destruct (decide (i = Z.to_nat j)) as [->|Hne]; [|rewrite list_lookup_insert_ne by done; by apply Hnext].
      rewrite list_lookup_insert_eq by lia. rewrite Hsa in Hsb. injection Hsb as <-. by rewrite decide_True by (split; [lia|done]).
    + eexists. split; [done|]. split_and!; try done. intros i b Hi Hsb.
      destruct (decide (i = Z.to_nat j)) as [->|Hne]; [|by apply Hnext].
      rewrite Hta. rewrite Hsa in Hsb. injection Hsb as <-. by rewrite decide_False by tauto.
  - split_and!; try done. intros i a Hi Hsa. by rewrite decide_False by lia.
  - rewrite (bind_Ret _ _ _ _ _ Hrun). exists (set_sp_lock false s2). split; [unfold release_proc, release; by rewrite Hl|]. split; simpl; try done.
    intros i a Hi Hsa. rewrite (Ha i a Hi Hsa). f_equal. change (1 + (NSIG - 1)) with NSIG.
    destruct (decide (handler a = SIG_IGN)); [by rewrite decide_False by tauto|rewrite decide_True; [done|split; [lia|done]]].
Qed.
End signal.

(** ** Concrete user memory: one map per structure type *)
Record demo_user := mk_demo_user {
  du_frames : gmap Z sigframe;
  du_actions : gmap Z sigaction;
  du_words : gmap Z Z
}.
#[local] Instance demo_frames : UserObj demo_user sigframe.
Proof.
  refine {| uget := λ u a, du_frames u !! a;
            uput := λ a x u, (mk_demo_user (<[a := x]> (du_frames u)) (du_actions u) (du_words u), true) |}.
  intros a x u u' [= <-]. apply lookup_insert_eq.
Defined.
#[local] Instance demo_acts : UserObj demo_user sigaction.
Proof.
  refine {| uget := λ u a, du_actions u !! a;
            uput := λ a x u, (mk_demo_user (du_frames u) (<[a := x]> (du_actions u)) (du_words u), true) |}.
  intros a x u u' [= <-]. apply lookup_insert_eq.
Defined.
#[local] Instance demo_words : UserObj demo_user Z.
Proof.
  refine {| uget := λ u a, du_words u !! a;
            uput := λ a x u, (mk_demo_user (du_frames u) (du_actions u) (<[a := x]> (du_words u)), true) |}.
  intros a x u u' [= <-]. apply lookup_insert_eq.
Defined.

(** SIGINT (2) is caught, SIGUSR1 (10) is blocked; both and, in [kill], SIGKILL are pending. *)
Definition demo_proc (kill : bool) : sigproc demo_user :=
  mk_sigproc (mk_sighand (if kill then 0x302 else 0x202) 0x200
      (<[2%nat := mk_sigaction 0x1000 0 0x2000 0x10]> (replicate 64 (mk_sigaction 0 0 0 0))))
    (mk_trapframe 0x40000 0x1234 7 8 [9]) false (mk_demo_user ∅ ∅ {[ 64 := 0x102 ]}).

Lemma demo_proc_wf kill : sig_wf (demo_proc kill).
Proof.
  split; [by destruct kill|by destruct kill|by destruct kill|].
  apply (Forall_insert _ _ 2%nat); [|done]. by apply Forall_replicate.
Qed.

Lemma check_signal_kill_witness : check_signal 320 (demo_proc true) = Ret (Exits 137, demo_proc true).
Proof. apply check_signal_kill; reflexivity. Defined.

Lemma check_signal_spec_witness :
  ∃ e s', check_signal 320 (demo_proc false) = Ret (e, s') ∧ sig_wf s' ∧
    Z.testbit (sig_pending (sp_hand s')) 9 = true.
Proof.
  destruct (check_signal_spec 320 (demo_proc false) (demo_proc_wf false) eq_refl)
    as (e & s' & H1 & H2 & _ & _ & _ & H3).
  exists e, s'. split; [done|]. split; [done|]. apply (H3 10); [lia|reflexivity].
Defined.

Lemma signal_roundtrip_witness :
  ∃ s1, check_signal 320 (demo_proc false) = Ret (Returned, s1) ∧ tf_epc (sp_tf s1) = 0x1000 ∧
    ∃ s3, sys_rt_sigreturn s1 = Ret (0, s3) ∧ sp_tf s3 = sp_tf (demo_proc false).
Proof.
  edestruct (signal_roundtrip 320 (demo_proc false) 2 (mk_sigaction 0x1000 0 0x2000 0x10))
    as (s1 & H1 & Hl & H2 & _ & _ & H3);
    [apply demo_proc_wf|reflexivity|lia|done|done|reflexivity|reflexivity|reflexivity|reflexivity
    |done|done|done|done|done|reflexivity|].
  exists s1. split; [done|]. split; [by rewrite H2|].
  destruct (H3 s1 Hl ltac:(by rewrite H2) eq_refl) as (s3 & H4 & H5 & _). by exists s3.
Defined.

Lemma sigprocmask_never_blocks_kill_witness :
  ∃ r s', sys_rt_sigprocmask SIG_BLOCK 64 0 8 (demo_proc false) = Ret (r, s') ∧
    Z.testbit (sig_blocked (sp_hand s')) 8 = false.
Proof.
  destruct (sigprocmask_never_blocks_kill (demo_proc false) SIG_BLOCK 64 0 8 SIGKILL)
    as (r & s' & H1 & _ & H2); [reflexivity|by left| |done|].
  - intros m Hm. vm_compute in Hm. by injection Hm as <-.
  - exists r, s'. split; [done|]. destruct (Z.testbit _ 8) eqn:E; [|done].
    by apply H2 in E.
Defined.
