(* ===== verification/Path.v ===== *)
(** Path strings: kernel/fs/fs.c and the path half of kernel/fs/vfs.c.

    A C string is the list of its bytes before the terminator.  The buffers
    the code copies into hold [PATH_MAX] bytes, and every copy that stops at
    the end of a buffer does so here.  The reference is the list of path
    components: [resolve] gives "." and ".." their meaning on it. *)
From S2P Require Import Prelude.

Definition PATH_MAX : Z := 128.
Definition DIRSIZ : Z := 24.
Definition SLASH : Z := 47.
Definition DOT : Z := 46.
Abbreviation cstring := (list Z).

(** The longest string a PATH_MAX buffer holds. *)
Definition max_str : nat := Z.to_nat (PATH_MAX - 1).

(** [strncpy(dst, s, PATH_MAX); dst[PATH_MAX - 1] = 0] *)
Definition copy_path (s : cstring) : cstring := take max_str s.

(** [while (path[0] == '/') path++] *)
Fixpoint skip_slashes (p : cstring) : cstring :=
  match p with
  | c :: p' => if decide (c = SLASH) then skip_slashes p' else p
  | [] => []
  end.

(** [while (path[0] != '/' && path[0] != 0) path++]: the bytes passed and the rest. *)
Fixpoint take_elem (p : cstring) : cstring * cstring :=
  match p with
  | c :: p' =>
      if decide (c = SLASH) then ([], p)
      else let '(e, r) := take_elem p' in (c :: e, r)
  | [] => ([], [])
  end.

(** skipelem: [None] is the null pointer. *)
Definition skipelem (path : cstring) : option (cstring * cstring) :=
  match skip_slashes path with
  | [] => None
  | path =>
      let '(s, rest) := take_elem path in
      let len := if decide (PATH_MAX ≤ Z.of_nat (length s)) then PATH_MAX - 1 else Z.of_nat (length s) in
      Some (take (Z.to_nat len) s, skip_slashes rest)
  end.

(** [namecmp(s, t) == 0] *)
Definition name_eq (s t : cstring) : bool :=
  bool_decide (take (Z.to_nat DIRSIZ) s = take (Z.to_nat DIRSIZ) t).

(** The loop of path_elem_eq over the [len] bytes of [s] and the string [t]. *)
Fixpoint path_elem_eq (s t : cstring) : bool :=
  match s, t with
  | [], [] => true
  | c :: s, d :: t => if decide (c = d) then path_elem_eq s t else false
  | _, _ => false
  end.

Definition append_path_elem (out elem : cstring) : cstring :=
  let out := if decide (1 < Z.of_nat (length out) < PATH_MAX - 1) then out ++ [SLASH] else out in
  out ++ take (max_str - length out) elem.

(** [while (len > 1 && out[len - 1] != '/') len--], on the reversed string. *)
Fixpoint pop_loop (rout : cstring) : cstring :=
  match rout with
  | c :: (_ :: _) as rest => if decide (c ≠ SLASH) then pop_loop rest else rout
  | _ => rout
  end.

Definition pop_path_elem (out : cstring) : cstring :=
  if decide (Z.of_nat (length out) ≤ 1) then [SLASH] else
  match pop_loop (reverse out) with
  | _ :: (_ :: _) as rest => reverse rest
  | rout => reverse rout
  end.

(** The loop of vfs_normalize_path; every round passes at least one byte. *)
Fixpoint normalize_loop (fuel : nat) (out path : cstring) : option cstring :=
  match fuel with
  | O => None
  | S f =>
      match path with
      | [] => Some out
      | _ =>
          match skip_slashes path with
          | [] => Some out
          | p =>
              let '(elem, rest) := take_elem p in
              if path_elem_eq elem [DOT] then normalize_loop f out rest
              else if path_elem_eq elem [DOT; DOT] then normalize_loop f (pop_path_elem out) rest
              else normalize_loop f (append_path_elem out elem) rest
          end
      end
  end.

Definition vfs_normalize_path (path : cstring) : option cstring :=
  copy_path <$> normalize_loop (S (length path)) [SLASH] path.

Definition vfs_make_absolute_path (cwd path : cstring) : option cstring :=
  if decide (head path = Some SLASH) then vfs_normalize_path (copy_path path)
  else
    let raw := take max_str cwd in
    let raw := if decide (1 < Z.of_nat (length raw) < PATH_MAX - 1) then raw ++ [SLASH] else raw in
    let raw := raw ++ take (max_str - length raw) path in
    vfs_normalize_path raw.

(** ** Reference: components *)

(** The non-empty runs of bytes between slashes. *)
Fixpoint split_from (cur : cstring) (p : cstring) : list cstring :=
  match p with
  | [] => match cur with [] => [] | _ => [reverse cur] end
  | c :: p =>
      if decide (c = SLASH) then
        match cur with [] => split_from [] p | _ => reverse cur :: split_from [] p end
      else split_from (c :: cur) p
  end.
Definition components (p : cstring) : list cstring := split_from [] p.

(** "." stays, ".." goes up (and stays at the root), a name goes down. *)
Definition resolve_step (stack : list cstring) (e : cstring) : list cstring :=
  if decide (e = [DOT]) then stack
  else if decide (e = [DOT; DOT]) then tail stack
  else e :: stack.
(** The stack of names, innermost first. *)
Definition resolve (es : list cstring) : list cstring := foldl resolve_step [] es.

(** "/a/b" from its components, innermost first. *)
Fixpoint render_rev (stack : list cstring) : cstring :=
  match stack with
  | [] => []
  | e :: stack => render_rev stack ++ SLASH :: e
  end.
Definition render (stack : list cstring) : cstring :=
  match stack with [] => [SLASH] | _ => render_rev stack end.

(** * Lemmas *)

Lemma path_elem_eq_spec s t : path_elem_eq s t = bool_decide (s = t).
Proof.
  revert t. induction s as [|c s IH]; intros [|d t]; simpl; try done.
  case_decide as Hcd; [subst; rewrite IH|].
  - destruct (decide (s = t)) as [->|]; [by rewrite !bool_decide_eq_true_2|].
    rewrite !bool_decide_eq_false_2; congruence.
  - rewrite bool_decide_eq_false_2; congruence.
Qed.

(** A component: non-empty, without slashes. *)
Definition elem_ok (e : cstring) : Prop := e ≠ [] ∧ SLASH ∉ e.

Lemma skip_slashes_head p : head (skip_slashes p) ≠ Some SLASH.
Proof. induction p as [|c p IH]; simpl; [done|]. case_decide; [done|]. simpl. congruence. Qed.

Lemma take_elem_app p e r : take_elem p = (e, r) → p = e ++ r ∧ (SLASH ∉ e) ∧ (r = [] ∨ head r = Some SLASH).
Proof.
  revert e r. induction p as [|c p IH]; simpl; intros e r H.
  - simplify_eq. split; [done|]. split; [set_solver|by left].
  - case_decide as Hc; [simplify_eq; split; [done|]; split; [set_solver|by right]|].
    destruct (take_elem p) as [e' r'] eqn:E. simplify_eq.
    destruct (IH e' r eq_refl) as (-> & Hn & Hr). split; [done|]. split; [set_solver|done].
Qed.

Lemma split_from_elem cur e r :
  SLASH ∉ e → (r = [] ∨ head r = Some SLASH) → cur ++ e ≠ [] →
  split_from cur (e ++ r) = (reverse cur ++ e) :: components r.
Proof.
  revert cur. induction e as [|c e IH]; intros cur He Hr Hne; simpl.
  - rewrite app_nil_r in *. destruct cur as [|d cur]; [done|]. destruct r as [|c r]; [done|].
    destruct Hr as [?|[= ->]]; [done|]. unfold components. simpl. by repeat case_decide.
  - rewrite decide_False by set_solver. rewrite IH by set_solver.
    by rewrite reverse_cons, <-app_assoc.
Qed.

Lemma components_skip p : components (skip_slashes p) = components p.
Proof.
  induction p as [|c p IH]; simpl; [done|]. case_decide as Hc; [|done].
  rewrite IH. unfold components. simpl. by repeat case_decide.
Qed.

(** Peeling one component off. *)
Lemma components_step p e r :
  skip_slashes p ≠ [] → take_elem (skip_slashes p) = (e, r) →
  elem_ok e ∧ components p = e :: components r.
Proof.
  intros Hne He. pose proof (skip_slashes_head p) as Hh.
  destruct (take_elem_app _ _ _ He) as (Heq & Hn & Hr).
  assert (e ≠ []).
  { intros ->. simpl in Heq. subst r. destruct Hr as [Hr|Hr]; [done|]. by rewrite Hr in Hh. }
  split; [done|]. rewrite <-components_skip, Heq. unfold components.
  by rewrite split_from_elem by done.
Qed.

Lemma skip_slashes_length p : (length (skip_slashes p) ≤ length p)%nat.
Proof. induction p as [|c p IH]; simpl; [done|]. case_decide; simpl; lia. Qed.

Lemma components_slash_nil p : skip_slashes p = [] → components p = [].
Proof. intros H. by rewrite <-components_skip, H. Qed.

(** ** Rendered paths *)

Lemma render_length stack e :
  elem_ok e → length (render (e :: stack)) = (length (render_rev stack) + 1 + length e)%nat.
Proof. intros _. simpl. rewrite length_app. simpl. lia. Qed.

(** Names of a stack are components other than "." and "..". *)
Definition stack_ok (stack : list cstring) : Prop :=
  Forall (λ e, elem_ok e ∧ e ≠ [DOT] ∧ e ≠ [DOT; DOT]) stack.

Lemma render_nonempty stack : stack_ok stack → (1 ≤ length (render stack))%nat.
Proof. destruct stack; simpl; [lia|]. rewrite length_app. simpl. lia. Qed.

Lemma render_long e stack : elem_ok e → (1 < length (render (e :: stack)))%nat.
Proof. intros [He _]. simpl. rewrite length_app. simpl. destruct e; [done|]. simpl. lia. Qed.

(** Appending pushes, when the buffer has room. *)
Lemma append_render stack e :
  stack_ok stack → elem_ok e → (length (render (e :: stack)) ≤ max_str)%nat →
  append_path_elem (render stack) e = render (e :: stack).
Proof.
  intros Hs He Hlen. unfold append_path_elem. destruct stack as [|e0 stack].
  - change (render []) with [SLASH]. rewrite decide_False by (simpl; lia).
    change (render [e]) with (SLASH :: e) in *. cbn [length] in *. cbn [app]. f_equal. apply take_ge. lia.
  - apply Forall_cons in Hs as [[He0 _] Hs]. pose proof (render_long e0 stack He0).
    simpl render in *. rewrite length_app in Hlen. simpl in Hlen.
    assert (Hne : (0 < length e)%nat) by (destruct He as [He _]; destruct e; [done|simpl; lia]).
    unfold max_str, PATH_MAX in *.
    rewrite decide_True by lia. rewrite <-app_assoc. simpl. do 2 f_equal.
    rewrite length_app. simpl. rewrite take_ge; [done|]. lia.
Qed.

Lemma pop_loop_app re r :
  SLASH ∉ re → r ≠ [] → pop_loop (re ++ SLASH :: r) = SLASH :: r.
Proof.
  induction re as [|c re IH]; intros He Hr; simpl.
  - destruct r; [done|]. by repeat case_decide.
  - destruct (re ++ SLASH :: r) as [|d l] eqn:E; [by destruct re|].
    rewrite decide_True by set_solver. apply IH; [set_solver|done].
Qed.

Lemma pop_loop_stop re c : SLASH ∉ re → pop_loop (re ++ [c]) = [c].
Proof.
  induction re as [|d re IH]; intros He; simpl; [done|].
  destruct (re ++ [c]) as [|x l] eqn:E; [by destruct re|].
  rewrite decide_True by set_solver. apply IH. set_solver.
Qed.

(** Popping pops, and stays at the root. *)
Lemma pop_render stack : stack_ok stack → pop_path_elem (render stack) = render (tail stack).
Proof.
  intros Hs. unfold pop_path_elem. destruct stack as [|e stack]; [done|].
  apply Forall_cons in Hs as [[He _] Hs]. pose proof (render_long e stack He).
  rewrite decide_False by lia. change (render (e :: stack)) with (render_rev stack ++ SLASH :: e).
  rewrite reverse_app, reverse_cons, <-app_assoc. cbn [app].
  assert (Hre : SLASH ∉ reverse e) by (rewrite elem_of_reverse; apply He).
  destruct stack as [|e0 stack].
  - change (reverse (render_rev [])) with (@nil Z). by rewrite pop_loop_stop.
  - assert (Hr : reverse (render_rev (e0 :: stack)) ≠ []).
    { simpl. rewrite reverse_app, reverse_cons, <-app_assoc. simpl. by destruct (reverse e0). }
    rewrite pop_loop_app by done. simpl tail.
    destruct (reverse (render_rev (e0 :: stack))) as [|d l] eqn:E; [done|].
    rewrite <-E, reverse_involutive. done.
Qed.

(** The bytes a list of components needs. *)
Definition weight (es : list cstring) : nat := foldr (λ e n, length e + 1 + n)%nat 0%nat es.

Lemma render_rev_length stack : length (render_rev stack) = weight stack.
Proof. induction stack as [|e stack IH]; simpl; [done|]. rewrite length_app. simpl. lia. Qed.

Lemma resolve_step_ok stack e : stack_ok stack → elem_ok e → stack_ok (resolve_step stack e).
Proof.
  intros Hs He. unfold resolve_step. repeat case_decide; [done| |by constructor].
  destruct Hs; [constructor|done].
Qed.

Lemma components_weight p e r :
  skip_slashes p ≠ [] → take_elem (skip_slashes p) = (e, r) →
  (length e + length r ≤ length p)%nat ∧ (head p = Some SLASH → length e + 1 + length r ≤ length p)%nat.
Proof.
  intros Hne He. destruct (take_elem_app _ _ _ He) as (Heq & _ & _).
  assert (Hl : length (skip_slashes p) = (length e + length r)%nat) by (rewrite Heq, length_app; done).
  pose proof (skip_slashes_length p). split; [lia|]. intros Hh.
  destruct p as [|c p]; [done|]. simpl in Hh. injection Hh as ->. simpl in Hl.
  pose proof (skip_slashes_length p). simpl. lia.
Qed.

Lemma normalize_loop_S f out p e r :
  skip_slashes p ≠ [] → take_elem (skip_slashes p) = (e, r) →
  normalize_loop (S f) out p =
  (if path_elem_eq e [DOT] then normalize_loop f out r
   else if path_elem_eq e [DOT; DOT] then normalize_loop f (pop_path_elem out) r
   else normalize_loop f (append_path_elem out e) r).
Proof.
  intros Hne He. destruct p as [|c p]; [done|]. cbn [normalize_loop].
  destruct (skip_slashes (c :: p)); [done|]. by rewrite He.
Qed.

(** The loop computes the resolved stack, when the input fits the buffer. *)
Lemma normalize_loop_spec fuel stack p :
  (length p < fuel)%nat → stack_ok stack → (head p = Some SLASH ∨ p = []) →
  (weight stack + length p ≤ max_str)%nat →
  normalize_loop fuel (render stack) p = Some (render (foldl resolve_step stack (components p))) ∧
  stack_ok (foldl resolve_step stack (components p)) ∧
  (weight (foldl resolve_step stack (components p)) ≤ max_str)%nat.
Proof.
  revert stack p. induction fuel as [|f IH]; intros stack p Hf Hs Hh Hw; [lia|].
  destruct (decide (skip_slashes p = [])) as [Esk|Esk].
  { rewrite components_slash_nil by done. split; [|simpl; split; [done|lia]].
    destruct p as [|c p]; [done|]. cbn [normalize_loop]. by rewrite Esk. }
  destruct (take_elem (skip_slashes p)) as [e r] eqn:Ete.
  destruct Hh as [Hh|Hh]; [|by rewrite Hh in Esk].
  destruct (components_step p e r Esk Ete) as [He Hcomp].
  destruct (components_weight p e r Esk Ete) as [_ Hle]. specialize (Hle Hh).
  assert (Hhr : head r = Some SLASH ∨ r = []).
  { destruct (take_elem_app _ _ _ Ete) as (_ & _ & []); auto. }
  assert (Hstep : normalize_loop (S f) (render stack) p = normalize_loop f (render (resolve_step stack e)) r).
  { rewrite (normalize_loop_S f _ p e r) by done. rewrite !path_elem_eq_spec. unfold resolve_step.
    destruct (decide (e = [DOT])); [by rewrite bool_decide_eq_true_2|].
    rewrite bool_decide_eq_false_2 by done.
    destruct (decide (e = [DOT; DOT])); [by rewrite bool_decide_eq_true_2, pop_render|].
    rewrite bool_decide_eq_false_2 by done. rewrite append_render; [done|done|done|].
    rewrite render_length, render_rev_length by done. lia. }
  rewrite Hstep, Hcomp. cbn [foldl].
  destruct (IH (resolve_step stack e) r) as (-> & Hs' & Hw'); [|by apply resolve_step_ok|done| |done].
  - destruct He as [He _]. destruct e; [done|]. cbn [length] in Hle. lia.
  - unfold resolve_step. repeat case_decide; simpl; [lia| |lia]. destruct stack; simpl in *; lia.
Qed.

Lemma split_from_slash cur a b : split_from cur (a ++ SLASH :: b) = split_from cur a ++ components b.
Proof.
  revert cur. induction a as [|c a IH]; intros cur; simpl.
  - destruct cur; by repeat case_decide.
  - repeat case_decide; [|by rewrite IH]. destruct cur; by rewrite IH.
Qed.

Lemma components_elem e : elem_ok e → components e = [e].
Proof.
  intros [Hne He]. rewrite <-(app_nil_r e) at 1. unfold components.
  rewrite split_from_elem by (done || by left). done.
Qed.

Lemma components_render stack : Forall elem_ok stack → components (render stack) = reverse stack.
Proof.
  intros Hs. assert (Hr : components (render_rev stack) = reverse stack).
  { induction Hs as [|e stack He Hs IH]; [done|]. cbn [render_rev].
    unfold components at 1. rewrite split_from_slash. fold (components (render_rev stack)).
    by rewrite IH, components_elem, reverse_cons. }
  by destruct stack.
Qed.

Lemma stack_ok_elems stack : stack_ok stack → Forall elem_ok stack.
Proof. intros Hs. eapply Forall_impl; [exact Hs|]. naive_solver. Qed.

Lemma render_fits stack : (weight stack ≤ max_str)%nat → (length (render stack) ≤ max_str)%nat.
Proof.
  intros Hw. destruct stack as [|e stack]; [unfold max_str, PATH_MAX; simpl; lia|].
  change (render (e :: stack)) with (render_rev (e :: stack)). by rewrite render_rev_length.
Qed.

Lemma render_head stack : head (render stack) = Some SLASH.
Proof.
  assert (Hr : stack ≠ [] → head (render_rev stack) = Some SLASH).
  { induction stack as [|e [|e' stack] IH]; intros Hne; [done|done|].
    cbn [render_rev] in *. rewrite !head_app in *. specialize (IH ltac:(done)).
    destruct (head (render_rev stack)); done. }
  destruct stack; [done|]. by apply Hr.
Qed.

Lemma normalize_run p :
  head p = Some SLASH → (length p ≤ max_str)%nat →
  vfs_normalize_path p = Some (render (resolve (components p))) ∧
  stack_ok (resolve (components p)) ∧ (weight (resolve (components p)) ≤ max_str)%nat.
Proof.
  intros Hh Hl. unfold vfs_normalize_path.
  destruct (normalize_loop_spec (S (length p)) [] p) as (Hrun & Hs & Hw);
    [lia|constructor|by left|simpl; lia|].
  change (render []) with [SLASH] in Hrun. rewrite Hrun. simpl. split; [|done].
  f_equal. unfold copy_path. apply take_ge. by apply render_fits.
Qed.

(** Resolving a list of plain names changes nothing. *)
Lemma resolve_names es stack : stack_ok es → foldl resolve_step stack es = reverse es ++ stack.
Proof.
  intros Hes. revert stack. induction Hes as [|e es (He & Hd & Hdd) Hes IH]; intros stack; [done|].
  cbn [foldl]. rewrite IH. unfold resolve_step. rewrite decide_False, decide_False by done.
  by rewrite reverse_cons, <-app_assoc.
Qed.

Lemma stack_ok_reverse stack : stack_ok stack → stack_ok (reverse stack).
Proof. unfold stack_ok. by rewrite Forall_reverse. Qed.

(** Whatever the strings, the loop ends. *)
Lemma normalize_loop_total n out p : (length p < n)%nat → ∃ q, normalize_loop n out p = Some q.
Proof.
  revert out p. induction n as [|n IH]; intros out p Hn; [lia|]. cbn [normalize_loop]. destruct p as [|c p]; [by eexists|].
  pose proof (skip_slashes_length (c :: p)) as Hs. pose proof (skip_slashes_head (c :: p)) as Hh.
  destruct (skip_slashes (c :: p)) as [|d q]; [by eexists|]. destruct (take_elem (d :: q)) as [e r] eqn:E.
  destruct (take_elem_app _ _ _ E) as (Heq & _ & Hr).
  assert (Hl : (length r < n)%nat).
  { assert (Hlen : length (d :: q) = (length e + length r)%nat) by (by rewrite Heq, length_app). destruct e as [|d' e].
    - simpl in Heq. subst r. destruct Hr as [?|?]; [done|]. done.
    - simpl in *. lia. }
  destruct (path_elem_eq e [DOT]); [by apply IH|]. destruct (path_elem_eq e [DOT; DOT]); by apply IH.
Qed.
Lemma make_absolute_total cwd path : ∃ q, vfs_make_absolute_path cwd path = Some q.
Proof.
  assert (Hn : ∀ p, ∃ q, vfs_normalize_path p = Some q).
  { intros p. unfold vfs_normalize_path. destruct (normalize_loop_total (S (length p)) [SLASH] p) as [q ->]; [lia|]. by eexists. }
  unfold vfs_make_absolute_path. case_decide; apply Hn.
Qed.

(** * Theorems *)

(** C29: vfs_normalize_path on an absolute path that fits its buffer gives the
    path of the components with empty ones and dots dropped and each dot-dot
    cancelling the component before it. *)
Theorem vfs_normalize_path_spec p :
  head p = Some SLASH → (length p ≤ max_str)%nat →
  vfs_normalize_path p = Some (render (resolve (components p))).
Proof. intros Hh Hl. by destruct (normalize_run p Hh Hl). Qed.

(** Normalising a normalised path changes nothing, and no dot or dot-dot
    component remains. *)
Theorem vfs_normalize_path_idempotent p :
  head p = Some SLASH → (length p ≤ max_str)%nat →
  ∃ q, vfs_normalize_path p = Some q ∧ vfs_normalize_path q = Some q ∧
    Forall (λ e, e ≠ [DOT] ∧ e ≠ [DOT; DOT]) (components q).
Proof.
  intros Hh Hl. destruct (normalize_run p Hh Hl) as (Hrun & Hs & Hw).
  set (stack := resolve (components p)) in *. exists (render stack). split; [done|].
  destruct (normalize_run (render stack)) as (Hrun2 & _ & _); [apply render_head|by apply render_fits|].
  rewrite components_render in * by by apply stack_ok_elems. split.
  - rewrite Hrun2. unfold resolve. rewrite resolve_names by by apply stack_ok_reverse.
    by rewrite reverse_involutive, app_nil_r.
  - apply Forall_reverse. eapply Forall_impl; [exact Hs|]. naive_solver.
Qed.

(** Relative paths. *)
Theorem vfs_make_absolute_path_spec cwd path :
  head cwd = Some SLASH → head path ≠ Some SLASH → (length cwd + 1 + length path ≤ max_str)%nat →
  vfs_make_absolute_path cwd path = Some (render (resolve (components cwd ++ components path))).
Proof.
  intros Hc Hp Hl. unfold vfs_make_absolute_path. rewrite decide_False by done.
  rewrite (take_ge cwd) by lia. destruct cwd as [|c cwd]; [done|]. simpl in Hc. injection Hc as ->.
  destruct cwd as [|c cwd].
  - rewrite decide_False by (simpl; lia). rewrite (take_ge path) by (cbn [length] in *; lia).
    destruct (normalize_run (SLASH :: path)) as (Hrun & _); [done|cbn [length] in *; lia|].
    cbn [app]. by rewrite Hrun.
  - assert (Hl2 : (S (S (length cwd)) + 1 + length path ≤ 127)%nat) by exact Hl. clear Hl.
    unfold max_str, PATH_MAX. rewrite decide_True by (cbn [length]; lia).
    rewrite (take_ge path) by (rewrite length_app; cbn [length]; lia).
    rewrite <-app_assoc. cbn [app].
    destruct (normalize_run (SLASH :: c :: cwd ++ SLASH :: path)) as (Hrun & _); [done| |].
    + unfold max_str, PATH_MAX. cbn [length]. rewrite length_app. cbn [length]. lia.
    + rewrite Hrun. do 2 f_equal. unfold resolve. f_equal.
      change (SLASH :: c :: cwd ++ SLASH :: path) with ((SLASH :: c :: cwd) ++ SLASH :: path).
      unfold components at 1. by rewrite split_from_slash.
Qed.

Definition b (s : string) : cstring := (λ a, Z.of_N (Ascii.N_of_ascii a)) <$> String.list_ascii_of_string s.

Lemma vfs_normalize_path_spec_witness :
  vfs_normalize_path (b "/usr//lib/../bin/./sh") = Some (b "/usr/bin/sh").
Proof. rewrite vfs_normalize_path_spec; [reflexivity|reflexivity|vm_compute; lia]. Defined.

Lemma vfs_normalize_path_idempotent_witness :
  ∃ q, vfs_normalize_path (b "/a/../../b/") = Some q ∧ vfs_normalize_path q = Some q.
Proof.
  destruct (vfs_normalize_path_idempotent (b "/a/../../b/")) as (q & H1 & H2 & _);
    [reflexivity|vm_compute; lia|]. by exists q.
Defined.

Lemma vfs_make_absolute_path_spec_witness :
  vfs_make_absolute_path (b "/home/u") (b "../x") = Some (b "/home/x").
Proof. rewrite vfs_make_absolute_path_spec; [reflexivity|reflexivity|done|vm_compute; lia]. Defined.
