(* ===== verification/Vfs.v ===== *)
(** kernel/fs/vfs.c: mount table, path walks, create, mkdir and unlink.

    The file systems behind the inodes are the class [Backend]: whether an
    operation is present, and its effect on the file system's state.  [held]
    counts the references each inode has handed out; the laws say that a
    successful lookup takes one and that vfs_iput gives one back. *)
From S2P Require Import Prelude Path.

Definition VFS_DIR : Z := 0x0001.
Definition VFS_FILE : Z := 0x0010.
Definition VFS_DEV : Z := 0x0011.
Definition VFS_MAX_MOUNTS : Z := 8.

Class Backend (N : Type) := {
  n_type : N → Z → Z;                       (* node->type *)
  has_lookup : N → Z → bool;                (* node->ops && node->ops->lookup *)
  has_create : N → Z → bool;
  has_mkdir : N → Z → bool;
  has_unlink : N → Z → bool;
  op_lookup : Z → cstring → K N Z;
  op_create : Z → cstring → Z → K N Z;
  op_mkdir : Z → cstring → Z → K N Z;
  op_unlink : Z → cstring → K N Z;
  vfs_iput : Z → K N unit;                  (* of a node that is not 0 *)
  count_inc : Z → N → N;                    (* node->count++ *)
  held : N → Z → Z;
  op_lookup_law d nm n : ∃ r n', op_lookup d nm n = Ret (r, n') ∧
    ∀ i, held n' i = held n i + (if decide (r ≠ 0 ∧ i = r) then 1 else 0);
  op_mkdir_law d nm m n : ∃ r n', op_mkdir d nm m n = Ret (r, n') ∧ ∀ i, held n' i = held n i;
  op_unlink_law d nm n : ∃ r n', op_unlink d nm n = Ret (r, n') ∧ ∀ i, held n' i = held n i;
  vfs_iput_law d n : held n d > 0 → ∃ n', vfs_iput d n = Ret (tt, n') ∧
    ∀ i, held n' i = held n i - (if decide (i = d) then 1 else 0);
  count_inc_law d n i : held (count_inc d n) i = held n i + (if decide (i = d) then 1 else 0)
}.

Record vfs_mount := mk_mount {
  m_name : cstring;
  m_root : Z;
  m_parent : Z
}.

Record vfs (N : Type) := mk_vfs {
  vfs_root : Z;
  mounts : list vfs_mount;
  nodes : N
}.
Arguments mk_vfs {_} _ _ _.
Arguments vfs_root {_} _.
Arguments mounts {_} _.
Arguments nodes {_} _.

Section vfs.
Context {N : Type} `{Backend N}.
Abbreviation st := (vfs N).

Definition set_nodes (n : N) (s : st) : st := mk_vfs (vfs_root s) (mounts s) n.
Definition set_mounts (l : list vfs_mount) (s : st) : st := mk_vfs (vfs_root s) l (nodes s).
Definition on_nodes {A} (m : K N A) : K st A := zoom nodes set_nodes m.

(** The first slot for (parent, name); 0 if there is none. *)
Fixpoint find_mount (l : list vfs_mount) (parent : Z) (name : cstring) : Z :=
  match l with
  | [] => 0
  | m :: l => if bool_decide (m_parent m = parent) && name_eq (m_name m) name then m_root m
              else find_mount l parent name
  end.
Definition vfs_lookup_mount (parent : Z) (name : cstring) : K st Z :=
  gets (λ s, find_mount (mounts s) parent name).

(** One component: the mount table first, then the inode's lookup. *)
Definition step_into (current : Z) (name : cstring) : K st Z :=
  next ← vfs_lookup_mount current name;
  s ← gets id;
  if decide (next = 0) then
    if has_lookup (nodes s) current then on_nodes (op_lookup current name) else mret 0
  else mret next.

Fixpoint lookup_loop (fuel : nat) (current : Z) (walked : bool) (path : cstring) : K st Z :=
  match fuel with
  | O => λ _, NoFuel
  | S f =>
      match skipelem path with
      | Some (name, path) =>
          s ← gets id;
          if negb (has (n_type (nodes s) current) VFS_DIR) then mret 0 else
          next ← step_into current name;
          if decide (next = 0) then mret 0 else lookup_loop f next true path
      | None =>
          s ← gets id;
          (if negb walked && bool_decide (current = vfs_root s)
           then modify (λ s, set_nodes (count_inc current (nodes s)) s) else mret tt) ;;
          mret current
      end
  end.
Definition vfs_lookup_at (node : Z) (path : cstring) : K st Z :=
  lookup_loop (S (length path)) node false path.

Definition vfs_leaf_name_valid (name : cstring) : bool :=
  bool_decide (name ≠ []) && bool_decide (Z.of_nat (length name) < DIRSIZ).

Fixpoint create_loop (fuel : nat) (current type : Z) (path : cstring) : K st Z :=
  match fuel with
  | O => λ _, NoFuel
  | S f =>
      match skipelem path with
      | None => mret 0
      | Some (name, next) =>
          s ← gets id;
          if negb (has (n_type (nodes s) current) VFS_DIR) then mret 0 else
          if decide (next = []) then
            if negb (vfs_leaf_name_valid name) then mret 0 else
            m ← vfs_lookup_mount current name;
            if bool_decide (m = 0) && negb (has_lookup (nodes s) current) then mret 0 else
            existing ← (if decide (m = 0) then on_nodes (op_lookup current name) else mret m);
            if decide (existing ≠ 0) then mret existing else
            s ← gets id;
            if negb (has_create (nodes s) current) then mret 0 else
            r ← on_nodes (op_create current name type);
            if decide (r < 0) then mret 0 else
            s ← gets id;
            if negb (has_lookup (nodes s) current) then mret 0 else
            on_nodes (op_lookup current name)
          else
            child ← step_into current name;
            s ← gets id;
            if bool_decide (child = 0) || negb (has (n_type (nodes s) child) VFS_DIR) then mret 0
            else create_loop f child type next
      end
  end.
Definition vfs_create_at (start : Z) (path : cstring) (type : Z) : K st Z :=
  if decide (start = 0 ∨ path = []) then mret 0 else
  root ← gets vfs_root;
  let current := if decide (head path = Some SLASH) then root else start in
  create_loop (S (length path)) current type path.

(** [if (owned_current != 0) vfs_iput(owned_current)] *)
Definition put_owned (owned : Z) : K st unit :=
  if decide (owned ≠ 0) then on_nodes (vfs_iput owned) else mret tt.

(** The walk shared by vfs_mkdir_at and vfs_unlink_at: [leaf] acts on the last
    component, [bottom] is the error when the path has none. *)
Fixpoint at_loop (fuel : nat) (leaf : Z → Z → cstring → K st Z) (bottom : Z)
    (current owned : Z) (path : cstring) : K st Z :=
  match fuel with
  | O => λ _, NoFuel
  | S f =>
      match skipelem path with
      | None => put_owned owned ;; mret bottom
      | Some (name, next) =>
          s ← gets id;
          if decide (n_type (nodes s) current ≠ VFS_DIR) then put_owned owned ;; mret (- ENOTDIR) else
          if decide (next = []) then leaf current owned name else
          m ← vfs_lookup_mount current name;
          if bool_decide (m = 0) && negb (has_lookup (nodes s) current)
          then put_owned owned ;; mret (- ENOTDIR) else
          child ← (if decide (m = 0) then on_nodes (op_lookup current name) else mret m);
          let child_owned := bool_decide (m = 0 ∧ child ≠ 0) in
          s ← gets id;
          if decide (child = 0 ∨ n_type (nodes s) child ≠ VFS_DIR) then
            let error := if decide (child = 0) then - ENOENT else - ENOTDIR in
            (if child_owned then on_nodes (vfs_iput child) else mret tt) ;;
            put_owned owned ;; mret error
          else
            put_owned owned ;;
            at_loop f leaf bottom child (if child_owned then child else 0) next
      end
  end.

Definition mkdir_leaf (current owned : Z) (name : cstring) : K st Z :=
  s ← gets id;
  if negb (has_mkdir (nodes s) current) then put_owned owned ;; mret (- EOPNOTSUPP) else
  existing ← vfs_lookup_at current name;
  if decide (existing ≠ 0) then
    on_nodes (vfs_iput existing) ;; put_owned owned ;; mret (- EEXIST)
  else
    ret ← on_nodes (op_mkdir current name 0);
    put_owned owned ;; mret ret.
Definition vfs_mkdir_at (dir : Z) (path : cstring) : K st Z :=
  if decide (dir = 0 ∨ path = []) then mret (- EINVAL) else
  root ← gets vfs_root;
  let current := if decide (head path = Some SLASH) then root else dir in
  at_loop (S (length path)) mkdir_leaf (- EEXIST) current 0 path.

Definition unlink_leaf (current owned : Z) (name : cstring) : K st Z :=
  s ← gets id;
  if negb (has_unlink (nodes s) current) then put_owned owned ;; mret (- EOPNOTSUPP) else
  existing ← vfs_lookup_at current name;
  s ← gets id;
  if decide (existing = 0 ∨ n_type (nodes s) existing = VFS_DIR) then
    let error := if decide (existing = 0) then - ENOENT else - EISDIR in
    put_owned existing ;; put_owned owned ;; mret error
  else
    on_nodes (vfs_iput existing) ;;
    ret ← on_nodes (op_unlink current name);
    put_owned owned ;; mret ret.
Definition vfs_unlink_at (dir : Z) (path : cstring) : K st Z :=
  if decide (dir = 0 ∨ path = []) then mret (- EINVAL) else
  root ← gets vfs_root;
  let current := if decide (head path = Some SLASH) then root else dir in
  at_loop (S (length path)) unlink_leaf (- EBUSY) current 0 path.

(** The first free slot (root == 0). *)
Fixpoint mount_slot (l : list vfs_mount) (m : vfs_mount) : option (list vfs_mount) :=
  match l with
  | [] => None
  | m0 :: l => if decide (m_root m0 = 0) then Some (m :: l) else (m0 ::.) <$> mount_slot l m
  end.

Definition vfs_mount_at (parent : Z) (name : cstring) (root : Z) : K st Z :=
  if decide (root = 0 ∨ parent = 0) then mret (-1) else
  if decide (name = [] ∨ head name = Some SLASH) then mret (-1) else
  if decide (SLASH ∈ name) then mret (-1) else
  if decide (DIRSIZ ≤ Z.of_nat (length name)) then mret (-1) else
  s ← gets id;
  if existsb (λ m, bool_decide (m_parent m = parent) && name_eq (m_name m) name) (mounts s)
  then mret (-1) else
  match mount_slot (mounts s) (mk_mount (take 23 name) root parent) with
  | Some l => modify (set_mounts l) ;; mret 0
  | None => mret (-1)
  end.

(** [while (len > 1 && fullpath[len - 1] == '/') ...] *)
Fixpoint strip_trailing (rpath : cstring) : cstring :=
  match rpath with
  | c :: (_ :: _) as rest => if decide (c = SLASH) then strip_trailing rest else rpath
  | _ => rpath
  end.

(** vfs_namei: [cwd] is the current process' working directory. *)
Definition vfs_namei (cwd path : cstring) : K st Z :=
  if decide (path = []) then mret 0 else
  match vfs_make_absolute_path cwd path with
  | None => λ _, NoFuel
  | Some fullpath => root ← gets vfs_root; vfs_lookup_at root fullpath
  end.

Definition vfs_mount_fs (cwd path : cstring) (root : Z) : K st Z :=
  if decide (root = 0 ∨ head path ≠ Some SLASH) then mret (-1) else
  if decide (PATH_MAX ≤ Z.of_nat (length path)) then mret (-1) else
  let fullpath := reverse (strip_trailing (reverse path)) in
  if decide (Z.of_nat (length fullpath) ≤ 1) then mret (-1) else
  let '(rname, rparent) := take_elem (reverse fullpath) in
  let name := reverse rname in
  vroot ← gets vfs_root;
  parent ← (if decide (Z.of_nat (length rparent) = 1) then mret vroot
            else vfs_namei cwd (reverse (tail rparent)));
  vfs_mount_at parent name root.

(** ** Reference: resolving a list of names *)

(** The slot answers for the name [e] of the directory [n]. *)
Definition answers (n : Z) (e : cstring) (m : vfs_mount) : Prop :=
  m_parent m = n ∧ take (Z.to_nat DIRSIZ) (m_name m) = take (Z.to_nat DIRSIZ) e.
(** The root mounted on the name [e] of [n]: that of the first slot that
    answers for it, 0 if none does. *)
Definition mount_point (l : list vfs_mount) (n : Z) (e : cstring) (root : Z) : Prop :=
  (∃ i m, l !! i = Some m ∧ answers n e m ∧ root = m_root m ∧ ∀ j m', (j < i)%nat → l !! j = Some m' → ¬ answers n e m') ∨
  (root = 0 ∧ ∀ m, m ∈ l → ¬ answers n e m).

(** From the directory [n] the names lead to [r], or to 0. *)
Inductive resolves : st → Z → list cstring → Z → st → Prop :=
  | Res_end s n : resolves s n [] n s
  | Res_not_dir s n e es : has (n_type (nodes s) n) VFS_DIR = false → resolves s n (e :: es) 0 s
  | Res_mounted s n e es root r s' :
      has (n_type (nodes s) n) VFS_DIR = true → mount_point (mounts s) n e root → root ≠ 0 →
      resolves s root es r s' → resolves s n (e :: es) r s'
  | Res_entry s n e es c n' r s' :
      has (n_type (nodes s) n) VFS_DIR = true → mount_point (mounts s) n e 0 → has_lookup (nodes s) n = true →
      op_lookup n e (nodes s) = Ret (c, n') → c ≠ 0 → resolves (set_nodes n' s) c es r s' → resolves s n (e :: es) r s'
  | Res_no_entry s n e es n' :
      has (n_type (nodes s) n) VFS_DIR = true → mount_point (mounts s) n e 0 → has_lookup (nodes s) n = true →
      op_lookup n e (nodes s) = Ret (0, n') → resolves s n (e :: es) 0 (set_nodes n' s)
  | Res_no_lookup s n e es :
      has (n_type (nodes s) n) VFS_DIR = true → mount_point (mounts s) n e 0 → has_lookup (nodes s) n = false →
      resolves s n (e :: es) 0 s.

(** * Lemmas *)

Lemma skipelem_spec p :
  match skipelem p with
  | None => components p = []
  | Some (e, r) => ∃ e', elem_ok e' ∧ components p = e' :: components r ∧ e = take max_str e' ∧
                   (length r < length p)%nat ∧ (length e' ≤ length p)%nat
  end.
Proof.
  unfold skipelem. destruct (skip_slashes p) as [|c q] eqn:E; [by apply components_slash_nil|].
  destruct (take_elem (c :: q)) as [e r] eqn:Et.
  destruct (components_step p e r) as [He Hc]; [by rewrite E|by rewrite E|].
  destruct (take_elem_app _ _ _ Et) as (Heq & _ & _). exists e. split; [done|].
  rewrite components_skip. split; [done|]. split.
  - case_decide as Hd; [by unfold max_str, PATH_MAX in *|].
    rewrite Nat2Z.id, !take_ge by (unfold max_str, PATH_MAX in *; lia). done.
  - assert (Hl : (length (c :: q) ≤ length p)%nat) by (rewrite <-E; apply skip_slashes_length).
    rewrite Heq, length_app in Hl. pose proof (skip_slashes_length r).
    destruct He as [He _]. destruct e; [done|]. cbn [length] in *. lia.
Qed.

(** Components that fit a name buffer. *)
Definition names_fit (es : list cstring) : Prop := Forall (λ e, (length e ≤ max_str)%nat) es.

Lemma find_mount_point l n e : mount_point l n e (find_mount l n e).
Proof.
  induction l as [|m l IH]; simpl; [right; split; [done|]; intros m Hm; by apply elem_of_nil in Hm|].
  assert (Ha : bool_decide (m_parent m = n) && name_eq (m_name m) e = bool_decide (answers n e m)).
  { unfold answers, name_eq. by rewrite bool_decide_and. }
  rewrite Ha. clear Ha. case_bool_decide as Hm; [left; exists 0%nat, m; split; [done|]; split; [done|]; split; [done|]; intros; lia|].
  destruct IH as [(i & m1 & Hi & Hans & Hr & Hno)|[Hr Hno]]; [left|right].
  - exists (S i), m1. split; [done|]. split; [done|]. split; [done|]. intros [|j] m2 Hj; simpl; [by intros [= <-]|]. apply Hno. lia.
  - split; [done|]. intros m1 [->|Hm1]%elem_of_cons; [done|]. by apply Hno.
Qed.

Lemma mount_point_eq l n e a : mount_point l n e a → a = find_mount l n e.
Proof.
  intros [(i & m & Hi & Ha & -> & Hno)|[-> Hno]].
  - destruct (find_mount_point l n e) as [(j & m' & Hj & Ha' & -> & Hno')|[_ Hno']].
    + assert (i = j) as ->; [|by simplify_eq]. destruct (Nat.lt_total i j) as [?|[?|?]]; [by destruct (Hno' i m)|done|by destruct (Hno j m')].
    + by destruct (Hno' m (list_elem_of_lookup_2 _ _ _ Hi)).
  - destruct (find_mount_point l n e) as [(j & m' & Hj & Ha' & _)|[-> _]]; [|done]. by destruct (Hno m' (list_elem_of_lookup_2 _ _ _ Hj)).
Qed.

Lemma lookup_loop_resolves fuel n walked path s :
  (length path < fuel)%nat → names_fit (components path) → walked = true ∨ components path ≠ [] →
  ∃ r s', lookup_loop fuel n walked path s = Ret (r, s') ∧ resolves s n (components path) r s'.
Proof.
  revert n walked path s. induction fuel as [|f IH]; intros n walked path s Hf Hn Hw; [lia|].
  simpl. pose proof (skipelem_spec path) as Hsk. destruct (skipelem path) as [[e r]|].
  - destruct Hsk as (e' & He & Hc & -> & Hr & Hl). rewrite Hc in *. apply Forall_cons in Hn as [He' Hn]. rewrite (take_ge e') by lia.
    rewrite (bind_Ret (gets id) _ s s s) by done. destruct (has (n_type (nodes s) n) VFS_DIR) eqn:Hdir; simpl; [|exists 0, s; split; [done|by constructor]].
    pose proof (find_mount_point (mounts s) n e') as Hm. unfold step_into, vfs_lookup_mount. rewrite bind_assoc, bind_gets, bind_assoc.
    rewrite (bind_Ret (gets id) _ s s s) by done. destruct (decide (find_mount (mounts s) n e' = 0)) as [H0|H0].
    + rewrite H0 in Hm. destruct (has_lookup (nodes s) n) eqn:Hlk.
      * destruct (op_lookup_law n e' (nodes s)) as (c & n' & Hop & _).
        rewrite (bind_Ret _ _ s c (set_nodes n' s)) by (by apply zoom_Ret).
        destruct (decide (c = 0)) as [->|Hc0]; [exists 0, (set_nodes n' s); split; [done|by apply Res_no_entry]|].
        destruct (IH c true r (set_nodes n' s)) as (x & s' & Hrun & Hres); [lia|done|by left|].
        exists x, s'. split; [done|]. by eapply Res_entry.
      * exists 0, s. split; [done|by apply Res_no_lookup].
    + rewrite (bind_Ret (mret _) _ s (find_mount (mounts s) n e') s) by done. rewrite decide_False by done.
      destruct (IH (find_mount (mounts s) n e') true r s) as (x & s' & Hrun & Hres); [lia|done|by left|].
      exists x, s'. split; [done|]. by eapply Res_mounted.
  - destruct Hw as [->|Hw]; [|done]. rewrite Hsk. exists n, s. split; [done|constructor].
Qed.

(** [s'] is [s] with other node state, in which the references to node [i]
    have changed by [d i]. *)
Definition refs_by (s s' : st) (d : Z → Z) : Prop :=
  vfs_root s' = vfs_root s ∧ mounts s' = mounts s ∧
  ∀ i, held (nodes s') i = held (nodes s) i + d i.

(** One reference to [n], none if [n] is 0. *)
Definition one (n i : Z) : Z := if decide (n ≠ 0 ∧ i = n) then 1 else 0.

Lemma refs_by_refl s : refs_by s s (λ _, 0).
Proof. split; [done|]. split; [done|]. intros i. lia. Qed.

Lemma refs_by_trans s1 s2 s3 d1 d2 d3 :
  refs_by s1 s2 d1 → refs_by s2 s3 d2 → (∀ i, d3 i = d1 i + d2 i) → refs_by s1 s3 d3.
Proof.
  intros (R1 & M1 & H1) (R2 & M2 & H2) Hd. split; [congruence|]. split; [congruence|].
  intros i. rewrite H2, H1, Hd. lia.
Qed.

Lemma op_lookup_run d nm s :
  ∃ r s', on_nodes (op_lookup d nm) s = Ret (r, s') ∧ refs_by s s' (one r).
Proof.
  destruct (op_lookup_law d nm (nodes s)) as (r & n' & Hl & Hh).
  exists r, (set_nodes n' s). split; [by apply zoom_Ret|]. done.
Qed.

Lemma step_into_run d nm s :
  ∃ r s', step_into d nm s = Ret (r, s') ∧
    refs_by s s' (if decide (find_mount (mounts s) d nm = 0) then one r else λ _, 0).
Proof.
  unfold step_into, vfs_lookup_mount. kunfold.
  destruct (decide (find_mount (mounts s) d nm = 0)) as [Hm|Hm].
  - destruct (has_lookup (nodes s) d); [apply op_lookup_run|].
    exists 0, s. split; [done|]. destruct (refs_by_refl s) as (? & ? & Hi). split; [done|]. split; [done|].
    intros i. unfold one. rewrite decide_False by naive_solver. lia.
  - eexists _, s. split; [done|]. apply refs_by_refl.
Qed.

Lemma put_owned_run n s :
  (n ≠ 0 → held (nodes s) n > 0) →
  ∃ s', put_owned n s = Ret (tt, s') ∧ refs_by s s' (λ i, - one n i).
Proof.
  intros Hn. unfold put_owned. destruct (decide (n ≠ 0)) as [H0|H0].
  - destruct (vfs_iput_law n (nodes s) (Hn H0)) as (n' & Hi & Hh).
    exists (set_nodes n' s). split; [by apply zoom_Ret|]. split; [done|]. split; [done|].
    intros i. simpl. rewrite Hh. unfold one. repeat case_decide; naive_solver lia.
  - exists s. split; [done|]. split; [done|]. split; [done|]. intros i. unfold one.
    rewrite decide_False by naive_solver. lia.
Qed.

(** No negative reference counts. *)
Definition refs_ok (s : st) : Prop := ∀ i, 0 ≤ held (nodes s) i.

(** A leaf action that gives back the reference it is handed, and nothing
    else, at a name no mount hides. *)
Definition leaf_balanced (leaf : Z → Z → cstring → K st Z) : Prop :=
  ∀ current owned name s, find_mount (mounts s) current name = 0 → elem_ok name →
    (length name ≤ max_str)%nat → n_type (nodes s) current = VFS_DIR → refs_ok s →
    (owned ≠ 0 → held (nodes s) owned > 0) →
    ∃ r s', leaf current owned name s = Ret (r, s') ∧ refs_by s s' (λ i, - one owned i).

Lemma one_range n i : 0 ≤ one n i ≤ 1.
Proof. unfold one. case_decide; lia. Qed.
Lemma one_cases n i : one n i = 0 ∨ n ≠ 0 ∧ i = n ∧ one n i = 1.
Proof. unfold one. case_decide; naive_solver. Qed.
Lemma one_same n : n ≠ 0 → one n n = 1.
Proof. intros Hn. unfold one. by rewrite decide_True. Qed.
Lemma one_zero i : one 0 i = 0.
Proof. unfold one. rewrite decide_False; naive_solver. Qed.

Lemma refs_ok_take s s' r : refs_ok s → refs_by s s' (one r) → refs_ok s' ∧ (r ≠ 0 → held (nodes s') r > 0).
Proof.
  intros Hok (_ & _ & Hh). split.
  - intros i. rewrite Hh. specialize (Hok i). pose proof (one_range r i). lia.
  - intros Hr. rewrite Hh, one_same by done. specialize (Hok r). lia.
Qed.

Lemma refs_ok_put s s' n :
  refs_ok s → (n ≠ 0 → held (nodes s) n > 0) → refs_by s s' (λ i, - one n i) → refs_ok s'.
Proof.
  intros Hok Hn (_ & _ & Hh) i. rewrite Hh. specialize (Hok i). unfold one. case_decide as Hd; [|lia].
  destruct Hd as [Hd ->]. specialize (Hn Hd). lia.
Qed.

(** An error return: a looked-up child is put back, then the owned directory. *)
Lemma put_both_run child owned (co : bool) s0 s1 (e : Z) :
  refs_ok s0 → (owned ≠ 0 → held (nodes s0) owned > 0) →
  refs_by s0 s1 (if co then one child else λ _, 0) → (co = true → child ≠ 0) →
  ∃ s', ((if co then on_nodes (vfs_iput child) else mret tt) ;; put_owned owned ;; mret e : K st Z) s1 = Ret (e, s') ∧
    refs_by s0 s' (λ i, - one owned i).
Proof.
  intros Hok Ho Hb Hc.
  assert (∃ s2, (if co then on_nodes (vfs_iput child) else mret tt) s1 = Ret (tt, s2) ∧ refs_by s0 s2 (λ _, 0))
    as (s2 & Hr2 & Hb2).
  { destruct co.
    - specialize (Hc eq_refl). destruct (refs_ok_take s0 s1 child Hok Hb) as [Hok1 Hh1].
      destruct (put_owned_run child s1 Hh1) as (s2 & Hrun & Hb2). unfold put_owned in Hrun.
      rewrite decide_True in Hrun by done. exists s2. split; [done|].
      eapply refs_by_trans; [exact Hb|exact Hb2|]. intros i; simpl; lia.
    - exists s1. split; [done|]. done. }
  rewrite (bind_Ret _ _ _ _ _ Hr2).
  destruct (put_owned_run owned s2) as (s3 & Hr3 & Hb3).
  { intros Hn. destruct Hb2 as (_ & _ & Hh2). rewrite Hh2. specialize (Ho Hn). lia. }
  rewrite (bind_Ret _ _ _ _ _ Hr3). exists s3. split; [done|].
  eapply refs_by_trans; [exact Hb2|exact Hb3|]. intros i; simpl; lia.
Qed.

Lemma put_error owned s (e : Z) :
  refs_ok s → (owned ≠ 0 → held (nodes s) owned > 0) →
  ∃ r s', (put_owned owned ;; mret e : K st Z) s = Ret (r, s') ∧ refs_by s s' (λ i, - one owned i).
Proof.
  intros Hok Ho. destruct (put_owned_run owned s Ho) as (s' & Hr & Hb).
  exists e, s'. by rewrite (bind_Ret _ _ _ _ _ Hr).
Qed.

Lemma at_loop_balanced leaf bottom fuel current owned path s :
  leaf_balanced leaf → (length path < fuel)%nat → names_fit (components path) →
  (∀ d nm, last (components path) = Some nm → find_mount (mounts s) d nm = 0) →
  refs_ok s → (owned ≠ 0 → held (nodes s) owned > 0) →
  ∃ r s', at_loop fuel leaf bottom current owned path s = Ret (r, s') ∧ refs_by s s' (λ i, - one owned i).
Proof.
  intros Hleaf. revert current owned path s.
  induction fuel as [|f IH]; intros current owned path s Hf Hn Hm Hok Ho; [lia|]. simpl.
  pose proof (skipelem_spec path) as Hsk. destruct (skipelem path) as [[e next]|]; [|by apply put_error].
  destruct Hsk as (e' & He & Hc & -> & Hr & Hl). rewrite Hc in Hn, Hm.
  apply Forall_cons in Hn as [He' Hn]. rewrite (take_ge e') by lia.
  rewrite (bind_Ret (gets id) _ _ s s) by done.
  destruct (decide (n_type (nodes s) current ≠ VFS_DIR)) as [Ht|Ht]; [by apply put_error|].
  apply dec_stable in Ht. destruct (decide (next = [])) as [->|Hnext].
  { apply Hleaf; try done. by apply Hm. }
  unfold vfs_lookup_mount. rewrite (bind_Ret (gets _) _ _ (find_mount (mounts s) current e') s) by done.
  set (m := find_mount (mounts s) current e').
  destruct (bool_decide (m = 0) && negb (has_lookup (nodes s) current)) eqn:Eb; [by apply put_error|].
  assert (∃ child s1, (if decide (m = 0) then on_nodes (op_lookup current e') else mret m) s = Ret (child, s1) ∧
    refs_by s s1 (if bool_decide (m = 0 ∧ child ≠ 0) then one child else λ _, 0) ∧ (m ≠ 0 → child = m))
    as (child & s1 & Hr1 & Hb1 & Hcm).
  { destruct (decide (m = 0)) as [Hm0|Hm0].
    - destruct (op_lookup_run current e' s) as (child & s1 & Hr1 & Hb1). exists child, s1. split; [done|].
      split; [|done]. destruct (decide (child = 0)) as [->|Hch].
      + rewrite bool_decide_eq_false_2 by naive_solver. destruct Hb1 as (? & ? & Hh). split; [done|].
        split; [done|]. intros i. rewrite Hh, one_zero. done.
      + by rewrite bool_decide_eq_true_2.
    - exists m, s. split; [done|]. rewrite bool_decide_eq_false_2 by naive_solver. split; [|done].
      apply refs_by_refl. }
  rewrite (bind_Ret _ _ _ _ _ Hr1). set (co := bool_decide (m = 0 ∧ child ≠ 0)) in *.
  assert (Hco : co = true → child ≠ 0) by (unfold co; intros [_ ?]%bool_decide_eq_true; done).
  rewrite (bind_Ret (gets id) _ _ s1 s1) by done.
  destruct (decide (child = 0 ∨ n_type (nodes s1) child ≠ VFS_DIR)) as [Herr|Hgo].
  { destruct (put_both_run child owned co s s1 (if decide (child = 0) then - ENOENT else - ENOTDIR))
      as (s' & Hrun & Hb); [done..|]. eexists _, s'. by split. }
  destruct (put_owned_run owned s1) as (s2 & Hr2 & Hb2).
  { intros Hn0. destruct Hb1 as (_ & _ & Hh). rewrite Hh. specialize (Ho Hn0).
    destruct co; [pose proof (one_range child owned)|]; lia. }
  rewrite (bind_Ret _ _ _ _ _ Hr2).
  assert (Hb12 : refs_by s s2 (λ i, one (if co then child else 0) i - one owned i)).
  { eapply refs_by_trans; [exact Hb1|exact Hb2|]. intros i; simpl. destruct co; rewrite ?one_zero; lia. }
  pose proof Hb12 as (HR12 & HM12 & HH12).
  destruct (IH child (if co then child else 0) next s2) as (r & s' & Hrun & Hb3).
  - lia.
  - done.
  - intros d nm Hnm. rewrite HM12. apply Hm. destruct (components next); [done|]. done.
  - intros i. rewrite HH12. specialize (Hok i). pose proof (one_range (if co then child else 0) i).
    destruct (one_cases owned i) as [Hz|(Hd & -> & Hz)]; simpl; rewrite Hz; [lia|]. specialize (Ho Hd). lia.
  - intros Hch. rewrite HH12, one_same by done. destruct co; [|done].
    destruct (one_cases owned child) as [Hz|(Hd & -> & Hz)]; rewrite Hz; [specialize (Hok child); lia|].
    specialize (Ho Hd). lia.
  - exists r, s'. split; [done|]. eapply refs_by_trans; [exact Hb12|exact Hb3|]. intros i; simpl; lia.
Qed.

(** Looking up one visible name. *)
Lemma lookup_name_run current name s :
  elem_ok name → (length name ≤ max_str)%nat → n_type (nodes s) current = VFS_DIR →
  find_mount (mounts s) current name = 0 →
  ∃ r s', vfs_lookup_at current name s = Ret (r, s') ∧ refs_by s s' (one r).
Proof.
  intros He Hl Ht Hm. unfold vfs_lookup_at.
  destruct (lookup_loop_resolves (S (length name)) current false name s) as (r & s' & Hrun & Hres);
    [lia|rewrite components_elem by done; by constructor|right; by rewrite components_elem|].
  exists r, s'. split; [done|]. rewrite components_elem in Hres by done.
  inversion Hres as [|? ? ? ? Hd|? ? ? ? root ? ? _ Hmp Hr0 _|? ? ? ? c n' ? ? _ _ _ Hop Hc0 Hend|? ? ? ? n' _ _ _ Hop|? ? ? ? _ _ _]; subst.
  - by rewrite Ht in Hd.
  - apply mount_point_eq in Hmp. congruence.
  - inversion Hend; subst. destruct (op_lookup_law current name (nodes s)) as (c' & n2 & Hop' & Hh). rewrite Hop in Hop'. by injection Hop' as <- <-.
  - destruct (op_lookup_law current name (nodes s)) as (c' & n2 & Hop' & Hh). rewrite Hop in Hop'. by injection Hop' as <- <-.
  - destruct (refs_by_refl s') as (? & ? & Hi). split; [done|]. split; [done|]. intros i. unfold one. rewrite decide_False by naive_solver. lia.
Qed.

Lemma mkdir_leaf_balanced : leaf_balanced mkdir_leaf.
Proof.
  intros current owned name s Hm He Hl Ht Hok Ho. unfold mkdir_leaf.
  rewrite (bind_Ret (gets id) _ _ s s) by done. destruct (negb _); [by apply put_error|].
  destruct (lookup_name_run current name s He Hl Ht Hm) as (ex & s1 & Hr1 & Hb1).
  rewrite (bind_Ret _ _ _ _ _ Hr1). destruct (decide (ex ≠ 0)) as [Hex|Hex].
  - destruct (put_both_run ex owned true s s1 (- EEXIST)) as (s' & Hrun & Hb); [done..|].
    exists (- EEXIST), s'. by split.
  - apply dec_stable in Hex. subst ex.
    destruct (op_mkdir_law current name 0 (nodes s1)) as (r & n2 & Hr2 & Hh2).
    rewrite (bind_Ret _ _ _ r (set_nodes n2 s1)) by (by apply zoom_Ret).
    assert (Hb2 : refs_by s (set_nodes n2 s1) (λ _, 0)).
    { destruct Hb1 as (R1 & M1 & H1). split; [done|]. split; [done|]. intros i. simpl.
      rewrite Hh2, H1, one_zero. lia. }
    destruct (put_owned_run owned (set_nodes n2 s1)) as (s' & Hr3 & Hb3).
    { intros Hn. destruct Hb2 as (_ & _ & ->). specialize (Ho Hn). lia. }
    rewrite (bind_Ret _ _ _ _ _ Hr3). exists r, s'. split; [done|].
    eapply refs_by_trans; [exact Hb2|exact Hb3|]. intros i; simpl; lia.
Qed.

Lemma unlink_leaf_balanced : leaf_balanced unlink_leaf.
Proof.
  intros current owned name s Hm He Hl Ht Hok Ho. unfold unlink_leaf.
  rewrite (bind_Ret (gets id) _ _ s s) by done. destruct (negb _); [by apply put_error|].
  destruct (lookup_name_run current name s He Hl Ht Hm) as (ex & s1 & Hr1 & Hb1).
  rewrite (bind_Ret _ _ _ _ _ Hr1). rewrite (bind_Ret (gets id) _ _ s1 s1) by done.
  destruct (refs_ok_take s s1 ex Hok Hb1) as [Hok1 Hex1].
  destruct (put_owned_run ex s1 Hex1) as (s2 & Hr2 & Hb2).
  assert (Hb02 : refs_by s s2 (λ _, 0)).
  { eapply refs_by_trans; [exact Hb1|exact Hb2|]. intros i; simpl; lia. }
  assert (Ho2 : ∀ s3, refs_by s2 s3 (λ _, 0) → owned ≠ 0 → held (nodes s3) owned > 0).
  { intros s3 (_ & _ & H3) Hn. rewrite H3. destruct Hb02 as (_ & _ & ->). specialize (Ho Hn). lia. }
  case_decide as Herr.
  - rewrite (bind_Ret _ _ _ _ _ Hr2).
    destruct (put_owned_run owned s2 (Ho2 s2 (refs_by_refl s2))) as (s' & Hr3 & Hb3).
    rewrite (bind_Ret _ _ _ _ _ Hr3). eexists _, s'. split; [done|].
    eapply refs_by_trans; [exact Hb02|exact Hb3|]. intros i; simpl; lia.
  - unfold put_owned in Hr2. rewrite decide_True in Hr2 by naive_solver.
    rewrite (bind_Ret _ _ _ _ _ Hr2).
    destruct (op_unlink_law current name (nodes s2)) as (r & n3 & Hr3 & Hh3).
    rewrite (bind_Ret _ _ _ r (set_nodes n3 s2)) by (by apply zoom_Ret).
    assert (Hb3 : refs_by s2 (set_nodes n3 s2) (λ _, 0)).
    { split; [done|]. split; [done|]. intros i. simpl. rewrite Hh3. lia. }
    destruct (put_owned_run owned (set_nodes n3 s2) (Ho2 _ Hb3)) as (s' & Hr4 & Hb4).
    rewrite (bind_Ret _ _ _ _ _ Hr4). exists r, s'. split; [done|].
    eapply refs_by_trans; [exact Hb02|eapply refs_by_trans; [exact Hb3|exact Hb4|]; intros i; reflexivity|].
    intros i; simpl; lia.
Qed.

Lemma find_mount_empty l d nm : Forall (λ m, m_root m = 0) l → find_mount l d nm = 0.
Proof. induction 1 as [|m l Hm Hl IH]; simpl; [done|]. by case_match. Qed.

Lemma find_mount_slot l m l' parent name :
  mount_slot l m = Some l' → m_parent m ≠ 0 → Forall (λ m0, m_root m0 = 0 → m_parent m0 = 0) l →
  existsb (λ m0, bool_decide (m_parent m0 = m_parent m) && name_eq (m_name m0) (m_name m)) l = false →
  parent ≠ 0 →
  find_mount l' parent name =
  if bool_decide (m_parent m = parent) && name_eq (m_name m) name then m_root m else find_mount l parent name.
Proof.
  intros Hs Hp Hf Hex Hpar. revert l' Hs. induction Hf as [|m0 l H0 Hf IH]; intros l' Hs; simpl in *; [done|].
  apply orb_false_iff in Hex as [Hm0 Hex]. case_decide as Hr.
  - injection Hs as <-. simpl. rewrite (bool_decide_eq_false_2 (m_parent m0 = parent)) by (rewrite (H0 Hr); done).
    done.
  - destruct (mount_slot l m) as [l1|] eqn:E; [|done]. simpl in Hs. injection Hs as <-. simpl.
    rewrite (IH Hex l1 eq_refl).
    destruct (bool_decide (m_parent m0 = parent) && name_eq (m_name m0) name) eqn:E0; [|done].
    destruct (bool_decide (m_parent m = parent) && name_eq (m_name m) name) eqn:E1; [|done].
    exfalso. apply andb_true_iff in E0 as [E0p%bool_decide_eq_true E0n], E1 as [E1p%bool_decide_eq_true E1n].
    unfold name_eq in *. apply bool_decide_eq_true in E0n, E1n.
    rewrite bool_decide_eq_true_2 in Hm0 by congruence. rewrite bool_decide_eq_true_2 in Hm0 by congruence. done.
Qed.

(** * Theorems *)


(** vfs_unlink_at and vfs_mkdir_at release every directory reference they
    take when the last component is not a mount point: the counts of all
    inodes are those before the call. *)
Theorem vfs_at_balanced dir path s :
  refs_ok s → names_fit (components path) →
  (∀ d nm, last (components path) = Some nm → find_mount (mounts s) d nm = 0) →
  (∃ r s', vfs_unlink_at dir path s = Ret (r, s') ∧ ∀ i, held (nodes s') i = held (nodes s) i) ∧
  (∃ r s', vfs_mkdir_at dir path s = Ret (r, s') ∧ ∀ i, held (nodes s') i = held (nodes s) i).
Proof.
  intros Hok Hn Hm. split; [unfold vfs_unlink_at|unfold vfs_mkdir_at].
  - case_decide; [by eexists _, s|]. rewrite (bind_Ret (gets vfs_root) _ _ (vfs_root s) s) by done.
    edestruct (at_loop_balanced unlink_leaf (- EBUSY) (S (length path))
      (if decide (head path = Some SLASH) then vfs_root s else dir) 0 path s unlink_leaf_balanced)
      as (r & s' & Hrun & _ & _ & Hh); [lia|done..|].
    exists r, s'. split; [done|]. intros i. rewrite Hh, one_zero. lia.
  - case_decide; [by eexists _, s|]. rewrite (bind_Ret (gets vfs_root) _ _ (vfs_root s) s) by done.
    edestruct (at_loop_balanced mkdir_leaf (- EEXIST) (S (length path))
      (if decide (head path = Some SLASH) then vfs_root s else dir) 0 path s mkdir_leaf_balanced)
      as (r & s' & Hrun & _ & _ & Hh); [lia|done..|].
    exists r, s'. split; [done|]. intros i. rewrite Hh, one_zero. lia.
Qed.

(** A successful mount makes the new root answer for exactly that parent
    and name, and changes no other mount. *)
Theorem vfs_mount_at_spec parent name root s s' :
  Forall (λ m0, m_root m0 = 0 → m_parent m0 = 0) (mounts s) →
  vfs_mount_at parent name root s = Ret (0, s') →
  vfs_root s' = vfs_root s ∧ nodes s' = nodes s ∧ length (mounts s') = length (mounts s) ∧
  ∀ d nm, d ≠ 0 → find_mount (mounts s') d nm =
    if bool_decide (parent = d) && name_eq name nm then root else find_mount (mounts s) d nm.
Proof.
  intros Hf. unfold vfs_mount_at. destruct (decide (root = 0 ∨ parent = 0)) as [?|Hrp]; [done|].
  case_decide; [done|]. case_decide; [done|]. destruct (decide (DIRSIZ ≤ _)) as [?|Hlen]; [done|].
  kunfold. destruct (existsb _ _) eqn:Ex; [done|].
  destruct (mount_slot (mounts s) (mk_mount (take 23 name) root parent)) as [l|] eqn:Em; [|done].
  intros [= <-]. simpl. split; [done|]. split; [done|].
  assert (Htk : take 23 name = name) by (apply take_ge; unfold DIRSIZ in Hlen; lia).
  rewrite Htk in Em. split.
  - clear -Em. revert l Em. induction (mounts s) as [|m0 l0 IH]; intros l Em; simpl in *; [done|].
    case_decide; [by injection Em as <-|]. destruct (mount_slot l0 _) as [l1|]; [|done].
    simpl in Em. injection Em as <-. simpl. by rewrite (IH l1 eq_refl).
  - intros d nm Hd. by rewrite (find_mount_slot _ _ _ d nm Em) by naive_solver.
Qed.
End vfs.

(** ** Concrete backend: a tree with reference counts *)
Record tree_fs := mk_tree_fs {
  tf_child : gmap (Z * cstring) Z;
  tf_type : gmap Z Z;
  tf_refs : gmap Z Z
}.
Definition tf_add (i d : Z) (t : tree_fs) : tree_fs :=
  mk_tree_fs (tf_child t) (tf_type t) (<[i := default 0 (tf_refs t !! i) + d]> (tf_refs t)).
#[local] Instance tree_backend : Backend tree_fs.
Proof.
  refine {| n_type := λ t i, default 0 (tf_type t !! i);
    has_lookup := λ _ _, true; has_create := λ _ _, false; has_mkdir := λ _ _, true; has_unlink := λ _ _, true;
    op_lookup := λ d nm t, match tf_child t !! (d, nm) with
                           | Some c => if decide (c = 0) then Ret (0, t) else Ret (c, tf_add c 1 t)
                           | None => Ret (0, t) end;
    op_create := λ _ _ _ t, Ret (-1, t);
    op_mkdir := λ d nm _ t, Ret (0, t);
    op_unlink := λ d nm t, Ret (0, mk_tree_fs (delete (d, nm) (tf_child t)) (tf_type t) (tf_refs t));
    vfs_iput := λ i t, Ret (tt, tf_add i (-1) t);
    count_inc := λ i t, tf_add i 1 t;
    held := λ t i, default 0 (tf_refs t !! i) |}.
  - intros d nm t. destruct (tf_child t !! (d, nm)) as [c|]; [destruct (decide (c = 0)) as [->|Hc]|].
    + exists 0, t. split; [done|]. intros i. rewrite decide_False by naive_solver. lia.
    + exists c, (tf_add c 1 t). split; [done|]. intros i. simpl. rewrite lookup_insert.
      repeat case_decide; naive_solver lia.
    + exists 0, t. split; [done|]. intros i. rewrite decide_False by naive_solver. lia.
  - intros d nm m t. by exists 0, t.
  - intros d nm t. eexists _, _. split; [done|]. done.
  - intros d t _. eexists. split; [done|]. intros i. simpl. rewrite lookup_insert. repeat case_decide; naive_solver lia.
  - intros d t i. simpl. rewrite lookup_insert. repeat case_decide; naive_solver lia.
Defined.

(** Root 1 with directory "a" (2) holding file "f" (3). *)
Definition demo_tree : tree_fs :=
  mk_tree_fs {[ (1, [97]) := 2; (2, [102]) := 3 ]} {[ 1 := VFS_DIR; 2 := VFS_DIR; 3 := VFS_FILE ]} {[ 1 := 1 ]}.
Definition demo_vfs : vfs tree_fs := mk_vfs 1 (replicate 8 (mk_mount [] 0 0)) demo_tree.


Lemma vfs_at_balanced_witness :
  ∃ r s', vfs_unlink_at 1 [97; 47; 102] demo_vfs = Ret (r, s') ∧ held (nodes s') 2 = 0.
Proof.
  destruct (vfs_at_balanced 1 [97; 47; 102] demo_vfs) as [(r & s' & H1 & H2) _].
  - intros i. simpl. destruct (decide (i = 1)) as [->|]; [done|]. by rewrite lookup_singleton_ne.
  - by apply (bool_decide_unpack _); vm_compute.
  - intros d nm _. apply find_mount_empty. by apply Forall_replicate.
  - exists r, s'. split; [done|]. by rewrite H2.
Defined.

Lemma vfs_mount_at_spec_witness :
  ∃ s', vfs_mount_at 1 [100] 9 demo_vfs = Ret (0, s') ∧ find_mount (mounts s') 1 [100] = 9.
Proof.
  destruct (vfs_mount_at 1 [100] 9 demo_vfs) as [[r s']| | |] eqn:E; try (vm_compute in E; discriminate).
  assert (r = 0) as -> by (vm_compute in E; by injection E as <-).
  exists s'. split; [done|].
  destruct (vfs_mount_at_spec 1 [100] 9 demo_vfs s') as (_ & _ & _ & Hf); [by apply Forall_replicate|done|].
  by rewrite Hf.
Defined.

(** Opening and closing a file leaves a reference to every directory on the way. *)
Lemma lookup_leaks_directories :
  ∃ s1 s2, vfs_lookup_at 1 [97; 47; 102] demo_vfs = Ret (3, s1) ∧
    on_nodes (vfs_iput 3) s1 = Ret (tt, s2) ∧ held (nodes s2) 3 = 0 ∧ held (nodes s2) 2 = 1.
Proof. vm_compute. eexists _, _. split; [reflexivity|]. split; [reflexivity|]. done. Qed.
