(* ===== verification/File.v ===== *)
(** kernel/core/file.c, the descriptor half of kernel/core/sysfile.c and
    proc.c (fd_alloc, alloc_fd, the descriptor loops of fork and exit), and
    pipe_alloc of kernel/core/pipe.c: the open file table.

    [ofile] holds the descriptor tables of all processes, descriptor [fd] of
    process [p] at index [p * 128 + fd].  A reference to a file is a table
    entry or one the kernel holds itself (a VMA, a pointer on its way into a
    table).  Inodes are the class [FileNodes]; pipes are the ring buffers of
    Pipe. *)
From S2P Require Import Prelude Path Pipe Vfs.

Definition NPROC : Z := 64.
Definition KERNEL_MAX_FILES : Z := 128.
Definition PROCESS_MAX_OPEN_FILES : Z := 128.

(** include/kernel/fcntl.h *)
Definition O_RDONLY : Z := 0x000.
Definition O_WRONLY : Z := 0x001.
Definition O_RDWR : Z := 0x002.
Definition O_ACCMODE : Z := 0x003.
Definition O_CREAT : Z := 0x040.
Definition O_TRUNC : Z := 0x200.
Definition O_APPEND : Z := 0x400.
Definition SEEK_SET : Z := 0.
Definition SEEK_CUR : Z := 1.
Definition SEEK_END : Z := 2.

Inductive file_type := FILE_NONE | FILE_VFS_NODE | FILE_PIPE.
#[global] Instance file_type_eq_dec : EqDecision file_type.
Proof. solve_decision. Defined.

Record file := mk_file {
  f_type : file_type;
  ref_count : Z;
  f_offset : Z;
  f_readable : Z;
  f_writable : Z;
  f_append : Z;
  f_node : Z;
  f_pipe : Z
}.
Definition file_zero : file := mk_file FILE_NONE 0 0 0 0 0 0 0.

(** What the file layer uses of inodes. *)
Class FileNodes (N : Type) := {
  fn_root : N → Z;
  fn_lookup_at : Z → cstring → K N Z;
  fn_create_at : Z → cstring → Z → K N Z;
  fn_type : N → Z → Z;
  fn_size : N → Z → Z;
  fn_has_truncate : N → Z → bool;
  fn_truncate : Z → Z → K N Z;
  fn_iput : Z → K N unit
}.

(** Inodes whose operations return: iput, and the ones open calls. *)
Class FileNodesPut (N : Type) `{FileNodes N} := {
  fn_iput_total n s : ∃ s', fn_iput n s = Ret (tt, s')
}.
Class FileNodesTotal (N : Type) `{FileNodes N} := {
  fn_lookup_total n path s : ∃ r s', fn_lookup_at n path s = Ret (r, s');
  fn_create_total n path t s : ∃ r s', fn_create_at n path t s = Ret (r, s');
  fn_truncate_total n k s : ∃ r s', fn_truncate n k s = Ret (r, s')
}.

Record fstate (N : Type) := mk_fstate {
  ftable : list file;
  ofile : list (option nat);         (* 0 is None, &ftable[i] is Some i *)
  pipes : gmap Z pipe;
  fnodes : N;
  cwds : list cstring;               (* p->cwd *)
  ftable_lock : bool
}.
Arguments mk_fstate {_} _ _ _ _ _ _.
Arguments ftable {_} _.
Arguments ofile {_} _.
Arguments pipes {_} _.
Arguments fnodes {_} _.
Arguments cwds {_} _.
Arguments ftable_lock {_} _.

Section file.
Context {N : Type} {FN : FileNodes N} {FP : FileNodesPut N} {FT : FileNodesTotal N}.
Abbreviation st := (fstate N).

Definition set_ftable l (s : st) : st := mk_fstate l (ofile s) (pipes s) (fnodes s) (cwds s) (ftable_lock s).
Definition set_ofile l (s : st) : st := mk_fstate (ftable s) l (pipes s) (fnodes s) (cwds s) (ftable_lock s).
Definition set_pipes m (s : st) : st := mk_fstate (ftable s) (ofile s) m (fnodes s) (cwds s) (ftable_lock s).
Definition set_fnodes n (s : st) : st := mk_fstate (ftable s) (ofile s) (pipes s) n (cwds s) (ftable_lock s).
Definition set_ftable_lock b (s : st) : st := mk_fstate (ftable s) (ofile s) (pipes s) (fnodes s) (cwds s) b.
Definition on_fnodes {A} (m : K N A) : K st A := zoom fnodes set_fnodes m.
Definition acquire_ft : K st unit := acquire ftable_lock set_ftable_lock.
Definition release_ft : K st unit := release ftable_lock set_ftable_lock.

Definition no_fuel {A} : K st A := λ _, NoFuel.

(** [ftable[i]] *)
Definition get_file (i : nat) : K st file := λ s,
  match ftable s !! i with Some f => Ret (f, s) | None => Fault end.
Definition put_file (i : nat) (f : file) : K st unit := modify (λ s, set_ftable (<[i := f]> (ftable s)) s).
Definition set_ref_count (n : Z) (f : file) : file :=
  mk_file (f_type f) n (f_offset f) (f_readable f) (f_writable f) (f_append f) (f_node f) (f_pipe f).

(** [proc[p].ofile[fd]], with its bounds. *)
Definition fd_slot (p fd : Z) : nat := Z.to_nat (p * PROCESS_MAX_OPEN_FILES + fd).
Definition fd_ok (fd : Z) : bool := bool_decide (0 ≤ fd < PROCESS_MAX_OPEN_FILES).
Definition get_fd (p fd : Z) : K st (option nat) := λ s,
  match ofile s !! fd_slot p fd with Some o => Ret (o, s) | None => Fault end.
Definition put_fd (p fd : Z) (o : option nat) : K st unit :=
  modify (λ s, set_ofile (<[fd_slot p fd := o]> (ofile s)) s).

(** ** Allocation and reference counts *)

(** The index of the first free entry, the C loops over ftable. *)
Definition free_slot (l : list file) : option nat :=
  fst <$> list_find (λ f, ref_count f = 0) l.

Definition fd_alloc : K st Z := gets (λ s, match free_slot (ftable s) with Some i => Z.of_nat i | None => -1 end).

Definition filealloc : K st (option nat) :=
  acquire_ft ;;
  l ← gets ftable;
  match free_slot l with
  | Some i =>
      f ← get_file i;
      put_file i (set_ref_count (i32 (ref_count f + 1)) f) ;;
      release_ft ;; mret (Some i)
  | None => release_ft ;; mret None
  end.

Definition filedup (i : nat) : K st nat :=
  acquire_ft ;;
  f ← get_file i;
  (if decide (ref_count f < 1) then kpanic "filedup" else mret tt) ;;
  put_file i (set_ref_count (i32 (ref_count f + 1)) f) ;;
  release_ft ;;
  mret i.

(** pipe_close on the pipe at address [pi]; a freed pipe leaves the map. *)
Definition close_pipe (pi w : Z) : K st unit := λ s,
  match pipes s !! pi with
  | None => Fault
  | Some p =>
      match pipe_close w (mk_pipe_st p tt []) with
      | Ret (freed, ps) =>
          Ret (tt, set_pipes (if freed : bool then delete pi (pipes s) else <[pi := the_pipe ps]> (pipes s)) s)
      | Panic why => Panic why
      | Fault => Fault
      | NoFuel => NoFuel
      end
  end.

Definition fileclose (i : nat) : K st unit :=
  acquire_ft ;;
  f ← get_file i;
  (if decide (ref_count f < 1) then kpanic "fileclose" else mret tt) ;;
  let n := i32 (ref_count f - 1) in
  put_file i (set_ref_count n f) ;;
  if decide (n > 0) then release_ft else
  put_file i (mk_file FILE_NONE n 0 0 0 (f_append f) 0 0) ;;
  release_ft ;;
  match f_type f with
  | FILE_PIPE => if decide (f_pipe f ≠ 0) then close_pipe (f_pipe f) (f_writable f) else mret tt
  | FILE_VFS_NODE => if decide (f_node f ≠ 0) then on_fnodes (fn_iput (f_node f)) else mret tt
  | FILE_NONE => mret tt
  end.

(** The lowest free descriptor of process [p] from [minfd] on. *)
Definition find_fd (p minfd : Z) (s : st) : option Z :=
  snd <$> list_find (λ fd, ofile s !! fd_slot p fd = Some None) (seqZ minfd (PROCESS_MAX_OPEN_FILES - minfd)).

Definition alloc_fd (p : Z) (i : nat) : K st Z :=
  r ← gets (find_fd p 0);
  match r with
  | Some fd => put_fd p fd (Some i) ;; mret fd
  | None => mret (-1)
  end.

Definition dup_from (p fd minfd : Z) : K st Z :=
  if negb (fd_ok minfd) then mret (- EINVAL) else
  if negb (fd_ok fd) then mret (- EBADF) else
  o ← get_fd p fd;
  match o with
  | None => mret (- EBADF)
  | Some i =>
      r ← gets (find_fd p minfd);
      match r with
      | None => mret (- EMFILE)
      | Some newfd =>
          acquire_ft ;;
          f ← get_file i;
          (if decide (ref_count f < 1) then kpanic "dup" else mret tt) ;;
          put_file i (set_ref_count (i32 (ref_count f + 1)) f) ;;
          release_ft ;;
          put_fd p newfd (Some i) ;;
          mret newfd
      end
  end.
Definition dup (p fd : Z) : K st Z := dup_from p fd 0.

Definition sys_close (p fd : Z) : K st Z :=
  if negb (fd_ok fd) then mret (- EBADF) else
  o ← get_fd p fd;
  match o with
  | None => mret (- EBADF)
  | Some i => put_fd p fd None ;; fileclose i ;; mret 0
  end.

Definition sys_dup3 (p oldfd newfd flags : Z) : K st Z :=
  if negb (fd_ok oldfd) then mret (- EBADF) else
  o ← get_fd p oldfd;
  match o with
  | None => mret (- EBADF)
  | Some old =>
      if negb (fd_ok newfd) then mret (- EBADF) else
      if decide (newfd = oldfd) then mret (- EINVAL) else
      if decide (flags ≠ 0) then mret (- EINVAL) else
      new ← get_fd p newfd;
      if decide (new = Some old) then mret newfd else
      acquire_ft ;;
      f ← get_file old;
      put_file old (set_ref_count (i32 (ref_count f + 1)) f) ;;
      release_ft ;;
      put_fd p newfd (Some old) ;;
      (match new with Some i => fileclose i | None => mret tt end) ;;
      mret newfd
  end.

(** The fcntl commands. *)
Definition sys_fcntl (p fd cmd arg : Z) : K st Z :=
  if negb (fd_ok fd) then mret (- EBADF) else
  o ← get_fd p fd;
  match o with
  | None => mret (- EBADF)
  | Some i =>
      if decide (cmd = 0 ∨ cmd = 1030) then
        if negb (fd_ok arg) then mret (- EINVAL) else dup_from p fd arg
      else if decide (cmd = 1 ∨ cmd = 2) then mret 0
      else if decide (cmd = 3) then
        f ← get_file i;
        let flags := if decide (f_readable f ≠ 0 ∧ f_writable f ≠ 0) then O_RDWR
                     else if decide (f_writable f ≠ 0) then O_WRONLY else O_RDONLY in
        mret (if decide (f_append f ≠ 0) then Z.lor flags O_APPEND else flags)
      else if decide (cmd = 4) then mret 0
      else mret (- EINVAL)
  end.

Definition sys_lseek (p fd off_raw whence : Z) : K st Z :=
  if negb (fd_ok fd) then mret (- EBADF) else
  o ← get_fd p fd;
  match o with
  | None => mret (- EBADF)
  | Some i =>
      f ← get_file i;
      n ← gets fnodes;
      if decide (f_type f = FILE_PIPE ∨ f_node f ≠ 0 ∧ fn_type n (f_node f) = VFS_DEV)
      then mret (- ESPIPE) else
      let off := i64 off_raw in
      match (if decide (whence = SEEK_SET) then Some off
             else if decide (whence = SEEK_CUR) then Some (i64 (f_offset f + off))
             else if decide (whence = SEEK_END) then
               if decide (f_node f = 0) then None else Some (i64 (fn_size n (f_node f) + off))
             else None) with
      | None => mret (- EINVAL)
      | Some next =>
          if decide (next < 0) then mret (- EINVAL) else
          put_file i (mk_file (f_type f) (ref_count f) (u64 next) (f_readable f) (f_writable f)
                        (f_append f) (f_node f) (f_pipe f)) ;;
          mret (u64 next)
      end
  end.

(** ** open *)

Definition open_flags_valid (flags : Z) : Z :=
  let mode := Z.land flags O_ACCMODE in
  if decide (mode ≠ O_RDONLY ∧ mode ≠ O_WRONLY ∧ mode ≠ O_RDWR) then - EINVAL
  else if has flags O_TRUNC && bool_decide (mode = O_RDONLY) then - EINVAL
  else 0.

(** The start inode and path of an open, or the error. *)
Definition resolve_open_path (p dirfd : Z) (path : cstring) : K st (Z + Z * cstring) :=
  n ← gets fnodes;
  if decide (head path = Some SLASH) then mret (inr (fn_root n, copy_path path)) else
  if decide (dirfd = -100) then
    cs ← gets cwds;
    match cs !! Z.to_nat p with
    | None => kfault
    | Some cwd =>
        match vfs_make_absolute_path cwd path with
        | None => no_fuel
        | Some full => mret (inr (fn_root n, full))
        end
    end
  else if negb (fd_ok dirfd) then mret (inl (- EBADF)) else
  o ← get_fd p dirfd;
  match o with
  | None => mret (inl (- EBADF))
  | Some i =>
      f ← get_file i;
      if decide (f_node f = 0 ∨ fn_type n (f_node f) ≠ VFS_DIR) then mret (inl (- ENOTDIR))
      else mret (inr (f_node f, copy_path path))
  end.

(** openat after the inode is found: the table entry and the descriptor. *)
Definition install_file (p node flags : Z) : K st Z :=
  let mode := Z.land flags O_ACCMODE in
  acquire_ft ;;
  id ← fd_alloc;
  if decide (id = -1) then release_ft ;; on_fnodes (fn_iput node) ;; mret (- ENFILE) else
  let i := Z.to_nat id in
  let app := if has flags O_APPEND then 1 else 0 in
  let r := if decide (mode = O_RDONLY) then 1 else if decide (mode = O_WRONLY) then 0 else 1 in
  let w := if decide (mode = O_RDONLY) then 0 else 1 in
  put_file i (mk_file FILE_VFS_NODE 1 0 r w app node 0) ;;
  release_ft ;;
  fd ← alloc_fd p i;
  if decide (fd < 0) then fileclose i ;; mret (- EMFILE) else mret fd.

(** The inode an open refers to: found, or created under O_CREAT. *)
Definition open_node (start : Z) (path : cstring) (flags : Z) : K st (Z + Z) :=
  found ← on_fnodes (fn_lookup_at start path);
  if decide (found ≠ 0) then mret (inr found) else
  if negb (has flags O_CREAT) then mret (inl (- ENOENT)) else
  c ← on_fnodes (fn_create_at start path VFS_FILE);
  mret (if decide (c = 0) then inl (- EIO) else inr c).

(** vfs_ilock and vfs_iunlock around truncate take and drop the inode's
    sleep lock and are left out. *)
Definition openat (p dirfd : Z) (path : cstring) (flags : Z) : K st Z :=
  if decide (path = []) then mret (- ENOENT) else
  let ret := open_flags_valid flags in
  if decide (ret < 0) then mret ret else
  let mode := Z.land flags O_ACCMODE in
  rp ← resolve_open_path p dirfd path;
  match rp with
  | inl e => mret e
  | inr (start, path) =>
      node ← open_node start path flags;
      match node with
      | inl e => mret e
      | inr node =>
          n ← gets fnodes;
          if bool_decide (fn_type n node = VFS_DIR) && bool_decide (mode ≠ O_RDONLY)
          then on_fnodes (fn_iput node) ;; mret (- EISDIR) else
          if has flags O_TRUNC && bool_decide (fn_type n node = VFS_FILE) then
            if negb (fn_has_truncate n node) then on_fnodes (fn_iput node) ;; mret (- EOPNOTSUPP) else
            t ← on_fnodes (fn_truncate node 0);
            if decide (t < 0) then on_fnodes (fn_iput node) ;; mret (if decide (t = -1) then - EIO else t)
            else install_file p node flags
          else install_file p node flags
      end
  end.

(** ** Pipes *)

(** [mem]: the address kmalloc returned, 0 if none; the kernel keeps the
    buffer of a new pipe zeroed. *)
Definition pipe_alloc (mem : Z) : K st (Z + nat * nat) :=
  r ← filealloc;
  w ← filealloc;
  match r, w with
  | Some r, Some w =>
      if decide (mem = 0) then fileclose r ;; fileclose w ;; mret (inl (- ENOMEM)) else
      modify (λ s, set_pipes (<[mem := pipe_new (replicate 512 0)]> (pipes s)) s) ;;
      fr ← get_file r;
      put_file r (mk_file FILE_PIPE (ref_count fr) (f_offset fr) 1 0 (f_append fr) (f_node fr) mem) ;;
      fw ← get_file w;
      put_file w (mk_file FILE_PIPE (ref_count fw) (f_offset fw) 0 1 (f_append fw) (f_node fw) mem) ;;
      mret (inr (r, w))
  | Some r, None => fileclose r ;; mret (inl (- ENFILE))
  | None, Some w => fileclose w ;; mret (inl (- ENFILE))
  | None, None => mret (inl (- ENFILE))
  end.

(** [copy_ok]: whether copyout of the two descriptors succeeds. *)
Definition sys_pipe2 (p mem : Z) (copy_ok : bool) (flags : Z) : K st (Z + Z * Z) :=
  if decide (flags ≠ 0) then mret (inl (- EINVAL)) else
  a ← pipe_alloc mem;
  match a with
  | inl e => mret (inl e)
  | inr (r, w) =>
      fd0 ← alloc_fd p r;
      fd1 ← (if decide (fd0 < 0) then mret (-1) else alloc_fd p w);
      let fail (e : Z) : K st (Z + Z * Z) :=
        (if decide (0 ≤ fd0) then put_fd p fd0 None else mret tt) ;;
        (if decide (0 ≤ fd1) then put_fd p fd1 None else mret tt) ;;
        fileclose r ;; fileclose w ;; mret (inl e) in
      if decide (fd0 < 0 ∨ fd1 < 0) then fail (- EMFILE) else
      if negb copy_ok then fail (- EFAULT) else mret (inr (fd0, fd1))
  end.

(** ** fork and exit *)

(** fork: the child [np] shares every open file of [p]. *)
Definition fork_files (p np : Z) : K st unit :=
  forM (seqZ 0 PROCESS_MAX_OPEN_FILES) (λ fd,
    o ← get_fd p fd;
    match o with
    | Some i => i ← filedup i; put_fd np fd (Some i)
    | None => mret tt
    end).

(** exit: every descriptor is closed. *)
Definition exit_files (p : Z) : K st unit :=
  forM (seqZ 0 PROCESS_MAX_OPEN_FILES) (λ fd,
    o ← get_fd p fd;
    match o with
    | Some i => put_fd p fd None ;; fileclose i
    | None => mret tt
    end).

(** sys_write up to the append fix-up: the error, or the file to write.  The
    new offset of an O_APPEND file is the size of its inode, read through
    [file->node]. *)
Definition write_start (p fd total : Z) : K st (Z + nat) :=
  if decide (total < 0) then mret (inl (- EINVAL)) else
  if negb (fd_ok fd) then mret (inl (- EBADF)) else
  o ← get_fd p fd;
  match o with
  | None => mret (inl (- EBADF))
  | Some i =>
      f ← get_file i;
      if decide (f_writable f = 0) then mret (inl (- EBADF)) else
      acquire_ft ;;
      n ← gets fnodes;
      (if decide (f_append f ≠ 0) then
         if decide (f_node f = 0) then kfault else
         put_file i (mk_file (f_type f) (ref_count f) (fn_size n (f_node f)) (f_readable f) (f_writable f)
                       (f_append f) (f_node f) (f_pipe f))
       else mret tt) ;;
      release_ft ;;
      mret (inr i)
  end.

(** ** Invariant *)

(** References to file [i] from descriptor tables, and from the kernel. *)
Definition refs_to (i : nat) (l : list (option nat)) : Z := Z.of_nat (length (filter (λ o, o = Some i) l)).
Definition held_refs (i : nat) (h : list nat) : Z := Z.of_nat (length (filter (λ j, j = i) h)).

(** The end of pipe [p] that file [f] is. *)
Definition end_open (f : file) (p : pipe) : Prop :=
  if decide (f_writable f = 0) then readable p ≠ 0 else writable p ≠ 0.

(** An entry of the table is the given end of the pipe at [pi]. *)
Definition has_end (t : list file) (pi : Z) (write : bool) : Prop :=
  ∃ i f, t !! i = Some f ∧ f_type f = FILE_PIPE ∧ f_pipe f = pi ∧ (f_writable f = 0 ↔ write = false).
(** A pipe has an open end, and an end is open exactly as long as an entry is it. *)
Definition backed (t : list file) (pi : Z) (p : pipe) : Prop :=
  (readable p ≠ 0 → has_end t pi false) ∧ (writable p ≠ 0 → has_end t pi true) ∧ (readable p ≠ 0 ∨ writable p ≠ 0).

Record file_inv (s : st) (h : list nat) : Prop := {
  fi_len : length (ftable s) = Z.to_nat KERNEL_MAX_FILES;
  fi_olen : length (ofile s) = Z.to_nat (NPROC * PROCESS_MAX_OPEN_FILES);
  fi_lock : ftable_lock s = false;
  fi_count i f : ftable s !! i = Some f → ref_count f = refs_to i (ofile s) + held_refs i h;
  fi_range i : refs_to i (ofile s) + held_refs i h > 0 → is_Some (ftable s !! i);
  fi_free i f : ftable s !! i = Some f → ref_count f = 0 → f_type f = FILE_NONE;
  fi_pipe i f : ftable s !! i = Some f → f_type f = FILE_PIPE →
    f_pipe f ≠ 0 ∧ ∃ p, pipes s !! f_pipe f = Some p ∧ p_lock p = false ∧ end_open f p;
  fi_ends i j f g : ftable s !! i = Some f → ftable s !! j = Some g → i ≠ j →
    f_type f = FILE_PIPE → f_type g = FILE_PIPE → f_pipe f = f_pipe g →
    (f_writable f = 0 ↔ f_writable g ≠ 0);
  fi_back pi p : pipes s !! pi = Some p → backed (ftable s) pi p;
  fi_cwd : length (cwds s) = Z.to_nat NPROC;
  fi_small : Z.of_nat (length h) < 2 ^ 20
}.

(** * Lemmas *)

Lemma filter_length_insert {A} (P : A → Prop) `{∀ x, Decision (P x)} (l : list A) k old new :
  l !! k = Some old →
  Z.of_nat (length (filter P (<[k := new]> l))) =
  Z.of_nat (length (filter P l)) - (if decide (P old) then 1 else 0) + (if decide (P new) then 1 else 0).
Proof.
  intros Hk. assert (Hlt := lookup_lt_Some _ _ _ Hk).
  rewrite <-(take_drop_middle l k old Hk) at 2. rewrite insert_take_drop by done.
  rewrite !filter_app, !filter_cons, !length_app. repeat case_decide; simpl; lia.
Qed.

Lemma refs_to_insert i l k old new :
  l !! k = Some old →
  refs_to i (<[k := new]> l) =
  refs_to i l - (if decide (old = Some i) then 1 else 0) + (if decide (new = Some i) then 1 else 0).
Proof. intros Hk. unfold refs_to. by rewrite (filter_length_insert (λ o, o = Some i) _ _ old new Hk). Qed.

Lemma held_cons i j h : held_refs i (j :: h) = held_refs i h + (if decide (j = i) then 1 else 0).
Proof. unfold held_refs. rewrite filter_cons. case_decide; simpl; lia. Qed.

Lemma refs_bound s h i : file_inv s h → 0 ≤ refs_to i (ofile s) + held_refs i h < 2 ^ 21.
Proof.
  intros HI. pose proof (fi_olen _ _ HI) as Ho. pose proof (fi_small _ _ HI) as Hs.
  unfold refs_to, held_refs. pose proof (length_filter (λ o, o = Some i) (ofile s)).
  pose proof (length_filter (λ j, j = i) h). unfold NPROC, PROCESS_MAX_OPEN_FILES in *. lia.
Qed.

(** An entry of the table changes: as the end it was, or one that was none. *)
Lemma has_end_same t i f g pi w : has_end t pi w → t !! i = Some f →
  f_type g = f_type f → f_pipe g = f_pipe f → f_writable g = f_writable f → has_end (<[i := g]> t) pi w.
Proof.
  intros (j & x & Hj & Hx) Hi H1 H2 H3. destruct (decide (i = j)) as [<-|Hne].
  - exists i, g. rewrite list_lookup_insert_eq by (by eapply lookup_lt_Some). rewrite Hi in Hj. injection Hj as ->. by rewrite H1, H2, H3.
  - exists j, x. by rewrite list_lookup_insert_ne.
Qed.
Lemma has_end_other t i f g pi w : has_end t pi w → t !! i = Some f →
  f_type f ≠ FILE_PIPE ∨ f_pipe f ≠ pi ∨ ¬ (f_writable f = 0 ↔ w = false) → has_end (<[i := g]> t) pi w.
Proof.
  intros (j & x & Hj & H1 & H2 & H3) Hi Hno. exists j, x. destruct (decide (i = j)) as [<-|Hne]; [|by rewrite list_lookup_insert_ne].
  rewrite Hi in Hj. injection Hj as ->. naive_solver.
Qed.
Lemma backed_same t i f g pi p : backed t pi p → t !! i = Some f →
  f_type g = f_type f → f_pipe g = f_pipe f → f_writable g = f_writable f → backed (<[i := g]> t) pi p.
Proof. intros (H1 & H2 & H3) Hi ? ? ?. split_and!; [intros ?%H1|intros ?%H2|done]; by apply (has_end_same t i f). Qed.
Lemma backed_other t i f g pi p : backed t pi p → t !! i = Some f →
  f_type f ≠ FILE_PIPE ∨ f_pipe f ≠ pi → backed (<[i := g]> t) pi p.
Proof. intros (H1 & H2 & H3) Hi Hno. split_and!; [intros ?%H1|intros ?%H2|done]; apply (has_end_other t i f); tauto. Qed.

(** Same table, one file's count moved by [d], matched by the references. *)
Lemma inv_count s h i f n o' h' :
  file_inv s h → ftable s !! i = Some f →
  length o' = length (ofile s) → Z.of_nat (length h') < 2 ^ 20 →
  (∀ j, refs_to j o' + held_refs j h' = refs_to j (ofile s) + held_refs j h +
        (if decide (j = i) then n - ref_count f else 0)) →
  (n = 0 → f_type f = FILE_NONE) →
  file_inv (set_ofile o' (set_ftable (<[i := set_ref_count n f]> (ftable s)) s)) h'.
Proof.
  intros HI Hi Hlen Hh Hr Hn. pose proof (fi_count _ _ HI i f Hi) as Hc. split; simpl.
  - rewrite length_insert. apply HI.
  - rewrite Hlen. apply HI.
  - apply HI.
  - intros j g. rewrite Hr. destruct (decide (j = i)) as [->|Hne].
    + rewrite list_lookup_insert_eq by (by eapply lookup_lt_Some). intros [= <-]. simpl. lia.
    + rewrite list_lookup_insert_ne by done. intros Hj. rewrite (fi_count _ _ HI j g Hj). lia.
  - intros j Hj. rewrite Hr in Hj. destruct (decide (j = i)) as [->|Hne].
    + rewrite list_lookup_insert_eq by (by eapply lookup_lt_Some). done.
    + rewrite list_lookup_insert_ne by done. apply (fi_range _ _ HI). lia.
  - intros j g. destruct (decide (j = i)) as [->|Hne].
    + rewrite list_lookup_insert_eq by (by eapply lookup_lt_Some). intros [= <-]. done.
    + rewrite list_lookup_insert_ne by done. apply (fi_free _ _ HI).
  - intros j g. destruct (decide (j = i)) as [->|Hne].
    + rewrite list_lookup_insert_eq by (by eapply lookup_lt_Some). intros [= <-]. apply (fi_pipe _ _ HI i f Hi).
    + rewrite list_lookup_insert_ne by done. apply (fi_pipe _ _ HI).
  - intros j k g1 g2 Hj Hk. destruct (decide (j = i)) as [->|Hji].
    + rewrite list_lookup_insert_eq in Hj by (by eapply lookup_lt_Some). injection Hj as <-.
      intros Hik. rewrite list_lookup_insert_ne in Hk by done. by apply (fi_ends _ _ HI i k f g2).
    + rewrite list_lookup_insert_ne in Hj by done. destruct (decide (k = i)) as [->|Hki].
      * rewrite list_lookup_insert_eq in Hk by (by eapply lookup_lt_Some). injection Hk as <-.
        intros _. by apply (fi_ends _ _ HI j i g1 f).
      * rewrite list_lookup_insert_ne in Hk by done. by apply (fi_ends _ _ HI j k g1 g2).
  - intros pi p Hp. by apply (backed_same _ i f); [apply (fi_back _ _ HI)|..].
  - apply HI.
  - done.
Qed.

Lemma ft_lock_id s : ftable_lock s = false → set_ftable_lock false (set_ftable_lock true s) = s.
Proof. destruct s; simpl; by intros ->. Qed.

(** The guarded increment shared by filedup, dup_from and dup3. *)
Lemma inc_inv s h i f :
  file_inv s h → ftable s !! i = Some f → 1 ≤ ref_count f → Z.of_nat (length h) + 1 < 2 ^ 20 →
  file_inv (set_ftable (<[i := set_ref_count (i32 (ref_count f + 1)) f]> (ftable s)) s) (i :: h).
Proof.
  intros HI Hi Hc Hh. pose proof (refs_bound s h i HI) as Hb. rewrite <-(fi_count _ _ HI i f Hi) in Hb.
  rewrite i32_small by lia.
  apply (inv_count s h i f (ref_count f + 1) (ofile s) (i :: h)); [done..|simpl; lia| |lia].
  intros j. rewrite held_cons. destruct (decide (i = j)) as [->|]; [rewrite decide_True by done|rewrite decide_False by done]; lia.
Qed.

Lemma filedup_run s h i f :
  file_inv s h → ftable s !! i = Some f → 1 ≤ ref_count f → Z.of_nat (length h) + 1 < 2 ^ 20 →
  filedup i s = Ret (i, set_ftable (<[i := set_ref_count (i32 (ref_count f + 1)) f]> (ftable s)) s).
Proof.
  intros HI Hi Hc Hh. unfold filedup, acquire_ft, release_ft, acquire, release, get_file, put_file. kunfold.
  rewrite (fi_lock _ _ HI). simpl. rewrite Hi. rewrite decide_False by lia. simpl.
  pose proof (fi_lock _ _ HI) as Hlk. destruct s; simpl in *. by subst.
Qed.

(** Moving a reference between a table entry and the kernel. *)
Lemma inv_refs s h o' h' :
  file_inv s h → length o' = length (ofile s) → Z.of_nat (length h') < 2 ^ 20 →
  (∀ j, refs_to j o' + held_refs j h' = refs_to j (ofile s) + held_refs j h) →
  file_inv (set_ofile o' s) h'.
Proof.
  intros HI Hl Hh Hr. destruct HI. split; simpl; try done; [congruence|..].
  - intros i f Hi. rewrite Hr. auto.
  - intros i Hi. rewrite Hr in Hi. auto.
Qed.

Lemma put_fd_inv s h i k :
  file_inv s (i :: h) → ofile s !! k = Some None → file_inv (set_ofile (<[k := Some i]> (ofile s)) s) h.
Proof.
  intros HI Hk. apply (inv_refs s (i :: h)); [done|by rewrite length_insert| |].
  - pose proof (fi_small _ _ HI). simpl in *. lia.
  - intros j. rewrite (refs_to_insert j _ _ _ _ Hk), held_cons. rewrite decide_False by done.
    destruct (decide (i = j)) as [->|]; [rewrite decide_True by done|rewrite decide_False by congruence]; lia.
Qed.

Lemma take_fd_inv s h i k :
  file_inv s h → ofile s !! k = Some (Some i) → Z.of_nat (length h) + 1 < 2 ^ 20 →
  file_inv (set_ofile (<[k := None]> (ofile s)) s) (i :: h).
Proof.
  intros HI Hk Hh. apply (inv_refs s h); [done|by rewrite length_insert|simpl; lia|].
  intros j. rewrite (refs_to_insert j _ _ _ _ Hk), held_cons. rewrite (decide_False (P := None = Some j)) by done.
  destruct (decide (i = j)) as [->|]; [rewrite decide_True by done|rewrite decide_False by congruence]; lia.
Qed.

(** An open descriptor or a held reference names a live file. *)
Lemma fd_live s h k i :
  file_inv s h → ofile s !! k = Some (Some i) → ∃ f, ftable s !! i = Some f ∧ 1 ≤ ref_count f.
Proof.
  intros HI Hk. pose proof (refs_to_insert i _ _ _ None Hk) as Hr.
  rewrite decide_True, decide_False in Hr by done.
  assert (0 ≤ refs_to i (<[k := None]> (ofile s))) by (unfold refs_to; lia).
  assert (0 ≤ held_refs i h) by (unfold held_refs; lia).
  destruct (fi_range _ _ HI i) as [f Hf]; [lia|]. exists f. split; [done|].
  rewrite (fi_count _ _ HI i f Hf). lia.
Qed.
Lemma held_live s h i : file_inv s (i :: h) → ∃ f, ftable s !! i = Some f ∧ 1 ≤ ref_count f.
Proof.
  intros HI. assert (0 ≤ held_refs i h) by (unfold held_refs; lia).
  assert (0 ≤ refs_to i (ofile s)) by (unfold refs_to; lia).
  assert (Hr : held_refs i (i :: h) = held_refs i h + 1) by (rewrite held_cons, decide_True; done).
  destruct (fi_range _ _ HI i) as [f Hf]; [lia|]. exists f. split; [done|].
  rewrite (fi_count _ _ HI i f Hf). lia.
Qed.

Lemma held_nonneg i h : 0 ≤ held_refs i h.
Proof. unfold held_refs. lia. Qed.
Lemma refs_nonneg i l : 0 ≤ refs_to i l.
Proof. unfold refs_to. lia. Qed.

(** The entry of [i] cleared: its last reference, the kernel's, is dropped. *)
Lemma clear_inv s h i f a ps' ns' :
  file_inv s (i :: h) → ftable s !! i = Some f → ref_count f = 1 →
  (∀ j g, j ≠ i → ftable s !! j = Some g → f_type g = FILE_PIPE →
     ∃ p, ps' !! f_pipe g = Some p ∧ p_lock p = false ∧ end_open g p) →
  (∀ pi p, ps' !! pi = Some p → backed (<[i := mk_file FILE_NONE 0 0 0 0 a 0 0]> (ftable s)) pi p) →
  file_inv (mk_fstate (<[i := mk_file FILE_NONE 0 0 0 0 a 0 0]> (ftable s)) (ofile s) ps' ns' (cwds s) false) h.
Proof.
  intros HI Hi Hc Hps Hbk. pose proof (fi_count _ _ HI i f Hi) as Hci.
  pose proof (lookup_lt_Some _ _ _ Hi) as Hlt. split; simpl.
  - rewrite length_insert. apply HI.
  - apply HI.
  - done.
  - intros j g. destruct (decide (i = j)) as [<-|Hne].
    + rewrite list_lookup_insert_eq by done. intros [= <-]. simpl.
      rewrite held_cons, decide_True in Hci by done. lia.
    + rewrite list_lookup_insert_ne by done. intros Hj. pose proof (fi_count _ _ HI j g Hj) as Hcj.
      rewrite held_cons, decide_False in Hcj by done. lia.
  - intros j Hj. destruct (decide (i = j)) as [<-|Hne].
    + by rewrite list_lookup_insert_eq by done.
    + rewrite list_lookup_insert_ne by done. apply (fi_range _ _ HI). rewrite held_cons, decide_False by done. lia.
  - intros j g. destruct (decide (i = j)) as [<-|Hne].
    + rewrite list_lookup_insert_eq by done. by intros [= <-].
    + rewrite list_lookup_insert_ne by done. apply (fi_free _ _ HI).
  - intros j g. destruct (decide (i = j)) as [<-|Hne].
    + rewrite list_lookup_insert_eq by done. by intros [= <-].
    + rewrite list_lookup_insert_ne by done. intros Hj Ht.
      split; [by apply (fi_pipe _ _ HI j g)|by apply (Hps j g)].
  - intros j k g1 g2 Hj Hk Hjk.
    destruct (decide (i = j)) as [<-|Hij].
    { rewrite list_lookup_insert_eq in Hj by done. by injection Hj as <-. }
    destruct (decide (i = k)) as [<-|Hik].
    { rewrite list_lookup_insert_eq in Hk by done. by injection Hk as <-. }
    rewrite list_lookup_insert_ne in Hj, Hk by done. by apply (fi_ends _ _ HI j k g1 g2).
  - done.
  - apply HI.
  - pose proof (fi_small _ _ HI). simpl in *. lia.
Qed.

(** Closing one end of a pipe keeps the pipe for its other end. *)
Lemma close_pipe_run s pi p w :
  pipes s !! pi = Some p → p_lock p = false →
  ∃ ps', close_pipe pi w s = Ret (tt, set_pipes ps' s) ∧
    (∀ pj, pj ≠ pi → ps' !! pj = pipes s !! pj) ∧
    ((if decide (w ≠ 0) then readable p ≠ 0 else writable p ≠ 0) →
      ∃ p', ps' !! pi = Some p' ∧ p_lock p' = false ∧
        (if decide (w ≠ 0) then readable p' ≠ 0 else writable p' ≠ 0)) ∧
    (∀ p', ps' !! pi = Some p' → (readable p' ≠ 0 ∨ writable p' ≠ 0) ∧
       if decide (w ≠ 0) then writable p' = 0 ∧ readable p' = readable p else readable p' = 0 ∧ writable p' = writable p).
Proof.
  intros Hp Hl. unfold close_pipe. rewrite Hp. unfold pipe_close, acquire_pipe, release_pipe, wakeup.
  destruct p as [buf nr nw rd wr lk]. simpl in Hl. subst lk.
  destruct (decide (w ≠ 0)) as [Hw|Hw]; kunfold; eexists; (split; [done|]);
    (split; [intros pj Hne; case_bool_decide; [by rewrite lookup_delete_ne|by rewrite lookup_insert_ne]|]); split;
    try (intros Hr; simpl; rewrite bool_decide_eq_false_2 by naive_solver; eexists; (split; [apply lookup_insert_eq|]); done);
    intros p'; case_bool_decide as Hb; [by rewrite lookup_delete_eq| |by rewrite lookup_delete_eq|];
    rewrite lookup_insert_eq; intros [= <-]; simpl in *; (split; [|done]); apply not_and_l in Hb; naive_solver.
Qed.

(** The file that is an end of a pipe goes, its end closed. *)
Lemma unbacked s h i f g (ps' : gmap Z pipe) p :
  file_inv s (i :: h) → ftable s !! i = Some f → f_type f = FILE_PIPE → pipes s !! f_pipe f = Some p →
  (∀ pj, pj ≠ f_pipe f → ps' !! pj = pipes s !! pj) →
  (∀ p', ps' !! f_pipe f = Some p' → (readable p' ≠ 0 ∨ writable p' ≠ 0) ∧
     if decide (f_writable f ≠ 0) then writable p' = 0 ∧ readable p' = readable p else readable p' = 0 ∧ writable p' = writable p) →
  ∀ pi q, ps' !! pi = Some q → backed (<[i := g]> (ftable s)) pi q.
Proof.
  intros HI Hi Ht Hp Hoth Hthis pi q Hq. destruct (decide (pi = f_pipe f)) as [->|Hne].
  - destruct (fi_back _ _ HI _ _ Hp) as (B1 & B2 & _). destruct (Hthis q Hq) as [Hopen Hw]. split_and!; [| |done].
    + intros Hr. destruct (decide (f_writable f ≠ 0)) as [Hfw|_]; [|naive_solver]. destruct Hw as [_ Hw]. rewrite Hw in Hr.
      apply (has_end_other _ i f); [auto|done|]. right. right. tauto.
    + intros Hr. destruct (decide (f_writable f ≠ 0)) as [_|Hfw]; [naive_solver|]. destruct Hw as [_ Hw]. rewrite Hw in Hr.
      apply (has_end_other _ i f); [auto|done|]. right. right. intros [Hx _]. apply dec_stable in Hfw. by specialize (Hx Hfw).
  - rewrite Hoth in Hq by done. apply (backed_other _ i f); [by apply (fi_back _ _ HI)|done|auto].
Qed.

Lemma fileclose_run s h i :
  file_inv s (i :: h) →
  ∃ s', fileclose i s = Ret (tt, s') ∧ file_inv s' h ∧ ofile s' = ofile s ∧
    (∀ j, j ≠ i → ftable s' !! j = ftable s !! j).
Proof.
  intros HI. destruct (held_live s h i HI) as (f & Hf & Hc).
  pose proof (refs_bound s _ i HI) as Hb. rewrite <-(fi_count _ _ HI i f Hf) in Hb.
  pose proof (lookup_lt_Some _ _ _ Hf) as Hlt.
  unfold fileclose, acquire_ft, release_ft, get_file, put_file. kunfold.
  unfold acquire, release. rewrite (fi_lock _ _ HI). simpl. rewrite Hf.
  rewrite (decide_False (P := ref_count f < 1)) by lia. simpl. rewrite i32_small by lia.
  destruct (decide (ref_count f - 1 > 0)) as [Hgt|Hle]; simpl.
  - eexists. split; [done|]. split; [|split; [done|intros j Hj; simpl; by rewrite list_lookup_insert_ne]].
    assert (Hi := inv_count s (i :: h) i f (ref_count f - 1) (ofile s) h HI Hf eq_refl).
    destruct s; simpl in *. replace ftable_lock0 with false in Hi by (symmetry; apply HI).
    apply Hi; [pose proof (fi_small _ _ HI); simpl in *; lia| |lia].
    intros j. rewrite held_cons. destruct (decide (i = j)) as [->|];
      [rewrite decide_True by done|rewrite decide_False by done]; lia.
  - assert (H1 : ref_count f = 1) by lia. rewrite H1. rewrite list_insert_insert_eq. simpl.
    assert (Hother : ∀ j g, j ≠ i → ftable s !! j = Some g → f_type g = FILE_PIPE →
       ∃ p, pipes s !! f_pipe g = Some p ∧ p_lock p = false ∧ end_open g p).
    { intros j g _ Hj Ht. by apply (fi_pipe _ _ HI j g). }
    assert (Hnp : f_type f ≠ FILE_PIPE → ∀ pi p, pipes s !! pi = Some p →
      backed (<[i := mk_file FILE_NONE 0 0 0 0 (f_append f) 0 0]> (ftable s)) pi p).
    { intros Hty pi p Hp. apply (backed_other _ i f); [by apply (fi_back _ _ HI)|done|by left]. }
    destruct (f_type f) eqn:Ety.
    + eexists. split; [done|]. split; [apply (clear_inv s h i f); auto|]. simpl.
      split; [done|]. intros j Hj. by rewrite list_lookup_insert_ne.
    + destruct (decide (f_node f ≠ 0)).
      * unfold on_fnodes, zoom. destruct (fn_iput_total (f_node f) (fnodes s)) as (n' & Hn). simpl. rewrite Hn.
        eexists. split; [done|]. split; [apply (clear_inv s h i f); auto|]. simpl.
        split; [done|]. intros j Hj. by rewrite list_lookup_insert_ne.
      * eexists. split; [done|]. split; [apply (clear_inv s h i f); auto|]. simpl.
        split; [done|]. intros j Hj. by rewrite list_lookup_insert_ne.
    + destruct (fi_pipe _ _ HI i f Hf Ety) as (Hne & p & Hp & Hpl & Hend).
      rewrite decide_True by done.
      match goal with |- context [close_pipe _ _ ?s0] =>
        destruct (close_pipe_run s0 (f_pipe f) p (f_writable f) Hp Hpl) as (ps' & -> & Hother' & Hkeep & Hthis) end.
      eexists. split; [done|]. split; [|split; [done|intros j Hj; simpl; by rewrite list_lookup_insert_ne]].
      apply (clear_inv s h i f); [done..| |by apply (unbacked s h i f _ ps' p)]. intros j g Hj Hg Ht.
      destruct (fi_pipe _ _ HI j g Hg Ht) as (_ & q & Hq & Hql & Hqe).
      destruct (decide (f_pipe g = f_pipe f)) as [Heq|Hneq].
      * rewrite Heq in Hq |- *. assert (q = p) as -> by (rewrite Hp in Hq; congruence).
        pose proof (fi_ends _ _ HI j i g f Hg Hf Hj Ht Ety Heq) as Hends.
        unfold end_open in *. destruct (decide (f_writable g = 0)) as [Hgw|Hgw].
        -- destruct (decide (f_writable f ≠ 0)) as [_|Hc2]; [exact (Hkeep Hqe)|tauto].
        -- destruct (decide (f_writable f ≠ 0)) as [Hc2|_]; [tauto|exact (Hkeep Hqe)].
      * exists q. rewrite Hother' by done. done.
Qed.

Lemma inv_perm s h h' : h ≡ₚ h' → file_inv s h → file_inv s h'.
Proof.
  intros Hp HI. assert (Hr : ∀ j, held_refs j h' = held_refs j h) by (intros j; unfold held_refs; by rewrite Hp).
  pose proof (inv_refs s h (ofile s) h' HI eq_refl) as Hi. destruct s; apply Hi.
  - rewrite <-Hp. apply (fi_small _ _ HI).
  - intros j. by rewrite Hr.
Qed.

(** Descriptor slots of a process are inside the table. *)
Lemma fd_slot_lookup s h p fd :
  file_inv s h → 0 ≤ p < NPROC → fd_ok fd = true → ∃ o, ofile s !! fd_slot p fd = Some o.
Proof.
  intros HI Hp Hfd. apply bool_decide_eq_true in Hfd. apply lookup_lt_is_Some_2.
  rewrite (fi_olen _ _ HI). unfold fd_slot, NPROC, PROCESS_MAX_OPEN_FILES in *. lia.
Qed.

Lemma get_fd_run s h p fd o :
  file_inv s h → ofile s !! fd_slot p fd = Some o → get_fd p fd s = Ret (o, s).
Proof. intros HI Ho. unfold get_fd. by rewrite Ho. Qed.

Lemma find_fd_Some p minfd s fd :
  0 ≤ minfd → find_fd p minfd s = Some fd → minfd ≤ fd < 128 ∧ ofile s !! fd_slot p fd = Some None.
Proof.
  unfold find_fd. intros Hm Hf. apply fmap_Some in Hf as ([k fd'] & Hf & ->).
  apply list_find_Some in Hf as (Hk & Ho & _). simpl in *. split; [|done].
  apply lookup_seqZ in Hk. unfold PROCESS_MAX_OPEN_FILES in Hk. lia.
Qed.

Lemma filealloc_run s h :
  file_inv s h → Z.of_nat (length h) + 1 < 2 ^ 20 →
  filealloc s = Ret (None, s) ∨
  ∃ i f, filealloc s = Ret (Some i, set_ftable (<[i := set_ref_count 1 f]> (ftable s)) s) ∧
    ftable s !! i = Some f ∧ ref_count f = 0 ∧ f_type f = FILE_NONE ∧
    file_inv (set_ftable (<[i := set_ref_count 1 f]> (ftable s)) s) (i :: h).
Proof.
  intros HI Hh. pose proof (fi_lock _ _ HI) as Hlk.
  unfold filealloc, acquire_ft, release_ft, acquire, release, get_file, put_file. kunfold.
  rewrite Hlk. simpl. unfold free_slot.
  destruct (list_find _ (ftable s)) as [[i f]|] eqn:Hf; simpl.
  - right. apply list_find_Some in Hf as (Hi & H0 & _). exists i, f. rewrite Hi. simpl.
    rewrite H0. change (i32 (0 + 1)) with 1.
    split_and!; [destruct s; simpl in *; by subst|done|done|by apply (fi_free _ _ HI i)|].
    apply (inv_count s h i f 1 (ofile s) (i :: h)); [done..|simpl; lia| |lia].
    intros j. rewrite held_cons, H0. destruct (decide (i = j)) as [->|];
      [rewrite decide_True by done|rewrite decide_False by done]; lia.
  - left. destruct s; simpl in *. by subst.
Qed.

Lemma alloc_fd_run s h p i :
  file_inv s (i :: h) → 0 ≤ p < NPROC →
  alloc_fd p i s = Ret (-1, s) ∨
  ∃ fd, alloc_fd p i s = Ret (fd, set_ofile (<[fd_slot p fd := Some i]> (ofile s)) s) ∧
    0 ≤ fd < 128 ∧ ofile s !! fd_slot p fd = Some None ∧
    file_inv (set_ofile (<[fd_slot p fd := Some i]> (ofile s)) s) h.
Proof.
  intros HI Hp. unfold alloc_fd, put_fd. kunfold. destruct (find_fd p 0 s) as [fd|] eqn:Hf; [right|by left].
  apply find_fd_Some in Hf as [Hr Hs]; [|done]. exists fd. split_and!; [done|lia..|done|by apply put_fd_inv].
Qed.

(** ** The calls *)

Lemma sys_close_run s h p fd :
  file_inv s h → Z.of_nat (length h) + 2 < 2 ^ 20 → 0 ≤ p < NPROC →
  ∃ r s', sys_close p fd s = Ret (r, s') ∧ file_inv s' h.
Proof.
  intros HI Hh Hp. unfold sys_close. destruct (fd_ok fd) eqn:Hfd; simpl; [|by eexists _, _].
  destruct (fd_slot_lookup s h p fd HI Hp Hfd) as (o & Ho).
  rewrite (bind_Ret _ _ _ _ _ (get_fd_run s h p fd o HI Ho)). destruct o as [i|]; [|by eexists _, _].
  destruct (fileclose_run _ h i (take_fd_inv s h i _ HI Ho ltac:(lia))) as (s' & Hc & HI' & _).
  exists 0, s'. split; [|done]. unfold put_fd. kunfold. by rewrite Hc.
Qed.

Lemma dup_from_run s h p fd minfd :
  file_inv s h → Z.of_nat (length h) + 2 < 2 ^ 20 → 0 ≤ p < NPROC →
  ∃ r s', dup_from p fd minfd s = Ret (r, s') ∧ file_inv s' h.
Proof.
  intros HI Hh Hp. unfold dup_from. destruct (fd_ok minfd) eqn:Hm; simpl; [|by eexists _, _].
  destruct (fd_ok fd) eqn:Hfd; simpl; [|by eexists _, _].
  destruct (fd_slot_lookup s h p fd HI Hp Hfd) as (o & Ho).
  rewrite (bind_Ret _ _ _ _ _ (get_fd_run s h p fd o HI Ho)). destruct o as [i|]; [|by eexists _, _].
  destruct (fd_live s h _ i HI Ho) as (f & Hf & Hc).
  apply bool_decide_eq_true in Hm. destruct (find_fd p minfd s) as [nfd|] eqn:Hnf;
    unfold gets, mbind, K_bind; rewrite Hnf; [|by eexists _, _].
  apply find_fd_Some in Hnf as [Hnr Hns]; [|lia].
  pose proof (inc_inv s h i f HI Hf Hc ltac:(lia)) as HI1.
  pose proof (put_fd_inv _ h i (fd_slot p nfd) HI1 Hns) as HI2.
  exists nfd. eexists. split; [|exact HI2].
  unfold acquire_ft, release_ft, acquire, release, get_file, put_file, put_fd. kunfold.
  pose proof (fi_lock _ _ HI) as Hlk. rewrite Hlk. simpl. rewrite Hf. rewrite decide_False by lia.
  destruct s; simpl in *. by subst.
Qed.

Lemma sys_dup3_run s h p oldfd newfd flags :
  file_inv s h → Z.of_nat (length h) + 2 < 2 ^ 20 → 0 ≤ p < NPROC →
  ∃ r s', sys_dup3 p oldfd newfd flags s = Ret (r, s') ∧ file_inv s' h.
Proof.
  intros HI Hh Hp. unfold sys_dup3. destruct (fd_ok oldfd) eqn:Hfd; simpl; [|by eexists _, _].
  destruct (fd_slot_lookup s h p oldfd HI Hp Hfd) as (o & Ho).
  rewrite (bind_Ret _ _ _ _ _ (get_fd_run s h p oldfd o HI Ho)). destruct o as [i|]; [|by eexists _, _].
  destruct (fd_ok newfd) eqn:Hnfd; simpl; [|by eexists _, _].
  destruct (decide (newfd = oldfd)); [by eexists _, _|]. destruct (decide (flags ≠ 0)); [by eexists _, _|].
  destruct (fd_slot_lookup s h p newfd HI Hp Hnfd) as (o2 & Ho2).
  rewrite (bind_Ret _ _ _ _ _ (get_fd_run s h p newfd o2 HI Ho2)).
  destruct (decide (o2 = Some i)); [by eexists _, _|].
  destruct (fd_live s h _ i HI Ho) as (f & Hf & Hc). pose proof (fi_lock _ _ HI) as Hlk.
  pose proof (inc_inv s h i f HI Hf Hc ltac:(lia)) as HI1.
  unfold acquire_ft, release_ft, acquire, release, get_file, put_file, put_fd. kunfold.
  rewrite Hlk. simpl. rewrite Hf.
  destruct o2 as [j|].
  - pose proof (take_fd_inv _ _ j _ HI1 Ho2 ltac:(simpl; lia)) as HI2.
    apply (inv_perm _ _ (i :: j :: h) (Permutation_swap _ _ _)) in HI2.
    apply (put_fd_inv _ _ i (fd_slot p newfd)) in HI2; [|simpl; by rewrite list_lookup_insert_eq by (by eapply lookup_lt_Some)].
    simpl in HI2. rewrite list_insert_insert_eq in HI2.
    destruct (fileclose_run _ h j HI2) as (s' & Hcl & HI' & _). exists newfd, s'. split; [|done].
    destruct s; simpl in *. subst. unfold set_ofile, set_ftable, set_ftable_lock in *. simpl in *. by rewrite Hcl.
  - exists newfd. eexists. split; [done|]. pose proof (put_fd_inv _ h i (fd_slot p newfd) HI1 Ho2) as HI2.
    destruct s; simpl in *. by subst.
Qed.

Definition pipe_end (f : file) (r w mem : Z) : file :=
  mk_file FILE_PIPE (ref_count f) (f_offset f) r w (f_append f) (f_node f) mem.

(** The two fresh entries become the ends of a new pipe. *)
Lemma pipe_install_inv s h r w fr fw mem buf :
  file_inv s h → ftable s !! r = Some fr → ftable s !! w = Some fw → r ≠ w →
  ref_count fr = 1 → ref_count fw = 1 → f_type fr ≠ FILE_PIPE → f_type fw ≠ FILE_PIPE → mem ≠ 0 → pipes s !! mem = None →
  file_inv (set_ftable (<[w := pipe_end fw 0 1 mem]> (<[r := pipe_end fr 1 0 mem]> (ftable s)))
              (set_pipes (<[mem := pipe_new buf]> (pipes s)) s)) h.
Proof.
  intros HI Hr Hw Hne Hfr Hfw Hfrt Hfwt Hmem Hfresh.
  pose proof (lookup_lt_Some _ _ _ Hr) as Hlr. pose proof (lookup_lt_Some _ _ _ Hw) as Hlw.
  set (t := <[w := pipe_end fw 0 1 mem]> (<[r := pipe_end fr 1 0 mem]> (ftable s))).
  assert (Ht : ∀ j g, t !! j = Some g →
    (j = r ∧ g = pipe_end fr 1 0 mem) ∨ (j = w ∧ g = pipe_end fw 0 1 mem) ∨
    (j ≠ r ∧ j ≠ w ∧ ftable s !! j = Some g)).
  { intros j g. unfold t. destruct (decide (j = w)) as [->|Hjw].
    - rewrite list_lookup_insert_eq by (by rewrite length_insert). naive_solver.
    - rewrite list_lookup_insert_ne by done. destruct (decide (j = r)) as [->|Hjr].
      + rewrite list_lookup_insert_eq by done. naive_solver.
      + rewrite list_lookup_insert_ne by done. tauto. }
  assert (Hold : ∀ j g, ftable s !! j = Some g → f_type g = FILE_PIPE → f_pipe g ≠ mem).
  { intros j g Hj Hty Heq. destruct (fi_pipe _ _ HI j g Hj Hty) as (_ & q & Hq & _). congruence. }
  split; simpl.
  - unfold t. rewrite !length_insert. apply HI.
  - apply HI.
  - apply HI.
  - intros j g [(-> & ->)|[(-> & ->)|(_ & _ & Hj)]]%Ht.
    + exact (fi_count _ _ HI r fr Hr).
    + exact (fi_count _ _ HI w fw Hw).
    + by apply (fi_count _ _ HI).
  - intros j Hj. apply lookup_lt_is_Some_2. unfold t. rewrite !length_insert.
    destruct (fi_range _ _ HI j Hj) as [g Hg]. by eapply lookup_lt_Some.
  - intros j g [(-> & ->)|[(-> & ->)|(_ & _ & Hj)]]%Ht; simpl; [lia..|]. by apply (fi_free _ _ HI j).
  - intros j g [(-> & ->)|[(-> & ->)|(_ & _ & Hj)]]%Ht Hty.
    + split; [done|]. eexists. split; [apply lookup_insert_eq|]. done.
    + split; [done|]. eexists. split; [apply lookup_insert_eq|]. done.
    + destruct (fi_pipe _ _ HI j g Hj Hty) as (Hn0 & q & Hq & Hql). split; [done|].
      exists q. rewrite lookup_insert_ne by (symmetry; by apply (Hold j)). done.
  - intros j k g1 g2 [(-> & ->)|[(-> & ->)|(Hjr & Hjw & Hj)]]%Ht [(-> & ->)|[(-> & ->)|(Hkr & Hkw & Hk)]]%Ht
      Hjk Ht1 Ht2 Heq; simpl in *; try done; try (exfalso; by eapply Hold); try (by apply (fi_ends _ _ HI j k)).
  - intros pi q Hq. destruct (decide (pi = mem)) as [->|Hpm].
    + rewrite lookup_insert_eq in Hq. injection Hq as <-. split_and!; [intros _|intros _|by left].
      * exists r, (pipe_end fr 1 0 mem). unfold t. rewrite list_lookup_insert_ne, list_lookup_insert_eq by done. done.
      * exists w, (pipe_end fw 0 1 mem). unfold t. rewrite list_lookup_insert_eq by (by rewrite length_insert). done.
    + rewrite lookup_insert_ne in Hq by done. pose proof (fi_back _ _ HI _ _ Hq) as Hb. unfold t.
      apply (backed_other _ w fw); [apply (backed_other _ r fr); [done|done|by left]|by rewrite list_lookup_insert_ne|by left].
  - apply HI.
  - apply HI.
Qed.

Lemma pipe_alloc_run s h mem :
  file_inv s h → Z.of_nat (length h) + 3 < 2 ^ 20 → (mem ≠ 0 → pipes s !! mem = None) →
  (∃ e s', pipe_alloc mem s = Ret (inl e, s') ∧ file_inv s' h) ∨
  ∃ r w s', pipe_alloc mem s = Ret (inr (r, w), s') ∧ file_inv s' (w :: r :: h).
Proof.
  intros HI Hh Hmem. unfold pipe_alloc.
  destruct (filealloc_run s h HI ltac:(lia)) as [Hr|(r & fr & Hr & Hfr & Hr0 & Hrt & HI1)];
    rewrite (bind_Ret _ _ _ _ _ Hr).
  - destruct (filealloc_run s h HI ltac:(lia)) as [Hw|(w & fw & Hw & Hfw & Hw0 & Hwt & HI2)];
      rewrite (bind_Ret _ _ _ _ _ Hw); left; [by eexists _, _|].
    destruct (fileclose_run _ _ _ HI2) as (s' & Hc & HI' & _). rewrite (bind_Ret _ _ _ _ _ Hc). by eexists _, _.
  - destruct (filealloc_run _ _ HI1 ltac:(simpl; lia)) as [Hw|(w & fw & Hw & Hfw & Hw0 & Hwt & HI2)];
      rewrite (bind_Ret _ _ _ _ _ Hw).
    + left. destruct (fileclose_run _ _ _ HI1) as (s' & Hc & HI' & _). rewrite (bind_Ret _ _ _ _ _ Hc).
      by eexists _, _.
    + destruct (decide (mem = 0)) as [->|Hm0].
      * left. apply (inv_perm _ _ _ (Permutation_swap _ _ _)) in HI2.
        destruct (fileclose_run _ _ _ HI2) as (s1 & Hc1 & HI3 & _).
        destruct (fileclose_run _ _ _ HI3) as (s2 & Hc2 & HI4 & _).
        rewrite (bind_Ret _ _ _ _ _ Hc1), (bind_Ret _ _ _ _ _ Hc2). by eexists _, _.
      * right. specialize (Hmem Hm0). simpl in Hfw.
        pose proof (lookup_lt_Some _ _ _ Hfr) as Hlr. pose proof (lookup_lt_Some _ _ _ Hfw) as Hlw.
        assert (Hne : r ≠ w).
        { intros <-. rewrite list_lookup_insert_eq in Hfw by done. injection Hfw as <-. done. }
        exists r, w. eexists. split.
        -- unfold get_file, put_file. kunfold.
           rewrite list_lookup_insert_ne by done. rewrite list_lookup_insert_eq by done. simpl.
           rewrite list_lookup_insert_ne by done. rewrite list_lookup_insert_eq by done. done.
        -- refine (pipe_install_inv _ _ r w (set_ref_count 1 fr) (set_ref_count 1 fw) mem (replicate 512 0)
             HI2 _ _ Hne _ _ _ _ Hm0 _); simpl; try done; try congruence.
           ++ rewrite list_lookup_insert_ne by done. by rewrite list_lookup_insert_eq by done.
           ++ by rewrite list_lookup_insert_eq by done.
Qed.

(** The error path of pipe2: both files are closed. *)
Lemma close_both_run s h r w {A} (e : A) :
  file_inv s (w :: r :: h) →
  ∃ s', (fileclose r ;; fileclose w ;; mret e : K st A) s = Ret (e, s') ∧ file_inv s' h.
Proof.
  intros HI. apply (inv_perm _ _ _ (Permutation_swap _ _ _)) in HI.
  destruct (fileclose_run _ _ _ HI) as (s1 & Hc1 & HI1 & _).
  destruct (fileclose_run _ _ _ HI1) as (s2 & Hc2 & HI2 & _).
  rewrite (bind_Ret _ _ _ _ _ Hc1), (bind_Ret _ _ _ _ _ Hc2). by eexists.
Qed.

Lemma sys_pipe2_run s h p mem copy_ok flags :
  file_inv s h → Z.of_nat (length h) + 4 < 2 ^ 20 → 0 ≤ p < NPROC → (mem ≠ 0 → pipes s !! mem = None) →
  ∃ r s', sys_pipe2 p mem copy_ok flags s = Ret (r, s') ∧ file_inv s' h.
Proof.
  intros HI Hh Hp Hmem. unfold sys_pipe2. destruct (decide (flags ≠ 0)); [by eexists _, _|].
  destruct (pipe_alloc_run s h mem HI ltac:(lia) Hmem) as [(e & s1 & Ha & HI1)|(r & w & s1 & Ha & HI1)];
    rewrite (bind_Ret _ _ _ _ _ Ha); [by eexists _, _|].
  assert (HI1' := inv_perm _ _ _ (Permutation_swap _ _ _) HI1).
  destruct (alloc_fd_run s1 (w :: h) p r HI1' Hp) as [Hf|(fd0 & Hf & Hr0 & Hn0 & HI2)];
    rewrite (bind_Ret _ _ _ _ _ Hf).
  { rewrite (decide_True (P := -1 < 0)) by lia. unfold mbind at 1, K_bind at 1, mret at 1, K_ret at 1.
    rewrite decide_True by lia. rewrite !(decide_False (P := 0 ≤ -1)) by lia.
    destruct (close_both_run s1 h r w (inl (- EMFILE) : Z + Z * Z) HI1) as (s' & Hc & HI').
    exists (inl (- EMFILE)), s'. split; [exact Hc|done]. }
  rewrite (decide_False (P := fd0 < 0)) by lia.
  assert (Hundo : ∀ k (o : list (option nat)), o !! k = Some None → <[k := None]> (<[k := Some r]> o) = o).
  { intros k o Hk. rewrite list_insert_insert_eq. by apply list_insert_id. }
  destruct (alloc_fd_run _ h p w HI2 Hp) as [Hg|(fd1 & Hg & Hr1 & Hn1 & HI3)];
    rewrite (bind_Ret _ _ _ _ _ Hg).
  { rewrite decide_True by lia. rewrite (decide_True (P := 0 ≤ fd0)) by lia.
    rewrite (decide_False (P := 0 ≤ -1)) by lia.
    destruct (close_both_run s1 h r w (inl (- EMFILE) : Z + Z * Z) HI1) as (s' & Hc & HI').
    exists (inl (- EMFILE)), s'. split; [|done]. rewrite <-Hc. unfold put_fd, modify, mret, K_ret.
    unfold mbind at 1 2, K_bind at 1 2. simpl. rewrite (Hundo _ _ Hn0). by destruct s1. }
  rewrite decide_False by lia. destruct copy_ok; simpl; [by eexists _, _|].
  rewrite (decide_True (P := 0 ≤ fd0)), (decide_True (P := 0 ≤ fd1)) by lia.
  destruct (close_both_run s1 h r w (inl (- EFAULT) : Z + Z * Z) HI1) as (s' & Hc & HI').
  exists (inl (- EFAULT)), s'. split; [|done]. rewrite <-Hc. unfold put_fd, modify.
  unfold mbind at 1 2, K_bind at 1 2. simpl in *.
  assert (Hslots : fd_slot p fd0 ≠ fd_slot p fd1).
  { intros Heq. rewrite <-Heq, list_lookup_insert_eq in Hn1 by (by eapply lookup_lt_Some). done. }
  rewrite list_lookup_insert_ne in Hn1 by done.
  rewrite (list_insert_insert_ne _ (fd_slot p fd0) (fd_slot p fd1)) by done.
  rewrite !list_insert_insert_eq, (list_insert_id _ (fd_slot p fd0)) by done.
  rewrite list_insert_id by done. by destruct s1.
Qed.

Lemma install_file_run s h p node flags :
  file_inv s h → Z.of_nat (length h) + 2 < 2 ^ 20 → 0 ≤ p < NPROC →
  ∃ r s', install_file p node flags s = Ret (r, s') ∧ file_inv s' h.
Proof.
  intros HI Hh Hp. pose proof (fi_lock _ _ HI) as Hlk.
  unfold install_file, acquire_ft, release_ft, acquire, release, fd_alloc, put_file. kunfold. rewrite Hlk. simpl.
  unfold free_slot. destruct (list_find _ (ftable s)) as [[i f]|] eqn:Hf; simpl.
  - apply list_find_Some in Hf as (Hi & H0 & _). rewrite decide_False by lia. simpl. rewrite Nat2Z.id.
    set (g := mk_file FILE_VFS_NODE 1 0 _ _ _ node 0).
    set (s1 := set_ftable_lock false _).
    assert (HI1 : file_inv s1 (i :: h)).
    { pose proof (inv_count s h i f 1 (ofile s) (i :: h) HI Hi eq_refl ltac:(simpl; lia)) as Hc.
      pose proof (lookup_lt_Some _ _ _ Hi) as Hlt.
      assert (HI0 : file_inv (set_ofile (ofile s) (set_ftable (<[i:=set_ref_count 1 f]> (ftable s)) s)) (i :: h)).
      { apply Hc; [|lia]. intros j. rewrite held_cons, H0. destruct (decide (i = j)) as [->|];
          [rewrite decide_True by done|rewrite decide_False by done]; lia. }
      assert (Hlk2 : ∀ j x, ftable s1 !! j = Some x →
        (j = i ∧ x = g) ∨ (j ≠ i ∧ <[i:=set_ref_count 1 f]> (ftable s) !! j = Some x)).
      { intros j x. simpl. destruct (decide (j = i)) as [->|Hj]; [rewrite list_lookup_insert_eq by done; naive_solver|].
        rewrite !list_lookup_insert_ne by done. tauto. }
      split; simpl; [rewrite length_insert; apply HI|apply HI|done|..].
      - intros j x [(-> & ->)|(_ & Hx)]%Hlk2; [|by apply (fi_count _ _ HI0)].
        apply (fi_count _ _ HI0 i (set_ref_count 1 f)). simpl. by rewrite list_lookup_insert_eq.
      - intros j Hj. apply lookup_lt_is_Some_2. rewrite length_insert.
        destruct (fi_range _ _ HI0 j Hj) as [x Hx]. apply lookup_lt_Some in Hx. simpl in Hx. by rewrite length_insert in Hx.
      - intros j x [(-> & ->)|(_ & Hx)]%Hlk2; [done|]. by apply (fi_free _ _ HI0 j).
      - intros j x [(-> & ->)|(_ & Hx)]%Hlk2; [done|]. by apply (fi_pipe _ _ HI0 j).
      - intros j k x y [(-> & ->)|(_ & Hx)]%Hlk2 [(-> & ->)|(_ & Hy)]%Hlk2 Hjk Ht1 Ht2; try done.
        by apply (fi_ends _ _ HI0 j k).
      - intros pi q Hq. apply (backed_other _ i f); [by apply (fi_back _ _ HI)|done|]. left. rewrite (fi_free _ _ HI i f Hi H0). done.
      - apply HI.
      - lia. }
    clearbody s1. destruct (alloc_fd_run s1 h p i HI1 Hp) as [Hg|(fd & Hg & Hr & _ & HI2)]; rewrite Hg; simpl.
    + destruct (fileclose_run _ _ _ HI1) as (s' & Hc & HI' & _). rewrite Hc. by eexists _, _.
    + rewrite decide_False by lia. by eexists _, _.
  - unfold on_fnodes, zoom. simpl.
    destruct (fn_iput_total node (fnodes s)) as (n' & ->). eexists _, _. split; [done|].
    destruct HI. by split.
Qed.

(** *** open *)

Lemma nodes_inv s h n : file_inv s h → file_inv (set_fnodes n s) h.
Proof. intros []. by split. Qed.
Lemma nodes_run {A} (m : K N A) s x n : m (fnodes s) = Ret (x, n) → on_fnodes m s = Ret (x, set_fnodes n s).
Proof. intros Hm. unfold on_fnodes, zoom. by rewrite Hm. Qed.

Lemma resolve_open_path_run s h p dirfd path :
  file_inv s h → 0 ≤ p < NPROC → ∃ r, resolve_open_path p dirfd path s = Ret (r, s).
Proof.
  intros HI Hp. unfold resolve_open_path. rewrite bind_gets. case_decide; [by eexists|]. case_decide.
  - rewrite bind_gets. destruct (lookup_lt_is_Some_2 (cwds s) (Z.to_nat p)) as [cwd ->].
    { rewrite (fi_cwd _ _ HI). unfold NPROC in *. lia. }
    destruct (make_absolute_total cwd path) as [q ->]. by eexists.
  - destruct (fd_ok dirfd) eqn:Hfd; simpl; [|by eexists]. destruct (fd_slot_lookup s h p dirfd HI Hp Hfd) as (o & Ho).
    rewrite (bind_Ret _ _ _ _ _ (get_fd_run s h p dirfd o HI Ho)). destruct o as [i|]; [|by eexists].
    destruct (fd_live s h _ i HI Ho) as (f & Hf & _). rewrite (bind_Ret _ _ s f s) by (unfold get_file; by rewrite Hf).
    case_decide; by eexists.
Qed.

Lemma open_node_run s h start path flags : file_inv s h → ∃ r s', open_node start path flags s = Ret (r, s') ∧ file_inv s' h.
Proof.
  intros HI. unfold open_node. destruct (fn_lookup_total start path (fnodes s)) as (x & n & Hx).
  rewrite (bind_Ret _ _ _ _ _ (nodes_run _ s _ _ Hx)). pose proof (nodes_inv s h n HI) as HI1.
  case_decide; [by eexists _, _|]. destruct (has flags O_CREAT); simpl; [|by eexists _, _].
  destruct (fn_create_total start path VFS_FILE n) as (y & n' & Hy).
  rewrite (bind_Ret _ _ _ _ _ (nodes_run _ (set_fnodes n s) _ _ Hy)). eexists _, _. split; [done|]. by apply (nodes_inv _ _ n') in HI1.
Qed.

Lemma iput_run s h node (e : Z) : file_inv s h → ∃ r s', (on_fnodes (fn_iput node) ;; mret e : K st Z) s = Ret (r, s') ∧ file_inv s' h.
Proof.
  intros HI. destruct (fn_iput_total node (fnodes s)) as (n & Hn). rewrite (bind_Ret _ _ _ _ _ (nodes_run _ s _ _ Hn)).
  eexists _, _. split; [done|]. by apply nodes_inv.
Qed.

Lemma openat_run s h p dirfd path flags :
  file_inv s h → Z.of_nat (length h) + 2 < 2 ^ 20 → 0 ≤ p < NPROC →
  ∃ r s', openat p dirfd path flags s = Ret (r, s') ∧ file_inv s' h.
Proof.
  intros HI Hh Hp. unfold openat. case_decide; [by eexists _, _|]. cbv zeta. case_decide; [by eexists _, _|].
  destruct (resolve_open_path_run s h p dirfd path HI Hp) as (rp & Hrp). rewrite (bind_Ret _ _ _ _ _ Hrp).
  destruct rp as [e|[start path']]; [by eexists _, _|].
  destruct (open_node_run s h start path' flags HI) as (nd & s1 & Hn & HI1). rewrite (bind_Ret _ _ _ _ _ Hn).
  destruct nd as [e|node]; [by eexists _, _|]. rewrite bind_gets.
  destruct (bool_decide (fn_type (fnodes s1) node = VFS_DIR) && _); [by apply iput_run|].
  destruct (has flags O_TRUNC && _); [|by apply install_file_run].
  destruct (fn_has_truncate (fnodes s1) node); simpl; [|by apply iput_run].
  destruct (fn_truncate_total node 0 (fnodes s1)) as (t & n & Ht). rewrite (bind_Ret _ _ _ _ _ (nodes_run _ s1 _ _ Ht)).
  pose proof (nodes_inv s1 h n HI1) as HI2. destruct (decide (t < 0)); [by apply iput_run|by apply install_file_run].
Qed.

Lemma sys_fcntl_run s h p fd cmd arg :
  file_inv s h → Z.of_nat (length h) + 2 < 2 ^ 20 → 0 ≤ p < NPROC →
  ∃ r s', sys_fcntl p fd cmd arg s = Ret (r, s') ∧ file_inv s' h.
Proof.
  intros HI Hh Hp. unfold sys_fcntl. destruct (fd_ok fd) eqn:Hfd; simpl; [|by eexists _, _].
  destruct (fd_slot_lookup s h p fd HI Hp Hfd) as (o & Ho).
  rewrite (bind_Ret _ _ _ _ _ (get_fd_run s h p fd o HI Ho)). destruct o as [i|]; [|by eexists _, _].
  case_decide; [destruct (fd_ok arg); simpl; [by apply dup_from_run|by eexists _, _]|]. case_decide; [by eexists _, _|].
  case_decide; [|case_decide; by eexists _, _].
  destruct (fd_live s h _ i HI Ho) as (f & Hf & _). rewrite (bind_Ret _ _ s f s) by (unfold get_file; by rewrite Hf). by eexists _, _.
Qed.

Lemma fork_files_run s h p np :
  file_inv s h → Z.of_nat (length h) + 2 < 2 ^ 20 → 0 ≤ p < NPROC → 0 ≤ np < NPROC →
  (∀ fd, 0 ≤ fd < 128 → ofile s !! fd_slot np fd = Some None) →
  ∃ s', fork_files p np s = Ret (tt, s') ∧ file_inv s' h.
Proof.
  intros HI Hh Hp Hnp Hempty. unfold fork_files.
  destruct (forM_inv (λ d s, file_inv s h ∧ ∀ fd, 0 ≤ fd < 128 → fd ∉ d → ofile s !! fd_slot np fd = Some None)
    (λ fd, o ← get_fd p fd; match o with Some i => i ← filedup i; put_fd np fd (Some i) | None => mret tt end)
    (seqZ 0 PROCESS_MAX_OPEN_FILES) [] s) as (s' & Hrun & HI' & _); [|by split; [|auto]|by exists s'].
  intros d fd r s1 Hl [HI1 Hfree]. simpl in *.
  assert (Hin : fd ∈ seqZ 0 PROCESS_MAX_OPEN_FILES) by (rewrite Hl; set_solver).
  apply elem_of_seqZ in Hin. unfold PROCESS_MAX_OPEN_FILES in Hin.
  assert (Hnd : fd ∉ d).
  { pose proof (NoDup_seqZ 0 PROCESS_MAX_OPEN_FILES) as Hn. rewrite Hl in Hn. apply NoDup_app in Hn. set_solver. }
  assert (Hok : fd_ok fd = true) by (apply bool_decide_eq_true; unfold PROCESS_MAX_OPEN_FILES; lia).
  destruct (fd_slot_lookup s1 h p fd HI1 Hp Hok) as (o & Ho).
  rewrite (bind_Ret _ _ _ _ _ (get_fd_run s1 h p fd o HI1 Ho)). destruct o as [i|].
  - destruct (fd_live s1 h _ i HI1 Ho) as (f & Hf & Hc).
    rewrite (bind_Ret _ _ _ _ _ (filedup_run s1 h i f HI1 Hf Hc ltac:(lia))).
    eexists. split; [done|]. split.
    + refine (put_fd_inv _ h i (fd_slot np fd) (inc_inv s1 h i f HI1 Hf Hc ltac:(lia)) _). simpl. by apply Hfree.
    + intros k Hk Hkd. simpl. rewrite list_lookup_insert_ne; [apply Hfree; [done|set_solver]|].
      intros Heq. unfold fd_slot, PROCESS_MAX_OPEN_FILES, NPROC in *. assert (k = fd) as -> by lia. set_solver.
  - eexists. split; [done|]. split; [done|]. intros k Hk Hkd. apply Hfree; [done|set_solver].
Qed.

Lemma exit_files_run s h p :
  file_inv s h → Z.of_nat (length h) + 2 < 2 ^ 20 → 0 ≤ p < NPROC →
  ∃ s', exit_files p s = Ret (tt, s') ∧ file_inv s' h ∧
    ∀ fd, 0 ≤ fd < 128 → ofile s' !! fd_slot p fd = Some None.
Proof.
  intros HI Hh Hp. unfold exit_files.
  destruct (forM_inv (λ d s, file_inv s h ∧ ∀ fd, fd ∈ d → ofile s !! fd_slot p fd = Some None)
    (λ fd, o ← get_fd p fd; match o with Some i => put_fd p fd None ;; fileclose i | None => mret tt end)
    (seqZ 0 PROCESS_MAX_OPEN_FILES) [] s) as (s' & Hrun & HI' & Hdone); [|by split; [|set_solver]|].
  - intros d fd r s1 Hl [HI1 Hfree]. simpl in *.
    assert (Hin : fd ∈ seqZ 0 PROCESS_MAX_OPEN_FILES) by (rewrite Hl; set_solver).
    apply elem_of_seqZ in Hin. unfold PROCESS_MAX_OPEN_FILES in Hin.
    assert (Hok : fd_ok fd = true) by (apply bool_decide_eq_true; unfold PROCESS_MAX_OPEN_FILES; lia).
    destruct (fd_slot_lookup s1 h p fd HI1 Hp Hok) as (o & Ho). pose proof (lookup_lt_Some _ _ _ Ho) as Hlt.
    rewrite (bind_Ret _ _ _ _ _ (get_fd_run s1 h p fd o HI1 Ho)). destruct o as [i|].
    + destruct (fileclose_run _ h i (take_fd_inv s1 h i _ HI1 Ho ltac:(lia))) as (s2 & Hc & HI2 & Ho2 & _).
      exists s2. split; [unfold put_fd; kunfold; exact Hc|]. split; [done|].
      intros k [Hk| ->%list_elem_of_singleton]%elem_of_app; rewrite Ho2; simpl.
      * destruct (decide (fd_slot p k = fd_slot p fd)) as [->|Hne]; [by rewrite list_lookup_insert_eq|].
        rewrite list_lookup_insert_ne by done. by apply Hfree.
      * by rewrite list_lookup_insert_eq.
    + eexists. split; [done|]. split; [done|].
      intros k [Hk| ->%list_elem_of_singleton]%elem_of_app; [by apply Hfree|done].
  - exists s'. split_and!; [done..|]. intros fd Hfd. apply Hdone. apply elem_of_seqZ.
    unfold PROCESS_MAX_OPEN_FILES. lia.
Qed.

(** ** Calls on the descriptor tables *)

Inductive file_call :=
  | Call_open (p dirfd : Z) (path : cstring) (flags : Z)
  | Call_close (p fd : Z)
  | Call_dup (p fd : Z)
  | Call_fcntl (p fd cmd arg : Z)
  | Call_dup3 (p oldfd newfd flags : Z)
  | Call_pipe2 (p mem : Z) (copy_ok : bool) (flags : Z)
  | Call_fork (p np : Z)
  | Call_exit (p : Z).

Definition call_run (c : file_call) : K st unit :=
  match c with
  | Call_open p dirfd path flags => openat p dirfd path flags ;; mret tt
  | Call_close p fd => sys_close p fd ;; mret tt
  | Call_dup p fd => dup p fd ;; mret tt
  | Call_fcntl p fd cmd arg => sys_fcntl p fd cmd arg ;; mret tt
  | Call_dup3 p oldfd newfd flags => sys_dup3 p oldfd newfd flags ;; mret tt
  | Call_pipe2 p mem ok flags => sys_pipe2 p mem ok flags ;; mret tt
  | Call_fork p np => fork_files p np
  | Call_exit p => exit_files p
  end.

(** What the callers guarantee: process indices are in the table, a child's
    descriptors start empty, memory for a new pipe is not in use. *)
Definition call_ok (c : file_call) (s : st) : Prop :=
  match c with
  | Call_open p _ _ _ | Call_close p _ | Call_dup p _ | Call_fcntl p _ _ _ | Call_dup3 p _ _ _
  | Call_exit p => 0 ≤ p < NPROC
  | Call_pipe2 p mem _ _ => 0 ≤ p < NPROC ∧ (mem ≠ 0 → pipes s !! mem = None)
  | Call_fork p np => 0 ≤ p < NPROC ∧ 0 ≤ np < NPROC ∧
      ∀ fd, 0 ≤ fd < 128 → ofile s !! fd_slot np fd = Some None
  end.

Lemma call_run_inv c s h :
  file_inv s h → Z.of_nat (length h) < 2 ^ 19 → call_ok c s →
  ∃ s', call_run c s = Ret (tt, s') ∧ file_inv s' h.
Proof.
  intros HI Hh Hc. assert (Hb : ∀ {A} (m : K st A) , (∃ r s', m s = Ret (r, s') ∧ file_inv s' h) →
    ∃ s', (m ;; mret tt : K st unit) s = Ret (tt, s') ∧ file_inv s' h).
  { intros A m (r & s' & Hm & HI'). exists s'. by rewrite (bind_Ret _ _ _ _ _ Hm). }
  destruct c; simpl in *.
  - apply Hb. apply openat_run; [done|lia|done].
  - apply Hb. apply sys_close_run; [done|lia|done].
  - apply Hb. apply dup_from_run; [done|lia|done].
  - apply Hb. apply sys_fcntl_run; [done|lia|done].
  - apply Hb. apply sys_dup3_run; [done|lia|done].
  - apply Hb. apply sys_pipe2_run; [done|lia|apply Hc..].
  - apply fork_files_run; [done|lia|apply Hc..].
  - destruct (exit_files_run s h p HI ltac:(lia) Hc) as (s' & ? & ? & _). by exists s'.
Qed.

End file.

(** ** Inodes whose operations may stop *)

Section partial.
Context {N : Type} {FN : FileNodes N}.
Abbreviation st := (fstate N).

(** [h] is how an operation of the inode layer stops. *)
Inductive node_stops (h : stop) : Prop :=
  | ns_iput n t : halts (fn_iput n t) = Some h → node_stops h
  | ns_lookup n path t : halts (fn_lookup_at n path t) = Some h → node_stops h
  | ns_create n path k t : halts (fn_create_at n path k t) = Some h → node_stops h
  | ns_truncate n k t : halts (fn_truncate n k t) = Some h → node_stops h.
#[local] Hint Constructors node_stops : agree.
#[local] Hint Extern 1 (agrees _ (on_fnodes _) _) => apply agrees_zoom; intros ? ? ?; eauto with agree nocore : agree.

(** The same inodes with every operation returning. *)
Definition total_nodes : FileNodes N := {|
  fn_root := fn_root; fn_lookup_at n path := tot 0 (fn_lookup_at n path);
  fn_create_at n path k := tot 0 (fn_create_at n path k); fn_type := fn_type; fn_size := fn_size;
  fn_has_truncate := fn_has_truncate; fn_truncate n k := tot 0 (fn_truncate n k); fn_iput n := tot tt (fn_iput n) |}.
Lemma total_nodes_put : @FileNodesPut N total_nodes.
Proof. split. intros. apply tot_unit. Qed.
Lemma total_nodes_laws : @FileNodesTotal N total_nodes.
Proof. split; intros; apply tot_val. Qed.

Lemma fileclose_agrees i : agrees node_stops (fileclose i) (fileclose (FN := total_nodes) i).
Proof. unfold fileclose. agree. Qed.
#[local] Hint Resolve fileclose_agrees : agree.
Lemma install_file_agrees p n k : agrees node_stops (install_file p n k) (install_file (FN := total_nodes) p n k).
Proof. unfold install_file. agree. Qed.
Lemma resolve_agrees p d path : agrees node_stops (resolve_open_path p d path) (resolve_open_path (FN := total_nodes) p d path).
Proof. apply agrees_refl. Qed.
Lemma open_node_agrees n path k : agrees node_stops (open_node n path k) (open_node (FN := total_nodes) n path k).
Proof. unfold open_node. agree. Qed.
#[local] Hint Resolve install_file_agrees resolve_agrees open_node_agrees : agree.
Lemma openat_agrees p d path k : agrees node_stops (openat p d path k) (openat (FN := total_nodes) p d path k).
Proof. unfold openat. cbn [total_nodes fn_type fn_has_truncate]. agree. Qed.
Lemma sys_close_agrees p fd : agrees node_stops (sys_close p fd) (sys_close (FN := total_nodes) p fd).
Proof. unfold sys_close. agree. Qed.
Lemma sys_dup3_agrees p o n k : agrees node_stops (sys_dup3 p o n k) (sys_dup3 (FN := total_nodes) p o n k).
Proof. unfold sys_dup3. agree. Qed.
Lemma pipe_alloc_agrees m : agrees node_stops (pipe_alloc m) (pipe_alloc (FN := total_nodes) m).
Proof. unfold pipe_alloc. agree. Qed.
#[local] Hint Resolve openat_agrees sys_close_agrees sys_dup3_agrees pipe_alloc_agrees : agree.
Lemma sys_pipe2_agrees p m ok k : agrees node_stops (sys_pipe2 p m ok k) (sys_pipe2 (FN := total_nodes) p m ok k).
Proof. unfold sys_pipe2. agree. Qed.
#[local] Hint Resolve sys_pipe2_agrees : agree.
Lemma exit_files_agrees p : agrees node_stops (exit_files p) (exit_files (FN := total_nodes) p).
Proof. unfold exit_files. agree. Qed.
#[local] Hint Resolve exit_files_agrees : agree.
Lemma call_run_agrees c : agrees node_stops (call_run c) (call_run (FN := total_nodes) c).
Proof. destruct c; unfold call_run; agree. Qed.

(** * Theorems *)

(** C8: openat, close, dup, fcntl, dup3, pipe2 and the descriptor loops of
    fork and exit keep the open file table consistent: the reference count of
    each file equals the number of descriptors and kernel holders that name
    it, an unused entry has no type, a file that is a pipe end refers to a
    pipe with that end open, and an end of a pipe is open only while an entry
    of the table is that end, so that closing the last descriptor closes it.
    Each call returns, unless the inode layer it calls stops. The calls come
    from a process of the table, with a child whose descriptors are empty and
    memory for a pipe that is not in use. *)
Theorem file_calls_safe c s h :
  file_inv s h → Z.of_nat (length h) < 2 ^ 19 → call_ok c s →
  (∃ s', call_run c s = Ret (tt, s') ∧ file_inv s' h) ∨ ∃ w, halts (call_run c s) = Some w ∧ node_stops w.
Proof.
  intros HI Hh Hc. destruct (call_run_agrees c s) as [Heq|?]; [left|by right]. rewrite Heq.
  by apply (call_run_inv (FN := total_nodes) (FP := total_nodes_put) (FT := total_nodes_laws)).
Qed.
End partial.

(** ** A concrete file system: inode 7 is a file of 100 bytes, iput is a counter *)

#[local] Instance demo_nodes : FileNodes Z :=
  {| fn_root _ := 1; fn_lookup_at _ _ s := Ret (7, s); fn_create_at _ _ _ s := Ret (7, s);
     fn_type _ n := VFS_FILE; fn_size _ n := 100; fn_has_truncate _ _ := true;
     fn_truncate _ _ s := Ret (0, s); fn_iput _ s := Ret (tt, s + 1) |}.
#[local] Instance demo_put : FileNodesPut Z.
Proof. split. intros n s. by exists (s + 1). Qed.

Definition demo_fstate : fstate Z :=
  mk_fstate (replicate 128 file_zero) (replicate (Z.to_nat 8192) None) ∅ 0 (replicate 64 [47]) false.

Lemma demo_fstate_inv : file_inv demo_fstate [].
Proof.
  assert (Hr : ∀ i, refs_to i (ofile demo_fstate) = 0).
  { intros i. unfold refs_to, demo_fstate, ofile. 
    generalize (Z.to_nat 8192). intros n. induction n as [|n IH]; [done|]. simpl. rewrite filter_cons_False; done. }
  assert (Ht : ∀ i f, ftable demo_fstate !! i = Some f → f = file_zero).
  { intros i f Hf. by apply lookup_replicate in Hf as [-> _]. }
  split; try done.
  - intros i f ->%Ht. by rewrite Hr.
  - intros i f ->%Ht. done.
  - intros i f ->%Ht. done.
  - intros i j f g ->%Ht. done.
Qed.

Lemma file_calls_safe_witness :
  (∃ s', call_run (Call_pipe2 0 4096 true 0) demo_fstate = Ret (tt, s') ∧ file_inv s' []) ∨
  ∃ w, halts (call_run (Call_pipe2 0 4096 true 0) demo_fstate) = Some w ∧ node_stops w.
Proof. apply (file_calls_safe (Call_pipe2 0 4096 true 0) demo_fstate []); [exact demo_fstate_inv|done|done]. Defined.

(** The append flag of a closed file stays in the file table: after two
    files opened with O_APPEND are closed, a pipe that reuses their entries
    makes sys_write dereference a null inode. *)
Theorem stale_append_faults :
  (install_file 0 7 (Z.lor O_WRONLY O_APPEND) ;; install_file 0 7 (Z.lor O_WRONLY O_APPEND) ;;
   sys_close 0 0 ;; sys_close 0 1 ;; sys_pipe2 0 4096 true 0 ;; write_start 0 1 5) demo_fstate = Fault.
Proof. vm_compute. reflexivity. Qed.
