(* ===== verification/Vma.v ===== *)
(** kernel/mm/mmap.c, the table of virtual memory areas of a process: slot
    allocation, the search for a free range, the search for the area of an
    address, and the translation of PROT_* bits.

    [proc->vm_area] is a list of [NVMA] records; an area covers
    [va_start, va_end) when [used] is not 0.  The static [used_addr] is never
    assigned and is the constant [MMAP_START]. *)
From S2P Require Import Prelude.

Definition NVMA : Z := 16.
Definition MMAP_START : Z := 64 * 1024 * 1024.

(** mmap.c: PROT_* and MAP_*; vm.h: the generic page permissions. *)
Definition PROT_READ : Z := 0x1.
Definition PROT_WRITE : Z := 0x2.
Definition PROT_EXEC : Z := 0x4.
Definition PROT_NONE : Z := 0x0.
Definition MAP_PRIVATE : Z := 0x02.
Definition MAP_TYPE : Z := 0x0f.
Definition MAP_ANONYMOUS : Z := 0x20.
Definition PTE_READ : Z := 1.
Definition PTE_WRITE : Z := 2.
Definition PTE_EXEC : Z := 4.
Definition PTE_USER : Z := 8.

(** [vm_ops] and [vm_private_data] are never used. *)
Record vm_area_struct := mk_vma {
  used : Z;
  va_start : Z;
  va_end : Z;
  vma_flags : Z;
  file_offset : Z;
  vm_page_prot : Z;
  vma_file : option nat              (* 0 is None, &ftable[i] is Some i *)
}.
Abbreviation vma := vm_area_struct.
Definition vma_zero : vma := mk_vma 0 0 0 0 0 0 None.

(** ** Operations *)

Definition find_free_vma_slot (l : list vma) : Z :=
  match list_find (λ v, used v = 0) l with Some (i, _) => Z.of_nat i | None => -1 end.

Definition alloc_vma (start_ end_ : Z) (l : list vma) : option (nat * list vma) :=
  let slot := find_free_vma_slot l in
  if decide (slot = -1) then None else
  Some (Z.to_nat slot, <[Z.to_nat slot := mk_vma 1 start_ end_ 0 0 0 None]> l).

(** The overlap test of find_free_range and find_overlapping_vma. *)
Definition overlaps (addr len : Z) (v : vma) : Prop :=
  used v ≠ 0 ∧ addr < va_end v ∧ va_start v < u64 (addr + len).
#[global] Instance overlaps_dec addr len v : Decision (overlaps addr len v).
Proof. unfold overlaps. apply _. Defined.

(** The loop over [faddr]; the fuel is the number of pages up to the stack. *)
Fixpoint free_range_loop (n : nat) (stack_bottom len faddr : Z) (l : list vma) : option (nat * list vma) :=
  match n with
  | O => None
  | S n =>
      if decide (faddr < stack_bottom) then
        match list_find (overlaps faddr len) l with
        | None => alloc_vma faddr (u64 (faddr + len)) l
        | Some _ => free_range_loop n stack_bottom len (u64 (faddr + PGSIZE)) l
        end
      else None
  end.

(** [stack0] is [proc->stack_bottom] before the local [proc] is declared: the
    global array, that is the stack of proc[0]. *)
Definition find_free_range (stack0 stack_bottom len : Z) (l : list vma) : option (nat * list vma) :=
  if decide (MMAP_START > stack0 ∨ len > u64 (stack0 - MMAP_START)) then None else
  free_range_loop (Z.to_nat (stack_bottom / PGSIZE + 1)) stack_bottom len MMAP_START l.

Definition find_overlapping_vma (addr len : Z) (l : list vma) : option nat :=
  if decide (addr ≠ 0) then fst <$> list_find (overlaps addr len) l else None.

Definition prot2pte (prot : Z) : Z :=
  if decide (prot = PROT_NONE) then 0 else
  let flags := PTE_USER in
  let flags := if has prot PROT_READ then Z.lor flags PTE_READ else flags in
  let flags := if has prot PROT_WRITE then Z.lor flags PTE_WRITE else flags in
  if has prot PROT_EXEC then Z.lor flags PTE_EXEC else flags.

(** ** Invariant *)

(** An area is a nonempty range of whole pages of the user half. *)
Definition area_ok (v : vma) : Prop :=
  used v ≠ 0 →
  va_start v mod PGSIZE = 0 ∧ va_end v mod PGSIZE = 0 ∧ 0 < va_start v < va_end v ∧ va_end v < 2 ^ 39.

Definition areas_disjoint (l : list vma) : Prop :=
  ∀ i j v w, l !! i = Some v → l !! j = Some w → i ≠ j → used v ≠ 0 → used w ≠ 0 →
    va_end v ≤ va_start w ∨ va_end w ≤ va_start v.

Record vma_inv (l : list vma) : Prop := {
  vi_len : length l = Z.to_nat NVMA;
  vi_ok : Forall area_ok l;
  vi_disj : areas_disjoint l
}.

(** A page-aligned range that meets no area of the table. *)
Definition range_free (addr len : Z) (l : list vma) : Prop := Forall (λ v, ¬ overlaps addr len v) l.

(** * Lemmas *)

Lemma alloc_vma_Some start_ end_ l i l' :
  alloc_vma start_ end_ l = Some (i, l') →
  ∃ v, l !! i = Some v ∧ used v = 0 ∧ l' = <[i := mk_vma 1 start_ end_ 0 0 0 None]> l.
Proof.
  unfold alloc_vma, find_free_vma_slot. destruct (list_find _ l) as [[k v]|] eqn:Hf; [|by rewrite decide_True].
  apply list_find_Some in Hf as (Hk & Hu & _). rewrite decide_False by lia. rewrite Nat2Z.id.
  intros [= <- <-]. by exists v.
Qed.

Lemma alloc_vma_None start_ end_ l :
  alloc_vma start_ end_ l = None → Forall (λ v, used v ≠ 0) l.
Proof.
  unfold alloc_vma, find_free_vma_slot. destruct (list_find _ l) as [[k v]|] eqn:Hf.
  - rewrite decide_False by lia. done.
  - intros _. by apply list_find_None in Hf.
Qed.

Lemma free_range_loop_Some n sb len faddr l i l' :
  0 ≤ faddr → sb < 2 ^ 63 → free_range_loop n sb len faddr l = Some (i, l') →
  ∃ a k, 0 ≤ k ∧ a = faddr + k * PGSIZE ∧ a < sb ∧ range_free a len l ∧
    alloc_vma a (u64 (a + len)) l = Some (i, l') ∧
    ∀ j, 0 ≤ j < k → ¬ range_free (faddr + j * PGSIZE) len l.
Proof.
  revert faddr. induction n as [|n IH]; simpl; intros faddr Hf Hsb; [done|].
  case_decide as Hlt; [|done]. destruct (list_find (overlaps faddr len) l) as [[k0 v]|] eqn:Hl.
  - intros Hrun. rewrite u64_small in Hrun by (unfold PGSIZE; lia).
    destruct (IH (faddr + PGSIZE)) as (a & k & Hk & -> & Ha & Hfree & Hal & Hmin); [unfold PGSIZE; lia|lia|done|].
    exists (faddr + PGSIZE + k * PGSIZE), (k + 1). split_and!; [lia|lia|lia|done|done|].
    intros j Hj. destruct (decide (j = 0)) as [->|].
    + apply list_find_Some in Hl as (Hl & Hov & _). unfold range_free. rewrite Forall_lookup. intros Hall.
      apply (Hall k0 v Hl). by rewrite Z.add_0_r.
    + replace (faddr + j * PGSIZE) with (faddr + PGSIZE + (j - 1) * PGSIZE) by lia. apply Hmin. lia.
  - intros Hal. exists faddr, 0. split_and!; [lia|lia|done| |done|lia]. by apply list_find_None in Hl.
Qed.

Lemma free_range_loop_None n sb len faddr l :
  0 ≤ faddr → sb < 2 ^ 63 → sb ≤ faddr + Z.of_nat n * PGSIZE →
  free_range_loop n sb len faddr l = None →
  Forall (λ v, used v ≠ 0) l ∨
  ∀ j, 0 ≤ j → faddr + j * PGSIZE < sb → ¬ range_free (faddr + j * PGSIZE) len l.
Proof.
  revert faddr. induction n as [|n IH]; simpl; intros faddr Hf Hsb Hn.
  - intros _. right. unfold PGSIZE. lia.
  - case_decide as Hlt; [|right; unfold PGSIZE in *; lia].
    destruct (list_find (overlaps faddr len) l) as [[k0 v]|] eqn:Hl.
    + intros Hrun. rewrite u64_small in Hrun by (unfold PGSIZE; lia).
      destruct (IH (faddr + PGSIZE)) as [Hall|Hno]; [unfold PGSIZE; lia|done|lia|done|by left|].
      right. intros j Hj Hjs. destruct (decide (j = 0)) as [->|].
      * apply list_find_Some in Hl as (Hl & Hov & _). unfold range_free. rewrite Forall_lookup. intros Hall.
        apply (Hall k0 v Hl). by rewrite Z.add_0_r.
      * replace (faddr + j * PGSIZE) with (faddr + PGSIZE + (j - 1) * PGSIZE) by lia. apply Hno; lia.
    + intros Hal%alloc_vma_None. by left.
Qed.

(** A new area in a free slot, on a free range, keeps the table disjoint. *)
Lemma insert_area_inv l i v v' :
  vma_inv l → l !! i = Some v → area_ok v' →
  (∀ j w, l !! j = Some w → j ≠ i → used w ≠ 0 → used v' ≠ 0 →
     va_end v' ≤ va_start w ∨ va_end w ≤ va_start v') →
  vma_inv (<[i := v']> l).
Proof.
  intros [Hlen Hok Hd] Hi Hv Hno. pose proof (lookup_lt_Some _ _ _ Hi) as Hlt.
  split; [by rewrite length_insert|by apply Forall_insert|].
  intros j k a b. destruct (decide (j = i)) as [->|Hj]; destruct (decide (k = i)) as [->|Hk];
    rewrite ?list_lookup_insert_eq, ?list_lookup_insert_ne by done; intros Ha Hb Hne Hua Hub; simplify_eq.
  - by apply (Hno k b).
  - specialize (Hno j a Ha Hj Hua Hub). tauto.
  - by apply (Hd j k a b).
Qed.

Lemma range_free_disjoint a len l j w :
  range_free a len l → 0 ≤ a → 0 < len → a + len < 2 ^ 64 → l !! j = Some w → used w ≠ 0 →
  va_end w ≤ a ∨ a + len ≤ va_start w.
Proof.
  intros Hf Ha Hl Hb Hj Hu. pose proof (Forall_lookup_1 _ _ _ _ Hf Hj) as Hn. unfold overlaps in Hn.
  rewrite u64_small in Hn by lia. destruct (decide (a < va_end w)); [right|left; lia].
  destruct (decide (va_start w < a + len)); [tauto|lia].
Qed.

(** * Theorems *)

(** find_free_range returns the lowest page-aligned free range of the
    area space whose start lies below the stack, recorded in a free slot with
    the areas still disjoint, and fails only when no slot or no such range
    exists. *)
Theorem find_free_range_spec stack0 stack_bottom len l :
  vma_inv l → MMAP_START ≤ stack0 ≤ 2 ^ 38 → 0 ≤ stack_bottom ≤ 2 ^ 38 → 0 < len → len mod PGSIZE = 0 →
  match find_free_range stack0 stack_bottom len l with
  | Some (i, l') => ∃ v a, l !! i = Some v ∧ used v = 0 ∧
      l' = <[i := mk_vma 1 a (a + len) 0 0 0 None]> l ∧ vma_inv l' ∧
      a mod PGSIZE = 0 ∧ MMAP_START ≤ a < stack_bottom ∧
      (∀ b, b mod PGSIZE = 0 → MMAP_START ≤ b < a → ¬ range_free b len l)
  | None => len > stack0 - MMAP_START ∨ Forall (λ v, used v ≠ 0) l ∨
      ∀ b, b mod PGSIZE = 0 → MMAP_START ≤ b < stack_bottom → ¬ range_free b len l
  end.
Proof.
  intros HI H0 Hsb Hlen Hal. unfold find_free_range. rewrite u64_small by (unfold MMAP_START in *; lia).
  case_decide as Hbig; [left; lia|].
  assert (Hidx : ∀ b, b mod PGSIZE = 0 → b = MMAP_START + (b / PGSIZE - MMAP_START / PGSIZE) * PGSIZE).
  { intros b Hb. pose proof (Z.div_mod b PGSIZE). unfold PGSIZE, MMAP_START in *.
    change (64 * 1024 * 1024 / 4096) with 16384. lia. }
  destruct (free_range_loop _ _ _ _ _) as [[i l']|] eqn:Hrun.
  - apply free_range_loop_Some in Hrun as (a & k & Hk & Ha & Hlt & Hfree & Halloc & Hmin); [|done|lia].
    apply alloc_vma_Some in Halloc as (v & Hi & Hu & ->). rewrite u64_small by (unfold MMAP_START, PGSIZE in *; lia).
    assert (Ham : a mod PGSIZE = 0).
    { subst a. rewrite Z.mod_add by done. done. }
    exists v, a. split_and!; try done.
    + apply (insert_area_inv l i v); [done..| |].
      * intros _. simpl. split_and!; [done| |unfold MMAP_START, PGSIZE in *; lia..].
        rewrite Z.add_mod, Ham, Hal by done. done.
      * intros j w Hj Hne Huw _. simpl. destruct (range_free_disjoint a len l j w Hfree); try done; try lia.
        all: unfold MMAP_START, PGSIZE in *; lia.
    + unfold PGSIZE in *. lia.
    + intros b Hb Hr. rewrite (Hidx b Hb). apply Hmin. pose proof (Hidx b Hb). unfold PGSIZE in *. lia.
  - right. apply free_range_loop_None in Hrun as [Hall|Hno]; [by left|right|done|lia|].
    + intros b Hb Hr. pose proof (Hidx b Hb). rewrite (Hidx b Hb). apply Hno; unfold PGSIZE in *; lia.
    + unfold PGSIZE, MMAP_START in *. pose proof (Z.div_mod stack_bottom 4096).
      pose proof (Z.mod_pos_bound stack_bottom 4096). pose proof (Z.div_pos stack_bottom 4096). lia.
Qed.

Definition demo_area (i len : Z) : vma := mk_vma 1 (MMAP_START + i * PGSIZE) (MMAP_START + (i + len) * PGSIZE) 34 0 11 None.
Definition demo_areas : list vma := demo_area 0 3 :: demo_area 4 1 :: replicate 14 vma_zero.

Lemma demo_areas_inv : vma_inv demo_areas.
Proof.
  split; [done| |].
  - apply Forall_cons; split; [done|]. apply Forall_cons; split; [done|]. by apply Forall_replicate.
  - assert (Hz : ∀ i v, demo_areas !! i = Some v → used v ≠ 0 → i = 0%nat ∧ v = demo_area 0 3 ∨ i = 1%nat ∧ v = demo_area 4 1).
    { intros [|[|i]] v; simpl; [naive_solver..|]. change (vma_zero :: _) with (replicate 14 vma_zero).
      intros [-> _]%lookup_replicate. done. }
    intros i j v w Hi Hj Hne Hv Hw. destruct (Hz i v Hi Hv) as [[-> ->]|[-> ->]], (Hz j w Hj Hw) as [[-> ->]|[-> ->]];
      try done; simpl; [left|right]; done.
Qed.

Lemma find_free_range_spec_witness :
  ∃ v a, demo_areas !! 2%nat = Some v ∧ used v = 0 ∧ vma_inv (<[2%nat := mk_vma 1 a (a + 2 * PGSIZE) 0 0 0 None]> demo_areas) ∧
    MMAP_START ≤ a < MMAP_START + 16 * PGSIZE.
Proof.
  assert (H := find_free_range_spec (MMAP_START + 16 * PGSIZE) (MMAP_START + 16 * PGSIZE) (2 * PGSIZE) demo_areas
    demo_areas_inv ltac:(done) ltac:(done) ltac:(done) ltac:(done)).
  destruct H as (v & a & Hv & Hu & Hl & HI & _ & Hr & _). rewrite Hl in HI. exists v, a.
  split_and!; [exact Hv|exact Hu|exact HI|apply Hr|apply Hr].
Defined.

(** A page belongs to at most one area, the one the search returns. *)
Theorem find_overlapping_vma_spec l a i :
  vma_inv l → a mod PGSIZE = 0 → 0 < a < 2 ^ 39 →
  find_overlapping_vma a PGSIZE l = Some i ↔
  ∃ v, l !! i = Some v ∧ used v ≠ 0 ∧ va_start v ≤ a < va_end v.
Proof.
  intros [Hlen Hok Hd] Ha Hr. unfold find_overlapping_vma. rewrite decide_True by lia.
  assert (Hov : ∀ j v, l !! j = Some v → overlaps a PGSIZE v ↔ used v ≠ 0 ∧ va_start v ≤ a < va_end v).
  { intros j v Hj. pose proof (Forall_lookup_1 _ _ _ _ Hok Hj) as Hv. unfold overlaps.
    rewrite u64_small by (unfold PGSIZE; lia). split; intros (Hu & H1 & H2); destruct (Hv Hu) as (Hs & He & _);
      (split; [done|]); unfold PGSIZE in *; [|lia].
    pose proof (Z.div_mod a 4096). pose proof (Z.div_mod (va_start v) 4096). lia. }
  split.
  - intros ([j v] & Hf & ->)%fmap_Some. apply list_find_Some in Hf as (Hj & Ho & _).
    exists v. split; [done|]. by apply (Hov j).
  - intros (v & Hi & Hin). apply fmap_Some. exists (i, v). split; [|done]. apply list_find_Some.
    split_and!; [done|by apply (Hov i)|]. intros j w Hj Hlt Ho. apply (Hov j w Hj) in Ho.
    destruct (Hd i j v w Hi Hj ltac:(lia)) as [|]; [apply Hin|apply Ho|lia..].
Qed.

Lemma find_overlapping_vma_spec_witness :
  find_overlapping_vma (MMAP_START + 4 * PGSIZE) PGSIZE demo_areas = Some 1%nat ↔
  ∃ v, demo_areas !! 1%nat = Some v ∧ used v ≠ 0 ∧ va_start v ≤ MMAP_START + 4 * PGSIZE < va_end v.
Proof.
  apply (find_overlapping_vma_spec demo_areas (MMAP_START + 4 * PGSIZE) 1); [exact demo_areas_inv|done|done].
Defined.

(** The search bounds the start of the range by the stack, not its end: with
    the first three pages and the fifth taken, two pages below a stack five
    and a half pages up are placed across the bottom of the stack. *)
Theorem find_free_range_crosses_stack :
  let sb := MMAP_START + 6 * PGSIZE in
  match find_free_range sb sb (2 * PGSIZE) demo_areas with
  | Some (i, l') => va_end <$> l' !! i = Some (sb + PGSIZE)
  | None => False
  end.
Proof. vm_compute. reflexivity. Qed.
