(* ===== verification/Vm.v ===== *)
(** arch/riscv/mm/vm.c: Sv39 page tables, copy-on-write fork, lazy
    allocation and the copies between kernel and user memory.

    The paged kernel is modelled ([early_mode] is 0): table pages come from
    kalloc and are reached through the high mapping.  Memory is typed by use:
    [tables] holds the 512 entries of each table page, [frames] the 4096
    bytes of each data page, both by kernel virtual address; kalloc gives a
    zeroed frame, memset turns a frame into an empty table, and an access to
    a page of the other kind, or to none, is a [Fault].  A pointer to an
    entry is its address.  Fences and logging have no effect on this state.

    Pages and their reference counts are the abstract pool that Kalloc proves
    of kalloc.c, seen through the class [PagePool]. *)
From S2P Require Import Prelude Kalloc Vma.

(** asm/mm.h *)
Definition PTE_V : Z := 1.
Definition PTE_R : Z := 2.
Definition PTE_W : Z := 4.
Definition PTE_X : Z := 8.
Definition PTE_U : Z := 16.
Definition PTE_COW : Z := 256.

Definition VPN_GET (va i : Z) : Z := Z.land (Z.shiftr va (12 + 9 * i)) 0x1ff.
Definition PTE2PA (pte : Z) : Z := u64 (Z.shiftl (Z.shiftr pte 10) 12).
Definition PA2PTE (pa : Z) : Z := u64 (Z.shiftl (Z.shiftr pa 12) 10).
Definition PTE_FLAGS (pte : Z) : Z := Z.land pte 0x3ff.
Definition PA2VA (adr : Z) : Z := u64 (adr + KERNEL_VIRT_OFFSET).
Definition VA2PA (adr : Z) : Z := u64 (adr - KERNEL_VIRT_OFFSET).

Definition pte_from_perm (perm : Z) : Z :=
  let flags := 0 in
  let flags := if has perm PTE_READ then Z.lor flags PTE_R else flags in
  let flags := if has perm PTE_WRITE then Z.lor flags PTE_W else flags in
  let flags := if has perm PTE_EXEC then Z.lor flags PTE_X else flags in
  if has perm PTE_USER then Z.lor flags PTE_U else flags.

(** ** The page allocator as the page tables see it *)

Definition frame_ok (p : Z) : Prop :=
  DRAM_BASE_LOW + KERNEL_VIRT_OFFSET < p ∧ p + PGSIZE ≤ PHYSTOP_HIGH ∧ p mod 4096 = 0.

Class PagePool (P : Type) := {
  pp_exec : page_op → K P Z;
  pp_rel : P → pool → Prop;
  pp_step s a o r a' : pp_rel s a → pool_step o a = Some (r, a') →
    ∃ s', pp_exec o s = Ret (r, s') ∧ pp_rel s' a';
  pp_wf s a : pp_rel s a → NoDup (pool_free a) ∧
    (∀ p, p ∈ pool_free a → frame_ok p ∧ pool_owned a !! p = None) ∧
    (∀ p n, pool_owned a !! p = Some n → frame_ok p)
}.

Record vm_state (P : Type) := mk_vm {
  vm_pages : P;
  tables : gmap Z (list Z);
  frames : gmap Z (list Z)
}.
Arguments mk_vm {_} _ _ _.
Arguments vm_pages {_} _.
Arguments tables {_} _.
Arguments frames {_} _.

(** The fields of the current process that the fault paths read. *)
Record uproc := mk_uproc {
  pagetable : Z;
  heap_bottom : Z;
  heap_top : Z;
  stack_bottom : Z;
  stack_top : Z;
  vm_area : list vma
}.

Section vm.
Context {P : Type} `{PagePool P}.
Abbreviation st := (vm_state P).

Definition set_vm_pages p (s : st) : st := mk_vm p (tables s) (frames s).
Definition set_tables t (s : st) : st := mk_vm (vm_pages s) t (frames s).
Definition set_frames f (s : st) : st := mk_vm (vm_pages s) (tables s) f.
Definition no_fuel {A} : K st A := λ _, NoFuel.

(** ** kalloc, kfree and the two kinds of page *)

Definition zero_frame : list Z := replicate 4096 0.
Definition zero_table : list Z := replicate 512 0.

Definition kalloc : K st Z :=
  p ← zoom vm_pages set_vm_pages (pp_exec Op_alloc);
  if decide (p = 0) then mret 0 else
  modify (λ s, mk_vm (vm_pages s) (delete p (tables s)) (<[p := zero_frame]> (frames s))) ;;
  mret p.
Definition kfree (p : Z) : K st unit :=
  zoom vm_pages set_vm_pages (pp_exec (Op_free p)) ;; mret tt.
Definition refcnt_inc (p : Z) : K st Z := zoom vm_pages set_vm_pages (pp_exec (Op_inc p)).
Definition refcnt_dec (p : Z) : K st Z := zoom vm_pages set_vm_pages (pp_exec (Op_dec p)).

(** memset(p, 0, PGSIZE) of a page about to hold entries. *)
Definition table_zero (p : Z) : K st unit := λ s,
  match frames s !! p with
  | None => Fault
  | Some _ => Ret (tt, mk_vm (vm_pages s) (<[p := zero_table]> (tables s)) (delete p (frames s)))
  end.

Definition get_frame (p : Z) : K st (list Z) := λ s,
  match frames s !! p with Some b => Ret (b, s) | None => Fault end.

(** [*pte] *)
Definition pte_page (a : Z) : Z := a - a mod 4096.
Definition pte_index (a : Z) : nat := Z.to_nat (a mod 4096 / 8).
Definition read_pte (a : Z) : K st Z := λ s,
  match tables s !! pte_page a with
  | None => Fault
  | Some l => match l !! pte_index a with Some e => Ret (e, s) | None => Fault end
  end.
Definition write_pte (a e : Z) : K st unit := λ s,
  match tables s !! pte_page a with
  | None => Fault
  | Some l => Ret (tt, set_tables (<[pte_page a := <[pte_index a := e]> l]> (tables s)) s)
  end.

(** ** Walking *)

(** One level of walk: the next table, or [None] for [return 0]. *)
Definition walk_level (alloc : bool) (va i pagetable : Z) : K st (option Z) :=
  let pte := pagetable + 8 * VPN_GET va i in
  e ← read_pte pte;
  if has e PTE_V then mret (Some (PA2VA (PTE2PA e))) else
  if negb alloc then mret None else
  pt ← kalloc;
  if decide (pt = 0) then mret None else
  table_zero pt ;;
  write_pte pte (Z.lor (PA2PTE (VA2PA pt)) PTE_V) ;;
  mret (Some pt).

(** The address of the last-level entry, 0 if there is none. *)
Definition walk (pagetable va : Z) (alloc : bool) : K st Z :=
  r1 ← walk_level alloc va 2 pagetable;
  match r1 with
  | None => mret 0
  | Some pt1 =>
      r0 ← walk_level alloc va 1 pt1;
      match r0 with
      | None => mret 0
      | Some pt0 => mret (pt0 + 8 * VPN_GET va 0)
      end
  end.

Definition walk_addr (pagetable va : Z) : K st Z :=
  pte ← walk pagetable va false;
  if decide (pte = 0) then mret 0 else
  e ← read_pte pte;
  mret (if has e PTE_V then PTE2PA e else 0).

(** ** Mapping and unmapping *)

(** The loop of mappages; the fuel is the number of pages. *)
Fixpoint map_loop (n : nat) (pagetable a last pa perm : Z) : K st Z :=
  match n with
  | O => no_fuel
  | S n =>
      pte ← walk pagetable a true;
      if decide (pte = 0) then mret (-1) else
      e ← read_pte pte;
      if has e PTE_V then kpanic "mappages: remap" else
      write_pte pte (Z.lor (Z.lor (PA2PTE pa) perm) PTE_V) ;;
      if decide (a = last) then mret 0 else
      map_loop n pagetable (u64 (a + PGSIZE)) last (u64 (pa + PGSIZE)) perm
  end.

Definition mappages (pagetable va pa size perm : Z) : K st Z :=
  if decide (va mod PGSIZE ≠ 0) then kpanic "mappages: va not aligned" else
  if decide (size mod PGSIZE ≠ 0) then kpanic "mappages: size not aligned" else
  if decide (size = 0) then kpanic "mappages: size" else
  map_loop (Z.to_nat (size / PGSIZE)) pagetable va (u64 (va + size - PGSIZE)) pa perm.

Definition kvmmap (pagetable va pa size perm : Z) : K st Z :=
  mappages pagetable va pa size (pte_from_perm perm).

(** The body shared by kvmunmap and uvmunmap. *)
Definition unmap_page (pagetable va : Z) (do_free : bool) : K st unit :=
  pte ← walk pagetable va false;
  if decide (pte = 0) then mret tt else
  e ← read_pte pte;
  if negb (has e PTE_V) then mret tt else
  if decide (PTE_FLAGS e = PTE_V) then mret tt else
  (if do_free then kfree (PA2VA (PTE2PA e)) else mret tt) ;;
  write_pte pte 0.

Fixpoint unmap_loop (n : nat) (pagetable a end_ : Z) (do_free : bool) : K st unit :=
  if decide (a < end_) then
    match n with
    | O => no_fuel
    | S n => unmap_page pagetable a do_free ;; unmap_loop n pagetable (u64 (a + PGSIZE)) end_ do_free
    end
  else mret tt.

Definition kvmunmap (pagetable va size : Z) (do_free_pa : bool) : K st unit :=
  if decide (va mod PGSIZE ≠ 0 ∨ size mod PGSIZE ≠ 0) then kpanic "kvmunmap: va not aligned" else
  unmap_loop (Z.to_nat (size / PGSIZE)) pagetable va (u64 (va + size)) do_free_pa.

(** [npage] is an int, converted to uint64 before the product. *)
Definition uvmunmap (pagetable va npage : Z) (do_free : bool) : K st unit :=
  unmap_loop (Z.to_nat npage) pagetable va (u64 (va + u64 (u64 npage * PGSIZE))) do_free.

Definition uvmdealloc (pagetable va size : Z) : K st Z :=
  if decide (size = 0) then mret 0 else
  let old_top := u64 (va + size) in
  let rounded_va := PGROUNDUP va in
  (if decide (rounded_va < old_top) then
     let rounded_old_top := PGROUNDUP old_top in
     let bytes_to_free := u64 (rounded_old_top - rounded_va) in
     uvmunmap pagetable rounded_va (i32 (bytes_to_free / PGSIZE)) true
   else mret tt) ;;
  mret 0.

Fixpoint uvmalloc_loop (n : nat) (pagetable start_ i end_ perm : Z) : K st Z :=
  if decide (i < end_) then
    match n with
    | O => no_fuel
    | S n =>
        mem ← kalloc;
        if decide (mem = 0) then uvmdealloc pagetable start_ (u64 (i - start_)) ;; mret (-1) else
        r ← mappages pagetable i (VA2PA mem) PGSIZE (pte_from_perm (Z.lor perm PTE_USER));
        if decide (r < 0) then
          kfree mem ;; uvmdealloc pagetable start_ (u64 (i - start_)) ;; mret (-1)
        else uvmalloc_loop n pagetable start_ (u64 (i + PGSIZE)) end_ perm
    end
  else mret 0.

Definition uvmalloc (pagetable va size perm : Z) : K st Z :=
  let start_ := PGROUNDDOWN va in
  let end_ := PGROUNDUP (u64 (va + size)) in
  uvmalloc_loop (Z.to_nat ((end_ - start_) / PGSIZE)) pagetable start_ start_ end_ perm.

(** ** Creating and destroying *)

(** freewalk recurses through the levels; three are enough for Sv39. *)
Fixpoint freewalk (depth : nat) (pagetable : Z) : K st unit :=
  match depth with
  | O => no_fuel
  | S depth =>
      forM (seqZ 0 512) (λ i,
        e ← read_pte (pagetable + 8 * i);
        if has e PTE_V && bool_decide (Z.land e (Z.lor (Z.lor PTE_R PTE_W) PTE_X) = 0) then
          freewalk depth (PA2VA (PTE2PA e)) ;; write_pte (pagetable + 8 * i) 0
        else mret tt) ;;
      kfree pagetable
  end.

Definition uvmfree (pagetable : Z) (p : uproc) : K st unit :=
  (if decide (heap_top p > 0)
   then uvmunmap pagetable 0 (i32 (PGROUNDUP (heap_top p) / PGSIZE)) true else mret tt) ;;
  (if decide (stack_top p > stack_bottom p)
   then uvmunmap pagetable (stack_bottom p) (i32 (PGROUNDUP (u64 (stack_top p - stack_bottom p)) / PGSIZE)) true
   else mret tt) ;;
  forM (seqZ 256 256) (λ i, write_pte (pagetable + 8 * i) 0) ;;
  freewalk 3 pagetable.

(** The entries of the kernel's half are shared. *)
Definition uvmcreate (kernel_table : Z) : K st Z :=
  pt ← kalloc;
  if decide (pt = 0) then kpanic "Failed to allocate memory" else
  table_zero pt ;;
  forM (seqZ 256 256) (λ i, e ← read_pte (kernel_table + 8 * i); write_pte (pt + 8 * i) e) ;;
  mret pt.

(** ** Copy on write *)

(** One present page of uvmcopy: [Some (-1)] is [goto err]. *)
Definition copy_page (new va pte0 : Z) : K st (option Z) :=
  e ← read_pte pte0;
  let pa := PTE2PA e in
  let ptewrite := has e PTE_W in
  let e1 := Z.land (Z.lor e PTE_COW) (not64 PTE_W) in
  write_pte pte0 e1 ;;
  let flags := PTE_FLAGS e1 in
  refcnt_inc (PA2VA pa) ;;
  r ← mappages new va pa PGSIZE flags;
  if decide (r < 0) then
    (e2 ← read_pte pte0;
     let e3 := Z.land e2 (not64 PTE_COW) in
     write_pte pte0 (if ptewrite then Z.lor e3 PTE_W else e3)) ;;
    refcnt_dec (PA2VA pa) ;;
    mret (Some (-1))
  else mret None.

(** [if ( *pte & PTE_V) body(PA2VA(PTE2PA( *pte)))] *)
Definition if_present (pte : Z) (body : Z → K st (option Z)) : K st (option Z) :=
  e ← read_pte pte;
  if has e PTE_V then body (PA2VA (PTE2PA e)) else mret None.

Definition uvmcopy (old new : Z) : K st Z :=
  r ← for_find (seqZ 0 256) (λ i2,
        if_present (old + 8 * i2) (λ pt1,
          for_find (seqZ 0 512) (λ i1,
            if_present (pt1 + 8 * i1) (λ pt0,
              for_find (seqZ 0 512) (λ i0,
                if_present (pt0 + 8 * i0) (λ _,
                  copy_page new
                    (Z.lor (Z.lor (Z.shiftl i2 30) (Z.shiftl i1 21)) (Z.shiftl i0 12))
                    (pt0 + 8 * i0)))))));
  mret (match r with Some _ => -1 | None => 0 end).

(** ** Faults *)

Definition handle_page_fault (p : uproc) (pagetable va : Z) : K st Z :=
  let va := PGROUNDDOWN va in
  if decide (va > stack_bottom p) then mret (-1) else
  if decide (va < heap_bottom p) then mret (-1) else
  mem ← kalloc;
  if decide (mem = 0) then mret (-1) else
  r ← mappages pagetable va (VA2PA mem) PGSIZE (Z.lor (Z.lor (Z.lor PTE_V PTE_R) PTE_W) PTE_U);
  if decide (r < 0) then kfree mem ;; mret (-1) else mret 0.

Definition handle_anonymous_vma_fault (p : uproc) (v : vma) (va : Z) : K st Z :=
  pa ← kalloc;
  if decide (pa = 0) then mret (-1) else
  r ← kvmmap (pagetable p) va (VA2PA pa) PGSIZE (vm_page_prot v);
  if decide (r < 0) then kfree pa ;; mret (-1) else mret 0.

(** vfs_read_at of the area's file: the result and the bytes it stored. *)
Context (read_at : nat → Z → Z * list Z).

Definition handle_file_vma_fault (p : uproc) (v : vma) (f : nat) (va : Z) : K st Z :=
  buf ← kalloc;
  if decide (buf = 0) then mret (-1) else
  let off := u64 (file_offset v + (va - va_start v)) in
  let '(n, data) := read_at f off in
  if decide (n < 0) then kfree buf ;; mret (-1) else
  modify (λ s, set_frames (<[buf := take 4096 (data ++ zero_frame)]> (frames s)) s) ;;
  r ← kvmmap (pagetable p) va (VA2PA buf) PGSIZE (vm_page_prot v);
  if decide (r < 0) then kfree buf ;; mret (-1) else mret 0.

Definition handle_vma_fault (p : uproc) (va : Z) : K st Z :=
  let va := PGROUNDDOWN va in
  match find_overlapping_vma va PGSIZE (vm_area p) with
  | None => mret (-1)
  | Some i =>
      match vm_area p !! i with
      | None => kfault
      | Some v =>
          match vma_file v with
          | Some f => handle_file_vma_fault p v f va
          | None => handle_anonymous_vma_fault p v va
          end
      end
  end.

Definition is_cow_fault (pagetable va : Z) : K st Z :=
  pte ← walk pagetable (PGROUNDDOWN va) false;
  if decide (pte = 0) then mret (-1) else
  e ← read_pte pte;
  mret (if negb (has e PTE_V) then -1 else if has e PTE_COW then 0 else -1).

Definition handle_cow_fault (pagetable va : Z) : K st Z :=
  pte ← walk pagetable (PGROUNDDOWN va) false;
  e ← read_pte pte;
  let pa := PTE2PA e in
  let flags := PTE_FLAGS e in
  mem ← kalloc;
  if decide (mem = 0) then mret (-1) else
  b ← get_frame (PA2VA pa);
  modify (λ s, set_frames (<[mem := b]> (frames s)) s) ;;
  let flags := Z.lor (Z.land flags (not64 PTE_COW)) PTE_W in
  kfree (PA2VA pa) ;;
  write_pte pte (Z.lor (PA2PTE (VA2PA mem)) flags) ;;
  mret 0.

(** ** Copies between kernel and user memory *)

(** The lazy allocation at the head of copyin and copyout: 0 when the entry is
    to be read again, -1 on failure. *)
Definition fault_in (p : uproc) (pagetable va : Z) : K st Z :=
  let is_text_data := bool_decide (0x10000 ≤ va ∧ va < u64 (heap_bottom p - PGSIZE)) in
  let is_heap := bool_decide (heap_bottom p ≤ va ∧ va < heap_top p) in
  let is_stack := bool_decide (stack_bottom p ≤ va ∧ va < stack_top p) in
  if is_heap || is_stack || is_text_data then
    r ← handle_page_fault p pagetable va; mret (if decide (r < 0) then -1 else 0)
  else match find_overlapping_vma va PGSIZE (vm_area p) with
       | Some _ => r ← handle_vma_fault p va; mret (if decide (r < 0) then -1 else 0)
       | None => mret (-1)
       end.

(** The entry of [va] after lazy allocation, [None] for [return -1]. *)
Definition user_pte (p : uproc) (pagetable va : Z) : K st (option Z) :=
  pte ← walk pagetable va false;
  e ← (if decide (pte = 0) then mret 0 else read_pte pte);
  if bool_decide (pte = 0) || negb (has e PTE_V) then
    r ← fault_in p pagetable va;
    if decide (r < 0) then mret None else
    pte ← walk pagetable va false; mret (Some pte)
  else mret (Some pte).

(** The bytes stored from [dst] on are returned; [r] is the return value. *)
Fixpoint copyin_loop (n : nat) (p : uproc) (pagetable src len : Z) : K st (Z * list Z) :=
  if decide (len > 0) then
    match n with
    | O => no_fuel
    | S n =>
        let va := PGROUNDDOWN src in
        o ← user_pte p pagetable va;
        match o with
        | None => mret (-1, [])
        | Some pte =>
            if decide (pte = 0) then mret (-1, []) else
            e ← read_pte pte;
            if negb (has e PTE_V) || negb (has e PTE_U) then mret (-1, []) else
            b ← get_frame (PA2VA (PTE2PA e));
            let offset := src - va in
            let size := if decide (PGSIZE - offset > len) then len else PGSIZE - offset in
            rest ← copyin_loop n p pagetable (u64 (src + size)) (len - size);
            mret (fst rest, take (Z.to_nat size) (drop (Z.to_nat offset) b) ++ snd rest)
        end
    end
  else mret (0, []).

(** Each round ends a page, or the copy. *)
Definition copy_fuel (len : Z) : nat := Z.to_nat (len / PGSIZE + 2).
Definition copyin (p : uproc) (pagetable src len : Z) : K st (Z * list Z) :=
  copyin_loop (copy_fuel len) p pagetable src len.

(** memmove of [l] to offset [off] of a frame. *)
Definition splice (off : Z) (l b : list Z) : list Z :=
  take (Z.to_nat off) b ++ l ++ drop (Z.to_nat off + length l) b.

(** The copy-on-write step of copyout: the entry to store through, [None] for
    [return -1]. *)
Definition copyout_pte (pagetable va pte : Z) : K st (option Z) :=
  e ← (if decide (pte = 0) then mret 0 else read_pte pte);
  r ← (if bool_decide (pte ≠ 0) && has e PTE_COW then handle_cow_fault pagetable va else mret 0);
  if decide (r < 0) then mret None else
  pte ← (if bool_decide (pte ≠ 0) && has e PTE_COW then walk pagetable va false else mret pte);
  e ← read_pte pte;
  mret (Some e).

Fixpoint copyout_loop (n : nat) (p : uproc) (pagetable dst : Z) (src : list Z) : K st Z :=
  let len := Z.of_nat (length src) in
  if decide (len > 0) then
    match n with
    | O => no_fuel
    | S n =>
        let va := PGROUNDDOWN dst in
        o ← user_pte p pagetable va;
        match o with
        | None => mret (-1)
        | Some pte =>
            x ← copyout_pte pagetable va pte;
            match x with
            | None => mret (-1)
            | Some e =>
                if negb (has e PTE_V) || bool_decide (Z.land e (Z.lor PTE_W PTE_U) ≠ Z.lor PTE_W PTE_U)
                then mret (-1) else
                let pa := PTE2PA e in
                if decide (pa > PHYSTOP_LOW) then kpanic "copyout: pa out of range" else
                b ← get_frame (PA2VA pa);
                let offset := dst - va in
                let size := if decide (PGSIZE - offset > len) then len else PGSIZE - offset in
                modify (λ s, set_frames (<[PA2VA pa := splice offset (take (Z.to_nat size) src) b]> (frames s)) s) ;;
                copyout_loop n p pagetable (u64 (dst + size)) (drop (Z.to_nat size) src)
            end
        end
    end
  else mret 0.
Definition copyout (p : uproc) (pagetable dst : Z) (src : list Z) : K st Z :=
  copyout_loop (copy_fuel (Z.of_nat (length src))) p pagetable dst src.


(** ** Abstraction

    An address space of every root table: [m] maps a root and a virtual page
    number of the user half to the entry that translates it.  [o] is the
    place of each table page: its root, its level and the page number of its
    first entry in units of its level. *)

Definition pte_frame (e : Z) : Z := PA2VA (PTE2PA e).
Definition entry (s : st) (p i : Z) : option Z := l ← tables s !! p; l !! Z.to_nat i.
Abbreviation owner := (gmap Z (Z * Z * Z)).
Abbreviation aspace := (gmap (Z * Z) Z).

Record pt_rel (s : st) (o : owner) (m : aspace) : Prop := {
  pt_table p x : o !! p = Some x →
    frame_ok p ∧ ∃ l, tables s !! p = Some l ∧ length l = 512%nat ∧ Forall (λ e, 0 ≤ e < 2 ^ 64) l;
  pt_root p r q : o !! p = Some (r, 2, q) → r = p ∧ q = 0;
  pt_level p r l q : o !! p = Some (r, l, q) → 0 ≤ l ≤ 2 ∧ 0 ≤ q ∧ (l = 1 → q < 256) ∧ (l = 0 → q < 131072);
  pt_child p r l q i e : o !! p = Some (r, l, q) → 0 < l → 0 ≤ i < 512 → (l = 2 → i < 256) →
    entry s p i = Some e → Z.testbit e 0 = true → o !! pte_frame e = Some (r, l - 1, q * 512 + i);
  pt_parent c r l q : o !! c = Some (r, l, q) → l < 2 →
    ∃ p e, o !! p = Some (r, l + 1, q / 512) ∧ entry s p (q mod 512) = Some e ∧
      Z.testbit e 0 = true ∧ pte_frame e = c;
  pt_leaf r v e : m !! (r, v) = Some e ↔
    0 ≤ v ∧ ∃ p, o !! p = Some (r, 0, v / 512) ∧ entry s p (v mod 512) = Some e ∧ Z.testbit e 0 = true;
  pt_bare p r l q i e : o !! p = Some (r, l, q) → 0 < l → 0 ≤ i < 512 → (l = 2 → i < 256) →
    entry s p i = Some e → Z.testbit e 0 = true → Z.land e (Z.lor (Z.lor PTE_R PTE_W) PTE_X) = 0
}.

(** Mappings of the frame [f], and references to it held outside the tables. *)
Definition mapped (f : Z) (m : aspace) : Z :=
  Z.of_nat (size (filter (λ x, pte_frame x.2 = f) m)).
Definition held (f : Z) (h : list Z) : Z := Z.of_nat (length (filter (λ g, g = f) h)).

Record own_rel (s : st) (a : pool) (o : owner) (m : aspace) (h : list Z) : Prop := {
  own_pool : pp_rel (vm_pages s) a;
  own_table p x : o !! p = Some x → pool_owned a !! p = Some 1 ∧ mapped p m + held p h = 0;
  own_frame f : mapped f m + held f h > 0 →
    pool_owned a !! f = Some (mapped f m + held f h) ∧
    ∃ b, frames s !! f = Some b ∧ length b = 4096%nat;
  own_only f n : pool_owned a !! f = Some n → is_Some (o !! f) ∨ mapped f m + held f h > 0
}.

Record vm_rel (s : st) (a : pool) (o : owner) (m : aspace) (h : list Z) : Prop := {
  vr_pt : pt_rel s o m;
  vr_own : own_rel s a o m h
}.

(** Frames in use keep their contents, and table pages their place. *)
Definition vm_ext (s s' : st) (o o' : owner) (m : aspace) (h : list Z) : Prop :=
  o ⊆ o' ∧ ∀ f, mapped f m + held f h > 0 → frames s' !! f = frames s !! f.
Definition is_root (o : owner) (r : Z) : Prop := o !! r = Some (r, 2, 0).

(** * Lemmas *)

(** ** Entries and addresses *)

Lemma lor_add_low x f k : 0 ≤ k → 0 ≤ f < 2 ^ k → Z.lor (x * 2 ^ k) f = x * 2 ^ k + f.
Proof.
  intros Hk Hf. rewrite <-Z.shiftl_mul_pow2 by done. rewrite <-Z.add_lor_land. assert (Hz : Z.land (Z.shiftl x k) f = 0); [|lia].
  apply Z.bits_inj'. intros i Hi. rewrite Z.land_spec, Z.bits_0. destruct (decide (i < k)).
  - rewrite Z.shiftl_spec_low by done. done.
  - rewrite (testbit_high f k i) by lia. by rewrite andb_false_r.
Qed.

Lemma VPN_GET_eq va i : 0 ≤ i → VPN_GET va i = va / 2 ^ (12 + 9 * i) mod 512.
Proof.
  intros Hi. unfold VPN_GET. change 0x1ff with (Z.ones 9).
  rewrite Z.land_ones, Z.shiftr_div_pow2 by lia. done.
Qed.

Lemma VPN_of_page v :
  VPN_GET (v * 4096) 2 = v / 512 / 512 mod 512 ∧ VPN_GET (v * 4096) 1 = v / 512 mod 512 ∧
  VPN_GET (v * 4096) 0 = v mod 512.
Proof.
  rewrite !VPN_GET_eq by lia. change (2 ^ (12 + 9 * 2)) with (4096 * (512 * 512)).
  change (2 ^ (12 + 9 * 1)) with (4096 * 512). change (2 ^ (12 + 9 * 0)) with 4096.
  rewrite <-!Z.div_div by lia. rewrite !Z.div_mul by lia. done.
Qed.

Lemma frame_ok_pos p : frame_ok p → 0 < p < 2 ^ 64.
Proof. unfold frame_ok, PHYSTOP_HIGH, PHYSTOP_LOW, DRAM_BASE_LOW, DRAM_SIZE, PGSIZE, KERNEL_VIRT_OFFSET. lia. Qed.

Lemma pte_addr p i : frame_ok p → 0 ≤ i < 512 → pte_page (p + 8 * i) = p ∧ pte_index (p + 8 * i) = Z.to_nat i.
Proof.
  intros (_ & _ & Hp) Hi. unfold pte_page, pte_index.
  assert (Hm : (p + 8 * i) mod 4096 = 8 * i).
  { rewrite <-Zplus_mod_idemp_l, Hp, Z.add_0_l, Z.mod_small by lia. done. }
  rewrite Hm. split; [lia|]. rewrite Z.mul_comm, Z.div_mul by lia. done.
Qed.

(** The entry that maps the frame [pg]. *)
Lemma PA2PTE_eq pa : 0 ≤ pa < 2 ^ 56 → PA2PTE pa = pa / 4096 * 2 ^ 10.
Proof.
  intros Hpa. unfold PA2PTE. rewrite Z.shiftl_mul_pow2, Z.shiftr_div_pow2 by lia. change (2 ^ 12) with 4096.
  apply u64_small. pose proof (Z.div_lt_upper_bound pa 4096 (2 ^ 44)). pose proof (Z.div_pos pa 4096). lia.
Qed.

Lemma VA2PA_range pg : frame_ok pg → 0 < VA2PA pg < 2 ^ 33 ∧ VA2PA pg mod 4096 = 0 ∧
  VA2PA pg = pg - KERNEL_VIRT_OFFSET ∧ VA2PA pg ≤ PHYSTOP_LOW.
Proof.
  intros Hp. pose proof Hp as (H1 & H2 & H3). unfold VA2PA.
  assert (Hr : 0 < pg - KERNEL_VIRT_OFFSET < 2 ^ 33 ∧ pg - KERNEL_VIRT_OFFSET ≤ PHYSTOP_LOW).
  { unfold PHYSTOP_HIGH, PHYSTOP_LOW, DRAM_BASE_LOW, DRAM_SIZE, PGSIZE, KERNEL_VIRT_OFFSET in *. lia. }
  rewrite u64_small by lia. split_and!; try lia.
  rewrite Zminus_mod, H3. done.
Qed.

Lemma pte_mk pg f :
  frame_ok pg → 0 ≤ f < 1024 →
  Z.lor (PA2PTE (VA2PA pg)) f = VA2PA pg / 4096 * 1024 + f.
Proof.
  intros Hp Hf. destruct (VA2PA_range pg Hp) as (Hr & _). rewrite PA2PTE_eq by lia.
  rewrite lor_add_low by lia. done.
Qed.

Lemma pte_mk_range pg f : frame_ok pg → 0 ≤ f < 1024 → 0 ≤ Z.lor (PA2PTE (VA2PA pg)) f < 2 ^ 64.
Proof.
  intros Hp Hf. rewrite pte_mk by done. destruct (VA2PA_range pg Hp) as (Hr & _).
  pose proof (Z.div_lt_upper_bound (VA2PA pg) 4096 (2 ^ 44)). pose proof (Z.div_pos (VA2PA pg) 4096). lia.
Qed.

Lemma PTE2PA_eq e : 0 ≤ e < 2 ^ 62 → PTE2PA e = e / 1024 * 4096.
Proof.
  intros He. unfold PTE2PA. rewrite Z.shiftl_mul_pow2, Z.shiftr_div_pow2 by lia. change (2 ^ 10) with 1024.
  apply u64_small. pose proof (Z.div_lt_upper_bound e 1024 (2 ^ 52)). pose proof (Z.div_pos e 1024). lia.
Qed.

Lemma pte_frame_mk pg f : frame_ok pg → 0 ≤ f < 1024 → pte_frame (Z.lor (PA2PTE (VA2PA pg)) f) = pg.
Proof.
  intros Hp Hf. unfold pte_frame. rewrite pte_mk by done. destruct (VA2PA_range pg Hp) as (Hr & Hm & Heq & _).
  pose proof (Z.div_lt_upper_bound (VA2PA pg) 4096 (2 ^ 44)). pose proof (Z.div_pos (VA2PA pg) 4096).
  rewrite PTE2PA_eq by lia. rewrite Z.div_add_l by lia. rewrite (Z.div_small f) by lia.
  rewrite Z.add_0_r. pose proof (Z.div_mod (VA2PA pg) 4096). replace (VA2PA pg / 4096 * 4096) with (VA2PA pg) by lia.
  unfold PA2VA. rewrite Heq. pose proof (frame_ok_pos pg Hp). rewrite u64_small; lia.
Qed.

Lemma pte_bits_mk pg f i : frame_ok pg → 0 ≤ f < 1024 → 0 ≤ i < 10 →
  Z.testbit (Z.lor (PA2PTE (VA2PA pg)) f) i = Z.testbit f i.
Proof.
  intros Hp Hf Hi. destruct (VA2PA_range pg Hp) as (Hr & _). rewrite PA2PTE_eq by lia.
  rewrite Z.lor_spec, Z.mul_pow2_bits_low by lia. done.
Qed.

(** The frame depends on the bits above the flags only. *)
Lemma pte_frame_bits e e' :
  (∀ i, 10 ≤ i → Z.testbit e i = Z.testbit e' i) → pte_frame e = pte_frame e' ∧ PTE2PA e = PTE2PA e'.
Proof.
  intros Hb. assert (Hs : Z.shiftr e 10 = Z.shiftr e' 10).
  { apply Z.bits_inj'. intros i Hi. rewrite !Z.shiftr_spec by done. apply Hb. lia. }
  unfold pte_frame, PTE2PA. by rewrite Hs.
Qed.

Lemma has_V e : has e PTE_V = Z.testbit e 0.
Proof. apply (has_pow2 e 0). lia. Qed.
Lemma has_W e : has e PTE_W = Z.testbit e 2.
Proof. apply (has_pow2 e 2). lia. Qed.
Lemma has_U e : has e PTE_U = Z.testbit e 4.
Proof. apply (has_pow2 e 4). lia. Qed.
Lemma has_COW e : has e PTE_COW = Z.testbit e 8.
Proof. apply (has_pow2 e 8). lia. Qed.
Lemma land_WU e : has e PTE_U = true → has e PTE_W = true → Z.land e (Z.lor PTE_W PTE_U) = Z.lor PTE_W PTE_U.
Proof.
  rewrite has_U, has_W. intros HU HW. rewrite Z.land_lor_distr_r. change PTE_W with (2 ^ 2). change PTE_U with (2 ^ 4).
  by rewrite !land_pow2, HU, HW by lia.
Qed.

(** ** Table updates *)

Definition upd (s : st) (p i e : Z) : st :=
  set_tables (<[p := <[Z.to_nat i := e]> (default [] (tables s !! p))]> (tables s)) s.

Lemma entry_Some s o m p x i :
  pt_rel s o m → o !! p = Some x → 0 ≤ i < 512 → ∃ e, entry s p i = Some e ∧ 0 ≤ e < 2 ^ 64.
Proof.
  intros HR Hp Hi. destruct (pt_table _ _ _ HR p x Hp) as (_ & l & Hl & Hlen & Hall).
  destruct (lookup_lt_is_Some_2 l (Z.to_nat i)) as [e He]; [lia|].
  exists e. unfold entry. rewrite Hl. split; [done|]. by apply (Forall_lookup_1 _ _ _ _ Hall He).
Qed.

Lemma read_pte_run s o m p x i e :
  pt_rel s o m → o !! p = Some x → 0 ≤ i < 512 → entry s p i = Some e → read_pte (p + 8 * i) s = Ret (e, s).
Proof.
  intros HR Hp Hi He. destruct (pt_table _ _ _ HR p x Hp) as (Hok & l & Hl & _).
  destruct (pte_addr p i Hok Hi) as [Hpg Hix]. unfold read_pte, entry in *. rewrite Hpg, Hix, Hl in *.
  simpl in He. by rewrite He.
Qed.

Lemma write_pte_run s o m p x i e :
  pt_rel s o m → o !! p = Some x → 0 ≤ i < 512 → write_pte (p + 8 * i) e s = Ret (tt, upd s p i e).
Proof.
  intros HR Hp Hi. destruct (pt_table _ _ _ HR p x Hp) as (Hok & l & Hl & _).
  destruct (pte_addr p i Hok Hi) as [Hpg Hix]. unfold write_pte, upd. by rewrite Hpg, Hix, Hl.
Qed.

Lemma entry_upd s o m p x i e p' i' :
  pt_rel s o m → o !! p = Some x → 0 ≤ i < 512 → 0 ≤ i' →
  entry (upd s p i e) p' i' = if decide (p' = p ∧ i' = i) then Some e else entry s p' i'.
Proof.
  intros HR Hp Hi Hi'. destruct (pt_table _ _ _ HR p x Hp) as (Hok & l & Hl & Hlen & _).
  unfold entry, upd. simpl. rewrite Hl. simpl. rewrite lookup_insert.
  destruct (decide (p = p')) as [<-|Hne]; simpl.
  - rewrite Hl. simpl. destruct (decide (i' = i)) as [->|Hie].
    + rewrite decide_True by done. rewrite list_lookup_insert_eq by lia. done.
    + rewrite decide_False by tauto. rewrite list_lookup_insert_ne by lia. done.
  - rewrite decide_False by naive_solver. done.
Qed.

Lemma upd_table s o m p x i e p' y :
  pt_rel s o m → o !! p = Some x → 0 ≤ i < 512 → 0 ≤ e < 2 ^ 64 → o !! p' = Some y →
  frame_ok p' ∧ ∃ l, tables (upd s p i e) !! p' = Some l ∧ length l = 512%nat ∧ Forall (λ e, 0 ≤ e < 2 ^ 64) l.
Proof.
  intros HR Hp Hi He Hp'. destruct (pt_table _ _ _ HR p x Hp) as (Hok & l & Hl & Hlen & Hall).
  destruct (pt_table _ _ _ HR p' y Hp') as (Hok' & l' & Hl' & Hlen' & Hall'). split; [done|].
  unfold upd. simpl. rewrite Hl. simpl. rewrite lookup_insert. destruct (decide (p = p')) as [<-|Hne].
  - exists (<[Z.to_nat i := e]> l). split_and!; [done|by rewrite length_insert|by apply Forall_insert].
  - by exists l'.
Qed.

(** A pair of level 0 names one page. *)
Lemma owner_inj1 s o m p p' r q :
  pt_rel s o m → o !! p = Some (r, 1, q) → o !! p' = Some (r, 1, q) → p = p'.
Proof.
  intros HR Hp Hp'. destruct (pt_parent _ _ _ HR p r 1 q Hp) as (t & e & Ht & He & _ & <-); [done|].
  destruct (pt_parent _ _ _ HR p' r 1 q Hp') as (t' & e' & Ht' & He' & _ & <-); [done|].
  destruct (pt_root _ _ _ HR t r _ Ht) as [-> _]. destruct (pt_root _ _ _ HR t' t _ Ht') as [-> _]. congruence.
Qed.
Lemma owner_inj0 s o m p p' r q :
  pt_rel s o m → o !! p = Some (r, 0, q) → o !! p' = Some (r, 0, q) → p = p'.
Proof.
  intros HR Hp Hp'. destruct (pt_parent _ _ _ HR p r 0 q Hp) as (t & e & Ht & He & _ & <-); [done|].
  destruct (pt_parent _ _ _ HR p' r 0 q Hp') as (t' & e' & Ht' & He' & _ & <-); [done|].
  assert (t = t') as -> by (eapply owner_inj1; eauto). congruence.
Qed.

Lemma vpn_split q i v : 0 ≤ i < 512 → v = q * 512 + i ↔ v / 512 = q ∧ v mod 512 = i.
Proof.
  intros Hi. split; [intros ->|intros [<- <-]; pose proof (Z.div_mod v 512); lia].
  split; [rewrite Z.div_add_l, Z.div_small by lia; lia|].
  rewrite Z.add_comm, Z.mod_add, Z.mod_small by lia. done.
Qed.

(** Writing a last-level entry updates one translation. *)
Lemma pt_write_leaf s o m p r q i e :
  pt_rel s o m → o !! p = Some (r, 0, q) → 0 ≤ i < 512 → 0 ≤ e < 2 ^ 64 →
  pt_rel (upd s p i e) o
    (if Z.testbit e 0 then <[(r, q * 512 + i) := e]> m else delete (r, q * 512 + i) m).
Proof.
  intros HR Hp Hi He. destruct (pt_level _ _ _ HR p r 0 q Hp) as (_ & Hq & _ & Hq2).
  assert (Hent : ∀ p' i', 0 ≤ i' → entry (upd s p i e) p' i' = if decide (p' = p ∧ i' = i) then Some e else entry s p' i').
  { intros. by apply (entry_upd s o m p (r, 0, q)). }
  split.
  - intros p' y. by apply (upd_table s o m p (r, 0, q)).
  - apply HR.
  - apply HR.
  - intros p' r' l' q' i' e' Hp' Hl Hi' Hi2. rewrite Hent by lia.
    rewrite decide_False; [by apply HR|]. intros [-> _]. rewrite Hp in Hp'. injection Hp' as _ Hlv _. lia.
  - intros c r' l' q' Hc Hl. destruct (pt_parent _ _ _ HR c r' l' q' Hc Hl) as (p' & e' & Hp' & He' & Hv & Hf).
    exists p', e'. split_and!; [done| |done|done]. rewrite Hent by (apply Z.mod_pos_bound; lia).
    rewrite decide_False; [done|]. intros [-> _]. rewrite Hp in Hp'. injection Hp' as _ Hlv _.
    destruct (pt_level _ _ _ HR c r' l' q' Hc). lia.
  - intros r' v e'. assert (Hiff : (r', v) = (r, q * 512 + i) ↔ r' = r ∧ v / 512 = q ∧ v mod 512 = i).
    { rewrite <-vpn_split by done. naive_solver. }
    assert (Hmod := Z.mod_pos_bound v 512 ltac:(lia)).
    assert (Hkey : (0 ≤ v ∧ ∃ p', o !! p' = Some (r', 0, v / 512) ∧
        entry (upd s p i e) p' (v mod 512) = Some e' ∧ Z.testbit e' 0 = true) ↔
      if decide ((r', v) = (r, q * 512 + i)) then e' = e ∧ Z.testbit e 0 = true else m !! (r', v) = Some e').
    { destruct (decide ((r', v) = (r, q * 512 + i))) as [Heq|Hne].
      - apply Hiff in Heq as (-> & Hvq & Hvi). split.
        + intros (Hv & p' & Hp' & Hen & Hb). rewrite Hvq in Hp'.
          assert (p' = p) as -> by (eapply owner_inj0; eauto).
          rewrite Hent, decide_True in Hen by (lia || done). naive_solver.
        + intros [-> Hb]. split; [pose proof (Z.div_mod v 512); lia|]. exists p. rewrite Hvq. split; [done|].
          rewrite Hent, decide_True by (lia || done). done.
      - rewrite (pt_leaf _ _ _ HR r' v e'). split; intros (Hv & p' & Hp' & Hen & Hb); (split; [done|]);
          exists p'; (split; [done|]); (split; [|done]).
        + rewrite Hent in Hen by lia. case_decide as Hd; [|done]. exfalso. apply Hne, Hiff.
          destruct Hd as [-> Hd]. rewrite Hp in Hp'. naive_solver.
        + rewrite Hent, decide_False; [done| |lia]. intros [-> Hd]. apply Hne, Hiff. rewrite Hp in Hp'. naive_solver. }
    rewrite Hkey. destruct (decide ((r', v) = (r, q * 512 + i))) as [Heq|Hne].
    + rewrite Heq. destruct (Z.testbit e 0); [rewrite lookup_insert_eq|rewrite lookup_delete_eq]; naive_solver.
    + destruct (Z.testbit e 0); [rewrite lookup_insert_ne by done|rewrite lookup_delete_ne by done]; done.
  - intros p' r' l' q' i' e' Hp' Hl Hi' Hi2. rewrite Hent by lia.
    rewrite decide_False; [by apply (pt_bare _ _ _ HR p' r' l' q')|]. intros [-> _]. rewrite Hp in Hp'. injection Hp' as _ Hlv _. lia.
Qed.

Lemma zero_entry s c i : tables s !! c = Some zero_table → 0 ≤ i < 512 → entry s c i = Some 0.
Proof. intros Hc Hi. unfold entry. rewrite Hc. simpl. apply lookup_replicate. split; [done|lia]. Qed.

(** Linking an empty table page below [p]. *)
Lemma table_entry_bare c : frame_ok c → Z.land (Z.lor (PA2PTE (VA2PA c)) PTE_V) (Z.lor (Z.lor PTE_R PTE_W) PTE_X) = 0.
Proof.
  intros Hc. apply Z.bits_inj'. intros k Hk. rewrite Z.land_spec, Z.bits_0. change (Z.lor (Z.lor PTE_R PTE_W) PTE_X) with 14.
  destruct (decide (k < 4)) as [Hlt|Hge].
  - rewrite pte_bits_mk by (done || lia). assert (k = 0 ∨ k = 1 ∨ k = 2 ∨ k = 3) as [->|[->|[->| ->]]] by lia; reflexivity.
  - rewrite (testbit_high 14 4) by lia. apply andb_false_r.
Qed.

Lemma pt_add_table s o m p r l q i e0 c :
  pt_rel s o m → o !! p = Some (r, l, q) → 0 < l → 0 ≤ i < 512 → (l = 2 → i < 256) →
  entry s p i = Some e0 → Z.testbit e0 0 = false →
  frame_ok c → o !! c = None → tables s !! c = Some zero_table →
  pt_rel (upd s p i (Z.lor (PA2PTE (VA2PA c)) PTE_V)) (<[c := (r, l - 1, q * 512 + i)]> o) m.
Proof.
  intros HR Hp Hl Hi Hi2 He0 Hv0 Hc Hoc Htc. set (e := Z.lor (PA2PTE (VA2PA c)) PTE_V).
  assert (He : 0 ≤ e < 2 ^ 64) by (by apply pte_mk_range).
  assert (Hfe : pte_frame e = c) by (by apply pte_frame_mk).
  assert (Hve : Z.testbit e 0 = true) by (unfold e; rewrite pte_bits_mk by done; done).
  assert (Hpc : p ≠ c) by congruence.
  destruct (pt_level _ _ _ HR p r l q Hp) as (Hl2 & Hq & Hq1 & Hq0).
  assert (Hent : ∀ p' i', 0 ≤ i' → entry (upd s p i e) p' i' = if decide (p' = p ∧ i' = i) then Some e else entry s p' i').
  { intros. by apply (entry_upd s o m p (r, l, q)). }
  assert (Hzero : ∀ i', 0 ≤ i' < 512 → entry (upd s p i e) c i' = Some 0).
  { intros i' Hi'. rewrite Hent, decide_False by (lia || naive_solver). by apply zero_entry. }
  split.
  - intros p' y. rewrite lookup_insert. destruct (decide (c = p')) as [<-|Hne].
    + intros _. split; [done|]. exists zero_table. unfold upd. simpl. rewrite lookup_insert_ne by done.
      split_and!; [done|done|]. apply Forall_replicate. lia.
    + intros Hy. by apply (upd_table s o m p (r, l, q) i e p' y).
  - intros p' r' q'. rewrite lookup_insert. destruct (decide (c = p')) as [<-|Hne]; [|apply HR].
    intros [= <- Hl' <-]. lia.
  - intros p' r' l' q'. rewrite lookup_insert. destruct (decide (c = p')) as [<-|Hne]; [|apply HR].
    intros [= <- <- <-]. assert (l = 1 ∨ l = 2) as [-> | ->] by lia.
    + specialize (Hq1 eq_refl). lia.
    + destruct (pt_root _ _ _ HR p r q Hp) as [_ ->]. specialize (Hi2 eq_refl). lia.
  - intros p' r' l' q' i' e'. rewrite lookup_insert. destruct (decide (c = p')) as [<-|Hne].
    + intros _ _ Hi' _. rewrite Hzero by done. intros [= <-]. rewrite Z.bits_0. done.
    + intros Hp' Hl' Hi' Hi2' . rewrite Hent by lia. case_decide as Hd.
      * destruct Hd as [-> ->]. intros [= <-] _. rewrite Hp in Hp'. injection Hp' as <- <- <-.
        rewrite Hfe, lookup_insert_eq. done.
      * intros He' Hb. pose proof (pt_child _ _ _ HR p' r' l' q' i' e' Hp' Hl' Hi' Hi2' He' Hb) as Hch.
        rewrite lookup_insert_ne by congruence. done.
  - intros c' r' l' q'. rewrite lookup_insert. destruct (decide (c = c')) as [<-|Hne].
    + intros [= <- <- <-] _. destruct (proj1 (vpn_split q i (q * 512 + i) Hi) eq_refl) as [-> ->].
      exists p, e. rewrite lookup_insert_ne by done. replace (l - 1 + 1) with l by lia.
      rewrite Hent, decide_True by (lia || done). done.
    + intros Hc' Hl'. destruct (pt_parent _ _ _ HR c' r' l' q' Hc' Hl') as (p' & e' & Hp' & He' & Hv' & Hf').
      exists p', e'. rewrite lookup_insert_ne by congruence. split; [done|].
      rewrite Hent by (apply Z.mod_pos_bound; lia). rewrite decide_False; [done|].
      intros [-> Hii]. rewrite Hii in He'. congruence.
  - intros r' v e'. rewrite (pt_leaf _ _ _ HR r' v e'). assert (Hmod := Z.mod_pos_bound v 512 ltac:(lia)).
    split; intros (Hv & p' & Hp' & He' & Hb); (split; [done|]); exists p'.
    + rewrite lookup_insert_ne by congruence. split; [done|]. rewrite Hent by lia.
      rewrite decide_False; [done|]. intros [-> _]. rewrite Hp in Hp'. injection Hp' as _ Hlv _. lia.
    + rewrite lookup_insert in Hp'. destruct (decide (c = p')) as [<-|Hne].
      { rewrite Hzero in He' by done. injection He' as <-. by rewrite Z.bits_0 in Hb. }
      split; [done|]. rewrite Hent in He' by lia. rewrite decide_False in He'; [done|].
      intros [-> _]. rewrite Hp in Hp'. injection Hp' as _ Hlv _. lia.
  - intros p' r' l' q' i' e'. rewrite lookup_insert. destruct (decide (c = p')) as [<-|Hne].
    + intros _ _ Hi' _. rewrite Hzero by done. intros [= <-]. rewrite Z.bits_0. done.
    + intros Hp' Hl' Hi' Hi2'. rewrite Hent by lia. case_decide as Hd.
      * intros [= <-] _. unfold e. by apply table_entry_bare.
      * by apply (pt_bare _ _ _ HR p' r' l' q').
Qed.

(** ** Counting references *)

Lemma mapped_nonneg f m : 0 ≤ mapped f m.
Proof. unfold mapped. lia. Qed.
Lemma frames_held_nonneg f h : 0 ≤ held f h.
Proof. unfold held. lia. Qed.
Lemma frames_held_cons f g h : held f (g :: h) = held f h + (if decide (g = f) then 1 else 0).
Proof. unfold held. rewrite filter_cons. case_decide; simpl; lia. Qed.

Lemma mapped_insert f m k e :
  m !! k = None → mapped f (<[k := e]> m) = mapped f m + (if decide (pte_frame e = f) then 1 else 0).
Proof.
  intros Hk. unfold mapped. destruct (decide (pte_frame e = f)) as [Heq|Hne].
  - rewrite map_filter_insert_True by done. rewrite map_size_insert_None; [lia|].
    apply map_lookup_filter_None. by left.
  - rewrite map_filter_insert_False by done. rewrite delete_id by done. lia.
Qed.
Lemma mapped_delete f m k e :
  m !! k = Some e → mapped f (delete k m) = mapped f m - (if decide (pte_frame e = f) then 1 else 0).
Proof.
  intros Hk. rewrite <-(insert_delete_id m k e Hk) at 2.
  rewrite mapped_insert by apply lookup_delete_eq. lia.
Qed.
Lemma mapped_replace f m k e e' :
  m !! k = Some e →
  mapped f (<[k := e']> m) = mapped f m - (if decide (pte_frame e = f) then 1 else 0)
                             + (if decide (pte_frame e' = f) then 1 else 0).
Proof.
  intros Hk. rewrite <-insert_delete_eq, mapped_insert by apply lookup_delete_eq.
  by rewrite (mapped_delete f m k e Hk).
Qed.
Lemma mapped_lookup m k e : m !! k = Some e → 1 ≤ mapped (pte_frame e) m.
Proof.
  intros Hk. pose proof (mapped_delete (pte_frame e) m k e Hk) as Hd. rewrite decide_True in Hd by done.
  pose proof (mapped_nonneg (pte_frame e) (delete k m)). lia.
Qed.

(** ** kalloc and walk *)

Lemma live_owned s a o m h f :
  own_rel s a o m h → mapped f m + held f h > 0 → is_Some (pool_owned a !! f) ∧ o !! f = None ∧ frame_ok f.
Proof.
  intros HO Hf. destruct (own_frame _ _ _ _ _ HO f Hf) as (Ho & _). split; [by eexists|].
  split; [|destruct (pp_wf _ _ (own_pool _ _ _ _ _ HO)) as (_ & _ & Hw); by eapply Hw].
  destruct (o !! f) as [x|] eqn:Ex; [|done]. destruct (own_table _ _ _ _ _ HO f x Ex). lia.
Qed.

Lemma kalloc_run s a o m h :
  vm_rel s a o m h →
  (∃ s', kalloc s = Ret (0, s') ∧ pool_free a = [] ∧ vm_rel s' a o m h ∧ vm_ext s s' o o m h) ∨
  ∃ c l s', kalloc s = Ret (c, s') ∧ frame_ok c ∧ o !! c = None ∧ mapped c m + held c h = 0 ∧
    frames s' !! c = Some zero_frame ∧
    vm_rel s' (mk_pool l (<[c := 1]> (pool_owned a))) o m (c :: h) ∧ vm_ext s s' o o m h.
Proof.
  intros [HR HO]. pose proof (own_pool _ _ _ _ _ HO) as Hrel. destruct (pp_wf _ _ Hrel) as (Hnd & Hfree & Hown).
  unfold kalloc, zoom, mbind, K_bind. destruct (pool_free a) as [|c l] eqn:Hl.
  - left. destruct (pp_step _ a Op_alloc 0 a Hrel) as (p' & -> & Hrel'); [by simpl; rewrite Hl|].
    rewrite decide_True by done. eexists. split; [done|]. split; [done|]. split; [|by split].
    split; [by destruct HR; split|]. destruct HO. by split.
  - right. destruct (Hfree c) as [Hc Hnone]; [set_solver|].
    destruct (pp_step _ a Op_alloc c (mk_pool l (<[c := 1]> (pool_owned a))) Hrel) as (p' & -> & Hrel');
      [by simpl; rewrite Hl|].
    pose proof (frame_ok_pos c Hc). rewrite decide_False by lia. simpl.
    assert (Hoc : o !! c = None).
    { destruct (o !! c) as [x|] eqn:Ex; [|done]. destruct (own_table _ _ _ _ _ HO c x Ex). congruence. }
    assert (Hcm : mapped c m + held c h = 0).
    { pose proof (mapped_nonneg c m). pose proof (frames_held_nonneg c h).
      destruct (decide (mapped c m + held c h > 0)) as [Hgt|]; [|lia].
      destruct (own_frame _ _ _ _ _ HO c Hgt). congruence. }
    exists c, l. eexists. split; [done|]. split_and!; try done.
    + simpl. by rewrite lookup_insert_eq.
    + split.
      * assert (Hent : ∀ p x i, o !! p = Some x → entry (mk_vm p' (delete c (tables s)) (<[c:=zero_frame]> (frames s))) p i = entry s p i).
        { intros p x i Hp. unfold entry. simpl. by rewrite lookup_delete_ne by congruence. }
        split; simpl.
        -- intros p x Hp. rewrite lookup_delete_ne by congruence. by apply (pt_table _ _ _ HR p x).
        -- apply HR.
        -- apply HR.
        -- intros p r lv q i e Hp ? ? ?. rewrite (Hent p _ i Hp). by apply HR.
        -- intros c' r lv q Hc' Hlv. destruct (pt_parent _ _ _ HR c' r lv q Hc' Hlv) as (p & e & Hp & He & ?).
           exists p, e. rewrite (Hent p _ _ Hp). done.
        -- intros r v e. rewrite (pt_leaf _ _ _ HR r v e). split; intros (Hv & p & Hp & He & Hb); (split; [done|]);
             exists p; (split; [done|]); by rewrite (Hent p _ _ Hp) in *.
        -- intros p r lv q i e Hp ? ? ?. rewrite (Hent p _ i Hp). by apply (pt_bare _ _ _ HR p r lv q).
      * split; simpl; [done| | |].
        -- intros p x Hp. rewrite lookup_insert_ne by congruence. destruct (own_table _ _ _ _ _ HO p x Hp).
           split; [done|]. rewrite frames_held_cons, decide_False by congruence. lia.
        -- intros f. rewrite frames_held_cons. destruct (decide (c = f)) as [<-|Hne].
           ++ intros _. rewrite !lookup_insert_eq. split; [f_equal; lia|by eexists].
           ++ rewrite !lookup_insert_ne, Z.add_0_r by done. apply (own_frame _ _ _ _ _ HO f).
        -- intros f n. rewrite frames_held_cons. destruct (decide (c = f)) as [<-|Hne]; [right; lia|].
           rewrite lookup_insert_ne, Z.add_0_r by done. apply (own_only _ _ _ _ _ HO).
    + split; [done|]. intros f Hf. simpl. rewrite lookup_insert_ne; [done|]. intros <-. lia.
Qed.

Lemma kalloc_exhausted s a o m h : vm_rel s a o m h → pool_free a = [] → ∃ s', kalloc s = Ret (0, s').
Proof.
  intros [_ HO] Hnil. destruct (pp_step _ a Op_alloc 0 a (own_pool _ _ _ _ _ HO)) as (p' & Hex & _); [by simpl; rewrite Hnil|].
  unfold kalloc, zoom, mbind, K_bind. rewrite Hex, decide_True by done. by eexists.
Qed.

(** Walking without allocation finds the entry iff its table exists. *)
Lemma walk_level_find s o m r l q v i p :
  pt_rel s o m → o !! p = Some (r, l, q) → 0 < l → i = VPN_GET (v * 4096) l → 0 ≤ i < 512 → (l = 2 → i < 256) →
  (∃ c, walk_level false (v * 4096) l p s = Ret (Some c, s) ∧ o !! c = Some (r, l - 1, q * 512 + i)) ∨
  (walk_level false (v * 4096) l p s = Ret (None, s) ∧ ∀ c, o !! c ≠ Some (r, l - 1, q * 512 + i)).
Proof.
  intros HR Hp Hl Hi Hir Hi2. destruct (entry_Some s o m p _ i HR Hp Hir) as (e & He & Her).
  unfold walk_level. rewrite <-Hi. rewrite (bind_Ret _ _ _ _ _ (read_pte_run s o m p _ i e HR Hp Hir He)).
  rewrite has_V. destruct (Z.testbit e 0) eqn:Hv.
  - left. exists (pte_frame e). split; [done|]. by apply (pt_child _ _ _ HR p r l q i e).
  - right. split; [done|]. intros c Hc. destruct (pt_level _ _ _ HR p r l q Hp) as (Hl2 & _).
    destruct (pt_parent _ _ _ HR c r (l - 1) _ Hc) as (p' & e' & Hp' & He' & Hv' & _); [lia|].
    replace (l - 1 + 1) with l in Hp' by lia. destruct (proj1 (vpn_split q i _ Hir) eq_refl) as [Hdq Hmi].
    rewrite Hdq in Hp'. rewrite Hmi in He'.
    assert (p' = p) as ->; [|congruence]. assert (l = 1 ∨ l = 2) as [-> | ->] by lia; [by eapply owner_inj1|].
    destruct (pt_root _ _ _ HR p r q Hp) as [<- _]. by destruct (pt_root _ _ _ HR p' r q Hp') as [<- _].
Qed.

Lemma vpn_bounds v : 0 ≤ v < 2 ^ 26 →
  0 ≤ VPN_GET (v * 4096) 2 < 256 ∧ 0 ≤ VPN_GET (v * 4096) 1 < 512 ∧ 0 ≤ VPN_GET (v * 4096) 0 < 512 ∧
  VPN_GET (v * 4096) 2 = v / 512 / 512 ∧ VPN_GET (v * 4096) 2 * 512 + VPN_GET (v * 4096) 1 = v / 512.
Proof.
  intros Hv. destruct (VPN_of_page v) as (-> & -> & ->).
  pose proof (Z.mod_pos_bound v 512). pose proof (Z.mod_pos_bound (v / 512) 512).
  pose proof (Z.div_mod v 512). pose proof (Z.div_mod (v / 512) 512).
  rewrite (Z.mod_small (v / 512 / 512) 512); lia.
Qed.

Lemma walk_find s o m r v :
  pt_rel s o m → is_root o r → 0 ≤ v < 2 ^ 26 →
  (∃ p0, walk r (v * 4096) false s = Ret (p0 + 8 * (v mod 512), s) ∧ o !! p0 = Some (r, 0, v / 512)) ∨
  (walk r (v * 4096) false s = Ret (0, s) ∧ ∀ p, o !! p ≠ Some (r, 0, v / 512)).
Proof.
  intros HR Hr Hv. destruct (vpn_bounds v Hv) as (H2 & H1 & H0 & Hq2 & Hq1). destruct (VPN_of_page v) as (_ & _ & Hv0).
  unfold walk.
  destruct (walk_level_find s o m r 2 0 v _ r HR Hr ltac:(lia) eq_refl ltac:(lia) ltac:(lia))
    as [(p1 & Hw & Hp1)|(Hw & Hno)]; rewrite (bind_Ret _ _ _ _ _ Hw).
  - change (2 - 1) with 1 in Hp1. rewrite Z.mul_0_l, Z.add_0_l in Hp1.
    destruct (walk_level_find s o m r 1 _ v _ p1 HR Hp1 ltac:(lia) eq_refl ltac:(lia) ltac:(lia))
      as [(p0 & Hw0 & Hp0)|(Hw0 & Hno)]; rewrite (bind_Ret _ _ _ _ _ Hw0).
    + left. exists p0. rewrite Hv0. split; [done|]. by rewrite Hq1 in Hp0.
    + right. split; [done|]. rewrite Hq1 in Hno. done.
  - right. split; [done|]. intros p Hp.
    destruct (pt_parent _ _ _ HR p r 0 _ Hp) as (p1 & e & Hp1 & _); [done|].
    apply (Hno p1). change (0 + 1) with 1 in Hp1. rewrite Hp1. do 2 f_equal. lia.
Qed.

Lemma vm_ext_refl s o m h : vm_ext s s o o m h.
Proof. by split. Qed.
Lemma vm_ext_trans s1 s2 s3 o1 o2 o3 m h :
  vm_ext s1 s2 o1 o2 m h → vm_ext s2 s3 o2 o3 m h → vm_ext s1 s3 o1 o3 m h.
Proof. intros [Ho1 Hf1] [Ho2 Hf2]. split; [by etrans|]. intros f Hf. by rewrite Hf2, Hf1. Qed.
Lemma vm_ext_root s s' o o' m h r : vm_ext s s' o o' m h → is_root o r → is_root o' r.
Proof. intros [Ho _] Hr. by eapply lookup_weaken. Qed.

(** The new tables all belong to the root [r]. *)
Definition grows_in (r : Z) (o o' : owner) : Prop := ∀ p x, o' !! p = Some x → o !! p = Some x ∨ x.1.1 = r.
Lemma grows_in_refl r o : grows_in r o o.
Proof. intros p x Hp. by left. Qed.
Lemma grows_in_trans r o o1 o2 : grows_in r o o1 → grows_in r o1 o2 → grows_in r o o2.
Proof. intros H1 H2 p x [Hp|Hx]%H2; [by apply H1|by right]. Qed.

(** A fresh page zeroed and linked as a table. *)
Lemma link_table s a o m h p r l q i e0 c :
  vm_rel s a o m (c :: h) → o !! p = Some (r, l, q) → 0 < l → 0 ≤ i < 512 → (l = 2 → i < 256) →
  entry s p i = Some e0 → Z.testbit e0 0 = false →
  frame_ok c → o !! c = None → mapped c m + held c h = 0 → pool_owned a !! c = Some 1 →
  ∃ s', (table_zero c ;; write_pte (p + 8 * i) (Z.lor (PA2PTE (VA2PA c)) PTE_V) ;; mret (Some c) : K st (option Z)) s
        = Ret (Some c, s') ∧
    vm_rel s' a (<[c := (r, l - 1, q * 512 + i)]> o) m h ∧
    vm_ext s s' o (<[c := (r, l - 1, q * 512 + i)]> o) m h.
Proof.
  intros [HR HO] Hp Hl Hi Hi2 He0 Hv0 Hc Hoc Hcm Hac.
  destruct (own_frame _ _ _ _ _ HO c) as (_ & b & Hb & _); [rewrite frames_held_cons, decide_True by done; lia|].
  set (s1 := mk_vm (vm_pages s) (<[c := zero_table]> (tables s)) (delete c (frames s))).
  assert (Hz : table_zero c s = Ret (tt, s1)) by (unfold table_zero; by rewrite Hb).
  assert (Hent : ∀ p x i, o !! p = Some x → entry s1 p i = entry s p i).
  { intros p' x i' Hp'. unfold entry. simpl. by rewrite lookup_insert_ne by congruence. }
  assert (HR1 : pt_rel s1 o m).
  { split; simpl.
    - intros p' x Hp'. rewrite lookup_insert_ne by congruence. by apply (pt_table _ _ _ HR p' x).
    - apply HR.
    - apply HR.
    - intros p' r' lv q' i' e Hp' ? ? ?. rewrite (Hent p' _ i' Hp'). by apply HR.
    - intros c' r' lv q' Hc' Hlv. destruct (pt_parent _ _ _ HR c' r' lv q' Hc' Hlv) as (p' & e & Hp' & He & ?).
      exists p', e. rewrite (Hent p' _ _ Hp'). done.
    - intros r' v e. rewrite (pt_leaf _ _ _ HR r' v e). split; intros (Hv & p' & Hp' & He & Hbt); (split; [done|]);
        exists p'; (split; [done|]); by rewrite (Hent p' _ _ Hp') in *.
    - intros p' r' lv q' i' e Hp' ? ? ?. rewrite (Hent p' _ i' Hp'). by apply (pt_bare _ _ _ HR p' r' lv q'). }
  exists (upd s1 p i (Z.lor (PA2PTE (VA2PA c)) PTE_V)). split_and!.
  - rewrite (bind_Ret _ _ _ _ _ Hz). rewrite (bind_Ret _ _ _ _ _ (write_pte_run s1 o m p _ i _ HR1 Hp Hi)). done.
  - split.
    + apply (pt_add_table s1 o m p r l q i e0 c); try done; [by rewrite (Hent p _ i Hp)|].
      simpl. by rewrite lookup_insert_eq.
    + split; simpl; [apply HO| | |].
      * intros p' x. rewrite lookup_insert. destruct (decide (c = p')) as [<-|Hne]; [done|].
        intros Hp'. destruct (own_table _ _ _ _ _ HO p' x Hp') as [? Hm]. split; [done|].
        rewrite frames_held_cons, decide_False in Hm by done. lia.
      * intros f Hf. assert (c ≠ f) by (intros <-; lia). rewrite lookup_delete_ne by done.
        pose proof (own_frame _ _ _ _ _ HO f) as Hof. rewrite frames_held_cons, decide_False, Z.add_0_r in Hof by done. auto.
      * intros f n Hf. rewrite lookup_insert. destruct (decide (c = f)) as [<-|Hne]; [by left|].
        destruct (own_only _ _ _ _ _ HO f n Hf) as [|Hlv]; [by left|right]. rewrite frames_held_cons, decide_False in Hlv by done. lia.
  - split; [by apply insert_subseteq|]. intros f Hf. simpl. rewrite lookup_delete_ne; [done|]. intros <-. lia.
Qed.

Lemma walk_level_alloc s a o m h r l q v i p :
  vm_rel s a o m h → o !! p = Some (r, l, q) → 0 < l → i = VPN_GET (v * 4096) l → 0 ≤ i < 512 → (l = 2 → i < 256) →
  ∃ x s' a' o', walk_level true (v * 4096) l p s = Ret (x, s') ∧ vm_rel s' a' o' m h ∧ vm_ext s s' o o' m h ∧ grows_in r o o' ∧
    (∀ c, x = Some c → o' !! c = Some (r, l - 1, q * 512 + i)) ∧ (x = None → pool_free a' = []).
Proof.
  intros HV Hp Hl Hi Hir Hi2. pose proof HV as [HR HO].
  destruct (entry_Some s o m p _ i HR Hp Hir) as (e & He & Her).
  unfold walk_level. rewrite <-Hi. rewrite (bind_Ret _ _ _ _ _ (read_pte_run s o m p _ i e HR Hp Hir He)).
  rewrite has_V. destruct (Z.testbit e 0) eqn:Hv.
  - exists (Some (pte_frame e)), s, a, o. split_and!; [done..|apply vm_ext_refl|apply grows_in_refl| |done].
    intros c [= <-]. by apply (pt_child _ _ _ HR p r l q i e).
  - simpl. destruct (kalloc_run s a o m h HV) as [(s' & Hk & Hnil & HV' & Hext)|(c & fl & s' & Hk & Hc & Hoc & Hcm & Hfz & HV' & Hext)];
      rewrite (bind_Ret _ _ _ _ _ Hk).
    + rewrite decide_True by done. exists None, s', a, o. split_and!; try done. apply grows_in_refl.
    + pose proof (frame_ok_pos c Hc). rewrite decide_False by lia.
      assert (He' : entry s' p i = Some e).
      { destruct (entry_Some s' o m p _ i (vr_pt _ _ _ _ _ HV') Hp Hir) as (e2 & He2 & _).
        revert Hk. unfold kalloc, zoom. kunfold. destruct (pp_exec Op_alloc _) as [[c' p']| | |]; try done.
        case_decide; intros Hk; injection Hk as Hcc <-; [lia|]. subst c'. unfold entry. simpl. rewrite lookup_delete_ne by congruence. exact He. }
      destruct (link_table s' _ o m h p r l q i e c HV' Hp Hl Hir Hi2 He' Hv Hc Hoc Hcm) as (s2 & Hrun & HV2 & Hext2);
        [simpl; by rewrite lookup_insert_eq|].
      exists (Some c), s2. eexists _, _. split_and!; [exact Hrun|exact HV2| | | |done].
      * by apply (vm_ext_trans s s' s2 o o).
      * intros p' x [[<- <-]|[_ ?]]%lookup_insert_Some; [by right|by left].
      * intros c' [= <-]. by rewrite lookup_insert_eq.
Qed.

Lemma walk_alloc s a o m h r v :
  vm_rel s a o m h → is_root o r → 0 ≤ v < 2 ^ 26 →
  ∃ x s' a' o', walk r (v * 4096) true s = Ret (x, s') ∧ vm_rel s' a' o' m h ∧ vm_ext s s' o o' m h ∧ grows_in r o o' ∧
    ((x = 0 ∧ pool_free a' = []) ∨ ∃ p0, x = p0 + 8 * (v mod 512) ∧ o' !! p0 = Some (r, 0, v / 512)).
Proof.
  intros HV Hr Hv. destruct (vpn_bounds v Hv) as (H2 & H1 & H0 & Hq2 & Hq1). destruct (VPN_of_page v) as (_ & _ & Hv0).
  unfold walk.
  destruct (walk_level_alloc s a o m h r 2 0 v _ r HV Hr ltac:(lia) eq_refl ltac:(lia) ltac:(lia))
    as (x1 & s1 & a1 & o1 & Hw1 & HV1 & Hx1 & Hg1 & Hsome1 & Hnone1). rewrite (bind_Ret _ _ _ _ _ Hw1).
  destruct x1 as [p1|]; [|exists 0, s1, a1, o1; split_and!; auto].
  specialize (Hsome1 p1 eq_refl). change (2 - 1) with 1 in Hsome1. rewrite Z.mul_0_l, Z.add_0_l in Hsome1.
  destruct (walk_level_alloc s1 a1 o1 m h r 1 _ v _ p1 HV1 Hsome1 ltac:(lia) eq_refl ltac:(lia) ltac:(lia))
    as (x0 & s2 & a2 & o2 & Hw2 & HV2 & Hx2 & Hg2 & Hsome2 & Hnone2). rewrite (bind_Ret _ _ _ _ _ Hw2).
  assert (Hx : vm_ext s s2 o o2 m h) by (by eapply vm_ext_trans).
  pose proof (grows_in_trans _ _ _ _ Hg1 Hg2) as Hg.
  destruct x0 as [p0|]; [|exists 0, s2, a2, o2; split_and!; auto].
  eexists _, s2, a2, o2. split_and!; [done..|]. right. exists p0. rewrite Hv0. split; [done|].
  specialize (Hsome2 p0 eq_refl). by rewrite Hq1 in Hsome2.
Qed.

(** ** Moving references *)

(** References may move between the tables and the kernel. *)
Lemma own_same s s' a o m m' h h' :
  own_rel s a o m h → vm_pages s' = vm_pages s → frames s' = frames s →
  (∀ f, mapped f m' + held f h' = mapped f m + held f h) → own_rel s' a o m' h'.
Proof.
  intros HO Hp Hf Hr. split; [rewrite Hp; apply HO| | |].
  - intros p x Hx. rewrite Hr. by apply (own_table _ _ _ _ _ HO p x).
  - intros f Hgt. rewrite Hr in *. rewrite Hf. by apply (own_frame _ _ _ _ _ HO f).
  - intros f n. rewrite Hr. apply (own_only _ _ _ _ _ HO).
Qed.

Lemma own_map s s' a o m k e h :
  own_rel s a o m (pte_frame e :: h) → vm_pages s' = vm_pages s → frames s' = frames s → m !! k = None →
  own_rel s' a o (<[k := e]> m) h.
Proof.
  intros HO Hp Hf Hk. apply (own_same s s' a o m _ (pte_frame e :: h)); [done..|].
  intros f. rewrite mapped_insert, frames_held_cons by done. lia.
Qed.

Lemma own_unmap s s' a o m k e h :
  own_rel s a o m h → vm_pages s' = vm_pages s → frames s' = frames s → m !! k = Some e →
  own_rel s' a o (delete k m) (pte_frame e :: h).
Proof.
  intros HO Hp Hf Hk. apply (own_same s s' a o m _ h); [done..|].
  intros f. rewrite (mapped_delete f m k e Hk), frames_held_cons. lia.
Qed.

(** kfree drops a held reference. *)
Lemma own_free s a o m f h :
  own_rel s a o m (f :: h) →
  ∃ p' a', pp_exec (Op_free f) (vm_pages s) = Ret (0, p') ∧ own_rel (set_vm_pages p' s) a' o m h ∧
    (length (pool_free a') ≤ S (length (pool_free a)))%nat.
Proof.
  intros HO. assert (Hf : mapped f m + held f (f :: h) > 0).
  { rewrite frames_held_cons, decide_True by done. pose proof (mapped_nonneg f m). pose proof (frames_held_nonneg f h). lia. }
  destruct (own_frame _ _ _ _ _ HO f Hf) as (Hown & _).
  assert (Hof := live_owned _ _ _ _ _ f HO Hf). destruct Hof as (_ & Hof & _).
  set (n := mapped f m + held f (f :: h)) in *.
  assert (Hn : n = mapped f m + held f h + 1) by (unfold n; rewrite frames_held_cons, decide_True by done; lia).
  set (a' := if decide (n > 1) then mk_pool (pool_free a) (<[f := n - 1]> (pool_owned a))
             else mk_pool (f :: pool_free a) (delete f (pool_owned a))).
  destruct (pp_step _ a (Op_free f) 0 a' (own_pool _ _ _ _ _ HO)) as (p' & Hex & Hrel').
  { simpl. rewrite Hown. simpl. unfold a'. by case_decide. }
  exists p', a'. split; [done|]. split; [|by unfold a'; case_decide; simpl; lia]. split; simpl; [done| | |].
  - intros p x Hp. destruct (own_table _ _ _ _ _ HO p x Hp) as [Ho Hm]. rewrite frames_held_cons in Hm.
    assert (f ≠ p) by congruence. rewrite decide_False in Hm by done. split; [|lia].
    unfold a'. case_decide; simpl; [by rewrite lookup_insert_ne|by rewrite lookup_delete_ne].
  - intros g Hg. destruct (decide (f = g)) as [<-|Hne].
    + destruct (own_frame _ _ _ _ _ HO f Hf) as (_ & b & Hb). split; [|by exists b].
      unfold a'. rewrite decide_True by lia. simpl. rewrite lookup_insert_eq. f_equal. lia.
    + pose proof (own_frame _ _ _ _ _ HO g) as Hog. rewrite frames_held_cons, decide_False, Z.add_0_r in Hog by done.
      destruct (Hog Hg) as (Ho & Hb). split; [|done].
      unfold a'. case_decide; simpl; [by rewrite lookup_insert_ne|by rewrite lookup_delete_ne].
  - intros g k. destruct (decide (f = g)) as [<-|Hne].
    + unfold a'. case_decide; simpl; [right; lia|by rewrite lookup_delete_eq].
    + intros Hg. assert (Hgo : pool_owned a !! g = Some k).
      { revert Hg. unfold a'. case_decide; simpl; [by rewrite lookup_insert_ne|by rewrite lookup_delete_ne]. }
      destruct (own_only _ _ _ _ _ HO g k Hgo) as [|Hl]; [by left|right]. rewrite frames_held_cons, decide_False in Hl by done. lia.
Qed.

Lemma kfree_run s a o m f h :
  vm_rel s a o m (f :: h) → ∃ s' a', kfree f s = Ret (tt, s') ∧ vm_rel s' a' o m h ∧ tables s' = tables s ∧ frames s' = frames s ∧
    (length (pool_free a') ≤ S (length (pool_free a)))%nat.
Proof.
  intros [HR HO]. destruct (own_free _ _ _ _ _ _ HO) as (p' & a' & Hex & HO' & Hlen).
  exists (set_vm_pages p' s), a'. split; [|split; [split; [by destruct HR; split|done]|done]].
  unfold kfree, zoom, mbind, K_bind. by rewrite Hex.
Qed.

(** ** Mapping *)

(** The entry mappages writes for the frame [f]. *)
Definition mk_pte (f flags : Z) : Z := Z.lor (Z.lor (PA2PTE (VA2PA f)) flags) PTE_V.

Lemma flags_V flags : 0 ≤ flags < 1024 → 0 ≤ Z.lor flags PTE_V < 1024.
Proof. intros Hf. apply (lor_range flags PTE_V 10); [lia|done|by unfold PTE_V]. Qed.
Lemma mk_pte_frame f flags : frame_ok f → 0 ≤ flags < 1024 → pte_frame (mk_pte f flags) = f.
Proof. intros Hf Hl. unfold mk_pte. rewrite <-Z.lor_assoc. apply pte_frame_mk; [done|by apply flags_V]. Qed.
Lemma mk_pte_range f flags : frame_ok f → 0 ≤ flags < 1024 → 0 ≤ mk_pte f flags < 2 ^ 64.
Proof. intros Hf Hl. unfold mk_pte. rewrite <-Z.lor_assoc. apply pte_mk_range; [done|by apply flags_V]. Qed.
Lemma mk_pte_bits f flags i : frame_ok f → 0 ≤ flags < 1024 → 0 ≤ i < 10 →
  Z.testbit (mk_pte f flags) i = Z.testbit flags i || bool_decide (i = 0).
Proof.
  intros Hf Hl Hi. unfold mk_pte. rewrite <-Z.lor_assoc, pte_bits_mk by (done || by apply flags_V).
  rewrite Z.lor_spec. f_equal. destruct (decide (i = 0)) as [->|Hne]; [done|].
  rewrite bool_decide_eq_false_2 by done. change PTE_V with (2 ^ 0). apply Z.pow2_bits_false. lia.
Qed.
Lemma mk_pte_V f flags : frame_ok f → 0 ≤ flags < 1024 → Z.testbit (mk_pte f flags) 0 = true.
Proof. intros Hf Hl. rewrite mk_pte_bits by (done || lia). by rewrite orb_true_r. Qed.

(** The frames and the translations of a run of [n] pages. *)
Fixpoint frames_from (n : nat) (f : Z) : list Z :=
  match n with O => [] | S n => f :: frames_from n (f + 4096) end.
Fixpoint map_range (n : nat) (r v f flags : Z) (m : aspace) : aspace :=
  match n with O => m | S n => map_range n r (v + 1) (f + 4096) flags (<[(r, v) := mk_pte f flags]> m) end.

Lemma vm_map_leaf s a o m h p r v e :
  vm_rel s a o m (pte_frame e :: h) → o !! p = Some (r, 0, v / 512) → 0 ≤ v → m !! (r, v) = None →
  0 ≤ e < 2 ^ 64 → Z.testbit e 0 = true →
  vm_rel (upd s p (v mod 512) e) a o (<[(r, v) := e]> m) h.
Proof.
  intros [HR HO] Hp Hv Hm He Hb. split.
  - pose proof (pt_write_leaf s o m p r _ (v mod 512) e HR Hp (Z.mod_pos_bound v 512 ltac:(lia)) He) as Hw.
    rewrite Hb in Hw. replace (v / 512 * 512 + v mod 512) with v in Hw by (pose proof (Z.div_mod v 512); lia). done.
  - by apply (own_map s _ a o m).
Qed.

Lemma leaf_entry_None s o m p r v :
  pt_rel s o m → o !! p = Some (r, 0, v / 512) → 0 ≤ v → m !! (r, v) = None →
  ∃ e, entry s p (v mod 512) = Some e ∧ Z.testbit e 0 = false.
Proof.
  intros HR Hp Hv Hm. destruct (entry_Some s o m p _ (v mod 512) HR Hp (Z.mod_pos_bound v 512 ltac:(lia))) as (e & He & _).
  exists e. split; [done|]. destruct (Z.testbit e 0) eqn:Hb; [|done].
  assert (m !! (r, v) = Some e); [|congruence]. apply (pt_leaf _ _ _ HR). split; [done|]. by exists p.
Qed.

Lemma map_loop_run n s a o m h r v f flags :
  vm_rel s a o m (frames_from n f ++ h) → is_root o r → 0 ≤ v → v + Z.of_nat n ≤ 2 ^ 26 → (0 < n)%nat →
  (∀ j, 0 ≤ j < Z.of_nat n → m !! (r, v + j) = None) → 0 ≤ flags < 1024 →
  ∃ k s' a' o', map_loop n r (v * 4096) ((v + Z.of_nat n - 1) * 4096) (VA2PA f) flags s =
      Ret (if decide (k = n) then 0 else -1, s') ∧ (k ≤ n)%nat ∧
    vm_rel s' a' o' (map_range k r v f flags m) (frames_from (n - k) (f + 4096 * Z.of_nat k) ++ h) ∧
    vm_ext s s' o o' m (frames_from n f ++ h) ∧ grows_in r o o' ∧ ((k < n)%nat → pool_free a' = []).
Proof.
  revert s a o m v f. induction n as [|n IH]; intros s a o m v f HV Hr Hv Hn H0 Hm Hfl; [lia|]. clear H0.
  cbn [map_loop]. destruct (walk_alloc s a o m _ r v HV Hr ltac:(lia)) as (x & s1 & a1 & o1 & Hw & HV1 & Hx1 & Hg1 & Hres).
  rewrite (bind_Ret _ _ _ _ _ Hw). destruct Hres as [[-> Hnil]|(p0 & -> & Hp0)].
  { rewrite decide_True by done. exists 0%nat, s1, a1, o1. rewrite decide_False by lia.
    replace (f + 4096 * Z.of_nat 0) with f by lia. split_and!; [done|lia|done..]. }
  pose proof HV1 as [HR1 HO1]. destruct (pt_table _ _ _ HR1 p0 _ Hp0) as (Hp0k & _).
  assert (Hmod := Z.mod_pos_bound v 512 ltac:(lia)). pose proof (frame_ok_pos p0 Hp0k).
  rewrite decide_False by lia.
  assert (Hmv : m !! (r, v) = None) by (specialize (Hm 0 ltac:(lia)); by rewrite Z.add_0_r in Hm).
  destruct (leaf_entry_None s1 o1 m p0 r v HR1 Hp0 Hv Hmv) as (e & He & Hb).
  rewrite (bind_Ret _ _ _ _ _ (read_pte_run s1 o1 m p0 _ _ e HR1 Hp0 Hmod He)). rewrite has_V, Hb.
  rewrite (bind_Ret _ _ _ _ _ (write_pte_run s1 o1 m p0 _ _ _ HR1 Hp0 Hmod)).
  fold (mk_pte f flags). simpl frames_from in *. simpl app in *.
  assert (Hf : frame_ok f).
  { eapply (live_owned _ _ _ _ _ f HO1). rewrite frames_held_cons, decide_True by done.
    pose proof (mapped_nonneg f m). pose proof (frames_held_nonneg f (frames_from n (f + 4096) ++ h)). lia. }
  pose proof (vm_map_leaf s1 a1 o1 m (frames_from n (f + 4096) ++ h) p0 r v (mk_pte f flags)) as HV2.
  rewrite mk_pte_frame in HV2 by done.
  specialize (HV2 HV1 Hp0 Hv Hmv (mk_pte_range f flags Hf Hfl) (mk_pte_V f flags Hf Hfl)).
  assert (Hx2 : vm_ext s1 (upd s1 p0 (v mod 512) (mk_pte f flags)) o1 o1 m (f :: frames_from n (f + 4096) ++ h))
    by (by split).
  destruct (decide (v * 4096 = (v + Z.of_nat (S n) - 1) * 4096)) as [Hlast|Hmore].
  - assert (n = 0%nat) as -> by lia. exists 1%nat. eexists _, a1, o1. rewrite decide_True by done.
    split_and!; [done|lia|exact HV2| |done|lia]. by eapply vm_ext_trans.
  - assert (Hfn : VA2PA f + PGSIZE = VA2PA (f + 4096)).
    { destruct n as [|n']; [lia|]. assert (Hf' : frame_ok (f + 4096)).
      { eapply (live_owned _ _ _ _ _ (f + 4096) HO1). rewrite frames_held_cons, decide_False by lia. simpl frames_from. simpl app.
        rewrite frames_held_cons, decide_True by done. pose proof (mapped_nonneg (f + 4096) m).
        pose proof (frames_held_nonneg (f + 4096) (frames_from n' (f + 4096 + 4096) ++ h)). lia. }
      destruct (VA2PA_range f Hf) as (_ & _ & -> & _). destruct (VA2PA_range _ Hf') as (_ & _ & -> & _). unfold PGSIZE. lia. }
    rewrite !u64_small by (destruct (VA2PA_range f Hf); unfold PGSIZE in *; lia). rewrite Hfn.
    replace (v * 4096 + PGSIZE) with ((v + 1) * 4096) by (unfold PGSIZE; lia).
    replace ((v + Z.of_nat (S n) - 1) * 4096) with ((v + 1 + Z.of_nat n - 1) * 4096) by lia.
    destruct (IH _ a1 o1 (<[(r, v) := mk_pte f flags]> m) (v + 1) (f + 4096) HV2) as (k & s' & a' & o' & Hrun & Hk & HV3 & Hx3 & Hg3 & Hfull);
      [exact (vm_ext_root _ _ _ _ _ _ _ Hx1 Hr)|lia|lia|lia| |done|].
    + intros j Hj. rewrite lookup_insert_ne by (intros [= ?]; lia). replace (v + 1 + j) with (v + (j + 1)) by lia. apply Hm. lia.
    + exists (S k), s', a', o'. rewrite Hrun. split_and!.
      * destruct (decide (k = n)) as [->|]; [by rewrite decide_True|rewrite decide_False by lia; done].
      * lia.
      * replace (f + 4096 * Z.of_nat (S k)) with (f + 4096 + 4096 * Z.of_nat k) by lia. exact HV3.
      * eapply vm_ext_trans; [exact Hx1|]. eapply vm_ext_trans; [exact Hx2|]. destruct Hx3 as [Ho3 Hf3]. split; [done|].
        intros g Hg. apply Hf3. rewrite mapped_insert by done. rewrite mk_pte_frame by done. rewrite frames_held_cons in Hg. lia.
      * by eapply grows_in_trans.
      * intros Hlt. apply Hfull. lia.
Qed.

Lemma mappages_run n s a o m h r v f flags :
  vm_rel s a o m (frames_from n f ++ h) → is_root o r → 0 ≤ v → v + Z.of_nat n ≤ 2 ^ 26 → (0 < n)%nat →
  (∀ j, 0 ≤ j < Z.of_nat n → m !! (r, v + j) = None) → 0 ≤ flags < 1024 →
  ∃ k s' a' o', mappages r (v * 4096) (VA2PA f) (Z.of_nat n * 4096) flags s =
      Ret (if decide (k = n) then 0 else -1, s') ∧ (k ≤ n)%nat ∧
    vm_rel s' a' o' (map_range k r v f flags m) (frames_from (n - k) (f + 4096 * Z.of_nat k) ++ h) ∧
    vm_ext s s' o o' m (frames_from n f ++ h) ∧ grows_in r o o' ∧ ((k < n)%nat → pool_free a' = []).
Proof.
  intros HV Hr Hv Hn H0 Hm Hfl. unfold mappages.
  rewrite !decide_False by (rewrite Z.mod_mul by done; lia).
  rewrite decide_False by lia. rewrite Z.div_mul by done. rewrite Nat2Z.id.
  rewrite u64_small by (unfold PGSIZE; lia).
  replace (v * 4096 + Z.of_nat n * 4096 - PGSIZE) with ((v + Z.of_nat n - 1) * 4096) by (unfold PGSIZE; lia).
  by apply (map_loop_run n s a).
Qed.

(** One page. *)
Lemma map_one_in s a o m h r v f flags :
  vm_rel s a o m (f :: h) → is_root o r → 0 ≤ v < 2 ^ 26 → m !! (r, v) = None → 0 ≤ flags < 1024 →
  ∃ s' a' o', vm_ext s s' o o' m (f :: h) ∧ grows_in r o o' ∧
    ((mappages r (v * 4096) (VA2PA f) PGSIZE flags s = Ret (0, s') ∧
      vm_rel s' a' o' (<[(r, v) := mk_pte f flags]> m) h) ∨
     (mappages r (v * 4096) (VA2PA f) PGSIZE flags s = Ret (-1, s') ∧
      vm_rel s' a' o' m (f :: h) ∧ pool_free a' = [])).
Proof.
  intros HV Hr Hv Hm Hfl.
  destruct (mappages_run 1 s a o m h r v f flags HV Hr ltac:(lia) ltac:(lia) ltac:(lia)) as (k & s' & a' & o' & Hrun & Hk & HV' & Hx & Hg & Hnil);
    [|done|].
  { intros j Hj. replace j with 0 by lia. by rewrite Z.add_0_r. }
  exists s', a', o'. split; [done|]. split; [done|]. change (Z.of_nat 1 * 4096) with PGSIZE in Hrun.
  destruct k as [|[|k]]; [right|left|lia]; simpl in *.
  - replace (f + 4096 * Z.of_nat 0) with f in HV' by lia. split_and!; [done..|]. apply Hnil. lia.
  - done.
Qed.
Lemma map_one s a o m h r v f flags :
  vm_rel s a o m (f :: h) → is_root o r → 0 ≤ v < 2 ^ 26 → m !! (r, v) = None → 0 ≤ flags < 1024 →
  ∃ s' a' o', vm_ext s s' o o' m (f :: h) ∧
    ((mappages r (v * 4096) (VA2PA f) PGSIZE flags s = Ret (0, s') ∧
      vm_rel s' a' o' (<[(r, v) := mk_pte f flags]> m) h) ∨
     (mappages r (v * 4096) (VA2PA f) PGSIZE flags s = Ret (-1, s') ∧
      vm_rel s' a' o' m (f :: h) ∧ pool_free a' = [])).
Proof.
  intros HV Hr Hv Hm Hfl. destruct (map_one_in s a o m h r v f flags HV Hr Hv Hm Hfl) as (s' & a' & o' & Hx & _ & Hres).
  by exists s', a', o'.
Qed.

(** ** Unmapping *)

(** Entries whose only flag is V are skipped. *)
Definition unmap1 (k : Z * Z) (m : aspace) : aspace :=
  match m !! k with
  | Some e => if decide (PTE_FLAGS e = PTE_V) then m else delete k m
  | None => m
  end.
Fixpoint unmap_range (n : nat) (r v : Z) (m : aspace) : aspace :=
  match n with O => m | S n => unmap_range n r (v + 1) (unmap1 (r, v) m) end.

Lemma leaf_entry s o m p r v e :
  pt_rel s o m → o !! p = Some (r, 0, v / 512) → m !! (r, v) = Some e →
  entry s p (v mod 512) = Some e ∧ Z.testbit e 0 = true ∧ 0 ≤ e < 2 ^ 64.
Proof.
  intros HR Hp He. apply (pt_leaf _ _ _ HR) in He as (Hv & p' & Hp' & Hen & Hb).
  assert (p' = p) as -> by (by eapply owner_inj0). split_and!; [done..| |];
  destruct (entry_Some s o m p _ (v mod 512) HR Hp (Z.mod_pos_bound v 512 ltac:(lia))) as (e2 & He2 & Hr2);
  assert (e2 = e) as -> by congruence; lia.
Qed.

Lemma leaf_delete s a o m h p r v e :
  pt_rel s o m → own_rel s a o (delete (r, v) m) h → o !! p = Some (r, 0, v / 512) → 0 ≤ v →
  m !! (r, v) = Some e → vm_rel (upd s p (v mod 512) 0) a o (delete (r, v) m) h.
Proof.
  intros HR HO Hp Hv He. split; [|destruct HO; by split].
  pose proof (pt_write_leaf s o m p r _ (v mod 512) 0 HR Hp (Z.mod_pos_bound v 512 ltac:(lia)) ltac:(lia)) as Hw.
  rewrite Z.bits_0 in Hw. replace (v / 512 * 512 + v mod 512) with v in Hw by (pose proof (Z.div_mod v 512); lia). done.
Qed.

Lemma unmap_page_run s a o m h r v :
  vm_rel s a o m h → is_root o r → 0 ≤ v < 2 ^ 26 →
  ∃ s' a', unmap_page r (v * 4096) true s = Ret (tt, s') ∧ vm_rel s' a' o (unmap1 (r, v) m) h ∧ frames s' = frames s.
Proof.
  intros HV Hr Hv. pose proof HV as [HR HO]. unfold unmap_page, unmap1. assert (Hmod := Z.mod_pos_bound v 512 ltac:(lia)).
  destruct (walk_find s o m r v HR Hr Hv) as [(p0 & Hw & Hp0)|(Hw & Hno)]; rewrite (bind_Ret _ _ _ _ _ Hw).
  - destruct (pt_table _ _ _ HR p0 _ Hp0) as (Hok & _). pose proof (frame_ok_pos p0 Hok). rewrite decide_False by lia.
    destruct (m !! (r, v)) as [e|] eqn:Hm.
    + destruct (leaf_entry s o m p0 r v e HR Hp0 Hm) as (He & Hb & _).
      rewrite (bind_Ret _ _ _ _ _ (read_pte_run s o m p0 _ _ e HR Hp0 Hmod He)). rewrite has_V, Hb. simpl.
      case_decide; [by exists s, a|].
      destruct (own_free s a o (delete (r, v) m) (pte_frame e) h) as (p' & a' & Hex & HO' & _);
        [by apply (own_unmap s s a o m (r, v) e)|].
      assert (HR' : pt_rel (set_vm_pages p' s) o m) by (by destruct HR; split).
      eexists _, a'. split.
      * unfold kfree, zoom. kunfold. unfold pte_frame in Hex. rewrite Hex. exact (write_pte_run _ o m p0 _ _ 0 HR' Hp0 Hmod).
      * split; [|done]. apply (leaf_delete _ a' o m h p0 r v e HR' HO'); [done|lia|done].
    + destruct (leaf_entry_None s o m p0 r v HR Hp0 ltac:(lia) Hm) as (e & He & Hb).
      rewrite (bind_Ret _ _ _ _ _ (read_pte_run s o m p0 _ _ e HR Hp0 Hmod He)). rewrite has_V, Hb. simpl. by exists s, a.
  - rewrite decide_True by done. destruct (m !! (r, v)) as [e|] eqn:Hm; [|by exists s, a].
    apply (pt_leaf _ _ _ HR) in Hm as (_ & p & Hp & _). by destruct (Hno p).
Qed.

Lemma unmap_loop_run n s a o m h r v :
  vm_rel s a o m h → is_root o r → 0 ≤ v → v + Z.of_nat n ≤ 2 ^ 26 →
  ∃ s' a', unmap_loop n r (v * 4096) ((v + Z.of_nat n) * 4096) true s = Ret (tt, s') ∧
    vm_rel s' a' o (unmap_range n r v m) h ∧ frames s' = frames s.
Proof.
  revert s a m v. induction n as [|n IH]; intros s a m v HV Hr Hv Hn; cbn [unmap_loop].
  - rewrite decide_False by lia. by exists s, a.
  - rewrite decide_True by lia.
    destruct (unmap_page_run s a o m h r v HV Hr ltac:(lia)) as (s1 & a1 & Hrun & HV1 & Hf1).
    rewrite (bind_Ret _ _ _ _ _ Hrun). rewrite u64_small by (unfold PGSIZE; lia).
    replace (v * 4096 + PGSIZE) with ((v + 1) * 4096) by (unfold PGSIZE; lia).
    replace ((v + Z.of_nat (S n)) * 4096) with ((v + 1 + Z.of_nat n) * 4096) by lia.
    destruct (IH s1 a1 (unmap1 (r, v) m) (v + 1) HV1 Hr ltac:(lia) ltac:(lia)) as (s2 & a2 & Hrun2 & HV2 & Hf2).
    exists s2, a2. split_and!; [done..|]. congruence.
Qed.

Lemma uvmunmap_run s a o m h r v n :
  vm_rel s a o m h → is_root o r → 0 ≤ v → 0 ≤ n → v + n ≤ 2 ^ 26 →
  ∃ s' a', uvmunmap r (v * 4096) n true s = Ret (tt, s') ∧
    vm_rel s' a' o (unmap_range (Z.to_nat n) r v m) h ∧ frames s' = frames s.
Proof.
  intros HV Hr Hv Hn Hb. unfold uvmunmap. rewrite (u64_small n) by lia. rewrite (u64_small (n * PGSIZE)) by (unfold PGSIZE; lia).
  rewrite u64_small by (unfold PGSIZE; lia). replace (v * 4096 + n * PGSIZE) with ((v + Z.of_nat (Z.to_nat n)) * 4096) by (unfold PGSIZE; lia).
  apply (unmap_loop_run _ s a); [done..|lia].
Qed.
Lemma unmap_range_lookup n r v m r' v' :
  unmap_range n r v m !! (r', v') =
  match m !! (r', v') with
  | Some e => if decide (r' = r ∧ v ≤ v' < v + Z.of_nat n ∧ PTE_FLAGS e ≠ PTE_V) then None else Some e
  | None => None
  end.
Proof.
  revert v m. induction n as [|n IH]; intros v m; cbn [unmap_range].
  - destruct (m !! (r', v')); [|done]. by rewrite decide_False by lia.
  - rewrite IH. unfold unmap1. destruct (m !! (r, v)) as [e|] eqn:He.
    + destruct (decide (PTE_FLAGS e = PTE_V)) as [HF|HF].
      * destruct (m !! (r', v')) as [e'|] eqn:He'; [|done]. apply decide_ext.
        destruct (decide ((r', v') = (r, v))) as [[= -> ->]|Hne]; [assert (e' = e) by congruence; subst; lia|].
        assert (r' = r → v' ≠ v) by (intros -> ->; by apply Hne). lia.
      * destruct (decide ((r', v') = (r, v))) as [[= -> ->]|Hne].
        -- rewrite lookup_delete_eq, He. rewrite decide_True; [done|]. split_and!; [done|lia..|done].
        -- rewrite lookup_delete_ne by congruence. destruct (m !! (r', v')); [|done]. apply decide_ext.
           assert (r' = r → v' ≠ v) by (intros -> ->; by apply Hne). lia.
    + destruct (m !! (r', v')) as [e'|] eqn:He'; [|done]. apply decide_ext.
      assert (r' = r → v' ≠ v) by congruence. lia.
Qed.

(** ** Copy on write *)

(** The parent's and the child's entry after uvmcopy, and the entry uvmcopy
    puts back when the child's mapping fails. *)
Definition cow (e : Z) : Z := Z.land (Z.lor e PTE_COW) (not64 PTE_W).
Definition cow_child (e : Z) : Z := mk_pte (pte_frame e) (PTE_FLAGS (cow e)).
Definition uncow (e : Z) : Z :=
  let e3 := Z.land (cow e) (not64 PTE_COW) in if has e PTE_W then Z.lor e3 PTE_W else e3.

Lemma testbit_pow2 k i : 0 ≤ k → Z.testbit (2 ^ k) i = bool_decide (i = k).
Proof.
  intros Hk. destruct (decide (i = k)) as [->|Hne].
  - rewrite bool_decide_eq_true_2 by done. by apply Z.pow2_bits_true.
  - rewrite bool_decide_eq_false_2 by done. by apply Z.pow2_bits_false.
Qed.

Lemma cow_bits e i : 0 ≤ e < 2 ^ 64 → 0 ≤ i →
  Z.testbit (cow e) i = (Z.testbit e i || bool_decide (i = 8)) && negb (bool_decide (i = 2)).
Proof.
  intros He Hi. unfold cow. rewrite Z.land_spec, Z.lor_spec, not64_spec by (done || by unfold PTE_W).
  change PTE_COW with (2 ^ 8). change PTE_W with (2 ^ 2). rewrite !testbit_pow2 by lia.
  destruct (decide (i < 64)); [rewrite (bool_decide_eq_true_2 (i < 64)) by done; done|].
  rewrite (testbit_high e 64 i) by lia. rewrite (bool_decide_eq_false_2 (i = 8)) by lia. done.
Qed.

Lemma uncow_bits e i : 0 ≤ e < 2 ^ 64 → 0 ≤ i →
  Z.testbit (uncow e) i = Z.testbit e i && negb (bool_decide (i = 8)).
Proof.
  intros He Hi. unfold uncow. assert (Hw : has e PTE_W = Z.testbit e 2) by (apply (has_pow2 e 2); lia).
  assert (Hl : Z.testbit (Z.land (cow e) (not64 PTE_COW)) i =
               Z.testbit e i && negb (bool_decide (i = 2)) && negb (bool_decide (i = 8))).
  { rewrite Z.land_spec, cow_bits, not64_spec by (done || by unfold PTE_COW).
    change PTE_COW with (2 ^ 8). rewrite testbit_pow2 by lia.
    destruct (decide (i = 8)) as [->|]; [by rewrite !andb_false_r|]. rewrite (bool_decide_eq_false_2 (i = 8)) by done.
    destruct (decide (i < 64)); [rewrite (bool_decide_eq_true_2 (i < 64)) by done; by rewrite orb_false_r|].
    rewrite (testbit_high e 64 i) by lia. done. }
  rewrite Hw. destruct (Z.testbit e 2) eqn:H2.
  - rewrite Z.lor_spec, Hl. change PTE_W with (2 ^ 2). rewrite testbit_pow2 by lia.
    destruct (decide (i = 2)) as [->|]; [by rewrite H2|]. rewrite (bool_decide_eq_false_2 (i = 2)) by done.
    by rewrite andb_true_r, orb_false_r.
  - rewrite Hl. destruct (decide (i = 2)) as [->|]; [by rewrite H2|].
    rewrite (bool_decide_eq_false_2 (i = 2)) by done. by rewrite andb_true_r.
Qed.

(** A word given by bits of a 64-bit word is one. *)
Lemma word_range x : (∀ i, 64 ≤ i → Z.testbit x i = false) → 0 ≤ x → 0 ≤ x < 2 ^ 64.
Proof. intros Hb Hx. split; [done|]. apply bits_range; [lia|done|done]. Qed.

Lemma not64_pos m : 0 ≤ m < 2 ^ 64 → 0 ≤ not64 m.
Proof. unfold not64. lia. Qed.

Lemma cow_range e : 0 ≤ e < 2 ^ 64 → 0 ≤ cow e < 2 ^ 64.
Proof.
  intros He. apply word_range.
  - intros i Hi. rewrite cow_bits by (done || lia). rewrite (testbit_high e 64) by lia.
    by rewrite (bool_decide_eq_false_2 (i = 8)) by lia.
  - apply Z.land_nonneg. right. by apply not64_pos.
Qed.
Lemma uncow_range e : 0 ≤ e < 2 ^ 64 → 0 ≤ uncow e < 2 ^ 64.
Proof.
  intros He. apply word_range.
  - intros i Hi. rewrite uncow_bits by (done || lia). by rewrite (testbit_high e 64) by lia.
  - unfold uncow. assert (0 ≤ Z.land (cow e) (not64 PTE_COW)) by (apply Z.land_nonneg; right; by apply not64_pos).
    case_match; [apply Z.lor_nonneg; by split|done].
Qed.
Lemma cow_frame e : 0 ≤ e < 2 ^ 64 → pte_frame (cow e) = pte_frame e.
Proof.
  intros He. apply pte_frame_bits. intros i Hi. rewrite cow_bits by (done || lia).
  rewrite !bool_decide_eq_false_2 by lia. by rewrite orb_false_r, andb_true_r.
Qed.
Lemma uncow_frame e : 0 ≤ e < 2 ^ 64 → pte_frame (uncow e) = pte_frame e.
Proof.
  intros He. apply pte_frame_bits. intros i Hi. rewrite uncow_bits by (done || lia).
  rewrite bool_decide_eq_false_2 by lia. by rewrite andb_true_r.
Qed.
Lemma cow_V e : 0 ≤ e < 2 ^ 64 → Z.testbit (cow e) 0 = Z.testbit e 0.
Proof. intros He. rewrite cow_bits by lia. by destruct (Z.testbit e 0). Qed.
Lemma uncow_V e : 0 ≤ e < 2 ^ 64 → Z.testbit (uncow e) 0 = Z.testbit e 0.
Proof. intros He. rewrite uncow_bits by lia. by destruct (Z.testbit e 0). Qed.
Lemma PTE_FLAGS_range e : 0 ≤ PTE_FLAGS e < 1024.
Proof. unfold PTE_FLAGS. change 0x3ff with (Z.ones 10). rewrite Z.land_ones by lia. apply Z.mod_pos_bound. lia. Qed.
Lemma PTE_FLAGS_bits e i : 0 ≤ i < 10 → Z.testbit (PTE_FLAGS e) i = Z.testbit e i.
Proof. intros Hi. unfold PTE_FLAGS. change 0x3ff with (Z.ones 10). rewrite Z.land_spec, Z.ones_spec_low by lia. by rewrite andb_true_r. Qed.
Lemma VA2PA_frame e : VA2PA (pte_frame e) = PTE2PA e.
Proof.
  unfold VA2PA, pte_frame, PA2VA. assert (Hr : 0 ≤ PTE2PA e < 2 ^ 64) by (unfold PTE2PA; auto with frost).
  unfold u64 at 1 2. rewrite Zminus_mod_idemp_l. replace (PTE2PA e + KERNEL_VIRT_OFFSET - KERNEL_VIRT_OFFSET) with (PTE2PA e) by lia.
  by apply Z.mod_small.
Qed.

Lemma leaf_replace s a o m h h' p r v e e' :
  vm_rel s a o m h → o !! p = Some (r, 0, v / 512) → m !! (r, v) = Some e →
  0 ≤ e' < 2 ^ 64 → Z.testbit e' 0 = true →
  (∀ f, mapped f (<[(r, v) := e']> m) + held f h' = mapped f m + held f h) →
  write_pte (p + 8 * (v mod 512)) e' s = Ret (tt, upd s p (v mod 512) e') ∧
  vm_rel (upd s p (v mod 512) e') a o (<[(r, v) := e']> m) h'.
Proof.
  intros [HR HO] Hp He Hr Hb Hc. assert (Hmod := Z.mod_pos_bound v 512 ltac:(lia)).
  split; [by apply (write_pte_run s o m p (r, 0, v / 512))|]. split; [|by apply (own_same s _ a o m _ h)].
  pose proof (pt_write_leaf s o m p r _ (v mod 512) e' HR Hp Hmod Hr) as Hw. rewrite Hb in Hw.
  replace (v / 512 * 512 + v mod 512) with v in Hw by (pose proof (Z.div_mod v 512); lia). done.
Qed.

Lemma same_frame_count m k e e' f :
  m !! k = Some e → pte_frame e' = pte_frame e → mapped f (<[k := e']> m) = mapped f m.
Proof. intros Hk Hf. rewrite (mapped_replace f m k e e' Hk), Hf. lia. Qed.

Lemma vm_refcnt_inc_run s a o m f h :
  vm_rel s a o m h → 0 < mapped f m + held f h < 2 ^ 31 - 1 →
  ∃ s' a', refcnt_inc f s = Ret (0, s') ∧ vm_rel s' a' o m (f :: h) ∧ tables s' = tables s ∧ frames s' = frames s.
Proof.
  intros [HR HO] Hf. destruct (own_frame _ _ _ _ _ HO f ltac:(lia)) as (Hown & b & Hb & Hlen).
  destruct (live_owned _ _ _ _ _ f HO ltac:(lia)) as (_ & Hof & _).
  destruct (pp_step _ a (Op_inc f) 0 (mk_pool (pool_free a) (<[f := mapped f m + held f h + 1]> (pool_owned a)))
    (own_pool _ _ _ _ _ HO)) as (p' & Hex & Hrel'); [simpl; rewrite Hown; simpl; by rewrite decide_True by lia|].
  exists (set_vm_pages p' s), (mk_pool (pool_free a) (<[f := mapped f m + held f h + 1]> (pool_owned a))).
  split; [unfold refcnt_inc, zoom; by rewrite Hex|]. split; [|done].
  split; [by destruct HR; split|]. split; simpl; [done| | |].
  - intros p x Hp. destruct (own_table _ _ _ _ _ HO p x Hp). assert (f ≠ p) by congruence.
    rewrite lookup_insert_ne, frames_held_cons, decide_False by done. split; [done|lia].
  - intros g. rewrite frames_held_cons. destruct (decide (f = g)) as [<-|Hne].
    + intros _. rewrite lookup_insert_eq. split; [f_equal; lia|by exists b].
    + rewrite lookup_insert_ne, Z.add_0_r by done. apply (own_frame _ _ _ _ _ HO g).
  - intros g n. rewrite frames_held_cons. destruct (decide (f = g)) as [<-|Hne]; [right; lia|].
    rewrite lookup_insert_ne, Z.add_0_r by done. apply (own_only _ _ _ _ _ HO).
Qed.

Lemma vm_refcnt_dec_run s a o m f h :
  vm_rel s a o m (f :: h) → mapped f m + held f h > 0 →
  ∃ s' a', refcnt_dec f s = Ret (0, s') ∧ vm_rel s' a' o m h ∧ tables s' = tables s ∧ frames s' = frames s ∧
    pool_free a' = pool_free a.
Proof.
  intros [HR HO] Hleft. assert (Hf : mapped f m + held f (f :: h) > 0) by (rewrite frames_held_cons, decide_True by done; lia).
  destruct (own_frame _ _ _ _ _ HO f Hf) as (Hown & b & Hb & Hlen).
  destruct (live_owned _ _ _ _ _ f HO Hf) as (_ & Hof & _).
  destruct (pp_step _ a (Op_dec f) 0 (mk_pool (pool_free a) (<[f := mapped f m + held f (f :: h) - 1]> (pool_owned a)))
    (own_pool _ _ _ _ _ HO)) as (p' & Hex & Hrel'); [simpl; rewrite Hown; simpl; by rewrite decide_True by lia|].
  exists (set_vm_pages p' s), (mk_pool (pool_free a) (<[f := mapped f m + held f (f :: h) - 1]> (pool_owned a))).
  split; [unfold refcnt_dec, zoom; by rewrite Hex|]. split; [|done].
  split; [by destruct HR; split|]. split; simpl; [done| | |].
  - intros p x Hp. destruct (own_table _ _ _ _ _ HO p x Hp) as [Ho Hm]. assert (f ≠ p) by congruence.
    rewrite frames_held_cons, decide_False in Hm by done. rewrite lookup_insert_ne by done. split; [done|lia].
  - intros g Hg. destruct (decide (f = g)) as [<-|Hne].
    + rewrite lookup_insert_eq. split; [|by exists b]. rewrite frames_held_cons, decide_True by done. f_equal. lia.
    + rewrite lookup_insert_ne by done. pose proof (own_frame _ _ _ _ _ HO g) as Hog.
      rewrite frames_held_cons, decide_False, Z.add_0_r in Hog by done. auto.
  - intros g n. destruct (decide (f = g)) as [<-|Hne]; [by right|]. rewrite lookup_insert_ne by done. intros Hg.
    destruct (own_only _ _ _ _ _ HO g n Hg) as [|Hl]; [by left|right]. rewrite frames_held_cons, decide_False in Hl by done. lia.
Qed.

Lemma vm_rel_frames s a o m h f :
  vm_rel s a o m h → mapped f m + held f h > 0 → frame_ok f.
Proof. intros [_ HO] Hf. by apply (live_owned _ _ _ _ _ f HO). Qed.

Lemma ext_same s s' o m h : frames s' = frames s → vm_ext s s' o o m h.
Proof. intros Hf. split; [done|]. intros f _. by rewrite Hf. Qed.

(** vm_ext between states of different abstract states, for the frames of [m]. *)
Lemma ext_weaken s s' o o' m m' h h' :
  vm_ext s s' o o' m' h' → (∀ f, mapped f m + held f h > 0 → mapped f m' + held f h' > 0) → vm_ext s s' o o' m h.
Proof. intros [Ho Hf] Hi. split; [done|]. auto. Qed.

Lemma copy_page_run s a o m h old new v p0 e :
  vm_rel s a o m h → is_root o new → old ≠ new → 0 ≤ v < 2 ^ 26 → o !! p0 = Some (old, 0, v / 512) →
  m !! (old, v) = Some e → m !! (new, v) = None → mapped (pte_frame e) m + held (pte_frame e) h < 2 ^ 31 - 1 →
  ∃ x s' a' o', copy_page new (v * 4096) (p0 + 8 * (v mod 512)) s = Ret (x, s') ∧ vm_ext s s' o o' m h ∧
    ((x = None ∧ vm_rel s' a' o' (<[(new, v) := cow_child e]> (<[(old, v) := cow e]> m)) h) ∨
     (x = Some (-1) ∧ vm_rel s' a' o' (<[(old, v) := uncow e]> m) h ∧ pool_free a' = [])).
Proof.
  intros HV Hnew Hne Hv Hp0 He Hn Hb. pose proof HV as [HR HO]. assert (Hmod := Z.mod_pos_bound v 512 ltac:(lia)).
  destruct (leaf_entry s o m p0 old v e HR Hp0 He) as (Hen & HV0 & Her).
  pose proof (mapped_lookup m _ e He) as Hlive. pose proof (frames_held_nonneg (pte_frame e) h).
  unfold copy_page. rewrite (bind_Ret _ _ _ _ _ (read_pte_run s o m p0 _ _ e HR Hp0 Hmod Hen)).
  fold (cow e) (pte_frame e).
  destruct (leaf_replace s a o m h h p0 old v e (cow e) HV Hp0 He (cow_range e Her)) as [Hw HV1];
    [by rewrite cow_V|intros f; by rewrite (same_frame_count m (old, v) e) by (done || by apply cow_frame)|].
  rewrite (bind_Ret _ _ _ _ _ Hw). set (s1 := upd s p0 (v mod 512) (cow e)) in *. set (m1 := <[(old, v) := cow e]> m) in *.
  assert (Hcnt : ∀ f, mapped f m1 = mapped f m) by (intros f; apply (same_frame_count m (old, v) e); [done|by apply cow_frame]).
  destruct (vm_refcnt_inc_run s1 a o m1 (pte_frame e) h HV1) as (s2 & a2 & Hi & HV2 & Ht2 & Hf2); [rewrite Hcnt; lia|].
  rewrite (bind_Ret _ _ _ _ _ Hi).
  assert (Hn1 : m1 !! (new, v) = None) by (unfold m1; rewrite lookup_insert_ne by congruence; done).
  destruct (map_one s2 a2 o m1 h new v (pte_frame e) (PTE_FLAGS (cow e)) HV2 Hnew Hv Hn1 (PTE_FLAGS_range _))
    as (s3 & a3 & o3 & Hx3 & Hres). rewrite VA2PA_frame in Hres. fold (cow_child e) in Hres.
  assert (Hx : vm_ext s s3 o o3 m h).
  { eapply (vm_ext_trans s s2 s3 o o o3); [apply ext_same; by rewrite Hf2|].
    apply (ext_weaken s2 s3 o o3 m m1 h (pte_frame e :: h)); [done|]. intros f. rewrite Hcnt, frames_held_cons. case_decide; lia. }
  destruct Hres as [[Hrun HV3]|(Hrun & HV3 & Hnil)]; rewrite (bind_Ret _ _ _ _ _ Hrun).
  - rewrite decide_False by lia. exists None, s3, a3, o3. split_and!; [done..|]. by left.
  - rewrite decide_True by lia. assert (Hp3 : o3 !! p0 = Some (old, 0, v / 512)) by (destruct Hx; by eapply lookup_weaken).
    assert (He3 : m1 !! (old, v) = Some (cow e)) by (unfold m1; by rewrite lookup_insert_eq).
    destruct (leaf_entry s3 o3 m1 p0 old v _ (vr_pt _ _ _ _ _ HV3) Hp3 He3) as (Hen3 & _ & _).
    rewrite bind_assoc, (bind_Ret _ _ _ _ _ (read_pte_run s3 o3 m1 p0 _ _ _ (vr_pt _ _ _ _ _ HV3) Hp3 Hmod Hen3)).
    fold (uncow e).
    destruct (leaf_replace s3 a3 o3 m1 (pte_frame e :: h) (pte_frame e :: h) p0 old v (cow e) (uncow e) HV3 Hp3 He3 (uncow_range e Her))
      as [Hw3 HV4]; [by rewrite uncow_V| |].
    { intros f. rewrite (same_frame_count m1 (old, v) (cow e)); [done..|]. by rewrite uncow_frame, cow_frame. }
    rewrite (bind_Ret _ _ _ _ _ Hw3). unfold m1 in HV4. rewrite insert_insert_eq in HV4.
    destruct (vm_refcnt_dec_run _ _ _ _ _ _ HV4) as (s5 & a5 & Hd & HV5 & _ & Hf5 & Hfree5);
      [rewrite (same_frame_count m (old, v) e) by (done || by apply uncow_frame); lia|]. rewrite (bind_Ret _ _ _ _ _ Hd).
    exists (Some (-1)), s5, a5, o3. split_and!; [done| |].
    + eapply (vm_ext_trans s s3 s5 o o3 o3); [done|]. apply ext_same. rewrite Hf5. done.
    + right. split_and!; [done..|]. by rewrite Hfree5.
Qed.

(** ** fork *)

Lemma mapped_size f m : mapped f m ≤ Z.of_nat (size m).
Proof. unfold mapped. apply inj_le. apply map_subseteq_size, map_filter_subseteq. Qed.
Lemma held_length f h : held f h ≤ Z.of_nat (length h).
Proof. unfold held. apply inj_le, length_filter. Qed.

Section fork.
Context (s0 : st) (o0 : owner) (m0 : aspace) (h : list Z) (old new : Z).
Hypothesis Hne : old ≠ new.
Hypothesis Hwords : ∀ k e, m0 !! k = Some e → 0 ≤ e < 2 ^ 64.
Hypothesis Hempty : ∀ v, m0 !! (new, v) = None.
Hypothesis Hsmall : Z.of_nat (size m0) + Z.of_nat (length h) < 2 ^ 30.

(** The address spaces after the pages below [n] are shared. *)
Definition shared_below (n : Z) (m : aspace) : Prop := ∀ r v,
  m !! (r, v) =
  if decide (r = old) then if decide (v < n) then cow <$> m0 !! (old, v) else m0 !! (old, v)
  else if decide (r = new) then if decide (v < n) then cow_child <$> m0 !! (old, v) else None
  else m0 !! (r, v).

Lemma shared_skip n k m :
  shared_below n m → n ≤ k → (∀ v, n ≤ v < k → m !! (old, v) = None) → shared_below k m.
Proof.
  intros HS Hk Hno r v. rewrite (HS r v). assert (Hv : n ≤ v < k → m0 !! (old, v) = None).
  { intros Hv. specialize (HS old v). rewrite decide_True, decide_False in HS by lia. rewrite <-HS. by apply Hno. }
  repeat case_decide; try done; try lia; by rewrite Hv by lia.
Qed.

Lemma shared_step n m e :
  shared_below n m → m !! (old, n) = Some e →
  shared_below (n + 1) (<[(new, n) := cow_child e]> (<[(old, n) := cow e]> m)).
Proof.
  intros HS He r v. assert (Hm0 : m0 !! (old, n) = Some e).
  { rewrite (HS old n) in He. by rewrite decide_True, decide_False in He by (done || lia). }
  destruct (decide ((r, v) = (new, n))) as [[= -> ->]|Hn1].
  { rewrite lookup_insert_eq, decide_False, decide_True, decide_True by (done || lia). by rewrite Hm0. }
  rewrite lookup_insert_ne by congruence. destruct (decide ((r, v) = (old, n))) as [[= -> ->]|Hn2].
  { rewrite lookup_insert_eq, decide_True, decide_True by (done || lia). by rewrite Hm0. }
  rewrite lookup_insert_ne by congruence. rewrite (HS r v).
  assert (Hvn : r = old ∨ r = new → v ≠ n) by (intros [-> | ->]; congruence).
  destruct (decide (r = old)) as [->|]; [|destruct (decide (r = new)) as [->|]; [|done]];
    (destruct (decide (v < n)); [by rewrite decide_True by lia|rewrite decide_False; [done|]]);
    assert (v ≠ n) by auto; lia.
Qed.

(** The loop invariant: page [n] is next, and the pages [req] are tables. *)
Definition fork_inv (req : list (Z * (Z * Z * Z))) (n : Z) (s : st) : Prop := ∃ a o m,
  vm_rel s a o m h ∧ shared_below n m ∧ vm_ext s0 s o0 o m0 h ∧ (∀ p x, (p, x) ∈ req → o !! p = Some x) ∧
  is_root o old ∧ is_root o new ∧ Z.of_nat (size m) ≤ Z.of_nat (size m0) + n.

(** Failure at page [n]: its entry lost its COW bit, the rest is as before it. *)
Definition fork_fail (_ : Z) (s : st) : Prop := ∃ a o m n e,
  0 ≤ n < 2 ^ 26 ∧ shared_below n m ∧ m !! (old, n) = Some e ∧ pool_free a = [] ∧
  vm_rel s a o (<[(old, n) := uncow e]> m) h ∧ vm_ext s0 s o0 o m0 h.

Lemma shared_live n m a o s f :
  vm_rel s a o m h → shared_below n m → mapped f m0 + held f h > 0 → mapped f m + held f h > 0.
Proof.
  intros HV HS Hf. pose proof (mapped_nonneg f m). pose proof (frames_held_nonneg f h).
  destruct (decide (held f h > 0)); [lia|]. assert (mapped f m0 > 0) as Hm by lia.
  unfold mapped in Hm. destruct (map_choose (filter (λ x, pte_frame x.2 = f) m0)) as ([r v] & e & He).
  { intros Heq. rewrite Heq in Hm. rewrite map_size_empty in Hm. done. }
  apply map_lookup_filter_Some in He as [He Hfr]. simpl in Hfr.
  assert (∃ e', m !! (r, v) = Some e' ∧ pte_frame e' = f) as (e' & He' & <-).
  { pose proof (HS r v) as Hrv. destruct (decide (r = old)) as [->|]; [destruct (decide (v < n))|].
    - rewrite He in Hrv. simpl in Hrv. exists (cow e). split; [done|]. rewrite cow_frame; [done|by eapply Hwords].
    - rewrite He in Hrv. by exists e.
    - destruct (decide (r = new)) as [->|]; [by rewrite Hempty in He|]. rewrite He in Hrv. by exists e. }
  pose proof (mapped_lookup m _ e' He'). lia.
Qed.

(** One page of the innermost loop. *)
Lemma fork_page req pt0 q i0 s :
  (pt0, (old, 0, q)) ∈ req → 0 ≤ q < 131072 → 0 ≤ i0 < 512 → fork_inv req (q * 512 + i0) s →
  ∃ x s', if_present (pt0 + 8 * i0) (λ _, copy_page new ((q * 512 + i0) * 4096) (pt0 + 8 * i0)) s = Ret (x, s') ∧
    match x with None => fork_inv req (q * 512 + i0 + 1) s' | Some v => fork_fail v s' end.
Proof.
  intros Hreq Hq Hi0 (a & o & m & HV & HS & Hext & Hsub & Hro & Hrn & Hsz). pose proof HV as [HR HO].
  set (v := q * 512 + i0) in *. assert (Hpt0 : o !! pt0 = Some (old, 0, q)) by (by apply Hsub).
  destruct (proj1 (vpn_split q i0 v Hi0) eq_refl) as [Hvq Hvi]. assert (Hv : 0 ≤ v < 2 ^ 26) by (unfold v; lia).
  destruct (entry_Some s o m pt0 _ i0 HR Hpt0 Hi0) as (e & He & Her).
  unfold if_present. rewrite (bind_Ret _ _ _ _ _ (read_pte_run s o m pt0 _ i0 e HR Hpt0 Hi0 He)). rewrite has_V.
  destruct (Z.testbit e 0) eqn:Hb.
  - assert (Hm : m !! (old, v) = Some e).
    { apply (pt_leaf _ _ _ HR). split; [lia|]. exists pt0. by rewrite Hvq, Hvi. }
    assert (Hnone : m !! (new, v) = None) by (rewrite (HS new v), decide_False, decide_True, decide_False by (done || lia); done).
    pose proof (mapped_size (pte_frame e) m). pose proof (held_length (pte_frame e) h).
    destruct (copy_page_run s a o m h old new v pt0 e HV Hrn Hne Hv) as (x & s' & a' & o' & Hrun & Hx & Hres);
      [by rewrite Hvq|done|done|lia|]. rewrite Hvi in Hrun. exists x, s'. split; [done|].
    assert (Hext' : vm_ext s0 s' o0 o' m0 h).
    { eapply vm_ext_trans; [exact Hext|]. apply (ext_weaken s s' o o' m0 m h h Hx). intros f. by eapply shared_live. }
    destruct Hres as [[-> HV']|(-> & HV' & Hnil)].
    + exists a', o'. eexists. split_and!; [exact HV'|by apply shared_step|done| |..].
      * intros p x Hp. destruct Hx as [Ho _]. eapply lookup_weaken; [by apply Hsub|done].
      * exact (vm_ext_root _ _ _ _ _ _ _ Hx Hro).
      * exact (vm_ext_root _ _ _ _ _ _ _ Hx Hrn).
      * rewrite map_size_insert_None by (rewrite lookup_insert_ne by congruence; done).
        rewrite map_size_insert_Some by done. lia.
    + exists a', o', m, v, e. split_and!; [lia..|done|done|done|done|done].
  - exists None, s. split; [done|]. exists a, o, m. split_and!; try done; [|lia].
    apply (shared_skip v); [done|lia|]. intros v' Hv'. assert (v' = v) as -> by lia.
    destruct (m !! (old, v)) as [e'|] eqn:Hm; [|done].
    destruct (leaf_entry s o m pt0 old v e' HR) as (He' & Hb' & _); [by rewrite Hvq|done|]. rewrite Hvi in He'. congruence.
Qed.

(** An absent table leaves no page below it. *)
Lemma no_child_no_leaf s o m p l q i e v :
  pt_rel s o m → o !! p = Some (old, l, q) → 0 < l → 0 ≤ i < 512 → entry s p i = Some e → Z.testbit e 0 = false →
  (l = 1 ∧ v / 512 = q * 512 + i ∨ l = 2 ∧ v / 512 / 512 = i) → m !! (old, v) = None.
Proof.
  intros HR Hp Hl Hi He Hb Hcase. destruct (m !! (old, v)) as [e'|] eqn:Hm; [|done]. exfalso.
  apply (pt_leaf _ _ _ HR) in Hm as (_ & p0 & Hp0 & _).
  destruct (pt_parent _ _ _ HR p0 old 0 _ Hp0) as (p1 & e1 & Hp1 & He1 & Hb1 & _); [done|]. change (0 + 1) with 1 in Hp1.
  destruct Hcase as [[-> Hq]|[-> Hq]].
  - destruct (proj1 (vpn_split q i _ Hi) Hq) as [H1 H2]. rewrite H1 in Hp1. rewrite H2 in He1.
    assert (p1 = p) as -> by (by eapply owner_inj1). congruence.
  - destruct (pt_parent _ _ _ HR p1 old 1 _ Hp1) as (p2 & e2 & Hp2 & He2 & Hb2 & _); [done|]. change (1 + 1) with 2 in Hp2.
    destruct (pt_root _ _ _ HR p old q Hp) as [<- _]. destruct (pt_root _ _ _ HR p2 old _ Hp2) as [-> _].
    rewrite Hq, Z.mod_small in He2 by lia. congruence.
Qed.

Lemma fork_va q i0 i2 i1 :
  0 ≤ i1 < 512 → 0 ≤ i0 < 512 → 0 ≤ i2 → q = i2 * 512 + i1 →
  Z.lor (Z.lor (Z.shiftl i2 30) (Z.shiftl i1 21)) (Z.shiftl i0 12) = (q * 512 + i0) * 4096.
Proof.
  intros H1 H0 H2 ->. rewrite !Z.shiftl_mul_pow2 by lia. rewrite lor_add_low by lia.
  replace (i2 * 2 ^ 30 + i1 * 2 ^ 21) with ((i2 * 512 + i1) * 2 ^ 21) by lia. rewrite lor_add_low by lia. lia.
Qed.

(** One table of the middle loop. *)
Lemma fork_table req pt1 i2 i1 s :
  (pt1, (old, 1, i2)) ∈ req → 0 ≤ i2 < 256 → 0 ≤ i1 < 512 → fork_inv req ((i2 * 512 + i1) * 512) s →
  ∃ x s', if_present (pt1 + 8 * i1) (λ pt0, for_find (seqZ 0 512) (λ i0,
      if_present (pt0 + 8 * i0) (λ _, copy_page new
        (Z.lor (Z.lor (Z.shiftl i2 30) (Z.shiftl i1 21)) (Z.shiftl i0 12)) (pt0 + 8 * i0)))) s = Ret (x, s') ∧
    match x with None => fork_inv req ((i2 * 512 + (i1 + 1)) * 512) s' | Some v => fork_fail v s' end.
Proof.
  intros Hreq H2 H1 HI. pose proof HI as (a & o & m & HV & HS & Hext & Hsub & Hro & Hrn & Hsz). pose proof HV as [HR HO].
  assert (Hpt1 : o !! pt1 = Some (old, 1, i2)) by (by apply Hsub).
  destruct (entry_Some s o m pt1 _ i1 HR Hpt1 H1) as (e & He & Her).
  unfold if_present at 1. rewrite (bind_Ret _ _ _ _ _ (read_pte_run s o m pt1 _ i1 e HR Hpt1 H1 He)). rewrite has_V.
  destruct (Z.testbit e 0) eqn:Hb.
  - pose proof (pt_child _ _ _ HR pt1 old 1 i2 i1 e Hpt1 ltac:(lia) H1 ltac:(lia) He Hb) as Hc. change (1 - 1) with 0 in Hc.
    set (q := i2 * 512 + i1) in *. fold (pte_frame e).
    assert (HIq : fork_inv ((pte_frame e, (old, 0, q)) :: req) (q * 512) s).
    { exists a, o, m. split_and!; try done. intros p x [[= -> ->]|Hp]%elem_of_cons; [done|by apply Hsub]. }
    destruct (for_find_seq (λ i, fork_inv ((pte_frame e, (old, 0, q)) :: req) (q * 512 + i)) fork_fail
      (λ i0, if_present (pte_frame e + 8 * i0) (λ _, copy_page new
        (Z.lor (Z.lor (Z.shiftl i2 30) (Z.shiftl i1 21)) (Z.shiftl i0 12)) (pte_frame e + 8 * i0))) 0 512 s)
      as (x & s' & Hrun & Hx); [lia| |by rewrite Z.add_0_r|].
    + intros i0 s1 Hi0 HI1. rewrite (fork_va q i0 i2 i1) by (done || lia). rewrite Z.add_assoc.
      apply fork_page; [apply elem_of_cons; by left|unfold q; lia|lia|done].
    + exists x, s'. split; [done|]. destruct x as [v|]; [done|].
      replace ((i2 * 512 + (i1 + 1)) * 512) with (q * 512 + (0 + 512)) by (unfold q; lia).
      destruct Hx as (a' & o' & m' & ? & ? & ? & Hsub' & ? & ? & ?). exists a', o', m'. split_and!; try done.
      intros p x' Hp. apply Hsub'. apply elem_of_cons. by right.
  - exists None, s. split; [done|]. exists a, o, m. split_and!; try done; [|lia].
    apply (shared_skip ((i2 * 512 + i1) * 512)); [done|lia|]. intros v Hv.
    apply (no_child_no_leaf s o m pt1 1 i2 i1 e v HR Hpt1 ltac:(lia) H1 He Hb). left. split; [done|].
    symmetry. apply Z.div_unique with (v - (i2 * 512 + i1) * 512); lia.
Qed.

(** One table of the outer loop. *)
Lemma fork_root i2 s :
  0 ≤ i2 < 256 → fork_inv [(old, (old, 2, 0))] (i2 * 2 ^ 18) s →
  ∃ x s', if_present (old + 8 * i2) (λ pt1, for_find (seqZ 0 512) (λ i1,
      if_present (pt1 + 8 * i1) (λ pt0, for_find (seqZ 0 512) (λ i0,
        if_present (pt0 + 8 * i0) (λ _, copy_page new
          (Z.lor (Z.lor (Z.shiftl i2 30) (Z.shiftl i1 21)) (Z.shiftl i0 12)) (pt0 + 8 * i0)))))) s = Ret (x, s') ∧
    match x with None => fork_inv [(old, (old, 2, 0))] ((i2 + 1) * 2 ^ 18) s' | Some v => fork_fail v s' end.
Proof.
  intros H2 HI. pose proof HI as (a & o & m & HV & HS & Hext & Hsub & Hro & Hrn & Hsz). pose proof HV as [HR HO].
  assert (H2' : 0 ≤ i2 < 512) by lia.
  destruct (entry_Some s o m old _ i2 HR Hro H2') as (e & He & Her).
  unfold if_present at 1. rewrite (bind_Ret _ _ _ _ _ (read_pte_run s o m old _ i2 e HR Hro H2' He)). rewrite has_V.
  destruct (Z.testbit e 0) eqn:Hb.
  - pose proof (pt_child _ _ _ HR old old 2 0 i2 e Hro ltac:(lia) H2' ltac:(lia) He Hb) as Hc.
    change (2 - 1) with 1 in Hc. rewrite Z.mul_0_l, Z.add_0_l in Hc. fold (pte_frame e).
    set (req := [(pte_frame e, (old, 1, i2)); (old, (old, 2, 0))]).
    destruct (for_find_seq (λ i, fork_inv req ((i2 * 512 + i) * 512)) fork_fail
      (λ i1, if_present (pte_frame e + 8 * i1) (λ pt0, for_find (seqZ 0 512) (λ i0,
        if_present (pt0 + 8 * i0) (λ _, copy_page new
          (Z.lor (Z.lor (Z.shiftl i2 30) (Z.shiftl i1 21)) (Z.shiftl i0 12)) (pt0 + 8 * i0))))) 0 512 s)
      as (x & s' & Hrun & Hx); [lia| | |].
    + intros i1 s1 Hi1 HI1. apply (fork_table req); [apply elem_of_cons; by left|done|lia|done].
    + exists a, o, m. replace ((i2 * 512 + 0) * 512) with (i2 * 2 ^ 18) by lia. split_and!; try done.
      intros p x [[= -> ->]|Hp]%elem_of_cons; [done|by apply Hsub].
    + exists x, s'. split; [done|]. destruct x as [v|]; [done|].
      replace ((i2 + 1) * 2 ^ 18) with ((i2 * 512 + (0 + 512)) * 512) by lia.
      destruct Hx as (a' & o' & m' & ? & ? & ? & Hsub' & ? & ? & ?). exists a', o', m'. split_and!; try done.
      intros p x' Hp. apply Hsub'. apply elem_of_cons. by right.
  - exists None, s. split; [done|]. exists a, o, m. split_and!; try done; [|lia].
    apply (shared_skip (i2 * 2 ^ 18)); [done|lia|]. intros v Hv.
    apply (no_child_no_leaf s o m old 2 0 i2 e v HR Hro ltac:(lia) H2' He Hb). right. split; [done|].
    rewrite Z.div_div by lia. symmetry. apply Z.div_unique with (v - i2 * 2 ^ 18); lia.
Qed.

Lemma uvmcopy_run a :
  vm_rel s0 a o0 m0 h → is_root o0 old → is_root o0 new →
  ∃ x s', uvmcopy old new s0 = Ret (match x with Some _ => -1 | None => 0 end, s') ∧
    match x with None => fork_inv [(old, (old, 2, 0))] (2 ^ 26) s' | Some v => fork_fail v s' end.
Proof.
  intros HV Hro Hrn. unfold uvmcopy.
  match goal with |- context [for_find (seqZ 0 256) ?body] =>
    destruct (for_find_seq (λ i, fork_inv [(old, (old, 2, 0))] (i * 2 ^ 18)) fork_fail body 0 256 s0)
      as (x & s' & Hrun & Hx); [lia| | |] end.
  - intros i s1 Hi HI. apply fork_root; [lia|done].
  - exists a, o0, m0. split_and!; [done| |apply vm_ext_refl| |done|done|lia];
      [|intros p x Hx; apply list_elem_of_singleton in Hx; by injection Hx as -> ->].
    assert (Hneg : ∀ v, v < 0 → m0 !! (old, v) = None).
    { intros v Hv. destruct (m0 !! (old, v)) eqn:E; [|done]. apply (pt_leaf _ _ _ (vr_pt _ _ _ _ _ HV)) in E. lia. }
    intros r v. destruct (decide (r = old)) as [->|]; [|destruct (decide (r = new)) as [->|]; [|done]].
    + case_decide; [by rewrite Hneg|done].
    + rewrite Hempty. case_decide; [by rewrite Hneg|done].
  - rewrite (bind_Ret _ _ _ _ _ Hrun). exists x, s'. split; [done|]. by destruct x.
Qed.
End fork.

(** ** The copy-on-write fault *)

Definition cow_flags (e : Z) : Z := Z.lor (Z.land (PTE_FLAGS e) (not64 PTE_COW)) PTE_W.
Definition cow_entry (c e : Z) : Z := Z.lor (PA2PTE (VA2PA c)) (cow_flags e).

Lemma cow_flags_range e : 0 ≤ cow_flags e < 1024.
Proof.
  unfold cow_flags. apply (lor_range _ PTE_W 10); [lia| |by unfold PTE_W].
  apply (land_range _ _ 10); [lia|apply PTE_FLAGS_range|by apply not64_pos].
Qed.
Lemma cow_flags_bits e i : 0 ≤ i < 10 →
  Z.testbit (cow_flags e) i = (Z.testbit e i && negb (bool_decide (i = 8))) || bool_decide (i = 2).
Proof.
  intros Hi. unfold cow_flags. rewrite Z.lor_spec, Z.land_spec, PTE_FLAGS_bits, not64_spec by (done || lia || by unfold PTE_COW).
  change PTE_COW with (2 ^ 8). change PTE_W with (2 ^ 2). rewrite !testbit_pow2 by lia.
  by rewrite (bool_decide_eq_true_2 (i < 64)) by lia.
Qed.
Lemma cow_entry_W c e : frame_ok c → has (cow_entry c e) PTE_W = true.
Proof.
  intros Hc. rewrite has_W. unfold cow_entry. rewrite pte_bits_mk, cow_flags_bits by (done || lia || apply cow_flags_range).
  by rewrite orb_true_r.
Qed.

(** Changing the contents of one live frame. *)
Lemma set_frame_rel s a o m h c b b0 :
  vm_rel s a o m h → frames s !! c = Some b0 → length b = 4096%nat →
  vm_rel (set_frames (<[c := b]> (frames s)) s) a o m h.
Proof.
  intros [HR HO] Hc Hb. split; [by destruct HR; split|]. split; simpl; [apply HO|apply HO| |apply HO].
  intros f Hf. destruct (own_frame _ _ _ _ _ HO f Hf) as (Hown & b1 & Hb1). split; [done|].
  rewrite lookup_insert. case_decide; [by exists b|by exists b1].
Qed.

Lemma PGROUNDDOWN_page va v : va / 4096 = v → PGROUNDDOWN va = v * 4096.
Proof. intros <-. apply PGROUNDDOWN_eq. Qed.

Lemma handle_cow_fault_run s a o m h r va v e :
  vm_rel s a o m h → is_root o r → va / 4096 = v → 0 ≤ v < 2 ^ 26 → m !! (r, v) = Some e →
  (∃ s', handle_cow_fault r va s = Ret (-1, s') ∧ vm_rel s' a o m h ∧ vm_ext s s' o o m h ∧ pool_free a = []) ∨
  ∃ s' a' c b, handle_cow_fault r va s = Ret (0, s') ∧ frame_ok c ∧ mapped c m + held c h = 0 ∧
    vm_rel s' a' o (<[(r, v) := cow_entry c e]> m) h ∧ vm_ext s s' o o m h ∧
    frames s !! pte_frame e = Some b ∧ frames s' !! c = Some b.
Proof.
  intros HV Hr Hva Hv Hm. pose proof HV as [HR HO]. assert (Hmod := Z.mod_pos_bound v 512 ltac:(lia)).
  unfold handle_cow_fault. rewrite (PGROUNDDOWN_page va v Hva).
  destruct (walk_find s o m r v HR Hr Hv) as [(p0 & Hw & Hp0)|(Hw & Hno)];
    [|apply (pt_leaf _ _ _ HR) in Hm as (_ & p & Hp & _); by destruct (Hno p)].
  rewrite (bind_Ret _ _ _ _ _ Hw). destruct (leaf_entry s o m p0 r v e HR Hp0 Hm) as (He & Hb0 & Her).
  rewrite (bind_Ret _ _ _ _ _ (read_pte_run s o m p0 _ _ e HR Hp0 Hmod He)). fold (pte_frame e).
  pose proof (mapped_lookup m _ e Hm) as Hlive. pose proof (frames_held_nonneg (pte_frame e) h).
  destruct (kalloc_run s a o m h HV) as [(s1 & Hk & Hnil & HV1 & Hx1)|(c & fl & s1 & Hk & Hc & Hoc & Hcm & Hfz & HV1 & Hx1)];
    rewrite (bind_Ret _ _ _ _ _ Hk).
  { left. exists s1. by rewrite decide_True by done. }
  right. pose proof (frame_ok_pos c Hc). rewrite decide_False by lia.
  destruct (own_frame _ _ _ _ _ HO (pte_frame e) ltac:(lia)) as (_ & b & Hb & Hblen).
  assert (Hb1 : frames s1 !! pte_frame e = Some b) by (destruct Hx1 as [_ Hx1]; rewrite Hx1 by lia; done).
  unfold get_frame. unfold mbind at 1, K_bind at 1. rewrite Hb1.
  pose proof (set_frame_rel s1 _ o m (c :: h) c b zero_frame HV1 Hfz Hblen) as HV2.
  unfold modify at 1, mbind at 1, K_bind at 1. set (s2 := set_frames _ s1) in *.
  destruct HV2 as [HR2 HO2].
  destruct (own_free s2 _ o (delete (r, v) m) (pte_frame e) (c :: h)
    (own_unmap s2 s2 _ o m (r, v) e _ HO2 eq_refl eq_refl Hm)) as (p' & a' & Hex & HO3 & _).
  assert (HR3 : pt_rel (set_vm_pages p' s2) o m) by (by destruct HR2; split).
  assert (Hfl := cow_flags_range e). assert (Hce : pte_frame (cow_entry c e) = c) by (by apply pte_frame_mk).
  exists (upd (set_vm_pages p' s2) p0 (v mod 512) (cow_entry c e)), a', c, b.
  split_and!; try done.
  - unfold kfree, zoom. unfold mbind, K_bind, mret, K_ret. rewrite Hex. fold (cow_flags e) (cow_entry c e).
    rewrite (write_pte_run _ o m p0 _ _ _ HR3 Hp0 Hmod). done.
  - split.
    + pose proof (pt_write_leaf _ o m p0 r _ (v mod 512) (cow_entry c e) HR3 Hp0 Hmod (pte_mk_range c _ Hc Hfl)) as Hwr.
      unfold cow_entry at 2 in Hwr. rewrite pte_bits_mk, cow_flags_bits, Hb0 in Hwr by (done || lia). simpl in Hwr.
      by replace (v / 512 * 512 + v mod 512) with v in Hwr by (pose proof (Z.div_mod v 512); lia).
    + rewrite <-insert_delete_eq. apply (own_map (set_vm_pages p' s2)); [by rewrite Hce|done|done|apply lookup_delete_eq].
  - split; [done|]. intros f Hf. simpl. destruct Hx1 as [_ Hx1]. rewrite lookup_insert_ne by (intros <-; lia). by apply Hx1.
  - simpl. by rewrite lookup_insert_eq.
Qed.

(** A writable page is mapped once. *)
Definition cow_ok (m : aspace) : Prop := ∀ k e, m !! k = Some e → Z.testbit e 2 = true → mapped (pte_frame e) m = 1.

Lemma mapped_two m k1 k2 e1 e2 :
  m !! k1 = Some e1 → m !! k2 = Some e2 → k1 ≠ k2 → pte_frame e1 = pte_frame e2 → 2 ≤ mapped (pte_frame e1) m.
Proof.
  intros H1 H2 Hne Hf. pose proof (mapped_delete (pte_frame e1) m k1 e1 H1) as Hd. rewrite decide_True in Hd by done.
  assert (H2' : delete k1 m !! k2 = Some e2) by (by rewrite lookup_delete_ne).
  pose proof (mapped_lookup _ _ _ H2') as Hl. rewrite <-Hf in Hl. lia.
Qed.

(** The entry of [k] becomes, or is new, for a frame nothing maps. *)
Lemma cow_ok_insert m k e :
  cow_ok m → mapped (pte_frame e) m = 0 → cow_ok (<[k := e]> m).
Proof.
  intros HC H0 k' e'. rewrite lookup_insert. destruct (decide (k = k')) as [<-|Hne].
  - intros [= <-] _. destruct (m !! k) as [e0|] eqn:Hk.
    + rewrite (mapped_replace _ m k e0 e Hk), (decide_True (P := pte_frame e = pte_frame e)) by done.
      rewrite decide_False; [lia|]. intros Heq. pose proof (mapped_lookup m k e0 Hk). rewrite Heq in *. lia.
    + rewrite mapped_insert, decide_True by done. lia.
  - intros Hk' Hw. pose proof (HC k' e' Hk' Hw) as H1.
    assert (Hne' : pte_frame e ≠ pte_frame e') by (intros Heq; rewrite Heq in H0; lia).
    destruct (m !! k) as [e0|] eqn:Hk; [rewrite (mapped_replace _ m k e0 e Hk)|rewrite mapped_insert by done];
      rewrite (decide_False (P := pte_frame e = pte_frame e')) by done; [|lia].
    rewrite decide_False; [lia|]. intros Heq. pose proof (mapped_two m k k' e0 e' Hk Hk' Hne Heq) as H2. rewrite Heq in H2. lia.
Qed.

Lemma cow_ok_shared old new m0 m :
  cow_ok m0 → old ≠ new → (∀ v, m0 !! (new, v) = None) → (∀ k e, m0 !! k = Some e → 0 ≤ e < 2 ^ 64 ∧ frame_ok (pte_frame e)) →
  (∀ r v, m !! (r, v) = if decide (r = old) then cow <$> m0 !! (old, v)
                        else if decide (r = new) then cow_child <$> m0 !! (old, v) else m0 !! (r, v)) →
  cow_ok m.
Proof.
  intros HC Hne Hnew Hw HS [r v] e He Hb. rewrite HS in He.
  destruct (decide (r = old)) as [->|Hro].
  { apply fmap_Some in He as (e0 & He0 & ->). destruct (Hw _ _ He0) as [Hr _].
    rewrite cow_bits in Hb by (done || lia). by rewrite andb_false_r in Hb. }
  destruct (decide (r = new)) as [->|Hrn].
  { apply fmap_Some in He as (e0 & He0 & ->). destruct (Hw _ _ He0) as [Hr Hf].
    unfold cow_child in Hb. rewrite mk_pte_bits, PTE_FLAGS_bits, cow_bits in Hb by (done || lia || apply PTE_FLAGS_range).
    by rewrite andb_false_r in Hb. }
  pose proof (HC _ _ He Hb) as H1. set (f := pte_frame e) in *.
  assert (Hold : ∀ v' e', m0 !! (old, v') = Some e' → pte_frame e' ≠ f).
  { intros v' e' He' Heq. pose proof (mapped_two m0 (r, v) (old, v') e e' He He' ltac:(congruence) (eq_sym Heq)). unfold f in *. lia. }
  rewrite <-H1. unfold mapped. do 2 f_equal. apply map_eq. intros [r' v'].
  destruct (decide (r' = old)) as [->|Hro']; [|destruct (decide (r' = new)) as [->|Hrn']].
  - transitivity (@None Z); [|symmetry]; apply map_lookup_filter_None; right; intros x Hx; simpl.
    + rewrite HS, decide_True in Hx by done. apply fmap_Some in Hx as (e0 & He0 & ->).
      destruct (Hw _ _ He0) as [Hr _]. rewrite cow_frame by done. by eapply Hold.
    + by eapply Hold.
  - transitivity (@None Z); [|symmetry]; apply map_lookup_filter_None; [right; intros x Hx; simpl|by left].
    rewrite HS, decide_False, decide_True in Hx by done. apply fmap_Some in Hx as (e0 & He0 & ->).
    destruct (Hw _ _ He0) as [_ Hf]. unfold cow_child. rewrite mk_pte_frame by (done || apply PTE_FLAGS_range). by eapply Hold.
  - apply option_eq. intros x. rewrite !map_lookup_filter_Some, HS, decide_False, decide_False by done. done.
Qed.

(** ** Lazy allocation *)

Lemma pte_from_perm_range perm : 0 ≤ pte_from_perm perm < 1024.
Proof. unfold pte_from_perm. repeat case_match; by vm_compute. Qed.

(** How a fault handler ends: it fails and maps nothing, because memory is
    out or for the reason [why], or maps one fresh frame at the faulting page. *)
Definition lazy_post (s s' : st) (a' : pool) (o o' : owner) (m : aspace) (h : list Z) (r v x : Z) (m' : aspace) (why : Prop) : Prop :=
  vm_rel s' a' o' m' h ∧ vm_ext s s' o o' m h ∧
  ((x < 0 ∧ m' = m ∧ ((length (pool_free a') ≤ 1)%nat ∨ why)) ∨
   (x = 0 ∧ ∃ c fl, frame_ok c ∧ mapped c m = 0 ∧ 0 ≤ fl < 1024 ∧ m' = <[(r, v) := mk_pte c fl]> m)).

Lemma map_held_run s a o m h r v c flags :
  vm_rel s a o m (c :: h) → is_root o r → 0 ≤ v < 2 ^ 26 → m !! (r, v) = None → mapped c m + held c h = 0 →
  0 ≤ flags < 1024 →
  ∃ x s' a' o' m', (x ← mappages r (v * 4096) (VA2PA c) PGSIZE flags;
                    if decide (x < 0) then kfree c ;; mret (-1) else mret 0 : K st Z) s = Ret (x, s') ∧
    lazy_post s s' a' o o' m h r v x m' False.
Proof.
  intros HV Hr Hv Hm Hc Hfl. destruct (map_one s a o m h r v c flags HV Hr Hv Hm Hfl) as (s1 & a1 & o1 & Hx & Hres).
  assert (Hok : frame_ok c).
  { apply (vm_rel_frames _ _ _ _ _ c HV). rewrite frames_held_cons, decide_True by done.
    pose proof (mapped_nonneg c m). pose proof (frames_held_nonneg c h). lia. }
  assert (Hxm : vm_ext s s1 o o1 m h).
  { apply (ext_weaken s s1 o o1 m m h (c :: h) Hx). intros f. rewrite frames_held_cons. case_decide; lia. }
  pose proof (mapped_nonneg c m). pose proof (frames_held_nonneg c h).
  destruct Hres as [[Hrun HV1]|(Hrun & HV1 & Hnil)]; rewrite (bind_Ret _ _ _ _ _ Hrun).
  - rewrite decide_False by lia. exists 0, s1, a1, o1. eexists. split; [done|]. split; [exact HV1|]. split; [done|].
    right. split; [done|]. exists c, flags. split_and!; [done|lia|lia|lia|done].
  - rewrite decide_True by lia. destruct (kfree_run _ _ _ _ _ _ HV1) as (s2 & a2 & Hf & HV2 & _ & Hf2 & Hlen).
    rewrite (bind_Ret _ _ _ _ _ Hf). exists (-1), s2, a2, o1, m. split; [done|]. split; [done|].
    rewrite Hnil in Hlen. split; [|left; split_and!; [lia|done|by left]]. eapply vm_ext_trans; [exact Hxm|by apply ext_same].
Qed.

(** Prefix a fault handler's run by the allocation that feeds it. *)
Lemma lazy_post_ext s s1 s' a' o o' m h r v x m' (why1 why : Prop) :
  vm_ext s s1 o o m h → (why1 → why) → lazy_post s1 s' a' o o' m h r v x m' why1 → lazy_post s s' a' o o' m h r v x m' why.
Proof.
  intros Hx Hw (HV & Hx' & Hres). split_and!; [done|by eapply vm_ext_trans|]. destruct Hres as [(? & ? & ?)|?]; [left; tauto|by right].
Qed.

Lemma lazy_fail s s' a o m h r v (why : Prop) : vm_rel s' a o m h → vm_ext s s' o o m h → pool_free a = [] ∨ why →
  lazy_post s s' a o o m h r v (-1) m why.
Proof. intros HV Hx Hw. split_and!; [done..|]. left. split_and!; [lia|done|]. destruct Hw as [-> |?]; [left; simpl; lia|by right]. Qed.

(** The pages the fault handlers may allocate at [y]: those of the heap, up to
    the lowest of the stack; else the pages of an area, if its file can be
    read there. *)
Definition lazy_layout (p : uproc) (y : Z) : Prop :=
  heap_bottom p ≤ y < heap_top p ∨ stack_bottom p ≤ y < stack_top p ∨ 0x10000 ≤ y < u64 (heap_bottom p - PGSIZE).
Definition area_readable (p : uproc) (y : Z) : Prop :=
  ∃ i w, find_overlapping_vma y PGSIZE (vm_area p) = Some i ∧ vm_area p !! i = Some w ∧
    ∀ f, vma_file w = Some f → 0 ≤ (read_at f (u64 (file_offset w + (y - va_start w)))).1.
Definition may_fault (p : uproc) (y : Z) : Prop :=
  lazy_layout p y ∧ heap_bottom p ≤ y ≤ stack_bottom p ∨ ¬ lazy_layout p y ∧ area_readable p y.

Lemma handle_page_fault_run s a o m h p r v :
  vm_rel s a o m h → is_root o r → 0 ≤ v < 2 ^ 26 → m !! (r, v) = None →
  ∃ x s' a' o' m', handle_page_fault p r (v * 4096) s = Ret (x, s') ∧
    lazy_post s s' a' o o' m h r v x m' (¬ heap_bottom p ≤ v * 4096 ≤ stack_bottom p).
Proof.
  intros HV Hr Hv Hm. unfold handle_page_fault. rewrite (PGROUNDDOWN_page _ v) by (by rewrite Z.div_mul).
  assert (Hfail := λ w W, lazy_fail s s a o m h r v w HV (vm_ext_refl _ _ _ _) (or_intror W)).
  case_decide; [exists (-1), s, a, o, m; split; [done|]; apply Hfail; lia|].
  case_decide; [exists (-1), s, a, o, m; split; [done|]; apply Hfail; lia|].
  destruct (kalloc_run s a o m h HV) as [(s1 & Hk & Hnil & HV1 & Hx1)|(c & fl & s1 & Hk & Hc & Hoc & Hcm & Hfz & HV1 & Hx1)];
    rewrite (bind_Ret _ _ _ _ _ Hk).
  - rewrite decide_True by done. exists (-1), s1, a, o, m. split; [done|]. apply lazy_fail; [done|done|by left].
  - pose proof (frame_ok_pos c Hc). rewrite decide_False by lia.
    destruct (map_held_run s1 _ o m h r v c (Z.lor (Z.lor (Z.lor PTE_V PTE_R) PTE_W) PTE_U) HV1 Hr Hv Hm Hcm)
      as (x & s' & a' & o' & m' & Hrun & Hpost); [done|].
    exists x, s', a', o', m'. split; [exact Hrun|]. by eapply lazy_post_ext; [..|exact Hpost].
Qed.

Lemma handle_vma_fault_run s a o m h p r v :
  vm_rel s a o m h → is_root o r → pagetable p = r → 0 ≤ v < 2 ^ 26 → m !! (r, v) = None →
  ∃ x s' a' o' m', handle_vma_fault p (v * 4096) s = Ret (x, s') ∧ lazy_post s s' a' o o' m h r v x m' (¬ area_readable p (v * 4096)).
Proof.
  intros HV Hr Hpt Hv Hm. unfold handle_vma_fault. rewrite (PGROUNDDOWN_page _ v) by (by rewrite Z.div_mul).
  assert (Hfail := λ w W, lazy_fail s s a o m h r v w HV (vm_ext_refl _ _ _ _) (or_intror W)).
  destruct (find_overlapping_vma (v * 4096) PGSIZE (vm_area p)) as [i|] eqn:Hfind.
  2:{ exists (-1), s, a, o, m. split; [done|]. apply Hfail. intros (i & w & ? & _). congruence. }
  assert (∃ w, vm_area p !! i = Some w) as [w Hw].
  { unfold find_overlapping_vma in Hfind. case_decide; [|done]. apply fmap_Some in Hfind as ([j w] & Hj & ->).
    apply list_find_Some in Hj as (Hj & _). by exists w. }
  rewrite Hw. destruct (vma_file w) as [f|] eqn:Hvf; unfold handle_file_vma_fault, handle_anonymous_vma_fault, kvmmap; rewrite Hpt;
    (destruct (kalloc_run s a o m h HV) as [(s1 & Hk & Hnil & HV1 & Hx1)|(c & fl & s1 & Hk & Hc & Hoc & Hcm & Hfz & HV1 & Hx1)];
      rewrite (bind_Ret _ _ _ _ _ Hk);
      [rewrite decide_True by done; exists (-1), s1, a, o, m; split; [done|]; apply lazy_fail; [done|done|by left]|];
      pose proof (frame_ok_pos c Hc); rewrite decide_False by lia).
  - destruct (read_at f (u64 (file_offset w + (v * 4096 - va_start w)))) as [n data] eqn:Hread. case_decide as Hn.
    + destruct (kfree_run _ _ _ _ _ _ HV1) as (s2 & a2 & Hf & HV2 & _ & Hf2 & _). rewrite (bind_Ret _ _ _ _ _ Hf).
      exists (-1), s2, a2, o, m. split; [done|]. apply lazy_fail; [done|eapply vm_ext_trans; [exact Hx1|by apply ext_same]|].
      right. intros (i' & w' & Hf' & Hw' & Hok). assert (i' = i) as -> by congruence. assert (w' = w) as -> by congruence.
      specialize (Hok f Hvf). rewrite Hread in Hok. simpl in Hok. lia.
    + set (b := take 4096 (data ++ zero_frame)).
      assert (HV2 := set_frame_rel s1 _ o m (c :: h) c b zero_frame HV1 Hfz).
      assert (Hblen : length b = 4096%nat).
      { unfold b. rewrite length_take, length_app. unfold zero_frame. rewrite length_replicate. lia. }
      specialize (HV2 Hblen). unfold modify at 1, mbind at 1, K_bind at 1. set (s2 := set_frames _ s1) in *.
      destruct (map_held_run s2 _ o m h r v c (pte_from_perm (vm_page_prot w)) HV2 Hr Hv Hm Hcm (pte_from_perm_range _))
        as (x & s' & a' & o' & m' & Hrun & Hpost).
      exists x, s', a', o', m'. split; [exact Hrun|]. eapply lazy_post_ext; [| |exact Hpost]; [|done].
      destruct Hx1 as [_ Hx1]. split; [done|]. intros g Hg. simpl. rewrite lookup_insert_ne by (intros <-; lia). by apply Hx1.
  - destruct (map_held_run s1 _ o m h r v c (pte_from_perm (vm_page_prot w)) HV1 Hr Hv Hm Hcm (pte_from_perm_range _))
      as (x & s' & a' & o' & m' & Hrun & Hpost).
    exists x, s', a', o', m'. split; [exact Hrun|]. by eapply lazy_post_ext; [..|exact Hpost].
Qed.

Lemma fault_in_run s a o m h p r v :
  vm_rel s a o m h → is_root o r → pagetable p = r → 0 ≤ v < 2 ^ 26 → m !! (r, v) = None →
  ∃ x s' a' o' m', fault_in p r (v * 4096) s = Ret (x, s') ∧ lazy_post s s' a' o o' m h r v x m' (¬ may_fault p (v * 4096)).
Proof.
  intros HV Hr Hpt Hv Hm. unfold fault_in.
  assert (Hnorm : ∀ (mm : K st Z) (W : Prop), (∃ x s' a' o' m', mm s = Ret (x, s') ∧ lazy_post s s' a' o o' m h r v x m' W) →
    (W → ¬ may_fault p (v * 4096)) →
    ∃ x s' a' o' m', (y ← mm; mret (if decide (y < 0) then -1 else 0) : K st Z) s = Ret (x, s') ∧
      lazy_post s s' a' o o' m h r v x m' (¬ may_fault p (v * 4096))).
  { intros mm W (x & s' & a' & o' & m' & Hrun & HV' & Hx & Hres) HW.
    exists (if decide (x < 0) then -1 else 0), s', a', o', m'. split; [by rewrite (bind_Ret _ _ _ _ _ Hrun)|].
    split_and!; [done..|]. destruct Hres as [(Hlt & -> & Hwhy)|[-> Hres]]; [left; rewrite decide_True by done; split_and!; [lia|done|tauto]|right; done]. }
  assert (Hlay : bool_decide (heap_bottom p ≤ v * 4096 ∧ v * 4096 < heap_top p) || bool_decide (stack_bottom p ≤ v * 4096 ∧ v * 4096 < stack_top p) ||
    bool_decide (0x10000 ≤ v * 4096 ∧ v * 4096 < u64 (heap_bottom p - PGSIZE)) = true ↔ lazy_layout p (v * 4096)).
  { unfold lazy_layout. rewrite !orb_true_iff, !bool_decide_eq_true. tauto. }
  destruct (_ || _ || _).
  - apply (Hnorm _ (¬ heap_bottom p ≤ v * 4096 ≤ stack_bottom p)); [by apply (handle_page_fault_run s a)|].
    unfold may_fault. pose proof (proj1 Hlay eq_refl). tauto.
  - assert (Hno : ¬ lazy_layout p (v * 4096)) by (by intros ?%Hlay).
    case_match eqn:Hfind.
    + apply (Hnorm _ (¬ area_readable p (v * 4096))); [by apply (handle_vma_fault_run s a)|]. unfold may_fault. tauto.
    + exists (-1), s, a, o, m. split; [done|]. apply lazy_fail; [done|apply vm_ext_refl|]. right.
      intros [[? _]|[_ (i & w & ? & _)]]; [done|congruence].
Qed.

(** ** User memory *)

Ltac obind := unfold mbind, option_bind in *; cbv beta iota in *.

(** The byte at user address [x] of the address space [r]. *)
Definition user_byte (s : st) (m : aspace) (r x : Z) : option Z :=
  e ← m !! (r, x / 4096); b ← frames s !! pte_frame e; b !! Z.to_nat (x mod 4096).

(** Every byte visible before, outside [lo, hi) of [r], is the same after. *)
Definition views_kept (r lo hi : Z) (s : st) (m : aspace) (s' : st) (m' : aspace) : Prop :=
  ∀ r' x b, user_byte s m r' x = Some b → ¬ (r' = r ∧ lo ≤ x < hi) → user_byte s' m' r' x = Some b.

Lemma views_kept_trans r lo mid hi s1 m1 s2 m2 s3 m3 :
  views_kept r lo mid s1 m1 s2 m2 → views_kept r mid hi s2 m2 s3 m3 → lo ≤ mid ≤ hi →
  views_kept r lo hi s1 m1 s3 m3.
Proof.
  intros H1 H2 Hle r' x b Hb Hout. apply H2; [apply H1; [done|]|]; intros [-> Hx]; apply Hout; split; try done; lia.
Qed.

(** Growing the address space keeps all views. *)
Lemma views_grow s s' o o' m m' h r lo :
  m ⊆ m' → vm_ext s s' o o' m h → views_kept r lo lo s m s' m'.
Proof.
  intros Hm [_ Hf] r' x b Hb _. unfold user_byte in *.
  destruct (m !! (r', x / 4096)) as [e|] eqn:He; [|done]. simpl in Hb.
  rewrite (lookup_weaken _ _ _ _ He Hm). simpl. rewrite Hf; [done|].
  pose proof (mapped_lookup m _ e He). pose proof (frames_held_nonneg (pte_frame e) h). lia.
Qed.

(** So does giving a page its own copy. *)
Lemma views_cow s s' o m h r v c e b0 k lo :
  m !! (r, v) = Some e → frame_ok c → vm_ext s s' o o m h →
  frames s !! pte_frame e = Some b0 → frames s' !! c = Some b0 →
  views_kept k lo lo s m s' (<[(r, v) := cow_entry c e]> m).
Proof.
  intros He Hc [_ Hf] Hb0 Hc0 r' x b Hb _. unfold user_byte in *.
  destruct (m !! (r', x / 4096)) as [e'|] eqn:He'; [|done]. obind.
  destruct (decide ((r, v) = (r', x / 4096))) as [Heq|Hne].
  - rewrite <-Heq, lookup_insert_eq. obind. unfold cow_entry. rewrite pte_frame_mk by (done || apply cow_flags_range).
    rewrite Hc0. obind. assert (e' = e) as -> by congruence. by rewrite Hb0 in Hb.
  - rewrite lookup_insert_ne, He' by done. obind. rewrite Hf; [done|].
    pose proof (mapped_lookup m _ e' He'). pose proof (frames_held_nonneg (pte_frame e') h). lia.
Qed.

Lemma splice_length off l b : (Z.to_nat off + length l ≤ length b)%nat → length (splice off l b) = length b.
Proof. intros Hl. unfold splice. rewrite !length_app, length_take, length_drop. lia. Qed.
Lemma splice_in off l b j : (Z.to_nat off ≤ length b)%nat → (Z.to_nat off ≤ j < Z.to_nat off + length l)%nat →
  splice off l b !! j = l !! (j - Z.to_nat off)%nat.
Proof.
  intros Hl Hj. unfold splice. rewrite lookup_app_r; rewrite length_take_le by lia; [|lia].
  rewrite lookup_app_l by lia. done.
Qed.
Lemma splice_out off l b j : (Z.to_nat off + length l ≤ length b)%nat → (j < Z.to_nat off ∨ Z.to_nat off + length l ≤ j)%nat →
  splice off l b !! j = b !! j.
Proof.
  intros Hl Hj. unfold splice. destruct Hj as [Hj|Hj].
  - rewrite lookup_app_l by (rewrite length_take_le by lia; lia). by rewrite lookup_take_lt.
  - rewrite lookup_app_r; rewrite length_take_le by lia; [|lia].
    rewrite lookup_app_r by lia. rewrite lookup_drop. f_equal. lia.
Qed.

(** A store through the only mapping of a frame is seen there and nowhere else. *)
Lemma views_write s m r dst l e b0 :
  m !! (r, dst / 4096) = Some e → frames s !! pte_frame e = Some b0 → length b0 = 4096%nat →
  mapped (pte_frame e) m = 1 → 0 ≤ dst → dst mod 4096 + Z.of_nat (length l) ≤ 4096 →
  let s' := set_frames (<[pte_frame e := splice (dst mod 4096) l b0]> (frames s)) s in
  views_kept r dst (dst + Z.of_nat (length l)) s m s' m ∧
  ∀ i, 0 ≤ i < Z.of_nat (length l) → user_byte s' m r (dst + i) = l !! Z.to_nat i.
Proof.
  intros He Hb0 Hlen H1 Hd Hl s'. pose proof (Z.mod_pos_bound dst 4096 ltac:(lia)) as Hmod.
  pose proof (Z.div_mod dst 4096 ltac:(lia)) as Hdm. split.
  - intros r' x b Hb Hout. unfold user_byte in *. destruct (m !! (r', x / 4096)) as [e'|] eqn:He'; [|done]. obind. change (frames s') with (<[pte_frame e := splice (dst mod 4096) l b0]> (frames s)).
    rewrite lookup_insert. destruct (decide (pte_frame e = pte_frame e')) as [Heq|Hne]; [|done]. obind.
    assert ((r, dst / 4096) = (r', x / 4096)) as Hk.
    { destruct (decide ((r, dst / 4096) = (r', x / 4096))) as [|Hne]; [done|].
      pose proof (mapped_two m _ _ e e' He He' Hne Heq). lia. }
    injection Hk as -> Hk. rewrite <-Heq, Hb0 in Hb. obind. pose proof (Z.mod_pos_bound x 4096 ltac:(lia)).
    pose proof (Z.div_mod x 4096 ltac:(lia)). rewrite splice_out; [done|lia|].
    assert (¬ (dst ≤ x < dst + Z.of_nat (length l))) by (intros ?; apply Hout; done). lia.
  - intros i Hi. unfold user_byte. assert (Hsame : (dst + i) / 4096 = dst / 4096 ∧ (dst + i) mod 4096 = dst mod 4096 + i).
    { split; [symmetry; apply Z.div_unique with (dst mod 4096 + i); lia|symmetry; apply Z.mod_unique with (dst / 4096); lia]. }
    destruct Hsame as [-> ->]. rewrite He. obind. change (frames s') with (<[pte_frame e := splice (dst mod 4096) l b0]> (frames s)). rewrite lookup_insert_eq. obind.
    rewrite splice_in by lia. f_equal. lia.
Qed.

(** The entry that copyin and copyout work on. *)
Lemma user_pte_run s a o m h p r v :
  vm_rel s a o m h → cow_ok m → is_root o r → pagetable p = r → 0 ≤ v < 2 ^ 26 →
  ∃ x s' a' o' m', user_pte p r (v * 4096) s = Ret (x, s') ∧ vm_rel s' a' o' m' h ∧ cow_ok m' ∧
    vm_ext s s' o o' m h ∧ m ⊆ m' ∧
    (∀ pte, x = Some pte → ∃ p0 e, pte = p0 + 8 * (v mod 512) ∧ o' !! p0 = Some (r, 0, v / 512) ∧ m' !! (r, v) = Some e) ∧
    (x = None → m' !! (r, v) = None ∧ ((length (pool_free a') ≤ 1)%nat ∨ ¬ may_fault p (v * 4096))).
Proof.
  intros HV HC Hr Hpt Hv. pose proof HV as [HR HO]. unfold user_pte. assert (Hmod := Z.mod_pos_bound v 512 ltac:(lia)).
  (* the lazy path, common to a missing table and an invalid entry *)
  assert (Hlazy : m !! (r, v) = None →
    ∃ x s' a' o' m', (y ← fault_in p r (v * 4096); if decide (y < 0) then mret None else
                      pte ← walk r (v * 4096) false; mret (Some pte) : K st (option Z)) s = Ret (x, s') ∧
      vm_rel s' a' o' m' h ∧ cow_ok m' ∧ vm_ext s s' o o' m h ∧ m ⊆ m' ∧
      (∀ pte, x = Some pte → ∃ p0 e, pte = p0 + 8 * (v mod 512) ∧ o' !! p0 = Some (r, 0, v / 512) ∧ m' !! (r, v) = Some e) ∧
      (x = None → m' !! (r, v) = None ∧ ((length (pool_free a') ≤ 1)%nat ∨ ¬ may_fault p (v * 4096)))).
  { intros Hm. destruct (fault_in_run s a o m h p r v HV Hr Hpt Hv Hm) as (y & s' & a' & o' & m' & Hrun & HV' & Hx & Hres).
    rewrite (bind_Ret _ _ _ _ _ Hrun). destruct Hres as [(Hlt & -> & Hwhy)|(-> & c & fl & Hc & Hcm & Hfl & ->)].
    - rewrite decide_True by done. by exists None, s', a', o', m.
    - rewrite decide_False by lia. assert (Hr' := vm_ext_root _ _ _ _ _ _ _ Hx Hr). pose proof HV' as [HR' _].
      destruct (walk_find s' o' _ r v HR' Hr' Hv) as [(p0 & Hw & Hp0)|(_ & Hno)].
      + rewrite (bind_Ret _ _ _ _ _ Hw). eexists _, s', a', o', _. split_and!; [done|exact HV'| |done|by apply insert_subseteq| |done].
        * apply cow_ok_insert; [done|]. by rewrite mk_pte_frame.
        * intros pte [= <-]. exists p0, (mk_pte c fl). by rewrite lookup_insert_eq.
      + exfalso. assert (Hl : <[(r, v) := mk_pte c fl]> m !! (r, v) = Some (mk_pte c fl)) by apply lookup_insert_eq.
        apply (pt_leaf _ _ _ HR') in Hl as (_ & p1 & Hp1 & _). by apply (Hno p1). }
  destruct (walk_find s o m r v HR Hr Hv) as [(p0 & Hw & Hp0)|(Hw & Hno)]; rewrite (bind_Ret _ _ _ _ _ Hw).
  - destruct (pt_table _ _ _ HR p0 _ Hp0) as (Hok & _). pose proof (frame_ok_pos p0 Hok). rewrite decide_False by lia.
    rewrite (bool_decide_eq_false_2 (_ = 0)) by lia. destruct (m !! (r, v)) as [e|] eqn:Hm.
    + destruct (leaf_entry s o m p0 r v e HR Hp0 Hm) as (He & Hb & _).
      rewrite (bind_Ret _ _ _ _ _ (read_pte_run s o m p0 _ _ e HR Hp0 Hmod He)). rewrite has_V, Hb. simpl.
      exists (Some (p0 + 8 * (v mod 512))), s, a, o, m. split_and!; [done..|apply vm_ext_refl|done| |done].
      intros pte [= <-]. by exists p0, e.
    + destruct (leaf_entry_None s o m p0 r v HR Hp0 ltac:(lia) Hm) as (e & He & Hb).
      rewrite (bind_Ret _ _ _ _ _ (read_pte_run s o m p0 _ _ e HR Hp0 Hmod He)). rewrite has_V, Hb. by apply Hlazy.
  - rewrite decide_True by done. apply Hlazy. destruct (m !! (r, v)) as [e|] eqn:Hm; [|done].
    apply (pt_leaf _ _ _ HR) in Hm as (_ & p1 & Hp1 & _). by destruct (Hno p1).
Qed.

Lemma present_frame s a o m h k e :
  vm_rel s a o m h → m !! k = Some e → frame_ok (pte_frame e) ∧ ∃ b, frames s !! pte_frame e = Some b ∧ length b = 4096%nat.
Proof.
  intros HV He. pose proof (mapped_lookup m k e He). pose proof (frames_held_nonneg (pte_frame e) h). split.
  - eapply vm_rel_frames; [exact HV|]. lia.
  - destruct HV as [_ HO]. destruct (own_frame _ _ _ _ _ HO (pte_frame e)) as (_ & Hb); [lia|done].
Qed.

Lemma copyout_pte_run s a o m h r v p0 e :
  vm_rel s a o m h → cow_ok m → is_root o r → 0 ≤ v < 2 ^ 26 → o !! p0 = Some (r, 0, v / 512) → m !! (r, v) = Some e →
  ∃ x s' a' m', copyout_pte r (v * 4096) (p0 + 8 * (v mod 512)) s = Ret (x, s') ∧ vm_rel s' a' o m' h ∧ cow_ok m' ∧
    (∀ k lo, views_kept k lo lo s m s' m') ∧ (∀ e', x = Some e' → m' !! (r, v) = Some e' ∧ (has e PTE_COW = true → has e' PTE_W = true) ∧ (has e PTE_COW = false → e' = e)) ∧
    (x = None → m' = m ∧ has e PTE_COW = true ∧ pool_free a' = []).
Proof.
  intros HV HC Hr Hv Hp0 Hm. pose proof HV as [HR HO]. assert (Hmod := Z.mod_pos_bound v 512 ltac:(lia)).
  destruct (pt_table _ _ _ HR p0 _ Hp0) as (Hok & _). pose proof (frame_ok_pos p0 Hok).
  destruct (leaf_entry s o m p0 r v e HR Hp0 Hm) as (He & Hb & Her).
  assert (Hread := read_pte_run s o m p0 _ _ e HR Hp0 Hmod He).
  unfold copyout_pte. rewrite decide_False by lia. rewrite (bind_Ret _ _ _ _ _ Hread).
  rewrite (bool_decide_eq_true_2 (_ ≠ 0)) by lia. rewrite andb_true_l.
  destruct (has e PTE_COW) eqn:Hcow.
  - destruct (handle_cow_fault_run s a o m h r (v * 4096) v e HV Hr (Z.div_mul v 4096 ltac:(lia)) Hv Hm)
      as [(s1 & Hrun & HV1 & Hx1 & Hnil)|(s1 & a1 & c & b & Hrun & Hc & Hcm & HV1 & Hx1 & Hfb & Hcb)];
      rewrite (bind_Ret _ _ _ _ _ Hrun).
    + rewrite decide_True by lia. exists None, s1, a, m. split_and!; try done. intros k lo. by eapply views_grow.
    + rewrite decide_False by lia. pose proof HV1 as [HR1 _]. set (m1 := <[(r, v) := cow_entry c e]> m) in *.
      assert (Hm1 : m1 !! (r, v) = Some (cow_entry c e)) by apply lookup_insert_eq.
      destruct (walk_find s1 o m1 r v HR1 Hr Hv) as [(p1 & Hw & Hp1)|(_ & Hno)];
        [|apply (pt_leaf _ _ _ HR1) in Hm1 as (_ & p1 & Hp1 & _); by destruct (Hno p1)].
      rewrite (bind_Ret _ _ _ _ _ Hw). destruct (leaf_entry s1 o m1 p1 r v _ HR1 Hp1 Hm1) as (He1 & _).
      rewrite (bind_Ret _ _ _ _ _ (read_pte_run s1 o m1 p1 _ _ _ HR1 Hp1 Hmod He1)).
      eexists _, s1, a1, m1. split_and!; [done..| | | |done].
      * apply cow_ok_insert; [done|]. unfold cow_entry. rewrite pte_frame_mk by (done || apply cow_flags_range).
        pose proof (mapped_nonneg c m). pose proof (frames_held_nonneg c h). lia.
      * intros k lo. by apply (views_cow s s1 o m h r v c e b).
      * intros e' [= <-]. split_and!; [done| |done]. intros _. apply cow_entry_W; done.
  - unfold mbind at 1, K_bind at 1, mret at 1, K_ret at 1. rewrite decide_False by lia.
    unfold mbind at 1, K_bind at 1, mret at 1, K_ret at 1. rewrite (bind_Ret _ _ _ _ _ Hread).
    eexists _, s, a, m. split_and!; [done..| |by intros e' [= <-]|done]. by intros k lo r' x b Hxb _.
Qed.


(** Round geometry: [size] bytes up to the end of the page. *)
Lemma round_size dst len :
  0 ≤ dst → 0 < len →
  let off := dst - PGROUNDDOWN dst in
  let size := if decide (PGSIZE - off > len) then len else PGSIZE - off in
  off = dst mod 4096 ∧ 0 < size ≤ len ∧ dst mod 4096 + size ≤ 4096 ∧
  (size = len ∨ dst mod 4096 + size = 4096).
Proof.
  intros Hd Hl. rewrite PGROUNDDOWN_eq. pose proof (Z.div_mod dst 4096). pose proof (Z.mod_pos_bound dst 4096).
  cbv zeta. unfold PGSIZE. case_decide; lia.
Qed.

Lemma fuel_step n dst len size :
  0 < size ≤ len → 0 ≤ dst → (size = len ∨ dst mod 4096 + size = 4096) → dst mod 4096 + len ≤ Z.of_nat (S n) * 4096 →
  (dst + size) mod 4096 + (len - size) ≤ Z.of_nat n * 4096 ∨ len - size = 0.
Proof.
  intros Hs Hd [-> |He] Hf; [right; lia|left].
  assert ((dst + size) mod 4096 = 0) as ->; [|lia].
  rewrite <-Zplus_mod_idemp_l, He. done.
Qed.

(** Why copyout stops at the page [v]: the page is not there and cannot be
    allocated, is copy-on-write and memory is out, or is not the user's to
    write. *)
Definition refused (p : uproc) (a' : pool) (m' : aspace) (r v : Z) : Prop :=
  match m' !! (r, v) with
  | None => (length (pool_free a') ≤ 1)%nat ∨ ¬ may_fault p (v * 4096)
  | Some e => has e PTE_COW = true ∧ pool_free a' = [] ∨ ¬ (has e PTE_U = true ∧ has e PTE_W = true) ∧ (has e PTE_COW = true → has e PTE_W = true)
  end.

(** The check of the permissions fails. *)
Lemma perm_refused s a o m h p r v e0 e :
  vm_rel s a o m h → m !! (r, v) = Some e → (has e0 PTE_COW = true → has e PTE_W = true) → (has e0 PTE_COW = false → e = e0) →
  negb (has e PTE_V) || bool_decide (Z.land e (Z.lor PTE_W PTE_U) ≠ Z.lor PTE_W PTE_U) = true → refused p a m r v.
Proof.
  intros HV Hm Hcw Hsame Hperm. unfold refused. rewrite Hm. right. split.
  - intros [HU HW]. apply orb_true_iff in Hperm as [Hp|Hp].
    + pose proof HV as [HR _]. apply (pt_leaf _ _ _ HR) in Hm as (_ & p1 & _ & _ & Hb). rewrite has_V, Hb in Hp. done.
    + apply bool_decide_eq_true in Hp. apply Hp. by apply land_WU.
  - intros Hc. destruct (has e0 PTE_COW) eqn:E; [by apply Hcw|]. rewrite (Hsame eq_refl) in Hc. congruence.
Qed.

Lemma copyout_loop_run n s a o m h p r dst src :
  vm_rel s a o m h → cow_ok m → is_root o r → pagetable p = r → 0 ≤ dst → dst + Z.of_nat (length src) ≤ 2 ^ 38 →
  dst mod 4096 + Z.of_nat (length src) ≤ Z.of_nat n * 4096 ∨ Z.of_nat (length src) = 0 →
  ∃ x s' a' o' m' k, copyout_loop n p r dst src s = Ret (x, s') ∧ vm_rel s' a' o' m' h ∧ cow_ok m' ∧
    0 ≤ k ≤ Z.of_nat (length src) ∧ (x = 0 ∧ k = Z.of_nat (length src) ∨ x = -1 ∧ k < Z.of_nat (length src) ∧ refused p a' m' r ((dst + k) / 4096)) ∧
    (∀ i, 0 ≤ i < k → user_byte s' m' r (dst + i) = src !! Z.to_nat i) ∧ views_kept r dst (dst + k) s m s' m'.
Proof.
  revert s a o m dst src. induction n as [|n IH]; intros s a o m dst src HV HC Hr Hpt Hd Hlen Hfuel;
    pose proof (Z.mod_pos_bound dst 4096 ltac:(lia)) as Hmod; cbn [copyout_loop].
  { rewrite decide_False by lia. exists 0, s, a, o, m, 0. split_and!; try done; [lia|left; lia|lia|by intros ? ? ? ? _]. }
  case_decide as Hpos; [|exists 0, s, a, o, m, 0; split_and!; try done; [lia|left; lia|lia|by intros ? ? ? ? _]].
  destruct (round_size dst (Z.of_nat (length src)) Hd ltac:(lia)) as (Hoff & Hsz & Hfit & Hend).
  set (size := if decide (PGSIZE - (dst - PGROUNDDOWN dst) > Z.of_nat (length src)) then _ else _) in *.
  rewrite (PGROUNDDOWN_page dst (dst / 4096) eq_refl) in *. set (v := dst / 4096) in *.
  assert (Hv : 0 ≤ v < 2 ^ 26) by (unfold v; split; [apply Z.div_pos; lia|apply Z.div_lt_upper_bound; lia]).
  destruct (user_pte_run s a o m h p r v HV HC Hr Hpt Hv) as (x1 & s1 & a1 & o1 & m1 & Hrun1 & HV1 & HC1 & Hx1 & Hm1 & Hp1 & Hnone1).
  rewrite (bind_Ret _ _ _ _ _ Hrun1). pose proof (views_grow s s1 o o1 m m1 h r dst Hm1 Hx1) as Hview1.
  assert (Hstop : ∀ s2 a2 o2 m2, vm_rel s2 a2 o2 m2 h → cow_ok m2 → views_kept r dst dst s m s2 m2 → refused p a2 m2 r v →
    ∃ x s' a' o' m' k, Ret (-1, s2) = Ret (x, s') ∧ vm_rel s' a' o' m' h ∧ cow_ok m' ∧
      0 ≤ k ≤ Z.of_nat (length src) ∧ (x = 0 ∧ k = Z.of_nat (length src) ∨ x = -1 ∧ k < Z.of_nat (length src) ∧ refused p a' m' r ((dst + k) / 4096)) ∧
      (∀ i, 0 ≤ i < k → user_byte s' m' r (dst + i) = src !! Z.to_nat i) ∧ views_kept r dst (dst + k) s m s' m').
  { intros s2 a2 o2 m2 HV2 HC2 Hk2 Hwhy. exists (-1), s2, a2, o2, m2, 0. rewrite Z.add_0_r. split_and!; try done; [lia|right; split_and!; [done|lia|done]|lia]. }
  destruct x1 as [pte|]; [|destruct (Hnone1 eq_refl) as [Hn Hw]; apply (Hstop s1 a1 o1 m1); try done; unfold refused; by rewrite Hn].
  destruct (Hp1 pte eq_refl) as (p0 & e1 & -> & Hp0 & He1).
  assert (Hr1 := vm_ext_root _ _ _ _ _ _ _ Hx1 Hr).
  destruct (copyout_pte_run s1 a1 o1 m1 h r v p0 e1 HV1 HC1 Hr1 Hv Hp0 He1) as (x2 & s2 & a2 & m2 & Hrun2 & HV2 & HC2 & Hview2 & Hm2 & Hnone2).
  rewrite (bind_Ret _ _ _ _ _ Hrun2).
  assert (Hview12 : views_kept r dst dst s m s2 m2) by (eapply views_kept_trans; [exact Hview1|apply Hview2|lia]).
  destruct x2 as [e|]; [|destruct (Hnone2 eq_refl) as (-> & Hcw & Hnil); apply (Hstop s2 a2 o1 m1); try done; unfold refused; rewrite He1; by left].
  destruct (Hm2 e eq_refl) as (Hme & Hcw & Hsame). clear Hm2. rename Hme into Hm2.
  destruct (negb (has e PTE_V) || bool_decide (Z.land e (Z.lor PTE_W PTE_U) ≠ Z.lor PTE_W PTE_U)) eqn:Hperm;
    [apply (Hstop s2 a2 o1 m2); try done; by eapply (perm_refused s2 a2 o1 m2 h p r v e1 e)|].
  destruct (present_frame s2 a2 o1 m2 h _ e HV2 Hm2) as (Hfok & b0 & Hb0 & Hblen).
  rewrite <-VA2PA_frame. destruct (VA2PA_range _ Hfok) as (_ & _ & _ & Hle). rewrite decide_False by lia.
  rewrite VA2PA_frame. fold (pte_frame e). unfold get_frame. unfold mbind at 1, K_bind at 1. rewrite Hb0.
  unfold modify at 1, mbind at 1, K_bind at 1. rewrite Hoff.
  assert (HW : Z.testbit e 2 = true).
  { apply orb_false_iff in Hperm as [_ Hp]. apply bool_decide_eq_false in Hp. apply dec_stable in Hp.
    assert (Ht : Z.testbit (Z.land e (Z.lor PTE_W PTE_U)) 2 = true) by (rewrite Hp; done).
    rewrite Z.land_spec in Ht. by apply andb_true_iff in Ht as [? _]. }
  set (chunk := take (Z.to_nat size) src). assert (Hchunk : Z.of_nat (length chunk) = size).
  { unfold chunk. rewrite length_take. lia. }
  destruct (views_write s2 m2 r dst chunk e b0 Hm2 Hb0 Hblen (HC2 _ _ Hm2 HW) Hd ltac:(lia)) as [Hkeep Hsee].
  set (s3 := set_frames _ s2) in *.
  assert (HV3 : vm_rel s3 a2 o1 m2 h).
  { apply (set_frame_rel s2 a2 o1 m2 h (pte_frame e) _ b0 HV2 Hb0). rewrite splice_length; [done|lia]. }
  rewrite u64_small by lia. assert (Hdrop : Z.of_nat (length (drop (Z.to_nat size) src)) = Z.of_nat (length src) - size)
    by (rewrite length_drop; lia).
  destruct (IH s3 a2 o1 m2 (dst + size) (drop (Z.to_nat size) src) HV3 HC2 Hr1 Hpt) as
    (x & s' & a' & o' & m' & k & Hrun & HV' & HC' & Hk & Hres & Hbytes & Hkeep'); [lia|lia| |].
  { rewrite Hdrop. destruct Hfuel as [Hfuel|]; [|lia]. by apply fuel_step. }
  rewrite Hchunk in *. exists x, s', a', o', m', (size + k). rewrite Hrun. split_and!; try done; try lia.
  - destruct Hres as [[-> ->]|(-> & Hlt & Hwhy)]; [left; lia|right]. split_and!; [done|lia|]. by rewrite Z.add_assoc.
  - intros i Hi. destruct (decide (i < size)) as [Hlt|Hge].
    + assert (Hgot : user_byte s3 m2 r (dst + i) = Some (default 0 (src !! Z.to_nat i)) ∧ src !! Z.to_nat i = Some (default 0 (src !! Z.to_nat i))).
      { destruct (lookup_lt_is_Some_2 src (Z.to_nat i)) as [b Hb]; [lia|]. rewrite Hb. split; [|done]. rewrite Hsee by lia.
        unfold chunk. rewrite lookup_take_lt by lia. done. }
      destruct Hgot as [Hg1 Hg2]. rewrite Hg2. apply Hkeep'; [done|lia].
    + replace (dst + i) with (dst + size + (i - size)) by lia. rewrite Hbytes by lia. rewrite lookup_drop. f_equal. lia.
  - rewrite Z.add_assoc. eapply views_kept_trans; [|exact Hkeep'|lia].
    eapply views_kept_trans; [exact Hview12|exact Hkeep|lia].
Qed.

Lemma user_bytes_page s m r src e b :
  m !! (r, src / 4096) = Some e → frames s !! pte_frame e = Some b → 0 ≤ src →
  ∀ i, 0 ≤ i → src mod 4096 + i < 4096 →
  user_byte s m r (src + i) = drop (Z.to_nat (src mod 4096)) b !! Z.to_nat i.
Proof.
  intros He Hb Hs i Hi Hlt. pose proof (Z.mod_pos_bound src 4096 ltac:(lia)). pose proof (Z.div_mod src 4096 ltac:(lia)).
  unfold user_byte. replace ((src + i) / 4096) with (src / 4096) by (apply Z.div_unique with (src mod 4096 + i); lia).
  replace ((src + i) mod 4096) with (src mod 4096 + i) by (apply Z.mod_unique with (src / 4096); lia).
  rewrite He. obind. rewrite Hb. rewrite lookup_drop. f_equal. lia.
Qed.

Lemma copyin_loop_run n s a o m h p r src len :
  vm_rel s a o m h → cow_ok m → is_root o r → pagetable p = r → 0 ≤ src → 0 ≤ len → src + len ≤ 2 ^ 38 →
  src mod 4096 + len ≤ Z.of_nat n * 4096 ∨ len = 0 →
  ∃ x l s' a' o' m', copyin_loop n p r src len s = Ret ((x, l), s') ∧ vm_rel s' a' o' m' h ∧ cow_ok m' ∧
    Z.of_nat (length l) ≤ len ∧ (x = 0 ∧ Z.of_nat (length l) = len ∨ x = -1) ∧
    (∀ i b, l !! i = Some b → user_byte s' m' r (src + Z.of_nat i) = Some b) ∧ views_kept r src src s m s' m'.
Proof.
  revert s a o m src len. induction n as [|n IH]; intros s a o m src len HV HC Hr Hpt Hd H0 Hlen Hfuel;
    pose proof (Z.mod_pos_bound src 4096 ltac:(lia)) as Hmod; cbn [copyin_loop].
  { rewrite decide_False by lia. exists 0, [], s, a, o, m. split_and!; try done; [left; simpl; lia|by intros ? ? ? ? _]. }
  case_decide as Hpos; [|exists 0, [], s, a, o, m; split_and!; try done; [left; simpl; lia|by intros ? ? ? ? _]].
  destruct (round_size src len Hd ltac:(lia)) as (Hoff & Hsz & Hfit & Hend).
  set (size := if decide (PGSIZE - (src - PGROUNDDOWN src) > len) then _ else _) in *.
  rewrite (PGROUNDDOWN_page src (src / 4096) eq_refl) in *. set (v := src / 4096) in *.
  assert (Hv : 0 ≤ v < 2 ^ 26) by (unfold v; split; [apply Z.div_pos; lia|apply Z.div_lt_upper_bound; lia]).
  destruct (user_pte_run s a o m h p r v HV HC Hr Hpt Hv) as (x1 & s1 & a1 & o1 & m1 & Hrun1 & HV1 & HC1 & Hx1 & Hm1 & Hp1 & _).
  rewrite (bind_Ret _ _ _ _ _ Hrun1). pose proof (views_grow s s1 o o1 m m1 h r src Hm1 Hx1) as Hview1.
  assert (Hstop : ∃ x l s' a' o' m', Ret ((-1, []), s1) = Ret ((x, l), s') ∧ vm_rel s' a' o' m' h ∧ cow_ok m' ∧
      Z.of_nat (length l) ≤ len ∧ (x = 0 ∧ Z.of_nat (length l) = len ∨ x = -1) ∧
      (∀ i b, l !! i = Some b → user_byte s' m' r (src + Z.of_nat i) = Some b) ∧ views_kept r src src s m s' m').
  { exists (-1), [], s1, a1, o1, m1. split_and!; try done. by right. }
  destruct x1 as [pte|]; [|done]. destruct (Hp1 pte eq_refl) as (p0 & e & -> & Hp0 & He). pose proof HV1 as [HR1 _].
  destruct (pt_table _ _ _ HR1 p0 _ Hp0) as (Hok & _). pose proof (frame_ok_pos p0 Hok).
  assert (Hvm := Z.mod_pos_bound v 512 ltac:(lia)). rewrite decide_False by lia.
  destruct (leaf_entry s1 o1 m1 p0 r v e HR1 Hp0 He) as (Hen & _).
  rewrite (bind_Ret _ _ _ _ _ (read_pte_run s1 o1 m1 p0 _ _ e HR1 Hp0 Hvm Hen)).
  destruct (negb (has e PTE_V) || negb (has e PTE_U)); [done|].
  destruct (present_frame s1 a1 o1 m1 h _ e HV1 He) as (_ & b & Hb & Hblen). fold (pte_frame e).
  unfold get_frame. unfold mbind at 1, K_bind at 1. rewrite Hb. rewrite Hoff, u64_small by lia.
  assert (Hr1 := vm_ext_root _ _ _ _ _ _ _ Hx1 Hr).
  destruct (IH s1 a1 o1 m1 (src + size) (len - size) HV1 HC1 Hr1 Hpt) as
    (x & l & s' & a' & o' & m' & Hrun & HV' & HC' & Hl & Hres & Hbytes & Hkeep'); [lia..| |].
  { destruct Hfuel as [Hfuel|]; [|lia]. by apply fuel_step. }
  rewrite (bind_Ret _ _ _ _ _ Hrun). set (chunk := take (Z.to_nat size) (drop (Z.to_nat (src mod 4096)) b)).
  assert (Hchunk : Z.of_nat (length chunk) = size) by (unfold chunk; rewrite length_take, length_drop; lia).
  eexists _, _, s', a', o', m'. split; [done|]. split_and!; [done|done|..].
  - simpl. rewrite length_app. lia.
  - simpl. rewrite length_app. lia.
  - simpl. intros i c. destruct (decide (i < length chunk)%nat) as [Hlt|Hge].
    + rewrite lookup_app_l by done. intros Hc. apply Hkeep'; [|lia]. rewrite (user_bytes_page s1 m1 r src e b He Hb Hd) by lia.
      rewrite Nat2Z.id. unfold chunk in Hc. by rewrite lookup_take_lt in Hc by lia.
    + rewrite lookup_app_r by lia. intros Hc.
      replace (src + Z.of_nat i) with (src + size + Z.of_nat (i - length chunk)) by lia. by apply Hbytes.
  - intros r' y c Hy _. apply Hkeep'; [|lia]. apply Hview1; [done|lia].
Qed.

Lemma copy_fuel_enough x len : 0 ≤ len → x mod 4096 + len ≤ Z.of_nat (copy_fuel len) * 4096.
Proof.
  intros Hl. unfold copy_fuel, PGSIZE. pose proof (Z.mod_pos_bound x 4096). pose proof (Z.div_mod len 4096).
  pose proof (Z.mod_pos_bound len 4096). pose proof (Z.div_pos len 4096). lia.
Qed.

(** The entries of an address space are words that name frames. *)
Lemma entries_ok s a o m h k e :
  vm_rel s a o m h → m !! k = Some e → 0 ≤ e < 2 ^ 64 ∧ frame_ok (pte_frame e) ∧ 0 ≤ k.2 < 2 ^ 26.
Proof.
  intros HV He. pose proof HV as [HR _]. destruct k as [r v]. pose proof He as Hl.
  apply (pt_leaf _ _ _ HR) in Hl as (Hv & p & Hp & _). destruct (leaf_entry s o m p r v e HR Hp He) as (_ & _ & Hr).
  split; [done|]. split; [by apply (present_frame s a o m h _ e HV He)|]. simpl. split; [done|].
  destruct (pt_level _ _ _ HR p r 0 _ Hp) as (_ & _ & _ & Hq). specialize (Hq eq_refl).
  pose proof (Z.div_mod v 512). pose proof (Z.mod_pos_bound v 512). lia.
Qed.

(** A state whose only tables are empty roots. *)
Lemma roots_rel s a rs h :
  pp_rel (vm_pages s) a → NoDup (rs ++ h) →
  Forall (λ r, frame_ok r ∧ tables s !! r = Some zero_table ∧ pool_owned a !! r = Some 1) rs →
  Forall (λ f, frames s !! f = Some zero_frame ∧ pool_owned a !! f = Some 1) h →
  (∀ f n, pool_owned a !! f = Some n → f ∈ rs ++ h) →
  vm_rel s a (list_to_map ((λ r, (r, (r, 2, 0))) <$> rs)) ∅ h.
Proof.
  intros Hrel (Hnr & Hdis & Hnh)%NoDup_app Hrs Hh Honly. set (o := list_to_map _).
  assert (Ho : ∀ p x, o !! p = Some x → x = (p, 2, 0) ∧ p ∈ rs).
  { intros p x Hx. apply elem_of_list_to_map_2 in Hx. by apply list_elem_of_fmap in Hx as (r & [= -> ->] & Hr). }
  assert (Hzero : ∀ p x i e, o !! p = Some x → 0 ≤ i < 512 → entry s p i = Some e → e = 0).
  { intros p x i e [-> Hp]%Ho Hi He. eapply Forall_forall in Hrs; [|exact Hp]. destruct Hrs as (_ & Ht & _).
    rewrite (zero_entry s p i Ht Hi) in He. congruence. }
  split; split.
  - intros p x [-> Hp]%Ho. eapply Forall_forall in Hrs; [|exact Hp]. destruct Hrs as (Hok & Ht & _). split; [done|].
    exists zero_table. split_and!; [done..|]. apply Forall_replicate. lia.
  - intros p r q [[= -> ->] _]%Ho. done.
  - intros p r l q [[= -> -> ->] _]%Ho. lia.
  - intros p r l q i e Hp _ Hi _ He Hb. rewrite (Hzero p _ i e Hp Hi He) in Hb. by rewrite Z.bits_0 in Hb.
  - intros c r l q [[= -> -> ->] _]%Ho Hl. lia.
  - intros r v e. rewrite lookup_empty. split; [done|]. intros (_ & p & [[= ] _]%Ho & _).
  - intros p r l q i e Hp _ Hi _ He Hb. rewrite (Hzero p _ i e Hp Hi He) in Hb. by rewrite Z.bits_0 in Hb.
  - done.
  - intros p x [-> Hp]%Ho. eapply Forall_forall in Hrs; [|exact Hp]. split; [apply Hrs|].
    unfold mapped. rewrite map_filter_empty, map_size_empty. unfold held.
    assert (filter (λ g, g = p) h = []) as ->; [|done]. destruct (filter (λ g, g = p) h) as [|g l] eqn:E; [done|].
    assert (Hg : g ∈ filter (λ g, g = p) h) by (rewrite E; by left). apply list_elem_of_filter in Hg as [-> Hg].
    exfalso. by apply (Hdis p).
  - intros f Hf. unfold mapped in *. rewrite map_filter_empty, map_size_empty in *.
    assert (Hfh : f ∈ h).
    { unfold held in Hf. destruct (filter (λ g, g = f) h) as [|g l] eqn:E; [simpl in Hf; lia|].
      assert (Hg : g ∈ filter (λ g, g = f) h) by (rewrite E; by left). by apply list_elem_of_filter in Hg as [-> Hg]. }
    assert (Hone : held f h = 1).
    { unfold held. rewrite (filter_ne_perm f h Hnh Hfh) at 1. rewrite filter_cons_True by done. simpl.
      assert (filter (λ g, g = f) (filter (.≠ f) h) = []) as ->; [|done].
      destruct (filter (λ g, g = f) (filter (.≠ f) h)) as [|g l] eqn:E; [done|].
      assert (Hg : g ∈ filter (λ g, g = f) (filter (.≠ f) h)) by (rewrite E; by left).
      apply list_elem_of_filter in Hg as [-> Hg]. by apply list_elem_of_filter in Hg as [? _]. }
    rewrite Hone. eapply Forall_forall in Hh; [|exact Hfh]. destruct Hh as [Hfr Hown].
    split; [done|]. exists zero_frame. done.
  - intros f n [Hf|Hf]%Honly%elem_of_app.
    + left. unfold o. exists (f, 2, 0). apply elem_of_list_to_map_1'; [|apply list_elem_of_fmap; by exists f].
      intros y Hy. by apply list_elem_of_fmap in Hy as (r & [= -> ->] & _).
    + right. pose proof (mapped_nonneg f ∅). assert (0 < held f h); [|lia]. unfold held.
      assert (Hff : f ∈ filter (λ g, g = f) h) by (by apply list_elem_of_filter). destruct (filter (λ g, g = f) h); [by apply elem_of_nil in Hff|simpl; lia].
Qed.

(** * Theorems *)

(** mappages installs the mappings of a range page by page with the given
    frame and flags, stops with -1 only when the page pool is empty, and then
    has mapped exactly a prefix. *)
Theorem mappages_spec n s a o m h r v f flags :
  vm_rel s a o m (frames_from n f ++ h) → is_root o r → 0 ≤ v → v + Z.of_nat n ≤ 2 ^ 26 → (0 < n)%nat →
  (∀ j, 0 ≤ j < Z.of_nat n → m !! (r, v + j) = None) → 0 ≤ flags < 1024 →
  ∃ k s' a' o', mappages r (v * 4096) (VA2PA f) (Z.of_nat n * 4096) flags s =
      Ret (if decide (k = n) then 0 else -1, s') ∧ (k ≤ n)%nat ∧
    vm_rel s' a' o' (map_range k r v f flags m) (frames_from (n - k) (f + 4096 * Z.of_nat k) ++ h) ∧
    vm_ext s s' o o' m (frames_from n f ++ h) ∧ grows_in r o o' ∧ ((k < n)%nat → pool_free a' = []).
Proof. apply mappages_run. Qed.

(** uvmunmap removes exactly the leaf mappings of the range, frees the
    frames whose count reaches zero, and keeps every other mapping and all
    frame contents. *)
Theorem uvmunmap_spec s a o m h r v n :
  vm_rel s a o m h → is_root o r → 0 ≤ v → 0 ≤ n → v + n ≤ 2 ^ 26 →
  ∃ s' a' m', uvmunmap r (v * 4096) n true s = Ret (tt, s') ∧ vm_rel s' a' o m' h ∧ frames s' = frames s ∧
    ∀ r' v', m' !! (r', v') =
      match m !! (r', v') with
      | Some e => if decide (r' = r ∧ v ≤ v' < v + n ∧ PTE_FLAGS e ≠ PTE_V) then None else Some e
      | None => None
      end.
Proof.
  intros HV Hr Hv Hn Hb. destruct (uvmunmap_run s a o m h r v n HV Hr Hv Hn Hb) as (s' & a' & Hrun & HV' & Hf).
  exists s', a'. eexists. split_and!; [done|exact HV'|done|].
  intros r' v'. rewrite unmap_range_lookup. rewrite Z2Nat.id by done. done.
Qed.

(** What uvmcopy leaves, with the tables of the child. *)
Lemma uvmcopy_shares s a o m h old new :
  vm_rel s a o m h → cow_ok m → is_root o old → is_root o new → old ≠ new →
  (∀ v, m !! (new, v) = None) → Z.of_nat (size m) + Z.of_nat (length h) < 2 ^ 30 →
  ∃ x s' a' o' m', uvmcopy old new s = Ret (x, s') ∧ vm_rel s' a' o' m' h ∧ is_root o' new ∧
    (∀ f, mapped f m + held f h > 0 → frames s' !! f = frames s !! f) ∧
    ((x = 0 ∧ cow_ok m' ∧
      (∀ r v, m' !! (r, v) = if decide (r = old) then cow <$> m !! (old, v)
                             else if decide (r = new) then cow_child <$> m !! (old, v) else m !! (r, v)) ∧
      ∀ y b, user_byte s m old y = Some b → user_byte s' m' old y = Some b ∧ user_byte s' m' new y = Some b) ∨
     (x = -1 ∧ pool_free a' = [])).
Proof.
  intros HV HC Hro Hrn Hne Hnew Hsz.
  destruct (uvmcopy_run s o m h old new Hne (λ k e He, proj1 (entries_ok s a o m h k e HV He)) Hnew Hsz a HV Hro Hrn)
    as (x & s' & Hrun & Hx). destruct x as [c|].
  - destruct Hx as (a' & o' & m' & n & e & Hn & HS & He & Hnil & HV' & Hext).
    exists (-1), s', a', o'. eexists. split_and!; [done|exact HV'|by eapply vm_ext_root|apply Hext|by right].
  - destruct Hx as (a' & o' & m' & HV' & HS & Hext & _).
    assert (Hm' : ∀ r v, m' !! (r, v) = if decide (r = old) then cow <$> m !! (old, v)
                             else if decide (r = new) then cow_child <$> m !! (old, v) else m !! (r, v)).
    { intros r v. rewrite (HS r v). assert (Hbig : ¬ v < 2 ^ 26 → m !! (old, v) = None).
      { intros Hv. destruct (m !! (old, v)) as [e|] eqn:E; [|done].
        destruct (entries_ok s a o m h _ e HV E) as (_ & _ & Hk). simpl in Hk. lia. }
      destruct (decide (v < 2 ^ 26)); [done|]. by rewrite Hbig. }
    pose proof Hext as [_ Hfr]. exists 0, s', a', o', m'. split_and!; [done|done|by eapply vm_ext_root|done|]. left. split_and!; [done| |done|].
    + apply (cow_ok_shared old new m m' HC Hne Hnew); [|done]. intros k e He.
      destruct (entries_ok s a o m h k e HV He) as (? & ? & _). done.
    + intros y b Hy. unfold user_byte in *. rewrite !Hm', decide_True, decide_False, decide_True by done.
      destruct (m !! (old, y / 4096)) as [e|] eqn:He; [|done]. cbn [fmap option_fmap option_map]. obind.
      destruct (entries_ok s a o m h _ e HV He) as (Her & Hef & _).
      unfold cow_child. rewrite mk_pte_frame by (done || apply PTE_FLAGS_range). rewrite cow_frame by done.
      rewrite Hfr; [done|]. pose proof (mapped_lookup m _ e He). pose proof (frames_held_nonneg (pte_frame e) h). lia.
Qed.

(** C3: uvmcopy on a consistent pair of page tables either gives the child
    every page of the parent with the same frame and both sides copy-on-write,
    so that each user byte the parent could read reads the same from both, or
    returns -1 with the page pool empty; frame contents and reference counts
    stay consistent in both cases. *)
Theorem uvmcopy_spec s a o m h old new :
  vm_rel s a o m h → cow_ok m → is_root o old → is_root o new → old ≠ new →
  (∀ v, m !! (new, v) = None) → Z.of_nat (size m) + Z.of_nat (length h) < 2 ^ 30 →
  ∃ x s' a' o' m', uvmcopy old new s = Ret (x, s') ∧ vm_rel s' a' o' m' h ∧
    (∀ f, mapped f m + held f h > 0 → frames s' !! f = frames s !! f) ∧
    ((x = 0 ∧ cow_ok m' ∧
      (∀ r v, m' !! (r, v) = if decide (r = old) then cow <$> m !! (old, v)
                             else if decide (r = new) then cow_child <$> m !! (old, v) else m !! (r, v)) ∧
      ∀ y b, user_byte s m old y = Some b → user_byte s' m' old y = Some b ∧ user_byte s' m' new y = Some b) ∨
     (x = -1 ∧ pool_free a' = [])).
Proof.
  intros HV HC Hro Hrn Hne Hnew Hsz.
  destruct (uvmcopy_shares s a o m h old new HV HC Hro Hrn Hne Hnew Hsz) as (x & s' & a' & o' & m' & Hrun & HV' & _ & Hres).
  by exists x, s', a', o', m'.
Qed.

(** handle_cow_fault replaces a shared page by a private writable copy in
    a frame nobody mapped before, keeps every byte every address space reads,
    drops the copy-on-write mark, and fails only when no page is free. *)
Theorem handle_cow_fault_spec s a o m h r va v e :
  vm_rel s a o m h → cow_ok m → is_root o r → va / 4096 = v → 0 ≤ v < 2 ^ 26 → m !! (r, v) = Some e →
  ∃ x s' a' m', handle_cow_fault r va s = Ret (x, s') ∧ vm_rel s' a' o m' h ∧ cow_ok m' ∧
    views_kept r 0 0 s m s' m' ∧
    ((x = -1 ∧ m' = m ∧ pool_free a = []) ∨
     (x = 0 ∧ ∃ c, mapped c m + held c h = 0 ∧ m' = <[(r, v) := cow_entry c e]> m ∧ mapped c m' = 1 ∧
        Z.testbit (cow_entry c e) 2 = true ∧ Z.testbit (cow_entry c e) 8 = false)).
Proof.
  intros HV HC Hr Hva Hv Hm.
  destruct (handle_cow_fault_run s a o m h r va v e HV Hr Hva Hv Hm)
    as [(s1 & Hrun & HV1 & Hx1 & Hnil)|(s1 & a1 & c & b & Hrun & Hc & Hcm & HV1 & Hx1 & Hfb & Hcb)].
  - exists (-1), s1, a, m. split_and!; try done; [by eapply views_grow|by left].
  - assert (Hfr : pte_frame (cow_entry c e) = c) by (apply pte_frame_mk; [done|apply cow_flags_range]).
    assert (H0 : mapped c m = 0) by (pose proof (mapped_nonneg c m); pose proof (frames_held_nonneg c h); lia).
    assert (HC1 : cow_ok (<[(r, v) := cow_entry c e]> m)) by (apply cow_ok_insert; [done|by rewrite Hfr]).
    assert (Hbit : ∀ i, 0 ≤ i < 10 → Z.testbit (cow_entry c e) i = Z.testbit (cow_flags e) i)
      by (intros i Hi; apply pte_bits_mk; [done|apply cow_flags_range|done]).
    assert (HW : Z.testbit (cow_entry c e) 2 = true) by (rewrite Hbit, cow_flags_bits by lia; by rewrite orb_true_r).
    exists 0, s1, a1. eexists. split_and!; [done|exact HV1|done|by apply (views_cow s s1 o m h r v c e b)|].
    right. split; [done|]. exists c. split_and!; [done..| |done|].
    + rewrite <-Hfr at 1. apply (HC1 (r, v)); [by rewrite lookup_insert_eq|done].
    + rewrite Hbit, cow_flags_bits by lia. by rewrite andb_false_r.
Qed.

(** C17: copyout to a range of the user half breaks copy-on-write and faults
    pages in as needed: it stores a prefix of the source, all of it when it
    returns 0, the bytes read back are those stored, and no other byte of any
    address space changes. It returns -1 only at a page that is missing while
    at most one page is free or no fault handler may supply it, that is copy-
    on-write while no page is free, or that the user may not write and that is
    not copy-on-write. *)
Theorem copyout_spec s a o m h p r dst src :
  vm_rel s a o m h → cow_ok m → is_root o r → pagetable p = r → 0 ≤ dst → dst + Z.of_nat (length src) ≤ 2 ^ 38 →
  ∃ x s' a' o' m' k, copyout p r dst src s = Ret (x, s') ∧ vm_rel s' a' o' m' h ∧ cow_ok m' ∧
    0 ≤ k ≤ Z.of_nat (length src) ∧ (x = 0 ∧ k = Z.of_nat (length src) ∨ x = -1 ∧ k < Z.of_nat (length src) ∧ refused p a' m' r ((dst + k) / 4096)) ∧
    (∀ i, 0 ≤ i < k → user_byte s' m' r (dst + i) = src !! Z.to_nat i) ∧ views_kept r dst (dst + k) s m s' m'.
Proof.
  intros HV HC Hr Hpt Hd Hl. apply (copyout_loop_run _ s a o m h); [done..|]. left. apply copy_fuel_enough. lia.
Qed.

(** copyin reads a prefix of the user range, all of it when it returns 0,
    byte for byte what the address space shows, and changes no byte of any
    address space. *)
Theorem copyin_spec s a o m h p r src len :
  vm_rel s a o m h → cow_ok m → is_root o r → pagetable p = r → 0 ≤ src → 0 ≤ len → src + len ≤ 2 ^ 38 →
  ∃ x l s' a' o' m', copyin p r src len s = Ret ((x, l), s') ∧ vm_rel s' a' o' m' h ∧ cow_ok m' ∧
    Z.of_nat (length l) ≤ len ∧ (x = 0 ∧ Z.of_nat (length l) = len ∨ x = -1) ∧
    (∀ i b, l !! i = Some b → user_byte s' m' r (src + Z.of_nat i) = Some b) ∧ views_kept r src src s m s' m'.
Proof.
  intros HV HC Hr Hpt Hd H0 Hl. apply (copyin_loop_run _ s a o m h); [done..|]. left. apply copy_fuel_enough. lia.
Qed.
(** The entries of the child after a fork are copy-on-write. *)
Lemma cow_child_bits e : 0 ≤ e < 2 ^ 64 → frame_ok (pte_frame e) →
  has (cow_child e) PTE_COW = true ∧ has (cow_child e) PTE_W = false ∧ has (cow_child e) PTE_U = has e PTE_U.
Proof.
  intros He Hf. rewrite has_W, !has_U, has_COW. unfold cow_child.
  rewrite !mk_pte_bits, !PTE_FLAGS_bits, !cow_bits by (done || lia || apply PTE_FLAGS_range).
  split_and!; [by destruct (Z.testbit e 8)|by destruct (Z.testbit e 2)|by destruct (Z.testbit e 4)].
Qed.

Lemma is_cow_fault_run s a o m h r v e :
  vm_rel s a o m h → is_root o r → 0 ≤ v < 2 ^ 26 → m !! (r, v) = Some e →
  is_cow_fault r (v * 4096) s = Ret (if has e PTE_COW then 0 else -1, s).
Proof.
  intros HV Hr Hv Hm. pose proof HV as [HR _]. unfold is_cow_fault. rewrite (PGROUNDDOWN_page _ v) by (by rewrite Z.div_mul).
  destruct (walk_find s o m r v HR Hr Hv) as [(p0 & Hw & Hp0)|(_ & Hno)];
    [|apply (pt_leaf _ _ _ HR) in Hm as (_ & p & Hp & _); by destruct (Hno p)].
  rewrite (bind_Ret _ _ _ _ _ Hw). destruct (pt_table _ _ _ HR p0 _ Hp0) as (Hok & _). pose proof (frame_ok_pos p0 Hok).
  assert (Hmod := Z.mod_pos_bound v 512 ltac:(lia)). rewrite decide_False by lia.
  destruct (leaf_entry s o m p0 r v e HR Hp0 Hm) as (He & Hb & _). rewrite (bind_Ret _ _ _ _ _ (read_pte_run s o m p0 _ _ e HR Hp0 Hmod He)).
  rewrite has_V, Hb. done.
Qed.

(** C39: For every user page of a consistent address space that is mapped
    without write permission: when uvmcopy has made the child, is_cow_fault
    accepts a store of the child to the page, and handle_cow_fault, unless
    memory is out, maps it with write permission. *)
Theorem fork_makes_readonly_writable s a o m h old new v e :
  vm_rel s a o m h → cow_ok m → is_root o old → is_root o new → old ≠ new →
  (∀ v, m !! (new, v) = None) → Z.of_nat (size m) + Z.of_nat (length h) < 2 ^ 30 →
  m !! (old, v) = Some e → has e PTE_U = true → has e PTE_W = false →
  ∃ x s1 a1 o1 m1, uvmcopy old new s = Ret (x, s1) ∧ vm_rel s1 a1 o1 m1 h ∧
    (x = -1 ∧ pool_free a1 = [] ∨
     x = 0 ∧ is_cow_fault new (v * 4096) s1 = Ret (0, s1) ∧
     ∃ y s2 a2 e2, handle_cow_fault new (v * 4096) s1 = Ret (y, s2) ∧ vm_rel s2 a2 o1 (<[(new, v) := e2]> m1) h ∧
       (y = -1 ∧ pool_free a2 = [] ∨ y = 0 ∧ has e2 PTE_U = true ∧ has e2 PTE_W = true)).
Proof.
  intros HV HC Hro Hrn Hne Hnew Hsz Hm HU _. destruct (entries_ok s a o m h _ e HV Hm) as (Her & Hef & Hv). simpl in Hv.
  destruct (uvmcopy_shares s a o m h old new HV HC Hro Hrn Hne Hnew Hsz) as (x & s1 & a1 & o1 & m1 & Hrun & HV1 & Hrn1 & _ & Hres).
  exists x, s1, a1, o1, m1. split_and!; [done..|]. destruct Hres as [(-> & _ & Hm1 & _)|[-> Hnil]]; [right|by left].
  destruct (cow_child_bits e Her Hef) as (HcC & HcW & HcU).
  assert (Hc : m1 !! (new, v) = Some (cow_child e)) by (rewrite Hm1, decide_False, decide_True, Hm by done; done).
  split; [done|]. split; [by rewrite (is_cow_fault_run s1 a1 o1 m1 h new v _ HV1 Hrn1 Hv Hc), HcC|].
  destruct (handle_cow_fault_run s1 a1 o1 m1 h new (v * 4096) v _ HV1 Hrn1 (Z.div_mul v 4096 ltac:(lia)) Hv Hc)
    as [(s2 & Hrun2 & HV2 & _ & Hnil)|(s2 & a2 & c & b & Hrun2 & Hcok & _ & HV2 & _)].
  - exists (-1), s2, a1, (cow_child e). split_and!; [done|by rewrite insert_id|by left].
  - exists 0, s2, a2, (cow_entry c (cow_child e)). split_and!; [done..|]. right. split_and!; [done| |by apply cow_entry_W].
    rewrite has_U. unfold cow_entry. rewrite pte_bits_mk, cow_flags_bits by (done || lia || apply cow_flags_range).
    by rewrite <-has_U, HcU, HU.
Qed.
End vm.

(** ** The implementations of the page pool *)

(** kalloc.c, by its refinement of the pool. *)
#[export] Instance kalloc_pool `{KernelImage} : PagePool kmem.
Proof.
  refine {| pp_exec := page_exec; pp_rel := pool_rel |}.
  - intros s a o r a'. apply pool_step_refines.
  - intros s a [Hf Ho]. pose proof Hf as [_ Hnd Hok _ _]. split; [done|]. rewrite Forall_forall in Hok. split.
    + intros p Hp. split; [by apply page_ok_bounds, Hok|]. destruct (pool_owned a !! p) as [n|] eqn:E; [|done].
      by destruct (Ho p n E) as (_ & ? & _).
    + intros p n Hn. apply page_ok_bounds. by destruct (Ho p n Hn).
Defined.

(** The pool itself. *)
Record pool_ok (a : pool) : Prop := {
  po_nodup : NoDup (pool_free a);
  po_free p : p ∈ pool_free a → frame_ok p ∧ pool_owned a !! p = None;
  po_owned p n : pool_owned a !! p = Some n → frame_ok p
}.

#[local] Instance demo_pool : PagePool pool.
Proof.
  refine {| pp_exec o a := match pool_step o a with Some (r, a') => Ret (r, a') | None => Fault end;
            pp_rel s a := s = a ∧ pool_ok a |}.
  - intros s a o r a' [-> Hok] Hst. rewrite Hst. exists a'. split; [done|]. split; [done|]. destruct Hok as [Hnd Hf Ho].
    destruct o as [|p|p|p]; simpl in Hst.
    + destruct (pool_free a) as [|c l] eqn:El; simplify_eq/=; [split; rewrite ?El; done|]. apply NoDup_cons in Hnd as [Hc Hnd].
      split; simpl; [done| |].
      * intros p Hp. rewrite lookup_insert_ne by (intros ->; done). apply Hf. by right.
      * intros p n. rewrite lookup_insert. case_decide as Hd; [intros _; subst; apply Hf; by left|apply Ho].
    + destruct (pool_owned a !! p) as [n|] eqn:Ep; simplify_eq/=. case_decide; simplify_eq/=.
      * split; simpl; [done| |].
        -- intros q Hq. destruct (Hf q Hq) as [? Hn]. rewrite lookup_insert_ne by congruence. done.
        -- intros q k. rewrite lookup_insert. case_decide; [intros _; subst; by eapply Ho|apply Ho].
      * split; simpl.
        -- apply NoDup_cons. split; [|done]. intros Hin. destruct (Hf p Hin). congruence.
        -- intros q [->|Hq]%elem_of_cons; [rewrite lookup_delete_eq; split; [by eapply Ho|done]|].
           destruct (Hf q Hq) as [? Hn]. rewrite lookup_delete_ne by congruence. done.
        -- intros q k. rewrite lookup_delete. case_decide; [done|apply Ho].
    + destruct (pool_owned a !! p) as [n|] eqn:Ep; simplify_eq/=. case_decide; simplify_eq/=. split; simpl; [done| |].
      * intros q Hq. destruct (Hf q Hq) as [? Hn]. rewrite lookup_insert_ne by congruence. done.
      * intros q k. rewrite lookup_insert. case_decide; [intros _; subst; by eapply Ho|apply Ho].
    + destruct (pool_owned a !! p) as [n|] eqn:Ep; simplify_eq/=. case_decide; simplify_eq/=. split; simpl; [done| |].
      * intros q Hq. destruct (Hf q Hq) as [? Hn]. rewrite lookup_insert_ne by congruence. done.
      * intros q k. rewrite lookup_insert. case_decide; [intros _; subst; by eapply Ho|apply Ho].
  - intros s a [-> [Hnd Hf Ho]]. done.
Defined.

(** Three roots, a data page, and [n] free pages. *)
Definition pg (i : Z) : Z := DRAM_BASE_LOW + KERNEL_VIRT_OFFSET + (i + 16) * 4096.
Definition demo_vm (n : Z) : vm_state pool :=
  mk_vm (mk_pool (pg <$> seqZ 4 n) {[ pg 0 := 1; pg 1 := 1; pg 2 := 1; pg 3 := 1 ]})
    {[ pg 0 := zero_table; pg 1 := zero_table; pg 2 := zero_table ]} {[ pg 3 := zero_frame ]}.
Definition demo_uproc : uproc := mk_uproc (pg 0) 0x20000 0x40000 0x3ff0000 0x4000000 [].

Lemma pg_ok i : 0 ≤ i < 1000 → frame_ok (pg i).
Proof.
  intros Hi. unfold frame_ok, pg. split; [lia|]. split.
  - unfold PHYSTOP_HIGH, PHYSTOP_LOW, DRAM_SIZE, PGSIZE. lia.
  - rewrite Z.mod_add by lia. done.
Qed.

Lemma demo_rel_n n : 0 ≤ n ≤ 900 →
  vm_rel (demo_vm n) (vm_pages (demo_vm n)) (list_to_map ((λ r, (r, (r, 2, 0))) <$> [pg 0; pg 1; pg 2])) ∅ [pg 3].
Proof.
  intros Hn. apply roots_rel.
  - split; [done|]. split; unfold demo_vm; cbn [vm_pages pool_free pool_owned].
    + apply NoDup_fmap; [intros i j; unfold pg; lia|apply NoDup_seqZ].
    + intros p Hp. apply list_elem_of_fmap in Hp as (i & -> & Hi%elem_of_seqZ). split; [apply pg_ok; lia|].
      rewrite !lookup_insert_ne by (unfold pg; lia). by rewrite lookup_singleton_ne by (unfold pg; lia).
    + intros p k Hp. repeat (apply lookup_insert_Some in Hp as [[<- _]|[_ Hp]]; [by apply pg_ok|]).
      apply lookup_singleton_Some in Hp as [<- _]. by apply pg_ok.
  - by apply (bool_decide_unpack _); vm_compute.
  - repeat constructor; try (by apply pg_ok); by vm_compute.
  - repeat constructor; by vm_compute.
  - intros f k Hf. unfold demo_vm in Hf. cbn [vm_pages pool_owned] in Hf.
    repeat (apply lookup_insert_Some in Hf as [[<- _]|[_ Hf]]; [set_solver|]). apply lookup_singleton_Some in Hf as [<- _]. set_solver.
Qed.
Lemma demo_rel : vm_rel (demo_vm 12) (vm_pages (demo_vm 12)) (list_to_map ((λ r, (r, (r, 2, 0))) <$> [pg 0; pg 1; pg 2])) ∅ [pg 3].
Proof. by apply demo_rel_n. Qed.
Lemma demo_root : is_root (list_to_map ((λ r, (r, (r, 2, 0))) <$> [pg 0; pg 1; pg 2])) (pg 0) ∧
  is_root (list_to_map ((λ r, (r, (r, 2, 0))) <$> [pg 0; pg 1; pg 2])) (pg 1).
Proof. split; vm_compute; done. Qed.

(** Page 5 of the first root maps the data page, readable and writable. *)
Definition RWU : Z := Z.lor (Z.lor PTE_R PTE_W) PTE_U.
Definition RU : Z := Z.lor PTE_R PTE_U.
Lemma demo_mapped_as fl : fl = RWU ∨ fl = RU → ∃ s a o, is_root o (pg 0) ∧ is_root o (pg 1) ∧
  vm_rel s a o {[ (pg 0, 5) := mk_pte (pg 3) fl ]} [] ∧ cow_ok {[ (pg 0, 5) := mk_pte (pg 3) fl ]}.
Proof.
  intros Hfl. destruct demo_root as [H0 H1].
  destruct (map_one (demo_vm 12) _ _ ∅ [] (pg 0) 5 (pg 3) fl demo_rel H0) as (s & a & o & Hx & [[Hrun HV]|(Hrun & _)]);
    [done|done|by destruct Hfl as [-> | ->]| |].
  - exists s, a, o. split_and!; [by eapply vm_ext_root|by eapply vm_ext_root|exact HV|].
    apply (cow_ok_insert ∅); [done|]. done.
  - exfalso. assert (Hok : match mappages (pg 0) (5 * 4096) (VA2PA (pg 3)) PGSIZE fl (demo_vm 12) with Ret (x, _) => x =? 0 | _ => false end = true)
      by (destruct Hfl as [-> | ->]; vm_compute; reflexivity). rewrite Hrun in Hok. done.
Qed.
Lemma demo_mapped : ∃ s a o, is_root o (pg 0) ∧ is_root o (pg 1) ∧
  vm_rel s a o {[ (pg 0, 5) := mk_pte (pg 3) RWU ]} [] ∧ cow_ok {[ (pg 0, 5) := mk_pte (pg 3) RWU ]}.
Proof. apply demo_mapped_as. by left. Qed.

Lemma mappages_spec_witness : ∃ k s' a' o', (k ≤ 1)%nat ∧
  mappages (pg 0) (5 * 4096) (VA2PA (pg 3)) (Z.of_nat 1 * 4096) RWU (demo_vm 12) = Ret (if decide (k = 1%nat) then 0 else -1, s') ∧
  vm_rel s' a' o' (map_range k (pg 0) 5 (pg 3) RWU ∅) (frames_from (1 - k) (pg 3 + 4096 * Z.of_nat k) ++ []).
Proof.
  destruct (mappages_spec 1 (demo_vm 12) _ _ ∅ [] (pg 0) 5 (pg 3) RWU demo_rel (proj1 demo_root))
    as (k & s' & a' & o' & Hrun & Hk & HV & _); [done|done|lia|done|done|].
  by exists k, s', a', o'.
Defined.

Lemma uvmunmap_spec_witness : ∃ s s' a' o (m' : gmap (Z * Z) Z), uvmunmap (pg 0) (5 * 4096) 1 true s = Ret (tt, s') ∧
  vm_rel s' a' o m' [] ∧ m' !! (pg 0, 5) = None.
Proof.
  destruct demo_mapped as (s & a & o & H0 & _ & HV & _).
  destruct (uvmunmap_spec s a o _ [] (pg 0) 5 1 HV H0) as (s' & a' & m' & Hrun & HV' & _ & Hm'); [done..|].
  exists s, s', a', o, m'. split_and!; [done..|]. rewrite Hm'. by vm_compute.
Defined.

Lemma uvmcopy_spec_witness : ∃ s x s' a' o' (m' : gmap (Z * Z) Z), uvmcopy (pg 0) (pg 1) s = Ret (x, s') ∧ vm_rel s' a' o' m' [] ∧
  (x = 0 ∧ m' !! (pg 1, 5) = Some (cow_child (mk_pte (pg 3) RWU)) ∨ x = -1).
Proof.
  destruct demo_mapped as (s & a & o & H0 & H1 & HV & HC).
  destruct (uvmcopy_spec s a o _ [] (pg 0) (pg 1) HV HC H0 H1) as (x & s' & a' & o' & m' & Hrun & HV' & _ & Hres);
    [by vm_compute|by intros v; apply lookup_singleton_ne; intros [= Hv _]|by vm_compute|].
  exists s, x, s', a', o', m'. split_and!; [done..|]. destruct Hres as [(-> & _ & Hm' & _)|[-> _]]; [left|by right].
  split; [done|]. rewrite Hm'. rewrite decide_False, decide_True by (done || by vm_compute).
  by rewrite lookup_singleton_eq.
Defined.

Lemma handle_cow_fault_spec_witness : ∃ s x s' a' o (m' : gmap (Z * Z) Z), handle_cow_fault (pg 0) 20481 s = Ret (x, s') ∧
  vm_rel s' a' o m' [] ∧ cow_ok m'.
Proof.
  destruct demo_mapped as (s & a & o & H0 & _ & HV & HC).
  destruct (handle_cow_fault_spec s a o _ [] (pg 0) 20481 5 (mk_pte (pg 3) RWU) HV HC H0) as (x & s' & a' & m' & Hrun & HV' & HC' & _);
    [done|done|apply lookup_singleton_eq|].
  by exists s, x, s', a', o, m'.
Defined.

Lemma fork_makes_readonly_writable_witness : ∃ s x s1, has (mk_pte (pg 3) RU) PTE_W = false ∧ uvmcopy (pg 0) (pg 1) s = Ret (x, s1).
Proof.
  destruct (demo_mapped_as RU (or_intror eq_refl)) as (s & a & o & H0 & H1 & HV & HC).
  destruct (fork_makes_readonly_writable s a o _ [] (pg 0) (pg 1) 5 (mk_pte (pg 3) RU) HV HC H0 H1) as (x & s1 & _ & _ & _ & Hrun & _);
    [by vm_compute|by intros v; apply lookup_singleton_ne; intros [= Hv _]|by vm_compute|apply lookup_singleton_eq|by vm_compute|by vm_compute|].
  exists s, x, s1. split; [by vm_compute|done].
Defined.

Definition no_files (_ : nat) (_ : Z) : Z * list Z := (-1, []).

Lemma copyout_spec_witness : ∃ s x s', copyout no_files demo_uproc (pg 0) 20490 [1; 2; 3] s = Ret (x, s').
Proof.
  destruct demo_mapped as (s & a & o & H0 & _ & HV & HC).
  destruct (copyout_spec no_files s a o _ [] demo_uproc (pg 0) 20490 [1; 2; 3] HV HC H0) as (x & s' & _ & _ & _ & _ & Hrun & _);
    [done|done|done|].
  by exists s, x, s'.
Defined.

Lemma copyin_spec_witness : ∃ s x l s', copyin no_files demo_uproc (pg 0) 20490 3 s = Ret ((x, l), s').
Proof.
  destruct demo_mapped as (s & a & o & H0 & _ & HV & HC).
  destruct (copyin_spec no_files s a o _ [] demo_uproc (pg 0) 20490 3 HV HC H0) as (x & l & s' & _ & _ & _ & Hrun & _);
    [done..|].
  by exists s, x, l, s'.
Defined.

(** ** Defects *)

(** uvmcopy's error path clears PTE_COW even from a page that was shared by an
    earlier fork: the parent's page is then neither writable nor
    copy-on-write, and its next store is fatal. *)
Theorem uvmcopy_failure_loses_cow :
  match (mappages (pg 0) (5 * 4096) (VA2PA (pg 3)) PGSIZE RWU ;; uvmcopy (pg 0) (pg 1) ;;
         r ← uvmcopy (pg 0) (pg 2); c ← is_cow_fault (pg 0) (5 * 4096);
         e ← walk (pg 0) (5 * 4096) false ≫= read_pte; mret (r, c, e)) (demo_vm 4) with
  | Ret ((r, c, e), _) => (r =? -1) && (c =? -1) && negb (has e PTE_W)
  | _ => false
  end = true.
Proof. vm_compute. reflexivity. Qed.
