(* ===== verification/VmSpace.v ===== *)
(** Whole address spaces of arch/riscv/mm/vm.c: making one (uvmcreate),
    filling a range of it with fresh pages or leaving it as it was
    (uvmalloc), and giving everything back (uvmfree, freewalk).  The
    definitions are those of Vm.v. *)
From S2P Require Import Prelude Kalloc Vma Vm.

Section space.
Context {P : Type} `{PagePool P}.
Abbreviation st := (vm_state P).
Abbreviation owner := (gmap Z (Z * Z * Z)).
Abbreviation aspace := (gmap (Z * Z) Z).

(** The life of an address space: made, filled, given back. *)
Definition space_cycle (kt va size perm : Z) (p : uproc) : K st Z :=
  c ← uvmcreate kt; x ← uvmalloc c va size perm; uvmfree c p ;; mret x.

(** ** Ranges of fresh pages *)

(** [m'] is [m] with the [n] pages from [v] of [r] mapped to zeroed frames of
    their own. *)
Record grown (r v n fl : Z) (m : aspace) (s' : st) (m' : aspace) : Prop := {
  gr_out r' v' : ¬ (r' = r ∧ v ≤ v' < v + n) → m' !! (r', v') = m !! (r', v');
  gr_in v' : v ≤ v' < v + n → ∃ c, frame_ok c ∧ m' !! (r, v') = Some (mk_pte c fl) ∧ mapped c m' = 1 ∧
    frames s' !! c = Some zero_frame
}.

Lemma uvmdealloc_run s a o m h r v k :
  vm_rel s a o m h → is_root o r → 0 ≤ v → 0 ≤ k → v + k ≤ 2 ^ 26 →
  ∃ s' a', uvmdealloc r (v * 4096) (k * 4096) s = Ret (0, s') ∧
    vm_rel s' a' o (unmap_range (Z.to_nat k) r v m) h ∧ frames s' = frames s.
Proof.
  intros HV Hr Hv Hk Hb. unfold uvmdealloc. case_decide as Hz.
  { assert (k = 0) as -> by lia. by exists s, a. }
  rewrite (u64_small (v * 4096 + k * 4096)) by lia.
  rewrite !PGROUNDUP_eq by lia. replace ((v * 4096 + 4095) / 4096) with v by (rewrite Z.div_add_l by lia; by rewrite Z.div_small by lia; lia).
  replace ((v * 4096 + k * 4096 + 4095) / 4096) with (v + k)
    by (rewrite <-Z.mul_add_distr_r, Z.div_add_l by lia; rewrite Z.div_small by lia; lia).
  rewrite decide_True by lia. replace ((v + k) * 4096 - v * 4096) with (k * 4096) by lia.
  rewrite u64_small by lia. unfold PGSIZE. rewrite Z.div_mul by lia. rewrite i32_small by lia.
  destruct (uvmunmap_run s a o m h r v k HV Hr Hv Hk Hb) as (s' & a' & Hrun & HV' & Hf).
  rewrite (bind_Ret _ _ _ _ _ Hrun). by exists s', a'.
Qed.

Lemma user_flags_ne c perm : frame_ok c → PTE_FLAGS (mk_pte c (pte_from_perm (Z.lor perm PTE_USER))) ≠ PTE_V.
Proof.
  intros Hc Heq. assert (Hb : Z.testbit (PTE_FLAGS (mk_pte c (pte_from_perm (Z.lor perm PTE_USER)))) 4 = true).
  { rewrite PTE_FLAGS_bits, mk_pte_bits by (done || lia || apply pte_from_perm_range).
    unfold pte_from_perm. assert (has (Z.lor perm PTE_USER) PTE_USER = true) as ->.
    { unfold PTE_USER. change 8 with (2 ^ 3). rewrite has_pow2, Z.lor_spec by lia. by rewrite orb_true_r. }
    by rewrite Z.lor_spec, orb_true_r. }
  by rewrite Heq in Hb.
Qed.

Lemma grown_undo r v k perm m s' m' :
  0 ≤ k → grown r v k (pte_from_perm (Z.lor perm PTE_USER)) m s' m' → (∀ v', v ≤ v' < v + k → m !! (r, v') = None) →
  unmap_range (Z.to_nat k) r v m' = m.
Proof.
  intros Hk HG Hm. apply map_eq. intros [r' v']. rewrite unmap_range_lookup. rewrite Z2Nat.id by done.
  destruct (decide (r' = r ∧ v ≤ v' < v + k)) as [[-> Hv]|Hout].
  - destruct (gr_in _ _ _ _ _ _ _ HG v' Hv) as (c & Hc & -> & _). rewrite decide_True; [symmetry; by apply Hm|].
    split; [done|]. split; [done|]. by apply user_flags_ne.
  - rewrite (gr_out _ _ _ _ _ _ _ HG) by done. destruct (m !! (r', v')); [|done]. by rewrite decide_False by tauto.
Qed.

(** One more page. *)
Lemma grown_step r v k fl m s m' s' o o' h c :
  0 ≤ k → grown r v k fl m s m' → m !! (r, v + k) = None → 0 ≤ fl < 1024 → frame_ok c → mapped c m' = 0 →
  frames s' !! c = Some zero_frame → vm_ext s s' o o' m' h →
  grown r v (k + 1) fl m s' (<[(r, v + k) := mk_pte c fl]> m').
Proof.
  intros Hk HG Hn Hfl Hc Hm0 Hz [_ Hext].
  assert (Hn' : m' !! (r, v + k) = None) by (rewrite (gr_out _ _ _ _ _ _ _ HG); [done|lia]).
  split.
  - intros r' v' Hout. rewrite lookup_insert_ne by (intros [= Er Ev]; apply Hout; split; [done|lia]).
    apply HG. intros [-> ?]. apply Hout. split; [done|lia].
  - intros v' Hv'. destruct (decide (v' = v + k)) as [->|Hne].
    + exists c. rewrite lookup_insert_eq. split_and!; [apply Hc..|done| |done].
      rewrite mapped_insert, mk_pte_frame, decide_True by done. lia.
    + destruct (gr_in _ _ _ _ _ _ _ HG v') as (c' & Hc' & Hl & Hm1 & Hf); [lia|]. exists c'.
      rewrite lookup_insert_ne by congruence. split; [done|]. split; [done|].
      assert (c ≠ c') by (intros ->; lia). split; [rewrite mapped_insert, mk_pte_frame, decide_False by done; lia|].
      rewrite Hext; [done|]. pose proof (frames_held_nonneg c' h). lia.
Qed.

(** What uvmalloc ends with. *)
Definition alloc_post (s s' : st) (a' : pool) (o o' : owner) (m : aspace) (h : list Z) (r v n perm x : Z) (m' : aspace) : Prop :=
  vm_rel s' a' o' m' h ∧ vm_ext s s' o o' m h ∧ grows_in r o o' ∧
  (x = 0 ∧ grown r v n (pte_from_perm (Z.lor perm PTE_USER)) m s' m' ∨ x = -1 ∧ m' = m).

Lemma uvmalloc_loop_run n s0 o0 m s a o m1 h r v k perm :
  vm_rel s a o m1 h → vm_ext s0 s o0 o m h → grows_in r o0 o → is_root o r → 0 ≤ v → 0 ≤ k → v + k + Z.of_nat n ≤ 2 ^ 26 →
  (∀ v', v ≤ v' < v + k + Z.of_nat n → m !! (r, v') = None) →
  grown r v k (pte_from_perm (Z.lor perm PTE_USER)) m s m1 →
  ∃ x s' a' o' m', uvmalloc_loop n r (v * 4096) ((v + k) * 4096) ((v + k + Z.of_nat n) * 4096) perm s = Ret (x, s') ∧
    alloc_post s0 s' a' o0 o' m h r v (k + Z.of_nat n) perm x m'.
Proof.
  revert s a o m1 k. induction n as [|n IH]; intros s a o m1 k HV Hx0 Hg0 Hr Hv Hk Hb Hnone HG; cbn [uvmalloc_loop].
  { rewrite decide_False by lia. exists 0, s, a, o, m1. split; [done|]. split_and!; [done..|]. left. by rewrite Z.add_0_r. }
  rewrite decide_True by lia. set (fl := pte_from_perm (Z.lor perm PTE_USER)) in *.
  assert (Hfl : 0 ≤ fl < 1024) by apply pte_from_perm_range.
  assert (Hnone1 : m1 !! (r, v + k) = None) by (rewrite (gr_out _ _ _ _ _ _ _ HG) by lia; apply Hnone; lia).
  assert (Hext1 : ∀ s1 o1 h1, (∀ f, held f h ≤ held f h1) → vm_ext s s1 o o1 m1 h1 → vm_ext s0 s1 o0 o1 m h).
  { intros s1 o1 h1 Hh [Ho1 Hf1]. destruct Hx0 as [Ho0 Hf0]. split; [by etrans|]. intros f Hf. rewrite Hf1; [by apply Hf0|].
    assert (Hle : mapped f m ≤ mapped f m1); [|specialize (Hh f); lia].
    unfold mapped. apply inj_le. apply map_subseteq_size. apply map_filter_subseteq_mono, map_subseteq_spec. intros [r' v'] e He.
    rewrite (gr_out _ _ _ _ _ _ _ HG); [done|]. intros [-> Hin]. rewrite Hnone in He by lia. done. }
  assert (Hundo : ∀ s2 a2 o2, vm_rel s2 a2 o2 m1 h → vm_ext s0 s2 o0 o2 m h → grows_in r o0 o2 → is_root o2 r →
    ∃ s' a', (uvmdealloc r (v * 4096) (u64 ((v + k) * 4096 - v * 4096)) ;; mret (-1) : K st Z) s2 = Ret (-1, s') ∧
      alloc_post s0 s' a' o0 o2 m h r v (k + Z.of_nat (S n)) perm (-1) m).
  { intros s2 a2 o2 HV2 Hx2 Hg2 Hr2. replace ((v + k) * 4096 - v * 4096) with (k * 4096) by lia. rewrite u64_small by lia.
    destruct (uvmdealloc_run s2 a2 o2 m1 h r v k HV2 Hr2 Hv Hk ltac:(lia)) as (s3 & a3 & Hrun & HV3 & Hf3).
    rewrite (bind_Ret _ _ _ _ _ Hrun). exists s3, a3. split; [done|].
    rewrite (grown_undo r v k perm m s m1 Hk HG) in HV3 by (intros; apply Hnone; lia). split; [done|]. split; [|split; [done|by right]].
    destruct Hx2 as [Ho2 Hf2]. split; [done|]. intros f Hf. by rewrite Hf3, Hf2. }
  destruct (kalloc_run s a o m1 h HV) as [(s1 & Hk1 & _ & HV1 & Hx1)|(c & l & s1 & Hk1 & Hc & _ & Hcm & Hz & HV1 & Hx1)];
    rewrite (bind_Ret _ _ _ _ _ Hk1).
  { rewrite decide_True by done. destruct (Hundo s1 a o HV1 (Hext1 s1 o h ltac:(lia) Hx1) Hg0 Hr) as (s' & a' & Hrun & HP).
    by exists (-1), s', a', o, m. }
  pose proof (frame_ok_pos c Hc). rewrite decide_False by lia. pose proof (mapped_nonneg c m1). pose proof (frames_held_nonneg c h).
  destruct (map_one_in s1 _ o m1 h r (v + k) c fl HV1 Hr ltac:(lia) Hnone1 Hfl) as (s2 & a2 & o2 & Hx2 & Hg2 & [[Hrun HV2]|(Hrun & HV2 & _)]);
    rewrite (bind_Ret _ _ _ _ _ Hrun).
  - rewrite decide_False by lia. rewrite (u64_small ((v + k) * 4096 + PGSIZE)) by (unfold PGSIZE; lia).
    replace ((v + k) * 4096 + PGSIZE) with ((v + (k + 1)) * 4096) by (unfold PGSIZE; lia).
    replace ((v + k + Z.of_nat (S n)) * 4096) with ((v + (k + 1) + Z.of_nat n) * 4096) by lia.
    assert (Hx2' : vm_ext s1 s2 o o2 m1 h).
    { apply (ext_weaken s1 s2 o o2 m1 m1 h (c :: h) Hx2). intros f. rewrite frames_held_cons. case_decide; lia. }
    pose proof (vm_ext_trans _ _ _ _ _ _ _ _ Hx1 Hx2') as Hx12.
    replace (k + Z.of_nat (S n)) with (k + 1 + Z.of_nat n) by lia.
    apply (IH s2 a2 o2 _ (k + 1) HV2); [by apply (Hext1 s2 o2 h)|by eapply grows_in_trans|by apply (vm_ext_root _ _ _ _ _ _ _ Hx2)|lia..|intros; apply Hnone; lia|].
    apply (grown_step r v k fl m s m1 s2 o o2 h c); [done|done|apply Hnone; lia|done|done|lia| |done].
    destruct Hx2 as [_ Hf2]. rewrite Hf2; [done|]. rewrite frames_held_cons, decide_True by done. lia.
  - rewrite decide_True by lia. destruct (kfree_run _ _ _ _ _ _ HV2) as (s3 & a3 & Hf & HV3 & _ & Hf3 & _).
    rewrite (bind_Ret _ _ _ _ _ Hf).
    assert (Hx3 : vm_ext s s3 o o2 m1 h).
    { apply (vm_ext_trans s s1 s3 o o o2); [done|]. apply (ext_weaken s1 s3 o o2 m1 m1 h (c :: h)); [|intros f; rewrite frames_held_cons; case_decide; lia].
      destruct Hx2 as [Ho2 Hf2]. split; [done|]. intros f Hff. by rewrite Hf3, Hf2. }
    destruct (Hundo s3 a3 o2 HV3 (Hext1 s3 o2 h ltac:(lia) Hx3) (grows_in_trans _ _ _ _ Hg0 Hg2)) as (s' & a' & Hrun' & HP); [by apply (vm_ext_root _ _ _ _ _ _ _ Hx2)|].
    by exists (-1), s', a', o2, m.
Qed.

Lemma uvmalloc_run s a o m h r va size v n perm :
  vm_rel s a o m h → is_root o r → 0 ≤ va → 0 ≤ size → va + size ≤ 2 ^ 38 →
  v = va / 4096 → n = (va + size + 4095) / 4096 - v → (∀ v', v ≤ v' < v + n → m !! (r, v') = None) →
  ∃ x s' a' o' m', uvmalloc r va size perm s = Ret (x, s') ∧ alloc_post s s' a' o o' m h r v n perm x m'.
Proof.
  intros HV Hr Hva Hsz Hle Hv Hn Hnone. unfold uvmalloc. rewrite PGROUNDDOWN_eq, <-Hv. rewrite u64_small by lia.
  rewrite PGROUNDUP_eq by lia.
  assert (Hn0 : 0 ≤ n). { subst v n. pose proof (Z.div_le_mono va (va + size + 4095) 4096 ltac:(lia) ltac:(lia)). lia. }
  assert (Hbd : v + n ≤ 2 ^ 26). { subst n. replace (v + _) with ((va + size + 4095) / 4096) by lia. pose proof (Z.div_le_mono (va + size + 4095) (2 ^ 38 + 4095) 4096 ltac:(lia) ltac:(lia)). change ((2 ^ 38 + 4095) / 4096) with (2 ^ 26) in *. lia. }
  replace ((va + size + 4095) / 4096) with (v + n) by lia.
  replace (((v + n) * 4096 - v * 4096) / PGSIZE) with n by (unfold PGSIZE; rewrite <-Z.mul_sub_distr_r, Z.div_mul by lia; lia).
  assert (Hv0 : 0 ≤ v) by (subst v; apply Z.div_pos; lia).
  destruct (uvmalloc_loop_run (Z.to_nat n) s o m s a o m h r v 0 perm HV (vm_ext_refl _ _ _ _) (grows_in_refl _ _) Hr Hv0) as (x & s' & a' & o' & m' & Hrun & HP);
    [lia|lia|intros; apply Hnone; lia| |].
  - split; [done|lia].
  - exists x, s', a', o', m'. rewrite Z.add_0_r, Z.add_0_l, Z2Nat.id in * by done. done.
Qed.

(** ** Tables that come and go *)

(** The kernel's half of a root is outside the relation. *)
Lemma pt_write_upper (s : st) o m p r q i e :
  pt_rel s o m → o !! p = Some (r, 2, q) → 256 ≤ i < 512 → 0 ≤ e < 2 ^ 64 → pt_rel (upd s p i e) o m.
Proof.
  intros HR Hp Hi He.
  assert (Hent : ∀ p' i', 0 ≤ i' → entry (upd s p i e) p' i' = if decide (p' = p ∧ i' = i) then Some e else entry s p' i').
  { intros. apply (entry_upd s o m p (r, 2, q)); [done|done|lia|done]. }
  assert (Hlow : ∀ p' r' l' q' i', o !! p' = Some (r', l', q') → 0 ≤ i' → (l' = 2 → i' < 256) → entry (upd s p i e) p' i' = entry s p' i').
  { intros p' r' l' q' i' Hp' Hi' Hl'. rewrite Hent, decide_False; [done| |done]. intros [-> ->]. rewrite Hp in Hp'.
    injection Hp' as _ <- _. specialize (Hl' eq_refl). lia. }
  split.
  - intros p' y. apply (upd_table s o m p (r, 2, q)); [done|done|lia|done].
  - apply HR.
  - apply HR.
  - intros p' r' l' q' i' e' Hp' Hl Hi' Hi2. rewrite (Hlow p' r' l' q') by (done || lia). by apply HR.
  - intros c r' l' q' Hc Hl. destruct (pt_parent _ _ _ HR c r' l' q' Hc Hl) as (p' & e' & Hp' & He' & Hv & Hf).
    exists p', e'. split; [done|]. split; [|done]. rewrite (Hlow p' r' (l' + 1) (q' / 512)); [done|done|apply Z.mod_pos_bound; lia|].
    intros Hl2. destruct (pt_level _ _ _ HR c r' l' q' Hc) as (_ & Hq & Hq1 & _). specialize (Hq1 ltac:(lia)). rewrite Z.mod_small; lia.
  - intros r' v e'. rewrite (pt_leaf _ _ _ HR r' v e').
    split; intros (Hv & p' & Hp' & He' & Hb); (split; [done|]); exists p'; (split; [done|]);
      rewrite (Hlow p' r' 0 (v / 512)) in * by (done || lia || (apply Z.mod_pos_bound; lia)); done.
  - intros p' r' l' q' i' e' Hp' Hl Hi' Hi2. rewrite (Hlow p' r' l' q') by (done || lia). by apply (pt_bare _ _ _ HR p' r' l' q').
Qed.

(** A root without mappings. *)
Lemma pt_add_root (s : st) o m c l :
  pt_rel s o m → o !! c = None → frame_ok c → tables s !! c = Some l → length l = 512%nat → Forall (λ e, 0 ≤ e < 2 ^ 64) l →
  (∀ i, 0 ≤ i < 256 → entry s c i = Some 0) → pt_rel s (<[c := (c, 2, 0)]> o) m.
Proof.
  intros HR Hoc Hc Hl Hlen Hall Hz. split.
  - intros p x. rewrite lookup_insert. destruct (decide (c = p)) as [<-|Hne]; [|apply HR]. intros _. split; [done|]. by exists l.
  - intros p r q. rewrite lookup_insert. destruct (decide (c = p)) as [<-|Hne]; [|apply HR]. by intros [= <- <-].
  - intros p r lv q. rewrite lookup_insert. destruct (decide (c = p)) as [<-|Hne]; [|apply HR]. intros [= <- <- <-]. lia.
  - intros p r lv q i e. rewrite lookup_insert. destruct (decide (c = p)) as [<-|Hne].
    + intros [= <- <- <-] _ Hi Hi2. rewrite Hz by lia. intros [= <-]. by rewrite Z.bits_0.
    + intros Hp Hlv Hi Hi2 He Hb. pose proof (pt_child _ _ _ HR p r lv q i e Hp Hlv Hi Hi2 He Hb). rewrite lookup_insert_ne by congruence. done.
  - intros c' r lv q. rewrite lookup_insert. destruct (decide (c = c')) as [<-|Hne]; [intros [= <- <- <-]; lia|].
    intros Hc' Hlv. destruct (pt_parent _ _ _ HR c' r lv q Hc' Hlv) as (p & e & Hp & He). exists p, e.
    rewrite lookup_insert_ne by congruence. done.
  - intros r v e. rewrite (pt_leaf _ _ _ HR r v e). split; intros (Hv & p & Hp & He); (split; [done|]); exists p.
    + rewrite lookup_insert_ne by congruence. done.
    + rewrite lookup_insert in Hp. destruct (decide (c = p)) as [<-|Hne]; [done|]. done.
  - intros p r lv q i e. rewrite lookup_insert. destruct (decide (c = p)) as [<-|Hne]; [|apply (pt_bare _ _ _ HR)].
    intros [= <- <- <-] _ Hi Hi2. rewrite Hz by lia. intros [= <-]. by rewrite Z.bits_0.
Qed.

(** A root that no table belongs to any more. *)
Lemma pt_drop_root (s : st) o m r :
  pt_rel s o m → (∀ p r' l q, o !! p = Some (r', l, q) → r' = r → p = r) → o !! r = Some (r, 2, 0) → pt_rel s (delete r o) m.
Proof.
  intros HR Honly Hr. split.
  - intros p x [_ Hp]%lookup_delete_Some. by apply (pt_table _ _ _ HR p x).
  - intros p r' q [_ Hp]%lookup_delete_Some. by apply (pt_root _ _ _ HR p r' q).
  - intros p r' l q [_ Hp]%lookup_delete_Some. by apply (pt_level _ _ _ HR p r' l q).
  - intros p r' l q i e [Hne Hp]%lookup_delete_Some Hl Hi Hi2 He Hb. pose proof (pt_child _ _ _ HR p r' l q i e Hp Hl Hi Hi2 He Hb) as Hch.
    rewrite lookup_delete_ne; [done|]. intros Heq. rewrite <-Heq, Hr in Hch. injection Hch as <- Hl2 _.
    destruct (pt_level _ _ _ HR p r l q Hp). lia.
  - intros c r' l q [Hne Hc]%lookup_delete_Some Hl. destruct (pt_parent _ _ _ HR c r' l q Hc Hl) as (p & e & Hp & He).
    exists p, e. split; [|done]. rewrite lookup_delete_ne; [done|]. intros <-. rewrite Hr in Hp. injection Hp as <- _ _.
    apply Hne. symmetry. by apply (Honly c r l q).
  - intros r' v e. rewrite (pt_leaf _ _ _ HR r' v e). split; intros (Hv & p & Hp & He); (split; [done|]); exists p; (split; [|done]).
    + rewrite lookup_delete_ne; [done|]. intros <-. rewrite Hr in Hp. done.
    + by apply lookup_delete_Some in Hp as [_ ?].
  - intros p r' l q i e [_ Hp]%lookup_delete_Some. by apply (pt_bare _ _ _ HR p r' l q).
Qed.

(** A table without children and without mappings, taken out of its parent. *)
Lemma pt_drop_table (s : st) o m p r l q i e :
  pt_rel s o m → o !! p = Some (r, l, q) → 0 < l → 0 ≤ i < 512 → (l = 2 → i < 256) → entry s p i = Some e → Z.testbit e 0 = true →
  (∀ c r' l' q', o !! c = Some (r', l', q') → ¬ (r' = r ∧ l' + 2 = l ∧ q' / 512 = q * 512 + i)) →
  (l = 1 → ∀ v, v / 512 = q * 512 + i → m !! (r, v) = None) →
  pt_rel (upd s p i 0) (delete (pte_frame e) o) m.
Proof.
  intros HR Hp Hl Hi Hi2 He Hb Hnc Hnl. set (c := pte_frame e).
  pose proof (pt_child _ _ _ HR p r l q i e Hp Hl Hi Hi2 He Hb) as Hoc. fold c in Hoc.
  assert (Hent : ∀ p' i', 0 ≤ i' → entry (upd s p i 0) p' i' = if decide (p' = p ∧ i' = i) then Some 0 else entry s p' i').
  { intros. by apply (entry_upd s o m p (r, l, q)). }
  destruct (pt_level _ _ _ HR p r l q Hp) as (Hlr & _).
  split.
  - intros p' y [_ Hp']%lookup_delete_Some. by apply (upd_table s o m p (r, l, q) i 0 p' y).
  - intros p' r' q' [_ Hp']%lookup_delete_Some. by apply (pt_root _ _ _ HR p' r' q').
  - intros p' r' l' q' [_ Hp']%lookup_delete_Some. by apply (pt_level _ _ _ HR p' r' l' q').
  - intros p' r' l' q' i' e' [Hne Hp']%lookup_delete_Some Hl' Hi' Hi2'. rewrite Hent by lia. case_decide as Hd.
    { intros [= <-]. by rewrite Z.bits_0. }
    intros He' Hb'. pose proof (pt_child _ _ _ HR p' r' l' q' i' e' Hp' Hl' Hi' Hi2' He' Hb') as Hch.
    rewrite lookup_delete_ne; [done|]. intros Heq. apply Hd. rewrite <-Heq, Hoc in Hch. injection Hch as <- Hll Hqi.
    assert (l' = l) as -> by lia. apply (vpn_split q' i' _ Hi') in Hqi. destruct (proj1 (vpn_split q i _ Hi) eq_refl) as [H1 H2].
    rewrite H1, H2 in Hqi. destruct Hqi as [<- <-]. split; [|done].
    assert (l = 1 ∨ l = 2) as [->| ->] by lia; [by eapply owner_inj1|].
    destruct (pt_root _ _ _ HR p r q Hp) as [<- _]. by destruct (pt_root _ _ _ HR p' r q Hp') as [<- _].
  - intros c' r' l' q' [Hne Hc']%lookup_delete_Some Hl'. destruct (pt_parent _ _ _ HR c' r' l' q' Hc' Hl') as (p' & e' & Hp' & He' & Hv' & Hf').
    exists p', e'. assert (Hpc : p' ≠ c).
    { intros ->. rewrite Hoc in Hp'. injection Hp' as <- Hll Hqq. apply (Hnc c' r l' q' Hc'). split; [done|]. split; [lia|done]. }
    rewrite lookup_delete_ne by done. split; [done|]. rewrite Hent by (apply Z.mod_pos_bound; lia).
    rewrite decide_False; [done|]. intros [-> Hii]. rewrite Hii in He'. apply Hne. unfold c. congruence.
  - intros r' v e'. rewrite (pt_leaf _ _ _ HR r' v e'). assert (Hmod := Z.mod_pos_bound v 512 ltac:(lia)).
    split; intros (Hv & p' & Hp' & He' & Hb'); (split; [done|]); exists p'.
    + assert (p' ≠ c).
      { intros ->. rewrite Hoc in Hp'. injection Hp' as <- Hll Hqq.
        assert (Hsome : m !! (r, v) = Some e').
        { apply (pt_leaf _ _ _ HR). split; [done|]. exists c. rewrite Hoc. split; [do 2 f_equal; [f_equal; lia|lia]|done]. }
        rewrite Hnl in Hsome; [done|lia|lia]. }
      rewrite lookup_delete_ne by done. split; [done|]. rewrite Hent, decide_False by (lia || (intros [-> _]; rewrite Hp in Hp'; injection Hp'; lia)). done.
    + apply lookup_delete_Some in Hp' as [_ Hp']. split; [done|].
      rewrite Hent, decide_False in He' by (lia || (intros [-> _]; rewrite Hp in Hp'; injection Hp'; lia)). done.
  - intros p' r' l' q' i' e' [Hne Hp']%lookup_delete_Some Hl' Hi' Hi2'. rewrite Hent by lia. case_decide as Hd.
    { intros [= <-]. by rewrite Z.bits_0. }
    by apply (pt_bare _ _ _ HR p' r' l' q').
Qed.

Lemma own_free_table (s : st) a o m h c x :
  own_rel s a o m h → o !! c = Some x →
  ∃ p' a', pp_exec (Op_free c) (vm_pages s) = Ret (0, p') ∧ own_rel (set_vm_pages p' s) a' (delete c o) m h.
Proof.
  intros HO Hc. destruct (own_table _ _ _ _ _ HO c x Hc) as [Hown Hcm].
  destruct (pp_step _ a (Op_free c) 0 (mk_pool (c :: pool_free a) (delete c (pool_owned a))) (own_pool _ _ _ _ _ HO)) as (p' & Hex & Hrel').
  { simpl. by rewrite Hown. }
  exists p', (mk_pool (c :: pool_free a) (delete c (pool_owned a))). split; [done|]. split; simpl; [done| | |].
  - intros p y [Hne Hp]%lookup_delete_Some. rewrite lookup_delete_ne by done. by apply (own_table _ _ _ _ _ HO p y).
  - intros f Hf. assert (c ≠ f) by (intros ->; lia). rewrite lookup_delete_ne by done. by apply (own_frame _ _ _ _ _ HO f).
  - intros f n [Hne Hf]%lookup_delete_Some. rewrite lookup_delete_ne by done. by apply (own_only _ _ _ _ _ HO f n).
Qed.

(** kfree of a table page. *)
Lemma kfree_table (s : st) p' c : pp_exec (Op_free c) (vm_pages s) = Ret (0, p') → kfree c s = Ret (tt, set_vm_pages p' s).
Proof. intros Hex. unfold kfree, zoom, mbind, K_bind. by rewrite Hex. Qed.

(** The tables of [o] but those in [K]. *)
Definition without (K : Z * Z * Z → Prop) (o o' : owner) : Prop := ∀ p x, o' !! p = Some x ↔ o !! p = Some x ∧ ¬ K x.

Lemma without_nothing o : without (λ _, False) o o.
Proof. intros p x. tauto. Qed.
Lemma without_ext K K' o o' : (∀ p x, o !! p = Some x → K x ↔ K' x) → without K o o' → without K' o o'.
Proof. intros HK Hw p x. rewrite (Hw p x). split; intros [Hp Hn]; (split; [done|]); rewrite <-?(HK p x Hp), ?(HK p x Hp) in *; done. Qed.

Lemma same_pages_rel (s s' : st) a o m h : vm_rel s a o m h → tables s' = tables s → frames s' = frames s → vm_pages s' = vm_pages s → vm_rel s' a o m h.
Proof. intros HV Ht Hf Hp. replace s' with s; [done|]. destruct s, s'; simpl in *; congruence. Qed.

(** A table of last-level entries none of which is valid. *)
Lemma freewalk_leaf (s : st) a o m h c r q :
  vm_rel s a o m h → o !! c = Some (r, 0, q) → (∀ v, v / 512 = q → m !! (r, v) = None) → freewalk 1 c s = kfree c s.
Proof.
  intros [HR _] Hc Hnl. cbn [freewalk]. destruct (pt_level _ _ _ HR c r 0 q Hc) as (_ & Hq & _).
  destruct (forM_seq (λ _ t, t = s) (λ i, e ← read_pte (c + 8 * i);
        if has e PTE_V && bool_decide (Z.land e (Z.lor (Z.lor PTE_R PTE_W) PTE_X) = 0)
        then freewalk 0 (PA2VA (PTE2PA e)) ;; write_pte (c + 8 * i) 0 else mret tt) 0 512 s) as (s' & Hrun & ->); [lia| |done|].
  - intros i t Hi ->. destruct (entry_Some s o m c _ i HR Hc ltac:(lia)) as (e & He & _). exists s. split; [|done].
    rewrite (bind_Ret _ _ _ _ _ (read_pte_run s o m c _ i e HR Hc ltac:(lia) He)). rewrite has_V.
    destruct (Z.testbit e 0) eqn:Hb; [|done]. exfalso.
    destruct (proj1 (vpn_split q i (q * 512 + i) ltac:(lia)) eq_refl) as [H1 H2].
    assert (m !! (r, q * 512 + i) = Some e) as Hm; [|by rewrite Hnl in Hm].
    apply (pt_leaf _ _ _ HR). split; [lia|]. exists c. rewrite H1, H2. done.
  - change (0 + 512 - 0) with 512 in Hrun. by rewrite (bind_Ret _ _ _ _ _ Hrun).
Qed.

(** The body of a round that frees the table under one entry: [free] is the
    work on the child up to its last kfree. *)
Lemma drop_child (s : st) a o m h p r l q i e :
  vm_rel s a o m h → o !! p = Some (r, l, q) → 0 < l → 0 ≤ i < 512 → (l = 2 → i < 256) → entry s p i = Some e → Z.testbit e 0 = true →
  (∀ c r' l' q', o !! c = Some (r', l', q') → ¬ (r' = r ∧ l' + 2 = l ∧ q' / 512 = q * 512 + i)) →
  (l = 1 → ∀ v, v / 512 = q * 512 + i → m !! (r, v) = None) →
  ∃ s' a', (kfree (pte_frame e) ;; write_pte (p + 8 * i) 0 : K st unit) s = Ret (tt, s') ∧
    vm_rel s' a' (delete (pte_frame e) o) m h ∧ frames s' = frames s ∧
    (∀ p' i', 0 ≤ i' → entry s' p' i' = if decide (p' = p ∧ i' = i) then Some 0 else entry s p' i').
Proof.
  intros HV Hp Hl Hi Hi2 He Hb Hnc Hnl. pose proof HV as [HR HO].
  destruct (own_free_table s a o m h (pte_frame e) _ HO (pt_child _ _ _ HR p r l q i e Hp Hl Hi Hi2 He Hb)) as (p' & a' & Hex & HO').
  rewrite (bind_Ret _ _ _ _ _ (kfree_table s p' _ Hex)).
  assert (HR' : pt_rel (set_vm_pages p' s) o m) by (by destruct HR; split).
  exists (upd (set_vm_pages p' s) p i 0), a'. split; [by apply (write_pte_run _ o m p _ i 0 HR' Hp)|]. split; [|split; [done|]].
  - split; [by apply (pt_drop_table _ o m p r l q i e)|]. destruct HO'. by split.
  - intros p2 i2 Hi2'. by rewrite (entry_upd _ o m p _ i 0 p2 i2 HR' Hp Hi Hi2').
Qed.

Definition fw_round (depth : nat) (p i : Z) : K st unit :=
  e ← read_pte (p + 8 * i);
  if has e PTE_V && bool_decide (Z.land e (Z.lor (Z.lor PTE_R PTE_W) PTE_X) = 0) then
    freewalk depth (PA2VA (PTE2PA e)) ;; write_pte (p + 8 * i) 0
  else mret tt.
Lemma freewalk_S depth p : freewalk (S depth) p = (forM (seqZ 0 512) (fw_round depth p) ;; kfree p : K st unit).
Proof. done. Qed.
Lemma fw_round_skip (s : st) o m p x i e d :
  pt_rel s o m → o !! p = Some x → 0 ≤ i < 512 → entry s p i = Some e → Z.testbit e 0 = false → fw_round d p i s = Ret (tt, s).
Proof.
  intros HR Hp Hi He Hb. unfold fw_round. rewrite (bind_Ret _ _ _ _ _ (read_pte_run s o m p x i e HR Hp Hi He)). by rewrite has_V, Hb.
Qed.
Lemma fw_round_child (s : st) o m p r l q i e d :
  pt_rel s o m → o !! p = Some (r, l, q) → 0 < l → 0 ≤ i < 512 → (l = 2 → i < 256) → entry s p i = Some e → Z.testbit e 0 = true →
  fw_round d p i s = (freewalk d (pte_frame e) ;; write_pte (p + 8 * i) 0 : K st unit) s.
Proof.
  intros HR Hp Hl Hi Hi2 He Hb. unfold fw_round. rewrite (bind_Ret _ _ _ _ _ (read_pte_run s o m p _ i e HR Hp Hi He)).
  rewrite has_V, Hb. rewrite bool_decide_true; [done|]. by apply (pt_bare _ _ _ HR p r l q i e).
Qed.

(** The level-0 tables under one table of level 1. *)
Lemma freewalk_middle (s : st) a o m h p r q :
  vm_rel s a o m h → o !! p = Some (r, 1, q) → (∀ v, m !! (r, v) = None) →
  ∃ s' a' o', forM (seqZ 0 512) (fw_round 1 p) s = Ret (tt, s') ∧ vm_rel s' a' o' m h ∧ frames s' = frames s ∧
    without (λ x, x.1.1 = r ∧ x.1.2 = 0 ∧ x.2 / 512 = q) o o' ∧
    ∀ p' i, p' ≠ p → 0 ≤ i → entry s' p' i = entry s p' i.
Proof.
  intros HV Hp Hnl.
  destruct (forM_seq (λ j t, ∃ a' o', vm_rel t a' o' m h ∧ frames t = frames s ∧
      without (λ x, x.1.1 = r ∧ x.1.2 = 0 ∧ x.2 / 512 = q ∧ x.2 mod 512 < j) o o' ∧
      ∀ p' i, p' ≠ p → 0 ≤ i → entry t p' i = entry s p' i) (fw_round 1 p) 0 512 s) as (s' & Hrun & a' & o' & HV' & Hf' & Hw' & He');
    [lia| | |].
  - intros j t Hj (a1 & o1 & HV1 & Hf1 & Hw1 & He1). pose proof HV1 as [HR1 _].
    assert (Hp1 : o1 !! p = Some (r, 1, q)) by (apply Hw1; split; [done|]; simpl; lia).
    destruct (entry_Some t o1 m p _ j HR1 Hp1 ltac:(lia)) as (e & He & _). destruct (Z.testbit e 0) eqn:Hb.
    + rewrite (fw_round_child t o1 m p r 1 q j e 1 HR1 Hp1 ltac:(lia) ltac:(lia) ltac:(lia) He Hb).
      pose proof (pt_child _ _ _ HR1 p r 1 q j e Hp1 ltac:(lia) ltac:(lia) ltac:(lia) He Hb) as Hc. change (1 - 1) with 0 in Hc.
      assert (Hfw : freewalk 1 (pte_frame e) t = kfree (pte_frame e) t) by (by eapply freewalk_leaf).
      destruct (drop_child t a1 o1 m h p r 1 q j e HV1 Hp1 ltac:(lia) ltac:(lia) ltac:(lia) He Hb) as (t' & a2 & Hrun & HV2 & Hf2 & He2); [|done|].
      { intros c r' l' q' Hc' (_ & Hl' & _). destruct (pt_level _ _ _ HR1 c r' l' q' Hc'). lia. }
      exists t'. split; [unfold mbind, K_bind in *; by rewrite Hfw|]. exists a2, (delete (pte_frame e) o1). split; [done|]. split; [by rewrite Hf2|].
      destruct (proj1 (vpn_split q j (q * 512 + j) ltac:(lia)) eq_refl) as [Hd Hm]. split.
      * intros c x. rewrite lookup_delete_Some, (Hw1 c x). split.
        -- intros (Hne & Ho & Hn). split; [done|]. intros (Hx1 & Hx2 & Hx3 & Hx4).
           destruct (decide (x.2 mod 512 = j)) as [Hej|]; [|apply Hn; split_and!; try done; lia].
           apply Hne. destruct x as [[r' l'] q']. simpl in *. subst r' l'.
           assert (q' = q * 512 + j) as -> by (apply vpn_split; [lia|done]).
           eapply owner_inj0; [exact HR1|exact Hc|]. apply Hw1. split; [done|]. simpl. lia.
        -- intros (Ho & Hn). split; [|split; [done|]].
           ++ intros <-. apply Hn. assert (Hox := proj1 (Hw1 _ _) Hc). destruct Hox as [Hox _]. rewrite Ho in Hox. injection Hox as ->. simpl. lia.
           ++ intros (Hx1 & Hx2 & Hx3 & Hx4). apply Hn. split_and!; try done. lia.
      * intros p' i Hne Hi. rewrite He2 by done. rewrite decide_False by tauto. by apply He1.
    + exists t. split; [exact (fw_round_skip t o1 m p _ j e 1 HR1 Hp1 ltac:(lia) He Hb)|]. exists a1, o1.
      split; [done|]. split; [done|]. split; [|done]. intros c x. rewrite (Hw1 c x). split; intros [Ho Hn]; (split; [done|]).
      * intros (Hx1 & Hx2 & Hx3 & Hx4). destruct (decide (x.2 mod 512 = j)) as [Hej|]; [|apply Hn; split_and!; try done; lia].
        destruct x as [[r' l'] q']. simpl in *. subst r' l'.
        assert (Hc : o1 !! c = Some (r, 0, q')) by (apply Hw1; split; [done|simpl; lia]).
        destruct (pt_parent _ _ _ HR1 c r 0 q' Hc ltac:(lia)) as (p2 & e2 & Hp2 & Hen & Hv2 & _). rewrite Hx3, Hej in *.
        change (0 + 1) with 1 in Hp2. assert (p2 = p) as -> by (by eapply owner_inj1). congruence.
      * intros (Hx1 & Hx2 & Hx3 & Hx4). apply Hn. split_and!; try done. lia.
  - exists a, o. split; [done|]. split; [done|]. split; [|done]. intros c x. split; [intros Ho|by intros [? _]]. split; [done|].
    intros (_ & _ & _ & Hx). pose proof (Z.mod_pos_bound x.2 512). lia.
  - change (0 + 512 - 0) with 512 in Hrun. exists s', a', o'. split; [done|]. split; [done|]. split; [done|]. split; [|done].
    eapply without_ext; [|exact Hw']. intros c x _. simpl. pose proof (Z.mod_pos_bound x.2 512). split; [tauto|]. intros (? & ? & ?). split_and!; try done. lia.
Qed.

(** All tables of an address space without mappings. *)
Lemma freewalk_run (s : st) a o m h r :
  vm_rel s a o m h → is_root o r → (∀ v, m !! (r, v) = None) → (∀ i, 256 ≤ i < 512 → entry s r i = Some 0) →
  ∃ s' a' o', freewalk 3 r s = Ret (tt, s') ∧ vm_rel s' a' o' m h ∧ frames s' = frames s ∧ without (λ x, x.1.1 = r) o o'.
Proof.
  intros HV Hr Hnl Hup. set (gone := λ j (x : Z * Z * Z), x.1.1 = r ∧ (x.1.2 = 1 ∧ x.2 < j ∨ x.1.2 = 0 ∧ x.2 / 512 < j)).
  destruct (forM_seq (λ j t, ∃ a' o', vm_rel t a' o' m h ∧ frames t = frames s ∧ without (gone j) o o' ∧
      ∀ i, j ≤ i < 512 → entry t r i = entry s r i) (fw_round 2 r) 0 512 s) as (s' & Hrun & a' & o' & HV' & Hf' & Hw' & _); [lia| | |].
  - intros j t Hj (a1 & o1 & HV1 & Hf1 & Hw1 & He1). pose proof HV1 as [HR1 _].
    assert (Hr1 : o1 !! r = Some (r, 2, 0)) by (apply Hw1; split; [done|]; unfold gone; simpl; lia).
    destruct (entry_Some t o1 m r _ j HR1 Hr1 ltac:(lia)) as (e & He & _). destruct (Z.testbit e 0) eqn:Hb.
    + assert (Hj2 : j < 256).
      { destruct (decide (j < 256)); [done|]. rewrite He1, Hup in He by lia. injection He as <-. by rewrite Z.bits_0 in Hb. }
      rewrite (fw_round_child t o1 m r r 2 0 j e 2 HR1 Hr1 ltac:(lia) ltac:(lia) ltac:(lia) He Hb).
      pose proof (pt_child _ _ _ HR1 r r 2 0 j e Hr1 ltac:(lia) ltac:(lia) ltac:(lia) He Hb) as Hc. change (2 - 1) with 1 in Hc. rewrite Z.mul_0_l, Z.add_0_l in Hc.
      destruct (freewalk_middle t a1 o1 m h (pte_frame e) r j HV1 Hc Hnl) as (t2 & a2 & o2 & Hrun2 & HV2 & Hf2 & Hw2 & He2).
      assert (Hcr : pte_frame e ≠ r) by (intros Heq; rewrite Heq, Hr1 in Hc; done).
      assert (Hr2 : o2 !! r = Some (r, 2, 0)) by (apply Hw2; split; [done|]; simpl; lia).
      assert (Hee : entry t2 r j = Some e) by (rewrite He2 by (congruence || lia); done).
      destruct (drop_child t2 a2 o2 m h r r 2 0 j e HV2 Hr2 ltac:(lia) ltac:(lia) ltac:(lia) Hee Hb) as (t3 & a3 & Hrun3 & HV3 & Hf3 & He3); [|lia|].
      { intros c r' l' q' Hc' (-> & Hl' & Hq'). apply Hw2 in Hc' as [_ Hn]. apply Hn. simpl. split_and!; [done|lia|lia]. }
      exists t3. split; [rewrite freewalk_S, bind_assoc, (bind_Ret _ _ _ _ _ Hrun2); exact Hrun3|].
      exists a3, (delete (pte_frame e) o2). split; [done|]. split; [congruence|]. split.
      * intros c x. rewrite lookup_delete_Some, (Hw2 c x), (Hw1 c x). unfold gone. destruct x as [[r' l'] q']; simpl. split.
        -- intros (Hne & (Ho & Hn1) & Hn2). split; [done|]. intros (-> & [[-> Hq]|[-> Hq]]).
           ++ destruct (decide (q' = j)) as [->|]; [|apply Hn1; lia]. apply Hne. eapply owner_inj1; [exact HR1|exact Hc|].
              apply Hw1. split; [done|]. unfold gone. simpl. lia.
           ++ destruct (decide (q' / 512 = j)); [apply Hn2; done|apply Hn1; lia].
        -- intros (Ho & Hn). split; [|split; [split; [done|]|]].
           ++ intros <-. apply Hn. destruct (proj1 (Hw1 _ _) Hc) as [Hox _]. rewrite Ho in Hox. injection Hox as -> -> ->. lia.
           ++ intros (-> & Hor). apply Hn. split; [done|]. lia.
           ++ intros (-> & -> & Hq). apply Hn. split; [done|]. lia.
      * intros i Hi. rewrite He3, decide_False by lia. rewrite He2 by (congruence || lia). apply He1. lia.
    + exists t. split; [exact (fw_round_skip t o1 m r _ j e 2 HR1 Hr1 ltac:(lia) He Hb)|]. exists a1, o1.
      assert (Hno1 : ∀ c, o1 !! c ≠ Some (r, 1, j)).
      { intros c Hc. destruct (pt_level _ _ _ HR1 c r 1 j Hc) as (_ & _ & Hq & _). specialize (Hq eq_refl).
        destruct (pt_parent _ _ _ HR1 c r 1 j Hc ltac:(lia)) as (p2 & e2 & Hp2 & Hen & Hv2 & _). rewrite Z.mod_small in Hen by lia.
        destruct (pt_root _ _ _ HR1 p2 r _ Hp2) as [<- _]. congruence. }
      split; [done|]. split; [done|]. split; [|intros i Hi; apply He1; lia].
      intros c x. rewrite (Hw1 c x). unfold gone. destruct x as [[r' l'] q']; simpl. split; intros [Ho Hn]; (split; [done|]).
      * intros (-> & Hor). assert (Hc : o1 !! c = Some (r, l', q')) by (apply Hw1; split; [done|]; unfold gone; simpl; tauto).
        destruct Hor as [[-> Hq]|[-> Hq]].
        -- destruct (decide (q' = j)) as [->|]; [by apply (Hno1 c)|]. apply Hn. split; [done|lia].
        -- destruct (decide (q' / 512 = j)) as [Heq|]; [|apply Hn; split; [done|lia]].
           destruct (pt_parent _ _ _ HR1 c r 0 q' Hc ltac:(lia)) as (p2 & e2 & Hp2 & _). rewrite Heq in Hp2. by apply (Hno1 p2).
      * intros (-> & Hor). apply Hn. split; [done|]. lia.
  - exists a, o. split; [done|]. split; [done|]. split; [|done]. intros c x. split; [intros Ho|by intros [? _]]. split; [done|].
    unfold gone. destruct x as [[r' l'] q']. simpl. intros (-> & Hor). destruct HV as [HR _]. destruct (pt_level _ _ _ HR c r l' q' Ho) as (_ & Hq & _).
    pose proof (Z.div_pos q' 512). lia.
  - change (0 + 512 - 0) with 512 in Hrun. pose proof HV' as [HR' HO'].
    assert (Hr' : o' !! r = Some (r, 2, 0)) by (apply Hw'; split; [done|]; unfold gone; simpl; lia).
    assert (Honly : ∀ p r' l q, o' !! p = Some (r', l, q) → r' = r → p = r).
    { intros p r' l q Hp ->. pose proof (pt_level _ _ _ HR' p r l q Hp) as (Hl & Hq & Hq1 & Hq0). apply Hw' in Hp as Hp2. destruct Hp2 as [_ Hn].
      destruct (decide (l = 2)) as [->|Hne]; [by destruct (pt_root _ _ _ HR' p r q Hp)|]. exfalso. apply Hn. unfold gone. simpl. split; [done|].
      assert (l = 1 ∨ l = 0) as [->| ->] by lia; [left; split; [done|]; specialize (Hq1 eq_refl); lia|right; split; [done|]].
      specialize (Hq0 eq_refl). pose proof (Z.div_lt_upper_bound q 512 512). lia. }
    destruct (own_free_table s' a' o' m h r _ HO' Hr') as (p2 & a2 & Hex & HO2).
    exists (set_vm_pages p2 s'), a2, (delete r o'). split; [|split; [|split; [done|]]].
    + rewrite freewalk_S, (bind_Ret _ _ _ _ _ Hrun). by apply kfree_table.
    + split; [|done]. assert (HR2 : pt_rel (set_vm_pages p2 s') o' m) by (by destruct HR'; split). by apply pt_drop_root.
    + intros c x. rewrite lookup_delete_Some, (Hw' c x). destruct x as [[r' l] q]. unfold gone; simpl. split.
      * intros (Hne & Ho & Hn). split; [done|]. intros ->. apply Hne. symmetry. apply (Honly c r l q); [|done]. apply Hw'. done.
      * intros (Ho & Hn). split; [|split; [done|tauto]]. intros <-. rewrite Hr in Ho. by injection Ho as <- _ _.
Qed.

(** ** Making an address space *)

Lemma table_root (s : st) o m p r l q : pt_rel s o m → o !! p = Some (r, l, q) → is_root o r.
Proof.
  intros HR. assert (H2 : ∀ p q, o !! p = Some (r, 2, q) → is_root o r).
  { intros p' q' Hp'. destruct (pt_root _ _ _ HR p' r q' Hp') as [-> ->]. done. }
  assert (H1 : ∀ p q, o !! p = Some (r, 1, q) → is_root o r).
  { intros p' q' Hp'. destruct (pt_parent _ _ _ HR p' r 1 q' Hp' ltac:(lia)) as (p2 & _ & Hp2 & _). by eapply H2. }
  intros Hp. destruct (pt_level _ _ _ HR p r l q Hp) as (Hl & _). assert (l = 2 ∨ l = 1 ∨ l = 0) as [->|[->| ->]] by lia; [by eapply H2|by eapply H1|].
  destruct (pt_parent _ _ _ HR p r 0 q Hp ltac:(lia)) as (p2 & _ & Hp2 & _). by eapply H1.
Qed.
Lemma no_root_no_leaf (s : st) o m r v : pt_rel s o m → o !! r = None → m !! (r, v) = None.
Proof.
  intros HR Hr. destruct (m !! (r, v)) as [e|] eqn:He; [|done]. apply (pt_leaf _ _ _ HR) in He as (_ & p & Hp & _).
  pose proof (table_root s o m p r 0 _ HR Hp) as Hi. unfold is_root in Hi. congruence.
Qed.

(** A fresh page zeroed and made a root. *)
Lemma root_table (s : st) a o m h c :
  vm_rel s a o m (c :: h) → frame_ok c → o !! c = None → mapped c m + held c h = 0 → pool_owned a !! c = Some 1 →
  ∃ s', table_zero c s = Ret (tt, s') ∧ vm_rel s' a (<[c := (c, 2, 0)]> o) m h ∧ vm_ext s s' o (<[c := (c, 2, 0)]> o) m h ∧
    ∀ p i, p ≠ c → entry s' p i = entry s p i.
Proof.
  intros [HR HO] Hc Hoc Hcm Hac.
  destruct (own_frame _ _ _ _ _ HO c) as (_ & b & Hb & _); [rewrite frames_held_cons, decide_True by done; lia|].
  set (s1 := mk_vm (vm_pages s) (<[c := zero_table]> (tables s)) (delete c (frames s))). exists s1.
  assert (Hent : ∀ p i, p ≠ c → entry s1 p i = entry s p i).
  { intros p i Hp. unfold entry. simpl. by rewrite lookup_insert_ne. }
  assert (HR1 : pt_rel s1 o m).
  { split; simpl.
    - intros p x Hp. rewrite lookup_insert_ne by congruence. by apply (pt_table _ _ _ HR p x).
    - apply HR.
    - apply HR.
    - intros p r lv q i e Hp ? ? ?. rewrite Hent by congruence. by apply HR.
    - intros c' r lv q Hc' Hlv. destruct (pt_parent _ _ _ HR c' r lv q Hc' Hlv) as (p & e & Hp & He & ?).
      exists p, e. rewrite Hent by congruence. done.
    - intros r v e. rewrite (pt_leaf _ _ _ HR r v e). split; intros (Hv & p & Hp & He & Hbt); (split; [done|]);
        exists p; (split; [done|]); rewrite Hent in * by congruence; done.
    - intros p r lv q i e Hp ? ? ?. rewrite Hent by congruence. by apply (pt_bare _ _ _ HR p r lv q). }
  split; [unfold table_zero; by rewrite Hb|]. split; [|split; [|done]].
  - split.
    + apply (pt_add_root s1 o m c zero_table); [done|done|done|simpl; by rewrite lookup_insert_eq|done|apply Forall_replicate; lia|].
      intros i Hi. apply zero_entry; [simpl; by rewrite lookup_insert_eq|lia].
    + split; simpl; [apply HO| | |].
      * intros p x. rewrite lookup_insert. destruct (decide (c = p)) as [<-|Hne]; [done|]. intros Hp.
        destruct (own_table _ _ _ _ _ HO p x Hp) as [? Hm]. split; [done|]. rewrite frames_held_cons, decide_False in Hm by done. lia.
      * intros f Hf. assert (c ≠ f) by (intros <-; lia). rewrite lookup_delete_ne by done.
        pose proof (own_frame _ _ _ _ _ HO f) as Hof. rewrite frames_held_cons, decide_False, Z.add_0_r in Hof by done. auto.
      * intros f n Hf. rewrite lookup_insert. destruct (decide (c = f)) as [<-|Hne]; [by left|].
        destruct (own_only _ _ _ _ _ HO f n Hf) as [|Hl]; [by left|right]. rewrite frames_held_cons, decide_False in Hl by done. lia.
  - split; [by apply insert_subseteq|]. intros f Hf. simpl. rewrite lookup_delete_ne; [done|]. intros <-. lia.
Qed.

Lemma write_upper_run (s : st) a o m h p r q i e :
  vm_rel s a o m h → o !! p = Some (r, 2, q) → 256 ≤ i < 512 → 0 ≤ e < 2 ^ 64 →
  write_pte (p + 8 * i) e s = Ret (tt, upd s p i e) ∧ vm_rel (upd s p i e) a o m h.
Proof.
  intros [HR HO] Hp Hi He. split; [apply (write_pte_run s o m p _ i e HR Hp); lia|].
  split; [by apply (pt_write_upper s o m p r q)|]. destruct HO. by split.
Qed.

Lemma uvmcreate_run (s : st) a o m h kt :
  vm_rel s a o m h → is_root o kt → pool_free a ≠ [] →
  ∃ c s' a', uvmcreate kt s = Ret (c, s') ∧ o !! c = None ∧ c ≠ 0 ∧ vm_rel s' a' (<[c := (c, 2, 0)]> o) m h ∧
    vm_ext s s' o (<[c := (c, 2, 0)]> o) m h ∧ (∀ v, m !! (c, v) = None) ∧
    ∀ i, 256 ≤ i < 512 → entry s' c i = entry s kt i.
Proof.
  intros HV Hkt Hne. unfold uvmcreate.
  destruct (kalloc_run s a o m h HV) as [(s1 & _ & Hnil & _)|(c & l & s1 & Hk & Hc & Hoc & Hcm & Hz & HV1 & Hx1)]; [done|].
  rewrite (bind_Ret _ _ _ _ _ Hk). pose proof (frame_ok_pos c Hc). rewrite decide_False by lia.
  destruct (root_table s1 _ o m h c HV1 Hc Hoc Hcm) as (s2 & Hz2 & HV2 & Hx2 & He2); [simpl; apply lookup_insert_eq|].
  rewrite (bind_Ret _ _ _ _ _ Hz2). set (o' := <[c := (c, 2, 0)]> o) in *. set (a1 := mk_pool _ _) in *.
  assert (Hck : c ≠ kt) by (intros ->; unfold is_root in Hkt; congruence).
  assert (Hkt' : o' !! kt = Some (kt, 2, 0)) by (unfold o'; by rewrite lookup_insert_ne).
  assert (Hc' : o' !! c = Some (c, 2, 0)) by apply lookup_insert_eq.
  assert (Hks : ∀ i, entry s1 kt i = entry s kt i).
  { intros i. revert Hk. unfold kalloc, zoom. kunfold. destruct (pp_exec Op_alloc _) as [[c1 p1]| | |]; try done.
    case_decide; intros Hk; injection Hk as Hcc <-; [lia|]. subst c1. unfold entry. simpl. by rewrite lookup_delete_ne. }
  destruct (forM_seq (λ j t, vm_rel t a1 o' m h ∧ frames t = frames s2 ∧ (∀ i, 0 ≤ i → entry t kt i = entry s kt i) ∧
      ∀ i, 256 ≤ i < j → entry t c i = entry s kt i) (λ i, e ← read_pte (kt + 8 * i); write_pte (c + 8 * i) e) 256 256 s2)
    as (s3 & Hrun & HV3 & Hf3 & _ & He3); [lia| | |].
  - intros j t Hj (HVt & Hft & Hkte & Hce). pose proof HVt as [HRt _].
    destruct (entry_Some t o' m kt _ j HRt Hkt' ltac:(lia)) as (e & He & Her).
    rewrite (bind_Ret _ _ _ _ _ (read_pte_run t o' m kt _ j e HRt Hkt' ltac:(lia) He)).
    destruct (write_upper_run t a1 o' m h c c 0 j e HVt Hc' ltac:(lia) Her) as [Hw HVw]. exists (upd t c j e).
    assert (Hu : ∀ p i, 0 ≤ i → entry (upd t c j e) p i = if decide (p = c ∧ i = j) then Some e else entry t p i)
      by (intros; apply (entry_upd t o' m c _ j e _ _ HRt Hc'); lia).
    split; [done|]. split; [done|]. split; [done|]. split.
    + intros i Hi. rewrite Hu, decide_False by (done || (intros [? _]; congruence)). by apply Hkte.
    + intros i Hi. rewrite Hu by lia. case_decide as Hd; [|apply Hce; lia]. destruct Hd as [_ ->]. by rewrite <-Hkte, He by lia.
  - split; [done|]. split; [done|]. split; [|lia]. intros i Hi. rewrite He2 by done. apply Hks.
  - rewrite (bind_Ret _ _ _ _ _ Hrun). exists c, s3, a1. split; [done|]. split; [done|]. split; [lia|].
    split; [done|]. split; [|split; [|done]].
    + destruct (vm_ext_trans _ _ _ _ _ _ _ _ Hx1 Hx2) as [Ho Hf]. split; [done|]. intros f Hf0. by rewrite Hf3, Hf.
    + intros v. eapply no_root_no_leaf; [apply HV|done].
Qed.

(** ** Giving it back *)

Lemma clear_upper_run (s : st) a o m h r :
  vm_rel s a o m h → is_root o r →
  ∃ s', forM (seqZ 256 256) (λ i, write_pte (r + 8 * i) 0) s = Ret (tt, s') ∧ vm_rel s' a o m h ∧ frames s' = frames s ∧
    ∀ i, 256 ≤ i < 512 → entry s' r i = Some 0.
Proof.
  intros HV Hr.
  destruct (forM_seq (λ j t, vm_rel t a o m h ∧ frames t = frames s ∧ ∀ i, 256 ≤ i < j → entry t r i = Some 0)
    (λ i, write_pte (r + 8 * i) 0) 256 256 s) as (s' & Hrun & HV' & Hf & He); [lia| |split; [done|split; [done|lia]]|].
  - intros j t Hj (HVt & Hft & Het). destruct (write_upper_run t a o m h r r 0 j 0 HVt Hr ltac:(lia) ltac:(lia)) as [Hw HVw].
    exists (upd t r j 0). split; [done|]. split; [done|]. split; [done|]. intros i Hi.
    rewrite (entry_upd t o m r _ j 0 r i (vr_pt _ _ _ _ _ HVt) Hr) by lia. case_decide; [done|]. apply Het. lia.
  - exists s'. split; [exact Hrun|]. by split_and!.
Qed.

(** The user pages of [r] lie in the two ranges that uvmfree unmaps. *)
Definition laid_out (r heap_top stack_bottom stack_top : Z) (m : aspace) : Prop :=
  ∀ v e, m !! (r, v) = Some e → PTE_FLAGS e ≠ PTE_V ∧
    (v * 4096 < heap_top ∨ stack_bottom ≤ v * 4096 < stack_top).

Lemma unmap_top (s : st) a o m h r lo hi :
  vm_rel s a o m h → is_root o r → 0 ≤ lo → lo mod 4096 = 0 → hi ≤ 2 ^ 38 →
  ∃ s' a' m', (if decide (hi > lo) then uvmunmap r lo (i32 (PGROUNDUP (u64 (hi - lo)) / PGSIZE)) true else mret tt : K st unit) s = Ret (tt, s') ∧
    vm_rel s' a' o m' h ∧ frames s' = frames s ∧
    ∀ r' v, m' !! (r', v) = match m !! (r', v) with
                            | Some e => if decide (r' = r ∧ lo ≤ v * 4096 < hi ∧ PTE_FLAGS e ≠ PTE_V) then None else Some e
                            | None => None end.
Proof.
  intros HV Hr Hlo Hal Hhi. case_decide as Hgt.
  - rewrite u64_small by lia. rewrite PGROUNDUP_eq by lia. unfold PGSIZE. rewrite Z.div_mul by lia.
    set (n := (hi - lo + 4095) / 4096). set (v := lo / 4096).
    assert (Hlv : lo = v * 4096) by (pose proof (Z.div_mod lo 4096); unfold v; lia).
    assert (Hn : 0 ≤ n ∧ hi - lo ≤ n * 4096 < hi - lo + 4096).
    { unfold n. pose proof (Z.div_mod (hi - lo + 4095) 4096). pose proof (Z.mod_pos_bound (hi - lo + 4095) 4096). lia. }
    assert (Hv0 : 0 ≤ v) by (apply Z.div_pos; lia).
    assert (Hb : v + n ≤ 2 ^ 26) by lia.
    rewrite i32_small by lia. rewrite Hlv.
    destruct (uvmunmap_run s a o m h r v n HV Hr Hv0 (proj1 Hn) Hb) as (s' & a' & Hrun & HV' & Hf).
    exists s', a', (unmap_range (Z.to_nat n) r v m). split; [done|]. split; [done|]. split; [done|].
    intros r' v'. rewrite unmap_range_lookup, Z2Nat.id by lia. destruct (m !! (r', v')); [|done]. apply decide_ext.
    split; intros (-> & Hin & Hfl); (split; [done|]); (split; [lia|done]).
  - exists s, a, m. split; [done|]. split; [done|]. split; [done|]. intros r' v. destruct (m !! (r', v)); [|done]. by rewrite decide_False by lia.
Qed.

(** uvmfree unmaps and frees every page of the address space and all its
    tables. *)
Lemma uvmfree_run (s : st) a o m h r p :
  vm_rel s a o m h → is_root o r → 0 ≤ heap_top p ≤ 2 ^ 38 → 0 ≤ stack_bottom p → stack_bottom p mod 4096 = 0 → stack_top p ≤ 2 ^ 38 →
  laid_out r (heap_top p) (stack_bottom p) (stack_top p) m →
  ∃ s' a' o' m', uvmfree r p s = Ret (tt, s') ∧ vm_rel s' a' o' m' h ∧ frames s' = frames s ∧ without (λ x, x.1.1 = r) o o' ∧
    ∀ r' v, m' !! (r', v) = if decide (r' = r) then None else m !! (r', v).
Proof.
  intros HV Hr Hht Hsb Hal Hst HL. unfold uvmfree.
  destruct (unmap_top s a o m h r 0 (heap_top p) HV Hr ltac:(lia) ltac:(done) ltac:(lia)) as (s1 & a1 & m1 & Hrun1 & HV1 & Hf1 & Hm1).
  rewrite Z.sub_0_r, u64_small in Hrun1 by lia. rewrite (bind_Ret _ _ _ _ _ Hrun1).
  destruct (unmap_top s1 a1 o m1 h r (stack_bottom p) (stack_top p) HV1 Hr Hsb Hal Hst) as (s2 & a2 & m2 & Hrun2 & HV2 & Hf2 & Hm2).
  rewrite (bind_Ret _ _ _ _ _ Hrun2).
  destruct (clear_upper_run s2 a2 o m2 h r HV2 Hr) as (s3 & Hrun3 & HV3 & Hf3 & He3). rewrite (bind_Ret _ _ _ _ _ Hrun3).
  assert (Hm : ∀ r' v, m2 !! (r', v) = if decide (r' = r) then None else m !! (r', v)).
  { intros r' v. rewrite Hm2, Hm1. destruct (decide (r' = r)) as [->|Hne].
    - destruct (m !! (r, v)) as [e|] eqn:He; [|done]. destruct (HL v e He) as [Hfl Hin].
      destruct (entries_ok s a o m h _ e HV He) as (_ & _ & Hv). simpl in Hv.
      destruct (decide (r = r ∧ 0 ≤ v * 4096 < heap_top p ∧ PTE_FLAGS e ≠ PTE_V)) as [?|Hn]; [done|].
      rewrite decide_True; [done|]. split; [done|]. split; [|done]. destruct Hin as [?|?]; [|done]. exfalso. apply Hn. split_and!; try done; lia.
    - destruct (m !! (r', v)) as [e|]; [|done]. rewrite !decide_False by tauto. done. }
  destruct (freewalk_run s3 a2 o m2 h r HV3 Hr) as (s4 & a4 & o4 & Hrun4 & HV4 & Hf4 & Hw4); [intros v; by rewrite Hm, decide_True|done|].
  exists s4, a4, o4, m2. split; [done|]. split; [done|]. split; [congruence|]. by split.
Qed.

(** The pages in use are fixed by what the tables say. *)
Lemma owned_fixed (s s' : st) a a' o m h : vm_rel s a o m h → vm_rel s' a' o m h → pool_owned a' = pool_owned a.
Proof.
  assert (Hle : ∀ (s s' : st) a a', vm_rel s a o m h → vm_rel s' a' o m h → ∀ f n, pool_owned a !! f = Some n → pool_owned a' !! f = Some n).
  { intros s1 s2 a1 a2 [_ HO1] [_ HO2] f n Hf. destruct (own_only _ _ _ _ _ HO1 f n Hf) as [[x Hx]|Hl].
    - destruct (own_table _ _ _ _ _ HO1 f x Hx), (own_table _ _ _ _ _ HO2 f x Hx). congruence.
    - destruct (own_frame _ _ _ _ _ HO1 f Hl) as [H1 _], (own_frame _ _ _ _ _ HO2 f Hl) as [H2 _]. congruence. }
  intros HV HV'. apply map_eq. intros f. apply option_eq. intros n. split; [by apply (Hle s' s)|by apply (Hle s s')].
Qed.

(** ** Stores to pages that are mapped *)

Lemma walk_present (s : st) o m r v e :
  pt_rel s o m → is_root o r → m !! (r, v) = Some e →
  ∃ p0, walk r (v * 4096) false s = Ret (p0 + 8 * (v mod 512), s) ∧ 0 < p0 ∧ read_pte (p0 + 8 * (v mod 512)) s = Ret (e, s) ∧
    Z.testbit e 0 = true.
Proof.
  intros HR Hr Hm. pose proof Hm as Hl. apply (pt_leaf _ _ _ HR) in Hl as (Hv & p & Hp & _).
  destruct (pt_level _ _ _ HR p r 0 _ Hp) as (_ & _ & _ & Hq). specialize (Hq eq_refl).
  pose proof (Z.div_mod v 512). assert (Hmod := Z.mod_pos_bound v 512 ltac:(lia)).
  destruct (walk_find s o m r v HR Hr ltac:(lia)) as [(p0 & Hw & Hp0)|(_ & Hno)]; [|by destruct (Hno p)].
  destruct (leaf_entry s o m p0 r v e HR Hp0 Hm) as (He & Hb & _). exists p0. split; [done|].
  destruct (pt_table _ _ _ HR p0 _ Hp0) as (Hok & _). pose proof (frame_ok_pos p0 Hok). split; [lia|].
  split; [by apply (read_pte_run s o m p0 _ _ e HR Hp0 Hmod)|done].
Qed.

Lemma walk_addr_run (s : st) o m r v e :
  pt_rel s o m → is_root o r → m !! (r, v) = Some e → walk_addr r (v * 4096) s = Ret (PTE2PA e, s).
Proof.
  intros HR Hr Hm. destruct (walk_present s o m r v e HR Hr Hm) as (p0 & Hw & Hp & Hrd & Hb).
  assert (Hmod : 0 ≤ v mod 512 < 512) by (apply Z.mod_pos_bound; lia).
  unfold walk_addr. rewrite (bind_Ret _ _ _ _ _ Hw). rewrite decide_False by lia.
  rewrite (bind_Ret _ _ _ _ _ Hrd). by rewrite has_V, Hb.
Qed.

(** Memory of [r] from [lo] to [hi] is mapped, page by page, to frames of its
    own whose entries satisfy [Q]. *)
Definition own_pages (r lo hi : Z) (Q : Z → Prop) (m : aspace) : Prop :=
  ∀ x, lo ≤ x < hi → ∃ e, m !! (r, x / 4096) = Some e ∧ mapped (pte_frame e) m = 1 ∧ Q e.

Lemma page_store_run (s : st) a o m h r dst l e :
  vm_rel s a o m h → m !! (r, dst / 4096) = Some e → mapped (pte_frame e) m = 1 → 0 ≤ dst → dst mod 4096 + Z.of_nat (length l) ≤ 4096 →
  ∃ b, frames s !! pte_frame e = Some b ∧
    let s' := set_frames (<[pte_frame e := splice (dst mod 4096) l b]> (frames s)) s in
    vm_rel s' a o m h ∧ views_kept r dst (dst + Z.of_nat (length l)) s m s' m ∧
    ∀ i, 0 ≤ i < Z.of_nat (length l) → user_byte s' m r (dst + i) = l !! Z.to_nat i.
Proof.
  intros HV He H1 Hd Hl. destruct (present_frame s a o m h _ e HV He) as (_ & b & Hb & Hlen). exists b. split; [done|].
  pose proof (Z.mod_pos_bound dst 4096). split; [|by apply views_write].
  apply (set_frame_rel s a o m h _ _ b HV Hb). rewrite splice_length; [done|lia].
Qed.

(** Two stores one after the other. *)
Lemma stores_join (s1 s2 s3 : st) m r dst n l k :
  0 ≤ n → n = Z.of_nat (length (take (Z.to_nat n) l)) → 0 ≤ k →
  views_kept r dst (dst + n) s1 m s2 m → (∀ i, 0 ≤ i < n → user_byte s2 m r (dst + i) = take (Z.to_nat n) l !! Z.to_nat i) →
  views_kept r (dst + n) (dst + n + k) s2 m s3 m → (∀ i, 0 ≤ i < k → user_byte s3 m r (dst + n + i) = drop (Z.to_nat n) l !! Z.to_nat i) →
  views_kept r dst (dst + (n + k)) s1 m s3 m ∧ ∀ i, 0 ≤ i < n + k → user_byte s3 m r (dst + i) = l !! Z.to_nat i.
Proof.
  intros Hn Hlen Hk Hv1 Hb1 Hv2 Hb2. split; [rewrite Z.add_assoc; eapply views_kept_trans; [exact Hv1|exact Hv2|lia]|].
  intros i Hi. destruct (decide (i < n)) as [Hlt|Hge].
  - assert (Hil : (Z.to_nat i < length l)%nat) by (rewrite length_take in Hlen; lia).
    destruct (lookup_lt_is_Some_2 l (Z.to_nat i) Hil) as [b Hb]. rewrite Hb. apply Hv2; [|lia].
    rewrite Hb1, lookup_take_lt by lia. done.
  - replace (dst + i) with (dst + n + (i - n)) by lia. rewrite Hb2 by lia. rewrite lookup_drop. f_equal. lia.
Qed.

Context (read_at : nat → Z → Z * list Z).

(** Pages that copyout stores to without a fault. *)
Definition stack_entry (e : Z) : Prop :=
  Z.testbit e 2 = true ∧ Z.testbit e 4 = true ∧ Z.testbit e 8 = false.

Lemma copyout_loop_mapped n (s : st) a o m h p r dst src :
  vm_rel s a o m h → is_root o r → 0 ≤ dst → dst + Z.of_nat (length src) ≤ 2 ^ 38 →
  own_pages r dst (dst + Z.of_nat (length src)) stack_entry m →
  dst mod 4096 + Z.of_nat (length src) ≤ Z.of_nat n * 4096 ∨ Z.of_nat (length src) = 0 →
  ∃ s', copyout_loop read_at n p r dst src s = Ret (0, s') ∧ vm_rel s' a o m h ∧
    views_kept r dst (dst + Z.of_nat (length src)) s m s' m ∧
    ∀ i, 0 ≤ i < Z.of_nat (length src) → user_byte s' m r (dst + i) = src !! Z.to_nat i.
Proof.
  revert s dst src. induction n as [|n IH]; intros s dst src HV Hr Hd Hlen HP Hfuel;
    pose proof (Z.mod_pos_bound dst 4096 ltac:(lia)) as Hmod; cbn [copyout_loop].
  { rewrite decide_False by lia. exists s. split; [done|]. split; [done|]. split; [by intros ? ? ? ? _|lia]. }
  case_decide as Hpos; [|exists s; split; [done|]; split; [done|]; split; [by intros ? ? ? ? _|lia]].
  destruct (round_size dst (Z.of_nat (length src)) Hd ltac:(lia)) as (Hoff & Hsz & Hfit & Hend).
  set (size := if decide (PGSIZE - (dst - PGROUNDDOWN dst) > Z.of_nat (length src)) then _ else _) in *.
  rewrite (PGROUNDDOWN_page dst (dst / 4096) eq_refl) in *. set (v := dst / 4096) in *.
  destruct (HP dst ltac:(lia)) as (e & He & H1 & HW & HU & HC). fold v in He.
  destruct (walk_present s o m r v e (vr_pt _ _ _ _ _ HV) Hr He) as (p0 & Hw & Hp0 & Hrd & HV0).
  assert (Hm512 := Z.mod_pos_bound v 512 ltac:(lia)).
  assert (Hup : user_pte read_at p r (v * 4096) s = Ret (Some (p0 + 8 * (v mod 512)), s)).
  { unfold user_pte. rewrite (bind_Ret _ _ _ _ _ Hw). rewrite decide_False by lia. rewrite (bind_Ret _ _ _ _ _ Hrd).
    rewrite bool_decide_false by lia. by rewrite has_V, HV0. }
  rewrite (bind_Ret _ _ _ _ _ Hup).
  assert (Hcw : has e PTE_COW = false) by (change PTE_COW with (2 ^ 8); by rewrite has_pow2 by lia).
  assert (Hcp : copyout_pte r (v * 4096) (p0 + 8 * (v mod 512)) s = Ret (Some e, s)).
  { unfold copyout_pte. rewrite decide_False by lia. rewrite (bind_Ret _ _ _ _ _ Hrd). rewrite Hcw, andb_false_r. rewrite bind_mret, decide_False by lia.
    rewrite bind_mret. by rewrite (bind_Ret _ _ _ _ _ Hrd). }
  rewrite (bind_Ret _ _ _ _ _ Hcp).
  assert (Hwu : Z.land e (Z.lor PTE_W PTE_U) = Z.lor PTE_W PTE_U).
  { apply Z.bits_inj'. intros i Hi. rewrite Z.land_spec. change (Z.lor PTE_W PTE_U) with (Z.lor (2 ^ 2) (2 ^ 4)).
    rewrite Z.lor_spec, !testbit_pow2 by lia. destruct (decide (i = 2)) as [->|]; [by rewrite HW|].
    destruct (decide (i = 4)) as [->|]; [by rewrite HU|]. rewrite !bool_decide_false by done. by rewrite andb_false_r. }
  rewrite has_V, HV0, Hwu, bool_decide_false by tauto. cbn [negb orb].
  destruct (present_frame s a o m h _ e HV He) as (Hfok & _).
  rewrite <-VA2PA_frame. destruct (VA2PA_range _ Hfok) as (_ & _ & _ & Hle). rewrite decide_False by lia. rewrite VA2PA_frame. fold (pte_frame e).
  set (chunk := take (Z.to_nat size) src). assert (Hchunk : Z.of_nat (length chunk) = size) by (unfold chunk; rewrite length_take; lia).
  destruct (page_store_run s a o m h r dst chunk e HV He H1 Hd ltac:(lia)) as (b & Hb & HV1 & Hkeep & Hsee). rewrite Hchunk in *.
  rewrite (bind_Ret _ _ s b s) by (unfold get_frame; by rewrite Hb). rewrite Hoff.
  match goal with |- context [modify ?f] => rewrite (bind_Ret _ _ s tt (f s)) by done end. cbv beta. set (s1 := set_frames _ s) in *.
  rewrite u64_small by lia.
  assert (Hdrop : Z.of_nat (length (drop (Z.to_nat size) src)) = Z.of_nat (length src) - size) by (rewrite length_drop; lia).
  destruct (IH s1 (dst + size) (drop (Z.to_nat size) src) HV1 Hr) as (s' & Hrun & HV' & Hk' & Hs'); [lia|lia| | |].
  - intros x Hx. apply HP. lia.
  - rewrite Hdrop. destruct Hfuel as [Hfuel|]; [|lia]. by apply fuel_step.
  - exists s'. split; [done|]. split; [done|]. rewrite Hdrop in *.
    destruct (stores_join s s1 s' m r dst size src (Z.of_nat (length src) - size)) as [? Hbytes]; [lia|done|lia|done|done|done|done|].
    replace (size + (Z.of_nat (length src) - size)) with (Z.of_nat (length src)) in * by lia. done.
Qed.

Lemma copyout_mapped (s : st) a o m h p r dst src :
  vm_rel s a o m h → is_root o r → 0 ≤ dst → dst + Z.of_nat (length src) ≤ 2 ^ 38 →
  own_pages r dst (dst + Z.of_nat (length src)) stack_entry m →
  ∃ s', copyout read_at p r dst src s = Ret (0, s') ∧ vm_rel s' a o m h ∧
    views_kept r dst (dst + Z.of_nat (length src)) s m s' m ∧
    ∀ i, 0 ≤ i < Z.of_nat (length src) → user_byte s' m r (dst + i) = src !! Z.to_nat i.
Proof. intros HV Hr Hd Hl HP. apply (copyout_loop_mapped _ s a o); [done..|]. left. apply copy_fuel_enough. lia. Qed.

(** ** Fresh pages beside those there were *)

Lemma grown_mapped r v n fl m (s' : st) m' f :
  grown r v n fl m s' m' → 0 ≤ fl < 1024 → (∀ v', v ≤ v' < v + n → m !! (r, v') = None) → 0 < mapped f m → mapped f m' = mapped f m.
Proof.
  intros HG Hfl Hnone Hf. unfold mapped. do 2 f_equal. apply map_eq. intros [r' v'].
  assert (Hk : ∃ k e, m !! k = Some e ∧ pte_frame e = f).
  { destruct (map_choose (filter (λ x : Z * Z * Z, pte_frame x.2 = f) m)) as (k & e & [Hk He]%map_lookup_filter_Some).
    - intros Hemp. unfold mapped in Hf. rewrite Hemp, map_size_empty in Hf. lia.
    - by exists k, e. }
  destruct Hk as (k & ek & Hk & Hek).
  assert (Hk' : m' !! k = Some ek).
  { destruct k as [rk vk]. rewrite (gr_out _ _ _ _ _ _ _ HG); [done|]. intros [-> Hin]. by rewrite Hnone in Hk. }
  destruct (decide (r' = r ∧ v ≤ v' < v + n)) as [[-> Hin]|Hout].
  - destruct (gr_in _ _ _ _ _ _ _ HG v' Hin) as (c & Hc & Hl & H1 & _).
    transitivity (None : option Z).
    + apply map_lookup_filter_None. right. intros e He Hef. rewrite Hl in He. injection He as <-. simpl in Hef.
      assert (Hne : (r, v') ≠ k) by (intros <-; by rewrite Hnone in Hk).
      pose proof (mapped_two m' _ _ _ _ Hl Hk' Hne ltac:(congruence)) as H2. rewrite mk_pte_frame in H2 by done. lia.
    + symmetry. apply map_lookup_filter_None. left. by apply Hnone.
  - apply option_eq. intros e. rewrite !map_lookup_filter_Some. by rewrite (gr_out _ _ _ _ _ _ _ HG).
Qed.

Lemma grown_mono r v n fl m (s' : st) m' : grown r v n fl m s' m' → (∀ v', v ≤ v' < v + n → m !! (r, v') = None) → m ⊆ m'.
Proof.
  intros HG Hnone. apply map_subseteq_spec. intros [r' v'] e He. rewrite (gr_out _ _ _ _ _ _ _ HG); [done|]. intros [-> Hin].
  by rewrite Hnone in He.
Qed.

Lemma ext_views (s s' : st) o o' m m' h r x : vm_ext s s' o o' m h → m ⊆ m' → views_kept r x x s m s' m'.
Proof. intros Hx Hm. by eapply views_grow. Qed.

(** The new pages read as zero. *)
Lemma grown_zero r v n fl m (s' : st) m' x :
  grown r v n fl m s' m' → 0 ≤ fl < 1024 → v ≤ x / 4096 < v + n → user_byte s' m' r x = Some 0.
Proof.
  intros HG Hfl Hx. destruct (gr_in _ _ _ _ _ _ _ HG _ Hx) as (c & Hc & Hl & _ & Hz). unfold user_byte. rewrite Hl. cbn [mbind option_bind].
  rewrite mk_pte_frame by done. rewrite Hz. cbn [mbind option_bind]. unfold zero_frame. apply lookup_replicate_2.
  pose proof (Z.mod_pos_bound x 4096). lia.
Qed.

(** Dropping the tables of a root that was not there leaves those there were. *)
Lemma without_new (s : st) o m c o1 o2 :
  pt_rel s o m → o !! c = None → o ⊆ o1 → grows_in c o o1 → without (λ x, x.1.1 = c) o1 o2 → o2 = o.
Proof.
  intros HR Hc Hsub Hg Hw. apply map_eq. intros p. apply option_eq. intros [[r l] q]. rewrite (Hw p). simpl. split.
  - intros [[Hp|Hx]%Hg Hne]; [done|by destruct Hne].
  - intros Hp. split; [by eapply lookup_weaken|]. intros ->. pose proof (table_root s o m p c l q HR Hp) as Hi.
    unfold is_root in Hi. congruence.
Qed.
Lemma grows_in_new r o : grows_in r o (<[r := (r, 2, 0)]> o).
Proof. intros p x [[<- <-]|[_ ?]]%lookup_insert_Some; [by right|by left]. Qed.

(** uvmfree run on an address space that was not there in [o] and [m]
    restores both. *)
Lemma uvmfree_back (s0 s : st) a o m h o1 m1 c p :
  pt_rel s0 o m → o !! c = None → o ⊆ o1 → grows_in c o o1 → vm_rel s a o1 m1 h → is_root o1 c →
  (∀ r v, r ≠ c → m1 !! (r, v) = m !! (r, v)) →
  0 ≤ heap_top p ≤ 2 ^ 38 → 0 ≤ stack_bottom p → stack_bottom p mod 4096 = 0 → stack_top p ≤ 2 ^ 38 →
  laid_out c (heap_top p) (stack_bottom p) (stack_top p) m1 →
  ∃ s' a', uvmfree c p s = Ret (tt, s') ∧ vm_rel s' a' o m h ∧ frames s' = frames s.
Proof.
  intros HR Hc Hsub Hg HV Hr Hm1 Hht Hsb Hal Hst HL.
  destruct (uvmfree_run s a o1 m1 h c p HV Hr Hht Hsb Hal Hst HL) as (s' & a' & o' & m' & Hrun & HV' & Hf & Hw & Hm').
  exists s', a'. split; [done|]. split; [|done]. rewrite (without_new s0 o m c o1 o' HR Hc Hsub Hg Hw) in HV'.
  replace m with m'; [done|]. apply map_eq. intros [r v]. rewrite Hm'. case_decide as Hd; [subst|by apply Hm1].
  symmetry. by apply (no_root_no_leaf s0 o m).
Qed.

(** * Theorems *)

(** uvmalloc maps a range that was not mapped to zeroed frames of its own,
    or fails and leaves every mapping as it was; nothing else changes. *)
Theorem uvmalloc_spec (s : st) a o m h r va size v n perm :
  vm_rel s a o m h → is_root o r → 0 ≤ va → 0 ≤ size → va + size ≤ 2 ^ 38 →
  v = va / 4096 → n = (va + size + 4095) / 4096 - v → (∀ v', v ≤ v' < v + n → m !! (r, v') = None) →
  ∃ x s' a' o' m', uvmalloc r va size perm s = Ret (x, s') ∧ vm_rel s' a' o' m' h ∧ vm_ext s s' o o' m h ∧ grows_in r o o' ∧
    (x = 0 ∧ grown r v n (pte_from_perm (Z.lor perm PTE_USER)) m s' m' ∨ x = -1 ∧ m' = m).
Proof. apply uvmalloc_run. Qed.

(** uvmfree on the address space of a process gives back every page it maps
    and every table page, and touches no other address space. *)
Theorem uvmfree_spec (s : st) a o m h r p :
  vm_rel s a o m h → is_root o r → 0 ≤ heap_top p ≤ 2 ^ 38 → 0 ≤ stack_bottom p → stack_bottom p mod 4096 = 0 → stack_top p ≤ 2 ^ 38 →
  laid_out r (heap_top p) (stack_bottom p) (stack_top p) m →
  ∃ s' a' o' m', uvmfree r p s = Ret (tt, s') ∧ vm_rel s' a' o' m' h ∧ frames s' = frames s ∧ without (λ x, x.1.1 = r) o o' ∧
    ∀ r' v, m' !! (r', v) = if decide (r' = r) then None else m !! (r', v).
Proof. apply uvmfree_run. Qed.

(** C22: An address space made by uvmcreate, filled by uvmalloc and given back
    by uvmfree leaves no page behind: whether or not the allocation succeeds,
    the pages in use afterwards and their reference counts are those before,
    and no byte of another address space changes. *)
Theorem space_roundtrip (s : st) a o m h kt va size perm p :
  vm_rel s a o m h → is_root o kt → pool_free a ≠ [] → 0 ≤ va → 0 ≤ size → va + size ≤ 2 ^ 38 →
  heap_top p = PGROUNDUP (va + size) → stack_top p ≤ stack_bottom p → 0 ≤ stack_bottom p → stack_bottom p mod 4096 = 0 → stack_top p ≤ 2 ^ 38 →
  ∃ x s' a', space_cycle kt va size perm p s = Ret (x, s') ∧
    vm_rel s' a' o m h ∧ pool_owned a' = pool_owned a ∧ (x = 0 ∨ x = -1) ∧
    ∀ r y b, user_byte s m r y = Some b → user_byte s' m r y = Some b.
Proof.
  intros HV Hkt Hne Hva Hsz Hle Hht Hst Hsb Hal Hst2. unfold space_cycle.
  destruct (uvmcreate_run s a o m h kt HV Hkt Hne) as (c & s1 & a1 & Hrun1 & Hoc & Hc0 & HV1 & Hx1 & Hnone & _).
  rewrite (bind_Ret _ _ _ _ _ Hrun1). set (o1 := <[c := (c, 2, 0)]> o) in *.
  assert (Hc1 : is_root o1 c) by apply lookup_insert_eq.
  destruct (uvmalloc_run s1 a1 o1 m h c va size _ _ perm HV1 Hc1 Hva Hsz Hle eq_refl eq_refl) as (x & s2 & a2 & o2 & m2 & Hrun2 & HV2 & Hx2 & Hg2 & Hres);
    [intros; apply Hnone|].
  rewrite (bind_Ret _ _ _ _ _ Hrun2). pose proof (PGROUNDUP_bounds (va + size) ltac:(lia)) as [Hup _].
  rewrite PGROUNDUP_eq in Hht, Hup by lia. assert (Hend : 0 ≤ heap_top p ≤ 2 ^ 38).
  { rewrite Hht. pose proof (Z.div_le_mono (va + size + 4095) (2 ^ 38 + 4095) 4096 ltac:(lia) ltac:(lia)).
    change ((2 ^ 38 + 4095) / 4096) with (2 ^ 26) in *. pose proof (Z.div_pos (va + size + 4095) 4096). lia. }
  assert (Hm2 : ∀ r v, r ≠ c → m2 !! (r, v) = m !! (r, v)).
  { intros r v Hr. destruct Hres as [[_ HG]|[_ ->]]; [|done]. apply (gr_out _ _ _ _ _ _ _ HG). by intros [? _]. }
  assert (HL : laid_out c (heap_top p) (stack_bottom p) (stack_top p) m2).
  { intros v e Hv. destruct Hres as [[_ HG]|[_ ->]]; [|by rewrite Hnone in Hv].
    destruct (decide (va / 4096 ≤ v < va / 4096 + ((va + size + 4095) / 4096 - va / 4096))) as [Hin|Hout].
    - destruct (gr_in _ _ _ _ _ _ _ HG v Hin) as (f & Hf & Hl & _). rewrite Hl in Hv. injection Hv as <-.
      split; [by apply user_flags_ne|]. left. rewrite Hht. lia.
    - rewrite (gr_out _ _ _ _ _ _ _ HG) in Hv by tauto. by rewrite Hnone in Hv. }
  assert (Hg : grows_in c o o2) by (eapply grows_in_trans; [apply grows_in_new|exact Hg2]).
  destruct (uvmfree_back s s2 a2 o m h o2 m2 c p (vr_pt _ _ _ _ _ HV) Hoc) as (s3 & a3 & Hrun3 & HV3 & Hf3); try done.
  { etrans; [apply Hx1|apply Hx2]. } { by apply (vm_ext_root _ _ _ _ _ _ _ Hx2). }
  rewrite (bind_Ret _ _ _ _ _ Hrun3). exists x, s3, a3. split; [done|]. split; [done|]. split; [by apply (owned_fixed s s3 _ _ o m h)|].
  split; [destruct Hres as [[-> _]|[-> _]]; tauto|]. intros r y b Hb.
  pose proof (vm_ext_trans _ _ _ _ _ _ _ _ Hx1 Hx2) as Hx. apply (ext_views s s3 o o2 m m h 0 0); [|done|done|lia].
  destruct Hx as [? Hf]. split; [done|]. intros f Hfm. by rewrite Hf3, Hf.
Qed.
End space.

(** ** Witnesses *)

#[local] Existing Instance demo_pool.

Definition three_roots : gmap Z (Z * Z * Z) := list_to_map ((λ r, (r, (r, 2, 0))) <$> [pg 0; pg 1; pg 2]).

Lemma uvmalloc_spec_witness : ∃ x s', uvmalloc (pg 0) 8192 10000 3 (demo_vm 12) = Ret (x, s').
Proof.
  destruct (uvmalloc_spec (demo_vm 12) _ three_roots ∅ [pg 3] (pg 0) 8192 10000 2 3 3 demo_rel (proj1 demo_root)) as (x & s' & _ & _ & _ & Hrun & _);
    [lia|lia|lia|done|done|done|]. by exists x, s'.
Defined.

Lemma uvmfree_spec_witness : ∃ s', uvmfree (pg 0) demo_uproc (demo_vm 12) = Ret (tt, s').
Proof.
  destruct (uvmfree_spec (demo_vm 12) _ three_roots ∅ [pg 3] (pg 0) demo_uproc demo_rel (proj1 demo_root)) as (s' & _ & _ & _ & Hrun & _);
    [simpl; lia|simpl; lia|done|simpl; lia|by intros v e He|]. by exists s'.
Defined.

Lemma space_roundtrip_witness : ∃ x s', space_cycle (pg 0) 8192 10000 3 (mk_uproc 0 0 20480 0 0 []) (demo_vm 12) = Ret (x, s').
Proof.
  destruct (space_roundtrip (demo_vm 12) _ three_roots ∅ [pg 3] (pg 0) 8192 10000 3 (mk_uproc 0 0 20480 0 0 []) demo_rel (proj1 demo_root))
    as (x & s' & _ & Hrun & _); [done|lia|lia|lia|done|done|simpl; lia|done|simpl; lia|]. by exists x, s'.
Defined.
