(* ===== verification/Mmap.v ===== *)
(** kernel/mm/mmap.c, do_mmap and do_munmap, and the loops of proc.c (fork,
    exit) and exec.c (free_pagetable_vma) over the areas of a process: the
    table of Vma, the page tables of Vm and the file table of File composed.

    The state is the three of them and the fields of the current process;
    [p] is its index in the process table and [stack0] the stack bottom of
    proc[0], which find_free_range reads.  The TLB flush has no effect on this
    state.  The abstract view of an address space is [backing]: what a page
    fault at an address would be served with. *)
From S2P Require Import Prelude Kalloc Vma Vm Path Pipe Vfs File.

Record mm_state (P N : Type) := mk_mm {
  mm_vm : vm_state P;
  mm_files : fstate N;
  mm_proc : uproc
}.
Arguments mk_mm {_ _} _ _ _.
Arguments mm_vm {_ _} _.
Arguments mm_files {_ _} _.
Arguments mm_proc {_ _} _.

Section mmap.
Context {P : Type} {PP : PagePool P} {N : Type} {FN : FileNodes N} {FP : FileNodesPut N}.
Abbreviation st := (mm_state P N).

Definition set_mm_vm v (s : st) : st := mk_mm v (mm_files s) (mm_proc s).
Definition set_mm_files f (s : st) : st := mk_mm (mm_vm s) f (mm_proc s).
Definition set_areas l (s : st) : st :=
  let p := mm_proc s in
  mk_mm (mm_vm s) (mm_files s)
    (mk_uproc (pagetable p) (heap_bottom p) (heap_top p) (stack_bottom p) (stack_top p) l).
Definition areas (s : st) : list vma := vm_area (mm_proc s).
Definition root (s : st) : Z := pagetable (mm_proc s).
Definition on_vm {A} (m : K (vm_state P) A) : K st A := zoom mm_vm set_mm_vm m.
Definition on_files {A} (m : K (fstate N) A) : K st A := zoom mm_files set_mm_files m.

(** [proc->vm_area[i]] *)
Definition get_area (i : nat) : K st vma := λ s,
  match areas s !! i with Some v => Ret (v, s) | None => Fault end.
Definition put_area (i : nat) (v : vma) : K st unit := modify (λ s, set_areas (<[i := v]> (areas s)) s).

Definition set_used (x : Z) (v : vma) : vma :=
  mk_vma x (va_start v) (va_end v) (vma_flags v) (file_offset v) (vm_page_prot v) (vma_file v).
Definition set_va_end (x : Z) (v : vma) : vma :=
  mk_vma (used v) (va_start v) x (vma_flags v) (file_offset v) (vm_page_prot v) (vma_file v).
(** The head of the area given up: the file offset moves with the start. *)
Definition trim_head (end_ : Z) (v : vma) : vma :=
  mk_vma (used v) end_ (va_end v) (vma_flags v)
    (match vma_file v with Some _ => u64 (file_offset v + u64 (end_ - va_start v)) | None => file_offset v end)
    (vm_page_prot v) (vma_file v).

(** ** Operations *)

Definition do_munmap (addr len : Z) : K st Z :=
  if decide (addr mod PGSIZE ≠ 0) then mret (- EINVAL) else
  if decide (addr = 0 ∨ len = 0) then mret (- EINVAL) else
  let len := PGROUNDUP len in
  let end_ := u64 (addr + len) in
  l ← gets areas;
  match find_overlapping_vma addr len l with
  | None => mret (- EINVAL)
  | Some i =>
      v ← get_area i;
      if decide (addr < va_start v ∨ end_ > va_end v) then mret (- EINVAL) else
      if decide (addr > va_start v ∧ end_ < va_end v) then mret (- EOPNOTSUPP) else
      pt ← gets root;
      on_vm (kvmunmap pt addr len true) ;;
      if decide (addr = va_start v ∧ end_ = va_end v) then
        match vma_file v with Some f => on_files (fileclose f) | None => mret tt end ;;
        put_area i (set_used 0 v) ;; mret 0
      else if decide (addr = va_start v) then put_area i (trim_head end_ v) ;; mret 0
      else if decide (end_ = va_end v) then put_area i (set_va_end addr v) ;; mret 0
      else mret 0
  end.

(** The argument checks of do_mmap: an error, or the page permissions and
    the file of the mapping. *)
Definition mmap_check (p addr len prot flags fd offset : Z) : K st (Z + Z * option nat) :=
  if decide (addr ≠ 0) then mret (inl (- EOPNOTSUPP)) else
  let pte := prot2pte prot in
  if decide (pte = 0) then mret (inl (- EINVAL)) else
  if decide (Z.land offset (PGSIZE - 1) ≠ 0) then mret (inl (- EINVAL)) else
  if decide (len = 0) then mret (inl (- EINVAL)) else
  if decide (Z.land flags MAP_TYPE ≠ MAP_PRIVATE) then mret (inl (- EOPNOTSUPP)) else
  if has flags MAP_ANONYMOUS then
    if decide (fd ≠ -1 ∨ offset ≠ 0) then mret (inl (- EINVAL)) else mret (inr (pte, None))
  else if negb (fd_ok fd) then mret (inl (- EBADF)) else
  if has prot PROT_WRITE then mret (inl (- EOPNOTSUPP)) else
  o ← on_files (get_fd p fd);
  match o with None => mret (inl (- EBADF)) | Some f => mret (inr (pte, Some f)) end.

(** The result is a uint64: an error is the negated number as a word. *)
Definition do_mmap (stack0 p addr len prot flags fd offset : Z) : K st Z :=
  c ← mmap_check p addr len prot flags fd offset;
  match c with
  | inl e => mret (u64 e)
  | inr (pte, file) =>
      sb ← gets (stack_bottom ∘ mm_proc);
      l ← gets areas;
      match find_free_range stack0 sb (PGROUNDUP len) l with
      | None => mret (u64 (- ENOMEM))
      | Some (i, l') =>
          modify (set_areas l') ;;
          v ← get_area i;
          f ← match file with Some f => g ← on_files (filedup f); mret (Some g) | None => mret None end;
          put_area i (mk_vma 1 (va_start v) (va_end v) flags
                        (match file with Some _ => offset | None => file_offset v end) pte f) ;;
          mret (va_start v)
      end
  end.

(** proc.c exit, exec.c free_pagetable_vma: one round of the loop. *)
Definition free_area (pagetable : Z) (i : Z) : K st unit :=
  v ← get_area (Z.to_nat i);
  if decide (used v = 0) then mret tt else
  let len := u64 (va_end v - va_start v) in
  on_vm (kvmunmap pagetable (va_start v) len true) ;;
  match vma_file v with Some f => on_files (fileclose f) | None => mret tt end ;;
  put_area (Z.to_nat i) (set_used 0 v).
Definition free_pagetable_vma (pagetable : Z) : K st unit :=
  forM (seqZ 0 NVMA) (free_area pagetable).

(** proc.c fork, the areas of the child: one round of the loop over the areas
    [l] of the parent.  The state is the file table and the child's areas. *)
Definition fork_area (l : list vma) (i : Z) : K (fstate N * list vma) unit :=
  match l !! Z.to_nat i with
  | None => kfault
  | Some v =>
      if decide (used v = 1) then
        modify (λ s, (s.1, <[Z.to_nat i := v]> s.2)) ;;
        match vma_file v with
        | None => mret tt
        | Some f =>
            g ← zoom fst (λ t s, (t, s.2)) (filedup f);
            modify (λ s, (s.1, <[Z.to_nat i := mk_vma (used v) (va_start v) (va_end v) (vma_flags v)
                                   (file_offset v) (vm_page_prot v) (Some g)]> s.2))
        end
      else mret tt
  end.
Definition fork_areas (l : list vma) : K (fstate N * list vma) unit := forM (seqZ 0 NVMA) (fork_area l).

(** ** The address space as page faults see it *)

Definition in_area (b : Z) (v : vma) : Prop := used v ≠ 0 ∧ va_start v ≤ b < va_end v.
#[global] Instance in_area_dec b v : Decision (in_area b v).
Proof. unfold in_area. apply _. Defined.

(** The file and the offset in it that a page of the area shows, if any, and
    the permissions it is mapped with. *)
Definition area_backing (v : vma) (b : Z) : option (nat * Z) * Z :=
  ((λ f, (f, u64 (file_offset v + (b - va_start v)))) <$> vma_file v, vm_page_prot v).
Definition backing (l : list vma) (b : Z) : option (option (nat * Z) * Z) :=
  (λ x, area_backing x.2 b) <$> list_find (in_area b) l.

(** The files the areas hold a reference to. *)
Definition area_file (v : vma) : option nat := if decide (used v = 0) then None else vma_file v.
Definition area_files (l : list vma) : list nat := omap area_file l.

Record mm_inv (s : st) (a : pool) (o : gmap Z (Z * Z * Z)) (m : gmap (Z * Z) Z) (h : list Z) (fh : list nat) : Prop := {
  mi_areas : vma_inv (areas s);
  mi_vm : vm_rel (mm_vm s) a o m h;
  mi_root : is_root o (root s);
  mi_files : file_inv (mm_files s) (area_files (areas s) ++ fh)
}.

(** asm/machine.h *)
Definition USER_VA_TOP : Z := 2 ^ 38.
(** Every area ends in the user half. *)
Definition user_areas (l : list vma) : Prop := Forall (λ v, used v ≠ 0 → va_end v ≤ 2 ^ 38) l.

(** [addr, end_) is an edge of one area: its head, its tail or all of it. *)
Definition edge_of (addr end_ : Z) (v : vma) : Prop :=
  used v ≠ 0 ∧ va_start v ≤ addr ∧ end_ ≤ va_end v ∧ (addr = va_start v ∨ end_ = va_end v).
#[global] Instance edge_of_dec addr end_ v : Decision (edge_of addr end_ v).
Proof. unfold edge_of. apply _. Defined.
Definition at_edge (l : list vma) (addr end_ : Z) : Prop := Exists (edge_of addr end_) l.
#[global] Instance at_edge_dec l addr end_ : Decision (at_edge l addr end_).
Proof. unfold at_edge. apply _. Defined.

(** * Lemmas *)

(** ** Areas *)

Lemma backing_Some l i v b :
  areas_disjoint l → l !! i = Some v → in_area b v → backing l b = Some (area_backing v b).
Proof.
  intros Hd Hi Hin. unfold backing. destruct (list_find (in_area b) l) as [[j w]|] eqn:Hf.
  - apply list_find_Some in Hf as (Hj & Hw & _). destruct (decide (i = j)) as [->|Hne]; [by simplify_eq|].
    unfold in_area in *. destruct (Hd i j v w Hi Hj Hne) as [|]; [tauto|tauto|lia..].
  - apply list_find_None in Hf. exfalso. by apply (Forall_lookup_1 _ _ _ _ Hf Hi).
Qed.

Lemma backing_None l b : (∀ i v, l !! i = Some v → ¬ in_area b v) → backing l b = None.
Proof.
  intros Hno. unfold backing. destruct (list_find (in_area b) l) as [[j w]|] eqn:Hf; [|done].
  apply list_find_Some in Hf as (Hj & Hw & _). by destruct (Hno j w).
Qed.

(** A page no changed area contains keeps its backing. *)
Lemma backing_insert_out l i v v' b :
  areas_disjoint l → areas_disjoint (<[i := v']> l) → l !! i = Some v → ¬ in_area b v → ¬ in_area b v' →
  backing (<[i := v']> l) b = backing l b.
Proof.
  intros Hd Hd' Hi Hv Hv'. unfold backing at 2. destruct (list_find (in_area b) l) as [[j w]|] eqn:Hf; simpl.
  - apply list_find_Some in Hf as (Hj & Hw & _). assert (i ≠ j) by (intros ->; by simplify_eq).
    apply (backing_Some _ j); [done|by rewrite list_lookup_insert_ne|done].
  - apply list_find_None in Hf. apply backing_None. intros j w. rewrite list_lookup_insert.
    case_decide as Hc; [destruct Hc as [-> _]; by intros [= <-]|]. intros Hj. by apply (Forall_lookup_1 _ _ _ _ Hf Hj).
Qed.

Lemma backing_insert_in l i v' b :
  areas_disjoint (<[i := v']> l) → (i < length l)%nat → in_area b v' →
  backing (<[i := v']> l) b = Some (area_backing v' b).
Proof. intros Hd Hi Hin. apply (backing_Some _ i); [done|by apply list_lookup_insert_eq|done]. Qed.

Lemma area_files_insert l i v v' :
  l !! i = Some v →
  ∃ rest, area_files l ≡ₚ option_list (area_file v) ++ rest ∧
    area_files (<[i := v']> l) ≡ₚ option_list (area_file v') ++ rest.
Proof.
  intros Hi. exists (area_files (take i l ++ drop (S i) l)). pose proof (lookup_lt_Some _ _ _ Hi).
  rewrite <-(take_drop_middle l i v Hi) at 1. rewrite insert_take_drop by done.
  unfold area_files. rewrite !omap_app. simpl. by destruct (area_file v), (area_file v'); simpl; rewrite ?Permutation_middle.
Qed.

(** The areas after one of them shrinks: still disjoint and well formed. *)
Lemma shrink_inv l i v v' :
  vma_inv l → l !! i = Some v → area_ok v' →
  (used v' ≠ 0 → used v ≠ 0 ∧ va_start v ≤ va_start v' ∧ va_end v' ≤ va_end v) → vma_inv (<[i := v']> l).
Proof.
  intros HI Hi Hok Hs. apply (insert_area_inv l i v v'); [done..|].
  intros j w Hj Hne Hw Hv'. destruct (Hs Hv') as (Hv & H1 & H2).
  destruct (vi_disj _ HI i j v w Hi Hj) as [|]; [congruence|done|done|left; lia|right; lia].
Qed.

Lemma mm_area_ok l i v : vma_inv l → l !! i = Some v → area_ok v.
Proof. intros HI Hi. by apply (Forall_lookup_1 _ _ _ _ (vi_ok _ HI) Hi). Qed.

(** A range inside an area is found in it. *)
Lemma find_overlapping_inside l i v addr len :
  vma_inv l → l !! i = Some v → used v ≠ 0 → va_start v ≤ addr → 0 < len → addr + len ≤ va_end v →
  find_overlapping_vma addr len l = Some i.
Proof.
  intros HI Hi Hu Hs Hl He. destruct (mm_area_ok l i v HI Hi Hu) as (_ & _ & Hr & Hb).
  unfold find_overlapping_vma. rewrite decide_True by lia. apply fmap_Some. exists (i, v). split; [|done].
  apply list_find_Some. unfold overlaps. rewrite u64_small by lia. split_and!; [done|done|lia|lia|].
  intros j w Hj Hlt (Hw & H1 & H2). destruct (vi_disj _ HI i j v w Hi Hj) as [|]; [lia|done|done|lia|lia].
Qed.

Lemma round_pages len : 0 < len < 2 ^ 64 - 4095 →
  PGROUNDUP len = (len + 4095) / 4096 * 4096 ∧ len ≤ PGROUNDUP len < len + 4096 ∧ PGROUNDUP len mod 4096 = 0.
Proof.
  intros Hl. split; [apply PGROUNDUP_eq; lia|]. apply PGROUNDUP_bounds. lia.
Qed.

Lemma round_wraps len : 2 ^ 64 - 4095 ≤ len < 2 ^ 64 → PGROUNDUP len = 0.
Proof.
  intros Hl. unfold PGROUNDUP. change PGSIZE with (2 ^ 12). rewrite ALIGN_UP_pow2 by lia.
  replace (u64 (len + 2 ^ 12 - 1)) with (len + 4095 - 2 ^ 64).
  - rewrite Z.div_small; lia.
  - unfold u64. symmetry. rewrite <-(Z.mod_add _ (-1)), Z.mod_small; lia.
Qed.

(** ** Unmapping *)

Lemma kvmunmap_run s a o m h r va len :
  vm_rel s a o m h → is_root o r → va mod 4096 = 0 → len mod 4096 = 0 → 0 ≤ va → 0 ≤ len → va + len ≤ 2 ^ 38 →
  ∃ s' a', kvmunmap r va len true s = Ret (tt, s') ∧
    vm_rel s' a' o (unmap_range (Z.to_nat (len / 4096)) r (va / 4096) m) h ∧ frames s' = frames s.
Proof.
  intros HV Hr Hva Hlen H0 H1 Hb. unfold kvmunmap. rewrite decide_False by (unfold PGSIZE; tauto).
  rewrite u64_small by lia. pose proof (Z.div_mod va 4096). pose proof (Z.div_mod len 4096).
  pose proof (unmap_loop_run (Z.to_nat (len / 4096)) s a o m h r (va / 4096) HV Hr ltac:(lia) ltac:(lia)) as Hrun.
  replace (va / 4096 * 4096) with va in Hrun by lia.
  replace ((va / 4096 + Z.of_nat (Z.to_nat (len / 4096))) * 4096) with (va + len) in Hrun by lia. exact Hrun.
Qed.

Lemma on_vm_run {A} (m : K (vm_state P) A) (s : st) x v : m (mm_vm s) = Ret (x, v) → on_vm m s = Ret (x, set_mm_vm v s).
Proof. apply zoom_Ret. Qed.
Lemma on_files_run {A} (m : K (fstate N) A) (s : st) x f : m (mm_files s) = Ret (x, f) → on_files m s = Ret (x, set_mm_files f s).
Proof. apply zoom_Ret. Qed.

Lemma put_area_run s i v : put_area i v s = Ret (tt, set_areas (<[i := v]> (areas s)) s).
Proof. done. Qed.

(** The file of an area is closed and the area's slot freed. *)
Lemma drop_area_run s a o m h fh i v :
  mm_inv s a o m h fh → areas s !! i = Some v → used v ≠ 0 →
  ∃ f', (match vma_file v with Some f => on_files (fileclose f) | None => mret tt end ;; put_area i (set_used 0 v)) s =
    Ret (tt, set_areas (<[i := set_used 0 v]> (areas s)) (set_mm_files f' s)) ∧
    file_inv f' (area_files (<[i := set_used 0 v]> (areas s)) ++ fh).
Proof.
  intros HI Hi Hu. destruct (area_files_insert (areas s) i v (set_used 0 v) Hi) as (rest & H1 & H2).
  pose proof (mi_files _ _ _ _ _ _ HI) as HF. unfold area_file in H1, H2. simpl in H2.
  rewrite decide_False in H1 by done.
  destruct (vma_file v) as [f|]; simpl in H1.
  - assert (HF' : file_inv (mm_files s) (f :: (rest ++ fh))) by (eapply inv_perm; [|exact HF]; by rewrite H1).
    destruct (fileclose_run _ _ _ HF') as (f' & Hrun & Hf' & _). exists f'. split.
    + by rewrite (bind_Ret _ _ _ _ _ (on_files_run _ s _ _ Hrun)).
    + eapply inv_perm; [|exact Hf']. by rewrite H2.
  - exists (mm_files s). split; [by destruct s|]. eapply inv_perm; [|exact HF]. by rewrite H1, H2.
Qed.

(** An area replaced by one that holds the same file. *)
Lemma keep_files s fh i v v' :
  file_inv (mm_files s) (area_files (areas s) ++ fh) → areas s !! i = Some v → area_file v' = area_file v →
  file_inv (mm_files s) (area_files (<[i := v']> (areas s)) ++ fh).
Proof.
  intros HF Hi Hv. destruct (area_files_insert (areas s) i v v' Hi) as (rest & H1 & H2).
  eapply inv_perm; [|exact HF]. by rewrite H1, H2, Hv.
Qed.

(** The invariant and the backing after the pages are unmapped and area [i]
    becomes [v'], which covers what is left of it. *)
Lemma munmap_finish s a o m h fh i v v' vs fs addr e a' m' :
  mm_inv s a o m h fh → areas s !! i = Some v → used v ≠ 0 →
  vm_rel vs a' o m' h → file_inv fs (area_files (<[i := v']> (areas s)) ++ fh) →
  va_start v ≤ addr → e ≤ va_end v → area_ok v' →
  (∀ b, in_area b v' ↔ in_area b v ∧ ¬ (addr ≤ b < e)) →
  (used v' ≠ 0 → va_start v ≤ va_start v' ∧ va_end v' ≤ va_end v) →
  (∀ b, in_area b v' → area_backing v' b = area_backing v b) →
  mm_inv (set_areas (<[i := v']> (areas s)) (mk_mm vs fs (mm_proc s))) a' o m' h fh ∧
  ∀ b, backing (<[i := v']> (areas s)) b = if decide (addr ≤ b < e) then None else backing (areas s) b.
Proof.
  intros HI Hi Hu HV HF Hs He Hok Hin Hsub Hbk. pose proof (mi_areas _ _ _ _ _ _ HI) as HA.
  pose proof (lookup_lt_Some _ _ _ Hi) as Hlt.
  assert (HA' : vma_inv (<[i := v']> (areas s))) by (apply (shrink_inv _ i v); [done..|]; intros Hv'; by destruct (Hsub Hv')).
  split; [split; [done|done|apply HI|done]|]. intros b.
  destruct (decide (in_area b v)) as [Hb|Hb].
  - destruct (decide (addr ≤ b < e)) as [Hr|Hr].
    + apply backing_None. intros j w. rewrite list_lookup_insert. case_decide as Hc; [intros [= <-] [_ []]%Hin; done|].
      intros Hj Hw. assert (i ≠ j) by (intros ->; apply Hc; lia). unfold in_area in *.
      destruct (vi_disj _ HA i j v w Hi Hj) as [|]; [done|tauto|tauto|lia|lia].
    + assert (Hb' : in_area b v') by (by apply Hin).
      rewrite (backing_insert_in _ _ _ _ (vi_disj _ HA') Hlt Hb'), Hbk by done.
      symmetry. by apply (backing_Some _ i); [apply HA|..].
  - rewrite decide_False by (unfold in_area in Hb; lia).
    apply (backing_insert_out _ i v); [apply HA|apply HA'|done|done|by intros [? _]%Hin].
Qed.

Lemma do_munmap_fail s addr len :
  addr mod 4096 = 0 → 0 ≤ addr < 2 ^ 64 → 0 < len < 2 ^ 64 →
  ¬ at_edge (areas s) addr (addr + (len + 4095) / 4096 * 4096) →
  ∃ r, do_munmap addr len s = Ret (r, s) ∧ (r = - EINVAL ∨ r = - EOPNOTSUPP).
Proof.
  intros Hal Ha Hl Hno. unfold do_munmap. rewrite decide_False by (unfold PGSIZE; tauto).
  case_decide; [by eauto|]. kunfold. destruct (find_overlapping_vma _ _ _) as [i|] eqn:Hf; [|by eauto].
  unfold find_overlapping_vma in Hf. rewrite decide_True in Hf by lia.
  apply fmap_Some in Hf as ([j v] & Hf & ->). apply list_find_Some in Hf as (Hj & (Hu & H1 & H2) & _). simpl in *.
  unfold get_area. rewrite Hj. destruct (decide (_ ∨ _)) as [|Hb]; [by eauto|].
  destruct (decide (_ ∧ _)) as [|Hm]; [by eauto|]. exfalso. apply Hno. apply Exists_exists.
  exists v. split; [by eapply list_elem_of_lookup_2|]. unfold edge_of. pose proof (u64_range (addr + PGROUNDUP len)).
  destruct (decide (2 ^ 64 - 4095 ≤ len)) as [Hw|Hw].
  - rewrite round_wraps, Z.add_0_r, u64_small in * by lia. lia.
  - destruct (round_pages len) as (Hr & Hr1 & _); [lia|]. destruct (decide (addr + PGROUNDUP len < 2 ^ 64)) as [Hs|Hs].
    + rewrite u64_small in * by lia. lia.
    + assert (u64 (addr + PGROUNDUP len) = addr + PGROUNDUP len - 2 ^ 64); [|lia].
      unfold u64. rewrite <-(Z.mod_add _ (-1)), Z.mod_small; lia.
Qed.

Lemma do_munmap_ok s a o m h fh addr len :
  mm_inv s a o m h fh → addr mod 4096 = 0 → 0 < len →
  let n := (len + 4095) / 4096 in
  at_edge (areas s) addr (addr + n * 4096) → addr + n * 4096 ≤ 2 ^ 38 →
  ∃ s' a', do_munmap addr len s = Ret (0, s') ∧
     mm_inv s' a' o (unmap_range (Z.to_nat n) (root s) (addr / 4096) m) h fh ∧
     ∀ b, backing (areas s') b = if decide (addr ≤ b < addr + n * 4096) then None else backing (areas s) b.
Proof.
  intros HI Hal Hl n He HU. pose proof (mi_areas _ _ _ _ _ _ HI) as HA.
  apply Exists_exists in He as (v & (i & Hi)%list_elem_of_lookup & Hu & Hs & Hend & Hedge).
  destruct (mm_area_ok _ i v HA Hi Hu) as (Hs4 & He4 & Hpos & Hb39).
  unfold PGSIZE in Hs4, He4. pose proof (Z.div_mod (len + 4095) 4096). pose proof (Z.mod_pos_bound (len + 4095) 4096).
  destruct (round_pages len) as (Hr & Hr1 & Hr4); [lia|]. 
  assert (Hn : n * 4096 = PGROUNDUP len) by (unfold n; lia). rewrite Hn in *.
  unfold do_munmap. rewrite decide_False by (unfold PGSIZE; tauto). rewrite decide_False by lia.
  rewrite bind_gets, (find_overlapping_inside _ i v) by (done || lia).
  rewrite (bind_Ret _ _ s v s) by (unfold get_area; by rewrite Hi).
  rewrite u64_small by lia. rewrite decide_False by lia. rewrite decide_False by lia. rewrite bind_gets.
  destruct (kvmunmap_run (mm_vm s) a o m h (root s) addr (PGROUNDUP len)) as (vs & a' & Hk & HV & _);
    [apply HI|apply HI|done|done|lia|lia|lia|].
  replace (PGROUNDUP len / 4096) with n in HV by (rewrite <-Hn, Z.div_mul; lia).
  rewrite (bind_Ret _ _ _ _ _ (on_vm_run _ s _ _ Hk)).
  destruct (decide (addr = va_start v ∧ _)) as [[E1 E2]|Hnw].
  - assert (HI' : mm_inv (set_mm_vm vs s) a' o (unmap_range (Z.to_nat n) (root s) (addr / 4096) m) h fh)
      by (split; [apply HI|done|apply HI|apply HI]).
    destruct (drop_area_run _ _ _ _ _ fh i v HI' Hi Hu) as (fs & Hd & HF).
    eexists _, a'. split;
      [etrans; [symmetry; apply (bind_assoc _ (λ _, put_area i (set_used 0 v)) (λ _, mret 0))|by rewrite (bind_Ret _ _ _ _ _ Hd)]|].
    apply (munmap_finish s a o m h fh i v (set_used 0 v)); try done.
    unfold in_area. simpl. lia.
  - destruct (decide (addr = va_start v)) as [E|E].
    + eexists _, a'. split; [done|].
      apply (munmap_finish s a o m h fh i v (trim_head (addr + PGROUNDUP len) v)); try done.
      * apply (keep_files s fh i v); [apply HI|done..].
      * intros _. unfold PGSIZE. simpl. split_and!; [|done|lia..]. rewrite Z.add_mod, Hal, Hr4 by lia. done.
      * unfold in_area, trim_head. simpl. lia.
      * simpl. lia.
      * intros b _. unfold area_backing, trim_head. simpl. destruct (vma_file v); [|done]. simpl.
        do 3 f_equal. unfold u64. rewrite Zplus_mod_idemp_l, <-Z.add_assoc, (Z.add_comm _ (b - _)), Z.add_assoc, Zplus_mod_idemp_r.
        f_equal. lia.
    + rewrite decide_True by lia. eexists _, a'. split; [done|].
      apply (munmap_finish s a o m h fh i v (set_va_end addr v)); try done.
      * apply (keep_files s fh i v); [apply HI|done..].
      * intros _. unfold PGSIZE. simpl. split_and!; [done|done|lia..].
      * unfold in_area. simpl. lia.
      * simpl. lia.
Qed.

(** ** Mapping *)

(** What a mapping shows: the file of the descriptor, or none. *)
Definition mmap_source (s : st) (p flags fd : Z) (file : option nat) : Prop :=
  if has flags MAP_ANONYMOUS then file = None
  else ∃ f, ofile (mm_files s) !! fd_slot p fd = Some (Some f) ∧ file = Some f.
(** The requests that are not refused for their arguments. *)
Definition mmap_args (s : st) (p addr len prot flags fd offset : Z) : Prop :=
  addr = 0 ∧ prot ≠ PROT_NONE ∧ offset mod PGSIZE = 0 ∧ len ≠ 0 ∧ Z.land flags MAP_TYPE = MAP_PRIVATE ∧
  if has flags MAP_ANONYMOUS then fd = -1 ∧ offset = 0
  else has prot PROT_WRITE = false ∧ 0 ≤ fd < PROCESS_MAX_OPEN_FILES ∧ ∃ f, ofile (mm_files s) !! fd_slot p fd = Some (Some f).
Definition mmap_errors : list Z := [- EOPNOTSUPP; - EINVAL; - EBADF].

Lemma prot2pte_0 prot : prot2pte prot = 0 ↔ prot = PROT_NONE.
Proof. unfold prot2pte. case_decide; [done|]. split; [|done]. repeat case_match; by vm_compute. Qed.

Lemma mmap_check_run s fh p addr len prot flags fd offset :
  file_inv (mm_files s) fh → 0 ≤ p < NPROC →
  (¬ mmap_args s p addr len prot flags fd offset ∧
   ∃ e, mmap_check p addr len prot flags fd offset s = Ret (inl e, s) ∧ e ∈ mmap_errors) ∨
  (mmap_args s p addr len prot flags fd offset ∧
   ∃ file, mmap_check p addr len prot flags fd offset s = Ret (inr (prot2pte prot, file), s) ∧
    mmap_source s p flags fd file ∧ (file = None → offset = 0)).
Proof.
  intros HF Hp. unfold mmap_check, mmap_source, mmap_args.
  assert (Herr : ∀ (Q : Prop) e, ¬ Q → e ∈ mmap_errors →
    ¬ Q ∧ ∃ e', @mret (K st) _ _ (inl e : Z + Z * option nat) s = Ret (inl e', s) ∧ e' ∈ mmap_errors) by eauto.
  assert (Hoff : Z.land offset (PGSIZE - 1) = offset mod PGSIZE) by (apply (Z.land_ones offset 12); lia).
  rewrite Hoff, (decide_ext _ _ _ _ (prot2pte_0 prot)).
  repeat (case_decide; [left; apply Herr; [tauto|unfold mmap_errors; set_solver]|]).
  destruct (has flags MAP_ANONYMOUS).
  - case_decide; [left; apply Herr; [tauto|unfold mmap_errors; set_solver]|]. right. split; [naive_solver lia|]. exists None. split_and!; [done..|lia].
  - destruct (fd_ok fd) eqn:Hfd; simpl; [apply bool_decide_eq_true in Hfd as Hfd'|apply bool_decide_eq_false in Hfd];
      [|left; apply Herr; [tauto|unfold mmap_errors; set_solver]].
    destruct (has prot PROT_WRITE); [left; apply Herr; [naive_solver|unfold mmap_errors; set_solver]|].
    destruct (fd_slot_lookup _ _ p fd HF Hp Hfd) as (o & Ho).
    rewrite (bind_Ret _ _ _ _ _ (on_files_run _ s _ _ (get_fd_run _ _ p fd o HF Ho))).
    destruct o as [f|]; [right|left; split; [naive_solver|]; eexists; split; [by destruct s|unfold mmap_errors; set_solver]].
    split; [naive_solver|]. exists (Some f). split; [by destruct s|]. naive_solver.
Qed.

(** A range that is not free has a byte that is in an area. *)
Lemma range_taken l b len :
  vma_inv l → 0 ≤ b → 0 < len → b + len < 2 ^ 64 → ¬ range_free b len l →
  ∃ y, b ≤ y < b + len ∧ is_Some (backing l y).
Proof.
  intros HI Hb Hl Hlt Hno. apply (not_Forall_Exists _) in Hno. apply Exists_exists in Hno as (v & (i & Hi)%list_elem_of_lookup & Hov).
  simpl in Hov. apply dec_stable in Hov as (Hu & H1 & H2). rewrite u64_small in H2 by lia. destruct (mm_area_ok l i v HI Hi Hu) as (_ & _ & Hr & _).
  exists (b `max` va_start v). split; [lia|]. rewrite (backing_Some l i v); [done|apply HI|done|]. split; [done|lia].
Qed.

(** A new area on a free range: what it covers, and what it leaves. *)
Lemma backing_new l i v0 v :
  areas_disjoint l → areas_disjoint (<[i := v]> l) → l !! i = Some v0 → used v0 = 0 → used v ≠ 0 →
  ∀ b, backing (<[i := v]> l) b = (if decide (va_start v ≤ b < va_end v) then Some (area_backing v b) else backing l b) ∧
    (va_start v ≤ b < va_end v → backing l b = None).
Proof.
  intros Hd Hd' Hi Hu0 Hu b. pose proof (lookup_lt_Some _ _ _ Hi) as Hlt. case_decide as Hb.
  - split; [by apply backing_insert_in|]. intros _. apply backing_None. intros j w Hj Hw.
    destruct (decide (i = j)) as [->|Hne]; [destruct Hw; by simplify_eq|].
    destruct (Hd' i j v w) as [|]; [by apply list_lookup_insert_eq|by rewrite list_lookup_insert_ne|done|done|apply Hw|unfold in_area in Hw; lia..].
  - split; [|done]. apply (backing_insert_out _ i v0); [done|done|done|by intros [? ?]|by intros [? ?]].
Qed.

(** The reference of a new file mapping. *)
Lemma mmap_dup_run s fh p flags fd file i v0 v :
  file_inv (mm_files s) (area_files (areas s) ++ fh) → mmap_source s p flags fd file →
  Z.of_nat (length (area_files (areas s) ++ fh)) + 1 < 2 ^ 20 →
  areas s !! i = Some v0 → used v0 = 0 → used v ≠ 0 → vma_file v = file →
  ∀ l, ∃ fs, match file with Some f => g ← on_files (filedup f); mret (Some g) | None => mret None end (set_areas l s) =
    Ret (file, set_areas l (set_mm_files fs s)) ∧ file_inv fs (area_files (<[i := v]> (areas s)) ++ fh).
Proof.
  intros HF Hsrc Hlen Hi Hu0 Hu Hv l. destruct (area_files_insert (areas s) i v0 v Hi) as (rest & H1 & H2).
  unfold area_file in H1, H2. rewrite decide_True in H1 by done. rewrite decide_False in H2 by done. rewrite Hv in H2.
  simpl in H1. unfold mmap_source in Hsrc. destruct file as [f|]; simpl in H2.
  - destruct (has flags MAP_ANONYMOUS); [done|]. destruct Hsrc as (f' & Ho & [= <-]).
    destruct (fd_live _ _ _ _ HF Ho) as (x & Hx & Hc). eexists. split.
    + erewrite bind_Ret by (apply on_files_run, (filedup_run _ _ f x HF Hx Hc Hlen)). done.
    + eapply inv_perm; [|apply (inc_inv _ _ f x HF Hx Hc Hlen)]. by rewrite H1, H2.
  - exists (mm_files s). split; [by destruct s|]. eapply inv_perm; [|exact HF]. by rewrite H1, H2.
Qed.

(** * Theorems *)

(** C14: When the page-aligned range, with the length rounded to pages, is the
    head, the tail or the whole of one area and ends in the user half,
    do_munmap succeeds: its pages are unmapped and their frames released, the
    area shrinks or goes with its file closed, and every other page keeps its
    file, its offset and its permissions. When the range is not such an edge
    of an area, wrap-around of the length included, do_munmap fails with
    EINVAL or EOPNOTSUPP and changes nothing. (An area may reach past the user
    half; for that part see munmap_frees_kernel_page.) *)
Theorem do_munmap_spec s a o m h fh addr len :
  mm_inv s a o m h fh → 0 ≤ addr < 2 ^ 64 → 0 ≤ len < 2 ^ 64 →
  let n := (len + 4095) / 4096 in
  if decide (addr mod 4096 = 0 ∧ 0 < len ∧ at_edge (areas s) addr (addr + n * 4096))
  then addr + n * 4096 ≤ USER_VA_TOP → ∃ s' a', do_munmap addr len s = Ret (0, s') ∧
    mm_inv s' a' o (unmap_range (Z.to_nat n) (root s) (addr / 4096) m) h fh ∧
    ∀ b, backing (areas s') b = if decide (addr ≤ b < addr + n * 4096) then None else backing (areas s) b
  else ∃ r, do_munmap addr len s = Ret (r, s) ∧ (r = - EINVAL ∨ r = - EOPNOTSUPP).
Proof.
  intros HI Ha Hl n. case_decide as Hc; [destruct Hc as (? & ? & ?); intros ?; by eapply do_munmap_ok|].
  destruct (decide (addr mod 4096 = 0)) as [Hal|Hal]; [destruct (decide (0 < len)) as [Hp|Hp]|].
  - apply do_munmap_fail; [done|lia|lia|naive_solver].
  - exists (- EINVAL). split; [|by left]. unfold do_munmap. rewrite decide_False by (unfold PGSIZE; tauto).
    by rewrite decide_True by lia.
  - exists (- EINVAL). split; [|by left]. unfold do_munmap. by rewrite decide_True.
Qed.

(** What do_mmap does to the areas and the file table. *)
Definition mapping (va len prot flags offset : Z) (file : option nat) : vma :=
  mk_vma 1 va (va + PGROUNDUP len) flags (match file with Some _ => offset | None => 0 end) (prot2pte prot) file.
Definition taken (l : list vma) (size b : Z) : Prop := ∃ y, b ≤ y < b + size ∧ is_Some (backing l y).

Lemma do_mmap_run s fh stack0 p addr len prot flags fd offset :
  vma_inv (areas s) → file_inv (mm_files s) (area_files (areas s) ++ fh) → 0 ≤ p < NPROC →
  MMAP_START ≤ stack0 ≤ 2 ^ 38 → 0 ≤ stack_bottom (mm_proc s) ≤ 2 ^ 38 →
  0 ≤ len < 2 ^ 64 - 4095 → Z.of_nat (length (area_files (areas s) ++ fh)) + 1 < 2 ^ 20 →
  (¬ mmap_args s p addr len prot flags fd offset ∧
   ∃ e, do_mmap stack0 p addr len prot flags fd offset s = Ret (u64 e, s) ∧ e ∈ mmap_errors) ∨
  mmap_args s p addr len prot flags fd offset ∧
  ((do_mmap stack0 p addr len prot flags fd offset s = Ret (u64 (- ENOMEM), s) ∧
    (PGROUNDUP len > stack0 - MMAP_START ∨ Forall (λ v, used v ≠ 0) (areas s) ∨
     ∀ b, b mod 4096 = 0 → MMAP_START ≤ b < stack_bottom (mm_proc s) → taken (areas s) (PGROUNDUP len) b)) ∨
   ∃ va i v0 file fs, let l := <[i := mapping va len prot flags offset file]> (areas s) in
    do_mmap stack0 p addr len prot flags fd offset s = Ret (va, set_areas l (set_mm_files fs s)) ∧
    areas s !! i = Some v0 ∧ used v0 = 0 ∧ vma_inv l ∧ file_inv fs (area_files l ++ fh) ∧ mmap_source s p flags fd file ∧
    va mod 4096 = 0 ∧ MMAP_START ≤ va < stack_bottom (mm_proc s) ∧
    (∀ b, b mod 4096 = 0 → MMAP_START ≤ b < va → taken (areas s) (PGROUNDUP len) b)).
Proof.
  intros HA HF Hp H0 Hsb Hl Hlen. unfold do_mmap.
  destruct (mmap_check_run s _ p addr len prot flags fd offset HF Hp) as [(Hna & e & Hc & He)|(Hargs & file & Hc & Hsrc & Hoff)];
    rewrite (bind_Ret _ _ _ _ _ Hc); [left; split; [done|]; by exists e|]. right. split; [done|]. rewrite !bind_gets.
  destruct (round_pages len) as (_ & Hr1 & Hr4); [unfold mmap_args in Hargs; lia|]. set (size := PGROUNDUP len) in *.
  assert (Hsz : 0 < size) by (unfold mmap_args in Hargs; lia).
  pose proof (find_free_range_spec stack0 (stack_bottom (mm_proc s)) size (areas s) HA H0 Hsb Hsz Hr4) as Hfree.
  assert (Htaken : size ≤ stack0 - MMAP_START → ∀ b, MMAP_START ≤ b < 2 ^ 38 → ¬ range_free b size (areas s) → taken (areas s) size b).
  { intros Hs b Hb. unfold MMAP_START in *. apply range_taken; [done|lia..]. }
  assert (Hbig : size > stack0 - MMAP_START → find_free_range stack0 (stack_bottom (mm_proc s)) size (areas s) = None).
  { intros Hb. unfold find_free_range. apply decide_True. right. rewrite u64_small; [lia|unfold MMAP_START in *; lia]. }
  destruct (decide (size > stack0 - MMAP_START)) as [Hb|Hb]; [left; simpl; rewrite Hbig by done; split; [done|by left]|].
  simpl. destruct (find_free_range _ _ _ _) as [[i l']|]; [right|left; split; [done|right]].
  2:{ destruct Hfree as [?|[Hfree|Hfree]]; [lia|by left|right]. intros b Hb1 Hb2. apply Htaken; [lia|lia|]. by apply Hfree. }
  destruct Hfree as (v0 & va & Hi & Hu0 & -> & HA' & Ham & Hva & Hlow). pose proof (lookup_lt_Some _ _ _ Hi) as Hlt.
  set (v := mapping va len prot flags offset file). set (l1 := <[i := _]> (areas s)).
  destruct (mmap_dup_run s fh p flags fd file i v0 v HF Hsrc Hlen Hi Hu0 ltac:(done) eq_refl l1) as (fs & Hdup & HF').
  exists va, i, v0, file, fs. split_and!; [|done|done| |done|done|done|lia|lia|].
  - rewrite (bind_Ret _ _ s tt (set_areas l1 s) eq_refl).
    rewrite (bind_Ret _ _ _ (mk_vma 1 va (va + size) 0 0 0 None) (set_areas l1 s))
      by (unfold get_area; by rewrite (list_lookup_insert_eq (areas s) i _ Hlt : areas (set_areas l1 s) !! i = _)).
    rewrite (bind_Ret _ _ _ _ _ Hdup). unfold put_area. kunfold. unfold l1, areas. simpl.
    by rewrite list_insert_insert_eq.
  - replace (<[i := v]> (areas s)) with (<[i := v]> l1) by (unfold l1; by rewrite list_insert_insert_eq).
    apply (shrink_inv l1 i (mk_vma 1 va (va + size) 0 0 0 None)); [done|by apply list_lookup_insert_eq| |done].
    exact (mm_area_ok l1 i _ HA' (list_lookup_insert_eq (areas s) i _ Hlt)).
  - intros b Hb1 Hb2. apply Htaken; [lia|lia|]. by apply Hlow.
Qed.

(** C21: do_mmap with arguments it does not accept fails with EOPNOTSUPP,
    EINVAL or EBADF and changes nothing. Otherwise it fails with ENOMEM and
    changes nothing, when the length is more than the area space, no slot is
    free, or every page-aligned start from MMAP_START up to the stack bottom
    has a byte of an area behind it within the length; or it returns the
    lowest start for which that is not so. The range shows from then on the
    file of the descriptor from the given offset, or zero pages, with the
    permissions asked for; no page is mapped yet, every other page keeps its
    backing, and the areas, the page tables and the counts of the file table
    stay consistent. Only the start is below the stack bottom: the end is not
    checked. (The length is not in the last page below 2^64.) *)
Theorem do_mmap_spec s a o m h fh stack0 p addr len prot flags fd offset :
  mm_inv s a o m h fh → 0 ≤ p < NPROC → MMAP_START ≤ stack0 ≤ 2 ^ 38 → 0 ≤ stack_bottom (mm_proc s) ≤ 2 ^ 38 →
  0 ≤ len < 2 ^ 64 - 4095 → Z.of_nat (length (area_files (areas s) ++ fh)) + 1 < 2 ^ 20 →
  let size := PGROUNDUP len in
  (¬ mmap_args s p addr len prot flags fd offset →
   ∃ e, do_mmap stack0 p addr len prot flags fd offset s = Ret (u64 e, s) ∧ e ∈ mmap_errors) ∧
  (mmap_args s p addr len prot flags fd offset →
   (do_mmap stack0 p addr len prot flags fd offset s = Ret (u64 (- ENOMEM), s) ∧
    (size > stack0 - MMAP_START ∨ Forall (λ v, used v ≠ 0) (areas s) ∨
     ∀ b, b mod 4096 = 0 → MMAP_START ≤ b < stack_bottom (mm_proc s) → taken (areas s) size b)) ∨
   ∃ va s' file, do_mmap stack0 p addr len prot flags fd offset s = Ret (va, s') ∧
    mm_inv s' a o m h fh ∧ mm_vm s' = mm_vm s ∧ mmap_source s p flags fd file ∧
    va mod 4096 = 0 ∧ MMAP_START ≤ va < stack_bottom (mm_proc s) ∧
    (∀ b, b mod 4096 = 0 → MMAP_START ≤ b < va → taken (areas s) size b) ∧ ¬ taken (areas s) size va ∧
    ∀ b, backing (areas s') b =
        if decide (va ≤ b < va + size)
        then Some ((λ f, (f, u64 (offset + (b - va)))) <$> file, prot2pte prot) else backing (areas s) b).
Proof.
  intros HI Hp H0 Hsb Hl Hlen size. pose proof (mi_areas _ _ _ _ _ _ HI) as HA.
  destruct (do_mmap_run s fh stack0 p addr len prot flags fd offset HA (mi_files _ _ _ _ _ _ HI) Hp H0 Hsb Hl Hlen)
    as [[Hna He]|[Hargs Hres]]; [by split|]. split; [done|intros _].
  destruct Hres as [?|(va & i & v0 & file & fs & Hrun & Hi & Hu0 & HA2 & HF' & Hsrc & Ham & Hva & Hlow)]; [by left|right].
  pose proof (backing_new (areas s) i v0 (mapping va len prot flags offset file) (vi_disj _ HA) (vi_disj _ HA2) Hi Hu0 ltac:(done)) as Hnew.
  eexists va, _, file. split; [exact Hrun|]. split; [by split; [|apply HI|apply HI|]|]. split_and!; [done|done|done|lia|lia|done| |].
  - intros (y & Hy & [z Hz]). destruct (Hnew y) as [_ Hn]. rewrite Hn in Hz; [done|exact Hy].
  - intros b. destruct (Hnew b) as [Hb _]. etrans; [exact Hb|]. unfold mapping. simpl. fold size.
    destruct (decide (va ≤ b < va + size)); [|done]. by destruct file.
Qed.

(** ** Releasing all areas *)

(** The address space without the pages of the areas [l]. *)
Fixpoint unmap_areas (r : Z) (l : list vma) (m : gmap (Z * Z) Z) : gmap (Z * Z) Z :=
  match l with
  | [] => m
  | v :: l => unmap_areas r l
      (if decide (used v = 0) then m else unmap_range (Z.to_nat ((va_end v - va_start v) / 4096)) r (va_start v / 4096) m)
  end.

Lemma unmap_areas_app r l1 l2 m : unmap_areas r (l1 ++ l2) m = unmap_areas r l2 (unmap_areas r l1 m).
Proof. revert m. induction l1 as [|v l1 IH]; intros m; simpl; [done|]. by rewrite IH. Qed.

Lemma unmap_areas_lookup r l m r' w :
  Forall area_ok l → 0 ≤ w →
  unmap_areas r l m !! (r', w) =
  match m !! (r', w) with
  | Some e => if decide (r' = r ∧ Exists (in_area (w * 4096)) l ∧ PTE_FLAGS e ≠ PTE_V) then None else Some e
  | None => None
  end.
Proof.
  intros Hok Hw. revert m. induction Hok as [|v l Hv Hok IH]; intros m; simpl.
  { destruct (m !! (r', w)); [|done]. rewrite decide_False; [done|]. intros (_ & Hn & _). by apply Exists_nil in Hn. }
  assert (Hone : (if decide (used v = 0) then m else unmap_range (Z.to_nat ((va_end v - va_start v) / 4096)) r (va_start v / 4096) m) !! (r', w) =
    match m !! (r', w) with
    | Some e => if decide (r' = r ∧ in_area (w * 4096) v ∧ PTE_FLAGS e ≠ PTE_V) then None else Some e
    | None => None end).
  { unfold in_area. destruct (decide (used v = 0)) as [Hu|Hu].
    - destruct (m !! (r', w)); [|done]. by rewrite decide_False by tauto.
    - destruct (Hv Hu) as (Hs & He & Hse & _). unfold PGSIZE in *. pose proof (Z.div_mod (va_start v) 4096). pose proof (Z.div_mod (va_end v) 4096).
      assert (Hn : (va_end v - va_start v) / 4096 = va_end v / 4096 - va_start v / 4096) by (symmetry; apply (Z.div_unique _ _ _ 0); lia).
      rewrite unmap_range_lookup. destruct (m !! (r', w)) as [e|]; [|done]. apply decide_ext. rewrite Hn, Z2Nat.id by lia. lia. }
  rewrite IH, Hone. destruct (m !! (r', w)) as [e|]; [|done].
  destruct (decide (r' = r ∧ in_area (w * 4096) v ∧ PTE_FLAGS e ≠ PTE_V)) as [(-> & Hin & Hfl)|Hn].
  - rewrite decide_True; [done|]. split; [done|]. split; [by left|done].
  - apply decide_ext. rewrite Exists_cons. tauto.
Qed.

(** [s'] is [s] with other areas, page tables and file table. *)
Definition same_layout (s s' : st) : Prop :=
  mm_proc s' = mk_uproc (pagetable (mm_proc s)) (heap_bottom (mm_proc s)) (heap_top (mm_proc s))
    (stack_bottom (mm_proc s)) (stack_top (mm_proc s)) (areas s').

Lemma free_area_run s a o m h fh r i v :
  mm_inv s a o m h fh → is_root o r → user_areas (areas s) → areas s !! Z.to_nat i = Some v →
  ∃ s' a', free_area r i s = Ret (tt, s') ∧
    mm_inv s' a' o (unmap_areas r [v] m) h fh ∧ same_layout s s' ∧ frames (mm_vm s') = frames (mm_vm s) ∧
    areas s' = <[Z.to_nat i := set_used 0 v]> (areas s).
Proof.
  intros HI Hr HU Hi. unfold free_area. rewrite (bind_Ret _ _ s v s) by (unfold get_area; by rewrite Hi).
  case_decide as Hu; simpl.
  - exists s, a. rewrite decide_True by done. split_and!; [done..|by destruct s as [? ? []]|done|]. rewrite list_insert_id; [done|].
    rewrite Hi. destruct v. simpl in Hu. by subst.
  - rewrite decide_False by done. destruct (mm_area_ok _ _ v (mi_areas _ _ _ _ _ _ HI) Hi Hu) as (Hs4 & He4 & Hpos & _).
    pose proof (Forall_lookup_1 _ _ _ _ HU Hi Hu) as Hve. simpl in Hve. rewrite u64_small by lia.
    destruct (kvmunmap_run (mm_vm s) a o m h r (va_start v) (va_end v - va_start v)) as (vs & a' & Hk & HV & Hfr);
      [apply HI|done|exact Hs4| |lia|lia|lia|].
    { unfold PGSIZE in *. rewrite Zminus_mod, Hs4, He4. done. }
    rewrite (bind_Ret _ _ _ _ _ (on_vm_run _ s _ _ Hk)).
    assert (HI' : mm_inv (set_mm_vm vs s) a' o
      (unmap_range (Z.to_nat ((va_end v - va_start v) / 4096)) r (va_start v / 4096) m) h fh)
      by (split; [apply HI|done|apply HI|apply HI]).
    destruct (drop_area_run _ _ _ _ _ fh _ v HI' Hi Hu) as (fs & Hd & HF).
    eexists _, a'. split; [exact Hd|]. split_and!; [|done..]. split; [|done|apply HI|done].
    apply (shrink_inv (areas s) _ v); [apply HI|done..].
Qed.

Lemma free_pagetable_vma_run s a o m h fh r :
  mm_inv s a o m h fh → is_root o r → user_areas (areas s) →
  ∃ s' a', free_pagetable_vma r s = Ret (tt, s') ∧
    mm_inv s' a' o (unmap_areas r (areas s) m) h fh ∧ same_layout s s' ∧ frames (mm_vm s') = frames (mm_vm s) ∧
    areas s' = set_used 0 <$> areas s.
Proof.
  intros HI Hr HU. pose proof (vi_len _ (mi_areas _ _ _ _ _ _ HI)) as Hlen. unfold free_pagetable_vma.
  destruct (forM_seq (λ j t, ∃ a', mm_inv t a' o (unmap_areas r (take (Z.to_nat j) (areas s)) m) h fh ∧
      same_layout s t ∧ frames (mm_vm t) = frames (mm_vm s) ∧
      areas t = (set_used 0 <$> take (Z.to_nat j) (areas s)) ++ drop (Z.to_nat j) (areas s))
    (free_area r) 0 NVMA s) as (s' & Hrun & a' & HI' & Hs' & Hf' & Ha').
  - done.
  - intros j t [Hj0 Hj] (a1 & HI1 & Hr1 & Hf1 & Ha1). destruct (lookup_lt_is_Some_2 (areas s) (Z.to_nat j)) as [v Hv]; [lia|].
    assert (Hlk : areas t !! Z.to_nat j = Some v).
    { rewrite Ha1, lookup_app_r by (rewrite length_fmap, length_take; lia).
      rewrite length_fmap, length_take, lookup_drop. rewrite <-Hv. f_equal. lia. }
    destruct (free_area_run t a1 o _ h fh r j v HI1 Hr) as (t' & a2 & Hrun & HI2 & Hr2 & Hf2 & Ha2); [|done|].
    { rewrite Ha1. apply Forall_app. split; [apply Forall_fmap, Forall_true; intros w Hw; by destruct Hw|by apply Forall_drop]. }
    exists t'. split; [done|]. exists a2.
    assert (Htake : take (Z.to_nat (j + 1)) (areas s) = take (Z.to_nat j) (areas s) ++ [v]).
    { replace (Z.to_nat (j + 1)) with (S (Z.to_nat j)) by lia. by apply take_S_r. }
    split_and!; [by rewrite Htake, unmap_areas_app|unfold same_layout in *; by rewrite Hr2, Hr1|congruence|].
    rewrite Ha2, Ha1, Htake, fmap_app, insert_app_r_alt by (rewrite length_fmap, length_take; lia).
    rewrite length_fmap, length_take. replace (Z.to_nat j - _)%nat with 0%nat by lia.
    rewrite (drop_S _ v _ Hv). replace (Z.to_nat (j + 1)) with (S (Z.to_nat j)) by lia. simpl. by rewrite <-app_assoc.
  - exists a. rewrite take_0, drop_0. split_and!; [done|by destruct s as [? ? []]|done|done].
  - replace (Z.to_nat (0 + _)) with (length (areas s)) in HI', Ha' by (rewrite Hlen; done).
    rewrite firstn_all in HI', Ha'. rewrite drop_all, app_nil_r in Ha'. by exists s', a'.
Qed.

(** The loop of exit and of exec over the areas ends with none in use, the
    pages of all of them unmapped with their frames released, and every
    reference they held to a file given back. *)
Theorem free_pagetable_vma_spec s a o m h fh :
  mm_inv s a o m h fh → user_areas (areas s) →
  ∃ s' a', free_pagetable_vma (root s) s = Ret (tt, s') ∧
    mm_inv s' a' o (unmap_areas (root s) (areas s) m) h fh ∧
    area_files (areas s') = [] ∧ ∀ b, backing (areas s') b = None.
Proof.
  intros HI HU. destruct (free_pagetable_vma_run s a o m h fh (root s) HI (mi_root _ _ _ _ _ _ HI) HU) as (s' & a' & Hrun & HI' & _ & _ & Ha').
  exists s', a'. split_and!; [done|done| |].
  - rewrite Ha'. unfold area_files. clear. induction (areas s) as [|v l IH]; [done|]. simpl. exact IH.
  - intros b. apply backing_None. rewrite Ha'. intros i v (w & -> & _)%list_lookup_fmap_Some [Hv _]. done.
Qed.

(** ** Copying all areas *)

(** Two tables that differ at most in unused slots. *)
Definition same_area (v w : vma) : Prop := w = v ∨ used v = 0 ∧ used w = 0.

Lemma same_backing l l' b : Forall2 same_area l l' → backing l' b = backing l b.
Proof.
  unfold backing. induction 1 as [|v w l l' [->|[Hv Hw]] _ IH]; [done| |].
  - simpl. case_decide; [done|]. destruct (list_find _ l), (list_find _ l'); simpl in *; congruence.
  - simpl. rewrite !decide_False by (by intros [? _]).
    destruct (list_find _ l), (list_find _ l'); simpl in *; congruence.
Qed.

Lemma area_files_cons v l : area_files (v :: l) = option_list (area_file v) ++ area_files l.
Proof. unfold area_files. simpl. by destruct (area_file v). Qed.

Lemma area_files_length l : (length (area_files l) ≤ length l)%nat.
Proof.
  induction l as [|v l IH]; [done|]. rewrite area_files_cons, length_app. simpl. destruct (area_file v); simpl; lia.
Qed.

Lemma same_files l l' : Forall2 same_area l l' → area_files l' = area_files l.
Proof.
  induction 1 as [|v w l l' Hvw _ IH]; [done|]. rewrite !area_files_cons, IH.
  replace (area_file w) with (area_file v); [done|]. unfold area_file.
  destruct Hvw as [->|[-> ->]]; [done|by rewrite !decide_True].
Qed.

Lemma same_inv l l' : Forall2 same_area l l' → vma_inv l → vma_inv l'.
Proof.
  intros HS [Hlen Hok Hd]. pose proof (Forall2_length _ _ _ HS) as Hl.
  assert (Hget : ∀ i w, l' !! i = Some w → used w ≠ 0 → l !! i = Some w).
  { intros i w Hi Hw. destruct (Forall2_lookup_r _ _ _ _ _ HS Hi) as (v & Hv & [->|[_ ?]]); done. }
  split; [by rewrite <-Hl| |].
  - apply Forall_lookup. intros i w Hi Hw. apply (Forall_lookup_1 _ _ _ _ Hok (Hget i w Hi Hw) Hw).
  - intros i j v w Hi Hj Hne Hv Hw. apply (Hd i j); auto.
Qed.

Lemma area_files_take l j v :
  l !! j = Some v → area_files (take (S j) l) = area_files (take j l) ++ option_list (area_file v).
Proof.
  intros Hj. rewrite (take_S_r _ _ _ Hj). unfold area_files. rewrite omap_app. simpl. by destruct (area_file v).
Qed.

Lemma fork_area_run l i v fs c h :
  l !! Z.to_nat i = Some v → (used v = 0 ∨ used v = 1) → (Z.to_nat i < length c)%nat →
  file_inv fs (area_files l ++ h) → Z.of_nat (length (area_files l ++ h)) + 1 < 2 ^ 20 →
  ∃ fs', fork_area l i (fs, c) = Ret (tt, (fs', if decide (used v = 1) then <[Z.to_nat i := v]> c else c)) ∧
    file_inv fs' (area_files l ++ option_list (area_file v) ++ h).
Proof.
  intros Hi Hu Hlt HF Hb. unfold fork_area, area_file. rewrite Hi.
  destruct (decide (used v = 1)) as [H1|H1].
  - rewrite decide_False by lia. destruct (vma_file v) as [f|] eqn:Hf; simpl.
    + destruct (area_files_insert l _ v v Hi) as (rest & Hr & _). unfold area_file in Hr. rewrite decide_False, Hf in Hr by lia.
      assert (HF' : file_inv fs (f :: rest ++ h)) by (eapply inv_perm; [|exact HF]; by rewrite Hr).
      destruct (held_live _ _ _ HF') as (x & Hx & Hc).
      eexists. split.
      * rewrite (bind_Ret _ _ (fs, c) tt (fs, <[Z.to_nat i := v]> c) eq_refl).
        erewrite bind_Ret by (apply zoom_Ret, (filedup_run _ _ f x HF Hx Hc Hb)).
        unfold modify. simpl. rewrite list_insert_insert_eq. rewrite <-Hf. by destruct v.
      * eapply inv_perm; [|apply (inc_inv _ _ f x HF Hx Hc Hb)]. by rewrite <-Permutation_middle.
    + exists fs. split; [done|]. exact HF.
  - rewrite decide_True by lia. exists fs. done.
Qed.

(** fork gives the child the areas of the parent: every page has the same
    file, offset and permissions in both, and each file mapping holds a
    reference of its own. *)
Theorem fork_areas_spec l c fs fh :
  vma_inv l → Forall (λ v, used v = 0 ∨ used v = 1) l → length c = Z.to_nat NVMA → Forall (λ v, used v = 0) c →
  file_inv fs (area_files l ++ fh) → Z.of_nat (length (area_files l ++ fh)) + 17 < 2 ^ 20 →
  ∃ fs' c', fork_areas l (fs, c) = Ret (tt, (fs', c')) ∧ vma_inv c' ∧
    (∀ b, backing c' b = backing l b) ∧ file_inv fs' (area_files l ++ area_files c' ++ fh).
Proof.
  intros HA H01 Hc H0 HF Hb. pose proof (vi_len _ HA) as Hlen. unfold fork_areas.
  destruct (forM_seq (λ j t, Forall2 same_area (take (Z.to_nat j) l) (take (Z.to_nat j) t.2) ∧
      drop (Z.to_nat j) t.2 = drop (Z.to_nat j) c ∧ length t.2 = length c ∧
      file_inv t.1 (area_files l ++ area_files (take (Z.to_nat j) l) ++ fh)) (fork_area l) 0 NVMA (fs, c))
    as ([fs' c'] & Hrun & HS & _ & Hlen' & HF'); [done| |by rewrite !take_0|].
  - intros j [fs1 c1] Hj (HS & Hd & Hl1 & HF1). simpl in *.
    destruct (lookup_lt_is_Some_2 l (Z.to_nat j)) as [v Hv]; [unfold NVMA in *; lia|].
    assert (Hw : ∃ w, c1 !! Z.to_nat j = Some w ∧ used w = 0).
    { destruct (lookup_lt_is_Some_2 c (Z.to_nat j)) as [w Hw]; [unfold NVMA in *; lia|]. exists w.
      split; [|by apply (Forall_lookup_1 _ _ _ _ H0 Hw)].
      rewrite <-(Nat.add_0_r (Z.to_nat j)), <-lookup_drop, Hd, lookup_drop, Nat.add_0_r. done. }
    destruct Hw as (w & Hw & Hw0). pose proof (Forall_lookup_1 _ _ _ _ H01 Hv) as Hu. simpl in Hu.
    assert (Hfl : (length (area_files (take (Z.to_nat j) l)) ≤ 16)%nat).
    { etrans; [apply area_files_length|]. rewrite length_take, Hlen. unfold NVMA. lia. }
    destruct (fork_area_run l j v fs1 c1 (area_files (take (Z.to_nat j) l) ++ fh)) as (fs2 & Hr & HF2);
      [done|done|unfold NVMA in *; lia|done| |].
    { rewrite !length_app in *. lia. }
    eexists. split; [exact Hr|]. simpl. replace (Z.to_nat (j + 1)) with (S (Z.to_nat j)) by lia.
    set (c2 := if decide (used v = 1) then _ else c1).
    assert (Hc2 : ∃ x, c2 !! Z.to_nat j = Some x ∧ same_area v x).
    { unfold c2. case_decide; [exists v; split; [by apply list_lookup_insert_eq, (lookup_lt_Some _ _ _ Hw)|by left]|].
      exists w. split; [done|]. right. lia. }
    destruct Hc2 as (x & Hx & Hsame). split_and!.
    + rewrite (take_S_r _ _ _ Hv), (take_S_r _ _ _ Hx). apply Forall2_app; [|constructor; [exact Hsame|constructor]].
      unfold c2. case_decide; [|done]. by rewrite take_insert_ge.
    + assert (drop (S (Z.to_nat j)) c2 = drop (S (Z.to_nat j)) c1) as -> by
        (unfold c2; case_decide; [by rewrite drop_insert_lt by lia|done]).
      replace (S (Z.to_nat j)) with (Z.to_nat j + 1)%nat by lia. by rewrite <-!drop_drop, Hd.
    + unfold c2. case_decide; by rewrite ?length_insert.
    + rewrite (area_files_take _ _ _ Hv). eapply inv_perm; [|exact HF2]. rewrite <-app_assoc. solve_Permutation.
  - replace (Z.to_nat (0 + NVMA)) with (length l) in HS, HF' by done. simpl in *.
    rewrite !firstn_all2 in HS by lia. rewrite firstn_all in HF'. exists fs', c'.
    split_and!; [done|by apply (same_inv l)|intros b; by apply same_backing|by rewrite (same_files l c' HS)].
Qed.

End mmap.

(** ** Concrete runs *)

#[local] Existing Instance demo_pool.
#[local] Existing Instance demo_nodes.
#[local] Existing Instance demo_put.

(** A process with the areas [l] and a stack bottom sixteen pages above MMAP_START. *)
Definition demo_mm (l : list vma) : mm_state pool Z :=
  mk_mm (demo_vm 12) demo_fstate (mk_uproc (pg 0) 0 0 (MMAP_START + 16 * PGSIZE) (MMAP_START + 32 * PGSIZE) l).
Definition demo_owner : gmap Z (Z * Z * Z) := list_to_map ((λ r, (r, (r, 2, 0))) <$> [pg 0; pg 1; pg 2]).

Lemma demo_mm_inv : mm_inv (demo_mm demo_areas) (vm_pages (demo_vm 12)) demo_owner ∅ [pg 3] [].
Proof. split; [exact demo_areas_inv|exact demo_rel|exact (proj1 demo_root)|exact demo_fstate_inv]. Qed.
Lemma demo_user_areas : user_areas (areas (demo_mm demo_areas)).
Proof. unfold user_areas. by apply (bool_decide_unpack _); vm_compute. Qed.

Lemma do_munmap_spec_witness :
  ∃ s' a', do_munmap MMAP_START 5000 (demo_mm demo_areas) = Ret (0, s') ∧
    mm_inv s' a' demo_owner (unmap_range 2 (pg 0) (MMAP_START / 4096) ∅) [pg 3] [] ∧
    ∀ b, backing (areas s') b =
      if decide (MMAP_START ≤ b < MMAP_START + 2 * 4096) then None else backing demo_areas b.
Proof.
  pose proof (do_munmap_spec (demo_mm demo_areas) _ _ _ _ _ MMAP_START 5000 demo_mm_inv ltac:(done) ltac:(done)) as H. cbv zeta in H.
  rewrite decide_True in H by (split_and!; [done|done|by apply (bool_decide_unpack _); vm_compute]).
  by apply H.
Defined.

Definition result {S} (o : outcome (Z * S)) : option Z := match o with Ret (r, _) => Some r | _ => None end.

Lemma do_mmap_spec_witness :
  ∃ va s', do_mmap (MMAP_START + 16 * PGSIZE) 0 0 5000 (Z.lor PROT_READ PROT_WRITE) (Z.lor MAP_PRIVATE MAP_ANONYMOUS)
      (-1) 0 (demo_mm demo_areas) = Ret (va, s') ∧
    mm_inv s' (vm_pages (demo_vm 12)) demo_owner ∅ [pg 3] [] ∧ MMAP_START ≤ va < MMAP_START + 16 * PGSIZE.
Proof.
  destruct (do_mmap_spec (demo_mm demo_areas) _ _ _ _ _ (MMAP_START + 16 * PGSIZE) 0 0 5000 (Z.lor PROT_READ PROT_WRITE)
    (Z.lor MAP_PRIVATE MAP_ANONYMOUS) (-1) 0 demo_mm_inv ltac:(done) ltac:(done) ltac:(done) ltac:(done) ltac:(done)) as [_ H].
  destruct H as [[Hrun _]|(va & s' & file & Hrun & HI & _ & _ & _ & Hva & _)]; [by vm_compute| |].
  - exfalso. assert (Hr : result (Ret (u64 (- ENOMEM), demo_mm demo_areas)) = Some (MMAP_START + 5 * PGSIZE))
      by (rewrite <-Hrun; vm_compute; reflexivity). by vm_compute in Hr.
  - exists va, s'. split; [exact Hrun|]. split; [exact HI|exact Hva].
Defined.

Lemma free_pagetable_vma_spec_witness :
  ∃ s' a', free_pagetable_vma (pg 0) (demo_mm demo_areas) = Ret (tt, s') ∧
    mm_inv s' a' demo_owner (unmap_areas (pg 0) demo_areas ∅) [pg 3] [] ∧ ∀ b, backing (areas s') b = None.
Proof.
  destruct (free_pagetable_vma_spec (demo_mm demo_areas) _ _ _ _ _ demo_mm_inv demo_user_areas)
    as (s' & a' & Hrun & HI & _ & Hb). exists s', a'. split; [exact Hrun|]. split; [exact HI|exact Hb].
Defined.

Lemma fork_areas_spec_witness :
  ∃ fs' c', fork_areas demo_areas (demo_fstate, replicate 16 vma_zero) = Ret (tt, (fs', c')) ∧ vma_inv c' ∧
    ∀ b, backing c' b = backing demo_areas b.
Proof.
  destruct (fork_areas_spec demo_areas (replicate 16 vma_zero) demo_fstate [] demo_areas_inv) as (fs' & c' & Hrun & HI & Hb & _);
    [by apply (bool_decide_unpack _); vm_compute|done|by apply Forall_replicate|exact demo_fstate_inv|done|].
  exists fs', c'. split; [exact Hrun|]. split; [exact HI|exact Hb].
Defined.

(** ** Where the checks end *)

(** A length in the last page below 2^64 rounds up to 0: do_mmap reports
    success and returns the address of a mapping that is already there. *)
Theorem mmap_huge_length :
  result (do_mmap (MMAP_START + 16 * PGSIZE) 0 0 (2 ^ 64 - 1) PROT_READ (Z.lor MAP_PRIVATE MAP_ANONYMOUS) (-1) 0
    (demo_mm demo_areas)) = Some MMAP_START ∧
  is_Some (backing demo_areas MMAP_START).
Proof. split; vm_compute; [reflexivity|]. by eexists. Qed.

Lemma no_areas_inv : vma_inv (replicate 16 vma_zero).
Proof.
  split; [done|by apply Forall_replicate|]. intros i j v w [-> _]%lookup_replicate. done.
Qed.

(** The tail of an area given up, whatever its addresses. *)
Lemma do_munmap_tail {P} `{PagePool P} {N} `{FileNodes N} (s : mm_state P N) i v addr vs :
  vma_inv (areas s) → areas s !! i = Some v → used v ≠ 0 → va_start v < addr → addr + PGSIZE = va_end v → addr mod 4096 = 0 →
  kvmunmap (root s) addr PGSIZE true (mm_vm s) = Ret (tt, vs) →
  do_munmap addr PGSIZE s = Ret (0, set_areas (<[i := set_va_end addr v]> (areas s)) (set_mm_vm vs s)).
Proof.
  intros HA Hi Hu Hs He Hal Hk. destruct (mm_area_ok _ i v HA Hi Hu) as (_ & _ & Hr & Hb).
  unfold do_munmap. change (PGROUNDUP PGSIZE) with PGSIZE. rewrite decide_False by (unfold PGSIZE; tauto).
  assert (Hps : 0 < PGSIZE) by done.
  rewrite decide_False by lia. rewrite bind_gets, (find_overlapping_inside _ i v) by (done || lia).
  rewrite (bind_Ret _ _ s v s) by (unfold get_area; by rewrite Hi).
  rewrite u64_small by lia. rewrite !decide_False by lia. rewrite bind_gets.
  rewrite (bind_Ret _ _ _ _ _ (on_vm_run _ s _ _ Hk)). by rewrite decide_True.
Qed.

(** An anonymous mapping of a process without descriptors. *)
Definition anon (stack0 len : Z) : K (mm_state pool Z) Z :=
  do_mmap stack0 0 0 len (Z.lor PROT_READ PROT_WRITE) (Z.lor MAP_PRIVATE MAP_ANONYMOUS) (-1) 0.
Definition anon_area (va len : Z) : vma :=
  mapping va len (Z.lor PROT_READ PROT_WRITE) (Z.lor MAP_PRIVATE MAP_ANONYMOUS) 0 None.

(** It goes to the first address that is not in an area. *)
Lemma anon_run s stack0 len va :
  vma_inv (areas s) → file_inv (mm_files s) (area_files (areas s)) → MMAP_START ≤ stack0 ≤ 2 ^ 38 →
  0 ≤ stack_bottom (mm_proc s) ≤ 2 ^ 38 → 0 < len ≤ stack0 - MMAP_START → len mod 4096 = 0 →
  (∃ i v, areas s !! i = Some v ∧ used v = 0) → va mod 4096 = 0 → MMAP_START ≤ va < stack_bottom (mm_proc s) →
  (∀ y, MMAP_START ≤ y < va → is_Some (backing (areas s) y)) → (∀ y, va ≤ y → backing (areas s) y = None) →
  ∃ i v0 fs, let l := <[i := anon_area va len]> (areas s) in
    anon stack0 len s = Ret (va, set_areas l (set_mm_files fs s)) ∧ areas s !! i = Some v0 ∧ used v0 = 0 ∧
    vma_inv l ∧ file_inv fs (area_files l).
Proof.
  intros HA HF H0 Hsb Hl Hl4 (i0 & w & Hw & Hw0) Hal Hva Hlow Hfree.
  assert (Hsz : PGROUNDUP len = len).
  { unfold MMAP_START in *. destruct (round_pages len) as (-> & _); [lia|]. pose proof (Z.div_mod len 4096).
    replace (len + 4095) with (4095 + len / 4096 * 4096) by lia. rewrite Z.div_add by lia. change (4095 / 4096) with 0. lia. }
  assert (Hlen : Z.of_nat (length (area_files (areas s) ++ [])) + 1 < 2 ^ 20).
  { rewrite app_nil_r. pose proof (area_files_length (areas s)). pose proof (vi_len _ HA). unfold NVMA in *. lia. }
  assert (Hnt : ¬ taken (areas s) len va) by (intros (y & Hy & [z Hz]); by rewrite Hfree in Hz by lia).
  unfold anon. destruct (do_mmap_run s [] stack0 0 0 len (Z.lor PROT_READ PROT_WRITE) (Z.lor MAP_PRIVATE MAP_ANONYMOUS) (-1) 0 HA)
    as [[Hno _]|[_ [[_ Hno]|(va' & i & v0 & file & fs & Hrun & Hi & Hu & HA' & HF' & Hsrc & Ham & Hva' & Hmin)]]];
    [by rewrite app_nil_r|done|done|done|unfold MMAP_START in *; lia|done| | |].
  - destruct Hno. unfold mmap_args. split_and!; [done|done|done|lia|done|done].
  - exfalso. destruct Hno as [?|[Hno|Hno]]; [lia|by apply (Forall_lookup_1 _ _ _ _ Hno Hw)|]. rewrite Hsz in Hno. by apply Hnt, Hno.
  - rewrite Hsz in Hmin. assert (va' = va) as ->.
    { destruct (Z.lt_total va' va) as [Hlt|[?|Hlt]]; [|done|by destruct (Hnt (Hmin va Hal ltac:(lia)))].
      destruct (Hlow va' ltac:(lia)) as [z Hz]. apply fmap_Some in Hz as ([j x] & Hj & _). apply list_find_Some in Hj as (Hj & [Hx Hin] & _).
      assert (i ≠ j) by (intros ->; by simplify_eq).
      destruct (vi_disj _ HA' i j (mapping va' len (Z.lor PROT_READ PROT_WRITE) (Z.lor MAP_PRIVATE MAP_ANONYMOUS) 0 file) x) as [|];
        [apply list_lookup_insert_eq; by eapply lookup_lt_Some|by rewrite list_lookup_insert_ne|done|done|simpl in *; lia..]. }
    unfold mmap_source in Hsrc. simpl in Hsrc. subst file. exists i, v0, fs. rewrite app_nil_r in HF'. done.
Qed.

(** The demonstration process with the direct mapping of one of its pages in
    the kernel half of its page table, and the stack where exec puts it. *)
Definition kernel_vm : vm_state pool :=
  match mappages (pg 0) (pg 3) (VA2PA (pg 3)) PGSIZE (Z.lor PTE_R PTE_W) (demo_vm 12) with Ret (_, s) => s | _ => demo_vm 12 end.
Definition exec_stack : Z := USER_VA_TOP - 16 * PGSIZE.
Definition kernel_mm : mm_state pool Z :=
  mk_mm kernel_vm demo_fstate (mk_uproc (pg 0) 0 0 exec_stack USER_VA_TOP (replicate 16 vma_zero)).
Definition alias : Z := USER_VA_TOP + VA2PA (pg 3).

(** Two mappings are enough to get an area that runs over the stack and past
    the end of the user half. *)
Lemma anon_past_user_top :
  ∃ s i v, (anon exec_stack (exec_stack - PGSIZE - MMAP_START) ;; anon exec_stack (alias + PGSIZE - (exec_stack - PGSIZE))) kernel_mm =
      Ret (exec_stack - PGSIZE, s) ∧
    mm_vm s = kernel_vm ∧ root s = pg 0 ∧ vma_inv (areas s) ∧ areas s !! i = Some v ∧ used v ≠ 0 ∧
    va_start v = exec_stack - PGSIZE ∧ va_end v = alias + PGSIZE.
Proof.
  assert (Hnone : ∀ y, backing (areas kernel_mm) y = None).
  { intros y. apply backing_None. intros i v [-> _]%lookup_replicate. by intros [[] _]. }
  destruct (anon_run kernel_mm exec_stack (exec_stack - PGSIZE - MMAP_START) MMAP_START no_areas_inv demo_fstate_inv)
    as (i & v0 & fs & Hrun & Hi & Hu & HA & HF); [done|done|done|done|by exists 0%nat, vma_zero|done|done|lia|done|].
  rewrite (bind_Ret _ _ _ _ _ Hrun). clear Hrun. set (v1 := anon_area _ _) in *. set (l1 := <[i := v1]> _) in *.
  assert (Hv1 : va_start v1 = MMAP_START ∧ va_end v1 = exec_stack - PGSIZE) by done. destruct Hv1 as [Hs1 He1].
  pose proof (lookup_lt_Some _ _ _ Hi) as Hlt. set (s1 := set_areas l1 _).
  assert (Hback : ∀ y, backing l1 y = if decide (MMAP_START ≤ y < exec_stack - PGSIZE) then Some (area_backing v1 y) else None).
  { intros y. destruct (backing_new (areas kernel_mm) i v0 v1 (vi_disj _ no_areas_inv) (vi_disj _ HA) Hi Hu ltac:(done) y) as [Hb _].
    etrans; [exact Hb|]. by rewrite Hs1, He1, Hnone. }
  destruct (anon_run s1 exec_stack (alias + PGSIZE - (exec_stack - PGSIZE)) (exec_stack - PGSIZE) HA HF)
    as (j & w0 & fs2 & Hrun & Hj & Hw & HA2 & _); [done|done|done|done| |done|done| | |].
  - exists (if decide (i = 0%nat) then 1%nat else 0%nat), vma_zero. split; [|done]. change (areas s1) with l1. unfold l1.
    case_decide; rewrite list_lookup_insert_ne by lia; done.
  - intros y Hy. change (areas s1) with l1. rewrite Hback, decide_True by done. done.
  - intros y Hy. change (areas s1) with l1. by rewrite Hback, decide_False by lia.
  - rewrite Hrun. eexists _, j, _. split_and!; [done|done|done|exact HA2|by apply list_lookup_insert_eq, (lookup_lt_Some _ _ _ Hj)|done|done|done].
Qed.

(** C40: There is a process without areas, with its stack where exec puts it,
    that gets with two anonymous mappings an area past the end of the user
    half; munmap of the last page of it returns 0, takes the kernel mapping of
    a page away and frees that page, because Sv39 takes nine bits of the
    address per level. *)
Theorem munmap_frees_kernel_page :
  on_vm (walk_addr (pg 0) (pg 3)) kernel_mm = Ret (VA2PA (pg 3), kernel_mm) ∧ (pg 3 ∉ pool_free (vm_pages (mm_vm kernel_mm))) ∧
  ∃ s', (anon exec_stack (exec_stack - PGSIZE - MMAP_START) ;; anon exec_stack (alias + PGSIZE - (exec_stack - PGSIZE)) ;;
         do_munmap alias PGSIZE) kernel_mm = Ret (0, s') ∧
    on_vm (walk_addr (pg 0) (pg 3)) s' = Ret (0, s') ∧ pg 3 ∈ pool_free (vm_pages (mm_vm s')).
Proof.
  split; [by vm_compute|]. split; [by apply (bool_decide_unpack _); vm_compute|].
  destruct anon_past_user_top as (s & i & v & Hrun & Hvm & Hroot & HA & Hi & Hu & Hs & He).
  assert (Hk : ∃ vs, kvmunmap (pg 0) alias PGSIZE true kernel_vm = Ret (tt, vs) ∧
    walk_addr (pg 0) (pg 3) vs = Ret (0, vs) ∧ pg 3 ∈ pool_free (vm_pages vs)).
  { destruct (kvmunmap (pg 0) alias PGSIZE true kernel_vm) as [[[] vs]| | |] eqn:E; [exists vs|by vm_compute in E..].
    vm_compute in E. injection E as <-. split_and!; [done|by vm_compute|by apply (bool_decide_unpack _); vm_compute]. }
  destruct Hk as (vs & Hk & Hw & Hin). rewrite <-Hvm, <-Hroot in Hk.
  pose proof (do_munmap_tail s i v alias vs HA Hi Hu ltac:(by rewrite Hs) (eq_sym He) ltac:(done) Hk) as Hun.
  eexists. rewrite <-(bind_assoc _ (λ _, anon _ _) (λ _, do_munmap _ _)), (bind_Ret _ _ _ _ _ Hrun). split; [exact Hun|].
  split; [|exact Hin]. apply (on_vm_run (walk_addr (pg 0) (pg 3)) (set_areas _ (set_mm_vm vs s)) 0 vs Hw).
Qed.
