(* ===== verification/Exec.v ===== *)
(** kernel/core/exec.c on RISC-V: execve_kernel builds a new address space
    from an ELF file, puts the arguments on its stack, and then either
    commits the process to it and gives the old one back, or frees what it
    built.

    The state is that of Mmap (page tables, file table and the layout of the
    current process), the signal state and trap frame of the process
    (Signal), and the satp register.  The file system is the interface
    [ExecNodes]: path lookup, vfs_read_at and vfs_iput.  The argument a1 of
    the trap frame is the first of the registers Signal keeps in [tf_rest].
    [argv] holds strings without their terminator. *)
From S2P Require Import Prelude Kalloc Vma Vm VmSpace Path Pipe Signal Vfs File Mmap.

Definition EXEC_STACK_PAGES : Z := 16.
Definition EXEC_MAX_PHDRS : Z := 16.
Definition EXEC_MAX_ARGS : Z := 16.

Definition flags2perm (flags : Z) : Z :=
  let perm := 0 in
  let perm := if has flags 0x1 then Z.lor perm PTE_EXEC else perm in
  let perm := if has flags 0x2 then Z.lor perm PTE_WRITE else perm in
  if has flags 0x4 then Z.lor perm PTE_READ else perm.

(** ** elf.h *)

Definition ELF_MAGIC : Z := 0x464C457F.
Definition ELF_PROG_LOAD : Z := 1.

Record elfhdr := mk_elfhdr {
  e_magic : Z; e_elf : list Z; e_type : Z; e_machine : Z; e_version : Z; e_entry : Z; e_phoff : Z; e_shoff : Z;
  e_flags : Z; e_ehsize : Z; e_phentsize : Z; e_phnum : Z; e_shentsize : Z; e_shnum : Z; e_shstrndx : Z
}.
Record proghdr := mk_proghdr {
  p_type : Z; p_flags : Z; p_off : Z; p_vaddr : Z; p_paddr : Z; p_filesz : Z; p_memsz : Z; p_align : Z
}.
Definition ELFHDR_SIZE : Z := 64.
Definition PROGHDR_SIZE : Z := 56.

(** A structure is what its bytes say, least significant first. *)
Definition le (l : list Z) : Z := foldr (λ b x, b + 256 * x) 0 l.
Definition field (d : list Z) (o n : nat) : Z := le (take n (drop o d)).
Definition elfhdr_of (d : list Z) : elfhdr :=
  mk_elfhdr (field d 0 4) (take 12 (drop 4 d)) (field d 16 2) (field d 18 2) (field d 20 4) (field d 24 8) (field d 32 8) (field d 40 8)
    (field d 48 4) (field d 52 2) (field d 54 2) (field d 56 2) (field d 58 2) (field d 60 2) (field d 62 2).
Definition proghdr_of (d : list Z) : proghdr :=
  mk_proghdr (field d 0 4) (field d 4 4) (field d 8 8) (field d 16 8) (field d 24 8) (field d 32 8) (field d 40 8) (field d 48 8).

(** The bytes of a word. *)
Definition word_bytes (x : Z) : list Z := (λ i, Z.land (Z.shiftr x (8 * i)) 0xff) <$> seqZ 0 8.

Definition AT_NULL : Z := 0.
Definition AT_PHDR : Z := 3.
Definition AT_PHENT : Z := 4.
Definition AT_PHNUM : Z := 5.
Definition AT_PAGESZ : Z := 6.
Definition AT_ENTRY : Z := 9.
Definition AT_UID : Z := 11.
Definition AT_EUID : Z := 12.
Definition AT_GID : Z := 13.
Definition AT_EGID : Z := 14.
Definition AT_SECURE : Z := 23.
Definition AT_RANDOM : Z := 25.
Definition AT_EXECFN : Z := 31.

(** ** What exec uses of the file system

    [en_read n off size] is vfs_read_at: its result and the bytes it stored.
    [en_data] is the contents of a file. *)
Class ExecNodes (N : Type) `{FileNodes N} := {
  en_namei : cstring → cstring → K N Z;
  en_read : Z → Z → Z → K N (Z * list Z);
  en_data : N → Z → list Z;
  en_namei_total cwd path s : ∃ n s', en_namei cwd path s = Ret (n, s');
  en_read_spec n off size s : 0 ≤ off → 0 ≤ size →
    ∃ r l s', en_read n off size s = Ret ((r, l), s') ∧ en_data s' n = en_data s n ∧
      - 2 ^ 31 ≤ r < 2 ^ 31 ∧ Z.of_nat (length l) ≤ size ∧
      (0 ≤ r → r = Z.of_nat (length l) ∧ l = take (length l) (drop (Z.to_nat off) (en_data s n)))
}.

Record elf_reader := mk_reader { rd_node : Z; rd_data : option (list Z) }.

Record exec_state (P N U : Type) := mk_ex {
  ex_mm : mm_state P N;
  ex_sig : sigproc U;
  satp : Z
}.
Arguments mk_ex {_ _ _} _ _ _.
Arguments ex_mm {_ _ _} _.
Arguments ex_sig {_ _ _} _.
Arguments satp {_ _ _} _.

Section exec.
Context {P : Type} {PP : PagePool P} {N : Type} {FN : FileNodes N} {FP : FileNodesPut N} {EN : ExecNodes N} {U : Type}.
Abbreviation st := (exec_state P N U).
(** The kernel's root table, the embedded /init when the build has one, the
    reader of mapped files behind a page fault, and the current process. *)
Context (kernel_table : Z) (init_code : option (list Z)) (read_at : nat → Z → Z * list Z) (pid : Z).

Definition set_ex_mm m (s : st) : st := mk_ex m (ex_sig s) (satp s).
Definition set_ex_sig g (s : st) : st := mk_ex (ex_mm s) g (satp s).
Definition on_mm {A} (m : K (mm_state P N) A) : K st A := zoom ex_mm set_ex_mm m.
Definition ex_on_vm {A} (m : K (vm_state P) A) : K st A := on_mm (on_vm m).
Definition ex_on_nodes {A} (m : K N A) : K st A := on_mm (on_files (on_fnodes m)).
Definition ex_vm (s : st) : vm_state P := mm_vm (ex_mm s).
Definition ex_proc (s : st) : uproc := mm_proc (ex_mm s).

(** ** Reading the file *)

Definition read_elf (rd : elf_reader) (off size : Z) : K st (Z * list Z) :=
  match rd_data rd with
  | Some d =>
      let len := Z.of_nat (length d) in
      if decide (off > len ∨ size > len - off) then mret (-1, [])
      else mret (i32 size, take (Z.to_nat size) (drop (Z.to_nat off) d))
  | None => ex_on_nodes (en_read (rd_node rd) off (u32 size))
  end.

(** The bytes that read_elf stored at [kva + offset] of a page. *)
Definition store_page (kva offset : Z) (data : list Z) : K (vm_state P) unit :=
  b ← get_frame kva;
  modify (λ s, set_frames (<[kva := splice offset data b]> (frames s)) s).

(** One round reads up to the end of a page, as a round of copyout does. *)
Fixpoint loadseg_loop (fuel : nat) (pagetable va : Z) (rd : elf_reader) (off size i : Z) : K st Z :=
  if decide (i < size) then
    match fuel with
    | O => λ _, NoFuel
    | S fuel =>
        let va_page := PGROUNDDOWN (u64 (va + i)) in
        let offset := u64 (va + i) - va_page in
        pa ← ex_on_vm (walk_addr pagetable va_page);
        if decide (pa = 0) then mret (-1) else
        let n := if decide (PGSIZE - offset > size - i) then size - i else PGSIZE - offset in
        x ← read_elf rd (u64 (off + i)) n;
        ex_on_vm (store_page (PA2VA pa) offset (snd x)) ;;
        if decide (u64 (fst x) ≠ n) then mret (-1) else
        loadseg_loop fuel pagetable va rd off size (i + n)
    end
  else mret 0.
Definition loadseg (pagetable va : Z) (rd : elf_reader) (off size : Z) : K st Z :=
  loadseg_loop (copy_fuel size) pagetable va rd off size 0.

(** The program headers; [off] is an int. [None]: a read failed. *)
Fixpoint read_phdrs (n : nat) (rd : elf_reader) (off : Z) : K st (option (list proghdr)) :=
  match n with
  | O => mret (Some [])
  | S n =>
      x ← read_elf rd (u64 off) PROGHDR_SIZE;
      if decide (u64 (fst x) ≠ PROGHDR_SIZE) then mret None else
      rest ← read_phdrs n rd (i32 (off + PROGHDR_SIZE));
      mret (cons (proghdr_of (snd x)) <$> rest)
  end.

(** The segment loop: the last [va_end], and an error or the load bias. *)
Fixpoint load_segments (pagetable : Z) (rd : elf_reader) (phs : list proghdr) (bias : option Z) (va_end : Z) : K st (Z * (Z + option Z)) :=
  match phs with
  | [] => mret (va_end, inr bias)
  | ph :: phs =>
      if decide (p_type ph ≠ ELF_PROG_LOAD) then load_segments pagetable rd phs bias va_end else
      let bias := match bias with None => Some (u64 (p_vaddr ph - p_off ph)) | Some b => Some b end in
      let va_start := p_vaddr ph in
      let va_end := u64 (va_start + p_memsz ph) in
      r ← ex_on_vm (uvmalloc pagetable va_start (u64 (va_end - va_start)) (flags2perm (p_flags ph)));
      if decide (r < 0) then mret (va_end, inl (- ENOMEM)) else
      r ← loadseg pagetable va_start rd (p_off ph) (p_filesz ph);
      if decide (r < 0) then mret (va_end, inl (- EIO)) else
      load_segments pagetable rd phs bias va_end
  end.

(** From the first read to the end of the segment loop: the new page table
    (0 before uvmcreate), [va_end], and an error or the header and the bias. *)
Definition load_image (rd : elf_reader) : K st (Z * Z * (Z + elfhdr * Z)) :=
  x ← read_elf rd 0 ELFHDR_SIZE;
  if decide (u64 (fst x) ≠ ELFHDR_SIZE) then mret (0, 0, inl (- ENOEXEC)) else
  let eh := elfhdr_of (snd x) in
  if decide (e_magic eh ≠ ELF_MAGIC) then mret (0, 0, inl (- ENOEXEC)) else
  pt ← ex_on_vm (uvmcreate kernel_table);
  if decide (pt = 0) then mret (0, 0, inl (- ENOMEM)) else
  if decide (e_phnum eh > EXEC_MAX_PHDRS) then mret (pt, 0, inl (- ENOEXEC)) else
  o ← read_phdrs (Z.to_nat (e_phnum eh)) rd (i32 (e_phoff eh));
  match o with
  | None => mret (pt, 0, inl (- ENOEXEC))
  | Some phs =>
      y ← load_segments pt rd phs None 0;
      mret (pt, fst y, match snd y with inl e => inl e | inr b => inr (eh, default 0 b) end)
  end.

(** ** The stack *)

(** The argument strings, last first: the stack pointer and the address of
    each, [None] for [goto bad]. *)
Fixpoint push_args (pagetable stack_bottom : Z) (rargs : list cstring) (sp : Z) (ptrs : list Z) : K st (option (Z * list Z)) :=
  match rargs with
  | [] => mret (Some (sp, ptrs))
  | arg :: rargs =>
      let len := Z.of_nat (length arg) + 1 in
      let sp := Z.land (u64 (sp - len)) (not64 0x0F) in
      if decide (sp < stack_bottom) then mret None else
      p ← gets ex_proc;
      r ← ex_on_vm (copyout read_at p pagetable sp (arg ++ [0]));
      if decide (r < 0) then mret None else
      push_args pagetable stack_bottom rargs sp (sp :: ptrs)
  end.

Definition auxv (eh : elfhdr) (load_bias random_user execfn : Z) : list Z :=
  [AT_PHDR; u64 (load_bias + e_phoff eh); AT_PHENT; PROGHDR_SIZE; AT_PHNUM; e_phnum eh; AT_PAGESZ; PGSIZE;
   AT_ENTRY; e_entry eh; AT_UID; 0; AT_EUID; 0; AT_GID; 0; AT_EGID; 0; AT_SECURE; 0;
   AT_RANDOM; random_user; AT_EXECFN; execfn; AT_NULL; 0].
Definition ustack (argc : Z) (ptrs : list Z) (eh : elfhdr) (load_bias random_user : Z) : list Z :=
  argc :: ptrs ++ [0; 0] ++ auxv eh load_bias random_user (default 0 (head ptrs)).

(** The strings, the random bytes and the words from argc on: the final
    stack pointer. *)
Definition make_stack (pagetable stack_bottom stack_top : Z) (argv : list cstring) (eh : elfhdr) (load_bias : Z) : K st (option Z) :=
  o ← push_args pagetable stack_bottom (reverse argv) stack_top [];
  match o with
  | None => mret None
  | Some (sp, ptrs) =>
      let sp := u64 (sp - 16) in
      if decide (sp < stack_bottom) then mret None else
      p ← gets ex_proc;
      r ← ex_on_vm (copyout read_at p pagetable sp (replicate 16 0));
      if decide (r < 0) then mret None else
      let random_user := sp in
      let sp := Z.land sp (not64 0x0F) in
      let words := ustack (Z.of_nat (length argv)) ptrs eh load_bias random_user in
      let sp := u64 (sp - Z.of_nat (length words) * 8) in
      let sp := Z.land sp (not64 0x0F) in
      if decide (sp < stack_bottom) then mret None else
      r ← ex_on_vm (copyout read_at p pagetable sp (concat (word_bytes <$> words)));
      mret (if decide (r < 0) then None else Some sp)
  end.

(** ** Committing, and giving up *)

Definition free_user_layout (pagetable heap_top stack_bottom stack_top : Z) : K (vm_state P) unit :=
  (if decide (heap_top > 0)
   then uvmunmap pagetable 0 (i32 (PGROUNDUP heap_top / PGSIZE)) true else mret tt) ;;
  (if decide (stack_top > stack_bottom)
   then uvmunmap pagetable stack_bottom (i32 (PGROUNDUP (u64 (stack_top - stack_bottom)) / PGSIZE)) true
   else mret tt) ;;
  forM (seqZ 256 256) (λ i, write_pte (pagetable + 8 * i) 0) ;;
  freewalk 3 pagetable.

Definition MAKE_SATP (pagetable : Z) : Z := Z.lor (Z.shiftl 8 60) (Z.shiftr pagetable 12).
Definition switch_to_process (pagetable : Z) : K st unit :=
  modify (λ s, mk_ex (ex_mm s) (ex_sig s) (MAKE_SATP (VA2PA pagetable))).

Definition put_node (rd : elf_reader) : K st unit :=
  if decide (rd_node rd = 0) then mret tt else ex_on_nodes (fn_iput (rd_node rd)).

(** The labels bad: and bad_unlock_node: (the node is put by the caller). *)
Definition bad (pagetable va_end new_heap_top new_stack_bottom new_stack_top error : Z) : K st Z :=
  (if decide (pagetable = 0) then mret tt else
   let new_heap_top := if decide (new_heap_top = 0) then PGROUNDUP va_end else new_heap_top in
   ex_on_vm (free_user_layout pagetable new_heap_top new_stack_bottom new_stack_top)) ;;
  mret error.

Definition set_layout (pt hb ht sb stk : Z) (s : st) : st :=
  let m := ex_mm s in
  set_ex_mm (mk_mm (mm_vm m) (mm_files m) (mk_uproc pt hb ht sb stk (vm_area (mm_proc m)))) s.
Definition set_trapframe (sp a0 a1 epc : Z) (g : sigproc U) : sigproc U :=
  let t := sp_tf g in
  mk_sigproc (sp_hand g) (mk_trapframe sp epc a0 (tf_ra t) (<[0%nat := a1]> (tf_rest t))) (sp_lock g) (sp_user g).

Definition commit (pt heap stack_bottom stack_top sp argc entry : Z) : K st Z :=
  old ← gets ex_proc;
  modify (λ s, set_layout pt (heap_bottom (ex_proc s)) (heap_top (ex_proc s)) (Vm.stack_bottom (ex_proc s)) (Vm.stack_top (ex_proc s)) s) ;;
  switch_to_process pt ;;
  modify (set_layout pt heap heap stack_bottom stack_top) ;;
  modify (λ s, set_ex_sig (set_trapframe sp argc (u64 (sp + 8)) entry (ex_sig s)) s) ;;
  zoom ex_sig set_ex_sig signal_reset_on_exec ;;
  (if decide (heap_top old > 0 ∨ Vm.stack_top old > Vm.stack_bottom old) then
     on_mm (free_pagetable_vma (pagetable old)) ;;
     ex_on_vm (free_user_layout (pagetable old) (heap_top old) (Vm.stack_bottom old) (Vm.stack_top old))
   else mret tt) ;;
  mret 0.

(** From the guard page to the end. *)
Definition finish (pt va_end : Z) (eh : elfhdr) (load_bias : Z) (argv : list cstring) : K st Z :=
  let sz := PGROUNDUP va_end in
  r ← ex_on_vm (uvmalloc pt sz PGSIZE 0);
  if decide (r < 0) then bad pt va_end 0 0 0 (- ENOMEM) else
  let heap := u64 (sz + PGSIZE) in
  let stack_top := USER_VA_TOP in
  let stack_bottom := USER_VA_TOP - EXEC_STACK_PAGES * PGSIZE in
  r ← ex_on_vm (uvmalloc pt stack_bottom (EXEC_STACK_PAGES * PGSIZE) (Z.lor PTE_READ PTE_WRITE));
  if decide (r < 0) then bad pt va_end heap 0 0 (- ENOMEM) else
  o ← make_stack pt stack_bottom stack_top argv eh load_bias;
  match o with
  | None => bad pt va_end heap stack_bottom stack_top (- E2BIG)
  | Some sp => commit pt heap stack_bottom stack_top sp (Z.of_nat (length argv)) (e_entry eh)
  end.

(** [vfs_namei(path)] or the embedded image: [None] when there is no such file. *)
Definition slash_init : cstring := [47; 105; 110; 105; 116].
Definition lookup_image (path : cstring) : K st (option elf_reader) :=
  cwd ← gets (λ s, cwds (mm_files (ex_mm s)) !! Z.to_nat pid);
  match cwd with
  | None => kfault
  | Some cwd => n ← ex_on_nodes (en_namei cwd path);
                mret (if decide (n = 0) then None else Some (mk_reader n None))
  end.
Definition open_image (path : cstring) : K st (option elf_reader) :=
  match init_code with
  | Some d => if decide (path = slash_init) then mret (Some (mk_reader 0 (Some d))) else lookup_image path
  | None => lookup_image path
  end.

(** argc is the number of strings in [argv]. *)
Definition execve_kernel (path : option cstring) (argv : list cstring) : K st Z :=
  match path with
  | None => mret (- EFAULT)
  | Some path =>
      if decide (path = []) then mret (- ENOENT) else
      let argc := Z.of_nat (length argv) in
      if decide (argc ≤ 0 ∨ argc > EXEC_MAX_ARGS) then mret (- E2BIG) else
      if decide (head argv = Some []) then mret (- EINVAL) else
      o ← open_image path;
      match o with
      | None => mret (- ENOENT)
      | Some rd =>
          i ← load_image rd;
          put_node rd ;;
          match i with
          | (pt, va_end, inl error) => bad pt va_end 0 0 0 error
          | (pt, va_end, inr (eh, load_bias)) => finish pt va_end eh load_bias argv
          end
      end
  end.

(** [exec(path)]: the path is the only argument. *)
Definition exec (path : cstring) : K st Z :=
  execve_kernel (Some path) [take (Z.to_nat (PATH_MAX - 1)) path].
End exec.

(** * A new address space under construction *)

Section build.
Context {P : Type} {PP : PagePool P}.
Abbreviation owner := (gmap Z (Z * Z * Z)).
Abbreviation aspace := (gmap (Z * Z) Z).
(** What there was before: the tables, the mappings and the memory; and the
    root of the new space. *)
Context (s0 : vm_state P) (o0 : owner) (m0 : aspace) (h : list Z) (pt : Z).

Record building (s : vm_state P) (a : pool) (o : owner) (m : aspace) : Prop := {
  bu_rel : vm_rel s a o m h;
  bu_root : is_root o pt;
  bu_sub : o0 ⊆ o;
  bu_in : grows_in pt o0 o;
  bu_other r v : r ≠ pt → m !! (r, v) = m0 !! (r, v);
  bu_views r y b : r ≠ pt → user_byte s0 m0 r y = Some b → user_byte s m r y = Some b;
  bu_own v e : m !! (pt, v) = Some e → PTE_FLAGS e ≠ PTE_V ∧ mapped (pte_frame e) m = 1
}.

(** The pages of the new space lie below [lo]. *)
Definition below (lo : Z) (m : aspace) : Prop := ∀ v e, m !! (pt, v) = Some e → v * 4096 < lo.

Lemma building_start a kt :
  vm_rel s0 a o0 m0 h → is_root o0 kt → pool_free a ≠ [] →
  (∀ s a', uvmcreate kt s0 = Ret (pt, s) → vm_rel s a' (<[pt := (pt, 2, 0)]> o0) m0 h → vm_ext s0 s o0 (<[pt := (pt, 2, 0)]> o0) m0 h →
    o0 !! pt = None → building s a' (<[pt := (pt, 2, 0)]> o0) m0).
Proof.
  intros HV Hkt Hne s a' _ HV' Hx Hpt. split; [done|apply lookup_insert_eq|apply Hx|apply grows_in_new|done| |].
  - intros r y b _ Hb. by apply (ext_views s0 s o0 _ m0 m0 h 0 0 Hx ltac:(done)); [|lia].
  - intros v e He. by rewrite (no_root_no_leaf s0 o0 m0 pt v (vr_pt _ _ _ _ _ HV) Hpt) in He.
Qed.

Lemma building_alloc s a o m va size v n perm :
  building s a o m → 0 ≤ va → 0 ≤ size → va + size ≤ 2 ^ 38 →
  v = va / 4096 → n = (va + size + 4095) / 4096 - v → (∀ v', v ≤ v' < v + n → m !! (pt, v') = None) →
  ∃ x s' a' o' m', uvmalloc pt va size perm s = Ret (x, s') ∧ building s' a' o' m' ∧ m ⊆ m' ∧ views_kept pt 0 0 s m s' m' ∧
    (x = 0 ∧ grown pt v n (pte_from_perm (Z.lor perm PTE_USER)) m s' m' ∨ x = -1 ∧ m' = m).
Proof.
  intros HB Hva Hsz Hle Hv Hn Hnone. pose proof HB as [HV Hr Hsub Hin Hoth Hvw Hown].
  destruct (uvmalloc_run s a o m h pt va size v n perm HV Hr Hva Hsz Hle Hv Hn Hnone) as (x & s' & a' & o' & m' & Hrun & HV' & Hx & Hg & Hres).
  assert (Hmono : m ⊆ m') by (destruct Hres as [[_ HG]|[_ ->]]; [by apply (grown_mono _ _ _ _ _ _ _ HG)|done]).
  pose proof (ext_views s s' o o' m m' h pt 0 Hx Hmono) as Hkeep.
  exists x, s', a', o', m'. split; [done|]. split; [|done]. split; [done|by apply (vm_ext_root _ _ _ _ _ _ _ Hx)| | | | |].
  - etrans; [exact Hsub|apply Hx].
  - by eapply grows_in_trans.
  - intros r v' Hne. destruct Hres as [[_ HG]|[_ ->]]; [|by apply Hoth]. rewrite (gr_out _ _ _ _ _ _ _ HG) by tauto. by apply Hoth.
  - intros r y b Hne Hb. apply Hkeep; [by apply Hvw|tauto].
  - intros v' e He. destruct Hres as [[_ HG]|[_ ->]]; [|by apply (Hown v')].
    destruct (decide (v ≤ v' < v + n)) as [Hi|Ho].
    + destruct (gr_in _ _ _ _ _ _ _ HG v' Hi) as (c & Hc & Hl & H1 & _). rewrite Hl in He. injection He as <-.
      split; [by apply user_flags_ne|]. by rewrite mk_pte_frame by (done || apply pte_from_perm_range).
    + rewrite (gr_out _ _ _ _ _ _ _ HG) in He by tauto. destruct (Hown v' e He) as [Hfl H1]. split; [done|].
      rewrite (grown_mapped _ _ _ _ _ _ _ (pte_frame e) HG); [done|apply pte_from_perm_range|done|lia].
Qed.

(** A store to a page of the new space. *)
Lemma building_step s s' a o m lo hi :
  building s a o m → vm_rel s' a o m h → views_kept pt lo hi s m s' m → building s' a o m.
Proof.
  intros [HV Hr Hsub Hin Hoth Hvw Hown] HV' Hk. split; [done..| |done]. intros r y b Hne Hb. apply Hk; [by apply Hvw|tauto].
Qed.

Lemma building_store s a o m dst l e :
  building s a o m → m !! (pt, dst / 4096) = Some e → 0 ≤ dst → dst mod 4096 + Z.of_nat (length l) ≤ 4096 →
  ∃ s', store_page (pte_frame e) (dst mod 4096) l s = Ret (tt, s') ∧ building s' a o m ∧
    views_kept pt dst (dst + Z.of_nat (length l)) s m s' m ∧
    ∀ i, 0 ≤ i < Z.of_nat (length l) → user_byte s' m pt (dst + i) = l !! Z.to_nat i.
Proof.
  intros HB He Hd Hl. destruct (bu_own _ _ _ _ HB _ e He) as [_ H1].
  destruct (page_store_run s a o m h pt dst l e (bu_rel _ _ _ _ HB) He H1 Hd Hl) as (b & Hb & HV' & Hk & Hs).
  eexists. split; [unfold store_page; rewrite (bind_Ret _ _ s b s) by (unfold get_frame; by rewrite Hb); reflexivity|].
  split; [by eapply building_step|done].
Qed.

Lemma building_copyout read_at s a o m p dst src :
  building s a o m → 0 ≤ dst → dst + Z.of_nat (length src) ≤ 2 ^ 38 →
  own_pages pt dst (dst + Z.of_nat (length src)) stack_entry m →
  ∃ s', copyout read_at p pt dst src s = Ret (0, s') ∧ building s' a o m ∧
    views_kept pt dst (dst + Z.of_nat (length src)) s m s' m ∧
    ∀ i, 0 ≤ i < Z.of_nat (length src) → user_byte s' m pt (dst + i) = src !! Z.to_nat i.
Proof.
  intros HB Hd Hl HP. destruct (copyout_mapped read_at s a o m h p pt dst src (bu_rel _ _ _ _ HB) (bu_root _ _ _ _ HB) Hd Hl HP) as (s' & Hrun & HV' & Hk & Hs).
  exists s'. split; [done|]. split; [by eapply building_step|done].
Qed.

(** free_user_layout is uvmfree with the layout as arguments. *)
Lemma free_user_layout_uvmfree ht sb stk : free_user_layout pt ht sb stk = uvmfree pt (mk_uproc 0 0 ht sb stk []) (P := P).
Proof. done. Qed.

Lemma building_free s a o m ht sb stk :
  pt_rel s0 o0 m0 → o0 !! pt = None → building s a o m → 0 ≤ ht ≤ 2 ^ 38 → 0 ≤ sb → sb mod 4096 = 0 → stk ≤ 2 ^ 38 →
  (∀ v e, m !! (pt, v) = Some e → v * 4096 < ht ∨ sb ≤ v * 4096 < stk) →
  ∃ s' a', free_user_layout pt ht sb stk s = Ret (tt, s') ∧ vm_rel s' a' o0 m0 h ∧
    ∀ r y b, user_byte s0 m0 r y = Some b → user_byte s' m0 r y = Some b.
Proof.
  intros HR Hpt HB Hht Hsb Hal Hstk HL. rewrite free_user_layout_uvmfree. pose proof HB as [HV Hr Hsub Hin Hoth Hvw Hown].
  destruct (uvmfree_back s0 s a o0 m0 h o m pt (mk_uproc 0 0 ht sb stk []) HR Hpt Hsub Hin HV Hr Hoth Hht Hsb Hal Hstk) as (s' & a' & Hrun & HV' & Hf).
  { intros v e He. split; [by apply (Hown v)|]. by apply (HL v e). }
  exists s', a'. split; [done|]. split; [done|]. intros r y b Hb. assert (Hne : r ≠ pt).
  { intros ->. unfold user_byte in Hb. by rewrite (no_root_no_leaf s0 o0 m0 pt _ HR Hpt) in Hb. }
  specialize (Hvw r y b Hne Hb). unfold user_byte in *. rewrite Hoth in Hvw by done. by rewrite Hf.
Qed.
End build.

(** * Loading *)

Section load.
Context {P : Type} {PP : PagePool P} {N : Type} {FN : FileNodes N} {FP : FileNodesPut N} {EN : ExecNodes N} {U : Type}.
Abbreviation st := (exec_state P N U).
(** The process as exec found it; what exec does before it commits changes
    only memory and the inodes. *)
Context (s0 : st).
Definition patch (v : vm_state P) (n : N) : st :=
  mk_ex (mk_mm v (set_fnodes n (mm_files (ex_mm s0))) (mm_proc (ex_mm s0))) (ex_sig s0) (satp s0).

Lemma patch_id : patch (ex_vm s0) (fnodes (mm_files (ex_mm s0))) = s0.
Proof. unfold patch, ex_vm. by destruct s0 as [[v [] p] g t]. Qed.
Lemma patch_vm {A} (k : K (vm_state P) A) v n x v' : k v = Ret (x, v') → ex_on_vm k (patch v n) = Ret (x, patch v' n).
Proof. intros Hk. unfold ex_on_vm, on_mm, on_vm, zoom. simpl. by rewrite Hk. Qed.
Lemma patch_nodes {A} (k : K N A) v n x n' : k n = Ret (x, n') → ex_on_nodes k (patch v n) = Ret (x, patch v n').
Proof. intros Hk. unfold ex_on_nodes, on_mm, on_files, on_fnodes, zoom. simpl. by rewrite Hk. Qed.

(** The contents of the image. *)
Definition reader_data (rd : elf_reader) (n : N) : list Z :=
  match rd_data rd with Some d => d | None => en_data n (rd_node rd) end.

Lemma read_elf_run v n rd off size :
  0 ≤ off → 0 ≤ size < 2 ^ 31 →
  ∃ r l n', read_elf rd off size (patch v n) = Ret ((r, l), patch v n') ∧ reader_data rd n' = reader_data rd n ∧
    Z.of_nat (length l) ≤ size ∧
    (u64 r = size → Z.of_nat (length l) = size ∧ l = take (Z.to_nat size) (drop (Z.to_nat off) (reader_data rd n))).
Proof.
  intros Ho Hs. unfold read_elf, reader_data. destruct (rd_data rd) as [d|].
  - case_decide as Hd.
    + exists (-1), [], n. split; [done|]. split; [done|]. split; [simpl; lia|]. change (u64 (-1)) with (2 ^ 64 - 1). lia.
    + exists (i32 size). eexists _, n. split; [done|]. split; [done|]. rewrite length_take, length_drop. split; [lia|].
      intros _. split; [lia|done].
  - rewrite u32_small by lia. destruct (en_read_spec (rd_node rd) off size n Ho ltac:(lia)) as (r & l & n' & Hrun & Hdata & Hr & Hl & Hok).
    exists r, l, n'. split; [by apply patch_nodes|]. split; [done|]. split; [lia|]. intros Hu.
    assert (Hr0 : 0 ≤ r). { destruct (decide (0 ≤ r)); [done|]. unfold u64 in Hu. rewrite <-(Z.mod_add r 1), Z.mod_small in Hu; lia. }
    rewrite u64_small in Hu by lia. destruct (Hok Hr0) as [Hlen Htake]. split; [lia|].
    rewrite Htake at 1. f_equal. lia.
Qed.

(** The bytes of [d] from [off] on are in memory from [va] on. *)
Definition loaded (v : vm_state P) (m : gmap (Z * Z) Z) (pt va : Z) (d : list Z) (off lo hi : Z) : Prop :=
  ∀ j, lo ≤ j < hi → ∃ b, d !! Z.to_nat (off + j) = Some b ∧ user_byte v m pt (va + j) = Some b.

Context (v0 : vm_state P) (o0 : gmap Z (Z * Z * Z)) (m0 : gmap (Z * Z) Z) (h : list Z) (pt : Z).
Abbreviation building := (building v0 o0 m0 h pt).

Lemma loadseg_loop_run fuel v n a o m va rd off size i :
  building v a o m → 0 ≤ va → va + size ≤ 2 ^ 38 → 0 ≤ off → off + size < 2 ^ 64 → 0 ≤ i ≤ size →
  (∀ x, va + i ≤ x < va + size → is_Some (m !! (pt, x / 4096))) →
  (va + i) mod 4096 + (size - i) ≤ Z.of_nat fuel * 4096 ∨ size - i = 0 →
  ∃ x v' n', loadseg_loop fuel pt va rd off size i (patch v n) = Ret (x, patch v' n') ∧ building v' a o m ∧
    reader_data rd n' = reader_data rd n ∧ views_kept pt (va + i) (va + size) v m v' m ∧
    (x = 0 ∧ loaded v' m pt va (reader_data rd n) off i size ∨ x = -1).
Proof.
  revert v n i. induction fuel as [|fuel IH]; intros v n i HB Hva Hle Hoff Hoffs Hi Hpages Hfuel; cbn [loadseg_loop].
  { assert (i = size) as -> by (pose proof (Z.mod_pos_bound (va + i) 4096); lia). rewrite decide_False by lia. exists 0, v, n.
    split; [done|]. split; [done|]. split; [done|]. split; [by intros ? ? ? ? _|]. left. split; [done|]. intros j. lia. }
  case_decide as Hlt; cycle 1.
  { assert (i = size) as -> by lia. exists 0, v, n.
    split; [done|]. split; [done|]. split; [done|]. split; [by intros ? ? ? ? _|]. left. split; [done|]. intros j. lia. }
  rewrite !(u64_small (va + i)), (u64_small (off + i)) by lia.
  destruct (round_size (va + i) (size - i) ltac:(lia) ltac:(lia)) as (Hof & Hsz & Hfit & Hend).
  set (k := if decide (PGSIZE - (va + i - PGROUNDDOWN (va + i)) > size - i) then _ else _) in *. rewrite Hof.
  rewrite (PGROUNDDOWN_page (va + i) _ eq_refl) in *. destruct (Hpages (va + i) ltac:(lia)) as [e He].
  pose proof (bu_rel _ _ _ _ _ _ _ _ _ HB) as HV.
  rewrite (bind_Ret _ _ _ _ _ (patch_vm _ v n _ _ (walk_addr_run v o m pt _ e (vr_pt _ _ _ _ _ HV) (bu_root _ _ _ _ _ _ _ _ _ HB) He))).
  destruct (present_frame v a o m h _ e HV He) as (Hfok & _).
  assert (Hpa : PTE2PA e ≠ 0). { rewrite <-VA2PA_frame. destruct (VA2PA_range _ Hfok) as (? & _). lia. }
  rewrite decide_False by done.
  pose proof (Z.mod_pos_bound (va + i) 4096 ltac:(lia)) as Hmod.
  destruct (read_elf_run v n rd (off + i) k ltac:(lia) ltac:(lia)) as (r & l & n1 & Hrd & Hd1 & Hl & Hfull).
  rewrite (bind_Ret _ _ _ _ _ Hrd). cbn [fst snd]. fold (pte_frame e).
  destruct (building_store v0 o0 m0 h pt v a o m (va + i) l e HB He ltac:(lia) ltac:(lia)) as (v1 & Hst & HB1 & Hk1 & Hb1).
  rewrite (bind_Ret _ _ _ _ _ (patch_vm _ v n1 _ _ Hst)).
  assert (Hk1' : views_kept pt (va + i) (va + i + k) v m v1 m).
  { intros r' x b Hb Hout. apply Hk1; [done|]. intros [-> Hx]. apply Hout. split; [done|]. lia. }
  case_decide as Hr.
  { exists (-1), v1, n1. split; [done|]. split; [done|]. split; [done|]. split; [|by right].
    intros r' x b Hb Hout. apply Hk1'; [done|]. intros [-> Hx]. apply Hout. split; [done|]. lia. }
  destruct (Hfull ltac:(destruct (decide (u64 r = k)); tauto)) as [Hlen Hldata].
  destruct (IH v1 n1 (i + k) HB1) as (x & v' & n' & Hrun & HB' & Hd' & Hk' & Hres); [lia..|intros; apply Hpages; lia| |].
  { destruct Hfuel as [Hfuel|]; [|lia]. replace (va + (i + k)) with (va + i + k) by lia. replace (size - (i + k)) with (size - i - k) by lia.
    apply (fuel_step fuel (va + i) (size - i) k); [done|lia|done|done]. }
  exists x, v', n'. split; [done|]. split; [done|]. split; [congruence|]. split.
  { eapply views_kept_trans; [exact Hk1'| |]. - rewrite <-Z.add_assoc. exact Hk'. - lia. }
  destruct Hres as [[-> Hld]|]; [|by right]. left. split; [done|]. intros j Hj. destruct (decide (j < i + k)) as [Hlo|Hhi].
  - rewrite Hd1 in Hld. specialize (Hb1 (j - i) ltac:(lia)). destruct (lookup_lt_is_Some_2 l (Z.to_nat (j - i)) ltac:(lia)) as [b Hb]. exists b. split.
    + rewrite Hldata, lookup_take_lt, lookup_drop in Hb by lia. rewrite <-Hb. f_equal. lia.
    + replace (va + i + (j - i)) with (va + j) in Hb1 by lia. apply Hk'; [congruence|lia].
  - destruct (Hld j ltac:(lia)) as (b & Hb & Hu). rewrite Hd1 in Hb. by exists b.
Qed.

Lemma loadseg_run v n a o m va rd off size :
  building v a o m → 0 ≤ va → 0 ≤ size → va + size ≤ 2 ^ 38 → 0 ≤ off → off + size < 2 ^ 64 →
  (∀ x, va ≤ x < va + size → is_Some (m !! (pt, x / 4096))) →
  ∃ x v' n', loadseg pt va rd off size (patch v n) = Ret (x, patch v' n') ∧ building v' a o m ∧
    reader_data rd n' = reader_data rd n ∧ views_kept pt va (va + size) v m v' m ∧
    (x = 0 ∧ loaded v' m pt va (reader_data rd n) off 0 size ∨ x = -1).
Proof.
  intros HB Hva Hs Hle Ho Hos Hp. unfold loadseg.
  destruct (loadseg_loop_run (copy_fuel size) v n a o m va rd off size 0 HB Hva Hle Ho Hos) as (x & v' & n' & Hrun & HB' & Hd & Hk & Hres);
    [lia|intros; apply Hp; lia|left; rewrite Z.add_0_r, Z.sub_0_r; by apply copy_fuel_enough|].
  rewrite Z.add_0_r in Hk. by exists x, v', n'.
Qed.

(** ** Segments *)

Definition is_load (ph : proghdr) : Prop := p_type ph = ELF_PROG_LOAD.
#[global] Instance is_load_dec ph : Decision (is_load ph).
Proof. unfold is_load. apply _. Defined.
Definition seg_end (ph : proghdr) : Z := p_vaddr ph + p_memsz ph.
Definition seg_perm (ph : proghdr) : Z := pte_from_perm (Z.lor (flags2perm (p_flags ph)) PTE_USER).
(** Above the image there is room for the guard page and the stack. *)
Definition IMAGE_TOP : Z := USER_VA_TOP - EXEC_STACK_PAGES * PGSIZE - PGSIZE.

(** Segments in ascending order that share no page and end below the stack. *)
Fixpoint loads_ok (lo : Z) (l : list proghdr) : Prop :=
  match l with
  | [] => True
  | ph :: l =>
      lo ≤ PGROUNDDOWN (p_vaddr ph) ∧ 0 ≤ p_filesz ph ≤ p_memsz ph ∧ seg_end ph ≤ IMAGE_TOP ∧
      0 ≤ p_off ph ∧ p_off ph + p_filesz ph < 2 ^ 64 ∧ loads_ok (PGROUNDUP (seg_end ph)) l
  end.

(** The contents of a segment: bytes of the file, then zeroes. *)
Definition seg_byte (d : list Z) (ph : proghdr) (j : Z) : option Z :=
  if decide (j < p_filesz ph) then d !! Z.to_nat (p_off ph + j) else Some 0.
Record seg_ok (d : list Z) (v : vm_state P) (m : gmap (Z * Z) Z) (ph : proghdr) : Prop := {
  sg_bytes j : 0 ≤ j < p_memsz ph → ∃ b, seg_byte d ph j = Some b ∧ user_byte v m pt (p_vaddr ph + j) = Some b;
  sg_pages x : p_vaddr ph ≤ x < seg_end ph → ∃ c, frame_ok c ∧ m !! (pt, x / 4096) = Some (mk_pte c (seg_perm ph))
}.

Lemma seg_ok_keep d v m v' m' lo hi ph :
  seg_ok d v m ph → m ⊆ m' → views_kept pt lo hi v m v' m' → seg_end ph ≤ lo ∨ hi ≤ lo → seg_ok d v' m' ph.
Proof.
  intros [Hb Hp] Hm Hk Hd. split.
  - intros j Hj. destruct (Hb j Hj) as (b & Hs & Hu). exists b. split; [done|]. apply Hk; [done|]. unfold seg_end in *. lia.
  - intros x Hx. destruct (Hp x Hx) as (c & Hc & Hl). exists c. split; [done|]. by eapply lookup_weaken.
Qed.
Lemma segs_keep d v m v' m' lo hi l :
  Forall (λ ph, seg_ok d v m ph ∧ seg_end ph ≤ lo) l → m ⊆ m' → views_kept pt lo hi v m v' m' → Forall (λ ph, seg_ok d v' m' ph ∧ seg_end ph ≤ lo) l.
Proof.
  intros Hl Hm Hk. eapply Forall_impl; [exact Hl|]. intros ph [Hok Hle]. split; [|done]. eapply seg_ok_keep; [done..|by left].
Qed.

(** One segment: the pages are there and hold what the file says, or the
    space holds no more than pages below the end of it. *)
Lemma load_segment v n a o m rd ph lo l :
  building v a o m → below pt lo m → 0 ≤ lo → loads_ok lo [ph] →
  Forall (λ ph, seg_ok (reader_data rd n) v m ph ∧ seg_end ph ≤ lo) l →
  ∃ x v1 a1 o1 m1, uvmalloc pt (p_vaddr ph) (p_memsz ph) (flags2perm (p_flags ph)) v = Ret (x, v1) ∧ building v1 a1 o1 m1 ∧
    below pt (PGROUNDUP (seg_end ph)) m1 ∧
    (x = -1 ∨ x = 0 ∧ ∃ y v2 n2, loadseg pt (p_vaddr ph) rd (p_off ph) (p_filesz ph) (patch v1 n) = Ret (y, patch v2 n2) ∧
       building v2 a1 o1 m1 ∧ reader_data rd n2 = reader_data rd n ∧
       (y = -1 ∨ y = 0 ∧ Forall (λ q, seg_ok (reader_data rd n) v2 m1 q ∧ seg_end q ≤ PGROUNDUP (seg_end ph)) (l ++ [ph]))).
Proof.
  intros HB Hbelow Hlo0 (Hlo & Hfs & Htop & Hoff & Hoffs & _) Hl. unfold seg_end, IMAGE_TOP, USER_VA_TOP, EXEC_STACK_PAGES, PGSIZE in Htop.
  pose proof (PGROUNDDOWN_bounds (p_vaddr ph)) as [Hdown _]. rewrite PGROUNDDOWN_eq in *. fold (seg_end ph) in Htop.
  assert (Hse : seg_end ph = p_vaddr ph + p_memsz ph) by done.
  pose proof (PGROUNDUP_bounds (seg_end ph) ltac:(lia)) as [Hup _]. rewrite PGROUNDUP_eq in Hup |- * by lia.
  set (w := p_vaddr ph / 4096) in *. set (k := (p_vaddr ph + p_memsz ph + 4095) / 4096 - w).
  assert (Hfresh : ∀ w', w ≤ w' < w + k → m !! (pt, w') = None).
  { intros w' Hw'. destruct (m !! (pt, w')) as [e|] eqn:He; [|done]. specialize (Hbelow w' e He). lia. }
  destruct (building_alloc v0 o0 m0 h pt v a o m (p_vaddr ph) (p_memsz ph) w k (flags2perm (p_flags ph)) HB) as
    (x & v1 & a1 & o1 & m1 & Hrun & HB1 & Hm1 & Hk1 & Hres); [lia|lia|lia|done|done|done|].
  exists x, v1, a1, o1, m1. split; [done|]. split; [done|].
  assert (Hend : (seg_end ph + 4095) / 4096 = w + k) by (unfold k; rewrite <-Hse; lia). rewrite Hend in *. split.
  { intros w' e He. destruct Hres as [[_ HG]|[_ ->]]; [|specialize (Hbelow w' e He); lia].
    destruct (decide (w ≤ w' < w + k)); [lia|]. rewrite (gr_out _ _ _ _ _ _ _ HG) in He by tauto. specialize (Hbelow w' e He). lia. }
  destruct Hres as [[-> HG]|[-> _]]; [right|by left]. split; [done|].
  assert (Hin : ∀ x, p_vaddr ph ≤ x < seg_end ph → w ≤ x / 4096 < w + k).
  { intros x Hx. split; [by apply Z.div_le_mono; lia|]. apply Z.div_lt_upper_bound; lia. }
  destruct (loadseg_run v1 n a1 o1 m1 (p_vaddr ph) rd (p_off ph) (p_filesz ph) HB1) as (y & v2 & n2 & Hrun2 & HB2 & Hd2 & Hk2 & Hres2); [lia..| |].
  { intros x Hx. destruct (gr_in _ _ _ _ _ _ _ HG (x / 4096)) as (c & _ & Hc & _); [apply Hin; lia|by exists (mk_pte c (pte_from_perm (Z.lor (flags2perm (p_flags ph)) PTE_USER)))]. }
  exists y, v2, n2. split; [done|]. split; [done|]. split; [done|]. destruct Hres2 as [[-> Hld]|]; [right|by left]. split; [done|].
  apply Forall_app. split.
  - assert (Hl1 : Forall (λ ph, seg_ok (reader_data rd n) v1 m1 ph ∧ seg_end ph ≤ lo) l).
    { eapply Forall_impl; [exact Hl|]. intros q [Hq Hqe]. split; [|done]. eapply seg_ok_keep; [exact Hq|done|exact Hk1|right; lia]. }
    eapply Forall_impl; [exact Hl1|]. intros q [Hq Hqe]. split; [eapply seg_ok_keep; [exact Hq|done|exact Hk2|left; lia]|]. lia.
  - apply Forall_singleton. split; [|lia]. split.
    + intros j Hj. unfold seg_byte. case_decide as Hf.
      * destruct (Hld j ltac:(lia)) as (b & Hb & Hu). by exists b.
      * exists 0. split; [done|]. apply Hk2; [|lia]. eapply grown_zero; [exact HG|apply pte_from_perm_range|apply Hin; lia].
    + intros x Hx. destruct (gr_in _ _ _ _ _ _ _ HG (x / 4096) (Hin x Hx)) as (c & Hc & Hl' & _). by exists c.
Qed.

(** The bias is that of the first segment. *)
Definition bias_of (bias : option Z) (l : list proghdr) : option Z :=
  match bias with Some b => Some b | None => (λ ph, u64 (p_vaddr ph - p_off ph)) <$> head l end.

Lemma load_segments_run rd phs d v n a o m bias va_end l :
  reader_data rd n = d → building v a o m → below pt (PGROUNDUP va_end) m → 0 ≤ va_end ≤ IMAGE_TOP →
  loads_ok (PGROUNDUP va_end) (filter is_load phs) → Forall (λ ph, seg_ok d v m ph ∧ seg_end ph ≤ PGROUNDUP va_end) l →
  ∃ va x v' n' a' o' m', load_segments pt rd phs bias va_end (patch v n) = Ret ((va, x), patch v' n') ∧ building v' a' o' m' ∧
    0 ≤ va ≤ IMAGE_TOP ∧ below pt (PGROUNDUP va) m' ∧
    (x = inl (- ENOMEM) ∨ x = inl (- EIO) ∨
     x = inr (bias_of bias (filter is_load phs)) ∧ Forall (λ ph, seg_ok d v' m' ph ∧ seg_end ph ≤ PGROUNDUP va) (l ++ filter is_load phs)).
Proof.
  revert v n a o m bias va_end l. induction phs as [|ph phs IH]; intros v n a o m bias va_end l Hd HB Hbelow Hva Hok Hl; cbn [load_segments].
  { exists va_end, (inr bias), v, n, a, o, m. split; [done|]. split; [done|]. split; [done|]. split; [done|]. right. right.
    rewrite app_nil_r. split; [by destruct bias|done]. }
  case_decide as Hty.
  { rewrite filter_cons_False in Hok |- * by done. by apply (IH v n a o m). }
  rewrite filter_cons_True in Hok |- * by (unfold is_load; destruct (decide (p_type ph = ELF_PROG_LOAD)); tauto).
  destruct Hok as (Hlo & Hfs & Htop & Hoff & Hoffs & Hrest).
  assert (Hup0 : 0 ≤ PGROUNDUP va_end) by (pose proof (PGROUNDUP_bounds va_end) as Hb; unfold IMAGE_TOP, USER_VA_TOP, EXEC_STACK_PAGES, PGSIZE in *; lia).
  destruct (load_segment v n a o m rd ph (PGROUNDUP va_end) l HB Hbelow Hup0) as (x & v1 & a1 & o1 & m1 & Hrun & HB1 & Hb1 & Hres); [done|by rewrite Hd|].
  pose proof (PGROUNDDOWN_bounds (p_vaddr ph)) as [Hdown _].
  assert (Hse : 0 ≤ seg_end ph ≤ IMAGE_TOP) by (unfold seg_end in *; lia).
  assert (Hse64 : seg_end ph < 2 ^ 38) by (unfold IMAGE_TOP, USER_VA_TOP, EXEC_STACK_PAGES, PGSIZE in *; lia).
  fold (seg_end ph). rewrite (u64_small (seg_end ph)) by lia.
  replace (u64 (seg_end ph - p_vaddr ph)) with (p_memsz ph) by (unfold seg_end in *; rewrite u64_small; lia).
  rewrite (bind_Ret _ _ _ _ _ (patch_vm _ v n _ _ Hrun)). destruct Hres as [->|(-> & y & v2 & n2 & Hrun2 & HB2 & Hd2 & Hres2)].
  { rewrite decide_True by lia. exists (seg_end ph), (inl (- ENOMEM)), v1, n, a1, o1, m1. split; [done|]. split; [done|]. split; [done|]. split; [done|]. by left. }
  rewrite decide_False by lia. rewrite (bind_Ret _ _ _ _ _ Hrun2). destruct Hres2 as [->|[-> Hl2]].
  { rewrite decide_True by lia. exists (seg_end ph), (inl (- EIO)), v2, n2, a1, o1, m1. split; [done|]. split; [done|]. split; [done|]. split; [done|]. by right; left. }
  rewrite decide_False by lia. rewrite Hd in Hl2.
  destruct (IH v2 n2 a1 o1 m1 (bias_of bias [ph]) (seg_end ph) (l ++ [ph]) ltac:(congruence) HB2 Hb1 Hse Hrest Hl2) as
    (va & z & v' & n' & a' & o' & m' & Hrun3 & HB' & Hva' & Hb' & Hz).
  exists va, z, v', n', a', o', m'. split; [destruct bias; exact Hrun3|]. split; [done|]. split; [done|]. split; [done|].
  destruct Hz as [?|[?|[-> Hall]]]; [by left|by right; left|right; right]. rewrite <-app_assoc in Hall. split; [by destruct bias|done].
Qed.
End load.

(** ** The whole image *)

Definition headers (d : list Z) (off k : Z) : list proghdr :=
  (λ i, proghdr_of (take (Z.to_nat PROGHDR_SIZE) (drop (Z.to_nat (off + i * PROGHDR_SIZE)) d))) <$> seqZ 0 k.
Definition elf_header (d : list Z) : elfhdr := elfhdr_of (take (Z.to_nat ELFHDR_SIZE) d).
Definition elf_loads (d : list Z) : list proghdr :=
  filter is_load (headers d (e_phoff (elf_header d)) (e_phnum (elf_header d))).
(** A file that is loaded has its segments in order. *)
Definition elf_ok (d : list Z) : Prop :=
  e_magic (elf_header d) = ELF_MAGIC → e_phnum (elf_header d) ≤ EXEC_MAX_PHDRS →
  0 ≤ e_phoff (elf_header d) < 2 ^ 30 ∧ loads_ok 0 (elf_loads d).
Definition exec_error (e : Z) : Prop := e = - ENOENT ∨ e = - ENOEXEC ∨ e = - ENOMEM ∨ e = - EIO.

Section image.
Context {P : Type} {PP : PagePool P} {N : Type} {FN : FileNodes N} {FP : FileNodesPut N} {EN : ExecNodes N} {U : Type}.
Context (s0 : exec_state P N U).
Abbreviation patch := (patch s0).

Lemma read_phdrs_run k v n rd off :
  0 ≤ off → off + Z.of_nat k * PROGHDR_SIZE < 2 ^ 31 →
  ∃ x n', read_phdrs k rd off (patch v n) = Ret (x, patch v n') ∧ reader_data rd n' = reader_data rd n ∧
    (x = None ∨ x = Some (headers (reader_data rd n) off (Z.of_nat k))).
Proof.
  unfold PROGHDR_SIZE. revert n off. induction k as [|k IH]; intros n off Ho Hb; cbn [read_phdrs].
  { exists (Some []), n. split; [done|]. split; [done|]. by right. }
  rewrite u64_small by lia. destruct (read_elf_run s0 v n rd off PROGHDR_SIZE Ho ltac:(done)) as (r & l & n1 & Hrd & Hd1 & Hl & Hfull).
  rewrite (bind_Ret _ _ _ _ _ Hrd). cbn [fst snd]. case_decide as Hr.
  { exists None, n1. split; [done|]. split; [done|]. by left. }
  destruct (Hfull ltac:(destruct (decide (u64 r = PROGHDR_SIZE)); tauto)) as [_ Hdata].
  rewrite i32_small by (unfold PROGHDR_SIZE; lia).
  destruct (IH n1 (off + PROGHDR_SIZE)) as (x & n' & Hrun & Hd' & Hx); [unfold PROGHDR_SIZE; lia..|].
  rewrite (bind_Ret _ _ _ _ _ Hrun). eexists _, n'. split; [done|]. split; [congruence|].
  destruct Hx as [->| ->]; [by left|right]. rewrite Hdata, Hd1. cbn [fmap option_fmap option_map]. f_equal. unfold headers.
  rewrite (seqZ_cons 0 (Z.of_nat (S k))) by lia. cbn [fmap list_fmap]. f_equal; [by rewrite Z.mul_0_l, Z.add_0_r|].
  replace (Z.pred (Z.of_nat (S k))) with (Z.of_nat k) by lia. change (Z.succ 0) with (1 + 0).
  rewrite <-(fmap_add_seqZ 1 0). rewrite <-list_fmap_compose. apply list_fmap_ext. intros _ i _. unfold compose. do 3 f_equal. unfold PROGHDR_SIZE. lia.
Qed.

Context (kernel_table : Z) (a0 : pool) (o0 : gmap Z (Z * Z * Z)) (m0 : gmap (Z * Z) Z) (h : list Z).
Abbreviation v0 := (ex_vm s0).
Hypothesis HV0 : vm_rel v0 a0 o0 m0 h.

(** Without a free page the image is refused before the new page table is
    made, or uvmcreate stops the kernel. *)
Lemma load_image_empty rd n :
  pool_free a0 = [] →
  (∃ n', load_image kernel_table rd (patch v0 n) = Ret ((0, 0, inl (- ENOEXEC)), patch v0 n')) ∨
  load_image kernel_table rd (patch v0 n) = Panic "Failed to allocate memory".
Proof.
  intros Hnil. unfold load_image.
  destruct (read_elf_run s0 v0 n rd 0 ELFHDR_SIZE ltac:(lia) ltac:(done)) as (r & l & n1 & Hrd & _).
  rewrite (bind_Ret _ _ _ _ _ Hrd). do 2 (case_decide; [left; by exists n1|]). right.
  destruct (kalloc_exhausted v0 a0 o0 m0 h HV0 Hnil) as (s1 & Hk).
  unfold ex_on_vm, on_mm, on_vm, zoom, uvmcreate, mbind, K_bind. simpl. by rewrite Hk.
Qed.

Hypothesis Hkt : is_root o0 kernel_table.
Hypothesis Hroom : pool_free a0 ≠ [].

(** The new space with everything the file asks for, or with pages below
    [va] only, and why. *)
Definition load_post (d : list Z) (v : vm_state P) (pt va : Z) (x : Z + elfhdr * Z) : Prop :=
  ∃ a o m, building v0 o0 m0 h pt v a o m ∧ o0 !! pt = None ∧ pt ≠ 0 ∧ 0 ≤ va ≤ IMAGE_TOP ∧ below pt (PGROUNDUP va) m ∧
    ((∃ e, x = inl e ∧ exec_error e) ∨
     x = inr (elf_header d, default 0 (bias_of None (elf_loads d))) ∧ e_magic (elf_header d) = ELF_MAGIC ∧
     Forall (λ ph, seg_ok pt d v m ph ∧ seg_end ph ≤ PGROUNDUP va) (elf_loads d)).

Lemma load_image_run rd n d :
  reader_data rd n = d → elf_ok d →
  ∃ pt va x v n', load_image kernel_table rd (patch v0 n) = Ret ((pt, va, x), patch v n') ∧
    (pt = 0 ∧ x = inl (- ENOEXEC) ∧ v = v0 ∨ load_post d v pt va x).
Proof.
  intros Hd Helf. unfold load_image.
  destruct (read_elf_run s0 v0 n rd 0 ELFHDR_SIZE ltac:(lia) ltac:(done)) as (r & l & n1 & Hrd & Hd1 & Hl & Hfull).
  rewrite (bind_Ret _ _ _ _ _ Hrd). cbn [fst snd]. case_decide as Hr; [by eexists 0, 0, _, v0, n1; split; [done|left]|].
  destruct (Hfull ltac:(destruct (decide (u64 r = ELFHDR_SIZE)); tauto)) as [_ Hdata]. rewrite Hd in Hdata. change (drop (Z.to_nat 0) d) with d in Hdata.
  rewrite Hdata. fold (elf_header d). case_decide as Hmagic; [by eexists 0, 0, _, v0, n1; split; [done|left]|].
  assert (Hmag : e_magic (elf_header d) = ELF_MAGIC) by (destruct (decide (e_magic (elf_header d) = ELF_MAGIC)); tauto).
  destruct (uvmcreate_run v0 a0 o0 m0 h kernel_table HV0 Hkt Hroom) as (pt & v1 & a1 & Hrun1 & Hoc & Hpt & HV1 & Hx1 & Hnone & _).
  rewrite (bind_Ret _ _ _ _ _ (patch_vm s0 _ v0 n1 _ _ Hrun1)). rewrite decide_False by done.
  pose proof (building_start v0 o0 m0 h pt a0 kernel_table HV0 Hkt Hroom v1 a1 Hrun1 HV1 Hx1 Hoc) as HB1.
  assert (Hb0 : below pt 0 m0) by (intros w e He; by rewrite Hnone in He).
  assert (Hpost : load_post d v1 pt 0 (inl (- ENOEXEC))).
  { eexists a1, _, m0. split; [exact HB1|]. split; [done|]. split; [done|]. split; [done|]. split; [done|]. left. eexists. split; [done|]. by right; left. }
  case_decide as Hnum; [by eexists pt, 0, _, v1, n1; split; [done|right]|].
  destruct (Helf Hmag ltac:(lia)) as [Hphoff Hloads].
  rewrite i32_small by lia.
  assert (HMP : EXEC_MAX_PHDRS * PROGHDR_SIZE = 896) by done. assert (HPS : PROGHDR_SIZE = 56) by done.
  destruct (read_phdrs_run (Z.to_nat (e_phnum (elf_header d))) v1 n1 rd (e_phoff (elf_header d))) as (y & n2 & Hrun2 & Hd2 & Hy); [lia|lia|].
  rewrite (bind_Ret _ _ _ _ _ Hrun2). destruct Hy as [->| ->]; [by eexists pt, 0, _, v1, n2; split; [done|right]|].
  rewrite Hd1, Hd in Hd2 |- *.
  assert (Hh : headers d (e_phoff (elf_header d)) (Z.of_nat (Z.to_nat (e_phnum (elf_header d)))) = headers d (e_phoff (elf_header d)) (e_phnum (elf_header d))).
  { destruct (decide (0 ≤ e_phnum (elf_header d))); [by rewrite Z2Nat.id|]. unfold headers. by rewrite !seqZ_nil by lia. }
  rewrite Hh. destruct (load_segments_run s0 v0 o0 m0 h pt rd (headers d (e_phoff (elf_header d)) (e_phnum (elf_header d))) d v1 n2 a1 _ m0 None 0 [] Hd2 HB1) as
    (va & z & v' & n' & a' & o' & m' & Hrun3 & HB' & Hva & Hbel & Hz); [done|done|done|done|].
  rewrite (bind_Ret _ _ _ _ _ Hrun3). cbn [fst snd]. eexists pt, va, _, v', n'. split; [done|]. right. exists a', o', m'.
  split; [done|]. split; [done|]. split; [done|]. split; [done|]. split; [done|]. unfold exec_error.
  destruct Hz as [->|[->|[-> Hall]]]; [left; eexists; split; [done|tauto]..|]. right. split; [done|]. split; [done|]. exact Hall.
Qed.

End image.

(** * The initial stack *)

Definition STACK_BOTTOM : Z := USER_VA_TOP - EXEC_STACK_PAGES * PGSIZE.

Lemma round16 x : 0 ≤ x < 2 ^ 64 → Z.land x (not64 0x0F) = x / 16 * 16.
Proof.
  intros Hx. replace (not64 0x0F) with (Z.ldiff (Z.ones 64) (Z.ones 4)) by done.
  replace (x / 16 * 16) with (Z.shiftl (Z.shiftr x 4) 4) by (rewrite Z.shiftl_mul_pow2, Z.shiftr_div_pow2 by lia; done).
  rewrite <-Z.ldiff_ones_r by lia. apply Z.bits_inj'. intros i Hi. rewrite Z.land_spec, !Z.ldiff_spec.
  destruct (decide (i < 64)); [by rewrite Z.ones_spec_low by lia|]. by rewrite (testbit_high x 64) by lia.
Qed.
Lemma word_bytes_length x : length (word_bytes x) = 8%nat.
Proof. done. Qed.
Lemma words_length ws : length (concat (word_bytes <$> ws)) = (8 * length ws)%nat.
Proof. induction ws as [|w ws IH]; [done|]. cbn [fmap list_fmap concat]. rewrite length_app, IH, word_bytes_length. simpl. lia. Qed.

Section stack.
Context {P : Type} {PP : PagePool P} {N : Type} {FN : FileNodes N} {FP : FileNodesPut N} {EN : ExecNodes N} {U : Type}.
Context (s0 : exec_state P N U) (read_at : nat → Z → Z * list Z).
Context (v0 : vm_state P) (o0 : gmap Z (Z * Z * Z)) (m0 : gmap (Z * Z) Z) (h : list Z) (pt : Z).
Abbreviation patch := (patch s0).
Abbreviation building := (building v0 o0 m0 h pt).

(** The bytes [l] are in memory from [p] on. *)
Definition bytes_at (v : vm_state P) (m : gmap (Z * Z) Z) (p : Z) (l : list Z) : Prop :=
  ∀ i, 0 ≤ i < Z.of_nat (length l) → ∃ b, l !! Z.to_nat i = Some b ∧ user_byte v m pt (p + i) = Some b.

Lemma bytes_at_keep v m v' m' lo hi p l :
  bytes_at v m p l → views_kept pt lo hi v m v' m' → p + Z.of_nat (length l) ≤ lo ∨ hi ≤ p → bytes_at v' m' p l.
Proof. intros Hb Hk Hd i Hi. destruct (Hb i Hi) as (b & Hl & Hu). exists b. split; [done|]. apply Hk; [done|]. lia. Qed.

Lemma views_kept_widen lo hi lo' hi' (v : vm_state P) m (v' : vm_state P) m' : views_kept pt lo hi v m v' m' → lo' ≤ lo → hi ≤ hi' → views_kept pt lo' hi' v m v' m'.
Proof. intros Hk H1 H2 r x b Hb Hout. apply Hk; [done|]. intros [-> ?]. apply Hout. split; [done|lia]. Qed.
Lemma views_kept_down lo mid hi (v1 v2 v3 : vm_state P) m :
  views_kept pt mid hi v1 m v2 m → views_kept pt lo mid v2 m v3 m → lo ≤ mid ≤ hi → views_kept pt lo hi v1 m v3 m.
Proof. intros H1 H2 Hle r x b Hb Hout. apply H2; [apply H1; [done|]|]; intros [-> ?]; apply Hout; (split; [done|lia]). Qed.

(** One string or array: it goes below [sp]. *)
Lemma push_bytes_run v n a o m dst sp l :
  building v a o m → own_pages pt STACK_BOTTOM USER_VA_TOP stack_entry m → STACK_BOTTOM ≤ dst → dst + Z.of_nat (length l) ≤ sp → sp ≤ USER_VA_TOP →
  ∃ v', ex_on_vm (copyout read_at (ex_proc s0) pt dst l) (patch v n) = Ret (0, patch v' n) ∧ building v' a o m ∧
    views_kept pt dst sp v m v' m ∧ bytes_at v' m dst l.
Proof.
  intros HB HP Hd Hl Hs. unfold STACK_BOTTOM, USER_VA_TOP, EXEC_STACK_PAGES, PGSIZE in *.
  destruct (building_copyout v0 o0 m0 h pt read_at v a o m (ex_proc s0) dst l HB) as (v' & Hrun & HB' & Hk & Hb); [lia|lia|intros x Hx; apply HP; lia|].
  exists v'. split; [by apply patch_vm|]. split; [done|]. split; [by eapply views_kept_widen; [exact Hk|lia|lia]|].
  intros i Hi. rewrite Hb by done. destruct (lookup_lt_is_Some_2 l (Z.to_nat i) ltac:(lia)) as [b Hlb]. by exists b.
Qed.

(** A string takes up at most 144 bytes. *)
Lemma push_args_run rargs v n a o m sp ptrs :
  building v a o m → own_pages pt STACK_BOTTOM USER_VA_TOP stack_entry m → Forall (λ arg, Z.of_nat (length arg) < PATH_MAX) rargs →
  STACK_BOTTOM + 144 * Z.of_nat (length rargs) ≤ sp ≤ USER_VA_TOP → sp mod 16 = 0 →
  ∃ v' sp' ps, push_args read_at pt STACK_BOTTOM rargs sp ptrs (patch v n) = Ret (Some (sp', ps ++ ptrs), patch v' n) ∧ building v' a o m ∧
    sp - 144 * Z.of_nat (length rargs) ≤ sp' ≤ sp ∧ sp' mod 16 = 0 ∧ views_kept pt sp' sp v m v' m ∧
    Forall2 (λ arg p, sp' ≤ p ∧ bytes_at v' m p (arg ++ [0])) (reverse rargs) ps.
Proof.
  revert v sp ptrs. induction rargs as [|arg rargs IH]; intros v sp ptrs HB HP Hargs Hsp Hal; cbn [push_args].
  { exists v, sp, []. split; [done|]. split; [done|]. split; [simpl; lia|]. split; [done|]. split; [by intros ? ? ? ? _|]. constructor. }
  apply Forall_cons in Hargs as [Harg Hargs]. unfold PATH_MAX in Harg. cbn [length] in Hsp.
  assert (Hlow : 0 ≤ STACK_BOTTOM ∧ USER_VA_TOP = 2 ^ 38) by done.
  set (len := Z.of_nat (length arg) + 1). rewrite (u64_small (sp - len)), round16 by lia. set (sp1 := (sp - len) / 16 * 16).
  assert (Hsp1 : sp - len - 15 ≤ sp1 ≤ sp - len) by (unfold sp1; pose proof (Z.div_mod (sp - len) 16); pose proof (Z.mod_pos_bound (sp - len) 16); lia).
  assert (Hal1 : sp1 mod 16 = 0) by (unfold sp1; by rewrite Z.mod_mul).
  rewrite decide_False by lia. rewrite (bind_Ret _ _ (patch v n) (ex_proc s0) (patch v n)) by done.
  assert (Hlen : Z.of_nat (length (arg ++ [0])) = len) by (rewrite length_app; simpl; lia).
  destruct (push_bytes_run v n a o m sp1 sp (arg ++ [0]) HB HP) as (v1 & Hrun1 & HB1 & Hk1 & Hb1); [lia..|].
  rewrite (bind_Ret _ _ _ _ _ Hrun1). rewrite decide_False by lia.
  destruct (IH v1 sp1 (sp1 :: ptrs) HB1 HP Hargs ltac:(lia) Hal1) as (v' & sp' & ps & Hrun & HB' & Hsp' & Hal' & Hk & Hall).
  exists v', sp', (ps ++ [sp1]). split; [rewrite <-app_assoc; exact Hrun|]. split; [done|]. split; [cbn [length]; lia|]. split; [done|].
  split; [eapply views_kept_down; [exact Hk1|exact Hk|lia]|]. rewrite reverse_cons. apply Forall2_app; [done|].
  constructor; [|constructor]. split; [lia|]. eapply bytes_at_keep; [exact Hb1|exact Hk|right; lia].
Qed.

(** What a new program finds at its stack pointer: argc, the addresses of its
    arguments, no environment and the auxiliary vector. *)
Record stack_ok (v : vm_state P) (m : gmap (Z * Z) Z) (sp : Z) (argv : list cstring) (eh : elfhdr) (bias : Z) : Prop := {
  sk_sp : STACK_BOTTOM ≤ sp < USER_VA_TOP ∧ sp mod 16 = 0;
  sk_words : ∃ ptrs rnd, bytes_at v m sp (concat (word_bytes <$> ustack (Z.of_nat (length argv)) ptrs eh bias rnd)) ∧
    Forall2 (λ arg p, bytes_at v m p (arg ++ [0])) argv ptrs ∧ bytes_at v m rnd (replicate 16 0)
}.

Lemma make_stack_run v n a o m argv eh bias :
  building v a o m → own_pages pt STACK_BOTTOM USER_VA_TOP stack_entry m →
  Forall (λ arg, Z.of_nat (length arg) < PATH_MAX) argv → Z.of_nat (length argv) ≤ EXEC_MAX_ARGS →
  ∃ sp v', make_stack read_at pt STACK_BOTTOM USER_VA_TOP argv eh bias (patch v n) = Ret (Some sp, patch v' n) ∧ building v' a o m ∧
    views_kept pt STACK_BOTTOM USER_VA_TOP v m v' m ∧ stack_ok v' m sp argv eh bias.
Proof.
  intros HB HP Hargs Hn. unfold make_stack, EXEC_MAX_ARGS in *.
  assert (Hgap : USER_VA_TOP = STACK_BOTTOM + 65536 ∧ STACK_BOTTOM mod 16 = 0 ∧ 0 < STACK_BOTTOM ∧ USER_VA_TOP = 2 ^ 38 ∧ USER_VA_TOP mod 16 = 0) by done.
  destruct Hgap as (Hgap & Hsb16 & Hsb0 & Htop & Htop16).
  destruct (push_args_run (reverse argv) v n a o m USER_VA_TOP [] HB HP) as (v1 & sp & ps & Hrun1 & HB1 & Hsp & Hal & Hk1 & Hall);
    [by apply Forall_reverse|rewrite length_reverse; lia|done|].
  rewrite (bind_Ret _ _ _ _ _ Hrun1). rewrite app_nil_r. rewrite length_reverse in Hsp. rewrite reverse_involutive in Hall.
  pose proof (Forall2_length _ _ _ Hall) as Hlen. rewrite (u64_small (sp - 16)) by lia. rewrite decide_False by lia.
  rewrite (bind_Ret _ _ (patch v1 n) (ex_proc s0) (patch v1 n)) by done.
  destruct (push_bytes_run v1 n a o m (sp - 16) sp (replicate 16 0) HB1 HP) as (v2 & Hrun2 & HB2 & Hk2 & Hb2); [lia|simpl; lia|lia|].
  rewrite (bind_Ret _ _ _ _ _ Hrun2). rewrite decide_False by lia.
  assert (Hal2 : (sp - 16) / 16 * 16 = sp - 16).
  { pose proof (Z.div_mod (sp - 16) 16 ltac:(lia)). assert ((sp - 16) mod 16 = 0) by (rewrite Zminus_mod, Hal; done). lia. }
  rewrite (round16 (sp - 16)), Hal2 by lia.
  set (ws := ustack (Z.of_nat (length argv)) ps eh bias (sp - 16)).
  assert (Hws : Z.of_nat (length ws) = 29 + Z.of_nat (length argv)) by (unfold ws, ustack; cbn [length]; rewrite !length_app; simpl; lia).
  rewrite Hws. rewrite (u64_small (sp - 16 - _)), round16 by lia. set (x := sp - 16 - _). set (sp3 := x / 16 * 16).
  assert (Hsp3 : x - 15 ≤ sp3 ≤ x) by (unfold sp3; pose proof (Z.div_mod x 16); pose proof (Z.mod_pos_bound x 16); lia).
  assert (Hal3 : sp3 mod 16 = 0) by (unfold sp3; by rewrite Z.mod_mul).
  rewrite decide_False by lia.
  assert (Hwl : Z.of_nat (length (concat (word_bytes <$> ws))) = 8 * (29 + Z.of_nat (length argv))) by (rewrite words_length; lia).
  destruct (push_bytes_run v2 n a o m sp3 (sp - 16) (concat (word_bytes <$> ws)) HB2 HP) as (v3 & Hrun3 & HB3 & Hk3 & Hb3); [lia|lia|lia|].
  rewrite (bind_Ret _ _ _ _ _ Hrun3). rewrite decide_False by lia. exists sp3, v3. split; [done|]. split; [done|].
  pose proof (views_kept_down _ _ _ _ _ _ _ Hk2 Hk3 ltac:(lia)) as Hk23. split.
  - apply (views_kept_widen sp3 USER_VA_TOP); [|lia|lia]. eapply views_kept_down; [exact Hk1|exact Hk23|lia].
  - split; [split; [lia|done]|]. exists ps, (sp - 16). split; [done|]. split.
    + eapply Forall2_impl; [exact Hall|]. intros arg p [Hp Hb]. eapply bytes_at_keep; [exact Hb|exact Hk23|right; lia].
    + eapply bytes_at_keep; [exact Hb2|exact Hk3|right; lia].
Qed.
End stack.

(** * The commit *)

Lemma file_inv_nodes {N} {FN : FileNodes N} (f : fstate N) n l : file_inv f l → file_inv (set_fnodes n f) l.
Proof. intros []. by split. Qed.

(** The pages of the old image lie where the layout of the process says. *)
Record old_ok (p : uproc) (m : gmap (Z * Z) Z) : Prop := {
  ol_heap : 0 ≤ heap_top p ≤ 2 ^ 38;
  ol_stack : 0 ≤ stack_bottom p ∧ stack_bottom p mod 4096 = 0 ∧ stack_top p ≤ 2 ^ 38;
  ol_some : heap_top p > 0 ∨ stack_top p > stack_bottom p;
  ol_pages w e : m !! (pagetable p, w) = Some e → PTE_FLAGS e ≠ PTE_V ∧
    (w * 4096 < heap_top p ∨ stack_bottom p ≤ w * 4096 < stack_top p ∨ Exists (in_area (w * 4096)) (vm_area p))
}.

Section commit.
Context {P : Type} {PP : PagePool P} {N : Type} {FN : FileNodes N} {FP : FileNodesPut N} {EN : ExecNodes N} {U : Type}.
Context (s0 : exec_state P N U) (a0 : pool) (o0 : gmap Z (Z * Z * Z)) (m0 : gmap (Z * Z) Z) (h : list Z) (fh : list nat).
Abbreviation v0 := (ex_vm s0).
Abbreviation old := (ex_proc s0).
Hypothesis HI0 : mm_inv (ex_mm s0) a0 o0 m0 h fh.
Hypothesis HU0 : user_areas (vm_area old).
Hypothesis Hold : old_ok old m0.
Hypothesis Hsig : length (actions (sp_hand (ex_sig s0))) = Z.to_nat NSIG ∧ sp_lock (ex_sig s0) = false.

(** The old image is gone, the process runs in the new one. *)
Record committed (v : vm_state P) (o : gmap Z (Z * Z * Z)) (m : gmap (Z * Z) Z) (pt heap sb stk sp argc entry : Z)
    (s' : exec_state P N U) (a' : pool) (o' : gmap Z (Z * Z * Z)) (m' : gmap (Z * Z) Z) : Prop := {
  cm_inv : mm_inv (ex_mm s') a' o' m' h fh;
  cm_frames : frames (ex_vm s') = frames v;
  cm_tables : without (λ x, x.1.1 = pagetable old) o o';
  cm_map r w : m' !! (r, w) = if decide (r = pagetable old) then None else m !! (r, w);
  cm_proc : ex_proc s' = mk_uproc pt heap heap sb stk (set_used 0 <$> vm_area old);
  cm_satp : satp s' = MAKE_SATP (VA2PA pt);
  cm_sig : reset_on_exec (set_trapframe sp argc (u64 (sp + 8)) entry (ex_sig s0)) (ex_sig s')
}.

Lemma commit_run v n a o m pt heap sb stk sp argc entry :
  building v0 o0 m0 h pt v a o m → o0 !! pt = None →
  ∃ s' a' o' m', commit pt heap sb stk sp argc entry (patch s0 v n) = Ret (0, s') ∧
    committed v o m pt heap sb stk sp argc entry s' a' o' m'.
Proof.
  intros HB Hpt. unfold commit. destruct Hsig as [Hslen Hslock]. pose proof (mi_root _ _ _ _ _ _ HI0) as Hr0.
  change (is_root o0 (pagetable old)) in Hr0. assert (Hne : pagetable old ≠ pt) by (intros Heq; unfold is_root in Hr0; congruence).
  destruct (signal_reset_on_exec_run (set_trapframe sp argc (u64 (sp + 8)) entry (ex_sig s0)) Hslen Hslock) as (g & Hg & Hgr).
  set (mm1 := mk_mm v (set_fnodes n (mm_files (ex_mm s0))) (mk_uproc pt heap heap sb stk (vm_area old))).
  match goal with |- context [mbind ?f (gets ex_proc) _] =>
    rewrite (bind_Ret (gets ex_proc) f (patch s0 v n) old (patch s0 v n)) by done end.
  do 4 (match goal with |- context [mbind ?f ?k ?s] => erewrite (bind_Ret k f s tt) by (unfold modify, switch_to_process; reflexivity) end).
  match goal with |- context [mbind ?f ?k ?s] =>
    rewrite (bind_Ret k f s tt (mk_ex mm1 g (MAKE_SATP (VA2PA pt)))) by (unfold zoom; simpl; rewrite Hg; reflexivity) end.
  rewrite decide_True by apply Hold. rewrite bind_assoc.
  assert (HI1 : mm_inv mm1 a o m h fh).
  { split; [apply HI0|apply HB|apply HB|]. apply file_inv_nodes. apply HI0. }
  assert (Hr1 : is_root o (pagetable old)) by (eapply lookup_weaken; [exact Hr0|apply HB]).
  destruct (free_pagetable_vma_run mm1 a o m h fh (pagetable old) HI1 Hr1 HU0) as (mm2 & a2 & Hrun2 & HI2 & Hl2 & Hf2 & Ha2).
  rewrite (bind_Ret _ _ _ tt (mk_ex mm2 g (MAKE_SATP (VA2PA pt)))) by (unfold on_mm, zoom; simpl; by rewrite Hrun2).
  change (areas mm1) with (vm_area old) in *. set (m2 := unmap_areas (pagetable old) (vm_area old) m) in *.
  assert (Hm2 : ∀ r w, m2 !! (r, w) = match m !! (r, w) with
    | Some e => if decide (r = pagetable old ∧ Exists (in_area (w * 4096)) (vm_area old) ∧ PTE_FLAGS e ≠ PTE_V) then None else Some e | None => None end).
  { intros r w. destruct (decide (0 ≤ w)) as [Hw|Hw]; [apply unmap_areas_lookup; [apply HI0|done]|].
    assert (m !! (r, w) = None) as ->.
    { destruct (m !! (r, w)) as [e|] eqn:He; [|done]. destruct (entries_ok v a o m h _ e (bu_rel _ _ _ _ _ _ _ _ _ HB) He) as (_ & _ & Hk). simpl in Hk. lia. }
    destruct (m2 !! (r, w)) as [e|] eqn:He; [|done]. destruct (entries_ok _ _ _ _ _ _ e (mi_vm _ _ _ _ _ _ HI2) He) as (_ & _ & Hk). simpl in Hk. lia. }
  rewrite free_user_layout_uvmfree.
  destruct (uvmfree_run (mm_vm mm2) a2 o m2 h (pagetable old) (mk_uproc 0 0 (heap_top old) (stack_bottom old) (stack_top old) [])) as
    (v3 & a3 & o3 & m3 & Hrun3 & HV3 & Hf3 & Hw3 & Hm3); [apply HI2|done|apply Hold|apply Hold|apply Hold|apply Hold| |].
  { intros w e He. rewrite Hm2 in He. rewrite (bu_other _ _ _ _ _ _ _ _ _ HB) in He by done.
    destruct (m0 !! (pagetable old, w)) as [e0|] eqn:He0; [|done]. destruct (ol_pages _ _ Hold w e0 He0) as [Hfl Hor].
    case_decide as Hd; [done|]. injection He as <-. split; [done|]. simpl. tauto. }
  rewrite (bind_Ret _ _ _ tt (mk_ex (set_mm_vm v3 mm2) g (MAKE_SATP (VA2PA pt)))) by (unfold ex_on_vm, on_mm, on_vm, zoom; simpl; by rewrite Hrun3).
  eexists _, a3, o3, m3. split; [done|]. unfold same_layout in Hl2. simpl in Hl2. unfold areas in Ha2. split; simpl.
  - split; [apply HI2|exact HV3| |apply HI2]. unfold root. simpl. rewrite Hl2. simpl. apply Hw3. split; [apply HB|]. simpl. congruence.
  - change (frames v3 = frames v). by rewrite Hf3, Hf2.
  - exact Hw3.
  - intros r w. rewrite Hm3. case_decide as Hd; [done|]. rewrite Hm2. destruct (m !! (r, w)); [|done]. by rewrite decide_False by tauto.
  - unfold ex_proc. simpl. rewrite Hl2. unfold areas. by rewrite Ha2.
  - done.
  - exact Hgr.
Qed.
End commit.

(** * exec *)

Section run.
Context {P : Type} {PP : PagePool P} {N : Type} {FN : FileNodes N} {FP : FileNodesPut N} {EN : ExecNodes N} {U : Type}.
Context (kernel_table : Z) (init_code : option (list Z)) (read_at : nat → Z → Z * list Z) (pid : Z).
Context (s0 : exec_state P N U) (a0 : pool) (o0 : gmap Z (Z * Z * Z)) (m0 : gmap (Z * Z) Z) (h : list Z) (fh : list nat).
Abbreviation v0 := (ex_vm s0).
Abbreviation old := (ex_proc s0).

(** The process exec starts from. *)
Record exec_pre : Prop := {
  xp_inv : mm_inv (ex_mm s0) a0 o0 m0 h fh;
  xp_areas : user_areas (vm_area old);
  xp_old : old_ok old m0;
  xp_kernel : is_root o0 kernel_table;
  xp_sig : length (actions (sp_hand (ex_sig s0))) = Z.to_nat NSIG ∧ sp_lock (ex_sig s0) = false;
  xp_cwd : is_Some (cwds (mm_files (ex_mm s0)) !! Z.to_nat pid)
}.

(** Nothing happened: the process, its signals and registers, every mapping,
    every page in use and every byte of memory are as before. *)
Definition unchanged (s' : exec_state P N U) : Prop :=
  ∃ n a', s' = patch s0 (ex_vm s') n ∧ vm_rel (ex_vm s') a' o0 m0 h ∧ pool_owned a' = pool_owned a0 ∧
    ∀ r y b, user_byte v0 m0 r y = Some b → user_byte (ex_vm s') m0 r y = Some b.

(** The process runs the image [d] with the arguments [argv]. *)
Record running (d : list Z) (argv : list cstring) (s' : exec_state P N U) (a' : pool) (o' : gmap Z (Z * Z * Z)) (m' : gmap (Z * Z) Z) : Prop := {
  rn_inv : mm_inv (ex_mm s') a' o' m' h fh;
  rn_new : o0 !! pagetable (ex_proc s') = None ∧ satp s' = MAKE_SATP (VA2PA (pagetable (ex_proc s')));
  rn_segments : Forall (seg_ok (pagetable (ex_proc s')) d (ex_vm s') m') (elf_loads d);
  rn_heap : heap_top (ex_proc s') = heap_bottom (ex_proc s') ∧ heap_bottom (ex_proc s') mod 4096 = 0 ∧
    Forall (λ ph, seg_end ph ≤ heap_bottom (ex_proc s') - PGSIZE) (elf_loads d);
  rn_guard : ∃ c, frame_ok c ∧ m' !! (pagetable (ex_proc s'), heap_bottom (ex_proc s') / 4096 - 1) = Some (mk_pte c PTE_U);
  rn_stack : stack_bottom (ex_proc s') = STACK_BOTTOM ∧ stack_top (ex_proc s') = USER_VA_TOP ∧
    stack_ok (pagetable (ex_proc s')) (ex_vm s') m' (tf_sp (sp_tf (ex_sig s'))) argv (elf_header d) (default 0 (bias_of None (elf_loads d)));
  rn_regs : tf_epc (sp_tf (ex_sig s')) = e_entry (elf_header d) ∧ tf_a0 (sp_tf (ex_sig s')) = Z.of_nat (length argv) ∧
    tf_rest (sp_tf (ex_sig s')) = <[0%nat := u64 (tf_sp (sp_tf (ex_sig s')) + 8)]> (tf_rest (sp_tf (ex_sig s0)));
  rn_signals : sig_pending (sp_hand (ex_sig s')) = 0 ∧ sig_blocked (sp_hand (ex_sig s')) = sig_blocked (sp_hand (ex_sig s0)) ∧
    ∀ i a, (1 ≤ i < Z.to_nat NSIG)%nat → actions (sp_hand (ex_sig s0)) !! i = Some a →
      actions (sp_hand (ex_sig s')) !! i = Some (if decide (handler a = SIG_IGN) then a else mk_sigaction SIG_DFL 0 0 0);
  rn_areas : ∀ b, backing (vm_area (ex_proc s')) b = None;
  rn_old w : m' !! (pagetable old, w) = None;
  rn_tables p x : o' !! p = Some x → x.1.1 = pagetable (ex_proc s') ∨ o0 !! p = Some x ∧ x.1.1 ≠ pagetable old;
  rn_others r y b : r ≠ pagetable old → user_byte v0 m0 r y = Some b → user_byte (ex_vm s') m' r y = Some b
}.

Hypothesis Hpre : exec_pre.

Lemma bad_run v n a o m pt va ht sb stk e :
  building v0 o0 m0 h pt v a o m → o0 !! pt = None → pt ≠ 0 → 0 ≤ (if decide (ht = 0) then PGROUNDUP va else ht) ≤ 2 ^ 38 →
  0 ≤ sb → sb mod 4096 = 0 → stk ≤ 2 ^ 38 → below pt (if decide (ht = 0) then PGROUNDUP va else ht) m →
  ∃ s', bad pt va ht sb stk e (patch s0 v n) = Ret (e, s') ∧ unchanged s'.
Proof.
  intros HB Hpt Hpt0 Hht Hsb Hal Hstk Hbel. unfold bad. rewrite decide_False by done.
  pose proof (mi_vm _ _ _ _ _ _ (xp_inv Hpre)) as HV0.
  destruct (building_free v0 o0 m0 h pt v a o m _ sb stk (vr_pt _ _ _ _ _ HV0) Hpt HB Hht Hsb Hal Hstk) as (v' & a' & Hrun & HV' & Hvw).
  { intros w e' He'. left. by apply (Hbel w e'). }
  rewrite (bind_Ret _ _ _ _ _ (patch_vm s0 _ v n _ _ Hrun)). eexists. split; [done|]. exists n, a'. split; [done|]. split; [done|].
  split; [|done]. by apply (owned_fixed v0 v' _ _ o0 m0 h).
Qed.

(** The stack pages are writable by the user and private. *)
Lemma stack_pages v a o m pt (v1 : vm_state P) m1 :
  building v0 o0 m0 h pt v a o m →
  grown pt (STACK_BOTTOM / 4096) 16 (pte_from_perm (Z.lor (Z.lor PTE_READ PTE_WRITE) PTE_USER)) m1 v1 m →
  own_pages pt STACK_BOTTOM USER_VA_TOP stack_entry m.
Proof.
  intros HB HG x Hx. assert (Hin : STACK_BOTTOM / 4096 ≤ x / 4096 < STACK_BOTTOM / 4096 + 16).
  { unfold STACK_BOTTOM, USER_VA_TOP, EXEC_STACK_PAGES, PGSIZE in *. split; [by apply Z.div_le_mono; lia|]. apply Z.div_lt_upper_bound; [lia|]. change ((2 ^ 38 - 16 * 4096) / 4096) with 67108848. lia. }
  destruct (gr_in _ _ _ _ _ _ _ HG _ Hin) as (c & Hc & Hl & H1 & _). eexists. split; [exact Hl|].
  split; [by rewrite mk_pte_frame by (done || apply pte_from_perm_range)|].
  unfold stack_entry. rewrite !mk_pte_bits by (done || lia || apply pte_from_perm_range). done.
Qed.

(** The commit of a space that holds the segments, the guard page and the
    stack. *)
Lemma commit_running v n a o m pt sz d argv sp :
  building v0 o0 m0 h pt v a o m → o0 !! pt = None → sz mod 4096 = 0 →
  Forall (λ ph, seg_ok pt d v m ph ∧ seg_end ph ≤ sz) (elf_loads d) →
  (∃ c, frame_ok c ∧ m !! (pt, sz / 4096) = Some (mk_pte c PTE_U)) →
  stack_ok pt v m sp argv (elf_header d) (default 0 (bias_of None (elf_loads d))) →
  ∃ s' a' o' m', commit pt (sz + 4096) STACK_BOTTOM USER_VA_TOP sp (Z.of_nat (length argv)) (e_entry (elf_header d)) (patch s0 v n) = Ret (0, s') ∧
    running d argv s' a' o' m'.
Proof.
  intros HB Hpt Hal Hsegs Hguard Hstk.
  destruct (commit_run s0 a0 o0 m0 h fh (xp_inv Hpre) (xp_areas Hpre) (xp_old Hpre) (xp_sig Hpre) v n a o m pt (sz + 4096) STACK_BOTTOM USER_VA_TOP sp
    (Z.of_nat (length argv)) (e_entry (elf_header d)) HB Hpt) as (s' & a' & o' & m' & Hrun4 & [Cinv Cframes Ctables Cmap Cproc Csatp Csig]).
  exists s', a', o', m'. split; [exact Hrun4|].
  assert (Hr0 : is_root o0 (pagetable old)) by apply (mi_root _ _ _ _ _ _ (xp_inv Hpre)).
  assert (Hne : pt ≠ pagetable old) by (intros Heq; unfold is_root in Hr0; congruence).
  assert (Hview : ∀ r y, r ≠ pagetable old → user_byte (ex_vm s') m' r y = user_byte v m r y).
  { intros r y Hr. unfold user_byte. rewrite Cmap, decide_False by done.
    by rewrite Cframes. }
  assert (Hmap : ∀ w, m' !! (pt, w) = m !! (pt, w)) by (intros w; by rewrite Cmap, decide_False).
  destruct Csig as [Hpend Hblk (Htf & _ & _) _ Hact].
  pose proof Cproc as Hproc.
  split; rewrite ?Hproc, ?Htf; cbn [pagetable heap_bottom heap_top stack_bottom stack_top vm_area].
  - exact Cinv.
  - split; [done|exact Csatp].
  - eapply Forall_impl; [exact Hsegs|]. intros ph [[Hbs Hps] _]. split; [intros j Hj|intros y Hy].
    + rewrite Hview by done. by apply Hbs.
    + rewrite Hmap. by apply Hps.
  - split; [done|]. split; [by rewrite <-Zplus_mod_idemp_l, Hal|]. eapply Forall_impl; [exact Hsegs|]. intros ph [_ Hse]. simpl. unfold PGSIZE. lia.
  - replace ((sz + 4096) / 4096 - 1) with (sz / 4096) by (change (sz + 4096) with (sz + 1 * 4096); rewrite Z.div_add by lia; lia).
    destruct Hguard as (c & Hc & Hl). exists c. split; [done|]. by rewrite Hmap.
  - split; [done|]. split; [done|]. destruct Hstk as [Hsp (ptrs & rnd & Hw & Hs & Hr)]. split; [exact Hsp|]. exists ptrs, rnd.
    assert (Hmove : ∀ p l, bytes_at pt v m p l → bytes_at pt (ex_vm s') m' p l).
    { intros p l Hb i Hi. rewrite Hview by done. by apply Hb. }
    split; [by apply Hmove|]. split; [|by apply Hmove]. eapply Forall2_impl; [exact Hs|]. intros arg p. apply Hmove.
  - done.
  - split; [exact Hpend|]. split; [exact Hblk|exact Hact].
  - intros b. apply backing_None. intros i w (u & -> & _)%list_lookup_fmap_Some [Hw _]. done.
  - intros w. by rewrite Cmap, decide_True.
  - intros p y Hp. apply Ctables in Hp as [Hp Hno].
    destruct (bu_in _ _ _ _ _ _ _ _ _ HB p y Hp) as [Ho|]; [right; done|by left].
  - intros r y b Hr Hb. rewrite Hview by done. apply (bu_views _ _ _ _ _ _ _ _ _ HB); [|done]. intros ->.
    unfold user_byte in Hb. pose proof (mi_vm _ _ _ _ _ _ (xp_inv Hpre)) as HV0.
    by rewrite (no_root_no_leaf v0 o0 m0 pt _ (vr_pt _ _ _ _ _ HV0) Hpt) in Hb.
Qed.

Lemma exec_finish_run v n a o m pt va d argv :
  building v0 o0 m0 h pt v a o m → o0 !! pt = None → pt ≠ 0 → 0 ≤ va ≤ IMAGE_TOP → below pt (PGROUNDUP va) m →
  Forall (λ ph, seg_ok pt d v m ph ∧ seg_end ph ≤ PGROUNDUP va) (elf_loads d) →
  Forall (λ arg, Z.of_nat (length arg) < PATH_MAX) argv → Z.of_nat (length argv) ≤ EXEC_MAX_ARGS →
  ∃ x s', finish read_at pt va (elf_header d) (default 0 (bias_of None (elf_loads d))) argv (patch s0 v n) = Ret (x, s') ∧
    (x = - ENOMEM ∧ unchanged s' ∨ x = 0 ∧ ∃ a' o' m', running d argv s' a' o' m').
Proof.
  intros HB Hpt Hpt0 Hva Hbel Hsegs Hargs Hn. unfold finish.
  assert (Hsz : 0 ≤ PGROUNDUP va ≤ IMAGE_TOP ∧ PGROUNDUP va mod 4096 = 0).
  { unfold IMAGE_TOP, USER_VA_TOP, EXEC_STACK_PAGES, PGSIZE in *. pose proof (PGROUNDUP_bounds va ltac:(lia)) as [H1 H2].
    split; [|done]. split; [lia|]. rewrite PGROUNDUP_eq in * by lia. pose proof (Z.div_le_mono (va + 4095) (2 ^ 38 - 16 * 4096 - 4096 + 4095) 4096 ltac:(lia) ltac:(lia)) as H3.
    change ((2 ^ 38 - 16 * 4096 - 4096 + 4095) / 4096 ) with 67108847 in H3. lia. }
  set (sz := PGROUNDUP va) in *. destruct Hsz as [Hsz Hal]. assert (Htop : IMAGE_TOP + 4096 = STACK_BOTTOM ∧ STACK_BOTTOM + 16 * 4096 = 2 ^ 38 ∧ STACK_BOTTOM mod 4096 = 0) by done.
  destruct Htop as (Htop & Htop2 & Hal2). pose proof (Z.div_mod sz 4096 ltac:(lia)) as Hdm.
  destruct (building_alloc v0 o0 m0 h pt v a o m sz PGSIZE (sz / 4096) 1 0 HB) as (x & v1 & a1 & o1 & m1 & Hrun1 & HB1 & Hm1 & Hk1 & Hres1);
    [lia|done|unfold PGSIZE; lia|done| | |].
  { unfold PGSIZE. assert ((sz + 4096 + 4095) / 4096 = sz / 4096 + 1) as ->; [|lia]. symmetry. apply Z.div_unique with 4095; lia. }
  { intros w Hw. destruct (m !! (pt, w)) as [e|] eqn:He; [|done]. specialize (Hbel w e He). lia. }
  rewrite (bind_Ret _ _ _ _ _ (patch_vm s0 _ v n _ _ Hrun1)). destruct Hres1 as [[-> HG1]|[-> ->]]; cycle 1.
  { rewrite decide_True by lia. destruct (bad_run v1 n a1 o1 m pt va 0 0 0 (- ENOMEM) HB1 Hpt Hpt0) as (s' & Hrun & Hun); [rewrite decide_True by done; fold sz; lia|lia|done|lia|done|].
    exists (- ENOMEM), s'. split; [done|]. by left. }
  rewrite decide_False by lia. assert (Hheap : u64 (sz + PGSIZE) = sz + 4096) by (apply u64_small; unfold PGSIZE; lia). rewrite Hheap.
  fold STACK_BOTTOM.
  assert (Hbel1 : below pt (sz + 4096) m1).
  { intros w e He. destruct (decide (sz / 4096 ≤ w < sz / 4096 + 1)); [lia|]. rewrite (gr_out _ _ _ _ _ _ _ HG1) in He by tauto. specialize (Hbel w e He). lia. }
  destruct (building_alloc v0 o0 m0 h pt v1 a1 o1 m1 STACK_BOTTOM (EXEC_STACK_PAGES * PGSIZE) (STACK_BOTTOM / 4096) 16 (Z.lor PTE_READ PTE_WRITE) HB1) as
    (x & v2 & a2 & o2 & m2 & Hrun2 & HB2 & Hm2 & Hk2 & Hres2); [done|done|done|done|done| |].
  { intros w Hw. destruct (m1 !! (pt, w)) as [e|] eqn:He; [|done]. specialize (Hbel1 w e He). pose proof (Z.div_mod STACK_BOTTOM 4096). lia. }
  rewrite (bind_Ret _ _ _ _ _ (patch_vm s0 _ v1 n _ _ Hrun2)). destruct Hres2 as [[-> HG2]|[-> ->]]; cycle 1.
  { rewrite decide_True by lia. destruct (bad_run v2 n a2 o2 m1 pt va (sz + 4096) 0 0 (- ENOMEM) HB2 Hpt Hpt0) as (s' & Hrun & Hun);
      [rewrite decide_False by lia; lia|lia|done|lia|rewrite decide_False by lia; done|].
    exists (- ENOMEM), s'. split; [done|]. by left. }
  rewrite decide_False by lia. pose proof (stack_pages v2 a2 o2 m2 pt _ _ HB2 HG2) as HSP.
  destruct (make_stack_run s0 read_at v0 o0 m0 h pt v2 n a2 o2 m2 argv (elf_header d) (default 0 (bias_of None (elf_loads d))) HB2 HSP Hargs Hn)
    as (sp & v3 & Hrun3 & HB3 & Hk3 & Hstk).
  rewrite (bind_Ret _ _ _ _ _ Hrun3).
  destruct (commit_running v3 n a2 o2 m2 pt sz d argv sp HB3 Hpt Hal) as (s' & a' & o' & m' & Hrun4 & Hrn); [| |exact Hstk|].
  - eapply Forall_impl; [exact Hsegs|]. intros ph [Hok Hse]. split; [|done].
    eapply seg_ok_keep; [|reflexivity|exact Hk3|left; lia]. eapply seg_ok_keep; [|exact Hm2|exact Hk2|right; lia].
    eapply seg_ok_keep; [exact Hok|exact Hm1|exact Hk1|right; lia].
  - destruct (gr_in _ _ _ _ _ _ _ HG1 (sz / 4096) ltac:(lia)) as (c & Hc & Hl & _). exists c. split; [done|].
    eapply lookup_weaken; [|exact Hm2]. exact Hl.
  - exists 0, s'. split; [exact Hrun4|]. right. split; [done|]. by exists a', o', m'.
Qed.

Lemma unchanged_patch n : unchanged (patch s0 v0 n).
Proof. exists n, a0. split; [done|]. split; [apply (xp_inv Hpre)|]. done. Qed.

Lemma lookup_image_run path :
  ∃ o n, lookup_image pid path s0 = Ret (o, patch s0 v0 n).
Proof.
  unfold lookup_image. destruct (xp_cwd Hpre) as [cwd Hcwd].
  match goal with |- context [mbind ?f ?k ?s] => rewrite (bind_Ret k f s (Some cwd) s) by (unfold gets; by rewrite Hcwd) end.
  destruct (en_namei_total cwd path (fnodes (mm_files (ex_mm s0)))) as (i & n & Hn).
  pose proof (patch_nodes s0 _ v0 _ _ _ Hn) as Hr. rewrite patch_id in Hr. rewrite (bind_Ret _ _ _ _ _ Hr). by eexists _, n.
Qed.
Lemma open_image_run path : ∃ o n, open_image init_code pid path s0 = Ret (o, patch s0 v0 n).
Proof.
  unfold open_image. destruct init_code as [d|]; [|apply lookup_image_run]. case_decide; [|apply lookup_image_run].
  eexists _, (fnodes (mm_files (ex_mm s0))). rewrite patch_id. done.
Qed.
Lemma put_node_run rd v n : ∃ n', put_node rd (patch s0 v n) = Ret (tt, patch s0 v n').
Proof.
  unfold put_node. case_decide; [by exists n|]. destruct (fn_iput_total (rd_node rd) n) as (n' & Hn). exists n'. by apply patch_nodes.
Qed.

(** The contents of the file that the path names. *)
Definition image_of (path : cstring) (d : list Z) : Prop :=
  ∃ rd n, open_image init_code pid path s0 = Ret (Some rd, patch s0 v0 n) ∧ d = reader_data rd n.

End run.

(** ** A concrete program *)

#[local] Existing Instance demo_pool.
#[local] Existing Instance demo_nodes.
#[local] Existing Instance demo_put.

Definition le_bytes (n : nat) (x : Z) : list Z := (λ i, x / 256 ^ Z.of_nat i mod 256) <$> seq 0 n.
(** One segment of eight bytes and 4992 zeroes at 0x10000. *)
Definition demo_elf : list Z :=
  le_bytes 4 ELF_MAGIC ++ replicate 20 0 ++ le_bytes 8 0x10000 ++ le_bytes 8 64 ++ replicate 16 0 ++ le_bytes 2 1 ++ replicate 6 0 ++
  le_bytes 4 1 ++ le_bytes 4 5 ++ le_bytes 8 120 ++ le_bytes 8 0x10000 ++ replicate 8 0 ++ le_bytes 8 8 ++ le_bytes 8 5000 ++ le_bytes 8 4096 ++
  [1; 2; 3; 4; 5; 6; 7; 8].

#[local] Instance demo_exec_nodes : ExecNodes Z.
Proof.
  refine {| en_namei _ _ s := Ret (7, s);
            en_read _ off size s := Ret ((let l := take (Z.to_nat size) (drop (Z.to_nat off) demo_elf) in (Z.of_nat (length l), l)), s);
            en_data _ _ := demo_elf |}.
  - intros _ _ s. by exists 7, s.
  - intros n off size s Ho Hs. eexists _, _, s. split; [done|]. split; [done|].
    assert (Hl : (length demo_elf = 128)%nat) by done. rewrite length_take, length_drop, Hl. split; [lia|]. split; [lia|].
    intros _. split; [done|].
    destruct (Nat.min_spec (Z.to_nat size) (128 - Z.to_nat off)) as [[_ ->]|[Hle ->]]; [done|].
    by rewrite !take_ge by (rewrite length_drop, Hl; lia).
Defined.

Definition demo_sig : sigproc unit := mk_sigproc (mk_sighand 5 2 (replicate 64 (mk_sigaction 0x4000 0 0 0))) (mk_trapframe 0 0 0 0 [0; 0]) false tt.
Definition demo_exec : exec_state pool Z unit :=
  mk_ex (mk_mm (demo_vm 40) demo_fstate (mk_uproc (pg 0) 0 0 (MMAP_START + 16 * PGSIZE) (MMAP_START + 32 * PGSIZE) demo_areas)) demo_sig 0.

Lemma demo_exec_pre : exec_pre (pg 1) 0 demo_exec (vm_pages (demo_vm 40)) demo_owner ∅ [pg 3] [].
Proof.
  split.
  - split; [exact demo_areas_inv|by apply demo_rel_n|exact (proj1 demo_root)|exact demo_fstate_inv].
  - exact demo_user_areas.
  - split; [simpl; lia|by vm_compute|right; by vm_compute|done].
  - exact (proj2 demo_root).
  - done.
  - by exists [47].
Qed.
Lemma demo_elf_ok : elf_ok demo_elf.
Proof.
  intros _ _. split; [by vm_compute|].
  assert (Hl : elf_loads demo_elf = [mk_proghdr 1 5 120 0x10000 0 8 5000 4096]) by (vm_compute; reflexivity).
  rewrite Hl. simpl. split_and!; try done; vm_compute; done.
Qed.

Definition run_demo : outcome (Z * exec_state pool Z unit) :=
  execve_kernel (pg 1) None no_files 0 (Some [47; 97]) [[97]; [98; 99]] demo_exec.


(** A file with two segments in the same page stops the kernel: uvmalloc
    maps the page a second time. *)
Definition overlap_elf : list Z :=
  let ph := le_bytes 4 1 ++ le_bytes 4 5 ++ le_bytes 8 0 ++ le_bytes 8 0x10000 ++ replicate 8 0 ++ le_bytes 8 0 ++ le_bytes 8 100 ++ le_bytes 8 4096 in
  le_bytes 4 ELF_MAGIC ++ replicate 20 0 ++ le_bytes 8 0x10000 ++ le_bytes 8 64 ++ replicate 16 0 ++ le_bytes 2 2 ++ replicate 6 0 ++ ph ++ ph.
Theorem exec_overlap_panics :
  execve_kernel (pg 1) (Some overlap_elf) no_files 0 (Some slash_init) [[97]] demo_exec = Panic "mappages: remap".
Proof. by vm_compute. Qed.

(** The ENOMEM branch after uvmcreate is never taken: without a free page
    uvmcreate stops the kernel. *)
Theorem exec_no_page_panics s : vm_pages (ex_vm s) = mk_pool [] ∅ →
  execve_kernel (pg 1) (Some demo_elf) no_files 0 (Some slash_init) [[97]] s = (Panic "Failed to allocate memory" : outcome (Z * exec_state pool Z unit)).
Proof. intros Hp. destruct s as [[[p t f] fs pr] g x]. simpl in Hp. subst p. vm_compute. done. Qed.
