(* ===== verification/Proc.v ===== *)
(** kernel/core/proc.c, proc_base.c and wait.c: the process table, fork, exit,
    wait4, kill, brk, sleep and wakeup, and the scheduler.

    [procs] is the table [proc]; a process is named by its index, and the
    current process (get_proc) is the argument [me].  The calls that end in
    [sched] are modelled up to that point: the state they leave is the one the
    scheduler of the CPU sees.  Memory, files and signals of a process are
    operations of the class [ProcMem]. *)
From S2P Require Import Prelude.

Definition NPROC : Z := 64.
Definition NCPU : Z := 16.
Definition NSIG : Z := 64.
Definition WNOHANG : Z := 1.

Inductive proc_state := UNUSED | USED | RUNNABLE | RUNNING | SLEEPING | ZOMBIE.
#[global] Instance proc_state_eq_dec : EqDecision proc_state.
Proof. solve_decision. Defined.

(** A wait channel: an address; [Cproc i] is [&proc[i]], [Cnull] is 0. *)
Inductive wchan := Cnull | Cproc (i : nat) | Caddr (a : Z).
#[global] Instance wchan_eq_dec : EqDecision wchan.
Proof. solve_decision. Defined.

Record process := mk_proc {
  p_state : proc_state;
  p_chan : wchan;
  p_pid : Z;
  p_exit_code : Z;
  p_parent : option nat;
  p_kstack : Z;
  p_pagetable : Z;
  p_context : Z;
  p_heap_bottom : Z;
  p_heap_top : Z;
  p_stack_bottom : Z;
  p_stack_top : Z;
  p_sig_pending : Z;
  p_locked : bool
}.

(** What proc.c calls of the memory, file and signal code. *)
Class ProcMem (M : Type) := {
  pm_kalloc : K M Z;
  pm_kfree : Z → K M unit;
  pm_uvmcreate : K M Z;
  pm_uvmfree : Z → K M unit;
  pm_uvmcopy : Z → Z → K M Z;
  pm_uvmdealloc : Z → Z → Z → K M Z;
  pm_kmalloc : K M Z;
  pm_kmfree : Z → K M unit;
  pm_copyout : Z → Z → Z → K M Z;        (* page table, address, the int stored *)
  pm_dup_files : nat → nat → K M unit;   (* the descriptor and area loops of fork *)
  pm_close_files : nat → K M unit;       (* the descriptor loop of exit *)
  pm_unmap_areas : nat → K M unit;       (* the area loop of exit *)
  pm_forget_terminal : nat → K M unit;   (* terminal_forget_process *)
  pm_load_init : Z → Z → Z → K M unit;   (* user_init: the code copied, code and stack mapped *)
  pm_open_std : K M (Z * Z * Z)          (* user_init: the three descriptors opened *)
}.

(** Memory in which every operation returns; the process table is first
    verified over such memory, then over any. *)
Class ProcMemTotal (M : Type) `{ProcMem M} := {
  pm_total_unit s : (∀ p, ∃ s', pm_kfree p s = Ret (tt, s')) ∧ (∀ p, ∃ s', pm_uvmfree p s = Ret (tt, s')) ∧
    (∀ p, ∃ s', pm_kmfree p s = Ret (tt, s')) ∧ (∀ p q, ∃ s', pm_dup_files p q s = Ret (tt, s')) ∧
    (∀ p, ∃ s', pm_close_files p s = Ret (tt, s')) ∧ (∀ p, ∃ s', pm_unmap_areas p s = Ret (tt, s')) ∧
    (∀ p, ∃ s', pm_forget_terminal p s = Ret (tt, s'));
  pm_alloc s : (∃ x s', pm_kalloc s = Ret (x, s')) ∧ (∃ x s', pm_kmalloc s = Ret (x, s')) ∧ (∃ x s', pm_uvmcreate s = Ret (x, s'));
  pm_total_val s : (∀ p q, ∃ x s', pm_uvmcopy p q s = Ret (x, s')) ∧
    (∀ p a x, ∃ r s', pm_copyout p a x s = Ret (r, s')) ∧ (∀ p a n, ∃ r s', pm_uvmdealloc p a n s = Ret (r, s'));
  pm_init s : (∀ p c t, ∃ s', pm_load_init p c t s = Ret (tt, s')) ∧ ∃ r s', pm_open_std s = Ret (r, s')
}.

Record ptable (M : Type) := mk_ptable {
  procs : list process;
  next_pid : Z;                      (* pid *)
  cpus : list (option nat);          (* cpus[i].proc *)
  pmem : M
}.
Arguments mk_ptable {_} _ _ _ _.
Arguments procs {_} _.
Arguments next_pid {_} _.
Arguments cpus {_} _.
Arguments pmem {_} _.

Section proc.
Context {M : Type} {PM : ProcMem M} {PT : ProcMemTotal M}.
Abbreviation st := (ptable M).

Definition set_procs l (s : st) : st := mk_ptable l (next_pid s) (cpus s) (pmem s).
Definition set_next_pid n (s : st) : st := mk_ptable (procs s) n (cpus s) (pmem s).
Definition set_cpus l (s : st) : st := mk_ptable (procs s) (next_pid s) l (pmem s).
Definition set_pmem m (s : st) : st := mk_ptable (procs s) (next_pid s) (cpus s) m.
Definition on_mem {A} (m : K M A) : K st A := zoom pmem set_pmem m.

Definition get_p (i : nat) : K st process := λ s,
  match procs s !! i with Some p => Ret (p, s) | None => Fault end.
Definition put_p (i : nat) (p : process) : K st unit := modify (λ s, set_procs (<[i := p]> (procs s)) s).

Definition set_state x (p : process) : process :=
  mk_proc x (p_chan p) (p_pid p) (p_exit_code p) (p_parent p) (p_kstack p) (p_pagetable p) (p_context p)
    (p_heap_bottom p) (p_heap_top p) (p_stack_bottom p) (p_stack_top p) (p_sig_pending p) (p_locked p).
Definition set_chan x (p : process) : process :=
  mk_proc (p_state p) x (p_pid p) (p_exit_code p) (p_parent p) (p_kstack p) (p_pagetable p) (p_context p)
    (p_heap_bottom p) (p_heap_top p) (p_stack_bottom p) (p_stack_top p) (p_sig_pending p) (p_locked p).
Definition set_pid x (p : process) : process :=
  mk_proc (p_state p) (p_chan p) x (p_exit_code p) (p_parent p) (p_kstack p) (p_pagetable p) (p_context p)
    (p_heap_bottom p) (p_heap_top p) (p_stack_bottom p) (p_stack_top p) (p_sig_pending p) (p_locked p).
Definition set_exit x (p : process) : process :=
  mk_proc (p_state p) (p_chan p) (p_pid p) x (p_parent p) (p_kstack p) (p_pagetable p) (p_context p)
    (p_heap_bottom p) (p_heap_top p) (p_stack_bottom p) (p_stack_top p) (p_sig_pending p) (p_locked p).
Definition set_parent x (p : process) : process :=
  mk_proc (p_state p) (p_chan p) (p_pid p) (p_exit_code p) x (p_kstack p) (p_pagetable p) (p_context p)
    (p_heap_bottom p) (p_heap_top p) (p_stack_bottom p) (p_stack_top p) (p_sig_pending p) (p_locked p).
Definition set_mem k pt c (p : process) : process :=
  mk_proc (p_state p) (p_chan p) (p_pid p) (p_exit_code p) (p_parent p) k pt c
    (p_heap_bottom p) (p_heap_top p) (p_stack_bottom p) (p_stack_top p) (p_sig_pending p) (p_locked p).
Definition set_bounds hb ht sb stop (p : process) : process :=
  mk_proc (p_state p) (p_chan p) (p_pid p) (p_exit_code p) (p_parent p) (p_kstack p) (p_pagetable p) (p_context p)
    hb ht sb stop (p_sig_pending p) (p_locked p).
Definition set_sig x (p : process) : process :=
  mk_proc (p_state p) (p_chan p) (p_pid p) (p_exit_code p) (p_parent p) (p_kstack p) (p_pagetable p) (p_context p)
    (p_heap_bottom p) (p_heap_top p) (p_stack_bottom p) (p_stack_top p) x (p_locked p).
Definition set_locked x (p : process) : process :=
  mk_proc (p_state p) (p_chan p) (p_pid p) (p_exit_code p) (p_parent p) (p_kstack p) (p_pagetable p) (p_context p)
    (p_heap_bottom p) (p_heap_top p) (p_stack_bottom p) (p_stack_top p) (p_sig_pending p) x.

(** acquire(&proc[i].lock), release(&proc[i].lock) *)
Definition lock_p (i : nat) : K st unit :=
  p ← get_p i;
  if p_locked p then kpanic "acquire: already holding lock" else put_p i (set_locked true p).
Definition unlock_p (i : nat) : K st unit :=
  p ← get_p i;
  if p_locked p then put_p i (set_locked false p) else kpanic "release: not holding lock".

(** [proc[i].f = ...] *)
Definition upd_p (i : nat) (f : process → process) : K st unit := p ← get_p i; put_p i (f p).

Definition all_procs : list nat := seq 0 (Z.to_nat NPROC).

(** ** Allocation *)

Definition get_pid : K st Z :=
  n ← gets next_pid;
  modify (set_next_pid (i32 (n + 1))) ;;
  mret n.

(** The slot found, USED and with a pid, before its memory is allocated. *)
Definition claim_slot : K st (option nat) :=
  for_find all_procs (λ i,
    lock_p i ;;
    p ← get_p i;
    if decide (p_state p = UNUSED) then
      upd_p i (set_state USED) ;;
      n ← get_pid;
      upd_p i (set_pid n) ;;
      unlock_p i ;;
      mret (Some i)
    else unlock_p i ;; mret None).

Definition alloc_process : K st (option nat) :=
  o ← claim_slot;
  match o with
  | None => mret None
  | Some i =>
      k ← on_mem pm_kalloc;
      pt ← on_mem pm_uvmcreate;
      (if decide (k = 0 ∨ pt = 0) then kpanic "Alloc process: Failed to allocate memory" else mret tt) ;;
      c ← on_mem pm_kmalloc;
      (if decide (c = 0) then kpanic "Alloc process: Failed to allocate memory" else mret tt) ;;
      upd_p i (set_mem k pt c) ;;
      upd_p i (set_sig 0) ;;
      mret (Some i)
  end.

Definition freeproc (i : nat) : K st unit :=
  lock_p i ;;
  p ← get_p i;
  (if decide (p_kstack p ≠ 0) then on_mem (pm_kfree (p_kstack p)) else mret tt) ;;
  (if decide (p_pagetable p ≠ 0) then on_mem (pm_uvmfree (p_pagetable p)) else mret tt) ;;
  (if decide (p_context p ≠ 0) then on_mem (pm_kmfree (p_context p)) else mret tt) ;;
  upd_p i (λ p, set_state UNUSED (set_parent None (set_mem 0 0 0 (set_pid 0 p)))) ;;
  unlock_p i.

(** ** fork *)

Definition fork (me : nat) : K st Z :=
  o ← alloc_process;
  match o with
  | None => mret (- EAGAIN)
  | Some np =>
      lock_p np ;;
      p ← get_p me;
      q ← get_p np;
      r ← on_mem (pm_uvmcopy (p_pagetable p) (p_pagetable q));
      if decide (r < 0) then unlock_p np ;; freeproc np ;; mret (- ENOMEM) else
      upd_p np (set_bounds (p_heap_bottom p) (p_heap_top p) (p_stack_bottom p) (p_stack_top p)) ;;
      upd_p np (set_parent (Some me)) ;;
      upd_p np (set_sig (p_sig_pending p)) ;;
      on_mem (pm_dup_files me np) ;;
      upd_p np (set_state RUNNABLE) ;;
      unlock_p np ;;
      q ← get_p np;
      mret (p_pid q)
  end.

(** ** sleep and wakeup *)

(** sleep(chan, lk) up to sched: [own] says whether [lk] is the lock of the
    process itself; releasing another lock is the caller's. *)
Definition sleep (me : nat) (chan : wchan) (own : bool) : K st unit :=
  (if own then mret tt else lock_p me) ;;
  upd_p me (λ p, set_state SLEEPING (set_chan chan p)).

(** The rest of sleep, once sched returns. *)
Definition sleep_resume (me : nat) (own : bool) : K st unit :=
  upd_p me (set_chan Cnull) ;;
  if own then mret tt else unlock_p me.

Definition wakeup_one (me : nat) (chan : wchan) (i : nat) : K st unit :=
  lock_p i ;;
  p ← get_p i;
  (if bool_decide (i ≠ me) && bool_decide (p_chan p = chan) && bool_decide (p_state p = SLEEPING)
   then put_p i (set_state RUNNABLE p) else mret tt) ;;
  unlock_p i.
Definition wakeup (me : nat) (chan : wchan) : K st unit := forM all_procs (wakeup_one me chan).

Definition yield (me : nat) : K st unit :=
  p ← get_p me;
  if decide (p_state p = RUNNING) then lock_p me ;; upd_p me (set_state RUNNABLE) else mret tt.
Definition yield_resume (me : nat) : K st unit := unlock_p me.

(** ** exit *)

(** The orphans go to proc[0]. *)
Definition reparent (me : nat) : K st unit :=
  forM all_procs (λ i,
    lock_p i ;;
    p ← get_p i;
    (if decide (p_parent p = Some me) then put_p i (set_parent (Some 0%nat) p) else mret tt) ;;
    unlock_p i).

(** exit up to and including wakeup(current->parent). *)
Definition exit_wake (me : nat) : K st unit :=
  on_mem (pm_forget_terminal me) ;;
  on_mem (pm_close_files me) ;;
  reparent me ;;
  p ← get_p me;
  wakeup me (match p_parent p with Some q => Cproc q | None => Cnull end).

(** The rest of exit, up to sched. *)
Definition exit_zombie (me : nat) (code : Z) : K st unit :=
  lock_p me ;;
  upd_p me (set_state ZOMBIE) ;;
  upd_p me (set_exit code) ;;
  on_mem (pm_unmap_areas me).

Definition exit (me : nat) (code : Z) : K st unit := exit_wake me ;; exit_zombie me code.

(** ** wait4 *)

(** The call returns, or sleeps on the process itself. *)
Inductive wait_end := Wreturns (r : Z) | Wsleeps.

(** A zombie child [i], its lock and the caller's held: [inr] is the return. *)
Definition reap (me i : nat) (wstatus : Z) : K st Z :=
  p ← get_p i;
  c ← get_p me;
  let child_pid := p_pid p in
  r ← (if decide (wstatus ≠ 0)
       then on_mem (pm_copyout (p_pagetable c) wstatus (Z.shiftl (Z.land (p_exit_code p) 0xff) 8)) else mret 0);
  unlock_p i ;;
  unlock_p me ;;
  if decide (r < 0) then mret (- EFAULT) else freeproc i ;; mret child_pid.

(** The scan of the table: [inl have_match] when it ends. *)
Fixpoint wait_scan (me : nat) (pid wstatus : Z) (l : list nat) (have_match : bool) : K st (bool + Z) :=
  match l with
  | [] => mret (inl have_match)
  | i :: l =>
      if decide (i = me) then wait_scan me pid wstatus l have_match else
      lock_p i ;;
      p ← get_p i;
      if bool_decide (p_parent p = Some me) && (bool_decide (pid = -1) || bool_decide (p_pid p = pid)) then
        if decide (p_state p = ZOMBIE) then r ← reap me i wstatus; mret (inr r)
        else unlock_p i ;; wait_scan me pid wstatus l true
      else unlock_p i ;; wait_scan me pid wstatus l have_match
  end.

(** One round of the loop of wait4, entered with the lock of [me]. *)
Definition wait_round (me : nat) (pid wstatus options : Z) : K st wait_end :=
  r ← wait_scan me pid wstatus all_procs false;
  match r with
  | inr v => mret (Wreturns v)
  | inl have_match =>
      if negb have_match then unlock_p me ;; mret (Wreturns (- ECHILD)) else
      if has options WNOHANG then unlock_p me ;; mret (Wreturns 0) else
      sleep me (Cproc me) true ;; mret Wsleeps
  end.

(** The call up to its first sleep, and the loop taken up after one. *)
Definition wait4 (me : nat) (pid wstatus options : Z) : K st wait_end :=
  lock_p me ;; wait_round me pid wstatus options.
Definition wait4_resume (me : nat) (pid wstatus options : Z) : K st wait_end :=
  sleep_resume me true ;; wait_round me pid wstatus options.

(** ** brk and kill *)

Definition brk (me : nat) (addr : Z) : K st Z :=
  p ← get_p me;
  if decide (addr = 0) then mret (p_heap_top p) else
  if decide (addr < p_heap_bottom p ∨ p_stack_bottom p ≤ addr) then mret (p_heap_top p) else
  (if decide (p_heap_bottom p ≤ addr ∧ addr < p_heap_top p) then
     lock_p me ;; on_mem (pm_uvmdealloc (p_pagetable p) addr (u64 (p_heap_top p - addr))) ;; unlock_p me
   else mret tt) ;;
  lock_p me ;;
  upd_p me (λ p, set_bounds (p_heap_bottom p) addr (p_stack_bottom p) (p_stack_top p) p) ;;
  unlock_p me ;;
  mret addr.

(** signal_send, entered and left with the lock of [i]. *)
Definition signal_send (me i : nat) (sig : Z) : K st unit :=
  upd_p i (λ p, set_sig (Z.lor (p_sig_pending p) (u64 (Z.shiftl 1 (sig - 1)))) p) ;;
  unlock_p i ;;
  p ← get_p i;
  (if decide (p_state p = SLEEPING) then wakeup me (Cproc i) else mret tt) ;;
  lock_p i.

Definition find_pid (pid : Z) : K st (option nat) :=
  for_find all_procs (λ i,
    lock_p i ;;
    p ← get_p i;
    if bool_decide (p_pid p = pid) && bool_decide (p_state p ≠ UNUSED) then mret (Some i)
    else unlock_p i ;; mret None).

Definition kill (me : nat) (pid sig : Z) : K st Z :=
  if decide (sig < 0 ∨ NSIG ≤ sig) then mret (- EINVAL) else
  o ← find_pid pid;
  match o with
  | None => mret (- ESRCH)
  | Some i =>
      if decide (sig = 0) then unlock_p i ;; mret 0 else
      signal_send me i sig ;;
      unlock_p i ;;
      mret 0
  end.

(** ** The scheduler *)

(** CPU [c] looks at process [i]: it switches to it, its lock still held; or it
    goes on. *)
Definition sched_in (c i : nat) : K st bool :=
  lock_p i ;;
  p ← get_p i;
  if decide (p_state p = RUNNABLE) then
    upd_p i (set_state RUNNING) ;;
    modify (λ s, set_cpus (<[c := Some i]> (cpus s)) s) ;;
    mret true
  else unlock_p i ;; mret false.

(** [noff] of the CPU that runs: calls run one after the other and only
    process locks are left when sched is called, so it counts those held;
    interrupts are off while it is not 0 (push_off, Spinlock). *)
Definition noff (s : st) : nat := length (filter (λ p, p_locked p = true) (procs s)).
Definition irq_enabled (s : st) : bool := bool_decide (noff s = 0%nat).

(** sched on CPU [c], and the scheduler's release on its return. *)
Definition sched_out (c : nat) : K st unit :=
  s ← gets cpus;
  match s !! c with
  | Some (Some i) =>
      p ← get_p i;
      (if p_locked p then mret tt else kpanic "sched p->lock") ;;
      n ← gets noff;
      (if decide (n ≠ 1%nat) then kpanic "sched locks" else mret tt) ;;
      (if decide (p_state p = RUNNING) then kpanic "sched running" else mret tt) ;;
      on ← gets irq_enabled;
      (if on : bool then kpanic "sched interruptible" else mret tt) ;;
      modify (λ s, set_cpus (<[c := None]> (cpus s)) s) ;;
      unlock_p i
  | _ => kfault
  end.

(** ** Boot *)

Definition procinit : K st unit := forM all_procs (λ i, upd_p i (λ p, set_locked false (set_state UNUSED p))).

Definition user_init (c : nat) : K st unit :=
  o ← alloc_process;
  match o with
  | None => kpanic "Failed to allocate process"
  | Some i =>
      code ← on_mem pm_kalloc;
      (if decide (code = 0) then kpanic "Failed to allocate memory" else mret tt) ;;
      stack ← on_mem pm_kalloc;
      (if decide (stack = 0) then kpanic "Failed to allocate memory" else mret tt) ;;
      p ← get_p i;
      on_mem (pm_load_init (p_pagetable p) code stack) ;;
      modify (λ s, set_cpus (<[c := Some i]> (cpus s)) s) ;;
      fds ← on_mem pm_open_std;
      (if decide (fds.1.1 < 0 ∨ fds.1.2 < 0 ∨ fds.2 < 0) then kpanic "Failed to open files" else mret tt) ;;
      modify (λ s, set_cpus (<[c := None]> (cpus s)) s) ;;
      upd_p i (set_state RUNNABLE)
  end.

(** The tables as the loader leaves them, and the boot. *)
Definition zero_proc : process := mk_proc UNUSED Cnull 0 0 None 0 0 0 0 0 0 0 0 false.
Definition zero_table (m : M) : st :=
  mk_ptable (replicate (Z.to_nat NPROC) zero_proc) 1 (replicate (Z.to_nat NCPU) None) m.
Definition boot : K st unit := procinit ;; user_init 0.
Definition procs_of_boot (p : process) : list process := <[0%nat := p]> (replicate (Z.to_nat NPROC) zero_proc).

(** ** Events *)

(** What the process on CPU [c] can do, up to its next switch. *)
Inductive kcall :=
  | Kfork | Kexit (code : Z) | Kwait4 (pid wstatus options : Z) | Kkill (pid sig : Z)
  | Kwakeup (chan : wchan) | Ksleep (chan : wchan) | Kyield | Kbrk (addr : Z).
(** Where a process that is switched to was switched away from. *)
Inductive kresume := Ryield | Rsleep | Rwait (pid wstatus options : Z).
Inductive kevent := Ecall (c : nat) (k : kcall) | Epick (c i : nat) (r : kresume).

Definition wait_out (c : nat) (e : wait_end) : K st unit :=
  match e with Wreturns _ => mret tt | Wsleeps => sched_out c end.

Definition run_call (c i : nat) (k : kcall) : K st unit :=
  match k with
  | Kfork => fork i ;; mret tt
  | Kexit code => exit i code ;; sched_out c
  | Kwait4 pid w o => e ← wait4 i pid w o; wait_out c e
  | Kkill pid sig => kill i pid sig ;; mret tt
  | Kwakeup chan => wakeup i chan
  | Ksleep chan => sleep i chan false ;; sched_out c
  | Kyield => yield i ;; sched_out c
  | Kbrk addr => brk i addr ;; mret tt
  end.
Definition run_resume (c i : nat) (r : kresume) : K st unit :=
  match r with
  | Ryield => yield_resume i
  | Rsleep => sleep_resume i false
  | Rwait pid w o => e ← wait4_resume i pid w o; wait_out c e
  end.
Definition kstep (e : kevent) : K st unit :=
  match e with
  | Ecall c k =>
      s ← gets cpus;
      match s !! c with Some (Some i) => run_call c i k | _ => kfault end
  | Epick c i r => b ← sched_in c i; if b : bool then run_resume c i r else mret tt
  end.

(** Calls come from a CPU with a process, the scheduler runs on one without;
    fork runs while the pid counter, a C int, can be incremented. *)
Definition enabled (e : kevent) (s : st) : Prop :=
  match e with
  | Ecall c k => ∃ i, cpus s !! c = Some (Some i) ∧ (k = Kfork → next_pid s < 2 ^ 31 - 1)
  | Epick c i _ => cpus s !! c = Some None ∧ (i < Z.to_nat NPROC)%nat
  end.

(** ** Invariant *)

Definition live (p : process) : Prop := p_state p ≠ UNUSED ∧ p_state p ≠ ZOMBIE.

(** [lk] is the process whose lock is held, if any. *)
Record table_inv (s : st) (lk : option nat) : Prop := {
  ti_len : length (procs s) = Z.to_nat NPROC;
  ti_lock i p : procs s !! i = Some p → p_locked p = bool_decide (lk = Some i);
  ti_pid i p : procs s !! i = Some p → p_state p ≠ UNUSED → 0 < p_pid p < next_pid s;
  ti_uniq i j p q : procs s !! i = Some p → procs s !! j = Some q → i ≠ j →
    p_state p ≠ UNUSED → p_state q ≠ UNUSED → p_pid p ≠ p_pid q;
  ti_unused i p : procs s !! i = Some p → p_state p = UNUSED → p_parent p = None;
  ti_parent i p q : procs s !! i = Some p → p_parent p = Some q → ∃ pq, procs s !! q = Some pq ∧ (live pq ∨ q = 0%nat);
  ti_init : ∃ p, procs s !! 0%nat = Some p ∧ p_state p ≠ UNUSED ∧ p_parent p = None;
  ti_next : 0 < next_pid s
}.

(** A child of [me] that wait4(pid) waits for. *)
Definition child_of (me : nat) (pid : Z) (i : nat) (p : process) : Prop :=
  i ≠ me ∧ p_parent p = Some me ∧ (pid = -1 ∨ p_pid p = pid).

(** * Lemmas *)

Definition pput (s : st) (i : nat) (p : process) : st := set_procs (<[i := p]> (procs s)) s.

Lemma pput_pput s i p q : pput (pput s i p) i q = pput s i q.
Proof. unfold pput, set_procs. simpl. by rewrite list_insert_insert_eq. Qed.
Lemma pput_id s i p : procs s !! i = Some p → pput s i p = s.
Proof. intros Hi. unfold pput, set_procs. rewrite list_insert_id by done. by destruct s. Qed.
Lemma pput_lookup s i p q : procs s !! i = Some q → procs (pput s i p) !! i = Some p.
Proof. intros Hi. unfold pput. simpl. apply list_lookup_insert_eq. by eapply lookup_lt_Some. Qed.
Lemma pput_lookup_ne s i j p : i ≠ j → procs (pput s i p) !! j = procs s !! j.
Proof. intros Hne. unfold pput. simpl. by apply list_lookup_insert_ne. Qed.

Lemma get_run s i p : procs s !! i = Some p → get_p i s = Ret (p, s).
Proof. intros Hi. unfold get_p. by rewrite Hi. Qed.
Lemma upd_run s i p f : procs s !! i = Some p → upd_p i f s = Ret (tt, pput s i (f p)).
Proof. intros Hi. unfold upd_p. rewrite (bind_Ret _ _ _ _ _ (get_run s i p Hi)). done. Qed.
Lemma lock_run s i p : procs s !! i = Some p → p_locked p = false → lock_p i s = Ret (tt, pput s i (set_locked true p)).
Proof. intros Hi Hl. unfold lock_p. rewrite (bind_Ret _ _ _ _ _ (get_run s i p Hi)), Hl. done. Qed.
Lemma unlock_run s i p : procs s !! i = Some p → p_locked p = true → unlock_p i s = Ret (tt, pput s i (set_locked false p)).
Proof. intros Hi Hl. unfold unlock_p. rewrite (bind_Ret _ _ _ _ _ (get_run s i p Hi)), Hl. done. Qed.

Lemma relock p b : p_locked p = b → set_locked b (set_locked (negb b) p) = p.
Proof. destruct p; simpl; by intros <-. Qed.

(** The loops over the table. *)
Lemma all_procs_lookup s lk i : table_inv s lk → i ∈ all_procs ↔ is_Some (procs s !! i).
Proof.
  intros HI. unfold all_procs. rewrite elem_of_seq, lookup_lt_is_Some, (ti_len _ _ HI). lia.
Qed.

Lemma table_loop (body : nat → K st unit) (f : nat → process → process) s :
  length (procs s) = Z.to_nat NPROC →
  (∀ i s1 p, procs s1 !! i = Some p → procs s !! i = Some p → body i s1 = Ret (tt, pput s1 i (f i p))) →
  forM all_procs body s = Ret (tt, set_procs (imap f (procs s)) s).
Proof.
  intros Hlen Hbody.
  destruct (forM_inv (λ d s1, s1 = set_procs (imap f (take (length d) (procs s)) ++ drop (length d) (procs s)) s)
    body all_procs [] s) as (s' & Hrun & ->).
  - intros d x r s1 Hd ->. assert (Hx : x = length d).
    { assert (Hlk : all_procs !! length d = Some x) by (rewrite Hd; by apply list_lookup_middle).
      unfold all_procs in Hlk. apply lookup_seq in Hlk. lia. }
    assert (Hlt : (length d < length (procs s))%nat).
    { rewrite Hlen. assert (Hl : length all_procs = Z.to_nat NPROC) by done.
      rewrite Hd in Hl. rewrite length_app in Hl. simpl in Hl. lia. }
    destruct (lookup_lt_is_Some_2 _ _ Hlt) as [p Hp]. eexists. split.
    + apply (Hbody x _ p); [|by rewrite Hx]. simpl. rewrite lookup_app_r; rewrite length_imap, length_take; [|lia].
      rewrite lookup_drop. rewrite Hx, <-Hp. f_equal. lia.
    + simpl. unfold pput, set_procs. simpl. f_equal. rewrite length_app. simpl.
      rewrite (drop_S _ p (length d) Hp). rewrite insert_app_r_alt; rewrite length_imap, length_take; [|lia].
      replace (x - length d `min` length (procs s))%nat with 0%nat by lia. simpl.
      rewrite Nat.add_1_r, (take_S_r _ _ p Hp), imap_app. simpl. rewrite <-app_assoc. simpl.
      rewrite length_take, Nat.add_0_r, Nat.min_l by lia. subst x. done.
  - simpl. by destruct s.
  - rewrite Hrun. rewrite app_nil_l. assert (Hl : length all_procs = Z.to_nat NPROC) by done.
    rewrite Hl, <-Hlen, firstn_all, drop_all, app_nil_r. done.
Qed.

Definition woken (me : nat) (chan : wchan) (i : nat) (p : process) : process :=
  if bool_decide (i ≠ me) && bool_decide (p_chan p = chan) && bool_decide (p_state p = SLEEPING)
  then set_state RUNNABLE p else p.

Lemma wakeup_run s me chan :
  table_inv s None → wakeup me chan s = Ret (tt, set_procs (imap (woken me chan) (procs s)) s).
Proof.
  intros HI. apply table_loop; [apply HI|]. intros i s1 p Hi Hi0. unfold wakeup_one.
  assert (Hl : p_locked p = false) by (rewrite (ti_lock _ _ HI i p Hi0); done).
  rewrite (bind_Ret _ _ _ _ _ (lock_run s1 i p Hi Hl)).
  rewrite (bind_Ret _ _ _ _ _ (get_run _ i _ (pput_lookup s1 i _ p Hi))).
  unfold woken. simpl. destruct (bool_decide (i ≠ me) && bool_decide (p_chan p = chan) && bool_decide (p_state p = SLEEPING)).
  - unfold put_p, modify. unfold mbind at 1, K_bind at 1.
    fold (pput (pput s1 i (set_locked true p)) i (set_state RUNNABLE (set_locked true p))). rewrite pput_pput.
    rewrite (unlock_run _ i (set_state RUNNABLE (set_locked true p))); [|by eapply pput_lookup|done].
    rewrite pput_pput. do 3 f_equal. by destruct p; simpl in *; subst.
  - unfold mbind at 1, K_bind at 1, mret at 1, K_ret at 1.
    rewrite (unlock_run _ i (set_locked true p)); [|by eapply pput_lookup|done].
    rewrite pput_pput. do 3 f_equal. by destruct p; simpl in *; subst.
Qed.

Definition reparented (me : nat) (i : nat) (p : process) : process :=
  if decide (p_parent p = Some me) then set_parent (Some 0%nat) p else p.

Lemma reparent_run s me :
  table_inv s None → reparent me s = Ret (tt, set_procs (imap (reparented me) (procs s)) s).
Proof.
  intros HI. apply table_loop; [apply HI|]. intros i s1 p Hi Hi0.
  assert (Hl : p_locked p = false) by (rewrite (ti_lock _ _ HI i p Hi0); done).
  rewrite (bind_Ret _ _ _ _ _ (lock_run s1 i p Hi Hl)).
  rewrite (bind_Ret _ _ _ _ _ (get_run _ i _ (pput_lookup s1 i _ p Hi))).
  unfold reparented. simpl. destruct (decide (p_parent p = Some me)).
  - unfold put_p, modify. unfold mbind at 1, K_bind at 1.
    fold (pput (pput s1 i (set_locked true p)) i (set_parent (Some 0%nat) (set_locked true p))). rewrite pput_pput.
    rewrite (unlock_run _ i (set_parent (Some 0%nat) (set_locked true p))); [|by eapply pput_lookup|done].
    rewrite pput_pput. do 3 f_equal. by destruct p; simpl in *; subst.
  - unfold mbind at 1, K_bind at 1, mret at 1, K_ret at 1.
    rewrite (unlock_run _ i (set_locked true p)); [|by eapply pput_lookup|done].
    rewrite pput_pput. do 3 f_equal. by destruct p; simpl in *; subst.
Qed.

(** A change of the table that keeps pids and slots, and moves parents only to
    init. *)
Lemma inv_change s s' lk lk' :
  table_inv s lk → next_pid s' = next_pid s → length (procs s') = length (procs s) →
  (∀ i p', procs s' !! i = Some p' → p_locked p' = bool_decide (lk' = Some i) ∧
     ∃ p, procs s !! i = Some p ∧ p_pid p' = p_pid p ∧ (p_state p' = UNUSED ↔ p_state p = UNUSED) ∧
       (p_parent p' = p_parent p ∨ p_parent p' = Some 0%nat ∧ p_state p ≠ UNUSED ∧ i ≠ 0%nat)) →
  (∀ i p p', procs s !! i = Some p → procs s' !! i = Some p' → live p →
     live p' ∨ i = 0%nat ∨ ∀ j q', procs s' !! j = Some q' → p_parent q' ≠ Some i) →
  table_inv s' lk'.
Proof.
  intros HI Hn Hlen Hp Hlive. assert (Hdom : ∀ i p, procs s !! i = Some p → ∃ p', procs s' !! i = Some p').
  { intros i p Hi%lookup_lt_Some. rewrite <-Hlen in Hi. by apply lookup_lt_is_Some_2 in Hi as [p' ?]; exists p'. }
  split.
  - rewrite Hlen. apply HI.
  - intros i p' Hi. by apply Hp.
  - intros i p' Hi Hu. destruct (Hp i p' Hi) as (_ & p & Hi0 & -> & Hst & _). rewrite Hn. apply (ti_pid _ _ HI i p Hi0). tauto.
  - intros i j p' q' Hi Hj Hne Hu Hv. destruct (Hp i p' Hi) as (_ & p & Hi0 & -> & Hst & _).
    destruct (Hp j q' Hj) as (_ & q & Hj0 & -> & Hst2 & _). apply (ti_uniq _ _ HI i j p q Hi0 Hj0 Hne); tauto.
  - intros i p' Hi Hu. destruct (Hp i p' Hi) as (_ & p & Hi0 & _ & Hst & [->|(_ & ? & _)]); [|tauto].
    apply (ti_unused _ _ HI i p Hi0). tauto.
  - intros i p' q Hi Hq. destruct (Hp i p' Hi) as (_ & p & Hi0 & _ & _ & Hpar).
    assert (∃ pq, procs s !! q = Some pq ∧ (live pq ∨ q = 0%nat)) as (pq & Hpq & Hl).
    { destruct Hpar as [Heq|[Heq _]]; [rewrite Heq in Hq; by apply (ti_parent _ _ HI i p q)|].
      rewrite Heq in Hq. injection Hq as <-. destruct (ti_init _ _ HI) as (p0 & ? & _). exists p0. auto. }
    destruct (Hdom q pq Hpq) as (pq' & Hpq'). exists pq'. split; [done|].
    destruct Hl as [Hl|?]; [|by right].
    destruct (Hlive q pq pq' Hpq Hpq' Hl) as [?|[?|Hno]]; [by left|by right|]. by destruct (Hno i p' Hi).
  - destruct (ti_init _ _ HI) as (p0 & H0 & Hu & Hpn). destruct (Hdom _ _ H0) as (p' & H0'). exists p'. split; [done|].
    destruct (Hp _ _ H0') as (_ & p & Hi0 & _ & Hst & Hpar). assert (p = p0) as -> by congruence. split; [tauto|].
    destruct Hpar as [->|(_ & _ & ?)]; done.
  - rewrite Hn. apply HI.
Qed.

(** The special case of one process. *)
Lemma inv_put s lk lk' i p p' :
  table_inv s lk → procs s !! i = Some p → p_pid p' = p_pid p → (p_state p' = UNUSED ↔ p_state p = UNUSED) →
  p_parent p' = p_parent p → p_locked p' = bool_decide (lk' = Some i) →
  (∀ j, j ≠ i → bool_decide (lk' = Some j) = bool_decide (lk = Some j)) →
  (live p → live p' ∨ i = 0%nat ∨ ∀ j q, procs s !! j = Some q → p_parent q ≠ Some i) →
  table_inv (pput s i p') lk'.
Proof.
  intros HI Hi Hpid Hst Hpar Hlk Hlks Hlive. apply (inv_change s _ lk lk' HI); [done|by unfold pput; simpl; rewrite length_insert|..].
  - intros j q Hj. destruct (decide (i = j)) as [<-|Hne].
    + rewrite (pput_lookup s i p' p Hi) in Hj. injection Hj as <-. split; [done|]. exists p. split_and!; try done. by left.
    + rewrite pput_lookup_ne in Hj by done. split; [rewrite Hlks by done; by apply (ti_lock _ _ HI)|].
      exists q. split_and!; try done. by left.
  - intros j q q' Hj Hj' Hl. destruct (decide (i = j)) as [<-|Hne].
    + rewrite (pput_lookup s i p' p Hi) in Hj'. injection Hj' as <-. assert (q = p) as -> by congruence.
      destruct (Hlive Hl) as [|[?|Hno]]; [by left|by right; left|]. right. right.
      intros k r Hk. destruct (decide (i = k)) as [<-|Hik].
      * rewrite (pput_lookup s i p' p Hi) in Hk. injection Hk as <-. rewrite Hpar. by apply (Hno i p).
      * rewrite pput_lookup_ne in Hk by done. by apply (Hno k).
    + rewrite pput_lookup_ne in Hj' by done. left. congruence.
Qed.

Lemma woken_inv s me chan :
  table_inv s None → table_inv (set_procs (imap (woken me chan) (procs s)) s) None.
Proof.
  intros HI. apply (inv_change s _ None None HI); [done|simpl; by rewrite length_imap|..]; simpl.
  - intros i p' Hi. rewrite list_lookup_imap in Hi. destruct (procs s !! i) as [p|] eqn:Ep; simplify_eq/=.
    pose proof (ti_lock _ _ HI i p Ep). unfold woken. split; [by case_match|]. exists p. split; [done|].
    destruct (bool_decide (i ≠ me) && bool_decide (p_chan p = chan) && bool_decide (p_state p = SLEEPING)) eqn:E;
      [|split_and!; [done..|by left]].
    apply andb_true_iff in E as [_ E%bool_decide_eq_true]. simpl. rewrite E. split_and!; [done|by split; intros|by left].
  - intros i p p' Hi Hi' Hl. left. rewrite list_lookup_imap, Hi in Hi'. injection Hi' as <-. unfold woken.
    case_match; [|done]. by split.
Qed.

Lemma reparented_inv s me :
  table_inv s None → table_inv (set_procs (imap (reparented me) (procs s)) s) None.
Proof.
  intros HI. apply (inv_change s _ None None HI); [done|simpl; by rewrite length_imap|..]; simpl.
  - intros i p' Hi. rewrite list_lookup_imap in Hi. destruct (procs s !! i) as [p|] eqn:Ep; simplify_eq/=.
    pose proof (ti_lock _ _ HI i p Ep). unfold reparented. split; [by case_match|]. exists p. split; [done|].
    destruct (decide (p_parent p = Some me)) as [Hd|Hd]; simpl; [|by split_and!; [..|left]].
    split; [done|]. split; [done|]. right. split_and!; [done| |].
    + intros Hu. pose proof (ti_unused _ _ HI i p Ep Hu). congruence.
    + intros ->. destruct (ti_init _ _ HI) as (p0 & ? & _ & ?). congruence.
  - intros i p p' Hi Hi' Hl. left. rewrite list_lookup_imap, Hi in Hi'. injection Hi' as <-. unfold reparented.
    by case_decide.
Qed.

(** After the loop nobody but init's children moved. *)
Lemma reparented_parent s me i p :
  me ≠ 0%nat → procs (set_procs (imap (reparented me) (procs s)) s) !! i = Some p → p_parent p ≠ Some me.
Proof.
  intros Hme. simpl. rewrite list_lookup_imap. destruct (procs s !! i) as [q|]; intros [= <-]. unfold reparented.
  case_decide; simpl; congruence.
Qed.

Lemma inv_mem s lk m : table_inv s lk → table_inv (set_pmem m s) lk.
Proof. intros []. by split. Qed.
Lemma mem_unit_run (mm : K M unit) s : (∃ m', mm (pmem s) = Ret (tt, m')) → ∃ m', on_mem mm s = Ret (tt, set_pmem m' s).
Proof. intros (m' & Hm). exists m'. unfold on_mem, zoom. by rewrite Hm. Qed.
Lemma mem_val_run (mm : K M Z) s : (∃ x m', mm (pmem s) = Ret (x, m')) → ∃ x m', on_mem mm s = Ret (x, set_pmem m' s).
Proof. intros (x & m' & Hm). exists x, m'. unfold on_mem, zoom. by rewrite Hm. Qed.

Lemma inv_unlocked s i p : table_inv s None → procs s !! i = Some p → p_locked p = false.
Proof. intros HI Hi. by rewrite (ti_lock _ _ HI i p Hi). Qed.

Lemma lock_inv s i p : table_inv s None → procs s !! i = Some p → table_inv (pput s i (set_locked true p)) (Some i).
Proof.
  intros HI Hi. apply (inv_put s None (Some i) i p); try done; [simpl; by rewrite bool_decide_eq_true_2|..].
  - intros j Hj. by rewrite !bool_decide_eq_false_2 by congruence.
  - intros Hl. by left.
Qed.

(** ** exit *)

Lemma exit_run s me p code :
  table_inv s None → procs s !! me = Some p → live p →
  ∃ s' p', exit me code s = Ret (tt, s') ∧ table_inv s' (Some me) ∧ procs s' !! me = Some p' ∧
    p_state p' = ZOMBIE ∧ p_exit_code p' = code ∧ p_pid p' = p_pid p ∧
    (me ≠ 0%nat → ∀ i q, procs s' !! i = Some q → p_parent q ≠ Some me) ∧ cpus s' = cpus s ∧
    (∀ i q, i ≠ me → procs s !! i = Some q → ∃ q', procs s' !! i = Some q' ∧
       (p_state q' = p_state q ∨ p_state q = SLEEPING ∧ p_state q' = RUNNABLE)).
Proof.
  intros HI Hme Hl. unfold exit, exit_wake. destruct (pm_total_unit (pmem s)) as (_ & _ & _ & _ & _ & _ & Hft).
  destruct (mem_unit_run (pm_forget_terminal me) s (Hft me)) as (m0 & Hm0). rewrite bind_assoc, (bind_Ret _ _ _ _ _ Hm0).
  destruct (pm_total_unit m0) as (_ & _ & _ & _ & Hcf & _).
  destruct (mem_unit_run (pm_close_files me) (set_pmem m0 s) (Hcf me)) as (m1 & Hm1). rewrite bind_assoc, (bind_Ret _ _ _ _ _ Hm1).
  change (set_pmem m1 (set_pmem m0 s)) with (set_pmem m1 s). pose proof (inv_mem s None m1 HI) as HI1. set (s1 := set_pmem m1 s) in *.
  rewrite bind_assoc, (bind_Ret _ _ _ _ _ (reparent_run s1 me HI1)). pose proof (reparented_inv s1 me HI1) as HI2.
  pose proof (λ Hne i q, reparented_parent s1 me i q Hne) as Hnp. set (s2 := set_procs _ s1) in *.
  assert (Hp2 : procs s2 !! me = Some (reparented me me p)) by (simpl; rewrite list_lookup_imap; simpl; by rewrite Hme).
  rewrite bind_assoc, (bind_Ret _ _ _ _ _ (get_run s2 me _ Hp2)).
  set (ch := match p_parent (reparented me me p) with Some q => Cproc q | None => Cnull end).
  rewrite (bind_Ret _ _ _ _ _ (wakeup_run s2 me ch HI2)). pose proof (woken_inv s2 me ch HI2) as HI3.
  set (s3 := set_procs _ s2) in *. set (p3 := woken me ch me (reparented me me p)).
  assert (Hp3 : procs s3 !! me = Some p3) by (simpl in *; rewrite list_lookup_imap, Hp2; done).
  assert (Hp3s : p_state p3 = p_state p ∧ p_pid p3 = p_pid p).
  { unfold p3, woken, reparented. rewrite (bool_decide_eq_false_2 (me ≠ me)) by auto. simpl. by case_decide. }
  unfold exit_zombie. rewrite (bind_Ret _ _ _ _ _ (lock_run s3 me p3 Hp3 (inv_unlocked s3 me p3 HI3 Hp3))).
  pose proof (lock_inv s3 me p3 HI3 Hp3) as HI4. set (s4 := pput s3 me (set_locked true p3)) in *.
  assert (Hp4 : procs s4 !! me = Some (set_locked true p3)) by (by eapply pput_lookup).
  rewrite (bind_Ret _ _ _ _ _ (upd_run s4 me _ _ Hp4)).
  rewrite (bind_Ret _ _ _ _ _ (upd_run _ me _ _ (pput_lookup s4 me _ _ Hp4))). rewrite pput_pput.
  set (pz := set_exit code (set_state ZOMBIE (set_locked true p3))). set (s5 := pput s4 me pz).
  assert (Hnp4 : me ≠ 0%nat → ∀ i q, procs s4 !! i = Some q → p_parent q ≠ Some me).
  { intros Hne i q Hq. assert (∃ q2, procs s2 !! i = Some q2 ∧ p_parent q = p_parent q2) as (q2 & Hq2 & ->); [|by eapply Hnp].
    assert (Hw : ∀ q3, procs s3 !! i = Some q3 → ∃ q2, procs s2 !! i = Some q2 ∧ p_parent q3 = p_parent q2).
    { intros q3 Hq3. change (procs s3) with (imap (woken me ch) (procs s2)) in Hq3. rewrite list_lookup_imap in Hq3.
      destruct (procs s2 !! i) as [q2|]; simplify_eq/=. exists q2. split; [done|]. unfold woken. by case_match. }
    destruct (decide (me = i)) as [<-|Hi].
    - rewrite Hp4 in Hq. injection Hq as <-. simpl. by apply (Hw p3).
    - unfold s4 in Hq. rewrite pput_lookup_ne in Hq by done. by apply (Hw q). }
  assert (HI5 : table_inv s5 (Some me)).
  { apply (inv_put s4 (Some me) (Some me) me (set_locked true p3)); try done.
    - simpl. destruct Hp3s as [-> _]. destruct Hl as [Hl _]. split; [done|intros Hu; by destruct Hl].
    - simpl. by rewrite bool_decide_eq_true_2.
    - intros _. right. destruct (decide (me = 0%nat)); [by left|right; by apply Hnp4]. }
  destruct (pm_total_unit (pmem s5)) as (_ & _ & _ & _ & _ & Hun & _).
  destruct (mem_unit_run (pm_unmap_areas me) s5 (Hun me)) as (m5 & Hm5). rewrite Hm5.
  exists (set_pmem m5 s5), pz. split_and!; try done.
  - by apply inv_mem.
  - by apply (pput_lookup s4 me pz _ Hp4).
  - by destruct Hp3s.
  - intros Hne i q Hq. change (procs s5 !! i = Some q) in Hq. destruct (decide (me = i)) as [<-|Hi].
    + unfold s5 in Hq. rewrite (pput_lookup s4 me pz _ Hp4) in Hq. injection Hq as <-. by apply (Hnp4 Hne me _ Hp4).
    + unfold s5 in Hq. rewrite pput_lookup_ne in Hq by done. by eapply Hnp4.
  - intros i q Hi Hq. exists (woken me ch i (reparented me i q)).
    split; [change (procs (set_pmem m5 s5)) with (procs s5); unfold s5, s4; rewrite !pput_lookup_ne by done;
      simpl; rewrite !list_lookup_imap, Hq; done|].
    unfold woken, reparented. destruct (bool_decide (i ≠ me) && _ && bool_decide (p_state _ = SLEEPING)) eqn:E.
    + apply andb_true_iff in E as [_ E%bool_decide_eq_true]. right. split; [|done]. revert E. by case_decide.
    + left. by case_decide.
Qed.

(** ** freeproc *)

Definition freed (p : process) : process := set_state UNUSED (set_parent None (set_mem 0 0 0 (set_pid 0 p))).

Lemma inv_free s i p :
  table_inv s None → procs s !! i = Some p → i ≠ 0%nat → (∀ j q, procs s !! j = Some q → p_parent q ≠ Some i) →
  table_inv (pput s i (freed p)) None.
Proof.
  intros HI Hi Hne Hno. assert (Hlk : ∀ j q, procs (pput s i (freed p)) !! j = Some q →
    (j = i ∧ q = freed p) ∨ (j ≠ i ∧ procs s !! j = Some q)).
  { intros j q. destruct (decide (i = j)) as [<-|Hj]; [rewrite (pput_lookup s i _ p Hi); intros [= <-]; by left|].
    rewrite pput_lookup_ne by done. by right. }
  split.
  - unfold pput. simpl. rewrite length_insert. apply HI.
  - intros j q [[-> ->]|[_ Hj]]%Hlk; [by apply (ti_lock _ _ HI i p)|by apply (ti_lock _ _ HI j)].
  - intros j q [[-> ->]|[_ Hj]]%Hlk; [done|by apply (ti_pid _ _ HI j)].
  - intros j k q r [[-> ->]|[_ Hj]]%Hlk [[-> ->]|[_ Hk]]%Hlk ? ? ?; try done. by apply (ti_uniq _ _ HI j k).
  - intros j q [[-> ->]|[_ Hj]]%Hlk; [done|by apply (ti_unused _ _ HI j)].
  - intros j q r [[-> ->]|[_ Hj]]%Hlk Hr; [done|]. destruct (ti_parent _ _ HI j q r Hj Hr) as (pr & Hpr & Hl).
    exists pr. rewrite pput_lookup_ne; [done|]. intros <-. by destruct (Hno j q Hj).
  - destruct (ti_init _ _ HI) as (p0 & H0 & Hl). exists p0. by rewrite pput_lookup_ne.
  - apply HI.
Qed.

Lemma freeproc_run s i p :
  table_inv s None → procs s !! i = Some p → i ≠ 0%nat → (∀ j q, procs s !! j = Some q → p_parent q ≠ Some i) →
  ∃ m', freeproc i s = Ret (tt, set_pmem m' (pput s i (freed p))) ∧ table_inv (set_pmem m' (pput s i (freed p))) None.
Proof.
  intros HI Hi Hne Hno. unfold freeproc. pose proof (inv_unlocked s i p HI Hi) as Hl.
  rewrite (bind_Ret _ _ _ _ _ (lock_run s i p Hi Hl)). set (s1 := pput s i (set_locked true p)).
  rewrite (bind_Ret _ _ _ _ _ (get_run s1 i _ (pput_lookup s i _ p Hi))).
  assert (Hopt : ∀ (b : Z) (mm : K M unit) m, (∀ m, ∃ m', mm m = Ret (tt, m')) →
    ∃ m', (if decide (b ≠ 0) then on_mem mm else mret tt : K st unit) (set_pmem m s1) = Ret (tt, set_pmem m' s1)).
  { intros b mm m Hm. case_decide; [|by exists m]. destruct (Hm m) as (m' & Hm'). exists m'.
    unfold on_mem, zoom. simpl. by rewrite Hm'. }
  assert (Htot := pm_total_unit). simpl.
  destruct (Hopt (p_kstack p) (pm_kfree (p_kstack p)) (pmem s1)) as (m1 & H1); [intros m; apply (Htot m)|].
  replace (set_pmem (pmem s1) s1) with s1 in H1 by (by destruct s1). rewrite (bind_Ret _ _ _ _ _ H1).
  destruct (Hopt (p_pagetable p) (pm_uvmfree (p_pagetable p)) m1) as (m2 & H2); [intros m; apply (Htot m)|]. rewrite (bind_Ret _ _ _ _ _ H2).
  destruct (Hopt (p_context p) (pm_kmfree (p_context p)) m2) as (m3 & H3); [intros m; apply (Htot m)|]. rewrite (bind_Ret _ _ _ _ _ H3).
  assert (Hp3 : procs (set_pmem m3 s1) !! i = Some (set_locked true p)) by (by apply (pput_lookup s i _ p)).
  rewrite (bind_Ret _ _ _ _ _ (upd_run _ i _ _ Hp3)).
  rewrite (unlock_run _ i _ (pput_lookup _ i _ _ Hp3)) by done. rewrite pput_pput. exists m3. split.
  - unfold s1, pput, set_pmem, set_procs. simpl. rewrite list_insert_insert_eq. do 4 f_equal. destruct p; simpl in *; by subst.
  - apply inv_mem. by apply inv_free.
Qed.

(** ** wait4 *)

Lemma not_live_no_children s lk i p :
  table_inv s lk → procs s !! i = Some p → ¬ live p → i ≠ 0%nat → ∀ j q, procs s !! j = Some q → p_parent q ≠ Some i.
Proof.
  intros HI Hi Hl Hi0 j q Hj Hq. destruct (ti_parent _ _ HI j q i Hj Hq) as (pi & Hpi & [Hli|?]); [congruence|done].
Qed.

(** init is in use and nobody's child. *)
Lemma child_not_init s lk i p q : table_inv s lk → procs s !! i = Some p → p_parent p = Some q → i ≠ 0%nat.
Proof. intros HI Hi Hq ->. destruct (ti_init _ _ HI) as (p0 & H0 & _ & ?). congruence. Qed.
Lemma unused_not_init s lk i p : table_inv s lk → procs s !! i = Some p → p_state p = UNUSED → i ≠ 0%nat.
Proof. intros HI Hi Hu ->. destruct (ti_init _ _ HI) as (p0 & H0 & ? & _). congruence. Qed.

(** Reaping: both locks are released, then the slot is freed. *)
Lemma reap_run s me pm i p w :
  table_inv s (Some me) → procs s !! me = Some pm → procs s !! i = Some p → i ≠ me → p_parent p = Some me → p_state p = ZOMBIE →
  ∃ r s', reap me i w (pput s i (set_locked true p)) = Ret (r, s') ∧ table_inv s' None ∧ cpus s' = cpus s ∧
    procs s' !! me = Some (set_locked false pm) ∧ (∀ j, j ≠ me → j ≠ i → procs s' !! j = procs s !! j) ∧
    ((r = p_pid p ∧ procs s' !! i = Some (freed p)) ∨ (r = - EFAULT ∧ w ≠ 0 ∧ procs s' !! i = Some p)).
Proof.
  intros HI Hme Hi Hne Hpar Hz. assert (Hpl : p_locked p = false).
  { rewrite (ti_lock _ _ HI i p Hi). by apply bool_decide_eq_false_2; congruence. }
  assert (Hml : p_locked pm = true) by (rewrite (ti_lock _ _ HI me pm Hme); by apply bool_decide_eq_true_2).
  unfold reap. set (s1 := pput s i (set_locked true p)). assert (Hi1 : procs s1 !! i = Some (set_locked true p)) by (by eapply pput_lookup).
  assert (Hme1 : procs s1 !! me = Some pm) by (unfold s1; rewrite pput_lookup_ne; done).
  rewrite (bind_Ret _ _ _ _ _ (get_run s1 i _ Hi1)), (bind_Ret _ _ _ _ _ (get_run s1 me _ Hme1)).
  set (arg := Z.shiftl (Z.land (p_exit_code (set_locked true p)) 255) 8).
  assert (Hco : ∃ r m', (if decide (w ≠ 0) then on_mem (pm_copyout (p_pagetable pm) w arg) else mret 0 : K st Z) s1 = Ret (r, set_pmem m' s1) ∧
    (r < 0 → w ≠ 0)).
  { case_decide as Hw.
    - destruct (pm_total_val (pmem s1)) as (_ & Htot & _).
      destruct (mem_val_run (pm_copyout (p_pagetable pm) w arg) s1 (Htot _ _ _)) as (x & m' & Hx). by exists x, m'.
    - exists 0, (pmem s1). split; [|lia]. unfold mret, K_ret. do 2 f_equal. }
  destruct Hco as (r & m' & Hrun & Hrw). rewrite (bind_Ret _ _ _ _ _ Hrun). set (s2 := set_pmem m' s1) in *.
  rewrite (bind_Ret _ _ _ _ _ (unlock_run s2 i (set_locked true p) Hi1 eq_refl)).
  set (s3 := pput s2 i _). assert (Hme3 : procs s3 !! me = Some pm) by (unfold s3; rewrite pput_lookup_ne; done).
  rewrite (bind_Ret _ _ _ _ _ (unlock_run s3 me pm Hme3 Hml)). set (s4 := pput s3 me (set_locked false pm)).
  assert (Hp : set_locked false (set_locked true p) = p) by (by apply (relock p false)).
  assert (Hi4 : procs s4 !! i = Some p).
  { unfold s4. rewrite pput_lookup_ne by done. unfold s3. rewrite (pput_lookup s2 i _ _ Hi1). by rewrite Hp. }
  assert (Hoth : ∀ j, j ≠ me → j ≠ i → procs s4 !! j = procs s !! j).
  { intros j Hj1 Hj2. unfold s4, s3. rewrite !pput_lookup_ne by done. change (procs s2) with (procs s1).
    unfold s1. by rewrite pput_lookup_ne. }
  assert (Hme4 : procs s4 !! me = Some (set_locked false pm)) by (by apply (pput_lookup s3 me _ pm)).
  assert (HI4 : table_inv s4 None).
  { apply (inv_change s _ (Some me) None HI); [done|unfold s4, s3, pput; simpl; by rewrite !length_insert|..].
    - intros j q Hj. destruct (decide (j = me)) as [->|Hjm]; [|destruct (decide (j = i)) as [->|Hji]].
      + rewrite Hme4 in Hj. injection Hj as <-. split; [done|]. exists pm. split_and!; try done. by left.
      + rewrite Hi4 in Hj. injection Hj as <-. split; [done|]. exists p. split_and!; try done. by left.
      + rewrite Hoth in Hj by done. split; [|exists q; split_and!; try done; by left].
        rewrite (ti_lock _ _ HI j q Hj). rewrite !bool_decide_eq_false_2 by congruence. done.
    - intros j q q' Hj Hj' Hl. left. destruct (decide (j = me)) as [->|Hjm]; [|destruct (decide (j = i)) as [->|Hji]].
      + rewrite Hme4 in Hj'. injection Hj' as <-. assert (q = pm) as -> by congruence. exact Hl.
      + assert (q' = q) as -> by congruence. done.
      + rewrite Hoth in Hj' by done. assert (q' = q) as -> by congruence. done. }
  clear Hrun. destruct (decide (r < 0)) as [Hr|Hr].
  - exists (- EFAULT), s4. split; [reflexivity|]. split; [done|]. split; [done|]. split; [done|]. split; [exact Hoth|]. right. split_and!; [done|by apply Hrw|done].
  - assert (Hi0 : i ≠ 0%nat) by (by apply (child_not_init s4 None i p me)).
    pose proof (not_live_no_children s4 None i p HI4 Hi4 ltac:(by intros [_ ?]) Hi0) as Hno.
    destruct (freeproc_run s4 i p HI4 Hi4 Hi0 Hno) as (m5 & Hf & HI5). rewrite (bind_Ret _ _ _ _ _ Hf).
    eexists _, _. split; [done|]. split_and!; try done.
    + change (procs (set_pmem m5 (pput s4 i (freed p)))) with (procs (pput s4 i (freed p))). by rewrite pput_lookup_ne.
    + intros j Hj1 Hj2. change (procs (set_pmem m5 (pput s4 i (freed p)))) with (procs (pput s4 i (freed p))).
      rewrite pput_lookup_ne by done. by apply Hoth.
    + left. split; [done|]. by apply (pput_lookup s4 i _ p).
Qed.

Lemma wait_scan_run s me pm pid w l hm :
  table_inv s (Some me) → procs s !! me = Some pm → (∀ i, i ∈ l → is_Some (procs s !! i)) →
  (∃ b, wait_scan me pid w l hm s = Ret (inl b, s) ∧
     (∀ i p, i ∈ l → procs s !! i = Some p → child_of me pid i p → p_state p ≠ ZOMBIE) ∧
     (b = true ↔ hm = true ∨ ∃ i p, i ∈ l ∧ procs s !! i = Some p ∧ child_of me pid i p)) ∨
  (∃ i p r s', i ∈ l ∧ procs s !! i = Some p ∧ child_of me pid i p ∧ p_state p = ZOMBIE ∧
     wait_scan me pid w l hm s = Ret (inr r, s') ∧ table_inv s' None ∧ cpus s' = cpus s ∧
     procs s' !! me = Some (set_locked false pm) ∧ (∀ j, j ≠ me → j ≠ i → procs s' !! j = procs s !! j) ∧
     ((r = p_pid p ∧ procs s' !! i = Some (freed p)) ∨ (r = - EFAULT ∧ w ≠ 0 ∧ procs s' !! i = Some p))).
Proof.
  intros HI Hme. revert hm. induction l as [|i l IH]; intros hm Hl; cbn [wait_scan].
  { left. exists hm. split; [done|]. split; [by intros i p Hi%elem_of_nil|].
    split; [by left|]. by intros [|(i & p & Hi%elem_of_nil & _)]. }
  assert (Hl' : ∀ j, j ∈ l → is_Some (procs s !! j)) by (intros j Hj; apply Hl; by right).
  destruct (Hl i ltac:(by left)) as [p Hp].
  (* the rest of the table when entry [i] is no zombie child: [hm'] counts it *)
  assert (Hrest : ∀ hm', (child_of me pid i p → p_state p ≠ ZOMBIE) →
    (hm' = true ↔ hm = true ∨ child_of me pid i p) →
    (∃ b, wait_scan me pid w l hm' s = Ret (inl b, s) ∧
       (∀ j q, j ∈ i :: l → procs s !! j = Some q → child_of me pid j q → p_state q ≠ ZOMBIE) ∧
       (b = true ↔ hm = true ∨ ∃ j q, j ∈ i :: l ∧ procs s !! j = Some q ∧ child_of me pid j q)) ∨
    (∃ j q r s', j ∈ i :: l ∧ procs s !! j = Some q ∧ child_of me pid j q ∧ p_state q = ZOMBIE ∧
       wait_scan me pid w l hm' s = Ret (inr r, s') ∧ table_inv s' None ∧ cpus s' = cpus s ∧
       procs s' !! me = Some (set_locked false pm) ∧ (∀ k, k ≠ me → k ≠ j → procs s' !! k = procs s !! k) ∧
       ((r = p_pid q ∧ procs s' !! j = Some (freed q)) ∨ (r = - EFAULT ∧ w ≠ 0 ∧ procs s' !! j = Some q)))).
  { intros hm' Hnz Hhm. destruct (IH hm' Hl') as [(b & Hrun & Hno & Hb)|(j & q & r & s' & Hj & Hrest)].
    - left. exists b. split; [done|]. split.
      + intros j q [->|Hj]%elem_of_cons Hq Hc; [assert (q = p) as -> by congruence; auto|by eapply Hno].
      + rewrite Hb, Hhm. split.
        * intros [[?|Hc]|(j & q & Hj & Hq)]; [by left|right; exists i, p; split; [by left|done]|].
          right. exists j, q. split; [by right|done].
        * intros [?|(j & q & [->|Hj]%elem_of_cons & Hq & Hc)]; [by left; left|left; right; assert (q = p) as -> by congruence; done|].
          right. by exists j, q.
    - right. exists j, q, r, s'. split; [by right|done]. }
  destruct (decide (i = me)) as [->|Hne].
  { apply Hrest; [by intros [? _]|]. split; [by left|]. by intros [|[? _]]. }
  assert (Hpl : p_locked p = false).
  { rewrite (ti_lock _ _ HI i p Hp). by apply bool_decide_eq_false_2; congruence. }
  rewrite (bind_Ret _ _ _ _ _ (lock_run s i p Hp Hpl)). rewrite (bind_Ret _ _ _ _ _ (get_run _ i _ (pput_lookup s i _ p Hp))).
  assert (Hunl : unlock_p i (pput s i (set_locked true p)) = Ret (tt, s)).
  { rewrite (unlock_run _ i (set_locked true p) (pput_lookup s i _ p Hp) eq_refl), pput_pput.
    assert (Hr : set_locked false (set_locked true p) = p) by (by apply (relock p false)). rewrite Hr. by rewrite pput_id. }
  assert (Htest : bool_decide (p_parent (set_locked true p) = Some me) &&
      (bool_decide (pid = -1) || bool_decide (p_pid (set_locked true p) = pid)) = true ↔ child_of me pid i p).
  { rewrite andb_true_iff, orb_true_iff, !bool_decide_eq_true. unfold child_of. simpl. tauto. }
  destruct (bool_decide (p_parent (set_locked true p) = Some me) && _) eqn:Et.
  - pose proof (proj1 Htest eq_refl) as Hc. change (p_state (set_locked true p)) with (p_state p).
    destruct (decide (p_state p = ZOMBIE)) as [Hz|Hz].
    + right. destruct (reap_run s me pm i p w HI Hme Hp Hne (proj1 (proj2 Hc)) Hz) as (r & s' & Hrun & Hpost).
      exists i, p, r, s'. rewrite (bind_Ret _ _ _ _ _ Hrun). split; [by left|]. split_and!; try done; apply Hpost.
    + rewrite (bind_Ret _ _ _ _ _ Hunl). apply Hrest; [done|]. split; [by right|done].
  - assert (Hc : ¬ child_of me pid i p) by (by intros Hc%Htest).
    rewrite (bind_Ret _ _ _ _ _ Hunl). apply Hrest; [done|]. split; [by left|]. by intros [|].
Qed.

(** Children of [me] in the table of [s]. *)
Definition has_child (s : st) (me : nat) (pid : Z) : Prop := ∃ i p, procs s !! i = Some p ∧ child_of me pid i p.
Definition no_zombie (s : st) (me : nat) (pid : Z) : Prop :=
  ∀ i p, procs s !! i = Some p → child_of me pid i p → p_state p ≠ ZOMBIE.

(** What a round of wait4 leaves. *)
Definition wait_post (s : st) (me : nat) (pm : process) (pid w options : Z) (e : wait_end) (s' : st) : Prop :=
  match e with
  | Wsleeps => table_inv s' (Some me) ∧ has_child s me pid ∧ no_zombie s me pid ∧ has options WNOHANG = false ∧
      s' = pput s me (set_state SLEEPING (set_chan (Cproc me) (set_locked true pm)))
  | Wreturns r => table_inv s' None ∧
      ((∃ i p, procs s !! i = Some p ∧ child_of me pid i p ∧ p_state p = ZOMBIE ∧ cpus s' = cpus s ∧
          (∀ j, j ≠ i → procs s' !! j = procs s !! j) ∧
          (r = p_pid p ∧ procs s' !! i = Some (freed p) ∨ r = - EFAULT ∧ w ≠ 0 ∧ procs s' !! i = Some p)) ∨
       (r = - ECHILD ∧ ¬ has_child s me pid ∧ s' = s) ∨
       (r = 0 ∧ has options WNOHANG = true ∧ has_child s me pid ∧ no_zombie s me pid ∧ s' = s))
  end.

Lemma wait_round_run s me pm pid w options :
  table_inv s None → procs s !! me = Some pm → live pm →
  ∃ e s', wait_round me pid w options (pput s me (set_locked true pm)) = Ret (e, s') ∧ wait_post s me pm pid w options e s'.
Proof.
  intros HI Hme Hlive. pose proof (inv_unlocked s me pm HI Hme) as Hml. unfold wait_round. pose proof (lock_inv s me pm HI Hme) as HI1.
  set (s1 := pput s me (set_locked true pm)) in *. assert (Hme1 : procs s1 !! me = Some (set_locked true pm)) by (by eapply pput_lookup).
  assert (Hpm : set_locked false (set_locked true pm) = pm) by (by apply (relock pm false)).
  assert (Hback : unlock_p me s1 = Ret (tt, s)).
  { rewrite (unlock_run s1 me _ Hme1 eq_refl), Hpm. unfold s1. rewrite pput_pput. by rewrite pput_id. }
  assert (Hch : ∀ i p, procs s1 !! i = Some p → child_of me pid i p → procs s !! i = Some p).
  { intros i p Hi [Hne _]. unfold s1 in Hi. by rewrite pput_lookup_ne in Hi. }
  assert (Hch2 : ∀ i p, procs s !! i = Some p → child_of me pid i p → procs s1 !! i = Some p).
  { intros i p Hi [Hne _]. unfold s1. by rewrite pput_lookup_ne. }
  destruct (wait_scan_run s1 me _ pid w all_procs false HI1 Hme1) as [(b & Hrun & Hno & Hb)|(i & p & r & s' & _ & Hi & Hc & Hz & Hrun & HI' & Hcpu & Hme' & Hoth & Hres)];
    [intros i Hi; by apply (all_procs_lookup _ _ _ HI1)| |]; rewrite (bind_Ret _ _ _ _ _ Hrun).
  - assert (Hin : ∀ i p, procs s1 !! i = Some p → i ∈ all_procs) by (intros i p Hi; apply (all_procs_lookup _ _ i HI1); by exists p).
    assert (Hnz : no_zombie s me pid) by (intros i p Hi Hc; pose proof (Hch2 i p Hi Hc) as Hi1; by eapply Hno; eauto).
    assert (Hhb : b = true ↔ has_child s me pid).
    { rewrite Hb. split.
      - intros [?|(i & p & _ & Hi & Hc)]; [done|]. exists i, p. split; [by eapply Hch|done].
      - intros (i & p & Hi & Hc). right. pose proof (Hch2 i p Hi Hc). exists i, p. split_and!; [by eapply Hin|done..]. }
    destruct b; simpl.
    + assert (Hhc : has_child s me pid) by (by apply Hhb). destruct (has options WNOHANG) eqn:Ew.
      * rewrite (bind_Ret _ _ _ _ _ Hback). eexists _, s. split; [done|]. split; [done|]. right. right. done.
      * assert (Hsl : sleep me (Cproc me) true s1 = Ret (tt, pput s1 me (set_state SLEEPING (set_chan (Cproc me) (set_locked true pm)))))
          by exact (upd_run s1 me _ (λ p, set_state SLEEPING (set_chan (Cproc me) p)) Hme1).
        rewrite (bind_Ret _ _ _ _ _ Hsl).
        eexists Wsleeps, _. split; [done|]. unfold s1. rewrite pput_pput. split; [|done].
        apply (inv_put s None (Some me) me pm); try done.
        -- simpl. destruct Hlive as [Hu _]. split; [done|intros ?; by destruct Hu].
        -- simpl. by rewrite bool_decide_eq_true_2.
        -- intros j Hj. by rewrite !bool_decide_eq_false_2 by congruence.
        -- intros _. left. by split.
    + rewrite (bind_Ret _ _ _ _ _ Hback). eexists _, s. split; [done|]. split; [done|]. right. left. split_and!; [done| |done].
      intros Hhc%Hhb. done.
  - eexists (Wreturns r), s'. split; [done|]. split; [done|]. left. exists i, p. pose proof (Hch i p Hi Hc) as Hi0.
    split_and!; try done. intros j Hj. destruct (decide (j = me)) as [->|Hjm]; [by rewrite Hme', Hpm|].
    rewrite Hoth by done. unfold s1. by rewrite pput_lookup_ne.
Qed.

Lemma wait4_run s me pm pid w options :
  table_inv s None → procs s !! me = Some pm → live pm →
  ∃ e s', wait4 me pid w options s = Ret (e, s') ∧ wait_post s me pm pid w options e s'.
Proof.
  intros HI Hme Hlive. unfold wait4. rewrite (bind_Ret _ _ _ _ _ (lock_run s me pm Hme (inv_unlocked s me pm HI Hme))).
  by apply wait_round_run.
Qed.

(** ** fork *)

Lemma claim_loop l s :
  table_inv s None → (∀ i, i ∈ l → is_Some (procs s !! i)) →
  for_find l (λ i, lock_p i ;; p ← get_p i;
    if decide (p_state p = UNUSED) then
      upd_p i (set_state USED) ;; n ← get_pid; upd_p i (set_pid n) ;; unlock_p i ;; mret (Some i)
    else unlock_p i ;; mret None : K st (option nat)) s = Ret (None, s) ∨
  ∃ i p, procs s !! i = Some p ∧ p_state p = UNUSED ∧
    for_find l (λ i, lock_p i ;; p ← get_p i;
      if decide (p_state p = UNUSED) then
        upd_p i (set_state USED) ;; n ← get_pid; upd_p i (set_pid n) ;; unlock_p i ;; mret (Some i)
      else unlock_p i ;; mret None : K st (option nat)) s =
    Ret (Some i, set_next_pid (i32 (next_pid s + 1)) (pput s i (set_pid (next_pid s) (set_state USED p)))).
Proof.
  intros HI. induction l as [|i l IH]; intros Hl; [by left|]. simpl. destruct (Hl i ltac:(by left)) as [p Hp].
  pose proof (inv_unlocked s i p HI Hp) as Hpl. assert (Hpp : set_locked false (set_locked true p) = p) by (by apply (relock p false)).
  rewrite (bind_Ret _ (λ r, match r with Some v => mret (Some v) | None => _ end) s
    (if decide (p_state p = UNUSED) then Some i else None)
    (if decide (p_state p = UNUSED)
     then set_next_pid (i32 (next_pid s + 1)) (pput s i (set_pid (next_pid s) (set_state USED p))) else s)).
  - destruct (decide (p_state p = UNUSED)) as [Hu|Hu]; [right; by exists i, p|]. apply IH. intros j Hj. apply Hl. by right.
  - rewrite (bind_Ret _ _ _ _ _ (lock_run s i p Hp Hpl)). rewrite (bind_Ret _ _ _ _ _ (get_run _ i _ (pput_lookup s i _ p Hp))).
    change (p_state (set_locked true p)) with (p_state p). destruct (decide (p_state p = UNUSED)) as [Hu|Hu].
    + rewrite (bind_Ret _ _ _ _ _ (upd_run _ i _ _ (pput_lookup s i _ p Hp))). rewrite pput_pput.
      set (s1 := pput s i (set_state USED (set_locked true p))).
      rewrite (bind_Ret get_pid _ s1 (next_pid s) (set_next_pid (i32 (next_pid s + 1)) s1)) by done.
      set (s2 := set_next_pid _ s1). assert (Hp2 : procs s2 !! i = Some (set_state USED (set_locked true p))) by (by apply (pput_lookup s i _ p)).
      rewrite (bind_Ret _ _ _ _ _ (upd_run s2 i _ _ Hp2)).
      rewrite (bind_Ret _ _ _ tt (set_next_pid (i32 (next_pid s + 1)) (pput s i (set_pid (next_pid s) (set_state USED p))))); [done|].
      rewrite (unlock_run _ i (set_pid (next_pid s) (set_state USED (set_locked true p))));
        [|by apply (pput_lookup s2 i _ _ Hp2)|done].
      do 2 f_equal. unfold s2, s1, pput, set_next_pid, set_procs. simpl. rewrite !list_insert_insert_eq.
      do 2 f_equal. destruct p; simpl in *; by subst.
    + rewrite (bind_Ret _ _ _ tt s); [done|]. rewrite (unlock_run _ i (set_locked true p) (pput_lookup s i _ p Hp) eq_refl), pput_pput, Hpp.
      by rewrite pput_id.
Qed.

Lemma inv_claim s i p :
  table_inv s None → procs s !! i = Some p → p_state p = UNUSED → next_pid s < 2 ^ 31 - 1 →
  table_inv (set_next_pid (i32 (next_pid s + 1)) (pput s i (set_pid (next_pid s) (set_state USED p)))) None.
Proof.
  intros HI Hi Hu Hn. pose proof (ti_next _ _ HI). rewrite i32_small by lia.
  set (q := set_pid (next_pid s) (set_state USED p)).
  assert (Hlk : ∀ j r, procs (set_next_pid (next_pid s + 1) (pput s i q)) !! j = Some r →
    (j = i ∧ r = q) ∨ (j ≠ i ∧ procs s !! j = Some r)).
  { intros j r. change (procs (set_next_pid (next_pid s + 1) (pput s i q))) with (procs (pput s i q)).
    destruct (decide (i = j)) as [<-|Hj]; [rewrite (pput_lookup s i _ p Hi); intros [= <-]; by left|].
    rewrite pput_lookup_ne by done. by right. }
  pose proof (ti_unused _ _ HI i p Hi Hu) as Hnopar. split.
  - unfold pput. simpl. rewrite length_insert. apply HI.
  - intros j r [[-> ->]|[_ Hj]]%Hlk; [by apply (ti_lock _ _ HI i p)|by apply (ti_lock _ _ HI j)].
  - intros j r [[-> ->]|[_ Hj]]%Hlk; simpl; [lia|]. intros Hs. pose proof (ti_pid _ _ HI j r Hj Hs). lia.
  - intros j k r t [[-> ->]|[_ Hj]]%Hlk [[-> ->]|[_ Hk]]%Hlk ? Hs Ht; simpl in *; try done.
    + pose proof (ti_pid _ _ HI k t Hk Ht). lia.
    + pose proof (ti_pid _ _ HI j r Hj Hs). lia.
    + by apply (ti_uniq _ _ HI j k).
  - intros j r [[-> ->]|[_ Hj]]%Hlk; [done|by apply (ti_unused _ _ HI j)].
  - intros j r t [[-> ->]|[_ Hj]]%Hlk Ht; [simpl in Ht; congruence|]. destruct (ti_parent _ _ HI j r t Hj Ht) as (pt & Hpt & Hl).
    exists pt. split; [|done]. change (procs (pput s i q) !! t = Some pt). rewrite pput_lookup_ne; [done|]. intros <-.
    assert (pt = p) as -> by congruence. destruct Hl as [[? _]| ->]; [done|]. by apply (unused_not_init s None 0 p HI).
  - destruct (ti_init _ _ HI) as (p0 & Hp0 & Hl). exists p0. split; [|done].
    change (procs (pput s i q) !! 0%nat = Some p0). rewrite pput_lookup_ne; [done|]. intros ->.
    assert (p0 = p) as -> by congruence. by destruct Hl.
  - simpl. lia.
Qed.

(** An allocation has returned 0. *)
Definition starved : Prop :=
  ∃ m m', pm_kalloc m = Ret (0, m') ∨ pm_uvmcreate m = Ret (0, m') ∨ pm_kmalloc m = Ret (0, m').
Definition out_of_memory : string := "Alloc process: Failed to allocate memory".

(** A claimed slot has its memory, or the kernel has panicked for want of it. *)
Lemma alloc_process_run s :
  table_inv s None → next_pid s < 2 ^ 31 - 1 →
  (alloc_process s = Panic out_of_memory ∧ starved) ∨ alloc_process s = Ret (None, s) ∨
  ∃ i p q s', alloc_process s = Ret (Some i, s') ∧ table_inv s' None ∧ cpus s' = cpus s ∧
    procs s !! i = Some p ∧ p_state p = UNUSED ∧ procs s' !! i = Some q ∧ p_state q = USED ∧
    p_pid q = next_pid s ∧ p_parent q = None ∧ next_pid s' = next_pid s + 1 ∧
    ∀ j, j ≠ i → procs s' !! j = procs s !! j.
Proof.
  intros HI Hn. unfold alloc_process, claim_slot. pose proof (ti_next _ _ HI).
  destruct (claim_loop all_procs s HI) as [Hc|(i & p & Hi & Hu & Hc)];
    [intros i Hi; by apply (all_procs_lookup _ _ _ HI)| |]; rewrite (bind_Ret _ _ _ _ _ Hc); [by right; left|].
  pose proof (inv_claim s i p HI Hi Hu Hn) as HI1. set (s1 := set_next_pid _ _) in *.
  set (p1 := set_pid (next_pid s) (set_state USED p)) in *. assert (Hi1 : procs s1 !! i = Some p1) by (by apply (pput_lookup s i _ p)).
  destruct (pm_alloc (pmem s1)) as ((k & m1 & Hk) & _ & _).
  rewrite (bind_Ret _ _ s1 k (set_pmem m1 s1)) by (unfold on_mem, zoom; by rewrite Hk).
  destruct (pm_alloc m1) as (_ & _ & (pt & m2 & Hpt)).
  rewrite (bind_Ret _ _ (set_pmem m1 s1) pt (set_pmem m2 s1)) by (unfold on_mem, zoom; simpl; by rewrite Hpt).
  destruct (decide (k = 0 ∨ pt = 0)) as [Hz|_]; [left; split; [done|]; destruct Hz as [-> | ->]; eexists _, _; eauto|].
  rewrite (bind_Ret (mret tt) _ _ tt (set_pmem m2 s1)) by done.
  destruct (pm_alloc m2) as (_ & (c & m3 & Hc3) & _).
  rewrite (bind_Ret _ _ (set_pmem m2 s1) c (set_pmem m3 s1)) by (unfold on_mem, zoom; simpl; by rewrite Hc3).
  destruct (decide (c = 0)) as [->|_]; [left; split; [done|]; eexists _, _; eauto|]. rewrite (bind_Ret (mret tt) _ _ tt (set_pmem m3 s1)) by done.
  pose proof (inv_mem s1 None m3 HI1) as HI3. set (s3 := set_pmem m3 s1) in *.
  assert (Hi3 : procs s3 !! i = Some p1) by done.
  rewrite (bind_Ret _ _ _ _ _ (upd_run s3 i _ _ Hi3)).
  rewrite (bind_Ret _ _ _ _ _ (upd_run _ i _ _ (pput_lookup s3 i _ _ Hi3))). rewrite pput_pput.
  set (q := set_sig 0 (set_mem k pt c p1)). right. right. exists i, p, q, (pput s3 i q).
  split_and!; try done.
  - apply (inv_put s3 None None i p1 q HI3 Hi3); try done; [exact (ti_lock _ _ HI3 i p1 Hi3)|]. intros _. by left.
  - by apply (pput_lookup s3 i q p1).
  - simpl. by apply (ti_unused _ _ HI i p Hi).
  - simpl. rewrite i32_small; lia.
  - intros j Hj. rewrite pput_lookup_ne by done. change (procs s3) with (procs (pput s i p1)). by rewrite pput_lookup_ne.
Qed.

Lemma no_child_of_unused s i p :
  table_inv s None → procs s !! i = Some p → p_state p = UNUSED → ∀ j q, procs s !! j = Some q → p_parent q ≠ Some i.
Proof. intros HI Hi Hu. apply (not_live_no_children s None i p HI Hi); [by intros [? _]|by apply (unused_not_init s None i p)]. Qed.

(** The new process, once its lock is released. *)
Definition forked (p q : process) (me : nat) : process :=
  set_state RUNNABLE (set_sig (p_sig_pending p) (set_parent (Some me)
    (set_bounds (p_heap_bottom p) (p_heap_top p) (p_stack_bottom p) (p_stack_top p) q))).

Lemma inv_forked s me np p q :
  table_inv s None → procs s !! me = Some p → live p → procs s !! np = Some q → p_state q = USED → me ≠ np → np ≠ 0%nat →
  table_inv (pput s np (forked p q me)) None.
Proof.
  intros HI Hme Hl Hq Hus Hne Hn0.
  assert (Hlk : ∀ j t, procs (pput s np (forked p q me)) !! j = Some t →
    (j = np ∧ t = forked p q me) ∨ (j ≠ np ∧ procs s !! j = Some t)).
  { intros j t. destruct (decide (np = j)) as [<-|Hj]; [rewrite (pput_lookup s np _ q Hq); intros [= <-]; by left|].
    rewrite pput_lookup_ne by done. by right. }
  assert (Hnew : procs (pput s np (forked p q me)) !! np = Some (forked p q me)) by (by apply (pput_lookup s np _ q)).
  split.
  - unfold pput. simpl. rewrite length_insert. apply HI.
  - intros j t [[-> ->]|[_ Hj]]%Hlk; [exact (ti_lock _ _ HI np q Hq)|by apply (ti_lock _ _ HI j)].
  - intros j t [[-> ->]|[_ Hj]]%Hlk ?; [apply (ti_pid _ _ HI np q Hq); congruence|by apply (ti_pid _ _ HI j)].
  - intros j k t u [[-> ->]|[_ Hj]]%Hlk [[-> ->]|[_ Hk]]%Hlk ? ? ?; try done.
    + apply (ti_uniq _ _ HI np k q u); congruence.
    + apply (ti_uniq _ _ HI j np t q); congruence.
    + by apply (ti_uniq _ _ HI j k).
  - intros j t [[-> ->]|[_ Hj]]%Hlk ?; [done|by apply (ti_unused _ _ HI j)].
  - intros j t u [[-> ->]|[_ Hj]]%Hlk Hu.
    + simpl in Hu. injection Hu as <-. exists p. rewrite pput_lookup_ne by done. auto.
    + destruct (ti_parent _ _ HI j t u Hj Hu) as (pu & Hpu & Hlu). destruct (decide (u = np)) as [->|Hun].
      * exists (forked p q me). split; [done|]. by left.
      * exists pu. by rewrite pput_lookup_ne.
  - destruct (ti_init _ _ HI) as (p0 & Hp0 & Hl0). exists p0. by rewrite pput_lookup_ne.
  - apply HI.
Qed.

Lemma fork_run s me p :
  table_inv s None → next_pid s < 2 ^ 31 - 1 → procs s !! me = Some p → live p →
  (fork me s = Panic out_of_memory ∧ starved) ∨
  ∃ r s', fork me s = Ret (r, s') ∧ table_inv s' None ∧ cpus s' = cpus s ∧
    ((r = - EAGAIN ∧ s' = s) ∨
     ∃ np q q', procs s !! np = Some q ∧ p_state q = UNUSED ∧ procs s' !! np = Some q' ∧
       (∀ j, j ≠ np → procs s' !! j = procs s !! j) ∧
       (r = - ENOMEM ∧ p_state q' = UNUSED ∨
        r = next_pid s ∧ p_state q' = RUNNABLE ∧ p_parent q' = Some me ∧ p_pid q' = r)).
Proof.
  intros HI Hn Hme Hl. unfold fork.
  destruct (alloc_process_run s HI Hn) as [[Ha Hst]|[Ha|(np & q0 & q & s1 & Ha & HI1 & Hcpu & Hq0 & Hu0 & Hq & Hus & Hpid & Hpar & Hnx & Hoth)]].
  - left. split; [|done]. unfold mbind, K_bind. by rewrite Ha.
  - right. rewrite (bind_Ret _ _ _ _ _ Ha). eexists _, s. split; [done|]. split; [done|]. split; [done|]. by left.
  - rewrite (bind_Ret _ _ _ _ _ Ha). right. assert (Hne : me ≠ np) by (intros ->; destruct Hl; congruence).
    assert (Hme1 : procs s1 !! me = Some p) by (by rewrite Hoth).
    assert (Hnp0 : np ≠ 0%nat) by (by apply (unused_not_init s None np q0)).
    pose proof (inv_unlocked s1 np q HI1 Hq) as Hql. assert (Hqq : set_locked false (set_locked true q) = q) by (by apply (relock q false)).
    rewrite (bind_Ret _ _ _ _ _ (lock_run s1 np q Hq Hql)). set (s2 := pput s1 np (set_locked true q)).
    assert (Hq2 : procs s2 !! np = Some (set_locked true q)) by (by apply (pput_lookup s1 np _ q)).
    assert (Hme2 : procs s2 !! me = Some p) by (unfold s2; by rewrite pput_lookup_ne).
    rewrite (bind_Ret _ _ _ _ _ (get_run s2 me p Hme2)), (bind_Ret _ _ _ _ _ (get_run s2 np _ Hq2)).
    destruct (pm_total_val (pmem s2)) as (Hcopy & _).
    destruct (mem_val_run (pm_uvmcopy (p_pagetable p) (p_pagetable (set_locked true q))) s2 (Hcopy _ _)) as (r & m2 & Hr).
    rewrite (bind_Ret _ _ _ _ _ Hr). destruct (decide (r < 0)) as [Hneg|Hpos].
    + rewrite (bind_Ret _ _ _ _ _ (unlock_run (set_pmem m2 s2) np (set_locked true q) Hq2 eq_refl)). rewrite Hqq.
      set (s3 := pput (set_pmem m2 s2) np q). assert (Hs3 : s3 = set_pmem m2 s1).
      { unfold s3, s2, pput, set_pmem, set_procs. simpl. rewrite list_insert_insert_eq, list_insert_id by done. done. }
      assert (HI3 : table_inv s3 None) by (rewrite Hs3; by apply inv_mem).
      assert (Hno : ∀ j t, procs s3 !! j = Some t → p_parent t ≠ Some np).
      { intros j t Hj. rewrite Hs3 in Hj. change (procs (set_pmem m2 s1)) with (procs s1) in Hj.
        destruct (decide (j = np)) as [->|Hj2]; [assert (t = q) as -> by congruence; by rewrite Hpar|].
        rewrite Hoth in Hj by done. by apply (no_child_of_unused s np q0 HI Hq0 Hu0 j t). }
      assert (Hq3 : procs s3 !! np = Some q) by (by rewrite Hs3).
      destruct (freeproc_run s3 np q HI3 Hq3 Hnp0 Hno) as (m4 & Hf & HI4). rewrite (bind_Ret _ _ _ _ _ Hf).
      eexists _, _. split; [done|]. split; [exact HI4|]. split; [done|]. right. exists np, q0, (freed q).
      split_and!; [done|done|by apply (pput_lookup s3 np _ q)| |by left].
      intros j Hj. change (procs (set_pmem m4 (pput s3 np (freed q)))) with (procs (pput s3 np (freed q))).
      rewrite pput_lookup_ne by done. rewrite Hs3. by apply Hoth.
    + set (s3 := set_pmem m2 s2). assert (Hq3 : procs s3 !! np = Some (set_locked true q)) by done.
      rewrite (bind_Ret _ _ _ _ _ (upd_run s3 np _ _ Hq3)).
      rewrite (bind_Ret _ _ _ _ _ (upd_run _ np _ _ (pput_lookup s3 np _ _ Hq3))), pput_pput.
      rewrite (bind_Ret _ _ _ _ _ (upd_run _ np _ _ (pput_lookup s3 np _ _ Hq3))), pput_pput.
      set (q4 := set_sig (p_sig_pending p) _). destruct (pm_total_unit (pmem (pput s3 np q4))) as (_ & _ & _ & Hdup & _).
      destruct (mem_unit_run (pm_dup_files me np) (pput s3 np q4) (Hdup _ _)) as (m4 & Hm4). rewrite (bind_Ret _ _ _ _ _ Hm4).
      set (s4 := set_pmem m4 (pput s3 np q4)). assert (Hq4 : procs s4 !! np = Some q4) by (by apply (pput_lookup s3 np _ _ Hq3)).
      rewrite (bind_Ret _ _ _ _ _ (upd_run s4 np _ _ Hq4)).
      rewrite (bind_Ret _ _ _ _ _ (unlock_run _ np (set_state RUNNABLE q4) (pput_lookup s4 np _ _ Hq4) eq_refl)), pput_pput.
      set (qf := set_locked false _). assert (Hqf : qf = forked p q me) by (unfold qf, q4, forked; destruct q; simpl in *; by subst).
      rewrite (bind_Ret _ _ _ _ _ (get_run _ np qf (pput_lookup s4 np _ _ Hq4))).
      assert (Hs5 : pput s4 np qf = set_pmem m4 (pput s1 np (forked p q me))).
      { rewrite Hqf. unfold s4, s3, s2, pput, set_pmem, set_procs. simpl. rewrite !list_insert_insert_eq. done. }
      rewrite Hs5. eexists _, _. split; [done|]. split_and!; [|done|].
      * apply inv_mem. by apply (inv_forked s1 me np p q).
      * right. exists np, q0, (forked p q me). split_and!; [done|done|by apply (pput_lookup s1 np _ q)| |].
        -- intros j Hj. change (procs (set_pmem m4 (pput s1 np (forked p q me)))) with (procs (pput s1 np (forked p q me))).
           rewrite pput_lookup_ne by done. by apply Hoth.
        -- right. rewrite Hqf. simpl. by rewrite Hpid.
Qed.

(** ** sleep, yield, kill, and the scheduler *)

Definition running (s : st) (i : nat) : Prop := ∃ p, procs s !! i = Some p ∧ p_state p = RUNNING.
(** Neither the CPUs nor the set of running processes change. *)
Definition quiet (s s' : st) : Prop := cpus s' = cpus s ∧ ∀ i, running s' i ↔ running s i.
(** [i] stops running and nothing else does. *)
Definition stops (s s' : st) (i : nat) : Prop :=
  cpus s' = cpus s ∧ ∀ j, running s' j ↔ running s j ∧ j ≠ i.

Lemma stops_put s i p p' :
  procs s !! i = Some p → p_state p' ≠ RUNNING → stops s (pput s i p') i.
Proof.
  intros Hi Hs. split; [done|]. intros j. unfold running. destruct (decide (i = j)) as [<-|Hj].
  - rewrite (pput_lookup s i p' p Hi). split; [by intros (q & [= <-] & ?)|by intros [_ ?]].
  - rewrite pput_lookup_ne by done. split; [intros Hr; by split|by intros [? _]].
Qed.

(** A state change of the process itself, its lock taken and kept. *)
Lemma suspend_run s i p (f : process → process) :
  table_inv s None → procs s !! i = Some p → live p → live (f (set_locked true p)) → p_state (f (set_locked true p)) ≠ RUNNING →
  p_pid (f (set_locked true p)) = p_pid p → p_parent (f (set_locked true p)) = p_parent p →
  p_locked (f (set_locked true p)) = true →
  ∃ s', (lock_p i ;; upd_p i f : K st unit) s = Ret (tt, s') ∧ table_inv s' (Some i) ∧ stops s s' i.
Proof.
  intros HI Hi Hl Hl' Hst Hpid Hpar Hlk. rewrite (bind_Ret _ _ _ _ _ (lock_run s i p Hi (inv_unlocked s i p HI Hi))).
  rewrite (upd_run _ i _ _ (pput_lookup s i _ p Hi)), pput_pput. eexists. split; [done|]. split; [|by eapply stops_put].
  apply (inv_put s None (Some i) i p); try done.
  - destruct Hl as [Hu _]. split; [by intros Hx; destruct Hl'|by intros Hx].
  - rewrite Hlk. by rewrite bool_decide_eq_true_2.
  - intros j Hj. by rewrite !bool_decide_eq_false_2 by congruence.
  - intros _. by left.
Qed.

Lemma sleep_run s i p chan :
  table_inv s None → procs s !! i = Some p → live p →
  ∃ s', sleep i chan false s = Ret (tt, s') ∧ table_inv s' (Some i) ∧ stops s s' i.
Proof. intros HI Hi Hl. by apply (suspend_run s i p (λ p, set_state SLEEPING (set_chan chan p))). Qed.

Lemma yield_run s i p :
  table_inv s None → procs s !! i = Some p → p_state p = RUNNING →
  ∃ s', yield i s = Ret (tt, s') ∧ table_inv s' (Some i) ∧ stops s s' i.
Proof.
  intros HI Hi Hr. unfold yield. rewrite (bind_Ret _ _ _ _ _ (get_run s i p Hi)), decide_True by done.
  apply (suspend_run s i p (set_state RUNNABLE)); try done. split; by rewrite Hr.
Qed.

Lemma woken_quiet s me chan : quiet s (set_procs (imap (woken me chan) (procs s)) s).
Proof.
  split; [done|]. intros i. unfold running. simpl. rewrite list_lookup_imap. destruct (procs s !! i) as [p|]; simpl; [|done].
  unfold woken. destruct (bool_decide (i ≠ me) && bool_decide (p_chan p = chan) && bool_decide (p_state p = SLEEPING)) eqn:E.
  - apply andb_true_iff in E as [_ E%bool_decide_eq_true].
    split; intros (q & [= <-] & Hq); [done|congruence].
  - split; intros (q & [= <-] & Hq); by eexists.
Qed.

Lemma quiet_put s i p p' :
  procs s !! i = Some p → p_state p' = p_state p → quiet s (pput s i p').
Proof.
  intros Hi Hs. split; [done|]. intros j. unfold running. destruct (decide (i = j)) as [<-|Hj].
  - rewrite (pput_lookup s i p' p Hi), Hi. split; intros (q & [= <-] & ?); eexists; (split; [done|]); congruence.
  - by rewrite pput_lookup_ne.
Qed.
Lemma quiet_trans s1 s2 s3 : quiet s1 s2 → quiet s2 s3 → quiet s1 s3.
Proof. intros [Hc1 Hr1] [Hc2 Hr2]. split; [congruence|]. intros i. by rewrite Hr2, Hr1. Qed.

Lemma find_pid_run l pid s :
  table_inv s None → (∀ i, i ∈ l → is_Some (procs s !! i)) →
  for_find l (λ i, lock_p i ;; p ← get_p i;
    if bool_decide (p_pid p = pid) && bool_decide (p_state p ≠ UNUSED) then mret (Some i)
    else unlock_p i ;; mret None : K st (option nat)) s = Ret (None, s) ∧
    (∀ i p, i ∈ l → procs s !! i = Some p → p_pid p = pid → p_state p = UNUSED) ∨
  ∃ i p, procs s !! i = Some p ∧ p_pid p = pid ∧ p_state p ≠ UNUSED ∧
    for_find l (λ i, lock_p i ;; p ← get_p i;
      if bool_decide (p_pid p = pid) && bool_decide (p_state p ≠ UNUSED) then mret (Some i)
      else unlock_p i ;; mret None : K st (option nat)) s = Ret (Some i, pput s i (set_locked true p)).
Proof.
  intros HI. induction l as [|i l IH]; intros Hl;
    [left; split; [done|]; by intros i p ?%elem_of_nil|]. simpl. destruct (Hl i ltac:(by left)) as [p Hp].
  pose proof (inv_unlocked s i p HI Hp) as Hpl. assert (Hpp : set_locked false (set_locked true p) = p) by (by apply (relock p false)).
  rewrite bind_assoc, (bind_Ret _ _ _ _ _ (lock_run s i p Hp Hpl)).
  rewrite bind_assoc, (bind_Ret _ _ _ _ _ (get_run _ i _ (pput_lookup s i _ p Hp))).
  destruct (bool_decide (p_pid (set_locked true p) = pid) && bool_decide (p_state (set_locked true p) ≠ UNUSED)) eqn:E.
  - apply andb_true_iff in E as [E1%bool_decide_eq_true E2%bool_decide_eq_true]. right. exists i, p. done.
  - rewrite bind_assoc, (bind_Ret _ _ _ tt s).
    { destruct IH as [[Hn Hu]|(j & q & Hj)]; [intros j Hj; apply Hl; by right| |right; by exists j, q].
      left. split; [done|]. intros j q [->|Hj]%elem_of_cons Hq Hpid; [|by apply (Hu j)].
      rewrite Hp in Hq. injection Hq as <-. simpl in E. rewrite (bool_decide_eq_true_2 _ Hpid) in E. simpl in E.
      apply bool_decide_eq_false in E. by apply dec_stable. }
    rewrite (unlock_run _ i (set_locked true p) (pput_lookup s i _ p Hp) eq_refl), pput_pput, Hpp. by rewrite pput_id.
Qed.

(** The table after a signal is posted to [i], and the sleepers on it woken. *)
Definition posted (sig : Z) (p : process) : process :=
  set_sig (Z.lor (p_sig_pending p) (u64 (Z.shiftl 1 (sig - 1)))) p.
Definition kill_state (s : st) (me i : nat) (p : process) (sig : Z) : st :=
  let s1 := pput s i (posted sig p) in
  if decide (p_state p = SLEEPING) then set_procs (imap (woken me (Cproc i)) (procs s1)) s1 else s1.

Lemma posted_inv s i p sig : table_inv s None → procs s !! i = Some p → table_inv (pput s i (posted sig p)) None.
Proof.
  intros HI Hi. apply (inv_put s None None i p); try done; [exact (ti_lock _ _ HI i p Hi)|]. intros Hl. by left.
Qed.

Lemma kill_run s me pid sig :
  table_inv s None →
  ∃ r s', kill me pid sig s = Ret (r, s') ∧ table_inv s' None ∧ quiet s s' ∧
    ((r = - EINVAL ∧ (sig < 0 ∨ NSIG ≤ sig) ∧ s' = s) ∨
     (r = - ESRCH ∧ (∀ i p, procs s !! i = Some p → p_pid p = pid → p_state p = UNUSED) ∧ s' = s) ∨ r = 0 ∧ ∃ i p, procs s !! i = Some p ∧ p_pid p = pid ∧ p_state p ≠ UNUSED ∧
       ((sig = 0 ∧ s' = s) ∨ s' = kill_state s me i p sig)).
Proof.
  intros HI. assert (Hq0 : quiet s s) by (split; [done|]; intros i; reflexivity). unfold kill. case_decide as Hs; [exists (- EINVAL), s; split_and!; try done; by left|].
  unfold find_pid. destruct (find_pid_run all_procs pid s HI) as [[Hf Hno]|(i & p & Hi & Hp & Hu & Hf)];
    [intros i Hi; by apply (all_procs_lookup _ _ _ HI)| |]; rewrite (bind_Ret _ _ _ _ _ Hf).
  { exists (- ESRCH), s. split_and!; try done. right. left. split_and!; try done.
    intros i p Hi. apply (Hno i p); [|done]. apply (all_procs_lookup _ _ _ HI). by exists p. }
  pose proof (inv_unlocked s i p HI Hi) as Hpl. assert (Hpp : set_locked false (set_locked true p) = p) by (by apply (relock p false)).
  set (s1 := pput s i (set_locked true p)). assert (Hi1 : procs s1 !! i = Some (set_locked true p)) by (by apply (pput_lookup s i _ p)).
  destruct (decide (sig = 0)) as [->|Hs0].
  { rewrite (bind_Ret _ _ s1 tt s).
    - exists 0, s. split_and!; try done. right. right. split; [done|]. exists i, p. split_and!; try done. by left.
    - rewrite (unlock_run s1 i _ Hi1 eq_refl), Hpp. unfold s1. rewrite pput_pput. by rewrite pput_id. }
  unfold signal_send. rewrite bind_assoc, (bind_Ret _ _ _ _ _ (upd_run s1 i _ _ Hi1)). unfold s1. rewrite pput_pput.
  fold (posted sig (set_locked true p)).
  assert (Hpost : set_locked false (posted sig (set_locked true p)) = posted sig p) by (unfold posted; destruct p; simpl in *; by subst).
  rewrite bind_assoc, (bind_Ret _ _ _ tt (pput s i (posted sig p))).
  2:{ rewrite (unlock_run _ i (posted sig (set_locked true p)) (pput_lookup s i _ p Hi) eq_refl), pput_pput. by rewrite Hpost. }
  pose proof (posted_inv s i p sig HI Hi) as HI2. set (s2 := pput s i (posted sig p)) in *.
  assert (Hi2 : procs s2 !! i = Some (posted sig p)) by (by apply (pput_lookup s i _ p)).
  rewrite bind_assoc, (bind_Ret _ _ _ _ _ (get_run s2 i _ Hi2)). change (p_state (posted sig p)) with (p_state p).
  assert (Hq2 : quiet s s2) by (by apply (quiet_put s i p)).
  assert (Hwk : ∃ p3, (if decide (p_state p = SLEEPING) then wakeup me (Cproc i) else mret tt : K st unit) s2 =
      Ret (tt, kill_state s me i p sig) ∧ procs (kill_state s me i p sig) !! i = Some p3 ∧
      table_inv (kill_state s me i p sig) None ∧ quiet s (kill_state s me i p sig)).
  { unfold kill_state. fold s2. destruct (decide (p_state p = SLEEPING)).
    - exists (woken me (Cproc i) i (posted sig p)). rewrite (wakeup_run s2 me (Cproc i) HI2). split_and!; [done| |by apply woken_inv|].
      + change (procs (set_procs ?l ?x)) with l. rewrite list_lookup_imap, Hi2. done.
      + eapply quiet_trans; [exact Hq2|apply woken_quiet].
    - by exists (posted sig p). }
  destruct Hwk as (p3 & Hw & Hi3 & HI3 & Hq3). rewrite bind_assoc, (bind_Ret _ _ _ _ _ Hw).
  pose proof (inv_unlocked _ i p3 HI3 Hi3) as Hl3. rewrite (bind_Ret _ _ _ _ _ (lock_run _ i p3 Hi3 Hl3)).
  rewrite (bind_Ret _ _ _ tt (kill_state s me i p sig)).
  - eexists 0, _. split; [done|]. split_and!; [done..|]. right. right. split; [done|]. exists i, p. split_and!; try done. by right.
  - rewrite (unlock_run _ i (set_locked true p3) (pput_lookup _ i _ p3 Hi3) eq_refl), pput_pput.
    assert (Hp3 : set_locked false (set_locked true p3) = p3) by (by apply (relock p3 false)). rewrite Hp3. by rewrite pput_id.
Qed.

(** ** CPUs *)

Record sched_inv (s : st) : Prop := {
  si_run c i : cpus s !! c = Some (Some i) → running s i;
  si_one c c' i : cpus s !! c = Some (Some i) → cpus s !! c' = Some (Some i) → c = c';
  si_all i : running s i → ∃ c, cpus s !! c = Some (Some i)
}.

Lemma sched_quiet s s' : sched_inv s → quiet s s' → sched_inv s'.
Proof.
  intros [H1 H2 H3] [Hc Hr]. split.
  - intros c i. rewrite Hc, Hr. apply H1.
  - intros c c' i. rewrite Hc. apply H2.
  - intros i. rewrite Hc, Hr. apply H3.
Qed.

(** The state in which a CPU enters [j]: running, its lock still held. *)
Definition entered (s : st) (c j : nat) (p : process) : st :=
  set_cpus (<[c := Some j]> (cpus s)) (pput s j (set_state RUNNING (set_locked true p))).

Lemma sched_in_run s c j p :
  table_inv s None → procs s !! j = Some p →
  if decide (p_state p = RUNNABLE) then sched_in c j s = Ret (true, entered s c j p) else sched_in c j s = Ret (false, s).
Proof.
  intros HI Hj. pose proof (inv_unlocked s j p HI Hj) as Hpl.
  assert (Hpp : set_locked false (set_locked true p) = p) by (by apply (relock p false)).
  unfold sched_in. rewrite (bind_Ret _ _ _ _ _ (lock_run s j p Hj Hpl)), (bind_Ret _ _ _ _ _ (get_run _ j _ (pput_lookup s j _ p Hj))).
  change (p_state (set_locked true p)) with (p_state p). destruct (decide (p_state p = RUNNABLE)) as [Hr|Hr].
  - rewrite (bind_Ret _ _ _ _ _ (upd_run _ j _ _ (pput_lookup s j _ p Hj))), pput_pput. done.
  - rewrite (bind_Ret _ _ _ tt s); [done|].
    rewrite (unlock_run _ j (set_locked true p) (pput_lookup s j _ p Hj) eq_refl), pput_pput, Hpp. by rewrite pput_id.
Qed.

(** Entering a process and releasing its lock, [p'] being what it is then. *)
Lemma entered_inv s c j p p' :
  table_inv s None → sched_inv s → procs s !! j = Some p → p_state p = RUNNABLE → cpus s !! c = Some None →
  p_state p' = RUNNING → p_pid p' = p_pid p → p_parent p' = p_parent p → p_locked p' = false →
  let s1 := set_cpus (<[c := Some j]> (cpus s)) (pput s j p') in table_inv s1 None ∧ sched_inv s1.
Proof.
  intros HI HS Hj Hr Hc Hr' Hpid Hpar Hlk s1. split.
  + assert (HI1 : table_inv (pput s j p') None); [|by destruct HI1; split].
    apply (inv_put s None None j p); try done; [rewrite Hr, Hr'; done|]. intros _. left. split; by rewrite Hr'.
  + pose proof (lookup_lt_Some _ _ _ Hc) as Hlt. assert (Hrun : ∀ i, running s1 i ↔ running s i ∨ i = j).
    { intros i. unfold running, s1. change (procs (set_cpus ?l ?x)) with (procs x). destruct (decide (j = i)) as [<-|Hi].
      - rewrite (pput_lookup s j _ p Hj). split; [by right|]. intros _. by eexists.
      - rewrite pput_lookup_ne by done. split; [by left|]. by intros [|]. }
    assert (Hnj : ¬ running s j) by (intros (q & Hq & ?); congruence).
    split; simpl.
    * intros c' i. destruct (decide (c = c')) as [<-|Hcc].
      -- rewrite list_lookup_insert_eq by done. intros [= <-]. apply Hrun. by right.
      -- rewrite list_lookup_insert_ne by done. intros Hi. apply Hrun. left. by eapply si_run.
    * intros c1 c2 i. destruct (decide (c = c1)) as [<-|H1], (decide (c = c2)) as [<-|H2];
        rewrite ?list_lookup_insert_eq, ?list_lookup_insert_ne by done; intros E1 E2; simplify_eq/=; try done.
      -- destruct Hnj. by eapply si_run.
      -- destruct Hnj. by eapply si_run.
      -- by eapply si_one.
    * intros i [Hi| ->]%Hrun; [|exists c; by rewrite list_lookup_insert_eq].
      destruct (si_all _ HS i Hi) as (c' & Hc'). exists c'. rewrite list_lookup_insert_ne; [done|]. intros <-. congruence.
Qed.

Lemma filter_one {A} (P : A → Prop) `{∀ x, Decision (P x)} l i x :
  l !! i = Some x → P x → (∀ j y, j ≠ i → l !! j = Some y → ¬ P y) → length (filter P l) = 1%nat.
Proof.
  revert i. induction l as [|a l IH]; intros i Hi Hx Hno; [done|]. destruct i as [|i].
  - injection Hi as ->. rewrite filter_cons_True by done. simpl. f_equal.
    assert (Hall : ∀ j y, l !! j = Some y → ¬ P y) by (intros j y; by apply (Hno (S j) y)).
    clear -Hall. induction l as [|b l IH]; [done|]. rewrite filter_cons_False by (by apply (Hall 0%nat b)).
    apply IH. intros j y. apply (Hall (S j) y).
  - rewrite filter_cons_False by (by apply (Hno 0%nat a)). apply (IH i); [done..|]. intros j y Hj Hy. by apply (Hno (S j) y); [lia|].
Qed.

(** At a switch exactly the lock of the process that leaves is held. *)
Lemma noff_one s i : table_inv s (Some i) → is_Some (procs s !! i) → noff s = 1%nat.
Proof.
  intros HI [p Hp]. apply (filter_one _ _ i p Hp).
  - rewrite (ti_lock _ _ HI i p Hp). by apply bool_decide_eq_true_2.
  - intros j q Hj Hq. rewrite (ti_lock _ _ HI j q Hq), bool_decide_eq_true. congruence.
Qed.

Lemma sched_out_run s0 s c i :
  sched_inv s0 → cpus s0 !! c = Some (Some i) → table_inv s (Some i) → stops s0 s i → is_Some (procs s !! i) →
  ∃ s', sched_out c s = Ret (tt, s') ∧ table_inv s' None ∧ sched_inv s'.
Proof.
  intros HS Hc HI [Hcpu Hrun] [p Hp]. pose proof (noff_one s i HI ltac:(by exists p)) as Hoff. unfold sched_out. unfold gets. unfold mbind at 1, K_bind at 1. rewrite Hcpu, Hc.
  assert (Hpl : p_locked p = true) by (rewrite (ti_lock _ _ HI i p Hp); by apply bool_decide_eq_true_2).
  assert (Hpr : p_state p ≠ RUNNING).
  { intros Hr. assert (running s i) as [_ Hne]%Hrun by (by exists p). done. }
  rewrite (bind_Ret _ _ _ _ _ (get_run s i p Hp)), Hpl.
  rewrite (bind_Ret (mret tt) _ _ tt s) by done. cbv beta. unfold mbind at 1, K_bind at 1. rewrite Hoff, (decide_False (P := 1%nat ≠ 1%nat)) by (intros Hn; by apply Hn).
  rewrite (bind_Ret (mret tt) _ _ tt s) by done. rewrite decide_False by done.
  rewrite (bind_Ret (mret tt) _ _ tt s) by done. unfold mbind at 1, K_bind at 1, irq_enabled. rewrite Hoff. simpl.
  unfold modify. unfold mbind, K_bind, mret, K_ret.
  set (s1 := set_cpus (<[c := None]> (cpus s)) s). assert (Hp1 : procs s1 !! i = Some p) by done.
  rewrite (unlock_run s1 i p Hp1 Hpl). eexists. split; [done|]. split.
  - assert (HI1 : table_inv (pput s i (set_locked false p)) None); [|by destruct HI1; split].
    apply (inv_put s (Some i) None i p); try done; [|by intros Hl; left].
    intros j Hj. by rewrite !bool_decide_eq_false_2 by congruence.
  - pose proof (lookup_lt_Some _ _ _ Hc) as Hlt. rewrite <-Hcpu in Hlt.
    assert (Hrun' : ∀ j, running (pput s1 i (set_locked false p)) j ↔ running s0 j ∧ j ≠ i).
    { intros j. rewrite <-Hrun. pose proof (quiet_put s i p (set_locked false p) Hp eq_refl) as [_ Hq]. exact (Hq j). }
    split; simpl.
    + intros c' j. destruct (decide (c = c')) as [<-|Hcc]; [by rewrite list_lookup_insert_eq|].
      rewrite list_lookup_insert_ne, Hcpu by done. intros Hj. apply Hrun'. split; [by eapply si_run|].
      intros ->. apply Hcc. by eapply si_one.
    + intros c1 c2 j. destruct (decide (c = c1)) as [<-|H1]; [by rewrite list_lookup_insert_eq|].
      destruct (decide (c = c2)) as [<-|H2]; [by rewrite (list_lookup_insert_eq _ c)|].
      rewrite !list_lookup_insert_ne, Hcpu by done. by apply si_one.
    + intros j [Hj Hne]%Hrun'. destruct (si_all _ HS j Hj) as (c' & Hc'). exists c'.
      rewrite list_lookup_insert_ne, Hcpu; [done|]. intros <-. congruence.
Qed.

(** ** Events *)

Definition kinv (s : st) : Prop := table_inv s None ∧ sched_inv s.

(** [X] holds the processes that stop. *)
Lemma running_change (X : nat → Prop) s s' :
  length (procs s') = length (procs s) →
  (∀ j p, procs s !! j = Some p → ∃ p', procs s' !! j = Some p' ∧ (p_state p' = RUNNING ↔ p_state p = RUNNING ∧ ¬ X j)) →
  ∀ i, running s' i ↔ running s i ∧ ¬ X i.
Proof.
  intros Hlen Hch i. unfold running. destruct (procs s !! i) as [p|] eqn:Hp.
  - destruct (Hch i p Hp) as (p' & Hp' & Hr). rewrite Hp'. split.
    + intros (q & [= <-] & Hq). apply Hr in Hq as [? ?]. split; [by exists p|done].
    + intros [(q & [= <-] & Hq) HX]. exists p'. split; [done|]. by apply Hr.
  - apply lookup_ge_None_1 in Hp. rewrite <-Hlen in Hp. apply lookup_ge_None_2 in Hp. rewrite Hp.
    split; [by intros (q & ? & _)|by intros [(q & ? & _) _]].
Qed.

Lemma quiet_change s s' :
  length (procs s') = length (procs s) → cpus s' = cpus s →
  (∀ j p, procs s !! j = Some p → ∃ p', procs s' !! j = Some p' ∧ (p_state p' = RUNNING ↔ p_state p = RUNNING)) → quiet s s'.
Proof.
  intros Hlen Hcpu Hch. split; [done|]. intros i. rewrite (running_change (λ _, False) s s' Hlen).
  - split; [by intros [? _]|]. intros Hr. split; [done|by intros []].
  - intros j p Hp. destruct (Hch j p Hp) as (p' & Hp' & Hr). exists p'. split; [done|]. rewrite Hr.
    split; [|by intros [? _]]. intros ?. split; [done|by intros []].
Qed.

Lemma inv_len s s' lk lk' : table_inv s lk → table_inv s' lk' → length (procs s') = length (procs s).
Proof. intros HI HI'. by rewrite (ti_len _ _ HI), (ti_len _ _ HI'). Qed.

Lemma exit_stops s me p code :
  table_inv s None → procs s !! me = Some p → live p →
  ∃ s', exit me code s = Ret (tt, s') ∧ table_inv s' (Some me) ∧ stops s s' me ∧ is_Some (procs s' !! me).
Proof.
  intros HI Hme Hl. destruct (exit_run s me p code HI Hme Hl) as (s' & p' & Hrun & HI' & Hme' & Hz & _ & _ & _ & Hcpu & Hoth).
  exists s'. split_and!; [done|done| |by exists p']. split; [done|]. apply (running_change (λ j, j = me)); [by eapply inv_len|].
  intros j q Hq. destruct (decide (j = me)) as [->|Hj].
  - exists p'. split; [done|]. rewrite Hz. split; [done|]. intros [_ Hx]. by destruct Hx.
  - destruct (Hoth j q Hj Hq) as (q' & Hq' & Hst). exists q'. split; [done|]. destruct Hst as [->|[-> ->]].
    + split; [intros ?; by split|by intros [? _]].
    + split; [done|by intros [? _]].
Qed.

Lemma fork_quiet s me p :
  table_inv s None → next_pid s < 2 ^ 31 - 1 → procs s !! me = Some p → live p →
  (fork me s = Panic out_of_memory ∧ starved) ∨ ∃ r s', fork me s = Ret (r, s') ∧ table_inv s' None ∧ quiet s s'.
Proof.
  intros HI Hn Hme Hl. destruct (fork_run s me p HI Hn Hme Hl) as [Hp|(r & s' & Hrun & HI' & Hcpu & Hres)]; [by left|].
  right. exists r, s'. split_and!; try done. destruct Hres as [[_ ->]|(np & q & q' & Hq & Hu & Hq' & Hoth & Hst)]; [split; [done|]; intros i; reflexivity|].
  apply quiet_change; [by eapply inv_len|done|]. intros j x Hx. destruct (decide (j = np)) as [->|Hj].
  - exists q'. split; [done|]. rewrite Hq in Hx. injection Hx as <-. rewrite Hu. destruct Hst as [[_ ->]|(_ & -> & _)]; done.
  - exists x. rewrite Hoth by done. done.
Qed.

Lemma brk_run s me p addr :
  table_inv s None → procs s !! me = Some p → live p →
  ∃ r s', brk me addr s = Ret (r, s') ∧ table_inv s' None ∧ quiet s s' ∧
    ((r = p_heap_top p ∧ s' = s) ∨
     r = addr ∧ p_heap_bottom p ≤ addr < p_stack_bottom p ∧
       ∃ m, s' = set_pmem m (pput s me (set_bounds (p_heap_bottom p) addr (p_stack_bottom p) (p_stack_top p) p))).
Proof.
  intros HI Hme Hl. assert (Hq0 : quiet s s) by (split; [done|]; intros i; reflexivity).
  unfold brk. rewrite (bind_Ret _ _ _ _ _ (get_run s me p Hme)).
  destruct (decide (addr = 0)); [exists (p_heap_top p), s; split_and!; try done; by left|].
  destruct (decide (addr < p_heap_bottom p ∨ p_stack_bottom p ≤ addr)) as [|Hr]; [exists (p_heap_top p), s; split_and!; try done; by left|].
  pose proof (inv_unlocked s me p HI Hme) as Hpl. assert (Hpp : set_locked false (set_locked true p) = p) by (by apply (relock p false)).
  assert (Hlk : lock_p me s = Ret (tt, pput s me (set_locked true p))) by (by apply lock_run).
  assert (Hde : ∃ m, (if decide (p_heap_bottom p ≤ addr ∧ addr < p_heap_top p) then
     lock_p me ;; on_mem (pm_uvmdealloc (p_pagetable p) addr (u64 (p_heap_top p - addr))) ;; unlock_p me
     else mret tt : K st unit) s = Ret (tt, set_pmem m s)).
  { destruct (decide (p_heap_bottom p ≤ addr ∧ addr < p_heap_top p)); [|exists (pmem s); by destruct s].
    rewrite (bind_Ret _ _ _ _ _ Hlk). destruct (pm_total_val (pmem s)) as (_ & _ & Hd).
    destruct (mem_val_run (pm_uvmdealloc (p_pagetable p) addr (u64 (p_heap_top p - addr))) (pput s me (set_locked true p)) (Hd _ _ _)) as (x & m & Hm).
    rewrite (bind_Ret _ _ _ _ _ Hm). exists m.
    rewrite (unlock_run (set_pmem m (pput s me (set_locked true p))) me (set_locked true p) (pput_lookup s me _ p Hme) eq_refl), Hpp.
    change (pput (set_pmem m ?x) me p) with (set_pmem m (pput x me p)). rewrite pput_pput. by rewrite pput_id. }
  destruct Hde as (m & Hm). rewrite (bind_Ret _ _ _ _ _ Hm). set (s1 := set_pmem m s). assert (Hme1 : procs s1 !! me = Some p) by done.
  rewrite (bind_Ret _ _ _ _ _ (lock_run s1 me p Hme1 Hpl)).
  rewrite (bind_Ret _ _ _ _ _ (upd_run _ me _ _ (pput_lookup s1 me _ p Hme1))), pput_pput.
  set (pb := set_bounds _ addr _ _ _).
  rewrite (bind_Ret _ _ _ _ _ (unlock_run (pput s1 me pb) me pb (pput_lookup s1 me _ p Hme1) eq_refl)), pput_pput. unfold pb.
  set (p1 := set_bounds (p_heap_bottom p) addr (p_stack_bottom p) (p_stack_top p) p). eexists addr, _. split; [done|].
  assert (Hp1 : set_locked false (set_bounds (p_heap_bottom (set_locked true p)) addr (p_stack_bottom (set_locked true p))
    (p_stack_top (set_locked true p)) (set_locked true p)) = p1) by (unfold p1; destruct p; simpl in *; by subst).
  rewrite Hp1. assert (HI1 : table_inv (pput s1 me p1) None).
  { apply (inv_put s1 None None me p); try done; [by apply inv_mem|]. intros _. by left. }
  assert (Hqq : quiet s (pput s1 me p1)).
  { destruct (quiet_put s me p p1 Hme eq_refl) as [Hc1 Hr1]. by split. }
  split_and!; [done|done|]. right. split_and!; [done|lia|lia|]. by exists m.
Qed.

Lemma wait_post_step s c i pm pid w o e s' :
  cpus s !! c = Some (Some i) → table_inv s None → sched_inv s → procs s !! i = Some pm → live pm → wait_post s i pm pid w o e s' →
  ∃ s2, wait_out c e s' = Ret (tt, s2) ∧ kinv s2.
Proof.
  intros Hc HI HS Hi Hl Hw. destruct e as [r|]; simpl in *.
  - exists s'. split; [done|]. destruct Hw as [HI' Hw]. split; [done|]. apply (sched_quiet s); [done|].
    assert (Hq0 : quiet s s) by (split; [done|]; intros x; reflexivity).
    destruct Hw as [(j & q & Hj & _ & Hz & Hcpu & Hoth & Hres)|[(_ & _ & ->)|(_ & _ & _ & _ & ->)]]; [|done..].
    apply quiet_change; [by eapply inv_len|done|]. intros x px Hx. destruct (decide (x = j)) as [->|Hne].
    + rewrite Hj in Hx. injection Hx as <-. rewrite Hz. destruct Hres as [[_ Hj']|(_ & _ & Hj')]; (eexists; split; [exact Hj'|]); [done|by rewrite Hz].
    + exists px. by rewrite Hoth.
  - destruct Hw as (HI' & _ & _ & _ & ->). destruct (sched_out_run s _ c i HS Hc HI') as (s2 & Hrun & HI2 & HS2).
    + by apply (stops_put s i pm).
    + eexists. by apply (pput_lookup s i _ pm).
    + by exists s2.
Qed.

Lemma running_live p : p_state p = RUNNING → live p.
Proof. intros Hr. split; by rewrite Hr. Qed.

(** A call that stops its process, and the switch that follows. *)
Lemma stop_step s c i (m : K st unit) :
  sched_inv s → cpus s !! c = Some (Some i) → is_Some (procs s !! i) →
  (∃ s', m s = Ret (tt, s') ∧ table_inv s' (Some i) ∧ stops s s' i ∧ is_Some (procs s' !! i)) →
  ∃ s', (m ;; sched_out c : K st unit) s = Ret (tt, s') ∧ kinv s'.
Proof.
  intros HS Hc Hp (s1 & Hm & HI1 & Hst & Hp1). rewrite (bind_Ret _ _ _ _ _ Hm).
  destruct (sched_out_run s s1 c i HS Hc HI1 Hst Hp1) as (s2 & Hrun & HI2 & HS2). by exists s2.
Qed.

Lemma call_step s c i k :
  kinv s → cpus s !! c = Some (Some i) → (k = Kfork → next_pid s < 2 ^ 31 - 1) →
  (∃ s', run_call c i k s = Ret (tt, s') ∧ kinv s') ∨ k = Kfork ∧ run_call c i k s = Panic out_of_memory ∧ starved.
Proof.
  intros [HI HS] Hc Hf. destruct (si_run _ HS c i Hc) as (p & Hp & Hr). pose proof (running_live p Hr) as Hl.
  assert (Hq : ∀ {A} (m : K st A), (∃ r s', m s = Ret (r, s') ∧ table_inv s' None ∧ quiet s s') →
    ∃ s', (m ;; mret tt : K st unit) s = Ret (tt, s') ∧ kinv s').
  { intros A m (r & s' & Hm & HI' & Hq'). rewrite (bind_Ret _ _ _ _ _ Hm). exists s'. split; [done|]. split; [done|by eapply sched_quiet]. }
  assert (Hlen : ∀ s', table_inv s' (Some i) → is_Some (procs s' !! i)).
  { intros s' HI'. apply lookup_lt_is_Some. rewrite (inv_len _ _ _ _ HI HI'). by eapply lookup_lt_Some. }
  destruct k as [|code|pid w o|pid sig|chan|chan| |addr]; simpl.
  - destruct (fork_quiet s i p HI (Hf eq_refl) Hp Hl) as [[Hw Hst]|Hok]; [right|left; by apply Hq].
    split; [done|]. split; [|done]. unfold mbind, K_bind. by rewrite Hw.
  - left. apply (stop_step s c i); [done..|by exists p|]. by apply (exit_stops s i p code HI Hp Hl).
  - left. destruct (wait4_run s i p pid w o HI Hp Hl) as (e & s' & Hrun & Hpost). rewrite (bind_Ret _ _ _ _ _ Hrun).
    by apply (wait_post_step s c i p pid w o e s').
  - left. apply Hq. destruct (kill_run s i pid sig HI) as (r & s' & Hrun & HI' & Hq' & _). by exists r, s'.
  - left. rewrite (wakeup_run s i chan HI). eexists. split; [done|]. split; [by apply woken_inv|]. by eapply sched_quiet, woken_quiet.
  - left. apply (stop_step s c i); [done..|by exists p|]. destruct (sleep_run s i p chan HI Hp Hl) as (s' & ? & HI' & ?).
    exists s'. split_and!; try done. by apply Hlen.
  - left. apply (stop_step s c i); [done..|by exists p|]. destruct (yield_run s i p HI Hp Hr) as (s' & ? & HI' & ?).
    exists s'. split_and!; try done. by apply Hlen.
  - left. apply Hq. destruct (brk_run s i p addr HI Hp Hl) as (r & s' & Hrun & HI' & Hq' & _). by exists r, s'.
Qed.

Lemma pick_step s c i r :
  kinv s → cpus s !! c = Some None → is_Some (procs s !! i) → ∃ s', kstep (Epick c i r) s = Ret (tt, s') ∧ kinv s'.
Proof.
  intros [HI HS] Hc [p Hp]. simpl. pose proof (sched_in_run s c i p HI Hp) as Hin. pose proof (inv_unlocked s i p HI Hp) as Hpl.
  destruct (decide (p_state p = RUNNABLE)) as [Hr|_]; rewrite (bind_Ret _ _ _ _ _ Hin); [|exists s; by split].
  set (pe := set_state RUNNING (set_locked true p)) in *.
  assert (Hent : ∀ q, procs (set_cpus (<[c := Some i]> (cpus s)) (pput s i q)) !! i = Some q) by (intros q; by apply (pput_lookup s i _ p)).
  assert (Hback : ∀ q q', pput (set_cpus (<[c := Some i]> (cpus s)) (pput s i q)) i q' = set_cpus (<[c := Some i]> (cpus s)) (pput s i q')).
  { intros q q'. unfold set_cpus, pput, set_procs. simpl. by rewrite list_insert_insert_eq. }
  unfold entered. fold pe. destruct r as [| |pid w o]; simpl.
  - unfold yield_resume. rewrite (unlock_run _ i pe (Hent pe) eq_refl), Hback. eexists. split; [done|].
    by apply (entered_inv s c i p).
  - unfold sleep_resume. rewrite (bind_Ret _ _ _ _ _ (upd_run _ i pe _ (Hent pe))), Hback.
    rewrite (unlock_run _ i (set_chan Cnull pe) (Hent _) eq_refl), Hback. eexists. split; [done|].
    by apply (entered_inv s c i p).
  - unfold wait4_resume, sleep_resume. rewrite !bind_assoc, (bind_Ret _ _ _ _ _ (upd_run _ i pe _ (Hent pe))), Hback.
    rewrite (bind_Ret (mret tt) _ _ tt _ eq_refl).
    set (pu := set_locked false (set_chan Cnull pe)).
    destruct (entered_inv s c i p pu HI HS Hp Hr Hc eq_refl eq_refl eq_refl eq_refl) as [HI1 HS1].
    set (s1 := set_cpus (<[c := Some i]> (cpus s)) (pput s i pu)) in *.
    assert (Heq : set_cpus (<[c := Some i]> (cpus s)) (pput s i (set_chan Cnull pe)) = pput s1 i (set_locked true pu)).
    { unfold s1. rewrite Hback. done. }
    rewrite Heq. destruct (wait_round_run s1 i pu pid w o HI1 (Hent pu) (running_live pu eq_refl)) as (e & s' & Hrun & Hpost).
    rewrite (bind_Ret _ _ _ _ _ Hrun). apply (wait_post_step s1 c i pu pid w o e s'); try done.
    + simpl. rewrite list_lookup_insert_eq; [done|]. by eapply lookup_lt_Some.
    + exact (Hent pu).
Qed.

(** ** Boot *)

Lemma zero_inv i p q :
  procs_of_boot p !! i = Some q → q = if decide (i = 0%nat) then p else zero_proc.
Proof.
  unfold procs_of_boot. intros Hi. pose proof (lookup_lt_Some _ _ _ Hi) as Hlt. destruct i as [|i]; [by injection Hi as <-|].
  rewrite list_lookup_insert_ne in Hi by done. apply lookup_replicate in Hi as [-> _]. done.
Qed.

Lemma boot_state_inv p m n :
  p_state p = RUNNABLE → p_locked p = false → 0 < p_pid p < n → p_parent p = None →
  kinv (mk_ptable (procs_of_boot p) n (replicate (Z.to_nat NCPU) None) m).
Proof.
  intros Hs Hlk Hpid Hpar. assert (H0 : procs_of_boot p !! 0%nat = Some p) by done. split; split; cbn [procs next_pid cpus].
  - done.
  - intros i q ->%zero_inv. case_decide; [by rewrite Hlk|done].
  - intros i q ->%zero_inv. by case_decide.
  - intros i j q q' ->%zero_inv ->%zero_inv Hne. do 2 case_decide; simplify_eq; done.
  - intros i q ->%zero_inv. by case_decide.
  - intros i q j ->%zero_inv. case_decide; [|done]. by rewrite Hpar.
  - exists p. split_and!; [done|by rewrite Hs|done].
  - lia.
  - intros c i [? _]%lookup_replicate. done.
  - intros c c' i [? _]%lookup_replicate. done.
  - intros i (q & Hq%zero_inv & Hr). subst q. simpl in Hr. case_decide; [by rewrite Hs in Hr|done].
Qed.

Lemma mem_run {A} (mm : K M A) s x m' : mm (pmem s) = Ret (x, m') → on_mem mm s = Ret (x, set_pmem m' s).
Proof. intros Hm. unfold on_mem, zoom. by rewrite Hm. Qed.

Lemma boot_run m :
  (∃ why, boot (zero_table m) = Panic why) ∨ ∃ s, boot (zero_table m) = Ret (tt, s) ∧ kinv s.
Proof.
  unfold boot. rewrite (bind_Ret _ _ _ tt (zero_table m)) by reflexivity. unfold user_init, alloc_process. rewrite bind_assoc.
  set (p1 := set_pid 1 (set_state USED zero_proc)).
  assert (Hcl : claim_slot (zero_table m) = Ret (Some 0%nat, mk_ptable (procs_of_boot p1) 2 (replicate (Z.to_nat NCPU) None) m)) by reflexivity.
  rewrite (bind_Ret _ _ _ _ _ Hcl). set (s1 := mk_ptable _ _ _ m).
  assert (Hp1 : ∀ m', procs (set_pmem m' s1) !! 0%nat = Some p1) by done.
  destruct (pm_alloc m) as ((k & m1 & Hk) & _). rewrite bind_assoc, (bind_Ret _ _ _ _ _ (mem_run pm_kalloc s1 _ _ Hk)).
  destruct (pm_alloc m1) as (_ & _ & (pt & m2 & Hpt)).
  rewrite bind_assoc, (bind_Ret _ _ _ _ _ (mem_run pm_uvmcreate (set_pmem m1 s1) _ _ Hpt)).
  case_decide; [left; by eexists|]. rewrite bind_assoc, (bind_Ret (mret tt) _ _ tt (set_pmem m2 s1)) by done.
  destruct (pm_alloc m2) as (_ & (cx & m3 & Hcx) & _). rewrite bind_assoc, (bind_Ret _ _ _ _ _ (mem_run pm_kmalloc (set_pmem m2 s1) _ _ Hcx)).
  case_decide; [left; by eexists|]. rewrite bind_assoc, (bind_Ret (mret tt) _ _ tt (set_pmem m3 s1)) by done.
  rewrite bind_assoc, (bind_Ret _ _ _ _ _ (upd_run _ _ p1 _ (Hp1 m3))).
  rewrite bind_assoc, (bind_Ret _ _ _ _ _ (upd_run _ _ _ _ (pput_lookup _ _ _ p1 (Hp1 m3)))), pput_pput.
  set (p2 := set_sig 0 (set_mem k pt cx p1)). set (s2 := pput (set_pmem m3 s1) 0 p2).
  rewrite (bind_Ret (mret (Some 0%nat)) _ _ (Some 0%nat) s2) by done.
  assert (Hp2 : ∀ m', procs (set_pmem m' s2) !! 0%nat = Some p2) by done.
  destruct (pm_alloc m3) as ((cd & m4 & Hcd) & _). rewrite (bind_Ret _ _ _ _ _ (mem_run pm_kalloc s2 _ _ Hcd)).
  case_decide; [left; by eexists|]. rewrite (bind_Ret (mret tt) _ _ tt (set_pmem m4 s2)) by done.
  destruct (pm_alloc m4) as ((sk & m5 & Hsk) & _). rewrite (bind_Ret _ _ _ _ _ (mem_run pm_kalloc (set_pmem m4 s2) _ _ Hsk)).
  case_decide; [left; by eexists|]. rewrite (bind_Ret (mret tt) _ _ tt (set_pmem m5 s2)) by done.
  rewrite (bind_Ret _ _ _ _ _ (get_run _ _ p2 (Hp2 m5))).
  destruct (pm_init m5) as [Hld _]. destruct (Hld (p_pagetable p2) cd sk) as (m6 & Hm6).
  rewrite (bind_Ret _ _ _ _ _ (mem_run _ (set_pmem m5 s2) _ _ Hm6)). unfold modify.
  set (s3 := set_cpus (<[0%nat := Some 0%nat]> (cpus s2)) (set_pmem m6 s2)). rewrite (bind_Ret _ _ _ tt s3) by done.
  destruct (pm_init m6) as [_ (fds & m7 & Hfd)]. rewrite (bind_Ret _ _ _ _ _ (mem_run pm_open_std s3 _ _ Hfd)).
  case_decide; [left; by eexists|]. rewrite (bind_Ret (mret tt) _ _ tt (set_pmem m7 s3)) by done.
  right. set (s4 := mk_ptable (procs s2) 2 (replicate (Z.to_nat NCPU) None) m7). rewrite (bind_Ret _ _ _ tt s4) by done.
  assert (Hp4 : procs s4 !! 0%nat = Some p2) by done. rewrite (upd_run s4 _ p2 _ Hp4). eexists. split; [done|].
  apply (boot_state_inv (set_state RUNNABLE p2) m7 2); done.
Qed.

(** The states the machine reaches after its boot. *)
Inductive kreach (m : M) : st → Prop :=
  | reach_boot s : boot (zero_table m) = Ret (tt, s) → kreach m s
  | reach_step s e s' : kreach m s → enabled e s → kstep e s = Ret (tt, s') → kreach m s'.

Lemma kstep_run s e :
  kinv s → enabled e s →
  (∃ s', kstep e s = Ret (tt, s') ∧ kinv s') ∨ ∃ c, e = Ecall c Kfork ∧ kstep e s = Panic out_of_memory ∧ starved.
Proof.
  intros HI He. destruct e as [c k|c i r].
  - destruct He as (i & Hc & Hf).
    assert (Hk : kstep (Ecall c k) s = run_call c i k s) by (simpl; unfold gets, mbind, K_bind; by rewrite Hc).
    rewrite Hk. destruct (call_step s c i k HI Hc Hf) as [(s' & Hr & HI')|(-> & Hr & Hst)]; [left; by exists s'|right].
    exists c. done.
  - destruct He as [Hc Hi]. left. apply pick_step; [done..|]. apply lookup_lt_is_Some. by rewrite (ti_len _ _ (proj1 HI)).
Qed.

Lemma kreach_total m s : kreach m s → kinv s.
Proof.
  induction 1 as [s Hb|s e s' _ IH He Hs].
  - destruct (boot_run m) as [(why & Hw)|(s2 & Hw & HI)]; congruence.
  - destruct (kstep_run s e IH He) as [(s2 & Hs2 & HI)|(c & _ & Hs2 & _)]; congruence.
Qed.

(** wait4 reaps the first zombie child that matches and returns its pid
    with its slot freed, or reports EFAULT leaving the zombie, or ECHILD
    exactly when no child matches, or 0 under WNOHANG when children match but
    none is a zombie, and otherwise sleeps on its own table entry. *)
Theorem wait4_spec s me pm pid w options :
  table_inv s None → procs s !! me = Some pm → live pm →
  ∃ e s', wait4 me pid w options s = Ret (e, s') ∧ wait_post s me pm pid w options e s'.
Proof. apply wait4_run. Qed.

(** fork returns EAGAIN on a full table, or takes one unused slot: on
    success the child there is RUNNABLE with a fresh pid and the caller as
    parent, on memory failure the slot is unused again; no other slot changes. *)
Theorem fork_spec s me p :
  table_inv s None → next_pid s < 2 ^ 31 - 1 → procs s !! me = Some p → live p →
  (fork me s = Panic out_of_memory ∧ starved) ∨
  ∃ r s', fork me s = Ret (r, s') ∧ table_inv s' None ∧ cpus s' = cpus s ∧
    ((r = - EAGAIN ∧ s' = s) ∨
     ∃ np q q', procs s !! np = Some q ∧ p_state q = UNUSED ∧ procs s' !! np = Some q' ∧
       (∀ j, j ≠ np → procs s' !! j = procs s !! j) ∧
       (r = - ENOMEM ∧ p_state q' = UNUSED ∨
        r = next_pid s ∧ p_state q' = RUNNABLE ∧ p_parent q' = Some me ∧ p_pid q' = r)).
Proof. apply fork_run. Qed.

(** kill leaves its target asleep unless it sleeps on its own table entry. *)
Theorem kill_leaves_sleeper s me i p pid sig :
  table_inv s None → procs s !! i = Some p → p_pid p = pid → p_state p = SLEEPING → p_chan p ≠ Cproc i →
  0 < sig < NSIG →
  ∃ s' p', kill me pid sig s = Ret (0, s') ∧ procs s' !! i = Some p' ∧ p_state p' = SLEEPING ∧
    p_sig_pending p' = Z.lor (p_sig_pending p) (u64 (Z.shiftl 1 (sig - 1))).
Proof.
  intros HI Hi Hpid Hsl Hch Hsig.
  destruct (kill_run s me pid sig HI) as (r & s' & Hrun & _ & _ & [(_ & ? & _)|[(_ & Hno & _)|(-> & j & q & Hj & Hq & Hu & Hres)]]); [lia| |].
  { exfalso. rewrite (Hno i p Hi Hpid) in Hsl. done. }
  assert (j = i) as ->.
  { destruct (decide (j = i)); [done|]. destruct (ti_uniq _ _ HI j i q p); [done..|by rewrite Hsl|congruence]. }
  assert (q = p) as -> by congruence. destruct Hres as [[? _]| ->]; [lia|].
  exists (kill_state s me i p sig), (posted sig p). split; [done|]. split; [|by split].
  unfold kill_state. rewrite decide_True by done. change (procs (set_procs ?l ?x)) with l.
  rewrite list_lookup_imap, (pput_lookup s i _ p Hi). simpl. f_equal. unfold woken.
  change (p_chan (posted sig p)) with (p_chan p). rewrite (bool_decide_eq_false_2 (p_chan p = Cproc i)) by done.
  by rewrite andb_false_r.
Qed.
End proc.

(** ** Memory that may stop

    The memory and file code behind [ProcMem] may itself panic.  A call that
    is not stopped by it runs as with memory whose operations all return. *)

Section partial.
Context {M : Type} {PM : ProcMem M}.
Abbreviation st := (ptable M).

(** [h] is how an operation of the memory, file or terminal code stops. *)
Inductive mem_stops (h : stop) : Prop :=
  | ms_kalloc m : halts (pm_kalloc m) = Some h → mem_stops h
  | ms_kfree p m : halts (pm_kfree p m) = Some h → mem_stops h
  | ms_uvmcreate m : halts (pm_uvmcreate m) = Some h → mem_stops h
  | ms_uvmfree p m : halts (pm_uvmfree p m) = Some h → mem_stops h
  | ms_uvmcopy p q m : halts (pm_uvmcopy p q m) = Some h → mem_stops h
  | ms_uvmdealloc p a n m : halts (pm_uvmdealloc p a n m) = Some h → mem_stops h
  | ms_kmalloc m : halts (pm_kmalloc m) = Some h → mem_stops h
  | ms_kmfree p m : halts (pm_kmfree p m) = Some h → mem_stops h
  | ms_copyout p a x m : halts (pm_copyout p a x m) = Some h → mem_stops h
  | ms_dup_files p q m : halts (pm_dup_files p q m) = Some h → mem_stops h
  | ms_close_files p m : halts (pm_close_files p m) = Some h → mem_stops h
  | ms_unmap_areas p m : halts (pm_unmap_areas p m) = Some h → mem_stops h
  | ms_forget_terminal p m : halts (pm_forget_terminal p m) = Some h → mem_stops h
  | ms_load_init p c t m : halts (pm_load_init p c t m) = Some h → mem_stops h
  | ms_open_std m : halts (pm_open_std m) = Some h → mem_stops h.
#[local] Hint Constructors mem_stops : agree.
#[local] Hint Extern 1 (agrees _ (on_mem _) _) => apply agrees_zoom; intros ? ? ?; eauto with agree nocore : agree.

(** The same memory with every operation returning. *)
Definition total_mem : ProcMem M := {|
  pm_kalloc := tot 1 pm_kalloc; pm_kfree p := tot tt (pm_kfree p); pm_uvmcreate := tot 1 pm_uvmcreate;
  pm_uvmfree p := tot tt (pm_uvmfree p); pm_uvmcopy p q := tot 0 (pm_uvmcopy p q);
  pm_uvmdealloc p a n := tot 0 (pm_uvmdealloc p a n); pm_kmalloc := tot 1 pm_kmalloc; pm_kmfree p := tot tt (pm_kmfree p);
  pm_copyout p a x := tot 0 (pm_copyout p a x); pm_dup_files p q := tot tt (pm_dup_files p q);
  pm_close_files p := tot tt (pm_close_files p); pm_unmap_areas p := tot tt (pm_unmap_areas p);
  pm_forget_terminal p := tot tt (pm_forget_terminal p); pm_load_init p c t := tot tt (pm_load_init p c t);
  pm_open_std := tot (0, 0, 0) pm_open_std |}.

Lemma total_laws : @ProcMemTotal M total_mem.
Proof. split; intros s; split_and!; intros; first [apply tot_unit|apply tot_val]. Qed.

Lemma total_starved : @starved M total_mem → starved.
Proof. intros (m & m' & [E|[E|E]]); apply tot_inv in E; try done; exists m, m'; auto. Qed.

(** Every routine agrees with itself over [total_mem]. *)
Lemma alloc_agrees : agrees mem_stops alloc_process (alloc_process (PM := total_mem)).
Proof. unfold alloc_process. agree. Qed.
Lemma freeproc_agrees i : agrees mem_stops (freeproc i) (freeproc (PM := total_mem) i).
Proof. unfold freeproc. agree. Qed.
#[local] Hint Resolve alloc_agrees freeproc_agrees : agree.
Lemma fork_agrees i : agrees mem_stops (fork i) (fork (PM := total_mem) i).
Proof. unfold fork. agree. Qed.
Lemma exit_agrees i code : agrees mem_stops (exit i code) (exit (PM := total_mem) i code).
Proof. unfold exit, exit_wake, exit_zombie. agree. Qed.
Lemma reap_agrees i j w : agrees mem_stops (reap i j w) (reap (PM := total_mem) i j w).
Proof. unfold reap. agree. Qed.
#[local] Hint Resolve fork_agrees exit_agrees reap_agrees : agree.
Lemma wait_scan_agrees i pid w l h : agrees mem_stops (wait_scan i pid w l h) (wait_scan (PM := total_mem) i pid w l h).
Proof. revert h. induction l as [|j l IH]; intros h; cbn [wait_scan]; agree. Qed.
#[local] Hint Resolve wait_scan_agrees : agree.
Lemma wait_round_agrees i pid w o : agrees mem_stops (wait_round i pid w o) (wait_round (PM := total_mem) i pid w o).
Proof. unfold wait_round. agree. Qed.
#[local] Hint Resolve wait_round_agrees : agree.
Lemma brk_agrees i a : agrees mem_stops (brk i a) (brk (PM := total_mem) i a).
Proof. unfold brk. agree. Qed.
#[local] Hint Resolve brk_agrees : agree.
Lemma run_call_agrees c i k : agrees mem_stops (run_call c i k) (run_call (PM := total_mem) c i k).
Proof. destruct k; unfold run_call, wait4; agree. Qed.
Lemma run_resume_agrees c i r : agrees mem_stops (run_resume c i r) (run_resume (PM := total_mem) c i r).
Proof. destruct r; unfold run_resume, wait4_resume; agree. Qed.
#[local] Hint Resolve run_call_agrees run_resume_agrees : agree.
Lemma kstep_agrees e : agrees mem_stops (kstep e) (kstep (PM := total_mem) e).
Proof. destruct e; unfold kstep; agree. Qed.
Lemma boot_agrees : agrees mem_stops boot (boot (PM := total_mem)).
Proof. unfold boot, user_init. agree. Qed.

Lemma kreach_inv m s : kreach m s → kinv s.
Proof.
  intros Hr. apply (kreach_total (PM := total_mem) (PT := total_laws) m). induction Hr as [s Hb|s e s' _ IH He Hs].
  - apply reach_boot. exact (agrees_Ret _ _ _ _ _ boot_agrees Hb).
  - apply (reach_step m s e s' IH He). exact (agrees_Ret _ _ _ _ _ (kstep_agrees e) Hs).
Qed.

(** * Theorems *)

(** C4: In every state reached from boot by scheduler switches and calls of
    fork, exit, wait4, kill, wakeup, sleep, yield and brk, by any process,
    init included, and whatever the memory and file code behind them does: no
    process is on two CPUs, a process is RUNNING exactly when a CPU has it,
    pids of used slots differ, every recorded parent is a live process or init
    (which alone may be dead with children), the slot of init is in use and
    has no parent, and no process lock is left held. fork is taken only while
    the pid counter, a C int, can still be incremented. *)
Theorem process_table_invariant m s :
  kreach m s →
  (∀ c c' i, cpus s !! c = Some (Some i) → cpus s !! c' = Some (Some i) → c = c') ∧
  (∀ i p, procs s !! i = Some p → p_state p = RUNNING ↔ ∃ c, cpus s !! c = Some (Some i)) ∧
  (∀ i j p q, procs s !! i = Some p → procs s !! j = Some q → p_state p ≠ UNUSED → p_state q ≠ UNUSED →
     p_pid p = p_pid q → i = j) ∧
  (∀ i p q, procs s !! i = Some p → p_parent p = Some q → ∃ pq, procs s !! q = Some pq ∧ (live pq ∨ q = 0%nat)) ∧
  (∃ p, procs s !! 0%nat = Some p ∧ p_state p ≠ UNUSED ∧ p_parent p = None) ∧
  (∀ i p, procs s !! i = Some p → p_locked p = false).
Proof.
  intros [HI HS]%kreach_inv. split_and!.
  - apply (si_one _ HS).
  - intros i p Hi. split.
    + intros Hr. apply (si_all _ HS). by exists p.
    + intros (c & Hc). destruct (si_run _ HS c i Hc) as (q & Hq & Hr). congruence.
  - intros i j p q Hi Hj Hp Hq Heq. destruct (decide (i = j)); [done|]. by destruct (ti_uniq _ _ HI i j p q).
  - apply (ti_parent _ _ HI).
  - apply HI.
  - intros i p. by apply inv_unlocked.
Qed.

(** C25: In every reached state each call of the process on a CPU and each
    switch of the scheduler runs to its end and reaches a state again: no lock
    is taken twice or released unheld, and none of the four checks of sched
    panics. The exceptions are a stop inside the memory, file or terminal code
    the call uses, and the panic of alloc_process in fork, which needs an
    allocation that returned 0. fork is taken only while the pid counter can
    be incremented. *)
Theorem process_calls_safe m s e :
  kreach m s → enabled e s →
  (∃ s', kstep e s = Ret (tt, s') ∧ kreach m s') ∨
  (∃ h, halts (kstep e s) = Some h ∧ mem_stops h) ∨
  ∃ c, e = Ecall c Kfork ∧ kstep e s = Panic out_of_memory ∧ starved.
Proof.
  intros Hs He. destruct (kstep_agrees e s) as [Heq|?]; [|by right; left]. rewrite Heq.
  destruct (kstep_run (PM := total_mem) (PT := total_laws) s e (kreach_inv m s Hs) He) as [(s' & Hr & _)|(c & Hc & Hp & Hst)].
  - left. exists s'. split; [done|]. apply (reach_step m s e s' Hs He). by rewrite Heq.
  - right. right. exists c. split_and!; [done|done|by apply total_starved].
Qed.
End partial.

(** * Witnesses *)

(** A memory whose allocations never fail: the next address. *)
#[local] Instance demo_mem : ProcMem Z := {|
  pm_kalloc := λ n, Ret (n, n + 4096); pm_kfree := λ _ n, Ret (tt, n); pm_uvmcreate := λ n, Ret (n, n + 4096);
  pm_uvmfree := λ _ n, Ret (tt, n); pm_uvmcopy := λ _ _ n, Ret (0, n); pm_uvmdealloc := λ _ _ _ n, Ret (0, n);
  pm_kmalloc := λ n, Ret (n, n + 64); pm_kmfree := λ _ n, Ret (tt, n); pm_copyout := λ _ _ _ n, Ret (0, n);
  pm_dup_files := λ _ _ n, Ret (tt, n); pm_close_files := λ _ n, Ret (tt, n); pm_unmap_areas := λ _ n, Ret (tt, n);
  pm_forget_terminal := λ _ n, Ret (tt, n); pm_load_init := λ _ _ _ n, Ret (tt, n); pm_open_std := λ n, Ret ((0, 1, 2), n) |}.
#[local] Instance demo_total : ProcMemTotal Z.
Proof. split; intros s; split_and!; intros; by repeat eexists. Qed.

Definition demo_state (o : outcome (unit * ptable Z)) : ptable Z := match o with Ret (_, s) => s | _ => zero_table 0 end.
Definition demo_boot : ptable Z := demo_state (boot (zero_table 4096)).
(** init runs on CPU 0 and has forked. *)
Definition demo_init : ptable Z := demo_state (kstep (Epick 0 0 Ryield) demo_boot).
Definition demo_forked : ptable Z := demo_state (kstep (Ecall 0 Kfork) demo_init).
(** The child runs on CPU 1. *)
Definition demo_two : ptable Z := demo_state (kstep (Epick 1 1 Ryield) demo_forked).
(** init sleeps on a terminal's buffer. *)
Definition demo_asleep : ptable Z := demo_state (kstep (Ecall 0 (Ksleep (Caddr 0x5000))) demo_two).

Lemma demo_two_reach : kreach 4096 demo_two.
Proof.
  eapply (reach_step _ demo_forked (Epick 1 1 Ryield)); [|split; [reflexivity|unfold NPROC; lia]|by vm_compute].
  eapply (reach_step _ demo_init (Ecall 0 Kfork)); [|exists 0%nat; split_and!; [reflexivity|by vm_compute]|by vm_compute].
  eapply (reach_step _ demo_boot (Epick 0 0 Ryield)); [|split; [reflexivity|unfold NPROC; lia]|by vm_compute].
  apply reach_boot. by vm_compute.
Defined.

Lemma demo_asleep_reach : kreach 4096 demo_asleep.
Proof.
  eapply (reach_step _ demo_two (Ecall 0 (Ksleep (Caddr 0x5000)))); [exact demo_two_reach| |by vm_compute].
  exists 0%nat. split_and!; [reflexivity|done].
Defined.

Lemma process_table_invariant_witness :
  kreach 4096 demo_two ∧ ∀ c c' i, cpus demo_two !! c = Some (Some i) → cpus demo_two !! c' = Some (Some i) → c = c'.
Proof. exact (conj demo_two_reach (proj1 (process_table_invariant 4096 demo_two demo_two_reach))). Defined.

Lemma process_calls_safe_witness :
  (∃ s', kstep (Ecall 0 (Kexit 7)) demo_two = Ret (tt, s') ∧ kreach 4096 s') ∨
  (∃ h, halts (kstep (Ecall 0 (Kexit 7)) demo_two) = Some h ∧ mem_stops h) ∨
  ∃ c, Ecall 0 (Kexit 7) = Ecall c Kfork ∧ kstep (Ecall 0 (Kexit 7)) demo_two = Panic out_of_memory ∧ starved.
Proof.
  apply (process_calls_safe 4096 demo_two (Ecall 0 (Kexit 7)) demo_two_reach).
  exists 0%nat. split_and!; [reflexivity|done].
Defined.

Definition demo_proc (s : ptable Z) (i : nat) : process := default zero_proc (procs s !! i).

Lemma wait4_spec_witness :
  ∃ e s', wait4 0 (-1) 0 0 demo_two = Ret (e, s') ∧ wait_post demo_two 0 (demo_proc demo_two 0) (-1) 0 0 e s'.
Proof.
  apply wait4_spec; [exact (proj1 (kreach_inv 4096 _ demo_two_reach))|by vm_compute|split; by vm_compute].
Defined.

Lemma fork_spec_witness :
  (fork 1 demo_two = Panic out_of_memory ∧ starved) ∨
  ∃ r s', fork 1 demo_two = Ret (r, s') ∧ table_inv s' None ∧ cpus s' = cpus demo_two ∧
    ((r = - EAGAIN ∧ s' = demo_two) ∨
     ∃ np q q', procs demo_two !! np = Some q ∧ p_state q = UNUSED ∧ procs s' !! np = Some q' ∧
       (∀ j, j ≠ np → procs s' !! j = procs demo_two !! j) ∧
       (r = - ENOMEM ∧ p_state q' = UNUSED ∨
        r = next_pid demo_two ∧ p_state q' = RUNNABLE ∧ p_parent q' = Some 1%nat ∧ p_pid q' = r)).
Proof.
  apply (fork_spec demo_two 1 (demo_proc demo_two 1));
    [exact (proj1 (kreach_inv 4096 _ demo_two_reach))|by vm_compute|by vm_compute|split; by vm_compute].
Defined.

Lemma kill_leaves_sleeper_witness :
  ∃ s' p', kill 1 1 9 demo_asleep = Ret (0, s') ∧ procs s' !! 0%nat = Some p' ∧ p_state p' = SLEEPING ∧
    p_sig_pending p' = Z.lor (p_sig_pending (demo_proc demo_asleep 0)) (u64 (Z.shiftl 1 (9 - 1))).
Proof.
  apply (kill_leaves_sleeper demo_asleep 1 0 (demo_proc demo_asleep 0));
    [exact (proj1 (kreach_inv 4096 _ demo_asleep_reach))|by vm_compute|by vm_compute|by vm_compute|by vm_compute|unfold NSIG; lia].
Defined.

(** exit wakes the parent before it becomes a zombie: wait4 in between sleeps for good. *)
Definition lost_wakeup : K (ptable Z) unit :=
  exit_wake 1 ;; e ← wait4 0 (-1) 0 0; wait_out 0 e ;; exit_zombie 1 7 ;; sched_out 1.
Definition demo_lost : ptable Z := demo_state (lost_wakeup demo_two).

(** C38: exit wakes the parent before it becomes a zombie: in a state reached
    from boot, a wait4 of the parent that runs in between sleeps while its
    child is a zombie, and no process is left that can run. *)
Theorem exit_wait_lost_wakeup :
  kreach 4096 demo_two ∧ lost_wakeup demo_two = Ret (tt, demo_lost) ∧
  p_state (demo_proc demo_lost 1) = ZOMBIE ∧ p_parent (demo_proc demo_lost 1) = Some 0%nat ∧
  p_state (demo_proc demo_lost 0) = SLEEPING ∧ p_chan (demo_proc demo_lost 0) = Cproc 0 ∧
  Forall (λ p, p_state p ≠ RUNNABLE ∧ p_state p ≠ RUNNING) (procs demo_lost).
Proof.
  split; [exact demo_two_reach|]. split_and!; try by vm_compute.
  apply (bool_decide_unpack _). by vm_compute.
Qed.

(** init exits like any other process: its child then has a zombie for a
    parent, which nobody can reap. *)
Definition demo_init_gone : ptable Z := demo_state (kstep (Ecall 0 (Kexit 0)) demo_two).

Theorem init_exit_leaves_orphan :
  kreach 4096 demo_init_gone ∧ p_state (demo_proc demo_init_gone 0) = ZOMBIE ∧
  p_state (demo_proc demo_init_gone 1) = RUNNING ∧ p_parent (demo_proc demo_init_gone 1) = Some 0%nat.
Proof.
  split; [|split_and!; by vm_compute].
  apply (reach_step _ demo_two (Ecall 0 (Kexit 0))); [exact demo_two_reach| |by vm_compute].
  exists 0%nat. split_and!; [reflexivity|done].
Qed.
