(* ===== verification/Spinlock.v ===== *)
(** kernel/core/spinlock.c: spin locks shared by the CPUs, and the nesting of
    interrupt disabling.

    The other files treat a lock as a boolean that [Prelude.acquire] raises; here
    acquire and release are the sequences of memory accesses they are, and CPUs
    interleave between them.  [pc] says where a CPU is inside one of them and
    [own] which locks it is inside of; both are bookkeeping, no operation reads
    them.  [holding] reads two fields, but only CPU [c] ever stores [c] in the
    second, so that no other CPU changes its answer. *)
From stdpp Require Import functions.
From S2P Require Import Prelude.

Record lcpu := mk_lcpu { noff : Z; intena : bool; irq : bool }.
Record spinlock := mk_spinlock { locked : Z; lk_cpu : option nat }.

Inductive pc := Idle | Spinning (l : nat) | Taken (l : nat) | Dropping (l : nat).
#[global] Instance pc_eq_dec : EqDecision pc.
Proof. solve_decision. Defined.

Record machine := mk_machine {
  lcpus : nat → lcpu;
  locks : nat → spinlock;
  pcs : nat → pc;
  own : nat → list nat
}.

Definition set_cpu (c : nat) (x : lcpu) (s : machine) : machine := mk_machine (<[c := x]> (lcpus s)) (locks s) (pcs s) (own s).
Definition set_lock (l : nat) (x : spinlock) (s : machine) : machine := mk_machine (lcpus s) (<[l := x]> (locks s)) (pcs s) (own s).
Definition set_pc (c : nat) (x : pc) (s : machine) : machine := mk_machine (lcpus s) (locks s) (<[c := x]> (pcs s)) (own s).
Definition set_own (c : nat) (x : list nat) (s : machine) : machine := mk_machine (lcpus s) (locks s) (pcs s) (<[c := x]> (own s)).

(** ** Interrupt nesting *)

(** arch_irq_save: the flag as it was, and interrupts off. *)
Definition irq_save (c : nat) : K machine bool := λ s,
  let x := lcpus s c in Ret (irq x, set_cpu c (mk_lcpu (noff x) (intena x) false) s).

Definition push_off (c : nat) : K machine unit :=
  old ← irq_save c;
  modify (λ s, let x := lcpus s c in
    set_cpu c (mk_lcpu (i32 (noff x + 1)) (if decide (noff x = 0) then old else intena x) (irq x)) s).

Definition pop_off (c : nat) : K machine unit :=
  x ← gets (λ s, lcpus s c);
  if irq x then kpanic "pop_off: interrupt enabled" else
  if decide (noff x < 1) then kpanic "pop_off" else
  modify (set_cpu c (mk_lcpu (noff x - 1) (intena x) (irq x))) ;;
  if decide (noff x - 1 = 0) then
    if intena x then modify (set_cpu c (mk_lcpu (noff x - 1) (intena x) true)) else mret tt
  else mret tt.

(** ** Locks *)

Definition initlock (l : nat) : K machine unit := modify (set_lock l (mk_spinlock 0 None)).

Definition holding (c l : nat) : K machine bool :=
  push_off c ;;
  k ← gets (λ s, locks s l);
  let r := bool_decide (locked k ≠ 0) && bool_decide (lk_cpu k = Some c) in
  pop_off c ;;
  mret r.

(** acquire up to its loop. *)
Definition acquire_enter (c l : nat) : K machine unit :=
  push_off c ;;
  h ← holding c l;
  if h : bool then kpanic "acquire: already holding lock" else modify (set_pc c (Spinning l)).

(** One __sync_lock_test_and_set of the loop. *)
Definition acquire_try (c l : nat) : K machine unit :=
  k ← gets (λ s, locks s l);
  modify (set_lock l (mk_spinlock 1 (lk_cpu k))) ;;
  if decide (locked k ≠ 0) then mret tt else modify (set_pc c (Taken l)).

(** The store after the loop. *)
Definition acquire_done (c l : nat) : K machine unit :=
  k ← gets (λ s, locks s l);
  modify (set_lock l (mk_spinlock (locked k) (Some c))) ;;
  modify (set_pc c Idle) ;;
  modify (λ s, set_own c (l :: own s c) s).

(** release up to the store of the owner, and the rest. *)
Definition release_enter (c l : nat) : K machine unit :=
  h ← holding c l;
  if negb h then kpanic "release: not holding lock" else
  k ← gets (λ s, locks s l);
  modify (set_lock l (mk_spinlock (locked k) None)) ;;
  modify (λ s, set_own c (filter (.≠ l) (own s c)) s) ;;
  modify (set_pc c (Dropping l)).

Definition release_done (c l : nat) : K machine unit :=
  k ← gets (λ s, locks s l);
  modify (set_lock l (mk_spinlock 0 (lk_cpu k))) ;;
  pop_off c ;;
  modify (set_pc c Idle).

(** ** Interleavings *)

Inductive lock_event :=
  | Lenter (c l : nat) | Ltry (c : nat) | Ldone (c : nat) | Lrelease (c l : nat) | Lreldone (c : nat) | Lirq (c : nat) (b : bool).

Definition lock_step (e : lock_event) : K machine unit :=
  match e with
  | Lenter c l => acquire_enter c l
  | Ltry c => p ← gets (λ s, pcs s c); match p with Spinning l => acquire_try c l | _ => mret tt end
  | Ldone c => p ← gets (λ s, pcs s c); match p with Taken l => acquire_done c l | _ => mret tt end
  | Lrelease c l => release_enter c l
  | Lreldone c => p ← gets (λ s, pcs s c); match p with Dropping l => release_done c l | _ => mret tt end
  | Lirq c b => modify (λ s, set_cpu c (mk_lcpu (noff (lcpus s c)) (intena (lcpus s c)) b) s)
  end.

(** The use the kernel makes of locks: a CPU takes a lock it is not inside of,
    releases one it is, and turns its interrupts on or off only outside. *)
Definition lock_enabled (e : lock_event) (s : machine) : Prop :=
  match e with
  | Lenter c l => pcs s c = Idle ∧ (l ∉ own s c) ∧ noff (lcpus s c) < 2 ^ 31 - 2
  | Lrelease c l => pcs s c = Idle ∧ (l ∈ own s c) ∧ noff (lcpus s c) < 2 ^ 31 - 1
  | Lirq c _ => pcs s c = Idle ∧ noff (lcpus s c) = 0
  | _ => True
  end.

Fixpoint lock_run (es : list lock_event) : K machine unit :=
  match es with [] => mret tt | e :: es => lock_step e ;; lock_run es end.

(** CPU [c] is between the test-and-set that took [l] and the store that frees it. *)
Definition inside (s : machine) (c l : nat) : Prop := l ∈ own s c ∨ pcs s c = Taken l ∨ pcs s c = Dropping l.

Definition depth (s : machine) (c : nat) : Z := Z.of_nat (length (own s c)) + (if decide (pcs s c = Idle) then 0 else 1).

Record lock_inv (s : machine) : Prop := {
  li_noff c : noff (lcpus s c) = depth s c;
  li_irq c : 0 < noff (lcpus s c) → irq (lcpus s c) = false;
  li_locked l : locked (locks s l) ≠ 0 ↔ ∃ c, inside s c l;
  li_one l c c' : inside s c l → inside s c' l → c = c';
  li_owner l c : lk_cpu (locks s l) = Some c ↔ l ∈ own s c;
  li_nodup c : NoDup (own s c);
  li_pc c l : pcs s c = Spinning l ∨ pcs s c = Taken l ∨ pcs s c = Dropping l → l ∉ own s c
}.

Inductive lock_reach : machine → Prop :=
  | lock_boot b : lock_reach (mk_machine (λ c, mk_lcpu 0 false (b c)) (λ _, mk_spinlock 0 None) (λ _, Idle) (λ _, []))
  | lock_next s e s' : lock_reach s → lock_enabled e s → lock_step e s = Ret (tt, s') → lock_reach s'.

(** * Lemmas *)

(** Machines that differ at most in CPU [c] and lock [l]. *)
Record changed_at (c l : nat) (s s' : machine) : Prop := {
  ch_cpu c' : c' ≠ c → lcpus s' c' = lcpus s c';
  ch_pc c' : c' ≠ c → pcs s' c' = pcs s c';
  ch_own c' : c' ≠ c → own s' c' = own s c';
  ch_lock l' : l' ≠ l → locks s' l' = locks s l'
}.

Lemma inside_other c l s s' c' l' : changed_at c l s s' → c' ≠ c → inside s' c' l' ↔ inside s c' l'.
Proof. intros Hch Hc. unfold inside. by rewrite (ch_own _ _ _ _ Hch), (ch_pc _ _ _ _ Hch). Qed.

Lemma inv_local c l s s' :
  lock_inv s → changed_at c l s s' →
  noff (lcpus s' c) = depth s' c → (0 < noff (lcpus s' c) → irq (lcpus s' c) = false) → NoDup (own s' c) →
  (∀ l', pcs s' c = Spinning l' ∨ pcs s' c = Taken l' ∨ pcs s' c = Dropping l' → l' ∉ own s' c) →
  (∀ l', l' ≠ l → (inside s' c l' ↔ inside s c l') ∧ (l' ∈ own s' c ↔ l' ∈ own s c)) →
  (locked (locks s' l) ≠ 0 ↔ ∃ c', inside s' c' l) → (∀ c1 c2, inside s' c1 l → inside s' c2 l → c1 = c2) →
  (∀ c', lk_cpu (locks s' l) = Some c' ↔ l ∈ own s' c') → lock_inv s'.
Proof.
  intros HI Hch Hn Hirq Hnd Hpc Hin Hlk Hone Hown.
  assert (Hins : ∀ c' l', l' ≠ l → inside s' c' l' ↔ inside s c' l').
  { intros c' l' Hl. destruct (decide (c' = c)) as [->|Hc]; [by apply Hin|by eapply inside_other]. }
  split.
  - intros c'. destruct (decide (c' = c)) as [->|Hc]; [done|].
    unfold depth. rewrite (ch_cpu _ _ _ _ Hch), (ch_own _ _ _ _ Hch), (ch_pc _ _ _ _ Hch) by done. apply (li_noff _ HI).
  - intros c'. destruct (decide (c' = c)) as [->|Hc]; [done|]. rewrite (ch_cpu _ _ _ _ Hch) by done. apply (li_irq _ HI).
  - intros l'. destruct (decide (l' = l)) as [->|Hl]; [done|]. rewrite (ch_lock _ _ _ _ Hch), (li_locked _ HI) by done.
    split; intros (c' & Hc'); exists c'; by apply (Hins c' l' Hl).
  - intros l' c1 c2. destruct (decide (l' = l)) as [->|Hl]; [apply Hone|]. rewrite !Hins by done. apply (li_one _ HI).
  - intros l' c'. destruct (decide (l' = l)) as [->|Hl]; [done|]. rewrite (ch_lock _ _ _ _ Hch), (li_owner _ HI) by done.
    destruct (decide (c' = c)) as [->|Hc]; [symmetry; by apply Hin|]. by rewrite (ch_own _ _ _ _ Hch).
  - intros c'. destruct (decide (c' = c)) as [->|Hc]; [done|]. rewrite (ch_own _ _ _ _ Hch) by done. apply (li_nodup _ HI).
  - intros c' l'. destruct (decide (c' = c)) as [->|Hc]; [apply Hpc|].
    rewrite (ch_own _ _ _ _ Hch), (ch_pc _ _ _ _ Hch) by done. apply (li_pc _ HI).
Qed.

Ltac fn := rewrite ?fn_lookup_insert, ?fn_lookup_insert_ne by (congruence || done).

(** CPU [c] is in state [x], everything else as in [s]. *)
Definition at_cpu (c : nat) (x : lcpu) (s s' : machine) : Prop :=
  lcpus s' c = x ∧ (∀ c', c' ≠ c → lcpus s' c' = lcpus s c') ∧ locks s' = locks s ∧ pcs s' = pcs s ∧ own s' = own s.

Lemma push_run c s :
  noff (lcpus s c) < 2 ^ 31 - 1 → 0 ≤ noff (lcpus s c) →
  ∃ s', push_off c s = Ret (tt, s') ∧
    at_cpu c (mk_lcpu (noff (lcpus s c) + 1) (if decide (noff (lcpus s c) = 0) then irq (lcpus s c) else intena (lcpus s c)) false) s s'.
Proof.
  intros Hn H0. eexists. split; [done|]. split_and!; simpl; [|intros c' Hc; by fn|done..].
  fn. simpl. rewrite i32_small by lia. done.
Qed.

Lemma pop_run c s x :
  lcpus s c = x → 1 ≤ noff x → irq x = false →
  ∃ s', pop_off c s = Ret (tt, s') ∧
    at_cpu c (mk_lcpu (noff x - 1) (intena x) (if decide (noff x = 1) then intena x else false)) s s'.
Proof.
  intros <- Hn Hi. unfold pop_off, gets, modify, mbind, K_bind. rewrite Hi, decide_False by lia.
  destruct (decide (noff (lcpus s c) - 1 = 0)) as [H1|H1]; [rewrite decide_True by lia|rewrite decide_False by lia].
  - destruct (intena (lcpus s c)); (eexists; split; [done|]); (split_and!; simpl; [by fn|intros c' Hc; by fn|done..]).
  - eexists. split; [done|]. split_and!; simpl; [by fn|intros c' Hc; by fn|done..].
Qed.

(** The answer of holding, and the CPU left as it was but for a stale [intena]. *)
Lemma holding_run c l s :
  0 ≤ noff (lcpus s c) < 2 ^ 31 - 1 → (0 < noff (lcpus s c) → irq (lcpus s c) = false) →
  ∃ s' b, holding c l s = Ret (bool_decide (locked (locks s l) ≠ 0) && bool_decide (lk_cpu (locks s l) = Some c), s') ∧
    at_cpu c (mk_lcpu (noff (lcpus s c)) b (irq (lcpus s c))) s s' ∧ (0 < noff (lcpus s c) → b = intena (lcpus s c)).
Proof.
  intros Hn Hi. destruct (push_run c s) as (s1 & Hp & Hc1 & Ho1 & Hl1 & Hpc1 & Hown1); [lia..|].
  unfold holding. rewrite (bind_Ret _ _ _ _ _ Hp). unfold gets. unfold mbind at 1, K_bind at 1. rewrite Hl1.
  destruct (pop_run c s1 _ Hc1) as (s2 & Hq & Hc2 & Ho2 & Hl2 & Hpc2 & Hown2); [simpl; lia|done|].
  rewrite (bind_Ret _ _ _ _ _ Hq). simpl in Hc2. eexists s2, _. split; [done|]. split; [split_and!; try congruence|].
  - rewrite Hc2. f_equal; [lia|]. destruct (decide (noff (lcpus s c) = 0)) as [H0|H0].
    + by rewrite decide_True by lia.
    + rewrite decide_False by lia. symmetry. apply Hi. lia.
  - intros c' Hc. rewrite Ho2, Ho1 by done. done.
  - intros H0. by rewrite decide_False by lia.
Qed.

Lemma depth_nonneg s c : 0 ≤ depth s c.
Proof. unfold depth. case_decide; lia. Qed.

(** Spinning on a lock changes what CPU [c] is doing, no lock. *)
Lemma enter_step c l s :
  lock_inv s → pcs s c = Idle → l ∉ own s c → noff (lcpus s c) < 2 ^ 31 - 2 →
  ∃ s', acquire_enter c l s = Ret (tt, s') ∧ lock_inv s' ∧ changed_at c l s s' ∧ 0 < noff (lcpus s' c) ∧
    intena (lcpus s' c) = (if decide (noff (lcpus s c) = 0) then irq (lcpus s c) else intena (lcpus s c)).
Proof.
  intros HI Hpc Hl Hn. pose proof (li_noff _ HI c) as Hd. pose proof (depth_nonneg s c) as H0.
  destruct (push_run c s) as (s1 & Hp & Hc1 & Ho1 & Hl1 & Hpc1 & Hown1); [lia..|].
  unfold acquire_enter. rewrite (bind_Ret _ _ _ _ _ Hp).
  destruct (holding_run c l s1) as (s2 & b & Hh & (Hc2 & Ho2 & Hl2 & Hpc2 & Hown2) & Hb); [rewrite Hc1; simpl; lia|by rewrite Hc1|].
  rewrite (bind_Ret _ _ _ _ _ Hh), Hl1.
  rewrite (bool_decide_eq_false_2 (lk_cpu _ = _)), andb_false_r by (by rewrite (li_owner _ HI)).
  rewrite Hc1 in Hc2, Hb. simpl in Hc2, Hb. specialize (Hb ltac:(lia)).
  eexists. split; [done|]. unfold set_pc. set (s3 := mk_machine _ _ _ _).
  assert (Hch : changed_at c l s s3) by (split; simpl; intros x Hx; fn; rewrite ?Ho2, ?Ho1 by done; congruence).
  assert (Hins : ∀ c' l', inside s3 c' l' ↔ inside s c' l').
  { intros c' l'. destruct (decide (c' = c)) as [->|Hne]; [|by apply (inside_other c l)].
    unfold inside. simpl. fn. rewrite Hown2, Hown1, Hpc. split; intros [?|[?|?]]; by left. }
  split; [|split; [done|]; simpl; rewrite Hc2; simpl; split; [lia|done]].
  apply (inv_local c l s); try done; simpl.
  - rewrite Hc2. unfold depth. simpl. fn. rewrite Hown2, Hown1. rewrite Hd. unfold depth. rewrite Hpc. simpl. lia.
  - by rewrite Hc2.
  - rewrite Hown2, Hown1. apply (li_nodup _ HI).
  - intros l'. fn. intros [[= <-]|[?|?]]; [|done..]. by rewrite Hown2, Hown1.
  - intros l' _. split; [apply Hins|]. by rewrite Hown2, Hown1.
  - rewrite Hl2, Hl1, (li_locked _ HI). split; intros (c' & Hc'); exists c'; by apply Hins.
  - intros c1 c2 H1%Hins H2%Hins. by apply (li_one _ HI l).
  - intros c'. rewrite Hl2, Hl1, Hown2, Hown1. apply (li_owner _ HI).
Qed.

Lemma try_step c l s :
  lock_inv s → pcs s c = Spinning l →
  ∃ s', acquire_try c l s = Ret (tt, s') ∧ lock_inv s' ∧ changed_at c l s s' ∧ lcpus s' c = lcpus s c.
Proof.
  intros HI Hpc. unfold acquire_try, gets, modify, mbind, K_bind. destruct (decide (locked (locks s l) ≠ 0)) as [Hk|Hk].
  - eexists. split; [done|]. unfold set_lock. set (s' := mk_machine _ _ _ _).
    assert (Hch : changed_at c l s s') by (split; simpl; intros x Hx; by fn). split; [|done].
    apply (inv_local c l s); try done; simpl.
    + apply (li_noff _ HI).
    + apply (li_irq _ HI).
    + apply (li_nodup _ HI).
    + apply (li_pc _ HI).
    + fn. simpl. split; [intros _; by apply (li_locked _ HI l)|done].
    + apply (li_one _ HI l).
    + intros c'. fn. apply (li_owner _ HI).
  - eexists. split; [done|]. unfold set_lock, set_pc. simpl. set (s' := mk_machine _ _ _ _).
    assert (Hch : changed_at c l s s') by (split; simpl; intros x Hx; by fn). split; [|done].
    assert (Hno : ∀ c', ¬ inside s c' l) by (intros c' Hc'; apply Hk; apply (li_locked _ HI); by exists c').
    assert (Hl : l ∉ own s c) by (intros ?; by destruct (Hno c); left).
    assert (Hin : ∀ c', inside s' c' l → c' = c).
    { intros c' Hc'. destruct (decide (c' = c)) as [->|Hne]; [done|]. destruct (Hno c'). by apply (inside_other c l s s'). }
    apply (inv_local c l s); try done; simpl.
    + rewrite (li_noff _ HI). unfold depth. simpl. fn. by rewrite Hpc.
    + apply (li_irq _ HI).
    + apply (li_nodup _ HI).
    + intros l'. fn. intros [?|[[= <-]|?]]; done.
    + intros l' Hl'. split; [|done]. unfold inside. simpl. fn. rewrite Hpc.
      split; (intros [?|[?|?]]; [by left| |done]); congruence.
    + fn. simpl. split; [|done]. intros _. exists c. right. left. simpl. by fn.
    + intros c1 c2 ->%Hin ->%Hin. done.
    + intros c'. fn. apply (li_owner _ HI).
Qed.

Lemma done_step c l s :
  lock_inv s → pcs s c = Taken l →
  ∃ s', acquire_done c l s = Ret (tt, s') ∧ lock_inv s' ∧ changed_at c l s s' ∧ lcpus s' c = lcpus s c.
Proof.
  intros HI Hpc. eexists. split; [done|]. unfold set_lock, set_pc, set_own. simpl. set (s' := mk_machine _ _ _ _).
  assert (Hch : changed_at c l s s') by (split; simpl; intros x Hx; by fn). split; [|done].
  assert (Hl : l ∉ own s c) by (apply (li_pc _ HI); right; by left).
  assert (Hin : ∀ c', inside s' c' l → c' = c).
  { intros c' Hc'. destruct (decide (c' = c)) as [->|Hne]; [done|]. apply (li_one _ HI l); [by apply (inside_other c l s s')|].
    right. by left. }
  apply (inv_local c l s); try done; simpl.
  - rewrite (li_noff _ HI). unfold depth. simpl. fn. rewrite Hpc. simpl. lia.
  - apply (li_irq _ HI).
  - fn. constructor; [done|apply (li_nodup _ HI)].
  - intros l'. fn. intros [?|[?|?]]; done.
  - intros l' Hl'. unfold inside. simpl. fn. rewrite Hpc, elem_of_cons. split; [|split; [intros [?|?]; done|by right]].
    split; [intros [[?|?]|[?|?]]; done || by left|intros [?|[?|?]]; [left; by right|congruence|done]].
  - fn. simpl. split; intros _; [exists c; left; simpl; fn; apply elem_of_cons; by left|].
    apply (li_locked _ HI). exists c. right. by left.
  - intros c1 c2 ->%Hin ->%Hin. done.
  - intros c'. fn. simpl. split; [intros [= <-]; fn; apply elem_of_cons; by left|].
    intros Hc'. f_equal. symmetry. apply Hin. left. done.
Qed.

Lemma release_step c l s :
  lock_inv s → pcs s c = Idle → l ∈ own s c → noff (lcpus s c) < 2 ^ 31 - 1 →
  ∃ s', release_enter c l s = Ret (tt, s') ∧ lock_inv s' ∧ changed_at c l s s' ∧
    0 < noff (lcpus s c) ∧ 0 < noff (lcpus s' c) ∧ intena (lcpus s' c) = intena (lcpus s c).
Proof.
  intros HI Hpc Hl Hn. pose proof (li_noff _ HI c) as Hd. pose proof (depth_nonneg s c) as H0.
  assert (Hlen : 0 < Z.of_nat (length (own s c))) by (destruct (own s c); [by apply elem_of_nil in Hl|simpl; lia]).
  assert (Hpos : 0 < noff (lcpus s c)) by (rewrite Hd; unfold depth; case_decide; lia).
  unfold release_enter. destruct (holding_run c l s) as (s1 & b & Hh & (Hc1 & Ho1 & Hl1 & Hpc1 & Hown1) & Hb); [lia|apply (li_irq _ HI)|].
  rewrite (bind_Ret _ _ _ _ _ Hh). assert (Hin : inside s c l) by (by left).
  rewrite bool_decide_eq_true_2 by (apply (li_locked _ HI); by exists c).
  rewrite bool_decide_eq_true_2 by (by apply (li_owner _ HI)). simpl.
  eexists. split; [done|]. unfold set_lock, set_pc, set_own. simpl. set (s' := mk_machine _ _ _ _).
  assert (Hch : changed_at c l s s') by (split; simpl; intros x Hx; fn; rewrite ?Ho1 by done; congruence).
  assert (Hin' : ∀ c', inside s' c' l → c' = c).
  { intros c' Hc'. destruct (decide (c' = c)) as [->|Hne]; [done|]. apply (li_one _ HI l); [by apply (inside_other c l s s')|done]. }
  assert (Hfl : length (filter (.≠ l) (own s c)) = (length (own s c) - 1)%nat).
  { pose proof (Permutation_length (filter_ne_perm l (own s c) (li_nodup _ HI c) Hl)) as Hp. simpl in Hp. lia. }
  split; [|split; [done|]; rewrite Hc1; simpl; split; [done|]; split; [done|by apply Hb]].
  apply (inv_local c l s); try done; simpl.
  - rewrite Hc1. simpl. rewrite Hd. unfold depth. simpl. fn. rewrite Hown1, Hfl, Hpc. simpl. lia.
  - rewrite Hc1. apply (li_irq _ HI).
  - fn. rewrite Hown1. apply NoDup_filter, (li_nodup _ HI).
  - intros l'. fn. intros [?|[?|[= <-]]]; [done..|]. rewrite list_elem_of_filter. by intros [? _].
  - intros l' Hl'. unfold inside. simpl. fn. rewrite Hown1, Hpc, list_elem_of_filter.
    split; [|split; [by intros [_ ?]|done]]. split; [intros [[_ ?]|[?|?]]; [by left|done|congruence]|].
    intros [?|[?|?]]; [by left|done..].
  - fn. simpl. rewrite Hl1. split; intros _; [exists c; right; right; simpl; by fn|].
    apply (li_locked _ HI). by exists c.
  - intros c1 c2 ->%Hin' ->%Hin'. done.
  - intros c'. fn. simpl. split; [done|]. intros Hc'. assert (c' = c) as -> by (apply Hin'; by left).
    revert Hc'. fn. rewrite list_elem_of_filter. by intros [? _].
Qed.

Lemma reldone_step c l s :
  lock_inv s → pcs s c = Dropping l →
  ∃ s', release_done c l s = Ret (tt, s') ∧ lock_inv s' ∧ changed_at c l s s' ∧
    0 < noff (lcpus s c) ∧ intena (lcpus s' c) = intena (lcpus s c) ∧
    (noff (lcpus s' c) = 0 → irq (lcpus s' c) = intena (lcpus s c)).
Proof.
  intros HI Hpc. pose proof (li_noff _ HI c) as Hd. pose proof (depth_nonneg s c) as H0.
  assert (Hpos : 1 ≤ noff (lcpus s c)) by (rewrite Hd; unfold depth; rewrite Hpc; simpl; lia).
  unfold release_done, gets, modify. unfold mbind at 1, K_bind at 1. unfold mbind at 1, K_bind at 1.
  set (s1 := set_lock l _ s). destruct (pop_run c s1 (lcpus s c) eq_refl Hpos) as (s2 & Hp & Hc2 & Ho2 & Hl2 & Hpc2 & Hown2);
    [apply (li_irq _ HI); lia|]. rewrite (bind_Ret _ _ _ _ _ Hp). eexists. split; [done|].
  unfold set_pc. set (s' := mk_machine _ _ _ _).
  assert (Hch : changed_at c l s s').
  { split; simpl; intros x Hx; fn; rewrite ?Ho2, ?Hpc2, ?Hown2, ?Hl2 by done; [done..|]. unfold s1. simpl. by fn. }
  assert (Hl : l ∉ own s c) by (apply (li_pc _ HI); right; by right).
  assert (Hno : ∀ c', ¬ inside s' c' l).
  { intros c' Hc'. destruct (decide (c' = c)) as [->|Hne].
    - destruct Hc' as [Hx|[Hx|Hx]]; simpl in Hx; revert Hx; fn; [|done..]. by rewrite Hown2.
    - apply Hne. apply (li_one _ HI l); [by apply (inside_other c l s s')|]. right. by right. }
  split; [|split; [done|]; simpl; rewrite Hc2; simpl; split_and!; [lia|done|]; intros; by rewrite decide_True by lia].
  apply (inv_local c l s); try done; simpl.
  - rewrite Hc2. simpl. rewrite Hd. unfold depth. simpl. fn. rewrite Hown2, Hpc. simpl. unfold s1. simpl. lia.
  - rewrite Hc2. simpl. intros. by rewrite decide_False by lia.
  - rewrite Hown2. apply (li_nodup _ HI).
  - intros l'. fn. intros [?|[?|?]]; done.
  - intros l' Hl'. unfold inside. simpl. fn. rewrite Hown2, Hpc. split; [|done]. unfold s1. simpl.
    split; (intros [?|[?|?]]; [by left|done|congruence]).
  - rewrite Hl2. unfold s1. simpl. fn. split; [done|]. by intros (c' & ?%Hno).
  - intros c1 c2 ?%Hno. done.
  - intros c'. rewrite Hl2. unfold s1. simpl. fn. simpl. rewrite Hown2. apply (li_owner _ HI).
Qed.

Lemma lock_step_run s e :
  lock_inv s → lock_enabled e s → ∃ s', lock_step e s = Ret (tt, s') ∧ lock_inv s'.
Proof.
  intros HI He. destruct e as [c l|c|c|c l|c|c b]; simpl in *.
  - destruct He as (Hpc & Hl & Hn). destruct (enter_step c l s HI Hpc Hl Hn) as (s' & ? & ? & _). by exists s'.
  - unfold gets, mbind, K_bind. destruct (pcs s c) as [|l|l|l] eqn:Hpc; [by exists s| |by exists s..].
    destruct (try_step c l s HI Hpc) as (s' & ? & ? & _). by exists s'.
  - unfold gets, mbind, K_bind. destruct (pcs s c) as [|l|l|l] eqn:Hpc; [by exists s..| |by exists s].
    destruct (done_step c l s HI Hpc) as (s' & ? & ? & _). by exists s'.
  - destruct He as (Hpc & Hl & Hn). destruct (release_step c l s HI Hpc Hl Hn) as (s' & ? & ? & _). by exists s'.
  - unfold gets, mbind, K_bind. destruct (pcs s c) as [|l|l|l] eqn:Hpc; [by exists s..|].
    destruct (reldone_step c l s HI Hpc) as (s' & ? & ? & _). by exists s'.
  - destruct He as (Hpc & Hn). eexists. split; [done|]. unfold set_cpu. set (s' := mk_machine _ _ _ _).
    assert (Hno : noff (lcpus s' c) = 0) by (simpl; by fn).
    assert (Hch : changed_at c 0 s s') by (split; simpl; intros x Hx; by fn).
    apply (inv_local c 0 s); try done; simpl.
    + fn. simpl. apply (li_noff _ HI).
    + fn. simpl. lia.
    + apply (li_nodup _ HI).
    + apply (li_pc _ HI).
    + apply (li_locked _ HI).
    + apply (li_one _ HI).
    + intros c'. apply (li_owner _ HI).
Qed.

Lemma lock_reach_inv s : lock_reach s → lock_inv s.
Proof.
  induction 1 as [b|s e s' _ IH He Hs].
  - split; simpl; try done.
    + intros l. split; [done|]. intros (c & [Hc|[Hc|Hc]]); simpl in Hc; [by apply elem_of_nil in Hc|done..].
    + intros l c c' [Hc|[Hc|Hc]]; simpl in Hc; [by apply elem_of_nil in Hc|done..].
    + intros l c. split; [done|]. by intros ?%elem_of_nil.
    + intros c. constructor.
    + intros c l _. apply not_elem_of_nil.
  - destruct (lock_step_run s e IH He) as (s2 & Hs2 & HI). congruence.
Qed.

(** What a step does to the interrupt state of CPU [c], when it is not a
    switch of [c]'s own interrupt flag. *)
Definition saved (b : bool) (s : machine) (c : nat) : Prop :=
  if decide (noff (lcpus s c) = 0) then irq (lcpus s c) = b else intena (lcpus s c) = b.

Lemma saved_step s e s' c b :
  lock_inv s → lock_enabled e s → lock_step e s = Ret (tt, s') → (∀ b', e ≠ Lirq c b') → saved b s c → saved b s' c.
Proof.
  intros HI He Hs Hirq Hb.
  assert (Hother : ∀ c' l, c' ≠ c → changed_at c' l s s' → saved b s' c).
  { intros c' l Hc Hch. unfold saved. by rewrite (ch_cpu _ _ _ _ Hch) by done. }
  assert (Hsame : ∀ c' l, changed_at c' l s s' → (c' = c → lcpus s' c' = lcpus s c') → saved b s' c).
  { intros c' l Hch Heq. destruct (decide (c' = c)) as [->|Hc]; [|by eapply Hother]. unfold saved. by rewrite Heq. }
  unfold saved in Hb.
  destruct e as [c' l|c'|c'|c' l|c'|c' b']; simpl in *.
  - destruct He as (Hpc & Hl & Hn). destruct (enter_step c' l s HI Hpc Hl Hn) as (s2 & Hs2 & _ & Hch & Hp & Hi).
    assert (s2 = s') as -> by congruence. destruct (decide (c' = c)) as [->|Hc]; [|by eapply Hother]. unfold saved. rewrite decide_False by lia.
    rewrite Hi. by case_decide.
  - unfold gets, mbind, K_bind in Hs. destruct (pcs s c') as [|l|l|l] eqn:Hpc; [by injection Hs as <-| |by injection Hs as <-..].
    destruct (try_step c' l s HI Hpc) as (s2 & Hs2 & _ & Hch & Hx). assert (s2 = s') as -> by congruence. by eapply Hsame.
  - unfold gets, mbind, K_bind in Hs. destruct (pcs s c') as [|l|l|l] eqn:Hpc; [by injection Hs as <-..| |by injection Hs as <-].
    destruct (done_step c' l s HI Hpc) as (s2 & Hs2 & _ & Hch & Hx). assert (s2 = s') as -> by congruence. by eapply Hsame.
  - destruct He as (Hpc & Hl & Hn). destruct (release_step c' l s HI Hpc Hl Hn) as (s2 & Hs2 & _ & Hch & Hp & Hp' & Hi).
    assert (s2 = s') as -> by congruence. destruct (decide (c' = c)) as [->|Hc]; [|by eapply Hother]. unfold saved. rewrite decide_False by lia.
    rewrite Hi. by rewrite decide_False in Hb by lia.
  - unfold gets, mbind, K_bind in Hs. destruct (pcs s c') as [|l|l|l] eqn:Hpc; [by injection Hs as <-..|].
    destruct (reldone_step c' l s HI Hpc) as (s2 & Hs2 & _ & Hch & Hp & Hi & Hq). assert (s2 = s') as -> by congruence.
    destruct (decide (c' = c)) as [->|Hc]; [|by eapply Hother]. rewrite decide_False in Hb by lia. unfold saved.
    case_decide as H0; [by rewrite Hq|by rewrite Hi].
  - injection Hs as <-. destruct (decide (c' = c)) as [->|Hc]; [by destruct (Hirq b')|]. unfold saved. simpl. by fn.
Qed.

(** * Theorems *)

(** C24: Over every interleaving of the atomic steps of acquire and release on
    several CPUs, at most one CPU is between the atomic test-and-set that took
    a lock and the store that frees it; there interrupts are off and the lock
    word is set, and the owner field names exactly the CPU that holds the
    lock. *)
Theorem spinlock_mutual_exclusion s :
  lock_reach s →
  (∀ l c c', inside s c l → inside s c' l → c = c') ∧
  (∀ c l, inside s c l → irq (lcpus s c) = false ∧ locked (locks s l) ≠ 0) ∧
  (∀ c l, l ∈ own s c ↔ lk_cpu (locks s l) = Some c).
Proof.
  intros HI%lock_reach_inv. split_and!.
  - intros l. apply (li_one _ HI).
  - intros c l Hin. split; [|apply (li_locked _ HI); by exists c]. apply (li_irq _ HI). rewrite (li_noff _ HI). unfold depth.
    destruct Hin as [Hl|[-> | ->]]; [|simpl; lia..]. destruct (own s c); [by apply elem_of_nil in Hl|]. simpl. case_decide; lia.
  - intros c l. symmetry. apply (li_owner _ HI).
Qed.

(** No allowed step panics; taking a held lock again, or releasing another's, does. *)
Theorem spinlock_panics s c l :
  lock_reach s → pcs s c = Idle → noff (lcpus s c) < 2 ^ 31 - 2 →
  (if decide (l ∈ own s c) then acquire_enter c l s = Panic "acquire: already holding lock" ∧
     ∃ s', release_enter c l s = Ret (tt, s') ∧ lock_reach s'
   else release_enter c l s = Panic "release: not holding lock" ∧
     ∃ s', acquire_enter c l s = Ret (tt, s') ∧ lock_reach s').
Proof.
  intros Hr Hpc Hn. pose proof (lock_reach_inv s Hr) as HI. pose proof (li_noff _ HI c) as Hd. pose proof (depth_nonneg s c) as H0.
  destruct (decide (l ∈ own s c)) as [Hl|Hl]; split.
  - destruct (push_run c s) as (s1 & Hp & Hc1 & Ho1 & Hl1 & _); [lia..|]. unfold acquire_enter. rewrite (bind_Ret _ _ _ _ _ Hp).
    destruct (holding_run c l s1) as (s2 & b & Hh & _); [rewrite Hc1; simpl; lia|by rewrite Hc1|].
    rewrite (bind_Ret _ _ _ _ _ Hh), Hl1. rewrite bool_decide_eq_true_2 by (apply (li_locked _ HI); exists c; by left).
    by rewrite bool_decide_eq_true_2 by (by apply (li_owner _ HI)).
  - destruct (lock_step_run s (Lrelease c l) HI) as (s' & Hs & _); [split_and!; [done..|lia]|]. exists s'. split; [done|].
    apply (lock_next s (Lrelease c l)); [done|split_and!; [done..|lia]|done].
  - unfold release_enter. destruct (holding_run c l s) as (s2 & b & Hh & _); [lia|apply (li_irq _ HI)|].
    rewrite (bind_Ret _ _ _ _ _ Hh), (bool_decide_eq_false_2 (lk_cpu _ = _)) by (by rewrite (li_owner _ HI)).
    by rewrite andb_false_r.
  - destruct (lock_step_run s (Lenter c l) HI) as (s' & Hs & _); [done|]. exists s'. split; [done|].
    by apply (lock_next s (Lenter c l)).
Qed.

(** A run of the machine: the steps taken are allowed. *)
Inductive lock_steps (c : nat) : machine → machine → Prop :=
  | steps_nil s : lock_steps c s s
  | steps_cons s e s1 s2 : lock_enabled e s → (∀ b, e ≠ Lirq c b) → lock_step e s = Ret (tt, s1) →
      lock_steps c s1 s2 → lock_steps c s s2.

(** Leaving the outermost lock restores the interrupt flag. *)
Theorem interrupts_restored s s' c :
  lock_reach s → noff (lcpus s c) = 0 → lock_steps c s s' → noff (lcpus s' c) = 0 → irq (lcpus s' c) = irq (lcpus s c).
Proof.
  intros Hr H0 Hss H0'. assert (Hb : saved (irq (lcpus s c)) s c) by (unfold saved; by rewrite decide_True).
  assert (Hend : saved (irq (lcpus s c)) s' c).
  { generalize (irq (lcpus s c)) Hb. clear H0 H0' Hb. intros b Hb. revert Hr Hb.
    induction Hss as [s|s e s1 s2 He Hne Hs _ IH]; [done|]. intros Hr Hb.
    apply IH; [by eapply lock_next|]. eapply saved_step; [by apply lock_reach_inv|done..]. }
  unfold saved in Hend. by rewrite decide_True in Hend.
Qed.

(** * Witnesses *)

(** Interrupts on everywhere; CPU 0 takes lock 0 while CPU 1 spins on it. *)
Definition demo_idle : machine := mk_machine (λ _, mk_lcpu 0 false true) (λ _, mk_spinlock 0 None) (λ _, Idle) (λ _, []).
Definition demo_after (es : list lock_event) : machine :=
  match lock_run es demo_idle with Ret (_, s) => s | _ => demo_idle end.
Definition demo_held : machine := demo_after [Lenter 0 0; Ltry 0; Ldone 0].

Lemma demo_held_reach : lock_reach demo_held.
Proof.
  apply (lock_next (demo_after [Lenter 0 0; Ltry 0]) (Ldone 0)); [|done|done].
  apply (lock_next (demo_after [Lenter 0 0]) (Ltry 0)); [|done|done].
  apply (lock_next demo_idle (Lenter 0 0)); [apply lock_boot| |done].
  split_and!; [done|apply not_elem_of_nil|done].
Defined.

Lemma spinlock_mutual_exclusion_witness :
  inside demo_held 0 0 ∧ irq (lcpus demo_held 0%nat) = false.
Proof.
  assert (Hin : inside demo_held 0 0) by (left; by left).
  split; [done|]. by apply (proj1 (proj2 (spinlock_mutual_exclusion demo_held demo_held_reach)) 0%nat 0%nat).
Defined.

Lemma spinlock_panics_witness :
  if decide (0%nat ∈ own demo_held 1) then acquire_enter 1 0 demo_held = Panic "acquire: already holding lock" ∧
    ∃ s', release_enter 1 0 demo_held = Ret (tt, s') ∧ lock_reach s'
  else release_enter 1 0 demo_held = Panic "release: not holding lock" ∧
    ∃ s', acquire_enter 1 0 demo_held = Ret (tt, s') ∧ lock_reach s'.
Proof. by apply (spinlock_panics demo_held 1 0 demo_held_reach). Defined.

Lemma interrupts_restored_witness :
  ∃ s', lock_run [Lenter 0 0; Ltry 0; Ldone 0; Lrelease 0 0; Lreldone 0] demo_idle = Ret (tt, s') ∧ irq (lcpus s' 0%nat) = true.
Proof.
  eexists. split; [vm_compute; reflexivity|].
  eapply (interrupts_restored demo_idle _ 0); [apply lock_boot|reflexivity| |vm_compute; reflexivity].
  eapply (steps_cons 0 _ (Lenter 0 0)); [split_and!; [reflexivity|apply not_elem_of_nil|vm_compute; reflexivity]|discriminate|vm_compute; reflexivity|].
  eapply (steps_cons 0 _ (Ltry 0)); [exact I|discriminate|vm_compute; reflexivity|].
  eapply (steps_cons 0 _ (Ldone 0)); [exact I|discriminate|vm_compute; reflexivity|].
  eapply (steps_cons 0 _ (Lrelease 0 0)); [split_and!; [reflexivity|vm_compute; left|vm_compute; reflexivity]|discriminate|vm_compute; reflexivity|].
  eapply (steps_cons 0 _ (Lreldone 0)); [exact I|discriminate|vm_compute; reflexivity|].
  apply steps_nil.
Defined.
