(* ===== verification/Block.v ===== *)
(** Disk blocks: their bytes, the little-endian words stored in them, and what
    the block cache promises the file systems.

    [BlockStore] is the interface of block_cache.c as a file system uses it from
    one thread: a block is read into a locked buffer, the buffer is looked at and
    changed, written back, and released.  [bs_rel s v hs U] says that the blocks
    of the device are [v], that the buffers [hs] are held (the last one read
    first, each with its block and whether it was changed since its last bwrite),
    and that the contents of the blocks [U] is not known, because their buffer was
    released with a change that was not written. *)
From stdpp Require Import functions.
From S2P Require Import Prelude.

Definition BSIZE : Z := 4096.
Abbreviation block := (list Z).

Definition byte_ok (x : Z) : Prop := 0 ≤ x < 2 ^ 8.
Definition block_ok (b : block) : Prop := Z.of_nat (length b) = BSIZE ∧ Forall byte_ok b.

Class BlockStore (B : Type) := {
  bs_read : Z → K B Z;                (* bread(0, n) *)
  bs_data : Z → K B block;            (* buf->data *)
  bs_set : Z → block → K B unit;      (* a store into buf->data *)
  bs_write : Z → K B unit;            (* bwrite *)
  bs_release : Z → K B unit;          (* brelse *)
  bs_rel : B → (Z → block) → list (Z * Z * bool) → gset Z → Prop;
  bs_len s v hs U n : bs_rel s v hs U → n ≠ 0 → n ∉ U → block_ok (v n);
  bs_read_ok s v hs U n :
    bs_rel s v hs U → n ≠ 0 → n ∉ hs.*1.*2 → (length hs < 8)%nat →
    ∃ h s' v' U' m, bs_read n s = Ret (h, s') ∧ bs_rel s' v' ((h, n, m) :: hs) U' ∧
      U' ⊆ U ∖ {[n]} ∧ (∀ k, k ∉ U → v' k = v k) ∧ (n ∉ U → m = false);
  bs_data_ok s v hs U h n m : bs_rel s v hs U → (h, n, m) ∈ hs → bs_data h s = Ret (v n, s) ∧ n ≠ 0 ∧ n ∉ U;
  bs_set_ok s v hs U h n m b :
    bs_rel s v ((h, n, m) :: hs) U → block_ok b →
    ∃ s', bs_set h b s = Ret (tt, s') ∧ bs_rel s' (<[n := b]> v) ((h, n, true) :: hs) U;
  bs_same s v hs U h n m : bs_rel s v ((h, n, m) :: hs) U → bs_set h (v n) s = Ret (tt, s);
  bs_write_ok s v hs U h n m :
    bs_rel s v ((h, n, m) :: hs) U → ∃ s', bs_write h s = Ret (tt, s') ∧ bs_rel s' v ((h, n, false) :: hs) U;
  bs_release_ok s v hs U h n m :
    bs_rel s v ((h, n, m) :: hs) U →
    ∃ s', bs_release h s = Ret (tt, s') ∧ bs_rel s' v hs (if m : bool then U ∪ {[n]} else U)
}.

(** What a file system that only reads asks of the cache: the blocks of [dev] are
    [v], and one buffer at a time is read, looked at and released. *)
Class BlockReader (B : Type) := {
  br_bread : Z → Z → K B Z;           (* bread(dev, n) *)
  br_data : Z → K B block;            (* b->data *)
  br_brelse : Z → K B unit;           (* brelse(b) *)
  br_ok : Z → (Z → block) → B → Prop; (* the blocks of dev, while no buffer is held *)
  br_len dev v s n : br_ok dev v s → 0 ≤ n → block_ok (v n);
  br_read dev v s n : br_ok dev v s → 0 ≤ n →
    ∃ h s1 s2, br_bread dev n s = Ret (h, s1) ∧ br_data h s1 = Ret (v n, s1) ∧
      br_brelse h s1 = Ret (tt, s2) ∧ br_ok dev v s2
}.

(** ** Bytes and words of a block *)

Definition byte_at (b : block) (i : Z) : Z := default 0 (b !! Z.to_nat i).
Definition set_byte (b : block) (i x : Z) : block := <[Z.to_nat i := x]> b.

(** A little-endian uint32 at byte [o], read through a pointer into the block. *)
Definition rd32 (b : block) (o : Z) : Z :=
  byte_at b o + 2 ^ 8 * byte_at b (o + 1) + 2 ^ 16 * byte_at b (o + 2) + 2 ^ 24 * byte_at b (o + 3).
Definition wr32 (b : block) (o x : Z) : block :=
  set_byte (set_byte (set_byte (set_byte b o (x mod 2 ^ 8)) (o + 1) (x / 2 ^ 8 mod 2 ^ 8))
    (o + 2) (x / 2 ^ 16 mod 2 ^ 8)) (o + 3) (x / 2 ^ 24 mod 2 ^ 8).
Definition rd16 (b : block) (o : Z) : Z := byte_at b o + 2 ^ 8 * byte_at b (o + 1).
Definition wr16 (b : block) (o x : Z) : block :=
  set_byte (set_byte b o (x mod 2 ^ 8)) (o + 1) (x / 2 ^ 8 mod 2 ^ 8).

Definition rd64 (b : block) (o : Z) : Z := rd32 b o + 2 ^ 32 * rd32 b (o + 4).
Definition wr64 (b : block) (o x : Z) : block := wr32 (wr32 b o (x mod 2 ^ 32)) (o + 4) (x / 2 ^ 32 mod 2 ^ 32).

(** memmove between a block and a list of bytes. *)
Definition slice (b : block) (o n : Z) : list Z := take (Z.to_nat n) (drop (Z.to_nat o) b).
Definition blit (b : block) (o : Z) (src : list Z) : block :=
  take (Z.to_nat o) b ++ src ++ drop (Z.to_nat o + length src) b.

Definition zero_block : block := replicate (Z.to_nat BSIZE) 0.

(** * Lemmas *)

Lemma mod_byte x : byte_ok (x mod 2 ^ 8).
Proof. unfold byte_ok. by apply Z.mod_pos_bound. Qed.
Lemma u8_byte x : byte_ok (u8 x).
Proof. apply mod_byte. Qed.
Lemma set_byte_ok b i x : block_ok b → byte_ok x → block_ok (set_byte b i x).
Proof. unfold block_ok, set_byte. intros [Hl Hb] Hx. rewrite length_insert. split; [done|]. by apply Forall_insert. Qed.
Lemma wr32_ok b o x : block_ok b → block_ok (wr32 b o x).
Proof. intros Hb. unfold wr32. repeat apply set_byte_ok; auto using mod_byte. Qed.
Lemma wr16_ok b o x : block_ok b → block_ok (wr16 b o x).
Proof. intros Hb. unfold wr16. repeat apply set_byte_ok; auto using mod_byte. Qed.
Lemma zero_block_ok : block_ok zero_block.
Proof. unfold block_ok, zero_block. rewrite length_replicate. split; [done|]. by apply Forall_replicate. Qed.
#[export] Hint Resolve mod_byte u8_byte wr32_ok wr16_ok zero_block_ok set_byte_ok : frost.

Lemma byte_at_ok b i : block_ok b → byte_ok (byte_at b i).
Proof.
  intros [_ Hb]. unfold byte_at. destruct (b !! Z.to_nat i) eqn:E; [|done]. by eapply Forall_lookup_1 in E.
Qed.
Lemma byte_at_set b i j x : block_ok b → 0 ≤ i < BSIZE → 0 ≤ j → byte_at (set_byte b i x) j = if decide (i = j) then x else byte_at b j.
Proof.
  unfold block_ok, byte_at, set_byte. intros [Hb _] Hi Hj. destruct (decide (i = j)) as [->|Hne].
  - rewrite list_lookup_insert_eq by lia. done.
  - by rewrite list_lookup_insert_ne by lia.
Qed.
(** Two blocks with the same bytes are equal. *)
Lemma block_ext b c : block_ok b → block_ok c → (∀ i, 0 ≤ i < BSIZE → byte_at b i = byte_at c i) → b = c.
Proof.
  intros [Hb _] [Hc _] Hi. apply (list_eq_same_length _ _ (Z.to_nat BSIZE)); [lia|lia|].
  intros i x y Hlt Hx Hy. specialize (Hi (Z.of_nat i) ltac:(lia)). unfold byte_at in Hi.
  by rewrite Nat2Z.id, Hx, Hy in Hi.
Qed.

Lemma byte_at_zero i : byte_at zero_block i = 0.
Proof.
  unfold byte_at, zero_block. destruct (replicate _ _ !! _) as [x|] eqn:E; [|done]. by apply lookup_replicate in E as [-> _].
Qed.
Lemma rd32_zero o : rd32 zero_block o = 0.
Proof. unfold rd32. by rewrite !byte_at_zero. Qed.

Lemma byte_at_wr32 b o x j : block_ok b → 0 ≤ o → o + 3 < BSIZE → 0 ≤ j →
  byte_at (wr32 b o x) j = if decide (o ≤ j < o + 4) then x / 2 ^ (8 * (j - o)) mod 2 ^ 8 else byte_at b j.
Proof.
  intros Hb Ho Ho3 Hj. unfold wr32. rewrite !byte_at_set by (auto 10 with frost || lia).
  destruct (decide (o ≤ j < o + 4)) as [Hin|Hout].
  - repeat case_decide; [..|lia]; subst.
    + by replace (8 * (o + 3 - o)) with 24 by lia.
    + by replace (8 * (o + 2 - o)) with 16 by lia.
    + by replace (8 * (o + 1 - o)) with 8 by lia.
    + replace (8 * (j - j)) with 0 by lia. by rewrite Z.pow_0_r, Z.div_1_r.
  - by repeat (rewrite decide_False by lia).
Qed.

Lemma rd32_wr32 b o x : block_ok b → 0 ≤ o → o + 3 < BSIZE → 0 ≤ x < 2 ^ 32 → rd32 (wr32 b o x) o = x.
Proof.
  intros Hb Ho Ho3 Hx. unfold rd32. rewrite !byte_at_wr32, !decide_True by (done || lia).
  replace (8 * (o - o)) with 0 by lia. replace (8 * (o + 1 - o)) with 8 by lia.
  replace (8 * (o + 2 - o)) with 16 by lia. replace (8 * (o + 3 - o)) with 24 by lia. rewrite Z.pow_0_r, Z.div_1_r.
  Z.to_euclidean_division_equations. lia.
Qed.
Lemma rd32_wr32_ne b o o' x : block_ok b → 0 ≤ o → o + 3 < BSIZE → 0 ≤ o' → o + 4 ≤ o' ∨ o' + 4 ≤ o → rd32 (wr32 b o x) o' = rd32 b o'.
Proof. intros Hb Ho Ho3 Ho' Hne. unfold rd32. by rewrite !byte_at_wr32, !decide_False by (done || lia). Qed.

(** Storing the word that is there changes nothing. *)
Lemma wr32_zero b o : block_ok b → 0 ≤ o → o + 3 < BSIZE → rd32 b o = 0 → wr32 b o 0 = b.
Proof.
  intros Hb Ho Ho3 Hz. apply block_ext; [auto with frost|done|]. intros i Hi. rewrite byte_at_wr32 by (done || lia).
  case_decide; [|done]. rewrite Z.div_0_l, Z.mod_0_l by (apply Z.pow_nonzero; lia). unfold rd32 in Hz.
  pose proof (byte_at_ok b o Hb). pose proof (byte_at_ok b (o + 1) Hb). pose proof (byte_at_ok b (o + 2) Hb).
  pose proof (byte_at_ok b (o + 3) Hb). unfold byte_ok in *. assert (Hc : i = o ∨ i = o + 1 ∨ i = o + 2 ∨ i = o + 3) by lia.
  destruct Hc as [->|[->|[->| ->]]]; lia.
Qed.
Lemma rd32_range b o : block_ok b → 0 ≤ rd32 b o < 2 ^ 32.
Proof.
  intros Hb. unfold rd32. pose proof (byte_at_ok b o Hb). pose proof (byte_at_ok b (o + 1) Hb). pose proof (byte_at_ok b (o + 2) Hb).
  pose proof (byte_at_ok b (o + 3) Hb). unfold byte_ok in *. lia.
Qed.

Lemma wr64_ok b o x : block_ok b → block_ok (wr64 b o x).
Proof. intros Hb. unfold wr64. auto with frost. Qed.
Lemma rd64_zero o : rd64 zero_block o = 0.
Proof. unfold rd64. by rewrite !rd32_zero. Qed.
Lemma rd64_wr64 b o x : block_ok b → 0 ≤ o → o + 7 < BSIZE → 0 ≤ x < 2 ^ 64 → rd64 (wr64 b o x) o = x.
Proof.
  intros Hb Ho Ho7 Hx. unfold rd64, wr64.
  rewrite (rd32_wr32_ne (wr32 b o _)), !rd32_wr32; auto with frost; try lia; [|by apply Z.mod_pos_bound|by apply Z.mod_pos_bound].
  rewrite (Z.mod_small (x / 2 ^ 32)) by (Z.to_euclidean_division_equations; lia). Z.to_euclidean_division_equations. lia.
Qed.
Lemma rd64_wr64_ne b o o' x : block_ok b → 0 ≤ o → o + 7 < BSIZE → 0 ≤ o' → o + 8 ≤ o' ∨ o' + 8 ≤ o → rd64 (wr64 b o x) o' = rd64 b o'.
Proof. intros Hb Ho Ho7 Ho' Hne. unfold rd64, wr64. rewrite !rd32_wr32_ne; auto with frost; lia. Qed.
Lemma wr64_zero b o : block_ok b → 0 ≤ o → o + 7 < BSIZE → rd64 b o = 0 → wr64 b o 0 = b.
Proof.
  intros Hb Ho Ho7 Hz. pose proof (rd32_range b o Hb). pose proof (rd32_range b (o + 4) Hb). unfold rd64, wr64 in *.
  change (0 mod 2 ^ 32) with 0. change (0 / 2 ^ 32 mod 2 ^ 32) with 0. rewrite (wr32_zero b o), wr32_zero; done || lia.
Qed.
#[export] Hint Resolve wr64_ok : frost.

Lemma rd16_wr16 b o x : block_ok b → 0 ≤ o → o + 1 < BSIZE → 0 ≤ x < 2 ^ 16 → rd16 (wr16 b o x) o = x.
Proof.
  intros Hb Ho Ho3 Hx. unfold rd16, wr16. rewrite !byte_at_set by (auto 10 with frost || lia).
  repeat case_decide; try lia. Z.to_euclidean_division_equations. lia.
Qed.

Lemma byte_at_wr16 b o x j : block_ok b → 0 ≤ o → o + 1 < BSIZE → 0 ≤ j →
  byte_at (wr16 b o x) j = if decide (o ≤ j < o + 2) then x / 2 ^ (8 * (j - o)) mod 2 ^ 8 else byte_at b j.
Proof.
  intros Hb Ho Ho3 Hj. unfold wr16. rewrite !byte_at_set by (auto 10 with frost || lia).
  destruct (decide (o ≤ j < o + 2)) as [Hin|Hout].
  - repeat case_decide; [..|lia]; subst.
    + by replace (8 * (o + 1 - o)) with 8 by lia.
    + replace (8 * (j - j)) with 0 by lia. by rewrite Z.pow_0_r, Z.div_1_r.
  - by repeat (rewrite decide_False by lia).
Qed.
(** The words of two blocks that agree on their bytes. *)
Lemma rd32_bytes b c o : (∀ i, o ≤ i < o + 4 → byte_at b i = byte_at c i) → rd32 b o = rd32 c o.
Proof. intros Hi. unfold rd32. by rewrite !Hi by lia. Qed.
Lemma rd16_bytes b c o : (∀ i, o ≤ i < o + 2 → byte_at b i = byte_at c i) → rd16 b o = rd16 c o.
Proof. intros Hi. unfold rd16. by rewrite !Hi by lia. Qed.

Lemma blit_ok b o src : block_ok b → Forall byte_ok src → 0 ≤ o → o + Z.of_nat (length src) ≤ BSIZE → block_ok (blit b o src).
Proof.
  unfold block_ok, blit. intros [Hb HF] Hsrc Ho Hs. rewrite !length_app, length_take, length_drop. split; [lia|].
  apply Forall_app. split; [by apply Forall_take|]. apply Forall_app. split; [done|by apply Forall_drop].
Qed.
Lemma slice_length b o n : block_ok b → 0 ≤ o → 0 ≤ n → o + n ≤ BSIZE → Z.of_nat (length (slice b o n)) = n.
Proof. unfold block_ok, slice. intros [Hb _] Ho Hn Hs. rewrite length_take, length_drop. lia. Qed.
Lemma byte_at_blit b o src j : block_ok b → 0 ≤ o → o + Z.of_nat (length src) ≤ BSIZE → 0 ≤ j →
  byte_at (blit b o src) j = if decide (o ≤ j < o + Z.of_nat (length src)) then default 0 (src !! Z.to_nat (j - o)) else byte_at b j.
Proof.
  unfold block_ok, byte_at, blit. intros [Hb _] Ho Hs Hj. assert (Hlt : length (take (Z.to_nat o) b) = Z.to_nat o) by (rewrite length_take; lia).
  destruct (decide (o ≤ j < o + Z.of_nat (length src))) as [Hin|Hout].
  - rewrite lookup_app_r by lia. rewrite lookup_app_l by lia. do 2 f_equal. lia.
  - destruct (decide (j < o)).
    + rewrite lookup_app_l by lia. by rewrite lookup_take_lt by lia.
    + rewrite !lookup_app_r by lia. rewrite lookup_drop, Hlt. do 2 f_equal. lia.
Qed.
Lemma slice_lookup b o n j : 0 ≤ o → 0 ≤ j < n → block_ok b → o + n ≤ BSIZE → slice b o n !! Z.to_nat j = Some (byte_at b (o + j)).
Proof.
  unfold block_ok, byte_at, slice. intros Ho Hj [Hb _] Hs. rewrite lookup_take_lt by lia. rewrite lookup_drop.
  replace (Z.to_nat o + Z.to_nat j)%nat with (Z.to_nat (o + j)) by lia.
  destruct (b !! Z.to_nat (o + j)) eqn:E; [done|]. apply lookup_ge_None in E. lia.
Qed.

(** ** Sets of blocks *)

Lemma sub_diff (A C : gset Z) n : A ⊆ C ∖ {[n]} → A ⊆ C.
Proof. set_solver. Qed.
Lemma sub_diff_trans (A C E : gset Z) n : A ⊆ C ∖ {[n]} → C ⊆ E → A ⊆ E ∖ {[n]}.
Proof. set_solver. Qed.
Lemma notin_sub (A C : gset Z) n : A ⊆ C → n ∉ C → n ∉ A.
Proof. set_solver. Qed.
Lemma notin_diff (A C : gset Z) n : A ⊆ C ∖ {[n]} → n ∉ A.
Proof. set_solver. Qed.
Lemma notin_union (A : gset Z) n m : n ∉ A → n ≠ m → n ∉ A ∪ {[m]}.
Proof. set_solver. Qed.
#[export] Hint Resolve sub_diff sub_diff_trans notin_sub notin_diff notin_union : frost.
