(* ===== verification/Bcache.v ===== *)
(** kernel/fs/block_cache.c and kernel/core/sleeplock.c: the cache of disk
    blocks, its LRU list and the sleep lock of each buffer.

    The buffers are [bufs]; their [next] and [prev] pointers are nodes of the
    store of ListHead.v, buffer [i] at address [i] and the head of the list at
    [NNUM].  A thread is its pid.  Several threads use the cache: what each does
    between two points where another may run is one step ([cache_step]).  The
    disk behind virtio_disk_rw is the class [Disk]. *)
From stdpp Require Import functions.
From S2P Require Import Prelude ListHead Block.

Definition NNUM : Z := 32.

(** The device: a block read is the block last written there. *)
Class Disk (D : Type) := {
  disk_read : Z → D → block;
  disk_write : Z → block → D → D;
  disk_len n d : block_ok (disk_read n d);
  disk_read_write n b m d : block_ok b →
    disk_read m (disk_write n b d) = if decide (m = n) then b else disk_read m d
}.

Record sleeplock := mk_sleeplock { sl_locked : Z; sl_pid : Z }.
Record buf := mk_buf {
  b_data : block;
  b_dev : Z;
  b_dirty : Z;
  b_valid : Z;
  b_blkno : Z;
  b_refcnt : Z;
  b_lock : sleeplock
}.

Record bcache (D : Type) := mk_bcache { bufs : list buf; links : nodes; disk : D }.
Arguments mk_bcache {_} _ _ _.
Arguments bufs {_} _.
Arguments links {_} _.
Arguments disk {_} _.

Definition no_fuel {S A} : K S A := λ _, NoFuel.

Section bcache.
Context {D : Type} `{Disk D}.
Abbreviation st := (bcache D).

Definition HEAD : Z := NNUM.

Definition set_bufs l (s : st) : st := mk_bcache l (links s) (disk s).
Definition set_links h (s : st) : st := mk_bcache (bufs s) h (disk s).
Definition set_disk d (s : st) : st := mk_bcache (bufs s) (links s) d.
Definition on_links {A} (m : K nodes A) : K st A := zoom links set_links m.

Definition get_buf (b : Z) : K st buf := λ s,
  match bufs s !! Z.to_nat b with Some x => Ret (x, s) | None => Fault end.
Definition put_buf (b : Z) (x : buf) : K st unit := modify (λ s, set_bufs (<[Z.to_nat b := x]> (bufs s)) s).

Definition set_data x (b : buf) : buf := mk_buf x (b_dev b) (b_dirty b) (b_valid b) (b_blkno b) (b_refcnt b) (b_lock b).
Definition set_valid x (b : buf) : buf := mk_buf (b_data b) (b_dev b) (b_dirty b) x (b_blkno b) (b_refcnt b) (b_lock b).
Definition set_refcnt x (b : buf) : buf := mk_buf (b_data b) (b_dev b) (b_dirty b) (b_valid b) (b_blkno b) x (b_lock b).
Definition set_lock x (b : buf) : buf := mk_buf (b_data b) (b_dev b) (b_dirty b) (b_valid b) (b_blkno b) (b_refcnt b) x.

(** ** Sleep locks *)

Definition initsleeplock : sleeplock := mk_sleeplock 0 0.

(** One round of the loop of acquiresleep: [false] when it sleeps. *)
Definition acquiresleep (pid b : Z) : K st bool :=
  x ← get_buf b;
  if decide (sl_locked (b_lock x) ≠ 0) then mret false else
  put_buf b (set_lock (mk_sleeplock 1 pid) x) ;; mret true.

(** releasesleep; the sleepers it wakes are the threads whose round failed. *)
Definition releasesleep (b : Z) : K st unit :=
  x ← get_buf b; put_buf b (set_lock (mk_sleeplock 0 0) x).

Definition holdingsleep (pid b : Z) : K st bool :=
  x ← get_buf b; mret (bool_decide (sl_locked (b_lock x) ≠ 0) && bool_decide (sl_pid (b_lock x) = pid)).

(** ** The cache *)

Definition binit : K st unit :=
  on_links (set_prev HEAD HEAD) ;;
  on_links (set_next HEAD HEAD) ;;
  forM (seqZ 0 NNUM) (λ b,
    on_links (n ← get_next HEAD; set_next b n ;; set_prev b HEAD) ;;
    x ← get_buf b;
    put_buf b (mk_buf (b_data x) (b_dev x) 0 0 (b_blkno x) 0 initsleeplock) ;;
    on_links (n ← get_next HEAD; set_prev n b ;; set_next HEAD b)).

(** The loops of bget: the first buffer from [pos], forwards or backwards, that
    satisfies the test.  The list has [NNUM] buffers. *)
Fixpoint scan (fuel : nat) (fwd : bool) (test : buf → bool) (pos : Z) : K st (option Z) :=
  match fuel with
  | O => no_fuel
  | S f =>
      if decide (pos = HEAD) then mret None else
      x ← get_buf pos;
      if test x then mret (Some pos) else
      n ← on_links (if fwd then get_next pos else get_prev pos);
      scan f fwd test n
  end.
Definition scan_fuel : nat := S (Z.to_nat NNUM).

(** bget up to the release of the list lock. *)
Definition bget_find (dev blkno : Z) : K st (option Z) :=
  n ← on_links (get_next HEAD);
  r ← scan scan_fuel true (λ x, bool_decide (b_blkno x = blkno) && bool_decide (b_dev x = dev)) n;
  match r with
  | Some b =>
      x ← get_buf b;
      put_buf b (set_refcnt (u32 (b_refcnt x + 1)) x) ;; mret (Some b)
  | None =>
      p ← on_links (get_prev HEAD);
      r ← scan scan_fuel false (λ x, bool_decide (b_refcnt x = 0) && bool_decide (b_dirty x = 0)) p;
      match r with
      | Some b =>
          x ← get_buf b;
          put_buf b (mk_buf (b_data x) dev (b_dirty x) 0 blkno (u32 (b_refcnt x + 1)) (b_lock x)) ;; mret (Some b)
      | None => mret None
      end
  end.

(** virtio_disk_rw: the device ignores [dev]. *)
Definition virtio_disk_rw (b : Z) (write : bool) : K st unit :=
  x ← get_buf b;
  if write then modify (λ s, set_disk (disk_write (b_blkno x) (b_data x) (disk s)) s)
  else d ← gets disk; put_buf b (set_data (disk_read (b_blkno x) d) x).

(** bread once its buffer is locked. *)
Definition bread_fill (b : Z) : K st unit :=
  x ← get_buf b;
  if decide (b_valid x ≠ 0) then mret tt else
  virtio_disk_rw b false ;;
  x ← get_buf b;
  put_buf b (set_valid 1 x).

Definition bwrite (pid b : Z) : K st unit :=
  h ← holdingsleep pid b;
  if negb h then kpanic "bwrite: not locked" else virtio_disk_rw b true.

(** brelse up to the release of the buffer's lock, and the rest. *)
Definition brelse_unlock (pid b : Z) : K st unit :=
  h ← holdingsleep pid b;
  if negb h then kpanic "brelse" else releasesleep b.
Definition brelse_put (b : Z) : K st unit :=
  x ← get_buf b;
  put_buf b (set_refcnt (u32 (b_refcnt x - 1)) x) ;;
  if decide (u32 (b_refcnt x - 1) = 0) then
    on_links (n ← get_next b; p ← get_prev b; set_prev n p ;;
              p ← get_prev b; n ← get_next b; set_next p n ;; push_front HEAD b)
  else mret tt.

(** The calls of one thread while no other runs: a lock held by the thread
    itself is waited for without end. *)
Definition bget (pid dev blkno : Z) : K st (option Z) :=
  r ← bget_find dev blkno;
  match r with
  | None => mret None
  | Some b => ok ← acquiresleep pid b; if ok : bool then mret (Some b) else no_fuel
  end.
Definition bread (pid dev blkno : Z) : K st Z :=
  r ← bget pid dev blkno;
  match r with None => kfault | Some b => bread_fill b ;; mret b end.
Definition brelse (pid b : Z) : K st unit := brelse_unlock pid b ;; brelse_put b.

(** ** Threads *)

(** A reference to a buffer: its thread waits for the lock, holds it (and has
    changed the data since the last bwrite, or not), or has unlocked it.
    [stale] are the blocks whose buffer was released with such a change: the
    change lasts only as long as the buffer is not taken for another block. *)
Inductive rstat := Waiting | Holding (modified : bool) | Dropping.
#[global] Instance rstat_eq_dec : EqDecision rstat.
Proof. solve_decision. Defined.
Record cref := mk_cref { r_pid : Z; r_buf : Z; r_stat : rstat }.
Record cstate := mk_cstate { cs : st; crefs : list cref; stale : gset Z }.

Definition set_cs (s : st) (c : cstate) : cstate := mk_cstate s (crefs c) (stale c).
Definition set_crefs (l : list cref) (c : cstate) : cstate := mk_cstate (cs c) l (stale c).
Definition set_stale (U : gset Z) (c : cstate) : cstate := mk_cstate (cs c) (crefs c) U.
Definition on_cache {A} (m : K st A) : K cstate A := zoom cs set_cs m.

Inductive cevent :=
  | Cget (pid dev blkno : Z) | Clock (k : nat) | Cfill (k : nat) | Cmodify (k : nat) (data : block)
  | Cwrite (k : nat) | Cunlock (k : nat) | Cput (k : nat).

Definition with_ref (k : nat) (f : cref → K cstate unit) : K cstate unit := λ c,
  match crefs c !! k with Some r => f r c | None => Ret (tt, c) end.
Definition set_ref (k : nat) (r : cref) : K cstate unit := modify (λ c, set_crefs (<[k := r]> (crefs c)) c).

(** The block of a buffer, and whether its contents are only in the buffer. *)
Definition blkno_of (s : st) (b : Z) : Z := default 0 (b_blkno <$> bufs s !! Z.to_nat b).
Definition is_stale (c : cstate) (b : Z) : bool := bool_decide (blkno_of (cs c) b ∈ stale c).

Definition cache_step (e : cevent) : K cstate unit :=
  match e with
  | Cget pid dev blkno =>
      c0 ← gets id;
      o ← on_cache (bget_find dev blkno);
      match o with
      | None => mret tt
      | Some b =>
          modify (λ c, set_crefs (crefs c ++ [mk_cref pid b Waiting]) c) ;;
          if decide (blkno_of (cs c0) b = blkno) then mret tt
          else modify (λ c, set_stale (stale c ∖ {[blkno_of (cs c0) b]}) c)
      end
  | Clock k => with_ref k (λ r,
      ok ← on_cache (acquiresleep (r_pid r) (r_buf r));
      if ok : bool then
        c ← gets id;
        set_ref k (mk_cref (r_pid r) (r_buf r) (Holding (is_stale c (r_buf r)))) ;;
        modify (λ c, set_stale (stale c ∖ {[blkno_of (cs c) (r_buf r)]}) c)
      else mret tt)
  | Cfill k => with_ref k (λ r, on_cache (bread_fill (r_buf r)))
  | Cmodify k data => with_ref k (λ r,
      on_cache (x ← get_buf (r_buf r); put_buf (r_buf r) (set_data data x)) ;;
      set_ref k (mk_cref (r_pid r) (r_buf r) (Holding true)))
  | Cwrite k => with_ref k (λ r,
      on_cache (bwrite (r_pid r) (r_buf r)) ;; set_ref k (mk_cref (r_pid r) (r_buf r) (Holding false)))
  | Cunlock k => with_ref k (λ r,
      on_cache (brelse_unlock (r_pid r) (r_buf r)) ;;
      set_ref k (mk_cref (r_pid r) (r_buf r) Dropping) ;;
      if decide (r_stat r = Holding true)
      then modify (λ c, set_stale (stale c ∪ {[blkno_of (cs c) (r_buf r)]}) c) else mret tt)
  | Cput k => with_ref k (λ r,
      on_cache (brelse_put (r_buf r)) ;; modify (λ c, set_crefs (delete k (crefs c)) c))
  end.

(** Whether the block of the reference has been read. *)
Definition filled (c : cstate) (r : cref) : Prop :=
  ∃ x, bufs (cs c) !! Z.to_nat (r_buf r) = Some x ∧ b_valid x ≠ 0.

(** The use the file systems make of the cache: device 0, and bread before the
    data is changed or written.  Block 0, which ext4 reads once when it is
    mounted, is left out: the buffers that binit leaves all carry the number 0,
    so that one block has several buffers and the first of them answers. *)
Definition cache_enabled (e : cevent) (c : cstate) : Prop :=
  match e with
  | Cget _ dev blkno => dev = 0 ∧ blkno ≠ 0 ∧ Z.of_nat (length (crefs c)) < 2 ^ 32 - 1
  | Clock k => ∃ r, crefs c !! k = Some r ∧ r_stat r = Waiting
  | Cfill k => ∃ r b, crefs c !! k = Some r ∧ r_stat r = Holding b
  | Cmodify k data => ∃ r b, crefs c !! k = Some r ∧ r_stat r = Holding b ∧ filled c r ∧ block_ok data
  | Cwrite k => ∃ r b, crefs c !! k = Some r ∧ r_stat r = Holding b ∧ filled c r
  | Cunlock k => ∃ r b, crefs c !! k = Some r ∧ r_stat r = Holding b
  | Cput k => ∃ r, crefs c !! k = Some r ∧ r_stat r = Dropping
  end.

(** What the block [n] of the device is, cached or not. *)
Definition view (s : st) (n : Z) : block :=
  match list_find (λ x, b_valid x ≠ 0 ∧ b_blkno x = n) (bufs s) with
  | Some (_, x) => b_data x
  | None => disk_read n (disk s)
  end.

(** ** Invariant *)

Definition is_holding (r : cref) : bool := match r_stat r with Holding _ => true | _ => false end.
Definition modified (rs : list cref) : Prop := ∃ r, r ∈ rs ∧ r_stat r = Holding true.
Definition refs_of (b : Z) (rs : list cref) : list cref := filter (λ r, r_buf r = b) rs.

Definition lock_ok (x : buf) (rs : list cref) : Prop :=
  match filter is_holding rs with
  | [] => sl_locked (b_lock x) = 0
  | [r] => sl_locked (b_lock x) = 1 ∧ sl_pid (b_lock x) = r_pid r
  | _ => False
  end.

Record buf_ok (x : buf) (rs : list cref) (U : gset Z) (d : D) : Prop := {
  bo_ref : b_refcnt x = Z.of_nat (length rs);
  bo_dirty : b_dirty x = 0;
  bo_dev : b_dev x = 0;
  bo_lock : lock_ok x rs;
  bo_zero : b_blkno x = 0 → b_valid x = 0 ∧ rs = [];
  bo_coh : b_valid x ≠ 0 → ¬ modified rs → b_blkno x ∉ U → b_data x = disk_read (b_blkno x) d;
  bo_mod : modified rs → b_valid x ≠ 0;
  bo_stale : b_blkno x ∈ U → b_valid x ≠ 0 ∧ filter is_holding rs = [];
  bo_len : b_valid x ≠ 0 → block_ok (b_data x)
}.

Record cache_inv (c : cstate) : Prop := {
  ci_len : length (bufs (cs c)) = Z.to_nat NNUM;
  ci_list : ∃ l, dlist (links (cs c)) HEAD l ∧ l ≡ₚ seqZ 0 NNUM;
  ci_buf i x : bufs (cs c) !! i = Some x → buf_ok x (refs_of (Z.of_nat i) (crefs c)) (stale c) (disk (cs c));
  ci_uniq i j x y : bufs (cs c) !! i = Some x → bufs (cs c) !! j = Some y → b_blkno x = b_blkno y → b_blkno x ≠ 0 → i = j;
  ci_refs k r : crefs c !! k = Some r → 0 ≤ r_buf r < NNUM;
  ci_count : Z.of_nat (length (crefs c)) < 2 ^ 32;
  ci_stale n : n ∈ stale c → n ≠ 0 ∧ ∃ i x, bufs (cs c) !! i = Some x ∧ b_blkno x = n
}.

(** * Lemmas *)

Lemma on_links_run {A} (m : K nodes A) s x h : m (links s) = Ret (x, h) → on_links m s = Ret (x, set_links h s).
Proof. intros Hm. unfold on_links, zoom. by rewrite Hm. Qed.
Lemma set_links_id s : set_links (links s) s = s.
Proof. by destruct s. Qed.

Lemma scan_run fuel fwd test pos l s :
  link_chain HEAD (links s) fwd pos l → (length l < fuel)%nat → (∀ b, b ∈ l → is_Some (bufs s !! Z.to_nat b)) →
  scan fuel fwd test pos s = Ret (first_buf test (bufs s) l, s).
Proof.
  revert pos fuel. induction l as [|b l IH]; intros pos fuel Hc Hf Hl; (destruct fuel as [|fuel]; [simpl in Hf; lia|]).
  - simpl in *. subst. by rewrite decide_True.
  - simpl in Hc, Hf. destruct Hc as (-> & Hh & n & Hn & Hc). destruct (Hl b) as [x Hx]; [by left|]. simpl.
    rewrite decide_False by done. rewrite (bind_Ret (get_buf b) _ s x s) by (unfold get_buf; by rewrite Hx). rewrite Hx.
    destruct (test x); [done|].
    assert (Hg : on_links (if fwd then get_next b else get_prev b) s = Ret (n, s)).
    { rewrite <-(set_links_id s) at 2. apply on_links_run. destruct fwd; [by apply get_next_eq|by apply get_prev_eq]. }
    rewrite (bind_Ret _ _ _ _ _ Hg). apply IH; [done|lia|]. intros c Hc'. apply Hl. by right.
Qed.

Lemma get_buf_run s b x : bufs s !! Z.to_nat b = Some x → get_buf b s = Ret (x, s).
Proof. intros Hx. unfold get_buf. by rewrite Hx. Qed.

Definition bput (s : st) (b : Z) (x : buf) : st := set_bufs (<[Z.to_nat b := x]> (bufs s)) s.
Lemma bput_same s b x y : bufs s !! Z.to_nat b = Some y → bufs (bput s b x) !! Z.to_nat b = Some x.
Proof. intros Hy. simpl. apply list_lookup_insert_eq. by eapply lookup_lt_Some. Qed.
Lemma bput_bput s b x y : bput (bput s b x) b y = bput s b y.
Proof. unfold bput, set_bufs. simpl. by rewrite list_insert_insert_eq. Qed.

(** ** Linking *)

Lemma move_front_run h l1 b l2 :
  dlist h HEAD (l1 ++ b :: l2) →
  ∃ h', (n ← get_next b; p ← get_prev b; set_prev n p ;; p ← get_prev b; n ← get_next b; set_next p n ;; push_front HEAD b) h =
      Ret (tt, h') ∧ dom h' = dom h ∧ dlist h' HEAD (b :: l1 ++ l2).
Proof.
  intros Hd0. destruct (dlist_around h HEAD l1 b l2 Hd0) as (Hp & Hn & Hbp & Hbn & Hbd & Hpd & Hnn & Hout).
  set (p := default HEAD (last l1)) in *. set (n := default HEAD (head l2)) in *.
  rewrite (bind_Ret _ _ _ _ _ (get_next_eq _ _ _ Hn)), (bind_Ret _ _ _ _ _ (get_prev_eq _ _ _ Hp)).
  heap_step; [done|]. rewrite (bind_Ret (get_prev b) _ _ p h0) by (apply get_prev_eq; upd_rewrite; by rewrite decide_False).
  rewrite (bind_Ret (get_next b) _ _ n h0) by (apply get_next_eq; by upd_rewrite).
  heap_step; [by upd_rewrite|].
  destruct (push_front_run HEAD h1 (l1 ++ l2) b) as (h' & Hrun & Hdom & Hdl').
  - apply (dlist_unlink h h1 HEAD l1 b l2 Hd0); intros x Hx; by upd_rewrite.
  - done.
  - by upd_rewrite.
  - exists h'. split; [done|]. split; [|done]. rewrite Hdom. by upd_rewrite.
Qed.

(** ** References *)

Lemma refs_of_app b rs rs' : refs_of b (rs ++ rs') = refs_of b rs ++ refs_of b rs'.
Proof. apply filter_app. Qed.
Lemma refs_of_cons b r rs : refs_of b (r :: rs) = if decide (r_buf r = b) then r :: refs_of b rs else refs_of b rs.
Proof. unfold refs_of. rewrite filter_cons. done. Qed.

(** The references around the [k]-th one. *)
Lemma refs_split (rs : list cref) k r :
  rs !! k = Some r → ∃ A B, rs = A ++ r :: B ∧ (∀ r', <[k := r']> rs = A ++ r' :: B) ∧ delete k rs = A ++ B.
Proof.
  intros Hk. exists (take k rs), (drop (S k) rs). split; [symmetry; by apply take_drop_middle|]. split.
  - intros r'. apply insert_take_drop. by eapply lookup_lt_Some.
  - apply delete_take_drop.
Qed.

Definition holders (rs : list cref) : list cref := filter is_holding rs.
Lemma holders_cons r rs : holders (r :: rs) = if is_holding r then r :: holders rs else holders rs.
Proof. unfold holders. rewrite filter_cons. by destruct (is_holding r). Qed.
Lemma holders_app A B : holders (A ++ B) = holders A ++ holders B.
Proof. apply filter_app. Qed.

(** A holder is the only one. *)
Lemma holding_alone x A r B : lock_ok x (A ++ r :: B) → is_holding r = true →
  holders A = [] ∧ holders B = [] ∧ sl_locked (b_lock x) = 1 ∧ sl_pid (b_lock x) = r_pid r.
Proof.
  unfold lock_ok. fold (holders (A ++ r :: B)). intros Hl Hr. rewrite holders_app, holders_cons, Hr in Hl.
  destruct (holders A) as [|a [|]]; simpl in Hl; [|done..]. by destruct (holders B).
Qed.

(** A reference that is no holder does not count for the lock. *)
Lemma lock_ok_other x x' A r B r' :
  lock_ok x (A ++ r :: B) → b_lock x' = b_lock x → is_holding r = is_holding r' → r_pid r = r_pid r' → lock_ok x' (A ++ r' :: B).
Proof.
  unfold lock_ok. fold (holders (A ++ r :: B)) (holders (A ++ r' :: B)). rewrite !holders_app, !holders_cons. intros Hl Hx Hh Hp.
  rewrite <-Hh, Hx. destruct (is_holding r); [|done]. destruct (holders A) as [|a [|]]; simpl in *; [|done..].
  destruct (holders B); [|done]. by rewrite <-Hp.
Qed.

Lemma holders_modified rs : holders rs = [] → ¬ modified rs.
Proof.
  intros Hh (r & Hr & Hm). assert (Hx : r ∈ holders rs); [|rewrite Hh in Hx; by apply elem_of_nil in Hx].
  apply list_elem_of_filter. split; [|done]. unfold is_holding. by rewrite Hm.
Qed.
Lemma modified_middle A r B : holders A = [] → holders B = [] → modified (A ++ r :: B) ↔ r_stat r = Holding true.
Proof.
  intros HA HB. split.
  - intros (q & Hq & Hm). apply elem_of_app in Hq as [Hq|[->|Hq]%elem_of_cons]; [|done|].
    + destruct (holders_modified A HA). by exists q.
    + destruct (holders_modified B HB). by exists q.
  - intros Hr. exists r. split; [|done]. apply elem_of_app. right. by left.
Qed.
Lemma modified_drop A r B : is_holding r = false → modified (A ++ r :: B) ↔ modified (A ++ B).
Proof.
  intros Hr. split; intros (q & Hq & Hm); exists q; (split; [|done]); apply elem_of_app in Hq as [Hq|Hq]; apply elem_of_app; auto.
  - apply elem_of_cons in Hq as [->|Hq]; [|by right]. unfold is_holding in Hr. by rewrite Hm in Hr.
  - right. by right.
Qed.

(** ** Changing one buffer *)

(** What the other clauses need when buffer [i] becomes [x'] and the references
    to other buffers stay. *)
Lemma cache_inv_put c i x x' rs' U' d' :
  cache_inv c → bufs (cs c) !! i = Some x → buf_ok x' (refs_of (Z.of_nat i) rs') U' d' →
  (∀ j, j ≠ i → refs_of (Z.of_nat j) rs' = refs_of (Z.of_nat j) (crefs c)) →
  (∀ j y, j ≠ i → bufs (cs c) !! j = Some y → b_blkno x' = b_blkno y → b_blkno x' = 0) →
  (∀ m, m ≠ 0 → m ≠ b_blkno x' → disk_read m d' = disk_read m (disk (cs c))) →
  (∀ k r, rs' !! k = Some r → 0 ≤ r_buf r < NNUM) → Z.of_nat (length rs') < 2 ^ 32 →
  (∀ m, m ≠ b_blkno x → m ∈ U' ↔ m ∈ stale c) → (b_blkno x ∈ U' → b_blkno x' = b_blkno x) → (b_blkno x' = 0 → 0 ∉ U') →
  ∀ h, (∃ l, dlist h HEAD l ∧ l ≡ₚ seqZ 0 NNUM) →
  cache_inv (mk_cstate (mk_bcache (<[i := x']> (bufs (cs c))) h d') rs' U').
Proof.
  intros HI Hi Hx' Hoth Hu Hd Hr Hn HU HUx HU0 h Hh. pose proof (lookup_lt_Some _ _ _ Hi) as Hlt. split; simpl; try done.
  - rewrite length_insert. apply (ci_len _ HI).
  - intros j y. destruct (decide (j = i)) as [->|Hj].
    + rewrite list_lookup_insert_eq by done. by intros [= <-].
    + rewrite list_lookup_insert_ne by done. intros Hy. rewrite Hoth by done. pose proof (ci_buf _ HI j y Hy) as Hb.
      destruct Hb as [Hb1 Hb2 Hb3 Hb4 Hb5 Hb6 Hb7 Hb8 Hb9].
      assert (Hyx : b_blkno y ≠ 0 → b_blkno y ≠ b_blkno x) by (intros H0 Heq; apply Hj; by apply (ci_uniq _ HI j i y x)).
      split; try done.
      * intros Hv Hm Hns. destruct (decide (b_blkno y = 0)) as [H0|H0]; [by destruct (Hb5 H0)|].
        rewrite Hb6; [|done|done|rewrite <-HU by auto; done]. symmetry. apply Hd; [done|].
        intros Heq. apply H0. rewrite Heq. by apply (Hu j y).
      * intros Hs. destruct (decide (b_blkno y = 0)) as [H0|H0]; [|apply Hb8; rewrite <-HU by auto; done].
        exfalso. destruct (decide (b_blkno x = 0)) as [Hx0|Hx0].
        -- rewrite H0 in Hs. apply HU0; [|done]. rewrite HUx; [done|]. by rewrite Hx0.
        -- rewrite HU in Hs by congruence. destruct (ci_stale _ HI _ Hs) as [Hne _]. done.
  - intros j1 j2 y1 y2. destruct (decide (j1 = i)) as [->|H1], (decide (j2 = i)) as [->|H2];
      rewrite ?list_lookup_insert_eq, ?list_lookup_insert_ne by done; intros Hy1 Hy2 Heq Hne; simplify_eq; [done|..].
    + destruct Hne. by apply (Hu j2 y2).
    + destruct Hne. rewrite Heq. by apply (Hu j1 y1).
    + by apply (ci_uniq _ HI j1 j2 y1 y2).
  - intros n HnU. destruct (decide (n = b_blkno x)) as [->|Hne].
    + pose proof (HUx HnU) as Heq. split; [intros H0; rewrite H0 in *; by apply HU0|].
      exists i, x'. by rewrite list_lookup_insert_eq.
    + apply HU in HnU; [|done]. destruct (ci_stale _ HI n HnU) as (Hn0 & j & y & Hy & Hyn). split; [done|].
      exists j, y. split; [|done]. rewrite list_lookup_insert_ne; [done|]. intros <-. congruence.
Qed.

(** The lookup of a block. *)
Lemma view_cached c i x :
  cache_inv c → bufs (cs c) !! i = Some x → b_valid x ≠ 0 → view (cs c) (b_blkno x) = b_data x.
Proof.
  intros HI Hi Hv. unfold view. destruct (list_find _ _) as [[j y]|] eqn:E.
  - apply list_find_Some in E as (Hj & [Hvy Hn] & _). assert (j = i) as ->; [|congruence].
    apply (ci_uniq _ HI j i y x); [done..|]. rewrite Hn. intros H0. pose proof (ci_buf _ HI i x Hi) as Hb.
    by destruct (bo_zero _ _ _ _ Hb H0).
  - apply list_find_None in E. rewrite Forall_lookup in E. by destruct (E i x Hi).
Qed.
Lemma view_uncached s n :
  (∀ i x, bufs s !! i = Some x → b_valid x ≠ 0 → b_blkno x ≠ n) → view s n = disk_read n (disk s).
Proof.
  intros Hn. unfold view. destruct (list_find _ _) as [[j y]|] eqn:E; [|done].
  apply list_find_Some in E as (Hj & [Hv Hb] & _). by destruct (Hn j y).
Qed.

(** The view after buffer [i] became [x'] and the device [d']. *)
Lemma view_put c i x x' d' rs' U' h n v :
  let c' := mk_cstate (mk_bcache (<[i := x']> (bufs (cs c))) h d') rs' U' in
  cache_inv c → cache_inv c' → bufs (cs c) !! i = Some x →
  (b_valid x' ≠ 0 → b_blkno x' = n → b_data x' = v) →
  (b_valid x' = 0 ∨ b_blkno x' ≠ n → view (cs c) n = v ∧ disk_read n d' = disk_read n (disk (cs c)) ∧
     (b_valid x ≠ 0 → b_blkno x = n → disk_read n (disk (cs c)) = v)) →
  view (cs c') n = v.
Proof.
  intros c' HI HI' Hi Hin Hout. pose proof (lookup_lt_Some _ _ _ Hi) as Hlt.
  assert (Hi' : bufs (cs c') !! i = Some x') by (by apply list_lookup_insert_eq).
  destruct (decide (b_valid x' ≠ 0 ∧ b_blkno x' = n)) as [[Hv Hn]|Hno].
  { rewrite <-(Hin Hv Hn), <-Hn. by apply (view_cached c' i x'). }
  assert (Hno' : b_valid x' = 0 ∨ b_blkno x' ≠ n).
  { destruct (decide (b_valid x' = 0)); [by left|right]. intros ?. by apply Hno. }
  destruct (Hout Hno') as (Hv & Hd & Hx). rewrite <-Hv. unfold view at 2.
  destruct (list_find _ _) as [[j y]|] eqn:E.
  - apply list_find_Some in E as (Hj & [Hvy Hn] & _). destruct (decide (j = i)) as [->|Hji].
    + assert (y = x) as -> by congruence. rewrite <-Hn in *.
      rewrite <-(view_cached c i x HI Hi Hvy), Hv, <-(Hx Hvy eq_refl), <-Hd. apply view_uncached.
      intros k z. simpl. destruct (decide (k = i)) as [->|Hk].
      * rewrite list_lookup_insert_eq by done. intros [= <-] Hz Hzn. destruct Hno' as [?|Hne]; done.
      * rewrite list_lookup_insert_ne by done. intros Hk' Hz Hzn. apply Hk. apply (ci_uniq _ HI k i z x); [done..|].
        rewrite Hzn. intros H0. by destruct (bo_zero _ _ _ _ (ci_buf _ HI i x Hi) H0).
    + rewrite <-Hn. apply (view_cached c' j y); [done| |done]. simpl. by rewrite list_lookup_insert_ne.
  - apply list_find_None in E. rewrite Forall_lookup in E. rewrite <-Hd. apply view_uncached.
    intros k z. simpl. destruct (decide (k = i)) as [->|Hk].
    + rewrite list_lookup_insert_eq by done. intros [= <-] Hz Hzn. destruct Hno' as [?|Hne]; done.
    + rewrite list_lookup_insert_ne by done. intros Hk' Hz Hzn. by destruct (E k z Hk').
Qed.

Lemma view_keep c i x x' rs' U' h n :
  let c' := mk_cstate (mk_bcache (<[i := x']> (bufs (cs c))) h (disk (cs c))) rs' U' in
  cache_inv c → cache_inv c' → bufs (cs c) !! i = Some x →
  b_data x' = b_data x → b_valid x' = b_valid x → b_blkno x' = b_blkno x → view (cs c') n = view (cs c) n.
Proof.
  intros c' HI HI' Hi Hd Hv Hn. apply (view_put c i x x' (disk (cs c)) rs' U' h n _ HI HI' Hi).
  - rewrite Hv, Hn, Hd. intros Hx <-. symmetry. by apply (view_cached c i x HI Hi).
  - intros Hno. split_and!; [done|done|]. intros Hx Hxn. destruct Hno as [?|?]; congruence.
Qed.

Lemma ci_lookup c b : cache_inv c → 0 ≤ b < NNUM → is_Some (bufs (cs c) !! Z.to_nat b).
Proof. intros HI Hb. apply lookup_lt_is_Some. rewrite (ci_len _ HI). lia. Qed.

Lemma on_cache_run {A} (m : K st A) c x s' : m (cs c) = Ret (x, s') → on_cache m c = Ret (x, set_cs s' c).
Proof. intros Hm. unfold on_cache, zoom. by rewrite Hm. Qed.

(** What [bget_find] does: a hit, the buffer furthest from the head that is not
    in use, or nothing. *)
Lemma bget_find_gen s n l :
  length (bufs s) = Z.to_nat NNUM → dlist (links s) HEAD l → l ≡ₚ seqZ 0 NNUM →
  (∀ i x, bufs s !! i = Some x → b_dev x = 0 ∧ b_dirty x = 0) →
  (bget_find 0 n s = Ret (None, s) ∧ ∀ i x, bufs s !! i = Some x → b_refcnt x ≠ 0) ∨
  ∃ i x x', bufs s !! i = Some x ∧ bget_find 0 n s = Ret (Some (Z.of_nat i), bput s (Z.of_nat i) x') ∧
    ((b_blkno x = n ∧ x' = set_refcnt (u32 (b_refcnt x + 1)) x) ∨
     (b_refcnt x = 0 ∧ x' = mk_buf (b_data x) 0 (b_dirty x) 0 n 1 (b_lock x) ∧
      ∀ j y, bufs s !! j = Some y → b_blkno y ≠ n)).
Proof.
  intros Hcl [Hnd Hseg] Hperm Hbufs.
  assert (Hl : ∀ b, b ∈ l ↔ 0 ≤ b < NNUM) by (intros b; rewrite Hperm, elem_of_seqZ; lia).
  assert (Hall : ∀ b, b ∈ l → is_Some (bufs s !! Z.to_nat b)) by (intros b Hb%Hl; apply lookup_lt_is_Some; rewrite Hcl; lia).
  assert (Hlen : (length l < scan_fuel)%nat) by (rewrite (Permutation_length Hperm), length_seqZ; unfold scan_fuel; lia).
  assert (Hhd : HEAD ∉ l) by (rewrite Hl; unfold HEAD; lia).
  assert (Hidx : ∀ i x, bufs s !! i = Some x → Z.of_nat i ∈ l).
  { intros i x Hi. apply Hl. apply lookup_lt_Some in Hi.
    rewrite Hcl in Hi. unfold NNUM in *. lia. }
  destruct (seg_chain_fwd HEAD (links s) HEAD l Hhd Hseg) as (f & Hf & Hcf).
  destruct (seg_chain_bwd HEAD (links s) l HEAD Hhd Hseg) as (p & Hp & Hcb).
  unfold bget_find. rewrite (bind_Ret _ _ _ _ _ (on_links_run _ s _ _ (get_next_eq _ _ _ Hf))), set_links_id.
  set (t1 := λ x, bool_decide (b_blkno x = n) && bool_decide (b_dev x = 0)).
  rewrite (bind_Ret _ _ _ _ _ (scan_run scan_fuel true t1 f l s Hcf Hlen Hall)).
  destruct (first_buf t1 (bufs s) l) as [b|] eqn:E1.
  - apply first_buf_Some in E1 as (Hb & x & Hx & Ht). apply andb_true_iff in Ht as [Ht%bool_decide_eq_true _].
    right. exists (Z.to_nat b), x. apply Hl in Hb. rewrite Z2Nat.id by lia. eexists. split; [done|]. split; [|by left].
    rewrite (bind_Ret _ _ _ _ _ (get_buf_run s b x Hx)). done.
  - pose proof (first_buf_None _ _ _ Hall E1) as Hmiss.
    rewrite (bind_Ret _ _ _ _ _ (on_links_run _ s _ _ (get_prev_eq _ _ _ Hp))), set_links_id.
    set (t2 := λ x, bool_decide (b_refcnt x = 0) && bool_decide (b_dirty x = 0)).
    assert (Hall' : ∀ b, b ∈ reverse l → is_Some (bufs s !! Z.to_nat b)) by (intros b; rewrite elem_of_reverse; apply Hall).
    assert (Hlen' : (length (reverse l) < scan_fuel)%nat) by (by rewrite length_reverse).
    rewrite (bind_Ret _ _ _ _ _ (scan_run scan_fuel false t2 p (reverse l) s Hcb Hlen' Hall')).
    destruct (first_buf t2 (bufs s) (reverse l)) as [b|] eqn:E2.
    + apply first_buf_Some in E2 as (Hb & x & Hx & Ht). apply andb_true_iff in Ht as [Ht%bool_decide_eq_true _].
      right. exists (Z.to_nat b), x. apply elem_of_reverse, Hl in Hb. rewrite Z2Nat.id by lia. eexists. split; [done|].
      split; [rewrite (bind_Ret _ _ _ _ _ (get_buf_run s b x Hx)); done|]. right. split; [done|]. rewrite Ht. split; [done|].
      intros j y Hy Heq. assert (Hj : t1 y = false).
      { apply (Hmiss (Z.of_nat j)); [by eapply Hidx|by rewrite Nat2Z.id]. }
      unfold t1 in Hj. rewrite bool_decide_eq_true_2, (bool_decide_eq_true_2 (b_dev y = 0)) in Hj; [done| |done].
      apply (Hbufs j y Hy).
    + left. split; [done|]. intros i x Hi H0. assert (Ht : t2 x = false).
      { apply (first_buf_None _ _ _ Hall' E2 (Z.of_nat i)); [apply elem_of_reverse; by eapply Hidx|by rewrite Nat2Z.id]. }
      unfold t2 in Ht. rewrite bool_decide_eq_true_2, bool_decide_eq_true_2 in Ht; [done| |done].
      apply (Hbufs i x Hi).
Qed.

Lemma bget_find_run c n :
  cache_inv c →
  let s := cs c in
  (bget_find 0 n s = Ret (None, s) ∧ ∀ i x, bufs s !! i = Some x → b_refcnt x ≠ 0) ∨
  ∃ i x x', bufs s !! i = Some x ∧ bget_find 0 n s = Ret (Some (Z.of_nat i), bput s (Z.of_nat i) x') ∧
    ((b_blkno x = n ∧ x' = set_refcnt (u32 (b_refcnt x + 1)) x) ∨
     (b_refcnt x = 0 ∧ x' = mk_buf (b_data x) 0 (b_dirty x) 0 n 1 (b_lock x) ∧
      ∀ j y, bufs s !! j = Some y → b_blkno y ≠ n)).
Proof.
  intros HI. destruct (ci_list _ HI) as (l & Hl & Hp). apply (bget_find_gen _ n l (ci_len _ HI) Hl Hp).
  intros i x Hx. split; [apply (bo_dev _ _ _ _ (ci_buf _ HI i x Hx))|apply (bo_dirty _ _ _ _ (ci_buf _ HI i x Hx))].
Qed.

Lemma refs_of_mid b A r B : r_buf r = b → refs_of b (A ++ r :: B) = refs_of b A ++ r :: refs_of b B.
Proof. intros Hr. by rewrite refs_of_app, refs_of_cons, decide_True. Qed.
Lemma refs_of_skip b A r B : r_buf r ≠ b → refs_of b (A ++ r :: B) = refs_of b (A ++ B).
Proof. intros Hr. by rewrite !refs_of_app, refs_of_cons, decide_False. Qed.

(** A reference and its buffer. *)
Record ref_at (c : cstate) (k : nat) (r : cref) (A B : list cref) (x : buf) : Prop := {
  ra_refs : crefs c = A ++ r :: B;
  ra_set r' : <[k := r']> (crefs c) = A ++ r' :: B;
  ra_del : delete k (crefs c) = A ++ B;
  ra_buf : bufs (cs c) !! Z.to_nat (r_buf r) = Some x;
  ra_ok : buf_ok x (refs_of (r_buf r) A ++ r :: refs_of (r_buf r) B) (stale c) (disk (cs c));
  ra_nonzero : b_blkno x ≠ 0;
  ra_idx : Z.of_nat (Z.to_nat (r_buf r)) = r_buf r
}.

Lemma ref_at_intro c k r : cache_inv c → crefs c !! k = Some r → ∃ A B x, ref_at c k r A B x.
Proof.
  intros HI Hk. destruct (refs_split _ _ _ Hk) as (A & B & Hc & Hs & Hd). pose proof (ci_refs _ HI k r Hk) as Hb.
  destruct (ci_lookup c (r_buf r) HI Hb) as [x Hx]. exists A, B, x. pose proof (ci_buf _ HI _ x Hx) as Hok.
  rewrite Z2Nat.id, Hc, refs_of_mid in Hok by (done || lia). split; try done; [|lia].
  intros H0. destruct (bo_zero _ _ _ _ Hok H0) as [_ Hnil]. by destruct (refs_of (r_buf r) A).
Qed.

(** A reference keeps its buffer and changes its state, the buffer its contents. *)
Lemma inv_ref c k r A B x r' x' U' d' :
  cache_inv c → crefs c !! k = Some r → ref_at c k r A B x → r_buf r' = r_buf r → b_blkno x' = b_blkno x →
  buf_ok x' (refs_of (r_buf r) A ++ r' :: refs_of (r_buf r) B) U' d' →
  (∀ m, m ≠ 0 → m ≠ b_blkno x → disk_read m d' = disk_read m (disk (cs c))) → (∀ m, m ≠ b_blkno x → m ∈ U' ↔ m ∈ stale c) →
  cache_inv (mk_cstate (mk_bcache (<[Z.to_nat (r_buf r) := x']> (bufs (cs c))) (links (cs c)) d') (<[k := r']> (crefs c)) U').
Proof.
  intros HI Hk Hra Hb Hn Hok Hd HU. pose proof (ra_nonzero _ _ _ _ _ _ Hra) as Hx0. pose proof (ra_idx _ _ _ _ _ _ Hra) as Hidx. apply (cache_inv_put c _ x).
  - done.
  - apply (ra_buf _ _ _ _ _ _ Hra).
  - rewrite (ra_set _ _ _ _ _ _ Hra), refs_of_mid, Hidx by (rewrite Hidx; done). done.
  - intros j Hj. rewrite (ra_set _ _ _ _ _ _ Hra), (ra_refs _ _ _ _ _ _ Hra), !refs_of_skip; [done|lia|lia].
  - intros j y Hj Hy Heq. rewrite Hn in *. destruct (decide (b_blkno x = 0)); [done|]. destruct Hj.
    apply (ci_uniq _ HI _ _ y x); [done|apply (ra_buf _ _ _ _ _ _ Hra)|congruence..].
  - rewrite Hn. done.
  - intros k' q Hq. destruct (decide (k' = k)) as [->|Hkk].
    + rewrite list_lookup_insert_eq in Hq by (by eapply lookup_lt_Some). injection Hq as <-. rewrite Hb. by apply (ci_refs _ HI k).
    + rewrite list_lookup_insert_ne in Hq by done. by apply (ci_refs _ HI k').
  - rewrite length_insert. apply (ci_count _ HI).
  - done.
  - done.
  - congruence.
  - apply (ci_list _ HI).
Qed.

(** The view a step leaves. *)
Definition new_view (e : cevent) (c : cstate) (n : Z) : block :=
  match e with
  | Cmodify k data =>
      match crefs c !! k with
      | Some r => match bufs (cs c) !! Z.to_nat (r_buf r) with
                  | Some x => if decide (b_blkno x = n) then data else view (cs c) n
                  | None => view (cs c) n
                  end
      | None => view (cs c) n
      end
  | _ => view (cs c) n
  end.

(** A buffer in use keeps its block. *)
Definition keeps (c c' : cstate) : Prop :=
  ∀ i x, bufs (cs c) !! i = Some x → refs_of (Z.of_nat i) (crefs c) ≠ [] →
    ∃ x', bufs (cs c') !! i = Some x' ∧ b_blkno x' = b_blkno x ∧ (b_valid x ≠ 0 → b_valid x' ≠ 0).

Lemma keeps_put c i x x' h d rs U :
  bufs (cs c) !! i = Some x → refs_of (Z.of_nat i) (crefs c) = [] ∨ b_blkno x' = b_blkno x ∧ (b_valid x ≠ 0 → b_valid x' ≠ 0) →
  keeps c (mk_cstate (mk_bcache (<[i := x']> (bufs (cs c))) h d) rs U).
Proof.
  intros Hi Hx' j y Hj Hne. simpl. destruct (decide (i = j)) as [<-|Hij].
  - rewrite list_lookup_insert_eq by (by eapply lookup_lt_Some). exists x'. assert (y = x) as -> by congruence.
    destruct Hx' as [?|[? ?]]; done.
  - rewrite list_lookup_insert_ne by done. by exists y.
Qed.
Lemma keeps_refl c : keeps c c.
Proof. intros i x Hi _. by exists x. Qed.

Definition step_ok (e : cevent) (c : cstate) : Prop :=
  ∃ c', cache_step e c = Ret (tt, c') ∧ cache_inv c' ∧
    (∀ n, n ≠ 0 → n ∉ stale c → view (cs c') n = new_view e c n) ∧ keeps c c'.

Lemma with_ref_run c k r f : crefs c !! k = Some r → with_ref k f c = f r c.
Proof. intros Hk. unfold with_ref. by rewrite Hk. Qed.

Lemma blkno_of_run s b x : bufs s !! Z.to_nat b = Some x → blkno_of s b = b_blkno x.
Proof. intros Hx. unfold blkno_of. by rewrite Hx. Qed.

Lemma lock_step_ok c k r : cache_inv c → crefs c !! k = Some r → r_stat r = Waiting → step_ok (Clock k) c.
Proof.
  intros HI Hk Hw. destruct (ref_at_intro c k r HI Hk) as (A & B & x & Hra). pose proof (ra_buf _ _ _ _ _ _ Hra) as Hx.
  pose proof (ra_ok _ _ _ _ _ _ Hra) as Hok. unfold step_ok. simpl. rewrite (with_ref_run c k r _ Hk).
  assert (Hnh : is_holding r = false) by (unfold is_holding; by rewrite Hw).
  destruct (decide (sl_locked (b_lock x) ≠ 0)) as [Hl|Hl].
  - assert (Ha : acquiresleep (r_pid r) (r_buf r) (cs c) = Ret (false, cs c)).
    { unfold acquiresleep. rewrite (bind_Ret _ _ _ _ _ (get_buf_run _ _ _ Hx)). by rewrite decide_True. }
    rewrite (bind_Ret _ _ _ _ _ (on_cache_run _ c _ _ Ha)). exists c. split_and!; [by destruct c|done|done|apply keeps_refl].
  - set (x' := set_lock (mk_sleeplock 1 (r_pid r)) x).
    assert (Ha : acquiresleep (r_pid r) (r_buf r) (cs c) = Ret (true, bput (cs c) (r_buf r) x')).
    { unfold acquiresleep. rewrite (bind_Ret _ _ _ _ _ (get_buf_run _ _ _ Hx)). by rewrite decide_False. }
    rewrite (bind_Ret _ _ _ _ _ (on_cache_run _ c _ _ Ha)).
    assert (Hbn : blkno_of (bput (cs c) (r_buf r) x') (r_buf r) = b_blkno x) by (apply (blkno_of_run _ _ x'), (bput_same _ _ _ x Hx)).
    set (b := bool_decide (b_blkno x ∈ stale c)). set (r' := mk_cref (r_pid r) (r_buf r) (Holding b)).
    assert (Hh : holders (refs_of (r_buf r) A) = [] ∧ holders (refs_of (r_buf r) B) = []).
    { pose proof (bo_lock _ _ _ _ Hok) as Hlk. unfold lock_ok in Hlk. fold (holders (refs_of (r_buf r) A ++ r :: refs_of (r_buf r) B)) in Hlk.
      rewrite holders_app, holders_cons, Hnh in Hlk.
      destruct (holders (refs_of (r_buf r) A)) as [|a [|]], (holders (refs_of (r_buf r) B)) as [|b' [|]]; simpl in Hlk; try done; destruct Hlk; lia. }
    destruct Hh as [HA HB].
    assert (HI' : cache_inv (mk_cstate (bput (cs c) (r_buf r) x') (<[k := r']> (crefs c)) (stale c ∖ {[b_blkno x]}))).
    { apply (inv_ref c k r A B x); try done; [|intros m Hm; set_solver]. destruct Hok as [H1 H2 H3 H4 H5 H6 H7 H8 H9].
      split; try done.
      - change (b_refcnt x') with (b_refcnt x). rewrite H1, !length_app. done.
      - unfold lock_ok. fold (holders (refs_of (r_buf r) A ++ r' :: refs_of (r_buf r) B)). rewrite holders_app, holders_cons, HA, HB. done.
      - intros H0. by destruct (ra_nonzero _ _ _ _ _ _ Hra).
      - intros Hv Hnm _. apply H6; [done| |].
        + intros Hm. apply (modified_middle _ r _ HA HB) in Hm. by rewrite Hw in Hm.
        + intros Hs. apply Hnm. apply (modified_middle _ r' _ HA HB). simpl. unfold b. by rewrite bool_decide_eq_true_2.
      - intros Hm. apply (modified_middle _ r' _ HA HB) in Hm. simpl in Hm. injection Hm as Hm. unfold b in Hm.
        apply bool_decide_eq_true in Hm. by apply H8.
      - change (b_blkno x') with (b_blkno x). set_solver. }
    eexists. split; [|split; [exact HI'|split; [|by apply (keeps_put c _ x x'); [|right]]]].
    + unfold set_ref, modify, gets, mbind, K_bind, is_stale, set_cs, set_crefs, set_stale, id. simpl. rewrite Hbn. done.
    + intros n Hn _. by apply (view_keep c _ x x' _ _ _ n HI HI' Hx).
Qed.

(** The steps of the thread that holds the lock. *)
Lemma holder_facts c k r A B x b :
  ref_at c k r A B x → r_stat r = Holding b →
  holders (refs_of (r_buf r) A) = [] ∧ holders (refs_of (r_buf r) B) = [] ∧
  holdingsleep (r_pid r) (r_buf r) (cs c) = Ret (true, cs c) ∧ (b_blkno x ∉ stale c) ∧
  (∀ r', modified (refs_of (r_buf r) A ++ r' :: refs_of (r_buf r) B) ↔ r_stat r' = Holding true).
Proof.
  intros Hra Hb. pose proof (ra_ok _ _ _ _ _ _ Hra) as Hok.
  destruct (holding_alone _ _ _ _ (bo_lock _ _ _ _ Hok)) as (HA & HB & Hl & Hp); [unfold is_holding; by rewrite Hb|].
  split_and!; [done|done| | |intros r'; by apply modified_middle].
  - unfold holdingsleep. rewrite (bind_Ret _ _ _ _ _ (get_buf_run _ _ _ (ra_buf _ _ _ _ _ _ Hra))), Hl, Hp.
    by rewrite bool_decide_eq_true_2, bool_decide_eq_true_2.
  - intros Hs. destruct (bo_stale _ _ _ _ Hok Hs) as [_ Hnil]. fold (holders (refs_of (r_buf r) A ++ r :: refs_of (r_buf r) B)) in Hnil.
    rewrite holders_app, holders_cons in Hnil. unfold is_holding in Hnil. rewrite Hb in Hnil. by destruct (holders (refs_of (r_buf r) A)).
Qed.

(** A holder whose reference stays a holder's. *)
Lemma holder_ok c k r A B x b r' x' d' :
  ref_at c k r A B x → r_stat r = Holding b → r_pid r' = r_pid r → is_holding r' = true →
  b_refcnt x' = b_refcnt x → b_dirty x' = b_dirty x → b_dev x' = b_dev x → b_lock x' = b_lock x → b_blkno x' = b_blkno x →
  (b_valid x' ≠ 0 → r_stat r' ≠ Holding true → b_data x' = disk_read (b_blkno x') d') →
  (r_stat r' = Holding true → b_valid x' ≠ 0) → (b_valid x' ≠ 0 → block_ok (b_data x')) →
  buf_ok x' (refs_of (r_buf r) A ++ r' :: refs_of (r_buf r) B) (stale c) d'.
Proof.
  intros Hra Hb Hp Hh H1 H2 H3 H4 H5 H6 H7 H8. destruct (holder_facts c k r A B x b Hra Hb) as (HA & HB & _ & Hns & Hm).
  pose proof (ra_nonzero _ _ _ _ _ _ Hra) as H0.
  pose proof (ra_ok _ _ _ _ _ _ Hra) as Hok. split.
  - rewrite H1, (bo_ref _ _ _ _ Hok), !length_app. done.
  - by rewrite H2, (bo_dirty _ _ _ _ Hok).
  - by rewrite H3, (bo_dev _ _ _ _ Hok).
  - apply (lock_ok_other x x' _ r _ r' (bo_lock _ _ _ _ Hok)); [done| |done]. rewrite Hh. unfold is_holding. by rewrite Hb.
  - rewrite H5. done.
  - intros Hv Hnm _. apply H6; [done|]. intros Hx. by apply Hnm, Hm.
  - intros Hx%Hm. by apply H7.
  - rewrite H5. done.
  - done.
Qed.

Lemma fill_step_ok c k r b : cache_inv c → crefs c !! k = Some r → r_stat r = Holding b → step_ok (Cfill k) c.
Proof.
  intros HI Hk Hw. destruct (ref_at_intro c k r HI Hk) as (A & B & x & Hra). pose proof (ra_buf _ _ _ _ _ _ Hra) as Hx.
  unfold step_ok. simpl. rewrite (with_ref_run c k r _ Hk). destruct (decide (b_valid x ≠ 0)) as [Hv|Hv].
  - assert (Hf : bread_fill (r_buf r) (cs c) = Ret (tt, cs c)).
    { unfold bread_fill. rewrite (bind_Ret _ _ _ _ _ (get_buf_run _ _ _ Hx)). by rewrite decide_True. }
    rewrite (on_cache_run _ c _ _ Hf). exists c. split_and!; [by destruct c|done|done|apply keeps_refl].
  - set (x' := set_valid 1 (set_data (disk_read (b_blkno x) (disk (cs c))) x)).
    assert (Hf : bread_fill (r_buf r) (cs c) = Ret (tt, bput (cs c) (r_buf r) x')).
    { unfold bread_fill. rewrite (bind_Ret _ _ _ _ _ (get_buf_run _ _ _ Hx)), decide_False by done.
      unfold virtio_disk_rw. rewrite bind_assoc, (bind_Ret _ _ _ _ _ (get_buf_run _ _ _ Hx)).
      unfold gets. rewrite bind_assoc. unfold mbind at 1, K_bind at 1. unfold put_buf, modify. unfold mbind at 1, K_bind at 1.
      fold (bput (cs c) (r_buf r) (set_data (disk_read (b_blkno x) (disk (cs c))) x)).
      rewrite (bind_Ret _ _ _ _ _ (get_buf_run _ _ _ (bput_same (cs c) (r_buf r) _ x Hx))). f_equal. f_equal.
      apply (bput_bput (cs c) (r_buf r)). }
    rewrite (on_cache_run _ c _ _ Hf).
    assert (HI' : cache_inv (mk_cstate (bput (cs c) (r_buf r) x') (<[k := r]> (crefs c)) (stale c))).
    { apply (inv_ref c k r A B x); try done. apply (holder_ok c k r A B x b); try done; [unfold is_holding; by rewrite Hw|]. intros _. apply disk_len. }
    rewrite (list_insert_id _ _ _ Hk) in HI'. eexists. split; [done|]. split; [exact HI'|].
    split; [|by apply (keeps_put c _ x x'); [|right]]. intros n Hn _.
    apply (view_put c _ x x' (disk (cs c)) _ _ _ n _ HI HI' Hx).
    + intros _ <-. symmetry. apply view_uncached. intros j y Hy Hyv Hyn.
      assert (j = Z.to_nat (r_buf r)) as -> by (apply (ci_uniq _ HI _ _ y x); [done|done|done|]; rewrite Hyn; done).
      assert (y = x) as -> by congruence. by apply Hv.
    + intros _. split_and!; [done|done|]. intros. by destruct Hv.
Qed.

Lemma modify_step_ok c k r b data :
  cache_inv c → crefs c !! k = Some r → r_stat r = Holding b → filled c r → block_ok data →
  step_ok (Cmodify k data) c.
Proof.
  intros HI Hk Hw Hf Hdl. destruct (ref_at_intro c k r HI Hk) as (A & B & x & Hra). pose proof (ra_buf _ _ _ _ _ _ Hra) as Hx.
  destruct Hf as (y & Hy & Hv). assert (y = x) as -> by congruence.
  unfold step_ok. simpl. rewrite (with_ref_run c k r _ Hk), Hk, Hx.
  assert (Hm : (x ← get_buf (r_buf r); put_buf (r_buf r) (set_data data x)) (cs c) = Ret (tt, bput (cs c) (r_buf r) (set_data data x)))
    by (by rewrite (bind_Ret _ _ _ _ _ (get_buf_run _ _ _ Hx))).
  rewrite (bind_Ret _ _ _ _ _ (on_cache_run _ c _ _ Hm)). set (x' := set_data data x). set (r' := mk_cref (r_pid r) (r_buf r) (Holding true)).
  assert (HI' : cache_inv (mk_cstate (bput (cs c) (r_buf r) x') (<[k := r']> (crefs c)) (stale c))).
  { apply (inv_ref c k r A B x); try done. by apply (holder_ok c k r A B x b). }
  eexists. split; [done|]. split; [exact HI'|]. split; [|by apply (keeps_put c _ x x'); [|right]]. intros n Hn _. apply (view_put c _ x x' (disk (cs c)) _ _ _ n _ HI HI' Hx).
  - intros _ Heq. change (b_blkno x') with (b_blkno x) in Heq. by rewrite decide_True.
  - intros [?|Hne]; [done|]. change (b_blkno x') with (b_blkno x) in Hne. rewrite decide_False by done. by split_and!.
Qed.

Lemma write_step_ok c k r b :
  cache_inv c → crefs c !! k = Some r → r_stat r = Holding b → filled c r → step_ok (Cwrite k) c.
Proof.
  intros HI Hk Hw Hf. destruct (ref_at_intro c k r HI Hk) as (A & B & x & Hra). pose proof (ra_buf _ _ _ _ _ _ Hra) as Hx.
  destruct Hf as (y & Hy & Hv). assert (y = x) as -> by congruence.
  destruct (holder_facts c k r A B x b Hra Hw) as (_ & _ & Hh & _ & _).
  pose proof (bo_len _ _ _ _ (ra_ok _ _ _ _ _ _ Hra) Hv) as Hbl.
  unfold step_ok. simpl. rewrite (with_ref_run c k r _ Hk). set (d' := disk_write (b_blkno x) (b_data x) (disk (cs c))).
  assert (Hm : bwrite (r_pid r) (r_buf r) (cs c) = Ret (tt, mk_bcache (<[Z.to_nat (r_buf r) := x]> (bufs (cs c))) (links (cs c)) d')).
  { unfold bwrite. rewrite (bind_Ret _ _ _ _ _ Hh). simpl. unfold virtio_disk_rw. rewrite (bind_Ret _ _ _ _ _ (get_buf_run _ _ _ Hx)).
    rewrite list_insert_id by done. done. }
  rewrite (bind_Ret _ _ _ _ _ (on_cache_run _ c _ _ Hm)). set (r' := mk_cref (r_pid r) (r_buf r) (Holding false)).
  assert (HI' : cache_inv (mk_cstate (mk_bcache (<[Z.to_nat (r_buf r) := x]> (bufs (cs c))) (links (cs c)) d') (<[k := r']> (crefs c)) (stale c))).
  { apply (inv_ref c k r A B x); try done.
    - apply (holder_ok c k r A B x b); try done. intros _ _. unfold d'. by rewrite disk_read_write, decide_True by done.
    - intros m _ Hm0. unfold d'. by rewrite disk_read_write, decide_False by done. }
  eexists. split; [done|]. split; [exact HI'|]. split; [|by apply (keeps_put c _ x x); [|right]]. intros n Hn _. apply (view_put c _ x x d' _ _ _ n _ HI HI' Hx).
  - intros _ <-. symmetry. by apply (view_cached c _ x HI Hx).
  - intros [?|Hne]; [done|]. unfold d'. rewrite disk_read_write, decide_False by done. by split_and!.
Qed.

Lemma unlock_step_ok c k r b :
  cache_inv c → crefs c !! k = Some r → r_stat r = Holding b → step_ok (Cunlock k) c.
Proof.
  intros HI Hk Hw. destruct (ref_at_intro c k r HI Hk) as (A & B & x & Hra). pose proof (ra_buf _ _ _ _ _ _ Hra) as Hx.
  destruct (holder_facts c k r A B x _ Hra Hw) as (HA & HB & Hh & Hns & Hmod). pose proof (ra_ok _ _ _ _ _ _ Hra) as Hok.
  unfold step_ok. simpl. rewrite (with_ref_run c k r _ Hk). set (x' := set_lock (mk_sleeplock 0 0) x).
  assert (Hm : brelse_unlock (r_pid r) (r_buf r) (cs c) = Ret (tt, bput (cs c) (r_buf r) x')).
  { unfold brelse_unlock. rewrite (bind_Ret _ _ _ _ _ Hh). simpl. unfold releasesleep.
    by rewrite (bind_Ret _ _ _ _ _ (get_buf_run _ _ _ Hx)). }
  rewrite (bind_Ret _ _ _ _ _ (on_cache_run _ c _ _ Hm)). set (r' := mk_cref (r_pid r) (r_buf r) Dropping).
  set (U' := if decide (r_stat r = Holding true) then stale c ∪ {[b_blkno x]} else stale c).
  assert (Hbn : blkno_of (bput (cs c) (r_buf r) x') (r_buf r) = b_blkno x) by (apply (blkno_of_run _ _ x'), (bput_same _ _ _ x Hx)).
  assert (Hnh : holders (refs_of (r_buf r) A ++ r' :: refs_of (r_buf r) B) = []) by (by rewrite holders_app, holders_cons, HA, HB).
  assert (HI' : cache_inv (mk_cstate (bput (cs c) (r_buf r) x') (<[k := r']> (crefs c)) U')).
  { apply (inv_ref c k r A B x); try done; [|intros m Hmx; unfold U'; case_decide; [set_solver|done]]. split.
    - change (b_refcnt x') with (b_refcnt x). rewrite (bo_ref _ _ _ _ Hok), !length_app. done.
    - apply (bo_dirty _ _ _ _ Hok).
    - apply (bo_dev _ _ _ _ Hok).
    - unfold lock_ok. fold (holders (refs_of (r_buf r) A ++ r' :: refs_of (r_buf r) B)). by rewrite Hnh.
    - intros H0. by destruct (ra_nonzero _ _ _ _ _ _ Hra).
    - change (b_blkno x') with (b_blkno x). unfold U'. intros Hv _. case_decide as Hb; [set_solver|]. intros _.
      apply (bo_coh _ _ _ _ Hok Hv); [|done]. by rewrite Hmod.
    - intros Hx'%Hmod. done.
    - intros Hs. split; [|exact Hnh]. unfold U' in Hs. case_decide as Hb; [|by destruct Hns].
      apply (bo_mod _ _ _ _ Hok). by apply Hmod.
    - apply (bo_len _ _ _ _ Hok). }
  eexists. split; [|split; [exact HI'|split; [|by apply (keeps_put c _ x x'); [|right]]]].
  - unfold U', set_ref, modify, mbind, K_bind, set_cs, set_crefs, set_stale. case_decide; [|done]. cbn [cs crefs stale]. by rewrite Hbn.
  - intros n Hn _. by apply (view_keep c _ x x' _ _ _ n HI HI' Hx).
Qed.

Lemma seqZ_split b l : l ≡ₚ seqZ 0 NNUM → 0 ≤ b < NNUM → ∃ l1 l2, l = l1 ++ b :: l2.
Proof. intros Hp Hb. apply list_elem_of_split. rewrite Hp, elem_of_seqZ. lia. Qed.

Lemma put_step_ok c k r :
  cache_inv c → crefs c !! k = Some r → r_stat r = Dropping → step_ok (Cput k) c.
Proof.
  intros HI Hk Hw. destruct (ref_at_intro c k r HI Hk) as (A & B & x & Hra). pose proof (ra_buf _ _ _ _ _ _ Hra) as Hx.
  pose proof (ra_ok _ _ _ _ _ _ Hra) as Hok. pose proof (ra_idx _ _ _ _ _ _ Hra) as Hidx.
  unfold step_ok. simpl. rewrite (with_ref_run c k r _ Hk).
  assert (Hnh : is_holding r = false) by (unfold is_holding; by rewrite Hw).
  assert (Hrc : b_refcnt x = Z.of_nat (length (refs_of (r_buf r) (A ++ B))) + 1).
  { rewrite (bo_ref _ _ _ _ Hok), refs_of_app, !length_app. simpl. lia. }
  assert (Hlen : Z.of_nat (length (crefs c)) = Z.of_nat (length (A ++ B)) + 1).
  { rewrite (ra_refs _ _ _ _ _ _ Hra), !length_app. simpl. lia. }
  pose proof (ci_count _ HI) as Hcnt.
  assert (Hle : (length (refs_of (r_buf r) (A ++ B)) ≤ length (A ++ B))%nat) by apply length_filter.
  set (x' := set_refcnt (u32 (b_refcnt x - 1)) x).
  assert (Hu : u32 (b_refcnt x - 1) = b_refcnt x - 1) by (apply u32_small; lia).
  assert (Hm : ∃ h, brelse_put (r_buf r) (cs c) = Ret (tt, mk_bcache (<[Z.to_nat (r_buf r) := x']> (bufs (cs c))) h (disk (cs c))) ∧
     ∃ l, dlist h HEAD l ∧ l ≡ₚ seqZ 0 NNUM).
  { unfold brelse_put. rewrite (bind_Ret _ _ _ _ _ (get_buf_run _ _ _ Hx)).
    rewrite (bind_Ret _ _ _ tt (bput (cs c) (r_buf r) x')) by done. destruct (ci_list _ HI) as (l & Hl & Hp).
    case_decide as Hz; [|exists (links (cs c)); split; [done|by exists l]].
    destruct (seqZ_split (r_buf r) l Hp (ci_refs _ HI k r Hk)) as (l1 & l2 & ->).
    destruct (move_front_run (links (cs c)) l1 (r_buf r) l2 Hl) as (h & Hh & _ & Hd). exists h. split.
    - apply (on_links_run _ (bput (cs c) (r_buf r) x') tt h). exact Hh.
    - exists (r_buf r :: l1 ++ l2). split; [done|]. by rewrite Permutation_middle. }
  destruct Hm as (h & Hm & Hlist). rewrite (bind_Ret _ _ _ _ _ (on_cache_run _ c _ _ Hm)).
  assert (HI' : cache_inv (mk_cstate (mk_bcache (<[Z.to_nat (r_buf r) := x']> (bufs (cs c))) h (disk (cs c))) (delete k (crefs c)) (stale c))).
  { rewrite (ra_del _ _ _ _ _ _ Hra). apply (cache_inv_put c _ x); try done.
    - rewrite Hidx. split; try apply Hok.
      + simpl. rewrite Hu. lia.
      + pose proof (bo_lock _ _ _ _ Hok) as Hlk. unfold lock_ok in *. fold (holders (refs_of (r_buf r) A ++ r :: refs_of (r_buf r) B)) in Hlk.
        fold (holders (refs_of (r_buf r) (A ++ B))). rewrite holders_app, holders_cons, Hnh in Hlk. by rewrite refs_of_app, holders_app.
      + intros H0. destruct (bo_zero _ _ _ _ Hok H0) as [_ Hnil]. by destruct (refs_of (r_buf r) A).
      + intros Hv Hnm Hns. apply (bo_coh _ _ _ _ Hok Hv); [|done]. rewrite (modified_drop _ r _ Hnh). by rewrite <-refs_of_app.
      + intros Hm'. apply (bo_mod _ _ _ _ Hok). rewrite (modified_drop _ r _ Hnh). by rewrite <-refs_of_app.
      + intros Hs. destruct (bo_stale _ _ _ _ Hok Hs) as [Hv Hnil]. split; [done|].
        fold (holders (refs_of (r_buf r) A ++ r :: refs_of (r_buf r) B)) in Hnil. fold (holders (refs_of (r_buf r) (A ++ B))).
        rewrite holders_app, holders_cons, Hnh in Hnil. by rewrite refs_of_app, holders_app.
    - intros j Hj. rewrite (ra_refs _ _ _ _ _ _ Hra), refs_of_skip; [done|]. lia.
    - intros j y Hj Hy Heq. destruct (decide (b_blkno x' = 0)) as [|Hne]; [done|]. destruct Hj.
      apply (ci_uniq _ HI j _ y x Hy Hx); rewrite <-Heq; done.
    - intros k' q Hq. assert (Hin : q ∈ crefs c).
      { rewrite (ra_refs _ _ _ _ _ _ Hra). apply list_elem_of_lookup_2 in Hq. apply elem_of_app in Hq as [Hq|Hq]; apply elem_of_app;
          [by left|right; by right]. }
      apply list_elem_of_lookup_1 in Hin as [k2 Hk2]. by apply (ci_refs _ HI k2).
    - lia.
    - intros H0. by destruct (ra_nonzero _ _ _ _ _ _ Hra). }
  eexists. split; [done|]. split; [exact HI'|]. split; [|by apply (keeps_put c _ x x'); [|right]]. intros n Hn _. by apply (view_keep c _ x x' _ _ _ n HI HI' Hx).
Qed.

Lemma get_step_ok c pid n :
  cache_inv c → n ≠ 0 → Z.of_nat (length (crefs c)) < 2 ^ 32 - 1 → step_ok (Cget pid 0 n) c.
Proof.
  intros HI Hn Hcnt. unfold step_ok. simpl. unfold gets at 1. unfold mbind at 1, K_bind at 1. unfold id. destruct (bget_find_run c n HI) as [[Hf _]|(i & x & x' & Hx & Hf & Hx')];
    rewrite (bind_Ret _ _ _ _ _ (on_cache_run _ c _ _ Hf)); [exists c; split_and!; [by destruct c|done|done|apply keeps_refl]|].
  pose proof (ci_buf _ HI i x Hx) as Hok. set (r := mk_cref pid (Z.of_nat i) Waiting).
  assert (Hlt : (i < Z.to_nat NNUM)%nat) by (rewrite <-(ci_len _ HI); by eapply lookup_lt_Some).
  assert (Hle : (length (refs_of (Z.of_nat i) (crefs c)) ≤ length (crefs c))%nat) by apply length_filter.
  assert (Hrs : refs_of (Z.of_nat i) (crefs c ++ [r]) = refs_of (Z.of_nat i) (crefs c) ++ [r]).
  { rewrite refs_of_app, refs_of_cons, decide_True by done. done. }
  assert (Hlk : lock_ok x (refs_of (Z.of_nat i) (crefs c) ++ [r])).
  { pose proof (bo_lock _ _ _ _ Hok) as Hl. unfold lock_ok in *. fold (holders (refs_of (Z.of_nat i) (crefs c))) in Hl.
    fold (holders (refs_of (Z.of_nat i) (crefs c) ++ [r])). rewrite holders_app, holders_cons. simpl. by rewrite app_nil_r. }
  assert (Hmod : modified (refs_of (Z.of_nat i) (crefs c) ++ [r]) ↔ modified (refs_of (Z.of_nat i) (crefs c))).
  { rewrite (modified_drop _ r []) by done. by rewrite app_nil_r. }
  set (U' := if decide (b_blkno x = n) then stale c else stale c ∖ {[b_blkno x]}).
  assert (Hx'ok : buf_ok x' (refs_of (Z.of_nat i) (crefs c) ++ [r]) U' (disk (cs c)) ∧
    (∀ j y, j ≠ i → bufs (cs c) !! j = Some y → b_blkno x' = b_blkno y → b_blkno x' = 0)).
  { destruct Hx' as [[Hb ->]|(H0 & -> & Hmiss)]; simpl.
    - split; [|intros j y Hj Hy Heq; destruct Hj; apply (ci_uniq _ HI j i y x); congruence].
      unfold U'. rewrite decide_True by done. split; simpl; try apply Hok.
      + rewrite (bo_ref _ _ _ _ Hok), length_app. simpl. rewrite u32_small by lia. lia.
      + done.
      + rewrite Hb. done.
      + rewrite Hmod. apply (bo_coh _ _ _ _ Hok).
      + rewrite Hmod. apply (bo_mod _ _ _ _ Hok).
      + intros Hs. destruct (bo_stale _ _ _ _ Hok Hs) as [Hv Hnil]. split; [done|].
        fold (holders (refs_of (Z.of_nat i) (crefs c))) in Hnil. fold (holders (refs_of (Z.of_nat i) (crefs c) ++ [r])).
        by rewrite holders_app, Hnil.
    - split; [|intros j y _ Hy Heq; by destruct (Hmiss j y Hy)].
      assert (Hnil : refs_of (Z.of_nat i) (crefs c) = []).
      { pose proof (bo_ref _ _ _ _ Hok) as Hr. rewrite H0 in Hr. destruct (refs_of (Z.of_nat i) (crefs c)); [done|simpl in Hr; lia]. }
      rewrite Hnil in *. split; simpl; try done; [apply (bo_dirty _ _ _ _ Hok)| |].
      + intros Hm%Hmod. destruct Hm as (q & Hq & _). by apply elem_of_nil in Hq.
      + intros Hs. exfalso. assert (Hs' : n ∈ stale c) by (unfold U' in Hs; case_decide; [done|set_solver]).
        destruct (ci_stale _ HI n Hs') as (_ & j & y & Hy & Hyn). by destruct (Hmiss j y Hy). }
  destruct Hx'ok as [Hok' Huq].
  assert (HI' : cache_inv (mk_cstate (mk_bcache (<[i := x']> (bufs (cs c))) (links (cs c)) (disk (cs c))) (crefs c ++ [r]) U')).
  { apply (cache_inv_put c i x); try done.
    - by rewrite Hrs.
    - intros j Hj. rewrite refs_of_app, refs_of_cons, decide_False by (simpl; lia). by rewrite app_nil_r.
    - intros k q Hq. apply list_elem_of_lookup_2 in Hq. apply elem_of_app in Hq as [Hq|Hq].
      + apply list_elem_of_lookup_1 in Hq as [k' Hk']. by apply (ci_refs _ HI k').
      + apply list_elem_of_singleton in Hq as ->. simpl. lia.
    - rewrite length_app. simpl. lia.
    - intros m Hm. unfold U'. case_decide; [done|set_solver].
    - unfold U'. case_decide as Hxn; [|set_solver]. intros Hs. destruct Hx' as [[_ ->]|(_ & -> & Hmiss)]; [done|]. by destruct (Hmiss i x Hx).
    - intros H0. exfalso. destruct Hx' as [[Hb ->]|(_ & -> & _)]; simpl in H0; congruence.
    - apply (ci_list _ HI). }
  eexists. split; [|split; [exact HI'|]; split; [intros m Hm Hms|]].
  3:{ apply (keeps_put c i x x' _ _ _ _ Hx). destruct Hx' as [[_ ->]|(H0 & -> & _)]; [by right|left].
      pose proof (bo_ref _ _ _ _ Hok) as Hr. rewrite H0 in Hr. destruct (refs_of (Z.of_nat i) (crefs c)); [done|simpl in Hr; lia]. }
  { unfold modify, mbind, K_bind, set_cs, set_crefs, set_stale, bput. simpl. rewrite (blkno_of_run (cs c) (Z.of_nat i) x) by (by rewrite Nat2Z.id).
    rewrite Nat2Z.id. unfold U'. by case_decide. }
  destruct Hx' as [[Hb ->]|(H0 & -> & Hmiss)]; [by apply (view_keep c i x _ _ _ _ m HI HI' Hx)|].
  apply (view_put c i x _ (disk (cs c)) _ _ _ m _ HI HI' Hx); [done|]. intros _. split_and!; [done|done|].
  intros Hv <-. rewrite (view_cached c i x HI Hx Hv). symmetry. apply (bo_coh _ _ _ _ Hok Hv); [|done]. apply holders_modified.
  pose proof (bo_ref _ _ _ _ Hok) as Hr. rewrite H0 in Hr. destruct (refs_of (Z.of_nat i) (crefs c)); [done|simpl in Hr; lia].
Qed.

Lemma cache_step_ok c e : cache_inv c → cache_enabled e c → step_ok e c.
Proof.
  intros HI He. destruct e as [pid dev n|k|k|k data|k|k|k]; simpl in He.
  - destruct He as (-> & Hn & Hc). by apply get_step_ok.
  - destruct He as (r & Hk & Hr). by eapply lock_step_ok.
  - destruct He as (r & b & Hk & Hr). by eapply fill_step_ok.
  - destruct He as (r & b & Hk & Hr & Hf & Hl). by eapply modify_step_ok.
  - destruct He as (r & b & Hk & Hr & Hf). by eapply write_step_ok.
  - destruct He as (r & b & Hk & Hr). by eapply unlock_step_ok.
  - destruct He as (r & Hk & Hr). by eapply put_step_ok.
Qed.

(** ** Reaching a state *)

Lemma binit_body_run s b x h :
  bufs s !! Z.to_nat b = Some x → push_front HEAD b (links s) = Ret (tt, h) →
  (on_links (n ← get_next HEAD; set_next b n ;; set_prev b HEAD) ;;
   x ← get_buf b;
   put_buf b (mk_buf (b_data x) (b_dev x) 0 0 (b_blkno x) 0 initsleeplock) ;;
   on_links (n ← get_next HEAD; set_prev n b ;; set_next HEAD b) : K st unit) s =
  Ret (tt, set_links h (bput s b (mk_buf (b_data x) (b_dev x) 0 0 (b_blkno x) 0 initsleeplock))).
Proof.
  intros Hx Hp. assert (Hp' : ((n ← get_next HEAD; set_next b n ;; set_prev b HEAD) ;;
    (n ← get_next HEAD; set_prev n b ;; set_next HEAD b)) (links s) = Ret (tt, h)).
  { rewrite <-Hp. unfold push_front, mbind, K_bind. destruct (get_next HEAD (links s)) as [[n h1]| | |]; [|done..].
    by destruct (set_next b n h1) as [[? h2]| | |]. }
  apply bind_Ret_inv in Hp' as (u & h1 & H1 & H2). destruct u.
  rewrite (bind_Ret _ _ _ _ _ (on_links_run _ s _ _ H1)), (bind_Ret _ _ _ _ _ (get_buf_run (set_links h1 s) b x Hx)).
  unfold put_buf, modify. unfold mbind at 1, K_bind at 1. rewrite (on_links_run _ _ tt h); [done|]. exact H2.
Qed.

(** The tables before binit: zero but for the data, the nodes in place. *)
Definition cold (s : st) : Prop :=
  length (bufs s) = Z.to_nat NNUM ∧ (∀ i x, bufs s !! i = Some x → b_dev x = 0 ∧ b_blkno x = 0) ∧
  ∀ b, 0 ≤ b ≤ NNUM → b ∈ dom (links s).

Lemma binit_run s : cold s → ∃ s', binit s = Ret (tt, s') ∧ cache_inv (mk_cstate s' [] ∅).
Proof.
  intros (Hlen & Hz & Hdom). unfold binit.
  destruct (set_prev_eq (links s) HEAD HEAD) as (h1 & E1 & U1); [apply Hdom; done|].
  rewrite (bind_Ret _ _ _ _ _ (on_links_run _ s _ _ E1)).
  destruct (set_next_eq h1 HEAD HEAD) as (h2 & E2 & U2); [rewrite (proj2 (proj2 U1)); apply Hdom; done|].
  rewrite (bind_Ret _ _ _ _ _ (on_links_run _ (set_links h1 s) _ _ E2)).
  destruct (forM_inv (λ d s1, dom (links s1) = dom (links s) ∧ dlist (links s1) HEAD (reverse d) ∧
    length (bufs s1) = Z.to_nat NNUM ∧
    ∀ i x, bufs s1 !! i = Some x → b_dev x = 0 ∧ b_blkno x = 0 ∧
      (Z.of_nat i ∈ d → b_refcnt x = 0 ∧ b_dirty x = 0 ∧ b_valid x = 0 ∧ b_lock x = initsleeplock))
    (λ b, on_links (n ← get_next HEAD; set_next b n ;; set_prev b HEAD) ;;
       x ← get_buf b;
       put_buf b (mk_buf (b_data x) (b_dev x) 0 0 (b_blkno x) 0 initsleeplock) ;;
       on_links (n ← get_next HEAD; set_prev n b ;; set_next HEAD b))
    (seqZ 0 NNUM) [] (set_links h2 (set_links h1 s))) as (s' & Hrun & Hd & Hdl & Hl & Hb).
  - intros d b r s1 Hseq (Hd & Hdl & Hl & Hb). assert (Hbr : 0 ≤ b < NNUM).
    { assert (Hin : b ∈ seqZ 0 NNUM) by (rewrite Hseq; apply elem_of_app; right; by left). apply elem_of_seqZ in Hin. lia. }
    assert (Hbd : b ∉ d).
    { intros Hin. pose proof (NoDup_seqZ 0 NNUM) as Hnd. rewrite Hseq in Hnd. apply NoDup_app in Hnd as (_ & Hnd & _).
      apply (Hnd b Hin). by left. }
    destruct (lookup_lt_is_Some_2 (bufs s1) (Z.to_nat b)) as [x Hx]; [rewrite Hl; lia|].
    destruct (push_front_run HEAD (links s1) (reverse d) b Hdl) as (h & Hp & Hdh & Hdl').
    { rewrite not_elem_of_cons, elem_of_reverse. split; [unfold HEAD; lia|done]. }
    { rewrite Hd. apply Hdom. lia. }
    eexists. split; [by apply binit_body_run|]. simpl. split_and!.
    + by rewrite Hdh.
    + by rewrite reverse_app.
    + by rewrite length_insert.
    + intros i y. destruct (decide (Z.to_nat b = i)) as [<-|Hi].
      * rewrite list_lookup_insert_eq by (rewrite Hl; lia). intros [= <-]. simpl. destruct (Hb _ x Hx) as (? & ? & _). by split_and!.
      * rewrite list_lookup_insert_ne by done. intros Hy. destruct (Hb i y Hy) as (? & ? & Hin). split_and!; [done..|].
        rewrite elem_of_app, list_elem_of_singleton. intros [?|?]; [auto|lia].
  - simpl. split_and!.
    + by rewrite (proj2 (proj2 U2)), (proj2 (proj2 U1)).
    + split; [apply NoDup_singleton|]. simpl. rewrite (proj1 U2), (proj1 (proj2 U2)), (proj1 U1), !decide_True by done. done.
    + done.
    + intros i x Hx. destruct (Hz i x Hx) as [? ?]. split_and!; [done..|]. by intros ?%elem_of_nil.
  - exists s'. split; [done|]. simpl in *. split; simpl; try done.
    + exists (reverse (seqZ 0 NNUM)). split; [done|]. by rewrite reverse_Permutation.
    + intros i x Hx. destruct (Hb i x Hx) as (H1 & H2 & H3).
      assert (Hlt : (i < Z.to_nat NNUM)%nat) by (rewrite <-Hl; by eapply lookup_lt_Some).
      destruct H3 as (H3 & H4 & H5 & H6); [apply elem_of_seqZ; lia|]. split; try done.
      * unfold lock_ok. simpl. by rewrite H6.
      * intros (r & Hr & _). by apply elem_of_nil in Hr.
    + intros i j x y Hx _ _ Hne. by destruct (Hb i x Hx) as (_ & ? & _).
Qed.

Inductive cache_reach (s0 : st) : cstate → Prop :=
  | cache_boot s : binit s0 = Ret (tt, s) → cache_reach s0 (mk_cstate s [] ∅)
  | cache_next c e c' : cache_reach s0 c → cache_enabled e c → cache_step e c = Ret (tt, c') → cache_reach s0 c'.

Lemma cache_reach_inv s0 c : cold s0 → cache_reach s0 c → cache_inv c.
Proof.
  intros Hc. induction 1 as [s Hb|c e c' _ IH He Hs].
  - destruct (binit_run s0 Hc) as (s' & Hr & HI). congruence.
  - destruct (cache_step_ok c e IH He) as (c2 & Hs2 & HI & _ & _). congruence.
Qed.

(** ** One thread *)

Section one_thread.
Variable pid : Z.

Definition ref_of (t : Z * Z * bool) : cref := mk_cref pid t.1.1 (Holding t.2).
Definition seq_refs (hs : list (Z * Z * bool)) : list cref := ref_of <$> reverse hs.

Definition holds (s : st) (t : Z * Z * bool) : Prop :=
  ∃ x, bufs s !! Z.to_nat t.1.1 = Some x ∧ b_blkno x = t.1.2 ∧ b_valid x ≠ 0.
Definition store_rel (s : st) (v : Z → block) (hs : list (Z * Z * bool)) (U : gset Z) : Prop :=
  cache_inv (mk_cstate s (seq_refs hs) U) ∧ Forall (holds s) hs ∧ ∀ n, n ≠ 0 → n ∉ U → v n = view s n.

Lemma seq_refs_cons t hs : seq_refs (t :: hs) = seq_refs hs ++ [ref_of t].
Proof. unfold seq_refs. by rewrite reverse_cons, fmap_app. Qed.
Lemma seq_refs_length hs : length (seq_refs hs) = length hs.
Proof. unfold seq_refs. by rewrite length_fmap, length_reverse. Qed.
Lemma seq_refs_top t hs : seq_refs (t :: hs) !! length hs = Some (ref_of t).
Proof. rewrite seq_refs_cons. apply list_lookup_middle. by rewrite seq_refs_length. Qed.
Lemma seq_refs_set t hs r : <[length hs := r]> (seq_refs (t :: hs)) = seq_refs hs ++ [r].
Proof. rewrite seq_refs_cons. rewrite insert_app_r_alt by (by rewrite seq_refs_length). by rewrite seq_refs_length, Nat.sub_diag. Qed.
Lemma seq_refs_elem r hs : r ∈ seq_refs hs ↔ ∃ t, t ∈ hs ∧ r = ref_of t.
Proof.
  unfold seq_refs. rewrite list_elem_of_fmap. split; intros (t & H1 & H2); exists t; rewrite elem_of_reverse in *; done.
Qed.

Lemma on_cache_inv {A} (m : K st A) c x c' :
  on_cache m c = Ret (x, c') → m (cs c) = Ret (x, cs c') ∧ crefs c' = crefs c ∧ stale c' = stale c.
Proof. unfold on_cache, zoom. destruct (m (cs c)) as [[y s1]| | |]; [|done..]. by intros [= <- <-]. Qed.

(** The buffers held keep their blocks over a step. *)
Lemma holds_keeps c c' hs hs' : Forall (holds (cs c)) hs → crefs c = seq_refs hs' → hs ⊆ hs' → cache_inv c → keeps c c' → Forall (holds (cs c')) hs.
Proof.
  intros Hf Hc Hsub HI Hk. apply Forall_forall. intros t Ht. rewrite Forall_forall in Hf. destruct (Hf t Ht) as (x & Hx & Hn & Hv).
  assert (Hr : ref_of t ∈ crefs c) by (rewrite Hc; apply seq_refs_elem; exists t; split; [by apply Hsub|done]).
  apply list_elem_of_lookup_1 in Hr as [k Hkr]. pose proof (ci_refs _ HI k _ Hkr) as Hb. simpl in Hb.
  destruct (Hk _ x Hx) as (x' & Hx' & Hn' & Hv').
  - rewrite Z2Nat.id by lia. intros Hnil. assert (Hin : ref_of t ∈ refs_of t.1.1 (crefs c)).
    { apply list_elem_of_filter. split; [done|]. by eapply list_elem_of_lookup_2. }
    rewrite Hnil in Hin. by apply elem_of_nil in Hin.
  - exists x'. split_and!; [done|congruence|auto].
Qed.

Lemma top_set s v hs U h n m b :
  store_rel s v ((h, n, m) :: hs) U → block_ok b →
  ∃ s', (x ← get_buf h; put_buf h (set_data b x)) s = Ret (tt, s') ∧ store_rel s' (<[n := b]> v) ((h, n, true) :: hs) U.
Proof.
  intros (HI & Hf & Hv) Hb. set (c := mk_cstate s (seq_refs ((h, n, m) :: hs)) U).
  pose proof (Forall_inv Hf) as (x & Hx & Hn & Hvx). simpl in Hx, Hn.
  destruct (modify_step_ok c (length hs) (ref_of (h, n, m)) m b HI (seq_refs_top _ hs) eq_refl) as (c' & Hs & HI' & Hvw & Hk); [by exists x|done|].
  simpl in Hs. rewrite (with_ref_run c _ _ _ (seq_refs_top _ hs)) in Hs. apply bind_Ret_inv in Hs as (u & c1 & H1 & H2). destruct u.
  apply on_cache_inv in H1 as (H1 & Hc1 & Hu1). injection H2 as <-. exists (cs c1). split; [done|].
  assert (Heq : set_crefs (<[length hs := mk_cref pid h (Holding true)]> (crefs c1)) c1 = mk_cstate (cs c1) (seq_refs ((h, n, true) :: hs)) U).
  { rewrite Hc1. unfold c. cbn [crefs]. rewrite seq_refs_set, (seq_refs_cons (h, n, true)). unfold set_crefs. rewrite Hu1. done. }
  simpl in Heq. simpl in HI', Hvw, Hk. rewrite Heq in HI'. split; [done|]. split.
  - assert (Hf' : Forall (holds (cs c1)) ((h, n, m) :: hs)).
    { apply (holds_keeps c (set_crefs (<[length hs := mk_cref pid h (Holding true)]> (crefs c1)) c1) _ ((h, n, m) :: hs)); done. }
    apply Forall_cons in Hf' as [Ht Hf']. by constructor.
  - intros k Hk0 HkU. specialize (Hvw k Hk0 HkU). rewrite Hvw. rewrite (seq_refs_top (h, n, m) hs). simpl. rewrite Hx, Hn.
    destruct (decide (n = k)) as [->|Hne]; [by rewrite fn_lookup_insert|]. rewrite fn_lookup_insert_ne by done. by apply Hv.
Qed.

Lemma top_write s v hs U h n m :
  store_rel s v ((h, n, m) :: hs) U → ∃ s', bwrite pid h s = Ret (tt, s') ∧ store_rel s' v ((h, n, false) :: hs) U.
Proof.
  intros (HI & Hf & Hv). set (c := mk_cstate s (seq_refs ((h, n, m) :: hs)) U).
  pose proof (Forall_inv Hf) as (x & Hx & Hn & Hvx). simpl in Hx, Hn.
  destruct (write_step_ok c (length hs) (ref_of (h, n, m)) m HI (seq_refs_top _ hs) eq_refl) as (c' & Hs & HI' & Hvw & Hk); [by exists x|].
  simpl in Hs. rewrite (with_ref_run c _ _ _ (seq_refs_top _ hs)) in Hs. apply bind_Ret_inv in Hs as (u & c1 & H1 & H2). destruct u.
  apply on_cache_inv in H1 as (H1 & Hc1 & Hu1). injection H2 as <-. exists (cs c1). split; [done|].
  assert (Heq : set_crefs (<[length hs := mk_cref pid h (Holding false)]> (crefs c1)) c1 = mk_cstate (cs c1) (seq_refs ((h, n, false) :: hs)) U).
  { rewrite Hc1. unfold c. cbn [crefs]. rewrite seq_refs_set, (seq_refs_cons (h, n, false)). unfold set_crefs. rewrite Hu1. done. }
  simpl in Heq. simpl in HI', Hvw, Hk. rewrite Heq in HI'. split; [done|]. split.
  - assert (Hf' : Forall (holds (cs c1)) ((h, n, m) :: hs)).
    { apply (holds_keeps c (set_crefs (<[length hs := mk_cref pid h (Holding false)]> (crefs c1)) c1) _ ((h, n, m) :: hs)); done. }
    apply Forall_cons in Hf' as [Ht Hf']. by constructor.
  - intros k Hk0 HkU. rewrite (Hvw k Hk0 HkU). by apply Hv.
Qed.

Lemma top_release s v hs U h n m :
  store_rel s v ((h, n, m) :: hs) U →
  ∃ s', brelse pid h s = Ret (tt, s') ∧ store_rel s' v hs (if m : bool then U ∪ {[n]} else U).
Proof.
  intros (HI & Hf & Hv). set (c := mk_cstate s (seq_refs ((h, n, m) :: hs)) U).
  pose proof (Forall_inv Hf) as (x & Hx & Hn & Hvx). simpl in Hx, Hn. set (U' := if m then U ∪ {[n]} else U).
  destruct (unlock_step_ok c (length hs) (ref_of (h, n, m)) m HI (seq_refs_top _ hs) eq_refl) as (c' & Hs & HI' & Hvw & Hk).
  simpl in Hs. rewrite (with_ref_run c _ _ _ (seq_refs_top _ hs)) in Hs. apply bind_Ret_inv in Hs as (u & c1 & H1 & H2). destruct u.
  apply on_cache_inv in H1 as (H1 & Hc1 & Hu1).
  assert (Hbn : blkno_of (cs c1) h = n).
  { assert (Hf0 : Forall (holds (cs c')) ((h, n, m) :: hs)) by (by apply (holds_keeps c c' _ ((h, n, m) :: hs))).
    apply Forall_inv in Hf0 as (x' & Hx' & Hn' & _). simpl in H2.
    destruct (decide (Holding m = Holding true)); injection H2 as <-; simpl in *; by rewrite (blkno_of_run _ _ x' Hx'). }
  assert (Heq : c' = mk_cstate (cs c1) (seq_refs hs ++ [mk_cref pid h Dropping]) U').
  { assert (Hset : <[length hs := mk_cref pid h Dropping]> (crefs c1) = seq_refs hs ++ [mk_cref pid h Dropping])
      by (rewrite Hc1; apply (seq_refs_set (h, n, m))).
    unfold U'. destruct m; injection H2 as <-; unfold set_stale, set_crefs; cbn [cs crefs stale]; rewrite ?Hbn, Hu1; f_equal; exact Hset. }
  subst c'. assert (Hk2 : (seq_refs hs ++ [mk_cref pid h Dropping]) !! length hs = Some (mk_cref pid h Dropping)).
  { apply list_lookup_middle. by rewrite seq_refs_length. }
  destruct (put_step_ok _ (length hs) _ HI' Hk2 eq_refl) as (c3 & Hs3 & HI3 & Hvw3 & Hk3).
  simpl in Hs3. rewrite (with_ref_run (mk_cstate (cs c1) (seq_refs hs ++ [mk_cref pid h Dropping]) U') _ _ _ Hk2) in Hs3. apply bind_Ret_inv in Hs3 as (u & c4 & H3 & H4). destruct u.
  apply on_cache_inv in H3 as (H3 & Hc4 & Hu4). injection H4 as <-. simpl in *.
  assert (Hdel : delete (length hs) (crefs c4) = seq_refs hs).
  { rewrite Hc4, <-(seq_refs_length hs), delete_middle. apply app_nil_r. }
  unfold set_crefs in HI3. rewrite Hdel, Hu4 in HI3. exists (cs c4). split.
  - unfold brelse. rewrite (bind_Ret _ _ _ _ _ H1). exact H3.
  - split; [done|]. split.
    + assert (Hf1 : Forall (holds (cs c1)) hs).
      { apply (holds_keeps c (mk_cstate (cs c1) (seq_refs hs ++ [mk_cref pid h Dropping]) U') hs ((h, n, m) :: hs)); try done.
        - by apply Forall_cons in Hf as [_ ?].
        - intros t Ht. by right. }
      apply Forall_forall. intros t Ht. rewrite Forall_forall in Hf1. destruct (Hf1 t Ht) as (y & Hy & Hyn & Hyv).
      assert (Hin : ref_of t ∈ seq_refs hs) by (apply seq_refs_elem; by exists t).
      assert (Hb : 0 ≤ t.1.1 < NNUM).
      { apply list_elem_of_lookup_1 in Hin as [k Hkt]. apply (ci_refs _ HI' k (ref_of t)). simpl. by apply lookup_app_l_Some. }
      destruct (Hk3 _ y Hy) as (y' & Hy' & Hyn' & Hyv').
      * simpl. rewrite Z2Nat.id by lia. rewrite refs_of_app. intros Hnil. apply app_eq_nil in Hnil as [Hnil _].
        assert (Hx2 : ref_of t ∈ refs_of t.1.1 (seq_refs hs)) by (by apply list_elem_of_filter). rewrite Hnil in Hx2. by apply elem_of_nil in Hx2.
      * exists y'. split_and!; [done|congruence|auto].
    + intros k Hk0 HkU. assert (HkU0 : k ∉ U) by (unfold U' in HkU; destruct m; set_solver).
      rewrite Hvw3 by done. rewrite Hvw by done. by apply Hv.
Qed.

Lemma held_data s v hs U h n m :
  store_rel s v hs U → (h, n, m) ∈ hs → (x ← get_buf h; mret (b_data x)) s = Ret (v n, s) ∧ n ≠ 0 ∧ n ∉ U.
Proof.
  intros (HI & Hf & Hv) Hin. rewrite Forall_forall in Hf. destruct (Hf _ Hin) as (x & Hx & Hn & Hvx). simpl in Hx, Hn.
  assert (Hr : ref_of (h, n, m) ∈ seq_refs hs) by (apply seq_refs_elem; by eexists).
  apply list_elem_of_lookup_1 in Hr as [k Hk]. destruct (ref_at_intro _ _ _ HI Hk) as (A & B & y & Hra).
  assert (y = x) as -> by (pose proof (ra_buf _ _ _ _ _ _ Hra) as Hy; simpl in Hy; congruence).
  destruct (holder_facts _ _ _ _ _ _ m Hra eq_refl) as (_ & _ & _ & Hns & _). rewrite Hn in Hns.
  pose proof (ra_nonzero _ _ _ _ _ _ Hra) as H0. rewrite Hn in H0. split_and!; [|done|done].
  rewrite (bind_Ret _ _ _ _ _ (get_buf_run s h x Hx)). rewrite Hv by done.
  pose proof (view_cached _ _ x HI Hx Hvx) as Hvc. rewrite Hn in Hvc. simpl in Hvc. by rewrite Hvc.
Qed.

Lemma top_same s v hs U h n m :
  store_rel s v ((h, n, m) :: hs) U → (x ← get_buf h; put_buf h (set_data (v n) x)) s = Ret (tt, s).
Proof.
  intros Hr. destruct (held_data s v _ U h n m Hr) as (Hd & _ & _); [by left|]. apply bind_Ret_inv in Hd as (x & s1 & Hx & Hd).
  unfold get_buf in Hx. destruct (bufs s !! Z.to_nat h) as [x'|] eqn:E; [|done]. injection Hx as <- <-. injection Hd as <-.
  rewrite (bind_Ret _ _ _ _ _ (get_buf_run s h x' E)). unfold put_buf, modify.
  assert (Hset : set_bufs (<[Z.to_nat h := set_data (b_data x') x']> (bufs s)) s = s); [|by rewrite Hset].
  rewrite list_insert_id by (rewrite E; by destruct x'). by destruct s.
Qed.

Lemma view_block_ok c n : cache_inv c → block_ok (view (cs c) n).
Proof.
  intros HI. unfold view. destruct (list_find _ _) as [[i x]|] eqn:E; [|apply disk_len].
  apply list_find_Some in E as (Hi & [Hv _] & _). apply (bo_len _ _ _ _ (ci_buf _ HI i x Hi) Hv).
Qed.

(** With fewer references than buffers, one is free. *)
Lemma free_buffer c : cache_inv c → (length (crefs c) < Z.to_nat NNUM)%nat → ∃ i x, bufs (cs c) !! i = Some x ∧ b_refcnt x = 0.
Proof.
  intros HI Hlt. destruct (decide (Exists (λ x, b_refcnt x = 0) (bufs (cs c)))) as [He|Hne].
  { apply Exists_exists in He as (x & Hx & H0). apply list_elem_of_lookup_1 in Hx as [i Hi]. by exists i, x. }
  exfalso. assert (Hsub : seqZ 0 NNUM ⊆+ r_buf <$> crefs c).
  { apply NoDup_submseteq; [apply NoDup_seqZ|]. intros b Hb%elem_of_seqZ. destruct (ci_lookup c b HI) as [x Hx]; [lia|].
    pose proof (ci_buf _ HI _ x Hx) as Hok. pose proof (bo_ref _ _ _ _ Hok) as Hr. rewrite Z2Nat.id in Hr by lia.
    destruct (refs_of b (crefs c)) as [|r rs] eqn:E.
    - exfalso. apply Hne, Exists_exists. exists x. split; [by eapply list_elem_of_lookup_2|done].
    - assert (Hin : r ∈ refs_of b (crefs c)) by (rewrite E; by left). apply list_elem_of_filter in Hin as [Hb' Hin].
      apply list_elem_of_fmap. by exists r. }
  apply submseteq_length in Hsub. rewrite length_fmap, length_seqZ in Hsub. lia.
Qed.

Lemma view_as s v n : store_rel s v [] ∅ → n ≠ 0 → v n = view s n.
Proof. intros (_ & _ & Hv) Hn. apply Hv; [done|]. set_solver. Qed.

(** Another reference to a block the thread does not hold finds it unlocked. *)
Lemma unlocked_block s v hs U n i x :
  store_rel s v hs U → bufs s !! i = Some x → b_blkno x = n ∧ n ∉ hs.*1.*2 ∨ b_refcnt x = 0 →
  refs_of (Z.of_nat i) (seq_refs hs) = [].
Proof.
  intros (HI & Hf & _) Hx Hc. destruct Hc as [[Hn Hnot]|H0].
  - destruct (refs_of (Z.of_nat i) (seq_refs hs)) as [|r rs] eqn:E; [done|]. exfalso.
    assert (Hin : r ∈ refs_of (Z.of_nat i) (seq_refs hs)) by (rewrite E; by left).
    apply list_elem_of_filter in Hin as [Hb Hin]. apply seq_refs_elem in Hin as (t & Ht & ->). simpl in Hb.
    rewrite Forall_forall in Hf. destruct (Hf t Ht) as (y & Hy & Hyn & _). rewrite Hb, Nat2Z.id in Hy.
    apply Hnot. apply list_elem_of_fmap. exists t.1. split; [congruence|]. apply list_elem_of_fmap. by exists t.
  - pose proof (bo_ref _ _ _ _ (ci_buf _ HI i x Hx)) as Hr. rewrite H0 in Hr. simpl in Hr.
    destruct (refs_of (Z.of_nat i) (seq_refs hs)); [done|simpl in Hr; lia].
Qed.

Lemma bread_fill_post s b x s' :
  bufs s !! Z.to_nat b = Some x → bread_fill b s = Ret (tt, s') →
  ∃ x', bufs s' !! Z.to_nat b = Some x' ∧ b_blkno x' = b_blkno x ∧ b_valid x' ≠ 0.
Proof.
  intros Hx Hf. unfold bread_fill in Hf. rewrite (bind_Ret _ _ _ _ _ (get_buf_run s b x Hx)) in Hf.
  case_decide as Hv; [injection Hf as <-; by exists x|].
  set (y := set_data (disk_read (b_blkno x) (disk s)) x).
  assert (Hrw : virtio_disk_rw b false s = Ret (tt, bput s b y)).
  { unfold virtio_disk_rw. by rewrite (bind_Ret _ _ _ _ _ (get_buf_run s b x Hx)). }
  rewrite (bind_Ret _ _ _ _ _ Hrw) in Hf. pose proof (bput_same s b y x Hx) as Hy.
  rewrite (bind_Ret _ _ _ _ _ (get_buf_run _ b y Hy)) in Hf. injection Hf as <-.
  exists (set_valid 1 y). split_and!; [|done|done]. exact (bput_same (bput s b y) b (set_valid 1 y) y Hy).
Qed.

Lemma top_read s v hs U n :
  store_rel s v hs U → n ≠ 0 → n ∉ hs.*1.*2 → (length hs < 8)%nat →
  ∃ h s' v' U' m, bread pid 0 n s = Ret (h, s') ∧ store_rel s' v' ((h, n, m) :: hs) U' ∧
    U' ⊆ U ∖ {[n]} ∧ (∀ k, k ∉ U → v' k = v k) ∧ (n ∉ U → m = false).
Proof.
  intros Hrel Hn Hnot Hlen. pose proof Hrel as (HI & Hf & Hv). set (c := mk_cstate s (seq_refs hs) U).
  assert (Hl1 : Z.of_nat (length (crefs c)) < 2 ^ 32 - 1) by (unfold c; simpl; rewrite seq_refs_length; lia).
  destruct (get_step_ok c pid n HI Hn Hl1) as (c1 & Hs1 & HI1 & Hvw1 & Hk1). simpl in Hs1.
  unfold gets at 1 in Hs1. unfold mbind at 1, K_bind at 1, id in Hs1.
  destruct (bget_find_run c n HI) as [[_ Hfull]|(i & x & x' & Hx & Hbf & Hx')].
  { exfalso. destruct (free_buffer c HI) as (i & x & Hi & H0); [unfold c; simpl; rewrite seq_refs_length; unfold NNUM; lia|]. by apply (Hfull i x). }
  rewrite (bind_Ret _ _ _ _ _ (on_cache_run _ c _ _ Hbf)) in Hs1.
  assert (Hnil : refs_of (Z.of_nat i) (seq_refs hs) = []).
  { apply (unlocked_block s v hs U n i x Hrel Hx). destruct Hx' as [[? _]|(? & _)]; [left|right]; done. }
  set (r := mk_cref pid (Z.of_nat i) Waiting). set (s1 := bput s (Z.of_nat i) x').
  assert (Hx1 : bufs s1 !! Z.to_nat (Z.of_nat i) = Some x') by (apply (bput_same s (Z.of_nat i) x' x); by rewrite Nat2Z.id).
  assert (Hbn : b_blkno x' = n) by (destruct Hx' as [[? ->]|(_ & -> & _)]; done).
  assert (Hc1 : cs c1 = s1 ∧ crefs c1 = seq_refs hs ++ [r] ∧ stale c1 ⊆ U).
  { unfold modify, mbind, K_bind in Hs1. case_decide; injection Hs1 as <-; simpl; (split_and!; [done|done|set_solver]). }
  destruct Hc1 as (Hcs1 & Hcr1 & Hst1).
  assert (Hk : crefs c1 !! length hs = Some r) by (rewrite Hcr1; apply list_lookup_middle; by rewrite seq_refs_length).
  destruct (lock_step_ok c1 (length hs) r HI1 Hk eq_refl) as (c2 & Hs2 & HI2 & Hvw2 & Hk2). simpl in Hs2.
  rewrite (with_ref_run c1 _ r _ Hk) in Hs2. simpl in Hs2.
  assert (Hul : sl_locked (b_lock x') = 0).
  { pose proof (bo_lock _ _ _ _ (ci_buf _ HI i x Hx)) as Hlk. unfold c in Hlk. simpl in Hlk. rewrite Hnil in Hlk.
    destruct Hx' as [[_ ->]|(_ & -> & _)]; done. }
  set (x2 := set_lock (mk_sleeplock 1 pid) x'). set (s2 := bput s1 (Z.of_nat i) x2).
  assert (Hacq : acquiresleep pid (Z.of_nat i) s1 = Ret (true, s2)).
  { unfold acquiresleep. rewrite (bind_Ret _ _ _ _ _ (get_buf_run _ _ _ Hx1)), decide_False by (rewrite Hul; auto). done. }
  rewrite <-Hcs1 in Hacq. rewrite (bind_Ret _ _ _ _ _ (on_cache_run _ c1 _ _ Hacq)) in Hs2.
  assert (Hx2 : bufs s2 !! Z.to_nat (Z.of_nat i) = Some x2) by (by apply (bput_same s1 (Z.of_nat i) x2 x')).
  assert (Hbn2 : blkno_of s2 (Z.of_nat i) = n) by (rewrite (blkno_of_run _ _ x2 Hx2); done).
  set (m := bool_decide (n ∈ stale c1)).
  assert (Hc2 : cs c2 = s2 ∧ crefs c2 = seq_refs ((Z.of_nat i, n, m) :: hs) ∧ stale c2 = stale c1 ∖ {[n]}).
  { unfold gets, set_ref, modify, mbind, K_bind, id in Hs2. injection Hs2 as <-.
    unfold set_stale, set_crefs, set_cs, is_stale. cbn [cs crefs stale]. rewrite Hbn2. split_and!; [done| |done].
    rewrite Hcr1, insert_app_r_alt by (by rewrite seq_refs_length). rewrite seq_refs_length, Nat.sub_diag. by rewrite seq_refs_cons. }
  destruct Hc2 as (Hcs2 & Hcr2 & Hst2).
  assert (Hk' : crefs c2 !! length hs = Some (ref_of (Z.of_nat i, n, m))) by (rewrite Hcr2; apply seq_refs_top).
  destruct (fill_step_ok c2 (length hs) _ m HI2 Hk' eq_refl) as (c3 & Hs3 & HI3 & Hvw3 & Hk3). simpl in Hs3.
  rewrite (with_ref_run c2 _ _ _ Hk') in Hs3. apply on_cache_inv in Hs3 as (Hfill & Hcr3 & Hst3). simpl in Hfill.
  exists (Z.of_nat i), (cs c3), (λ k, if decide (k = 0 ∨ k ∈ U ∧ k ∈ stale c3) then v k else view (cs c3) k), (stale c3), m.
  assert (HvU : ∀ k, k ≠ 0 → k ∉ U → view (cs c3) k = v k).
  { intros k Hk0 HkU. rewrite Hvw3; [|done|rewrite Hst2; set_solver]. simpl.
    rewrite Hvw2; [|done|set_solver]. simpl. rewrite Hvw1; [|done|done]. simpl. symmetry. by apply Hv. }
  split_and!.
  - unfold bread, bget. rewrite !bind_assoc, (bind_Ret _ _ _ _ _ Hbf), !bind_assoc. rewrite Hcs1 in Hacq.
    rewrite (bind_Ret _ _ _ _ _ Hacq). rewrite (bind_Ret (mret (Some (Z.of_nat i))) _ _ (Some (Z.of_nat i)) s2) by done.
    rewrite <-Hcs2. by rewrite (bind_Ret _ _ _ _ _ Hfill).
  - split; [|split].
    + rewrite <-Hcr2, <-Hcr3. by destruct c3.
    + assert (Hx3 : ∃ x3, bufs (cs c3) !! i = Some x3 ∧ b_blkno x3 = n ∧ b_valid x3 ≠ 0).
      { rewrite Hcs2 in Hfill. destruct (bread_fill_post s2 (Z.of_nat i) x2 (cs c3) Hx2 Hfill) as (x3 & H3 & H3n & H3v).
        exists x3. rewrite Nat2Z.id in H3. split_and!; [done|by rewrite H3n|done]. }
      constructor; [destruct Hx3 as (x3 & ? & ? & ?); exists x3; simpl; by rewrite Nat2Z.id|].
      assert (Hf1 : Forall (holds (cs c1)) hs) by (by apply (holds_keeps c c1 hs hs)).
      apply Forall_forall. intros t Ht. rewrite Forall_forall in Hf1. destruct (Hf1 t Ht) as (y & Hy & Hyn & Hyv).
      assert (Hb : 0 ≤ t.1.1 < NNUM ∧ ref_of t ∈ seq_refs hs).
      { assert (Hin : ref_of t ∈ seq_refs hs) by (apply seq_refs_elem; by exists t). split; [|done].
        apply list_elem_of_lookup_1 in Hin as [k Hkt]. by apply (ci_refs _ HI k (ref_of t)). }
      destruct Hb as [Hb Hin].
      assert (Hne : ∀ l, ref_of t ∈ l → refs_of (Z.of_nat (Z.to_nat t.1.1)) l ≠ []).
      { intros l Hl Hnl. rewrite Z2Nat.id in Hnl by lia. assert (Hz : ref_of t ∈ refs_of t.1.1 l) by (by apply list_elem_of_filter).
        rewrite Hnl in Hz. by apply elem_of_nil in Hz. }
      destruct (Hk2 _ y Hy) as (y2 & Hy2 & Hyn2 & Hyv2); [apply Hne; rewrite Hcr1; apply elem_of_app; by left|].
      destruct (Hk3 _ y2 Hy2) as (y3 & Hy3 & Hyn3 & Hyv3); [apply Hne; rewrite Hcr2, seq_refs_cons; apply elem_of_app; by left|].
      exists y3. split_and!; [done|congruence|auto].
    + intros k Hk0 HkU. rewrite decide_False; [done|]. intros [?|[_ ?]]; done.
  - rewrite Hst3, Hst2. set_solver.
  - intros k HkU. cbn beta. destruct (decide (k = 0 ∨ k ∈ U ∧ k ∈ stale c3)) as [|Hd]; [done|]. apply HvU; [|done]. intros ->. apply Hd. by left.
  - intros HnU. unfold m. apply bool_decide_eq_false_2. set_solver.
Qed.

(** The cache is a block store for the thread. *)
#[export] Instance cache_store : BlockStore st.
Proof.
  refine {| bs_read := bread pid 0; bs_data := λ h, x ← get_buf h; mret (b_data x);
    bs_set := λ h b, x ← get_buf h; put_buf h (set_data b x); bs_write := bwrite pid; bs_release := brelse pid; bs_rel := store_rel |}.
  - intros s v hs U n (HI & _ & Hv) Hn HU. rewrite Hv by done. apply (view_block_ok _ n HI).
  - apply top_read.
  - apply held_data.
  - apply top_set.
  - apply top_same.
  - apply top_write.
  - apply top_release.
Defined.

(** *** Reading only

    While blocks are only read, one thread may read any block, block 0 among
    them: every buffer that claims to be valid holds the block of the disk. *)
Record quiet (s : st) : Prop := {
  qu_len : length (bufs s) = Z.to_nat NNUM;
  qu_list : ∃ l, dlist (links s) HEAD l ∧ l ≡ₚ seqZ 0 NNUM;
  qu_buf i x : bufs s !! i = Some x →
    b_dev x = 0 ∧ b_dirty x = 0 ∧ b_refcnt x = 0 ∧ sl_locked (b_lock x) = 0 ∧
    (b_valid x ≠ 0 → b_data x = disk_read (b_blkno x) (disk s))
}.

(** The cache is quiet when no reference is left and every change was written. *)
Lemma quiet_of_inv s : cache_inv (mk_cstate s [] ∅) → quiet s.
Proof.
  intros HI. split; [apply (ci_len _ HI)|apply (ci_list _ HI)|]. intros i x Hx. pose proof (ci_buf _ HI i x Hx) as Hok. simpl in Hok. split_and!.
  - apply (bo_dev _ _ _ _ Hok).
  - apply (bo_dirty _ _ _ _ Hok).
  - apply (bo_ref _ _ _ _ Hok).
  - apply (bo_lock _ _ _ _ Hok).
  - intros Hv. apply (bo_coh _ _ _ _ Hok Hv); [|set_solver]. intros (r & Hr & _). by apply elem_of_nil in Hr.
Qed.

(** A buffer that the thread has locked, and its block. *)
Lemma quiet_bread s n : quiet s → ∃ i x x',
  bufs s !! i = Some x ∧ bread pid 0 n s = Ret (Z.of_nat i, bput s (Z.of_nat i) x') ∧
  b_dev x' = 0 ∧ b_dirty x' = 0 ∧ b_refcnt x' = 1 ∧ b_lock x' = mk_sleeplock 1 pid ∧
  b_valid x' ≠ 0 ∧ b_blkno x' = n ∧ b_data x' = disk_read n (disk s).
Proof.
  intros HQ. destruct (qu_list _ HQ) as (l & Hl & Hp).
  destruct (bget_find_gen s n l (qu_len _ HQ) Hl Hp) as [[_ Hfull]|(i & x & x1 & Hx & Hbf & Hx1)].
  { intros i x Hx. destruct (qu_buf _ HQ i x Hx) as (? & ? & _). done. }
  { destruct (lookup_lt_is_Some_2 (bufs s) 0) as [x Hx]; [rewrite (qu_len _ HQ); unfold NNUM; lia|].
    destruct (Hfull 0%nat x Hx). apply (qu_buf _ HQ 0%nat x Hx). }
  destruct (qu_buf _ HQ i x Hx) as (Hdev & Hdirty & Href & Hlk & Hdata).
  assert (Hx1' : b_dev x1 = 0 ∧ b_dirty x1 = 0 ∧ b_refcnt x1 = 1 ∧ b_lock x1 = b_lock x ∧ b_blkno x1 = n ∧
    (b_valid x1 ≠ 0 → b_data x1 = disk_read n (disk s))).
  { destruct Hx1 as [[Hb ->]|(_ & -> & _)]; simpl; rewrite ?Href; split_and!; try done. intros Hv. rewrite <-Hb. by apply Hdata. }
  destruct Hx1' as (H1 & H2 & H3 & H4 & H5 & H6).
  assert (HxN : bufs s !! Z.to_nat (Z.of_nat i) = Some x) by (by rewrite Nat2Z.id).
  pose proof (bput_same s (Z.of_nat i) x1 x HxN) as Hl1. set (s1 := bput s (Z.of_nat i) x1) in *. set (x2 := set_lock (mk_sleeplock 1 pid) x1).
  assert (Hacq : acquiresleep pid (Z.of_nat i) s1 = Ret (true, bput s (Z.of_nat i) x2)).
  { unfold acquiresleep. rewrite (bind_Ret _ _ _ _ _ (get_buf_run _ _ _ Hl1)), decide_False by (rewrite H4, Hlk; auto).
    rewrite (bind_Ret (put_buf _ _) _ _ tt (bput s1 (Z.of_nat i) x2)) by done. unfold s1. by rewrite bput_bput. }
  pose proof (bput_same s (Z.of_nat i) x2 x HxN) as Hl2.
  assert (Hb : bread pid 0 n s = (bread_fill (Z.of_nat i) ;; mret (Z.of_nat i)) (bput s (Z.of_nat i) x2)).
  { unfold bread, bget. rewrite !bind_assoc, (bind_Ret _ _ _ _ _ Hbf). fold s1. rewrite !bind_assoc, (bind_Ret _ _ _ _ _ Hacq). done. }
  rewrite Hb. unfold bread_fill. exists i, x. destruct (decide (b_valid x1 ≠ 0)) as [Hv|Hv].
  - exists x2. split; [done|]. rewrite !bind_assoc, (bind_Ret _ _ _ _ _ (get_buf_run _ _ _ Hl2)), decide_True by done. split_and!; try done. by apply H6.
  - set (x3 := set_data (disk_read n (disk s)) x2). exists (set_valid 1 x3). split; [done|].
    rewrite !bind_assoc, (bind_Ret _ _ _ _ _ (get_buf_run _ _ _ Hl2)), decide_False by done. split_and!; try done.
    assert (Hv1 : virtio_disk_rw (Z.of_nat i) false (bput s (Z.of_nat i) x2) = Ret (tt, bput s (Z.of_nat i) x3)).
    { unfold virtio_disk_rw. rewrite (bind_Ret _ _ _ _ _ (get_buf_run _ _ _ Hl2)). unfold gets, put_buf, modify, mbind, K_bind.
      change (b_blkno x2) with (b_blkno x1). rewrite H5. by rewrite <-(bput_bput s (Z.of_nat i) x2 x3). }
    rewrite !bind_assoc, (bind_Ret _ _ _ _ _ Hv1).
    rewrite !bind_assoc, (bind_Ret _ _ _ _ _ (get_buf_run _ _ _ (bput_same s (Z.of_nat i) x3 x HxN))).
    rewrite (bind_Ret (put_buf _ _) _ _ tt (bput s (Z.of_nat i) (set_valid 1 x3))); [done|]. by rewrite <-(bput_bput s (Z.of_nat i) x3 (set_valid 1 x3)).
Qed.

Lemma quiet_brelse s i x y : quiet s → bufs s !! i = Some x →
  b_dev y = 0 → b_dirty y = 0 → b_refcnt y = 1 → b_lock y = mk_sleeplock 1 pid → (b_valid y ≠ 0 → b_data y = disk_read (b_blkno y) (disk s)) →
  ∃ s', brelse pid (Z.of_nat i) (bput s (Z.of_nat i) y) = Ret (tt, s') ∧ quiet s' ∧ disk s' = disk s.
Proof.
  intros HQ Hx H1 H2 H3 H4 H5. assert (HxN : bufs s !! Z.to_nat (Z.of_nat i) = Some x) by (by rewrite Nat2Z.id).
  pose proof (bput_same s (Z.of_nat i) y x HxN) as Hy. set (y1 := set_lock (mk_sleeplock 0 0) y). set (y2 := set_refcnt 0 y1).
  assert (Hun : brelse_unlock pid (Z.of_nat i) (bput s (Z.of_nat i) y) = Ret (tt, bput s (Z.of_nat i) y1)).
  { unfold brelse_unlock, holdingsleep. rewrite !bind_assoc, (bind_Ret _ _ _ _ _ (get_buf_run _ _ _ Hy)), H4. simpl.
    unfold mbind at 1, K_bind at 1, mret, K_ret. rewrite bool_decide_eq_true_2 by done. simpl. unfold releasesleep.
    rewrite (bind_Ret _ _ _ _ _ (get_buf_run _ _ _ Hy)). by rewrite <-(bput_bput s (Z.of_nat i) y y1). }
  unfold brelse. rewrite (bind_Ret _ _ _ _ _ Hun). unfold brelse_put.
  rewrite (bind_Ret _ _ _ _ _ (get_buf_run _ _ _ (bput_same s (Z.of_nat i) y1 x HxN))).
  change (b_refcnt y1) with (b_refcnt y). rewrite H3. rewrite (bind_Ret (put_buf _ _) _ _ tt (bput s (Z.of_nat i) y2)) by (by rewrite <-(bput_bput s (Z.of_nat i) y1 y2)).
  rewrite decide_True by done. destruct (qu_list _ HQ) as (l & Hl & Hp).
  assert (Hi : 0 ≤ Z.of_nat i < NNUM) by (pose proof (lookup_lt_Some _ _ _ Hx) as Hlt; rewrite (qu_len _ HQ) in Hlt; unfold NNUM in *; lia).
  destruct (seqZ_split (Z.of_nat i) l Hp Hi) as (l1 & l2 & ->). destruct (move_front_run (links s) l1 (Z.of_nat i) l2 Hl) as (h & Hh & _ & Hd).
  exists (set_links h (bput s (Z.of_nat i) y2)). split; [by apply on_links_run|]. split; [|done]. split; simpl.
  - rewrite length_insert. apply (qu_len _ HQ).
  - exists (Z.of_nat i :: l1 ++ l2). split; [done|]. by rewrite Permutation_middle.
  - rewrite Nat2Z.id. intros j z. destruct (decide (i = j)) as [<-|Hj].
    + rewrite list_lookup_insert_eq by (by eapply lookup_lt_Some). intros [= <-]. by split_and!.
    + rewrite list_lookup_insert_ne by done. apply (qu_buf _ HQ).
Qed.

#[export] Instance cache_reader : BlockReader st.
Proof.
  refine {| br_bread := bread pid; br_data := λ h, x ← get_buf h; mret (b_data x); br_brelse := brelse pid;
    br_ok := λ dev v s, dev = 0 ∧ quiet s ∧ ∀ n, v n = disk_read n (disk s) |}.
  - intros dev v s n (_ & _ & ->) _. apply disk_len.
  - intros dev v s n (-> & HQ & Hv) _. destruct (quiet_bread s n HQ) as (i & x & y & Hx & Hb & H1 & H2 & H3 & H4 & H5 & H6 & H7).
    destruct (quiet_brelse s i x y HQ Hx H1 H2 H3 H4) as (s' & Hr & HQ' & Hd); [by rewrite H6|].
    exists (Z.of_nat i), (bput s (Z.of_nat i) y), s'. split_and!; try done; [|by rewrite Hd].
    rewrite (bind_Ret _ _ _ _ _ (get_buf_run _ _ _ (bput_same s (Z.of_nat i) y x ltac:(by rewrite Nat2Z.id)))). by rewrite Hv, <-H7.
Defined.
End one_thread.

(** * Theorems *)

(** In every state threads reach through the cache: one holder per
    buffer, one buffer per block, a clean buffer equals the disk, and the
    reference counts count the references. *)
Theorem block_cache_coherent s0 c :
  cold s0 → cache_reach s0 c →
  (∀ k k' r r', crefs c !! k = Some r → crefs c !! k' = Some r' → is_holding r = true → is_holding r' = true →
     r_buf r = r_buf r' → k = k') ∧
  (∀ i j x y, bufs (cs c) !! i = Some x → bufs (cs c) !! j = Some y → b_blkno x = b_blkno y → b_blkno x ≠ 0 → i = j) ∧
  (∀ k r x, crefs c !! k = Some r → r_stat r = Holding false → bufs (cs c) !! Z.to_nat (r_buf r) = Some x →
     b_valid x ≠ 0 → b_data x = disk_read (b_blkno x) (disk (cs c))) ∧
  (∀ i x, bufs (cs c) !! i = Some x → b_refcnt x = Z.of_nat (length (refs_of (Z.of_nat i) (crefs c)))).
Proof.
  intros Hc HI%cache_reach_inv; [|done]. split_and!.
  - intros k k' r r' Hk Hk' Hr Hr' Hb. destruct (decide (k = k')) as [|Hne]; [done|]. exfalso.
    destruct (ref_at_intro c k r HI Hk) as (A & B & x & Hra).
    destruct (holding_alone _ _ _ _ (bo_lock _ _ _ _ (ra_ok _ _ _ _ _ _ Hra)) Hr) as (HA & HB & _).
    assert (Hin : r' ∈ A ++ B).
    { rewrite <-(ra_del _ _ _ _ _ _ Hra). destruct (decide (k' < k)%nat).
      - apply (list_elem_of_lookup_2 _ k'). by rewrite list_lookup_delete_lt.
      - apply (list_elem_of_lookup_2 _ (k' - 1)). rewrite list_lookup_delete_ge by lia. by replace (S (k' - 1)) with k' by lia. }
    assert (Hh : r' ∈ holders (refs_of (r_buf r) (A ++ B))).
    { apply list_elem_of_filter. split; [by rewrite Hr'|]. by apply list_elem_of_filter. }
    rewrite refs_of_app, holders_app, HA, HB in Hh. by apply elem_of_nil in Hh.
  - apply (ci_uniq _ HI).
  - intros k r x Hk Hr Hx Hv. destruct (ref_at_intro c k r HI Hk) as (A & B & y & Hra).
    assert (y = x) as -> by (pose proof (ra_buf _ _ _ _ _ _ Hra); congruence).
    destruct (holder_facts c k r A B x false Hra Hr) as (_ & _ & _ & Hns & Hm).
    apply (bo_coh _ _ _ _ (ra_ok _ _ _ _ _ _ Hra) Hv); [|done]. rewrite Hm, Hr. done.
  - intros i x Hx. apply (bo_ref _ _ _ _ (ci_buf _ HI i x Hx)).
Qed.

(** C16: For threads that interleave bget, lock, fill, modify, bwrite and
    brelse on the blocks of device 0 other than block 0, every step the cache
    allows runs to its end, and the device seen through the cache changes
    exactly as the abstract disk of blocks does. *)
Theorem block_cache_refines s0 c e :
  cold s0 → cache_reach s0 c → cache_enabled e c →
  ∃ c', cache_step e c = Ret (tt, c') ∧ cache_reach s0 c' ∧
    ∀ n, n ≠ 0 → n ∉ stale c → view (cs c') n = new_view e c n.
Proof.
  intros Hc Hr He. destruct (cache_step_ok c e (cache_reach_inv s0 c Hc Hr) He) as (c' & Hs & _ & Hv & _).
  exists c'. split_and!; [done| |done]. by apply (cache_next s0 c e).
Qed.

(** A block that is not cached while every buffer is in use: bread dereferences
    the null pointer bget returns. *)
Theorem bread_full_fault c pid n :
  cache_inv c → n ≠ 0 → Forall (λ x, b_refcnt x ≠ 0 ∧ b_blkno x ≠ n) (bufs (cs c)) → bread pid 0 n (cs c) = Fault.
Proof.
  intros HI Hn Hf. rewrite Forall_lookup in Hf. unfold bread, bget.
  destruct (bget_find_run c n HI) as [[Hb _]|(i & x & x' & Hx & _ & Hx')].
  - rewrite bind_assoc, (bind_Ret _ _ _ _ _ Hb). done.
  - destruct (Hf i x Hx) as [H0 H1]. by destruct Hx' as [[? _]|(? & _)].
Qed.
End bcache.

(** * Witnesses *)

(** A device in memory, zero where nothing was written. *)
#[local] Instance mem_disk : Disk (gmap Z block).
Proof.
  refine {| disk_read n d := (λ x, x mod 2 ^ 8) <$> resize (Z.to_nat BSIZE) 0 (default [] (d !! n)); disk_write n b d := <[n := b]> d |}.
  - intros n d. split; [by rewrite length_fmap, length_resize|]. apply Forall_fmap, Forall_true. intros x. apply mod_byte.
  - intros n b m d [Hl Hb]. destruct (decide (m = n)) as [->|Hne].
    + rewrite lookup_insert_eq. simpl. rewrite resize_all_alt by lia. rewrite <-(list_fmap_id b) at 2.
      apply list_fmap_ext. intros i x Hx. apply Z.mod_small. rewrite Forall_lookup in Hb. exact (Hb i x Hx).
    + by rewrite lookup_insert_ne.
Defined.

Definition demo_cold : bcache (gmap Z block) :=
  mk_bcache (replicate (Z.to_nat NNUM) (mk_buf [] 0 0 0 0 0 (mk_sleeplock 0 0)))
    (list_to_map ((λ a, (a, mk_list_head 0 0)) <$> seqZ 0 (NNUM + 1))) ∅.
Definition demo_ready : bcache (gmap Z block) := match binit demo_cold with Ret (_, s) => s | _ => demo_cold end.

Lemma demo_cold_ok : cold demo_cold.
Proof.
  split_and!; [done| |].
  - intros i x [-> _]%lookup_replicate. done.
  - assert (HF : Forall (λ b, is_Some (links demo_cold !! b)) (seqZ 0 (NNUM + 1))) by (apply (bool_decide_unpack _); vm_compute; exact I).
    intros b Hb. apply elem_of_dom. rewrite Forall_forall in HF. apply HF, elem_of_seqZ. lia.
Qed.
Lemma demo_ready_reach : cache_reach demo_cold (mk_cstate demo_ready [] ∅).
Proof. apply cache_boot. vm_compute. reflexivity. Qed.

(** Thread 7 has read block 5. *)
Definition demo_step (e : cevent) (c : cstate) : cstate := match cache_step e c with Ret (_, c') => c' | _ => c end.
Definition demo_got : cstate := demo_step (Cget 7 0 5) (mk_cstate demo_ready [] ∅).
Definition demo_locked : cstate := demo_step (Clock 0) demo_got.

Lemma demo_locked_reach : cache_reach demo_cold demo_locked.
Proof.
  apply (cache_next demo_cold demo_got (Clock 0)); [|eexists; split; [vm_compute; reflexivity|reflexivity]|vm_compute; reflexivity].
  apply (cache_next demo_cold (mk_cstate demo_ready [] ∅) (Cget 7 0 5)); [exact demo_ready_reach|done|vm_compute; reflexivity].
Qed.

Lemma block_cache_coherent_witness :
  length (crefs demo_locked) = 1%nat ∧ ∀ i j x y, bufs (cs demo_locked) !! i = Some x → bufs (cs demo_locked) !! j = Some y → b_blkno x = b_blkno y → b_blkno x ≠ 0 → i = j.
Proof. split; [vm_compute; reflexivity|]. exact (proj1 (proj2 (block_cache_coherent demo_cold demo_locked demo_cold_ok demo_locked_reach))). Defined.

Lemma block_cache_refines_witness :
  ∃ c', cache_step (Cfill 0) demo_locked = Ret (tt, c') ∧ cache_reach demo_cold c' ∧
    ∀ n, n ≠ 0 → n ∉ stale demo_locked → view (cs c') n = new_view (Cfill 0) demo_locked n.
Proof.
  apply (block_cache_refines demo_cold demo_locked (Cfill 0) demo_cold_ok demo_locked_reach).
  eexists _, _. split; [vm_compute; reflexivity|reflexivity].
Defined.

(** Thirty-two references to different blocks. *)
Definition demo_full : cstate :=
  foldl (λ c n, demo_step (Cget 7 0 n) c) (mk_cstate demo_ready [] ∅) (seqZ 1 32).

Lemma gets_inv l c :
  cache_inv c → Forall (λ n, n ≠ 0) l → Z.of_nat (length (crefs c) + length l) < 2 ^ 32 - 1 →
  cache_inv (foldl (λ c n, demo_step (Cget 7 0 n) c) c l).
Proof.
  revert c. induction l as [|n l IH]; intros c HI Hl Hlen; [done|]. apply Forall_cons in Hl as [Hn Hl]. simpl in *.
  destruct (cache_step_ok c (Cget 7 0 n) HI) as (c' & Hs & HI' & _); [split_and!; [done|done|lia]|].
  assert (Hd : demo_step (Cget 7 0 n) c = c') by (unfold demo_step; by rewrite Hs). rewrite Hd. apply IH; [done|done|].
  assert (Hle : (length (crefs c') ≤ S (length (crefs c)))%nat); [|lia].
  simpl in Hs. unfold gets at 1 in Hs. unfold mbind at 1, K_bind at 1 in Hs. apply bind_Ret_inv in Hs as (o & c1 & H1 & H2).
  apply on_cache_inv in H1 as (_ & Hc1 & _). destruct o as [b|]; [|injection H2 as <-; rewrite Hc1; lia].
  unfold modify, mbind, K_bind in H2. destruct (decide (blkno_of (cs (id c)) b = n)); injection H2 as <-; simpl; rewrite Hc1, length_app; simpl; lia.
Qed.

Lemma bread_full_fault_witness : bread 7 0 40 (cs demo_full) = Fault.
Proof.
  apply (bread_full_fault demo_full).
  - apply gets_inv; [exact (cache_reach_inv demo_cold _ demo_cold_ok demo_ready_reach)|apply (bool_decide_unpack _); vm_compute; exact I|vm_compute; reflexivity].
  - done.
  - apply (bool_decide_unpack _). vm_compute. exact I.
Defined.
