(* ===== verification/Icache.v ===== *)
(** kernel/fs/inode_cache.c: the inodes in memory.

    The table holds the fields get_inode and put_inode use; the other fields of
    a slot belong to the file system.  [owned_dev] are the devices whose file
    system lets the cache allocate the private data (easyfs and ext4 pass
    alloc and free); the others (tmpfs) keep their own object there.  The events
    are the calls of the users, who hold the references [irefs]; a user may set
    the link count and, on the other devices, the private data.  Pages come from
    any [PageAllocator]. *)
From S2P Require Import Prelude Memory Kalloc ListHead.

Definition NINODES : Z := 50.

Record cinode := mk_cinode { i_dev : Z; i_ino : Z; i_count : Z; i_nlinks : Z; private_data : Z; pd_owned : Z }.

Record icache (P : Type) := mk_icache { inodes : list cinode; ilinks : nodes; ipages : P; icache_lock : bool }.
Arguments mk_icache {_} _ _ _ _.
Arguments inodes {_} _.
Arguments ilinks {_} _.
Arguments ipages {_} _.
Arguments icache_lock {_} _.

Section icache.
Context {P : Type} `{PageAllocator P}.
Abbreviation st := (icache P).

(** &icache.head *)
Definition IHEAD : Z := NINODES.

Definition set_inodes l (s : st) : st := mk_icache l (ilinks s) (ipages s) (icache_lock s).
Definition set_ilinks h (s : st) : st := mk_icache (inodes s) h (ipages s) (icache_lock s).
Definition set_ipages p (s : st) : st := mk_icache (inodes s) (ilinks s) p (icache_lock s).
Definition set_icache_lock b (s : st) : st := mk_icache (inodes s) (ilinks s) (ipages s) b.
Definition on_ilinks {A} (m : K nodes A) : K st A := zoom ilinks set_ilinks m.
Definition on_ipages {A} (m : K P A) : K st A := zoom ipages set_ipages m.

Definition get_ci (i : Z) : K st cinode := λ s,
  match inodes s !! Z.to_nat i with Some x => Ret (x, s) | None => Fault end.
Definition put_ci (i : Z) (x : cinode) : K st unit := modify (λ s, set_inodes (<[Z.to_nat i := x]> (inodes s)) s).

Definition set_count n (x : cinode) : cinode := mk_cinode (i_dev x) (i_ino x) n (i_nlinks x) (private_data x) (pd_owned x).
Definition set_pd p o (x : cinode) : cinode := mk_cinode (i_dev x) (i_ino x) (i_count x) (i_nlinks x) p o.
Definition set_id d n c (x : cinode) : cinode := mk_cinode d n c (i_nlinks x) (private_data x) (pd_owned x).

Definition icache_init : K st unit :=
  modify (set_icache_lock false) ;;
  on_ilinks (set_prev IHEAD IHEAD) ;;
  on_ilinks (set_next IHEAD IHEAD) ;;
  forM (seqZ 0 NINODES) (λ i,
    on_ilinks (n ← get_next IHEAD; set_next i n ;; set_prev i IHEAD) ;;
    x ← get_ci i;
    put_ci i (mk_cinode (i_dev x) (i_ino x) 0 (i_nlinks x) (private_data x) 0) ;;
    on_ilinks (n ← get_next IHEAD; set_prev n i ;; set_next IHEAD i)).

(** [if (ip->private_data == 0 && alloc) { ip->private_data = kalloc(); ip->pd_owned = 1; }] *)
Definition attach_page (i : Z) (alloc : bool) : K st unit :=
  x ← get_ci i;
  if bool_decide (private_data x = 0) && alloc then
    p ← on_ipages page_alloc;
    put_ci i (set_pd p 1 x)
  else mret tt.

(** The loop over the slots, and the loop from the least recently used one. *)
Definition find_slot (dev ino : Z) : K st (option Z) :=
  for_find (seqZ 0 NINODES) (λ i,
    x ← get_ci i;
    if decide (i_ino x = ino ∧ i_dev x = dev) then mret (Some i) else mret None).
Fixpoint find_free (fuel : nat) (pos : Z) : K st (option Z) :=
  match fuel with
  | O => λ _, NoFuel
  | S f =>
      if decide (pos = IHEAD) then mret None else
      x ← get_ci pos;
      if bool_decide (i_count x = 0) then mret (Some pos) else
      n ← on_ilinks (get_prev pos);
      find_free f n
  end.
Definition find_fuel : nat := S (Z.to_nat NINODES).

Definition get_inode (dev ino : Z) (alloc : bool) : K st (option Z) :=
  acquire icache_lock set_icache_lock ;;
  r ← find_slot dev ino;
  match r with
  | Some i =>
      x ← get_ci i;
      (if decide (i_count x > 0) then put_ci i (set_count (u32 (i_count x + 1)) x)
       else put_ci i (set_count 1 x) ;; attach_page i alloc) ;;
      release icache_lock set_icache_lock ;;
      mret (Some i)
  | None =>
      p ← on_ilinks (get_prev IHEAD);
      r ← find_free find_fuel p;
      match r with
      | Some i =>
          x ← get_ci i;
          (if decide (i_dev x ≠ dev) then
             (if bool_decide (pd_owned x ≠ 0) && bool_decide (private_data x ≠ 0)
              then on_ipages (page_free (private_data x)) else mret tt) ;;
             put_ci i (set_pd 0 0 x)
           else mret tt) ;;
          x ← get_ci i;
          put_ci i (set_id dev ino 1 x) ;;
          attach_page i alloc ;;
          release icache_lock set_icache_lock ;;
          mret (Some i)
      | None => release icache_lock set_icache_lock ;; mret None
      end
  end.

Definition put_inode (i : Z) (free : bool) : K st unit :=
  acquire icache_lock set_icache_lock ;;
  x ← get_ci i;
  if decide (i_count x = 1 ∧ i_nlinks x = 0) then
    put_ci i (set_count 0 x) ;;
    on_ilinks (p ← get_prev i; n ← get_next i; set_next p n ;; n ← get_next i; p ← get_prev i; set_prev n p) ;;
    (if free then on_ipages (page_free (private_data x)) else mret tt) ;;
    x ← get_ci i;
    put_ci i (set_pd 0 0 x) ;;
    on_ilinks (push_front IHEAD i) ;;
    release icache_lock set_icache_lock
  else if decide (i_count x = 0) then release icache_lock set_icache_lock
  else
    put_ci i (set_count (u32 (i_count x - 1)) x) ;;
    release icache_lock set_icache_lock.

(** ** The users *)

Variable owned_dev : Z → bool.

Record istate := mk_istate { ic : st; irefs : list Z }.
Definition set_ic s (c : istate) : istate := mk_istate s (irefs c).
Definition set_irefs l (c : istate) : istate := mk_istate (ic c) l.
Definition on_ic {A} (m : K st A) : K istate A := zoom ic set_ic m.

Inductive ievent := Iget (dev ino : Z) | Iput (k : nat) | Iset (k : nat) (nlinks pd : Z).

Definition icache_step (e : ievent) : K istate unit :=
  match e with
  | Iget dev ino =>
      r ← on_ic (get_inode dev ino (owned_dev dev));
      match r with Some i => modify (λ c, set_irefs (irefs c ++ [i]) c) | None => mret tt end
  | Iput k => λ c,
      match irefs c !! k with
      | Some i => (x ← on_ic (get_ci i); on_ic (put_inode i (owned_dev (i_dev x))) ;; modify (λ c, set_irefs (delete k (irefs c)) c)) c
      | None => Ret (tt, c)
      end
  | Iset k nl pd => λ c,
      match irefs c !! k with
      | Some i => on_ic (x ← get_ci i; put_ci i (mk_cinode (i_dev x) (i_ino x) (i_count x) nl pd (pd_owned x))) c
      | None => Ret (tt, c)
      end
  end.

Definition slot_of (c : istate) (i : Z) : option cinode := inodes (ic c) !! Z.to_nat i.

Definition icache_enabled (e : ievent) (c : istate) : Prop :=
  match e with
  | Iget dev ino => ino ≠ 0 ∧ Z.of_nat (length (irefs c)) < 2 ^ 32 - 1
  | Iput k => ∃ i x, irefs c !! k = Some i ∧ slot_of c i = Some x ∧
      (owned_dev (i_dev x) = true → i_count x = 1 → i_nlinks x = 0 → private_data x ≠ 0)
  | Iset k nl pd => ∃ i x, irefs c !! k = Some i ∧ slot_of c i = Some x ∧ (owned_dev (i_dev x) = true → pd = private_data x)
  end.

(** ** Invariant *)

(** The page a slot owns. *)
Definition page_of (x : cinode) : option Z :=
  if decide (pd_owned x ≠ 0 ∧ private_data x ≠ 0) then Some (private_data x) else None.
Definition owned_pages (s : st) : list Z := omap page_of (inodes s).
Definition refs_to (i : Z) (rs : list Z) : list Z := filter (.= i) rs.

Record icache_inv (all : list Z) (c : istate) : Prop := {
  iv_all : NoDup all ∧ ∀ p, p ∈ all → is_page p;
  iv_len : length (inodes (ic c)) = Z.to_nat NINODES;
  iv_lock : icache_lock (ic c) = false;
  iv_list : ∃ l, dlist (ilinks (ic c)) IHEAD l ∧ l ≡ₚ seqZ 0 NINODES;
  iv_uniq i j x y : inodes (ic c) !! i = Some x → inodes (ic c) !! j = Some y →
    i_ino x = i_ino y → i_dev x = i_dev y → i_ino x ≠ 0 → i = j;
  iv_count i x : inodes (ic c) !! i = Some x → i_count x = Z.of_nat (length (refs_to (Z.of_nat i) (irefs c)));
  iv_refs i : i ∈ irefs c → 0 ≤ i < NINODES ∧ ∃ x, slot_of c i = Some x ∧ i_ino x ≠ 0;
  iv_small : Z.of_nat (length (irefs c)) < 2 ^ 32;
  iv_owned i x : inodes (ic c) !! i = Some x → pd_owned x ≠ 0 → owned_dev (i_dev x) = true;
  iv_data i x : inodes (ic c) !! i = Some x → owned_dev (i_dev x) = true → private_data x ≠ 0 → pd_owned x ≠ 0;
  iv_pages : ∃ L, page_pool (ipages (ic c)) L ∧ L ++ owned_pages (ic c) ≡ₚ all;
  iv_live p : p ∈ owned_pages (ic c) → page_refs (ipages (ic c)) p = 1
}.

(** * Lemmas *)

Lemma on_ilinks_run {A} (m : K nodes A) s x h : m (ilinks s) = Ret (x, h) → on_ilinks m s = Ret (x, set_ilinks h s).
Proof. intros Hm. unfold on_ilinks, zoom. by rewrite Hm. Qed.
Lemma on_ipages_run {A} (m : K P A) s x p : m (ipages s) = Ret (x, p) → on_ipages m s = Ret (x, set_ipages p s).
Proof. intros Hm. unfold on_ipages, zoom. by rewrite Hm. Qed.
Lemma get_ci_run s i x : inodes s !! Z.to_nat i = Some x → get_ci i s = Ret (x, s).
Proof. intros Hx. unfold get_ci. by rewrite Hx. Qed.

(** A state in which one slot, the links or the pages changed. *)
Definition iput (s : st) (i : Z) (x : cinode) (h : nodes) (p : P) : st :=
  mk_icache (<[Z.to_nat i := x]> (inodes s)) h p (icache_lock s).
Lemma iput_same s i x y h p : inodes s !! Z.to_nat i = Some y → inodes (iput s i x h p) !! Z.to_nat i = Some x.
Proof. intros Hy. simpl. apply list_lookup_insert_eq. by eapply lookup_lt_Some. Qed.
Lemma put_ci_run s i x : put_ci i x s = Ret (tt, iput s i x (ilinks s) (ipages s)).
Proof. done. Qed.
Lemma iput_iput s i x y h p h' p' : iput (iput s i x h p) i y h' p' = iput s i y h' p'.
Proof. unfold iput. simpl. by rewrite list_insert_insert_eq. Qed.
Lemma iput_id s i x : inodes s !! Z.to_nat i = Some x → iput s i x (ilinks s) (ipages s) = s.
Proof. intros Hx. unfold iput. rewrite list_insert_id by done. by destruct s. Qed.

(** The pages of the slots but one. *)
Lemma owned_split s i x : inodes s !! Z.to_nat i = Some x →
  ∃ R, owned_pages s ≡ₚ option_list (page_of x) ++ R ∧ ∀ x' h p, owned_pages (iput s i x' h p) ≡ₚ option_list (page_of x') ++ R.
Proof.
  intros Hx. exists (omap page_of (take (Z.to_nat i) (inodes s)) ++ omap page_of (drop (S (Z.to_nat i)) (inodes s))).
  assert (Ho : ∀ y A C, omap page_of (A ++ y :: C) ≡ₚ option_list (page_of y) ++ omap page_of A ++ omap page_of C).
  { intros y A C. rewrite omap_app. simpl. destruct (page_of y); simpl; [|done]. by rewrite <-Permutation_middle. }
  split.
  - unfold owned_pages. rewrite <-(take_drop_middle _ _ _ Hx) at 1. apply Ho.
  - intros x' h p. unfold owned_pages, iput. simpl. rewrite insert_take_drop by (by eapply lookup_lt_Some). apply Ho.
Qed.

Lemma refs_to_app i rs rs' : refs_to i (rs ++ rs') = refs_to i rs ++ refs_to i rs'.
Proof. apply filter_app. Qed.

(** The invariant after a change of one slot. *)
Lemma inv_slot all c i x x' h p rs :
  icache_inv all c → 0 ≤ i < NINODES → inodes (ic c) !! Z.to_nat i = Some x →
  (∃ l, dlist h IHEAD l ∧ l ≡ₚ seqZ 0 NINODES) →
  (∀ j y, j ≠ Z.to_nat i → inodes (ic c) !! j = Some y → i_ino x' = i_ino y → i_dev x' = i_dev y → i_ino x' ≠ 0 → False) →
  i_count x' = Z.of_nat (length (refs_to i rs)) → (∀ j, j ≠ i → refs_to j rs = refs_to j (irefs c)) →
  (i ∈ rs → i_ino x' ≠ 0) → Z.of_nat (length rs) < 2 ^ 32 →
  (pd_owned x' ≠ 0 → owned_dev (i_dev x') = true) → (owned_dev (i_dev x') = true → private_data x' ≠ 0 → pd_owned x' ≠ 0) →
  (∀ R, owned_pages (ic c) ≡ₚ option_list (page_of x) ++ R →
     ∃ L, page_pool p L ∧ L ++ option_list (page_of x') ++ R ≡ₚ all ∧ ∀ q, q ∈ option_list (page_of x') ++ R → page_refs p q = 1) →
  icache_inv all (mk_istate (iput (ic c) i x' h p) rs).
Proof.
  intros HI Hi Hx Hl Hu Hc Hrs Hino Hsm Ho Hd Hpg. destruct (owned_split (ic c) i x Hx) as (R & HR & HR').
  destruct (Hpg R HR) as (L & HL & HLp & Hlive).
  assert (Hlk : ∀ j y, inodes (iput (ic c) i x' h p) !! j = Some y → (j = Z.to_nat i ∧ y = x') ∨ (j ≠ Z.to_nat i ∧ inodes (ic c) !! j = Some y)).
  { intros j y. simpl. destruct (decide (j = Z.to_nat i)) as [->|Hne].
    - rewrite list_lookup_insert_eq by (by eapply lookup_lt_Some). intros [= <-]. by left.
    - rewrite list_lookup_insert_ne by done. by right. }
  split.
  - apply HI.
  - simpl. rewrite length_insert. apply HI.
  - apply HI.
  - done.
  - intros j k y z [[-> ->]|[Hj Hy]]%Hlk [[-> ->]|[Hk Hz]]%Hlk E1 E2 E0; [done| | |by eapply (iv_uniq _ _ HI)].
    + exfalso. by apply (Hu k z).
    + exfalso. apply (Hu j y); congruence.
  - intros j y [[-> ->]|[Hj Hy]]%Hlk; cbn [irefs]; [by rewrite Z2Nat.id by lia|]. rewrite Hrs by lia. by apply (iv_count _ _ HI).
  - intros j Hj. cbn [irefs] in Hj. destruct (decide (j = i)) as [->|Hne].
    + split; [done|]. exists x'. split; [by apply (iput_same _ _ _ x)|auto].
    + assert (Hj' : j ∈ irefs c).
      { assert (Hf : j ∈ refs_to j rs) by (by apply list_elem_of_filter). rewrite Hrs in Hf by done. by apply list_elem_of_filter in Hf as [_ ?]. }
      destruct (iv_refs _ _ HI j Hj') as (Hr & y & Hy & Hy0). split; [done|]. exists y. split; [|done].
      unfold slot_of. simpl. rewrite list_lookup_insert_ne by lia. done.
  - done.
  - intros j y [[-> ->]|[Hj Hy]]%Hlk; [done|by apply (iv_owned _ _ HI j)].
  - intros j y [[-> ->]|[Hj Hy]]%Hlk; [done|by apply (iv_data _ _ HI j)].
  - exists L. split; [done|]. cbn [ic]. by rewrite HR'.
  - intros q. cbn [ic]. rewrite HR'. apply Hlive.
Qed.

Lemma find_slot_run s dev ino :
  length (inodes s) = Z.to_nat NINODES →
  ∃ r, find_slot dev ino s = Ret (r, s) ∧
    match r with
    | Some i => 0 ≤ i < NINODES ∧ ∃ x, inodes s !! Z.to_nat i = Some x ∧ i_ino x = ino ∧ i_dev x = dev
    | None => ∀ j x, inodes s !! j = Some x → ¬ (i_ino x = ino ∧ i_dev x = dev)
    end.
Proof.
  intros Hl. destruct (for_find_seq
    (λ i s', s' = s ∧ ∀ j x, Z.of_nat j < i → inodes s !! j = Some x → ¬ (i_ino x = ino ∧ i_dev x = dev))
    (λ i s', s' = s ∧ 0 ≤ i < NINODES ∧ ∃ x, inodes s !! Z.to_nat i = Some x ∧ i_ino x = ino ∧ i_dev x = dev)
    (λ i, x ← get_ci i; if decide (i_ino x = ino ∧ i_dev x = dev) then mret (Some i) else mret None) 0 NINODES s) as (r & s' & Hf & Hp).
  - done.
  - intros i s1 Hi [-> Hb]. destruct (lookup_lt_is_Some_2 (inodes s) (Z.to_nat i)) as [x Hx]; [lia|].
    rewrite (bind_Ret _ _ _ _ _ (get_ci_run s i x Hx)). case_decide as Hd.
    + exists (Some i), s. split_and!; [done|done|lia|lia|]. by exists x.
    + exists None, s. split_and!; [done|done|]. intros j y Hj Hy. destruct (decide (j = Z.to_nat i)) as [->|]; [congruence|]. apply (Hb j); [lia|done].
  - split; [done|]. intros j y Hj. lia.
  - exists r. destruct r as [i|]; [destruct Hp as (-> & ? & ?); by split|]. destruct Hp as [-> Hp]. split; [done|].
    intros j x Hx. apply (Hp j x); [|done]. pose proof (lookup_lt_Some _ _ _ Hx). lia.
Qed.

Lemma find_free_run fuel pos l s :
  link_chain IHEAD (ilinks s) false pos l → (length l < fuel)%nat → (∀ b, b ∈ l → is_Some (inodes s !! Z.to_nat b)) →
  find_free fuel pos s = Ret (first_buf (λ x, bool_decide (i_count x = 0)) (inodes s) l, s).
Proof.
  revert pos fuel. induction l as [|b l IH]; intros pos fuel Hc Hf Hl; (destruct fuel as [|fuel]; [simpl in Hf; lia|]).
  - simpl in *. subst. by rewrite decide_True.
  - simpl in Hc, Hf. destruct Hc as (-> & Hh & n & Hn & Hc). destruct (Hl b) as [x Hx]; [by left|]. simpl.
    rewrite decide_False by done. rewrite (bind_Ret _ _ _ _ _ (get_ci_run s b x Hx)), Hx. destruct (bool_decide (i_count x = 0)); [done|].
    assert (Hg : on_ilinks (get_prev b) s = Ret (n, s)).
    { rewrite (on_ilinks_run _ s _ _ (get_prev_eq _ _ _ Hn)). by destruct s. }
    rewrite (bind_Ret _ _ _ _ _ Hg). apply IH; [done|lia|]. intros c Hc'. apply Hl. by right.
Qed.

(** What attach_page does to a slot and to the pages. *)
Record attached (alloc : bool) (x x' : cinode) (p p' : P) (L : list Z) : Prop := {
  at_same : i_dev x' = i_dev x ∧ i_ino x' = i_ino x ∧ i_count x' = i_count x ∧ i_nlinks x' = i_nlinks x;
  at_owned : pd_owned x' ≠ 0 → pd_owned x ≠ 0 ∨ alloc = true;
  at_data : (private_data x ≠ 0 → pd_owned x ≠ 0) → private_data x' ≠ 0 → pd_owned x' ≠ 0;
  at_kept : private_data x ≠ 0 → x' = x;
  at_pool : ∃ L', page_pool p' L' ∧ L' ++ option_list (page_of x') ≡ₚ L ++ option_list (page_of x);
  at_refs q : is_page q → q ∉ L → page_refs p' q = page_refs p q;
  at_live q : page_of x' = Some q → page_of x = Some q ∨ page_refs p' q = 1
}.

Lemma attached_refl alloc x p L : page_pool p L → attached alloc x x p p L.
Proof. intros HL. split; try done; [by left|by exists L|by left]. Qed.

Lemma attach_page_run s i x alloc L :
  inodes s !! Z.to_nat i = Some x → page_pool (ipages s) L →
  ∃ x' p', attach_page i alloc s = Ret (tt, iput s i x' (ilinks s) p') ∧ attached alloc x x' (ipages s) p' L.
Proof.
  intros Hx HL. unfold attach_page. rewrite (bind_Ret _ _ _ _ _ (get_ci_run s i x Hx)).
  pose proof (attached_refl alloc x (ipages s) L HL) as Hskip.
  destruct (bool_decide (private_data x = 0)) eqn:Ez; simpl; [|by exists x, (ipages s); rewrite iput_id].
  apply bool_decide_eq_true in Ez. destruct alloc; [|by exists x, (ipages s); rewrite iput_id].
  assert (Hnone : page_of x = None) by (unfold page_of; by rewrite decide_False by naive_solver). destruct L as [|q L].
  - rewrite (bind_Ret _ _ _ _ _ (on_ipages_run _ s _ _ (page_alloc_nil _ HL))). exists (set_pd 0 1 x), (ipages s).
    split; [rewrite put_ci_run; by destruct s|]. split; try done; [by right|by exists []; rewrite Hnone].
  - destruct (page_alloc_cons _ _ _ HL) as (p' & Ha & HL' & H1 & Href). rewrite (bind_Ret _ _ _ _ _ (on_ipages_run _ s _ _ Ha)).
    destruct (page_pool_pages _ _ HL) as [_ Hpg]. destruct (is_page_range q) as (Hq0 & _); [apply Hpg; by left|].
    exists (set_pd q 1 x), p'. split; [by rewrite put_ci_run|].
    assert (Hq : page_of (set_pd q 1 x) = Some q) by (unfold page_of; simpl; rewrite decide_True by (split; [done|lia]); done).
    split; try done; [by right| | |].
    + exists L. split; [done|]. rewrite Hnone, Hq. simpl. rewrite app_nil_r. symmetry. apply Permutation_cons_append.
    + intros r Hr Hn. apply Href; [done|]. intros ->. apply Hn. by left.
    + intros r. rewrite Hq. intros [= <-]. by right.
Qed.

(** The pages of a slot after it was attached, for the invariant. *)
Lemma attached_pages all (s : st) alloc x x' p p' L R :
  NoDup all → (∀ q, q ∈ all → is_page q) → attached alloc x x' p p' L → L ++ option_list (page_of x) ++ R ≡ₚ all →
  (∀ q, q ∈ option_list (page_of x) ++ R → page_refs p q = 1) →
  ∃ L', page_pool p' L' ∧ L' ++ option_list (page_of x') ++ R ≡ₚ all ∧ ∀ q, q ∈ option_list (page_of x') ++ R → page_refs p' q = 1.
Proof.
  intros Hnd Hpg Ha Hall Hlive. destruct (at_pool _ _ _ _ _ _ Ha) as (L' & HL' & Hperm). exists L'. split; [done|].
  assert (Heq : L' ++ option_list (page_of x') ++ R ≡ₚ all) by (rewrite <-Hall, !app_assoc; by rewrite Hperm). split; [done|].
  rewrite <-Hall in Hnd. apply NoDup_app in Hnd as (_ & Hdis & _).
  assert (Hold : ∀ q, q ∈ option_list (page_of x) ++ R → page_refs p' q = 1).
  { intros q Hq. rewrite (at_refs _ _ _ _ _ _ Ha); [by apply Hlive|apply Hpg; rewrite <-Hall; apply elem_of_app; by right|]. intros HqL. by apply (Hdis q HqL). }
  intros q [Hq|Hq]%elem_of_app; [|apply Hold, elem_of_app; by right]. destruct (page_of x') as [r|] eqn:E; [|by apply elem_of_nil in Hq].
  apply list_elem_of_singleton in Hq as ->. destruct (at_live _ _ _ _ _ _ Ha r E) as [Hx|]; [|done]. apply Hold. rewrite Hx. simpl. by left.
Qed.
(** A slot taken by a new reference: the caller changed it to [x1] and the pages
    to [p1], then attached. *)
Lemma take_slot_inv all c i x x1 x' p1 p' L1 :
  icache_inv all c → 0 ≤ i < NINODES → inodes (ic c) !! Z.to_nat i = Some x →
  (∀ j y, j ≠ Z.to_nat i → inodes (ic c) !! j = Some y → i_ino x1 = i_ino y → i_dev x1 = i_dev y → False) →
  i_count x1 = i_count x + 1 → i_ino x1 ≠ 0 → Z.of_nat (length (irefs c)) < 2 ^ 32 - 1 →
  (pd_owned x1 ≠ 0 → owned_dev (i_dev x1) = true) → (owned_dev (i_dev x1) = true → private_data x1 ≠ 0 → pd_owned x1 ≠ 0) →
  (∀ R, owned_pages (ic c) ≡ₚ option_list (page_of x) ++ R →
     L1 ++ option_list (page_of x1) ++ R ≡ₚ all ∧ ∀ q, q ∈ option_list (page_of x1) ++ R → page_refs p1 q = 1) →
  attached (owned_dev (i_dev x1)) x1 x' p1 p' L1 →
  icache_inv all (mk_istate (iput (ic c) i x' (ilinks (ic c)) p') (irefs c ++ [i])).
Proof.
  intros HI Hi Hx Hu Hc Hino Hlen Ho Hd Hpg Ha. destruct (at_same _ _ _ _ _ _ Ha) as (Ed' & Ei & Ec & _).
  apply (inv_slot all c i x); try done.
  - apply (iv_list _ _ HI).
  - intros j y Hj Hy. rewrite Ed', Ei. intros E1 E2 _. by apply (Hu j y).
  - rewrite Ec, Hc, (iv_count _ _ HI _ _ Hx), Z2Nat.id by lia. rewrite refs_to_app, length_app. unfold refs_to at 3.
    rewrite filter_cons_True by done. simpl. lia.
  - intros j Hj. rewrite refs_to_app. unfold refs_to at 2. rewrite filter_cons_False by done. by rewrite app_nil_r.
  - by rewrite Ei.
  - rewrite length_app. simpl. lia.
  - rewrite Ed'. intros Hpo. by destruct (at_owned _ _ _ _ _ _ Ha Hpo) as [|]; auto.
  - rewrite Ed'. intros Hod. apply (at_data _ _ _ _ _ _ Ha). by apply Hd.
  - intros R HR. destruct (Hpg R HR) as [Hall Hlive]. apply (attached_pages all (ic c) (owned_dev (i_dev x1)) x1 x' p1 p' L1 R); try done; apply (iv_all _ _ HI).
Qed.

Lemma acquire_icache c all : icache_inv all c → acquire icache_lock set_icache_lock (ic c) = Ret (tt, set_icache_lock true (ic c)).
Proof. intros HI. unfold acquire. by rewrite (iv_lock _ _ HI). Qed.
Lemma release_icache c all : icache_inv all c →
  release icache_lock set_icache_lock (set_icache_lock true (ic c)) = Ret (tt, ic c).
Proof. intros HI. unfold release. simpl. pose proof (iv_lock _ _ HI). destruct (ic c); simpl in *. by subst. Qed.
Lemma release_iput c all i x h p : icache_inv all c →
  release icache_lock set_icache_lock (iput (set_icache_lock true (ic c)) i x h p) = Ret (tt, iput (ic c) i x h p).
Proof. intros HI. unfold release. simpl. pose proof (iv_lock _ _ HI) as Hl. unfold iput, set_icache_lock. simpl. by rewrite Hl. Qed.

(** The pages of the slots and of the pool are those of the machine. *)
Lemma slot_pages all c i x L :
  icache_inv all c → inodes (ic c) !! Z.to_nat i = Some x → L ++ owned_pages (ic c) ≡ₚ all →
  ∀ R, owned_pages (ic c) ≡ₚ option_list (page_of x) ++ R →
     L ++ option_list (page_of x) ++ R ≡ₚ all ∧ ∀ q, q ∈ option_list (page_of x) ++ R → page_refs (ipages (ic c)) q = 1.
Proof.
  intros HI Hx HL R HR. split; [by rewrite <-HR|]. intros q Hq. apply (iv_live _ _ HI). by rewrite HR.
Qed.

(** The slot of a page is freed. *)
Lemma free_slot_page all c i x L :
  icache_inv all c → inodes (ic c) !! Z.to_nat i = Some x → page_pool (ipages (ic c)) L → L ++ owned_pages (ic c) ≡ₚ all →
  pd_owned x ≠ 0 → private_data x ≠ 0 →
  ∃ p', page_free (private_data x) (ipages (ic c)) = Ret (tt, p') ∧ page_pool p' (private_data x :: L) ∧
    ∀ R, owned_pages (ic c) ≡ₚ option_list (page_of x) ++ R →
      (private_data x :: L) ++ R ≡ₚ all ∧ ∀ q, q ∈ R → page_refs p' q = 1.
Proof.
  intros HI Hx HL Hall Ho Hp. destruct (owned_split (ic c) i x Hx) as (R0 & HR0 & _).
  assert (Hpo : page_of x = Some (private_data x)) by (unfold page_of; by rewrite decide_True). rewrite Hpo in *. simpl in *.
  destruct (iv_all _ _ HI) as [Hnd Hpg].
  assert (Hin : private_data x ∈ owned_pages (ic c)) by (rewrite HR0; by left).
  assert (HinA : private_data x ∈ all) by (rewrite <-Hall; apply elem_of_app; by right).
  rewrite <-Hall in Hnd. apply NoDup_app in Hnd as (_ & Hdis & _).
  destruct (page_free_last _ (private_data x) L HL) as (p' & Hf & Hpool & Href);
    [by apply Hpg|intros HinL; by apply (Hdis _ HinL)|by apply (iv_live _ _ HI)|].
  exists p'. split_and!; [done|done|]. intros R HR. split.
  - rewrite <-Hall, HR. simpl. apply Permutation_middle.
  - intros q Hq. assert (Hqo : q ∈ owned_pages (ic c)) by (rewrite HR; by right).
    rewrite Href; [by apply (iv_live _ _ HI)|]. apply Hpg. rewrite <-Hall. apply elem_of_app. by right.
Qed.
(** What get_inode promises about the slot it returns. *)
Definition got_slot (all : list Z) (c : istate) (dev ino i : Z) (s' : st) : Prop :=
  icache_inv all (mk_istate s' (irefs c ++ [i])) ∧ 0 ≤ i < NINODES ∧
  ∃ x x', inodes (ic c) !! Z.to_nat i = Some x ∧ s' = iput (ic c) i x' (ilinks (ic c)) (ipages s') ∧
    i_dev x' = dev ∧ i_ino x' = ino ∧ i_count x' = i_count x + 1 ∧ (i_count x = 0 ∨ i_dev x = dev ∧ i_ino x = ino).

Lemma got_intro all c i x x1 x' p1 p' L1 alloc dev :
  icache_inv all (mk_istate (iput (ic c) i x' (ilinks (ic c)) p') (irefs c ++ [i])) → 0 ≤ i < NINODES →
  inodes (ic c) !! Z.to_nat i = Some x → attached alloc x1 x' p1 p' L1 → i_dev x1 = dev → i_count x1 = i_count x + 1 →
  (i_count x = 0 ∨ i_dev x = dev ∧ i_ino x = i_ino x1) →
  got_slot all c dev (i_ino x1) i (iput (ic c) i x' (ilinks (ic c)) p').
Proof.
  intros HI Hi Hx Ha Hd Hc Hold. destruct (at_same _ _ _ _ _ _ Ha) as (E1 & E2 & E3 & _).
  split; [done|]. split; [done|]. exists x, x'. split_and!; try done; congruence.
Qed.

Lemma get_hit_run all c i x :
  icache_inv all c → Z.of_nat (length (irefs c)) < 2 ^ 32 - 1 → 0 ≤ i < NINODES →
  inodes (ic c) !! Z.to_nat i = Some x → i_ino x ≠ 0 →
  ∃ s', (y ← get_ci i;
      (if decide (i_count y > 0) then put_ci i (set_count (u32 (i_count y + 1)) y)
       else put_ci i (set_count 1 y) ;; attach_page i (owned_dev (i_dev x))) ;;
      release icache_lock set_icache_lock ;;
      mret (Some i)) (set_icache_lock true (ic c)) = Ret (Some i, s') ∧
    got_slot all c (i_dev x) (i_ino x) i s'.
Proof.
  intros HI Hlen Hi Hx Hino. set (s := set_icache_lock true (ic c)).
  rewrite (bind_Ret _ _ _ _ _ (get_ci_run s i x Hx)). destruct (iv_pages _ _ HI) as (L & HL & Hall).
  pose proof (iv_count _ _ HI _ _ Hx) as Hcnt. set (x1 := set_count (i_count x + 1) x).
  assert (Hle : i_count x < 2 ^ 32 - 1).
  { rewrite Hcnt. unfold refs_to. pose proof (length_filter (.= Z.of_nat (Z.to_nat i)) (irefs c)). lia. }
  assert (Hinv : ∀ x' p', attached (owned_dev (i_dev x1)) x1 x' (ipages (ic c)) p' L →
    got_slot all c (i_dev x) (i_ino x) i (iput (ic c) i x' (ilinks (ic c)) p')).
  { intros x' p' Ha. apply (got_intro all c i x x1 x' (ipages (ic c)) p' L (owned_dev (i_dev x1))); [|done|done|done|done|done|by right].
    apply (take_slot_inv all c i x x1 x' (ipages (ic c)) p' L); try done.
    - intros j y Hj Hy E1 E2. apply Hj. symmetry. by apply (iv_uniq _ _ HI _ j x y).
    - apply (iv_owned _ _ HI _ _ Hx).
    - apply (iv_data _ _ HI _ _ Hx).
    - by apply (slot_pages all c i x L). }
  assert (Hrun : ∃ x' p', (if decide (i_count x > 0) then put_ci i (set_count (u32 (i_count x + 1)) x)
      else put_ci i (set_count 1 x) ;; attach_page i (owned_dev (i_dev x))) s = Ret (tt, iput s i x' (ilinks s) p') ∧
    attached (owned_dev (i_dev x1)) x1 x' (ipages (ic c)) p' L).
  { case_decide as Hpos.
    - exists x1, (ipages s). rewrite u32_small by lia. split; [apply put_ci_run|by apply attached_refl].
    - assert (H0 : i_count x = 0) by (rewrite Hcnt in *; lia). assert (Hx1 : set_count 1 x = x1) by (unfold x1; by rewrite H0). rewrite Hx1.
      rewrite (bind_Ret _ _ _ _ _ (put_ci_run s i x1)). set (s1 := iput s i x1 (ilinks s) (ipages s)).
      destruct (attach_page_run s1 i x1 (owned_dev (i_dev x)) L) as (x' & p' & Hr & Ha); [by apply (iput_same s i x1 x)|done|].
      exists x', p'. split; [|done]. rewrite Hr. unfold s1 at 1. by rewrite iput_iput. }
  destruct Hrun as (x' & p' & Hr & Ha). rewrite (bind_Ret _ _ _ _ _ Hr).
  rewrite (bind_Ret _ _ _ _ _ (release_iput c all i x' _ p' HI)). eexists. split; [done|]. by apply Hinv.
Qed.

(** The slot of a miss before the new inode is written into it. *)
Lemma evict_run all c i x L dev :
  icache_inv all c → inodes (ic c) !! Z.to_nat i = Some x → page_pool (ipages (ic c)) L → L ++ owned_pages (ic c) ≡ₚ all →
  let s := set_icache_lock true (ic c) in
  ∃ x1 p1 L1,
    (if decide (i_dev x ≠ dev) then
       (if bool_decide (pd_owned x ≠ 0) && bool_decide (private_data x ≠ 0)
        then on_ipages (page_free (private_data x)) else mret tt) ;;
       put_ci i (set_pd 0 0 x)
     else mret tt) s = Ret (tt, iput s i x1 (ilinks s) p1) ∧
    i_count x1 = i_count x ∧ i_nlinks x1 = i_nlinks x ∧ page_pool p1 L1 ∧
    (pd_owned x1 ≠ 0 → owned_dev dev = true) ∧ (owned_dev dev = true → private_data x1 ≠ 0 → pd_owned x1 ≠ 0) ∧
    ∀ R, owned_pages (ic c) ≡ₚ option_list (page_of x) ++ R →
      L1 ++ option_list (page_of x1) ++ R ≡ₚ all ∧ ∀ q, q ∈ option_list (page_of x1) ++ R → page_refs p1 q = 1.
Proof.
  intros HI Hx HL Hall s. case_decide as Hdev.
  - assert (Hnone : page_of (set_pd 0 0 x) = None) by (unfold page_of; rewrite decide_False; [done|by intros [? _]]).
    destruct (decide (pd_owned x ≠ 0 ∧ private_data x ≠ 0)) as [[Ho Hp]|Hno].
    + rewrite !bool_decide_eq_true_2 by done. simpl.
      destruct (free_slot_page all c i x L HI Hx HL Hall Ho Hp) as (p' & Hf & Hpool & HR).
      rewrite (bind_Ret _ _ _ _ _ (on_ipages_run _ s _ _ Hf)). exists (set_pd 0 0 x), p', (private_data x :: L).
      rewrite Hnone. split_and!; done.
    + replace (bool_decide (pd_owned x ≠ 0) && bool_decide (private_data x ≠ 0)) with false
        by (symmetry; apply andb_false_iff; rewrite !bool_decide_eq_false; destruct (decide (pd_owned x ≠ 0)); tauto).
      rewrite (bind_Ret (mret tt) _ s tt s) by done. exists (set_pd 0 0 x), (ipages s), L.
      assert (Hx0 : page_of x = None) by (unfold page_of; by rewrite decide_False). rewrite Hnone, <-Hx0.
      split_and!; try done. intros R. by apply (slot_pages all c i x L).
  - subst dev. exists x, (ipages s), L. rewrite (iput_id s i x Hx). split_and!; try done.
    + apply (iv_owned _ _ HI _ _ Hx).
    + apply (iv_data _ _ HI _ _ Hx).
    + by apply (slot_pages all c i x L).
Qed.
Lemma get_miss_run all c i x dev ino :
  icache_inv all c → Z.of_nat (length (irefs c)) < 2 ^ 32 - 1 → 0 ≤ i < NINODES → ino ≠ 0 →
  inodes (ic c) !! Z.to_nat i = Some x → i_count x = 0 →
  (∀ j y, inodes (ic c) !! j = Some y → ¬ (i_ino y = ino ∧ i_dev y = dev)) →
  ∃ s', (x ← get_ci i;
      (if decide (i_dev x ≠ dev) then
         (if bool_decide (pd_owned x ≠ 0) && bool_decide (private_data x ≠ 0)
          then on_ipages (page_free (private_data x)) else mret tt) ;;
         put_ci i (set_pd 0 0 x)
       else mret tt) ;;
      x ← get_ci i;
      put_ci i (set_id dev ino 1 x) ;;
      attach_page i (owned_dev dev) ;;
      release icache_lock set_icache_lock ;;
      mret (Some i)) (set_icache_lock true (ic c)) = Ret (Some i, s') ∧
    got_slot all c dev ino i s'.
Proof.
  intros HI Hlen Hi Hino Hx H0 Hmiss. set (s := set_icache_lock true (ic c)).
  rewrite (bind_Ret _ _ _ _ _ (get_ci_run s i x Hx)). destruct (iv_pages _ _ HI) as (L & HL & Hall).
  destruct (evict_run all c i x L dev HI Hx HL Hall) as (x1 & p1 & L1 & Hev & Hc1 & Hn1 & HL1 & Ho1 & Hd1 & HR1).
  rewrite (bind_Ret _ _ _ _ _ Hev). fold s. set (s1 := iput s i x1 (ilinks s) p1).
  assert (Hx1 : inodes s1 !! Z.to_nat i = Some x1) by (by apply (iput_same s i x1 x)).
  rewrite (bind_Ret _ _ _ _ _ (get_ci_run s1 i x1 Hx1)). set (x2 := set_id dev ino 1 x1).
  rewrite (bind_Ret _ _ _ _ _ (put_ci_run s1 i x2)). set (s2 := iput s1 i x2 (ilinks s1) (ipages s1)).
  destruct (attach_page_run s2 i x2 (owned_dev dev) L1) as (x' & p' & Hr & Ha); [by apply (iput_same s1 i x2 x1)|done|].
  rewrite (bind_Ret _ _ _ _ _ Hr). unfold s2 at 1, s1 at 1. rewrite !iput_iput.
  rewrite (bind_Ret _ _ _ _ _ (release_iput c all i x' _ p' HI)). eexists. split; [done|]. simpl in Ha |- *.
  apply (got_intro all c i x x2 x' p1 p' L1 (owned_dev dev)); [|done|done|done|done|simpl; lia|by left].
  apply (take_slot_inv all c i x x2 x' p1 p' L1); try done; [|simpl; lia].
  intros j y _ Hy E1 E2. by apply (Hmiss j y Hy).
Qed.

Lemma get_inode_run all c dev ino :
  icache_inv all c → ino ≠ 0 → Z.of_nat (length (irefs c)) < 2 ^ 32 - 1 →
  ∃ r s', get_inode dev ino (owned_dev dev) (ic c) = Ret (r, s') ∧
    match r with
    | Some i => got_slot all c dev ino i s'
    | None => s' = ic c ∧ ∀ j x, inodes (ic c) !! j = Some x → i_count x ≠ 0 ∧ ¬ (i_ino x = ino ∧ i_dev x = dev)
    end.
Proof.
  intros HI Hino Hlen. unfold get_inode. rewrite (bind_Ret _ _ _ _ _ (acquire_icache c all HI)). set (s := set_icache_lock true (ic c)).
  destruct (find_slot_run s dev ino) as (r & Hf & Hr); [apply (iv_len _ _ HI)|]. rewrite (bind_Ret _ _ _ _ _ Hf).
  destruct r as [i|]; [destruct Hr as (Hi & x & Hx & <- & <-); destruct (get_hit_run all c i x HI Hlen Hi Hx Hino) as (s' & Hs & Hg); by exists (Some i), s'|].
  destruct (iv_list _ _ HI) as (l & [Hnd Hs] & Hl). apply NoDup_cons in Hnd as [Hhl _].
  destruct (seg_chain_bwd IHEAD (ilinks (ic c)) l IHEAD Hhl Hs) as (n & Hn & Hch).
  assert (Hg : on_ilinks (get_prev IHEAD) s = Ret (n, s)) by (exact (on_ilinks_run _ s _ _ (get_prev_eq _ _ _ Hn))).
  rewrite (bind_Ret _ _ _ _ _ Hg).
  assert (Hin : ∀ b, b ∈ reverse l ↔ 0 ≤ b < NINODES).
  { intros b. rewrite elem_of_reverse, Hl, elem_of_seqZ. lia. }
  assert (Hsome : ∀ b, b ∈ reverse l → is_Some (inodes s !! Z.to_nat b)).
  { intros b Hb%Hin. apply lookup_lt_is_Some_2. pose proof (iv_len _ _ HI) as Hle. simpl. rewrite Hle. lia. }
  rewrite (bind_Ret _ _ _ _ _ (find_free_run find_fuel n (reverse l) s Hch ltac:(rewrite length_reverse, Hl, length_seqZ; unfold find_fuel; lia) Hsome)).
  destruct (first_buf _ (inodes s) (reverse l)) as [i|] eqn:Ef.
  - apply first_buf_Some in Ef as (Hi%Hin & x & Hx & H0%bool_decide_eq_true).
    destruct (get_miss_run all c i x dev ino HI Hlen Hi Hino Hx H0 Hr) as (s' & Hs' & Hgot). by exists (Some i), s'.
  - exists None, (ic c). rewrite (bind_Ret _ _ _ _ _ (release_icache c all HI)). split_and!; [done|done|].
    intros j x Hx. split; [|by apply (Hr j)].
    pose proof (lookup_lt_Some _ _ _ Hx) as Hlt. rewrite (iv_len _ _ HI) in Hlt.
    pose proof (first_buf_None _ _ _ Hsome Ef (Z.of_nat j) x ltac:(apply Hin; lia)) as Hb. rewrite Nat2Z.id in Hb.
    specialize (Hb Hx). by apply bool_decide_eq_false in Hb.
Qed.

(** ** put_inode *)

Lemma unlink_run h l1 b l2 :
  dlist h IHEAD (l1 ++ b :: l2) →
  ∃ h', (p ← get_prev b; n ← get_next b; set_next p n ;; n ← get_next b; p ← get_prev b; set_prev n p) h = Ret (tt, h') ∧
    dlist h' IHEAD (l1 ++ l2) ∧ b ∉ IHEAD :: l1 ++ l2 ∧ b ∈ dom h'.
Proof.
  intros Hd0. destruct (dlist_around h IHEAD l1 b l2 Hd0) as (Hp & Hn & Hbp & Hbn & Hbd & Hpd & Hnn & Hout).
  set (p := default IHEAD (last l1)) in *. set (n := default IHEAD (head l2)) in *.
  rewrite (bind_Ret _ _ _ _ _ (get_prev_eq _ _ _ Hp)), (bind_Ret _ _ _ _ _ (get_next_eq _ _ _ Hn)).
  heap_step; [done|]. rewrite (bind_Ret (get_next b) _ _ n h0) by (apply get_next_eq; upd_rewrite; by rewrite decide_False).
  rewrite (bind_Ret (get_prev b) _ _ p h0) by (apply get_prev_eq; by upd_rewrite).
  destruct (set_prev_eq h0 n p) as (h1 & E1 & U1); [by upd_rewrite|]. exists h1. split; [done|]. split_and!; [|done|by upd_rewrite].
  apply (dlist_unlink h h1 IHEAD l1 b l2 Hd0); intros x Hx; by upd_rewrite.
Qed.
Lemma refs_delete (rs : list Z) k i :
  rs !! k = Some i → length (refs_to i rs) = S (length (refs_to i (delete k rs))) ∧
    (∀ j, j ≠ i → refs_to j (delete k rs) = refs_to j rs) ∧ (length (delete k rs) < length rs)%nat.
Proof.
  intros Hk. split_and!.
  - rewrite <-(take_drop_middle _ _ _ Hk) at 1. rewrite delete_take_drop, !refs_to_app, !length_app.
    unfold refs_to at 2. rewrite filter_cons_True by done. simpl. unfold refs_to. lia.
  - intros j Hj. rewrite <-(take_drop_middle _ _ _ Hk) at 2. rewrite delete_take_drop, !refs_to_app.
    f_equal. unfold refs_to at 2. by rewrite filter_cons_False.
  - pose proof (lookup_lt_Some _ _ _ Hk). rewrite length_delete by (by eexists). lia.
Qed.

(** A slot that loses a reference. *)
Lemma drop_ref_inv all c k i x x' h p :
  icache_inv all c → irefs c !! k = Some i → inodes (ic c) !! Z.to_nat i = Some x →
  (∃ l, dlist h IHEAD l ∧ l ≡ₚ seqZ 0 NINODES) →
  i_dev x' = i_dev x → i_ino x' = i_ino x → i_count x' = i_count x - 1 →
  (pd_owned x' ≠ 0 → owned_dev (i_dev x) = true) → (owned_dev (i_dev x) = true → private_data x' ≠ 0 → pd_owned x' ≠ 0) →
  (∀ R, owned_pages (ic c) ≡ₚ option_list (page_of x) ++ R →
     ∃ L, page_pool p L ∧ L ++ option_list (page_of x') ++ R ≡ₚ all ∧ ∀ q, q ∈ option_list (page_of x') ++ R → page_refs p q = 1) →
  icache_inv all (mk_istate (iput (ic c) i x' h p) (delete k (irefs c))).
Proof.
  intros HI Hk Hx Hl Ed' Ei Ec Ho Hd Hpg. destruct (refs_delete _ _ _ Hk) as (Hlen & Hother & Hlt).
  destruct (iv_refs _ _ HI i) as (Hi & y & Hy & Hy0); [by eapply list_elem_of_lookup_2|].
  assert (y = x) as -> by (unfold slot_of in Hy; congruence).
  apply (inv_slot all c i x); try done.
  - intros j z Hj Hz. rewrite Ed', Ei. intros E1 E2 _. apply Hj. symmetry. by apply (iv_uniq _ _ HI _ j x z).
  - rewrite Ec, (iv_count _ _ HI _ _ Hx), Z2Nat.id, Hlen by lia. lia.
  - by rewrite Ei.
  - pose proof (iv_small _ _ HI). lia.
  - by rewrite Ed'.
  - by rewrite Ed'.
Qed.

(** The page of the last reference to an inode without links. *)
Lemma free_pd_run all c i x L :
  icache_inv all c → inodes (ic c) !! Z.to_nat i = Some x → page_pool (ipages (ic c)) L → L ++ owned_pages (ic c) ≡ₚ all →
  (owned_dev (i_dev x) = true → private_data x ≠ 0) →
  ∃ p', (if owned_dev (i_dev x) then page_free (private_data x) else mret tt) (ipages (ic c)) = Ret (tt, p') ∧
    ∀ R, owned_pages (ic c) ≡ₚ option_list (page_of x) ++ R →
      ∃ L', page_pool p' L' ∧ L' ++ R ≡ₚ all ∧ ∀ q, q ∈ R → page_refs p' q = 1.
Proof.
  intros HI Hx HL Hall Hpd. destruct (owned_dev (i_dev x)) eqn:Ho.
  - specialize (Hpd eq_refl). pose proof (iv_data _ _ HI _ _ Hx Ho Hpd) as How.
    destruct (free_slot_page all c i x L HI Hx HL Hall How Hpd) as (p' & Hf & Hpool & HR). exists p'. split; [done|].
    intros R HR'. exists (private_data x :: L). split; [done|]. by apply HR.
  - exists (ipages (ic c)). split; [done|]. intros R HR. exists L. split; [done|].
    assert (Hn : page_of x = None).
    { unfold page_of. apply decide_False. intros [Hpo _]. rewrite (iv_owned _ _ HI _ _ Hx Hpo) in Ho. done. }
    pose proof (slot_pages all c i x L HI Hx Hall R HR) as Hp. by rewrite Hn in Hp.
Qed.
(** What put_inode does to the slot. *)
Definition dropped (x x' : cinode) : Prop :=
  i_dev x' = i_dev x ∧ i_ino x' = i_ino x ∧ i_nlinks x' = i_nlinks x ∧ i_count x' = i_count x - 1 ∧
  (if decide (i_count x = 1 ∧ i_nlinks x = 0) then private_data x' = 0 ∧ pd_owned x' = 0
   else private_data x' = private_data x ∧ pd_owned x' = pd_owned x).

Lemma put_last_run all c k i x :
  icache_inv all c → irefs c !! k = Some i → inodes (ic c) !! Z.to_nat i = Some x → i_count x = 1 →
  (owned_dev (i_dev x) = true → private_data x ≠ 0) →
  ∃ h p, (put_ci i (set_count 0 x) ;;
    on_ilinks (p ← get_prev i; n ← get_next i; set_next p n ;; n ← get_next i; p ← get_prev i; set_prev n p) ;;
    (if owned_dev (i_dev x) then on_ipages (page_free (private_data x)) else mret tt) ;;
    y ← get_ci i;
    put_ci i (set_pd 0 0 y) ;;
    on_ilinks (push_front IHEAD i) ;;
    release icache_lock set_icache_lock) (set_icache_lock true (ic c)) =
      Ret (tt, iput (ic c) i (set_pd 0 0 (set_count 0 x)) h p) ∧
    icache_inv all (mk_istate (iput (ic c) i (set_pd 0 0 (set_count 0 x)) h p) (delete k (irefs c))).
Proof.
  intros HI Hk Hx H1 Hpd. set (s := set_icache_lock true (ic c)). set (x1 := set_count 0 x).
  destruct (iv_list _ _ HI) as (l & Hd & Hl). destruct (iv_pages _ _ HI) as (L & HL & Hall).
  destruct (iv_refs _ _ HI i) as (Hi & _); [by eapply list_elem_of_lookup_2|].
  assert (Hil : i ∈ l) by (rewrite Hl; apply elem_of_seqZ; lia). apply list_elem_of_split in Hil as (l1 & l2 & ->).
  destruct (unlink_run _ _ _ _ Hd) as (h1 & Hu & Hd1 & Hout & Hdom).
  destruct (push_front_run IHEAD h1 (l1 ++ l2) i Hd1 Hout Hdom) as (h2 & Hp2 & _ & Hd2).
  destruct (free_pd_run all c i x L HI Hx HL Hall Hpd) as (p' & Hf & HR).
  exists h2, p'. split.
  - rewrite (bind_Ret _ _ _ _ _ (put_ci_run s i x1)). set (s1 := iput s i x1 (ilinks s) (ipages s)).
    rewrite (bind_Ret _ _ _ _ _ (on_ilinks_run _ s1 _ _ Hu)). set (s2 := set_ilinks h1 s1).
    assert (Hf2 : (if owned_dev (i_dev x) then on_ipages (page_free (private_data x)) else mret tt) s2 = Ret (tt, set_ipages p' s2)).
    { destruct (owned_dev (i_dev x)); [by apply on_ipages_run|]. injection Hf as <-. done. }
    rewrite (bind_Ret _ _ _ _ _ Hf2). set (s3 := set_ipages p' s2).
    assert (Hx3 : inodes s3 !! Z.to_nat i = Some x1) by (by apply (iput_same s i x1 x (ilinks s) (ipages s))).
    rewrite (bind_Ret _ _ _ _ _ (get_ci_run s3 i x1 Hx3)), (bind_Ret _ _ _ _ _ (put_ci_run s3 i (set_pd 0 0 x1))).
    rewrite (bind_Ret _ _ _ _ _ (on_ilinks_run _ (iput s3 i (set_pd 0 0 x1) (ilinks s3) (ipages s3)) _ _ Hp2)).
    rewrite <-(release_iput c all i (set_pd 0 0 x1) h2 p' HI). f_equal. unfold iput, set_ilinks. simpl. by rewrite list_insert_insert_eq.
  - apply (drop_ref_inv all c k i x); try done.
    + exists (i :: l1 ++ l2). split; [done|]. by rewrite <-Hl, Permutation_middle.
    + simpl. lia.
Qed.

Lemma put_inode_run all c k i x :
  icache_inv all c → irefs c !! k = Some i → inodes (ic c) !! Z.to_nat i = Some x →
  (owned_dev (i_dev x) = true → i_count x = 1 → i_nlinks x = 0 → private_data x ≠ 0) →
  ∃ x' h p, put_inode i (owned_dev (i_dev x)) (ic c) = Ret (tt, iput (ic c) i x' h p) ∧ dropped x x' ∧
    icache_inv all (mk_istate (iput (ic c) i x' h p) (delete k (irefs c))).
Proof.
  intros HI Hk Hx Hpd. unfold put_inode. rewrite (bind_Ret _ _ _ _ _ (acquire_icache c all HI)). set (s := set_icache_lock true (ic c)).
  rewrite (bind_Ret _ _ _ _ _ (get_ci_run s i x Hx)). unfold dropped.
  destruct (iv_refs _ _ HI i) as (Hi & _); [by eapply list_elem_of_lookup_2|].
  destruct (decide (i_count x = 1 ∧ i_nlinks x = 0)) as [[H1 H0]|Hno].
  - destruct (put_last_run all c k i x HI Hk Hx H1) as (h & p & Hrun & Hinv); [auto|].
    exists (set_pd 0 0 (set_count 0 x)), h, p. split_and!; try done. simpl. lia.
  - pose proof (iv_count _ _ HI _ _ Hx) as Hc. destruct (refs_delete _ _ _ Hk) as (Hlen & _). rewrite Z2Nat.id, Hlen in Hc by lia.
    assert (Hle : i_count x < 2 ^ 32).
    { pose proof (iv_count _ _ HI _ _ Hx). unfold refs_to in *. pose proof (length_filter (.= Z.of_nat (Z.to_nat i)) (irefs c)). pose proof (iv_small _ _ HI). lia. }
    rewrite decide_False by lia. rewrite u32_small by lia. set (x1 := set_count (i_count x - 1) x).
    rewrite (bind_Ret _ _ _ _ _ (put_ci_run s i x1)), (release_iput c all i x1 _ _ HI).
    eexists x1, _, _. split_and!; try done.
    destruct (iv_pages _ _ HI) as (L & HL & Hall). apply (drop_ref_inv all c k i x); try done.
    + apply (iv_list _ _ HI).
    + apply (iv_owned _ _ HI _ _ Hx).
    + apply (iv_data _ _ HI _ _ Hx).
    + intros R HR. exists L. split; [done|]. by apply (slot_pages all c i x L).
Qed.
(** ** Steps *)

Lemma on_ic_run {A} (m : K st A) c x s : m (ic c) = Ret (x, s) → on_ic m c = Ret (x, mk_istate s (irefs c)).
Proof. intros Hm. unfold on_ic, zoom. by rewrite Hm. Qed.

Lemma set_slot_inv all c k i x nl pd :
  icache_inv all c → irefs c !! k = Some i → inodes (ic c) !! Z.to_nat i = Some x →
  (owned_dev (i_dev x) = true → pd = private_data x) →
  icache_inv all (mk_istate (iput (ic c) i (mk_cinode (i_dev x) (i_ino x) (i_count x) nl pd (pd_owned x)) (ilinks (ic c)) (ipages (ic c))) (irefs c)).
Proof.
  intros HI Hk Hx Hpd. destruct (iv_refs _ _ HI i) as (Hi & y & Hy & Hy0); [by eapply list_elem_of_lookup_2|].
  assert (y = x) as -> by (unfold slot_of in Hy; congruence). destruct (iv_pages _ _ HI) as (L & HL & Hall).
  set (x' := mk_cinode _ _ _ _ _ _).
  assert (Hpo : page_of x' = page_of x).
  { unfold page_of. simpl. destruct (decide (pd_owned x = 0)) as [H0|H0]; [by rewrite !decide_False by tauto|].
    rewrite (Hpd (iv_owned _ _ HI _ _ Hx H0)). done. }
  apply (inv_slot all c i x); try done.
  - apply (iv_list _ _ HI).
  - intros j z Hj Hz E1 E2 _. apply Hj. symmetry. by apply (iv_uniq _ _ HI _ j x z).
  - simpl. by rewrite (iv_count _ _ HI _ _ Hx), Z2Nat.id by lia.
  - apply (iv_small _ _ HI).
  - apply (iv_owned _ _ HI _ _ Hx).
  - simpl. intros Ho. rewrite (Hpd Ho). by apply (iv_data _ _ HI _ _ Hx).
  - intros R HR. exists L. split; [done|]. rewrite Hpo. by apply (slot_pages all c i x L).
Qed.

Lemma icache_step_ok all c e :
  icache_inv all c → icache_enabled e c → ∃ c', icache_step e c = Ret (tt, c') ∧ icache_inv all c'.
Proof.
  intros HI He. destruct e as [dev ino|k|k nl pd]; simpl in *.
  - destruct He as [Hino Hlen]. destruct (get_inode_run all c dev ino HI Hino Hlen) as (r & s' & Hr & Hp).
    rewrite (bind_Ret _ _ _ _ _ (on_ic_run _ c _ _ Hr)). destruct r as [i|].
    + destruct Hp as (HI' & _). eexists. split; [done|]. done.
    + destruct Hp as [-> _]. eexists. split; [done|]. by destruct c.
  - destruct He as (i & x & Hk & Hx & Hpd). rewrite Hk. unfold slot_of in Hx.
    rewrite (bind_Ret _ _ _ _ _ (on_ic_run _ c _ _ (get_ci_run _ _ _ Hx))).
    destruct (put_inode_run all c k i x HI Hk Hx Hpd) as (x' & h & p & Hr & _ & HI').
    rewrite (bind_Ret _ _ _ _ _ (on_ic_run _ (mk_istate (ic c) (irefs c)) _ _ Hr)). eexists. by split.
  - destruct He as (i & x & Hk & Hx & Hpd). rewrite Hk. unfold slot_of in Hx. eexists. split.
    + apply on_ic_run. rewrite (bind_Ret _ _ _ _ _ (get_ci_run _ _ _ Hx)). apply put_ci_run.
    + by apply (set_slot_inv all c k i x).
Qed.

(** ** Boot *)

(** The table before icache_init: zero, the nodes in place, the pool holds [all]. *)
Definition icache_cold (all : list Z) (s : st) : Prop :=
  inodes s = replicate (Z.to_nat NINODES) (mk_cinode 0 0 0 0 0 0) ∧ (∀ b, 0 ≤ b ≤ NINODES → b ∈ dom (ilinks s)) ∧
  page_pool (ipages s) all.

Definition init_body (i : Z) : K st unit :=
  on_ilinks (n ← get_next IHEAD; set_next i n ;; set_prev i IHEAD) ;;
  x ← get_ci i;
  put_ci i (mk_cinode (i_dev x) (i_ino x) 0 (i_nlinks x) (private_data x) 0) ;;
  on_ilinks (n ← get_next IHEAD; set_prev n i ;; set_next IHEAD i).

Lemma init_body_run s i h :
  inodes s = replicate (Z.to_nat NINODES) (mk_cinode 0 0 0 0 0 0) → 0 ≤ i < NINODES → push_front IHEAD i (ilinks s) = Ret (tt, h) →
  init_body i s = Ret (tt, set_ilinks h s).
Proof.
  intros Hs Hi Hp. assert (Hx : inodes s !! Z.to_nat i = Some (mk_cinode 0 0 0 0 0 0)) by (rewrite Hs; apply lookup_replicate; split; [done|lia]).
  assert (Hp' : ((n ← get_next IHEAD; set_next i n ;; set_prev i IHEAD) ;;
    (n ← get_next IHEAD; set_prev n i ;; set_next IHEAD i)) (ilinks s) = Ret (tt, h)).
  { rewrite <-Hp. unfold push_front, mbind, K_bind. destruct (get_next IHEAD (ilinks s)) as [[n h1]| | |]; [|done..].
    by destruct (set_next i n h1) as [[? h2]| | |]. }
  apply bind_Ret_inv in Hp' as (u & h1 & H1 & H2). destruct u. unfold init_body.
  rewrite (bind_Ret _ _ _ _ _ (on_ilinks_run _ s _ _ H1)), (bind_Ret _ _ _ _ _ (get_ci_run (set_ilinks h1 s) i _ Hx)).
  rewrite (bind_Ret _ _ _ _ _ (put_ci_run _ i _)). cbn [i_dev i_ino i_nlinks private_data]. rewrite (iput_id (set_ilinks h1 s) i _ Hx).
  by rewrite (on_ilinks_run _ (set_ilinks h1 s) tt h H2).
Qed.

Lemma icache_init_run all s : icache_cold all s → ∃ s', icache_init s = Ret (tt, s') ∧ icache_inv all (mk_istate s' []).
Proof.
  intros (Hz & Hdom & Hpool). unfold icache_init.
  rewrite (bind_Ret (modify (set_icache_lock false)) _ s tt (set_icache_lock false s)) by done. set (s0 := set_icache_lock false s).
  destruct (set_prev_eq (ilinks s) IHEAD IHEAD) as (h1 & E1 & U1); [apply Hdom; done|].
  rewrite (bind_Ret _ _ _ _ _ (on_ilinks_run _ s0 _ _ E1)).
  destruct (set_next_eq h1 IHEAD IHEAD) as (h2 & E2 & U2); [rewrite (proj2 (proj2 U1)); apply Hdom; done|].
  rewrite (bind_Ret _ _ _ _ _ (on_ilinks_run _ (set_ilinks h1 s0) _ _ E2)).
  destruct (forM_inv (λ d s1, ∃ h, s1 = set_ilinks h s0 ∧ dom h = dom (ilinks s) ∧ dlist h IHEAD (reverse d)) init_body
    (seqZ 0 NINODES) [] (set_ilinks h2 (set_ilinks h1 s0))) as (s' & Hrun & h & -> & Hd & Hdl).
  - intros d b r s1 Hseq (h & -> & Hd & Hdl). assert (Hbr : 0 ≤ b < NINODES).
    { assert (Hin : b ∈ seqZ 0 NINODES) by (rewrite Hseq; apply elem_of_app; right; by left). apply elem_of_seqZ in Hin. lia. }
    assert (Hbd : b ∉ d).
    { intros Hin. pose proof (NoDup_seqZ 0 NINODES) as Hnd. rewrite Hseq in Hnd. apply NoDup_app in Hnd as (_ & Hnd & _).
      apply (Hnd b Hin). by left. }
    destruct (push_front_run IHEAD h (reverse d) b Hdl) as (h' & Hp & Hdh & Hdl').
    { rewrite not_elem_of_cons, elem_of_reverse. split; [unfold IHEAD; lia|done]. }
    { rewrite Hd. apply Hdom. lia. }
    eexists. split; [by apply (init_body_run _ b h')|]. exists h'. split_and!; [done|by rewrite Hdh|simpl; by rewrite reverse_app].
  - exists h2. split_and!; [done|by rewrite (proj2 (proj2 U2)), (proj2 (proj2 U1))|].
    split; [apply NoDup_singleton|]. simpl. rewrite (proj1 U2), (proj1 (proj2 U2)), (proj1 U1), !decide_True by done. done.
  - eexists. split; [exact Hrun|]. destruct (page_pool_pages _ _ Hpool) as [Hnd Hpg].
    assert (Hslot : ∀ i x, inodes (set_ilinks h s0) !! i = Some x → x = mk_cinode 0 0 0 0 0 0).
    { simpl. rewrite Hz. by intros i x [-> _]%lookup_replicate. }
    assert (Hown : owned_pages (set_ilinks h s0) = []) by (unfold owned_pages; simpl; by rewrite Hz).
    split; cbn [ic irefs]; try done.
    + simpl. by rewrite Hz, length_replicate.
    + exists (reverse (seqZ 0 NINODES)). split; [done|]. by rewrite reverse_Permutation.
    + by intros i j x y ->%Hslot _ _ _ ?.
    + by intros i x ->%Hslot.
    + by intros i ?%elem_of_nil.
    + by intros i x ->%Hslot ?.
    + by intros i x ->%Hslot _ ?.
    + exists all. split; [done|]. by rewrite Hown, app_nil_r.
    + rewrite Hown. by intros p ?%elem_of_nil.
Qed.

Inductive icache_reach (s0 : st) : istate → Prop :=
  | icache_boot s : icache_init s0 = Ret (tt, s) → icache_reach s0 (mk_istate s [])
  | icache_next c e c' : icache_reach s0 c → icache_enabled e c → icache_step e c = Ret (tt, c') → icache_reach s0 c'.

Lemma icache_reach_inv all s0 c : icache_cold all s0 → icache_reach s0 c → icache_inv all c.
Proof.
  intros Hc. induction 1 as [s Hb|c e c' _ IH He Hs].
  - destruct (icache_init_run all s0 Hc) as (s' & Hr & HI). congruence.
  - destruct (icache_step_ok all c e IH He) as (c2 & Hs2 & HI). congruence.
Qed.

(** * Theorems *)

(** C35: In every state the users of the inode cache reach: an inode has one
    slot, a slot counts the references to it, and the pages of the pool and of
    the slots are together the pages of the machine, none twice. *)
Theorem icache_invariant all s0 c :
  icache_cold all s0 → icache_reach s0 c →
  (∀ i j x y, inodes (ic c) !! i = Some x → inodes (ic c) !! j = Some y →
     i_ino x = i_ino y → i_dev x = i_dev y → i_ino x ≠ 0 → i = j) ∧
  (∀ i x, inodes (ic c) !! i = Some x → i_count x = Z.of_nat (length (refs_to (Z.of_nat i) (irefs c)))) ∧
  ∃ L, page_pool (ipages (ic c)) L ∧ NoDup (L ++ owned_pages (ic c)) ∧ L ++ owned_pages (ic c) ≡ₚ all.
Proof.
  intros Hc Hr. pose proof (icache_reach_inv all s0 c Hc Hr) as HI. split_and!.
  - apply (iv_uniq _ _ HI).
  - apply (iv_count _ _ HI).
  - destruct (iv_pages _ _ HI) as (L & HL & Hall). exists L. split_and!; [done| |done]. rewrite Hall. apply (iv_all _ _ HI).
Qed.

(** get_inode and put_inode run to their end in every state the users of
    the cache reach: get_inode returns a slot that holds the inode with one
    more reference and changes no other slot, or null when no slot holds it
    and every slot is referenced; put_inode drops one reference. *)
Theorem icache_get_put all s0 c :
  icache_cold all s0 → icache_reach s0 c →
  (∀ dev ino, icache_enabled (Iget dev ino) c →
     ∃ r s', get_inode dev ino (owned_dev dev) (ic c) = Ret (r, s') ∧
       match r with
       | Some i => ∃ x x', inodes (ic c) !! Z.to_nat i = Some x ∧ inodes s' = <[Z.to_nat i := x']> (inodes (ic c)) ∧
           i_dev x' = dev ∧ i_ino x' = ino ∧ i_count x' = i_count x + 1 ∧ (i_count x = 0 ∨ i_dev x = dev ∧ i_ino x = ino)
       | None => s' = ic c ∧ ∀ j x, inodes (ic c) !! j = Some x → i_count x ≠ 0 ∧ ¬ (i_ino x = ino ∧ i_dev x = dev)
       end) ∧
  (∀ k i x, icache_enabled (Iput k) c → irefs c !! k = Some i → inodes (ic c) !! Z.to_nat i = Some x →
     ∃ s' x', put_inode i (owned_dev (i_dev x)) (ic c) = Ret (tt, s') ∧
       inodes s' = <[Z.to_nat i := x']> (inodes (ic c)) ∧ dropped x x').
Proof.
  intros Hc Hr. pose proof (icache_reach_inv all s0 c Hc Hr) as HI. split.
  - intros dev ino [Hino Hlen]. destruct (get_inode_run all c dev ino HI Hino Hlen) as (r & s' & Hrun & Hp).
    exists r, s'. split; [done|]. destruct r as [i|]; [|done]. destruct Hp as (_ & _ & x & x' & Hx & Hs' & Hrest).
    exists x, x'. split; [done|]. split; [by rewrite Hs'|done].
  - intros k i x (i' & y & Hk' & Hy & Hpd) Hk Hx. assert (i' = i) as -> by congruence.
    assert (y = x) as -> by (unfold slot_of in Hy; congruence).
    destruct (put_inode_run all c k i x HI Hk Hx Hpd) as (x' & h & p & Hrun & Hd & _). by eexists _, x'.
Qed.
End icache.

(** * Witnesses *)

#[local] Existing Instance demo_image.

(** Three pages, one of them in use; device 1 lets the cache allocate. *)
Definition demo_own (dev : Z) : bool := bool_decide (dev = 1).
Definition demo_icold (p : kmem) : icache kmem :=
  mk_icache (replicate (Z.to_nat NINODES) (mk_cinode 0 0 0 0 0 0))
    (list_to_map ((λ a, (a, mk_list_head 0 0)) <$> seqZ 0 (NINODES + 1))) p true.
Definition demo_ready (p : kmem) : icache kmem := match icache_init (demo_icold p) with Ret (_, s) => s | _ => demo_icold p end.
Definition demo_istep (e : ievent) (c : istate) : istate := match icache_step demo_own e c with Ret (_, c') => c' | _ => c end.
Definition demo_booted : istate := mk_istate (demo_ready demo_kmem) [].
Definition demo_one : istate := demo_istep (Iget 1 5) demo_booted.

Lemma demo_icold_ok : icache_cold [demo_page 2; demo_page 1] (demo_icold demo_kmem).
Proof.
  split_and!; [done| |exact demo_free_list].
  assert (HF : Forall (λ b, is_Some (ilinks (demo_icold demo_kmem) !! b)) (seqZ 0 (NINODES + 1))) by (apply (bool_decide_unpack _); vm_compute; exact I).
  intros b Hb. apply elem_of_dom. rewrite Forall_forall in HF. apply HF, elem_of_seqZ. lia.
Qed.
Lemma demo_one_reach : icache_reach demo_own (demo_icold demo_kmem) demo_one.
Proof.
  assert (Hb : icache_reach demo_own (demo_icold demo_kmem) demo_booted).
  { apply icache_boot. unfold demo_ready. destruct (icache_init_run demo_own _ _ demo_icold_ok) as (s & Hs & _). by rewrite Hs. }
  apply (icache_next demo_own _ demo_booted (Iget 1 5)); [done|done|]. unfold demo_one, demo_istep.
  destruct (icache_step_ok demo_own _ demo_booted (Iget 1 5) (icache_reach_inv demo_own _ _ _ demo_icold_ok Hb)) as (c' & Hs & _); [done|].
  by rewrite Hs.
Qed.

Lemma icache_invariant_witness :
  irefs demo_one = [0] ∧ ∃ L, page_pool (ipages (ic demo_one)) L ∧ NoDup (L ++ owned_pages (ic demo_one)) ∧
    L ++ owned_pages (ic demo_one) ≡ₚ [demo_page 2; demo_page 1].
Proof.
  split; [vm_compute; reflexivity|].
  exact (proj2 (proj2 (icache_invariant demo_own _ (demo_icold demo_kmem) demo_one demo_icold_ok demo_one_reach))).
Defined.

Lemma icache_get_put_witness :
  ∃ s' x', put_inode 0 true (ic demo_one) = Ret (tt, s') ∧ inodes s' = <[0%nat := x']> (inodes (ic demo_one)) ∧
    dropped (mk_cinode 1 5 1 0 (demo_page 2) 1) x'.
Proof.
  apply (proj2 (icache_get_put demo_own _ (demo_icold demo_kmem) demo_one demo_icold_ok demo_one_reach) 0%nat 0 (mk_cinode 1 5 1 0 (demo_page 2) 1)).
  - exists 0, (mk_cinode 1 5 1 0 (demo_page 2) 1). split_and!; [vm_compute; reflexivity|vm_compute; reflexivity|done].
  - vm_compute. reflexivity.
  - vm_compute. reflexivity.
Defined.

(** No page is left: get_inode hands out a slot without one, and the
    put_inode(vip, 1) of the file system's error path releases the null page. *)
Example put_inode_null_panics :
  (r ← get_inode 1 5 true; put_inode (default 0 r) true) (demo_ready (mk_kmem ∅ head_addr 0 ∅ false PHYSTOP_HIGH)) =
    Panic "kfree: Low-address space cannot be released".
Proof. vm_compute. reflexivity. Qed.
