(* ===== verification/IndexTree.v ===== *)
(** The tree of the blocks or pages of a file, as easyfs and tmpfs keep it: an
    inode has [ND] direct entries, one single and one double indirect entry, and
    an indirect block has [NI] entries; 0 is no block.  Both file systems use
    these positions; what an entry is stored in is theirs. *)
From S2P Require Import Prelude Block.

(** Where a block of a file is: a direct data block, the single indirect block
    and its entries, the double indirect block, the blocks it refers to and
    their entries. *)
Inductive pos := Pdir (i : Z) | Psind | Psent (i : Z) | Pdind | Pdl (i : Z) | Pdent (i j : Z).
#[global] Instance pos_eq_dec : EqDecision pos.
Proof. solve_decision. Defined.

Definition parent (p : pos) : option (pos * Z) :=
  match p with
  | Pdir _ | Psind | Pdind => None
  | Psent i => Some (Psind, i)
  | Pdl i => Some (Pdind, i)
  | Pdent i j => Some (Pdl i, j)
  end.
Definition is_data (p : pos) : bool := match p with Pdir _ | Psent _ | Pdent _ _ => true | _ => false end.
Definition child (q : pos) (k : Z) : pos :=
  match q with Psind => Psent k | Pdind => Pdl k | Pdl i => Pdent i k | _ => q end.

Section tree.
Variables ND NI : Z.

Definition tree_valid (p : pos) : Prop :=
  match p with
  | Pdir i => 0 ≤ i < ND
  | Psent i | Pdl i => 0 ≤ i < NI
  | Pdent i j => 0 ≤ i < NI ∧ 0 ≤ j < NI
  | Psind | Pdind => True
  end.
(** The index of a position without parent in the inode. *)
Definition tree_root (p : pos) : Z := match p with Pdir i => i | Psind => ND | _ => ND + 1 end.

(** The block at a position, from the entries of the inode and those of the
    indirect blocks. *)
Definition sub_entry (ent : Z → Z → Z) (a i : Z) : Z := if decide (a = 0) then 0 else ent a i.
Definition tree_slot (roots : Z → Z) (ent : Z → Z → Z) (p : pos) : Z :=
  match p with
  | Pdir i => roots i
  | Psind => roots ND
  | Psent i => sub_entry ent (roots ND) i
  | Pdind => roots (ND + 1)
  | Pdl i => sub_entry ent (roots (ND + 1)) i
  | Pdent i j => sub_entry ent (sub_entry ent (roots (ND + 1)) i) j
  end.

(** The position of the logical block [n]. *)
Definition tree_pos (n : Z) : pos :=
  if decide (n < ND) then Pdir n
  else if decide (n < ND + NI) then Psent (n - ND)
  else Pdent ((n - ND - NI) / NI) ((n - ND - NI) mod NI).

(** * Lemmas *)

Lemma parent_inj p p' x : parent p = Some x → parent p' = Some x → p = p'.
Proof. destruct p, p'; simpl; naive_solver. Qed.
Lemma parent_valid p q k : tree_valid p → parent p = Some (q, k) → tree_valid q ∧ 0 ≤ k < NI ∧ p ≠ q.
Proof. destruct p; simpl; intros Hp [= <- <-]; naive_solver. Qed.
Lemma parent_child p q k : parent p = Some (q, k) → is_data q = false ∧ p = child q k.
Proof. destruct p; simpl; by intros [= <- <-]. Qed.
Lemma child_parent q k : is_data q = false → parent (child q k) = Some (q, k).
Proof. by destruct q. Qed.
Lemma child_valid q k : is_data q = false → tree_valid q → 0 ≤ k < NI → tree_valid (child q k).
Proof. destruct q; simpl; naive_solver. Qed.

Lemma tree_root_range p : tree_valid p → parent p = None → 0 ≤ ND → 0 ≤ tree_root p < ND + 2.
Proof. destruct p; simpl; intros; try done; lia. Qed.
Lemma tree_root_inj p q : tree_valid p → tree_valid q → parent p = None → parent q = None → tree_root p = tree_root q → p = q.
Proof. destruct p, q; simpl; intros ?? [=] [=] ?; try done; try lia. congruence. Qed.

Lemma tree_slot_eq roots ent p :
  tree_slot roots ent p = match parent p with None => roots (tree_root p) | Some (q, k) => sub_entry ent (tree_slot roots ent q) k end.
Proof. by destruct p. Qed.

Lemma tree_pos_valid n : 0 < NI → 0 ≤ n < ND + NI + NI * NI → tree_valid (tree_pos n) ∧ is_data (tree_pos n) = true.
Proof.
  unfold tree_pos. intros HN Hn. repeat case_decide; split; try done; simpl; [lia|lia|].
  pose proof (Z.mod_pos_bound (n - ND - NI) NI HN). split; [|lia]. split; [apply Z.div_pos; lia|]. apply Z.div_lt_upper_bound; lia.
Qed.
Lemma tree_pos_inj n m : 0 < NI → 0 ≤ n → 0 ≤ m → tree_pos n = tree_pos m → n = m.
Proof.
  unfold tree_pos. intros HN. repeat case_decide; intros Hn Hm [=]; try lia. rename select (_ / _ = _) into E1. rename select (_ mod _ = _) into E2.
  pose proof (Z.div_mod (n - ND - NI) NI ltac:(lia)). pose proof (Z.div_mod (m - ND - NI) NI ltac:(lia)). rewrite E1, E2 in *. lia.
Qed.

(** The positions of a file, as a list. *)
Definition tree_positions : list pos :=
  (Pdir <$> seqZ 0 ND) ++ [Psind; Pdind] ++ (Psent <$> seqZ 0 NI) ++ (Pdl <$> seqZ 0 NI) ++ (seqZ 0 NI ≫= λ i, Pdent i <$> seqZ 0 NI).
Lemma elem_of_positions p : p ∈ tree_positions ↔ tree_valid p.
Proof.
  assert (Hseq : ∀ (f : Z → pos) n, p ∈ f <$> seqZ 0 n ↔ ∃ i, p = f i ∧ 0 ≤ i < n).
  { intros f n. rewrite list_elem_of_fmap. setoid_rewrite elem_of_seqZ. by setoid_rewrite Z.add_0_l. }
  unfold tree_positions. rewrite !elem_of_app, !Hseq, list_elem_of_bind. setoid_rewrite Hseq. setoid_rewrite elem_of_seqZ.
  rewrite !elem_of_cons, elem_of_nil. split.
  - intros [(i & -> & Hi)|[[->|[->|[]]]|[(i & -> & Hi)|[(i & -> & Hi)|(i & (j & -> & Hj) & Hi)]]]]; simpl; done || lia.
  - destruct p as [i| |i| |i|i j]; simpl; intros Hp.
    + left. by exists i.
    + right; left. by left.
    + right; right; left. by exists i.
    + right; left. right; by left.
    + do 3 right; left. by exists i.
    + do 4 right. exists i. split; [exists j; split; [done|lia]|lia].
Qed.

(** The block at one position changes and the blocks at the others do not. *)
Lemma tree_slot_upd roots ent roots' ent' p0 x :
  (∀ p, tree_valid p → parent p = None → roots' (tree_root p) = if decide (p = p0) then x else roots (tree_root p)) →
  (∀ p q k, tree_valid p → parent p = Some (q, k) → q ≠ p0 → tree_slot roots ent q ≠ 0 →
     ent' (tree_slot roots ent q) k = if decide (p = p0) then x else ent (tree_slot roots ent q) k) →
  (∀ p k, tree_valid p → parent p = Some (p0, k) → tree_slot roots ent p = 0 ∧ (x ≠ 0 → ent' x k = 0)) →
  (∀ q k, parent p0 = Some (q, k) → tree_slot roots ent q ≠ 0) →
  ∀ p, tree_valid p → tree_slot roots' ent' p = if decide (p = p0) then x else tree_slot roots ent p.
Proof.
  intros Hroot Hent Hch Hp0. set (sl := tree_slot roots ent) in *. set (sl' := tree_slot roots' ent').
  assert (Hstep : ∀ p, tree_valid p → (∀ q k, parent p = Some (q, k) → sl' q = if decide (q = p0) then x else sl q) →
    sl' p = if decide (p = p0) then x else sl p).
  { intros p Hp Hpar. unfold sl', sl. rewrite !tree_slot_eq. destruct (parent p) as [[q k]|] eqn:Epar; [|by apply Hroot].
    destruct (parent_valid p q k Hp Epar) as (Hq & Hk & Hpq). fold sl sl'. rewrite (Hpar q k eq_refl). destruct (decide (q = p0)) as [->|Hqp].
    - destruct (Hch p k Hp Epar) as [H0 Hx]. rewrite decide_False by done. unfold sl in H0. rewrite tree_slot_eq, Epar in H0. fold sl in H0. rewrite H0.
      unfold sub_entry. case_decide; auto.
    - unfold sub_entry. destruct (decide (sl q = 0)) as [Hz|Hz]; [|by apply Hent].
      rewrite decide_False; [done|]. intros ->. by apply (Hp0 q k). }
  assert (Hr : ∀ p, tree_valid p → parent p = None → sl' p = if decide (p = p0) then x else sl p).
  { intros p Hp Hn. apply Hstep; [done|]. by rewrite Hn. }
  assert (H1 : ∀ p q k, tree_valid p → parent p = Some (q, k) → parent q = None → sl' p = if decide (p = p0) then x else sl p).
  { intros p q k Hp Hq Hn. apply Hstep; [done|]. rewrite Hq. intros q' k' [= <- <-]. apply Hr; [|done]. by destruct (parent_valid p q k Hp Hq). }
  intros p Hp. destruct p as [i| |i| |i|i j]; try by apply Hr.
  - by eapply H1.
  - by eapply H1.
  - apply Hstep; [done|]. intros q k [= <- <-]. eapply H1; [|done|done]. by destruct Hp.
Qed.
End tree.

(** * The bytes of a file *)

(** Within one block of the file. *)
Lemma same_block off k : 0 ≤ off → 0 ≤ k → off mod BSIZE + k < BSIZE → (off + k) / BSIZE = off / BSIZE ∧ (off + k) mod BSIZE = off mod BSIZE + k.
Proof. unfold BSIZE. intros Ho Hk Hs. Z.to_euclidean_division_equations. lia. Qed.

Section bytes.
Variables (ND NI : Z) (sl : pos → Z) (pg : Z → block).

(** The byte at an offset: a position without block reads as zero. *)
Definition tree_byte (i : Z) : Z :=
  let a := sl (tree_pos ND NI (i / BSIZE)) in if decide (a = 0) then 0 else byte_at (pg a) (i mod BSIZE).
Definition tree_bytes (off n : Z) : list Z := tree_byte <$> seqZ off n.

Lemma tree_bytes_app off n m : 0 ≤ n → 0 ≤ m → tree_bytes off (n + m) = tree_bytes off n ++ tree_bytes (off + n) m.
Proof. intros Hn Hm. unfold tree_bytes. by rewrite seqZ_app, fmap_app. Qed.
Lemma tree_bytes_length off n : length (tree_bytes off n) = Z.to_nat n.
Proof. unfold tree_bytes. by rewrite length_fmap, length_seqZ. Qed.

Lemma tree_slice off m :
  0 ≤ off → 0 ≤ m → off mod BSIZE + m ≤ BSIZE → sl (tree_pos ND NI (off / BSIZE)) ≠ 0 → block_ok (pg (sl (tree_pos ND NI (off / BSIZE)))) →
  slice (pg (sl (tree_pos ND NI (off / BSIZE)))) (off mod BSIZE) m = tree_bytes off m.
Proof.
  intros Ho Hm Hb Hs Hok. pose proof (Z.mod_pos_bound off BSIZE ltac:(done)). set (b := pg _) in *.
  assert (Hl : Z.of_nat (length (slice b (off mod BSIZE) m)) = m) by (apply slice_length; (done || lia)).
  apply (list_eq_same_length _ _ (Z.to_nat m)); [rewrite tree_bytes_length; lia|lia|].
  intros k x y Hk Hx Hy. unfold tree_bytes in Hy. rewrite list_lookup_fmap, lookup_seqZ_lt in Hy by lia. simpl in Hy. injection Hy as <-.
  rewrite <-(Nat2Z.id k) in Hx. rewrite slice_lookup in Hx by (done || lia). injection Hx as <-.
  destruct (same_block off (Z.of_nat k)) as [Hd Hmd]; [lia..|]. unfold tree_byte. by rewrite Hd, Hmd, decide_False.
Qed.
End bytes.

Lemma tree_bytes_ext ND NI sl pg sl' pg' off n lim :
  0 ≤ off → off + n ≤ lim → (∀ i, 0 ≤ i < lim → tree_byte ND NI sl' pg' i = tree_byte ND NI sl pg i) →
  tree_bytes ND NI sl' pg' off n = tree_bytes ND NI sl pg off n.
Proof. intros Ho Hn He. unfold tree_bytes. apply list_fmap_ext. intros k x [-> Hk]%lookup_seqZ. apply He. lia. Qed.

(** * Transfers, one block at a time *)

Definition round_fuel (size : Z) : nat := S (S (Z.to_nat (size / BSIZE + 1))).

(** The rounds a transfer of [n] bytes from [off] takes. *)
Definition rounds (off n : Z) : Z := (off mod BSIZE + n + BSIZE - 1) / BSIZE.
Lemma rounds_next off n : 0 ≤ off → 0 < n → BSIZE - off mod BSIZE < n →
  rounds (off + (BSIZE - off mod BSIZE)) (n - (BSIZE - off mod BSIZE)) = rounds off n - 1.
Proof.
  unfold rounds, BSIZE. intros Ho Hn Hb. assert (Hm : (off + (4096 - off mod 4096)) mod 4096 = 0) by (Z.to_euclidean_division_equations; lia).
  rewrite Hm. Z.to_euclidean_division_equations. lia.
Qed.
Lemma rounds_pos off n : 0 ≤ off → 0 < n → 1 ≤ rounds off n.
Proof. unfold rounds, BSIZE. intros. Z.to_euclidean_division_equations. lia. Qed.
Lemma rounds_zero off : 0 ≤ off → rounds off 0 ≤ 1.
Proof. unfold rounds, BSIZE. intros. Z.to_euclidean_division_equations. lia. Qed.
Lemma round_fuel_enough off n : 0 ≤ off → 0 ≤ n → rounds off n < Z.of_nat (round_fuel n).
Proof. unfold rounds, round_fuel, BSIZE. intros. Z.to_euclidean_division_equations. lia. Qed.

(** The bytes one round transfers. *)
Definition chunk (off n : Z) : Z := if decide (BSIZE - off mod BSIZE < n) then BSIZE - off mod BSIZE else n.
Lemma chunk_range off n : 0 ≤ off → 0 < n → 0 < chunk off n ≤ n ∧ off mod BSIZE + chunk off n ≤ BSIZE.
Proof. intros Ho Hn. pose proof (Z.mod_pos_bound off BSIZE ltac:(done)). unfold chunk. case_decide; lia. Qed.
Lemma chunk_fuel off n (fuel : nat) : 0 ≤ off → 0 < n → rounds off n < Z.of_nat (S fuel) →
  (if decide (n - chunk off n = 0) then 0 else rounds (off + chunk off n) (n - chunk off n)) < Z.of_nat fuel.
Proof.
  intros Ho Hn Hf. pose proof (rounds_pos off n). unfold chunk. case_decide; case_decide; try lia. rewrite rounds_next by lia. lia.
Qed.

(** The bytes [src] written over the file at [off]. *)
Definition splat (off : Z) (src : list Z) (i b : Z) : Z :=
  if decide (off ≤ i < off + Z.of_nat (length src)) then default 0 (src !! Z.to_nat (i - off)) else b.

Lemma splat_nil off i b : splat off [] i b = b.
Proof. unfold splat. rewrite decide_False; [done|]. simpl. lia. Qed.
Lemma splat_app off src src' i b : splat (off + Z.of_nat (length src)) src' i (splat off src i b) = splat off (src ++ src') i b.
Proof.
  unfold splat. rewrite length_app. destruct (decide (off ≤ i < off + Z.of_nat (length src))) as [Hin|Hout].
  - rewrite decide_False, decide_True by lia. by rewrite lookup_app_l by lia.
  - case_decide; [|by rewrite decide_False by lia]. rewrite decide_True by lia. rewrite lookup_app_r by lia. do 2 f_equal. lia.
Qed.
Lemma slice_app src tot m n : 0 ≤ tot → 0 ≤ m → 0 ≤ n → slice src tot (m + n) = slice src tot m ++ slice src (tot + m) n.
Proof.
  intros Ht Hm Hn. unfold slice. rewrite Z2Nat.inj_add by done. rewrite <-take_take_drop, drop_drop. do 3 f_equal. lia.
Qed.
Lemma slice_len src tot n : 0 ≤ tot → 0 ≤ n → tot + n ≤ Z.of_nat (length src) → Z.of_nat (length (slice src tot n)) = n.
Proof. intros. unfold slice. rewrite length_take, length_drop. lia. Qed.
Lemma slice_bytes src tot n : Forall byte_ok src → Forall byte_ok (slice src tot n).
Proof. intros. unfold slice. by apply Forall_take, Forall_drop. Qed.


(** A chunk written into its block. *)
Lemma blit_splat d off src i old :
  block_ok d → 0 ≤ off → off mod BSIZE + Z.of_nat (length src) ≤ BSIZE → 0 ≤ i → (i / BSIZE = off / BSIZE → byte_at d (i mod BSIZE) = old) →
  (if decide (i / BSIZE = off / BSIZE) then byte_at (blit d (off mod BSIZE) src) (i mod BSIZE) else old) = splat off src i old.
Proof.
  intros Hd Ho Hs Hi Hold. pose proof (Z.mod_pos_bound off BSIZE ltac:(done)). pose proof (Z.mod_pos_bound i BSIZE ltac:(done)).
  unfold splat. rewrite byte_at_blit by (done || lia). destruct (decide (off ≤ i < off + Z.of_nat (length src))) as [Hin|Hout].
  - destruct (same_block off (i - off)) as [Hd1 Hd2]; [lia..|]. replace (off + (i - off)) with i in * by lia.
    rewrite decide_True by done. rewrite decide_True by lia. do 2 f_equal. lia.
  - destruct (decide (i / BSIZE = off / BSIZE)) as [He|]; [|done]. rewrite decide_False by (unfold BSIZE in *; Z.to_euclidean_division_equations; lia).
    by apply Hold.
Qed.
