(* ===== verification/Easyfs.v ===== *)
(** kernel/fs/easyfs/alloc.c and the bitmaps of inode.c: allocation of data
    blocks and of inode numbers on the disk of easyfs.

    The code is written over the interface [BlockStore] of Block.v, which the
    block cache implements.  A bit of the data bitmap set means that the data
    block is in use; [bit] is the abstraction of a bitmap block. *)
From stdpp Require Import functions.
From S2P Require Import Prelude ListHead Block Bcache.

Definition SUPER_BLOCK : Z := 1.
Definition INOBLK_BMIP : Z := 2.
Definition DABLK_BMIP : Z := 3.
Definition INODE_BLOCK : Z := 4.
Definition DATA_BLOCK : Z := 11.
Definition TOTAL_BLOCKS : Z := 4096.

Section easyfs.
Context {B : Type} `{BlockStore B}.

(** ** Data blocks *)

Definition balloc : K B Z :=
  buf ← bs_read DABLK_BMIP;
  r ← for_find (seqZ 0 (TOTAL_BLOCKS - DATA_BLOCK)) (λ bit,
    let byte_idx := bit / 8 in
    let bit_idx := bit mod 8 in
    d ← bs_data buf;
    if decide (byte_at d byte_idx = 0xFF) then mret None else
    let mask := Z.shiftl 1 bit_idx in
    if decide (Z.land (byte_at d byte_idx) mask = 0) then
      bs_set buf (set_byte d byte_idx (u8 (Z.lor (byte_at d byte_idx) mask))) ;;
      mret (Some (bit + DATA_BLOCK))
    else mret None);
  match r with
  | None => bs_release buf ;; mret 0
  | Some data_block =>
      bs_write buf ;;
      bs_release buf ;;
      (data_buf ← bs_read data_block;
       bs_set data_buf zero_block ;;
       bs_write data_buf ;;
       bs_release data_buf) ;;
      mret data_block
  end.

Definition bfree (block_num : Z) : K B unit :=
  if decide (block_num < DATA_BLOCK ∨ TOTAL_BLOCKS ≤ block_num) then kpanic "bfree: block number out of range" else
  let offset := block_num - DATA_BLOCK in
  let byte_idx := offset / 8 in
  let bit_idx := offset mod 8 in
  buf ← bs_read DABLK_BMIP;
  let mask := Z.shiftl 1 bit_idx in
  d ← bs_data buf;
  if decide (Z.land (byte_at d byte_idx) mask = 0) then kpanic "bfree: block already free" else
  bs_set buf (set_byte d byte_idx (u8 (Z.land (byte_at d byte_idx) (Z.lnot mask)))) ;;
  bs_write buf ;;
  bs_release buf ;;
  data_buf ← bs_read block_num;
  bs_set data_buf zero_block ;;
  bs_write data_buf ;;
  bs_release data_buf.

(** ** Inode numbers *)

(** The body of the inner loop of ialloc: bit [shift] of byte [i]. *)
Definition ialloc_bit (buf i shift : Z) : K B (option Z) :=
  let temp := Z.shiftl 1 shift in
  d ← bs_data buf;
  if decide (Z.land (byte_at d i) temp = 0) then
    let d1 := set_byte d i (u8 (Z.lor (byte_at d i) temp)) in
    bs_set buf d1 ;;
    let ino := i * 8 + shift in
    if decide (ino = 0) then
      bs_set buf (set_byte d1 i (u8 (Z.land (byte_at d1 i) (Z.lnot temp)))) ;;
      bs_write buf ;;
      mret None
    else mret (Some ino)
  else mret None.

(** ialloc up to get_inode: the number found, or 0. *)
Definition ialloc : K B Z :=
  buf ← bs_read INOBLK_BMIP;
  r ← for_find (seqZ 0 BSIZE) (λ i,
    d ← bs_data buf;
    if decide (byte_at d i = 0xFF) then mret None else
    for_find (seqZ 0 8) (ialloc_bit buf i));
  match r with
  | None => bs_release buf ;; mret 0
  | Some ino => bs_write buf ;; bs_release buf ;; mret ino
  end.

(** The disk inode: 64 bytes, [ino] the number. *)
Definition inode_blkno (ino : Z) : Z := INODE_BLOCK + ino / 64.
Definition inode_off (ino : Z) : Z := ino mod 64 * 64.

Definition ifree (ino : Z) : K B unit :=
  if decide (ino = 0) then mret tt else
  buf ← bs_read INOBLK_BMIP;
  let i := ino / 8 in
  let shift := ino mod 8 in
  d ← bs_data buf;
  bs_set buf (set_byte d i (u8 (Z.land (byte_at d i) (Z.lnot (Z.shiftl 1 shift))))) ;;
  bs_write buf ;;
  bs_release buf ;;
  data_buf ← bs_read (inode_blkno ino);
  d ← bs_data data_buf;
  bs_set data_buf (blit d (inode_off ino) (replicate 64 0)) ;;
  bs_write data_buf ;;
  bs_release data_buf.

(** ** Abstraction *)

Definition bit (b : block) (k : Z) : bool := Z.testbit (byte_at b (k / 8)) (k mod 8).

(** The data block [n] is in use. *)
Definition in_use (v : Z → block) (n : Z) : Prop :=
  DATA_BLOCK ≤ n < TOTAL_BLOCKS ∧ bit (v DABLK_BMIP) (n - DATA_BLOCK) = true.

(** The views agree on the blocks whose contents is known, but for [X]. *)
Definition same_but (X : Z → Prop) (U : gset Z) (v v' : Z → block) : Prop := ∀ n, n ∉ U → ¬ X n → v' n = v n.

(** The buffers a caller may hold: neither the data bitmap nor a free block. *)
Definition held_ok (v : Z → block) (hs : list (Z * Z * bool)) : Prop :=
  (length hs < 7)%nat ∧ ∀ n, n ∈ hs.*1.*2 → n ≠ DABLK_BMIP ∧ (DATA_BLOCK ≤ n < TOTAL_BLOCKS → in_use v n).

(** * Lemmas *)

Lemma for_find_first {S A R} (test : A → bool) (l : list A) (body : A → K S (option R)) s :
  (∀ x, x ∈ l → test x = false → body x s = Ret (None, s)) →
  (for_find l body s = Ret (None, s) ∧ ∀ x, x ∈ l → test x = false) ∨
  ∃ l1 x l2, l = l1 ++ x :: l2 ∧ test x = true ∧ (∀ y, y ∈ l1 → test y = false) ∧
    for_find l body s = for_find (x :: l2) body s.
Proof.
  induction l as [|a l IH]; intros Hb; [left; split; [done|]; by intros x ?%elem_of_nil|].
  destruct (test a) eqn:Ea.
  - right. exists [], a, l. split_and!; [done|done| |done]. by intros y ?%elem_of_nil.
  - simpl. rewrite (bind_Ret _ _ _ _ _ (Hb a ltac:(by left) Ea)).
    destruct IH as [[Hr Hn]|(l1 & x & l2 & -> & Hx & Hl & Hr)]; [intros x Hx; apply Hb; by right|left|right].
    + split; [done|]. intros x [->|Hx]%elem_of_cons; [done|by apply Hn].
    + exists (a :: l1), x, l2. split_and!; [done|done| |done]. intros y [->|Hy]%elem_of_cons; [done|by apply Hl].
Qed.

Lemma land_mask x i : 0 ≤ i → Z.land x (Z.shiftl 1 i) = 0 ↔ Z.testbit x i = false.
Proof.
  intros Hi. rewrite Z.shiftl_1_l, land_pow2 by done. destruct (Z.testbit x i); [|done].
  split; [|done]. intros H0. pose proof (Z.pow_pos_nonneg 2 i). lia.
Qed.
Lemma testbit_u8 x i : 0 ≤ i < 8 → Z.testbit (u8 x) i = Z.testbit x i.
Proof. intros Hi. unfold u8. by rewrite Z.mod_pow2_bits_low by lia. Qed.

Lemma bit_set b k j : block_ok b → 0 ≤ k < 8 * BSIZE → 0 ≤ j →
  bit (set_byte b (k / 8) (u8 (Z.lor (byte_at b (k / 8)) (Z.shiftl 1 (k mod 8))))) j = if decide (j = k) then true else bit b j.
Proof.
  intros Hb Hk Hj. unfold bit. pose proof (Z.mod_pos_bound j 8). pose proof (Z.mod_pos_bound k 8).
  assert (0 ≤ k / 8 < BSIZE) by (unfold BSIZE in *; Z.to_euclidean_division_equations; lia).
  assert (0 ≤ j / 8) by (Z.to_euclidean_division_equations; lia).
  rewrite byte_at_set by (done || lia). destruct (decide (k / 8 = j / 8)) as [Heq|Hne].
  - rewrite testbit_u8, Z.lor_spec, Z.shiftl_1_l, Z.pow2_bits_eqb, Heq by lia.
    destruct (decide (j = k)) as [->|Hjk]; [by rewrite Z.eqb_refl, orb_true_r|].
    assert (k mod 8 ≠ j mod 8) by (Z.to_euclidean_division_equations; lia).
    rewrite (proj2 (Z.eqb_neq _ _)) by done. apply orb_false_r.
  - rewrite decide_False; [done|]. intros ->. done.
Qed.
Lemma bit_clear b k j : block_ok b → 0 ≤ k < 8 * BSIZE → 0 ≤ j →
  bit (set_byte b (k / 8) (u8 (Z.land (byte_at b (k / 8)) (Z.lnot (Z.shiftl 1 (k mod 8)))))) j = if decide (j = k) then false else bit b j.
Proof.
  intros Hb Hk Hj. unfold bit. pose proof (Z.mod_pos_bound j 8). pose proof (Z.mod_pos_bound k 8).
  assert (0 ≤ k / 8 < BSIZE) by (unfold BSIZE in *; Z.to_euclidean_division_equations; lia).
  assert (0 ≤ j / 8) by (Z.to_euclidean_division_equations; lia).
  rewrite byte_at_set by (done || lia). destruct (decide (k / 8 = j / 8)) as [Heq|Hne].
  - rewrite testbit_u8, Z.land_spec, Z.lnot_spec, Z.shiftl_1_l, Z.pow2_bits_eqb, Heq by lia.
    destruct (decide (j = k)) as [->|Hjk]; [by rewrite Z.eqb_refl, andb_false_r|].
    assert (k mod 8 ≠ j mod 8) by (Z.to_euclidean_division_equations; lia).
    rewrite (proj2 (Z.eqb_neq _ _)) by done. apply andb_true_r.
  - rewrite decide_False; [done|]. intros ->. done.
Qed.

(** ** Reading, changing and writing back one block *)

Definition settled (n : Z) (x : block) (U : gset Z) (v : Z → block) (U' : gset Z) (v' : Z → block) : Prop :=
  U' ⊆ U ∖ {[n]} ∧ v' n = x ∧ same_but (λ m, m = n) U v v'.

Lemma data_run s v hs U h n m : bs_rel s v ((h, n, m) :: hs) U → bs_data h s = Ret (v n, s) ∧ n ≠ 0 ∧ n ∉ U.
Proof. intros Hr. apply (bs_data_ok s v _ U h n m Hr). by left. Qed.

(** The store, bwrite and brelse that end an update of a held buffer. *)
Lemma finish_run s v hs U h n m b :
  bs_rel s v ((h, n, m) :: hs) U → block_ok b →
  ∃ s', (bs_set h b ;; bs_write h ;; bs_release h : K B unit) s = Ret (tt, s') ∧ bs_rel s' (<[n := b]> v) hs U.
Proof.
  intros Hr Hb. destruct (bs_set_ok _ _ _ _ _ _ _ b Hr Hb) as (s1 & H1 & Hr1). rewrite (bind_Ret _ _ _ _ _ H1).
  destruct (bs_write_ok _ _ _ _ _ _ _ Hr1) as (s2 & H2 & Hr2). rewrite (bind_Ret _ _ _ _ _ H2).
  destruct (bs_release_ok _ _ _ _ _ _ _ Hr2) as (s3 & H3 & Hr3). by exists s3.
Qed.

Lemma zero_run s v hs U n :
  bs_rel s v hs U → n ≠ 0 → n ∉ hs.*1.*2 → (length hs < 8)%nat →
  ∃ s' v' U', (h ← bs_read n; bs_set h zero_block ;; bs_write h ;; bs_release h : K B unit) s = Ret (tt, s') ∧
    bs_rel s' v' hs U' ∧ settled n zero_block U v U' v'.
Proof.
  intros Hr Hn Hh Hl. destruct (bs_read_ok s v hs U n Hr Hn Hh Hl) as (h & s1 & v1 & U1 & m & H1 & Hr1 & HU & Hv & _).
  rewrite (bind_Ret _ _ _ _ _ H1). destruct (finish_run _ _ _ _ _ _ _ _ Hr1 zero_block_ok) as (s2 & H2 & Hr2).
  exists s2, (<[n := zero_block]> v1), U1. split_and!; [done|done|]. split_and!; [done|by rewrite fn_lookup_insert|].
  intros k Hk Hne. rewrite fn_lookup_insert_ne by done. by apply Hv.
Qed.

Lemma rmw_run s v hs U n (f : block → block) :
  bs_rel s v hs U → n ≠ 0 → n ∉ U → n ∉ hs.*1.*2 → (length hs < 8)%nat → block_ok (f (v n)) →
  ∃ s' v' U', (h ← bs_read n; d ← bs_data h; bs_set h (f d) ;; bs_write h ;; bs_release h : K B unit) s = Ret (tt, s') ∧
    bs_rel s' v' hs U' ∧ settled n (f (v n)) U v U' v'.
Proof.
  intros Hr Hn HnU Hh Hl Hf. destruct (bs_read_ok s v hs U n Hr Hn Hh Hl) as (h & s1 & v1 & U1 & m & H1 & Hr1 & HU & Hv & _).
  rewrite (bind_Ret _ _ _ _ _ H1). destruct (data_run _ _ _ _ _ _ _ Hr1) as (H2 & _). rewrite (bind_Ret _ _ _ _ _ H2), (Hv n HnU).
  destruct (finish_run _ _ _ _ _ _ _ _ Hr1 Hf) as (s3 & H3 & Hr3).
  exists s3, (<[n := f (v n)]> v1), U1. split_and!; [done|done|]. split_and!; [done|by rewrite fn_lookup_insert|].
  intros k Hk Hne. rewrite fn_lookup_insert_ne by done. by apply Hv.
Qed.

(** ** balloc and bfree *)

(** What balloc leaves: nothing changed and the disk full, or a zeroed block that
    was free and is in use. *)
Definition balloc_post (U : gset Z) (v : Z → block) (r : Z) (U' : gset Z) (v' : Z → block) : Prop :=
  (r = 0 ∧ U' ⊆ U ∧ same_but (λ _, False) U v v' ∧ ∀ n, DATA_BLOCK ≤ n < TOTAL_BLOCKS → in_use v n) ∨
  (DATA_BLOCK ≤ r < TOTAL_BLOCKS ∧ ¬ in_use v r ∧ U' ⊆ U ∖ {[r]} ∧ v' r = zero_block ∧
   (∀ n, in_use v' n ↔ in_use v n ∨ n = r) ∧ same_but (λ n, n = r ∨ n = DABLK_BMIP) U v v').

Lemma balloc_run s v hs U :
  bs_rel s v hs U → held_ok v hs → DABLK_BMIP ∉ U →
  ∃ r s' v' U', balloc s = Ret (r, s') ∧ bs_rel s' v' hs U' ∧ balloc_post U v r U' v'.
Proof.
  intros Hr [Hl Hh] H3U. unfold balloc.
  assert (H3h : DABLK_BMIP ∉ hs.*1.*2) by (intros Hin; by destruct (Hh _ Hin)).
  destruct (bs_read_ok s v hs U DABLK_BMIP Hr) as (h & s1 & v1 & U1 & m & H1 & Hr1 & HU1 & Hv1 & Hm); [done|done|lia|].
  rewrite (bind_Ret _ _ _ _ _ H1). destruct (data_run _ _ _ _ _ _ _ Hr1) as (H2 & _). rewrite (Hv1 _ H3U) in H2.
  rewrite (Hm H3U) in Hr1. set (b := v DABLK_BMIP) in *.
  assert (Hb : block_ok b) by exact (bs_len s v hs U DABLK_BMIP Hr ltac:(discriminate) H3U).
  match goal with |- context [for_find _ ?f] => set (body := f) end.
  destruct (for_find_first (λ k, negb (bit b k)) (seqZ 0 (TOTAL_BLOCKS - DATA_BLOCK)) body s1) as [[Hf Hall]|(l1 & k & l2 & Hseq & Hk & Hl1 & Hf)].
  - intros k Hk%elem_of_seqZ Ht. unfold body. rewrite (bind_Ret _ _ _ _ _ H2). apply negb_false_iff in Ht.
    case_decide; [done|]. rewrite decide_False; [done|]. rewrite land_mask by (pose proof (Z.mod_pos_bound k 8); lia).
    unfold bit in Ht. by rewrite Ht.
  - rewrite (bind_Ret _ _ _ _ _ Hf). destruct (bs_release_ok _ _ _ _ _ _ _ Hr1) as (s2 & H4 & Hr2). rewrite (bind_Ret _ _ _ _ _ H4).
    exists 0, s2, v1, U1. split_and!; [done|done|]. left. split_and!; [done|by eapply sub_diff|intros n Hn _; by apply Hv1|].
    intros n Hn. split; [done|]. fold b. apply negb_false_iff, Hall, elem_of_seqZ. unfold DATA_BLOCK, TOTAL_BLOCKS in *. lia.
  - assert (Hkr : 0 ≤ k < TOTAL_BLOCKS - DATA_BLOCK).
    { assert (Hin : k ∈ seqZ 0 (TOTAL_BLOCKS - DATA_BLOCK)) by (rewrite Hseq; apply elem_of_app; right; by left).
      apply elem_of_seqZ in Hin. lia. }
    assert (Hk8 : 0 ≤ k < 8 * BSIZE) by (unfold TOTAL_BLOCKS, DATA_BLOCK, BSIZE in *; lia).
    apply negb_true_iff in Hk. set (b' := set_byte b (k / 8) (u8 (Z.lor (byte_at b (k / 8)) (Z.shiftl 1 (k mod 8))))).
    destruct (bs_set_ok _ _ _ _ _ _ _ b' Hr1) as (s2 & H4 & Hr2); [unfold b'; auto with frost|].
    assert (Hbody : body k s1 = Ret (Some (k + DATA_BLOCK), s2)).
    { unfold body. rewrite (bind_Ret _ _ _ _ _ H2). pose proof (Z.mod_pos_bound k 8). rewrite decide_False.
      - rewrite decide_True by (apply land_mask; [lia|done]). by rewrite (bind_Ret _ _ _ _ _ H4).
      - intros Hff. unfold bit in Hk. rewrite Hff in Hk. assert (Hor : k mod 8 = 0 ∨ k mod 8 = 1 ∨ k mod 8 = 2 ∨ k mod 8 = 3 ∨
          k mod 8 = 4 ∨ k mod 8 = 5 ∨ k mod 8 = 6 ∨ k mod 8 = 7) by lia.
        destruct Hor as [Hx|[Hx|[Hx|[Hx|[Hx|[Hx|[Hx|Hx]]]]]]]; rewrite Hx in Hk; done. }
    assert (Hfind : for_find (seqZ 0 (TOTAL_BLOCKS - DATA_BLOCK)) body s1 = Ret (Some (k + DATA_BLOCK), s2)).
    { rewrite Hf. simpl. by rewrite (bind_Ret _ _ _ _ _ Hbody). }
    rewrite (bind_Ret _ _ _ _ _ Hfind). set (r := k + DATA_BLOCK) in *.
    destruct (bs_write_ok _ _ _ _ _ _ _ Hr2) as (s3 & H5 & Hr3). rewrite (bind_Ret _ _ _ _ _ H5).
    destruct (bs_release_ok _ _ _ _ _ _ _ Hr3) as (s4 & H6 & Hr4). rewrite (bind_Ret _ _ _ _ _ H6).
    assert (Hrr : DATA_BLOCK ≤ r < TOTAL_BLOCKS) by (unfold r; lia).
    assert (Hnu : ¬ in_use v r).
    { intros [_ Hu]. fold b in Hu. unfold r in Hu. replace (k + DATA_BLOCK - DATA_BLOCK) with k in Hu by lia. congruence. }
    destruct (zero_run s4 _ hs U1 r Hr4) as (s5 & v5 & U5 & H7 & Hr5 & HU5 & Hz5 & Hv5).
    + unfold r, DATA_BLOCK in *. lia.
    + intros Hin. destruct (Hh r Hin) as [_ Hu]. auto.
    + lia.
    + exists r, s5, v5, U5. split_and!.
      * by rewrite (bind_Ret _ _ _ _ _ H7).
      * done.
      * right. assert (Hr3' : r ≠ DABLK_BMIP) by (unfold r, DATA_BLOCK, DABLK_BMIP in *; lia).
        assert (Hbm : v5 DABLK_BMIP = b') by (rewrite Hv5, fn_lookup_insert; [done|eauto with frost|done]).
        split_and!; [lia|lia|done|eapply sub_diff_trans; eauto with frost|done| |].
        -- intros n. unfold in_use. rewrite Hbm. fold b. split.
           ++ intros [Hn Hu]. unfold b' in Hu. rewrite bit_set in Hu by (done || lia). case_decide as Hd; [right; unfold r; lia|by left].
           ++ intros [[Hn Hu]| ->]; (split; [done|]); unfold b'; rewrite bit_set by (done || (unfold r; lia)); case_decide as Hd; try done.
              destruct Hd. unfold r. lia.
        -- intros n Hn Hx. rewrite Hv5; [|eauto with frost|]. { rewrite fn_lookup_insert_ne; [by apply Hv1|]. intros <-. apply Hx. by right. }
           intros ->. apply Hx. by left.
Qed.

Lemma bfree_run s v hs U n :
  bs_rel s v hs U → (length hs < 7)%nat → DABLK_BMIP ∉ hs.*1.*2 → n ∉ hs.*1.*2 → DABLK_BMIP ∉ U → in_use v n →
  ∃ s' v' U', bfree n s = Ret (tt, s') ∧ bs_rel s' v' hs U' ∧ U' ⊆ U ∖ {[n]} ∧ v' n = zero_block ∧
    (∀ m, in_use v' m ↔ in_use v m ∧ m ≠ n) ∧ same_but (λ m, m = n ∨ m = DABLK_BMIP) U v v'.
Proof.
  intros Hr Hl H3h Hnh H3U [Hn Hbit]. unfold bfree. rewrite decide_False by lia. set (k := n - DATA_BLOCK) in *.
  assert (Hk8 : 0 ≤ k < 8 * BSIZE) by (unfold k, TOTAL_BLOCKS, DATA_BLOCK, BSIZE in *; lia).
  destruct (bs_read_ok s v hs U DABLK_BMIP Hr) as (h & s1 & v1 & U1 & m & H1 & Hr1 & HU1 & Hv1 & Hm); [done|done|lia|].
  rewrite (bind_Ret _ _ _ _ _ H1). destruct (data_run _ _ _ _ _ _ _ Hr1) as (H2 & _). rewrite (Hv1 _ H3U) in H2.
  set (b := v DABLK_BMIP) in *. rewrite (bind_Ret _ _ _ _ _ H2).
  assert (Hb : block_ok b) by exact (bs_len s v hs U DABLK_BMIP Hr ltac:(discriminate) H3U).
  rewrite decide_False by (rewrite land_mask by (pose proof (Z.mod_pos_bound k 8); lia); unfold bit in Hbit; by rewrite Hbit).
  set (b' := set_byte b (k / 8) _).
  destruct (bs_set_ok _ _ _ _ _ _ _ b' Hr1) as (s2 & H4 & Hr2); [unfold b'; auto with frost|]. rewrite (bind_Ret _ _ _ _ _ H4).
  destruct (bs_write_ok _ _ _ _ _ _ _ Hr2) as (s3 & H5 & Hr3). rewrite (bind_Ret _ _ _ _ _ H5).
  destruct (bs_release_ok _ _ _ _ _ _ _ Hr3) as (s4 & H6 & Hr4). rewrite (bind_Ret _ _ _ _ _ H6).
  destruct (zero_run s4 _ hs U1 n Hr4) as (s5 & v5 & U5 & H7 & Hr5 & HU5 & Hz5 & Hv5); [unfold DATA_BLOCK in *; lia|done|lia|].
  assert (Hn3 : n ≠ DABLK_BMIP) by (unfold DATA_BLOCK, DABLK_BMIP in *; lia).
  assert (Hbm : v5 DABLK_BMIP = b') by (rewrite Hv5, fn_lookup_insert; [done|eauto with frost|done]).
  exists s5, v5, U5. split_and!; [done|done|eapply sub_diff_trans; eauto with frost|done| |].
  - intros j. unfold in_use. rewrite Hbm. fold b. split.
    + intros [Hj Hu]. unfold b' in Hu. rewrite bit_clear in Hu by (done || lia). case_decide as Hd; [done|].
      split; [by split|]. intros ->. by destruct Hd.
    + intros [[Hj Hu] Hne]. split; [done|]. unfold b'. rewrite bit_clear by (done || lia).
      rewrite decide_False; [done|]. unfold k. lia.
  - intros j Hj Hx. rewrite Hv5; [|eauto with frost|]. { rewrite fn_lookup_insert_ne; [by apply Hv1|]. intros <-. apply Hx. by right. }
    intros ->. apply Hx. by left.
Qed.

(** ** ialloc *)

(** The inode bitmap is held, with the bits of [b], and nothing else changed. *)
Definition ibits (v : Z → block) (hs : list (Z * Z * bool)) (U : gset Z) (h : Z) (m : bool) (b : block) (s : B) : Prop :=
  ∃ v' U', bs_rel s v' ((h, INOBLK_BMIP, m) :: hs) U' ∧ U' ⊆ U ∧ block_ok (v' INOBLK_BMIP) ∧
    (∀ j, 0 ≤ j → bit (v' INOBLK_BMIP) j = bit b j) ∧ same_but (λ n, n = INOBLK_BMIP) U v v'.

Definition ialloc_post (U : gset Z) (v : Z → block) (r : Z) (U' : gset Z) (v' : Z → block) : Prop :=
  U' ⊆ U ∧ same_but (λ n, n = INOBLK_BMIP) U v v' ∧
  ((r = 0 ∧ ∀ j, 1 ≤ j < 8 * BSIZE → bit (v INOBLK_BMIP) j = true) ∨
   (1 ≤ r < 8 * BSIZE ∧ bit (v INOBLK_BMIP) r = false ∧ (∀ j, 1 ≤ j < r → bit (v INOBLK_BMIP) j = true) ∧
    ∀ j, 0 ≤ j → bit (v' INOBLK_BMIP) j = if decide (j = r) then true else bit (v INOBLK_BMIP) j)).

Lemma ff_bits k : 0 ≤ k < 8 → Z.testbit 0xFF k = true.
Proof.
  intros Hk. assert (Hor : k = 0 ∨ k = 1 ∨ k = 2 ∨ k = 3 ∨ k = 4 ∨ k = 5 ∨ k = 6 ∨ k = 7) by lia.
  by destruct Hor as [->|[->|[->|[->|[->|[->|[->| ->]]]]]]].
Qed.
Lemma bit_split b i k : 0 ≤ k < 8 → bit b (i * 8 + k) = Z.testbit (byte_at b i) k.
Proof.
  intros Hk. unfold bit. replace ((i * 8 + k) / 8) with i by (Z.to_euclidean_division_equations; lia).
  by replace ((i * 8 + k) mod 8) with k by (Z.to_euclidean_division_equations; lia).
Qed.

(** What one bit leads to. *)
Definition ibit_post (v : Z → block) (hs : list (Z * Z * bool)) (U : gset Z) (h : Z) (b : block) (r : option Z) (n : Z) (s : B) : Prop :=
  match r with
  | None => ibits v hs U h false b s ∧ (1 ≤ n → bit b n = true)
  | Some ino => ∃ b', ino = n ∧ ibits v hs U h true b' s ∧ 1 ≤ n ∧ bit b n = false ∧
      ∀ j, 0 ≤ j → bit b' j = if decide (j = n) then true else bit b j
  end.

Lemma ialloc_bit_run v hs U h b i k s :
  ibits v hs U h false b s → 0 ≤ i < BSIZE → 0 ≤ k < 8 →
  ∃ r s', ialloc_bit h i k s = Ret (r, s') ∧ ibit_post v hs U h b r (i * 8 + k) s'.
Proof.
  intros (v1 & U1 & Hr & HU & Hok & Hbits & Hv) Hi Hk. unfold ialloc_bit. destruct (data_run _ _ _ _ _ _ _ Hr) as (H2 & _).
  rewrite (bind_Ret _ _ _ _ _ H2). set (d := v1 INOBLK_BMIP) in *.
  assert (Hbk : bit b (i * 8 + k) = Z.testbit (byte_at d i) k) by (rewrite <-Hbits by lia; by apply bit_split).
  destruct (decide (Z.land (byte_at d i) (Z.shiftl 1 k) = 0)) as [Hz|Hz]; rewrite land_mask in Hz by lia.
  2:{ exists None, s. split; [done|]. split; [by exists v1, U1|]. intros _. rewrite Hbk. by apply not_false_is_true. }
  assert (Hdk : i = (i * 8 + k) / 8 ∧ k = (i * 8 + k) mod 8) by (Z.to_euclidean_division_equations; lia). destruct Hdk as [Hdi Hdk].
  assert (H8 : 0 ≤ i * 8 + k < 8 * BSIZE) by lia.
  set (d1 := set_byte d i (u8 (Z.lor (byte_at d i) (Z.shiftl 1 k)))).
  assert (Hd1 : ∀ j, 0 ≤ j → bit d1 j = if decide (j = i * 8 + k) then true else bit d j).
  { intros j Hj. pose proof (bit_set d (i * 8 + k) j Hok H8 Hj) as Hs. by rewrite <-Hdi, <-Hdk in Hs. }
  destruct (bs_set_ok _ _ _ _ _ _ _ d1 Hr) as (s1 & H3 & Hr1); [unfold d1; auto with frost|]. rewrite (bind_Ret _ _ _ _ _ H3).
  assert (Hd1ok : block_ok d1) by (unfold d1; auto with frost).
  destruct (decide (i * 8 + k = 0)) as [H0|H0].
  - set (d2 := set_byte d1 i (u8 (Z.land (byte_at d1 i) (Z.lnot (Z.shiftl 1 k))))).
    destruct (bs_set_ok _ _ _ _ _ _ _ d2 Hr1) as (s2 & H4 & Hr2); [unfold d2; auto with frost|]. rewrite (bind_Ret _ _ _ _ _ H4).
    destruct (bs_write_ok _ _ _ _ _ _ _ Hr2) as (s3 & H5 & Hr3). rewrite (bind_Ret _ _ _ _ _ H5).
    exists None, s3. split; [done|]. split; [|lia]. eexists _, _. split; [exact Hr3|]. rewrite fn_lookup_insert. split_and!; [done|unfold d2; auto with frost| |].
    + intros j Hj. pose proof (bit_clear d1 (i * 8 + k) j Hd1ok H8 Hj) as Hc. rewrite <-Hdi, <-Hdk in Hc. fold d2 in Hc. rewrite Hc, Hd1 by done.
      rewrite <-(Hbits j Hj). case_decide as Hj0; [|done]. rewrite Hj0. symmetry. rewrite bit_split by lia. done.
    + intros n Hn Hne. rewrite !fn_lookup_insert_ne by done. by apply Hv.
  - exists (Some (i * 8 + k)), s1. split; [done|]. exists d1. split; [done|]. split.
    + eexists _, _. split; [exact Hr1|]. rewrite fn_lookup_insert. split_and!; [done|done|done|].
      intros n Hn Hne. rewrite fn_lookup_insert_ne by done. by apply Hv.
    + split_and!; [lia|congruence|]. intros j Hj. rewrite Hd1, Hbits by done. done.
Qed.

(** The scan has passed the bits below [n], and what it found. *)
Definition iscan (v : Z → block) (hs : list (Z * Z * bool)) (U : gset Z) (h : Z) (b : block) (n : Z) (s : B) : Prop :=
  ibits v hs U h false b s ∧ ∀ j, 1 ≤ j < n → bit b j = true.
Definition ifound (v : Z → block) (hs : list (Z * Z * bool)) (U : gset Z) (h : Z) (b : block) (ino : Z) (s : B) : Prop :=
  ∃ b', ibits v hs U h true b' s ∧ 1 ≤ ino < 8 * BSIZE ∧ bit b ino = false ∧ (∀ j, 1 ≤ j < ino → bit b j = true) ∧
    ∀ j, 0 ≤ j → bit b' j = if decide (j = ino) then true else bit b j.

Lemma ialloc_byte_run v hs U h b i s :
  iscan v hs U h b (i * 8) s → 0 ≤ i < BSIZE →
  ∃ r s', (d ← bs_data h; if decide (byte_at d i = 0xFF) then mret None else for_find (seqZ 0 8) (ialloc_bit h i)) s = Ret (r, s') ∧
    match r with None => iscan v hs U h b ((i + 1) * 8) s' | Some ino => ifound v hs U h b ino s' end.
Proof.
  intros [HI Hlow] Hi. pose proof HI as (v1 & U1 & Hr & HU & Hok & Hbits & Hv). destruct (data_run _ _ _ _ _ _ _ Hr) as (H2 & _).
  rewrite (bind_Ret _ _ _ _ _ H2). destruct (decide (byte_at (v1 INOBLK_BMIP) i = 0xFF)) as [Hff|Hff].
  - exists None, s. split; [done|]. split; [done|]. intros j Hj. destruct (decide (j < i * 8)); [apply Hlow; lia|].
    rewrite <-Hbits by lia. replace j with (i * 8 + (j - i * 8)) by lia. rewrite bit_split, Hff by lia. apply ff_bits. lia.
  - destruct (for_find_seq (λ k, iscan v hs U h b (i * 8 + k)) (ifound v hs U h b) (ialloc_bit h i) 0 8 s) as (r & s' & Hf & Hp); [lia| | |].
    + intros k s1 Hk [HI1 Hlow1]. destruct (ialloc_bit_run v hs U h b i k s1 HI1 Hi) as (r & s2 & Hb & Hp); [lia|].
      exists r, s2. split; [done|]. destruct r as [ino|].
      * destruct Hp as (b' & -> & HI2 & Hn & Hbit & Hb'). exists b'. split_and!; (done || lia).
      * destruct Hp as [HI2 Hbit]. split; [done|]. intros j Hj. destruct (decide (j = i * 8 + k)) as [->|]; [apply Hbit; lia|apply Hlow1; lia].
    + split; [done|]. by rewrite Z.add_0_r.
    + exists r, s'. split; [done|]. destruct r; [done|]. by replace ((i + 1) * 8) with (i * 8 + (0 + 8)) by lia.
Qed.

Lemma ialloc_run s v hs U :
  bs_rel s v hs U → INOBLK_BMIP ∉ U → INOBLK_BMIP ∉ hs.*1.*2 → (length hs < 8)%nat →
  ∃ r s' v' U', ialloc s = Ret (r, s') ∧ bs_rel s' v' hs U' ∧ ialloc_post U v r U' v'.
Proof.
  intros Hr H2U H2h Hl. unfold ialloc.
  destruct (bs_read_ok s v hs U INOBLK_BMIP Hr) as (h & s1 & v1 & U1 & m & H1 & Hr1 & HU1 & Hv1 & Hm); [done|done|lia|].
  rewrite (bind_Ret _ _ _ _ _ H1). rewrite (Hm H2U) in Hr1.
  assert (Hb : block_ok (v INOBLK_BMIP)) by exact (bs_len s v hs U INOBLK_BMIP Hr ltac:(discriminate) H2U).
  destruct (for_find_seq (λ i, iscan v hs U h (v INOBLK_BMIP) (i * 8)) (ifound v hs U h (v INOBLK_BMIP))
    (λ i, d ← bs_data h; if decide (byte_at d i = 0xFF) then mret None else for_find (seqZ 0 8) (ialloc_bit h i)) 0 BSIZE s1)
    as (r & s2 & Hf & Hp).
  - done.
  - intros i s2 Hi HI. apply ialloc_byte_run; [done|lia].
  - split; [|intros j Hj; lia]. exists v1, U1. rewrite (Hv1 _ H2U). split_and!; [done|by eapply sub_diff|done|done|].
    intros n Hn _. by apply Hv1.
  - rewrite (bind_Ret _ _ _ _ _ Hf). destruct r as [ino|].
    + destruct Hp as (b' & (v2 & U2 & Hr2 & HU2 & _ & Hbits & Hv2) & Hi & Hfree & Hlow & Hb').
      destruct (bs_write_ok _ _ _ _ _ _ _ Hr2) as (s3 & H5 & Hr3). rewrite (bind_Ret _ _ _ _ _ H5).
      destruct (bs_release_ok _ _ _ _ _ _ _ Hr3) as (s4 & H6 & Hr4). rewrite (bind_Ret _ _ _ _ _ H6).
      exists ino, s4, v2, U2. split_and!; [done|done|]. split_and!; [done|done|]. right. split_and!; [lia|lia|done|done|].
      intros j Hj. by rewrite Hbits, Hb'.
    + destruct Hp as [(v2 & U2 & Hr2 & HU2 & _ & Hbits & Hv2) Hlow].
      destruct (bs_release_ok _ _ _ _ _ _ _ Hr2) as (s4 & H6 & Hr4). rewrite (bind_Ret _ _ _ _ _ H6).
      exists 0, s4, v2, U2. split_and!; [done|done|]. split_and!; [done|done|]. left. split; [done|].
      intros j Hj. apply Hlow. lia.
Qed.

Lemma ifree_run s v hs U ino :
  bs_rel s v hs U → INOBLK_BMIP ∉ U → INOBLK_BMIP ∉ hs.*1.*2 → inode_blkno ino ∉ U → inode_blkno ino ∉ hs.*1.*2 → (length hs < 8)%nat →
  1 ≤ ino < 8 * BSIZE →
  ∃ s' v' U', ifree ino s = Ret (tt, s') ∧ bs_rel s' v' hs U' ∧ U' ⊆ U ∧
    same_but (λ n, n = INOBLK_BMIP ∨ n = inode_blkno ino) U v v' ∧
    (∀ j, 0 ≤ j → bit (v' INOBLK_BMIP) j = if decide (j = ino) then false else bit (v INOBLK_BMIP) j) ∧
    v' (inode_blkno ino) = blit (v (inode_blkno ino)) (inode_off ino) (replicate 64 0).
Proof.
  intros Hr H2U H2h HbU Hbh Hl Hi. unfold ifree. rewrite decide_False by lia.
  assert (Hb : block_ok (v INOBLK_BMIP)) by exact (bs_len s v hs U INOBLK_BMIP Hr ltac:(discriminate) H2U).
  assert (Hne : 4 ≤ inode_blkno ino) by (unfold inode_blkno, INODE_BLOCK; Z.to_euclidean_division_equations; lia).
  assert (Hib : block_ok (v (inode_blkno ino))) by (apply (bs_len s v hs U _ Hr); [lia|done]).
  destruct (bs_read_ok s v hs U INOBLK_BMIP Hr) as (h & s1 & v1 & U1 & m & H1 & Hr1 & HU1 & Hv1 & Hm); [done|done|lia|].
  rewrite (bind_Ret _ _ _ _ _ H1). destruct (data_run _ _ _ _ _ _ _ Hr1) as (H2 & _). rewrite (bind_Ret _ _ _ _ _ H2), (Hv1 _ H2U).
  set (b' := set_byte _ _ _).
  destruct (bs_set_ok _ _ _ _ _ _ _ b' Hr1) as (s2 & H4 & Hr2); [unfold b'; auto with frost|]. rewrite (bind_Ret _ _ _ _ _ H4).
  destruct (bs_write_ok _ _ _ _ _ _ _ Hr2) as (s3 & H5 & Hr3). rewrite (bind_Ret _ _ _ _ _ H5).
  destruct (bs_release_ok _ _ _ _ _ _ _ Hr3) as (s4 & H6 & Hr4). rewrite (bind_Ret _ _ _ _ _ H6).
  assert (Hd : INOBLK_BMIP ≠ inode_blkno ino) by (unfold INOBLK_BMIP; lia).
  destruct (rmw_run s4 _ hs U1 (inode_blkno ino) (λ d, blit d (inode_off ino) (replicate 64 0)) Hr4) as (s5 & v5 & U5 & H7 & Hr5 & HU5 & Hz5 & Hv5).
  - lia.
  - eauto with frost.
  - done.
  - lia.
  - rewrite fn_lookup_insert_ne, Hv1 by done. unfold inode_off. apply blit_ok; [done|by apply Forall_replicate|Z.to_euclidean_division_equations; lia|].
    rewrite length_replicate. unfold BSIZE. Z.to_euclidean_division_equations; lia.
  - exists s5, v5, U5. split_and!; [done|done| | | |].
    + eapply sub_diff in HU1. eapply sub_diff in HU5. by etrans.
    + intros n Hn Hx. rewrite Hv5; [|eauto with frost|tauto]. rewrite fn_lookup_insert_ne by (intros <-; tauto). by apply Hv1.
    + intros j Hj. rewrite Hv5, fn_lookup_insert; [|eauto with frost|done]. apply bit_clear; (done || lia).
    + rewrite Hz5, fn_lookup_insert_ne, Hv1; done.
Qed.

(** * Theorems *)

(** Allocation. *)
Theorem balloc_spec s v hs :
  bs_rel s v hs ∅ → held_ok v hs → ∃ r s' v', balloc s = Ret (r, s') ∧ bs_rel s' v' hs ∅ ∧ balloc_post ∅ v r ∅ v'.
Proof.
  intros Hr Hh. destruct (balloc_run s v hs ∅ Hr Hh) as (r & s' & v' & U' & Hb & Hr' & Hp); [apply not_elem_of_empty|].
  assert (U' = ∅) as -> by (destruct Hp as [(_ & HU & _)|(_ & _ & HU & _)]; set_solver). by exists r, s', v'.
Qed.

(** Freeing what was allocated. *)
Theorem balloc_bfree s v f :
  bs_rel s v [] ∅ → DATA_BLOCK ≤ f < TOTAL_BLOCKS → ¬ in_use v f →
  ∃ n s1 s2 v2, balloc s = Ret (n, s1) ∧ n ≠ 0 ∧ bfree n s1 = Ret (tt, s2) ∧ bs_rel s2 v2 [] ∅ ∧
    (∀ m, in_use v2 m ↔ in_use v m) ∧ (∀ m, m ≠ n → m ≠ DABLK_BMIP → v2 m = v m).
Proof.
  intros Hr Hf Hfree. destruct (balloc_run s v [] ∅ Hr) as (n & s1 & v1 & U1 & Hb & Hr1 & Hp);
    [split; [simpl; lia|by intros m ?%elem_of_nil]|apply not_elem_of_empty|].
  destruct Hp as [(_ & _ & _ & Hall)|(Hn & Hnu & HU & _ & Hu & Hv)]; [by destruct Hfree; apply Hall|].
  assert (U1 = ∅) as -> by set_solver.
  destruct (bfree_run s1 v1 [] ∅ n Hr1) as (s2 & v2 & U2 & Hb2 & Hr2 & HU2 & _ & Hu2 & Hv2);
    [simpl; lia|apply not_elem_of_nil|apply not_elem_of_nil|apply not_elem_of_empty|apply Hu; by right|].
  assert (U2 = ∅) as -> by set_solver. exists n, s1, s2, v2. split_and!; [done|unfold DATA_BLOCK in Hn; lia|done|done| |].
  - intros m. rewrite Hu2, Hu. split; [naive_solver|]. intros Hm. split; [by left|]. by intros ->.
  - intros m Hm H3. rewrite Hv2, Hv; [done|apply not_elem_of_empty|tauto|apply not_elem_of_empty|tauto].
Qed.

(** Inode numbers. *)
Theorem ialloc_spec s v :
  bs_rel s v [] ∅ → ∃ r s' v', ialloc s = Ret (r, s') ∧ bs_rel s' v' [] ∅ ∧ ialloc_post ∅ v r ∅ v'.
Proof.
  intros Hr. destruct (ialloc_run s v [] ∅ Hr) as (r & s' & v' & U' & Hi & Hr' & Hp);
    [apply not_elem_of_empty|apply not_elem_of_nil|simpl; lia|].
  assert (U' = ∅) as -> by (destruct Hp as [HU _]; set_solver). by exists r, s', v'.
Qed.

(** The inode area holds 448 inodes: the next number ialloc gives belongs to the
    first data block. *)
Theorem ialloc_outside_area s v :
  bs_rel s v [] ∅ → (∀ j, 1 ≤ j < 448 → bit (v INOBLK_BMIP) j = true) → bit (v INOBLK_BMIP) 448 = false →
  ∃ s', ialloc s = Ret (448, s') ∧ inode_blkno 448 = DATA_BLOCK.
Proof.
  intros Hr Hlow Hfree. destruct (ialloc_run s v [] ∅ Hr) as (r & s' & v' & U' & Hi & Hr' & _ & _ & Hp);
    [apply not_elem_of_empty|apply not_elem_of_nil|simpl; lia|]. exists s'. split; [|done]. rewrite Hi.
  destruct Hp as [[_ Hall]|(Hr1 & Hrf & Hbelow & _)]; [by rewrite Hall in Hfree by (unfold BSIZE; lia)|].
  assert (r = 448) as ->; [|done]. destruct (decide (r < 448)); [by rewrite Hlow in Hrf by lia|].
  destruct (decide (448 < r)); [by rewrite Hbelow in Hfree by lia|]. lia.
Qed.

(** The inode and its bit are cleared. *)
Theorem ifree_spec s v ino :
  bs_rel s v [] ∅ → 1 ≤ ino < 64 * (DATA_BLOCK - INODE_BLOCK) →
  ∃ s' v', ifree ino s = Ret (tt, s') ∧ bs_rel s' v' [] ∅ ∧
    (∀ j, 0 ≤ j → bit (v' INOBLK_BMIP) j = if decide (j = ino) then false else bit (v INOBLK_BMIP) j) ∧
    (∀ i, 0 ≤ i → byte_at (v' (inode_blkno ino)) i =
       if decide (inode_off ino ≤ i < inode_off ino + 64) then 0 else byte_at (v (inode_blkno ino)) i) ∧
    (∀ n, n ≠ INOBLK_BMIP → n ≠ inode_blkno ino → v' n = v n).
Proof.
  intros Hr Hi. assert (Hb : 4 ≤ inode_blkno ino) by (unfold inode_blkno, INODE_BLOCK; Z.to_euclidean_division_equations; lia).
  assert (Ho : 0 ≤ inode_off ino ∧ inode_off ino + 64 ≤ BSIZE) by (unfold inode_off, BSIZE; Z.to_euclidean_division_equations; lia).
  destruct (ifree_run s v [] ∅ ino Hr) as (s' & v' & U' & Hf & Hr' & HU & Hv & Hbits & Hz); try (apply not_elem_of_empty || apply not_elem_of_nil).
  - simpl. lia.
  - unfold DATA_BLOCK, INODE_BLOCK, BSIZE in *. lia.
  - assert (U' = ∅) as -> by set_solver. exists s', v'. split_and!; [done|done|done| |].
    + intros i Hi0. rewrite Hz. assert (Hok : block_ok (v (inode_blkno ino))) by (apply (bs_len s v [] ∅ _ Hr); [lia|apply not_elem_of_empty]).
      rewrite byte_at_blit by (done || rewrite ?length_replicate; lia). rewrite length_replicate. change (Z.of_nat 64) with 64.
      case_decide; [|done]. destruct (replicate 64 0 !! Z.to_nat (i - inode_off ino)) eqn:E; [by apply lookup_replicate in E as [-> _]|done].
    + intros n H2 Hn. apply Hv; [apply not_elem_of_empty|tauto].
Qed.
End easyfs.

(** * Witnesses *)

(** The block cache of Bcache.v over an empty disk, used by the process 7. *)
#[local] Existing Instance mem_disk.
#[local] Instance demo_store : BlockStore (bcache (gmap Z block)) := cache_store 7.

Lemma demo_store_rel : bs_rel demo_ready (view demo_ready) [] ∅.
Proof. split_and!; [exact (cache_reach_inv demo_cold _ demo_cold_ok demo_ready_reach)|constructor|done]. Qed.

Lemma balloc_spec_witness :
  ∃ r s' v', balloc demo_ready = Ret (r, s') ∧ bs_rel s' v' [] ∅ ∧ balloc_post ∅ (view demo_ready) r ∅ v'.
Proof. apply (balloc_spec demo_ready (view demo_ready) []); [exact demo_store_rel|]. split; [simpl; lia|by intros n ?%elem_of_nil]. Defined.

Lemma balloc_bfree_witness :
  ∃ n s1 s2 v2, balloc demo_ready = Ret (n, s1) ∧ n ≠ 0 ∧ bfree n s1 = Ret (tt, s2) ∧ bs_rel s2 v2 [] ∅ ∧
    (∀ m, in_use v2 m ↔ in_use (view demo_ready) m) ∧ (∀ m, m ≠ n → m ≠ DABLK_BMIP → v2 m = view demo_ready m).
Proof.
  apply (balloc_bfree demo_ready (view demo_ready) 11); [exact demo_store_rel|unfold DATA_BLOCK, TOTAL_BLOCKS; lia|].
  intros [_ Hb]. revert Hb. vm_compute. discriminate.
Defined.

Lemma ialloc_spec_witness :
  ∃ r s' v', ialloc demo_ready = Ret (r, s') ∧ bs_rel s' v' [] ∅ ∧ ialloc_post ∅ (view demo_ready) r ∅ v'.
Proof. apply (ialloc_spec demo_ready (view demo_ready)). exact demo_store_rel. Defined.

Lemma ifree_spec_witness :
  ∃ s' v', ifree 5 demo_ready = Ret (tt, s') ∧ bs_rel s' v' [] ∅ ∧
    (∀ j, 0 ≤ j → bit (v' INOBLK_BMIP) j = if decide (j = 5) then false else bit (view demo_ready INOBLK_BMIP) j) ∧
    (∀ i, 0 ≤ i → byte_at (v' (inode_blkno 5)) i =
       if decide (inode_off 5 ≤ i < inode_off 5 + 64) then 0 else byte_at (view demo_ready (inode_blkno 5)) i) ∧
    (∀ n, n ≠ INOBLK_BMIP → n ≠ inode_blkno 5 → v' n = view demo_ready n).
Proof. apply (ifree_spec demo_ready (view demo_ready) 5); [exact demo_store_rel|unfold DATA_BLOCK, INODE_BLOCK; lia]. Defined.
