(* ===== verification/EasyfsFile.v ===== *)
(** kernel/fs/easyfs: the files of easyfs, from the block map of an inode (bmap,
    alloc.c) to reading, writing and truncating a file (fs.c) and the inode on
    the disk (iupdate, easyfs_ilock, easyfs_read_disk_inode).

    The routines run on the block store and on the one inode they work on, which
    their caller has locked.  The blocks of a file form a tree; [slot] gives the
    block at a position of the tree, [file_byte] the bytes of the file.  The
    theorems state what each routine does to those bytes, that no two positions
    ever share a block, that no block is lost, and that nothing else changes. *)
From stdpp Require Import functions.
From S2P Require Import Prelude ListHead Block Bcache Easyfs IndexTree.

Definition NDIRECT : Z := 10.
Definition NINDIRECT : Z := BSIZE / 4.
Definition NDINDIRECT : Z := NINDIRECT * NINDIRECT.
Definition MAXFILE : Z := NDIRECT + NINDIRECT + NDINDIRECT.
Definition SINDIRECT_INDEX : Z := NDIRECT.
Definition DINDIRECT_INDEX : Z := NDIRECT + 1.

(** The positions of IndexTree.v in an inode of easyfs. *)
Abbreviation pvalid := (tree_valid NDIRECT NINDIRECT).
Abbreviation root := (tree_root NDIRECT).
Abbreviation pos_of := (tree_pos NDIRECT NINDIRECT).

(** The fields of a vfs_inode that easyfs keeps on the disk, with the blocks of
    its easyfs_inode_info. *)
Record einode := mk_einode { ei_ino : Z; ei_type : Z; ei_nlinks : Z; ei_size : Z; ei_blocks : list Z }.

Record estate (B : Type) := mk_estate { store : B; inode : einode }.
Arguments mk_estate {_} _ _.
Arguments store {_} _.
Arguments inode {_} _.

Section files.
Context {B : Type} `{BlockStore B}.
Abbreviation st := (estate B).

Definition set_store b (s : st) : st := mk_estate b (inode s).
Definition set_inode ip (s : st) : st := mk_estate (store s) ip.
Definition on_store {A} (m : K B A) : K st A := zoom store set_store m.

Definition blk (ip : einode) (i : Z) : Z := default 0 (ei_blocks ip !! Z.to_nat i).
Definition put_blk (i a : Z) (ip : einode) : einode :=
  mk_einode (ei_ino ip) (ei_type ip) (ei_nlinks ip) (ei_size ip) (<[Z.to_nat i := a]> (ei_blocks ip)).
Definition put_size (n : Z) (ip : einode) : einode :=
  mk_einode (ei_ino ip) (ei_type ip) (ei_nlinks ip) n (ei_blocks ip).

(** [ei->blocks[i]] and a store to it. *)
Definition get_blk (i : Z) : K st Z := gets (λ s, blk (inode s) i).
Definition set_blk (i a : Z) : K st unit := modify (λ s, set_inode (put_blk i a (inode s)) s).

(** ** The block map *)

(** The block of a slot of the inode, allocated when there is none. *)
Definition bmap_root (i : Z) : K st Z :=
  addr ← get_blk i;
  if decide (addr = 0) then
    addr ← on_store balloc;
    if decide (addr = 0) then mret 0 else set_blk i addr ;; mret addr
  else mret addr.

(** bmap for a single and for a double indirect block. *)
Definition bmap_single (idx : Z) : K st Z :=
  indirect_addr ← bmap_root SINDIRECT_INDEX;
  if decide (indirect_addr = 0) then mret 0 else
  on_store (
    indirect ← bs_read indirect_addr;
    d ← bs_data indirect;
    let addr := rd32 d (4 * idx) in
    if decide (addr = 0) then
      addr ← balloc;
      if decide (addr = 0) then bs_release indirect ;; mret 0 else
      d ← bs_data indirect;
      bs_set indirect (wr32 d (4 * idx) addr) ;;
      bs_write indirect ;;
      bs_release indirect ;; mret addr
    else bs_release indirect ;; mret addr).

(** [if (addrs[i] == 0) { addrs[i] = balloc(); ... bwrite }]: false when the disk
    is full. *)
Definition bmap_fill (h i : Z) : K B bool :=
  d ← bs_data h;
  if decide (rd32 d (4 * i) = 0) then
    a ← balloc;
    d ← bs_data h;
    bs_set h (wr32 d (4 * i) a) ;;
    if decide (a = 0) then mret false else bs_write h ;; mret true
  else mret true.

Definition bmap_double (idx : Z) : K st Z :=
  double_indirect ← bmap_root DINDIRECT_INDEX;
  if decide (double_indirect = 0) then mret 0 else
  let double_indirect_offset := idx / NINDIRECT in
  let double_indirect_idx := idx mod NINDIRECT in
  on_store (
    double_indirect_buf ← bs_read double_indirect;
    ok ← bmap_fill double_indirect_buf double_indirect_offset;
    if negb ok then bs_release double_indirect_buf ;; mret 0 else
    addrs ← bs_data double_indirect_buf;
    indirect_buf ← bs_read (rd32 addrs (4 * double_indirect_offset));
    ok ← bmap_fill indirect_buf double_indirect_idx;
    if negb ok then bs_release indirect_buf ;; bs_release double_indirect_buf ;; mret 0 else
    indirect_addrs ← bs_data indirect_buf;
    bs_release indirect_buf ;;
    bs_release double_indirect_buf ;;
    mret (rd32 indirect_addrs (4 * double_indirect_idx))).

Definition bmap (block_num : Z) : K st Z :=
  if decide (block_num < NDIRECT) then bmap_root block_num
  else if decide (block_num < NDIRECT + NINDIRECT) then bmap_single (block_num - NDIRECT)
  else if decide (block_num < NDIRECT + NINDIRECT + NDINDIRECT) then bmap_double (block_num - NDIRECT - NINDIRECT)
  else mret 0.

(** ** The inode on the disk *)

Definition disk_blocks (d : block) (o : Z) : list Z := (λ k, rd32 d (o + 8 + 4 * k)) <$> seqZ 0 12.
Definition put_disk_inode (ip : einode) (o : Z) (d : block) : block :=
  foldl (λ d k, wr32 d (o + 8 + 4 * k) (blk ip k))
    (wr32 (wr16 (wr16 d o (u16 (ei_type ip))) (o + 2) (u16 (ei_nlinks ip))) (o + 4) (ei_size ip)) (seqZ 0 12).
Definition get_disk_inode (ino : Z) (o : Z) (d : block) : einode :=
  mk_einode ino (rd16 d o) (rd16 d (o + 2)) (rd32 d (o + 4)) (disk_blocks d o).

Definition iupdate : K st unit :=
  ip ← gets inode;
  on_store (
    bp ← bs_read (inode_blkno (ei_ino ip));
    d ← bs_data bp;
    bs_set bp (put_disk_inode ip (inode_off (ei_ino ip)) d) ;;
    bs_write bp ;;
    bs_release bp).

(** easyfs_read_disk_inode, and easyfs_ilock once it holds the lock. *)
Definition easyfs_read_disk_inode (ino : Z) : K B einode :=
  buf ← bs_read (inode_blkno ino);
  d ← bs_data buf;
  bs_release buf ;;
  mret (get_disk_inode ino (inode_off ino) d).
Definition easyfs_ilock_load : K st unit :=
  ip ← gets inode;
  ip ← on_store (easyfs_read_disk_inode (ei_ino ip));
  modify (set_inode ip).

(** ** Reading and writing *)

(** Into kernel memory ([user_dst] is 0 at every call): the bytes copied to
    [dst], in order.  [off] and [tot] are the loop's, [acc] what was copied. *)
Definition read_round (size : Z) : Z * Z * list Z → K st ((Z * Z * list Z) + (Z * list Z)) :=
  λ '(off, tot, acc),
  if decide (size ≤ tot) then mret (inr (tot, acc)) else
  addr ← bmap (off / BSIZE);
  if decide (addr = 0) then mret (inr (tot, acc)) else
  on_store (
    buf ← bs_read addr;
    let m := if decide (BSIZE - off mod BSIZE < size - tot) then BSIZE - off mod BSIZE else size - tot in
    d ← bs_data buf;
    bs_release buf ;;
    mret (inl (u32 (off + m), u32 (tot + m), acc ++ slice d (off mod BSIZE) m))).

Definition easyfs_read_inode (off size : Z) : K st (Z * list Z) :=
  ip_size ← gets (λ s, ei_size (inode s));
  if decide (off > ip_size ∨ u32 (off + size) < off) then mret (-1, []) else
  let size := if decide (u32 (off + size) > ip_size) then u32 (ip_size - off) else size in
  r ← loop (round_fuel size) (read_round size) (off, 0, []);
  mret (i32 r.1, r.2).

(** From kernel memory: [src] are the [size] bytes at the source. *)
Definition write_round (src : list Z) (size : Z) : Z * Z → K st ((Z * Z) + (Z * Z)) :=
  λ '(off, tot),
  if decide (size ≤ tot) then mret (inr (off, tot)) else
  addr ← bmap (off / BSIZE);
  if decide (addr = 0) then mret (inr (off, tot)) else
  on_store (
    bp ← bs_read addr;
    let m := min_u64 (size - tot) (BSIZE - off mod BSIZE) in
    d ← bs_data bp;
    bs_set bp (blit d (off mod BSIZE) (slice src tot m)) ;;
    bs_write bp ;;
    bs_release bp ;;
    mret (inl (u32 (off + m), u32 (tot + m)))).

Definition easyfs_write_inode (src : list Z) (off size : Z) : K st Z :=
  if decide (u32 (off + size) < off) then mret (-1) else
  if decide (off + size > MAXFILE * BSIZE) then mret (-1) else
  r ← loop (round_fuel size) (write_round src size) (off, 0);
  ip ← gets inode;
  (if decide (r.1 > ei_size ip) then modify (set_inode (put_size r.1 ip)) else mret tt) ;;
  iupdate ;;
  mret (i32 r.2).

(** ** Truncation *)

(** [for (i = 0; i < NINDIRECT; i++) if (addr[i] != 0) { bfree(addr[i]); addr[i] = 0; }] *)
Definition free_entries (h : Z) (pre : Z → K B unit) : K B unit :=
  forM (seqZ 0 NINDIRECT) (λ i,
    d ← bs_data h;
    if decide (rd32 d (4 * i) ≠ 0) then
      pre (rd32 d (4 * i)) ;;
      (d ← bs_data h; bfree (rd32 d (4 * i))) ;;
      d ← bs_data h;
      bs_set h (wr32 d (4 * i) 0)
    else mret tt).

(** An indirect block: what it refers to is freed, not the block itself. *)
Definition free_single (a : Z) : K B unit :=
  buf ← bs_read a;
  free_entries buf (λ _, mret tt) ;;
  bs_release buf.
Definition free_double (a : Z) : K B unit :=
  indirect_buf ← bs_read a;
  free_entries indirect_buf free_single ;;
  bs_release indirect_buf.

Definition trunc_slot (i : Z) (pre : Z → K B unit) : K st unit :=
  a ← get_blk i;
  if decide (a ≠ 0) then
    on_store (pre a) ;;
    a ← get_blk i;
    on_store (bfree a) ;;
    set_blk i 0
  else mret tt.

Definition easyfs_itrunc (size : Z) : K st Z :=
  if decide (size ≠ 0) then mret (-1) else
  forM (seqZ 0 NDIRECT) (λ i, trunc_slot i (λ _, mret tt)) ;;
  trunc_slot SINDIRECT_INDEX free_single ;;
  trunc_slot DINDIRECT_INDEX free_double ;;
  modify (λ s, set_inode (put_size size (inode s)) s) ;;
  iupdate ;;
  mret 0.

(** * The tree of a file *)

(** The block at a position, 0 when there is none. *)
Definition entry (v : Z → block) (a i : Z) : Z := if decide (a = 0) then 0 else rd32 (v a) (4 * i).
Definition slot (v : Z → block) (ip : einode) (p : pos) : Z :=
  match p with
  | Pdir i => blk ip i
  | Psind => blk ip SINDIRECT_INDEX
  | Psent i => entry v (blk ip SINDIRECT_INDEX) i
  | Pdind => blk ip DINDIRECT_INDEX
  | Pdl i => entry v (blk ip DINDIRECT_INDEX) i
  | Pdent i j => entry v (entry v (blk ip DINDIRECT_INDEX) i) j
  end.
Definition owns (v : Z → block) (ip : einode) (n : Z) : Prop := n ≠ 0 ∧ ∃ p, pvalid p ∧ slot v ip p = n.

(** The bytes of the file. *)
Abbreviation file_byte v ip := (tree_byte NDIRECT NINDIRECT (slot v ip) v).
Abbreviation file_bytes v ip := (tree_bytes NDIRECT NINDIRECT (slot v ip) v).

(** The blocks of a file are in use and at one position each. *)
Record file_ok (v : Z → block) (ip : einode) : Prop := {
  fo_len : length (ei_blocks ip) = 12%nat;
  fo_use p : pvalid p → slot v ip p ≠ 0 → in_use v (slot v ip p);
  fo_inj p q : pvalid p → pvalid q → slot v ip p ≠ 0 → slot v ip p = slot v ip q → p = q
}.
Definition same_meta (ip ip' : einode) : Prop :=
  ei_ino ip' = ei_ino ip ∧ ei_type ip' = ei_type ip ∧ ei_nlinks ip' = ei_nlinks ip ∧ ei_size ip' = ei_size ip.
Definition full (v : Z → block) : Prop := ∀ n, DATA_BLOCK ≤ n < TOTAL_BLOCKS → in_use v n.

(** A block that belongs to something else than the file and the free space. *)
Definition foreign (v : Z → block) (ip : einode) (n : Z) : Prop :=
  ¬ owns v ip n ∧ n ≠ DABLK_BMIP ∧ (DATA_BLOCK ≤ n < TOTAL_BLOCKS → in_use v n).

(** The file may have got blocks, and its bytes changed as [ch] says. *)
Record changes (ch : Z → Z → Z) (v : Z → block) (ip : einode) (v' : Z → block) (ip' : einode) : Prop := {
  gr_ok : file_ok v' ip';
  gr_meta : same_meta ip ip';
  gr_slot p : pvalid p → slot v ip p ≠ 0 → slot v' ip' p = slot v ip p;
  gr_byte i : 0 ≤ i < 2 ^ 32 → file_byte v' ip' i = ch i (file_byte v ip i);
  gr_use n : in_use v' n ↔ in_use v n ∨ owns v' ip' n;
  gr_new n : owns v' ip' n → owns v ip n ∨ ¬ in_use v n;
  gr_frame n : foreign v ip n → v' n = v n
}.
#[global] Arguments gr_ok {_} _ _ _ _ _.
#[global] Arguments gr_meta {_} _ _ _ _ _.
#[global] Arguments gr_slot {_} _ _ _ _ _ _ _ _.
#[global] Arguments gr_byte {_} _ _ _ _ _ _ _.
#[global] Arguments gr_use {_} _ _ _ _ _ _.
#[global] Arguments gr_new {_} _ _ _ _ _ _ _.
#[global] Arguments gr_frame {_} _ _ _ _ _ _ _.
Abbreviation grows := (changes (λ _ b, b)).

Lemma slot_eq v ip p : slot v ip p = match parent p with None => blk ip (root p) | Some (q, k) => entry v (slot v ip q) k end.
Proof. by destruct p. Qed.
Lemma pos_of_valid n : 0 ≤ n < MAXFILE → pvalid (pos_of n) ∧ is_data (pos_of n) = true.
Proof. apply tree_pos_valid. done. Qed.
Lemma pos_of_inj n m : 0 ≤ n → 0 ≤ m → pos_of n = pos_of m → n = m.
Proof. apply tree_pos_inj. done. Qed.
Lemma byte_block i : 0 ≤ i < 2 ^ 32 → 0 ≤ i / BSIZE < MAXFILE ∧ 0 ≤ i mod BSIZE < BSIZE.
Proof.
  intros Hi. unfold MAXFILE, NDINDIRECT, NDIRECT, NINDIRECT, BSIZE. change (4096 / 4) with 1024. Z.to_euclidean_division_equations. lia.
Qed.

(** The block at one position changes and the blocks at the others do not. *)
Lemma slot_upd v ip v' ip' p0 x :
  (∀ p, pvalid p → parent p = None → blk ip' (root p) = if decide (p = p0) then x else blk ip (root p)) →
  (∀ p q k, pvalid p → parent p = Some (q, k) → q ≠ p0 → slot v ip q ≠ 0 →
     rd32 (v' (slot v ip q)) (4 * k) = if decide (p = p0) then x else rd32 (v (slot v ip q)) (4 * k)) →
  (∀ p k, pvalid p → parent p = Some (p0, k) → slot v ip p = 0 ∧ (x ≠ 0 → rd32 (v' x) (4 * k) = 0)) →
  (∀ q k, parent p0 = Some (q, k) → slot v ip q ≠ 0) →
  ∀ p, pvalid p → slot v' ip' p = if decide (p = p0) then x else slot v ip p.
Proof.
  intros Hroot Hent Hch Hp0 p Hp.
  assert (Hs : ∀ v ip p, slot v ip p = tree_slot NDIRECT (blk ip) (λ a i, rd32 (v a) (4 * i)) p) by (by intros ? ? []).
  rewrite !Hs. apply (tree_slot_upd NDIRECT NINDIRECT); [done| | | |done].
  - intros p1 q k. rewrite <-!Hs. apply Hent.
  - intros p1 k. rewrite <-!Hs. apply Hch.
  - intros q k. rewrite <-!Hs. apply Hp0.
Qed.

Lemma in_use_range v n : in_use v n → DATA_BLOCK ≤ n < TOTAL_BLOCKS.
Proof. by intros [? _]. Qed.
Lemma owns_use v ip n : file_ok v ip → owns v ip n → in_use v n.
Proof. intros Hf [Hn (p & Hp & <-)]. by apply (fo_use _ _ Hf). Qed.
Lemma slot_owns v ip p : pvalid p → slot v ip p ≠ 0 → owns v ip (slot v ip p).
Proof. intros Hp Hn. split; [done|]. by exists p. Qed.

Lemma grows_refl v ip : file_ok v ip → grows v ip v ip.
Proof.
  intros Hf. split; try done. - intros n. split; [by left|]. intros [?|?]; [done|by eapply owns_use]. - intros n. by left.
Qed.
Lemma grows_owns ch v ip v' ip' n : changes ch v ip v' ip' → owns v ip n → owns v' ip' n.
Proof. intros Hg [Hn (p & Hp & <-)]. split; [done|]. exists p. split; [done|]. by apply (gr_slot _ _ _ _ Hg). Qed.
Lemma grows_foreign ch v ip v' ip' n : changes ch v ip v' ip' → foreign v ip n → foreign v' ip' n.
Proof.
  intros Hg (Ho & H3 & Hu). split_and!; [|done|].
  - intros Ho'. destruct (gr_new _ _ _ _ Hg n Ho') as [?|Hn]; [done|]. apply Hn, Hu.
    apply (in_use_range v'). by eapply owns_use, Ho'; apply Hg.
  - intros Hr. apply (gr_use _ _ _ _ Hg). left. auto.
Qed.
Lemma changes_trans ch1 ch2 v ip v1 ip1 v2 ip2 :
  changes ch1 v ip v1 ip1 → changes ch2 v1 ip1 v2 ip2 → changes (λ i b, ch2 i (ch1 i b)) v ip v2 ip2.
Proof.
  intros H1 H2. split.
  - apply H2.
  - pose proof (gr_meta _ _ _ _ H1) as (?&?&?&?). pose proof (gr_meta _ _ _ _ H2) as (?&?&?&?). split_and!; congruence.
  - intros p Hp Hs. rewrite (gr_slot _ _ _ _ H2), (gr_slot _ _ _ _ H1); [done..|]. by rewrite (gr_slot _ _ _ _ H1).
  - intros i Hi. by rewrite (gr_byte _ _ _ _ H2), (gr_byte _ _ _ _ H1).
  - intros n. rewrite (gr_use _ _ _ _ H2), (gr_use _ _ _ _ H1). split; [|naive_solver].
    intros [[?|Ho]|?]; [by left| |by right]. right. by apply (grows_owns ch2 v1 ip1).
  - intros n Ho. destruct (gr_new _ _ _ _ H2 n Ho) as [Ho1|Hn]; [by apply (gr_new _ _ _ _ H1)|].
    right. intros Hu. apply Hn, (gr_use _ _ _ _ H1). by left.
  - intros n Hf. rewrite (gr_frame _ _ _ _ H2), (gr_frame _ _ _ _ H1); [done|done|]. by apply (grows_foreign ch1 v ip).
Qed.

Lemma grows_trans v ip v1 ip1 v2 ip2 : grows v ip v1 ip1 → grows v1 ip1 v2 ip2 → grows v ip v2 ip2.
Proof. apply (changes_trans (λ _ b, b) (λ _ b, b)). Qed.
Lemma changes_ext ch1 ch2 v ip v' ip' : changes ch1 v ip v' ip' → (∀ i, 0 ≤ i < 2 ^ 32 → ch1 i (file_byte v ip i) = ch2 i (file_byte v ip i)) → changes ch2 v ip v' ip'.
Proof. intros Hc He. split; try apply Hc. intros i Hi. rewrite <-He by done. by apply Hc. Qed.

(** A fresh, zeroed block put at a position that had none. *)
Lemma attach v ip v' ip' p0 x :
  file_ok v ip → length (ei_blocks ip') = 12%nat → same_meta ip ip' → pvalid p0 → slot v ip p0 = 0 →
  DATA_BLOCK ≤ x < TOTAL_BLOCKS → ¬ in_use v x →
  (∀ p, pvalid p → slot v' ip' p = if decide (p = p0) then x else slot v ip p) →
  (∀ n, in_use v' n ↔ in_use v n ∨ n = x) → (∀ i, byte_at (v' x) i = 0) →
  (∀ p, pvalid p → is_data p = true → slot v ip p ≠ 0 → v' (slot v ip p) = v (slot v ip p)) →
  (∀ n, ¬ owns v ip n → n ≠ DABLK_BMIP → n ≠ x → v' n = v n) →
  grows v ip v' ip'.
Proof.
  intros Hf Hlen Hmeta Hp0 Hz Hx Hnx Hslot Huse Hzero Hdata Hframe. assert (Hx0 : x ≠ 0) by (unfold DATA_BLOCK in Hx; lia).
  assert (Hne : ∀ p, pvalid p → slot v ip p ≠ 0 → slot v ip p ≠ x).
  { intros p Hp Hs He. apply Hnx. rewrite <-He. by apply (fo_use _ _ Hf). }
  assert (Hkeep : ∀ p, pvalid p → slot v ip p ≠ 0 → slot v' ip' p = slot v ip p).
  { intros p Hp Hs. rewrite Hslot by done. rewrite decide_False; [done|]. by intros ->. }
  assert (Hown : ∀ n, owns v' ip' n ↔ owns v ip n ∨ n = x).
  { intros n. split.
    - intros [Hn (p & Hp & Hs)]. rewrite Hslot in Hs by done. case_decide; [by right|]. left. split; [done|]. by exists p.
    - intros [[Hn (p & Hp & <-)]| ->]; (split; [done|]); [exists p; auto|exists p0]. by rewrite Hslot, decide_True. }
  split.
  - split; [done| |].
    + intros p Hp. rewrite Hslot by done. intros Hs. apply Huse. case_decide; [by right|left]. by apply (fo_use _ _ Hf).
    + intros p q Hp Hq. rewrite !Hslot by done. destruct (decide (p = p0)) as [->|], (decide (q = p0)) as [->|]; intros Hs He; try done.
      * destruct (Hne q Hq); congruence.
      * by destruct (Hne p Hp Hs).
      * by apply (fo_inj _ _ Hf).
  - done.
  - done.
  - intros i Hi. destruct (byte_block i Hi) as [Hb _]. destruct (pos_of_valid _ Hb) as [Hp Hd]. unfold tree_byte.
    rewrite Hslot by done. destruct (decide (pos_of (i / BSIZE) = p0)) as [He|He].
    + rewrite He, Hz. rewrite decide_False by done. rewrite decide_True by done. apply Hzero.
    + case_decide; [done|]. by rewrite Hdata.
  - intros n. rewrite Huse, Hown. split; [naive_solver|]. intros [?|[Ho|?]]; [by left|left|by right]. by eapply owns_use.
  - intros n. rewrite Hown. intros [?| ->]; [by left|by right].
  - intros n (Ho & H3 & Hu). apply Hframe; [done|done|]. intros ->. auto.
Qed.

(** balloc as the users see it when every buffer is written. *)
Lemma balloc_grow s v hs :
  bs_rel s v hs ∅ → held_ok v hs →
  ∃ x s' v', balloc s = Ret (x, s') ∧ bs_rel s' v' hs ∅ ∧
    ((x = 0 ∧ full v ∧ ∀ n, v' n = v n) ∨
     (DATA_BLOCK ≤ x < TOTAL_BLOCKS ∧ ¬ in_use v x ∧ v' x = zero_block ∧ (∀ n, in_use v' n ↔ in_use v n ∨ n = x) ∧
      ∀ n, n ≠ x → n ≠ DABLK_BMIP → v' n = v n)).
Proof.
  intros Hr Hh. destruct (balloc_run s v hs ∅ Hr Hh) as (x & s' & v' & U' & Hb & Hr' & Hp); [apply not_elem_of_empty|].
  assert (U' = ∅) as ->. { destruct Hp as [(_ & HU & _)|(_ & _ & HU & _)]; set_solver. }
  exists x, s', v'. split_and!; [done|done|]. destruct Hp as [(-> & _ & Hv & Hfull)|(Hx & Hnx & _ & Hz & Huse & Hv)]; [left|right].
  - split_and!; [done|done|]. intros n. by apply Hv; [apply not_elem_of_empty|intros []].
  - split_and!; [lia|lia|done|done|done|]. intros n Hn H3. apply Hv; [apply not_elem_of_empty|tauto].
Qed.

Lemma in_use_ext v v' n : v' DABLK_BMIP = v DABLK_BMIP → in_use v' n ↔ in_use v n.
Proof. intros He. unfold in_use. by rewrite He. Qed.
Lemma entry_range k : 0 ≤ k < NINDIRECT → 0 ≤ 4 * k ∧ 4 * k + 3 < BSIZE.
Proof. unfold NINDIRECT, BSIZE. change (4096 / 4) with 1024. lia. Qed.
Lemma use_block v ip p : file_ok v ip → pvalid p → slot v ip p ≠ 0 → slot v ip p ≠ DABLK_BMIP.
Proof. intros Hf Hp Hs. pose proof (in_use_range _ _ (fo_use _ _ Hf p Hp Hs)). unfold DATA_BLOCK, DABLK_BMIP in *. lia. Qed.

Lemma slot_view v v' ip p : (∀ n, v' n = v n) → slot v' ip p = slot v ip p.
Proof. intros Hv. destruct p; simpl; unfold entry; by rewrite ?Hv. Qed.
Lemma same_grows v v' ip : file_ok v ip → (∀ n, v' n = v n) → grows v ip v' ip.
Proof.
  intros Hf Hv. assert (Hs : ∀ p, slot v' ip p = slot v ip p) by (intros p; destruct p; simpl; unfold entry; by rewrite ?Hv).
  assert (Hu : ∀ n, in_use v' n ↔ in_use v n) by (intros n; by apply in_use_ext).
  assert (Hf' : file_ok v' ip).
  { split; [apply Hf| |].
    - intros p. rewrite Hs, Hu. apply Hf.
    - intros p q. rewrite !Hs. apply Hf. }
  split; try done.
  - intros i Hi. unfold tree_byte. by rewrite Hs, Hv.
  - intros n. rewrite Hu. split; [by left|]. intros [?|?]; [done|]. apply Hu. by apply (owns_use v' ip).
  - intros n [Hn (p & Hp & He)]. left. split; [done|]. exists p. by rewrite <-Hs.
Qed.

(** What balloc returned, entered in an indirect block of the file. *)
Lemma child_attach v ip v1 p0 q k x :
  file_ok v ip → pvalid p0 → parent p0 = Some (q, k) → slot v ip q ≠ 0 → slot v ip p0 = 0 → block_ok (v (slot v ip q)) →
  DATA_BLOCK ≤ x < TOTAL_BLOCKS → ¬ in_use v x → v1 x = zero_block → (∀ n, in_use v1 n ↔ in_use v n ∨ n = x) →
  (∀ n, n ≠ x → n ≠ DABLK_BMIP → v1 n = v n) →
  grows v ip (<[slot v ip q := wr32 (v1 (slot v ip q)) (4 * k) x]> v1) ip ∧
  slot (<[slot v ip q := wr32 (v1 (slot v ip q)) (4 * k) x]> v1) ip p0 = x.
Proof.
  intros Hf Hp0 Hpar Hq Hz Hok Hx Hnx Hzb Huse Hv1. set (a := slot v ip q) in *. set (v2 := <[a := _]> v1).
  destruct (parent_valid NDIRECT NINDIRECT p0 q k Hp0 Hpar) as (Hqv & Hk & Hpq). pose proof (entry_range k Hk) as [Hk4 Hk5].
  assert (Ha3 : a ≠ DABLK_BMIP) by (by apply (use_block v ip q)).
  assert (Hau : in_use v a) by (by apply (fo_use _ _ Hf)). assert (Hax : a ≠ x) by congruence.
  assert (Ha1 : v1 a = v a) by (by apply Hv1). assert (Hx32 : 0 ≤ x < 2 ^ 32) by (unfold DATA_BLOCK, TOTAL_BLOCKS in Hx; lia).
  assert (Hslot : ∀ p, pvalid p → slot v2 ip p = if decide (p = p0) then x else slot v ip p).
  { apply slot_upd.
    - intros p Hp Hn. rewrite decide_False; [done|]. intros ->. congruence.
    - intros p q' k' Hp Hpar' Hqp Hq'. destruct (parent_valid NDIRECT NINDIRECT p q' k' Hp Hpar') as (Hqv' & Hk' & _). pose proof (entry_range k' Hk') as [Hk4' Hk5'].
      destruct (decide (q' = q)) as [->|Hne].
      + fold a. unfold v2. rewrite fn_lookup_insert. case_decide as Hd.
        * subst p. assert (k' = k) as -> by congruence. apply rd32_wr32; try done. by rewrite Ha1.
        * rewrite rd32_wr32_ne, Ha1; try done; [by rewrite Ha1|]. assert (k ≠ k'); [|lia]. intros ->. apply Hd. by eapply parent_inj.
      + assert (slot v ip q' ≠ a) by (intros He; apply Hne; by apply (fo_inj _ _ Hf)).
        unfold v2. rewrite fn_lookup_insert_ne by done. rewrite Hv1.
        * rewrite decide_False; [done|]. intros ->. congruence.
        * intros He. apply Hnx. rewrite <-He. by apply (fo_use _ _ Hf).
        * by apply (use_block v ip q').
    - intros p j Hp Hj. rewrite slot_eq, Hj, Hz. split; [done|]. intros _. unfold v2. rewrite fn_lookup_insert_ne, Hzb by done. apply rd32_zero.
    - intros q' k'. rewrite Hpar. by intros [= <- <-]. }
  split; [|by rewrite Hslot, decide_True].
  apply (attach v ip v2 ip p0 x); try done.
  - apply Hf.
  - intros n. rewrite <-Huse. apply in_use_ext. unfold v2. by rewrite fn_lookup_insert_ne.
  - intros i. unfold v2. rewrite fn_lookup_insert_ne, Hzb by done. apply byte_at_zero.
  - intros p Hp Hd Hs. assert (Hpq' : p ≠ q) by (intros ->; destruct p0; simpl in Hpar; simplify_eq/=).
    unfold v2. rewrite fn_lookup_insert_ne by (intros He; apply Hpq'; by apply (fo_inj _ _ Hf)). apply Hv1.
    + intros He. apply Hnx. rewrite <-He. by apply (fo_use _ _ Hf).
    + by apply (use_block v ip p).
  - intros n Hn H3 Hnx'. unfold v2. rewrite fn_lookup_insert_ne; [by apply Hv1|]. intros <-. apply Hn. by apply slot_owns.
Qed.

(** A slot of the inode itself. *)
Lemma blk_put ip i j a : length (ei_blocks ip) = 12%nat → 0 ≤ i < 12 → 0 ≤ j → blk (put_blk i a ip) j = if decide (j = i) then a else blk ip j.
Proof.
  intros Hl Hi Hj. unfold blk, put_blk. simpl. destruct (decide (j = i)) as [->|].
  - by rewrite list_lookup_insert_eq by lia.
  - by rewrite list_lookup_insert_ne by lia.
Qed.
Lemma root_range p : pvalid p → parent p = None → 0 ≤ root p < 12.
Proof. intros Hp Hn. by apply (tree_root_range NDIRECT NINDIRECT). Qed.
Lemma root_inj p q : pvalid p → pvalid q → parent p = None → parent q = None → root p = root q → p = q.
Proof. apply tree_root_inj. Qed.

Lemma root_attach v ip v1 p0 x :
  file_ok v ip → pvalid p0 → parent p0 = None → slot v ip p0 = 0 →
  DATA_BLOCK ≤ x < TOTAL_BLOCKS → ¬ in_use v x → v1 x = zero_block → (∀ n, in_use v1 n ↔ in_use v n ∨ n = x) →
  (∀ n, n ≠ x → n ≠ DABLK_BMIP → v1 n = v n) →
  grows v ip v1 (put_blk (root p0) x ip) ∧ slot v1 (put_blk (root p0) x ip) p0 = x.
Proof.
  intros Hf Hp0 Hpar Hz Hx Hnx Hzb Huse Hv1. set (ip' := put_blk _ _ _).
  assert (Hown : ∀ q, pvalid q → slot v ip q ≠ 0 → v1 (slot v ip q) = v (slot v ip q)).
  { intros q Hq Hs. apply Hv1; [|by apply (use_block v ip q)]. intros He. apply Hnx. rewrite <-He. by apply (fo_use _ _ Hf). }
  assert (Hslot : ∀ p, pvalid p → slot v1 ip' p = if decide (p = p0) then x else slot v ip p).
  { apply slot_upd.
    - intros p Hp Hn. unfold ip'. pose proof (root_range p Hp Hn). rewrite blk_put; [|apply Hf|by apply root_range|lia].
      destruct (decide (p = p0)) as [->|Hne]; [by rewrite decide_True|]. rewrite decide_False; [done|]. intros He. apply Hne. by apply root_inj.
    - intros p q k Hp Hq Hqp Hs. rewrite Hown; [|by destruct (parent_valid NDIRECT NINDIRECT p q k Hp Hq)|done]. rewrite decide_False; [done|]. intros ->. congruence.
    - intros p j Hp Hj. rewrite slot_eq, Hj, Hz. split; [done|]. intros _. rewrite Hzb. apply rd32_zero.
    - intros q k. by rewrite Hpar. }
  split; [|by rewrite Hslot, decide_True].
  apply (attach v ip v1 ip' p0 x); try done.
  - unfold ip', put_blk. simpl. rewrite length_insert. apply Hf.
  - intros i. rewrite Hzb. apply byte_at_zero.
  - intros p Hp _ Hs. by apply Hown.
  - intros n Hn H3 Hnx'. by apply Hv1.
Qed.

(** ** bmap *)

Lemma on_store_run {A} (m : K B A) s ip a s' : m s = Ret (a, s') → on_store m (mk_estate s ip) = Ret (a, mk_estate s' ip).
Proof. intros Hm. unfold on_store. by rewrite (zoom_Ret _ _ _ (mk_estate s ip) a s' Hm). Qed.
Lemma held_use v hs : (length hs < 7)%nat → (∀ n, n ∈ hs.*1.*2 → in_use v n) → held_ok v hs.
Proof.
  intros Hl Hh. split; [done|]. intros n Hn. pose proof (in_use_range _ _ (Hh n Hn)). split; [|auto].
  unfold DATA_BLOCK, DABLK_BMIP in *. lia.
Qed.

(** What bmap and its parts give for the position [p]. *)
Definition got_block (v : Z → block) (ip : einode) (p : pos) (r : Z) : Prop :=
  (r = 0 ∧ full v ∧ slot v ip p = 0) ∨ (r ≠ 0 ∧ slot v ip p = r).

Lemma grows_zero ch v ip v' ip' p : changes ch v ip v' ip' → pvalid p → slot v' ip' p = 0 → slot v ip p = 0.
Proof. intros Hg Hp Hz. destruct (decide (slot v ip p = 0)) as [|Hn]; [done|]. by rewrite (gr_slot _ _ _ _ Hg) in Hz. Qed.
Lemma slot_parent_zero v ip p q k : parent p = Some (q, k) → slot v ip q = 0 → slot v ip p = 0.
Proof. intros Hp Hq. by rewrite slot_eq, Hp, Hq. Qed.

Lemma bmap_root_run s v ip p0 :
  bs_rel s v [] ∅ → file_ok v ip → pvalid p0 → parent p0 = None →
  ∃ r s' v' ip', bmap_root (root p0) (mk_estate s ip) = Ret (r, mk_estate s' ip') ∧ bs_rel s' v' [] ∅ ∧ grows v ip v' ip' ∧ got_block v' ip' p0 r.
Proof.
  intros Hr Hf Hp Hpar. unfold bmap_root, get_blk, gets. unfold mbind at 1, K_bind at 1. simpl.
  assert (Hs : slot v ip p0 = blk ip (root p0)) by (by rewrite slot_eq, Hpar). rewrite <-Hs.
  destruct (decide (slot v ip p0 = 0)) as [Hz|Hz].
  2:{ exists (slot v ip p0), s, v, ip. split_and!; [done|done|by apply grows_refl|by right]. }
  destruct (balloc_grow s v [] Hr) as (x & s1 & v1 & Hb & Hr1 & [(-> & Hfull & Hv)|(Hx & Hnx & Hzb & Huse & Hv)]);
    [apply held_use; [simpl; lia|]; by intros n ?%elem_of_nil|..]; rewrite (bind_Ret _ _ _ _ _ (on_store_run _ _ _ _ _ Hb)).
  - exists 0, s1, v1, ip. split_and!; [done|done|by apply same_grows|]. left. split_and!; [done| |rewrite slot_eq, Hpar; congruence].
    intros n Hn. apply (in_use_ext v); auto.
  - rewrite decide_False by (unfold DATA_BLOCK in Hx; lia). destruct (root_attach v ip v1 p0 x) as [Hg Hsl]; try done.
    exists x, s1, v1, (put_blk (root p0) x ip). split_and!; [done|done|done|]. right. split; [unfold DATA_BLOCK in Hx; lia|done].
Qed.

(** An entry of a held indirect block that is empty, with a new block. *)
Lemma entry_alloc_run s v ip p0 q k h hs :
  bs_rel s v ((h, slot v ip q, false) :: hs) ∅ → (length hs < 6)%nat → (∀ n, n ∈ hs.*1.*2 → in_use v n) →
  file_ok v ip → pvalid p0 → parent p0 = Some (q, k) → slot v ip q ≠ 0 → slot v ip p0 = 0 →
  ∃ x s1 v1, balloc s = Ret (x, s1) ∧ bs_rel s1 v1 ((h, slot v ip q, false) :: hs) ∅ ∧ v1 (slot v ip q) = v (slot v ip q) ∧
    ((x = 0 ∧ full v1 ∧ grows v ip v1 ip ∧ slot v1 ip p0 = 0) ∨
     (x ≠ 0 ∧ grows v ip (<[slot v ip q := wr32 (v1 (slot v ip q)) (4 * k) x]> v1) ip ∧
      slot (<[slot v ip q := wr32 (v1 (slot v ip q)) (4 * k) x]> v1) ip p0 = x)).
Proof.
  intros Hr Hl Hh Hf Hp Hpar Hq Hz. destruct (parent_valid NDIRECT NINDIRECT p0 q k Hp Hpar) as (Hqv & _ & _). pose proof (fo_use _ _ Hf q Hqv Hq) as Hau.
  destruct (data_run _ _ _ _ _ _ _ Hr) as (_ & _ & HaU).
  destruct (balloc_grow s v _ Hr) as (x & s1 & v1 & Hb & Hr1 & Hpost).
  { apply held_use; [simpl; lia|]. simpl. intros n [->|Hn]%elem_of_cons; auto. }
  exists x, s1, v1. split_and!; [done|done| |].
  - destruct Hpost as [(_ & _ & Hv)|(_ & Hnx & _ & _ & Hv)]; [done|]. apply Hv; [congruence|by apply (use_block v ip q)].
  - destruct Hpost as [(-> & Hfull & Hv)|(Hx & Hnx & Hzb & Huse & Hv)]; [left|right].
    + split_and!; [done| |by apply same_grows|by rewrite (slot_view v) by done]. intros n Hn. apply (in_use_ext v); auto.
    + split; [unfold DATA_BLOCK in Hx; lia|]. apply child_attach; try done. by apply (bs_len s v _ ∅ _ Hr).
Qed.

Lemma bmap_fill_run s v ip p0 q k h hs :
  bs_rel s v ((h, slot v ip q, false) :: hs) ∅ → (length hs < 6)%nat → (∀ n, n ∈ hs.*1.*2 → in_use v n) →
  file_ok v ip → pvalid p0 → parent p0 = Some (q, k) → slot v ip q ≠ 0 →
  ∃ ok s' v', bmap_fill h k s = Ret (ok, s') ∧ bs_rel s' v' ((h, slot v ip q, false) :: hs) ∅ ∧ grows v ip v' ip ∧
    (if ok : bool then slot v' ip p0 ≠ 0 else full v' ∧ slot v' ip p0 = 0).
Proof.
  intros Hr Hl Hh Hf Hp Hpar Hq. unfold bmap_fill. destruct (data_run _ _ _ _ _ _ _ Hr) as (Hd & _ & HaU). rewrite (bind_Ret _ _ _ _ _ Hd).
  assert (Hs : slot v ip p0 = rd32 (v (slot v ip q)) (4 * k)) by (rewrite (slot_eq v ip p0), Hpar; unfold entry; by rewrite decide_False).
  rewrite <-Hs. destruct (decide (slot v ip p0 = 0)) as [Hz|Hz]; [|exists true, s, v; split_and!; [done|done|by apply grows_refl|done]].
  destruct (entry_alloc_run s v ip p0 q k h hs) as (x & s1 & v1 & Hb & Hr1 & Ha & Hpost); try done. rewrite (bind_Ret _ _ _ _ _ Hb).
  destruct (data_run _ _ _ _ _ _ _ Hr1) as (Hd1 & _ & _). rewrite (bind_Ret _ _ _ _ _ Hd1).
  assert (Hok : block_ok (v1 (slot v ip q))) by (by apply (bs_len s1 v1 _ ∅ _ Hr1)).
  destruct (parent_valid NDIRECT NINDIRECT p0 q k Hp Hpar) as (Hqv & Hk & _). pose proof (entry_range k Hk) as [Hk4 Hk5].
  destruct Hpost as [(-> & Hfull & Hg & Hz')|(Hx & Hg & Hsl)].
  - rewrite wr32_zero by (congruence || done). rewrite (bind_Ret _ _ _ _ _ (bs_same _ _ _ _ _ _ _ Hr1)). by exists false, s1, v1.
  - destruct (bs_set_ok _ _ _ _ _ _ _ (wr32 (v1 (slot v ip q)) (4 * k) x) Hr1) as (s2 & H2 & Hr2); [auto with frost|].
    rewrite (bind_Ret _ _ _ _ _ H2), decide_False by done.
    destruct (bs_write_ok _ _ _ _ _ _ _ Hr2) as (s3 & H3 & Hr3). rewrite (bind_Ret _ _ _ _ _ H3).
    eexists true, s3, _. split_and!; [done|exact Hr3|done|congruence].
Qed.

(** bread of a block while every change is written. *)
Lemma read_clean s v hs n :
  bs_rel s v hs ∅ → n ≠ 0 → n ∉ hs.*1.*2 → (length hs < 8)%nat →
  ∃ h s' v', bs_read n s = Ret (h, s') ∧ bs_rel s' v' ((h, n, false) :: hs) ∅ ∧ ∀ k, v' k = v k.
Proof.
  intros Hr Hn Hh Hl. destruct (bs_read_ok s v hs ∅ n Hr Hn Hh Hl) as (h & s2 & v2 & U2 & m & H2 & Hr2 & HU2 & Hv2 & Hm).
  rewrite (Hm (not_elem_of_empty _)) in Hr2. assert (U2 = ∅) as -> by set_solver.
  exists h, s2, v2. split_and!; [done|done|]. intros k. apply Hv2, not_elem_of_empty.
Qed.
Lemma read_grows s v hs ip p :
  bs_rel s v hs ∅ → file_ok v ip → pvalid p → slot v ip p ≠ 0 → slot v ip p ∉ hs.*1.*2 → (length hs < 8)%nat →
  ∃ h s' v', bs_read (slot v ip p) s = Ret (h, s') ∧ bs_rel s' v' ((h, slot v' ip p, false) :: hs) ∅ ∧ (∀ k, v' k = v k) ∧
    grows v ip v' ip ∧ slot v' ip p = slot v ip p.
Proof.
  intros Hr Hf Hp Hs Hh Hl. destruct (read_clean s v hs (slot v ip p)) as (h & s' & v' & H2 & Hr2 & Hv); [done..|].
  pose proof (same_grows v v' ip Hf Hv) as Hg. pose proof (gr_slot _ _ _ _ Hg p Hp Hs) as Hsl.
  exists h, s', v'. rewrite Hsl. by split_and!.
Qed.

Lemma bmap_single_run s v ip idx :
  bs_rel s v [] ∅ → file_ok v ip → 0 ≤ idx < NINDIRECT →
  ∃ r s' v' ip', bmap_single idx (mk_estate s ip) = Ret (r, mk_estate s' ip') ∧ bs_rel s' v' [] ∅ ∧ grows v ip v' ip' ∧ got_block v' ip' (Psent idx) r.
Proof.
  intros Hr Hf Hi. unfold bmap_single.
  destruct (bmap_root_run s v ip Psind Hr Hf I eq_refl) as (a & s1 & v1 & ip1 & Hb & Hr1 & Hg1 & Hm). rewrite (bind_Ret _ _ _ _ _ Hb).
  destruct Hm as [(-> & Hfull & Hx0)|[Ha Hsl]].
  { exists 0, s1, v1, ip1. split_and!; [done..|]. left. split_and!; [done|done|]. by apply (slot_parent_zero v1 ip1 (Psent idx) Psind idx). }
  rewrite decide_False by done. subst a. pose proof (gr_ok _ _ _ _ Hg1) as Hf1.
  destruct (read_grows s1 v1 [] ip1 Psind) as (h & s2 & v2 & H2 & Hr2 & Hv2 & Hg2 & Hq2); [done|done|done|done|apply not_elem_of_nil|simpl; lia|].
  pose proof (gr_ok _ _ _ _ Hg2) as Hf2. rewrite <-Hq2 in Ha.
  destruct (data_run _ _ _ _ _ _ _ Hr2) as (Hd & _ & _).
  assert (Hs : slot v2 ip1 (Psent idx) = rd32 (v2 (slot v2 ip1 Psind)) (4 * idx)) by (simpl; unfold entry; by rewrite decide_False).
  pose proof (grows_trans _ _ _ _ _ _ Hg1 Hg2) as Hg12.
  destruct (decide (slot v2 ip1 (Psent idx) = 0)) as [Hz|Hz].
  - destruct (entry_alloc_run s2 v2 ip1 (Psent idx) Psind idx h []) as (x & s3 & v3 & Hb3 & Hr3 & Ha3 & Hpost);
      [done|simpl; lia|by intros n ?%elem_of_nil|done|done|done|done|done|].
    assert (Hok : block_ok (v3 (slot v2 ip1 Psind))) by (by apply (bs_len s3 v3 _ ∅ _ Hr3)).
    destruct Hpost as [(-> & Hfull & Hg & Hz')|(Hx & Hg & Hsl)].
    + destruct (bs_release_ok _ _ _ _ _ _ _ Hr3) as (s4 & H4 & Hr4). exists 0, s4, v3, ip1.
      split_and!; [|done|by eapply grows_trans|by left].
      apply on_store_run. rewrite (bind_Ret _ _ _ _ _ H2), (bind_Ret _ _ _ _ _ Hd), <-Hs. rewrite decide_True by done.
      rewrite (bind_Ret _ _ _ _ _ Hb3). rewrite decide_True by done. by rewrite (bind_Ret _ _ _ _ _ H4).
    + destruct (data_run _ _ _ _ _ _ _ Hr3) as (Hd3 & _ & _).
      destruct (finish_run s3 v3 [] ∅ h _ _ (wr32 (v3 (slot v2 ip1 Psind)) (4 * idx) x) Hr3) as (s4 & H4 & Hr4); [auto with frost|].
      eexists x, s4, _, ip1. split_and!; [|exact Hr4|by eapply grows_trans|by right].
      apply on_store_run. rewrite (bind_Ret _ _ _ _ _ H2), (bind_Ret _ _ _ _ _ Hd), <-Hs. rewrite decide_True by done.
      rewrite (bind_Ret _ _ _ _ _ Hb3). rewrite decide_False by done. rewrite (bind_Ret _ _ _ _ _ Hd3).
      revert H4. unfold mbind, K_bind.
      repeat case_match; intros; simplify_eq; done.
  - destruct (bs_release_ok _ _ _ _ _ _ _ Hr2) as (s3 & H3 & Hr3). exists (slot v2 ip1 (Psent idx)), s3, v2, ip1.
    split_and!; [|done|done|by right]. apply on_store_run.
    rewrite (bind_Ret _ _ _ _ _ H2), (bind_Ret _ _ _ _ _ Hd), <-Hs. rewrite decide_False by done. by rewrite (bind_Ret _ _ _ _ _ H3).
Qed.

Lemma slot_child v ip p q k : parent p = Some (q, k) → slot v ip q ≠ 0 → slot v ip p = rd32 (v (slot v ip q)) (4 * k).
Proof. intros Hp Hq. rewrite slot_eq, Hp. unfold entry. by rewrite decide_False. Qed.
Lemma release_clean s v hs h n : bs_rel s v ((h, n, false) :: hs) ∅ → ∃ s', bs_release h s = Ret (tt, s') ∧ bs_rel s' v hs ∅.
Proof. apply (bs_release_ok s v hs ∅ h n false). Qed.

(** The part of bmap_double that works on the buffers. *)
Lemma bmap_double_buf_run s v ip i j :
  bs_rel s v [] ∅ → file_ok v ip → 0 ≤ i < NINDIRECT → 0 ≤ j < NINDIRECT → slot v ip Pdind ≠ 0 →
  ∃ r s' v', (double_indirect_buf ← bs_read (slot v ip Pdind);
    ok ← bmap_fill double_indirect_buf i;
    if negb ok then bs_release double_indirect_buf ;; mret 0 else
    addrs ← bs_data double_indirect_buf;
    indirect_buf ← bs_read (rd32 addrs (4 * i));
    ok ← bmap_fill indirect_buf j;
    if negb ok then bs_release indirect_buf ;; bs_release double_indirect_buf ;; mret 0 else
    indirect_addrs ← bs_data indirect_buf;
    bs_release indirect_buf ;;
    bs_release double_indirect_buf ;;
    mret (rd32 indirect_addrs (4 * j))) s = Ret (r, s') ∧ bs_rel s' v' [] ∅ ∧ grows v ip v' ip ∧ got_block v' ip (Pdent i j) r.
Proof.
  intros Hr Hf Hi Hj Ha.
  destruct (read_grows s v [] ip Pdind) as (h & s1 & v1 & H1 & Hr1 & Hv1 & Hg1 & Hq1); [done|done|done|done|apply not_elem_of_nil|simpl; lia|].
  rewrite (bind_Ret _ _ _ _ _ H1). rewrite <-Hq1 in Ha.
  destruct (bmap_fill_run s1 v1 ip (Pdl i) Pdind i h [] Hr1) as (ok & s2 & v2 & H2 & Hr2 & Hg2 & Hok);
    [simpl; lia|by intros n ?%elem_of_nil|apply Hg1|done|done|done|]. rewrite (bind_Ret _ _ _ _ _ H2).
  pose proof (grows_trans _ _ _ _ _ _ Hg1 Hg2) as Hg12.
  assert (Hq2 : slot v2 ip Pdind = slot v1 ip Pdind) by (by apply (gr_slot _ _ _ _ Hg2)). rewrite <-Hq2 in Hr2, Ha.
  destruct ok; simpl.
  2:{ destruct (release_clean _ _ _ _ _ Hr2) as (s3 & H3 & Hr3). rewrite (bind_Ret _ _ _ _ _ H3). exists 0, s3, v2.
      destruct Hok as [Hfull Hz]. split_and!; [done..|]. left. split_and!; [done|done|].
      by apply (slot_parent_zero v2 ip (Pdent i j) (Pdl i) j). }
  destruct (data_run _ _ _ _ _ _ _ Hr2) as (Hd2 & _). rewrite (bind_Ret _ _ _ _ _ Hd2), <-(slot_child v2 ip (Pdl i) Pdind i) by done.
  pose proof (gr_ok _ _ _ _ Hg2) as Hf2.
  destruct (read_grows s2 v2 [(h, slot v2 ip Pdind, false)] ip (Pdl i)) as (h' & s3 & v3 & H3 & Hr3 & Hv3 & Hg3 & Hq3); [done|done|done|done| |simpl; lia|].
  { intros He%list_elem_of_singleton. by pose proof (fo_inj _ _ Hf2 (Pdl i) Pdind Hi I Hok He). }
  rewrite (bind_Ret _ _ _ _ _ H3). pose proof (gr_ok _ _ _ _ Hg3) as Hf3. pose proof Ha as Ha3.
  rewrite <-(gr_slot _ _ _ _ Hg3 Pdind I Ha) in Hr3, Ha3.
  destruct (bmap_fill_run s3 v3 ip (Pdent i j) (Pdl i) j h' [(h, slot v3 ip Pdind, false)] Hr3) as (ok & s4 & v4 & H4 & Hr4 & Hg4 & Hok4);
    [simpl; lia|intros n ->%list_elem_of_singleton; by apply Hf3|done|done|done|by rewrite Hq3|]. rewrite (bind_Ret _ _ _ _ _ H4).
  pose proof (grows_trans _ _ _ _ _ _ Hg12 (grows_trans _ _ _ _ _ _ Hg3 Hg4)) as Hg.
  assert (Hq4 : slot v4 ip (Pdl i) = slot v3 ip (Pdl i)) by (apply (gr_slot _ _ _ _ Hg4); [done|by rewrite Hq3]).
  destruct ok; simpl.
  - destruct (data_run _ _ _ _ _ _ _ Hr4) as (Hd4 & _). rewrite (bind_Ret _ _ _ _ _ Hd4).
    destruct (release_clean _ _ _ _ _ Hr4) as (s5 & H5 & Hr5). rewrite (bind_Ret _ _ _ _ _ H5).
    destruct (release_clean _ _ _ _ _ Hr5) as (s6 & H6 & Hr6). rewrite (bind_Ret _ _ _ _ _ H6).
    rewrite <-Hq4, <-(slot_child v4 ip (Pdent i j) (Pdl i) j) by (done || by rewrite Hq4, Hq3).
    exists (slot v4 ip (Pdent i j)), s6, v4. by split_and!; [..|right].
  - destruct (release_clean _ _ _ _ _ Hr4) as (s5 & H5 & Hr5). rewrite (bind_Ret _ _ _ _ _ H5).
    destruct (release_clean _ _ _ _ _ Hr5) as (s6 & H6 & Hr6). rewrite (bind_Ret _ _ _ _ _ H6).
    destruct Hok4 as [Hfull Hz]. exists 0, s6, v4. split_and!; [done..|]. by left.
Qed.

Lemma bmap_double_run s v ip idx :
  bs_rel s v [] ∅ → file_ok v ip → 0 ≤ idx < NDINDIRECT →
  ∃ r s' v' ip', bmap_double idx (mk_estate s ip) = Ret (r, mk_estate s' ip') ∧ bs_rel s' v' [] ∅ ∧ grows v ip v' ip' ∧
    got_block v' ip' (Pdent (idx / NINDIRECT) (idx mod NINDIRECT)) r.
Proof.
  intros Hr Hf Hi. unfold bmap_double.
  destruct (bmap_root_run s v ip Pdind Hr Hf I eq_refl) as (a & s1 & v1 & ip1 & Hb & Hr1 & Hg1 & Hm). rewrite (bind_Ret _ _ _ _ _ Hb).
  assert (Hi2 : 0 ≤ idx / NINDIRECT < NINDIRECT ∧ 0 ≤ idx mod NINDIRECT < NINDIRECT).
  { unfold NDINDIRECT, NINDIRECT, BSIZE in *. change (4096 / 4) with 1024 in *. Z.to_euclidean_division_equations. lia. }
  destruct Hm as [(-> & Hfull & Hx0)|[Ha Hsl]].
  { exists 0, s1, v1, ip1. split_and!; [done..|]. left. split_and!; [done|done|].
    eapply (slot_parent_zero v1 ip1 _ (Pdl _)); [done|]. by eapply (slot_parent_zero v1 ip1 _ Pdind). }
  rewrite decide_False by done. subst a.
  destruct (bmap_double_buf_run s1 v1 ip1 (idx / NINDIRECT) (idx mod NINDIRECT) Hr1 (gr_ok _ _ _ _ Hg1)) as (r & s2 & v2 & H2 & Hr2 & Hg2 & Hm2); [tauto|tauto|done|].
  exists r, s2, v2, ip1. split_and!; [by apply on_store_run|done|by eapply grows_trans|done].
Qed.

Lemma bmap_run s v ip bn :
  bs_rel s v [] ∅ → file_ok v ip → 0 ≤ bn < MAXFILE →
  ∃ r s' v' ip', bmap bn (mk_estate s ip) = Ret (r, mk_estate s' ip') ∧ bs_rel s' v' [] ∅ ∧ grows v ip v' ip' ∧ got_block v' ip' (pos_of bn) r.
Proof.
  intros Hr Hf Hbn. unfold bmap, pos_of. unfold MAXFILE in Hbn. case_decide; [|case_decide].
  - apply (bmap_root_run s v ip (Pdir bn)); [done|done|simpl; lia|done].
  - apply bmap_single_run; [done|done|lia].
  - rewrite decide_True by lia. apply bmap_double_run; [done|done|lia].
Qed.

(** ** Reading *)

Lemma read_round_run s v ip off tot acc size :
  bs_rel s v [] ∅ → file_ok v ip → 0 ≤ tot < size → 0 ≤ off → off + (size - tot) < 2 ^ 32 → size < 2 ^ 32 →
  ∃ r s' v' ip', read_round size (off, tot, acc) (mk_estate s ip) = Ret (r, mk_estate s' ip') ∧ bs_rel s' v' [] ∅ ∧ grows v ip v' ip' ∧
    ((r = inr (tot, acc) ∧ full v' ∧ slot v' ip' (pos_of (off / BSIZE)) = 0) ∨
     (let m := chunk off (size - tot) in r = inl (off + m, tot + m, acc ++ file_bytes v ip off m))).
Proof.
  intros Hr Hf Ht Ho Hs Hsz. unfold read_round. rewrite decide_False by lia.
  assert (Hoff : 0 ≤ off < 2 ^ 32) by lia. destruct (byte_block off Hoff) as [Hbn Hom].
  destruct (bmap_run s v ip (off / BSIZE) Hr Hf Hbn) as (a & s1 & v1 & ip1 & Hb & Hr1 & Hg1 & Hm).
  rewrite (bind_Ret _ _ _ _ _ Hb). destruct Hm as [(-> & Hfull & Hx0)|[Ha Hsl]].
  { rewrite decide_True by done. eexists _, s1, v1, ip1. split_and!; [done|done|done|by left]. }
  rewrite decide_False by done. destruct (pos_of_valid _ Hbn) as [Hpv _]. subst a. pose proof (gr_ok _ _ _ _ Hg1) as Hf1.
  destruct (read_grows s1 v1 [] ip1 _ Hr1 Hf1 Hpv Ha) as (h & s2 & v2 & H2 & Hr2 & Hv2 & Hg2 & Hq2); [apply not_elem_of_nil|simpl; lia|].
  destruct (data_run _ _ _ _ _ _ _ Hr2) as (Hd & _ & HU). destruct (release_clean _ _ _ _ _ Hr2) as (s3 & H3 & Hr3).
  pose proof (grows_trans _ _ _ _ _ _ Hg1 Hg2) as Hg12. fold (chunk off (size - tot)).
  destruct (chunk_range off (size - tot)) as [Hm Hmb]; [lia..|]. set (m := chunk off (size - tot)) in *.
  assert (Hsl : slice (v2 (slot v2 ip1 (pos_of (off / BSIZE)))) (off mod BSIZE) m = file_bytes v ip off m).
  { rewrite tree_slice; [|lia|lia|lia|congruence|by apply (bs_len s2 v2 _ ∅ _ Hr2); [congruence|]].
    apply (tree_bytes_ext _ _ _ _ _ _ _ _ (2 ^ 32)); [lia|lia|]. apply Hg12. }
  eexists _, s3, v2, ip1. split_and!; [|done|done|by right]. apply on_store_run.
  rewrite (bind_Ret _ _ _ _ _ H2), (bind_Ret _ _ _ _ _ Hd), (bind_Ret _ _ _ _ _ H3), Hsl. unfold u32. rewrite !Z.mod_small by lia. done.
Qed.

Lemma read_rounds_run fuel s v ip off tot acc size :
  bs_rel s v [] ∅ → file_ok v ip → 0 ≤ tot ≤ size → 0 ≤ off → off + (size - tot) < 2 ^ 32 → size < 2 ^ 32 →
  (if decide (size - tot = 0) then 0 else rounds off (size - tot)) < Z.of_nat fuel →
  ∃ n s' v' ip', loop fuel (read_round size) (off, tot, acc) (mk_estate s ip) = Ret (tot + n, acc ++ file_bytes v ip off n, mk_estate s' ip') ∧
    bs_rel s' v' [] ∅ ∧ grows v ip v' ip' ∧ 0 ≤ n ≤ size - tot ∧ (n < size - tot → full v' ∧ slot v' ip' (pos_of ((off + n) / BSIZE)) = 0).
Proof.
  revert s v ip off tot acc. induction fuel as [|fuel IH]; intros s v ip off tot acc Hr Hf Ht Ho Hs Hsz Hfuel.
  { exfalso. case_decide; [lia|]. pose proof (rounds_pos off (size - tot)). lia. }
  rewrite loop_S. destruct (decide (size - tot = 0)) as [Heq|Hne].
  { assert (Hdone : read_round size (off, tot, acc) (mk_estate s ip) = Ret (inr (tot, acc), mk_estate s ip)) by (unfold read_round; by rewrite decide_True by lia).
    rewrite (bind_Ret _ _ _ _ _ Hdone). exists 0, s, v, ip. unfold tree_bytes. rewrite Z.add_0_r, app_nil_r.
    split_and!; [done|done|by apply grows_refl|lia|lia|lia]. }
  destruct (read_round_run s v ip off tot acc size) as (r & s1 & v1 & ip1 & H1 & Hr1 & Hg1 & [(-> & Hfull)| ->]); [done|done|lia|done|done|done|..];
    rewrite (bind_Ret _ _ _ _ _ H1).
  { exists 0, s1, v1, ip1. unfold tree_bytes. rewrite !Z.add_0_r, app_nil_r. split_and!; [done|done|done|lia|lia|done]. }
  destruct (chunk_range off (size - tot)) as [Hm Hmb]; [lia..|]. pose proof (chunk_fuel off (size - tot) fuel Ho ltac:(lia) Hfuel) as Hf'.
  set (m := chunk off (size - tot)) in *. cbv zeta.
  destruct (IH s1 v1 ip1 (off + m) (tot + m) (acc ++ file_bytes v ip off m) Hr1 (gr_ok _ _ _ _ Hg1)) as (n & s4 & v4 & ip4 & H4 & Hr4 & Hg4 & Hn & Hfull);
    [lia|lia|lia|done|by replace (size - (tot + m)) with (size - tot - m) by lia|].
  exists (m + n), s4, v4, ip4. split_and!; [|done|by eapply grows_trans|lia|lia|].
  2:{ intros Hlt. rewrite Z.add_assoc. apply Hfull. lia. }
  rewrite H4, Z.add_assoc, <-app_assoc. rewrite (tree_bytes_app _ _ _ _ off m n) by lia. do 5 f_equal.
  apply (tree_bytes_ext _ _ _ _ _ _ _ _ (2 ^ 32)); [lia|lia|]. apply Hg1.
Qed.

Lemma read_inode_run s v ip off size :
  bs_rel s v [] ∅ → file_ok v ip → 0 ≤ off ≤ ei_size ip → ei_size ip < 2 ^ 32 → 0 ≤ size → off + size < 2 ^ 32 →
  ∃ n s' v' ip', easyfs_read_inode off size (mk_estate s ip) = Ret (i32 n, file_bytes v ip off n, mk_estate s' ip') ∧
    bs_rel s' v' [] ∅ ∧ grows v ip v' ip' ∧ 0 ≤ n ≤ Z.min size (ei_size ip - off) ∧
    (n < Z.min size (ei_size ip - off) → full v' ∧ slot v' ip' (pos_of ((off + n) / BSIZE)) = 0).
Proof.
  intros Hr Hf Ho Hsz Hs Hos. unfold easyfs_read_inode, gets. unfold mbind at 1, K_bind at 1. simpl.
  unfold u32. rewrite (Z.mod_small (off + size)) by lia. rewrite decide_False by lia. rewrite (Z.mod_small (ei_size ip - off)) by lia.
  set (sz := if decide _ then _ else _). assert (Hmin : sz = Z.min size (ei_size ip - off)) by (unfold sz; case_decide; lia).
  destruct (read_rounds_run (round_fuel sz) s v ip off 0 [] sz) as (n & s' & v' & ip' & H1 & Hr1 & Hg1 & Hn & Hfull); [done|done|lia|lia|lia|lia| |].
  { pose proof (round_fuel_enough off (sz - 0)). case_decide; [unfold round_fuel; lia|]. replace sz with (sz - 0) at 2 by lia. lia. }
  rewrite (bind_Ret _ _ _ _ _ H1). exists n, s', v', ip'. rewrite Z.sub_0_r in Hn, Hfull. rewrite <-Hmin. split_and!; done || lia.
Qed.

(** ** Writing *)

(** A view that agrees on the indirect blocks has the same tree. *)
Lemma slot_same v ip v' ip' :
  ei_blocks ip' = ei_blocks ip →
  (∀ q, pvalid q → is_data q = false → slot v ip q ≠ 0 → v' (slot v ip q) = v (slot v ip q)) → ∀ p, pvalid p → slot v' ip' p = slot v ip p.
Proof.
  intros Hb Hv p Hp. assert (Hblk : ∀ i, blk ip' i = blk ip i) by (intros i; unfold blk; by rewrite Hb).
  rewrite (slot_upd v ip v' ip' (Pdir 0) (blk ip 0)); [by case_decide; subst|..|done].
  - intros q Hq _. rewrite Hblk. by case_decide; subst.
  - intros q q' k Hq Hpar _ Hs. rewrite decide_False by (by intros ->). rewrite Hv; [done| | |done].
    + by destruct (parent_valid NDIRECT NINDIRECT q q' k Hq Hpar).
    + by destruct q; simpl in Hpar; simplify_eq.
  - intros q k Hq Hpar. by destruct q.
  - done.
Qed.

Lemma overwrite v ip bn d :
  file_ok v ip → 0 ≤ bn < MAXFILE → slot v ip (pos_of bn) ≠ 0 →
  changes (λ i b, if decide (i / BSIZE = bn) then byte_at d (i mod BSIZE) else b) v ip (<[slot v ip (pos_of bn) := d]> v) ip.
Proof.
  intros Hf Hbn Hs. destruct (pos_of_valid bn Hbn) as [Hpv Hd]. set (a := slot v ip (pos_of bn)) in *. set (v' := <[a := d]> v).
  assert (Hother : ∀ q, pvalid q → q ≠ pos_of bn → slot v ip q ≠ 0 → v' (slot v ip q) = v (slot v ip q)).
  { intros q Hq Hne Hsq. unfold v'. rewrite fn_lookup_insert_ne; [done|]. intros He. apply Hne. by apply (fo_inj _ _ Hf). }
  assert (Hslot : ∀ p, pvalid p → slot v' ip p = slot v ip p).
  { apply slot_same; [done|]. intros q Hq Hnd Hsq. apply Hother; [done| |done]. intros ->. congruence. }
  assert (Hu : ∀ n, in_use v' n ↔ in_use v n).
  { intros n. apply in_use_ext. unfold v'. rewrite fn_lookup_insert_ne; [done|]. by apply (use_block v ip (pos_of bn)). }
  assert (Hown : ∀ n, owns v' ip n ↔ owns v ip n).
  { intros n. split; intros [Hn (p & Hp & Hsp)]; (split; [done|]; exists p); split; rewrite ?Hslot in *; done. }
  split.
  - split; [apply Hf| |].
    + intros p Hp. rewrite Hslot by done. rewrite Hu. by apply Hf.
    + intros p q Hp Hq. rewrite !Hslot by done. by apply Hf.
  - done.
  - intros p Hp _. by apply Hslot.
  - intros i Hi. destruct (byte_block i Hi) as [Hb _]. destruct (pos_of_valid _ Hb) as [Hp _]. unfold tree_byte. rewrite Hslot by done.
    destruct (decide (i / BSIZE = bn)) as [->|Hne].
    + fold a. rewrite decide_False by done. unfold v'. by rewrite fn_lookup_insert.
    + case_decide; [done|]. rewrite Hother; [done|done| |done]. intros He. apply Hne. by apply pos_of_inj; [lia|lia|].
  - intros n. rewrite Hu, Hown. split; [by left|]. intros [?|?]; [done|by eapply owns_use].
  - intros n. rewrite Hown. by left.
  - intros n (Ho & _). unfold v'. rewrite fn_lookup_insert_ne; [done|]. intros <-. apply Ho. by apply slot_owns.
Qed.

Lemma write_round_run s v ip off tot src size :
  bs_rel s v [] ∅ → file_ok v ip → 0 ≤ tot < size → 0 ≤ off → off + (size - tot) < 2 ^ 32 → size < 2 ^ 32 →
  Z.of_nat (length src) = size → Forall byte_ok src →
  ∃ r s' v' ip', write_round src size (off, tot) (mk_estate s ip) = Ret (r, mk_estate s' ip') ∧ bs_rel s' v' [] ∅ ∧
    ((r = inr (off, tot) ∧ grows v ip v' ip' ∧ full v' ∧ slot v' ip' (pos_of (off / BSIZE)) = 0) ∨
     (let m := chunk off (size - tot) in r = inl (off + m, tot + m) ∧ changes (splat off (slice src tot m)) v ip v' ip' ∧
      ∀ i, off ≤ i < off + m → slot v' ip' (pos_of (i / BSIZE)) ≠ 0)).
Proof.
  intros Hr Hf Ht Ho Hs Hsz Hl Hby. unfold write_round. rewrite decide_False by lia.
  assert (Hoff : 0 ≤ off < 2 ^ 32) by lia. destruct (byte_block off Hoff) as [Hbn Hom].
  destruct (bmap_run s v ip (off / BSIZE) Hr Hf Hbn) as (a & s1 & v1 & ip1 & Hb & Hr1 & Hg1 & Hm).
  rewrite (bind_Ret _ _ _ _ _ Hb). destruct Hm as [(-> & Hfull & Hx0)|[Ha Hsl]].
  { rewrite decide_True by done. eexists _, s1, v1, ip1. split_and!; [done|done|by left]. }
  rewrite decide_False by done. destruct (pos_of_valid _ Hbn) as [Hpv _]. subst a. pose proof (gr_ok _ _ _ _ Hg1) as Hf1.
  destruct (read_grows s1 v1 [] ip1 _ Hr1 Hf1 Hpv Ha) as (h & s2 & v2 & H2 & Hr2 & Hv2 & Hg2 & Hq2); [apply not_elem_of_nil|simpl; lia|].
  destruct (data_run _ _ _ _ _ _ _ Hr2) as (Hd & _ & HU). rewrite <-Hq2 in Ha.
  pose proof (grows_trans _ _ _ _ _ _ Hg1 Hg2) as Hg12.
  assert (Hmin : min_u64 (size - tot) (BSIZE - off mod BSIZE) = chunk off (size - tot)) by (unfold min_u64, chunk; repeat case_decide; lia).
  destruct (chunk_range off (size - tot)) as [Hm Hmb]; [lia..|]. set (m := chunk off (size - tot)) in *.
  assert (Hlen : Z.of_nat (length (slice src tot m)) = m) by (apply slice_len; lia).
  assert (Hok : block_ok (v2 (slot v2 ip1 (pos_of (off / BSIZE))))) by (by apply (bs_len s2 v2 _ ∅ _ Hr2)).
  set (d := blit (v2 (slot v2 ip1 (pos_of (off / BSIZE)))) (off mod BSIZE) (slice src tot m)).
  assert (Hdok : block_ok d) by (apply blit_ok; [done|by apply slice_bytes|lia|lia]).
  destruct (bs_set_ok _ _ _ _ _ _ _ d Hr2 Hdok) as (s3 & H3 & Hr3). destruct (bs_write_ok _ _ _ _ _ _ _ Hr3) as (s4 & H4 & Hr4).
  destruct (release_clean _ _ _ _ _ Hr4) as (s5 & H5 & Hr5).
  pose proof (overwrite v2 ip1 (off / BSIZE) d (gr_ok _ _ _ _ Hg12) Hbn Ha) as Hov.
  eexists _, s5, _, ip1. split_and!; [|exact Hr5|right; split_and!; [done| |]].
  - apply on_store_run. rewrite (bind_Ret _ _ _ _ _ H2), (bind_Ret _ _ _ _ _ Hd). cbv zeta. rewrite Hmin. fold d.
    rewrite (bind_Ret _ _ _ _ _ H3), (bind_Ret _ _ _ _ _ H4), (bind_Ret _ _ _ _ _ H5). unfold u32. by rewrite !Z.mod_small by lia.
  - eapply changes_ext; [eapply changes_trans; [exact Hg12|exact Hov]|].
    intros i Hi. cbn beta. apply blit_splat; [done|lia|lia|lia|]. intros He. rewrite <-(gr_byte _ _ _ _ Hg12 i Hi). unfold tree_byte. by rewrite He, decide_False.
  - intros i Hi. destruct (same_block off (i - off)) as [Hd1 _]; [lia..|]. replace (off + (i - off)) with i in Hd1 by lia.
    rewrite Hd1, (gr_slot _ _ _ _ Hov); done.
Qed.

Lemma write_rounds_run fuel s v ip off tot src size :
  bs_rel s v [] ∅ → file_ok v ip → 0 ≤ tot ≤ size → 0 ≤ off → off + (size - tot) < 2 ^ 32 → size < 2 ^ 32 →
  Z.of_nat (length src) = size → Forall byte_ok src →
  (if decide (size - tot = 0) then 0 else rounds off (size - tot)) < Z.of_nat fuel →
  ∃ n s' v' ip', loop fuel (write_round src size) (off, tot) (mk_estate s ip) = Ret (off + n, tot + n, mk_estate s' ip') ∧
    bs_rel s' v' [] ∅ ∧ changes (splat off (slice src tot n)) v ip v' ip' ∧ 0 ≤ n ≤ size - tot ∧
    (n < size - tot → full v' ∧ slot v' ip' (pos_of ((off + n) / BSIZE)) = 0) ∧ ∀ i, off ≤ i < off + n → slot v' ip' (pos_of (i / BSIZE)) ≠ 0.
Proof.
  revert s v ip off tot. induction fuel as [|fuel IH]; intros s v ip off tot Hr Hf Ht Ho Hs Hsz Hl Hby Hfuel.
  { exfalso. case_decide; [lia|]. pose proof (rounds_pos off (size - tot)). lia. }
  assert (Hnil : ∀ v' ip', grows v ip v' ip' → changes (splat off (slice src tot 0)) v ip v' ip').
  { intros v' ip' Hg. eapply changes_ext; [exact Hg|]. intros i _. symmetry. apply (splat_nil off). }
  rewrite loop_S. destruct (decide (size - tot = 0)) as [Heq|Hne].
  { assert (Hdone : write_round src size (off, tot) (mk_estate s ip) = Ret (inr (off, tot), mk_estate s ip)) by (unfold write_round; by rewrite decide_True by lia).
    rewrite (bind_Ret _ _ _ _ _ Hdone). exists 0, s, v, ip. rewrite !Z.add_0_r. split_and!; [done|done|by apply Hnil, grows_refl|lia|lia|lia|lia]. }
  destruct (write_round_run s v ip off tot src size) as (r & s1 & v1 & ip1 & H1 & Hr1 & [(-> & Hg1 & Hfull)|(-> & Hg1 & Hsl)]); [done|done|lia|done..| |];
    rewrite (bind_Ret _ _ _ _ _ H1).
  { exists 0, s1, v1, ip1. rewrite !Z.add_0_r. split_and!; [done|done|by apply Hnil|lia|lia|done|lia]. }
  destruct (chunk_range off (size - tot)) as [Hm Hmb]; [lia..|]. pose proof (chunk_fuel off (size - tot) fuel Ho ltac:(lia) Hfuel) as Hf'.
  set (m := chunk off (size - tot)) in *.
  destruct (IH s1 v1 ip1 (off + m) (tot + m) Hr1 (gr_ok _ _ _ _ Hg1)) as (n & s4 & v4 & ip4 & H4 & Hr4 & Hg4 & Hn & Hfull & Hsl4);
    [lia|lia|lia|done|done|done|by replace (size - (tot + m)) with (size - tot - m) by lia|].
  exists (m + n), s4, v4, ip4. split_and!; [|done| |lia|lia|rewrite Z.add_assoc; intros; apply Hfull; lia|].
  - by rewrite H4, !Z.add_assoc.
  - eapply changes_ext; [eapply changes_trans; [exact Hg1|exact Hg4]|]. intros i _. cbn beta. rewrite slice_app, <-splat_app by lia.
    rewrite (slice_len src tot m) by lia. done.
  - intros i Hi'. destruct (decide (i < off + m)); [|apply Hsl4; lia]. assert (Hi32 : 0 ≤ i < 2 ^ 32) by lia.
    destruct (byte_block i Hi32) as [Hb _]. destruct (pos_of_valid _ Hb) as [Hp _].
    rewrite (gr_slot _ _ _ _ Hg4) by (done || apply Hsl; lia). apply Hsl. lia.
Qed.

(** ** The inode on the disk *)

(** The inodes of the inode area, whose fields fit the disk inode. *)
Record inode_ok (ip : einode) : Prop := {
  io_ino : 1 ≤ ei_ino ip < 64 * (DATA_BLOCK - INODE_BLOCK);
  io_type : 0 ≤ ei_type ip < 2 ^ 16;
  io_nlinks : 0 ≤ ei_nlinks ip < 2 ^ 16;
  io_size : 0 ≤ ei_size ip < 2 ^ 32
}.
Definition on_disk (v : Z → block) (ino : Z) : einode := get_disk_inode ino (inode_off ino) (v (inode_blkno ino)).

Lemma inode_place ino : 1 ≤ ino < 64 * (DATA_BLOCK - INODE_BLOCK) →
  INODE_BLOCK ≤ inode_blkno ino < DATA_BLOCK ∧ 0 ≤ inode_off ino ∧ inode_off ino + 64 ≤ BSIZE.
Proof. unfold inode_blkno, inode_off, DATA_BLOCK, INODE_BLOCK, BSIZE. intros. Z.to_euclidean_division_equations. lia. Qed.
Lemma inode_apart ino ino' : 0 ≤ ino → 0 ≤ ino' → ino ≠ ino' → inode_blkno ino = inode_blkno ino' →
  inode_off ino + 64 ≤ inode_off ino' ∨ inode_off ino' + 64 ≤ inode_off ino.
Proof. unfold inode_blkno, inode_off. intros. Z.to_euclidean_division_equations. lia. Qed.

Lemma put_words f o ks d :
  0 ≤ o → o + 4 * 12 ≤ BSIZE → Forall (λ k, 0 ≤ k < 12) ks → NoDup ks → block_ok d →
  let d' := foldl (λ d k, wr32 d (o + 4 * k) (f k)) d ks in
  block_ok d' ∧ (∀ i, 0 ≤ i → i < o ∨ o + 4 * 12 ≤ i → byte_at d' i = byte_at d i) ∧
  (∀ k, 0 ≤ k < 12 → (0 ≤ f k < 2 ^ 32) → rd32 d' (o + 4 * k) = if decide (k ∈ ks) then f k else rd32 d (o + 4 * k)).
Proof.
  intros Ho Hoe. revert d. induction ks as [|k ks IH]; intros d Hks Hnd Hd; cbn [foldl]; cbv zeta.
  { split_and!; [done|done|]. intros k _ _. by rewrite decide_False by apply not_elem_of_nil. }
  apply Forall_cons in Hks as [Hk Hks]. apply NoDup_cons in Hnd as [Hni Hnd].
  destruct (IH (wr32 d (o + 4 * k) (f k)) Hks Hnd) as (Hok & Hout & Hrd); [auto with frost|]. split_and!; [done| |].
  - intros i Hi Hr. rewrite Hout, byte_at_wr32, decide_False by (done || lia). done.
  - intros j Hj Hf. rewrite Hrd by done. destruct (decide (j ∈ ks)) as [Hin|Hin].
    + rewrite decide_True; [done|]. by right.
    + destruct (decide (j = k)) as [->|Hne].
      * rewrite decide_True by (by left). apply rd32_wr32; (done || lia).
      * rewrite decide_False by (rewrite elem_of_cons; tauto). apply rd32_wr32_ne; (done || lia).
Qed.

Lemma put_disk_inode_run ip o d :
  0 ≤ o → o + 64 ≤ BSIZE → block_ok d →
  block_ok (put_disk_inode ip o d) ∧ (∀ i, 0 ≤ i → i < o ∨ o + 56 ≤ i → byte_at (put_disk_inode ip o d) i = byte_at d i) ∧
  (inode_ok ip → length (ei_blocks ip) = 12%nat → Forall (λ a, 0 ≤ a < 2 ^ 32) (ei_blocks ip) →
   get_disk_inode (ei_ino ip) o (put_disk_inode ip o d) = ip).
Proof.
  intros Ho Hoe Hd. unfold put_disk_inode. set (d1 := wr16 d o _). set (d2 := wr16 d1 (o + 2) _). set (d3 := wr32 d2 (o + 4) _).
  assert (H1 : block_ok d1) by (unfold d1; auto with frost). assert (H2 : block_ok d2) by (unfold d2; auto with frost).
  assert (H3 : block_ok d3) by (unfold d3; auto with frost).
  assert (Hb3 : ∀ i, 0 ≤ i → byte_at d3 i = if decide (o + 4 ≤ i < o + 8) then ei_size ip / 2 ^ (8 * (i - (o + 4))) mod 2 ^ 8 else
     if decide (o + 2 ≤ i < o + 4) then u16 (ei_nlinks ip) / 2 ^ (8 * (i - (o + 2))) mod 2 ^ 8 else
     if decide (o ≤ i < o + 2) then u16 (ei_type ip) / 2 ^ (8 * (i - o)) mod 2 ^ 8 else byte_at d i).
  { intros i Hi. unfold d3. rewrite byte_at_wr32 by (done || lia). replace (o + 4 + 4) with (o + 8) by lia. case_decide; [done|].
    unfold d2. rewrite byte_at_wr16 by (done || lia). replace (o + 2 + 2) with (o + 4) by lia. case_decide; [done|].
    unfold d1. by rewrite byte_at_wr16 by (done || lia). }
  assert (HF : Forall (λ k, 0 ≤ k < 12) (seqZ 0 12)) by (apply Forall_forall; intros k ?%elem_of_seqZ; lia).
  destruct (put_words (blk ip) (o + 8) (seqZ 0 12) d3) as (Hok & Hout & Hrd); [lia|unfold BSIZE in *; lia|done|apply NoDup_seqZ|done|].
  split_and!; [done| |].
  - intros i Hi Hr. rewrite Hout, Hb3 by lia. by rewrite !decide_False by lia.
  - intros Hip Hl Hbl. set (d4 := foldl _ d3 _) in *. destruct ip as [ino ty nl sz bl]. unfold get_disk_inode. f_equal.
    + rewrite (rd16_bytes d4 d1). { unfold d1. rewrite rd16_wr16; [|done|lia|lia|by apply Z.mod_pos_bound]. apply Z.mod_small, (io_type _ Hip). }
      intros i Hi. rewrite Hout, Hb3 by lia. unfold d1. rewrite byte_at_wr16 by (done || lia). by rewrite !decide_False, !decide_True by lia.
    + rewrite (rd16_bytes d4 d2). { unfold d2. rewrite rd16_wr16; [|done|lia|lia|by apply Z.mod_pos_bound]. apply Z.mod_small, (io_nlinks _ Hip). }
      intros i Hi. rewrite Hout, Hb3 by lia. unfold d2. rewrite byte_at_wr16 by (done || lia).
      by rewrite decide_False, !decide_True by lia.
    + rewrite (rd32_bytes d4 d3). { unfold d3. rewrite rd32_wr32; [done|done|lia|lia|apply (io_size _ Hip)]. }
      intros i Hi. by rewrite Hout by lia.
    + unfold disk_blocks. simpl in Hl, Hbl. apply (list_eq_same_length _ _ 12); [done|by rewrite length_fmap, length_seqZ|].
      intros i x y Hi Hx Hy. rewrite list_lookup_fmap, lookup_seqZ_lt in Hx by lia. simpl in Hx. injection Hx as <-.
      rewrite Forall_lookup in Hbl. assert (Hbi : blk (mk_einode ino ty nl sz bl) (Z.of_nat i) = y) by (unfold blk; simpl; by rewrite Nat2Z.id, Hy).
      rewrite Z.add_0_l, Hrd, Hbi; [|lia|rewrite Hbi; by apply (Hbl i)]. rewrite decide_True; [done|]. apply elem_of_seqZ. lia.
Qed.

(** ** What changes outside the data area leaves alone *)

Lemma outside_data v ip v' ip' :
  file_ok v ip → ei_blocks ip' = ei_blocks ip → (∀ n, DATA_BLOCK ≤ n < TOTAL_BLOCKS ∨ n = DABLK_BMIP → v' n = v n) →
  file_ok v' ip' ∧ (∀ n, in_use v' n ↔ in_use v n) ∧ (∀ n, owns v' ip' n ↔ owns v ip n) ∧
  (∀ i, 0 ≤ i < 2 ^ 32 → file_byte v' ip' i = file_byte v ip i) ∧ (∀ p, pvalid p → slot v' ip' p = slot v ip p).
Proof.
  intros Hf Hb Hv. assert (Hu : ∀ n, in_use v' n ↔ in_use v n) by (intros n; apply in_use_ext, Hv; by right).
  assert (Hvs : ∀ q, pvalid q → slot v ip q ≠ 0 → v' (slot v ip q) = v (slot v ip q)).
  { intros q Hq Hs. apply Hv. left. apply (in_use_range v), (fo_use _ _ Hf); done. }
  assert (Hslot : ∀ p, pvalid p → slot v' ip' p = slot v ip p) by (apply slot_same; auto).
  split_and!; [|done| | |].
  - split; [rewrite Hb; apply Hf| |].
    + intros p Hp. rewrite Hslot by done. rewrite Hu. by apply Hf.
    + intros p q Hp Hq. rewrite !Hslot by done. by apply Hf.
  - intros n. split; intros [Hn (p & Hp & Hsp)]; (split; [done|]; exists p); split; rewrite ?Hslot in *; done.
  - intros i Hi. destruct (byte_block i Hi) as [Hbn _]. destruct (pos_of_valid _ Hbn) as [Hp _]. unfold tree_byte. rewrite Hslot by done.
    case_decide; [done|]. by rewrite Hvs.
  - done.
Qed.

Lemma file_blocks_range v ip : file_ok v ip → Forall (λ a, 0 ≤ a < 2 ^ 32) (ei_blocks ip).
Proof.
  intros Hf. pose proof (fo_len _ _ Hf) as Hl.
  assert (Hp : ∀ p, pvalid p → 0 ≤ slot v ip p < 2 ^ 32).
  { intros p Hp. destruct (decide (slot v ip p = 0)) as [->|Hs]; [done|].
    pose proof (in_use_range _ _ (fo_use _ _ Hf p Hp Hs)). unfold DATA_BLOCK, TOTAL_BLOCKS in *. lia. }
  apply Forall_lookup. intros i x Hx. pose proof (lookup_lt_Some _ _ _ Hx).
  assert (Hb : blk ip (Z.of_nat i) = x) by (unfold blk; by rewrite Nat2Z.id, Hx). rewrite <-Hb.
  destruct (decide (i = 10%nat)) as [->|]; [apply (Hp Psind I)|]. destruct (decide (i = 11%nat)) as [->|]; [apply (Hp Pdind I)|].
  apply (Hp (Pdir (Z.of_nat i))). simpl. unfold NDIRECT. lia.
Qed.

(** What iupdate does to the disk. *)
Record updated (ip : einode) (v v' : Z → block) : Prop := {
  up_inode : length (ei_blocks ip) = 12%nat → Forall (λ a, 0 ≤ a < 2 ^ 32) (ei_blocks ip) → on_disk v' (ei_ino ip) = ip;
  up_block n : n ≠ inode_blkno (ei_ino ip) → v' n = v n;
  up_other ino : 0 ≤ ino → ino ≠ ei_ino ip → on_disk v' ino = on_disk v ino
}.

Lemma get_disk_inode_bytes ino o d d' : (∀ i, o ≤ i < o + 64 → byte_at d' i = byte_at d i) → get_disk_inode ino o d' = get_disk_inode ino o d.
Proof.
  intros Hb. unfold get_disk_inode. f_equal.
  - apply rd16_bytes. intros; apply Hb; lia.
  - apply rd16_bytes. intros; apply Hb; lia.
  - apply rd32_bytes. intros; apply Hb; lia.
  - unfold disk_blocks. apply list_fmap_ext. intros k x [-> Hk]%lookup_seqZ. apply rd32_bytes. intros; apply Hb; lia.
Qed.

Lemma iupdate_run s v ip :
  bs_rel s v [] ∅ → inode_ok ip → ∃ s' v', iupdate (mk_estate s ip) = Ret (tt, mk_estate s' ip) ∧ bs_rel s' v' [] ∅ ∧ updated ip v v'.
Proof.
  intros Hr Hi. destruct (inode_place _ (io_ino _ Hi)) as (Hblk & Ho & Hoe). unfold iupdate, gets. unfold mbind at 1, K_bind at 1. simpl.
  assert (Hn0 : inode_blkno (ei_ino ip) ≠ 0) by (unfold INODE_BLOCK in Hblk; lia).
  assert (Hok : block_ok (v (inode_blkno (ei_ino ip)))) by (apply (bs_len s v _ ∅ _ Hr); [done|apply not_elem_of_empty]).
  destruct (put_disk_inode_run ip _ _ Ho Hoe Hok) as (Hpok & Hpout & Hget).
  destruct (rmw_run s v [] ∅ (inode_blkno (ei_ino ip)) (put_disk_inode ip (inode_off (ei_ino ip))) Hr) as (s' & v' & U' & H1 & Hr' & HU & Hv & Hsame);
    [done|apply not_elem_of_empty|apply not_elem_of_nil|simpl; lia|done|].
  assert (U' = ∅) as -> by set_solver. exists s', v'. split_and!; [by apply on_store_run|done|]. split.
  - intros Hl Hbl. unfold on_disk. rewrite Hv. auto.
  - intros n Hn. apply Hsame; [apply not_elem_of_empty|done].
  - intros ino Hino Hne. unfold on_disk. destruct (decide (inode_blkno ino = inode_blkno (ei_ino ip))) as [He|He].
    + rewrite He, Hv. apply get_disk_inode_bytes. intros i Hib. pose proof (io_ino _ Hi).
      assert (0 ≤ inode_off ino) by (unfold inode_off; Z.to_euclidean_division_equations; lia).
      destruct (inode_apart ino (ei_ino ip)); try done; [lia|apply Hpout; lia..].
    + rewrite Hsame; [done|apply not_elem_of_empty|done].
Qed.

(** What a write of [src] at [off] leaves when it wrote [n] bytes. *)
Record write_post (v : Z → block) (ip : einode) (off : Z) (src : list Z) (n : Z) (v' : Z → block) (ip' : einode) : Prop := {
  wp_ok : file_ok v' ip';
  wp_inode : inode_ok ip';
  wp_disk : on_disk v' (ei_ino ip') = ip';
  wp_meta : ei_ino ip' = ei_ino ip ∧ ei_type ip' = ei_type ip ∧ ei_nlinks ip' = ei_nlinks ip;
  wp_size : ei_size ip' = Z.max (ei_size ip) (off + n);
  wp_byte i : 0 ≤ i < 2 ^ 32 → file_byte v' ip' i = splat off (slice src 0 n) i (file_byte v ip i);
  wp_slot i : off ≤ i < off + n → slot v' ip' (pos_of (i / BSIZE)) ≠ 0;
  wp_keep p : pvalid p → slot v ip p ≠ 0 → slot v' ip' p = slot v ip p;
  wp_count : 0 ≤ n ≤ Z.of_nat (length src);
  wp_full : n < Z.of_nat (length src) → full v' ∧ slot v' ip' (pos_of ((off + n) / BSIZE)) = 0;
  wp_use k : in_use v' k ↔ in_use v k ∨ owns v' ip' k;
  wp_frame k : foreign v ip k → k ≠ inode_blkno (ei_ino ip) → v' k = v k;
  wp_other ino : 1 ≤ ino < 64 * (DATA_BLOCK - INODE_BLOCK) → ino ≠ ei_ino ip → on_disk v' ino = on_disk v ino
}.

Lemma inode_foreign v ip ino : file_ok v ip → 1 ≤ ino < 64 * (DATA_BLOCK - INODE_BLOCK) → foreign v ip (inode_blkno ino).
Proof.
  intros Hf Hi. destruct (inode_place _ Hi) as (Hb & _). split_and!.
  - intros Ho. pose proof (in_use_range _ _ (owns_use _ _ _ Hf Ho)). lia.
  - unfold INODE_BLOCK, DABLK_BMIP in *. lia.
  - lia.
Qed.

Lemma write_inode_run s v ip src off :
  bs_rel s v [] ∅ → file_ok v ip → inode_ok ip → Forall byte_ok src → 0 ≤ off → off + Z.of_nat (length src) < 2 ^ 32 →
  ∃ n s' v' ip', easyfs_write_inode src off (Z.of_nat (length src)) (mk_estate s ip) = Ret (i32 n, mk_estate s' ip') ∧
    bs_rel s' v' [] ∅ ∧ write_post v ip off src n v' ip'.
Proof.
  intros Hr Hf Hi Hby Ho Hl. set (size := Z.of_nat (length src)) in *. unfold easyfs_write_inode.
  unfold u32. rewrite Z.mod_small by lia. rewrite decide_False by lia. rewrite decide_False.
  2:{ unfold MAXFILE, NDINDIRECT, NDIRECT, NINDIRECT, BSIZE. change (4096 / 4) with 1024. lia. }
  destruct (write_rounds_run (round_fuel size) s v ip off 0 src size) as (n & s1 & v1 & ip1 & H1 & Hr1 & Hc & Hn & Hfull & Hsl); [done|done|lia|lia|lia|lia|done|done| |].
  { pose proof (round_fuel_enough off (size - 0)). case_decide; [unfold round_fuel; lia|]. replace size with (size - 0) at 2 by lia. lia. }
  rewrite (bind_Ret _ _ _ _ _ H1). rewrite !Z.add_0_l. rewrite Z.sub_0_r in Hn, Hfull. simpl. unfold gets. unfold mbind at 1, K_bind at 1. simpl.
  destruct (gr_meta _ _ _ _ Hc) as (Hm1 & Hm2 & Hm3 & Hm4).
  set (ip2 := if decide (off + n > ei_size ip1) then put_size (off + n) ip1 else ip1).
  assert (Hset : (if decide (off + n > ei_size ip1) then modify (set_inode (put_size (off + n) ip1)) else mret tt) (mk_estate s1 ip1) = Ret (tt, mk_estate s1 ip2)).
  { unfold ip2. by case_decide. }
  rewrite (bind_Ret _ _ _ _ _ Hset). assert (Hb2 : ei_blocks ip2 = ei_blocks ip1) by (unfold ip2; by case_decide).
  assert (Hmeta : ei_ino ip2 = ei_ino ip ∧ ei_type ip2 = ei_type ip ∧ ei_nlinks ip2 = ei_nlinks ip ∧ ei_size ip2 = Z.max (ei_size ip) (off + n)).
  { unfold ip2. case_decide; simpl; split_and!; (done || lia). }
  destruct Hmeta as (Hi1 & Hi2 & Hi3 & Hi4). destruct Hi as [Ha1 Ha2 Ha3 Ha4].
  assert (Hio : inode_ok ip2) by (split; rewrite ?Hi1, ?Hi2, ?Hi3, ?Hi4; (done || lia)).
  destruct (iupdate_run s1 v1 ip2 Hr1 Hio) as (s2 & v2 & H2 & Hr2 & Hup). rewrite (bind_Ret _ _ _ _ _ H2).
  destruct (inode_place _ (io_ino _ Hio)) as (Hblk & _ & _). pose proof (gr_ok _ _ _ _ Hc) as Hf1.
  destruct (outside_data v1 ip1 v2 ip2 Hf1 Hb2) as (Hf2 & Hu2 & Ho2 & Hbyte2 & Hslot2).
  { intros k Hk. apply (up_block _ _ _ Hup). unfold INODE_BLOCK, DATA_BLOCK, DABLK_BMIP in *. lia. }
  exists n, s2, v2, ip2. split_and!; [done|done|]. split; try done.
  - apply (up_inode _ _ _ Hup); [apply Hf2|by apply (file_blocks_range v2)].
  - intros i Hib. rewrite Hbyte2 by done. by apply Hc.
  - intros i Hib. assert (Hi32 : 0 ≤ i < 2 ^ 32) by lia. destruct (byte_block i Hi32) as [Hb _]. destruct (pos_of_valid _ Hb) as [Hp _].
    rewrite Hslot2 by done. by apply Hsl.
  - intros p Hp Hs. rewrite Hslot2 by done. by apply Hc.
  - intros Hlt. destruct (Hfull Hlt) as [Hful Hz]. split; [intros k Hk; apply Hu2; by apply Hful|].
    assert (Hi32 : 0 ≤ off + n < 2 ^ 32) by lia. destruct (byte_block _ Hi32) as [Hb _]. destruct (pos_of_valid _ Hb) as [Hp _]. by rewrite Hslot2.
  - intros k. rewrite Hu2, Ho2. apply Hc.
  - intros k Hk Hne. rewrite (up_block _ _ _ Hup) by congruence. by apply Hc.
  - intros ino Hino Hne. rewrite (up_other _ _ _ Hup) by (lia || congruence). unfold on_disk. rewrite (gr_frame _ _ _ _ Hc); [done|]. by apply inode_foreign.
Qed.

(** ** Truncation *)

(** The positions below the first [i] entries of the indirect block [q]. *)
Definition under (q : pos) (i : Z) (p : pos) : bool :=
  match q, p with
  | Psind, Psent k => bool_decide (k < i)
  | Pdl j, Pdent j' k => bool_decide (j = j') && bool_decide (k < i)
  | Pdind, Pdl k | Pdind, Pdent k _ => bool_decide (k < i)
  | _, _ => false
  end.
Definition dead_or (dead : pos → bool) (q : pos) (i : Z) (p : pos) : bool := dead p || under q i p.
Definition dead_at (dead : pos → bool) (q p : pos) : bool := dead p || bool_decide (p = q).

(** The file [ip0] as it was, with the blocks at the [dead] positions freed. *)
Record trunc_inv (v0 : Z → block) (ip0 : einode) (dead : pos → bool) (v : Z → block) (ip : einode) : Prop := {
  ti_len : length (ei_blocks ip) = 12%nat;
  ti_meta : same_meta ip0 ip;
  ti_slot p : pvalid p → slot v ip p = if dead p then 0 else slot v0 ip0 p;
  ti_use n : in_use v n ↔ in_use v0 n ∧ ∀ p, pvalid p → dead p = true → slot v0 ip0 p ≠ n;
  ti_frame n : ¬ owns v0 ip0 n → n ≠ DABLK_BMIP → v n = v0 n
}.

Section trunc.
Context (v0 : Z → block) (ip0 : einode) (Hf0 : file_ok v0 ip0).

Lemma trunc_ok dead v ip : trunc_inv v0 ip0 dead v ip → file_ok v ip.
Proof.
  intros [Hl Hm Hs Hu Hfr]. split; [done| |].
  - intros p Hp. rewrite Hs by done. destruct (dead p) eqn:Ed; [done|]. intros Hn. apply Hu. split; [by apply Hf0|].
    intros q Hq Hd He. assert (q = p) as -> by (apply (fo_inj _ _ Hf0); [done|done|congruence|done]). congruence.
  - intros p q Hp Hq. rewrite !Hs by done. destruct (dead p), (dead q); try done. by apply Hf0.
Qed.

Lemma trunc_weaken dead dead' v ip :
  trunc_inv v0 ip0 dead v ip → (∀ p, pvalid p → dead p = true → dead' p = true) →
  (∀ p, pvalid p → dead' p = true → dead p = true ∨ slot v ip p = 0) → trunc_inv v0 ip0 dead' v ip.
Proof.
  intros [Hl Hm Hs Hu Hfr] H1 H2. assert (Hz : ∀ p, pvalid p → dead' p = true → dead p = false → slot v0 ip0 p = 0).
  { intros p Hp Hd' Hd. destruct (H2 p Hp Hd') as [?|Hsz]; [congruence|]. by rewrite Hs, Hd in Hsz. }
  split; try done.
  - intros p Hp. rewrite Hs by done. destruct (dead p) eqn:Ed; [by rewrite H1|]. destruct (dead' p) eqn:Ed'; [|done]. by apply Hz.
  - intros n. rewrite Hu. split.
    + intros [Hn Hd]. split; [done|]. intros p Hp Hd'. destruct (dead p) eqn:Ed; [by apply Hd|]. rewrite Hz by done.
      pose proof (in_use_range _ _ Hn). unfold DATA_BLOCK in *. lia.
    + intros [Hn Hd]. split; [done|]. auto.
Qed.

(** One more position dead. *)
Lemma trunc_step dead v ip v' ip' p0 :
  trunc_inv v0 ip0 dead v ip → pvalid p0 → slot v ip p0 ≠ 0 → length (ei_blocks ip') = 12%nat → same_meta ip ip' →
  (∀ p, pvalid p → slot v' ip' p = if decide (p = p0) then 0 else slot v ip p) →
  (∀ n, in_use v' n ↔ in_use v n ∧ n ≠ slot v ip p0) → (∀ n, ¬ owns v ip n → n ≠ DABLK_BMIP → v' n = v n) →
  trunc_inv v0 ip0 (dead_at dead p0) v' ip'.
Proof.
  intros [Hl Hm Hs Hu Hfr] Hp0 Hnz Hl' Hm' Hs' Hu' Hfr'. unfold dead_at.
  assert (Hd0 : dead p0 = false) by (rewrite Hs in Hnz by done; by destruct (dead p0)).
  assert (Ha : slot v ip p0 = slot v0 ip0 p0) by (by rewrite Hs, Hd0). split; [done| | | |].
  - destruct Hm as (?&?&?&?), Hm' as (?&?&?&?). split_and!; congruence.
  - intros p Hp. rewrite Hs' by done. destruct (decide (p = p0)) as [->|Hne]; [by rewrite bool_decide_eq_true_2, orb_true_r|].
    rewrite bool_decide_eq_false_2, orb_false_r by done. by apply Hs.
  - intros n. rewrite Hu', Hu, Ha. split.
    + intros [[Hn Hd] Hne]. split; [done|]. intros p Hp [Hdp| ->%bool_decide_eq_true]%orb_true_iff; [by apply Hd|congruence].
    + intros [Hn Hd]. split_and!; [done| |].
      * intros p Hp Hdp. apply Hd; [done|]. by rewrite Hdp.
      * intros ->. apply (Hd p0 Hp0); [|done]. by rewrite bool_decide_eq_true_2, orb_true_r.
  - intros n Ho H3. rewrite Hfr'; [by apply Hfr| |done]. intros [Hn (p & Hp & He)]. apply Ho. split; [done|]. exists p. split; [done|].
    rewrite Hs in He by done. by destruct (dead p); subst.
Qed.

(** A block freed and its entry in an indirect block cleared. *)
Lemma child_detach v ip v1 p0 q k :
  file_ok v ip → pvalid p0 → parent p0 = Some (q, k) → slot v ip q ≠ 0 → slot v ip p0 ≠ 0 → block_ok (v (slot v ip q)) →
  (∀ p j, pvalid p → parent p = Some (p0, j) → slot v ip p = 0) →
  (∀ n, n ≠ slot v ip p0 → n ≠ DABLK_BMIP → v1 n = v n) →
  ∀ p, pvalid p → slot (<[slot v ip q := wr32 (v1 (slot v ip q)) (4 * k) 0]> v1) ip p = if decide (p = p0) then 0 else slot v ip p.
Proof.
  intros Hf Hp0 Hpar Hq Ha Hok Hch Hv1. set (b := slot v ip q) in *. destruct (parent_valid NDIRECT NINDIRECT p0 q k Hp0 Hpar) as (Hqv & Hk & Hpq).
  pose proof (entry_range k Hk) as [Hk4 Hk5].
  assert (Hvq : ∀ q', pvalid q' → q' ≠ p0 → slot v ip q' ≠ 0 → v1 (slot v ip q') = v (slot v ip q')).
  { intros q' Hq' Hne Hs. apply Hv1; [|by apply (use_block v ip)]. intros He. apply Hne. by apply (fo_inj _ _ Hf). }
  assert (Hb1 : v1 b = v b) by (by apply Hvq). apply slot_upd.
  - intros p Hp Hn. rewrite decide_False; [done|]. intros ->. congruence.
  - intros p q' k' Hp Hpar' Hqp Hq'. destruct (parent_valid NDIRECT NINDIRECT p q' k' Hp Hpar') as (Hqv' & Hk' & _). pose proof (entry_range k' Hk') as [Hk4' Hk5'].
    destruct (decide (q' = q)) as [->|Hne].
    + fold b. rewrite fn_lookup_insert. case_decide as Hd.
      * subst p. assert (k' = k) as -> by congruence. apply rd32_wr32; try done. by rewrite Hb1.
      * rewrite rd32_wr32_ne, Hb1; try done; [by rewrite Hb1|]. assert (k ≠ k'); [|lia]. intros ->. apply Hd. by eapply parent_inj.
    + rewrite fn_lookup_insert_ne by (intros He; apply Hne; by apply (fo_inj _ _ Hf)). rewrite Hvq by done.
      rewrite decide_False; [done|]. intros ->. congruence.
  - intros p j Hp Hj. split; [by eapply Hch|done].
  - intros q' k'. rewrite Hpar. by intros [= <- <-].
Qed.
Lemma root_detach v ip v1 p0 :
  file_ok v ip → pvalid p0 → parent p0 = None → slot v ip p0 ≠ 0 → (∀ p j, pvalid p → parent p = Some (p0, j) → slot v ip p = 0) →
  (∀ n, n ≠ slot v ip p0 → n ≠ DABLK_BMIP → v1 n = v n) →
  ∀ p, pvalid p → slot v1 (put_blk (root p0) 0 ip) p = if decide (p = p0) then 0 else slot v ip p.
Proof.
  intros Hf Hp0 Hpar Ha Hch Hv1. apply slot_upd.
  - intros p Hp Hn. pose proof (root_range p Hp Hn). rewrite blk_put; [|apply Hf|by apply root_range|lia].
    destruct (decide (p = p0)) as [->|Hne]; [by rewrite decide_True|]. rewrite decide_False; [done|]. intros He. apply Hne. by apply root_inj.
  - intros p q k Hp Hq Hqp Hs. rewrite Hv1.
    + rewrite decide_False; [done|]. intros ->. congruence.
    + intros He. apply Hqp. apply (fo_inj _ _ Hf); [by destruct (parent_valid NDIRECT NINDIRECT p q k Hp Hq)|done|done|done].
    + apply (use_block v ip); [done|by destruct (parent_valid NDIRECT NINDIRECT p q k Hp Hq)|done].
  - intros p j Hp Hj. split; [by eapply Hch|done].
  - intros q k. by rewrite Hpar.
Qed.

Lemma bfree_clean s v hs U n :
  bs_rel s v hs U → U ⊆ {[n]} → (length hs < 7)%nat → (∀ m, m ∈ hs.*1.*2 → m ≠ DABLK_BMIP ∧ m ≠ n) → in_use v n →
  ∃ s' v', bfree n s = Ret (tt, s') ∧ bs_rel s' v' hs ∅ ∧ (∀ m, in_use v' m ↔ in_use v m ∧ m ≠ n) ∧ (∀ m, m ≠ n → m ≠ DABLK_BMIP → v' m = v m).
Proof.
  intros Hr HU Hl Hh Hn. pose proof (in_use_range _ _ Hn) as Hnr.
  assert (Hn3 : DABLK_BMIP ≠ n) by (unfold DATA_BLOCK, DABLK_BMIP in *; lia).
  destruct (bfree_run s v hs U n Hr Hl) as (s' & v' & U' & Hb & Hr' & HU' & _ & Hu & Hv).
  - intros Hin. by destruct (Hh _ Hin).
  - intros Hin. by destruct (Hh _ Hin).
  - set_solver.
  - done.
  - assert (U' = ∅) as -> by set_solver. exists s', v'. split_and!; [done|done|done|]. intros m Hm H3. apply Hv; [set_solver|tauto].
Qed.

(** Below the [k]-th entry is the entry and what is below it. *)
Lemma under_next q k p : is_data q = false → pvalid p →
  under q (k + 1) p = under q k p || bool_decide (p = child q k) || under (child q k) NINDIRECT p.
Proof.
  intros Hq Hp. destruct q as [| |i| |i|i j], p as [i'| |i'| |i'|i' j']; try done; simpl in *.
  - destruct (decide (i' = k)) as [->|]; repeat case_bool_decide; simplify_eq/=; done || lia.
  - destruct (decide (i' = k)) as [->|]; repeat case_bool_decide; simplify_eq/=; done || lia.
  - destruct (decide (i' = k)) as [->|]; repeat case_bool_decide; simplify_eq/=; done || lia.
  - destruct (decide (i = i')) as [->|], (decide (j' = k)) as [->|]; repeat case_bool_decide; simplify_eq/=; done || lia.
Qed.
Lemma under_zero q p : pvalid p → under q 0 p = false.
Proof.
  intros Hp. destruct q, p; simpl in *; try done; rewrite ?andb_false_iff, ?bool_decide_eq_false; lia || (right; lia).
Qed.
(** Below an empty position there is nothing. *)
Lemma under_empty v ip q i p : pvalid p → slot v ip q = 0 → under q i p = true → slot v ip p = 0.
Proof.
  assert (He : ∀ j, entry v 0 j = 0) by done.
  intros Hp Hz Hu. destruct q as [| |a| |a|a b], p as [i'| |i'| |i'|i' j']; try done; simpl in *; try (by rewrite Hz, ?He).
  apply andb_true_iff in Hu as [->%bool_decide_eq_true _]. by rewrite Hz.
Qed.
Lemma under_self q i : under q i q = false.
Proof. by destruct q. Qed.
Lemma under_child q k i : under (child q k) i q = false.
Proof. by destruct q. Qed.

(** The held buffers are none of the blocks below [q]. *)
Definition apart (q : pos) (hs : list (Z * Z * bool)) : Prop :=
  (length hs < 6)%nat ∧ ∀ n, n ∈ hs.*1.*2 → n ≠ DABLK_BMIP ∧ ∀ k, 0 ≤ k < NINDIRECT → slot v0 ip0 (child q k) ≠ n.

(** What freeing what is below the entry [k] promises to free_entries. *)
Definition frees_below (ip : einode) (q : pos) (pre : Z → K B unit) (dead : pos → bool) (hs : list (Z * Z * bool)) (k : Z) : Prop :=
  ∀ s v, bs_rel s v hs ∅ → trunc_inv v0 ip0 (dead_or dead q k) v ip → slot v ip (child q k) ≠ 0 →
    ∃ s' v' U', pre (slot v ip (child q k)) s = Ret (tt, s') ∧ bs_rel s' v' hs U' ∧ U' ⊆ {[slot v ip (child q k)]} ∧
      trunc_inv v0 ip0 (dead_or (dead_or dead q k) (child q k) NINDIRECT) v' ip.

Lemma free_entry_run ip q pre h m hs dead k s v :
  pvalid q → is_data q = false → slot v0 ip0 q ≠ 0 → dead q = false → apart q hs → 0 ≤ k < NINDIRECT →
  frees_below ip q pre dead ((h, slot v0 ip0 q, m) :: hs) k →
  bs_rel s v ((h, slot v0 ip0 q, m) :: hs) ∅ → trunc_inv v0 ip0 (dead_or dead q k) v ip → slot v ip (child q k) ≠ 0 →
  ∃ s' v', (pre (slot v ip (child q k)) ;; (d ← bs_data h; bfree (rd32 d (4 * k))) ;; d ← bs_data h; bs_set h (wr32 d (4 * k) 0)) s = Ret (tt, s') ∧
    bs_rel s' v' ((h, slot v0 ip0 q, true) :: hs) ∅ ∧ trunc_inv v0 ip0 (dead_or dead q (k + 1)) v' ip.
Proof.
  intros Hq Hqi Hq0 Hdq [Hl Hap] Hk Hpre Hr HT Hs. set (c := child q k) in *. set (b := slot v0 ip0 q) in *.
  assert (Hc : pvalid c) by (by apply child_valid). assert (Hpar : parent c = Some (q, k)) by (by apply child_parent).
  assert (Hdc : dead_or dead q k c = false) by (rewrite (ti_slot _ _ _ _ _ HT) in Hs by done; by destruct (dead_or dead q k c)).
  destruct (Hpre s v Hr HT Hs) as (s1 & v1 & U1 & H1 & Hr1 & HU1 & HT1). fold c in HT1. rewrite (bind_Ret _ _ _ _ _ H1).
  pose proof (trunc_ok _ _ _ HT1) as Hf1.
  assert (Hdc1 : dead_or (dead_or dead q k) c NINDIRECT c = false) by (unfold dead_or at 1; by rewrite Hdc, under_self).
  assert (Hsc : slot v1 ip c = slot v ip c) by (rewrite (ti_slot _ _ _ _ _ HT1), (ti_slot _ _ _ _ _ HT) by done; by rewrite Hdc, Hdc1).
  assert (Hsq : slot v1 ip q = b) by (rewrite (ti_slot _ _ _ _ _ HT1) by done; unfold dead_or, c; by rewrite Hdq, under_self, under_child).
  assert (Hc0 : slot v1 ip c = slot v0 ip0 c) by (rewrite Hsc, (ti_slot _ _ _ _ _ HT) by done; by rewrite Hdc).
  destruct (data_run _ _ _ _ _ _ _ Hr1) as (Hd1 & _ & HbU).
  assert (Hrd : rd32 (v1 b) (4 * k) = slot v1 ip c) by (rewrite <-Hsq; symmetry; apply slot_child; [done|by rewrite Hsq]).
  assert (Hcn : slot v1 ip c ≠ 0) by congruence.
  destruct (bfree_clean s1 v1 _ U1 (slot v1 ip c) Hr1) as (s2 & v2 & H2 & Hr2 & Hu2 & Hv2).
  - by rewrite Hsc.
  - simpl. lia.
  - simpl. intros n [->|Hn]%elem_of_cons; [split|].
    + rewrite <-Hsq. apply (use_block v1 ip); [done|done|by rewrite Hsq].
    + intros He. rewrite <-Hsq in He. assert (q = c) as Hqc by (apply (fo_inj _ _ Hf1); [done|done|by rewrite Hsq|done]).
      by destruct (parent_valid NDIRECT NINDIRECT c q k Hc Hpar) as (_ & _ & []).
    + destruct (Hap n Hn) as [H3 Hne]. split; [done|]. rewrite Hc0. intros ->. by apply (Hne k).
  - by apply (fo_use _ _ Hf1).
  - assert (Hbf : (d ← bs_data h; bfree (rd32 d (4 * k))) s1 = Ret (tt, s2)) by (by rewrite (bind_Ret _ _ _ _ _ Hd1), Hrd).
    rewrite (bind_Ret _ _ _ _ _ Hbf). destruct (data_run _ _ _ _ _ _ _ Hr2) as (Hd2 & _ & _). rewrite (bind_Ret _ _ _ _ _ Hd2).
    assert (Hok : block_ok (v2 b)) by (apply (bs_len s2 v2 _ ∅ _ Hr2); [done|apply not_elem_of_empty]).
    destruct (bs_set_ok _ _ _ _ _ _ _ (wr32 (v2 b) (4 * k) 0) Hr2) as (s3 & H3 & Hr3); [auto with frost|].
    exists s3, (<[b := wr32 (v2 b) (4 * k) 0]> v2). split_and!; [done|done|].
    assert (Hb3 : b ≠ DABLK_BMIP) by (rewrite <-Hsq; apply (use_block v1 ip); [done|done|by rewrite Hsq]).
    assert (Hok1 : block_ok (v1 b)) by (by apply (bs_len s1 v1 _ U1 _ Hr1)).
    assert (HT3 : trunc_inv v0 ip0 (dead_at (dead_or (dead_or dead q k) c NINDIRECT) c) (<[b := wr32 (v2 b) (4 * k) 0]> v2) ip).
    { apply (trunc_step _ v1 ip); [done|done|done|apply HT1|done| | |].
      - rewrite <-Hsq. apply child_detach; rewrite ?Hsq; try done. intros p j Hp Hj. rewrite (ti_slot _ _ _ _ _ HT1) by done.
        assert (under c NINDIRECT p = true) as Hun; [|unfold dead_or at 1; by rewrite Hun, orb_true_r].
        destruct (parent_valid NDIRECT NINDIRECT p c j Hp Hj) as (_ & Hjr & _).
        destruct p; simpl in Hj; try done; injection Hj as <- <-; simpl; rewrite ?bool_decide_eq_true_2 by (done || lia); done.
      - intros n. rewrite <-Hu2. apply in_use_ext. by rewrite fn_lookup_insert_ne.
      - intros n Hn H3'. rewrite fn_lookup_insert_ne. + apply Hv2; [|done]. intros ->. apply Hn. by apply slot_owns.
        + intros <-. apply Hn. rewrite <-Hsq. apply slot_owns; [done|by rewrite Hsq]. }
    assert (Heq : ∀ p, pvalid p → dead_or dead q (k + 1) p = dead_at (dead_or (dead_or dead q k) c NINDIRECT) c p).
    { intros p Hp. unfold dead_or, dead_at. rewrite under_next by done. fold c. rewrite <-!orb_assoc. do 2 f_equal. apply orb_comm. }
    eapply trunc_weaken; [exact HT3|..]; intros p Hp; rewrite Heq by done; auto.
Qed.

Lemma free_entries_run ip q pre h hs dead s v m :
  pvalid q → is_data q = false → slot v0 ip0 q ≠ 0 → dead q = false → apart q hs →
  (∀ k m, 0 ≤ k < NINDIRECT → frees_below ip q pre dead ((h, slot v0 ip0 q, m) :: hs) k) →
  bs_rel s v ((h, slot v0 ip0 q, m) :: hs) ∅ → trunc_inv v0 ip0 dead v ip →
  ∃ s' v' m', free_entries h pre s = Ret (tt, s') ∧ bs_rel s' v' ((h, slot v0 ip0 q, m') :: hs) ∅ ∧ trunc_inv v0 ip0 (dead_or dead q NINDIRECT) v' ip.
Proof.
  intros Hq Hqi Hq0 Hdq Hap Hpre Hr HT. set (b := slot v0 ip0 q) in *.
  destruct (forM_seq (λ k s, ∃ v m, bs_rel s v ((h, b, m) :: hs) ∅ ∧ trunc_inv v0 ip0 (dead_or dead q k) v ip)
    (λ i, d ← bs_data h; if decide (rd32 d (4 * i) ≠ 0) then
       pre (rd32 d (4 * i)) ;; (d ← bs_data h; bfree (rd32 d (4 * i))) ;; d ← bs_data h; bs_set h (wr32 d (4 * i) 0) else mret tt) 0 NINDIRECT s)
    as (s' & Hf & v' & m' & Hr' & HT'); [done| | |by exists s', v', m'].
  - clear s v m Hr HT. intros k s Hk (v & m & Hr & HT). rewrite Z.add_0_l in Hk. destruct (data_run _ _ _ _ _ _ _ Hr) as (Hd & _ & _). rewrite (bind_Ret _ _ _ _ _ Hd).
    assert (Hsq : slot v ip q = b) by (rewrite (ti_slot _ _ _ _ _ HT) by done; unfold dead_or; by rewrite Hdq, under_self).
    assert (Hrd : rd32 (v b) (4 * k) = slot v ip (child q k)).
    { rewrite <-Hsq. symmetry. apply slot_child; [by apply child_parent|by rewrite Hsq]. }
    rewrite Hrd. destruct (decide (slot v ip (child q k) ≠ 0)) as [Hs|Hs].
    + destruct (free_entry_run ip q pre h m hs dead k s v) as (s2 & v2 & H2 & Hr2 & HT2); try done; [by apply Hpre|].
      exists s2. split; [done|]. by exists v2, true.
    + apply dec_stable in Hs. exists s. split; [done|]. exists v, m. split; [done|]. eapply trunc_weaken; [exact HT|..]; intros p Hp; unfold dead_or.
      * rewrite under_next by done. intros [->| ->]%orb_true_iff; [done|by rewrite orb_true_r].
      * rewrite under_next by done. intros [->|Hu]%orb_true_iff; [by left|]. apply orb_true_iff in Hu as [[->| ->%bool_decide_eq_true]%orb_true_iff|Hu].
        -- left. by rewrite orb_true_r.
        -- by right.
        -- right. by eapply under_empty.
  - exists v, m. split; [done|]. eapply trunc_weaken; [exact HT|..]; intros p Hp; unfold dead_or; rewrite under_zero by done; rewrite orb_false_r; auto.
Qed.

Lemma trunc_same dead v v' ip : trunc_inv v0 ip0 dead v ip → (∀ n, v' n = v n) → trunc_inv v0 ip0 dead v' ip.
Proof.
  intros HT Hv. split; [apply HT|apply HT| | |].
  - intros p Hp. rewrite <-(ti_slot _ _ _ _ _ HT p Hp). destruct p; simpl; unfold entry; by rewrite ?Hv.
  - intros n. rewrite (in_use_ext v v' n (Hv _)). apply HT.
  - intros n. rewrite Hv. apply HT.
Qed.

(** An indirect block whose entries are data blocks. *)
Lemma free_single_run ip q hs dead s v :
  pvalid q → q = Psind ∨ (∃ i, q = Pdl i) → slot v0 ip0 q ≠ 0 → dead q = false → apart q hs → slot v0 ip0 q ∉ hs.*1.*2 →
  bs_rel s v hs ∅ → trunc_inv v0 ip0 dead v ip →
  ∃ s' v' U', free_single (slot v0 ip0 q) s = Ret (tt, s') ∧ bs_rel s' v' hs U' ∧ U' ⊆ {[slot v0 ip0 q]} ∧ trunc_inv v0 ip0 (dead_or dead q NINDIRECT) v' ip.
Proof.
  intros Hq Hqq Hq0 Hdq Hap Hnh Hr HT. unfold free_single. assert (Hqi : is_data q = false) by (by destruct Hqq as [->|[i ->]]).
  destruct (read_clean s v hs (slot v0 ip0 q) Hr Hq0 Hnh) as (h & s1 & v1 & H1 & Hr1 & Hv1); [destruct Hap; lia|]. rewrite (bind_Ret _ _ _ _ _ H1).
  pose proof (trunc_same dead v v1 ip HT Hv1) as HT1.
  destruct (free_entries_run ip q (λ _, mret tt) h hs dead s1 v1 false) as (s2 & v2 & m2 & H2 & Hr2 & HT2); try done.
  { intros k m Hk s3 v3 Hr3 HT3 Hs3. exists s3, v3, ∅. split_and!; [done|done|set_solver|].
    eapply trunc_weaken; [exact HT3|..]; intros p Hp;
      change (dead_or (dead_or dead q k) (child q k) NINDIRECT p) with (dead_or dead q k p || under (child q k) NINDIRECT p); [by intros ->|].
    intros [->|Hu]%orb_true_iff; [by left|]. by destruct Hqq as [->|[i ->]]. }
  rewrite (bind_Ret _ _ _ _ _ H2). destruct (bs_release_ok _ _ _ _ _ _ _ Hr2) as (s3 & H3 & Hr3).
  eexists s3, v2, _. split_and!; [done|exact Hr3|destruct m2; set_solver|done].
Qed.

Lemma free_double_run ip dead s v :
  slot v0 ip0 Pdind ≠ 0 → (∀ p, under Pdind NINDIRECT p = true ∨ p = Pdind → dead p = false) →
  bs_rel s v [] ∅ → trunc_inv v0 ip0 dead v ip →
  ∃ s' v' U', free_double (slot v0 ip0 Pdind) s = Ret (tt, s') ∧ bs_rel s' v' [] U' ∧ U' ⊆ {[slot v0 ip0 Pdind]} ∧
    trunc_inv v0 ip0 (dead_or dead Pdind NINDIRECT) v' ip.
Proof.
  intros Hq0 Hdead Hr HT. unfold free_double. set (b := slot v0 ip0 Pdind) in *.
  destruct (read_grows s v [] ip Pdind) as (h & s1 & v1 & H1 & Hr1 & Hv1 & Hg1 & Hq1); [done|by apply (trunc_ok dead)|done| |apply not_elem_of_nil|simpl; lia|].
  { rewrite (ti_slot _ _ _ _ _ HT), Hdead by (done || by right). done. }
  assert (Hsq : slot v ip Pdind = b) by (rewrite (ti_slot _ _ _ _ _ HT), Hdead by (done || by right); done).
  rewrite Hq1, Hsq in Hr1. rewrite Hsq in H1. rewrite (bind_Ret _ _ _ _ _ H1).
  pose proof (trunc_same dead v v1 ip HT Hv1) as HT1.
  assert (Hb3 : b ≠ DABLK_BMIP) by (by apply (use_block v0 ip0)).
  destruct (free_entries_run ip Pdind free_single h [] dead s1 v1 false) as (s2 & v2 & m2 & H2 & Hr2 & HT2); try done.
  { apply Hdead. by right. }
  { split; [simpl; lia|]. by intros n ?%elem_of_nil. }
  { intros k m Hk s3 v3 Hr3 HT3 Hs3. simpl child in *.
    assert (Hdk : dead_or dead Pdind k (Pdl k) = false) by (rewrite (ti_slot _ _ _ _ _ HT3) in Hs3 by done; by destruct (dead_or dead Pdind k (Pdl k))).
    assert (He : slot v3 ip (Pdl k) = slot v0 ip0 (Pdl k)) by (by rewrite (ti_slot _ _ _ _ _ HT3), Hdk).
    rewrite He in *. apply (free_single_run ip (Pdl k) _ _ s3 v3); try done; [by right; exists k| |].
    - split; [simpl; lia|]. intros n ->%list_elem_of_singleton. split; [done|]. intros j Hj He'.
      assert (Pdind = child (Pdl k) j) by (apply (fo_inj _ _ Hf0); [done|done|done|done]). done.
    - intros Hin%list_elem_of_singleton. assert (Pdl k = Pdind) by (apply (fo_inj _ _ Hf0); [done|done|done|done]). done. }
  rewrite (bind_Ret _ _ _ _ _ H2). destruct (bs_release_ok _ _ _ _ _ _ _ Hr2) as (s3 & H3 & Hr3).
  eexists s3, v2, _. split_and!; [done|exact Hr3|destruct m2; set_solver|done].
Qed.

Lemma trunc_slot_run p0 pre dead s v ip :
  pvalid p0 → parent p0 = None → dead p0 = false → bs_rel s v [] ∅ → trunc_inv v0 ip0 dead v ip →
  (slot v0 ip0 p0 ≠ 0 → ∃ s' v' U', pre (slot v0 ip0 p0) s = Ret (tt, s') ∧ bs_rel s' v' [] U' ∧ U' ⊆ {[slot v0 ip0 p0]} ∧
     trunc_inv v0 ip0 (dead_or dead p0 NINDIRECT) v' ip) →
  ∃ s' v' ip', trunc_slot (root p0) pre (mk_estate s ip) = Ret (tt, mk_estate s' ip') ∧ bs_rel s' v' [] ∅ ∧
    trunc_inv v0 ip0 (dead_at (dead_or dead p0 NINDIRECT) p0) v' ip'.
Proof.
  intros Hp Hpar Hd Hr HT Hpre. unfold trunc_slot, get_blk, gets. unfold mbind at 1, K_bind at 1. simpl.
  assert (Hs0 : slot v ip p0 = slot v0 ip0 p0) by (by rewrite (ti_slot _ _ _ _ _ HT), Hd).
  assert (Hblk : blk ip (root p0) = slot v0 ip0 p0) by (rewrite <-Hs0, slot_eq; by rewrite Hpar). rewrite Hblk.
  destruct (decide (slot v0 ip0 p0 ≠ 0)) as [Hnz|Hz].
  - destruct (Hpre Hnz) as (s1 & v1 & U1 & H1 & Hr1 & HU1 & HT1). rewrite (bind_Ret _ _ _ _ _ (on_store_run _ _ _ _ _ H1)).
    unfold mbind at 1, K_bind at 1. simpl. rewrite Hblk. pose proof (trunc_ok _ _ _ HT1) as Hf1.
    assert (Hs1 : slot v1 ip p0 = slot v0 ip0 p0) by (rewrite (ti_slot _ _ _ _ _ HT1) by done; unfold dead_or; by rewrite Hd, under_self).
    destruct (bfree_clean s1 v1 [] U1 (slot v0 ip0 p0) Hr1 HU1) as (s2 & v2 & H2 & Hr2 & Hu2 & Hv2);
      [simpl; lia|by intros m ?%elem_of_nil|rewrite <-Hs1; apply Hf1; [done|congruence]|].
    rewrite (bind_Ret _ _ _ _ _ (on_store_run _ _ _ _ _ H2)). exists s2, v2, (put_blk (root p0) 0 ip). split_and!; [done|done|].
    rewrite <-Hs1 in Hv2, Hu2, Hnz. apply (trunc_step _ v1 ip); try done.
    + unfold put_blk. simpl. rewrite length_insert. apply Hf1.
    + apply root_detach; try done. intros p j Hp' Hj. rewrite (ti_slot _ _ _ _ _ HT1) by done.
      assert (under p0 NINDIRECT p = true) as Hun; [|unfold dead_or; by rewrite Hun, orb_true_r].
      destruct (parent_valid NDIRECT NINDIRECT p p0 j Hp' Hj) as (_ & Hjr & _).
      destruct p; simpl in Hj; try done; injection Hj as <- <-; simpl in *; rewrite ?bool_decide_eq_true_2 by (done || lia); done.
    + intros n Hn H3. apply Hv2; [|done]. intros ->. apply Hn. by apply slot_owns.
  - apply dec_stable in Hz. exists s, v, ip. split_and!; [done|done|]. rewrite Hz in Hs0.
    eapply trunc_weaken; [exact HT|..]; intros p Hp'; unfold dead_at, dead_or; [by intros ->|].
    intros [[->|Hu]%orb_true_iff| ->%bool_decide_eq_true]%orb_true_iff; [by left| |by right]. right. by eapply under_empty.
Qed.

(** The direct blocks, and the whole tree. *)
Lemma trunc_direct_run s v ip :
  bs_rel s v [] ∅ → trunc_inv v0 ip0 (λ _, false) v ip →
  ∃ s' v' ip', forM (seqZ 0 NDIRECT) (λ i, trunc_slot i (λ _, mret tt)) (mk_estate s ip) = Ret (tt, mk_estate s' ip') ∧ bs_rel s' v' [] ∅ ∧
    trunc_inv v0 ip0 (λ p, match p with Pdir i => bool_decide (i < NDIRECT) | _ => false end) v' ip'.
Proof.
  intros Hr HT.
  destruct (forM_seq (λ i st, ∃ s v ip, st = mk_estate s ip ∧ bs_rel s v [] ∅ ∧
      trunc_inv v0 ip0 (λ p, match p with Pdir j => bool_decide (j < i) | _ => false end) v ip) (λ i, trunc_slot i (λ _, mret tt)) 0 NDIRECT (mk_estate s ip))
    as (st' & Hf & s' & v' & ip' & -> & Hr' & HT'); [done| | |by exists s', v', ip'].
  - clear s v ip Hr HT. intros i st Hi (s & v & ip & -> & Hr & HT).
    assert (Hd : bool_decide (i < i) = false) by (apply bool_decide_eq_false_2; lia).
    destruct (trunc_slot_run (Pdir i) (λ _, (mret tt : K B unit)) (λ p, match p with Pdir j => bool_decide (j < i) | _ => false end) s v ip ltac:(simpl; lia) eq_refl Hd Hr HT) as (s1 & v1 & ip1 & H1 & Hr1 & HT1).
    + intros _. exists s, v, ∅. split_and!; [done|done|set_solver|]. eapply trunc_weaken; [exact HT|..]; intros p Hp; unfold dead_or; simpl; rewrite orb_false_r; auto.
    + exists (mk_estate s1 ip1). split; [done|]. exists s1, v1, ip1. split_and!; [done|done|]. unfold dead_at, dead_or in HT1. simpl in HT1.
      eapply trunc_weaken; [exact HT1|..]; intros p Hp; destruct p as [j| |j| |j|j k]; simpl; try done;
        rewrite orb_false_r, orb_true_iff, !bool_decide_eq_true.
      * intros [?|[= ->]]; lia.
      * intros Hj. left. destruct (decide (j = i)) as [->|]; [by right|left; lia].
  - exists s, v, ip. split_and!; [done|done|]. eapply trunc_weaken; [exact HT|..]; intros p Hp; [done|]. destruct p; try done. rewrite bool_decide_eq_true. simpl in Hp. lia.
Qed.
End trunc.

(** What easyfs_itrunc leaves. *)
Record trunc_post (v : Z → block) (ip : einode) (v' : Z → block) (ip' : einode) : Prop := {
  tp_ok : file_ok v' ip';
  tp_empty p : pvalid p → slot v' ip' p = 0;
  tp_inode : ei_ino ip' = ei_ino ip ∧ ei_type ip' = ei_type ip ∧ ei_nlinks ip' = ei_nlinks ip ∧ ei_size ip' = 0;
  tp_disk : on_disk v' (ei_ino ip') = ip';
  tp_use n : in_use v' n ↔ in_use v n ∧ ¬ owns v ip n;
  tp_frame n : ¬ owns v ip n → n ≠ DABLK_BMIP → n ≠ inode_blkno (ei_ino ip) → v' n = v n;
  tp_other ino : 1 ≤ ino < 64 * (DATA_BLOCK - INODE_BLOCK) → ino ≠ ei_ino ip → on_disk v' ino = on_disk v ino
}.

Lemma itrunc_run s v ip :
  bs_rel s v [] ∅ → file_ok v ip → inode_ok ip →
  ∃ s' v' ip', easyfs_itrunc 0 (mk_estate s ip) = Ret (0, mk_estate s' ip') ∧ bs_rel s' v' [] ∅ ∧ trunc_post v ip v' ip'.
Proof.
  intros Hr Hf Hi. unfold easyfs_itrunc. rewrite decide_False by auto.
  assert (HT : trunc_inv v ip (λ _, false) v ip) by (split; [apply Hf|done|done|intros n; split; [by intros; split|by intros [? _]]|done]).
  destruct (trunc_direct_run v ip Hf s v ip Hr HT) as (s1 & v1 & ip1 & H1 & Hr1 & HT1). rewrite (bind_Ret _ _ _ _ _ H1).
  destruct (trunc_slot_run v ip Hf Psind free_single _ s1 v1 ip1 I eq_refl eq_refl Hr1 HT1) as (s2 & v2 & ip2 & H2 & Hr2 & HT2).
  { intros Hnz. apply (free_single_run v ip Hf ip1 Psind [] _ s1 v1); try done; [by left| |apply not_elem_of_nil].
    split; [simpl; lia|]. by intros n ?%elem_of_nil. }
  rewrite (bind_Ret _ _ _ _ _ H2).
  destruct (trunc_slot_run v ip Hf Pdind free_double _ s2 v2 ip2 I eq_refl eq_refl Hr2 HT2) as (s3 & v3 & ip3 & H3 & Hr3 & HT3).
  { intros Hnz. apply (free_double_run v ip Hf ip2 _ s2 v2); try done. intros p [Hu| ->]; [|done]. by destruct p. }
  rewrite (bind_Ret _ _ _ _ _ H3). set (ip4 := put_size 0 ip3).
  rewrite (bind_Ret (modify _) _ _ tt (mk_estate s3 ip4)) by done.
  assert (Hdead : ∀ p, pvalid p → slot v3 ip3 p = 0).
  { intros p Hp. rewrite (ti_slot _ _ _ _ _ HT3) by done. unfold dead_at, dead_or.
    destruct p; simpl in *; rewrite ?bool_decide_eq_true_2, ?orb_true_r by (done || lia); done. }
  destruct (ti_meta _ _ _ _ _ HT3) as (Hm1 & Hm2 & Hm3 & Hm4). destruct Hi as [Ha1 Ha2 Ha3 Ha4].
  assert (Hio : inode_ok ip4) by (split; simpl; rewrite ?Hm1, ?Hm2, ?Hm3; done).
  destruct (iupdate_run s3 v3 ip4 Hr3 Hio) as (s4 & v4 & H4 & Hr4 & Hup). rewrite (bind_Ret _ _ _ _ _ H4).
  pose proof (trunc_ok v ip Hf _ _ _ HT3) as Hf3. destruct (inode_place _ (io_ino _ Hio)) as (Hblk & _ & _).
  assert (Hout : ∀ k, DATA_BLOCK ≤ k < TOTAL_BLOCKS ∨ k = DABLK_BMIP → v4 k = v3 k).
  { intros k Hk. apply (up_block _ _ _ Hup). unfold INODE_BLOCK, DATA_BLOCK, DABLK_BMIP in *. lia. }
  destruct (outside_data v3 ip3 v4 ip4 Hf3 eq_refl Hout) as (Hf4 & Hu4 & Ho4 & _ & _).
  exists s4, v4, ip4. split_and!; [done|done|]. split; try done.
  - intros p Hp. destruct (decide (slot v4 ip4 p = 0)) as [|Hn]; [done|]. exfalso.
    apply (slot_owns v4 ip4 p Hp) in Hn. apply Ho4 in Hn as [Hn (q & Hq & He)]. rewrite Hdead in He by done. congruence.
  - apply (up_inode _ _ _ Hup); [apply Hf4|by apply (file_blocks_range v4)].
  - intros n. rewrite Hu4, (ti_use _ _ _ _ _ HT3). split; intros [Hn Hd]; (split; [done|]).
    + intros [Hn0 (p & Hp & He)]. apply (Hd p Hp); [|done]. unfold dead_at, dead_or.
      destruct p; simpl in *; rewrite ?bool_decide_eq_true_2, ?orb_true_r by (done || lia); done.
    + intros p Hp _ He. apply Hd. split; [|by exists p]. pose proof (in_use_range _ _ Hn). unfold DATA_BLOCK in *. lia.
  - intros n Hn Hn3 Hne. rewrite (up_block _ _ _ Hup) by (simpl; congruence). by apply HT3.
  - intros ino Hino Hne. rewrite (up_other _ _ _ Hup) by (simpl; (lia || congruence)). unfold on_disk. destruct (inode_foreign v ip ino Hf Hino) as (Hno & Hn3 & _).
    by rewrite (ti_frame _ _ _ _ _ HT3).
Qed.

Lemma read_disk_inode_run s v ino :
  bs_rel s v [] ∅ → 0 ≤ ino → ∃ s' v', easyfs_read_disk_inode ino s = Ret (on_disk v ino, s') ∧ bs_rel s' v' [] ∅ ∧ ∀ n, v' n = v n.
Proof.
  intros Hr Hi. unfold easyfs_read_disk_inode.
  destruct (read_clean s v [] (inode_blkno ino) Hr) as (h & s1 & v1 & H1 & Hr1 & Hv1); [|apply not_elem_of_nil|simpl; lia|].
  { unfold inode_blkno, INODE_BLOCK. Z.to_euclidean_division_equations; lia. }
  rewrite (bind_Ret _ _ _ _ _ H1). destruct (data_run _ _ _ _ _ _ _ Hr1) as (Hd & _). rewrite (bind_Ret _ _ _ _ _ Hd).
  destruct (release_clean _ _ _ _ _ Hr1) as (s2 & H2 & Hr2). rewrite (bind_Ret _ _ _ _ _ H2). exists s2, v1. by rewrite Hv1.
Qed.

(** * Theorems *)

(** bmap. *)
Theorem bmap_spec s v ip bn :
  bs_rel s v [] ∅ → file_ok v ip → 0 ≤ bn < MAXFILE →
  ∃ r s' v' ip', bmap bn (mk_estate s ip) = Ret (r, mk_estate s' ip') ∧ bs_rel s' v' [] ∅ ∧ grows v ip v' ip' ∧
    ((r = 0 ∧ full v' ∧ slot v' ip' (pos_of bn) = 0) ∨ (r ≠ 0 ∧ slot v' ip' (pos_of bn) = r)).
Proof. apply bmap_run. Qed.

(** Reading. *)
Theorem easyfs_read_spec s v ip off size :
  bs_rel s v [] ∅ → file_ok v ip → inode_ok ip → 0 ≤ off < 2 ^ 32 → 0 ≤ size < 2 ^ 32 →
  (ei_size ip < off ∨ 2 ^ 32 ≤ off + size → easyfs_read_inode off size (mk_estate s ip) = Ret (-1, [], mk_estate s ip)) ∧
  (off ≤ ei_size ip → off + size < 2 ^ 32 →
   ∃ n s' v' ip', easyfs_read_inode off size (mk_estate s ip) = Ret (i32 n, file_bytes v ip off n, mk_estate s' ip') ∧
     bs_rel s' v' [] ∅ ∧ grows v ip v' ip' ∧ 0 ≤ n ≤ Z.min size (ei_size ip - off) ∧
     (n < Z.min size (ei_size ip - off) → full v' ∧ slot v' ip' (pos_of ((off + n) / BSIZE)) = 0)).
Proof.
  intros Hr Hf Hi Ho Hs. split; intros Hcase.
  - unfold easyfs_read_inode, gets. unfold mbind, K_bind. simpl. rewrite decide_True; [done|]. destruct Hcase as [|Hov]; [left; lia|right].
    unfold u32. rewrite <-(Z.mod_unique (off + size) (2 ^ 32) 1 (off + size - 2 ^ 32)) by lia. lia.
  - intros Hos. apply read_inode_run; try done; [lia|apply Hi|lia].
Qed.

(** C9: easyfs_write_inode writes exactly a prefix of the source over the file
    at the offset, all of it unless the disk is full; every other byte of the
    file, every other inode and every block of another owner is unchanged, the
    size becomes the end of the write when that is larger, the blocks of the
    file stay in use and at one position each, and the disk inode equals the
    one in memory. *)
Theorem easyfs_write_spec s v ip src off :
  bs_rel s v [] ∅ → file_ok v ip → inode_ok ip → Forall byte_ok src → 0 ≤ off → off + Z.of_nat (length src) < 2 ^ 32 →
  ∃ n s' v' ip', easyfs_write_inode src off (Z.of_nat (length src)) (mk_estate s ip) = Ret (i32 n, mk_estate s' ip') ∧
    bs_rel s' v' [] ∅ ∧ write_post v ip off src n v' ip'.
Proof. apply write_inode_run. Qed.

(** C10: The bytes easyfs_write_inode reports written are the bytes
    easyfs_read_inode returns from the same place. *)
Theorem easyfs_write_read s v ip src off :
  bs_rel s v [] ∅ → file_ok v ip → inode_ok ip → Forall byte_ok src → 0 ≤ off → off + Z.of_nat (length src) < 2 ^ 32 →
  ∃ n s1 v1 ip1 s2 ip2, easyfs_write_inode src off (Z.of_nat (length src)) (mk_estate s ip) = Ret (i32 n, mk_estate s1 ip1) ∧
    0 ≤ n ≤ Z.of_nat (length src) ∧ (n < Z.of_nat (length src) → full v1) ∧
    bs_rel s1 v1 [] ∅ ∧ easyfs_read_inode off n (mk_estate s1 ip1) = Ret (i32 n, slice src 0 n, mk_estate s2 ip2).
Proof.
  intros Hr Hf Hi Hby Ho Hl. destruct (write_inode_run s v ip src off) as (n & s1 & v1 & ip1 & H1 & Hr1 & HW); try done.
  pose proof (wp_count _ _ _ _ _ _ _ HW) as Hn. pose proof (wp_size _ _ _ _ _ _ _ HW) as Hsz. pose proof (io_size _ (wp_inode _ _ _ _ _ _ _ HW)) as Hs32.
  destruct (read_inode_run s1 v1 ip1 off n Hr1 (wp_ok _ _ _ _ _ _ _ HW)) as (k & s2 & v2 & ip2 & H2 & Hr2 & Hg2 & Hk & Hfull); [lia|lia|lia|lia|].
  rewrite Z.min_l in Hk, Hfull by lia.
  assert (k = n) as ->. { destruct (decide (k = n)) as [|Hne]; [done|]. destruct Hfull as [_ Hz]; [lia|]. exfalso.
    assert (Hi32 : 0 ≤ off + k < 2 ^ 32) by lia. destruct (byte_block _ Hi32) as [Hb _]. destruct (pos_of_valid _ Hb) as [Hp _].
    apply (wp_slot _ _ _ _ _ _ _ HW (off + k)); [lia|]. by apply (grows_zero _ _ _ _ _ _ Hg2). }
  exists n, s1, v1, ip1, s2, ip2. split_and!; [done|lia|lia|intros Hlt; apply (wp_full _ _ _ _ _ _ _ HW Hlt)|done|]. rewrite H2. do 3 f_equal.
  assert (Hsl : Z.of_nat (length (slice src 0 n)) = n) by (apply slice_len; lia).
  apply (list_eq_same_length _ _ (Z.to_nat n)); [lia|rewrite tree_bytes_length; lia|].
  intros i x y Hi' Hx Hy. unfold tree_bytes in Hx. rewrite list_lookup_fmap, lookup_seqZ_lt in Hx by lia. simpl in Hx. injection Hx as <-.
  rewrite (wp_byte _ _ _ _ _ _ _ HW) by lia. unfold splat. rewrite decide_True by lia. replace (off + Z.of_nat i - off) with (Z.of_nat i) by lia.
  by rewrite Nat2Z.id, Hy.
Qed.

(** C19: easyfs_itrunc frees exactly the blocks of the file, direct, single
    and double indirect, without a double free or a panic, leaves the inode
    empty in memory and on the disk, and changes no other block and no other
    inode. *)
Theorem easyfs_itrunc_spec s v ip :
  bs_rel s v [] ∅ → file_ok v ip → inode_ok ip →
  ∃ s' v' ip', easyfs_itrunc 0 (mk_estate s ip) = Ret (0, mk_estate s' ip') ∧ bs_rel s' v' [] ∅ ∧ trunc_post v ip v' ip'.
Proof. apply itrunc_run. Qed.

(** An inode written by iupdate and loaded again as easyfs_ilock does is
    the same inode, and the other inodes of its block are unchanged. *)
Theorem iupdate_ilock s v ip stale :
  bs_rel s v [] ∅ → file_ok v ip → inode_ok ip → ei_ino stale = ei_ino ip →
  ∃ s1 v1 s2, iupdate (mk_estate s ip) = Ret (tt, mk_estate s1 ip) ∧ bs_rel s1 v1 [] ∅ ∧
    (∀ ino, 0 ≤ ino → ino ≠ ei_ino ip → on_disk v1 ino = on_disk v ino) ∧
    easyfs_ilock_load (mk_estate s1 stale) = Ret (tt, mk_estate s2 ip).
Proof.
  intros Hr Hf Hi Hst. destruct (iupdate_run s v ip Hr Hi) as (s1 & v1 & H1 & Hr1 & Hup). pose proof (io_ino _ Hi) as Hino.
  destruct (read_disk_inode_run s1 v1 (ei_ino stale) Hr1) as (s2 & v2 & H2 & Hr2 & _); [lia|].
  exists s1, v1, s2. split_and!; [done|done|apply Hup|]. unfold easyfs_ilock_load, gets. unfold mbind at 1, K_bind at 1. simpl.
  rewrite (bind_Ret _ _ _ _ _ (on_store_run _ _ _ _ _ H2)). rewrite Hst, (up_inode _ _ _ Hup); [done|apply Hf|by apply (file_blocks_range v)].
Qed.
End files.

Abbreviation file_byte v ip := (tree_byte NDIRECT NINDIRECT (slot v ip) v).
Abbreviation file_bytes v ip := (tree_bytes NDIRECT NINDIRECT (slot v ip) v).

(** * Witnesses *)

(** The block cache of Bcache.v over an empty disk, used by the process 7; an
    empty file whose inode is number 1. *)
#[local] Existing Instance mem_disk.
#[local] Existing Instance demo_store.
Definition demo_file : einode := mk_einode 1 1 1 0 (replicate 12 0).

Lemma demo_slot v p : slot v demo_file p = 0.
Proof.
  assert (Hb : ∀ i, blk demo_file i = 0) by (intros i; unfold blk, demo_file; cbn [ei_blocks]; destruct (replicate 12 0 !! Z.to_nat i) eqn:E; [by apply lookup_replicate in E as [-> _]|done]).
  destruct p; simpl; unfold entry; by rewrite ?Hb.
Qed.
Lemma demo_file_ok v : file_ok v demo_file.
Proof. split; [done|..]; intros p; rewrite ?demo_slot; done. Qed.
Lemma demo_inode_ok : inode_ok demo_file.
Proof. split; simpl; unfold DATA_BLOCK, INODE_BLOCK; lia. Qed.

Lemma demo_bytes : Forall byte_ok [1; 2; 3].
Proof. rewrite !Forall_cons. unfold byte_ok. split_and!; done || lia. Qed.

Lemma bmap_spec_witness :
  ∃ r s' v' ip', bmap 3 (mk_estate demo_ready demo_file) = Ret (r, mk_estate s' ip') ∧ bs_rel s' v' [] ∅ ∧
    changes (λ _ b, b) (view demo_ready) demo_file v' ip' ∧
    ((r = 0 ∧ full v' ∧ slot v' ip' (pos_of 3) = 0) ∨ (r ≠ 0 ∧ slot v' ip' (pos_of 3) = r)).
Proof. apply (bmap_spec demo_ready (view demo_ready) demo_file 3); [exact demo_store_rel|apply demo_file_ok|done]. Defined.

Lemma easyfs_read_spec_witness :
  easyfs_read_inode 10 5 (mk_estate demo_ready demo_file) = Ret (-1, [], mk_estate demo_ready demo_file).
Proof.
  apply (easyfs_read_spec demo_ready (view demo_ready) demo_file 10 5); [exact demo_store_rel|apply demo_file_ok|exact demo_inode_ok|lia|lia|].
  left. simpl. lia.
Defined.

Lemma easyfs_write_spec_witness :
  ∃ n s' v' ip', easyfs_write_inode [1; 2; 3] 5000 3 (mk_estate demo_ready demo_file) = Ret (i32 n, mk_estate s' ip') ∧
    bs_rel s' v' [] ∅ ∧ write_post (view demo_ready) demo_file 5000 [1; 2; 3] n v' ip'.
Proof.
  apply (easyfs_write_spec demo_ready (view demo_ready) demo_file [1; 2; 3] 5000);
    [exact demo_store_rel|apply demo_file_ok|exact demo_inode_ok|exact demo_bytes|lia|simpl; lia].
Defined.

Lemma easyfs_write_read_witness :
  ∃ n s1 v1 ip1 s2 ip2, easyfs_write_inode [1; 2; 3] 5000 3 (mk_estate demo_ready demo_file) = Ret (i32 n, mk_estate s1 ip1) ∧
    0 ≤ n ≤ 3 ∧ (n < 3 → full v1) ∧
    bs_rel s1 v1 [] ∅ ∧ easyfs_read_inode 5000 n (mk_estate s1 ip1) = Ret (i32 n, slice [1; 2; 3] 0 n, mk_estate s2 ip2).
Proof.
  apply (easyfs_write_read demo_ready (view demo_ready) demo_file [1; 2; 3] 5000);
    [exact demo_store_rel|apply demo_file_ok|exact demo_inode_ok|exact demo_bytes|lia|simpl; lia].
Defined.

Lemma easyfs_itrunc_spec_witness :
  ∃ s' v' ip', easyfs_itrunc 0 (mk_estate demo_ready demo_file) = Ret (0, mk_estate s' ip') ∧ bs_rel s' v' [] ∅ ∧
    trunc_post (view demo_ready) demo_file v' ip'.
Proof. apply (easyfs_itrunc_spec demo_ready (view demo_ready) demo_file); [exact demo_store_rel|apply demo_file_ok|exact demo_inode_ok]. Defined.

Lemma iupdate_ilock_witness :
  ∃ s1 v1 s2, iupdate (mk_estate demo_ready demo_file) = Ret (tt, mk_estate s1 demo_file) ∧ bs_rel s1 v1 [] ∅ ∧
    (∀ ino, 0 ≤ ino → ino ≠ 1 → on_disk v1 ino = on_disk (view demo_ready) ino) ∧
    easyfs_ilock_load (mk_estate s1 (mk_einode 1 0 0 0 [])) = Ret (tt, mk_estate s2 demo_file).
Proof.
  apply (iupdate_ilock demo_ready (view demo_ready) demo_file (mk_einode 1 0 0 0 []));
    [exact demo_store_rel|apply demo_file_ok|exact demo_inode_ok|reflexivity].
Defined.

(** Reading a hole allocates a block in the inode in memory only: a file of ten
    bytes without blocks is read, the inode is loaded again as easyfs_ilock
    does, and the block is in use and in no file. *)
Definition demo_hole : einode := mk_einode 1 1 1 10 (replicate 12 0).
Definition hole_run : K (estate (bcache (gmap Z block))) (Z * bool) :=
  iupdate ;;
  r ← easyfs_read_inode 0 1;
  easyfs_ilock_load ;;
  d ← on_store (h ← bs_read DABLK_BMIP; d ← bs_data h; bs_release h ;; mret d);
  mret (r.1, bit d 0).
Theorem read_hole_leaks :
  match hole_run (mk_estate demo_ready demo_hole) with
  | Ret (r, s) => r = (1, true) ∧ inode s = demo_hole
  | _ => False
  end.
Proof. vm_compute. by split. Qed.
