(* ===== verification/EasyfsDir.v ===== *)
(** kernel/fs/easyfs/dir.c and dirlink of fs.c: the directories of easyfs.

    A directory is a file of 32-byte entries, an inode number and a name of at
    most [DIRSIZ] bytes; an entry with number 0 is free.  [easyfs_vfs_lookup]
    gives the offset and the number of the entry and the inode on the disk;
    [fill] stands for easyfs_fill_vfs_inode, which takes an entry of the inode
    cache and fails when there is none. *)
From stdpp Require Import functions.
From S2P Require Import Prelude Path Vfs ListHead Block Bcache Easyfs IndexTree EasyfsFile.

Definition DE_SIZE : Z := 32.

(** struct disk_dir_entry *)
Record dirent := mk_dirent { inode_num : Z; de_name : list Z }.
Definition get_dirent (b : list Z) : dirent := mk_dirent (rd32 b 0) (slice b 4 28).

(** The string in a field of bytes. *)
Fixpoint until_nul (b : list Z) : cstring :=
  match b with
  | [] => []
  | c :: b => if decide (c = 0) then [] else c :: until_nul b
  end.

(** [strncpy(dst, t, n)]: the [n] bytes stored. *)
Definition strncpy_bytes (t : cstring) (n : nat) : list Z := take n t ++ replicate (n - length t) 0.

(** [memset(&de, 0); strncpy(de.name, name, DIRSIZ); de.inode_num = inum] *)
Definition le32 (x : Z) : list Z := [x mod 2 ^ 8; x / 2 ^ 8 mod 2 ^ 8; x / 2 ^ 16 mod 2 ^ 8; x / 2 ^ 24 mod 2 ^ 8].
Definition make_dirent (name : cstring) (inum : Z) : list Z :=
  le32 inum ++ strncpy_bytes name (Z.to_nat DIRSIZ) ++ replicate 4 0.

Section dirs.
Context {B : Type} `{BlockStore B}.
Abbreviation st := (estate B).

Definition entry_fuel (size : Z) : nat := S (Z.to_nat (size / DE_SIZE + 1)).

(** One round of a loop over the entries, and the loop: the offset it reaches,
    and the entry when it stops at one. *)
Definition entry_round (why : string) (stop : dirent → bool) (off : Z) : K st (Z + Z * option dirent) :=
  size ← gets (λ s, ei_size (inode s));
  if decide (size ≤ off) then mret (inr (off, None)) else
  r ← easyfs_read_inode off DE_SIZE;
  if decide (r.1 ≠ DE_SIZE) then kpanic why else
  let de := get_dirent r.2 in
  if stop de then mret (inr (off, Some de)) else mret (inl (u32 (off + DE_SIZE))).
Definition scan_entries (why : string) (stop : dirent → bool) : K st (Z * option dirent) :=
  size ← gets (λ s, ei_size (inode s));
  loop (entry_fuel size) (entry_round why stop) 0.

Definition same_name (name : cstring) (de : dirent) : bool :=
  negb (bool_decide (inode_num de = 0)) && name_eq name (until_nul (de_name de)).
Definition is_free (de : dirent) : bool := bool_decide (inode_num de = 0).

Definition easyfs_vfs_lookup (fill : Z → einode → bool) (name : cstring) : K st (option (Z * Z * einode)) :=
  ty ← gets (λ s, ei_type (inode s));
  if decide (ty ≠ VFS_DIR) then mret None else
  r ← scan_entries "easyfs_read_inode read error" (same_name name);
  match r with
  | (_, None) => mret None
  | (off, Some de) =>
      out ← on_store (easyfs_read_disk_inode (inode_num de));
      if fill (inode_num de) out then mret (Some (off, inode_num de, out)) else mret None
  end.

Definition dirlink (fill : Z → einode → bool) (name : cstring) (inum : Z) : K st Z :=
  ip ← easyfs_vfs_lookup fill name;
  match ip with
  | Some _ => mret (-1)
  | None =>
      r ← scan_entries "dirlink read" is_free;
      n ← easyfs_write_inode (make_dirent name inum) r.1 DE_SIZE;
      if decide (n ≠ DE_SIZE) then mret (-1) else mret 0
  end.

(** * The directory as entries *)

Definition dir_entry (v : Z → block) (ip : einode) (k : Z) : dirent := get_dirent (file_bytes v ip (DE_SIZE * k) DE_SIZE).
Definition dir_count (ip : einode) : Z := ei_size ip / DE_SIZE.

(** A directory made of whole entries, each in a block. *)
Record dir_ok (v : Z → block) (ip : einode) : Prop := {
  do_file : file_ok v ip;
  do_inode : inode_ok ip;
  do_type : ei_type ip = VFS_DIR;
  do_align : ei_size ip = DE_SIZE * dir_count ip;
  do_blocks i : 0 ≤ i < ei_size ip → slot v ip (pos_of (i / BSIZE)) ≠ 0;
  do_inums k : 0 ≤ k < dir_count ip → 0 ≤ inode_num (dir_entry v ip k) < 64 * (DATA_BLOCK - INODE_BLOCK);
  do_small : ei_size ip + DE_SIZE < 2 ^ 31
}.

(** The first entry of the directory that satisfies the test. *)
Definition first_entry (v : Z → block) (ip : einode) (stop : dirent → bool) (k : Z) : Prop :=
  0 ≤ k < dir_count ip ∧ stop (dir_entry v ip k) = true ∧ ∀ j, 0 ≤ j < k → stop (dir_entry v ip j) = false.
Definition no_entry (v : Z → block) (ip : einode) (stop : dirent → bool) : Prop :=
  ∀ j, 0 ≤ j < dir_count ip → stop (dir_entry v ip j) = false.

Lemma entry_ext v ip v' ip' k : 0 ≤ k → DE_SIZE * k + DE_SIZE ≤ 2 ^ 32 →
  (∀ i, 0 ≤ i < 2 ^ 32 → file_byte v' ip' i = file_byte v ip i) → dir_entry v' ip' k = dir_entry v ip k.
Proof. intros Hk Hs Hb. unfold dir_entry. f_equal. apply (tree_bytes_ext _ _ _ _ _ _ _ _ (2 ^ 32)); [unfold DE_SIZE; lia|done|done]. Qed.

Lemma dir_grows v ip v' ip' : dir_ok v ip → changes (λ _ b, b) v ip v' ip' → dir_ok v' ip'.
Proof.
  intros Hd Hg. destruct (gr_meta _ _ _ _ Hg) as (H1 & H2 & H3 & H4). destruct Hd as [Hf [Ha1 Ha2 Ha3 Ha4] Ht Hal Hb Hn Hs]. split.
  - apply Hg.
  - split; rewrite ?H1, ?H2, ?H3, ?H4; done.
  - congruence.
  - unfold dir_count in *. by rewrite H4.
  - intros i Hi. rewrite H4 in Hi. assert (Hi32 : 0 ≤ i < 2 ^ 32) by lia. destruct (byte_block i Hi32) as [Hbn _].
    destruct (pos_of_valid _ Hbn) as [Hp _]. rewrite (gr_slot _ _ _ _ Hg) by auto. by apply Hb.
  - intros k Hk. assert (Hc : dir_count ip' = dir_count ip) by (unfold dir_count; by rewrite H4). rewrite Hc in Hk.
    rewrite (entry_ext v ip); [by apply Hn|lia|unfold DE_SIZE in *; lia|apply Hg].
  - by rewrite H4.
Qed.

Lemma read_entry s v ip k :
  bs_rel s v [] ∅ → dir_ok v ip → 0 ≤ k < dir_count ip →
  ∃ s' v' ip', easyfs_read_inode (DE_SIZE * k) DE_SIZE (mk_estate s ip) = Ret (DE_SIZE, file_bytes v ip (DE_SIZE * k) DE_SIZE, mk_estate s' ip') ∧
    bs_rel s' v' [] ∅ ∧ changes (λ _ b, b) v ip v' ip'.
Proof.
  intros Hr Hd Hk. pose proof (do_align _ _ Hd) as Hal. pose proof (do_small _ _ Hd) as Hsm. pose proof (do_inode _ _ Hd) as Hi. unfold DE_SIZE in *.
  destruct (read_inode_run s v ip (32 * k) 32 Hr (do_file _ _ Hd)) as (n & s' & v' & ip' & H1 & Hr' & Hg & Hn & Hfull); [lia|apply Hi|lia|lia|].
  rewrite Z.min_l in Hn, Hfull by lia. assert (n = 32) as ->.
  { destruct (decide (n = 32)) as [|Hne]; [done|]. destruct Hfull as [_ Hz]; [lia|]. exfalso.
    apply (do_blocks _ _ (dir_grows _ _ _ _ Hd Hg) (32 * k + n)); [|done]. destruct (gr_meta _ _ _ _ Hg) as (_ & _ & _ & ->). lia. }
  by exists s', v', ip'.
Qed.

Lemma entries_run fuel why stop s v ip k :
  bs_rel s v [] ∅ → dir_ok v ip → 0 ≤ k ≤ dir_count ip → dir_count ip - k < Z.of_nat fuel →
  (∀ j, 0 ≤ j < k → stop (dir_entry v ip j) = false) →
  ∃ off r s' v' ip', loop fuel (entry_round why stop) (DE_SIZE * k) (mk_estate s ip) = Ret (off, r, mk_estate s' ip') ∧
    bs_rel s' v' [] ∅ ∧ changes (λ _ b, b) v ip v' ip' ∧
    match r with
    | Some de => ∃ k, off = DE_SIZE * k ∧ de = dir_entry v ip k ∧ first_entry v ip stop k
    | None => off = ei_size ip ∧ no_entry v ip stop
    end.
Proof.
  revert s v ip k. induction fuel as [|fuel IH]; intros s v ip k Hr Hd Hk Hfuel Hbefore; [lia|]. rewrite loop_S.
  pose proof (do_align _ _ Hd) as Hal. pose proof (do_small _ _ Hd) as Hsm. destruct (decide (k = dir_count ip)) as [->|Hne].
  - assert (Hend : entry_round why stop (DE_SIZE * dir_count ip) (mk_estate s ip) = Ret (inr (ei_size ip, None), mk_estate s ip)).
    { unfold entry_round, gets. unfold mbind, K_bind. simpl. rewrite <-Hal. by rewrite decide_True. }
    rewrite (bind_Ret _ _ _ _ _ Hend). eexists _, None, s, v, ip. split_and!; [done|done|apply grows_refl, Hd|done|done].
  - destruct (read_entry s v ip k Hr Hd) as (s1 & v1 & ip1 & H1 & Hr1 & Hg1); [lia|].
    assert (Hround : entry_round why stop (DE_SIZE * k) (mk_estate s ip) =
      Ret (if stop (dir_entry v ip k) then inr (DE_SIZE * k, Some (dir_entry v ip k)) else inl (DE_SIZE * (k + 1)), mk_estate s1 ip1)).
    { unfold entry_round, gets. unfold mbind at 1, K_bind at 1. simpl. unfold DE_SIZE in *. rewrite decide_False by lia. rewrite (bind_Ret _ _ _ _ _ H1). simpl.
      fold DE_SIZE. fold (dir_entry v ip k). unfold dir_entry, DE_SIZE. destruct (stop _); [done|]. unfold u32. rewrite Z.mod_small by lia.
      by replace (32 * (k + 1)) with (32 * k + 32) by lia. }
    rewrite (bind_Ret _ _ _ _ _ Hround). destruct (stop (dir_entry v ip k)) eqn:Est.
    + eexists _, (Some _), s1, v1, ip1. split_and!; [done|done|done|]. exists k. split_and!; [done|done|]. split_and!; [lia|lia|done|done].
    + assert (Hsame : ∀ j, 0 ≤ j < dir_count ip → dir_entry v1 ip1 j = dir_entry v ip j).
      { intros j Hj. apply entry_ext; [lia|unfold DE_SIZE in *; lia|]. apply Hg1. }
      assert (Hcnt : dir_count ip1 = dir_count ip ∧ ei_size ip1 = ei_size ip).
      { destruct (gr_meta _ _ _ _ Hg1) as (_ & _ & _ & H4). unfold dir_count. by rewrite H4. }
      destruct Hcnt as [Hcnt Hsz].
      destruct (IH s1 v1 ip1 (k + 1) Hr1 (dir_grows _ _ _ _ Hd Hg1)) as (off & r & s2 & v2 & ip2 & H2 & Hr2 & Hg2 & Hp); [lia|lia| |].
      { intros j Hj. rewrite Hsame by lia. destruct (decide (j = k)) as [->|]; [done|]. apply Hbefore. lia. }
      exists off, r, s2, v2, ip2. split_and!; [done|done|by apply (grows_trans v ip v1 ip1)|]. destruct r as [de|].
      * destruct Hp as (k' & Hoff & Hde & Hk' & Hst & Hbef). rewrite Hcnt in Hk'. rewrite Hsame in Hde, Hst by lia.
        exists k'. split_and!; [done|done|]. split_and!; [lia|lia|done|]. intros j Hj. rewrite <-Hsame by lia. by apply Hbef.
      * destruct Hp as [Hoff Hno]. split; [congruence|]. intros j Hj. rewrite <-Hsame by done. apply Hno. lia.
Qed.

Lemma scan_entries_run why stop s v ip :
  bs_rel s v [] ∅ → dir_ok v ip →
  ∃ off r s' v' ip', scan_entries why stop (mk_estate s ip) = Ret (off, r, mk_estate s' ip') ∧
    bs_rel s' v' [] ∅ ∧ changes (λ _ b, b) v ip v' ip' ∧
    match r with
    | Some de => ∃ k, off = DE_SIZE * k ∧ de = dir_entry v ip k ∧ first_entry v ip stop k
    | None => off = ei_size ip ∧ no_entry v ip stop
    end.
Proof.
  intros Hr Hd. unfold scan_entries, gets. unfold mbind, K_bind. cbn [inode]. pose proof (do_align _ _ Hd) as Hal. pose proof (io_size _ (do_inode _ _ Hd)) as Hs.
  apply (entries_run _ why stop s v ip 0); [done|done| | |intros; lia].
  - unfold DE_SIZE in *. lia.
  - fold (dir_count ip). unfold entry_fuel. fold (dir_count ip). unfold DE_SIZE in *. lia.
Qed.

Lemma lookup_run fill name s v ip :
  bs_rel s v [] ∅ → dir_ok v ip →
  ∃ r s' v' ip', easyfs_vfs_lookup fill name (mk_estate s ip) = Ret (r, mk_estate s' ip') ∧ bs_rel s' v' [] ∅ ∧ changes (λ _ b, b) v ip v' ip' ∧
    ((r = None ∧ no_entry v ip (same_name name)) ∨
     (∃ k, first_entry v ip (same_name name) k ∧ let ino := inode_num (dir_entry v ip k) in
        r = if fill ino (on_disk v ino) then Some (DE_SIZE * k, ino, on_disk v ino) else None)).
Proof.
  intros Hr Hd. unfold easyfs_vfs_lookup, gets. unfold mbind at 1, K_bind at 1. simpl. rewrite decide_False by (rewrite (do_type _ _ Hd); auto).
  destruct (scan_entries_run "easyfs_read_inode read error" (same_name name) s v ip Hr Hd) as (off & r & s1 & v1 & ip1 & H1 & Hr1 & Hg1 & Hp).
  rewrite (bind_Ret _ _ _ _ _ H1). destruct r as [de|]; [|exists None, s1, v1, ip1; destruct Hp; by split_and!; [..|left]].
  destruct Hp as (k & -> & -> & Hk). set (ino := inode_num (dir_entry v ip k)).
  assert (Hino : 1 ≤ ino < 64 * (DATA_BLOCK - INODE_BLOCK)).
  { destruct Hk as (Hk & Hst & _). pose proof (do_inums _ _ Hd k Hk) as Hn. fold ino in Hn. unfold same_name in Hst.
    apply andb_true_iff in Hst as [Hst%negb_true_iff%bool_decide_eq_false _]. fold ino in Hst. lia. }
  destruct (read_disk_inode_run s1 v1 ino Hr1) as (s2 & v2 & H2 & Hr2 & Hv2); [lia|]. rewrite (bind_Ret _ _ _ _ _ (on_store_run _ _ _ _ _ H2)).
  assert (Hod : on_disk v1 ino = on_disk v ino).
  { unfold on_disk. by rewrite (gr_frame _ _ _ _ Hg1) by (apply inode_foreign; [apply Hd|done]). }
  exists (if fill ino (on_disk v ino) then Some (DE_SIZE * k, ino, on_disk v ino) else None), s2, v2, ip1.
  split_and!; [rewrite Hod; by destruct (fill _ _)|done| |].
  - apply (grows_trans v ip v1 ip1); [done|]. apply same_grows; [apply Hg1|done].
  - right. by exists k.
Qed.

(** ** The bytes of an entry *)

Lemma until_nul_cstr l n : Forall (λ c, c ≠ 0) l → until_nul (l ++ replicate n 0) = l.
Proof.
  induction 1 as [|c l Hc Hl IH]; simpl; [by destruct n|]. by rewrite decide_False, IH.
Qed.
Lemma strncpy_length t n : length (strncpy_bytes t n) = n.
Proof. unfold strncpy_bytes. rewrite length_app, length_take, length_replicate. lia. Qed.
Lemma make_dirent_length name inum : length (make_dirent name inum) = 32%nat.
Proof. unfold make_dirent. rewrite !length_app, strncpy_length. done. Qed.
Lemma make_dirent_bytes name inum : Forall byte_ok name → Forall byte_ok (make_dirent name inum).
Proof.
  intros Hn. unfold make_dirent, le32, strncpy_bytes. rewrite !Forall_app. split_and!; try (by apply Forall_replicate).
  - rewrite !Forall_cons. split_and!; [apply mod_byte..|constructor].
  - by apply Forall_take.
Qed.
Lemma get_make_dirent name inum : 0 ≤ inum < 2 ^ 32 →
  get_dirent (make_dirent name inum) = mk_dirent inum (strncpy_bytes name (Z.to_nat DIRSIZ) ++ replicate 4 0).
Proof.
  intros Hi. unfold get_dirent. f_equal.
  - unfold rd32, byte_at, make_dirent, le32. simpl. Z.to_euclidean_division_equations. lia.
  - unfold slice, make_dirent, le32. change (Z.to_nat 4) with 4%nat. cbn [app drop].
    rewrite drop_0. rewrite take_ge; [done|]. rewrite length_app, strncpy_length. cbn [length replicate]. unfold DIRSIZ. lia.
Qed.
Lemma make_dirent_found name inum : inum ≠ 0 → Forall (λ c, c ≠ 0) name →
  same_name name (mk_dirent inum (strncpy_bytes name (Z.to_nat DIRSIZ) ++ replicate 4 0)) = true.
Proof.
  intros Hi Hn. unfold same_name. cbn [inode_num de_name]. rewrite bool_decide_eq_false_2 by done. cbn [negb andb]. unfold strncpy_bytes. rewrite <-app_assoc, <-replicate_add.
  rewrite until_nul_cstr by (by apply Forall_take). unfold name_eq. apply bool_decide_eq_true_2. by rewrite take_take, Nat.min_id.
Qed.

(** ** dirlink *)

(** The entries after dirlink put [inum] under [name] at [k]. *)
Record linked (v : Z → block) (ip : einode) (name : cstring) (inum k : Z) (v' : Z → block) (ip' : einode) : Prop := {
  ln_ok : dir_ok v' ip';
  ln_disk : on_disk v' (ei_ino ip') = ip';
  ln_place : first_entry v ip is_free k ∨ (no_entry v ip is_free ∧ k = dir_count ip);
  ln_count : dir_count ip' = Z.max (dir_count ip) (k + 1);
  ln_new : dir_entry v' ip' k = mk_dirent inum (strncpy_bytes name (Z.to_nat DIRSIZ) ++ replicate 4 0);
  ln_old j : 0 ≤ j < dir_count ip → j ≠ k → dir_entry v' ip' j = dir_entry v ip j
}.

Lemma entry_place k : 0 ≤ k → DE_SIZE * k mod BSIZE + DE_SIZE ≤ BSIZE.
Proof. unfold DE_SIZE, BSIZE. intros. Z.to_euclidean_division_equations. lia. Qed.
Lemma count_mono n m : n ≤ m → (DE_SIZE * n) / DE_SIZE ≤ m.
Proof. unfold DE_SIZE. intros. Z.to_euclidean_division_equations. lia. Qed.

(** The write of one entry. *)
Lemma write_entry_run s v ip name inum k :
  bs_rel s v [] ∅ → dir_ok v ip → Forall byte_ok name → 1 ≤ inum < 64 * (DATA_BLOCK - INODE_BLOCK) →
  first_entry v ip is_free k ∨ (no_entry v ip is_free ∧ k = dir_count ip) → ei_size ip + 2 * DE_SIZE < 2 ^ 31 →
  ∃ n s' v' ip', easyfs_write_inode (make_dirent name inum) (DE_SIZE * k) DE_SIZE (mk_estate s ip) = Ret (n, mk_estate s' ip') ∧ bs_rel s' v' [] ∅ ∧
    (∀ b, foreign v ip b → b ≠ inode_blkno (ei_ino ip) → v' b = v b) ∧
    ((n = DE_SIZE ∧ linked v ip name inum k v' ip') ∨
     (n ≠ DE_SIZE ∧ full v' ∧ no_entry v ip is_free ∧ dir_count ip' = dir_count ip ∧
      ∀ j, 0 ≤ j < dir_count ip → dir_entry v' ip' j = dir_entry v ip j)).
Proof.
  intros Hr Hd Hname Hinum Hplace Hsm. pose proof (do_align _ _ Hd) as Hal. pose proof (do_inode _ _ Hd) as Hio. pose proof (io_size _ Hio) as Hsz.
  assert (Hk : 0 ≤ k ≤ dir_count ip) by (destruct Hplace as [(? & _)|[_ ->]]; unfold DE_SIZE in *; lia).
  pose proof (make_dirent_length name inum) as Hlen. set (src := make_dirent name inum) in *.
  assert (HlenZ : Z.of_nat (length src) = DE_SIZE) by (rewrite Hlen; done).
  destruct (write_inode_run s v ip src (DE_SIZE * k) Hr (do_file _ _ Hd) Hio) as (n & s' & v' & ip' & H1 & Hr' & HW);
    [by apply make_dirent_bytes|unfold DE_SIZE; lia|unfold DE_SIZE in *; lia|]. rewrite HlenZ in H1.
  pose proof (wp_count _ _ _ _ _ _ _ HW) as Hn. pose proof (wp_size _ _ _ _ _ _ _ HW) as Hsz'. pose proof (wp_full _ _ _ _ _ _ _ HW) as Hfull.
  rewrite HlenZ in Hn, Hfull. pose proof (entry_place k ltac:(lia)) as Hpl.
  assert (Hother : ∀ j, 0 ≤ j < dir_count ip → j ≠ k ∨ n = 0 → dir_entry v' ip' j = dir_entry v ip j).
  { intros j Hj Hjk. unfold dir_entry, file_bytes. f_equal. apply list_fmap_ext. intros i x [-> Hi]%lookup_seqZ.
    rewrite (wp_byte _ _ _ _ _ _ _ HW) by (unfold DE_SIZE in *; lia). unfold splat. rewrite decide_False; [done|].
    rewrite slice_len by (rewrite ?HlenZ; lia). unfold DE_SIZE in *. lia. }
  assert (Hn32 : n = DE_SIZE ∨ n = 0).
  { destruct (decide (n = DE_SIZE)) as [|Hne]; [by left|right]. destruct (decide (n = 0)) as [|Hn0]; [done|exfalso].
    destruct Hfull as [_ Hz]; [lia|]. apply (wp_slot _ _ _ _ _ _ _ HW (DE_SIZE * k)); [lia|].
    destruct (same_block (DE_SIZE * k) n) as [Heq _]; [unfold DE_SIZE; lia|lia|lia|]. by rewrite <-Heq. }
  exists (i32 n), s', v', ip'. split_and!; [done|done|intros b Hb Hne; by apply HW|]. destruct Hn32 as [-> | ->]; [left|right].
  - split; [done|]. assert (Hcnt : dir_count ip' = Z.max (dir_count ip) (k + 1)).
    { unfold dir_count. rewrite Hsz', Hal. unfold DE_SIZE in *. Z.to_euclidean_division_equations. lia. }
    assert (Hnew : dir_entry v' ip' k = mk_dirent inum (strncpy_bytes name (Z.to_nat DIRSIZ) ++ replicate 4 0)).
    { rewrite <-get_make_dirent by (unfold DATA_BLOCK, INODE_BLOCK in *; lia). fold src. unfold dir_entry. f_equal.
      apply (list_eq_same_length _ _ 32); [done|by rewrite tree_bytes_length|]. intros i x y Hi Hx Hy.
      unfold tree_bytes in Hx. rewrite list_lookup_fmap, lookup_seqZ_lt in Hx by (unfold DE_SIZE; lia). simpl in Hx. injection Hx as <-.
      rewrite (wp_byte _ _ _ _ _ _ _ HW) by (unfold DE_SIZE in *; lia). unfold splat, slice. rewrite drop_0, take_ge by (rewrite Hlen; done).
      rewrite decide_True by (rewrite Hlen; lia). replace (DE_SIZE * k + Z.of_nat i - DE_SIZE * k) with (Z.of_nat i) by lia. by rewrite Nat2Z.id, Hy. }
    split; [|apply HW|done|done|done|by intros j Hj Hjk; apply Hother; [|left]].
    split; [apply HW|apply HW| | | | |].
    + destruct (wp_meta _ _ _ _ _ _ _ HW) as (_ & -> & _). apply Hd.
    + rewrite Hsz', Hcnt, Hal. unfold DE_SIZE in *. lia.
    + intros i Hi. rewrite Hsz' in Hi. destruct (decide (DE_SIZE * k ≤ i < DE_SIZE * k + DE_SIZE)); [by apply HW|].
      assert (Hi' : 0 ≤ i < ei_size ip) by (unfold DE_SIZE in *; lia). assert (Hi32 : 0 ≤ i < 2 ^ 32) by lia.
      destruct (byte_block i Hi32) as [Hb _]. destruct (pos_of_valid _ Hb) as [Hp _].
      rewrite (wp_keep _ _ _ _ _ _ _ HW) by (done || by apply Hd). by apply Hd.
    + intros j Hj. destruct (decide (j = k)) as [->|Hjk]; [rewrite Hnew; simpl; lia|]. rewrite Hcnt in Hj.
      assert (0 ≤ j < dir_count ip) by (destruct Hplace as [(? & _)|[_ ->]]; lia). rewrite Hother by (done || by left). by apply Hd.
    + rewrite Hsz'. unfold DE_SIZE in *. lia.
  - assert (Hlt : 0 < DE_SIZE) by done. destruct (Hfull Hlt) as [Hful Hz]. split; [done|]. split; [done|]. rewrite Z.add_0_r in Hz, Hsz'. split_and!.
    + destruct Hplace as [(Hkc & _)|[? _]]; [exfalso|done]. apply (do_blocks _ _ Hd (DE_SIZE * k)); [unfold DE_SIZE in *; lia|].
      assert (Hi32 : 0 ≤ DE_SIZE * k < 2 ^ 32) by (unfold DE_SIZE in *; lia). destruct (byte_block _ Hi32) as [Hb _]. destruct (pos_of_valid _ Hb) as [Hp _].
      destruct (decide (slot v ip (pos_of (DE_SIZE * k / BSIZE)) = 0)) as [|Hnz]; [done|]. by rewrite <-(wp_keep _ _ _ _ _ _ _ HW).
    + unfold dir_count. rewrite Hsz', Hal. unfold DE_SIZE in *. Z.to_euclidean_division_equations. lia.
    + intros j Hj. apply Hother; [done|by right].
Qed.

Lemma same_entries v ip v' ip' : dir_ok v ip → changes (λ _ b, b) v ip v' ip' →
  dir_count ip' = dir_count ip ∧ ∀ j, 0 ≤ j < dir_count ip → dir_entry v' ip' j = dir_entry v ip j.
Proof.
  intros Hd Hg. destruct (gr_meta _ _ _ _ Hg) as (_ & _ & _ & H4). split; [unfold dir_count; by rewrite H4|].
  pose proof (do_align _ _ Hd). pose proof (do_small _ _ Hd). intros j Hj. apply entry_ext; [lia|unfold DE_SIZE in *; lia|apply Hg].
Qed.
Lemma first_same v ip v' ip' stop k :
  dir_count ip' = dir_count ip → (∀ j, 0 ≤ j < dir_count ip → dir_entry v' ip' j = dir_entry v ip j) →
  (first_entry v' ip' stop k ↔ first_entry v ip stop k) ∧ (no_entry v' ip' stop ↔ no_entry v ip stop).
Proof.
  intros Hc He. split; [unfold first_entry; rewrite Hc; split|unfold no_entry; rewrite Hc; split].
  - intros (Hk & Hs & Hb). rewrite He in Hs by done. split_and!; [lia|lia|done|]. intros j Hj. rewrite <-He by lia. by apply Hb.
  - intros (Hk & Hs & Hb). rewrite <-He in Hs by done. split_and!; [lia|lia|done|]. intros j Hj. rewrite He by lia. by apply Hb.
  - intros Hn j Hj. rewrite <-He by done. by apply Hn.
  - intros Hn j Hj. rewrite He by done. by apply Hn.
Qed.

(** What dirlink leaves and returns. *)
Inductive dirlink_post (fill : Z → einode → bool) (name : cstring) (inum : Z) (v : Z → block) (ip : einode) (v' : Z → block) (ip' : einode) : Z → Prop :=
  | Dexists k : first_entry v ip (same_name name) k →
      fill (inode_num (dir_entry v ip k)) (on_disk v (inode_num (dir_entry v ip k))) = true →
      changes (λ _ b, b) v ip v' ip' → dirlink_post fill name inum v ip v' ip' (-1)
  | Dlinked k : linked v ip name inum k v' ip' → dirlink_post fill name inum v ip v' ip' 0
  | Dfull : full v' → no_entry v ip is_free → dir_count ip' = dir_count ip →
      (∀ j, 0 ≤ j < dir_count ip → dir_entry v' ip' j = dir_entry v ip j) → dirlink_post fill name inum v ip v' ip' (-1).

Lemma dirlink_run fill name inum s v ip :
  bs_rel s v [] ∅ → dir_ok v ip → Forall byte_ok name → 1 ≤ inum < 64 * (DATA_BLOCK - INODE_BLOCK) → ei_size ip + 2 * DE_SIZE < 2 ^ 31 →
  ∃ r s' v' ip', dirlink fill name inum (mk_estate s ip) = Ret (r, mk_estate s' ip') ∧ bs_rel s' v' [] ∅ ∧
    (∀ b, foreign v ip b → b ≠ inode_blkno (ei_ino ip) → v' b = v b) ∧ dirlink_post fill name inum v ip v' ip' r.
Proof.
  intros Hr Hd Hname Hinum Hsm. unfold dirlink.
  destruct (lookup_run fill name s v ip Hr Hd) as (r & s1 & v1 & ip1 & H1 & Hr1 & Hg1 & Hp). rewrite (bind_Ret _ _ _ _ _ H1). destruct r as [x|].
  { destruct Hp as [[? _]|(k & Hk & Hx)]; [done|]. cbv zeta in Hx. destruct (fill _ _) eqn:Ef; [|done].
    exists (-1), s1, v1, ip1. split_and!; [done|done|intros b Hb _; by apply Hg1|by apply (Dexists _ _ _ _ _ _ _ k)]. }
  clear Hp. pose proof (dir_grows _ _ _ _ Hd Hg1) as Hd1. destruct (scan_entries_run "dirlink read" is_free s1 v1 ip1 Hr1 Hd1) as (off & o & s2 & v2 & ip2 & H2 & Hr2 & Hg2 & Hp).
  rewrite (bind_Ret _ _ _ _ _ H2). cbn [fst]. pose proof (grows_trans _ _ _ _ _ _ Hg1 Hg2) as Hg12. pose proof (dir_grows _ _ _ _ Hd Hg12) as Hd2.
  destruct (same_entries _ _ _ _ Hd1 Hg2) as [Hc2 He2]. destruct (same_entries _ _ _ _ Hd Hg12) as [Hc12 He12].
  assert (Hpl : ∃ k, off = DE_SIZE * k ∧ (first_entry v2 ip2 is_free k ∨ (no_entry v2 ip2 is_free ∧ k = dir_count ip2))).
  { destruct o as [de|].
    - destruct Hp as (k & -> & _ & Hk). exists k. split; [done|left]. by apply (first_same v1 ip1).
    - destruct Hp as [-> Hno]. exists (dir_count ip2). split; [rewrite Hc2; apply (do_align _ _ Hd1)|right]. split; [|done]. by apply (first_same v1 ip1 v2 ip2 is_free 0). }
  destruct Hpl as (k & -> & Hpl). destruct (gr_meta _ _ _ _ Hg12) as (Hm1 & _ & _ & Hm4).
  destruct (write_entry_run s2 v2 ip2 name inum k Hr2 Hd2 Hname Hinum Hpl) as (n & s3 & v3 & ip3 & H3 & Hr3 & Hfr & Hpost); [by rewrite Hm4|].
  rewrite (bind_Ret _ _ _ _ _ H3).
  assert (Hframe : ∀ b, foreign v ip b → b ≠ inode_blkno (ei_ino ip) → v3 b = v b).
  { intros b Hb Hne. rewrite Hfr; [by apply Hg12|by apply (grows_foreign _ _ _ _ _ _ Hg12)|by rewrite Hm1]. }
  assert (Hfs : ∀ stop j, (first_entry v2 ip2 stop j ↔ first_entry v ip stop j) ∧ (no_entry v2 ip2 stop ↔ no_entry v ip stop)) by (intros; by apply first_same).
  destruct Hpost as [(-> & HL)|(Hn & Hful & Hno & Hcnt & Hent)].
  - rewrite decide_False by auto. exists 0, s3, v3, ip3. split_and!; [done|done|done|]. apply (Dlinked _ _ _ _ _ _ _ k). destruct HL as [L1 L2 L3 L4 L5 L6].
    split; [done|done| |by rewrite <-Hc12|done|].
    + destruct L3 as [L3|[L3 ->]]; [left; by apply Hfs|right]. split; [by apply (Hfs is_free 0)|done].
    + intros j Hj Hjk. rewrite L6, He12 by (done || by rewrite Hc12). done.
  - rewrite decide_True by done. exists (-1), s3, v3, ip3. split_and!; [done|done|done|]. apply Dfull; [done|by apply (Hfs is_free 0)|congruence|].
    intros j Hj. rewrite Hent, He12 by (done || by rewrite Hc12). done.
Qed.

(** The entry dirlink made is the one lookup finds, and the other names keep theirs. *)
Lemma linked_lookup v ip name inum k v' ip' :
  dir_ok v ip → linked v ip name inum k v' ip' → inum ≠ 0 → Forall (λ c, c ≠ 0) name → no_entry v ip (same_name name) →
  first_entry v' ip' (same_name name) k ∧
  ∀ other j, take (Z.to_nat DIRSIZ) other ≠ take (Z.to_nat DIRSIZ) name → first_entry v' ip' (same_name other) j ↔ first_entry v ip (same_name other) j.
Proof.
  intros Hd [L1 L2 L3 L4 L5 L6] Hi Hname Hno. pose proof (do_align _ _ Hd). pose proof (io_size _ (do_inode _ _ Hd)).
  assert (Hk : 0 ≤ k ≤ dir_count ip) by (destruct L3 as [(? & _)|[_ ->]]; unfold DE_SIZE in *; lia). split.
  - split_and!; [lia|lia|rewrite L5; by apply make_dirent_found|]. intros j Hj. rewrite L6 by lia. apply Hno. lia.
  - intros other j Hne.
    assert (Hkf : same_name other (dir_entry v' ip' k) = false).
    { rewrite L5. unfold same_name. cbn [inode_num de_name]. rewrite andb_false_iff. right. unfold strncpy_bytes. rewrite <-app_assoc, <-replicate_add.
      rewrite until_nul_cstr by (by apply Forall_take). unfold name_eq. rewrite take_take, Nat.min_id. by apply bool_decide_eq_false_2. }
    assert (Hkf0 : k < dir_count ip → same_name other (dir_entry v ip k) = false).
    { intros Hlt. destruct L3 as [(_ & Hfree & _)|[_ ->]]; [|lia]. unfold is_free in Hfree. unfold same_name. by rewrite Hfree. }
    unfold first_entry. rewrite L4. split.
    + intros (Hj & Hs & Hb). assert (j ≠ k) by congruence. rewrite L6 in Hs by lia. split_and!; [lia|lia|done|]. intros i Hij.
      destruct (decide (i = k)) as [->|]; [apply Hkf0; lia|]. rewrite <-L6 by lia. by apply Hb.
    + intros (Hj & Hs & Hb). assert (j ≠ k) by (intros ->; rewrite Hkf0 in Hs by lia; done). rewrite <-L6 in Hs by lia. split_and!; [lia|lia|done|]. intros i Hij.
      destruct (decide (i = k)) as [->|]; [done|]. rewrite L6 by lia. by apply Hb.
Qed.

(** * Theorems *)

(** Lookup. *)
Theorem easyfs_lookup_spec fill name s v ip :
  bs_rel s v [] ∅ → dir_ok v ip →
  ∃ r s' v' ip', easyfs_vfs_lookup fill name (mk_estate s ip) = Ret (r, mk_estate s' ip') ∧ bs_rel s' v' [] ∅ ∧ changes (λ _ b, b) v ip v' ip' ∧
    ((r = None ∧ no_entry v ip (same_name name)) ∨
     (∃ k, first_entry v ip (same_name name) k ∧ let ino := inode_num (dir_entry v ip k) in
        r = if fill ino (on_disk v ino) then Some (DE_SIZE * k, ino, on_disk v ino) else None)).
Proof. apply lookup_run. Qed.

(** dirlink returns -1 when the name has an entry; otherwise it stores
    the entry in the first free slot or behind the last one and returns 0, or
    returns -1 with the disk full and the entries unchanged; blocks of other
    owners are unchanged and the directory stays well formed in memory and on
    the disk. *)
Theorem dirlink_spec fill name inum s v ip :
  bs_rel s v [] ∅ → dir_ok v ip → Forall byte_ok name → 1 ≤ inum < 64 * (DATA_BLOCK - INODE_BLOCK) → ei_size ip + 2 * DE_SIZE < 2 ^ 31 →
  ∃ r s' v' ip', dirlink fill name inum (mk_estate s ip) = Ret (r, mk_estate s' ip') ∧ bs_rel s' v' [] ∅ ∧
    (∀ b, foreign v ip b → b ≠ inode_blkno (ei_ino ip) → v' b = v b) ∧ dirlink_post fill name inum v ip v' ip' r.
Proof. apply dirlink_run. Qed.

(** C30: A name without zero bytes that is not in the directory and is linked
    by dirlink is then found by easyfs_vfs_lookup with the linked inode
    number, if the inode cache has a slot for it, and every name that differs
    in its first DIRSIZ bytes keeps its entry; dirlink fails only when the
    disk is full, and then every name keeps its entry. The directory is a file
    of whole entries without holes. *)
Theorem dirlink_lookup fill fill' name inum s v ip :
  bs_rel s v [] ∅ → dir_ok v ip → Forall (λ c, 1 ≤ c < 2 ^ 8) name → 1 ≤ inum < 64 * (DATA_BLOCK - INODE_BLOCK) → ei_size ip + 2 * DE_SIZE < 2 ^ 31 →
  no_entry v ip (same_name name) →
  ∃ r s1 v1 ip1, dirlink fill name inum (mk_estate s ip) = Ret (r, mk_estate s1 ip1) ∧ bs_rel s1 v1 [] ∅ ∧
    ((r = -1 ∧ full v1 ∧ ∀ other j, first_entry v1 ip1 (same_name other) j ↔ first_entry v ip (same_name other) j) ∨
     (r = 0 ∧ (∃ k s2 ip2, easyfs_vfs_lookup fill' name (mk_estate s1 ip1) =
        Ret (if fill' inum (on_disk v1 inum) then Some (DE_SIZE * k, inum, on_disk v1 inum) else None, mk_estate s2 ip2)) ∧
      ∀ other j, take (Z.to_nat DIRSIZ) other ≠ take (Z.to_nat DIRSIZ) name →
        first_entry v1 ip1 (same_name other) j ↔ first_entry v ip (same_name other) j)).
Proof.
  intros Hr Hd Hname Hinum Hsm Hno.
  assert (Hb : Forall byte_ok name ∧ Forall (λ c, c ≠ 0) name) by (split; (eapply Forall_impl; [exact Hname|]); unfold byte_ok; simpl; lia).
  destruct Hb as [Hb1 Hb2]. destruct (dirlink_run fill name inum s v ip Hr Hd Hb1 Hinum Hsm) as (r & s1 & v1 & ip1 & H1 & Hr1 & _ & Hp).
  exists r, s1, v1, ip1. split_and!; [done|done|]. destruct Hp as [k (Hk & Hs & _) _ _|k HL|Hful _ Hcnt Hent]; [by rewrite Hno in Hs|right|left].
  - destruct (linked_lookup v ip name inum k v1 ip1) as [Hfst Hoth]; [done|done|lia|done|done|]. split_and!; [done| |done].
    destruct (lookup_run fill' name s1 v1 ip1 Hr1 (ln_ok _ _ _ _ _ _ _ HL)) as (r & s2 & v2 & ip2 & H2 & _ & _ & [[_ Hno2]|(k' & Hk' & Hrr)]).
    { destruct Hfst as (Hk & Hs & _). by rewrite Hno2 in Hs. }
    assert (k' = k) as ->.
    { destruct Hfst as (Hk & Hs & Hbf), Hk' as (Hk' & Hs' & Hbf'). destruct (decide (k' < k)); [by rewrite Hbf in Hs' by lia|].
      destruct (decide (k < k')); [by rewrite Hbf' in Hs by lia|]. lia. }
    cbv zeta in Hrr. rewrite (ln_new _ _ _ _ _ _ _ HL) in Hrr. simpl in Hrr. exists k, s2, ip2. by rewrite H2, Hrr.
  - split_and!; [done|done|]. intros other j. unfold first_entry. rewrite Hcnt. split; intros (Hj & Hs & Hbf).
    + rewrite <-Hent by done. split_and!; [lia|lia|done|]. intros i Hi. rewrite <-Hent by lia. by apply Hbf.
    + rewrite Hent by done. split_and!; [lia|lia|done|]. intros i Hi. rewrite Hent by lia. by apply Hbf.
Qed.
End dirs.

(** * Witnesses *)

(** The empty directory with inode number 1 on the empty disk of Easyfs.v. *)
#[local] Existing Instance mem_disk.
#[local] Existing Instance demo_store.
Definition demo_dir : einode := mk_einode 1 VFS_DIR 1 0 (replicate 12 0).

Lemma demo_dir_ok v : dir_ok v demo_dir.
Proof.
  assert (H0 : dir_count demo_dir = 0) by done. split; [| |done|done| | |done].
  - destruct (demo_file_ok v) as [Hl Hu Hj]. by split.
  - destruct demo_inode_ok as [H1 H2 H3 H4]. by split.
  - intros i Hi. simpl in Hi. lia.
  - intros k Hk. rewrite H0 in Hk. lia.
Qed.
Lemma demo_name : Forall (λ c, 1 ≤ c < 2 ^ 8) [97; 98].
Proof. rewrite !Forall_cons. split_and!; done || lia. Qed.

Lemma easyfs_lookup_spec_witness :
  ∃ r s' v' ip', easyfs_vfs_lookup (λ _ _, true) [97; 98] (mk_estate demo_ready demo_dir) = Ret (r, mk_estate s' ip') ∧ bs_rel s' v' [] ∅ ∧
    changes (λ _ b, b) (view demo_ready) demo_dir v' ip' ∧
    ((r = None ∧ no_entry (view demo_ready) demo_dir (same_name [97; 98])) ∨
     (∃ k, first_entry (view demo_ready) demo_dir (same_name [97; 98]) k ∧ let ino := inode_num (dir_entry (view demo_ready) demo_dir k) in
        r = Some (DE_SIZE * k, ino, on_disk (view demo_ready) ino))).
Proof. apply (easyfs_lookup_spec (λ _ _, true) [97; 98] demo_ready (view demo_ready) demo_dir); [exact demo_store_rel|apply demo_dir_ok]. Defined.

Lemma dirlink_spec_witness :
  ∃ r s' v' ip', dirlink (λ _ _, true) [97; 98] 5 (mk_estate demo_ready demo_dir) = Ret (r, mk_estate s' ip') ∧ bs_rel s' v' [] ∅ ∧
    (∀ b, foreign (view demo_ready) demo_dir b → b ≠ inode_blkno 1 → v' b = view demo_ready b) ∧
    dirlink_post (λ _ _, true) [97; 98] 5 (view demo_ready) demo_dir v' ip' r.
Proof.
  apply (dirlink_spec (λ _ _, true) [97; 98] 5 demo_ready (view demo_ready) demo_dir);
    [exact demo_store_rel|apply demo_dir_ok|eapply Forall_impl; [exact demo_name|unfold byte_ok; simpl; lia]|unfold DATA_BLOCK, INODE_BLOCK; lia|done].
Defined.

Lemma dirlink_lookup_witness :
  ∃ r s1 v1 ip1, dirlink (λ _ _, true) [97; 98] 5 (mk_estate demo_ready demo_dir) = Ret (r, mk_estate s1 ip1) ∧ bs_rel s1 v1 [] ∅ ∧
    ((r = -1 ∧ full v1 ∧ ∀ other j, first_entry v1 ip1 (same_name other) j ↔ first_entry (view demo_ready) demo_dir (same_name other) j) ∨
     (r = 0 ∧ (∃ k s2 ip2, easyfs_vfs_lookup (λ _ _, true) [97; 98] (mk_estate s1 ip1) = Ret (Some (DE_SIZE * k, 5, on_disk v1 5), mk_estate s2 ip2)) ∧
      ∀ other j, take (Z.to_nat DIRSIZ) other ≠ take (Z.to_nat DIRSIZ) [97; 98] →
        first_entry v1 ip1 (same_name other) j ↔ first_entry (view demo_ready) demo_dir (same_name other) j)).
Proof.
  apply (dirlink_lookup (λ _ _, true) (λ _ _, true) [97; 98] 5 demo_ready (view demo_ready) demo_dir);
    [exact demo_store_rel|apply demo_dir_ok|exact demo_name|unfold DATA_BLOCK, INODE_BLOCK; lia|done|].
  intros j Hj. change (dir_count demo_dir) with 0 in Hj. lia.
Defined.
