(* ===== verification/TmpfsFile.v ===== *)
(** kernel/fs/tmpfs/inode.c: the data of a file of tmpfs.

    A file is kept in pages: [heap] holds the bytes of the pages tmpfs has, by
    address, an index page holding 512 little-endian addresses; an access to an
    address that is no such page is a [Fault].  kalloc gives a zeroed page, and
    kfree takes it away again; the pages come from any [PageAllocator].  The
    state is that of one inode, whose pages are a tree (IndexTree.v), next to
    the pages of the others.  Pointers that the code only compares with null are
    arguments; the lock of the inode is a flag, and a thread that finds it taken
    waits ([NoFuel]). *)
From S2P Require Import Prelude Kalloc Block IndexTree.

(** tmpfs.h *)
Definition TMPFS_NDIRECT : Z := 10.
Definition TMPFS_NINDIRECT : Z := PGSIZE / 8.
Definition TMPFS_NDINDIRECT : Z := TMPFS_NINDIRECT * TMPFS_NINDIRECT.
Definition TMPFS_MAXFILE : Z := TMPFS_NDIRECT + TMPFS_NINDIRECT + TMPFS_NDINDIRECT.
Definition TMPFS_SIGNDIRECT_INDEX : Z := TMPFS_NDIRECT.
Definition TMPFS_DINDIRECT_INDEX : Z := TMPFS_NDIRECT + 1.

Record tmpfs_inode := mk_tin {
  ti_type : Z;
  ti_nlinks : Z;
  ti_ino : Z;
  ti_size : Z;
  ti_dir : Z;
  ti_blocks : list Z
}.

Record tpages (P : Type) := mk_tpages { tp_alloc : P; heap : gmap Z block }.
Arguments mk_tpages {_} _ _.
Arguments tp_alloc {_} _.
Arguments heap {_} _.

Record tstate (P : Type) := mk_tstate { tpg : tpages P; tin : tmpfs_inode; v_lock : bool }.
Arguments mk_tstate {_} _ _ _.
Arguments tpg {_} _.
Arguments tin {_} _.
Arguments v_lock {_} _.

(** The positions of IndexTree.v in an inode of tmpfs. *)
Abbreviation tvalid := (tree_valid TMPFS_NDIRECT TMPFS_NINDIRECT).
Abbreviation troot := (tree_root TMPFS_NDIRECT).
Abbreviation tpos := (tree_pos TMPFS_NDIRECT TMPFS_NINDIRECT).

Section tmpfs.
Context {P : Type} `{PageAllocator P}.
Abbreviation st := (tstate P).

Definition set_tpg p (s : st) : st := mk_tstate p (tin s) (v_lock s).
Definition set_tin ip (s : st) : st := mk_tstate (tpg s) ip (v_lock s).
Definition set_v_lock b (s : st) : st := mk_tstate (tpg s) (tin s) b.
Definition on_tpg {A} (m : K (tpages P) A) : K st A := zoom tpg set_tpg m.

(** ** Pages *)

(** kalloc and kfree. *)
Definition new_page : K (tpages P) Z :=
  p ← zoom tp_alloc (λ x s, mk_tpages x (heap s)) page_alloc;
  if decide (p = 0) then mret 0 else
  modify (λ s, mk_tpages (tp_alloc s) (<[p := zero_block]> (heap s))) ;; mret p.
Definition free_page (p : Z) : K (tpages P) unit :=
  zoom tp_alloc (λ x s, mk_tpages x (heap s)) (page_free p) ;;
  modify (λ s, mk_tpages (tp_alloc s) (delete p (heap s))).

Definition get_page (a : Z) : K (tpages P) block := λ s,
  match heap s !! a with Some b => Ret (b, s) | None => Fault end.
Definition put_page (a : Z) (b : block) : K (tpages P) unit := λ s,
  match heap s !! a with Some _ => Ret (tt, mk_tpages (tp_alloc s) (<[a := b]> (heap s))) | None => Fault end.

Definition tblk (ip : tmpfs_inode) (i : Z) : Z := default 0 (ti_blocks ip !! Z.to_nat i).
Definition put_tblk (i a : Z) (ip : tmpfs_inode) : tmpfs_inode :=
  mk_tin (ti_type ip) (ti_nlinks ip) (ti_ino ip) (ti_size ip) (ti_dir ip) (<[Z.to_nat i := a]> (ti_blocks ip)).
Definition put_tsize (n : Z) (ip : tmpfs_inode) : tmpfs_inode :=
  mk_tin (ti_type ip) (ti_nlinks ip) (ti_ino ip) n (ti_dir ip) (ti_blocks ip).

(** The [i]-th address of the inode, or of the index page [a]. *)
Definition get_ent (w : option Z) (i : Z) : K st Z :=
  match w with
  | None => gets (λ s, tblk (tin s) i)
  | Some a => on_tpg (b ← get_page a; mret (rd64 b (8 * i)))
  end.
Definition put_ent (w : option Z) (i x : Z) : K st unit :=
  match w with
  | None => modify (λ s, set_tin (put_tblk i x (tin s)) s)
  | Some a => on_tpg (b ← get_page a; put_page a (wr64 b (8 * i) x))
  end.

(** ** tmpfs_bmap *)

(** An index page, allocated when it is missing and [alloc] is set. *)
Definition bmap_table (w : option Z) (i : Z) (alloc : bool) : K st Z :=
  indirect ← get_ent w i;
  if decide (indirect ≠ 0) then mret indirect else
  if negb alloc then mret 0 else
  indirect ← on_tpg new_page;
  if decide (indirect = 0) then mret 0 else
  put_ent w i indirect ;;
  mret indirect.

(** A data page. *)
Definition bmap_page (w : option Z) (i : Z) (alloc : bool) : K st Z :=
  a ← get_ent w i;
  if alloc && bool_decide (a = 0) then
    p ← on_tpg new_page;
    put_ent w i p ;;
    a ← get_ent w i;
    if decide (a = 0) then mret 0 else get_ent w i
  else get_ent w i.

Definition tmpfs_bmap (bn : Z) (alloc : bool) : K st Z :=
  if decide (bn < TMPFS_NDIRECT) then bmap_page None bn alloc else
  let bn := bn - TMPFS_NDIRECT in
  if decide (bn < TMPFS_NINDIRECT) then
    indirect ← bmap_table None TMPFS_NDIRECT alloc;
    if decide (indirect = 0) then mret 0 else bmap_page (Some indirect) bn alloc
  else
  let bn := bn - TMPFS_NINDIRECT in
  if decide (bn < TMPFS_NDINDIRECT) then
    dindirect ← bmap_table None (TMPFS_NDIRECT + 1) alloc;
    if decide (dindirect = 0) then mret 0 else
    indirect ← bmap_table (Some dindirect) (bn / TMPFS_NINDIRECT) alloc;
    if decide (indirect = 0) then mret 0 else
    bmap_page (Some indirect) (bn mod TMPFS_NINDIRECT) alloc
  else mret 0.

(** ** Freeing *)

(** An address that is not zero: [pre] frees what the page refers to, then the
    page is freed and the address cleared. *)
Definition tfree_slot (w : option Z) (i : Z) (pre : Z → K st unit) : K st unit :=
  a ← get_ent w i;
  if decide (a ≠ 0) then
    pre a ;;
    (a ← get_ent w i; on_tpg (free_page a)) ;;
    put_ent w i 0
  else mret tt.
Definition tfree_entries (pre : Z → K st unit) (indirect : Z) : K st unit :=
  forM (seqZ 0 TMPFS_NINDIRECT) (λ i, tfree_slot (Some indirect) i pre).
Definition free_none : Z → K st unit := λ _, mret tt.

Definition tmpfs_free_blocks : K st unit :=
  forM (seqZ 0 TMPFS_NDIRECT) (λ i, tfree_slot None i free_none) ;;
  tfree_slot None TMPFS_SIGNDIRECT_INDEX (tfree_entries free_none) ;;
  tfree_slot None TMPFS_DINDIRECT_INDEX (tfree_entries (tfree_entries free_none)).

Definition tmpfs_vfs_truncate (node private size : Z) : K st Z :=
  if decide (size ≠ 0 ∨ node = 0) then mret (-1) else
  if decide (private = 0) then mret (-1) else
  tmpfs_free_blocks ;;
  modify (λ s, set_tin (put_tsize 0 (tin s)) s) ;;
  mret 0.

(** ** Reading and writing *)

Definition vnode_lock : K st unit := λ s, if v_lock s then NoFuel else Ret (tt, set_v_lock true s).
Definition vnode_unlock : K st unit := modify (set_v_lock false).

(** One round of the loop: the offset and the bytes copied so far. *)
Definition tread_round (total : Z) : Z * list Z → K st ((Z * list Z) + (Z * list Z)) :=
  λ '(off, acc),
  if decide (off < total) then
    addr ← tmpfs_bmap (u32 (off / PGSIZE)) false;
    if decide (addr = 0) then mret (inr (off, acc)) else
    let len := min_u64 (PGSIZE - off mod PGSIZE) (total - off) in
    b ← on_tpg (get_page addr);
    mret (inl (u64 (off + len), acc ++ slice b (off mod PGSIZE) len))
  else mret (inr (off, acc)).

Definition tmpfs_vfs_read (f node private buffer off size : Z) : K st (Z * list Z) :=
  if decide (f = 0 ∨ node = 0 ∨ buffer = 0) then mret (-1, []) else
  if decide (u64 (off + size) < off) then mret (-1, []) else
  if decide (u64 (off + size) > TMPFS_MAXFILE * PGSIZE) then mret (-1, []) else
  if decide (private = 0) then mret (-1, []) else
  let total := u64 (off + size) in
  vnode_lock ;;
  isize ← gets (λ s, ti_size (tin s));
  if decide (isize ≤ off) then vnode_unlock ;; mret (0, []) else
  let total := if decide (total > isize) then isize else total in
  r ← loop (round_fuel (total - off)) (tread_round total) (off, []);
  vnode_unlock ;;
  mret (i32 (u64 (r.1 - off)), r.2).

(** The bytes at the buffer are [src]; [tot] of them are written. *)
Definition twrite_round (src : list Z) (total : Z) : Z * Z → K st ((Z * Z) + bool) :=
  λ '(off, tot),
  if decide (off < total) then
    addr ← tmpfs_bmap (u32 (off / PGSIZE)) true;
    if decide (addr = 0) then mret (inr false) else
    let len := min_u64 (PGSIZE - off mod PGSIZE) (total - off) in
    on_tpg (b ← get_page addr; put_page addr (blit b (off mod PGSIZE) (slice src tot len))) ;;
    mret (inl (u64 (off + len), tot + len))
  else mret (inr true).

Definition tmpfs_vfs_write (f node private buffer off size : Z) (src : list Z) : K st Z :=
  if decide (f = 0 ∨ node = 0 ∨ buffer = 0) then mret (-1) else
  if decide (u64 (off + size) < off) then mret (-1) else
  if decide (u64 (off + size) > TMPFS_MAXFILE * PGSIZE) then mret (-1) else
  if decide (private = 0) then mret (-1) else
  let total := u64 (off + size) in
  vnode_lock ;;
  ok ← loop (round_fuel (total - off)) (twrite_round src total) (off, 0);
  if negb ok then vnode_unlock ;; mret (-1) else
  modify (λ s, set_tin (put_tsize (max_u64 (ti_size (tin s)) total) (tin s)) s) ;;
  vnode_unlock ;;
  mret (i32 (u64 (total - off))).

(** * The tree of a file *)

Definition page (h : gmap Z block) (a : Z) : block := default zero_block (h !! a).
Definition tslot (h : gmap Z block) (ip : tmpfs_inode) : pos → Z :=
  tree_slot TMPFS_NDIRECT (tblk ip) (λ a i, rd64 (page h a) (8 * i)).
Definition towns (h : gmap Z block) (ip : tmpfs_inode) (a : Z) : Prop := a ≠ 0 ∧ ∃ p, tvalid p ∧ tslot h ip p = a.

(** The pages of a file are allocated and at one position each. *)
Record tfile_ok (h : gmap Z block) (ip : tmpfs_inode) : Prop := {
  tf_len : length (ti_blocks ip) = 12%nat;
  tf_in p : tvalid p → tslot h ip p ≠ 0 → is_Some (h !! tslot h ip p);
  tf_inj p q : tvalid p → tvalid q → tslot h ip p ≠ 0 → tslot h ip p = tslot h ip q → p = q
}.

(** The pages tmpfs has are not free, and nobody else has them; together with
    the free ones [L] they are the pages [all]. *)
Variable all : list Z.
Record pages_ok (s : tpages P) (L : list Z) : Prop := {
  pk_pool : page_pool (tp_alloc s) L;
  pk_page a b : heap s !! a = Some b → is_page a ∧ (a ∉ L) ∧ page_refs (tp_alloc s) a = 1 ∧ block_ok b;
  pk_all a : a ∈ all ↔ a ∈ L ∨ is_Some (heap s !! a)
}.

Abbreviation tbyte h ip := (tree_byte TMPFS_NDIRECT TMPFS_NINDIRECT (tslot h ip) (page h)).
Abbreviation tbytes h ip := (tree_bytes TMPFS_NDIRECT TMPFS_NINDIRECT (tslot h ip) (page h)).
Definition TMPFS_LIMIT : Z := TMPFS_MAXFILE * PGSIZE.

(** The inode but for its pages. *)
Definition tsame (ip ip' : tmpfs_inode) : Prop :=
  ti_type ip' = ti_type ip ∧ ti_nlinks ip' = ti_nlinks ip ∧ ti_ino ip' = ti_ino ip ∧ ti_size ip' = ti_size ip ∧ ti_dir ip' = ti_dir ip.

(** The file may have got pages, and its bytes changed as [ch] says. *)
Record tchanges (ch : Z → Z → Z) (h : gmap Z block) (ip : tmpfs_inode) (h' : gmap Z block) (ip' : tmpfs_inode) : Prop := {
  tc_ok : tfile_ok h' ip';
  tc_same : tsame ip ip';
  tc_slot p : tvalid p → tslot h ip p ≠ 0 → tslot h' ip' p = tslot h ip p;
  tc_byte i : 0 ≤ i < TMPFS_LIMIT → tbyte h' ip' i = ch i (tbyte h ip i);
  tc_dom a : is_Some (h' !! a) ↔ is_Some (h !! a) ∨ towns h' ip' a;
  tc_new a : towns h' ip' a → towns h ip a ∨ h !! a = None;
  tc_frame a : is_Some (h !! a) → ¬ towns h ip a → h' !! a = h !! a
}.
Abbreviation tgrows := (tchanges (λ _ b, b)).
(** * Lemmas *)

Lemma tslot_eq h ip p :
  tslot h ip p = match parent p with None => tblk ip (troot p) | Some (q, k) => sub_entry (λ a i, rd64 (page h a) (8 * i)) (tslot h ip q) k end.
Proof. apply tree_slot_eq. Qed.
Lemma tslot_child h ip p q k : parent p = Some (q, k) → tslot h ip q ≠ 0 → tslot h ip p = rd64 (page h (tslot h ip q)) (8 * k).
Proof. intros Hp Hq. rewrite tslot_eq, Hp. unfold sub_entry. by rewrite decide_False. Qed.
Lemma tslot_below h ip p q k : parent p = Some (q, k) → tslot h ip q = 0 → tslot h ip p = 0.
Proof. intros Hp Hq. by rewrite tslot_eq, Hp, Hq. Qed.
Lemma tpos_valid n : 0 ≤ n < TMPFS_MAXFILE → tvalid (tpos n) ∧ is_data (tpos n) = true.
Proof. apply tree_pos_valid. done. Qed.
Lemma tpos_inj n m : 0 ≤ n → 0 ≤ m → tpos n = tpos m → n = m.
Proof. apply tree_pos_inj. done. Qed.
Lemma ent_range k : 0 ≤ k < TMPFS_NINDIRECT → 0 ≤ 8 * k ∧ 8 * k + 7 < BSIZE.
Proof. unfold TMPFS_NINDIRECT, PGSIZE, BSIZE. change (4096 / 8) with 512. lia. Qed.
Lemma tslot_owns h ip p : tvalid p → tslot h ip p ≠ 0 → towns h ip (tslot h ip p).
Proof. intros Hp Hs. split; [done|]. by exists p. Qed.
Lemma towns_in h ip a : tfile_ok h ip → towns h ip a → is_Some (h !! a).
Proof. intros Hf [Hn (p & Hp & <-)]. by apply (tf_in _ _ Hf). Qed.

Lemma towns_dec h ip a : towns h ip a ∨ ¬ towns h ip a.
Proof.
  destruct (decide (a = 0)) as [->|Ha]; [right; by intros [? _]|].
  destruct (decide (Exists (λ p, tslot h ip p = a) (tree_positions TMPFS_NDIRECT TMPFS_NINDIRECT))) as [He|He].
  - left. split; [done|]. apply Exists_exists in He as (p & Hp & Hs). exists p. split; [by apply elem_of_positions|done].
  - right. intros [_ (p & Hp & Hs)]. apply He, Exists_exists. exists p. split; [by apply elem_of_positions|done].
Qed.

Lemma tblk_put ip i j a : length (ti_blocks ip) = 12%nat → 0 ≤ i < 12 → 0 ≤ j → tblk (put_tblk i a ip) j = if decide (j = i) then a else tblk ip j.
Proof.
  intros Hl Hi Hj. unfold tblk, put_tblk. simpl. destruct (decide (j = i)) as [->|].
  - by rewrite list_lookup_insert_eq by lia.
  - by rewrite list_lookup_insert_ne by lia.
Qed.
Lemma page_insert h a b c : page (<[a := b]> h) c = if decide (a = c) then b else page h c.
Proof. unfold page. destruct (decide (a = c)) as [->|Hne]; [by rewrite lookup_insert_eq|by rewrite lookup_insert_ne]. Qed.
Lemma page_delete h a c : a ≠ c → page (delete a h) c = page h c.
Proof. intros Hne. unfold page. by rewrite lookup_delete_ne. Qed.
Lemma page_some h a b : h !! a = Some b → page h a = b.
Proof. intros Ha. unfold page. by rewrite Ha. Qed.

(** A heap that agrees on the index pages has the same tree. *)
Lemma tslot_ext h ip h' ip' :
  ti_blocks ip' = ti_blocks ip →
  (∀ q, tvalid q → is_data q = false → tslot h ip q ≠ 0 → page h' (tslot h ip q) = page h (tslot h ip q)) →
  ∀ p, tvalid p → tslot h' ip' p = tslot h ip p.
Proof.
  intros Hb Hv p Hp. assert (Hblk : ∀ i, tblk ip' i = tblk ip i) by (intros i; unfold tblk; by rewrite Hb).
  unfold tslot at 1 2. rewrite (tree_slot_upd TMPFS_NDIRECT TMPFS_NINDIRECT (tblk ip) (λ a i, rd64 (page h a) (8 * i)) _ _ (Pdir 0) (tblk ip 0));
    [by case_decide; subst|..|done].
  - intros q Hq _. rewrite Hblk. by case_decide; subst.
  - intros q q' k Hq Hpar _ Hs. rewrite decide_False by (by intros ->). unfold tslot in Hv. rewrite Hv; [done| | |done].
    + by destruct (parent_valid TMPFS_NDIRECT TMPFS_NINDIRECT q q' k Hq Hpar).
    + by destruct (parent_child q q' k Hpar).
  - intros q k Hq Hpar. by destruct q.
  - done.
Qed.

(** ** One address of the tree *)

(** Where the address of the position [p] is stored. *)
Definition at_pos (h : gmap Z block) (ip : tmpfs_inode) (p : pos) (w : option Z) (i : Z) : Prop :=
  match parent p with
  | None => w = None ∧ i = troot p
  | Some (q, k) => w = Some (tslot h ip q) ∧ i = k ∧ tslot h ip q ≠ 0
  end.
Definition upd_heap (h : gmap Z block) (w : option Z) (i x : Z) : gmap Z block :=
  match w with None => h | Some a => <[a := wr64 (page h a) (8 * i) x]> h end.
Definition upd_inode (ip : tmpfs_inode) (w : option Z) (i x : Z) : tmpfs_inode :=
  match w with None => put_tblk i x ip | Some _ => ip end.

Definition heap_ok (h : gmap Z block) : Prop := ∀ a b, h !! a = Some b → block_ok b.
Lemma page_ok_heap h a : heap_ok h → block_ok (page h a).
Proof. intros Hh. unfold page. destruct (h !! a) as [b|] eqn:E; [by eapply Hh|]. apply zero_block_ok. Qed.

Lemma get_ent_run s p w i :
  tfile_ok (heap (tpg s)) (tin s) → tvalid p → at_pos (heap (tpg s)) (tin s) p w i →
  get_ent w i s = Ret (tslot (heap (tpg s)) (tin s) p, s).
Proof.
  intros Hf Hp Hat. unfold at_pos in Hat. rewrite tslot_eq. destruct (parent p) as [[q k]|] eqn:Epar.
  - destruct Hat as (-> & -> & Hq). destruct (parent_valid _ _ p q k Hp Epar) as (Hqv & _).
    destruct (tf_in _ _ Hf q Hqv Hq) as [b Hb]. unfold sub_entry. rewrite decide_False, (page_some _ _ _ Hb) by done.
    simpl. unfold on_tpg, zoom, get_page, mbind, K_bind. rewrite Hb. by destruct s.
  - by destruct Hat as [-> ->].
Qed.

(** The page an address is stored in is there. *)
Definition stored_in (h : gmap Z block) (w : option Z) : Prop := match w with None => True | Some a => is_Some (h !! a) end.
Lemma at_stored h ip p w i : tfile_ok h ip → tvalid p → at_pos h ip p w i → stored_in h w.
Proof.
  intros Hf Hp Hat. unfold at_pos in Hat. destruct (parent p) as [[q k]|] eqn:Epar; destruct Hat as (-> & Hat); [|done].
  apply Hf; [by destruct (parent_valid _ _ p q k Hp Epar)|by destruct Hat].
Qed.
Lemma put_ent_run s w i x :
  stored_in (heap (tpg s)) w →
  put_ent w i x s = Ret (tt, mk_tstate (mk_tpages (tp_alloc (tpg s)) (upd_heap (heap (tpg s)) w i x)) (upd_inode (tin s) w i x) (v_lock s)).
Proof.
  intros Hw. destruct w as [a|]; simpl in *; [|by destruct s as [[]]]. destruct Hw as [b Hb]. rewrite (page_some _ _ _ Hb).
  unfold on_tpg, zoom, get_page, put_page, mbind, K_bind. by rewrite Hb, Hb.
Qed.

(** Storing an address: a position whose entries are empty gets the zeroed page
    [x], or none. *)
Lemma upd_slots h ip p0 w i x :
  tfile_ok h ip → heap_ok h → tvalid p0 → at_pos h ip p0 w i → 0 ≤ x < 2 ^ 64 →
  (∀ p k, tvalid p → parent p = Some (p0, k) → tslot h ip p = 0) →
  (x ≠ 0 → page h x = zero_block ∧ ∀ q, tvalid q → tslot h ip q ≠ x) →
  ∀ p, tvalid p → tslot (upd_heap h w i x) (upd_inode ip w i x) p = if decide (p = p0) then x else tslot h ip p.
Proof.
  intros Hf Hh Hp0 Hat Hx Hch Hfresh p Hp. unfold at_pos in Hat. unfold tslot at 1 2.
  apply (tree_slot_upd TMPFS_NDIRECT TMPFS_NINDIRECT); [| | | |done].
  - intros q Hq Hn. unfold upd_inode. destruct (parent p0) as [[q0 k0]|] eqn:E0.
    + destruct Hat as (-> & _). rewrite decide_False; [done|]. intros ->. congruence.
    + destruct Hat as [-> ->]. pose proof (tree_root_range TMPFS_NDIRECT TMPFS_NINDIRECT q Hq Hn ltac:(done)).
      rewrite tblk_put; [|apply Hf|by apply (tree_root_range TMPFS_NDIRECT TMPFS_NINDIRECT)|lia].
      destruct (decide (q = p0)) as [->|Hne]; [by rewrite decide_True|]. rewrite decide_False; [done|].
      intros He. apply Hne. by apply (tree_root_inj TMPFS_NDIRECT TMPFS_NINDIRECT).
  - intros q q' k Hq Hpar Hqp Hs. fold (tslot h ip q') in *.
    destruct (parent_valid _ _ q q' k Hq Hpar) as (Hqv & Hk & _). destruct (ent_range k Hk) as [Hk0 Hk7].
    destruct (parent p0) as [[q0 k0]|] eqn:E0.
    + destruct Hat as (-> & -> & Hs0). destruct (parent_valid _ _ p0 q0 k0 Hp0 E0) as (Hqv0 & Hk' & _). destruct (ent_range k0 Hk') as [Hk0' Hk7'].
      simpl. rewrite page_insert. destruct (decide (tslot h ip q0 = tslot h ip q')) as [He|Hne].
      * assert (q0 = q') as -> by (by apply (tf_inj _ _ Hf)). pose proof (page_ok_heap h (tslot h ip q') Hh) as Hbk.
        destruct (decide (q = p0)) as [->|Hne].
        -- assert (k0 = k) as -> by congruence. by apply rd64_wr64.
        -- apply rd64_wr64_ne; try done. assert (k0 ≠ k); [|lia]. intros ->. apply Hne. by eapply parent_inj.
      * rewrite decide_False; [done|]. intros ->. congruence.
    + destruct Hat as [-> ->]. simpl. rewrite decide_False; [done|]. intros ->. congruence.
  - intros q k Hq Hpar. fold (tslot h ip q). split; [by apply (Hch q k)|]. intros Hx0. destruct (Hfresh Hx0) as [Hz Hne].
    assert (Hpx : page (upd_heap h w i x) x = zero_block); [|rewrite Hpx; apply rd64_zero].
    destruct (parent p0) as [[q0 k0]|] eqn:E0; destruct Hat as (-> & Hat); [|done]. simpl. rewrite page_insert, decide_False; [done|].
    destruct (parent_valid _ _ p0 q0 k0 Hp0 E0) as (Hqv0 & _). by apply Hne.
  - intros q k Hpar. rewrite Hpar in Hat. by destruct Hat as (_ & _ & ?).
Qed.
(** ** Pages *)

Lemma pages_heap s L : pages_ok s L → heap_ok (heap s).
Proof. intros Hp a b Ha. by destruct (pk_page _ _ Hp a b Ha) as (_ & _ & _ & ?). Qed.
Lemma pages_range s L a b : pages_ok s L → heap s !! a = Some b → 0 < a < 2 ^ 64.
Proof.
  intros Hp Ha. destruct (pk_page _ _ Hp a b Ha) as (Hpg & _). destruct (is_page_range a Hpg) as (? & ? & _). unfold PGSIZE in *. lia.
Qed.
(** The contents of a page changes. *)
Lemma pages_write s L a b b0 : pages_ok s L → heap s !! a = Some b0 → block_ok b → pages_ok (mk_tpages (tp_alloc s) (<[a := b]> (heap s))) L.
Proof.
  intros Hp Ha Hb. split; [apply Hp| |]; simpl.
  - intros c d. rewrite lookup_insert. case_decide as Hd; [|apply (pk_page _ _ Hp)].
    intros [= <-]. subst c. destruct (pk_page _ _ Hp a b0 Ha) as (? & ? & ? & _). by split_and!.
  - intros c. rewrite lookup_insert_is_Some', (pk_all _ _ Hp). split; [tauto|]. intros [?|[<-|?]]; [by left|right; by exists b0|by right].
Qed.

Lemma new_page_run s L :
  pages_ok s L →
  match L with
  | [] => new_page s = Ret (0, s)
  | x :: L' => ∃ s', new_page s = Ret (x, s') ∧ pages_ok s' L' ∧ heap s' = <[x := zero_block]> (heap s) ∧ heap s !! x = None ∧ 0 < x < 2 ^ 64
  end.
Proof.
  intros Hp. pose proof (pk_pool _ _ Hp) as HL. destruct L as [|x L].
  - unfold new_page, zoom. unfold mbind at 1, K_bind at 1. rewrite (page_alloc_nil _ HL). rewrite decide_True by done. by destruct s.
  - destruct (page_alloc_cons _ _ _ HL) as (p' & Ha & HL' & H1 & Href). destruct (page_pool_pages _ _ HL) as [Hnd Hpg].
    apply NoDup_cons in Hnd as [Hx Hnd]. destruct (is_page_range x) as (Hx0 & Hx1 & _); [apply Hpg; by left|].
    exists (mk_tpages p' (<[x := zero_block]> (heap s))).
    assert (Hnone : heap s !! x = None).
    { destruct (heap s !! x) as [b|] eqn:E; [|done]. destruct (pk_page _ _ Hp x b E) as (_ & Hn & _). destruct Hn. by left. }
    split_and!; [|split; simpl|done|done|done|unfold PGSIZE in *; lia].
    + unfold new_page, zoom. unfold mbind at 1, K_bind at 1. rewrite Ha. rewrite decide_False by lia. done.
    + done.
    + intros a b. rewrite lookup_insert. case_decide as Hd.
      * intros [= <-]. subst a. split_and!; [apply Hpg; by left|done|done|apply zero_block_ok].
      * intros Hab. destruct (pk_page _ _ Hp a b Hab) as (Hap & HaL & Har & Hab'). split_and!; [done| | |done].
        -- intros Hin. apply HaL. by right.
        -- by rewrite Href.
    + intros a. rewrite lookup_insert_is_Some', (pk_all _ _ Hp), elem_of_cons. naive_solver.
Qed.

Lemma free_page_run s L a b :
  pages_ok s L → heap s !! a = Some b →
  ∃ s', free_page a s = Ret (tt, s') ∧ pages_ok s' (a :: L) ∧ heap s' = delete a (heap s).
Proof.
  intros Hp Ha. destruct (pk_page _ _ Hp a b Ha) as (Hap & HaL & Har & _).
  destruct (page_free_last _ a L (pk_pool _ _ Hp) Hap HaL Har) as (p' & Hf & HL' & Href).
  exists (mk_tpages p' (delete a (heap s))). split_and!; [|split; simpl; [done| |]|done].
  - unfold free_page, zoom, mbind, K_bind. by rewrite Hf.
  - intros c d Hcd. apply lookup_delete_Some in Hcd as [Hne Hcd]. destruct (pk_page _ _ Hp c d Hcd) as (Hcp & HcL & Hcr & Hok).
    split_and!; [done| |by rewrite Href|done]. by intros [?|?]%elem_of_cons.
  - intros c. rewrite lookup_delete_is_Some, (pk_all _ _ Hp), elem_of_cons. destruct (decide (c = a)) as [->|]; [|naive_solver].
    split; [by left; left|]. intros _. right. by exists b.
Qed.

(** ** Growing *)

Lemma tgrows_refl h ip : tfile_ok h ip → tgrows h ip h ip.
Proof. intros Hf. split; try done; [|intros a; by left]. intros a. split; [by left|]. intros [?|?]; [done|by eapply towns_in]. Qed.
Lemma tchanges_owns ch h ip h' ip' a : tchanges ch h ip h' ip' → towns h ip a → towns h' ip' a.
Proof. intros Hc [Hn (p & Hp & <-)]. split; [done|]. exists p. split; [done|]. by apply (tc_slot _ _ _ _ _ Hc). Qed.
Lemma tchanges_trans ch1 ch2 h ip h1 ip1 h2 ip2 :
  tchanges ch1 h ip h1 ip1 → tchanges ch2 h1 ip1 h2 ip2 → tchanges (λ i b, ch2 i (ch1 i b)) h ip h2 ip2.
Proof.
  intros H1 H2. split.
  - apply H2.
  - pose proof (tc_same _ _ _ _ _ H1) as (?&?&?&?&?). pose proof (tc_same _ _ _ _ _ H2) as (?&?&?&?&?). split_and!; congruence.
  - intros p Hp Hs. rewrite (tc_slot _ _ _ _ _ H2), (tc_slot _ _ _ _ _ H1); [done..|]. by rewrite (tc_slot _ _ _ _ _ H1).
  - intros i Hi. by rewrite (tc_byte _ _ _ _ _ H2), (tc_byte _ _ _ _ _ H1).
  - intros a. rewrite (tc_dom _ _ _ _ _ H2), (tc_dom _ _ _ _ _ H1). split; [|naive_solver].
    intros [[?|Ho]|?]; [by left| |by right]. right. by apply (tchanges_owns ch2 h1 ip1).
  - intros a Ho. destruct (tc_new _ _ _ _ _ H2 a Ho) as [Ho1|Hn]; [by apply (tc_new _ _ _ _ _ H1)|].
    right. apply eq_None_not_Some. intros Hs. apply eq_None_not_Some in Hn. apply Hn, (tc_dom _ _ _ _ _ H1). by left.
  - intros a Ha Hno. rewrite (tc_frame _ _ _ _ _ H2), (tc_frame _ _ _ _ _ H1); [done|done|done|apply (tc_dom _ _ _ _ _ H1); by left|].
    intros Ho. destruct (tc_new _ _ _ _ _ H1 a Ho) as [?|Hn]; [done|]. apply eq_None_not_Some in Hn. done.
Qed.
Lemma tchanges_ext ch1 ch2 h ip h' ip' :
  tchanges ch1 h ip h' ip' → (∀ i, 0 ≤ i < TMPFS_LIMIT → ch1 i (tbyte h ip i) = ch2 i (tbyte h ip i)) → tchanges ch2 h ip h' ip'.
Proof. intros Hc He. split; try apply Hc. intros i Hi. rewrite <-He by done. by apply Hc. Qed.
Lemma tbyte_pos i : 0 ≤ i < TMPFS_LIMIT → 0 ≤ i / BSIZE < TMPFS_MAXFILE ∧ 0 ≤ i mod BSIZE < BSIZE.
Proof. unfold TMPFS_LIMIT, PGSIZE, BSIZE. intros. Z.to_euclidean_division_equations. lia. Qed.

(** The heap with one fresh page has the same tree. *)
Lemma fresh_slots h ip x b : tfile_ok h ip → h !! x = None → ∀ p, tvalid p → tslot (<[x := b]> h) ip p = tslot h ip p.
Proof.
  intros Hf Hx. apply tslot_ext; [done|]. intros q Hq _ Hs. rewrite page_insert, decide_False; [done|]. intros ->.
  destruct (tf_in _ _ Hf q Hq Hs) as [b' Hb]. congruence.
Qed.

(** What is in the heap after a fresh page was put at an empty position. *)
Lemma attach_heap h ip p0 w i x :
  tfile_ok h ip → tvalid p0 → at_pos h ip p0 w i → h !! x = None → 0 < x →
  let h' := upd_heap (<[x := zero_block]> h) w i x in
  (∀ a, a ≠ x → (∀ q, tvalid q → is_data q = false → tslot h ip q ≠ 0 → a ≠ tslot h ip q) → h' !! a = h !! a) ∧
  (∀ a, is_Some (h' !! a) ↔ is_Some (h !! a) ∨ a = x) ∧ page h' x = zero_block.
Proof.
  intros Hf Hp0 Hat Hx Hx0 h'. set (h1 := <[x := zero_block]> h) in *. unfold at_pos in Hat.
  assert (H1 : ∀ a, is_Some (h1 !! a) ↔ is_Some (h !! a) ∨ a = x) by (intros a; unfold h1; rewrite lookup_insert_is_Some'; naive_solver).
  assert (Hz : page h1 x = zero_block) by (unfold h1; by rewrite page_insert, decide_True).
  destruct (parent p0) as [[q k]|] eqn:E; destruct Hat as (-> & Hat); unfold h', upd_heap.
  - destruct Hat as [_ Hs]. destruct (parent_valid _ _ p0 q k Hp0 E) as (Hq & _). destruct (parent_child p0 q k E) as [Hd _].
    pose proof (tf_in _ _ Hf q Hq Hs) as Hin. split_and!.
    + intros a Hax Haq. rewrite lookup_insert_ne by (by apply not_eq_sym, Haq). unfold h1. by rewrite lookup_insert_ne.
    + intros a. rewrite lookup_insert_is_Some', H1. split; [|tauto]. intros [<-|?]; [by left|done].
    + rewrite page_insert, decide_False; [done|]. intros He. rewrite He, Hx in Hin. by destruct Hin.
  - split_and!; [|done|done]. intros a Hax _. unfold h1. by rewrite lookup_insert_ne.
Qed.

Lemma attach_grows h ip h' ip' p0 x :
  tfile_ok h ip → length (ti_blocks ip') = 12%nat → tsame ip ip' → tvalid p0 → tslot h ip p0 = 0 → h !! x = None → 0 < x →
  (∀ p, tvalid p → tslot h' ip' p = if decide (p = p0) then x else tslot h ip p) →
  (∀ a, a ≠ x → (∀ q, tvalid q → is_data q = false → tslot h ip q ≠ 0 → a ≠ tslot h ip q) → h' !! a = h !! a) →
  (∀ a, is_Some (h' !! a) ↔ is_Some (h !! a) ∨ a = x) → page h' x = zero_block →
  tgrows h ip h' ip'.
Proof.
  intros Hf Hlen Hsame Hp0 Hz Hx Hx0 Hsl Hlk Hdom Hxz.
  assert (Hne : ∀ q, tvalid q → tslot h ip q ≠ x).
  { intros q Hq He. destruct (tf_in _ _ Hf q Hq) as [b Hb]; [lia|]. congruence. }
  assert (Hown : ∀ a, towns h' ip' a ↔ towns h ip a ∨ a = x).
  { intros a. split.
    - intros [Ha (p & Hp & Hs)]. rewrite Hsl in Hs by done. case_decide; [by right|]. left. split; [done|]. by exists p.
    - intros [[Ha (p & Hp & Hs)]| ->]; (split; [done || lia|]); [exists p|exists p0]; (split; [done|]); rewrite Hsl by done.
      + rewrite decide_False; [done|]. intros ->. congruence.
      + by rewrite decide_True. }
  split; [split; [done| |]|done|..].
  - intros p Hp. rewrite Hsl by done. intros Hs. apply Hdom. case_decide; [by right|left]. by apply Hf.
  - intros p q Hp Hq. rewrite !Hsl by done. destruct (decide (p = p0)) as [->|], (decide (q = p0)) as [->|]; intros Hs He; try done.
    + by destruct (Hne q Hq).
    + by destruct (Hne p Hp).
    + by apply (tf_inj _ _ Hf).
  - intros p Hp Hs. rewrite Hsl by done. rewrite decide_False; [done|]. by intros ->.
  - intros j Hj. destruct (tbyte_pos j Hj) as [Hb _]. destruct (tpos_valid _ Hb) as [Hp Hd]. unfold tree_byte.
    rewrite Hsl by done. destruct (decide (tpos (j / BSIZE) = p0)) as [He|He].
    + rewrite He, Hz. rewrite decide_False by lia. rewrite decide_True by done. rewrite Hxz. apply byte_at_zero.
    + case_decide as Hs; [done|]. unfold page. rewrite Hlk; [done|by apply Hne|]. intros q Hq Hnd Hsq He'.
      assert (tpos (j / BSIZE) = q) as Heq by (by apply (tf_inj _ _ Hf)). rewrite Heq in Hd. congruence.
  - intros a. rewrite Hdom, Hown. split; [tauto|]. intros [?|[Ho|?]]; [by left|left|by right]. by eapply towns_in.
  - intros a. rewrite Hown. intros [?| ->]; [by left|by right].
  - intros a Ha Hno. apply Hlk; [intros ->; rewrite Hx in Ha; by destruct Ha|]. intros q Hq _ Hsq ->. apply Hno. by apply tslot_owns.
Qed.

(** A fresh page put at an empty position. *)
Lemma attach_page h ip p0 w i x :
  tfile_ok h ip → heap_ok h → tvalid p0 → at_pos h ip p0 w i → tslot h ip p0 = 0 → h !! x = None → 0 < x < 2 ^ 64 →
  let h1 := <[x := zero_block]> h in
  tfile_ok h1 ip ∧ at_pos h1 ip p0 w i ∧
  tgrows h ip (upd_heap h1 w i x) (upd_inode ip w i x) ∧ tslot (upd_heap h1 w i x) (upd_inode ip w i x) p0 = x.
Proof.
  intros Hf Hh Hp0 Hat Hz Hx Hx0 h1. pose proof (fresh_slots h ip x zero_block Hf Hx) as Hs1. fold h1 in Hs1.
  assert (Hne : ∀ q, tvalid q → tslot h ip q ≠ x).
  { intros q Hq He. destruct (tf_in _ _ Hf q Hq) as [b Hb]; [lia|]. congruence. }
  assert (Hf1 : tfile_ok h1 ip).
  { split; [apply Hf| |].
    - intros p Hp. rewrite Hs1 by done. intros Hs. unfold h1. rewrite lookup_insert_ne by (by apply not_eq_sym, Hne). by apply Hf.
    - intros p q Hp Hq. rewrite !Hs1 by done. by apply Hf. }
  assert (Hh1 : heap_ok h1).
  { intros a b. unfold h1. rewrite lookup_insert. case_decide; [|apply Hh]. intros [= <-]. apply zero_block_ok. }
  assert (Hat1 : at_pos h1 ip p0 w i).
  { unfold at_pos in *. destruct (parent p0) as [[q k]|] eqn:E; [|done]. destruct (parent_valid _ _ p0 q k Hp0 E) as (Hq & _). by rewrite Hs1. }
  assert (Hsl : ∀ p, tvalid p → tslot (upd_heap h1 w i x) (upd_inode ip w i x) p = if decide (p = p0) then x else tslot h ip p).
  { intros p Hp. rewrite (upd_slots h1 ip p0 w i x); [case_decide; [done|by apply Hs1]|done|done|done|done|lia| | |done].
    - intros q k Hq Hpar. rewrite Hs1 by done. by apply (tslot_below h ip q p0 k).
    - intros _. split; [unfold h1; by rewrite page_insert, decide_True|]. intros q Hq. rewrite Hs1 by done. by apply Hne. }
  destruct (attach_heap h ip p0 w i x Hf Hp0 Hat Hx) as (Hlk & Hdom & Hxz); [lia|]. fold h1 in Hlk, Hdom, Hxz.
  split_and!; [done|done| |by rewrite Hsl, decide_True]. apply (attach_grows h ip _ _ p0 x); try done; [|by unfold upd_inode; destruct w|lia].
  unfold upd_inode. destruct w; [apply Hf|]. simpl. rewrite length_insert. apply Hf.
Qed.

(** ** bmap *)

(** Storing the address that is there changes nothing. *)
Lemma upd_same h ip p w i :
  tfile_ok h ip → heap_ok h → tvalid p → at_pos h ip p w i → tslot h ip p = 0 → upd_heap h w i 0 = h ∧ upd_inode ip w i 0 = ip.
Proof.
  intros Hf Hh Hp Hat Hz. unfold at_pos in Hat. rewrite tslot_eq in Hz. destruct (parent p) as [[q k]|] eqn:E.
  - destruct Hat as (-> & -> & Hq). destruct (parent_valid _ _ p q k Hp E) as (Hqv & Hk & _). destruct (ent_range k Hk) as [Hk0 Hk7].
    destruct (tf_in _ _ Hf q Hqv Hq) as [b Hb]. unfold sub_entry in Hz. rewrite decide_False in Hz by done. simpl. split; [|done].
    rewrite wr64_zero; [|by apply page_ok_heap|done|done|done]. rewrite (page_some _ _ _ Hb). by apply insert_id.
  - destruct Hat as [-> ->]. simpl. split; [done|]. destruct ip as [ty nl no sz dr bl]. unfold put_tblk. simpl. f_equal.
    apply list_insert_id. unfold tblk in Hz. simpl in *. pose proof (tree_root_range _ _ p Hp E ltac:(done)) as Hr.
    destruct (lookup_lt_is_Some_2 bl (Z.to_nat (troot p))) as [y Hy]; [pose proof (tf_len _ _ Hf) as Hl; simpl in Hl; change (TMPFS_NDIRECT + 2) with 12 in Hr; lia|].
    rewrite Hy in *. simpl in Hz. by subst.
Qed.
(** What tmpfs_bmap and its parts give for the position [p]. *)
Record filled (p : pos) (alloc : bool) (s : st) (L : list Z) (r : Z) (s' : st) (L' : list Z) : Prop := {
  fi_pages : pages_ok (tpg s') L';
  fi_grow : tgrows (heap (tpg s)) (tin s) (heap (tpg s')) (tin s');
  fi_lock : v_lock s' = v_lock s;
  fi_slot : tslot (heap (tpg s')) (tin s') p = r;
  fi_none : alloc = false → s' = s ∧ L' = L;
  fi_full : alloc = true → r = 0 → L' = []
}.

Lemma filled_refl p alloc s L :
  pages_ok (tpg s) L → tfile_ok (heap (tpg s)) (tin s) → (alloc = true → tslot (heap (tpg s)) (tin s) p = 0 → L = []) →
  filled p alloc s L (tslot (heap (tpg s)) (tin s) p) s L.
Proof. intros Hp Hf Hl. split; try done. by apply tgrows_refl. Qed.
Lemma filled_trans q p alloc s L a s1 L1 r s2 L2 : filled q alloc s L a s1 L1 → filled p alloc s1 L1 r s2 L2 → filled p alloc s L r s2 L2.
Proof.
  intros H1 H2. split; [apply H2| |by rewrite (fi_lock _ _ _ _ _ _ _ H2), (fi_lock _ _ _ _ _ _ _ H1)|apply H2| |apply H2].
  - exact (tchanges_trans _ _ _ _ _ _ _ _ (fi_grow _ _ _ _ _ _ _ H1) (fi_grow _ _ _ _ _ _ _ H2)).
  - intros Ha. destruct (fi_none _ _ _ _ _ _ _ H1 Ha) as [-> ->]. by apply (fi_none _ _ _ _ _ _ _ H2).
Qed.
Lemma filled_below p q k alloc s L s1 L1 : parent p = Some (q, k) → filled q alloc s L 0 s1 L1 → filled p alloc s L 0 s1 L1.
Proof. intros Hp H1. split; try apply H1. by apply (tslot_below _ _ p q k); [|apply H1]. Qed.
Lemma filled_at p q k alloc s L a s1 L1 :
  parent p = Some (q, k) → filled q alloc s L a s1 L1 → a ≠ 0 → at_pos (heap (tpg s1)) (tin s1) p (Some a) k.
Proof. intros Hp H1 Ha. unfold at_pos. rewrite Hp, (fi_slot _ _ _ _ _ _ _ H1). done. Qed.

(** A new page stored at an empty position. *)
Lemma talloc_run s L p w i :
  pages_ok (tpg s) L → tfile_ok (heap (tpg s)) (tin s) → tvalid p → at_pos (heap (tpg s)) (tin s) p w i →
  tslot (heap (tpg s)) (tin s) p = 0 →
  ∃ x s1 s2 L2, on_tpg new_page s = Ret (x, s1) ∧ put_ent w i x s1 = Ret (tt, s2) ∧ (x = 0 → s2 = s1) ∧
    filled p true s L x s2 L2 ∧ get_ent w i s2 = Ret (x, s2).
Proof.
  intros Hp Hf Hv Hat Hz. pose proof (new_page_run (tpg s) L Hp) as Hn. pose proof (pages_heap _ _ Hp) as Hh. destruct L as [|x L].
  - exists 0, s, s, []. assert (Hnew : on_tpg new_page s = Ret (0, s)) by (unfold on_tpg, zoom; rewrite Hn; by destruct s).
    destruct (upd_same _ _ p w i Hf Hh Hv Hat Hz) as [E1 E2]. split_and!; [done| |done| |].
    + rewrite (put_ent_run s w i 0 (at_stored _ _ _ _ _ Hf Hv Hat)), E1, E2. by destruct s as [[] ? ?].
    + rewrite <-Hz at 1. by apply filled_refl.
    + by rewrite (get_ent_run s p w i Hf Hv Hat), Hz.
  - destruct Hn as (g & Hn & Hp' & Hg & Hx & Hx0).
    destruct (attach_page _ _ p w i x Hf Hh Hv Hat Hz Hx Hx0) as (Hf1 & Hat1 & Hgr & Hsl). rewrite <-Hg in *.
    set (s1 := mk_tstate g (tin s) (v_lock s)). pose proof (put_ent_run s1 w i x (at_stored _ _ _ _ _ Hf1 Hv Hat1)) as Hput. simpl in Hput.
    exists x, s1. eexists _, L. split_and!; [|exact Hput|lia| |].
    + unfold on_tpg, zoom. by rewrite Hn.
    + split; try done; [|lia]. simpl. clear Hput. unfold at_pos in Hat1. destruct (parent p) as [[q k]|] eqn:E.
      * destruct Hat1 as (-> & -> & Hq). destruct (parent_valid _ _ p q k Hv E) as (Hqv & _). destruct (tf_in _ _ Hf1 q Hqv Hq) as [b Hb].
        simpl. eapply pages_write; [exact Hp'|exact Hb|]. apply wr64_ok, page_ok_heap. by eapply pages_heap.
      * destruct Hat1 as [-> ->]. simpl. by destruct g.
    + rewrite (get_ent_run _ p w i); simpl; [by rewrite Hsl|apply Hgr|done|]. unfold at_pos in *. destruct (parent p) as [[q k]|] eqn:E; [|done].
      destruct Hat as (-> & -> & Hq). destruct (parent_valid _ _ p q k Hv E) as (Hqv & _). pose proof (tc_slot _ _ _ _ _ Hgr q Hqv Hq) as Hqs.
      by rewrite Hqs.
Qed.

Lemma table_run s L p w i alloc :
  pages_ok (tpg s) L → tfile_ok (heap (tpg s)) (tin s) → tvalid p → at_pos (heap (tpg s)) (tin s) p w i →
  ∃ r s' L', bmap_table w i alloc s = Ret (r, s') ∧ filled p alloc s L r s' L'.
Proof.
  intros Hp Hf Hv Hat. unfold bmap_table. rewrite (bind_Ret _ _ _ _ _ (get_ent_run s p w i Hf Hv Hat)).
  case_decide as Hz; [eexists _, s, L; split; [done|]; by apply filled_refl|].
  destruct alloc; simpl; [|exists 0, s, L; split; [done|]; rewrite <-Hz at 1; by apply filled_refl].
  destruct (talloc_run s L p w i Hp Hf Hv Hat Hz) as (x & s1 & s2 & L2 & Hn & Hput & Hx0 & Hfi & _). rewrite (bind_Ret _ _ _ _ _ Hn).
  case_decide as Hx; [|rewrite (bind_Ret _ _ _ _ _ Hput); by exists x, s2, L2]. exists 0, s1, L2. split; [done|]. rewrite <-(Hx0 Hx). by subst x.
Qed.

Lemma page_run s L p w i alloc :
  pages_ok (tpg s) L → tfile_ok (heap (tpg s)) (tin s) → tvalid p → at_pos (heap (tpg s)) (tin s) p w i →
  ∃ r s' L', bmap_page w i alloc s = Ret (r, s') ∧ filled p alloc s L r s' L'.
Proof.
  intros Hp Hf Hv Hat. unfold bmap_page. pose proof (get_ent_run s p w i Hf Hv Hat) as Hg. rewrite (bind_Ret _ _ _ _ _ Hg).
  destruct (alloc && _) eqn:Ea.
  - apply andb_true_iff in Ea as [-> Hz%bool_decide_eq_true].
    destruct (talloc_run s L p w i Hp Hf Hv Hat Hz) as (x & s1 & s2 & L2 & Hn & Hput & _ & Hfi & Hget).
    rewrite (bind_Ret _ _ _ _ _ Hn), (bind_Ret _ _ _ _ _ Hput), (bind_Ret _ _ _ _ _ Hget). exists x, s2, L2. split; [|done].
    case_decide as Hx; [by subst|done].
  - rewrite Hg. eexists _, s, L. split; [done|]. apply filled_refl; [done|done|]. intros -> Hz. by rewrite Hz in Ea.
Qed.

Lemma tmpfs_bmap_run s L bn alloc :
  pages_ok (tpg s) L → tfile_ok (heap (tpg s)) (tin s) → 0 ≤ bn < TMPFS_MAXFILE →
  ∃ r s' L', tmpfs_bmap bn alloc s = Ret (r, s') ∧ filled (tpos bn) alloc s L r s' L'.
Proof.
  intros Hp Hf Hbn. destruct (tpos_valid bn Hbn) as [Hv _]. unfold tmpfs_bmap. unfold tree_pos in *. unfold TMPFS_MAXFILE in Hbn.
  destruct (decide (bn < TMPFS_NDIRECT)) as [|H1]; [by apply (page_run s L (Pdir bn))|]. cbv zeta.
  rewrite (decide_ext (bn - TMPFS_NDIRECT < TMPFS_NINDIRECT) (bn < TMPFS_NDIRECT + TMPFS_NINDIRECT)) by lia.
  destruct (decide (bn < TMPFS_NDIRECT + TMPFS_NINDIRECT)) as [|H2].
  - destruct (table_run s L Psind None TMPFS_NDIRECT alloc Hp Hf I) as (a & s1 & L1 & Hr & H1f); [done|]. rewrite (bind_Ret _ _ _ _ _ Hr).
    case_decide as Ha; [subst a; exists 0, s1, L1; split; [done|]; by eapply filled_below|].
    destruct (page_run s1 L1 (Psent (bn - TMPFS_NDIRECT)) (Some a) (bn - TMPFS_NDIRECT) alloc) as (r & s2 & L2 & Hr2 & H2f);
      [apply H1f|apply (fi_grow _ _ _ _ _ _ _ H1f)|done|by eapply filled_at|]. exists r, s2, L2. split; [done|by eapply filled_trans].
  - rewrite decide_True by lia. set (n := bn - TMPFS_NDIRECT - TMPFS_NINDIRECT) in *. destruct Hv as [Hv1 Hv2].
    destruct (table_run s L Pdind None (TMPFS_NDIRECT + 1) alloc Hp Hf I) as (a & s1 & L1 & Hr & H1f); [done|]. rewrite (bind_Ret _ _ _ _ _ Hr).
    case_decide as Ha.
    { subst a. exists 0, s1, L1. split; [done|]. eapply (filled_below _ (Pdl (n / TMPFS_NINDIRECT))); [done|]. by eapply filled_below. }
    destruct (table_run s1 L1 (Pdl (n / TMPFS_NINDIRECT)) (Some a) (n / TMPFS_NINDIRECT) alloc) as (b & s2 & L2 & Hr2 & H2f);
      [apply H1f|apply (fi_grow _ _ _ _ _ _ _ H1f)|done|by eapply filled_at|]. rewrite (bind_Ret _ _ _ _ _ Hr2).
    pose proof (filled_trans _ _ _ _ _ _ _ _ _ _ _ H1f H2f) as H12.
    case_decide as Hb; [subst b; exists 0, s2, L2; split; [done|]; by eapply filled_below|].
    destruct (page_run s2 L2 (Pdent (n / TMPFS_NINDIRECT) (n mod TMPFS_NINDIRECT)) (Some b) (n mod TMPFS_NINDIRECT) alloc) as (r & s3 & L3 & Hr3 & H3f);
      [apply H2f|apply (fi_grow _ _ _ _ _ _ _ H2f)|done|by eapply filled_at|]. exists r, s3, L3. split; [done|by eapply filled_trans].
Qed.
(** ** Reading *)

Lemma limit_small : TMPFS_LIMIT < 2 ^ 31.
Proof. done. Qed.
Lemma len_chunk off total : min_u64 (PGSIZE - off mod PGSIZE) (total - off) = chunk off (total - off).
Proof. unfold min_u64, chunk. change PGSIZE with BSIZE. done. Qed.
Lemma bn_small off : 0 ≤ off < TMPFS_LIMIT → u32 (off / PGSIZE) = off / BSIZE.
Proof. intros Ho. destruct (tbyte_pos off Ho) as [Hb _]. change PGSIZE with BSIZE. apply u32_small. unfold TMPFS_MAXFILE, TMPFS_NDINDIRECT, TMPFS_NINDIRECT, PGSIZE, TMPFS_NDIRECT in Hb. change (4096 / 8) with 512 in Hb. lia. Qed.

Abbreviation sheap s := (heap (tpg s)).

Lemma tread_round_run s L off total acc :
  pages_ok (tpg s) L → tfile_ok (sheap s) (tin s) → 0 ≤ off < total → total ≤ TMPFS_LIMIT →
  tread_round total (off, acc) s = Ret (
    if decide (tslot (sheap s) (tin s) (tpos (off / BSIZE)) = 0) then inr (off, acc)
    else inl (off + chunk off (total - off), acc ++ tbytes (sheap s) (tin s) off (chunk off (total - off))), s).
Proof.
  intros Hp Hf Ho Ht. pose proof limit_small. unfold tread_round. rewrite decide_True by lia. rewrite bn_small by lia.
  destruct (tbyte_pos off ltac:(lia)) as [Hb Hm]. destruct (tpos_valid _ Hb) as [Hv _].
  destruct (tmpfs_bmap_run s L (off / BSIZE) false Hp Hf Hb) as (r & s' & L' & Hr & Hfi). destruct (fi_none _ _ _ _ _ _ _ Hfi eq_refl) as [-> ->].
  rewrite (bind_Ret _ _ _ _ _ Hr). pose proof (fi_slot _ _ _ _ _ _ _ Hfi) as Hsl. rewrite Hsl. case_decide as Hz; [done|].
  rewrite len_chunk. change PGSIZE with BSIZE. destruct (chunk_range off (total - off)) as [Hc Hcb]; [lia..|].
  destruct (tf_in _ _ Hf (tpos (off / BSIZE)) Hv) as [b Hbk]; [congruence|]. rewrite Hsl in Hbk.
  assert (Hget : on_tpg (get_page r) s = Ret (b, s)) by (unfold on_tpg, zoom, get_page; rewrite Hbk; by destruct s).
  rewrite (bind_Ret _ _ _ _ _ Hget). rewrite u64_small by lia.
  rewrite <-(tree_slice TMPFS_NDIRECT TMPFS_NINDIRECT (tslot (sheap s) (tin s)) (page (sheap s)) off (chunk off (total - off)));
    [by rewrite Hsl, (page_some _ _ _ Hbk)|lia|lia|lia|congruence|]. apply page_ok_heap. by eapply pages_heap.
Qed.

Lemma tread_rounds_run fuel s L off total acc :
  pages_ok (tpg s) L → tfile_ok (sheap s) (tin s) → 0 ≤ off ≤ total → total ≤ TMPFS_LIMIT →
  (if decide (total - off = 0) then 0 else rounds off (total - off)) < Z.of_nat fuel →
  ∃ n, loop fuel (tread_round total) (off, acc) s = Ret (off + n, acc ++ tbytes (sheap s) (tin s) off n, s) ∧
    0 ≤ n ≤ total - off ∧ (n < total - off → tslot (sheap s) (tin s) (tpos ((off + n) / BSIZE)) = 0) ∧
    ∀ i, off ≤ i < off + n → tslot (sheap s) (tin s) (tpos (i / BSIZE)) ≠ 0.
Proof.
  intros Hp Hf. revert off acc. induction fuel as [|fuel IH]; intros off acc Ho Ht Hfuel.
  { exfalso. case_decide; [lia|]. pose proof (rounds_pos off (total - off)). lia. }
  rewrite loop_S. destruct (decide (total - off = 0)) as [Heq|Hne].
  { assert (Hdone : tread_round total (off, acc) s = Ret (inr (off, acc), s)) by (unfold tread_round; by rewrite decide_False by lia).
    rewrite (bind_Ret _ _ _ _ _ Hdone). exists 0. unfold tree_bytes. rewrite Z.add_0_r, app_nil_r. split_and!; [done|lia|lia|lia|lia]. }
  rewrite (bind_Ret _ _ _ _ _ (tread_round_run s L off total acc Hp Hf ltac:(lia) Ht)). case_decide as Hz.
  { exists 0. unfold tree_bytes. rewrite !Z.add_0_r, app_nil_r. split_and!; [done|lia|lia|done|lia]. }
  destruct (chunk_range off (total - off)) as [Hm Hmb]; [lia..|]. pose proof (chunk_fuel off (total - off) fuel ltac:(lia) ltac:(lia) Hfuel) as Hf'.
  set (m := chunk off (total - off)) in *.
  destruct (IH (off + m) (acc ++ tbytes (sheap s) (tin s) off m)) as (n & Hl & Hn & Hhole & Hall);
    [lia|done|by replace (total - (off + m)) with (total - off - m) by lia|].
  exists (m + n). split_and!; [|lia|lia|rewrite Z.add_assoc; intros; apply Hhole; lia|].
  - rewrite Hl, Z.add_assoc, <-app_assoc. by rewrite (tree_bytes_app _ _ _ _ off m n) by lia.
  - intros i Hi. destruct (decide (i < off + m)); [|apply Hall; lia].
    destruct (same_block off (i - off)) as [Hd _]; [lia..|]. replace (off + (i - off)) with i in Hd by lia. by rewrite Hd.
Qed.

(** ** Writing *)

Lemma overwrite_page h ip bn d :
  tfile_ok h ip → 0 ≤ bn < TMPFS_MAXFILE → tslot h ip (tpos bn) ≠ 0 →
  tchanges (λ i b, if decide (i / BSIZE = bn) then byte_at d (i mod BSIZE) else b) h ip (<[tslot h ip (tpos bn) := d]> h) ip.
Proof.
  intros Hf Hbn Hs. destruct (tpos_valid bn Hbn) as [Hpv Hd]. set (a := tslot h ip (tpos bn)) in *. set (h' := <[a := d]> h).
  assert (Hother : ∀ q, tvalid q → q ≠ tpos bn → tslot h ip q ≠ 0 → page h' (tslot h ip q) = page h (tslot h ip q)).
  { intros q Hq Hne Hsq. unfold h'. rewrite page_insert, decide_False; [done|]. intros He. apply Hne. by apply (tf_inj _ _ Hf). }
  assert (Hslot : ∀ p, tvalid p → tslot h' ip p = tslot h ip p).
  { apply tslot_ext; [done|]. intros q Hq Hnd Hsq. apply Hother; [done| |done]. intros ->. congruence. }
  assert (Hu : ∀ n, is_Some (h' !! n) ↔ is_Some (h !! n)).
  { intros n. unfold h'. rewrite lookup_insert_is_Some'. split; [|by right]. intros [<-|?]; [|done]. by apply Hf. }
  assert (Hown : ∀ n, towns h' ip n ↔ towns h ip n).
  { intros n. split; intros [Hn (p & Hp & Hsp)]; (split; [done|]; exists p); split; rewrite ?Hslot in *; done. }
  split.
  - split; [apply Hf| |].
    + intros p Hp. rewrite Hslot by done. rewrite Hu. by apply Hf.
    + intros p q Hp Hq. rewrite !Hslot by done. by apply Hf.
  - done.
  - intros p Hp _. by apply Hslot.
  - intros i Hi. destruct (tbyte_pos i Hi) as [Hb _]. destruct (tpos_valid _ Hb) as [Hp _]. unfold tree_byte. rewrite Hslot by done.
    destruct (decide (i / BSIZE = bn)) as [->|Hne].
    + fold a. rewrite decide_False by done. unfold h'. by rewrite page_insert, decide_True.
    + case_decide; [done|]. rewrite Hother; [done|done| |done]. intros He. apply Hne. by apply tpos_inj; [lia|lia|].
  - intros n. rewrite Hu, Hown. split; [by left|]. intros [?|?]; [done|by eapply towns_in].
  - intros n. rewrite Hown. by left.
  - intros n Hn Hno. unfold h'. rewrite lookup_insert_ne; [done|]. intros <-. apply Hno. by apply tslot_owns.
Qed.
Lemma put_page_run s L a b b0 :
  pages_ok (tpg s) L → sheap s !! a = Some b0 → block_ok b →
  on_tpg (put_page a b) s = Ret (tt, mk_tstate (mk_tpages (tp_alloc (tpg s)) (<[a := b]> (sheap s))) (tin s) (v_lock s)) ∧
  pages_ok (mk_tpages (tp_alloc (tpg s)) (<[a := b]> (sheap s))) L.
Proof. intros Hp Ha Hb. split; [unfold on_tpg, zoom, put_page; by rewrite Ha|by eapply pages_write]. Qed.

(** A write that transferred [src] to [off]. *)
Record wrote (off : Z) (src : list Z) (s s' : st) (L' : list Z) : Prop := {
  wt_pages : pages_ok (tpg s') L';
  wt_change : tchanges (splat off src) (sheap s) (tin s) (sheap s') (tin s');
  wt_lock : v_lock s' = v_lock s
}.
Lemma wrote_ok off src s s' L' : wrote off src s s' L' → tfile_ok (sheap s') (tin s').
Proof. intros Hw. apply (wt_change _ _ _ _ _ Hw). Qed.
Lemma wrote_none p s L s' L' off : filled p true s L 0 s' L' → wrote off [] s s' L'.
Proof.
  intros Hf. split; [apply Hf| |apply Hf]. eapply tchanges_ext; [apply Hf|]. intros i _. symmetry. apply splat_nil.
Qed.
Lemma wrote_app off src src' s s1 L1 s2 L2 :
  wrote off src s s1 L1 → wrote (off + Z.of_nat (length src)) src' s1 s2 L2 → wrote off (src ++ src') s s2 L2.
Proof.
  intros H1 H2. split; [apply H2| |by rewrite (wt_lock _ _ _ _ _ H2), (wt_lock _ _ _ _ _ H1)].
  eapply tchanges_ext; [exact (tchanges_trans _ _ _ _ _ _ _ _ (wt_change _ _ _ _ _ H1) (wt_change _ _ _ _ _ H2))|].
  intros i _. cbn beta. by rewrite splat_app.
Qed.

Lemma twrite_round_run s L off tot src total :
  pages_ok (tpg s) L → tfile_ok (sheap s) (tin s) → 0 ≤ off < total → total ≤ TMPFS_LIMIT → 0 ≤ tot →
  Z.of_nat (length src) = tot + (total - off) → Forall byte_ok src →
  let m := chunk off (total - off) in
  ∃ s' L', (twrite_round src total (off, tot) s = Ret (inr false, s') ∧ L' = [] ∧ wrote off [] s s' L' ∧
            tslot (sheap s') (tin s') (tpos (off / BSIZE)) = 0) ∨
    (twrite_round src total (off, tot) s = Ret (inl (off + m, tot + m), s') ∧ wrote off (slice src tot m) s s' L' ∧
      ∀ i, off ≤ i < off + m → tslot (sheap s') (tin s') (tpos (i / BSIZE)) ≠ 0).
Proof.
  intros Hp Hf Ho Ht Htot Hl Hby m. pose proof limit_small. unfold twrite_round. rewrite decide_True by lia. rewrite bn_small by lia.
  destruct (tbyte_pos off ltac:(lia)) as [Hb Hm]. destruct (tpos_valid _ Hb) as [Hv _].
  destruct (tmpfs_bmap_run s L (off / BSIZE) true Hp Hf Hb) as (r & s1 & L1 & Hr & Hfi). rewrite (bind_Ret _ _ _ _ _ Hr).
  pose proof (fi_slot _ _ _ _ _ _ _ Hfi) as Hsl. pose proof (fi_grow _ _ _ _ _ _ _ Hfi) as Hg. pose proof (tc_ok _ _ _ _ _ Hg) as Hf1.
  pose proof (fi_pages _ _ _ _ _ _ _ Hfi) as Hp1. case_decide as Hz.
  { exists s1, L1. left. rewrite Hz in *. split_and!; [done|by apply (fi_full _ _ _ _ _ _ _ Hfi)|by eapply wrote_none|done]. }
  rewrite len_chunk. fold m. change PGSIZE with BSIZE. destruct (chunk_range off (total - off)) as [Hc Hcb]; [lia..|]. fold m in Hc, Hcb.
  destruct (tf_in _ _ Hf1 (tpos (off / BSIZE)) Hv) as [b Hbk]; [congruence|]. rewrite Hsl in Hbk.
  assert (Hlen : Z.of_nat (length (slice src tot m)) = m) by (apply slice_len; lia).
  pose proof (pages_heap _ _ Hp1 _ _ Hbk) as Hbok. set (d := blit b (off mod BSIZE) (slice src tot m)).
  assert (Hdok : block_ok d) by (apply blit_ok; [done|by apply slice_bytes|lia|lia]).
  destruct (put_page_run s1 L1 r d b Hp1 Hbk Hdok) as [Hput Hp2]. set (s2 := mk_tstate _ _ _) in Hput.
  assert (Hrun : on_tpg (b ← get_page r; put_page r (blit b (off mod BSIZE) (slice src tot m))) s1 = Ret (tt, s2)).
  { rewrite <-Hput. unfold on_tpg, zoom, get_page, mbind, K_bind. by rewrite Hbk. }
  rewrite (bind_Ret _ _ _ _ _ Hrun). rewrite u64_small by lia.
  pose proof (overwrite_page _ _ (off / BSIZE) d Hf1 Hb ltac:(congruence)) as Hov. rewrite Hsl in Hov.
  exists s2, L1. right. split_and!; [done| |].
  - split; [done| |apply Hfi]. eapply tchanges_ext; [exact (tchanges_trans _ _ _ _ _ _ _ _ Hg Hov)|].
    intros i Hi. cbn beta. apply blit_splat; [done|lia|lia|lia|]. intros He. rewrite <-(tc_byte _ _ _ _ _ Hg i Hi). unfold tree_byte.
    rewrite He, Hsl, decide_False by done. by rewrite (page_some _ _ _ Hbk).
  - intros i Hi. destruct (same_block off (i - off)) as [Hd1 _]; [lia..|]. replace (off + (i - off)) with i in Hd1 by lia.
    rewrite Hd1. simpl. rewrite (tc_slot _ _ _ _ _ Hov); congruence.
Qed.

Lemma twrite_rounds_run fuel s L off tot src total :
  pages_ok (tpg s) L → tfile_ok (sheap s) (tin s) → 0 ≤ off ≤ total → total ≤ TMPFS_LIMIT → 0 ≤ tot →
  Z.of_nat (length src) = tot + (total - off) → Forall byte_ok src →
  (if decide (total - off = 0) then 0 else rounds off (total - off)) < Z.of_nat fuel →
  ∃ n ok s' L', loop fuel (twrite_round src total) (off, tot) s = Ret (ok, s') ∧ wrote off (slice src tot n) s s' L' ∧ 0 ≤ n ≤ total - off ∧
    (if ok : bool then n = total - off else L' = [] ∧ n < total - off ∧ tslot (sheap s') (tin s') (tpos ((off + n) / BSIZE)) = 0) ∧
    ∀ i, off ≤ i < off + n → tslot (sheap s') (tin s') (tpos (i / BSIZE)) ≠ 0.
Proof.
  revert s L off tot. induction fuel as [|fuel IH]; intros s L off tot Hp Hf Ho Ht Htot Hl Hby Hfuel.
  { exfalso. case_decide; [lia|]. pose proof (rounds_pos off (total - off)). lia. }
  rewrite loop_S. destruct (decide (total - off = 0)) as [Heq|Hne].
  { assert (Hdone : twrite_round src total (off, tot) s = Ret (inr true, s)) by (unfold twrite_round; by rewrite decide_False by lia).
    rewrite (bind_Ret _ _ _ _ _ Hdone). exists 0, true, s, L. split_and!; [done| |lia|lia|lia|lia].
    split; [done| |done]. eapply tchanges_ext; [by apply tgrows_refl|]. intros i _. symmetry. apply (splat_nil off). }
  destruct (twrite_round_run s L off tot src total Hp Hf ltac:(lia) Ht Htot Hl Hby) as (s1 & L1 & [(H1 & HL & Hw & Hz)|(H1 & Hw & Hsl)]);
    rewrite (bind_Ret _ _ _ _ _ H1).
  { exists 0, false, s1, L1. rewrite Z.add_0_r. split_and!; [done|done|lia|lia|done|lia|done|lia]. }
  destruct (chunk_range off (total - off)) as [Hm Hmb]; [lia..|]. pose proof (chunk_fuel off (total - off) fuel ltac:(lia) ltac:(lia) Hfuel) as Hf'.
  set (m := chunk off (total - off)) in *. assert (Hlen : Z.of_nat (length (slice src tot m)) = m) by (apply slice_len; lia).
  destruct (IH s1 L1 (off + m) (tot + m) (wt_pages _ _ _ _ _ Hw) (wrote_ok _ _ _ _ _ Hw)) as (n & ok & s2 & L2 & H2 & Hw2 & Hn & Hok & Hsl2);
    [lia|done|lia|lia|done|by replace (total - (off + m)) with (total - off - m) by lia|].
  exists (m + n), ok, s2, L2. split_and!; [done| |lia|lia| |].
  - rewrite slice_app by lia. eapply wrote_app; [exact Hw|]. by rewrite Hlen.
  - destruct ok; [lia|]. rewrite Z.add_assoc. destruct Hok as (? & ? & ?). split_and!; [done|lia|done].
  - intros i Hi. destruct (decide (i < off + m)); [|apply Hsl2; lia]. destruct (tbyte_pos i ltac:(lia)) as [Hb _]. destruct (tpos_valid _ Hb) as [Hv _].
    rewrite (tc_slot _ _ _ _ _ (wt_change _ _ _ _ _ Hw2)); [apply Hsl; lia|done|apply Hsl; lia].
Qed.
(** ** Freeing *)

(** The positions [D] may have lost their page, and the pages they had are free. *)
Record tshrinks (D : pos → Prop) (h : gmap Z block) (ip : tmpfs_inode) (h' : gmap Z block) (ip' : tmpfs_inode) : Prop := {
  sk_ok : tfile_ok h' ip';
  sk_same : tsame ip ip';
  sk_slot p : tvalid p → tslot h' ip' p = tslot h ip p ∨ D p ∧ tslot h' ip' p = 0;
  sk_dom a : is_Some (h' !! a) ↔ is_Some (h !! a) ∧ (towns h ip a → towns h' ip' a);
  sk_frame a : ¬ towns h ip a → h' !! a = h !! a
}.
Lemma tshrinks_owns D h ip h' ip' a : tshrinks D h ip h' ip' → towns h' ip' a → towns h ip a.
Proof.
  intros Hs [Ha (p & Hp & Hsl)]. split; [done|]. exists p. split; [done|]. destruct (sk_slot _ _ _ _ _ Hs p Hp) as [He|[_ He]]; congruence.
Qed.
Lemma tshrinks_refl D h ip : tfile_ok h ip → tshrinks D h ip h ip.
Proof. intros Hf. split; try done; [by left|]. intros a. tauto. Qed.
Lemma tshrinks_zero D h ip h' ip' p : tshrinks D h ip h' ip' → tvalid p → tslot h ip p = 0 → tslot h' ip' p = 0.
Proof. intros Hs Hp Hz. destruct (sk_slot _ _ _ _ _ Hs p Hp) as [He|[_ He]]; congruence. Qed.
Lemma tshrinks_trans (D : pos → Prop) D1 D2 h ip h1 ip1 h2 ip2 :
  (∀ p, D1 p → D p) → (∀ p, D2 p → D p) → tshrinks D1 h ip h1 ip1 → tshrinks D2 h1 ip1 h2 ip2 → tshrinks D h ip h2 ip2.
Proof.
  intros HD1 HD2 H1 H2. split.
  - apply H2.
  - pose proof (sk_same _ _ _ _ _ H1) as (?&?&?&?&?). pose proof (sk_same _ _ _ _ _ H2) as (?&?&?&?&?). split_and!; congruence.
  - intros p Hp. destruct (sk_slot _ _ _ _ _ H1 p Hp) as [E1|[Hd E1]], (sk_slot _ _ _ _ _ H2 p Hp) as [E2|[Hd' E2]];
      [left; congruence|right; auto|right; split; [auto|congruence]|right; auto].
  - intros a. rewrite (sk_dom _ _ _ _ _ H2), (sk_dom _ _ _ _ _ H1). pose proof (tshrinks_owns _ _ _ _ _ a H1). pose proof (tshrinks_owns _ _ _ _ _ a H2). tauto.
  - intros a Ha. rewrite (sk_frame _ _ _ _ _ H2), (sk_frame _ _ _ _ _ H1); [done|done|]. intros Ho. apply Ha. by apply (tshrinks_owns _ _ _ _ _ a H1).
Qed.

Lemma delete_upd h a w i x : w ≠ Some a → upd_heap (delete a h) w i x = delete a (upd_heap h w i x).
Proof.
  intros Hw. destruct w as [b|]; simpl; [|done]. assert (Hab : a ≠ b) by congruence. rewrite page_delete by done. symmetry. by apply delete_insert_ne.
Qed.
Lemma upd_other h ip p w i x a : at_pos h ip p w i → tvalid p → (∀ q, tvalid q → tslot h ip q ≠ 0 → a ≠ tslot h ip q) → upd_heap h w i x !! a = h !! a.
Proof.
  intros Hat Hp Ha. unfold at_pos in Hat. destruct (parent p) as [[q k]|] eqn:E; destruct Hat as (-> & Hat); [|done]. simpl.
  apply lookup_insert_ne. apply not_eq_sym, Ha; [by destruct (parent_valid _ _ p q k Hp E)|by destruct Hat].
Qed.
Lemma upd_dom h ip p w i x a : tfile_ok h ip → tvalid p → at_pos h ip p w i → is_Some (upd_heap h w i x !! a) ↔ is_Some (h !! a).
Proof.
  intros Hf Hp Hat. pose proof (at_stored _ _ _ _ _ Hf Hp Hat) as Hw. destruct w as [b|]; simpl in *; [|done].
  rewrite lookup_insert_is_Some'. split; [|by right]. by intros [<-|?].
Qed.

(** The page at a position without entries is taken away. *)
Lemma detach_page h ip p0 w i :
  tfile_ok h ip → heap_ok h → tvalid p0 → at_pos h ip p0 w i → tslot h ip p0 ≠ 0 →
  (∀ p k, tvalid p → parent p = Some (p0, k) → tslot h ip p = 0) →
  let h' := upd_heap (delete (tslot h ip p0) h) w i 0 in let ip' := upd_inode ip w i 0 in
  stored_in (delete (tslot h ip p0) h) w ∧ tshrinks (.= p0) h ip h' ip' ∧ tslot h' ip' p0 = 0.
Proof.
  intros Hf Hh Hp0 Hat Hs Hch h' ip'. set (x := tslot h ip p0) in *.
  assert (Hwx : w ≠ Some x).
  { unfold at_pos in Hat. destruct (parent p0) as [[q k]|] eqn:E; destruct Hat as (-> & Hat); [|done]. destruct Hat as [_ Hq].
    destruct (parent_valid _ _ p0 q k Hp0 E) as (Hqv & _ & Hne). intros [= He]. apply Hne. symmetry. by apply (tf_inj _ _ Hf). }
  set (h1 := upd_heap h w i 0). assert (Hh' : h' = delete x h1) by (by apply delete_upd).
  assert (Hsl1 : ∀ p, tvalid p → tslot h1 ip' p = if decide (p = p0) then 0 else tslot h ip p) by (by apply upd_slots).
  assert (Hsl : ∀ p, tvalid p → tslot h' ip' p = if decide (p = p0) then 0 else tslot h ip p).
  { intros p Hp. rewrite <-Hsl1 by done. rewrite Hh'. apply tslot_ext; [done| |done]. intros q Hq _. rewrite Hsl1 by done.
    case_decide as Hd; [done|]. intros Hsq. apply page_delete. intros He. apply Hd. by apply (tf_inj _ _ Hf). }
  assert (Hdom : ∀ a, is_Some (h' !! a) ↔ is_Some (h !! a) ∧ a ≠ x).
  { intros a. rewrite Hh', lookup_delete_is_Some. unfold h1. rewrite (upd_dom h ip p0 w i) by done. naive_solver. }
  assert (Hown : ∀ a, towns h' ip' a ↔ towns h ip a ∧ a ≠ x).
  { intros a. split.
    - intros [Ha (p & Hp & He)]. rewrite Hsl in He by done. case_decide as Hd; [congruence|]. split; [split; [done|by exists p]|].
      intros ->. apply Hd. apply (tf_inj _ _ Hf); try done. congruence.
    - intros [[Ha (p & Hp & He)] Hax]. split; [done|]. exists p. split; [done|]. rewrite Hsl, decide_False; [done| |done]. intros ->. done. }
  split_and!; [|split|by rewrite Hsl, decide_True].
  - pose proof (at_stored _ _ _ _ _ Hf Hp0 Hat) as Hw. destruct w as [b|]; simpl in *; [|done]. rewrite lookup_delete_ne by congruence. done.
  - split.
    + unfold ip', upd_inode. destruct w; [apply Hf|]. simpl. rewrite length_insert. apply Hf.
    + intros p Hp. rewrite Hsl by done. case_decide as Hd; [done|]. intros Hsp. apply Hdom. split; [by apply Hf|]. intros He. apply Hd. by apply (tf_inj _ _ Hf).
    + intros p q Hp Hq. rewrite !Hsl by done. repeat case_decide; try done; intros ? He; by apply (tf_inj _ _ Hf).
  - unfold ip', upd_inode. by destruct w.
  - intros p Hp. rewrite Hsl by done. case_decide; [by right|by left].
  - intros a. rewrite Hdom, Hown. destruct (decide (a = x)) as [->|]; [|tauto]. split; [tauto|]. intros [_ Hx].
    destruct Hx as [_ ?]; [by apply tslot_owns|done].
  - intros a Ha. rewrite Hh', lookup_delete_ne by (intros <-; apply Ha; by apply tslot_owns). unfold h1.
    apply (upd_other h ip p0); [done|done|]. intros q Hq Hsq ->. apply Ha. by apply tslot_owns.
Qed.
(** A routine that freed pages of the positions [D]. *)
Record shrunk (D : pos → Prop) (s s' : st) (L' : list Z) : Prop := {
  sh_pages : pages_ok (tpg s') L';
  sh_tree : tshrinks D (sheap s) (tin s) (sheap s') (tin s');
  sh_lock : v_lock s' = v_lock s
}.
Lemma shrunk_refl D s L : pages_ok (tpg s) L → tfile_ok (sheap s) (tin s) → shrunk D s s L.
Proof. intros Hp Hf. split; [done|by apply tshrinks_refl|done]. Qed.
Lemma shrunk_trans (D D1 D2 : pos → Prop) s s1 L1 s2 L2 :
  (∀ p, D1 p → D p) → (∀ p, D2 p → D p) → shrunk D1 s s1 L1 → shrunk D2 s1 s2 L2 → shrunk D s s2 L2.
Proof.
  intros HD1 HD2 H1 H2. split; [apply H2| |by rewrite (sh_lock _ _ _ _ H2), (sh_lock _ _ _ _ H1)].
  exact (tshrinks_trans D D1 D2 _ _ _ _ _ _ HD1 HD2 (sh_tree _ _ _ _ H1) (sh_tree _ _ _ _ H2)).
Qed.
Lemma shrunk_ok D s s' L' : shrunk D s s' L' → tfile_ok (sheap s') (tin s').
Proof. intros Hs. apply (sh_tree _ _ _ _ Hs). Qed.
Lemma shrunk_keeps D s s' L' p : shrunk D s s' L' → tvalid p → ¬ D p → tslot (sheap s') (tin s') p = tslot (sheap s) (tin s) p.
Proof. intros Hs Hp Hd. by destruct (sk_slot _ _ _ _ _ (sh_tree _ _ _ _ Hs) p Hp) as [|[? _]]. Qed.
Lemma shrunk_zero D s s' L' p : shrunk D s s' L' → tvalid p → tslot (sheap s) (tin s) p = 0 → tslot (sheap s') (tin s') p = 0.
Proof. intros Hs. apply (tshrinks_zero D). apply Hs. Qed.

(** The positions below [q]. *)
Definition below (q p : pos) : Prop :=
  match parent p with
  | None => False
  | Some (q1, _) => q1 = q ∨ match parent q1 with None => False | Some (q2, _) => q2 = q end
  end.
Lemma below_child q k p : is_data q = false → below (child q k) p → below q p.
Proof. destruct q, p; simpl; unfold below; simpl; naive_solver. Qed.
Lemma child_below q k : is_data q = false → below q (child q k).
Proof. intros Hq. unfold below. rewrite child_parent by done. by left. Qed.
Lemma not_below_self q : ¬ below q q.
Proof. destruct q; unfold below; simpl; naive_solver. Qed.

(** [pre] frees what the page at [c] refers to. *)
Definition frees (pre : Z → K st unit) (c : pos) : Prop := ∀ s L,
  pages_ok (tpg s) L → tfile_ok (sheap s) (tin s) → tslot (sheap s) (tin s) c ≠ 0 →
  ∃ s' L', pre (tslot (sheap s) (tin s) c) s = Ret (tt, s') ∧ shrunk (below c) s s' L' ∧
    ∀ p k, tvalid p → parent p = Some (c, k) → tslot (sheap s') (tin s') p = 0.

Lemma free_none_frees c : is_data c = true → frees free_none c.
Proof.
  intros Hc s L Hp Hf _. exists s, L. split_and!; [done|by apply shrunk_refl|]. intros p k _ Hpar.
  destruct (parent_child p c k Hpar) as [Hd _]. congruence.
Qed.

Lemma tfree_slot_run s L p w i pre :
  pages_ok (tpg s) L → tfile_ok (sheap s) (tin s) → tvalid p → at_pos (sheap s) (tin s) p w i → frees pre p →
  ∃ s' L', tfree_slot w i pre s = Ret (tt, s') ∧ shrunk (λ q, q = p ∨ below p q) s s' L' ∧ tslot (sheap s') (tin s') p = 0.
Proof.
  intros Hp Hf Hv Hat Hpre. unfold tfree_slot. rewrite (bind_Ret _ _ _ _ _ (get_ent_run s p w i Hf Hv Hat)).
  case_decide as Hz; [|exists s, L; split_and!; [done|by apply shrunk_refl|done]].
  destruct (Hpre s L Hp Hf Hz) as (s1 & L1 & H1 & Hs1 & Hch). rewrite (bind_Ret _ _ _ _ _ H1).
  pose proof (shrunk_ok _ _ _ _ Hs1) as Hf1. pose proof (sh_pages _ _ _ _ Hs1) as Hp1.
  pose proof (shrunk_keeps _ _ _ _ p Hs1 Hv (not_below_self p)) as Hsp.
  assert (Hat1 : at_pos (sheap s1) (tin s1) p w i).
  { unfold at_pos in *. destruct (parent p) as [[q k]|] eqn:E; [|done]. destruct (parent_valid _ _ p q k Hv E) as (Hqv & _).
    rewrite (shrunk_keeps _ _ _ _ q Hs1 Hqv); [done|]. destruct p, q; simpl in *; simplify_eq/=; unfold below; simpl; naive_solver. }
  rewrite <-Hsp in Hz. destruct (tf_in _ _ Hf1 p Hv Hz) as [b Hb]. destruct (free_page_run (tpg s1) L1 _ b Hp1 Hb) as (g & Hfree & Hp2 & Hg).
  destruct (detach_page _ _ p w i Hf1 (pages_heap _ _ Hp1) Hv Hat1 Hz Hch) as (Hw & Hsk & Hz'). set (a := tslot (sheap s1) (tin s1) p) in *.
  assert (H2 : (a ← get_ent w i; on_tpg (free_page a)) s1 = Ret (tt, mk_tstate g (tin s1) (v_lock s1))).
  { rewrite (bind_Ret _ _ _ _ _ (get_ent_run s1 p w i Hf1 Hv Hat1)). unfold on_tpg, zoom. fold a. by rewrite Hfree. }
  rewrite (bind_Ret _ _ _ _ _ H2). rewrite put_ent_run by (simpl; by rewrite Hg). simpl. rewrite Hg.
  set (s3 := mk_tstate _ _ _). exists s3, (a :: L1). split_and!; [done| |done].
  apply (shrunk_trans _ (below p) (.= p) s s1 L1); [by right|by left|done|]. split; [|done|done]. simpl.
  assert (Hgok : heap_ok (heap g)) by (by eapply pages_heap). destruct g as [al hp]. simpl in *. subst hp.
  destruct w as [c|]; simpl in *; [|done]. destruct Hw as [bc Hbc]. refine (pages_write (mk_tpages al (delete a (sheap s1))) (a :: L1) c _ bc Hp2 Hbc _).
  apply wr64_ok. by apply page_ok_heap.
Qed.

Lemma tfree_entries_run pre q :
  tvalid q → is_data q = false → (∀ k, 0 ≤ k < TMPFS_NINDIRECT → frees pre (child q k)) → frees (tfree_entries pre) q.
Proof.
  intros Hq Hd Hpre s L Hp Hf Hs. set (a := tslot (sheap s) (tin s) q) in *. unfold tfree_entries.
  destruct (forM_seq (λ k s', ∃ L', shrunk (below q) s s' L' ∧ ∀ j, 0 ≤ j < k → tslot (sheap s') (tin s') (child q j) = 0)
    (λ i, tfree_slot (Some a) i pre) 0 TMPFS_NINDIRECT s) as (s' & Hrun & L' & Hs' & Hall).
  - done.
  - intros k s1 Hk (L1 & Hs1 & Hz1). pose proof (child_valid _ _ q k Hd Hq Hk) as Hcv.
    pose proof (shrunk_keeps _ _ _ _ q Hs1 Hq (not_below_self q)) as Hsq. fold a in Hsq.
    destruct (tfree_slot_run s1 L1 (child q k) (Some a) k pre) as (s2 & L2 & H2 & Hs2 & Hz2);
      [apply Hs1|by eapply shrunk_ok|done|unfold at_pos; rewrite child_parent by done; by rewrite Hsq|by apply Hpre|].
    exists s2. split; [done|]. exists L2. split.
    + eapply shrunk_trans; [| |exact Hs1|exact Hs2]; [done|]. intros p [->|Hb]; [by apply child_below|by apply (below_child q k)].
    + intros j Hj. destruct (decide (j = k)) as [->|]; [done|]. apply (shrunk_zero _ _ _ _ _ Hs2); [apply child_valid; (done || lia)|]. apply Hz1. lia.
  - exists L. split; [by apply shrunk_refl|]. lia.
  - exists s', L'. split_and!; [done|done|]. intros p k Hpv Hpar. destruct (parent_valid _ _ p q k Hpv Hpar) as (_ & Hk & _).
    destruct (parent_child p q k Hpar) as [_ ->]. by apply Hall.
Qed.

Lemma free_blocks_run s L :
  pages_ok (tpg s) L → tfile_ok (sheap s) (tin s) →
  ∃ s' L', tmpfs_free_blocks s = Ret (tt, s') ∧ shrunk (λ _, True) s s' L' ∧ ∀ p, tvalid p → tslot (sheap s') (tin s') p = 0.
Proof.
  intros Hp Hf. unfold tmpfs_free_blocks.
  assert (Hroot : ∀ p pre s1 L1, tvalid p → parent p = None → frees pre p → shrunk (λ _, True) s s1 L1 →
    ∃ s2 L2, tfree_slot None (troot p) pre s1 = Ret (tt, s2) ∧ shrunk (λ _, True) s s2 L2 ∧ tslot (sheap s2) (tin s2) p = 0 ∧
      ∀ q, tvalid q → tslot (sheap s1) (tin s1) q = 0 → tslot (sheap s2) (tin s2) q = 0).
  { intros p pre s1 L1 Hv Hn Hpre Hs1. destruct (tfree_slot_run s1 L1 p None (troot p) pre) as (s2 & L2 & H2 & Hs2 & Hz2);
      [apply Hs1|by eapply shrunk_ok|done|unfold at_pos; by rewrite Hn|done|].
    exists s2, L2. split_and!; [done|by eapply shrunk_trans; [| |exact Hs1|exact Hs2]|done|]. intros q. by apply (shrunk_zero _ _ _ _ _ Hs2). }
  destruct (forM_seq (λ k s', ∃ L', shrunk (λ _, True) s s' L' ∧ ∀ j, 0 ≤ j < k → tslot (sheap s') (tin s') (Pdir j) = 0)
    (λ i, tfree_slot None i free_none) 0 TMPFS_NDIRECT s) as (s1 & H1 & L1 & Hs1 & Hz1); [done| |exists L; split; [by apply shrunk_refl|lia]|].
  { intros k s1 Hk (L1 & Hs1 & Hz1). destruct (Hroot (Pdir k) free_none s1 L1 Hk eq_refl (free_none_frees (Pdir k) eq_refl) Hs1) as (s2 & L2 & H2 & Hs2 & Hz2 & Hk2).
    exists s2. split; [done|]. exists L2. split; [done|]. intros j Hj. destruct (decide (j = k)) as [->|]; [done|]. apply Hk2; [simpl; lia|apply Hz1; lia]. }
  rewrite (bind_Ret _ _ _ _ _ H1).
  destruct (Hroot Psind (tfree_entries free_none) s1 L1 I eq_refl) as (s2 & L2 & H2 & Hs2 & Hz2 & Hk2); [|done|].
  { apply tfree_entries_run; [done|done|]. intros k _. by apply free_none_frees. }
  rewrite (bind_Ret _ _ _ _ _ H2).
  destruct (Hroot Pdind (tfree_entries (tfree_entries free_none)) s2 L2 I eq_refl) as (s3 & L3 & H3 & Hs3 & Hz3 & Hk3); [|done|].
  { apply tfree_entries_run; [done|done|]. intros k Hk. apply tfree_entries_run; [done|done|]. intros j _. by apply free_none_frees. }
  exists s3, L3. split_and!; [done|done|].
  assert (Hsi : tslot (sheap s3) (tin s3) Psind = 0) by (by apply Hk3).
  assert (Hdl : ∀ i, tslot (sheap s3) (tin s3) (Pdl i) = 0) by (intros i; by apply (tslot_below _ _ (Pdl i) Pdind i)).
  intros p Hpv. destruct p as [i| |i| |i|i j]; [|done|by apply (tslot_below _ _ (Psent i) Psind i)|done|done|by apply (tslot_below _ _ (Pdent i j) (Pdl i) j)].
  apply Hk3; [done|]. apply Hk2; [done|]. apply Hz1. apply Hpv.
Qed.
(** What the callers of the file operations have: a file in order, its lock free. *)
Record tready (s : st) (L : list Z) : Prop := {
  rd_pages : pages_ok (tpg s) L;
  rd_file : tfile_ok (sheap s) (tin s);
  rd_size : 0 ≤ ti_size (tin s) ≤ TMPFS_LIMIT;
  rd_lock : v_lock s = false
}.

Lemma tfile_size h ip n : tfile_ok h ip → tfile_ok h (put_tsize n ip).
Proof. intros Hf. split; [apply (tf_len _ _ Hf)|apply (tf_in _ _ Hf)|apply (tf_inj _ _ Hf)]. Qed.
Lemma round_fuel_loop off n : 0 ≤ off → 0 ≤ n → (if decide (n = 0) then 0 else rounds off n) < Z.of_nat (round_fuel n).
Proof. intros Ho Hn. pose proof (round_fuel_enough off n Ho Hn). case_decide; [unfold round_fuel; lia|done]. Qed.

Lemma read_run s L f node private buffer off size :
  tready s L → f ≠ 0 → node ≠ 0 → private ≠ 0 → buffer ≠ 0 → 0 ≤ off → 0 ≤ size → off + size ≤ TMPFS_LIMIT →
  ∃ n, tmpfs_vfs_read f node private buffer off size s = Ret (n, tbytes (sheap s) (tin s) off n, s) ∧
    0 ≤ n ≤ Z.max 0 (Z.min size (ti_size (tin s) - off)) ∧
    (∀ i, off ≤ i < off + n → tslot (sheap s) (tin s) (tpos (i / BSIZE)) ≠ 0) ∧
    (n < Z.min size (ti_size (tin s) - off) → tslot (sheap s) (tin s) (tpos ((off + n) / BSIZE)) = 0).
Proof.
  intros [Hp Hf Hsz Hlk] Hf0 Hn0 Hp0 Hb0 Ho Hs Hlim. pose proof limit_small as Hls. unfold tmpfs_vfs_read.
  rewrite decide_False by tauto. rewrite u64_small by lia. rewrite decide_False by lia. rewrite decide_False by (unfold TMPFS_LIMIT in *; lia).
  rewrite decide_False by done. unfold vnode_lock. unfold mbind at 1, K_bind at 1. rewrite Hlk. set (s1 := set_v_lock true s).
  unfold gets. unfold mbind at 1, K_bind at 1. simpl. assert (Hback : set_v_lock false s1 = s) by (destruct s; simpl in *; by subst).
  case_decide as Hend.
  { exists 0. rewrite (bind_Ret vnode_unlock _ s1 tt s) by (unfold vnode_unlock, modify; by rewrite Hback). split_and!; [done|lia|lia|lia|lia]. }
  set (total := if decide _ then _ else _). assert (Ht : total = off + Z.min size (ti_size (tin s) - off)) by (unfold total; case_decide; lia).
  destruct (tread_rounds_run (round_fuel (total - off)) s1 L off total []) as (n & Hl & Hn & Hhole & Hall); [done|done|lia|lia|apply round_fuel_loop; lia|].
  rewrite (bind_Ret _ _ _ _ _ Hl). rewrite (bind_Ret vnode_unlock _ s1 tt s) by (unfold vnode_unlock, modify; by rewrite Hback).
  exists n. cbn [fst snd app]. replace (off + n - off) with n by lia. rewrite u64_small, i32_small by lia.
  split_and!; [done|lia|lia|exact Hall|]. intros Hlt. apply Hhole. lia.
Qed.

Lemma write_run s L f node private buffer off src :
  tready s L → f ≠ 0 → node ≠ 0 → private ≠ 0 → buffer ≠ 0 → 0 ≤ off → Forall byte_ok src → off + Z.of_nat (length src) ≤ TMPFS_LIMIT →
  ∃ r s' L' n, tmpfs_vfs_write f node private buffer off (Z.of_nat (length src)) src s = Ret (r, s') ∧ tready s' L' ∧
    (r = Z.of_nat (length src) ∧ n = r ∧ ti_size (tin s') = Z.max (ti_size (tin s)) (off + r) ∨
     r = -1 ∧ L' = [] ∧ 0 ≤ n < Z.of_nat (length src) ∧ ti_size (tin s') = ti_size (tin s)) ∧
    (∀ i, 0 ≤ i < TMPFS_LIMIT → tbyte (sheap s') (tin s') i = splat off (slice src 0 n) i (tbyte (sheap s) (tin s) i)) ∧
    (∀ i, off ≤ i < off + n → tslot (sheap s') (tin s') (tpos (i / BSIZE)) ≠ 0) ∧
    ∃ ip, tchanges (splat off (slice src 0 n)) (sheap s) (tin s) (sheap s') ip ∧ tin s' = put_tsize (ti_size (tin s')) ip.
Proof.
  intros [Hp Hf Hsz Hlk] Hf0 Hn0 Hp0 Hb0 Ho Hby Hlim. pose proof limit_small as Hls. unfold tmpfs_vfs_write. set (size := Z.of_nat (length src)) in *.
  rewrite decide_False by tauto. rewrite u64_small by lia. rewrite decide_False by lia. rewrite decide_False by (unfold TMPFS_LIMIT in *; lia).
  rewrite decide_False by done. unfold vnode_lock. unfold mbind at 1, K_bind at 1. rewrite Hlk. set (s1 := set_v_lock true s).
  destruct (twrite_rounds_run (round_fuel (off + size - off)) s1 L off 0 src (off + size)) as (n & ok & s2 & L2 & Hl & Hw & Hn & Hok & Hsl);
    [done|done|lia|done|done|lia|done|apply round_fuel_loop; lia|].
  rewrite (bind_Ret _ _ _ _ _ Hl). pose proof (wt_change _ _ _ _ _ Hw) as Hc. pose proof (tc_same _ _ _ _ _ Hc) as (_ & _ & _ & Hsame & _). simpl in Hsame.
  destruct ok; simpl.
  - unfold modify, vnode_unlock, mbind, K_bind. eexists size, _, L2, n.
    assert (Hmax : max_u64 (ti_size (tin s2)) (off + size) = Z.max (ti_size (tin s)) (off + size)) by (rewrite Hsame; unfold max_u64; case_decide; lia).
    replace (off + size - off) with size in * by lia. rewrite (u64_small size), i32_small by lia.
    split_and!; [done| |left; split_and!; [done|done|exact Hmax]|apply Hc|exact Hsl|by exists (tin s2)].
    split; [apply Hw|apply tfile_size, Hc| |done]. simpl. rewrite Hmax. lia.
  - unfold vnode_unlock, modify, mbind, K_bind. eexists (-1), _, L2, n. destruct Hok as (-> & Hlt & _).
    split_and!; [done| |right; split_and!; [done|done|lia|lia|done]|apply Hc|exact Hsl|exists (tin s2); split; [exact Hc|simpl; by destruct (tin s2)] ].
    split; [apply Hw|apply Hc| |done]. simpl. rewrite Hsame. lia.
Qed.

(** * Theorems *)

(** tmpfs_vfs_read returns the bytes of the file from the offset, up to the size
    asked for, the end of the file, or the first page that was never written. *)
Theorem tmpfs_read_spec s L f node private buffer off size :
  tready s L → f ≠ 0 → node ≠ 0 → private ≠ 0 → buffer ≠ 0 → 0 ≤ off → 0 ≤ size → off + size ≤ TMPFS_LIMIT →
  ∃ n, tmpfs_vfs_read f node private buffer off size s = Ret (n, tbytes (sheap s) (tin s) off n, s) ∧
    0 ≤ n ≤ Z.max 0 (Z.min size (ti_size (tin s) - off)) ∧
    (∀ i, off ≤ i < off + n → tslot (sheap s) (tin s) (tpos (i / BSIZE)) ≠ 0) ∧
    (n < Z.min size (ti_size (tin s) - off) → tslot (sheap s) (tin s) (tpos ((off + n) / BSIZE)) = 0).
Proof. apply read_run. Qed.

(** tmpfs_vfs_write writes the source over the file at the offset and returns its
    length, or, when the pages run out, returns -1 with a prefix written and the
    size unchanged; every other byte of the file and the pages of the other files
    keep their contents. *)
Theorem tmpfs_write_spec s L f node private buffer off src :
  tready s L → f ≠ 0 → node ≠ 0 → private ≠ 0 → buffer ≠ 0 → 0 ≤ off → Forall byte_ok src → off + Z.of_nat (length src) ≤ TMPFS_LIMIT →
  ∃ r s' L' n, tmpfs_vfs_write f node private buffer off (Z.of_nat (length src)) src s = Ret (r, s') ∧ tready s' L' ∧
    (r = Z.of_nat (length src) ∧ n = r ∧ ti_size (tin s') = Z.max (ti_size (tin s)) (off + r) ∨
     r = -1 ∧ L' = [] ∧ 0 ≤ n < Z.of_nat (length src) ∧ ti_size (tin s') = ti_size (tin s)) ∧
    (∀ i, 0 ≤ i < TMPFS_LIMIT → tbyte (sheap s') (tin s') i = splat off (slice src 0 n) i (tbyte (sheap s) (tin s) i)) ∧
    (∀ i, off ≤ i < off + n → tslot (sheap s') (tin s') (tpos (i / BSIZE)) ≠ 0) ∧
    ∀ a, is_Some (sheap s !! a) → ¬ towns (sheap s) (tin s) a → sheap s' !! a = sheap s !! a.
Proof.
  intros Hr Hf Hn Hp Hb Ho Hby Hlim. destruct (write_run s L f node private buffer off src) as (r & s' & L' & n & Hw & Hr' & Hc & Hbyte & Hsl & ip & Hch & _); try done.
  exists r, s', L', n. split_and!; [done|done|done|done|done|]. apply Hch.
Qed.

(** The bytes tmpfs_vfs_write stores are the bytes tmpfs_vfs_read returns
    from the same place, whenever the write did not run out of pages. *)
Theorem tmpfs_write_read s L f node private buffer off src :
  tready s L → f ≠ 0 → node ≠ 0 → private ≠ 0 → buffer ≠ 0 → 0 ≤ off → Forall byte_ok src → off + Z.of_nat (length src) ≤ TMPFS_LIMIT →
  ∃ r s', tmpfs_vfs_write f node private buffer off (Z.of_nat (length src)) src s = Ret (r, s') ∧
    (r = -1 ∨ tmpfs_vfs_read f node private buffer off (Z.of_nat (length src)) s' = Ret (r, src, s')).
Proof.
  intros Hr Hf0 Hn0 Hp0 Hb0 Ho Hby Hlim.
  destruct (write_run s L f node private buffer off src) as (r & s' & L' & n & Hw & Hr' & Hcase & Hbyte & Hsl & _); try done.
  exists r, s'. split; [done|]. destruct Hcase as [(Hr0 & -> & Hsz)|(-> & _)]; [right|by left]. rewrite Hr0 in *.
  destruct (read_run s' L' f node private buffer off (Z.of_nat (length src))) as (m & Hm & Hmb & _ & Hhole); try done; [lia|].
  assert (m = Z.of_nat (length src)) as ->.
  { destruct (decide (m < Z.of_nat (length src))) as [Hlt|]; [|lia]. exfalso. apply (Hsl (off + m)); [lia|]. apply Hhole. lia. }
  rewrite Hm. do 3 f_equal. apply (list_eq_same_length _ _ (length src)); [done|rewrite tree_bytes_length; lia|].
  intros i x y Hi Hx Hy. unfold tree_bytes in Hx. rewrite list_lookup_fmap, lookup_seqZ_lt in Hx by lia. simpl in Hx. injection Hx as <-.
  rewrite Hbyte by lia. unfold splat. assert (Hall : slice src 0 (Z.of_nat (length src)) = src) by (unfold slice; rewrite drop_0; apply take_ge; lia).
  rewrite Hall, decide_True by lia. replace (Z.to_nat (off + Z.of_nat i - off)) with i by lia. by rewrite Hy.
Qed.

(** tmpfs_vfs_truncate gives exactly the pages of the file back to the
    allocator, index pages included, without a double free or a panic, leaves
    the file empty, and changes no page of another file. *)
Theorem tmpfs_truncate_spec s L node private :
  tready s L → node ≠ 0 → private ≠ 0 →
  ∃ s' L', tmpfs_vfs_truncate node private 0 s = Ret (0, s') ∧ tready s' L' ∧ ti_size (tin s') = 0 ∧
    (∀ p, tvalid p → tslot (sheap s') (tin s') p = 0) ∧
    (∀ a, a ∈ L' ↔ a ∈ L ∨ towns (sheap s) (tin s) a) ∧
    ∀ a, ¬ towns (sheap s) (tin s) a → sheap s' !! a = sheap s !! a.
Proof.
  intros [Hp Hf Hsz Hlk] Hn0 Hp0. unfold tmpfs_vfs_truncate. rewrite !decide_False by tauto.
  destruct (free_blocks_run s L Hp Hf) as (s1 & L1 & H1 & Hs1 & Hz). rewrite (bind_Ret _ _ _ _ _ H1).
  unfold modify, mbind, K_bind. eexists _, L1. split_and!; [done| |done|exact Hz| |apply (sh_tree _ _ _ _ Hs1)].
  - split; [apply Hs1|exact (tfile_size _ _ 0 (shrunk_ok _ _ _ _ Hs1))|simpl; unfold TMPFS_LIMIT, TMPFS_MAXFILE; done|]. simpl. by rewrite (sh_lock _ _ _ _ Hs1).
  - intros a. pose proof (pk_all _ _ Hp a) as Ha. pose proof (pk_all _ _ (sh_pages _ _ _ _ Hs1) a) as Ha1.
    pose proof (sk_dom _ _ _ _ _ (sh_tree _ _ _ _ Hs1) a) as Hd.
    assert (Hno : ¬ towns (sheap s1) (tin s1) a) by (intros [Hn (p & Hpv & Hsp)]; rewrite Hz in Hsp by done; congruence).
    pose proof (towns_in _ _ a Hf) as Hin.
    assert (HdL : is_Some (sheap s !! a) → a ∉ L) by (intros [b Hb]; by destruct (pk_page _ _ Hp a b Hb) as (_ & ? & _)).
    assert (HdL1 : is_Some (sheap s1 !! a) → a ∉ L1) by (intros [b Hb]; by destruct (pk_page _ _ (sh_pages _ _ _ _ Hs1) a b Hb) as (_ & ? & _)).
    split.
    + intros Hin1. destruct (proj1 Ha (proj2 Ha1 (or_introl Hin1))) as [|Hh]; [by left|right]. destruct (towns_dec (sheap s) (tin s) a) as [|Hn]; [done|].
      exfalso. by apply HdL1; [apply Hd|].
    + intros Hor. destruct (proj1 Ha1) as [|Hh1]; [|done|exfalso]; [apply Ha; destruct Hor as [|Ho]; [by left|right; auto]|].
      destruct Hor as [|Ho]; [by apply HdL; [apply Hd|]|]. by apply Hno, Hd.
Qed.
End tmpfs.

(** * Witnesses *)

#[local] Existing Instance demo_image.

(** An empty file and two free pages. *)
Definition demo_tin : tmpfs_inode := mk_tin 2 1 2 0 0 (replicate 12 0).
Definition demo_tmpfs : tstate kmem := mk_tstate (mk_tpages demo_kmem ∅) demo_tin false.
Definition demo_all : list Z := [demo_page 2; demo_page 1].

Lemma demo_tslot h p : tslot h demo_tin p = 0.
Proof.
  assert (Hb : ∀ i, tblk demo_tin i = 0).
  { intros i. unfold tblk. destruct (ti_blocks demo_tin !! Z.to_nat i) as [x|] eqn:E; [|done]. by apply (lookup_replicate 12 0) in E as [-> _]. }
  destruct p; unfold tslot; simpl; rewrite ?Hb; done.
Qed.
Lemma demo_tready : tready demo_all demo_tmpfs demo_all.
Proof.
  split; [split|split|done|done].
  - exact demo_free_list.
  - done.
  - intros a. simpl. rewrite lookup_empty. split; [by left|]. intros [?|[? [=]]]. done.
  - done.
  - intros p _ []. apply demo_tslot.
  - intros p q _ _ []. apply demo_tslot.
Qed.
Lemma demo_src : Forall byte_ok [7; 8; 9].
Proof. repeat constructor; unfold byte_ok; lia. Qed.

Lemma tmpfs_read_spec_witness :
  ∃ n, tmpfs_vfs_read 1 1 1 1 0 10 demo_tmpfs = Ret (n, tree_bytes TMPFS_NDIRECT TMPFS_NINDIRECT (tslot ∅ demo_tin) (page ∅) 0 n, demo_tmpfs) ∧ n = 0.
Proof.
  destruct (tmpfs_read_spec demo_all demo_tmpfs demo_all 1 1 1 1 0 10 demo_tready) as (n & Hn & Hb & _); [done..|]. exists n. split; [exact Hn|].
  simpl in Hb. lia.
Defined.
Lemma tmpfs_write_spec_witness :
  ∃ r s', tmpfs_vfs_write 1 1 1 1 4090 3 [7; 8; 9] demo_tmpfs = Ret (r, s').
Proof.
  destruct (tmpfs_write_spec demo_all demo_tmpfs demo_all 1 1 1 1 4090 [7; 8; 9] demo_tready) as (r & s' & L' & n & Hw & _); [done..|exact demo_src|done|].
  by exists r, s'.
Defined.
Lemma tmpfs_write_read_witness :
  ∃ r s', tmpfs_vfs_write 1 1 1 1 4090 3 [7; 8; 9] demo_tmpfs = Ret (r, s') ∧ (r = -1 ∨ tmpfs_vfs_read 1 1 1 1 4090 3 s' = Ret (r, [7; 8; 9], s')).
Proof. exact (tmpfs_write_read demo_all demo_tmpfs demo_all 1 1 1 1 4090 [7; 8; 9] demo_tready ltac:(done) ltac:(done) ltac:(done) ltac:(done) ltac:(done) demo_src ltac:(done)). Defined.
Lemma tmpfs_truncate_spec_witness :
  ∃ s' L', tmpfs_vfs_truncate 1 1 0 demo_tmpfs = Ret (0, s') ∧ tready demo_all s' L' ∧ ti_size (tin s') = 0.
Proof.
  destruct (tmpfs_truncate_spec demo_all demo_tmpfs demo_all 1 1 demo_tready) as (s' & L' & H1 & H2 & H3 & _); [done..|]. by exists s', L'.
Defined.

(** A file whose second page was written and whose first was not: its size is 4099,
    and reading it from the start gives no byte. *)
Example tmpfs_hole_is_end :
  match tmpfs_vfs_write 1 1 1 1 4096 3 [7; 8; 9] demo_tmpfs with
  | Ret (_, s) => ti_size (tin s) = 4099 ∧ (match tmpfs_vfs_read 1 1 1 1 0 4099 s with Ret (r, _) => r | _ => (1, []) end) = (0, [])
  | _ => False
  end.
Proof. vm_compute. by split. Qed.
