(* ===== verification/TmpfsDir.v ===== *)
(** kernel/fs/tmpfs/inode.c and mount.c: the directories of tmpfs.

    tmpfs_inode and tmpfs_dir_entry objects are in two maps by their address;
    an access to an address that is no live object is a [Fault].  The objects
    come from kmalloc through [ObjAllocator]; the two of the root are static.
    A directory is the list of its entries: [td_child] is the first, [td_next]
    the next one.  A vfs_inode is a slot of the inode cache (Icache.v) or the
    static [TMP_ROOT]; the fields that the cache does not use are in [vfields],
    and the sleep locks that are held in [vn_locks].  The pages of files and
    of the cache come from the same allocator. *)
From S2P Require Import Prelude Kalloc ListHead Slab Path Block IndexTree Icache TmpfsFile.

Definition TMPFS_DEV : Z := 2833.
Definition TMPFS_ROOT_INO : Z := 1.
Definition VFS_DIR : Z := 1.
Definition VFS_FILE : Z := 16.
Definition SIZEOF_TMPFS_INODE : Z := 120.
Definition SIZEOF_TMPFS_DIRENT : Z := 56.
Definition TMP_ROOT : Z := -1.
Definition FILE_VFS_NODE : Z := 1.

(** struct tmpfs_dir_entry *)
Record tdirent := mk_td { td_inode : Z; td_name : cstring; td_type : Z; td_next : Z; td_child : Z }.
Definition zero_td : tdirent := mk_td 0 [] 0 0 0.
Definition zero_tin : tmpfs_inode := mk_tin 0 0 0 0 0 (replicate 12 0).

Definition set_td_next n (e : tdirent) : tdirent := mk_td (td_inode e) (td_name e) (td_type e) n (td_child e).
Definition set_td_child n (e : tdirent) : tdirent := mk_td (td_inode e) (td_name e) (td_type e) (td_next e) n.
Definition set_nlinks n (ip : tmpfs_inode) : tmpfs_inode :=
  mk_tin (ti_type ip) n (ti_ino ip) (ti_size ip) (ti_dir ip) (ti_blocks ip).

Record tmem (M : Type) := mk_tmem {
  t_heap : gmap Z block;
  t_inos : gmap Z tmpfs_inode;
  t_dents : gmap Z tdirent;
  t_objs : M;
  t_next_ino : Z
}.
Arguments mk_tmem {_} _ _ _ _ _.
Arguments t_heap {_} _.
Arguments t_inos {_} _.
Arguments t_dents {_} _.
Arguments t_objs {_} _.
Arguments t_next_ino {_} _.

Record vfields := mk_vf { vf_type : Z; vf_size : Z; vf_sb : bool }.
Record vnodes := mk_vnodes { vn_root : cinode; vn_fields : gmap Z vfields; vn_locks : gset Z }.

(** The static variables of mount.c and [vfs_root]. *)
Record tmount := mk_tmount { tmpfs_inited : bool; tmpfs_root_mounted : bool; tm_vfs_root : option Z }.

Record tfs (P M : Type) := mk_tfs { t_ic : icache P; t_mem : tmem M; t_vn : vnodes; t_mnt : tmount }.
Arguments mk_tfs {_ _} _ _ _ _.
Arguments t_ic {_ _} _.
Arguments t_mem {_ _} _.
Arguments t_vn {_ _} _.
Arguments t_mnt {_ _} _.

Section tmpfs.
Context {P : Type} `{PageAllocator P} {M : Type} `{ObjAllocator M}.
(** &root_dir and &root_inode *)
Variables root_dir root_inode : Z.
Abbreviation st := (tfs P M).
Abbreviation heap_of s := (t_heap (t_mem s)).
Abbreviation inos s := (t_inos (t_mem s)).
Abbreviation dents s := (t_dents (t_mem s)).
Abbreviation objs s := (t_objs (t_mem s)).
Abbreviation next_ino s := (t_next_ino (t_mem s)).
Abbreviation locks s := (vn_locks (t_vn s)).

Definition set_t_ic c (s : st) : st := mk_tfs c (t_mem s) (t_vn s) (t_mnt s).
Definition set_t_mem m (s : st) : st := mk_tfs (t_ic s) m (t_vn s) (t_mnt s).
Definition set_t_vn v (s : st) : st := mk_tfs (t_ic s) (t_mem s) v (t_mnt s).
Definition set_t_mnt m (s : st) : st := mk_tfs (t_ic s) (t_mem s) (t_vn s) m.
Definition set_heap h (m : tmem M) : tmem M := mk_tmem h (t_inos m) (t_dents m) (t_objs m) (t_next_ino m).
Definition set_inos x (m : tmem M) : tmem M := mk_tmem (t_heap m) x (t_dents m) (t_objs m) (t_next_ino m).
Definition set_dents x (m : tmem M) : tmem M := mk_tmem (t_heap m) (t_inos m) x (t_objs m) (t_next_ino m).
Definition set_objs x (m : tmem M) : tmem M := mk_tmem (t_heap m) (t_inos m) (t_dents m) x (t_next_ino m).
Definition set_next_ino x (m : tmem M) : tmem M := mk_tmem (t_heap m) (t_inos m) (t_dents m) (t_objs m) x.
Definition modify_mem (f : tmem M → tmem M) : K st unit := modify (λ s, set_t_mem (f (t_mem s)) s).
Definition set_locks l (v : vnodes) : vnodes := mk_vnodes (vn_root v) (vn_fields v) l.
Definition on_cache {A} (m : K (icache P) A) : K st A := zoom t_ic set_t_ic m.

(** ** Objects *)

Definition get_ino (a : Z) : K st tmpfs_inode := λ s,
  match inos s !! a with Some x => Ret (x, s) | None => Fault end.
Definition put_ino (a : Z) (x : tmpfs_inode) : K st unit := λ s,
  match inos s !! a with
  | Some _ => Ret (tt, set_t_mem (set_inos (<[a := x]> (inos s)) (t_mem s)) s)
  | None => Fault
  end.
Definition get_de (a : Z) : K st tdirent := λ s,
  match dents s !! a with Some x => Ret (x, s) | None => Fault end.
Definition put_de (a : Z) (x : tdirent) : K st unit := λ s,
  match dents s !! a with
  | Some _ => Ret (tt, set_t_mem (set_dents (<[a := x]> (dents s)) (t_mem s)) s)
  | None => Fault
  end.

(** kmalloc gives zeroed memory; kmfree of null does nothing. *)
Definition on_objs {A} (m : K M A) : K st A := zoom (λ s, objs s) (λ x s, set_t_mem (set_objs x (t_mem s)) s) m.
Definition new_inode : K st Z :=
  a ← on_objs (obj_alloc SIZEOF_TMPFS_INODE);
  if decide (a = 0) then mret 0 else
  modify_mem (λ m, set_inos (<[a := zero_tin]> (t_inos m)) m) ;; mret a.
Definition new_dirent : K st Z :=
  a ← on_objs (obj_alloc SIZEOF_TMPFS_DIRENT);
  if decide (a = 0) then mret 0 else
  modify_mem (λ m, set_dents (<[a := zero_td]> (t_dents m)) m) ;; mret a.
Definition free_inode (a : Z) : K st unit :=
  on_objs (obj_free a) ;; modify_mem (λ m, set_inos (delete a (t_inos m)) m).
Definition free_dirent (a : Z) : K st unit :=
  on_objs (obj_free a) ;; modify_mem (λ m, set_dents (delete a (t_dents m)) m).

(** ** vfs inodes *)

Definition get_vi (v : Z) : K st cinode :=
  if decide (v = TMP_ROOT) then gets (λ s, vn_root (t_vn s)) else on_cache (get_ci v).
Definition get_vf (v : Z) : K st vfields := gets (λ s, default (mk_vf 0 0 false) (vn_fields (t_vn s) !! v)).
Definition put_vf (v : Z) (f : vfields) : K st unit :=
  modify (λ s, set_t_vn (mk_vnodes (vn_root (t_vn s)) (<[v := f]> (vn_fields (t_vn s))) (vn_locks (t_vn s))) s).

(** sleeplock.c: a thread that finds the lock taken waits. *)
Definition v_acquire (v : Z) : K st unit := λ s,
  if decide (v ∈ locks s) then NoFuel else Ret (tt, set_t_vn (set_locks ({[v]} ∪ locks s) (t_vn s)) s).
Definition v_release (v : Z) : K st unit := modify (λ s, set_t_vn (set_locks (locks s ∖ {[v]}) (t_vn s)) s).
Definition vfs_ilock (ip : option Z) : K st unit :=
  match ip with
  | None => kpanic "vfs ilock"
  | Some v => x ← get_vi v; if decide (i_count x < 1) then kpanic "vfs ilock" else v_acquire v
  end.
Definition vfs_iunlock (ip : option Z) : K st unit :=
  match ip with
  | None => kpanic "vfs iunlock"
  | Some v =>
      h ← gets (λ s, bool_decide (v ∈ locks s));
      if negb h then kpanic "vfs iunlock" else
      x ← get_vi v;
      if decide (i_count x < 1) then kpanic "vfs iunlock" else v_release v
  end.

(** ** mount.c *)

Definition tmpfs_init : K st unit :=
  b ← gets (λ s, tmpfs_inited (t_mnt s));
  if b : bool then mret tt else
  modify_mem (λ m, set_dents (<[root_dir := mk_td root_inode [] 0 0 0]> (t_dents m)) m) ;;
  modify (λ s, set_t_vn (mk_vnodes (mk_cinode TMPFS_DEV TMPFS_ROOT_INO 1 1 root_inode 0)
    (<[TMP_ROOT := mk_vf VFS_DIR 0 true]> (vn_fields (t_vn s))) (vn_locks (t_vn s) ∖ {[TMP_ROOT]})) s) ;;
  modify_mem (λ m, set_inos (<[root_inode := mk_tin VFS_DIR 1 TMPFS_ROOT_INO 0 root_dir (replicate 12 0)]> (t_inos m)) m) ;;
  modify (λ s, set_t_mnt (mk_tmount true true (tm_vfs_root (t_mnt s))) s).

Definition tmpfs_get_root_dir_entry : K st Z :=
  b ← gets (λ s, tmpfs_root_mounted (t_mnt s));
  mret (if b : bool then root_dir else 0).
Definition tmpfs_root : K st Z :=
  b ← gets (λ s, tmpfs_inited (t_mnt s));
  (if negb b then tmpfs_init else mret tt) ;;
  mret TMP_ROOT.
(** Whether &sb is returned, and not null. *)
Definition tmpfs_get_root_sb : K st bool := gets (λ s, tmpfs_root_mounted (t_mnt s)).

(** ** inode.c *)

Definition tmpfs_vfs_stat (node : option Z) (stp : Z) : K st (Z * option (Z * Z * Z * Z)) :=
  match node with
  | None => mret (-1, None)
  | Some v =>
      if decide (stp = 0) then mret (-1, None) else
      x ← get_vi v;
      if decide (private_data x = 0) then mret (-1, None) else
      ip ← get_ino (private_data x);
      mret (0, Some (0, ti_type ip, ti_nlinks ip, ti_size ip))
  end.

Definition tmpfs_inode_open (ino : Z) : K st bool :=
  r ← for_find (seqZ 0 NINODES) (λ i,
        x ← on_cache (get_ci i);
        if decide (i_dev x = TMPFS_DEV ∧ i_ino x = ino ∧ i_count x > 0) then mret (Some true) else mret None);
  mret (match r with Some b => b | None => false end).

Definition set_i_nlinks n (x : cinode) : cinode := mk_cinode (i_dev x) (i_ino x) (i_count x) n (private_data x) (pd_owned x).

Definition tmpfs_sync_nlinks (a : Z) : K st unit :=
  forM (seqZ 0 NINODES) (λ i,
    x ← on_cache (get_ci i);
    ip ← get_ino a;
    if decide (i_dev x = TMPFS_DEV ∧ i_ino x = ti_ino ip)
    then on_cache (put_ci i (set_i_nlinks (ti_nlinks ip) x)) else mret tt).

(** A routine of TmpfsFile.v on the inode at [a], whose lock is that of [v]. *)
Definition on_file {A} (v a : Z) (m : K (tstate P) A) : K st A := λ s,
  match inos s !! a with
  | None => Fault
  | Some ip =>
      match m (mk_tstate (mk_tpages (ipages (t_ic s)) (heap_of s)) ip (bool_decide (v ∈ locks s))) with
      | Ret (x, t) => Ret (x,
          mk_tfs (set_ipages (tp_alloc (tpg t)) (t_ic s))
            (set_inos (<[a := tin t]> (inos s)) (set_heap (heap (tpg t)) (t_mem s)))
            (set_locks (if v_lock t then {[v]} ∪ locks s else locks s ∖ {[v]}) (t_vn s)) (t_mnt s))
      | Panic w => Panic w
      | Fault => Fault
      | NoFuel => NoFuel
      end
  end.

(** The entry with the name and the one before it, from [entry] on. *)
Fixpoint find_entry (fuel : nat) (name : cstring) (prev entry : Z) : K st (Z * Z) :=
  match fuel with
  | O => λ _, NoFuel
  | S f =>
      if decide (entry = 0) then mret (prev, 0) else
      e ← get_de entry;
      if name_eq name (td_name e) then mret (prev, entry) else find_entry f name entry (td_next e)
  end.
Definition dir_fuel (s : st) : nat := S (size (dents s)).

Definition drop_private_data (ino : Z) : K st unit :=
  forM (seqZ 0 NINODES) (λ i,
    x ← on_cache (get_ci i);
    if decide (i_dev x = TMPFS_DEV ∧ i_ino x = ino) then on_cache (put_ci i (set_pd 0 0 x)) else mret tt).

(** The entry leaves the list of its directory: the one before it, or the
    directory, refers to the next one. *)
Definition unlink_detach (pdir prev : Z) (e : tdirent) : K st unit :=
  if decide (prev = 0) then pd ← get_de pdir; put_de pdir (set_td_child (td_next e) pd)
  else pe ← get_de prev; put_de prev (set_td_next (td_next e) pe).

(** The inode without links: kept while it is open, freed otherwise. *)
Definition unlink_inode (d child ino : Z) : K st unit :=
  o ← tmpfs_inode_open ino;
  if o : bool then tmpfs_sync_nlinks child
  else
    drop_private_data ino ;;
    on_file d child tmpfs_free_blocks ;;
    free_inode child.

Definition tmpfs_vfs_unlink (dir : option Z) (name : option cstring) : K st Z :=
  match dir, name with
  | Some d, Some name =>
      if decide (name = []) then mret (-1) else
      v_acquire d ;;
      x ← get_vi d;
      let parent := private_data x in
      if decide (parent = 0) then v_release d ;; mret (-1) else
      p ← get_ino parent;
      if decide (ti_dir p = 0) then v_release d ;; mret (-1) else
      pd ← get_de (ti_dir p);
      fuel ← gets dir_fuel;
      r ← find_entry fuel name 0 (td_child pd);
      let '(prev, entry) := r in
      if decide (entry = 0) then v_release d ;; mret (-1) else
      e ← get_de entry;
      if decide (td_type e = VFS_DIR) then v_release d ;; mret (-1) else
      let child := td_inode e in
      c ← get_ino child;
      put_ino child (set_nlinks (u16 (ti_nlinks c - 1)) c) ;;
      c ← get_ino child;
      (if decide (ti_nlinks c = 0) then
         unlink_detach (ti_dir p) prev e ;;
         unlink_inode d child (ti_ino c) ;;
         free_dirent entry
       else mret tt) ;;
      v_release d ;;
      mret 0
  | _, _ => mret (-1)
  end.

(** The entry at [off], counted in entries of [SIZEOF_TMPFS_DIRENT] bytes; an
    int that overflows is undefined. *)
Fixpoint seek_entry (fuel : nat) (de size off : Z) : K st Z :=
  match fuel with
  | O => λ _, NoFuel
  | S f =>
      if decide (de ≠ 0 ∧ size < off) then
        e ← get_de de;
        if decide (2 ^ 31 ≤ size + SIZEOF_TMPFS_DIRENT) then kfault else
        seek_entry f (td_next e) (size + SIZEOF_TMPFS_DIRENT) off
      else mret de
  end.

(** The result, the entry stored (number, type, name) and the new offset. *)
Definition tmpfs_vfs_readdir (f ftype off : Z) (node : option Z) (dirent : Z) : K st (Z * option (Z * Z * cstring) * Z) :=
  match node with
  | None => mret (-1, None, off)
  | Some dp =>
      if decide (f = 0 ∨ dirent = 0) then mret (-1, None, off) else
      vf ← get_vf dp;
      if decide (ftype ≠ FILE_VFS_NODE ∨ vf_type vf ≠ VFS_DIR) then mret (-1, None, off) else
      x ← get_vi dp;
      if decide (private_data x = 0) then mret (-1, None, off) else
      ip ← get_ino (private_data x);
      v_acquire dp ;;
      d ← get_de (ti_dir ip);
      if decide (td_child d = 0) then v_release dp ;; mret (0, None, off) else
      fuel ← gets dir_fuel;
      de ← seek_entry fuel (td_child d) 0 off;
      if decide (de = 0) then v_release dp ;; mret (0, None, off) else
      e ← get_de de;
      ip ← get_ino (td_inode e);
      v_release dp ;;
      mret (1, Some (ti_ino ip, ti_type ip, td_name e), u64 (off + SIZEOF_TMPFS_DIRENT))
  end.

Definition tmpfs_destroy_inode (v : Z) : K st unit :=
  root ← tmpfs_root;
  if decide (v = root) then mret tt else
  x ← get_vi v;
  (if decide (i_count x = 1 ∧ i_nlinks x = 0) then
     let ti := private_data x in
     if decide (ti ≠ 0) then on_file v ti tmpfs_free_blocks ;; free_inode ti else mret tt
   else mret tt) ;;
  on_cache (put_inode v false).

Definition tmpfs_fill_vfs_inode (ino a file_type : Z) : K st (option Z) :=
  if decide (a = 0) then mret None else
  r ← on_cache (get_inode TMPFS_DEV ino false);
  match r with
  | None => mret None
  | Some v =>
      ip ← get_ino a;
      x ← on_cache (get_ci v);
      on_cache (put_ci v (mk_cinode TMPFS_DEV ino (i_count x) (ti_nlinks ip) a 0)) ;;
      sb ← tmpfs_get_root_sb;
      put_vf v (mk_vf file_type (ti_size ip) sb) ;;
      if negb sb then on_cache (put_inode v false) ;; mret None else mret (Some v)
  end.

Definition tmpfs_vfs_lookup (dir : option Z) (name : cstring) : K st (option Z) :=
  match dir with
  | None => mret None
  | Some d =>
      vf ← get_vf d;
      if decide (vf_type vf ≠ VFS_DIR) then mret None else
      x ← get_vi d;
      if decide (private_data x = 0) then mret None else
      vfs_ilock dir ;;
      p ← get_ino (private_data x);
      pd ← get_de (ti_dir p);
      fuel ← gets dir_fuel;
      r ← find_entry fuel name 0 (td_child pd);
      if decide (r.2 = 0) then vfs_iunlock dir ;; mret None else
      e ← get_de r.2;
      ip ← get_ino (td_inode e);
      v ← tmpfs_fill_vfs_inode (ti_ino ip) (td_inode e) (u8 (ti_type ip));
      vfs_iunlock dir ;;
      mret v
  end.

(** The inode is filled in and the entry becomes the first of the directory,
    whose private data is [tmpfs_dir]. *)
Definition create_store (de a type tmpfs_dir : Z) : K st unit :=
  (if decide (type = VFS_DIR) then
     p ← get_ino tmpfs_dir; put_ino tmpfs_dir (set_nlinks (u16 (ti_nlinks p + 1)) p)
   else mret tt) ;;
  ino ← gets (λ s, next_ino s);
  modify_mem (set_next_ino (u32 (ino + 1))) ;;
  put_ino a (mk_tin (u16 type) 1 ino 0 de (replicate 12 0)) ;;
  p ← get_ino tmpfs_dir;
  pd ← get_de (ti_dir p);
  put_de (ti_dir p) (set_td_child de pd) ;;
  e ← get_de de;
  put_de de (mk_td (td_inode e) (td_name e) (td_type e) (td_child pd) 0).

(** The name is not there: the entry and its inode. *)
Definition create_new (d : Z) (name : cstring) (type : Z) : K st Z :=
  de ← new_dirent;
  if decide (de = 0) then vfs_iunlock (Some d) ;; mret (-1) else
  e ← get_de de;
  let n := if decide (DIRSIZ ≤ Z.of_nat (length name)) then DIRSIZ - 1 else Z.of_nat (length name) in
  put_de de (mk_td (td_inode e) (take (Z.to_nat n) name) (u8 type) (td_next e) (td_child e)) ;;
  a ← new_inode;
  e ← get_de de;
  put_de de (mk_td a (td_name e) (td_type e) (td_next e) (td_child e)) ;;
  if decide (a = 0) then free_dirent de ;; vfs_iunlock (Some d) ;; mret (-1) else
  x ← get_vi d;
  let tmpfs_dir := private_data x in
  if decide (type = VFS_DIR ∧ tmpfs_dir = 0) then
    free_inode a ;; free_dirent de ;; vfs_iunlock (Some d) ;; mret (-1)
  else
  create_store de a type tmpfs_dir ;;
  vfs_iunlock (Some d) ;;
  mret 0.

Definition tmpfs_vfs_create (dir : option Z) (name : option cstring) (type : Z) : K st Z :=
  match dir, name with
  | Some d, Some name =>
      if decide (name = []) then mret (-1) else
      existing ← tmpfs_vfs_lookup dir name;
      vfs_ilock dir ;;
      match existing with
      | Some v => on_cache (put_inode v false) ;; vfs_iunlock dir ;; mret (-1)
      | None => create_new d name type
      end
  | _, _ => mret (-1)
  end.

Definition tmpfs_vfs_mkdir (dir : option Z) (name : option cstring) (mode : Z) : K st Z :=
  tmpfs_vfs_create dir name VFS_DIR.

Definition tmpfs_mount_root : K st Z :=
  b ← gets (λ s, tmpfs_inited (t_mnt s));
  (if negb b then tmpfs_init else mret tt) ;;
  m ← gets (λ s, tmpfs_root_mounted (t_mnt s));
  if m : bool then mret (-1) else
  modify (λ s, set_t_mnt (mk_tmount (tmpfs_inited (t_mnt s)) true (tm_vfs_root (t_mnt s))) s) ;;
  r ← tmpfs_fill_vfs_inode TMPFS_ROOT_INO root_inode VFS_DIR;
  modify (λ s, set_t_mnt (mk_tmount (tmpfs_inited (t_mnt s)) (tmpfs_root_mounted (t_mnt s)) r) s) ;;
  mret 0.

End tmpfs.
