(* ===== verification/TmpfsTree.v ===== *)
(** tmpfs as a whole: the tree of entries, the inodes, their pages and the
    inode cache, under every sequence of calls.

    The events are the calls the VFS makes on behalf of the holders of
    references: lookup, create, unlink, vfs_iput, writing and truncation, next
    to the calls of the other file systems on the inode cache.  The invariant
    says what keeps tmpfs memory-safe and free of leaks: a slot in use points to
    a live inode, an inode that is not in the tree is open, every object of
    kmalloc and every page belongs to the tree or to an open file. *)
From stdpp Require Import relations.
From S2P Require Import Prelude Kalloc ListHead Slab Path Block IndexTree Icache TmpfsFile TmpfsDir.

(** * Lists of entries *)

Section chains.
Implicit Types D : gmap Z tdirent.

(** The list that starts at [a]. *)
Fixpoint chain D (a : Z) (l : list Z) : Prop :=
  match l with
  | [] => a = 0
  | b :: l => a = b ∧ b ≠ 0 ∧ ∃ e, D !! b = Some e ∧ chain D (td_next e) l
  end.

Lemma chain_elem D a l b : chain D a l → b ∈ l → b ≠ 0 ∧ is_Some (D !! b).
Proof.
  revert a. induction l as [|c l IH]; intros a Hc Hb; [by apply not_elem_of_nil in Hb|].
  destruct Hc as (-> & Hn & e & He & Hc). apply elem_of_cons in Hb as [->|Hb]; [by split; [|exists e]|by eapply IH].
Qed.
Lemma chain_unique D a l l' : chain D a l → chain D a l' → l = l'.
Proof.
  revert a l'. induction l as [|b l IH]; intros a [|b' l']; simpl; [done| | |].
  - intros -> (-> & ? & _). done.
  - intros (-> & ? & _) ->. done.
  - intros (-> & _ & e & He & Hc) (<- & _ & e' & He' & Hc'). f_equal. apply (IH (td_next e)); [done|]. by simplify_eq.
Qed.
Lemma chain_app D a l1 b l2 : chain D a (l1 ++ b :: l2) → chain D b (b :: l2).
Proof.
  revert a. induction l1 as [|c l1 IH]; intros a; simpl; [intros (-> & Hr); by split|].
  intros (_ & _ & e & _ & Hc). by eapply IH.
Qed.
Lemma chain_nodup D a l : chain D a l → NoDup l.
Proof.
  revert a. induction l as [|b l IH]; intros a Hc; [constructor|]. pose proof Hc as (-> & Hn & e & He & Hl).
  constructor; [|by eapply IH]. intros (l1 & l2 & ->)%list_elem_of_split.
  pose proof (chain_app D b (b :: l1) b l2 Hc) as Hb. pose proof (chain_unique _ _ _ _ Hc Hb) as Heq.
  apply (f_equal length) in Heq. simpl in Heq. rewrite length_app in Heq. simpl in Heq. lia.
Qed.
Lemma chain_length D a l : chain D a l → (length l ≤ size D)%nat.
Proof.
  intros Hc. rewrite <-size_dom. rewrite <-(size_list_to_set (C := gset Z) l) by (by eapply chain_nodup).
  apply subseteq_size. intros b Hb%elem_of_list_to_set. apply elem_of_dom. by destruct (chain_elem _ _ _ _ Hc Hb).
Qed.
(** Only the links of the entries of the list matter. *)
Lemma tchain_ext D D' a l : chain D a l → (∀ b, b ∈ l → td_next <$> D' !! b = td_next <$> D !! b) → chain D' a l.
Proof.
  revert a. induction l as [|b l IH]; intros a; simpl; [done|]. intros (-> & Hn & e & He & Hc) Hx.
  pose proof (Hx b ltac:(by left)) as Hb. rewrite He in Hb. destruct (D' !! b) as [e'|] eqn:E'; [|done]. injection Hb as Hb.
  split_and!; [done|done|]. exists e'. split; [done|]. rewrite Hb. apply IH; [done|]. intros c Hc'. apply Hx. by right.
Qed.

Lemma first_match {A} (f : A → bool) (l1 : list A) b l2 k1 c k2 :
  l1 ++ b :: l2 = k1 ++ c :: k2 → f b = true → f c = true → (∀ x, x ∈ l1 → f x = false) → (∀ x, x ∈ k1 → f x = false) → b = c.
Proof.
  revert k1. induction l1 as [|x l1 IH]; intros [|y k1] Heq Hb Hc Hl Hk; simpl in Heq; injection Heq as Heq1 Heq2.
  - done.
  - subst y. rewrite (Hk b) in Hb by (by left). done.
  - subst x. rewrite (Hl c) in Hc by (by left). done.
  - apply (IH k1); try done; intros z Hz; [apply Hl|apply Hk]; by right.
Qed.

Definition name_of D (b : Z) : cstring := default [] (td_name <$> D !! b).

(** The entry before the [k]-th one. *)
Definition before (prev : Z) (l : list Z) : Z := default prev (last l).
Lemma before_cons prev b l : before prev (b :: l) = before b l.
Proof. unfold before. rewrite last_cons. by destruct (last l). Qed.

Lemma before_in prev l : l ≠ [] → before prev l ∈ l.
Proof.
  intros Hne. unfold before. destruct (last l) as [z|] eqn:El; [|by apply last_None in El]. simpl. apply last_Some in El as [l' ->].
  apply elem_of_app. right. by left.
Qed.

(** Entry [b] leaves the list: the entry before it, or the head, is linked to
    the next one. *)
Lemma chain_remove D l1 b l2 a e :
  chain D a (l1 ++ b :: l2) → D !! b = Some e →
  chain (if decide (l1 = []) then D else alter (set_td_next (td_next e)) (before 0 l1) D)
    (if decide (l1 = []) then td_next e else a) (l1 ++ l2).
Proof.
  intros Hc He. destruct l1 as [|c l1].
  - simpl in *. destruct Hc as (-> & _ & e' & He' & Hc). by simplify_eq.
  - rewrite decide_False, decide_False by done. rewrite before_cons. revert a c Hc. induction l1 as [|c' l1 IH]; intros a c Hc.
    + destruct Hc as (-> & Hn & ec & Hec & Hc). destruct (chain_app D _ [] b l2 Hc) as (_ & _ & e' & He' & Hc2). simplify_eq.
      pose proof (chain_nodup D c ([c] ++ b :: l2)) as Hnd. simpl. split_and!; [done|done|]. exists (set_td_next (td_next e) ec).
      unfold before. simpl. rewrite lookup_alter_eq, Hec. split; [done|]. apply (tchain_ext D); [done|].
      intros d Hd. rewrite lookup_alter_ne; [done|]. intros ->. 
      assert (Hnd' : NoDup ([d] ++ b :: l2)) by (apply Hnd; simpl; split_and!; [done|done|]; by exists ec). 
      simpl in Hnd'. apply NoDup_cons in Hnd' as [Hnd' _]. apply Hnd'. by right.
    + destruct Hc as (-> & Hn & ec & Hec & Hc). pose proof (IH _ _ Hc) as Hr. rewrite before_cons. simpl. split_and!; [done|done|].
      assert (Hcc : before c' l1 ≠ c).
      { pose proof (chain_nodup D c ((c :: c' :: l1) ++ b :: l2)) as Hnd. simpl in Hnd.
        assert (Hnd' : NoDup (c :: c' :: l1 ++ b :: l2)) by (apply Hnd; split_and!; [done|done|by exists ec]). apply NoDup_cons in Hnd' as [Hnd' _].
        intros Hx. apply Hnd'. rewrite <-Hx. unfold before. destruct (last l1) as [z|] eqn:El; simpl; [|by left].
        right. apply elem_of_app. left. apply last_Some in El as [l' ->]. apply elem_of_app. right. by left. }
      exists ec. rewrite lookup_alter_ne by done. split; [done|]. exact Hr.
Qed.
End chains.

(** * The invariant *)

Section tree.
Context {P : Type} `{PageAllocator P} {M : Type} `{ObjAllocator M}.
Variables root_dir root_inode : Z.
(** The devices whose private data the inode cache owns. *)
Variable own : Z → bool.
Abbreviation st := (tfs P M).
Abbreviation heap_of s := (t_heap (t_mem s)).
Abbreviation inos s := (t_inos (t_mem s)).
Abbreviation dents s := (t_dents (t_mem s)).
Abbreviation objs s := (t_objs (t_mem s)).
Abbreviation next_ino s := (t_next_ino (t_mem s)).
Abbreviation locks s := (vn_locks (t_vn s)).
Abbreviation slots s := (inodes (t_ic s)).
Abbreviation fields s := (vn_fields (t_vn s)).
Implicit Types D : gmap Z tdirent.
Implicit Types I : gmap Z tmpfs_inode.
Implicit Types h : gmap Z block.

(** The addresses of the two static objects are no kmalloc objects. *)
Record statics : Prop := {
  sc_null : root_dir ≠ 0 ∧ root_inode ≠ 0;
  sc_dir : ¬ is_obj root_dir;
  sc_inode : ¬ is_obj root_inode;
  sc_ne : root_dir ≠ root_inode;
  sc_own : own TMPFS_DEV = false
}.

(** [q] is an entry of the directory [p]. *)
Definition kid_of D (kids : Z → list Z) (p q : Z) : Prop := is_Some (D !! p) ∧ q ∈ kids p.

(** The entries form a tree: [kids d] are the entries of the directory [d]. *)
Record tree_ok D I (kids : Z → list Z) : Prop := {
  tr_root : td_inode <$> D !! root_dir = Some root_inode;
  tr_chain d e : D !! d = Some e → chain D (td_child e) (kids d);
  tr_reach d : is_Some (D !! d) → rtc (kid_of D kids) root_dir d;
  tr_one d p q : is_Some (D !! p) → is_Some (D !! q) → d ∈ kids p → d ∈ kids q → p = q;
  tr_rootkid p : is_Some (D !! p) → root_dir ∉ kids p;
  tr_len d e : D !! d = Some e → Z.of_nat (length (td_name e)) < DIRSIZ;
  tr_ino d e : D !! d = Some e → ∃ ip, I !! td_inode e = Some ip ∧ ti_dir ip = d ∧ 1 ≤ ti_nlinks ip < 2 ^ 16 ∧
    ti_type ip = (if decide (d = root_dir) then VFS_DIR else td_type e) ∧
    (ti_type ip ≠ VFS_DIR → ti_nlinks ip = 1 ∧ kids d = [])
}.

(** The files have their own pages, and all pages are of a file. *)
Record files_ok h I : Prop := {
  fo_file a ip : I !! a = Some ip → tfile_ok h ip ∧ 0 ≤ ti_size ip ≤ TMPFS_LIMIT;
  fo_disj a b ip ip' p : I !! a = Some ip → I !! b = Some ip' → towns h ip p → towns h ip' p → a = b;
  fo_dom p : is_Some (h !! p) → ∃ a ip, I !! a = Some ip ∧ towns h ip p
}.

Record numbers_ok I (n : Z) : Prop := {
  no_range a ip : I !! a = Some ip → 0 < ti_ino ip < n ∧ 0 ≤ ti_type ip < 256;
  no_inj a b ip ip' : I !! a = Some ip → I !! b = Some ip' → ti_ino ip = ti_ino ip' → a = b;
  no_next : n < 2 ^ 32
}.

(** The inode at [a] is in the tree. *)
Definition in_tree D (a : Z) (ip : tmpfs_inode) : Prop := td_inode <$> D !! ti_dir ip = Some a.
(** A slot that holds references to the inode number [n] of tmpfs. *)
Definition opened (sl : list cinode) (n : Z) : Prop :=
  ∃ i x, sl !! i = Some x ∧ i_dev x = TMPFS_DEV ∧ i_ino x = n ∧ 0 < i_count x.
Definition vtype (vf : gmap Z vfields) (v : Z) : Z := vf_type (default (mk_vf 0 0 false) (vf !! v)).

Record open_ok D I (sl : list cinode) (vf : gmap Z vfields) : Prop := {
  op_slot i x : sl !! i = Some x → i_dev x = TMPFS_DEV → 0 < i_count x →
    ∃ ip, I !! private_data x = Some ip ∧ ti_ino ip = i_ino x ∧ (i_nlinks x = 0 ↔ ti_nlinks ip = 0) ∧
      vtype vf (Z.of_nat i) = ti_type ip;
  op_orphan a ip : I !! a = Some ip →
    in_tree D a ip ∨ ti_nlinks ip = 0 ∧ ti_type ip ≠ VFS_DIR ∧ opened sl (ti_ino ip)
}.

Record objs_ok (ob : M) D I : Prop := {
  ob_ok : obj_ok ob;
  ob_live a : obj_live ob a ↔ (is_Some (D !! a) ∧ a ≠ root_dir) ∨ (is_Some (I !! a) ∧ a ≠ root_inode);
  ob_disj a : is_Some (D !! a) → is_Some (I !! a) → False
}.

Abbreviation hpages h := (λ p : Z, is_Some (h !! p)).
Abbreviation cache_inv h := (@icache_inv P (framed (hpages h)) own).

Record tmpfs_inv (held : gset Z) (s : st) (refs : list Z) : Prop := {
  tv_static : statics;
  tv_tree : ∃ kids, tree_ok (dents s) (inos s) kids;
  tv_files : files_ok (heap_of s) (inos s);
  tv_heap p b : heap_of s !! p = Some b → is_page p ∧ block_ok b;
  tv_numbers : numbers_ok (inos s) (next_ino s);
  tv_open : open_ok (dents s) (inos s) (slots s) (fields s);
  tv_objs : objs_ok (objs s) (dents s) (inos s);
  tv_cache : ∃ all, cache_inv (heap_of s) all (mk_istate (t_ic s) refs);
  tv_root : vn_root (t_vn s) = mk_cinode TMPFS_DEV TMPFS_ROOT_INO 1 1 root_inode 0 ∧ vtype (fields s) TMP_ROOT = VFS_DIR;
  tv_locks : locks s = held;
  tv_mounted : tmpfs_inited (t_mnt s) = true ∧ tmpfs_root_mounted (t_mnt s) = true
}.

(** ** Handles *)

(** A vfs_inode of tmpfs that a caller may pass. *)
Definition handle (s : st) (refs : list Z) (v : Z) : Prop :=
  v = TMP_ROOT ∨ v ∈ refs ∧ ∃ x, slots s !! Z.to_nat v = Some x ∧ i_dev x = TMPFS_DEV.

Lemma tcache_run {A} (m : K (icache P) A) (s : st) x c : m (t_ic s) = Ret (x, c) → on_cache m s = Ret (x, set_t_ic c s).
Proof. intros Hm. unfold on_cache, zoom. by rewrite Hm. Qed.
Lemma on_cache_get (s : st) i x : slots s !! Z.to_nat i = Some x → on_cache (get_ci i) s = Ret (x, s).
Proof. intros Hx. rewrite (tcache_run _ _ _ _ (get_ci_run (t_ic s) i x Hx)). by destruct s. Qed.
Lemma get_ino_run (s : st) a ip : inos s !! a = Some ip → get_ino a s = Ret (ip, s).
Proof. intros Ha. unfold get_ino. by rewrite Ha. Qed.
Lemma get_de_run (s : st) a e : dents s !! a = Some e → get_de a s = Ret (e, s).
Proof. intros Ha. unfold get_de. by rewrite Ha. Qed.

Lemma ref_slot held s refs v :
  tmpfs_inv held s refs → v ∈ refs → 0 ≤ v < NINODES ∧ ∃ x, slots s !! Z.to_nat v = Some x ∧ 0 < i_count x ∧ i_ino x ≠ 0.
Proof.
  intros HI Hv. destruct (tv_cache _ _ _ HI) as [all Hc]. destruct (iv_refs _ _ _ Hc v Hv) as (Hr & x & Hx & Hn).
  split; [done|]. exists x. split_and!; [done| |done]. rewrite (iv_count _ _ _ Hc _ _ Hx). cbn [irefs]. rewrite Z2Nat.id by lia.
  assert (Hf : v ∈ refs_to v refs) by (by apply list_elem_of_filter). destruct (refs_to v refs); [by apply not_elem_of_nil in Hf|simpl; lia].
Qed.

(** What a handle refers to. *)
Lemma inode_not_null held s refs a ip : tmpfs_inv held s refs → inos s !! a = Some ip → a ≠ 0.
Proof.
  intros HI Hip ->. destruct (tv_static _ _ _ HI) as [[_ Hi0] _ _ _ _]. destruct (ob_live _ _ _ (tv_objs _ _ _ HI) 0) as [_ Hl].
  apply (is_obj_pos 0); [|done]. apply (obj_live_is (objs s)); [apply HI|]. apply Hl. right. split; [by exists ip|done].
Qed.
Lemma entry_not_null held s refs d e : tmpfs_inv held s refs → dents s !! d = Some e → d ≠ 0.
Proof.
  intros HI He ->. destruct (tv_static _ _ _ HI) as [[Hr0 _] _ _ _ _]. destruct (ob_live _ _ _ (tv_objs _ _ _ HI) 0) as [_ Hl].
  apply (is_obj_pos 0); [|done]. apply (obj_live_is (objs s)); [apply HI|]. apply Hl. left. split; [by exists e|done].
Qed.

Lemma handle_run held s refs v :
  tmpfs_inv held s refs → handle s refs v →
  ∃ x ip, get_vi v s = Ret (x, s) ∧ 0 < i_count x ∧ private_data x ≠ 0 ∧ inos s !! private_data x = Some ip ∧
    vtype (fields s) v = ti_type ip ∧ (v ≠ TMP_ROOT → slots s !! Z.to_nat v = Some x ∧ 0 ≤ v < NINODES ∧ i_ino x = ti_ino ip).
Proof.
  intros HI Hh. destruct (tv_tree _ _ _ HI) as [kids Ht]. destruct (tv_root _ _ _ HI) as [Hroot Hrt].
  unfold get_vi. destruct Hh as [->|[Hv (x & Hx & Hd)] ].
  - rewrite decide_True by done. exists (mk_cinode TMPFS_DEV TMPFS_ROOT_INO 1 1 root_inode 0).
    pose proof (tr_root _ _ _ Ht) as Hr. destruct (dents s !! root_dir) as [e|] eqn:Ee; [|done]. injection Hr as Hr.
    destruct (tr_ino _ _ _ Ht root_dir e Ee) as (ip & Hip & _ & _ & Hty & _). rewrite Hr in Hip. rewrite decide_True in Hty by done.
    exists ip. unfold gets. rewrite Hroot. split_and!; [done|done|by eapply inode_not_null|done|congruence|done].
  - destruct (ref_slot _ _ _ _ HI Hv) as (Hr & y & Hy & Hc & Hn). assert (y = x) as -> by congruence.
    rewrite decide_False by (unfold TMP_ROOT; lia). destruct (op_slot _ _ _ _ (tv_open _ _ _ HI) _ _ Hx Hd Hc) as (ip & Hip & Hino & _ & Hty).
    rewrite Z2Nat.id in Hty by lia. exists x, ip. rewrite (on_cache_get s v x Hx). split_and!; try done. by eapply inode_not_null.
Qed.

(** A handle of a directory: its entry. *)
Lemma dir_run held s refs v :
  tmpfs_inv held s refs → handle s refs v → vtype (fields s) v = VFS_DIR →
  ∃ x ip e, get_vi v s = Ret (x, s) ∧ 0 < i_count x ∧ private_data x ≠ 0 ∧ inos s !! private_data x = Some ip ∧
    dents s !! ti_dir ip = Some e ∧ td_inode e = private_data x ∧ ti_type ip = VFS_DIR.
Proof.
  intros HI Hh Hd. destruct (handle_run _ _ _ _ HI Hh) as (x & ip & Hg & Hc & Hn & Hip & Hty & _).
  destruct (op_orphan _ _ _ _ (tv_open _ _ _ HI) _ _ Hip) as [Hin|(_ & Hne & _)]; [|congruence].
  unfold in_tree in Hin. destruct (dents s !! ti_dir ip) as [e|] eqn:Ee; [|done]. injection Hin as Hin.
  exists x, ip, e. split_and!; try done. congruence.
Qed.

(** ** Locks *)

Definition with_locks (l : gset Z) (s : st) : st := set_t_vn (set_locks l (t_vn s)) s.
Lemma with_locks_inv held l s refs : tmpfs_inv held s refs → tmpfs_inv l (with_locks l s) refs.
Proof. intros HI. split; try done; apply HI. Qed.
Lemma with_locks_id s l : locks s = l → with_locks l s = s.
Proof. intros <-. by destruct s as [? ? [] ?]. Qed.
Lemma vlock_run held s refs v : tmpfs_inv held s refs → handle s refs v → v ∉ held → vfs_ilock (Some v) s = Ret (tt, with_locks ({[v]} ∪ held) s).
Proof.
  intros HI Hh Hv. destruct (handle_run _ _ _ _ HI Hh) as (x & ip & Hg & Hc & _). unfold vfs_ilock.
  rewrite (bind_Ret _ _ _ _ _ Hg), decide_False by lia. unfold v_acquire. rewrite (tv_locks _ _ _ HI). by rewrite decide_False.
Qed.
Lemma vunlock_run held s refs v : tmpfs_inv ({[v]} ∪ held) s refs → handle s refs v → v ∉ held →
  vfs_iunlock (Some v) s = Ret (tt, with_locks held s).
Proof.
  intros HI Hh Hv. destruct (handle_run _ _ _ _ HI Hh) as (x & ip & Hg & Hc & _). unfold vfs_iunlock.
  rewrite (bind_Ret (gets _) _ _ true s); [|unfold gets; rewrite bool_decide_eq_true_2 by (rewrite (tv_locks _ _ _ HI); set_solver); done].
  simpl. rewrite (bind_Ret _ _ _ _ _ Hg), decide_False by lia. unfold v_release, modify, with_locks. rewrite (tv_locks _ _ _ HI).
  by replace (({[v]} ∪ held) ∖ {[v]}) with held by set_solver.
Qed.

(** ** Looking up *)

Lemma find_entry_run (s : st) name prev a l :
  chain (dents s) a l → ∀ fuel, (length l < fuel)%nat →
  ∃ r, find_entry fuel name prev a s = Ret (r, s) ∧
    (r.2 = 0 ∧ (∀ b, b ∈ l → name_eq name (name_of (dents s) b) = false) ∨
     ∃ l1 l2 e, l = l1 ++ r.2 :: l2 ∧ r.1 = before prev l1 ∧ r.2 ≠ 0 ∧ dents s !! r.2 = Some e ∧ name_eq name (td_name e) = true ∧
       ∀ b, b ∈ l1 → name_eq name (name_of (dents s) b) = false).
Proof.
  revert prev a. induction l as [|b l IH]; intros prev a Hc fuel Hf; (destruct fuel as [|fuel]; [simpl in Hf; lia|]); simpl in Hc, Hf; simpl.
  - subst a. rewrite decide_True by done. exists (prev, 0). split; [done|]. left. split; [done|]. intros b []%not_elem_of_nil.
  - destruct Hc as (-> & Hn & e & He & Hc). rewrite decide_False by done. rewrite (bind_Ret _ _ _ _ _ (get_de_run s b e He)).
    assert (Hnm : name_of (dents s) b = td_name e) by (unfold name_of; by rewrite He).
    destruct (name_eq name (td_name e)) eqn:En.
    + exists (prev, b). split; [done|]. right. exists [], l, e. split_and!; try done. intros c []%not_elem_of_nil.
    + destruct (IH b (td_next e) Hc fuel) as (r & Hr & Hp); [lia|]. exists r. split; [done|]. destruct Hp as [[Hz Ha]|(l1 & l2 & e' & -> & H1 & H2 & H3 & H4 & H5)].
      * left. split; [done|]. intros c [->|Hc']%elem_of_cons; [congruence|by apply Ha].
      * right. exists (b :: l1), l2, e'. split_and!; try done; [by rewrite before_cons|]. intros c [->|Hc']%elem_of_cons; [congruence|by apply H5].
Qed.
Lemma find_fuel_enough (s : st) a l : chain (dents s) a l → (length l < dir_fuel s)%nat.
Proof. intros Hc. pose proof (chain_length _ _ _ Hc). unfold dir_fuel. lia. Qed.

Lemma name_eq_short a b : Z.of_nat (length a) < DIRSIZ → Z.of_nat (length b) < DIRSIZ → name_eq a b = bool_decide (a = b).
Proof. intros Ha Hb. unfold name_eq, DIRSIZ in *. by rewrite !take_ge by lia. Qed.

(** ** The inode cache below *)

Lemma get_inode_framed F : @get_inode P (framed F) = get_inode.
Proof. reflexivity. Qed.
Lemma put_inode_framed F : @put_inode P (framed F) = put_inode.
Proof. reflexivity. Qed.

(** References and slots after a change of one slot of the cache that nobody
    else holds. *)
Lemma handle_grow s s' refs refs' i x x' :
  slots s !! Z.to_nat i = Some x → slots s' = <[Z.to_nat i := x']> (slots s) → (∀ v, v ∈ refs → v ∈ refs') → (∀ v, v ∈ refs → 0 ≤ v) → 0 ≤ i →
  (i ∈ refs → i_dev x = TMPFS_DEV → i_dev x' = TMPFS_DEV) → ∀ v, handle s refs v → handle s' refs' v.
Proof.
  intros Hx Hs Hr Hp Hi Hd v [->|[Hv (y & Hy & Hyd)] ]; [by left|]. right. split; [auto|]. pose proof (Hp v Hv). rewrite Hs.
  destruct (decide (v = i)) as [->|Hne].
  - exists x'. rewrite list_lookup_insert_eq by (by eapply lookup_lt_Some). split; [done|]. simplify_eq. auto.
  - exists y. by rewrite list_lookup_insert_ne by lia.
Qed.

Lemma fill_open D I sl vf i x y a ip b :
  open_ok D I sl vf → sl !! i = Some x → (i_count x = 0 ∨ i_dev x = TMPFS_DEV ∧ i_ino x = ti_ino ip) → 0 ≤ i_count x →
  I !! a = Some ip → y = mk_cinode TMPFS_DEV (ti_ino ip) (i_count x + 1) (ti_nlinks ip) a 0 →
  open_ok D I (<[i := y]> sl) (<[Z.of_nat i := mk_vf (ti_type ip) (ti_size ip) b]> vf).
Proof.
  intros HO Hx Hold Hc Hip ->. assert (Hi : (i < length sl)%nat) by (by eapply lookup_lt_Some). split.
  - intros j z. destruct (decide (j = i)) as [->|Hne].
    + rewrite list_lookup_insert_eq by done. intros [= <-] _ _. exists ip. unfold vtype. rewrite lookup_insert_eq. done.
    + rewrite list_lookup_insert_ne by done. intros Hz Hd Hcz. destruct (op_slot _ _ _ _ HO j z Hz Hd Hcz) as (ip' & H1 & H2 & H3 & H4).
      exists ip'. unfold vtype. rewrite lookup_insert_ne by lia. done.
  - intros a' ip' Ha. destruct (op_orphan _ _ _ _ HO a' ip' Ha) as [?|(H1 & H2 & j & z & Hz & Hd & Hino & Hcz)]; [by left|].
    right. split_and!; [done|done|]. destruct (decide (j = i)) as [->|Hne].
    + exists i. eexists. rewrite list_lookup_insert_eq by done. split; [done|]. simplify_eq. simpl. split_and!; [done| |lia].
      destruct Hold as [?|[_ ?]]; [lia|congruence].
    + exists j, z. by rewrite list_lookup_insert_ne.
Qed.

(** The part of the state that fill, lookup and vfs_iput change. *)
Record cache_moved (s s' : st) (refs refs' : list Z) : Prop := {
  cm_mem : t_mem s' = t_mem s;
  cm_handle v : handle s refs v → handle s' refs' v
}.

Lemma fill_run held s refs a ip :
  tmpfs_inv held s refs → inos s !! a = Some ip → Z.of_nat (length refs) < 2 ^ 32 - 1 →
  ∃ r s', tmpfs_fill_vfs_inode (ti_ino ip) a (u8 (ti_type ip)) s = Ret (r, s') ∧
    match r with
    | Some v => tmpfs_inv held s' (refs ++ [v]) ∧ cache_moved s s' refs (refs ++ [v]) ∧ 0 ≤ v < NINODES ∧
        ∃ y, slots s' !! Z.to_nat v = Some y ∧ i_dev y = TMPFS_DEV ∧ i_ino y = ti_ino ip ∧ private_data y = a ∧ vtype (fields s') v = ti_type ip
    | None => s' = s ∧ ∀ i x, slots s !! i = Some x → i_count x ≠ 0
    end.
Proof.
  intros HI Hip Hlen. destruct (tv_cache _ _ _ HI) as [all Hc]. destruct (no_range _ _ (tv_numbers _ _ _ HI) _ _ Hip) as [Hno Hty].
  unfold tmpfs_fill_vfs_inode. rewrite decide_False by (by eapply inode_not_null).
  destruct (@get_inode_run P (framed _) own all _ TMPFS_DEV (ti_ino ip) Hc ltac:(lia) Hlen) as (r & c' & Hg & Hp).
  rewrite get_inode_framed, (sc_own (tv_static _ _ _ HI)) in Hg. cbn [ic] in Hg. rewrite (bind_Ret _ _ _ _ _ (tcache_run _ s _ _ Hg)).
  destruct r as [i|]; [|destruct Hp as [-> Hp]; exists None, s; split; [by destruct s|]; split; [done|]; intros j x Hx; by destruct (Hp j x Hx)].
  destruct Hp as (Hc' & Hi & x & x' & Hx & Hs' & Hd & Hino & Hcnt & Hold). cbn [ic irefs] in *.
  rewrite (bind_Ret _ _ _ _ _ (get_ino_run (set_t_ic c' s) a ip Hip)).
  assert (Hx' : inodes c' !! Z.to_nat i = Some x') by (rewrite Hs'; by eapply iput_same).
  rewrite (bind_Ret _ _ _ _ _ (on_cache_get (set_t_ic c' s) i x' Hx')).
  assert (Hcx : 0 ≤ i_count x) by (rewrite (iv_count _ _ _ Hc _ _ Hx); lia).
  assert (Hpo : pd_owned x' = 0).
  { destruct (decide (pd_owned x' = 0)) as [|Hne]; [done|]. pose proof (iv_owned _ _ _ Hc' _ _ Hx' Hne) as Ho.
    rewrite Hd, (sc_own (tv_static _ _ _ HI)) in Ho. done. }
  set (y := mk_cinode TMPFS_DEV (ti_ino ip) (i_count x') (ti_nlinks ip) a 0).
  assert (Hput : put_ci i y c' = Ret (tt, iput c' i y (ilinks c') (ipages c'))) by apply put_ci_run.
  rewrite (bind_Ret _ _ _ _ _ (tcache_run _ (set_t_ic c' s) _ _ Hput)).
  unfold tmpfs_get_root_sb. rewrite (bind_Ret (gets _) _ _ true (set_t_ic (iput c' i y (ilinks c') (ipages c')) (set_t_ic c' s)));
    [|unfold gets; simpl; by rewrite (proj2 (tv_mounted _ _ _ HI))].
  unfold put_vf, modify, mbind, K_bind. simpl. eexists (Some i), _. split; [done|].
  assert (Hsl : inodes (iput c' i y (ilinks c') (ipages c')) = <[Z.to_nat i := y]> (slots s)).
  { simpl. rewrite Hs'. simpl. by rewrite list_insert_insert_eq. }
  assert (Hy : inodes (iput c' i y (ilinks c') (ipages c')) !! Z.to_nat i = Some y) by (by eapply iput_same).
  assert (HI' : cache_inv (heap_of s) all (mk_istate (iput c' i y (ilinks c') (ipages c')) (refs ++ [i]))).
  { pose proof (@set_slot_inv P (framed _) own all _ (length refs) i x' (ti_nlinks ip) a Hc') as Hset. cbn [ic irefs] in Hset.
    rewrite Hd, Hino, Hpo in Hset. apply Hset; [by rewrite lookup_app_r, Nat.sub_diag by lia|done|].
    rewrite (sc_own (tv_static _ _ _ HI)). done. }
  assert (Hu8 : u8 (ti_type ip) = ti_type ip) by (apply u8_small; lia).
  assert (Hpos : ∀ v, v ∈ refs → 0 ≤ v) by (intros v Hv; destruct (ref_slot _ _ _ _ HI Hv); lia).
  split_and!; [|split; [done|]|lia|lia|].
  - split; try apply HI; cbn [t_mem t_vn t_ic vn_fields vn_root].
    + change (open_ok (dents s) (inos s) (inodes (iput c' i y (ilinks c') (ipages c'))) (<[i:=mk_vf (u8 (ti_type ip)) (ti_size ip) true]> (fields s))). rewrite Hsl, Hu8. pose proof (fill_open _ _ _ _ (Z.to_nat i) x y a ip true (tv_open _ _ _ HI) Hx) as HO.
      rewrite Z2Nat.id in HO by lia. apply HO; [done|lia|done|]. unfold y. by rewrite Hcnt.
    + by exists all.
    + split; [apply HI|]. unfold vtype. simpl. rewrite lookup_insert_ne by (unfold TMP_ROOT; lia). apply HI.
  - apply (handle_grow s _ refs _ i x y); [done|done| |done|lia|done]. intros v Hv. apply elem_of_app. by left.
  - exists y. unfold vtype. simpl. rewrite lookup_insert_eq. split_and!; try done.
Qed.

(** [l] are the entries of the directory [v]. *)
Definition entries (s : st) (v : Z) (l : list Z) : Prop :=
  ∃ x ip e, get_vi v s = Ret (x, s) ∧ inos s !! private_data x = Some ip ∧ dents s !! ti_dir ip = Some e ∧ chain (dents s) (td_child e) l.

(** Slot [v] holds the inode of the entry [b]. *)
Definition refers (s s' : st) (v b : Z) : Prop :=
  ∃ e ip y, dents s !! b = Some e ∧ inos s !! td_inode e = Some ip ∧ slots s' !! Z.to_nat v = Some y ∧ i_dev y = TMPFS_DEV ∧
    i_ino y = ti_ino ip ∧ private_data y = td_inode e ∧ vtype (fields s') v = ti_type ip.

Lemma dir_entries held s refs v :
  tmpfs_inv held s refs → handle s refs v → vtype (fields s) v = VFS_DIR →
  ∃ x ip e kids, get_vi v s = Ret (x, s) ∧ 0 < i_count x ∧ private_data x ≠ 0 ∧ inos s !! private_data x = Some ip ∧
    dents s !! ti_dir ip = Some e ∧ td_inode e = private_data x ∧ ti_type ip = VFS_DIR ∧ tree_ok (dents s) (inos s) kids ∧
    entries s v (kids (ti_dir ip)).
Proof.
  intros HI Hh Hd. destruct (dir_run _ _ _ _ HI Hh Hd) as (x & ip & e & Hg & Hc & Hn & Hip & He & Hti & Hty).
  destruct (tv_tree _ _ _ HI) as [kids Ht]. exists x, ip, e, kids. split_and!; try done. exists x, ip, e. split_and!; try done. by apply Ht.
Qed.

Lemma tlookup_run held s refs d name :
  tmpfs_inv held s refs → handle s refs d → d ∉ held → Z.of_nat (length refs) < 2 ^ 32 - 1 → vtype (fields s) d = VFS_DIR →
  ∃ l r s', entries s d l ∧ tmpfs_vfs_lookup (Some d) name s = Ret (r, s') ∧
    match r with
    | Some v => tmpfs_inv held s' (refs ++ [v]) ∧ cache_moved s s' refs (refs ++ [v]) ∧ 0 ≤ v < NINODES ∧
        ∃ l1 b l2, l = l1 ++ b :: l2 ∧ refers s s' v b ∧ name_eq name (name_of (dents s) b) = true ∧
          ∀ c, c ∈ l1 → name_eq name (name_of (dents s) c) = false
    | None => s' = s ∧
        ((∀ b, b ∈ l → name_eq name (name_of (dents s) b) = false) ∨ ∀ i x, slots s !! i = Some x → i_count x ≠ 0)
    end.
Proof.
  intros HI Hh Hd Hlen Hty. destruct (dir_entries _ _ _ _ HI Hh Hty) as (x & ip & e & kids & Hg & Hc & Hn & Hip & He & Hti & Hdt & Ht & Hent).
  pose proof (tr_chain _ _ _ Ht _ _ He) as Hch. exists (kids (ti_dir ip)). unfold tmpfs_vfs_lookup, get_vf.
  rewrite (bind_Ret (gets _) _ _ _ s) by done. unfold vtype in Hty. rewrite Hty, decide_False by naive_solver.
  rewrite (bind_Ret _ _ _ _ _ Hg), decide_False by done. rewrite (bind_Ret _ _ _ _ _ (vlock_run _ _ _ _ HI Hh Hd)).
  set (s1 := with_locks ({[d]} ∪ held) s). pose proof (with_locks_inv held ({[d]} ∪ held) s refs HI) as HI1. fold s1 in HI1.
  rewrite (bind_Ret _ _ _ _ _ (get_ino_run s1 _ _ Hip)), (bind_Ret _ _ _ _ _ (get_de_run s1 _ _ He)).
  rewrite (bind_Ret (gets dir_fuel) _ _ _ s1) by done.
  destruct (find_entry_run s1 name 0 _ _ Hch (dir_fuel s1) (find_fuel_enough s1 _ _ Hch)) as (r & Hr & Hp).
  rewrite (bind_Ret _ _ _ _ _ Hr). change (dents s1) with (dents s) in Hp.
  assert (Hback : with_locks held s1 = s) by (unfold s1; rewrite <-(with_locks_id s held (tv_locks _ _ _ HI)) at 2; done).
  destruct Hp as [[Hz Hno]|(l1 & l2 & e' & Hl & _ & Hz & He' & Hnm & Hbef)].
  { rewrite Hz, decide_True by done. rewrite (bind_Ret _ _ _ _ _ (vunlock_run held s1 refs d HI1 Hh Hd)).
    exists None, (with_locks held s1). split_and!; [done|done|done|by left]. }
  rewrite decide_False by done. rewrite (bind_Ret _ _ _ _ _ (get_de_run s1 _ _ He')).
  destruct (tr_ino _ _ _ Ht _ _ He') as (ip' & Hip' & _). rewrite (bind_Ret _ _ _ _ _ (get_ino_run s1 _ _ Hip')).
  destruct (fill_run _ s1 refs _ ip' HI1 Hip' Hlen) as (v & s2 & Hf & Hpost). rewrite (bind_Ret _ _ _ _ _ Hf). destruct v as [v|].
  - destruct Hpost as (HI2 & [Hm Hhs] & Hv & y & Hy & H1 & H2 & H3 & H4).
    rewrite (bind_Ret _ _ _ _ _ (vunlock_run held s2 _ d HI2 (Hhs d Hh) Hd)). exists (Some v), (with_locks held s2).
    split; [done|]. split; [done|]. split; [by eapply with_locks_inv|]. split; [by split; [exact Hm|exact Hhs]|]. split; [done|].
    exists l1, r.2, l2. split_and!; [done| |by unfold name_of; rewrite He'|done]. by exists e', ip', y.
  - destruct Hpost as [-> Hfull]. rewrite (bind_Ret _ _ _ _ _ (vunlock_run held s1 refs d HI1 Hh Hd)).
    exists None, (with_locks held s1). split_and!; [done|done|done|by right].
Qed.

(** ** Pages of files and of the cache *)

Lemma file_kept h h' ip :
  tfile_ok h ip → (∀ p, towns h ip p → h' !! p = h !! p) → tfile_ok h' ip ∧ ∀ p, towns h' ip p ↔ towns h ip p.
Proof.
  intros Hf Hk. assert (Hsl : ∀ p, tvalid p → tslot h' ip p = tslot h ip p).
  { apply tslot_ext; [done|]. intros q Hq _ Hs. unfold page. rewrite Hk; [done|]. by apply tslot_owns. }
  assert (Ho : ∀ p, towns h' ip p ↔ towns h ip p).
  { intros p. split; intros [Hp (q & Hq & Hs)]; (split; [done|]); exists q; (split; [done|]); [by rewrite <-Hsl|by rewrite Hsl]. }
  split; [|done]. split; [apply Hf| |].
  - intros p Hp. rewrite Hsl by done. intros Hs. rewrite Hk by (by apply tslot_owns). by apply Hf.
  - intros p q Hp Hq. rewrite !Hsl by done. by apply Hf.
Qed.

(** One file changed its pages. *)
Lemma files_update h I a ip h' ip' :
  files_ok h I → I !! a = Some ip → tfile_ok h' ip' → 0 ≤ ti_size ip' ≤ TMPFS_LIMIT →
  (∀ p, is_Some (h !! p) → ¬ towns h ip p → h' !! p = h !! p) →
  (∀ p, is_Some (h' !! p) → is_Some (h !! p) ∧ ¬ towns h ip p ∨ towns h' ip' p) →
  (∀ p, towns h' ip' p → towns h ip p ∨ h !! p = None) → files_ok h' (<[a := ip']> I).
Proof.
  intros HF Ha Hf' Hsz Hfr Hdom Hnew.
  assert (Hoth : ∀ b ipb, b ≠ a → I !! b = Some ipb → tfile_ok h' ipb ∧ ∀ p, towns h' ipb p ↔ towns h ipb p).
  { intros b ipb Hb Hipb. destruct (fo_file _ _ HF _ _ Hipb) as [Hfb _]. apply (file_kept h); [done|].
    intros p Hp. apply Hfr; [by eapply towns_in|]. intros Hp'. apply Hb. by eapply (fo_disj _ _ HF). }
  assert (Hap : ∀ b ipb p, b ≠ a → I !! b = Some ipb → towns h' ip' p → towns h ipb p → False).
  { intros b ipb p Hb Hipb Hp Hpb. destruct (Hnew p Hp) as [Hp'|Hp']; [apply Hb; by eapply (fo_disj _ _ HF b a)|].
    destruct (towns_in h ipb p) as [z Hz]; [by apply (fo_file _ _ HF b)|done|congruence]. }
  split.
  - intros b ipb. rewrite lookup_insert. case_decide as Hb; [by intros [= <-]|]. intros Hipb. split; [by apply (Hoth b)|]. by apply (fo_file _ _ HF b).
  - intros b c ipb ipc p. rewrite !lookup_insert. repeat case_decide; intros Hb Hc; simplify_eq; try done.
    + rewrite (proj2 (Hoth c ipc ltac:(done) Hc)). intros Hp Hpc. exfalso. by eapply (Hap c).
    + rewrite (proj2 (Hoth b ipb ltac:(done) Hb)). intros Hp Hpc. exfalso. by eapply (Hap b).
    + rewrite (proj2 (Hoth b ipb ltac:(done) Hb)), (proj2 (Hoth c ipc ltac:(done) Hc)). by eapply (fo_disj _ _ HF).
  - intros p [[Hp Hno]|Hp]%Hdom; [|exists a, ip'; by rewrite lookup_insert_eq].
    destruct (fo_dom _ _ HF p Hp) as (b & ipb & Hb & Hpb). assert (b ≠ a) by (intros ->; rewrite Ha in Hb; injection Hb as <-; done). exists b, ipb.
    rewrite lookup_insert_ne by done. split; [done|]. by apply (Hoth b).
Qed.
(** A file without pages may go. *)
Lemma files_delete h I a ip : files_ok h I → I !! a = Some ip → (∀ p, ¬ towns h ip p) → files_ok h (delete a I).
Proof.
  intros HF Ha Hno. split.
  - intros b ipb [_ Hb]%lookup_delete_Some. by apply (fo_file _ _ HF b).
  - intros b c ipb ipc p [_ Hb]%lookup_delete_Some [_ Hc]%lookup_delete_Some. by apply (fo_disj _ _ HF).
  - intros p Hp. destruct (fo_dom _ _ HF p Hp) as (b & ipb & Hb & Hpb). exists b, ipb. split; [|done].
    apply lookup_delete_Some. split; [|done]. intros ->. simplify_eq. by apply (Hno p).
Qed.

(** The pages of tmpfs, while the cache has its own. *)
Abbreviation cpages c := (λ p : Z, p ∈ owned_pages c).
Abbreviation fpages c := (@pages_ok P (framed (cpages c))).

Lemma pages_of_cache h all (c : icache P) refs :
  cache_inv h all (mk_istate c refs) → (∀ p b, h !! p = Some b → is_page p ∧ block_ok b) →
  ∃ L, fpages c (L ++ elements (dom h)) (mk_tpages (ipages c) h) L.
Proof.
  intros Hc Hh. destruct (iv_pages _ _ _ Hc) as (L & (HL & HLh & Hhr) & Hall). destruct (iv_all _ _ _ Hc) as [Hnd Hpg]. cbn [ic] in *.
  exists L. rewrite <-Hall in Hnd. apply NoDup_app in Hnd as (HndL & Hdis & Hndo). split.
  - split_and!; [exact HL|exact Hdis|]. intros p Hp _. by apply (iv_live _ _ _ Hc).
  - intros p b Hp. destruct (Hh p b Hp) as [Hpp Hb]. assert (Hs : is_Some (h !! p)) by (by exists b).
    refine (conj (conj Hpp _) (conj _ (conj (Hhr p Hs Hpp) Hb))).
    + intros Ho. destruct (Hpg p) as [_ Hn]; [rewrite <-Hall; apply elem_of_app; by right|done].
    + intros Hl. by apply (HLh p).
  - intros p. rewrite elem_of_app, elem_of_elements, elem_of_dom. done.
Qed.
Lemma cache_reframe h all (c : icache P) refs all0 tp L :
  cache_inv h all (mk_istate c refs) → fpages c all0 tp L → ∃ all', cache_inv (heap tp) all' (mk_istate (set_ipages (tp_alloc tp) c) refs).
Proof.
  intros Hc Hp. destruct (iv_pages _ _ _ Hc) as (L0 & (HL0 & _) & Hall). destruct (iv_all _ _ _ Hc) as [Hnd Hpg]. cbn [ic] in *.
  destruct (pk_pool _ _ _ Hp) as (HL & HLo & Hor). destruct (page_pool_pages _ _ HL) as [HndL HpgL].
  rewrite <-Hall in Hnd. apply NoDup_app in Hnd as (_ & _ & Hndo). exists (L ++ owned_pages c). split; try apply Hc.
  - split; [by apply NoDup_app|]. intros p [Hp'|Hp']%elem_of_app.
    + split; [by apply HpgL|]. intros [b Hb]. destruct (pk_page _ _ _ Hp p b Hb) as (_ & Hn & _). done.
    + destruct (Hpg p) as [Hpp _]; [rewrite <-Hall; apply elem_of_app; by right|]. split; [done|].
      intros [b Hb]. destruct (pk_page _ _ _ Hp p b Hb) as ([_ Hn] & _). done.
  - exists L. split; [|done]. split_and!; [exact HL| |].
    + intros p Hp' [b Hb]. destruct (pk_page _ _ _ Hp p b Hb) as (_ & Hn & _). done.
    + intros p [b Hb] _. apply (pk_page _ _ _ Hp p b Hb).
  - intros p Hp'. apply Hor; [done|]. destruct (Hpg p) as [? _]; [rewrite <-Hall; apply elem_of_app; by right|done].
Qed.

Lemma tmpfs_free_blocks_framed F : @tmpfs_free_blocks P (framed F) = tmpfs_free_blocks.
Proof. reflexivity. Qed.

(** tmpfs_free_blocks on the inode at [a]. *)
Lemma free_blocks_file (s : st) refs all v a ip :
  files_ok (heap_of s) (inos s) → (∀ p b, heap_of s !! p = Some b → is_page p ∧ block_ok b) →
  cache_inv (heap_of s) all (mk_istate (t_ic s) refs) → inos s !! a = Some ip →
  ∃ h' ip' pg, on_file v a tmpfs_free_blocks s =
      Ret (tt, mk_tfs (set_ipages pg (t_ic s)) (set_inos (<[a := ip']> (inos s)) (set_heap h' (t_mem s))) (t_vn s) (t_mnt s)) ∧
    tsame ip ip' ∧ files_ok h' (delete a (inos s)) ∧ (∀ p b, h' !! p = Some b → is_page p ∧ block_ok b) ∧
    (∀ p, is_Some (h' !! p) ↔ is_Some (heap_of s !! p) ∧ ¬ towns (heap_of s) ip p) ∧
    ∃ all', cache_inv h' all' (mk_istate (set_ipages pg (t_ic s)) refs).
Proof.
  intros HF Hh Hc Ha. destruct (pages_of_cache _ _ _ _ Hc Hh) as (L & HL). destruct (fo_file _ _ HF _ _ Ha) as [Hf Hsz].
  set (t := mk_tstate (mk_tpages (ipages (t_ic s)) (heap_of s)) ip (bool_decide (v ∈ locks s))).
  destruct (@free_blocks_run P (framed (cpages (t_ic s))) _ t L HL Hf) as (t' & L' & Hrun & Hsh & Hz). rewrite tmpfs_free_blocks_framed in Hrun.
  destruct (sh_tree _ _ _ _ _ Hsh) as [Hok Hsame Hsl Hdom Hfr].
  assert (Hno : ∀ p, ¬ towns (heap (tpg t')) (tin t') p) by (intros p [Hp (q & Hq & Hs)]; rewrite Hz in Hs by done; congruence).
  exists (heap (tpg t')), (tin t'), (tp_alloc (tpg t')). split_and!.
  - unfold on_file. rewrite Ha. fold t. rewrite Hrun. do 2 f_equal. f_equal. rewrite (sh_lock _ _ _ _ _ Hsh). simpl.
    destruct s as [? ? [r0 f0 l0] ?]. unfold set_locks. simpl. f_equal. destruct (decide (v ∈ l0)) as [Hv|Hv].
    + rewrite bool_decide_eq_true_2 by done. set_solver.
    + rewrite bool_decide_eq_false_2 by done. set_solver.
  - done.
  - pose proof Hsame as (_ & _ & _ & Hs4 & _).
    assert (HF' : files_ok (heap (tpg t')) (<[a := tin t']> (inos s))).
    { apply (files_update (heap_of s) _ a ip); try done.
      - rewrite Hs4. done.
      - intros p _ Hp. by apply Hfr.
      - intros p Hp. left. apply Hdom in Hp as [Hp Hp']. split; [done|]. intros Ho. by apply (Hno p), Hp'.
      - intros p Hp. by apply Hno in Hp. }
    rewrite <-(delete_insert_eq (inos s) a (tin t')). apply (files_delete _ _ a (tin t')); [done|by rewrite lookup_insert_eq|done].
  - intros p b Hp. destruct (pk_page _ _ _ (sh_pages _ _ _ _ _ Hsh) p b Hp) as ([Hpp _] & _ & _ & Hb). done.
  - intros p. rewrite (Hdom p). split; (intros [Hp Hp']; split; [done|]); [intros Ho; by apply (Hno p), Hp'|by intros Ho].
  - eapply (cache_reframe (heap_of s)); [done|]. apply Hsh.
Qed.

(** ** Releasing a reference *)

Lemma free_inode_run (s : st) a :
  obj_ok (objs s) → obj_live (objs s) a →
  ∃ ob, free_inode a s = Ret (tt, set_t_mem (set_inos (delete a (inos s)) (set_objs ob (t_mem s))) s) ∧ obj_ok ob ∧
    ∀ b, obj_live ob b ↔ obj_live (objs s) b ∧ b ≠ a.
Proof.
  intros Ho Hl. destruct (obj_free_law _ _ Ho Hl) as (ob & Hf & Ho' & Hl'). exists ob. split; [|done].
  unfold free_inode, on_objs, zoom, modify_mem, modify, mbind, K_bind. by rewrite Hf.
Qed.
Lemma free_dirent_run (s : st) a :
  obj_ok (objs s) → obj_live (objs s) a →
  ∃ ob, free_dirent a s = Ret (tt, set_t_mem (set_dents (delete a (dents s)) (set_objs ob (t_mem s))) s) ∧ obj_ok ob ∧
    ∀ b, obj_live ob b ↔ obj_live (objs s) b ∧ b ≠ a.
Proof.
  intros Ho Hl. destruct (obj_free_law _ _ Ho Hl) as (ob & Hf & Ho' & Hl'). exists ob. split; [|done].
  unfold free_dirent, on_objs, zoom, modify_mem, modify, mbind, K_bind. by rewrite Hf.
Qed.

(** A slot changes, but not what it says of a file of tmpfs that is open. *)
Lemma open_update D I n sl vf i x x' :
  numbers_ok I n → open_ok D I sl vf → sl !! i = Some x →
  (i_dev x' = TMPFS_DEV → 0 < i_count x' →
     i_dev x = TMPFS_DEV ∧ 0 < i_count x ∧ i_ino x' = i_ino x ∧ i_nlinks x' = i_nlinks x ∧ private_data x' = private_data x) →
  (i_dev x = TMPFS_DEV → 0 < i_count x → i_nlinks x = 0 → i_dev x' = TMPFS_DEV ∧ i_ino x' = i_ino x ∧ 0 < i_count x') →
  open_ok D I (<[i := x']> sl) vf.
Proof.
  intros HN HO Hx Hnew Hold. assert (Hi : (i < length sl)%nat) by (by eapply lookup_lt_Some). split.
  - intros j z. destruct (decide (j = i)) as [->|Hne].
    + rewrite list_lookup_insert_eq by done. intros [= <-] Hd Hc. destruct (Hnew Hd Hc) as (H1 & H2 & H3 & H4 & H5).
      destruct (op_slot _ _ _ _ HO i x Hx H1 H2) as (ip & ?). exists ip. by rewrite H3, H4, H5.
    + rewrite list_lookup_insert_ne by done. by apply HO.
  - intros a ip Ha. destruct (op_orphan _ _ _ _ HO a ip Ha) as [?|(H1 & H2 & j & z & Hz & Hd & Hino & Hcz)]; [by left|].
    right. split_and!; [done|done|]. destruct (decide (j = i)) as [->|Hne]; [|exists j, z; by rewrite list_lookup_insert_ne].
    simplify_eq. destruct (op_slot _ _ _ _ HO i x Hx Hd Hcz) as (ip' & Hip' & Hi' & Hnl & _).
    assert (private_data x = a) as Hpa by (eapply (no_inj _ _ HN); [done|done|congruence]).
    assert (ip' = ip) as -> by congruence. destruct (Hold Hd Hcz) as (E1 & E2 & E3); [by apply Hnl|].
    exists i, x'. rewrite list_lookup_insert_eq by done. split_and!; [done|done|congruence|done].
Qed.

(** An inode that is not in the tree. *)
Lemma tree_delete_inode D I kids a : tree_ok D I kids → (∀ d e, D !! d = Some e → td_inode e ≠ a) → tree_ok D (delete a I) kids.
Proof.
  intros Ht Hno. split; try apply Ht. intros d e He. destruct (tr_ino _ _ _ Ht d e He) as (ip & Hip & Hrest). exists ip.
  split; [|done]. apply lookup_delete_Some. split; [|done]. apply not_eq_sym. by eapply Hno.
Qed.
Lemma numbers_delete I n a : numbers_ok I n → numbers_ok (delete a I) n.
Proof.
  intros HN. split; [| |apply HN].
  - intros b ip [_ Hb]%lookup_delete_Some. by apply (no_range _ _ HN b).
  - intros b c ip ip' [_ Hb]%lookup_delete_Some [_ Hc]%lookup_delete_Some. by apply (no_inj _ _ HN).
Qed.
Lemma objs_delete_inode ob ob' D I a :
  objs_ok ob D I → obj_ok ob' → (∀ b, obj_live ob' b ↔ obj_live ob b ∧ b ≠ a) → is_Some (I !! a) → objs_ok ob' D (delete a I).
Proof.
  intros HO Ho' Hl Ha. split; [done| |].
  - intros b. rewrite Hl, (ob_live _ _ _ HO), lookup_delete_is_Some. split; [naive_solver|]. intros [[Hb Hr]|[[Hn Hb] Hr]]; [|naive_solver].
    split; [by left|]. intros ->. by apply (ob_disj _ _ _ HO a).
  - intros b Hb Hb'. apply lookup_delete_is_Some in Hb' as [_ Hb']. by apply (ob_disj _ _ _ HO b).
Qed.
(** No entry has an inode without links. *)
Lemma orphan_no_entry D I kids a ip : tree_ok D I kids → I !! a = Some ip → ti_nlinks ip = 0 → ∀ d e, D !! d = Some e → td_inode e ≠ a.
Proof. intros Ht Ha Hn d e He <-. destruct (tr_ino _ _ _ Ht d e He) as (ip' & Hip & _ & Hl & _). simplify_eq. lia. Qed.
Lemma inode_live held s refs a ip : tmpfs_inv held s refs → inos s !! a = Some ip → ti_nlinks ip = 0 → obj_live (objs s) a.
Proof.
  intros HI Ha Hn. destruct (tv_tree _ _ _ HI) as [kids Ht]. apply (ob_live _ _ _ (tv_objs _ _ _ HI)). right. split; [by exists ip|]. intros ->.
  pose proof (tr_root _ _ _ Ht) as Hr. destruct (dents s !! root_dir) as [e|] eqn:Ee; [|done]. injection Hr as Hr.
  by eapply (orphan_no_entry _ _ _ _ _ Ht Ha Hn).
Qed.

(** The last reference to an inode without links goes, and the inode with it. *)
Lemma open_delete D I n sl vf i x x' a ip :
  numbers_ok I n → open_ok D I sl vf → sl !! i = Some x → i_dev x = TMPFS_DEV → 0 < i_count x → private_data x = a → I !! a = Some ip →
  (∀ j y, sl !! j = Some y → i_dev y = TMPFS_DEV → i_ino y = i_ino x → j = i) → i_count x' = 0 →
  open_ok D (delete a I) (<[i := x']> sl) vf.
Proof.
  intros HN HO Hx Hd Hc Hpd Ha Hu Hc'. assert (Hi : (i < length sl)%nat) by (by eapply lookup_lt_Some).
  destruct (op_slot _ _ _ _ HO i x Hx Hd Hc) as (ip0 & Hip0 & Hino & _). rewrite Hpd, Ha in Hip0. injection Hip0 as <-. split.
  - intros j z. destruct (decide (j = i)) as [->|Hne]; [rewrite list_lookup_insert_eq by done; intros [= <-]; lia|].
    rewrite list_lookup_insert_ne by done. intros Hz Hdz Hcz. destruct (op_slot _ _ _ _ HO j z Hz Hdz Hcz) as (ip' & Hip' & Hi' & Hr).
    exists ip'. split; [|done]. apply lookup_delete_Some. split; [|done]. intros Heq. apply Hne, (Hu j z); [done|done|congruence].
  - intros b ipb [Hba Hb]%lookup_delete_Some. destruct (op_orphan _ _ _ _ HO b ipb Hb) as [?|(H1 & H2 & j & z & Hz & Hdz & Hiz & Hcz)]; [by left|].
    right. split_and!; [done|done|]. exists j, z. rewrite list_lookup_insert_ne; [done|]. intros ->. simplify_eq. apply Hba.
    eapply (no_inj _ _ HN); [done|done|congruence].
Qed.

(** put_inode when something keeps the inode. *)
Lemma put_run held s refs k v x :
  tmpfs_inv held s refs → refs !! k = Some v → slots s !! Z.to_nat v = Some x → i_dev x = TMPFS_DEV → ¬ (i_count x = 1 ∧ i_nlinks x = 0) →
  ∃ s', on_cache (put_inode v false) s = Ret (tt, s') ∧ tmpfs_inv held s' (delete k refs) ∧ t_mem s' = t_mem s ∧
    ∃ x', slots s' = <[Z.to_nat v := x']> (slots s) ∧ i_dev x' = i_dev x.
Proof.
  intros HI Hk Hx Hd Hno. destruct (tv_cache _ _ _ HI) as [all Hc]. pose proof (sc_own (tv_static _ _ _ HI)) as Hown.
  destruct (ref_slot _ _ _ v HI) as (Hv & y & Hy & Hcx & _); [by eapply list_elem_of_lookup_2|]. assert (y = x) as -> by congruence.
  destruct (@put_inode_run P (framed _) own all _ k v x Hc Hk Hx) as (x' & hl & pg & Hr & Hdr & HI'); [rewrite Hd, Hown; done|].
  rewrite Hd, Hown, put_inode_framed in Hr. cbn [ic irefs] in *.
  exists (set_t_ic (iput (t_ic s) v x' hl pg) s). split_and!; [by apply tcache_run| |done|].
  - destruct Hdr as (E1 & E2 & E3 & E4 & E5). rewrite decide_False in E5 by done. destruct E5 as [E5 E6].
    split; try apply HI; [|by exists all]. simpl. apply (open_update _ _ (next_ino s) _ _ _ x); [apply HI|apply HI|done|..].
    + intros _ Hpos. split_and!; [done|lia|congruence|congruence|congruence].
    + intros _ _ Hnl. split_and!; [congruence|congruence|]. lia.
  - exists x'. split; [done|]. apply Hdr.
Qed.

(** vfs_iput on a vfs_inode of tmpfs. *)
Lemma destroy_run held s refs k v x :
  tmpfs_inv held s refs → refs !! k = Some v → slots s !! Z.to_nat v = Some x → i_dev x = TMPFS_DEV →
  ∃ s', tmpfs_destroy_inode root_dir root_inode v s = Ret (tt, s') ∧ tmpfs_inv held s' (delete k refs) ∧ dents s' = dents s ∧
    (if decide (i_count x = 1 ∧ i_nlinks x = 0)
     then ∃ ip, inos s !! private_data x = Some ip ∧ inos s' = delete (private_data x) (inos s) ∧
            ∀ p, is_Some (heap_of s' !! p) ↔ is_Some (heap_of s !! p) ∧ ¬ towns (heap_of s) ip p
     else t_mem s' = t_mem s).
Proof.
  intros HI Hk Hx Hd. pose proof (sc_own (tv_static _ _ _ HI)) as Hown.
  destruct (ref_slot _ _ _ v HI) as (Hv & y & Hy & Hcx & _); [by eapply list_elem_of_lookup_2|]. assert (y = x) as -> by congruence.
  unfold tmpfs_destroy_inode. rewrite (bind_Ret _ _ s TMP_ROOT s).
  2: { unfold tmpfs_root. rewrite (bind_Ret (gets _) _ _ true s) by (unfold gets; by rewrite (proj1 (tv_mounted _ _ _ HI))). done. }
  rewrite decide_False by (unfold TMP_ROOT; lia). unfold get_vi. rewrite decide_False by (unfold TMP_ROOT; lia).
  rewrite (bind_Ret _ _ _ _ _ (on_cache_get s v x Hx)). case_decide as Hlast.
  2: { rewrite (bind_Ret (mret tt) _ _ tt s) by done. destruct (put_run _ _ _ _ _ _ HI Hk Hx Hd Hlast) as (s' & Hr & HI' & Hm & _).
       exists s'. split_and!; [done|done|by rewrite Hm|done]. }
  destruct Hlast as [Hc1 Hn0]. destruct (op_slot _ _ _ _ (tv_open _ _ _ HI) _ _ Hx Hd Hcx) as (ip & Hip & Hino & Hnl & _).
  set (a := private_data x) in *. assert (Hin0 : ti_nlinks ip = 0) by (by apply Hnl). destruct (tv_cache _ _ _ HI) as [all Hc].
  destruct (tv_tree _ _ _ HI) as [kids Ht]. pose proof (orphan_no_entry _ _ _ _ _ Ht Hip Hin0) as Hne.
  destruct (free_blocks_file s refs all v a ip (tv_files _ _ _ HI) (tv_heap _ _ _ HI) Hc Hip) as (h' & ip' & pg & Hf & Hsame & HF' & Hh' & Hdom & all' & Hc').
  rewrite decide_True by (by eapply inode_not_null).
  set (s1 := mk_tfs (set_ipages pg (t_ic s)) (set_inos (<[a := ip']> (inos s)) (set_heap h' (t_mem s))) (t_vn s) (t_mnt s)) in *.
  destruct (free_inode_run s1 a) as (ob & Hfi & Hob & Hlv); [apply HI|exact (inode_live _ _ _ _ _ HI Hip Hin0)|].
  set (s2 := set_t_mem _ s1) in Hfi. rewrite (bind_Ret _ _ _ tt s2) by (rewrite (bind_Ret _ _ _ _ _ Hf); done).
  destruct (@put_inode_run P (framed _) own all' _ k v x Hc' Hk Hx) as (x' & hl & pg2 & Hr & Hdr & HI'); [rewrite Hd, Hown; done|].
  rewrite Hd, Hown, put_inode_framed in Hr. cbn [ic irefs] in *. exists (set_t_ic (iput (set_ipages pg (t_ic s)) v x' hl pg2) s2).
  assert (Hdel : delete a (<[a := ip']> (inos s)) = delete a (inos s)) by apply delete_insert_eq.
  destruct Hdr as (E1 & E2 & E3 & E4 & _).
  split_and!; [by apply (tcache_run (put_inode v false) s2)| |done|exists ip; by split_and!].
  split; try apply HI; cbn [t_mem set_t_ic s2 set_t_mem set_inos set_objs t_inos t_dents t_heap t_objs t_next_ino s1 set_heap]; rewrite ?Hdel.
  - exists kids. by apply tree_delete_inode.
  - done.
  - done.
  - apply numbers_delete, HI.
  - eapply (open_delete _ _ (next_ino s) _ _ _ x); try done; [apply HI|apply HI| |lia]. intros j z Hz Hdz Hiz.
    destruct (iv_refs _ _ _ Hc v) as (_ & y & Hy' & Hy0); [by eapply list_elem_of_lookup_2|]. unfold slot_of in Hy'. cbn [ic] in Hy'.
    exact (iv_uniq _ _ _ Hc j (Z.to_nat v) z x Hz Hx Hiz (eq_trans Hdz (eq_sym Hd)) ltac:(congruence)).
  - apply (objs_delete_inode (objs s)); [apply HI|exact Hob|exact Hlv|by exists ip].
  - by exists all'.
Qed.

(** ** Creating *)

Lemma put_ino_run (s : st) a x y : inos s !! a = Some y → put_ino a x s = Ret (tt, set_t_mem (set_inos (<[a := x]> (inos s)) (t_mem s)) s).
Proof. intros Ha. unfold put_ino. by rewrite Ha. Qed.
Lemma put_de_run (s : st) a x y : dents s !! a = Some y → put_de a x s = Ret (tt, set_t_mem (set_dents (<[a := x]> (dents s)) (t_mem s)) s).
Proof. intros Ha. unfold put_de. by rewrite Ha. Qed.
Lemma get_vi_mem (s : st) m v x : get_vi v s = Ret (x, s) → get_vi v (set_t_mem m s) = Ret (x, set_t_mem m s).
Proof.
  unfold get_vi, gets, on_cache, zoom, get_ci. case_decide; [intros [= <-]; done|]. simpl.
  destruct (inodes (t_ic s) !! Z.to_nat v); [|done]. intros [= <-]. done.
Qed.

Lemma new_dirent_run (s : st) :
  obj_ok (objs s) →
  ∃ a ob, obj_ok ob ∧
    ((a = 0 ∧ (∀ b, obj_live ob b ↔ obj_live (objs s) b) ∧ new_dirent s = Ret (0, set_t_mem (set_objs ob (t_mem s)) s)) ∨
     (a ≠ 0 ∧ is_obj a ∧ ¬ obj_live (objs s) a ∧ (∀ b, obj_live ob b ↔ b = a ∨ obj_live (objs s) b) ∧
      new_dirent s = Ret (a, set_t_mem (set_dents (<[a := zero_td]> (dents s)) (set_objs ob (t_mem s))) s))).
Proof.
  intros Ho. destruct (obj_alloc_law _ SIZEOF_TMPFS_DIRENT Ho ltac:(done)) as (a & ob & Ha & Hob & Hc). exists a, ob. split; [done|].
  unfold new_dirent, on_objs, zoom, modify_mem, modify, mbind, K_bind. rewrite Ha.
  destruct Hc as [[-> Hl]|(Hn & Hi & Hl & Hl')]; [left|right; rewrite decide_False by done]; done.
Qed.
Lemma new_inode_run (s : st) :
  obj_ok (objs s) →
  ∃ a ob, obj_ok ob ∧
    ((a = 0 ∧ (∀ b, obj_live ob b ↔ obj_live (objs s) b) ∧ new_inode s = Ret (0, set_t_mem (set_objs ob (t_mem s)) s)) ∨
     (a ≠ 0 ∧ is_obj a ∧ ¬ obj_live (objs s) a ∧ (∀ b, obj_live ob b ↔ b = a ∨ obj_live (objs s) b) ∧
      new_inode s = Ret (a, set_t_mem (set_inos (<[a := zero_tin]> (inos s)) (set_objs ob (t_mem s))) s))).
Proof.
  intros Ho. destruct (obj_alloc_law _ SIZEOF_TMPFS_INODE Ho ltac:(done)) as (a & ob & Ha & Hob & Hc). exists a, ob. split; [done|].
  unfold new_inode, on_objs, zoom, modify_mem, modify, mbind, K_bind. rewrite Ha.
  destruct Hc as [[-> Hl]|(Hn & Hi & Hl & Hl')]; [left|right; rewrite decide_False by done]; done.
Qed.

(** The link count of a directory. *)
Lemma tree_nlinks D I kids a ip n :
  tree_ok D I kids → I !! a = Some ip → ti_type ip = VFS_DIR → 1 ≤ n < 2 ^ 16 → tree_ok D (<[a := set_nlinks n ip]> I) kids.
Proof.
  intros Ht Ha Hty Hn. split; try apply Ht. intros d e He. destruct (tr_ino _ _ _ Ht d e He) as (ip' & Hip & H1 & H2 & H3 & H4).
  rewrite lookup_insert. destruct (decide (a = td_inode e)) as [Hd|Hd]; [|exists ip'; exact (conj Hip (conj H1 (conj H2 (conj H3 H4))))]. rewrite <-Hd in Hip. simplify_eq.
  exists (set_nlinks n ip). split_and!; simpl; [done|done|lia|lia|done|by intros ?].
Qed.
Lemma files_nlinks h I a ip n : files_ok h I → I !! a = Some ip → files_ok h (<[a := set_nlinks n ip]> I).
Proof.
  intros HF Ha. destruct (fo_file _ _ HF _ _ Ha) as [Hf Hsz]. split.
  - intros b ipb. rewrite lookup_insert. case_decide; [intros [= <-]; split; [by split; apply Hf|done]|apply HF].
  - intros b c ipb ipc p. destruct (decide (a = b)) as [<-|Hb], (decide (a = c)) as [<-|Hc];
      rewrite ?lookup_insert_eq, ?lookup_insert_ne by done; [done|..]; intros Eb Ec; simplify_eq; intros Hp Hp'.
    + by apply (fo_disj _ _ HF a c ip ipc p).
    + by apply (fo_disj _ _ HF b a ipb ip p).
    + by apply (fo_disj _ _ HF b c ipb ipc p).
  - intros p Hp. destruct (fo_dom _ _ HF p Hp) as (b & ipb & Hb & Hpb). destruct (decide (b = a)) as [->|].
    + exists a, (set_nlinks n ip). rewrite lookup_insert_eq. split; [done|]. simplify_eq. done.
    + exists b, ipb. by rewrite lookup_insert_ne.
Qed.
Lemma numbers_nlinks I m a ip n : numbers_ok I m → I !! a = Some ip → numbers_ok (<[a := set_nlinks n ip]> I) m.
Proof.
  intros HN Ha. split; [| |apply HN].
  - intros b ipb. rewrite lookup_insert. case_decide; [intros [= <-]; exact (no_range _ _ HN a ip Ha)|apply HN].
  - intros b c ipb ipc. destruct (decide (a = b)) as [<-|Hb], (decide (a = c)) as [<-|Hc];
      rewrite ?lookup_insert_eq, ?lookup_insert_ne by done; [done|..]; intros Eb Ec; simplify_eq; simpl; intros He; by eapply (no_inj _ _ HN).
Qed.
Lemma open_nlinks D I sl vf a ip n :
  open_ok D I sl vf → I !! a = Some ip → in_tree D a ip → ti_nlinks ip ≠ 0 → n ≠ 0 → open_ok D (<[a := set_nlinks n ip]> I) sl vf.
Proof.
  intros HO Ha Hin Hz Hn. split.
  - intros i x Hx Hd Hc. destruct (op_slot _ _ _ _ HO i x Hx Hd Hc) as (ip' & Hip & H1 & H2 & H3). rewrite lookup_insert. case_decide as Hpa; [|exists ip'; exact (conj Hip (conj H1 (conj H2 H3)))].
    rewrite <-Hpa in Hip. simplify_eq. exists (set_nlinks n ip). split_and!; try done. simpl. tauto.
  - intros b ipb. rewrite lookup_insert. case_decide as Hb; [intros [= <-]; left; by subst|apply HO].
Qed.

(** A new entry [de] at the head of the directory [dd], with a new inode. *)
Section add.
Context (D : gmap Z tdirent) (I : gmap Z tmpfs_inode) (kids : Z → list Z).
Context (dd : Z) (pd : tdirent) (pip : tmpfs_inode) (de a ty ino : Z) (nm : cstring).
Context (Ht : tree_ok D I kids) (Hdd : D !! dd = Some pd) (Hpip : I !! td_inode pd = Some pip) (Hdir : ti_type pip = VFS_DIR).
Context (Hde : D !! de = None) (Ha : I !! a = None) (Hde0 : de ≠ 0) (Hnm : Z.of_nat (length nm) < DIRSIZ).

Let e0 := mk_td a nm ty (td_child pd) 0.
Let ip0 := mk_tin ty 1 ino 0 de (replicate 12 0).
Let D' := <[de := e0]> (<[dd := set_td_child de pd]> D).
Let I' := <[a := ip0]> I.
Let kids' := λ q, if decide (q = dd) then de :: kids dd else if decide (q = de) then [] else kids q.

Lemma add_ne : de ≠ dd.
Proof. intros ->. congruence. Qed.
Lemma add_dom q : is_Some (D' !! q) ↔ q = de ∨ is_Some (D !! q).
Proof. unfold D'. rewrite !lookup_insert_is_Some'. split; [|naive_solver]. intros [->|[->|?] ]; [by left|right; by exists pd|by right]. Qed.
Lemma add_next q : q ≠ de → td_next <$> D' !! q = td_next <$> D !! q.
Proof.
  intros Hq. unfold D'. rewrite lookup_insert_ne by done. destruct (decide (q = dd)) as [->|].
  - by rewrite lookup_insert_eq, Hdd.
  - by rewrite lookup_insert_ne.
Qed.
Lemma kid_in q b : is_Some (D !! q) → b ∈ kids q → is_Some (D !! b) ∧ b ≠ de.
Proof.
  intros [e He] Hb. destruct (chain_elem _ _ _ _ (tr_chain _ _ _ Ht _ _ He) Hb) as [_ Hs]. split; [done|]. intros ->. rewrite Hde in Hs. by destruct Hs.
Qed.
Lemma add_chain q x : is_Some (D !! q) → chain D x (kids q) → chain D' x (kids q).
Proof. intros Hq Hc. apply (tchain_ext D); [done|]. intros b Hb. apply add_next. by destruct (kid_in q b). Qed.

Lemma tree_add : tree_ok D' I' kids'.
Proof.
  assert (Hddr : is_Some (D !! dd)) by (by exists pd). pose proof add_ne as Hne. split.
  - pose proof (tr_root _ _ _ Ht) as Hr. unfold D'. rewrite lookup_insert_ne by (intros <-; rewrite Hde in Hr; done).
    destruct (decide (dd = root_dir)) as [Heq|]; [|by rewrite lookup_insert_ne]. rewrite <-Heq, lookup_insert_eq. rewrite <-Heq, Hdd in Hr. done.
  - intros q x Hq. unfold kids'. unfold D' in Hq. destruct (decide (q = de)) as [->|Hqe].
    + rewrite lookup_insert_eq in Hq. injection Hq as <-. by rewrite decide_False by done.
    + rewrite lookup_insert_ne in Hq by done. destruct (decide (q = dd)) as [->|Hqd].
      * rewrite lookup_insert_eq in Hq. injection Hq as <-. simpl. split_and!; [done|done|]. exists e0. unfold D' at 1. rewrite lookup_insert_eq.
        split; [done|]. apply add_chain; [done|]. by apply (tr_chain _ _ _ Ht).
      * rewrite lookup_insert_ne in Hq by done. apply add_chain; [by exists x|]. by apply (tr_chain _ _ _ Ht).
  - assert (Hold : ∀ q, is_Some (D !! q) → rtc (kid_of D' kids') root_dir q).
    { intros q Hq. eapply rtc_subrel; [|by apply (tr_reach _ _ _ Ht)]. intros p b [Hp Hb]. split; [apply add_dom; by right|]. unfold kids'.
      destruct (decide (p = dd)) as [->|]; [by right|]. rewrite decide_False; [done|]. intros ->. rewrite Hde in Hp. by destruct Hp. }
    intros q [->|Hq]%add_dom; [|by apply Hold]. eapply rtc_r; [by apply Hold|]. split; [apply add_dom; by right|].
    unfold kids'. rewrite decide_True by done. by left.
  - assert (Hk : ∀ q b, is_Some (D' !! q) → b ∈ kids' q → b = de ∧ q = dd ∨ b ≠ de ∧ is_Some (D !! q) ∧ b ∈ kids q).
    { intros q b Hq. unfold kids'. destruct (decide (q = dd)) as [->|Hqd].
      - intros [->|Hb]%elem_of_cons; [by left|]. right. destruct (kid_in dd b Hddr Hb). done.
      - destruct (decide (q = de)) as [->|Hqe]; [by intros ?%not_elem_of_nil|]. apply add_dom in Hq as [?|Hq]; [done|]. intros Hb.
        right. destruct (kid_in q b Hq Hb). done. }
    intros b p q Hp Hq Hbp Hbq. pose proof (Hk q b Hq Hbq) as Hq2. destruct (Hk p b Hp Hbp) as [[H1 H2]|(H1 & H2 & H3)], Hq2 as [[H4 H5]|(H4 & H5 & H6)]; try congruence.
    by apply (tr_one _ _ _ Ht b).
  - intros p Hp. unfold kids'. assert (Hr : root_dir ≠ de) by (intros <-; pose proof (tr_root _ _ _ Ht) as Hr; rewrite Hde in Hr; done).
    destruct (decide (p = dd)) as [->|Hpd].
    + apply not_elem_of_cons. split; [done|]. by apply (tr_rootkid _ _ _ Ht).
    + destruct (decide (p = de)); [apply not_elem_of_nil|]. apply add_dom in Hp as [?|Hp]; [done|]. by apply (tr_rootkid _ _ _ Ht).
  - intros q x Hq. unfold D' in Hq. apply lookup_insert_Some in Hq as [[<- <-]|[_ Hq] ]; [done|].
    apply lookup_insert_Some in Hq as [[<- <-]|[_ Hq] ]; [exact (tr_len _ _ _ Ht dd pd Hdd)|by apply (tr_len _ _ _ Ht q)].
  - intros q x Hq. assert (Hold : ∀ q y ip, D !! q = Some y → I !! td_inode y = Some ip → I' !! td_inode y = Some ip).
    { intros q' y ip _ Hy. unfold I'. rewrite lookup_insert_ne; [done|]. intros Hx. rewrite <-Hx, Ha in Hy. done. }
    unfold D' in Hq. destruct (decide (q = de)) as [->|Hqe].
    + rewrite lookup_insert_eq in Hq. injection Hq as <-. exists ip0. unfold I'. simpl. rewrite lookup_insert_eq.
      assert (de ≠ root_dir) by (intros ->; pose proof (tr_root _ _ _ Ht) as Hr; rewrite Hde in Hr; done).
      split_and!; [done|done|lia|lia|by rewrite decide_False|]. intros _. split; [done|]. unfold kids'. by rewrite decide_False, decide_True by done.
    + rewrite lookup_insert_ne in Hq by done. destruct (decide (q = dd)) as [->|Hqd].
      * rewrite lookup_insert_eq in Hq. injection Hq as <-. destruct (tr_ino _ _ _ Ht dd pd Hdd) as (ip & Hip & H1 & H2 & H3 & H4).
        exists ip. simpl. assert (ip = pip) as -> by congruence. split_and!; [by apply (Hold dd pd)|done|lia|lia|done|]. intros Hx. done.
      * rewrite lookup_insert_ne in Hq by done. destruct (tr_ino _ _ _ Ht q x Hq) as (ip & Hip & H1 & H2 & H3 & H4).
        exists ip. split_and!; [by apply (Hold q x)|done|lia|lia|done|]. unfold kids'. by rewrite decide_False, decide_False by done.
Qed.

Lemma open_add sl vf n : numbers_ok I n → open_ok D I sl vf → open_ok D' I' sl vf.
Proof.
  intros HN HO. assert (Hold : ∀ b ip, I !! b = Some ip → I' !! b = Some ip).
  { intros b ip Hb. unfold I'. rewrite lookup_insert_ne; [done|]. intros <-. congruence. }
  split.
  - intros i x Hx Hd Hc. destruct (op_slot _ _ _ _ HO i x Hx Hd Hc) as (ip & Hip & Hr). exists ip. split; [by apply Hold|done].
  - intros b ip Hb. unfold I' in Hb. apply lookup_insert_Some in Hb as [[<- <-]|[_ Hb] ].
    { left. unfold in_tree, D'. simpl. by rewrite lookup_insert_eq. }
    destruct (op_orphan _ _ _ _ HO b ip Hb) as [Hin|?]; [left|by right]. unfold in_tree in *. unfold D'.
    rewrite lookup_insert_ne by (intros Heq; rewrite <-Heq, Hde in Hin; done).
    destruct (decide (ti_dir ip = dd)) as [Heq|]; [|by rewrite lookup_insert_ne]. rewrite Heq, lookup_insert_eq. rewrite Heq, Hdd in Hin. done.
Qed.

Lemma objs_add ob0 ob : objs_ok ob0 D I → obj_ok ob → (∀ b, obj_live ob b ↔ b = a ∨ b = de ∨ obj_live ob0 b) →
  a ≠ root_inode → de ≠ root_dir → a ≠ de → D !! a = None → I !! de = None → objs_ok ob D' I'.
Proof.
  intros HO Ho Hl Har Hdr Hade HDa HIde. split; [done| |].
  - intros b. rewrite Hl, (ob_live _ _ _ HO), add_dom. unfold I'. rewrite lookup_insert_is_Some'. naive_solver.
  - intros b. rewrite add_dom. unfold I'. rewrite lookup_insert_is_Some'. intros [->|Hb] [<-|Hb'].
    + done.
    + rewrite HIde in Hb'. by destruct Hb'.
    + rewrite HDa in Hb. by destruct Hb.
    + by apply (ob_disj _ _ _ HO b).
Qed.
End add.

Lemma empty_slot h ip p : ti_blocks ip = replicate 12 0 → tslot h ip p = 0.
Proof.
  intros Hb. assert (Hz : ∀ i, tblk ip i = 0).
  { intros i. unfold tblk. rewrite Hb. destruct (replicate 12 0 !! Z.to_nat i) as [x|] eqn:E; [|done]. by apply lookup_replicate in E as [-> _]. }
  assert (Hr : ∀ q, parent q = None → tslot h ip q = 0) by (intros q Hq; rewrite tslot_eq, Hq; apply Hz).
  destruct p as [i| |i| |i|i j]; try (by apply Hr).
  - by apply (tslot_below _ _ (Psent i) Psind i), Hr.
  - by apply (tslot_below _ _ (Pdl i) Pdind i), Hr.
  - apply (tslot_below _ _ (Pdent i j) (Pdl i) j); [done|]. by apply (tslot_below _ _ (Pdl i) Pdind i), Hr.
Qed.
Lemma empty_file h ip : ti_blocks ip = replicate 12 0 → tfile_ok h ip ∧ ∀ p, ¬ towns h ip p.
Proof.
  intros Hb. pose proof (λ p, empty_slot h ip p Hb) as Hz. split; [split; [by rewrite Hb| |]|].
  - intros p _ Hs. by rewrite Hz in Hs.
  - intros p q _ _ Hs. by rewrite Hz in Hs.
  - intros p [Hp (q & _ & Hs)]. rewrite Hz in Hs. congruence.
Qed.
Lemma files_add h I a ip0 : files_ok h I → I !! a = None → ti_blocks ip0 = replicate 12 0 → ti_size ip0 = 0 → files_ok h (<[a := ip0]> I).
Proof.
  intros HF Ha Hb Hs. destruct (empty_file h ip0 Hb) as [Hf Hno]. split.
  - intros b ip [[<- <-]|[_ Hip] ]%lookup_insert_Some; [|by apply (fo_file _ _ HF b)]. split; [done|]. rewrite Hs. done.
  - intros b c ipb ipc p [[<- <-]|[_ Eb] ]%lookup_insert_Some [[<- <-]|[_ Ec] ]%lookup_insert_Some Hp Hp'; [done|by apply Hno in Hp|by apply Hno in Hp'|].
    by eapply (fo_disj _ _ HF).
  - intros p Hp. destruct (fo_dom _ _ HF p Hp) as (b & ipb & Hb' & Hpb). exists b, ipb. rewrite lookup_insert_ne; [done|]. intros <-. congruence.
Qed.
Lemma numbers_add I n a ip0 : numbers_ok I n → 0 < n → n + 1 < 2 ^ 32 → ti_ino ip0 = n → 0 ≤ ti_type ip0 < 256 → numbers_ok (<[a := ip0]> I) (n + 1).
Proof.
  intros HN H0n Hn Hi Hty. split; [| |done].
  - intros b ip [[<- <-]|[_ Hip] ]%lookup_insert_Some; [lia|]. destruct (no_range _ _ HN b ip Hip). lia.
  - intros b c ipb ipc [[<- <-]|[_ Eb] ]%lookup_insert_Some [[<- <-]|[_ Ec] ]%lookup_insert_Some; [done| | |by eapply (no_inj _ _ HN)].
    + destruct (no_range _ _ HN c ipc Ec). lia.
    + destruct (no_range _ _ HN b ipb Eb). lia.
Qed.

Lemma delete_last {A} (l : list A) x : delete (length l) (l ++ [x]) = l.
Proof. induction l as [|y l IH]; simpl; [done|by f_equal]. Qed.

(** The call fails because the name is there: the reference is given back. *)
Lemma create_exists held s refs d v b :
  tmpfs_inv held s (refs ++ [v]) → handle s refs d → d ∉ held → refers s s v b →
  ∃ s', (vfs_ilock (Some d) ;; on_cache (put_inode v false) ;; vfs_iunlock (Some d) ;; mret (-1)) s = Ret (-1, s') ∧
    tmpfs_inv held s' refs ∧ t_mem s' = t_mem s ∧ ∀ w, handle s refs w → handle s' refs w.
Proof.
  intros HI Hh Hd (e & ip & y & He & Hip & Hy & Hyd & Hyi & Hpd & _).
  assert (Hh' : handle s (refs ++ [v]) d) by (destruct Hh as [?|[? ?] ]; [by left|right; split; [apply elem_of_app; by left|done]]).
  rewrite (bind_Ret _ _ _ _ _ (vlock_run _ _ _ _ HI Hh' Hd)). set (s1 := with_locks ({[d]} ∪ held) s).
  pose proof (with_locks_inv held ({[d]} ∪ held) s _ HI) as HI1. fold s1 in HI1.
  assert (Hvk : (refs ++ [v]) !! length refs = Some v) by (by rewrite lookup_app_r, Nat.sub_diag by lia).
  assert (Hvin : v ∈ refs ++ [v]) by (apply elem_of_app; right; by left).
  destruct (ref_slot _ _ _ v HI Hvin) as (Hv & y' & Hy' & Hc & _). assert (y' = y) as -> by congruence.
  destruct (put_run _ s1 _ (length refs) v y HI1 Hvk Hy Hyd) as (s2 & Hp & HI2 & Hm & x' & Hsl & Hdx).
  { intros [_ Hn]. destruct (op_slot _ _ _ _ (tv_open _ _ _ HI) _ _ Hy Hyd Hc) as (ip' & Hip' & _ & Hnl & _).
    destruct (tv_tree _ _ _ HI) as [kids Ht]. destruct (tr_ino _ _ _ Ht b e He) as (ip2 & Hip2 & _ & Hl & _).
    rewrite Hpd in Hip'. assert (ip2 = ip') as -> by congruence. apply Hnl in Hn. lia. }
  rewrite delete_last in HI2. rewrite (bind_Ret _ _ _ _ _ Hp).
  assert (Hhs : ∀ w, handle s refs w → handle s2 refs w).
  { apply (handle_grow s s2 refs refs v y x'); [done|done|done| |lia|congruence]. intros w Hw.
    destruct (ref_slot _ _ _ w HI) as [? _]; [apply elem_of_app; by left|lia]. }
  rewrite (bind_Ret _ _ _ _ _ (vunlock_run held s2 refs d HI2 (Hhs d Hh) Hd)).
  exists (with_locks held s2). split_and!; [done|by eapply with_locks_inv|exact Hm|done].
Qed.

(** Only the kmalloc state changed. *)
Lemma inv_objs held (s : st) refs ob :
  tmpfs_inv held s refs → obj_ok ob → (∀ b, obj_live ob b ↔ obj_live (objs s) b) → tmpfs_inv held (set_t_mem (set_objs ob (t_mem s)) s) refs.
Proof.
  intros HI Ho Hl. split; try apply HI. split; [done| |apply HI]. intros a. simpl. rewrite Hl. apply HI.
Qed.

(** What a successful create leaves: the new entry at the head.  The entry of
    the directory has a new first child and, if the new inode is a directory,
    its inode one more link; no other entry and no other inode is changed. *)
Record created (s s' : st) (d : Z) (l : list Z) (name : cstring) (type : Z) (de : Z) : Prop := {
  cr_fresh : dents s !! de = None;
  cr_entries : entries s' d (de :: l);
  cr_name : name_of (dents s') de = take (Z.to_nat (DIRSIZ - 1)) name;
  cr_rest : ∃ x ip e a, get_vi d s = Ret (x, s) ∧ inos s !! private_data x = Some ip ∧ dents s !! ti_dir ip = Some e ∧
    td_inode <$> dents s' !! de = Some a ∧ td_type <$> dents s' !! de = Some type ∧ inos s !! a = None ∧
    inos s' !! a = Some (mk_tin type 1 (next_ino s) 0 de (replicate 12 0)) ∧
    (∀ b, b ≠ de → dents s' !! b = if decide (b = ti_dir ip) then Some (set_td_child de e) else dents s !! b) ∧
    (∀ b, b ≠ a → inos s' !! b = if decide (type = VFS_DIR ∧ b = private_data x) then Some (set_nlinks (ti_nlinks ip + 1) ip) else inos s !! b);
  cr_heap : heap_of s' = heap_of s;
  cr_fields : fields s' = fields s
}.

Lemma fresh_obj held s refs a : tmpfs_inv held s refs → is_obj a → ¬ obj_live (objs s) a → dents s !! a = None ∧ inos s !! a = None ∧ a ≠ root_dir ∧ a ≠ root_inode.
Proof.
  intros HI Ho Hl. destruct (tv_static _ _ _ HI) as [_ Hsd Hsi _ _].
  assert (Hd : a ≠ root_dir) by (by intros ->). assert (Hi : a ≠ root_inode) by (by intros ->).
  split_and!; [| |done|done].
  - destruct (dents s !! a) as [e|] eqn:E; [|done]. exfalso. apply Hl, (ob_live _ _ _ (tv_objs _ _ _ HI)). left. split; [by exists e|done].
  - destruct (inos s !! a) as [e|] eqn:E; [|done]. exfalso. apply Hl, (ob_live _ _ _ (tv_objs _ _ _ HI)). right. split; [by exists e|done].
Qed.

Definition new_name (name : cstring) : cstring :=
  take (Z.to_nat (if decide (DIRSIZ ≤ Z.of_nat (length name)) then DIRSIZ - 1 else Z.of_nat (length name))) name.
Lemma new_name_eq name : new_name name = take (Z.to_nat (DIRSIZ - 1)) name.
Proof. unfold new_name, DIRSIZ. case_decide; [done|]. rewrite !take_ge by lia. done. Qed.

(** The state after create has stored everything. *)
Section made.
Context (held : gset Z) (s : st) (refs : list Z) (d : Z) (x : cinode) (pip : tmpfs_inode) (pd : tdirent) (kids : Z → list Z).
Context (de a type : Z) (name : cstring) (ob : M).
Context (HI : tmpfs_inv held s refs) (Hg : get_vi d s = Ret (x, s)).
Context (Hpip : inos s !! private_data x = Some pip) (Hpd : dents s !! ti_dir pip = Some pd) (Hpi : td_inode pd = private_data x).
Context (Hdir : ti_type pip = VFS_DIR) (Ht : tree_ok (dents s) (inos s) kids).
Context (Hde : is_obj de) (Hdl : ¬ obj_live (objs s) de) (Ha : is_obj a) (Hal : ¬ obj_live (objs s) a) (Hade : a ≠ de).
Context (Hob : obj_ok ob) (Hlive : ∀ b, obj_live ob b ↔ b = a ∨ b = de ∨ obj_live (objs s) b).
Context (Hty : 0 ≤ type < 256) (Hnext : next_ino s + 1 < 2 ^ 32) (Hlinks : type = VFS_DIR → ti_nlinks pip + 1 < 2 ^ 16).

Definition bumped : gmap Z tmpfs_inode :=
  if decide (type = VFS_DIR) then <[private_data x := set_nlinks (ti_nlinks pip + 1) pip]> (inos s) else inos s.
Definition made : st :=
  set_t_mem (mk_tmem (heap_of s) (<[a := mk_tin type 1 (next_ino s) 0 de (replicate 12 0)]> bumped)
    (<[de := mk_td a (new_name name) type (td_child pd) 0]> (<[ti_dir pip := set_td_child de pd]> (dents s))) ob (next_ino s + 1)) s.

Lemma made_links : 1 ≤ ti_nlinks pip.
Proof.
  destruct (tr_ino _ _ _ Ht _ _ Hpd) as (ip & Hip & _ & Hl & _). rewrite Hpi in Hip. assert (ip = pip) as -> by congruence. lia.
Qed.
Lemma bumped_ok :
  tree_ok (dents s) bumped kids ∧ files_ok (heap_of s) bumped ∧ numbers_ok bumped (next_ino s) ∧
  open_ok (dents s) bumped (slots s) (fields s) ∧ objs_ok (objs s) (dents s) bumped.
Proof.
  pose proof made_links. assert (Hin : in_tree (dents s) (private_data x) pip) by (unfold in_tree; rewrite Hpd; simpl; by f_equal).
  unfold bumped. case_decide as Hd; [|split_and!; [done|apply HI..] ]. specialize (Hlinks Hd). split_and!.
  - apply tree_nlinks; [done|done|done|lia].
  - apply files_nlinks; [apply HI|done].
  - apply numbers_nlinks; [apply HI|done].
  - apply open_nlinks; [apply HI|done|done|lia|lia].
  - destruct (tv_objs _ _ _ HI) as [O1 O2 O3]. split; [done| |].
    + intros b. rewrite O2, lookup_insert_is_Some'. split; [tauto|]. intros [?|[[<-|?] ?] ]; [by left|right; split; [by exists pip|done]|by right].
    + intros b Hb [<-|Hb']%lookup_insert_is_Some'; [apply (O3 (private_data x) Hb); by exists pip|by apply (O3 b)].
Qed.
Lemma bumped_lookup b ip : inos s !! b = Some ip → ∃ n, bumped !! b = Some (set_nlinks n ip).
Proof.
  intros Hb. unfold bumped. case_decide; [|exists (ti_nlinks ip); by destruct ip]. rewrite lookup_insert. case_decide as Hd; [|exists (ti_nlinks ip); by destruct ip].
  exists (ti_nlinks pip + 1). rewrite <-Hd in Hb. by simplify_eq.
Qed.
Lemma bumped_none b : inos s !! b = None → bumped !! b = None.
Proof. intros Hb. unfold bumped. case_decide; [|done]. rewrite lookup_insert_ne; [done|]. intros <-. congruence. Qed.

Lemma made_inv : tmpfs_inv held made refs.
Proof.
  destruct (fresh_obj _ _ _ _ HI Hde Hdl) as (F1 & F2 & F3 & F4). destruct (fresh_obj _ _ _ _ HI Ha Hal) as (G1 & G2 & G3 & G4).
  destruct bumped_ok as (B1 & B2 & B3 & B4 & B5). destruct (bumped_lookup _ _ Hpip) as [n Hn].
  assert (Hnm : Z.of_nat (length (new_name name)) < DIRSIZ) by (rewrite new_name_eq, length_take; unfold DIRSIZ; lia).
  pose proof (tr_root _ _ _ Ht) as Hr.
  assert (H0n : 0 < next_ino s) by (destruct (no_range _ _ (tv_numbers _ _ _ HI) _ _ Hpip); lia).
  split; try apply HI; cbn [made t_mem set_t_mem t_inos t_dents t_heap t_objs t_next_ino t_vn t_ic].
  - eexists. apply (tree_add _ _ kids (ti_dir pip) pd (set_nlinks n pip)); [done|done|by rewrite Hpi|done|done|by apply bumped_none|by apply is_obj_pos|done].
  - apply files_add; [done|by apply bumped_none|done|done].
  - apply numbers_add; [done|done|done|done|done].
  - eapply open_add; [exact Hpd|exact F1|by apply bumped_none|exact B3|exact B4].
  - eapply (objs_add _ _ kids); [exact Hpd|exact F1|by apply bumped_none|by apply is_obj_pos|exact B5|done..|by apply bumped_none].
Qed.

Lemma made_created : created s made d (kids (ti_dir pip)) name type de.
Proof.
  destruct (fresh_obj _ _ _ _ HI Hde Hdl) as (F1 & F2 & F3 & F4). destruct (fresh_obj _ _ _ _ HI Ha Hal) as (G1 & G2 & G3 & G4).
  destruct bumped_ok as (B1 & _). destruct (bumped_lookup _ _ Hpip) as [n Hn]. pose proof (tr_chain _ _ _ Ht _ _ Hpd) as Hch.
  assert (Hne : de ≠ ti_dir pip) by (intros ->; congruence). assert (Hpa : a ≠ private_data x) by (intros ->; congruence).
  split; [done| | | |done|done].
  - exists x, (set_nlinks n pip), (set_td_child de pd). unfold made. cbn [t_mem set_t_mem t_inos t_dents]. split_and!.
    + by apply get_vi_mem.
    + by rewrite lookup_insert_ne.
    + simpl. rewrite lookup_insert_ne by done. by rewrite lookup_insert_eq.
    + simpl. split_and!; [done|by apply is_obj_pos|]. eexists. rewrite lookup_insert_eq. split; [done|]. simpl.
      eapply add_chain; [exact B1|exact Hpd|exact F1|by exists pd|done].
  - unfold made, name_of. simpl. rewrite lookup_insert_eq. apply new_name_eq.
  - exists x, pip, pd, a. unfold made. cbn [t_mem set_t_mem t_dents t_inos]. rewrite !lookup_insert_eq. split_and!; [done..| |].
    + intros b Hb. rewrite lookup_insert_ne by done. rewrite lookup_insert. by repeat case_decide; subst.
    + intros b Hb. rewrite lookup_insert_ne by done. unfold bumped. destruct (decide (type = VFS_DIR)); [|by rewrite decide_False by tauto].
      rewrite lookup_insert. repeat case_decide; naive_solver.
Qed.
End made.

(** Storing the inode and the entry. *)
Lemma store_run held s refs d x pip pd kids de a type name ob :
  tmpfs_inv held s refs → get_vi d s = Ret (x, s) → inos s !! private_data x = Some pip → dents s !! ti_dir pip = Some pd →
  td_inode pd = private_data x → ti_type pip = VFS_DIR → tree_ok (dents s) (inos s) kids → is_obj de → ¬ obj_live (objs s) de →
  is_obj a → ¬ obj_live (objs s) a → a ≠ de → 0 ≤ type < 256 → next_ino s + 1 < 2 ^ 32 → (type = VFS_DIR → ti_nlinks pip + 1 < 2 ^ 16) →
  let m1 := set_dents (<[de := mk_td a (new_name name) type 0 0]> (dents s)) (set_inos (<[a := zero_tin]> (inos s)) (set_objs ob (t_mem s))) in
  create_store de a type (private_data x) (set_t_mem m1 s) = Ret (tt, made s x pip pd de a type name ob).
Proof.
  intros HI Hg Hpip Hpd Hpi Hdir Ht Hde Hdl Ha Hal Hade Hty Hnext Hlinks m1.
  destruct (fresh_obj _ _ _ _ HI Hde Hdl) as (F1 & F2 & F3 & F4). destruct (fresh_obj _ _ _ _ HI Ha Hal) as (G1 & G2 & G3 & G4).
  assert (Hpa : a ≠ private_data x) by (intros ->; congruence). assert (Hne : de ≠ ti_dir pip) by (intros ->; congruence).
  pose proof (made_links s x pip pd kids Hpip Hpd Hpi Ht) as Hl1.
  assert (Hn0 : 0 < next_ino s) by (destruct (no_range _ _ (tv_numbers _ _ _ HI) _ _ Hpip); lia).
  unfold create_store. set (s1 := set_t_mem m1 s). set (I1 := <[a := zero_tin]> (bumped s x pip type)).
  set (s2 := set_t_mem (set_inos I1 m1) s).
  rewrite (bind_Ret _ _ s1 tt s2).
  2: { unfold s2, I1, bumped, m1. case_decide as Hd; [|by destruct s]. specialize (Hlinks Hd).
       rewrite (bind_Ret _ _ _ _ _ (get_ino_run s1 (private_data x) pip ltac:(simpl; by rewrite lookup_insert_ne))).
       rewrite (put_ino_run s1 _ _ pip) by (simpl; by rewrite lookup_insert_ne). unfold s1, m1. simpl.
       rewrite u16_small by lia. do 2 f_equal. unfold set_t_mem, set_inos, set_dents, set_objs. simpl. do 2 f_equal. by rewrite insert_insert_ne. }
  rewrite (bind_Ret (gets _) _ s2 (next_ino s) s2) by done.
  set (s3 := set_t_mem (set_next_ino (next_ino s + 1) (set_inos I1 m1)) s).
  rewrite (bind_Ret (modify_mem _) _ s2 tt s3) by (unfold modify_mem, modify, s3; rewrite u32_small by lia; done).
  assert (Ha3 : inos s3 !! a = Some zero_tin) by (simpl; unfold I1; by rewrite lookup_insert_eq).
  rewrite (bind_Ret _ _ _ _ _ (put_ino_run s3 a _ _ Ha3)). rewrite u16_small by lia.
  set (ip0 := mk_tin type 1 (next_ino s) 0 de (replicate 12 0)). set (s4 := set_t_mem _ s3).
  assert (∃ n, bumped s x pip type !! private_data x = Some (set_nlinks n pip)) as [n Hn] by (by eapply bumped_lookup).
  assert (Hp4 : inos s4 !! private_data x = Some (set_nlinks n pip)) by (simpl; unfold I1; rewrite !lookup_insert_ne by done; done).
  rewrite (bind_Ret _ _ _ _ _ (get_ino_run s4 _ _ Hp4)). simpl ti_dir.
  assert (Hd4 : dents s4 !! ti_dir pip = Some pd) by (simpl; by rewrite lookup_insert_ne).
  rewrite (bind_Ret _ _ _ _ _ (get_de_run s4 _ _ Hd4)), (bind_Ret _ _ _ _ _ (put_de_run s4 _ _ _ Hd4)). set (s5 := set_t_mem _ s4).
  assert (Hd5 : dents s5 !! de = Some (mk_td a (new_name name) type 0 0)) by (simpl; rewrite lookup_insert_ne by done; by rewrite lookup_insert_eq).
  rewrite (bind_Ret _ _ _ _ _ (get_de_run s5 _ _ Hd5)), (put_de_run s5 _ _ _ Hd5). do 2 f_equal.
  unfold s5, s4, s3, made, m1, I1, set_t_mem, set_inos, set_dents, set_objs, set_next_ino. simpl. f_equal.
  f_equal; [by rewrite insert_insert_eq|]. rewrite (insert_insert_ne _ (ti_dir pip) de) by done. by rewrite insert_insert_eq.
Qed.

Lemma get_vi_locks (s : st) l v x : get_vi v s = Ret (x, s) → get_vi v (with_locks l s) = Ret (x, with_locks l s).
Proof.
  unfold get_vi, gets, on_cache, zoom, get_ci. case_decide; [intros [= <-]; done|]. simpl.
  destruct (inodes (t_ic s) !! Z.to_nat v); [|done]. intros [= <-]. done.
Qed.
Lemma created_locks s s1 l d k name type de : created s s1 d k name type de → created s (with_locks l s1) d k name type de.
Proof.
  intros [C1 (x & ip & e & Hg & Hr) C3 C4 C5 C6]. split; [done| |done|done|done|done]. exists x, ip, e. split; [by apply get_vi_locks|done].
Qed.

(** Memory ran out: what was allocated is free again. *)
Lemma create_new_run held s refs d x pip pd kids name type :
  tmpfs_inv ({[d]} ∪ held) s refs → handle s refs d → d ∉ held → get_vi d s = Ret (x, s) → private_data x ≠ 0 →
  inos s !! private_data x = Some pip → dents s !! ti_dir pip = Some pd →
  td_inode pd = private_data x → ti_type pip = VFS_DIR → tree_ok (dents s) (inos s) kids →
  0 ≤ type < 256 → next_ino s + 1 < 2 ^ 32 → (type = VFS_DIR → ti_nlinks pip + 1 < 2 ^ 16) →
  ∃ r s', create_new d name type s = Ret (r, s') ∧ tmpfs_inv held s' refs ∧ t_ic s' = t_ic s ∧
    (r = 0 ∧ (∃ de, created s s' d (kids (ti_dir pip)) name type de) ∨
     r = -1 ∧ dents s' = dents s ∧ inos s' = inos s ∧ heap_of s' = heap_of s).
Proof.
  intros HI Hh Hd Hg Hx0 Hpip Hpd Hpi Hdir Ht Hty Hnext Hlinks. unfold create_new.
  assert (Hun : ∀ m (r : Z), tmpfs_inv ({[d]} ∪ held) (set_t_mem m s) refs →
    ∃ s', (vfs_iunlock (Some d) ;; mret r) (set_t_mem m s) = Ret (r, s') ∧ tmpfs_inv held s' refs ∧ t_mem s' = m ∧ s' = with_locks held (set_t_mem m s)).
  { intros m r Hm. rewrite (bind_Ret _ _ _ _ _ (vunlock_run held _ refs d Hm Hh Hd)). eexists. split_and!; [done| |done|done].
    by eapply with_locks_inv. }
  destruct (new_dirent_run s) as (de & ob & Hob & Hcase); [apply HI|]. destruct Hcase as [(-> & Hl & Hr)|(Hde0 & Hde & Hdl & Hl & Hr)].
  { rewrite (bind_Ret _ _ _ _ _ Hr), decide_True by done. destruct (Hun _ (-1) (inv_objs _ _ _ _ HI Hob Hl)) as (s' & Hs & HI' & Hm & ->).
    eexists (-1), _. split_and!; [done|done|done|]. right. done. }
  rewrite (bind_Ret _ _ _ _ _ Hr), decide_False by done. destruct (fresh_obj _ _ _ _ HI Hde Hdl) as (F1 & F2 & F3 & F4).
  set (s1 := set_t_mem _ s). assert (Hd1 : dents s1 !! de = Some zero_td) by (simpl; by rewrite lookup_insert_eq).
  rewrite (bind_Ret _ _ _ _ _ (get_de_run s1 _ _ Hd1)), (bind_Ret _ _ _ _ _ (put_de_run s1 _ _ _ Hd1)). fold (new_name name).
  rewrite u8_small by lia. simpl td_inode. simpl td_next. simpl td_child. set (s2 := set_t_mem _ s1).
  destruct (new_inode_run s2) as (a & ob2 & Hob2 & Hcase); [done|].
  set (m0 := set_dents (<[de := mk_td 0 (new_name name) type 0 0]> (dents s)) (set_objs ob (t_mem s))).
  assert (Hs2 : s2 = set_t_mem m0 s) by (unfold s2, s1, m0, set_t_mem, set_dents, set_objs; simpl; by rewrite insert_insert_eq).
  clearbody s2. subst s2. destruct Hcase as [(-> & Hl2 & Hr2)|(Ha0 & Ha & Hal & Hl2 & Hr2)].
  - rewrite (bind_Ret _ _ _ _ _ Hr2). set (s3 := set_t_mem _ (set_t_mem m0 s)).
    assert (Hd3 : dents s3 !! de = Some (mk_td 0 (new_name name) type 0 0)) by (simpl; by rewrite lookup_insert_eq).
    rewrite (bind_Ret _ _ _ _ _ (get_de_run s3 _ _ Hd3)), (bind_Ret _ _ _ _ _ (put_de_run s3 _ _ _ Hd3)), decide_True by done.
    destruct (free_dirent_run (set_t_mem (set_dents (<[de := mk_td 0 (new_name name) type 0 0]> (dents s3)) (t_mem s3)) s3) de) as (ob3 & Hf & Hob3 & Hl3);
      [done|simpl; rewrite Hl2; apply Hl; by left|].
    simpl td_name. simpl td_type. simpl td_next. simpl td_child. rewrite (bind_Ret _ _ _ _ _ Hf). simpl.
    rewrite insert_insert_eq, delete_insert_id by done.
    destruct (Hun (set_objs ob3 (t_mem s)) (-1)) as (s' & Hs & HI' & Hm & ->).
    { apply inv_objs; [done|done|]. intros b. rewrite Hl3. simpl. rewrite Hl2. simpl. rewrite Hl. split; [naive_solver|]. intros Hb. split; [by right|]. by intros ->. }
    eexists (-1), _. split_and!; [exact Hs|done|done|]. right. done.
  - rewrite (bind_Ret _ _ _ _ _ Hr2). set (s3 := set_t_mem _ (set_t_mem m0 s)).
    assert (Hal' : a ≠ de ∧ ¬ obj_live (objs s) a) by (simpl in Hal; rewrite Hl in Hal; tauto). destruct Hal' as [Hade Hal'].
    assert (Hd3 : dents s3 !! de = Some (mk_td 0 (new_name name) type 0 0)) by (simpl; by rewrite lookup_insert_eq).
    rewrite (bind_Ret _ _ _ _ _ (get_de_run s3 _ _ Hd3)), (bind_Ret _ _ _ _ _ (put_de_run s3 _ _ _ Hd3)), decide_False by done.
    simpl td_name. simpl td_type. simpl td_next. simpl td_child.
    set (m1 := set_dents (<[de := mk_td a (new_name name) type 0 0]> (dents s)) (set_inos (<[a := zero_tin]> (inos s)) (set_objs ob2 (t_mem s)))).
    replace (set_t_mem (set_dents (<[de := mk_td a (new_name name) type 0 0]> (dents s3)) (t_mem s3)) s3) with (set_t_mem m1 s)
      by (unfold s3, m1, m0, set_t_mem, set_dents, set_objs, set_inos; simpl; by rewrite insert_insert_eq).
    rewrite (bind_Ret _ _ _ _ _ (get_vi_mem s m1 d x Hg)), decide_False by naive_solver.
    assert (Hl' : ∀ b, obj_live ob2 b ↔ b = a ∨ b = de ∨ obj_live (objs s) b) by (intros b; rewrite Hl2; simpl; by rewrite Hl).
    assert (Hst : create_store de a type (private_data x) (set_t_mem m1 s) = Ret (tt, made s x pip pd de a type name ob2)) by (by eapply store_run).
    rewrite (bind_Ret _ _ _ _ _ Hst).
    assert (HIm : tmpfs_inv ({[d]} ∪ held) (made s x pip pd de a type name ob2) refs) by (by eapply made_inv).
    destruct (Hun _ 0 HIm) as (s' & Hs & HI' & Hm & ->). eexists 0, _. split_and!; [exact Hs|done|done|]. left. split; [done|]. exists de.
    apply (created_locks _ (made s x pip pd de a type name ob2)). by eapply made_created.
Qed.

Lemma create_run held s refs d name type :
  tmpfs_inv held s refs → handle s refs d → d ∉ held → vtype (fields s) d = VFS_DIR → name ≠ [] →
  0 ≤ type < 256 → Z.of_nat (length refs) < 2 ^ 32 - 1 → next_ino s + 1 < 2 ^ 32 →
  (∀ x ip, get_vi d s = Ret (x, s) → inos s !! private_data x = Some ip → ti_nlinks ip + 1 < 2 ^ 16) →
  ∃ l r s', entries s d l ∧ tmpfs_vfs_create (Some d) (Some name) type s = Ret (r, s') ∧ tmpfs_inv held s' refs ∧
    (∀ w, handle s refs w → handle s' refs w) ∧
    (r = 0 ∧ (∃ de, created s s' d l name type de) ∧
       ((∀ b, b ∈ l → name_eq name (name_of (dents s) b) = false) ∨ ∀ i x, slots s !! i = Some x → i_count x ≠ 0) ∨
     r = -1 ∧ dents s' = dents s ∧ inos s' = inos s ∧ heap_of s' = heap_of s).
Proof.
  intros HI Hh Hd Hty Hnm Htype Hlen Hnext Hlinks. destruct (tlookup_run held s refs d name HI Hh Hd Hlen Hty) as (l & r & s1 & Hent & Hlk & Hpost).
  exists l. unfold tmpfs_vfs_create. rewrite decide_False by done. rewrite (bind_Ret _ _ _ _ _ Hlk). destruct r as [v|].
  - destruct Hpost as (HI1 & [Hm Hhs] & _ & _ & b & _ & _ & Hrf & _).
    assert (Hpos : ∀ w, w ∈ refs → 0 ≤ w) by (intros w Hw; destruct (ref_slot _ _ _ _ HI Hw); lia).
    assert (Hh1 : ∀ w, handle s refs w → handle s1 refs w).
    { intros w Hw. destruct (Hhs w Hw) as [?|[_ Hs] ]; [by left|]. destruct Hw as [?|[? _] ]; [by left|by right]. }
    assert (Hrf1 : refers s1 s1 v b).
    { destruct Hrf as (e & ip & y & H1 & H2 & Hr). exists e, ip, y. rewrite Hm. done. }
    destruct (create_exists held s1 refs d v b HI1 (Hh1 d Hh) Hd Hrf1) as (s' & Hr & HI' & Hm' & Hhs').
    exists (-1), s'. split_and!; [done|exact Hr|done|auto|]. right. rewrite Hm', Hm. done.
  - destruct Hpost as [-> Hno]. rewrite (bind_Ret _ _ _ _ _ (vlock_run _ _ _ _ HI Hh Hd)).
    destruct (dir_entries _ _ _ _ HI Hh Hty) as (x & ip & e & kids & Hg & Hc & Hn & Hip & He & Hti & Hdt & Ht & Hent').
    assert (l = kids (ti_dir ip)) as ->.
    { destruct Hent as (x' & ip' & e' & Hg' & Hip' & He' & Hch). rewrite Hg in Hg'. injection Hg' as <-. simplify_eq.
      eapply chain_unique; [done|]. by apply (tr_chain _ _ _ Ht). }
    destruct (create_new_run held (with_locks ({[d]} ∪ held) s) refs d x ip e kids name type) as (r & s' & Hr & HI' & Hic & Hp);
      try done; [by eapply with_locks_inv|by apply get_vi_locks|by intros _; eapply Hlinks|].
    exists r, s'. split_and!; [done|exact Hr|done| |].
    + intros w [?|Hw]; [by left|]. right. rewrite Hic. done.
    + destruct Hp as [[-> (de & Hcr)]|Hp]; [left|by right]. split_and!; [done| |done]. exists de.
      destruct Hcr as [C1 C2 C3 (x1 & ip1 & e1 & a & Hg1 & Hrest) C5 C6]. split; [done..| |done|done]. exists x, ip1, e1, a. split; [done|].
      rewrite (get_vi_locks _ _ _ _ Hg) in Hg1. by injection Hg1 as <-.
Qed.

(** ** Unlinking *)

(** The entry [b] of a file leaves the directory [dd]. *)
Section remove.
Context (D : gmap Z tdirent) (I : gmap Z tmpfs_inode) (kids : Z → list Z).
Context (dd b : Z) (pd e : tdirent) (pip ip : tmpfs_inode) (l1 l2 : list Z).
Context (Ht : tree_ok D I kids) (Hdd : D !! dd = Some pd) (Hpip : I !! td_inode pd = Some pip) (Hdir : ti_type pip = VFS_DIR).
Context (Hl : kids dd = l1 ++ b :: l2) (He : D !! b = Some e) (Hip : I !! td_inode e = Some ip) (Hfile : td_type e ≠ VFS_DIR).

Definition relinked : gmap Z tdirent :=
  if decide (l1 = []) then <[dd := set_td_child (td_next e) pd]> D else alter (set_td_next (td_next e)) (before 0 l1) D.
Definition unlinked : gmap Z tdirent := delete b relinked.
Let kids' := λ q, if decide (q = dd) then l1 ++ l2 else kids q.

Lemma remove_facts : b ∈ kids dd ∧ b ≠ root_dir ∧ ti_dir ip = b ∧ ti_nlinks ip = 1 ∧ kids b = [] ∧ ti_type ip ≠ VFS_DIR ∧ b ≠ dd.
Proof.
  assert (Hb : b ∈ kids dd) by (rewrite Hl; apply elem_of_app; right; by left).
  assert (Hr : b ≠ root_dir) by (intros ->; by apply (tr_rootkid _ _ _ Ht dd)).
  destruct (tr_ino _ _ _ Ht b e He) as (ip' & Hip' & H1 & H2 & H3 & H4). assert (ip' = ip) as -> by congruence. rewrite decide_False in H3 by done.
  destruct H4 as [H4 H5]; [congruence|]. split_and!; try done; [congruence|]. intros ->. assert (e = pd) as -> by congruence. congruence.
Qed.
Lemma remove_nodup : NoDup (l1 ++ b :: l2).
Proof. rewrite <-Hl. eapply chain_nodup. by apply (tr_chain _ _ _ Ht). Qed.
Lemma relinked_same q : td_inode <$> relinked !! q = td_inode <$> D !! q ∧ td_name <$> relinked !! q = td_name <$> D !! q ∧ td_type <$> relinked !! q = td_type <$> D !! q.
Proof.
  unfold relinked. case_decide as Hd.
  - rewrite lookup_insert. case_decide as Hq; [|done]. rewrite <-Hq, Hdd. done.
  - destruct (decide (q = before 0 l1)) as [->|Hq]; [|by rewrite lookup_alter_ne]. rewrite lookup_alter_eq. by destruct (D !! before 0 l1).
Qed.
Lemma unlinked_dom q : is_Some (unlinked !! q) ↔ q ≠ b ∧ is_Some (D !! q).
Proof.
  unfold unlinked. rewrite lookup_delete_is_Some. destruct (relinked_same q) as [Hs _].
  assert (Hd : is_Some (relinked !! q) ↔ is_Some (D !! q)) by (rewrite <-!(fmap_is_Some td_inode), Hs; done). rewrite Hd.
  split; (intros [? ?]; split; [by apply not_eq_sym|done]).
Qed.
Lemma unlinked_lookup q y : unlinked !! q = Some y → q ≠ b ∧ ∃ y0, D !! q = Some y0 ∧ td_inode y = td_inode y0 ∧ td_name y = td_name y0 ∧
  td_type y = td_type y0 ∧ (q ≠ dd → td_child y = td_child y0).
Proof.
  unfold unlinked. intros [Hq Hy]%lookup_delete_Some. split; [done|]. destruct (relinked_same q) as (H1 & H2 & H3). rewrite Hy in H1, H2, H3.
  destruct (D !! q) as [y0|] eqn:E0; [|done]. exists y0. injection H1 as H1. injection H2 as H2. injection H3 as H3. split_and!; try done.
  intros Hqd. unfold relinked in Hy. case_decide.
  - rewrite lookup_insert_ne in Hy by done. congruence.
  - apply lookup_alter_Some in Hy as [(_ & y1 & Hy1 & ->)|[_ Hy] ]; [|congruence]. simpl. congruence.
Qed.

Lemma remove_chain_other q x : is_Some (D !! q) → q ≠ dd → chain D x (kids q) → chain unlinked x (kids q).
Proof.
  intros Hq Hqd Hc. apply (tchain_ext D); [done|]. intros c Hcq.
  assert (Hno : ∀ z, z ∈ kids dd → c ≠ z).
  { intros z Hz ->. apply Hqd, (tr_one _ _ _ Ht z); [done|by exists pd|done|done]. }
  unfold unlinked. rewrite lookup_delete_ne by (apply not_eq_sym, Hno; rewrite Hl; apply elem_of_app; right; by left). unfold relinked. case_decide as Hd.
  - rewrite lookup_insert. case_decide as Hcd; [|done]. rewrite <-Hcd, Hdd. done.
  - rewrite lookup_alter_ne; [done|]. apply not_eq_sym, Hno. rewrite Hl. apply elem_of_app. left. by apply before_in.
Qed.
Lemma remove_chain y : unlinked !! dd = Some y → chain unlinked (td_child y) (l1 ++ l2).
Proof.
  intros Hy. pose proof remove_nodup as Hnd. pose proof (tr_chain _ _ _ Ht _ _ Hdd) as Hc. rewrite Hl in Hc.
  pose proof (chain_remove _ _ _ _ _ _ Hc He) as Hr. pose proof remove_facts as (_ & _ & _ & _ & _ & _ & Hbd).
  assert (Hbl : b ∉ l1 ++ l2).
  { apply NoDup_app in Hnd as (_ & Hn1 & Hn2). apply NoDup_cons in Hn2 as [Hn2 _]. rewrite elem_of_app. intros [Hb|Hb]; [|done].
    by apply (Hn1 b Hb); left. }
  unfold unlinked in Hy. rewrite lookup_delete_ne in Hy by done. unfold relinked in Hy. unfold unlinked, relinked. case_decide as Hd.
  - rewrite lookup_insert_eq in Hy. injection Hy as <-. simpl. apply (tchain_ext D); [done|]. intros c Hcl.
    rewrite lookup_delete_ne by (intros ->; done). rewrite lookup_insert. case_decide as Hcd; [|done]. rewrite <-Hcd, Hdd. done.
  - assert (td_child y = td_child pd) as ->.
    { apply lookup_alter_Some in Hy as [(_ & y1 & Hy1 & ->)|[_ Hy] ]; simpl; congruence. }
    apply (tchain_ext (alter (set_td_next (td_next e)) (before 0 l1) D)); [done|]. intros c Hcl. rewrite lookup_delete_ne by (intros ->; done). done.
Qed.

Lemma tree_remove I' : (∀ c, c ≠ td_inode e → I' !! c = I !! c) → tree_ok unlinked I' kids'.
Proof.
  intros HI'. pose proof remove_facts as (Hb & Hbr & Hdb & Hn1 & Hkb & Hty & Hbd).
  assert (Hddk : ∀ q c, q ≠ b → c ∈ kids' q → c ∈ kids q).
  { intros q c _. unfold kids'. case_decide as Hq; [|done]. subst q. rewrite Hl, !elem_of_app, elem_of_cons. naive_solver. }
  split.
  - pose proof (tr_root _ _ _ Ht) as Hr. unfold unlinked. rewrite lookup_delete_ne by done. by rewrite (proj1 (relinked_same root_dir)).
  - intros q y Hy. destruct (unlinked_lookup q y Hy) as (Hq & y0 & Hy0 & _ & _ & _ & Hch). unfold kids'. case_decide as Hqd.
    + subst q. by apply remove_chain.
    + rewrite Hch by done. apply remove_chain_other; [by exists y0|done|]. by apply (tr_chain _ _ _ Ht).
  - intros q [Hq Hs]%unlinked_dom. pose proof (tr_reach _ _ _ Ht q Hs) as Hr. revert q Hr Hq Hs.
    assert (Hall : ∀ q, rtc (kid_of D kids) root_dir q → q ≠ b → rtc (kid_of unlinked kids') root_dir q); [|intros q Hr Hq _; by apply Hall].
    apply (rtc_ind_r (λ q, q ≠ b → rtc (kid_of unlinked kids') root_dir q)); [intros _; constructor|]. intros p q Hr1 [Hp Hqp] IH Hq. assert (Hpb : p ≠ b) by (intros ->; rewrite Hkb in Hqp; by apply not_elem_of_nil in Hqp).
    eapply rtc_r; [by apply IH|]. split; [by apply unlinked_dom|]. unfold kids'. case_decide as Hpd; [|done]. subst p. rewrite Hl in Hqp.
    rewrite elem_of_app, elem_of_cons in Hqp. rewrite elem_of_app. naive_solver.
  - intros c p q [Hp Hp']%unlinked_dom [Hq Hq']%unlinked_dom Hcp Hcq. apply (tr_one _ _ _ Ht c); [done|done|by apply Hddk|by apply Hddk].
  - intros p [Hp Hp']%unlinked_dom Hr. apply (tr_rootkid _ _ _ Ht p Hp'). by apply Hddk.
  - intros q y Hy. destruct (unlinked_lookup q y Hy) as (_ & y0 & Hy0 & _ & -> & _). by apply (tr_len _ _ _ Ht q).
  - intros q y Hy. destruct (unlinked_lookup q y Hy) as (Hq & y0 & Hy0 & -> & _ & -> & _). destruct (tr_ino _ _ _ Ht q y0 Hy0) as (ipq & H1 & H2 & H3 & H4 & H5).
    assert (Hne : td_inode y0 ≠ td_inode e) by (intros Heq; rewrite Heq in H1; simplify_eq; done).
    exists ipq. rewrite HI' by done. split_and!; [done|done|lia|lia|done|]. intros Hx. destruct (H5 Hx) as [H6 H7]. split; [done|]. unfold kids'.
    destruct (decide (q = dd)) as [Hqd|Hqd]; [|done]. rewrite Hqd, Hl in H7. by destruct l1.
Qed.

(** The others keep their entries. *)
Lemma unlinked_tree c ipc : I !! c = Some ipc → c ≠ td_inode e → in_tree D c ipc → in_tree unlinked c ipc.
Proof.
  intros Hc Hne Hin. unfold in_tree in *. unfold unlinked. rewrite lookup_delete_ne; [by rewrite (proj1 (relinked_same _))|].
  intros Heq. rewrite <-Heq, He in Hin. simpl in Hin. congruence.
Qed.

(** The inode stays for those who have it open. *)
Lemma open_unlink_kept n sl vf :
  numbers_ok I n → open_ok D I sl vf → opened sl (ti_ino ip) →
  open_ok unlinked (<[td_inode e := set_nlinks 0 ip]> I)
    ((λ x, if decide (i_dev x = TMPFS_DEV ∧ i_ino x = ti_ino ip) then set_i_nlinks 0 x else x) <$> sl) vf.
Proof.
  intros HN HO Hop. set (g := λ x, if decide (i_dev x = TMPFS_DEV ∧ i_ino x = ti_ino ip) then set_i_nlinks 0 x else x).
  assert (Hg : ∀ x, i_dev (g x) = i_dev x ∧ i_ino (g x) = i_ino x ∧ i_count (g x) = i_count x ∧ private_data (g x) = private_data x) by (intros x; unfold g; by case_decide).
  assert (Hopg : ∀ m, opened sl m → opened (g <$> sl) m).
  { intros m (i & x & Hx & Hd & Hi & Hc). destruct (Hg x) as (G1 & G2 & G3 & G4). exists i, (g x). rewrite list_lookup_fmap, Hx. split_and!; [done|congruence|congruence|lia]. }
  split.
  - intros i x Hx. rewrite list_lookup_fmap in Hx. destruct (sl !! i) as [y|] eqn:Ey; [|done]. injection Hx as <-.
    destruct (Hg y) as (G1 & G2 & G3 & G4). rewrite G1, G3. intros Hd Hc. destruct (op_slot _ _ _ _ HO i y Ey Hd Hc) as (ipy & Hy & Hi & Hn & Hv). rewrite G4, G2.
    destruct (decide (i_ino y = ti_ino ip)) as [Heq|Hne].
    + assert (private_data y = td_inode e) as Hpy by (eapply (no_inj _ _ HN); [done|done|congruence]). rewrite Hpy, lookup_insert_eq.
      assert (ipy = ip) as -> by congruence. exists (set_nlinks 0 ip). split_and!; try done. unfold g. rewrite decide_True by done. done.
    + exists ipy. rewrite lookup_insert_ne by (intros Heq; rewrite <-Heq in Hy; simplify_eq; done). split_and!; try done.
      unfold g. rewrite decide_False by naive_solver. done.
  - pose proof remove_facts as (_ & _ & Hdb & _ & _ & Hty & _). intros c ipc [[<- <-]|[Hne Hc] ]%lookup_insert_Some.
    + right. split_and!; [done|done|by apply Hopg].
    + destruct (op_orphan _ _ _ _ HO c ipc Hc) as [Hin|(H1 & H2 & H3)]; [left; by apply unlinked_tree|right; split_and!; [done|done|by apply Hopg] ].
Qed.

(** Nobody has it open: it goes. *)
Lemma open_unlink_freed n sl vf :
  numbers_ok I n → open_ok D I sl vf → ¬ opened sl (ti_ino ip) →
  open_ok unlinked (delete (td_inode e) I)
    ((λ x, if decide (i_dev x = TMPFS_DEV ∧ i_ino x = ti_ino ip) then set_pd 0 0 x else x) <$> sl) vf.
Proof.
  intros HN HO Hop. set (g := λ x, if decide (i_dev x = TMPFS_DEV ∧ i_ino x = ti_ino ip) then set_pd 0 0 x else x).
  assert (Hg : ∀ x, i_dev (g x) = i_dev x ∧ i_ino (g x) = i_ino x ∧ i_count (g x) = i_count x) by (intros x; unfold g; by case_decide).
  split.
  - intros i x Hx. rewrite list_lookup_fmap in Hx. destruct (sl !! i) as [y|] eqn:Ey; [|done]. injection Hx as <-.
    destruct (Hg y) as (G1 & G2 & G3). rewrite G1, G3. intros Hd Hc. destruct (op_slot _ _ _ _ HO i y Ey Hd Hc) as (ipy & Hy & Hi & Hn & Hv).
    assert (Hne : i_ino y ≠ ti_ino ip) by (intros Heq; apply Hop; by exists i, y).
    unfold g. rewrite decide_False by naive_solver. exists ipy. split_and!; try done. apply lookup_delete_Some. split; [|done].
    intros Heq. rewrite <-Heq in Hy. congruence.
  - intros c ipc [Hne Hc]%lookup_delete_Some. destruct (op_orphan _ _ _ _ HO c ipc Hc) as [Hin|(H1 & H2 & i & y & Hy & Hd & Hi & Hcy)].
    + left. by apply unlinked_tree.
    + right. split_and!; [done|done|]. exists i, (g y). destruct (Hg y) as (G1 & G2 & G3). rewrite list_lookup_fmap, Hy. split_and!; [done|congruence|congruence|lia].
Qed.

Lemma objs_unlink ob ob' I' :
  objs_ok ob D I → obj_ok ob' → (∀ c, is_Some (I' !! c) → is_Some (I !! c)) → (∀ c, c ≠ td_inode e → I' !! c = I !! c) →
  (∀ c, obj_live ob' c ↔ obj_live ob c ∧ c ≠ b ∧ (c = td_inode e → is_Some (I' !! c))) → objs_ok ob' unlinked I'.
Proof.
  intros HO Ho Hsub Hoth Hl'. split; [done| |].
  - intros c. rewrite Hl', (ob_live _ _ _ HO), unlinked_dom. destruct (decide (c = td_inode e)) as [->|Hne].
    + assert (Hs : is_Some (I !! td_inode e)) by (by exists ip). assert (HD : ¬ is_Some (D !! td_inode e)) by (intros Hd; by apply (ob_disj _ _ _ HO (td_inode e))).
      assert (td_inode e ≠ b) by (intros Heq; apply HD; rewrite Heq; by exists e). naive_solver.
    + rewrite (Hoth c Hne). assert (is_Some (I !! c) → c ≠ b) by (intros Hc ->; apply (ob_disj _ _ _ HO b); [by exists e|done]). naive_solver.
  - intros c [_ Hc]%unlinked_dom Hc'. exact (ob_disj _ _ _ HO c Hc (Hsub c Hc')).
Qed.
End remove.

(** A loop over the slots of the cache that changes each by [g]. *)
Definition with_slots (sl : list cinode) (s : st) : st := set_t_ic (set_inodes sl (t_ic s)) s.
Lemma slots_map_run (body : Z → K st unit) (g : cinode → cinode) s :
  length (slots s) = Z.to_nat NINODES →
  (∀ i x sl, sl !! Z.to_nat i = Some x → body i (with_slots sl s) = Ret (tt, with_slots (<[Z.to_nat i := g x]> sl) s)) →
  forM (seqZ 0 NINODES) body s = Ret (tt, with_slots (g <$> slots s) s).
Proof.
  intros Hlen Hb.
  destruct (forM_seq (λ k s', s' = with_slots ((g <$> take (Z.to_nat k) (slots s)) ++ drop (Z.to_nat k) (slots s)) s) body 0 NINODES s) as (s' & Hr & ->); [done| | |].
  - intros k s' Hk ->. destruct (lookup_lt_is_Some_2 (slots s) (Z.to_nat k)) as [x Hx]; [lia|].
    assert (Hlt : length (g <$> take (Z.to_nat k) (slots s)) = Z.to_nat k) by (rewrite length_fmap, length_take; lia).
    eexists. split; [apply (Hb k x)|].
    + rewrite lookup_app_r by lia. rewrite Hlt, Nat.sub_diag, lookup_drop, Nat.add_0_r. done.
    + f_equal. rewrite insert_app_r_alt by lia. rewrite Hlt, Nat.sub_diag. rewrite (drop_S _ _ _ Hx). simpl.
      replace (Z.to_nat (k + 1)) with (S (Z.to_nat k)) by lia. rewrite (take_S_r _ _ _ Hx), fmap_app. simpl. rewrite <-app_assoc. done.
  - simpl. rewrite drop_0. by destruct s as [[] ? ? ?].
  - rewrite Hr. do 2 f_equal. rewrite take_ge, drop_ge by lia. by rewrite app_nil_r.
Qed.

Lemma omap_fmap_same {A B} (f : A → option B) (g : A → A) (l : list A) : (∀ x, x ∈ l → f (g x) = f x) → omap f (g <$> l) = omap f l.
Proof.
  induction l as [|x l IH]; intros Hl; [done|]. csimpl. rewrite (Hl x) by (by left). rewrite IH; [done|]. intros z Hz. apply Hl. by right.
Qed.
Lemma cache_map h all (c : icache P) refs (g : cinode → cinode) :
  cache_inv h all (mk_istate c refs) →
  (∀ x, x ∈ inodes c → i_dev (g x) = i_dev x ∧ i_ino (g x) = i_ino x ∧ i_count (g x) = i_count x ∧ pd_owned (g x) = pd_owned x ∧
     (i_dev x ≠ TMPFS_DEV ∨ own TMPFS_DEV = true → g x = x)) →
  own TMPFS_DEV = false → cache_inv h all (mk_istate (set_inodes (g <$> inodes c) c) refs).
Proof.
  intros Hc Hg Ho.
  assert (Hlk : ∀ i x, (g <$> inodes c) !! i = Some x → ∃ y, inodes c !! i = Some y ∧ x = g y ∧ y ∈ inodes c).
  { intros i x Hx. rewrite list_lookup_fmap in Hx. destruct (inodes c !! i) as [y|] eqn:Ey; [|done]. injection Hx as <-. exists y.
    split_and!; [done|done|]. by eapply list_elem_of_lookup_2. }
  assert (Hpo : ∀ y, y ∈ inodes c → page_of (g y) = page_of y).
  { intros y Hy. destruct (Hg y Hy) as (G1 & G2 & G3 & G4 & G5). destruct (decide (i_dev y = TMPFS_DEV)) as [Hd|Hd]; [|by rewrite G5 by (by left)].
    apply list_elem_of_lookup in Hy as [i Hi].
    assert (pd_owned y = 0) as E0. { destruct (decide (pd_owned y = 0)); [done|]. pose proof (iv_owned _ _ _ Hc i y Hi ltac:(done)) as Hy'. congruence. }
    unfold page_of. rewrite G4, E0. done. }
  assert (Hop : owned_pages (set_inodes (g <$> inodes c) c) = owned_pages c).
  { by apply omap_fmap_same. }
  split; try apply Hc; cbn [ic irefs set_inodes inodes] in *.
  - rewrite length_fmap. apply Hc.
  - intros i j x y (x0 & Hx & -> & Hx')%Hlk (y0 & Hy & -> & Hy')%Hlk. destruct (Hg x0 Hx') as (-> & -> & _), (Hg y0 Hy') as (-> & -> & _). by apply (iv_uniq _ _ _ Hc).
  - intros i x (x0 & Hx & -> & Hx')%Hlk. destruct (Hg x0 Hx') as (_ & _ & -> & _). by apply (iv_count _ _ _ Hc).
  - intros i Hi. destruct (iv_refs _ _ _ Hc i Hi) as (Hr & x & Hx & Hn). split; [done|]. exists (g x). unfold slot_of in *. cbn [ic set_inodes inodes].
    rewrite list_lookup_fmap. cbn [ic] in Hx. rewrite Hx. split; [done|]. destruct (Hg x) as (_ & -> & _); [by eapply list_elem_of_lookup_2|done].
  - intros i x (x0 & Hx & -> & Hx')%Hlk. destruct (Hg x0 Hx') as (-> & _ & _ & -> & _). by apply (iv_owned _ _ _ Hc i).
  - intros i x (x0 & Hx & -> & Hx')%Hlk. destruct (Hg x0 Hx') as (G1 & _ & _ & G4 & G5). rewrite G1. intros Hod.
    rewrite G5 by (left; congruence). by apply (iv_data _ _ _ Hc i).
  - rewrite Hop. apply Hc.
  - rewrite Hop. apply (iv_live _ _ _ Hc).
Qed.

Lemma sync_run (s : st) a ip :
  length (slots s) = Z.to_nat NINODES → inos s !! a = Some ip →
  tmpfs_sync_nlinks a s = Ret (tt, with_slots ((λ x, if decide (i_dev x = TMPFS_DEV ∧ i_ino x = ti_ino ip) then set_i_nlinks (ti_nlinks ip) x else x) <$> slots s) s).
Proof.
  intros Hl Ha. apply slots_map_run; [done|]. intros i x sl Hx. rewrite (bind_Ret _ _ _ _ _ (on_cache_get (with_slots sl s) i x Hx)).
  rewrite (bind_Ret _ _ _ _ _ (get_ino_run (with_slots sl s) a ip Ha)). case_decide; [done|]. by rewrite list_insert_id.
Qed.
Lemma drop_run (s : st) n :
  length (slots s) = Z.to_nat NINODES →
  drop_private_data n s = Ret (tt, with_slots ((λ x, if decide (i_dev x = TMPFS_DEV ∧ i_ino x = n) then set_pd 0 0 x else x) <$> slots s) s).
Proof.
  intros Hl. apply slots_map_run; [done|]. intros i x sl Hx. rewrite (bind_Ret _ _ _ _ _ (on_cache_get (with_slots sl s) i x Hx)).
  case_decide; [done|]. by rewrite list_insert_id.
Qed.
Lemma inode_open_run (s : st) n :
  length (slots s) = Z.to_nat NINODES → ∃ o, tmpfs_inode_open n s = Ret (o, s) ∧ (o = true ↔ opened (slots s) n).
Proof.
  intros Hl. unfold tmpfs_inode_open.
  destruct (for_find_seq (λ k s', s' = s ∧ ∀ j x, Z.of_nat j < k → slots s !! j = Some x → ¬ (i_dev x = TMPFS_DEV ∧ i_ino x = n ∧ 0 < i_count x))
    (λ r s', s' = s ∧ r = true ∧ opened (slots s) n)
    (λ i, x ← on_cache (get_ci i); if decide (i_dev x = TMPFS_DEV ∧ i_ino x = n ∧ i_count x > 0) then mret (Some true) else mret None) 0 NINODES s) as (r & s' & Hf & Hp).
  - done.
  - intros i s1 Hi [-> Hb]. destruct (lookup_lt_is_Some_2 (slots s) (Z.to_nat i)) as [x Hx]; [lia|].
    rewrite (bind_Ret _ _ _ _ _ (on_cache_get s i x Hx)). case_decide as Hd.
    + exists (Some true), s. split_and!; [done|done|done|]. exists (Z.to_nat i), x. split_and!; [done|naive_solver|naive_solver|lia].
    + exists None, s. split_and!; [done|done|]. intros j y Hj Hy. destruct (decide (j = Z.to_nat i)) as [->|]; [|apply (Hb j); [lia|done] ].
      simplify_eq. intros (H1 & H2 & H3). apply Hd. split_and!; [done|done|lia].
  - split; [done|]. intros j x Hj. lia.
  - rewrite (bind_Ret _ _ _ _ _ Hf). destruct r as [b|]; [destruct Hp as (-> & -> & Hp); by exists true|]. destruct Hp as [-> Hp]. exists false.
    split; [done|]. split; [done|]. intros (j & x & Hx & Hd). exfalso. apply (Hp j x); [|done|done]. pose proof (lookup_lt_Some _ _ _ Hx). lia.
Qed.

Lemma detach_run (s : st) pd dd b e l1 l2 :
  dents s !! dd = Some pd → chain (dents s) (td_child pd) (l1 ++ b :: l2) →
  unlink_detach dd (before 0 l1) e s = Ret (tt, set_t_mem (set_dents (relinked (dents s) dd pd e l1) (t_mem s)) s).
Proof.
  intros Hdd Hc. unfold unlink_detach, relinked. destruct l1 as [|c l1].
  - unfold before. simpl. rewrite (bind_Ret _ _ _ _ _ (get_de_run s _ _ Hdd)). by apply (put_de_run s dd _ pd).
  - assert (Hin : before 0 (c :: l1) ∈ (c :: l1) ++ b :: l2) by (apply elem_of_app; left; by apply before_in).
    destruct (chain_elem _ _ _ _ Hc Hin) as [Hn [y Hy] ]. rewrite decide_False by done. rewrite (decide_False (P := c :: l1 = [])) by done.
    rewrite (bind_Ret _ _ _ _ _ (get_de_run s _ _ Hy)), (put_de_run s _ _ y Hy). do 2 f_equal.
    unfold set_t_mem, set_dents. do 2 f_equal. apply map_eq. intros q. destruct (decide (q = before 0 (c :: l1))) as [->|Hq].
    + by rewrite lookup_insert_eq, lookup_alter_eq, Hy.
    + by rewrite lookup_insert_ne, lookup_alter_ne.
Qed.

(** The state that unlink leaves. *)
Section unlink.
Context (held : gset Z) (s : st) (refs : list Z) (kids : Z → list Z).
Context (dd b : Z) (pd e : tdirent) (pip ip : tmpfs_inode) (l1 l2 : list Z).
Context (HI : tmpfs_inv held s refs).
Context (Ht : tree_ok (dents s) (inos s) kids) (Hdd : dents s !! dd = Some pd) (Hpip : inos s !! td_inode pd = Some pip) (Hdir : ti_type pip = VFS_DIR).
Context (Hl : kids dd = l1 ++ b :: l2) (He : dents s !! b = Some e) (Hip : inos s !! td_inode e = Some ip) (Hfile : td_type e ≠ VFS_DIR).
Abbreviation D' := (unlinked (dents s) dd b pd e l1).

Lemma unlink_length : length (slots s) = Z.to_nat NINODES.
Proof. destruct (tv_cache _ _ _ HI) as [all Hc]. apply (iv_len _ _ _ Hc). Qed.
Lemma unlink_slots_inv (g : cinode → cinode) :
  (∀ x, x ∈ slots s → i_dev (g x) = i_dev x ∧ i_ino (g x) = i_ino x ∧ i_count (g x) = i_count x ∧ pd_owned (g x) = pd_owned x ∧
     (i_dev x ≠ TMPFS_DEV ∨ own TMPFS_DEV = true → g x = x)) →
  ∃ all, cache_inv (heap_of s) all (mk_istate (set_inodes (g <$> slots s) (t_ic s)) refs).
Proof. intros Hg. destruct (tv_cache _ _ _ HI) as [all Hc]. exists all. apply cache_map; [done|done|]. apply (sc_own (tv_static _ _ _ HI)). Qed.
Lemma slot_not_owned x : x ∈ slots s → i_dev x = TMPFS_DEV → pd_owned x = 0.
Proof.
  intros [i Hi]%list_elem_of_lookup Hd. destruct (tv_cache _ _ _ HI) as [all Hc]. destruct (decide (pd_owned x = 0)) as [|Hne]; [done|].
  pose proof (iv_owned _ _ _ Hc i x Hi Hne) as Ho. rewrite Hd, (sc_own (tv_static _ _ _ HI)) in Ho. done.
Qed.

(** Somebody has the file open. *)
Definition hide (x : cinode) : cinode := if decide (i_dev x = TMPFS_DEV ∧ i_ino x = ti_ino ip) then set_i_nlinks 0 x else x.
Lemma kept_inv ob :
  opened (slots s) (ti_ino ip) → obj_ok ob → (∀ c, obj_live ob c ↔ obj_live (objs s) c ∧ c ≠ b) →
  tmpfs_inv held (with_slots (hide <$> slots s)
    (set_t_mem (mk_tmem (heap_of s) (<[td_inode e := set_nlinks 0 ip]> (inos s)) D' ob (next_ino s)) s)) refs.
Proof.
  intros Hop Hob Hlive. pose proof (sc_own (tv_static _ _ _ HI)) as Hown. split; try apply HI; cbn [t_mem set_t_mem with_slots set_t_ic t_inos t_dents t_heap t_objs t_next_ino t_ic t_vn].
  - eexists. eapply tree_remove; try done. intros c Hc. by rewrite lookup_insert_ne.
  - apply files_nlinks; [apply HI|done].
  - apply numbers_nlinks; [apply HI|done].
  - eapply open_unlink_kept; try done; apply HI.
  - eapply objs_unlink; try done; [apply HI| | |].
    + intros c [<-|?]%lookup_insert_is_Some'; [by exists ip|done].
    + intros c Hc. by rewrite lookup_insert_ne.
    + intros c. rewrite Hlive. split; [|tauto]. intros [H1 H2]. split_and!; [done|done|]. intros ->. by rewrite lookup_insert_eq.
  - apply unlink_slots_inv. intros x Hx. unfold hide. case_decide as Hd; [|done]. split_and!; try done. intros [?|?]; [naive_solver|congruence].
Qed.

(** Nobody has: [s1] is the state before the objects are freed. *)
Definition forget (x : cinode) : cinode := if decide (i_dev x = TMPFS_DEV ∧ i_ino x = ti_ino ip) then set_pd 0 0 x else x.
Lemma freed_inv ob h pg all :
  ¬ opened (slots s) (ti_ino ip) → obj_ok ob → (∀ c, obj_live ob c ↔ obj_live (objs s) c ∧ c ≠ td_inode e ∧ c ≠ b) →
  files_ok h (delete (td_inode e) (inos s)) → (∀ p bl, h !! p = Some bl → is_page p ∧ block_ok bl) →
  cache_inv h all (mk_istate (set_ipages pg (set_inodes (forget <$> slots s) (t_ic s))) refs) →
  tmpfs_inv held (set_t_ic (set_ipages pg (set_inodes (forget <$> slots s) (t_ic s)))
    (set_t_mem (mk_tmem h (delete (td_inode e) (inos s)) D' ob (next_ino s)) s)) refs.
Proof.
  intros Hop Hob Hlive HF Hh Hc. split; try apply HI; cbn [t_mem set_t_mem with_slots set_t_ic t_inos t_dents t_heap t_objs t_next_ino t_ic t_vn].
  - eexists. eapply tree_remove; try done. intros c Hc'. by rewrite lookup_delete_ne.
  - done.
  - done.
  - apply numbers_delete, HI.
  - eapply open_unlink_freed; try done; apply HI.
  - eapply objs_unlink; try done; [apply HI| | |].
    + by intros c [_ ?]%lookup_delete_is_Some.
    + intros c Hc'. by rewrite lookup_delete_ne.
    + intros c. rewrite Hlive. split; [naive_solver|]. intros (H1 & H2 & H3). split_and!; [done| |done]. intros Heq. specialize (H3 Heq).
      rewrite Heq, lookup_delete_eq in H3. by destruct H3.
  - by exists all.
Qed.
Lemma forget_cache : ∃ all, cache_inv (heap_of s) all (mk_istate (set_inodes (forget <$> slots s) (t_ic s)) refs).
Proof.
  pose proof (sc_own (tv_static _ _ _ HI)) as Hown. apply unlink_slots_inv. intros x Hx. unfold forget. case_decide as Hd; [|done].
  split_and!; try done; [|intros [?|?]; [naive_solver|congruence] ]. symmetry. apply slot_not_owned; naive_solver.
Qed.
Lemma unlinked_entries : ∃ y, D' !! dd = Some y ∧ chain D' (td_child y) (l1 ++ l2).
Proof.
  assert (Hs : is_Some (D' !! dd)).
  { eapply unlinked_dom; [exact Hdd|]. split; [|by exists pd]. apply not_eq_sym.
    assert (Hf : b ∈ kids dd ∧ b ≠ root_dir ∧ ti_dir ip = b ∧ ti_nlinks ip = 1 ∧ kids b = [] ∧ ti_type ip ≠ VFS_DIR ∧ b ≠ dd) by (by eapply remove_facts).
    apply Hf. }
  destruct Hs as [y Hy]. exists y. split; [done|]. by eapply remove_chain.
Qed.
End unlink.

(** Freeing the entry and releasing the lock, from a state with the entry. *)
Lemma tfree_entry_run (s : st) d b :
  obj_ok (objs s) → obj_live (objs s) b →
  ∃ ob, (free_dirent b ;; v_release d ;; mret 0) s =
      Ret (0, with_locks (locks s ∖ {[d]}) (set_t_mem (set_dents (delete b (dents s)) (set_objs ob (t_mem s))) s)) ∧ obj_ok ob ∧
    ∀ c, obj_live ob c ↔ obj_live (objs s) c ∧ c ≠ b.
Proof.
  intros Ho Hl. destruct (free_dirent_run s b Ho Hl) as (ob & Hf & Hob & Hlv). exists ob. split; [|done]. by rewrite (bind_Ret _ _ _ _ _ Hf).
Qed.

(** What unlink does: the first entry with the name goes. *)
Record unlinks (s s' : st) (d : Z) (name : cstring) (l : list Z) : Prop := {
  ul_entry : ∃ l1 b l2 e ip, l = l1 ++ b :: l2 ∧ dents s !! b = Some e ∧ name_eq name (td_name e) = true ∧ td_type e ≠ VFS_DIR ∧
    (∀ c, c ∈ l1 → name_eq name (name_of (dents s) c) = false) ∧ inos s !! td_inode e = Some ip ∧
    entries s' d (l1 ++ l2) ∧ dents s' !! b = None ∧
    (∀ c, c ≠ b → name_of (dents s') c = name_of (dents s) c ∧ td_inode <$> dents s' !! c = td_inode <$> dents s !! c) ∧
    (opened (slots s) (ti_ino ip) ∧ inos s' = <[td_inode e := set_nlinks 0 ip]> (inos s) ∧ heap_of s' = heap_of s ∨
     ¬ opened (slots s) (ti_ino ip) ∧ inos s' = delete (td_inode e) (inos s) ∧
       ∀ p, is_Some (heap_of s' !! p) ↔ is_Some (heap_of s !! p) ∧ ¬ towns (heap_of s) ip p)
}.

(** The part of unlink that changes something, with the lock taken. *)
Lemma unlink_found held s refs d kids dd pd pip l1 b l2 e ip :
  tmpfs_inv ({[d]} ∪ held) s refs → d ∉ held →
  tree_ok (dents s) (inos s) kids → dents s !! dd = Some pd → inos s !! td_inode pd = Some pip → ti_type pip = VFS_DIR →
  kids dd = l1 ++ b :: l2 → dents s !! b = Some e → inos s !! td_inode e = Some ip → td_type e ≠ VFS_DIR →
  let s1 := set_t_mem (set_inos (<[td_inode e := set_nlinks 0 ip]> (inos s)) (t_mem s)) s in
  ∃ s', ((unlink_detach dd (before 0 l1) e ;; unlink_inode d (td_inode e) (ti_ino ip) ;; free_dirent b) ;; v_release d ;; mret 0) s1 = Ret (0, s') ∧
    tmpfs_inv held s' refs ∧ (∀ w, handle s refs w → handle s' refs w) ∧ dents s' = unlinked (dents s) dd b pd e l1 ∧
    (opened (slots s) (ti_ino ip) ∧ inos s' = <[td_inode e := set_nlinks 0 ip]> (inos s) ∧ heap_of s' = heap_of s ∨
     ¬ opened (slots s) (ti_ino ip) ∧ inos s' = delete (td_inode e) (inos s) ∧
       ∀ p, is_Some (heap_of s' !! p) ↔ is_Some (heap_of s !! p) ∧ ¬ towns (heap_of s) ip p) ∧
    vn_root (t_vn s') = vn_root (t_vn s) ∧ ∀ i x, slots s !! i = Some x → i_ino x ≠ ti_ino ip → slots s' !! i = Some x.
Proof.
  intros HI Hd Ht Hdd Hpip Hdir Hl He Hip Hfile s1. set (a := td_inode e) in *. pose proof (tv_objs _ _ _ HI) as HO.
  assert (Hf : b ∈ kids dd ∧ b ≠ root_dir ∧ ti_dir ip = b ∧ ti_nlinks ip = 1 ∧ kids b = [] ∧ ti_type ip ≠ VFS_DIR ∧ b ≠ dd) by (by eapply remove_facts).
  destruct Hf as (_ & Hbr & _ & _ & _ & Hty & _).
  assert (Hbl : obj_live (objs s) b) by (apply (ob_live _ _ _ HO); left; split; [by exists e|done]).
  assert (Har : a ≠ root_inode).
  { intros Heq. pose proof (tr_root _ _ _ Ht) as Hr. destruct (dents s !! root_dir) as [er|] eqn:Er; [|done]. injection Hr as Hr.
    destruct (tr_ino _ _ _ Ht _ _ Er) as (ipr & Hipr & _ & _ & Htr & _). rewrite decide_True in Htr by done. congruence. }
  assert (Hal : obj_live (objs s) a) by (apply (ob_live _ _ _ HO); right; split; [by exists ip|done]).
  assert (Hab : a ≠ b) by (intros Heq; apply (ob_disj _ _ _ HO b); [by exists e|rewrite <-Heq; by exists ip]).
  pose proof (tr_chain _ _ _ Ht _ _ Hdd) as Hch. rewrite Hl in Hch.
  set (D1 := relinked (dents s) dd pd e l1). set (I1 := <[a := set_nlinks 0 ip]> (inos s)).
  set (s2 := set_t_mem (mk_tmem (heap_of s) I1 D1 (objs s) (next_ino s)) s).
  rewrite bind_assoc, (bind_Ret _ _ _ _ _ (detach_run s1 pd dd b e l1 l2 Hdd Hch)). fold D1.
  change (set_t_mem (set_dents D1 (t_mem s1)) s1) with s2.
  assert (Hlock : locks s ∖ {[d]} = held) by (rewrite (tv_locks _ _ _ HI); set_solver).
  destruct (inode_open_run s2 (ti_ino ip)) as (o & Ho & Hiff); [exact (unlink_length _ _ _ HI)|]. change (slots s2) with (slots s) in Hiff.
  assert (Ha1 : I1 !! a = Some (set_nlinks 0 ip)) by (unfold I1; by rewrite lookup_insert_eq).
  unfold unlink_inode. rewrite bind_assoc, bind_assoc, (bind_Ret _ _ _ _ _ Ho). destruct o.
  - assert (Hop : opened (slots s) (ti_ino ip)) by (by apply Hiff).
    rewrite (bind_Ret _ _ _ _ _ (sync_run s2 a (set_nlinks 0 ip) (unlink_length _ _ _ HI) Ha1)). simpl ti_nlinks. simpl ti_ino.
    set (s3 := with_slots _ s2). destruct (tfree_entry_run s3 d b (ob_ok _ _ _ HO) Hbl) as (ob & Hr & Hob & Hlv). rewrite Hr.
    change (locks s3) with (locks s). rewrite Hlock. eexists. split; [done|].
    assert (HIk := kept_inv _ s refs kids dd b pd e pip ip l1 l2 HI Ht Hdd Hpip Hdir Hl He Hip Hfile ob Hop Hob Hlv).
    split_and!; [by apply (with_locks_inv ({[d]} ∪ held))| |done|by left|done|].
    + intros w [?|[Hw (x & Hx & Hxd)] ]; [by left|]. right. split; [done|]. eexists. cbn. rewrite list_lookup_fmap, Hx. split; [done|]. simpl. by case_decide.
    + intros i x Hx Hne. cbn. rewrite list_lookup_fmap, Hx. simpl. rewrite decide_False by naive_solver. done.
  - assert (Hop : ¬ opened (slots s) (ti_ino ip)) by (intros Hop; apply Hiff in Hop; done).
    rewrite bind_assoc, (bind_Ret _ _ _ _ _ (drop_run s2 (ti_ino ip) (unlink_length _ _ _ HI))). set (s3 := with_slots _ s2).
    destruct (forget_cache _ s refs ip HI) as [all Hc].
    destruct (free_blocks_file s3 refs all d a (set_nlinks 0 ip)) as (h' & ip' & pg & Hr & _ & HF & Hh & Hdom & all' & Hc'); try done;
      [apply files_nlinks; [apply HI|done]|apply HI|].
    rewrite bind_assoc, (bind_Ret _ _ _ _ _ Hr). set (s4 := mk_tfs _ _ _ _).
    destruct (free_inode_run s4 a (ob_ok _ _ _ HO) Hal) as (ob1 & Hfi & Hob1 & Hlv1). rewrite (bind_Ret _ _ _ _ _ Hfi). set (s5 := set_t_mem _ s4).
    destruct (tfree_entry_run s5 d b Hob1) as (ob & Hfe & Hob & Hlv); [apply Hlv1; by split|]. rewrite Hfe.
    change (locks s5) with (locks s). rewrite Hlock. eexists. split; [done|].
    assert (Hdel : delete a (<[a := ip']> I1) = delete a (inos s)) by (rewrite delete_insert_eq; unfold I1; by rewrite delete_insert_eq).
    assert (Hdel' : delete a I1 = delete a (inos s)) by (unfold I1; by rewrite delete_insert_eq).
    change (inos s3) with I1 in HF. rewrite Hdel' in HF.
    assert (HIk := freed_inv _ s refs kids dd b pd e pip ip l1 l2 HI Ht Hdd Hpip Hdir Hl He Hip Hfile ob h' pg all' Hop Hob).
    split_and!; [|intros w [?|[Hw (x & Hx & Hxd)] ]; [by left|]; right; split; [done|]; eexists; cbn; rewrite list_lookup_fmap, Hx; split; [done|]; simpl; by case_decide
      |done|right; split_and!; [done|exact Hdel|exact Hdom]|done|intros i x Hx Hne; cbn; rewrite list_lookup_fmap, Hx; simpl; rewrite decide_False by naive_solver; done].
    cbn -[delete insert]. rewrite Hdel. apply (with_locks_inv ({[d]} ∪ held)). apply HIk; [|done|done|done].
    intros c. rewrite Hlv. simpl. rewrite Hlv1. simpl. tauto.
Qed.

Lemma tunlink_run held s refs d name :
  tmpfs_inv held s refs → handle s refs d → d ∉ held → vtype (fields s) d = VFS_DIR → name ≠ [] →
  ∃ l r s', entries s d l ∧ tmpfs_vfs_unlink (Some d) (Some name) s = Ret (r, s') ∧ tmpfs_inv held s' refs ∧
    (∀ w, handle s refs w → handle s' refs w) ∧
    (r = 0 ∧ unlinks s s' d name l ∨
     r = -1 ∧ s' = s ∧ ∀ l1 b l2 e, l = l1 ++ b :: l2 → dents s !! b = Some e → name_eq name (td_name e) = true →
       (∀ c, c ∈ l1 → name_eq name (name_of (dents s) c) = false) → td_type e = VFS_DIR).
Proof.
  intros HI Hh Hd Hty Hnm. destruct (dir_entries _ _ _ _ HI Hh Hty) as (x & pip & pd & kids & Hg & Hc & Hn & Hip & He & Hti & Hdt & Ht & Hent).
  pose proof (tr_chain _ _ _ Ht _ _ He) as Hch. exists (kids (ti_dir pip)). unfold tmpfs_vfs_unlink. rewrite decide_False by done.
  set (s1 := with_locks ({[d]} ∪ held) s). pose proof (with_locks_inv held ({[d]} ∪ held) s refs HI) as HI1. fold s1 in HI1.
  rewrite (bind_Ret _ _ _ tt s1) by (unfold v_acquire; rewrite (tv_locks _ _ _ HI); by rewrite decide_False).
  assert (Hg1 : get_vi d s1 = Ret (x, s1)) by (by apply get_vi_locks).
  rewrite (bind_Ret _ _ _ _ _ Hg1), decide_False by done.
  rewrite (bind_Ret _ _ _ _ _ (get_ino_run s1 _ _ Hip)), decide_False by (by eapply entry_not_null).
  rewrite (bind_Ret _ _ _ _ _ (get_de_run s1 _ _ He)), (bind_Ret (gets dir_fuel) _ _ _ s1) by done.
  destruct (find_entry_run s1 name 0 _ _ Hch (dir_fuel s1) (find_fuel_enough s1 _ _ Hch)) as ([prev b] & Hr & Hp).
  rewrite (bind_Ret _ _ _ _ _ Hr). change (dents s1) with (dents s) in Hp. simpl in Hp.
  assert (Hback : v_release d s1 = Ret (tt, s)).
  { unfold v_release, modify. do 2 f_equal. transitivity (with_locks held s1); [|by apply (with_locks_id s held), HI].
    unfold with_locks. do 2 f_equal. simpl. set_solver. }
  destruct Hp as [[-> Hno]|(l1 & l2 & e & Hl & -> & Hz & He' & Hnme & Hbef)].
  { rewrite decide_True by done. rewrite (bind_Ret _ _ _ _ _ Hback). exists (-1), s. split_and!; [done|done|done|done|]. right. split_and!; [done|done|].
    intros l1 b l2 e Hl He' Hnme _. exfalso. specialize (Hno b). unfold name_of in Hno. rewrite He' in Hno. simpl in Hno. rewrite Hno in Hnme; [done|].
    rewrite Hl. apply elem_of_app. right. by left. }
  rewrite decide_False by done. rewrite (bind_Ret _ _ _ _ _ (get_de_run s1 _ _ He')). destruct (decide (td_type e = VFS_DIR)) as [Hdir|Hfile].
  { rewrite (bind_Ret _ _ _ _ _ Hback). exists (-1), s. split_and!; [done|done|done|done|]. right. split_and!; [done|done|].
    intros k1 c k2 ec Hk Hec Hnmc Hbefc. assert (c = b) as ->; [|congruence]. rewrite Hl in Hk.
    symmetry. eapply (first_match (λ z, name_eq name (name_of (dents s) z)) l1 b l2 k1 c k2); try done; unfold name_of; [by rewrite He'|by rewrite Hec]. }
  destruct (tr_ino _ _ _ Ht _ _ He') as (ip & Hipc & Hdb & Hnl & Hty' & Hone).
  assert (Hf : b ∈ kids (ti_dir pip) ∧ b ≠ root_dir ∧ ti_dir ip = b ∧ ti_nlinks ip = 1 ∧ kids b = [] ∧ ti_type ip ≠ VFS_DIR ∧ b ≠ ti_dir pip)
    by (eapply (remove_facts _ _ _ (ti_dir pip) b pd e pip ip l1 l2); try done; by rewrite Hti).
  destruct Hf as (_ & _ & _ & Hn1 & _ & Hfty & _).
  rewrite (bind_Ret _ _ _ _ _ (get_ino_run s1 _ _ Hipc)), (bind_Ret _ _ _ _ _ (put_ino_run s1 _ _ _ Hipc)). rewrite Hn1. change (u16 (1 - 1)) with 0.
  set (s2 := set_t_mem _ s1).
  assert (Hip2 : inos s2 !! td_inode e = Some (set_nlinks 0 ip)) by (simpl; by rewrite lookup_insert_eq).
  rewrite (bind_Ret _ _ _ _ _ (get_ino_run s2 _ _ Hip2)). simpl ti_nlinks. simpl ti_ino. rewrite decide_True by done.
  destruct (unlink_found held s1 refs d kids (ti_dir pip) pd pip l1 b l2 e ip) as (s' & Hrun & HI' & Hhs & HD & Hcase & Hroot & Hslots); try done; [by rewrite Hti|].
  exists 0, s'. split_and!; [done|exact Hrun|done|done|]. left. split; [done|].
  assert (Hdn : ∀ c, c ≠ b → name_of (dents s') c = name_of (dents s) c ∧ td_inode <$> dents s' !! c = td_inode <$> dents s !! c).
  { intros c Hcb. rewrite HD. unfold unlinked, name_of. rewrite lookup_delete_ne by done. change (dents s1) with (dents s).
    destruct (relinked_same (dents s) (ti_dir pip) pd e l1 He c) as (R1 & R2 & _). by rewrite R2. }
  constructor. exists l1, b, l2, e, ip. split_and!; try done.
  - destruct (unlinked_entries s1 kids (ti_dir pip) b pd e pip ip l1 l2) as (y & Hy & Hcy); try done; [by rewrite Hti|].
    assert (Hne : td_inode e ≠ private_data x) by (intros Heq; rewrite Heq in Hipc; simplify_eq; done).
    exists x, pip, y. rewrite HD. split_and!; [| |done|done].
    + destruct (handle_run _ _ _ _ HI Hh) as (x' & ip' & Hg' & _ & _ & Hip' & _ & Hsl). rewrite Hg in Hg'. injection Hg' as <-. simplify_eq.
      unfold get_vi in *. destruct (decide (d = TMP_ROOT)) as [Hdr|Hdr].
      * unfold gets in *. injection Hg as Hg. rewrite Hroot. simpl. by rewrite Hg.
      * destruct (Hsl Hdr) as (Hx & _ & Hxi). apply on_cache_get, Hslots; [done|]. rewrite Hxi. intros Heq. apply Hne.
        eapply (no_inj _ _ (tv_numbers _ _ _ HI)); [done|done|congruence].
    + destruct Hcase as [(_ & -> & _)|(_ & -> & _)]; [by rewrite lookup_insert_ne|by rewrite lookup_delete_ne].
  - rewrite HD. unfold unlinked. by rewrite lookup_delete_eq.
Qed.

(** ** Writing and truncating *)

(** The inode changed, but not what the tree and the cache know of it. *)
Definition inode_same (ip ip' : tmpfs_inode) : Prop :=
  ti_type ip' = ti_type ip ∧ ti_nlinks ip' = ti_nlinks ip ∧ ti_ino ip' = ti_ino ip ∧ ti_dir ip' = ti_dir ip.

Lemma file_changed held s refs v a ip h' ip' pg all0 L :
  tmpfs_inv held s refs → inos s !! a = Some ip → inode_same ip ip' → tfile_ok h' ip' → 0 ≤ ti_size ip' ≤ TMPFS_LIMIT →
  (∀ p, is_Some (heap_of s !! p) → ¬ towns (heap_of s) ip p → h' !! p = heap_of s !! p) →
  (∀ p, is_Some (h' !! p) → is_Some (heap_of s !! p) ∧ ¬ towns (heap_of s) ip p ∨ towns h' ip' p) →
  (∀ p, towns h' ip' p → towns (heap_of s) ip p ∨ heap_of s !! p = None) →
  fpages (t_ic s) all0 (mk_tpages pg h') L →
  tmpfs_inv held (mk_tfs (set_ipages pg (t_ic s)) (set_inos (<[a := ip']> (inos s)) (set_heap h' (t_mem s)))
    (set_locks (if bool_decide (v ∈ locks s) then {[v]} ∪ locks s else locks s ∖ {[v]}) (t_vn s)) (t_mnt s)) refs.
Proof.
  intros HI Ha (E1 & E2 & E3 & E4) Hf Hsz Hfr Hdom Hnew Hpg. destruct (tv_cache _ _ _ HI) as [all Hc].
  destruct (cache_reframe _ _ _ _ _ _ _ Hc Hpg) as [all' Hc']. split; try apply HI; cbn [t_mem t_heap t_inos t_dents t_objs t_next_ino set_inos set_heap t_ic t_vn vn_locks set_locks].
  - destruct (tv_tree _ _ _ HI) as [kids Ht]. exists kids. split; try apply Ht. intros d e He. destruct (tr_ino _ _ _ Ht d e He) as (ipd & Hipd & H1 & H2 & H3 & H4).
    rewrite lookup_insert. destruct (decide (a = td_inode e)) as [Heq|]; [|exists ipd; exact (conj Hipd (conj H1 (conj H2 (conj H3 H4))))].
    rewrite <-Heq in Hipd. assert (ipd = ip) as -> by congruence. exists ip'. rewrite E1, E2, E4. exact (conj eq_refl (conj H1 (conj H2 (conj H3 H4)))).
  - apply (files_update (heap_of s) _ a ip); try done. apply HI.
  - intros p b Hp. destruct (pk_page _ _ _ Hpg p b Hp) as ([Hpp _] & _ & _ & Hb). done.
  - destruct (tv_numbers _ _ _ HI) as [N1 N2 N3]. split; [| |done].
    + intros b ipb [[<- <-]|[_ Hb] ]%lookup_insert_Some; [rewrite E3, E1; by apply (N1 a)|by apply (N1 b)].
    + intros b c ipb ipc [[<- <-]|[_ Hb] ]%lookup_insert_Some [[<- <-]|[_ Hc2] ]%lookup_insert_Some; rewrite ?E3; [done|by apply N2|by apply N2|by apply N2].
  - destruct (tv_open _ _ _ HI) as [O1 O2]. split.
    + intros i x Hx Hd Hcx. destruct (O1 i x Hx Hd Hcx) as (ipx & Hipx & H1 & H2 & H3). rewrite lookup_insert.
      destruct (decide (a = private_data x)) as [Heq|]; [|exists ipx; exact (conj Hipx (conj H1 (conj H2 H3)))].
      rewrite <-Heq in Hipx. assert (ipx = ip) as -> by congruence. exists ip'. rewrite E1, E2, E3. exact (conj eq_refl (conj H1 (conj H2 H3))).
    + intros b ipb [[<- <-]|[_ Hb] ]%lookup_insert_Some; [|by apply O2]. unfold in_tree. rewrite E1, E2, E3, E4. by apply O2.
  - destruct (tv_objs _ _ _ HI) as [O1 O2 O3]. split; [done| |].
    + intros b. rewrite O2, lookup_insert_is_Some'. split; [tauto|]. intros [?|[[<-|?] ?] ]; [by left|right; split; [by exists ip|done]|by right].
    + intros b Hb [<-|Hb']%lookup_insert_is_Some'; [apply (O3 a Hb); by exists ip|by apply (O3 b)].
  - by exists all'.
  - rewrite (tv_locks _ _ _ HI). case_bool_decide; set_solver.
Qed.

Lemma tready_of held s refs v a ip :
  tmpfs_inv held s refs → inos s !! a = Some ip → v ∉ held →
  ∃ L, @tready P (framed (cpages (t_ic s))) (L ++ elements (dom (heap_of s))) (mk_tstate (mk_tpages (ipages (t_ic s)) (heap_of s)) ip false) L.
Proof.
  intros HI Ha Hv. destruct (tv_cache _ _ _ HI) as [all Hc]. destruct (pages_of_cache _ _ _ _ Hc (tv_heap _ _ _ HI)) as [L HL].
  destruct (fo_file _ _ (tv_files _ _ _ HI) _ _ Ha) as [Hf Hsz]. exists L. by split.
Qed.
Lemma tmpfs_write_framed F : @tmpfs_vfs_write P (framed F) = tmpfs_vfs_write.
Proof. reflexivity. Qed.
Lemma tmpfs_truncate_framed F : @tmpfs_vfs_truncate P (framed F) = tmpfs_vfs_truncate.
Proof. reflexivity. Qed.

Lemma write_file_run held s refs v a ip f node buffer off src :
  tmpfs_inv held s refs → inos s !! a = Some ip → v ∉ held → f ≠ 0 → node ≠ 0 → buffer ≠ 0 → 0 ≤ off → Forall byte_ok src →
  off + Z.of_nat (length src) ≤ TMPFS_LIMIT →
  ∃ r s', on_file v a (tmpfs_vfs_write f node a buffer off (Z.of_nat (length src)) src) s = Ret (r, s') ∧ tmpfs_inv held s' refs ∧
    slots s' = slots s ∧ dents s' = dents s.
Proof.
  intros HI Ha Hv Hf Hn Hb Ho Hby Hlim. destruct (tready_of _ _ _ v _ _ HI Ha Hv) as [L HL].
  destruct (@write_run P (framed (cpages (t_ic s))) _ _ L f node a buffer off src HL Hf Hn (inode_not_null _ _ _ _ _ HI Ha) Hb Ho Hby Hlim)
    as (r & t & L' & n & Hr & Hrd & _ & _ & _ & ip1 & Hch & Hti). rewrite tmpfs_write_framed in Hr. cbn [tpg tin heap] in Hch.
  exists r. eexists. split; [unfold on_file; rewrite Ha, (tv_locks _ _ _ HI), bool_decide_eq_false_2, Hr by done; done|]. split_and!; [|done|done].
  pose proof (tc_same _ _ _ _ _ Hch) as (E1 & E2 & E3 & _ & E4). rewrite (rd_lock _ _ _ Hrd).
  pose proof (file_changed held s refs v a ip (heap (tpg t)) (tin t) (tp_alloc (tpg t))) as Hfc. rewrite (tv_locks _ _ _ HI), bool_decide_eq_false_2 in Hfc by done.
  destruct t as [[pg h'] ip' lk]. cbn [tpg tin heap tp_alloc] in *. rewrite ?(tv_locks _ _ _ HI). eapply Hfc; try done.
  - rewrite Hti. done.
  - apply Hrd.
  - apply Hrd.
  - apply Hch.
  - intros p Hp. apply (tc_dom _ _ _ _ _ Hch) in Hp as [Hp|Hp]; [|right; by rewrite Hti]. destruct (towns_dec (heap_of s) ip p) as [Ho'|Ho']; [|by left].
    right. destruct Ho' as [Hp0 (q & Hq & Hs)]. split; [done|]. exists q. split; [done|]. rewrite Hti. rewrite <-Hs. apply (tc_slot _ _ _ _ _ Hch); [done|congruence].
  - intros p. rewrite Hti. apply (tc_new _ _ _ _ _ Hch).
  - apply Hrd.
Qed.

Lemma truncate_file_run held s refs v a ip node :
  tmpfs_inv held s refs → inos s !! a = Some ip → node ≠ 0 →
  ∃ s', on_file v a (tmpfs_vfs_truncate node a 0) s = Ret (0, s') ∧ tmpfs_inv held s' refs ∧ slots s' = slots s ∧ dents s' = dents s.
Proof.
  intros HI Ha Hn. destruct (tv_cache _ _ _ HI) as [all Hc]. destruct (pages_of_cache _ _ _ _ Hc (tv_heap _ _ _ HI)) as [L HL].
  destruct (fo_file _ _ (tv_files _ _ _ HI) _ _ Ha) as [Hf Hsz].
  set (t := mk_tstate (mk_tpages (ipages (t_ic s)) (heap_of s)) ip (bool_decide (v ∈ locks s))) in *.
  destruct (@free_blocks_run P (framed (cpages (t_ic s))) _ t L HL Hf) as (t' & L' & Hrun & Hsh & Hz).
  rewrite tmpfs_free_blocks_framed in Hrun. destruct (sh_tree _ _ _ _ _ Hsh) as [Hok (E1 & E2 & E3 & _ & E4) Hsl Hdom Hfr].
  assert (Hno : ∀ p, ¬ towns (heap (tpg t')) (put_tsize 0 (tin t')) p).
  { intros p [Hp (q & Hq & Hs)]. change (tslot (heap (tpg t')) (put_tsize 0 (tin t')) q) with (tslot (heap (tpg t')) (tin t') q) in Hs. rewrite Hz in Hs by done. congruence. }
  eexists. split.
  { unfold on_file. rewrite Ha. fold t. unfold tmpfs_vfs_truncate.
    rewrite decide_False by tauto. rewrite decide_False by (by eapply inode_not_null). rewrite (bind_Ret _ _ _ _ _ Hrun). unfold modify, mbind, K_bind. done. }
  split_and!; [|done|done]. cbn [tpg set_tin tin v_lock]. rewrite (sh_lock _ _ _ _ _ Hsh). cbn [v_lock t].
  eapply (file_changed held s refs v a ip (heap (tpg t')) (put_tsize 0 (tin t')) (tp_alloc (tpg t'))); try done.
  - by apply tfile_size.
  - intros p _ Hp. by apply Hfr.
  - intros p Hp. left. apply Hdom in Hp as [Hp Hp']. split; [done|]. intros Ho. by apply (Hno p), Hp'.
  - intros p Hp. by apply Hno in Hp.
  - destruct (tpg t') eqn:Et. simpl. rewrite <-Et. apply Hsh.
Qed.

(** * The calls *)

Record tsys := mk_tsys { ts_fs : st; ts_refs : list Z }.
Definition set_fs s (c : tsys) : tsys := mk_tsys s (ts_refs c).
Definition set_refs l (c : tsys) : tsys := mk_tsys (ts_fs c) l.
Definition on_fs {A} (m : K st A) : K tsys A := zoom ts_fs set_fs m.

Inductive tevent :=
  | Elookup (d : Z) (name : cstring)
  | Ecreate (d : Z) (name : cstring) (type : Z)
  | Eunlink (d : Z) (name : cstring)
  | Eput (k : nat)
  | Ewrite (k : nat) (off : Z) (src : list Z)
  | Etruncate (k : nat)
  | Eother (e : ievent).

(** The [k]-th reference, by its slot. *)
Definition with_ref (k : nat) (m : Z → cinode → K tsys unit) : K tsys unit := λ c,
  match ts_refs c !! k with Some v => (x ← on_fs (get_vi v); m v x) c | None => Ret (tt, c) end.

Definition tmpfs_step (e : tevent) : K tsys unit :=
  match e with
  | Elookup d name =>
      r ← on_fs (tmpfs_vfs_lookup (Some d) name);
      match r with Some v => modify (λ c, set_refs (ts_refs c ++ [v]) c) | None => mret tt end
  | Ecreate d name type => on_fs (tmpfs_vfs_create (Some d) (Some name) type) ;; mret tt
  | Eunlink d name => on_fs (tmpfs_vfs_unlink (Some d) (Some name)) ;; mret tt
  | Eput k => with_ref k (λ v x, on_fs (tmpfs_destroy_inode root_dir root_inode v) ;; modify (λ c, set_refs (delete k (ts_refs c)) c))
  | Ewrite k off src => with_ref k (λ v x,
      on_fs (on_file v (private_data x) (tmpfs_vfs_write 1 1 (private_data x) 1 off (Z.of_nat (length src)) src)) ;; mret tt)
  | Etruncate k => with_ref k (λ v x,
      on_fs (vfs_ilock (Some v) ;; on_file v (private_data x) (tmpfs_vfs_truncate 1 (private_data x) 0) ;; vfs_iunlock (Some v)) ;; mret tt)
  | Eother e => λ c,
      match icache_step own e (mk_istate (t_ic (ts_fs c)) (ts_refs c)) with
      | Ret (_, i) => Ret (tt, mk_tsys (set_t_ic (ic i) (ts_fs c)) (irefs i))
      | Panic w => Panic w
      | Fault => Fault
      | NoFuel => NoFuel
      end
  end.

Definition tslot_of (c : tsys) (v : Z) : option cinode := slots (ts_fs c) !! Z.to_nat v.
Definition refs_small (c : tsys) : Prop := Z.of_nat (length (ts_refs c)) < 2 ^ 32 - 1.
(** A reference to a file of tmpfs, or of another file system. *)
Definition tmpfs_ref (c : tsys) (k : nat) : Prop := ∃ v x, ts_refs c !! k = Some v ∧ tslot_of c v = Some x ∧ i_dev x = TMPFS_DEV.
Definition other_ref (c : tsys) (k : nat) : Prop := ∃ v x, ts_refs c !! k = Some v ∧ tslot_of c v = Some x ∧ i_dev x ≠ TMPFS_DEV.
Definition is_dir (c : tsys) (d : Z) : Prop := handle (ts_fs c) (ts_refs c) d ∧ vtype (fields (ts_fs c)) d = VFS_DIR.

(** What the callers keep: directories and references they hold, names that are
    not empty, types of one byte, and the limits of the counters. *)
Definition tmpfs_enabled (e : tevent) (c : tsys) : Prop :=
  match e with
  | Elookup d name => is_dir c d ∧ refs_small c
  | Ecreate d name type => is_dir c d ∧ refs_small c ∧ name ≠ [] ∧ 0 ≤ type < 256 ∧ next_ino (ts_fs c) + 1 < 2 ^ 32 ∧
      ∀ x ip, get_vi d (ts_fs c) = Ret (x, ts_fs c) → inos (ts_fs c) !! private_data x = Some ip → ti_nlinks ip + 1 < 2 ^ 16
  | Eunlink d name => is_dir c d ∧ name ≠ []
  | Eput k | Etruncate k => tmpfs_ref c k
  | Ewrite k off src => tmpfs_ref c k ∧ 0 ≤ off ∧ Forall byte_ok src ∧ off + Z.of_nat (length src) ≤ TMPFS_LIMIT
  | Eother (Iget dev ino) => dev ≠ TMPFS_DEV ∧ ino ≠ 0 ∧ refs_small c
  | Eother e => match e with Iget _ _ => False | Iput k | Iset k _ _ => other_ref c k end ∧
      icache_enabled own e (mk_istate (t_ic (ts_fs c)) (ts_refs c))
  end.

(** Boot: the inode cache and tmpfs are initialised. *)
Definition tmpfs_boot : K st unit := on_cache icache_init ;; tmpfs_init root_dir root_inode.
Record tmpfs_cold (all : list Z) (s : st) : Prop := {
  co_static : statics;
  co_cache : icache_cold all (t_ic s);
  co_mem : heap_of s = ∅ ∧ inos s = ∅ ∧ dents s = ∅ ∧ next_ino s = TMPFS_ROOT_INO + 1;
  co_objs : obj_ok (objs s) ∧ ∀ a, ¬ obj_live (objs s) a;
  co_locks : locks s = ∅ ∧ tmpfs_inited (t_mnt s) = false
}.

Inductive tmpfs_reach (s0 : st) : tsys → Prop :=
  | tmpfs_booted s : tmpfs_boot s0 = Ret (tt, s) → tmpfs_reach s0 (mk_tsys s [])
  | tmpfs_next c e c' : tmpfs_reach s0 c → tmpfs_enabled e c → tmpfs_step e c = Ret (tt, c') → tmpfs_reach s0 c'.

Abbreviation sys_inv c := (tmpfs_inv ∅ (ts_fs c) (ts_refs c)).

Lemma tboot_run all s : tmpfs_cold all s → ∃ s', tmpfs_boot s = Ret (tt, s') ∧ tmpfs_inv ∅ s' [].
Proof.
  intros [Hs (Hz & Hd & Hp) (M1 & M2 & M3 & M4) [Ho1 Ho2] [Hlk Hin] ].
  destruct (@icache_init_run P (framed (hpages (∅ : gmap Z block))) own all (t_ic s)) as (c & Hc & HI).
  { split_and!; [done|done|]. split_and!; [done| |]; intros p; rewrite ?lookup_empty; [intros _|]; by intros [? ?]. }
  unfold tmpfs_boot. rewrite (bind_Ret _ _ _ _ _ (tcache_run _ s _ _ Hc)).
  eexists. split.
  { unfold tmpfs_init. rewrite (bind_Ret (gets _) _ _ false _) by (unfold gets; simpl; by rewrite Hin). done. }
  assert (Hcz : ∀ i x, inodes c !! i = Some x → i_count x = 0).
  { intros i x Hx. rewrite (iv_count _ _ _ HI i x Hx). done. }
  destruct Hs as [[Hn1 Hn2] Hsd Hsi Hsn Hso].
  split; cbn; rewrite ?M1, ?M2, ?M3, ?M4; try done.
  - exists (λ _, []). split; try done.
    + by rewrite lookup_insert_eq.
    + intros d e [[<- <-]|[_ ?] ]%lookup_insert_Some; [done|by rewrite lookup_empty in *].
    + intros d Hd'. apply lookup_insert_is_Some' in Hd' as [<-|[? Hx] ]; [constructor|by rewrite lookup_empty in Hx].
    + intros d p q _ _ []%not_elem_of_nil.
    + intros p _ []%not_elem_of_nil.
    + intros d e [[<- <-]|[_ ?] ]%lookup_insert_Some; [done|by rewrite lookup_empty in *].
    + intros d e [[<- <-]|[_ ?] ]%lookup_insert_Some; [|by rewrite lookup_empty in *]. eexists. cbn. rewrite lookup_insert_eq. split_and!; try done. by rewrite decide_True.
  - apply files_add; [|by rewrite lookup_empty|done|done]. split; [intros a ip Ha|intros a b ip ip' p Ha|intros p [? Hx] ]; by rewrite lookup_empty in *.
  - split; [| |done].
    + intros a ip [[<- <-]|[_ ?] ]%lookup_insert_Some; [done|by rewrite lookup_empty in *].
    + intros a b ip ip' [[<- <-]|[_ ?] ]%lookup_insert_Some [[<- <-]|[_ ?] ]%lookup_insert_Some; try done; by rewrite lookup_empty in *.
  - split.
    + intros i x Hx _ Hc0. rewrite (Hcz i x Hx) in Hc0. done.
    + intros a ip [[<- <-]|[_ ?] ]%lookup_insert_Some; [|by rewrite lookup_empty in *]. left. unfold in_tree. simpl. by rewrite lookup_insert_eq.
  - split; [done| |].
    + intros a. split; [intros Ha; by apply Ho2 in Ha|]. rewrite !lookup_insert_is_Some', !lookup_empty. intros [[[<-|[? ?] ] ?]|[[<-|[? ?] ] ?] ]; done.
    + intros a. rewrite !lookup_insert_is_Some', !lookup_empty. intros [<-|[? ?] ] [?|[? ?] ]; congruence.
  - by exists all.
  - split; [done|]. unfold vtype. by rewrite lookup_insert_eq.
  - rewrite Hlk. set_solver.
Qed.

Lemma on_fs_run {A} (m : K st A) c x s : m (ts_fs c) = Ret (x, s) → on_fs m c = Ret (x, mk_tsys s (ts_refs c)).
Proof. intros Hm. unfold on_fs, zoom. by rewrite Hm. Qed.

(** Changes of slots of the other file systems. *)
Lemma other_slot held s refs all i x x' hl pg refs' :
  tmpfs_inv held s refs → cache_inv (heap_of s) all (mk_istate (iput (t_ic s) i x' hl pg) refs') → slots s !! Z.to_nat i = Some x →
  i_dev x' ≠ TMPFS_DEV → (i_count x = 0 ∨ i_dev x ≠ TMPFS_DEV) → tmpfs_inv held (set_t_ic (iput (t_ic s) i x' hl pg) s) refs'.
Proof.
  intros HI Hc Hx Hd Hold. split; try apply HI; [|by exists all]. cbn. apply (open_update _ _ (next_ino s) _ _ _ x); [apply HI|apply HI|done|done|].
  intros Hdx Hcx. destruct Hold as [?|?]; [lia|done].
Qed.

Lemma other_step c e : sys_inv c → tmpfs_enabled (Eother e) c → ∃ c', tmpfs_step (Eother e) c = Ret (tt, c') ∧ sys_inv c'.
Proof.
  intros HI He. destruct (tv_cache _ _ _ HI) as [all Hc]. set (ci := mk_istate (t_ic (ts_fs c)) (ts_refs c)) in *. unfold tmpfs_step.
  destruct e as [dev ino|k|k nl pd]; simpl in He.
  - destruct He as (Hd & Hino & Hlen).
    destruct (@get_inode_run P (framed _) own all ci dev ino Hc Hino Hlen) as (r & c' & Hg & Hp). rewrite get_inode_framed in Hg. unfold icache_step.
    rewrite (bind_Ret _ _ _ _ _ (on_ic_run _ ci _ _ Hg)). destruct r as [i|]; simpl.
    + destruct Hp as (Hc' & Hi & x & x' & Hx & Hs' & Hdx & _ & _ & Hold). eexists. split; [done|]. rewrite Hs' in *.
      eapply (other_slot _ _ _ all i x); [done|exact Hc'|done|congruence|]. destruct Hold as [?|[? _] ]; [by left|right; congruence].
    + destruct Hp as [-> _]. eexists. split; [done|]. by destruct c as [[] ?].
  - destruct He as [(v & x & Hk & Hx & Hd) (i & y & Hi & Hy & Hen)]. simpl in Hi. assert (i = v) as -> by congruence.
    assert (y = x) as -> by (unfold slot_of in Hy; unfold tslot_of in Hx; simpl in Hy; congruence). unfold tslot_of in Hx.
    destruct (@put_inode_run P (framed _) own all ci k v x Hc Hk Hx Hen) as (x' & hl & pg & Hr & Hdr & HI'). rewrite put_inode_framed in Hr.
    unfold icache_step. cbn [irefs ci]. rewrite Hk. rewrite (bind_Ret _ _ ci x ci) by (rewrite (on_ic_run _ ci _ _ (get_ci_run _ v x Hx)); done).
    rewrite (bind_Ret _ _ _ _ _ (on_ic_run _ ci _ _ Hr)). unfold modify. simpl. eexists. split; [done|].
    eapply (other_slot _ _ _ all v x); [done|exact HI'|done| |by right]. destruct Hdr as (-> & _). done.
  - destruct He as [(v & x & Hk & Hx & Hd) (i & y & Hi & Hy & Hen)]. simpl in Hi. assert (i = v) as -> by congruence.
    assert (y = x) as -> by (unfold slot_of in Hy; unfold tslot_of in Hx; simpl in Hy; congruence). unfold tslot_of in Hx.
    pose proof (@set_slot_inv P (framed _) own all ci k v x nl pd Hc Hk Hx Hen) as HI'.
    unfold icache_step. cbn [irefs ci]. rewrite Hk.
    rewrite (on_ic_run _ ci tt (iput (ic ci) v (mk_cinode (i_dev x) (i_ino x) (i_count x) nl pd (pd_owned x)) (ilinks (ic ci)) (ipages (ic ci)))) by
      (rewrite (bind_Ret _ _ _ _ _ (get_ci_run (ic ci) v x Hx)); done).
    eexists. split; [done|]. eapply (other_slot _ _ _ all v x); [done|exact HI'|done|done|by right].
Qed.

(** Every call that is allowed returns and keeps the invariant. *)
Lemma tmpfs_step_ok c e : sys_inv c → tmpfs_enabled e c → ∃ c', tmpfs_step e c = Ret (tt, c') ∧ sys_inv c'.
Proof.
  intros HI He. destruct e as [d name|d name type|d name|k|k off src|k|e]; [| | | | | |by apply other_step]; unfold tmpfs_step.
  - destruct He as [[Hh Hty] Hlen]. destruct (tlookup_run ∅ _ _ d name HI Hh ltac:(set_solver) Hlen Hty) as (l & r & s' & _ & Hr & Hp).
    rewrite (bind_Ret _ _ _ _ _ (on_fs_run _ c _ _ Hr)). destruct r as [v|].
    + eexists. split; [done|]. apply Hp.
    + destruct Hp as [-> _]. eexists. split; [done|]. done.
  - destruct He as ([Hh Hty] & Hlen & Hnm & Ht & Hn & Hl).
    destruct (create_run ∅ _ _ d name type HI Hh ltac:(set_solver) Hty Hnm Ht Hlen Hn Hl) as (l & r & s' & _ & Hr & HI' & _).
    rewrite (bind_Ret _ _ _ _ _ (on_fs_run _ c _ _ Hr)). eexists. split; [done|]. done.
  - destruct He as [[Hh Hty] Hnm]. destruct (tunlink_run ∅ _ _ d name HI Hh ltac:(set_solver) Hty Hnm) as (l & r & s' & _ & Hr & HI' & _).
    rewrite (bind_Ret _ _ _ _ _ (on_fs_run _ c _ _ Hr)). eexists. split; [done|]. done.
  - destruct He as (v & x & Hk & Hx & Hd). unfold tslot_of in Hx.
    assert (Hh : handle (ts_fs c) (ts_refs c) v) by (right; split; [by eapply list_elem_of_lookup_2|by exists x]).
    destruct (handle_run _ _ _ _ HI Hh) as (y & ip & Hg & _). unfold with_ref. rewrite Hk.
    rewrite (bind_Ret _ _ _ _ _ (on_fs_run _ c _ _ Hg)). destruct (destroy_run ∅ _ _ k v x HI Hk Hx Hd) as (s' & Hr & HI' & _).
    assert (mk_tsys (ts_fs c) (ts_refs c) = c) as -> by (by destruct c).
    rewrite (bind_Ret _ _ _ _ _ (on_fs_run _ c _ _ Hr)). eexists. split; [done|]. done.
  - destruct He as ((v & x & Hk & Hx & Hd) & Ho & Hby & Hlim). unfold tslot_of in Hx.
    assert (Hh : handle (ts_fs c) (ts_refs c) v) by (right; split; [by eapply list_elem_of_lookup_2|by exists x]).
    destruct (handle_run _ _ _ _ HI Hh) as (y & ip & Hg & _ & _ & Hip & _). unfold with_ref. rewrite Hk.
    rewrite (bind_Ret _ _ _ _ _ (on_fs_run _ c _ _ Hg)). assert (mk_tsys (ts_fs c) (ts_refs c) = c) as -> by (by destruct c).
    destruct (write_file_run ∅ _ _ v _ ip 1 1 1 off src HI Hip ltac:(set_solver) ltac:(done) ltac:(done) ltac:(done) Ho Hby Hlim) as (r & s' & Hr & HI' & _).
    rewrite (bind_Ret _ _ _ _ _ (on_fs_run _ c _ _ Hr)). eexists. split; [done|]. done.
  - destruct He as (v & x & Hk & Hx & Hd). unfold tslot_of in Hx.
    assert (Hh : handle (ts_fs c) (ts_refs c) v) by (right; split; [by eapply list_elem_of_lookup_2|by exists x]).
    destruct (handle_run _ _ _ _ HI Hh) as (y & ip & Hg & _ & _ & Hip & _). unfold with_ref. rewrite Hk.
    rewrite (bind_Ret _ _ _ _ _ (on_fs_run _ c _ _ Hg)). assert (mk_tsys (ts_fs c) (ts_refs c) = c) as -> by (by destruct c).
    set (s1 := with_locks ({[v]} ∪ ∅) (ts_fs c)). pose proof (with_locks_inv ∅ ({[v]} ∪ ∅) _ _ HI) as HI1. fold s1 in HI1.
    destruct (truncate_file_run ({[v]} ∪ ∅) s1 _ v _ ip 1 HI1 Hip ltac:(done)) as (s' & Hr & HI' & Hsl & _).
    assert (Hh' : handle s' (ts_refs c) v) by (right; split; [by eapply list_elem_of_lookup_2|]; rewrite Hsl; by exists x).
    assert (Hrun : (vfs_ilock (Some v) ;; on_file v (private_data y) (tmpfs_vfs_truncate 1 (private_data y) 0) ;; vfs_iunlock (Some v)) (ts_fs c) = Ret (tt, with_locks ∅ s')).
    { rewrite (bind_Ret _ _ _ _ _ (vlock_run ∅ _ _ v HI Hh ltac:(set_solver))). fold s1. rewrite (bind_Ret _ _ _ _ _ Hr).
      by apply (vunlock_run ∅ s' (ts_refs c)); [..|set_solver]. }
    rewrite (bind_Ret _ _ _ _ _ (on_fs_run _ c _ _ Hrun)). eexists. split; [done|]. by eapply with_locks_inv.
Qed.
Lemma tmpfs_reach_inv all s0 c : tmpfs_cold all s0 → tmpfs_reach s0 c → sys_inv c.
Proof.
  intros Hc. induction 1 as [s Hb|c e c' _ IH He Hs].
  - destruct (tboot_run all s0 Hc) as (s' & Hr & HI). rewrite Hb in Hr. by injection Hr as <-.
  - destruct (tmpfs_step_ok c e IH He) as (c2 & Hs2 & HI). rewrite Hs in Hs2. by injection Hs2 as <-.
Qed.

(** * Theorems *)

(** C11: In every state that the calls on tmpfs and the inode cache reach from
    boot: every allowed call returns; a slot in use refers to the live inode
    of its number; every inode is in the tree or open without links and every
    entry is reachable from the root; the kmalloc objects are exactly the
    entries and the inodes; every page belongs to exactly one inode. *)
Theorem tmpfs_safe all s0 c :
  tmpfs_cold all s0 → tmpfs_reach s0 c →
  let s := ts_fs c in
  (∀ e, tmpfs_enabled e c → ∃ c', tmpfs_step e c = Ret (tt, c')) ∧
  (∀ v x, v ∈ ts_refs c → slots s !! Z.to_nat v = Some x → i_dev x = TMPFS_DEV →
     ∃ ip, inos s !! private_data x = Some ip ∧ ti_ino ip = i_ino x) ∧
  (∀ a ip, inos s !! a = Some ip → in_tree (dents s) a ip ∨ ti_nlinks ip = 0 ∧ opened (slots s) (ti_ino ip)) ∧
  (∃ kids, (∀ d e, dents s !! d = Some e → chain (dents s) (td_child e) (kids d)) ∧
     ∀ d, is_Some (dents s !! d) → rtc (kid_of (dents s) kids) root_dir d) ∧
  (∀ a, obj_live (objs s) a ↔ (is_Some (dents s !! a) ∧ a ≠ root_dir) ∨ (is_Some (inos s !! a) ∧ a ≠ root_inode)) ∧
  (∀ p, is_Some (heap_of s !! p) → ∃ a ip, inos s !! a = Some ip ∧ towns (heap_of s) ip p ∧
     ∀ b ipb, inos s !! b = Some ipb → towns (heap_of s) ipb p → b = a).
Proof.
  intros Hc Hr s. pose proof (tmpfs_reach_inv all s0 c Hc Hr) as HI. split_and!.
  - intros e He. destruct (tmpfs_step_ok c e HI He) as (c' & ? & _). by exists c'.
  - intros v x Hv Hx Hd. destruct (ref_slot _ _ _ v HI Hv) as (_ & y & Hy & Hcx & _). assert (y = x) as -> by (unfold s in Hx; congruence).
    destruct (op_slot _ _ _ _ (tv_open _ _ _ HI) _ _ Hx Hd Hcx) as (ip & Hip & Hi & _). by exists ip.
  - intros a ip Ha. destruct (op_orphan _ _ _ _ (tv_open _ _ _ HI) a ip Ha) as [?|(? & _ & ?)]; [by left|by right].
  - destruct (tv_tree _ _ _ HI) as [kids Ht]. exists kids. split; apply Ht.
  - apply HI.
  - intros p Hp. destruct (fo_dom _ _ (tv_files _ _ _ HI) p Hp) as (a & ip & Ha & Ho). exists a, ip. split_and!; [done|done|].
    intros b ipb Hb Hob. by eapply (fo_disj _ _ (tv_files _ _ _ HI)).
Qed.

(** C36: tmpfs_vfs_create of a name shorter than DIRSIZ puts a new entry with
    an empty inode at the head of the directory; the entry of the directory
    gets it as first child and the inode of the directory one more link if the
    new one is a directory, and every other entry, inode and page is as it
    was; or it returns -1 and changes nothing. A file that was created is
    found by its name as soon as the inode cache has room. *)
Theorem tmpfs_create_lookup all s0 c d name type :
  tmpfs_cold all s0 → tmpfs_reach s0 c → tmpfs_enabled (Ecreate d name type) c → Z.of_nat (length name) < DIRSIZ →
  let s := ts_fs c in
  ∃ l r s', entries s d l ∧ tmpfs_vfs_create (Some d) (Some name) type s = Ret (r, s') ∧
    (r = -1 ∧ dents s' = dents s ∧ inos s' = inos s ∧ heap_of s' = heap_of s ∨
     r = 0 ∧ ∃ de, created s s' d l name type de ∧
       ((∃ i x, slots s' !! i = Some x ∧ i_count x = 0) →
        ∃ v s2, tmpfs_vfs_lookup (Some d) name s' = Ret (Some v, s2) ∧ refers s' s2 v de)).
Proof.
  intros Hc Hr ([Hh Hty] & Hlen & Hnm & Ht & Hn & Hl) Hlt s. pose proof (tmpfs_reach_inv all s0 c Hc Hr) as HI.
  destruct (create_run ∅ _ _ d name type HI Hh ltac:(set_solver) Hty Hnm Ht Hlen Hn Hl) as (l & r & s' & He & Hrun & HI' & Hhs & Hp).
  exists l, r, s'. split_and!; [done|done|]. destruct Hp as [(-> & (de & Hcr) & _)|Hp]; [right|by left]. split; [done|]. exists de. split; [done|].
  intros (i & x & Hx & Hx0). assert (Hty' : vtype (fields s') d = VFS_DIR) by (by rewrite (cr_fields _ _ _ _ _ _ _ Hcr)). destruct (tlookup_run ∅ s' _ d name HI' (Hhs d Hh) ltac:(set_solver) Hlen Hty') as (l' & v & s2 & He' & Hlk & Hpost).
  assert (l' = de :: l) as ->.
  { destruct He' as (x1 & ip1 & e1 & Hg1 & Hi1 & Hd1 & Hc1), (cr_entries _ _ _ _ _ _ _ Hcr) as (x2 & ip2 & e2 & Hg2 & Hi2 & Hd2 & Hc2).
    rewrite Hg1 in Hg2. injection Hg2 as <-. simplify_eq. by eapply chain_unique. }
  assert (Hde : name_eq name (name_of (dents s') de) = true).
  { rewrite (cr_name _ _ _ _ _ _ _ Hcr). rewrite take_ge by (unfold DIRSIZ in *; lia). by apply bool_decide_eq_true. }
  destruct v as [v|].
  - exists v, s2. split; [done|]. destruct Hpost as (_ & _ & _ & l1 & b & l2 & Hl1 & Hrf & Hb & Hbef). destruct l1 as [|z l1]; simpl in Hl1; injection Hl1 as Hz Hl1.
    + by subst b.
    + subst z. rewrite Hbef in Hde by (by left). done.
  - destruct Hpost as [_ [Hno|Hfull] ]; [rewrite Hno in Hde by (by left); done|]. by apply Hfull in Hx.
Qed.

(** C37: tmpfs_vfs_unlink takes the first entry with the name out of the
    directory; the inode stays with all its pages while somebody has the file
    open and is freed with exactly its pages otherwise; without such an entry,
    or when it is a directory, the call returns -1 and changes nothing. *)
Theorem tmpfs_unlink_spec all s0 c d name :
  tmpfs_cold all s0 → tmpfs_reach s0 c → tmpfs_enabled (Eunlink d name) c →
  let s := ts_fs c in
  ∃ l r s', entries s d l ∧ tmpfs_vfs_unlink (Some d) (Some name) s = Ret (r, s') ∧
    (r = 0 ∧ unlinks s s' d name l ∨
     r = -1 ∧ s' = s ∧ ∀ l1 b l2 e, l = l1 ++ b :: l2 → dents s !! b = Some e → name_eq name (td_name e) = true →
       (∀ z, z ∈ l1 → name_eq name (name_of (dents s) z) = false) → td_type e = VFS_DIR).
Proof.
  intros Hc Hr [[Hh Hty] Hnm] s. pose proof (tmpfs_reach_inv all s0 c Hc Hr) as HI.
  destruct (tunlink_run ∅ _ _ d name HI Hh ltac:(set_solver) Hty Hnm) as (l & r & s' & He & Hrun & _ & _ & Hp). by exists l, r, s'.
Qed.

(** Releasing a reference frees the inode and exactly its pages when it was the
    last one of a file without links, and keeps every inode and page otherwise. *)
Theorem tmpfs_destroy_spec all s0 c k v x :
  tmpfs_cold all s0 → tmpfs_reach s0 c → ts_refs c !! k = Some v → slots (ts_fs c) !! Z.to_nat v = Some x → i_dev x = TMPFS_DEV →
  let s := ts_fs c in
  ∃ s', tmpfs_destroy_inode root_dir root_inode v s = Ret (tt, s') ∧ dents s' = dents s ∧
    (if decide (i_count x = 1 ∧ i_nlinks x = 0)
     then ∃ ip, inos s !! private_data x = Some ip ∧ inos s' = delete (private_data x) (inos s) ∧
            ∀ p, is_Some (heap_of s' !! p) ↔ is_Some (heap_of s !! p) ∧ ¬ towns (heap_of s) ip p
     else inos s' = inos s ∧ heap_of s' = heap_of s).
Proof.
  intros Hc Hr Hk Hx Hd s. pose proof (tmpfs_reach_inv all s0 c Hc Hr) as HI.
  destruct (destroy_run ∅ _ _ k v x HI Hk Hx Hd) as (s' & Hrun & _ & Hde & Hp). exists s'. split_and!; [done|done|].
  case_decide; [done|]. rewrite Hp. done.
Qed.

(** ** Reading a directory *)

Lemma seek_run (s : st) l : ∀ fuel a k off,
  chain (dents s) a l → (length l < fuel)%nat → 0 ≤ k → (Z.of_nat (length l) + k) * SIZEOF_TMPFS_DIRENT < 2 ^ 31 →
  off mod SIZEOF_TMPFS_DIRENT = 0 →
  seek_entry fuel a (k * SIZEOF_TMPFS_DIRENT) off s = Ret (default 0 (l !! Z.to_nat (off / SIZEOF_TMPFS_DIRENT - k)), s).
Proof.
  unfold SIZEOF_TMPFS_DIRENT. induction l as [|b l IH]; intros fuel a k off Hc Hf Hk Hlim Hoff; (destruct fuel as [|fuel]; [simpl in Hf; lia|]); simpl in Hc, Hf, Hlim; simpl.
  - subst a. rewrite decide_False by tauto. done.
  - destruct Hc as (-> & Hn & e & He & Hc). case_decide as Hd.
    + rewrite (bind_Ret _ _ _ _ _ (get_de_run s b e He)), decide_False by (unfold SIZEOF_TMPFS_DIRENT; lia).
      replace (k * 56 + SIZEOF_TMPFS_DIRENT) with ((k + 1) * 56) by (unfold SIZEOF_TMPFS_DIRENT; lia).
      rewrite (IH fuel (td_next e) (k + 1) off) by (done || lia). do 3 f_equal.
      replace (Z.to_nat (off / 56 - k)) with (S (Z.to_nat (off / 56 - (k + 1)))) by (pose proof (Z.div_mod off 56); lia). done.
    + assert (off / 56 - k ≤ 0) by (pose proof (Z.div_mod off 56); lia). replace (Z.to_nat (off / 56 - k)) with 0%nat by lia. done.
Qed.

(** tmpfs_vfs_readdir returns the entries of the directory one by one: at the
    offset of the [k]-th entry its inode number, type and name, and 0 behind
    the last one; the state stays as it is. *)
Theorem tmpfs_readdir_spec all s0 c d k f dirent :
  tmpfs_cold all s0 → tmpfs_reach s0 c → is_dir c d → f ≠ 0 → dirent ≠ 0 →
  let s := ts_fs c in
  ∃ l, entries s d l ∧ ((Z.of_nat (length l)) * SIZEOF_TMPFS_DIRENT < 2 ^ 31 → Z.of_nat k * SIZEOF_TMPFS_DIRENT < 2 ^ 63 →
    match l !! k with
    | None => tmpfs_vfs_readdir f FILE_VFS_NODE (Z.of_nat k * SIZEOF_TMPFS_DIRENT) (Some d) dirent s =
        Ret (0, None, Z.of_nat k * SIZEOF_TMPFS_DIRENT, s)
    | Some b => ∃ e ip, dents s !! b = Some e ∧ inos s !! td_inode e = Some ip ∧
        tmpfs_vfs_readdir f FILE_VFS_NODE (Z.of_nat k * SIZEOF_TMPFS_DIRENT) (Some d) dirent s =
        Ret (1, Some (ti_ino ip, ti_type ip, td_name e), Z.of_nat (S k) * SIZEOF_TMPFS_DIRENT, s)
    end).
Proof.
  intros Hc Hr [Hh Hty] Hf0 Hd0 s. pose proof (tmpfs_reach_inv all s0 c Hc Hr) as HI. fold s in HI, Hh, Hty.
  destruct (dir_entries _ _ _ _ HI Hh Hty) as (x & pip & pd & kids & Hg & _ & Hn & Hip & He & Hti & Hdt & Ht & Hent).
  pose proof (tr_chain _ _ _ Ht _ _ He) as Hch. exists (kids (ti_dir pip)). split; [done|]. intros Hlim Hk. set (l := kids (ti_dir pip)) in *.
  set (off := Z.of_nat k * SIZEOF_TMPFS_DIRENT). set (s1 := with_locks {[d]} s).
  assert (Hback : v_release d s1 = Ret (tt, s)).
  { unfold v_release, modify. do 2 f_equal. transitivity (with_locks ∅ s1); [|by apply (with_locks_id s ∅), HI].
    unfold with_locks. do 2 f_equal. simpl. set_solver. }
  assert (Hacq : v_acquire d s = Ret (tt, s1)).
  { unfold v_acquire. rewrite (tv_locks _ _ _ HI), decide_False by set_solver. by replace ({[d]} ∪ ∅ : gset Z) with ({[d]} : gset Z) by set_solver. }
  assert (Hseek : seek_entry (dir_fuel s1) (td_child pd) 0 off s1 = Ret (default 0 (l !! k), s1)).
  { pose proof (seek_run s1 l (dir_fuel s1) (td_child pd) 0 off Hch (find_fuel_enough s1 _ _ Hch) ltac:(lia) ltac:(lia)) as Hs.
    rewrite Z.mul_0_l in Hs. rewrite Hs by (apply Z.mod_mul; done). do 3 f_equal. unfold off. rewrite Z.div_mul by done. f_equal. lia. }
  assert (Hrun : ∀ r, (de ← seek_entry (dir_fuel s1) (td_child pd) 0 off;
      if decide (de = 0) then v_release d ;; mret (0, None, off) else
      e ← get_de de; ip ← get_ino (td_inode e); v_release d ;;
      mret (1, Some (ti_ino ip, ti_type ip, td_name e), u64 (off + SIZEOF_TMPFS_DIRENT))) s1 = Ret r →
    (l = [] → r = (0, None, off, s)) → tmpfs_vfs_readdir f FILE_VFS_NODE off (Some d) dirent s = Ret r).
  { intros r Hrr Hnil. unfold tmpfs_vfs_readdir, get_vf. rewrite decide_False by tauto. rewrite (bind_Ret (gets _) _ _ _ s) by done. unfold vtype in Hty.
    rewrite decide_False by naive_solver. rewrite (bind_Ret _ _ _ _ _ Hg), decide_False by done. rewrite (bind_Ret _ _ _ _ _ (get_ino_run s _ _ Hip)).
    rewrite (bind_Ret _ _ _ _ _ Hacq), (bind_Ret _ _ _ _ _ (get_de_run s1 _ _ He)). destruct l as [|z l].
    - simpl in Hch. rewrite Hch, decide_True by done. rewrite (bind_Ret _ _ _ _ _ Hback). by rewrite Hnil.
    - destruct Hch as (Hz & Hz0 & _). rewrite decide_False by congruence. rewrite (bind_Ret (gets dir_fuel) _ _ _ s1) by done. exact Hrr. }
  destruct (l !! k) as [b|] eqn:Elk.
  - destruct (chain_elem _ _ _ _ Hch (list_elem_of_lookup_2 _ _ _ Elk)) as [Hb0 [e Heb] ]. destruct (tr_ino _ _ _ Ht _ _ Heb) as (ip & Hipb & _).
    exists e, ip. split_and!; [done|done|]. apply Hrun; [|intros Hl; by rewrite Hl in Elk]. rewrite (bind_Ret _ _ _ _ _ Hseek). simpl. rewrite decide_False by done.
    rewrite (bind_Ret _ _ _ _ _ (get_de_run s1 _ _ Heb)), (bind_Ret _ _ _ _ _ (get_ino_run s1 _ _ Hipb)), (bind_Ret _ _ _ _ _ Hback).
    rewrite u64_small by (unfold off, SIZEOF_TMPFS_DIRENT in *; lia). replace (off + SIZEOF_TMPFS_DIRENT) with (Z.of_nat (S k) * SIZEOF_TMPFS_DIRENT) by (unfold off, SIZEOF_TMPFS_DIRENT; lia). done.
  - apply Hrun; [|done]. rewrite (bind_Ret _ _ _ _ _ Hseek). simpl. by rewrite (bind_Ret _ _ _ _ _ Hback).
Qed.
End tree.

(** * Witnesses *)

#[local] Existing Instance demo_image.

(** Objects at increasing addresses from 1000. *)
Record bump := mk_bump { bp_next : Z; bp_live : gset Z }.
Definition bump_objects : ObjAllocator bump.
Proof.
  refine {| obj_alloc _ := λ h, Ret (bp_next h, mk_bump (bp_next h + 8) ({[bp_next h]} ∪ bp_live h));
            obj_free a := λ h, Ret (tt, mk_bump (bp_next h) (bp_live h ∖ {[a]}));
            obj_ok h := 1000 ≤ bp_next h ∧ ∀ a, a ∈ bp_live h → 1000 ≤ a < bp_next h;
            obj_live h a := a ∈ bp_live h; is_obj a := 1000 ≤ a |}.
  - lia.
  - intros h a [_ Hl] Ha. by apply Hl.
  - intros h n [Hn Hl] _. eexists _, _. split; [done|]. simpl. split.
    + split; [lia|]. intros a [->%elem_of_singleton|Ha]%elem_of_union; [lia|]. pose proof (Hl a Ha). lia.
    + right. split_and!; [lia|lia| |set_solver]. intros Ha. pose proof (Hl _ Ha). lia.
  - intros h a [Hn Hl] Ha. eexists. split; [done|]. simpl. split; [|set_solver]. split; [done|]. intros b [Hb _]%elem_of_difference. by apply Hl.
Defined.
#[local] Existing Instance bump_objects.

(** The root entry at 100, the root inode at 200. *)
Definition demo_tcold : tfs kmem bump :=
  mk_tfs (demo_icold demo_kmem) (mk_tmem ∅ ∅ ∅ (mk_bump 1000 ∅) 2) (mk_vnodes (mk_cinode 0 0 0 0 0 0) ∅ ∅) (mk_tmount false false None).
Definition run_or {S} (m : K S unit) (s : S) : S := match m s with Ret (_, s') => s' | _ => s end.
Definition demo_tbooted : tsys := mk_tsys (run_or (tmpfs_boot 100 200) demo_tcold) [].

Lemma demo_tcold_ok : tmpfs_cold 100 200 demo_own [demo_page 2; demo_page 1] demo_tcold.
Proof.
  split.
  - split; try done; simpl; lia.
  - exact demo_icold_ok.
  - done.
  - split; [split; [done|]; simpl; intros a Ha; set_solver|]. simpl. intros a Ha. set_solver.
  - done.
Qed.
Lemma demo_tboot_reach : tmpfs_reach 100 200 demo_own demo_tcold demo_tbooted.
Proof.
  apply tmpfs_booted. unfold demo_tbooted, run_or. destruct (tboot_run 100 200 demo_own _ _ demo_tcold_ok) as (s & Hs & _). by rewrite Hs.
Qed.

(** A file "a" in the root, and a reference to it. *)
Definition demo_tstep (e : tevent) (c : tsys) : tsys := run_or (tmpfs_step 100 200 demo_own e) c.
Definition demo_made : tsys := demo_tstep (Ecreate TMP_ROOT [97] VFS_FILE) demo_tbooted.
Definition demo_opened : tsys := demo_tstep (Elookup TMP_ROOT [97]) demo_made.

Lemma demo_next c e : tmpfs_reach 100 200 demo_own demo_tcold c → tmpfs_enabled demo_own e c → tmpfs_reach 100 200 demo_own demo_tcold (demo_tstep e c).
Proof.
  intros Hr He. eapply (tmpfs_next _ _ _ _ c e); [done|done|]. unfold demo_tstep, run_or.
  destruct (tmpfs_step_ok 100 200 demo_own c e (tmpfs_reach_inv _ _ _ _ _ _ demo_tcold_ok Hr) He) as (c' & Hs & _). by rewrite Hs.
Qed.
Lemma root_vi (s : tfs kmem bump) x : get_vi TMP_ROOT s = Ret (x, s) → x = vn_root (t_vn s).
Proof. by intros [= <-]. Qed.
Lemma demo_create_enabled : tmpfs_enabled demo_own (Ecreate TMP_ROOT [97] VFS_FILE) demo_tbooted.
Proof.
  split; [split; [by left|vm_compute; reflexivity]|]. split; [vm_compute; reflexivity|]. split; [done|]. split; [done|].
  split; [vm_compute; reflexivity|]. intros x ip Hg Hip.
  apply root_vi in Hg. assert (Hx : private_data x = 200) by (rewrite Hg; vm_compute; reflexivity).
  rewrite Hx in Hip. vm_compute in Hip. injection Hip as <-. done.
Qed.
Lemma demo_made_reach : tmpfs_reach 100 200 demo_own demo_tcold demo_made.
Proof. apply demo_next; [exact demo_tboot_reach|exact demo_create_enabled]. Qed.
Lemma demo_opened_reach : tmpfs_reach 100 200 demo_own demo_tcold demo_opened.
Proof. apply demo_next; [exact demo_made_reach|]. split; [|done]. split; [by left|]. vm_compute. reflexivity. Qed.

Lemma demo_opened_ref : ts_refs demo_opened = [0] ∧ i_dev <$> inodes (t_ic (ts_fs demo_opened)) !! Z.to_nat 0 = Some TMPFS_DEV.
Proof. split; vm_compute; reflexivity. Qed.

Lemma tmpfs_safe_witness :
  ∃ x ip, inodes (t_ic (ts_fs demo_opened)) !! Z.to_nat 0 = Some x ∧
    t_inos (t_mem (ts_fs demo_opened)) !! private_data x = Some ip ∧ ti_ino ip = i_ino x.
Proof.
  destruct demo_opened_ref as [Hr Hd]. destruct (inodes (t_ic (ts_fs demo_opened)) !! Z.to_nat 0) as [x|] eqn:Ex; [|discriminate Hd].
  injection Hd as Hd.
  destruct (proj1 (proj2 (tmpfs_safe 100 200 demo_own _ _ _ demo_tcold_ok demo_opened_reach)) 0 x) as (ip & Hip & Hi);
    [rewrite Hr; by left|assumption|assumption|].
  exists x, ip. split; [reflexivity|]. split; assumption.
Defined.

Lemma tmpfs_create_lookup_witness :
  ∃ l r s', entries (ts_fs demo_tbooted) TMP_ROOT l ∧ tmpfs_vfs_create (Some TMP_ROOT) (Some [97]) VFS_FILE (ts_fs demo_tbooted) = Ret (r, s') ∧
    (r = -1 ∨ r = 0 ∧ ∃ de, created (ts_fs demo_tbooted) s' TMP_ROOT l [97] VFS_FILE de).
Proof.
  destruct (tmpfs_create_lookup 100 200 demo_own _ _ _ TMP_ROOT [97] VFS_FILE demo_tcold_ok demo_tboot_reach demo_create_enabled)
    as (l & r & s' & H1 & H2 & H3); [reflexivity|]. exists l, r, s'. split; [assumption|]. split; [assumption|].
  destruct H3 as [(H3 & _)|(H3 & de & Hcr & _)]; [left; assumption|right]. split; [assumption|]. exists de. assumption.
Defined.

Lemma tmpfs_unlink_spec_witness :
  ∃ l r s', entries (ts_fs demo_opened) TMP_ROOT l ∧ tmpfs_vfs_unlink (Some TMP_ROOT) (Some [97]) (ts_fs demo_opened) = Ret (r, s') ∧
    (r = 0 ∧ unlinks (ts_fs demo_opened) s' TMP_ROOT [97] l ∨ r = -1 ∧ s' = ts_fs demo_opened).
Proof.
  destruct (tmpfs_unlink_spec 100 200 demo_own _ _ _ TMP_ROOT [97] demo_tcold_ok demo_opened_reach) as (l & r & s' & H1 & H2 & H3).
  { split; [|discriminate]. split; [left; reflexivity|]. vm_compute. reflexivity. }
  exists l, r, s'. split; [assumption|]. split; [assumption|]. destruct H3 as [?|(? & ? & _)]; [left; assumption|right; split; assumption].
Defined.

Lemma tmpfs_destroy_spec_witness :
  ∃ s', tmpfs_destroy_inode 100 200 0 (ts_fs demo_opened) = Ret (tt, s') ∧ t_dents (t_mem s') = t_dents (t_mem (ts_fs demo_opened)).
Proof.
  destruct demo_opened_ref as [Hr Hd]. destruct (inodes (t_ic (ts_fs demo_opened)) !! Z.to_nat 0) as [x|] eqn:Ex; [|discriminate Hd].
  injection Hd as Hd.
  destruct (tmpfs_destroy_spec 100 200 demo_own _ _ _ 0%nat 0 x demo_tcold_ok demo_opened_reach) as (s' & H1 & H2 & _); [rewrite Hr; reflexivity|assumption|assumption|].
  exists s'. split; assumption.
Defined.

Lemma tmpfs_readdir_spec_witness :
  ∃ l, entries (ts_fs demo_made) TMP_ROOT l ∧ is_dir demo_made TMP_ROOT.
Proof.
  assert (Hd : is_dir demo_made TMP_ROOT) by (split; [left; reflexivity|vm_compute; reflexivity]).
  destruct (tmpfs_readdir_spec 100 200 demo_own _ _ _ TMP_ROOT 0 1 1 demo_tcold_ok demo_made_reach Hd) as (l & Hl & _); [discriminate|discriminate|].
  exists l. split; assumption.
Defined.

(** Fifty-one files, and references to fifty of them. *)
Fixpoint demo_run (es : list tevent) (c : tsys) : tsys := match es with [] => c | e :: es => demo_run es (demo_tstep e c) end.
Definition demo_full : tsys :=
  demo_run ((λ i, Ecreate TMP_ROOT [97; i] VFS_FILE) <$> seqZ 1 51) demo_tbooted.
Definition demo_all_open : tsys := demo_run ((λ i, Elookup TMP_ROOT [97; i]) <$> seqZ 1 50) demo_full.
Definition names_of (s : tfs kmem bump) : list cstring := (λ p, td_name p.2) <$> map_to_list (t_dents (t_mem s)).

(** C39: With references to fifty other files the inode cache is full;
    tmpfs_vfs_lookup fails for a name that is in the directory, and
    tmpfs_vfs_create makes a second entry with that name. *)
Example full_cache_duplicates :
  Z.of_nat (length (ts_refs demo_all_open)) = NINODES ∧
  match tmpfs_vfs_create (Some TMP_ROOT) (Some [97; 51]) VFS_FILE (ts_fs demo_all_open) with
  | Ret (r, s') => r = 0 ∧ length (filter (.= [97; 51]) (names_of s')) = 2%nat
  | _ => False
  end.
Proof. split; [vm_compute; reflexivity|]. vm_compute. done. Qed.
