(* ===== verification/Ext4.v ===== *)
(** kernel/fs/ext4fs, reading: helper.h, read.c and the superblock of mount.c.

    The file system reads blocks of the buffer cache and never writes them
    ([BlockReader]).  A routine that looks at the
    bytes of a buffer or of an inode is a function to [outcome] that is [Fault]
    when it leaves the array it reads.  The reference is the device as one array
    of bytes ([disk_byte]): the theorems say at which address of the device each
    routine finds what it returns. *)
From S2P Require Import Prelude Block.

(** Computations that only look at bytes. *)
#[export] Instance outcome_ret : MRet outcome := λ A a, Ret a.
#[export] Instance outcome_bind : MBind outcome := λ A B f m,
  match m with Ret a => f a | Panic w => Panic w | Fault => Fault | NoFuel => NoFuel end.

(** A pure result in a state. *)
Definition at_state {S A} (o : outcome A) (s : S) : outcome (A * S) :=
  match o with Ret a => Ret (a, s) | Panic w => Panic w | Fault => Fault | NoFuel => NoFuel end.

(** [b = bread(dev, n); ... brelse(b)] around code that reads [b->data]: every
    return of that code is preceded by the brelse. *)
Definition with_buf {B A} `{BlockReader B} (dev n : Z) (f : block → outcome A) : K B A :=
  b ← br_bread dev n;
  d ← br_data b;
  r ← at_state (f d);
  br_brelse b ;; mret r.

(** ** helper.h *)

Definition ext4_read_le16 (p : list Z) (o : Z) : Z :=
  u16 (Z.lor (byte_at p o) (Z.shiftl (byte_at p (o + 1)) 8)).
Definition ext4_read_le32 (p : list Z) (o : Z) : Z :=
  Z.lor (Z.lor (Z.lor (byte_at p o) (u32 (Z.shiftl (byte_at p (o + 1)) 8)))
    (u32 (Z.shiftl (byte_at p (o + 2)) 16))) (u32 (Z.shiftl (byte_at p (o + 3)) 24)).
Definition ext4_read_le64_split (lo hi : Z) : Z := Z.lor (u64 (Z.shiftl hi 32)) lo.

(** The same reads, inside the array [p]. *)
Definition inside (p : list Z) (o n : Z) : Prop := 0 ≤ o ∧ o + n ≤ Z.of_nat (length p).
#[export] Instance inside_dec p o n : Decision (inside p o n).
Proof. unfold inside. apply _. Defined.
Definition le8 (p : list Z) (o : Z) : outcome Z := if decide (inside p o 1) then Ret (byte_at p o) else Fault.
Definition le16 (p : list Z) (o : Z) : outcome Z := if decide (inside p o 2) then Ret (ext4_read_le16 p o) else Fault.
Definition le32 (p : list Z) (o : Z) : outcome Z := if decide (inside p o 4) then Ret (ext4_read_le32 p o) else Fault.
(** memcpy of [n] bytes out of [p]. *)
Definition bytes_of (p : list Z) (o n : Z) : outcome (list Z) := if decide (inside p o n) then Ret (slice p o n) else Fault.

(** ** ext4.h *)

Definition EXT4_SUPER_OFFSET : Z := 1024.
Definition EXT4_SUPER_MAGIC : Z := 0xEF53.
Definition EXT4_ROOT_INO : Z := 2.
Definition EXT4_EXT_MAGIC : Z := 0xF30A.
Definition EXT4_INODE_BLOCK_BYTES : Z := 60.
Definition EXT4_EXT_HEADER_SIZE : Z := 12.
Definition EXT4_EXTENT_SIZE : Z := 12.

Record ext4_fs := mk_fs {
  fs_dev : Z; fs_block_size : Z; fs_blocks_count : Z; fs_inodes_count : Z; fs_blocks_per_group : Z;
  fs_inodes_per_group : Z; fs_inode_size : Z; fs_desc_size : Z; fs_group_desc_block : Z;
  fs_feature_compat : Z; fs_feature_incompat : Z; fs_feature_ro_compat : Z
}.
Record ext4_inode := mk_inode { i_mode : Z; i_size : Z; i_blocks_lo : Z; i_flags : Z; i_block : list Z }.
Record ext4_extent_header := mk_header { eh_magic : Z; eh_entries : Z; eh_max : Z; eh_depth : Z; eh_generation : Z }.
Record ext4_extent := mk_extent { ee_block : Z; ee_len : Z; ee_start : Z }.

(** ** mount.c *)

Definition supported_incompat : Z := Z.lor (Z.lor (Z.lor 0x0002 0x0040) 0x0080) 0x0200.
Definition supported_ro_compat : Z := Z.lor (Z.lor (Z.lor (Z.lor (Z.lor 0x0001 0x0002) 0x0008) 0x0020) 0x0040) 0x0400.
(** [~x] of a uint32. *)
Definition not32 (x : Z) : Z := 2 ^ 32 - 1 - x.

Definition ext4_check_features (fs : ext4_fs) : Z :=
  let unknown_incompat := Z.land (fs_feature_incompat fs) (not32 supported_incompat) in
  let unknown_ro_compat := Z.land (fs_feature_ro_compat fs) (not32 supported_ro_compat) in
  if decide (unknown_incompat ≠ 0) then -1 else
  if decide (unknown_ro_compat ≠ 0) then -1 else
  if decide (Z.land (fs_feature_incompat fs) 0x0040 = 0) then -1 else 0.

(** The fields of the superblock; [None] when the magic number is not there.  A
    shift of a uint32 by 32 or more is undefined. *)
Definition read_super (dev : Z) (d : block) : outcome (option ext4_fs) :=
  let sb := EXT4_SUPER_OFFSET in
  magic ← le16 d (sb + 0x38);
  if decide (magic ≠ EXT4_SUPER_MAGIC) then mret None else
  log_block_size ← le32 d (sb + 0x18);
  blocks_lo ← le32 d (sb + 0x04);
  blocks_hi ← le32 d (sb + 0x150);
  if decide (32 ≤ log_block_size) then Fault else
  let block_size := u32 (Z.shiftl 1024 log_block_size) in
  inodes_count ← le32 d (sb + 0x00);
  blocks_per_group ← le32 d (sb + 0x20);
  inodes_per_group ← le32 d (sb + 0x28);
  inode_size ← le16 d (sb + 0x58);
  desc_size ← le16 d (sb + 0xfe);
  feature_compat ← le32 d (sb + 0x5c);
  feature_incompat ← le32 d (sb + 0x60);
  feature_ro_compat ← le32 d (sb + 0x64);
  mret (Some (mk_fs dev block_size (ext4_read_le64_split blocks_lo blocks_hi) inodes_count blocks_per_group
    inodes_per_group inode_size desc_size (if decide (block_size = 1024) then 2 else 1)
    feature_compat feature_incompat feature_ro_compat)).

(** ** The extents of an inode *)

Definition ext4_read_extent_header (ip : ext4_inode) : outcome (option ext4_extent_header) :=
  let raw_header := i_block ip in
  magic ← le16 raw_header 0x00;
  entries ← le16 raw_header 0x02;
  max ← le16 raw_header 0x04;
  depth ← le16 raw_header 0x06;
  generation ← le32 raw_header 0x08;
  if decide (magic ≠ EXT4_EXT_MAGIC) then mret None else
  mret (Some (mk_header magic entries max depth generation)).

(** [extent->start]: [(uint64) hi << 32 | lo]. *)
Definition ext4_read_extent (ip : ext4_inode) (index : Z) : outcome ext4_extent :=
  let raw_extent := EXT4_EXT_HEADER_SIZE + index * EXT4_EXTENT_SIZE in
  blk ← le32 (i_block ip) (raw_extent + 0x00);
  len ← le16 (i_block ip) (raw_extent + 0x04);
  hi ← le16 (i_block ip) (raw_extent + 0x06);
  lo ← le32 (i_block ip) (raw_extent + 0x08);
  mret (mk_extent blk len (ext4_read_le64_split lo hi)).

(** The loop over the extents [i, i+1, ..., entries - 1]. *)
Fixpoint find_extent_loop (ip : ext4_inode) (logical_block : Z) (l : list Z) : outcome (option ext4_extent) :=
  match l with
  | [] => mret None
  | i :: l =>
      ex ← ext4_read_extent ip i;
      if decide (ee_block ex ≤ logical_block ∧ logical_block < u32 (ee_block ex + ee_len ex)) then mret (Some ex)
      else find_extent_loop ip logical_block l
  end.
Definition ext4_find_extent (ip : ext4_inode) (logical_block : Z) : outcome (option ext4_extent) :=
  eh ← ext4_read_extent_header ip;
  match eh with
  | None => mret None
  | Some eh =>
      if decide (eh_depth eh ≠ 0) then mret None
      else find_extent_loop ip logical_block (seqZ 0 (eh_entries eh))
  end.

Section reader.
Context {B : Type} `{BlockReader B}.

(** ext4_mount: the result and what it leaves in [*fs], when it writes it. *)
Definition ext4_mount (dev : Z) : K B (Z * option ext4_fs) :=
  r ← with_buf dev 0 (read_super dev);
  match r with
  | None => mret (-1, None)
  | Some fs => mret (ext4_check_features fs, Some fs)
  end.

(** ** read.c *)

Definition ext4_read_inode_table_block (fs : ext4_fs) (group : Z) : K B Z :=
  let desc_offset := u64 (group * fs_desc_size fs) in
  let byte_offset := u64 (u64 (fs_group_desc_block fs * fs_block_size fs) + desc_offset) in
  let gd := byte_offset mod BSIZE in
  with_buf (fs_dev fs) (byte_offset / BSIZE) (λ d,
    lo ← le32 d (gd + 0x08);
    hi ← le32 d (gd + 0x28);
    mret (ext4_read_le64_split lo hi)).

Definition read_raw_inode (raw_inode : Z) (d : block) : outcome ext4_inode :=
  mode ← le16 d (raw_inode + 0x00);
  size_hi ← le32 d (raw_inode + 0x6c);
  size_lo ← le32 d (raw_inode + 0x04);
  blocks_lo ← le32 d (raw_inode + 0x1c);
  flags ← le32 d (raw_inode + 0x20);
  blk ← bytes_of d (raw_inode + 0x28) EXT4_INODE_BLOCK_BYTES;
  mret (mk_inode mode (ext4_read_le64_split size_lo size_hi) blocks_lo flags blk).

(** It always returns 0; the inode is what it leaves in [*inode]. *)
Definition ext4_read_inode (fs : ext4_fs) (ino : Z) : K B ext4_inode :=
  if decide (fs_inodes_per_group fs = 0) then kfault else
  let group := u32 (ino - 1) / fs_inodes_per_group fs in
  let index := u32 (ino - 1) mod fs_inodes_per_group fs in
  inode_table_block ← ext4_read_inode_table_block fs group;
  let inode_byte_offset := u64 (u64 (inode_table_block * fs_block_size fs) + u64 (index * fs_inode_size fs)) in
  with_buf (fs_dev fs) (inode_byte_offset / BSIZE) (read_raw_inode (inode_byte_offset mod BSIZE)).

(** ext4_read_file: the result and the bytes stored from [dst] on.  [done] and
    the bytes so far go round the loop. *)
Definition read_file_round (fs : ext4_fs) (ip : ext4_inode) (offset len : Z) :
    Z * list Z → K B ((Z * list Z) + (Z * list Z)) := λ '(done, dst),
  if decide (¬ done < len) then mret (inr (i32 done, dst)) else
  if decide (fs_block_size fs = 0) then kfault else
  let file_offset := u64 (offset + done) in
  let logical_block := u32 (file_offset / fs_block_size fs) in
  let offset_in_fs_block := file_offset mod fs_block_size fs in
  r ← at_state (ext4_find_extent ip logical_block);
  match r with
  | None => mret (inr (-1, dst))
  | Some ex =>
      let physical_block := u64 (ee_start ex + u32 (logical_block - ee_block ex)) in
      let byte_offset := u64 (u64 (physical_block * fs_block_size fs) + offset_in_fs_block) in
      let cache_block := byte_offset / BSIZE in
      let offset_in_cache := byte_offset mod BSIZE in
      let chunk := len - done in
      let cache_left := BSIZE - offset_in_cache in
      let fs_block_left := fs_block_size fs - offset_in_fs_block in
      let chunk := if decide (chunk > cache_left) then cache_left else chunk in
      let chunk := if decide (chunk > fs_block_left) then fs_block_left else chunk in
      data ← with_buf (fs_dev fs) cache_block (λ d, bytes_of d offset_in_cache chunk);
      mret (inl (u64 (done + chunk), dst ++ data))
  end.

Definition ext4_read_file (fs : ext4_fs) (ip : ext4_inode) (offset len : Z) : K B (Z * list Z) :=
  if decide (i_size ip ≤ offset) then mret (0, []) else
  let len := if decide (u64 (offset + len) > i_size ip) then i_size ip - offset else len in
  loop (S (Z.to_nat len)) (read_file_round fs ip offset len) (0, []).
End reader.

(** * Reference: the device as an array of bytes *)

Definition disk_byte (v : Z → block) (a : Z) : Z := byte_at (v (a / BSIZE)) (a mod BSIZE).
Definition disk16 (v : Z → block) (a : Z) : Z := disk_byte v a + 2 ^ 8 * disk_byte v (a + 1).
Definition disk32 (v : Z → block) (a : Z) : Z :=
  disk_byte v a + 2 ^ 8 * disk_byte v (a + 1) + 2 ^ 16 * disk_byte v (a + 2) + 2 ^ 24 * disk_byte v (a + 3).
Definition disk_bytes (v : Z → block) (a n : Z) : list Z := disk_byte v <$> seqZ a n.

(** Where the descriptor of a group and an inode are. *)
Definition table_at (v : Z → block) (fs : ext4_fs) (g : Z) : Z :=
  let a := fs_group_desc_block fs * fs_block_size fs + g * fs_desc_size fs in
  disk32 v (a + 0x08) + 2 ^ 32 * disk32 v (a + 0x28).
Definition inode_addr (v : Z → block) (fs : ext4_fs) (ino : Z) : Z :=
  table_at v fs ((ino - 1) / fs_inodes_per_group fs) * fs_block_size fs +
  (ino - 1) mod fs_inodes_per_group fs * fs_inode_size fs.
Definition inode_at (v : Z → block) (a : Z) : ext4_inode :=
  mk_inode (disk16 v a) (disk32 v (a + 0x04) + 2 ^ 32 * disk32 v (a + 0x6c)) (disk32 v (a + 0x1c))
    (disk32 v (a + 0x20)) (disk_bytes v (a + 0x28) EXT4_INODE_BLOCK_BYTES).

(** The layouts that a 64-bit image has. *)
Record fs_ok (fs : ext4_fs) : Prop := {
  fo_block : 0 < fs_block_size fs ≤ 2 ^ 31;
  fo_group : 0 < fs_inodes_per_group fs;
  fo_gdt : 0 ≤ fs_group_desc_block fs ≤ 2;
  fo_inode : 128 ≤ fs_inode_size fs < 2 ^ 16 ∧ (fs_inode_size fs | BSIZE) ∧ (fs_inode_size fs | fs_block_size fs);
  fo_desc : 64 ≤ fs_desc_size fs < 2 ^ 16 ∧ (fs_desc_size fs | BSIZE) ∧ (fs_desc_size fs | fs_block_size fs)
}.

(** The superblock, and the features of an image that the reader understands. *)
Definition super_at (v : Z → block) (dev : Z) : ext4_fs :=
  let sb := EXT4_SUPER_OFFSET in
  let block_size := u32 (1024 * 2 ^ disk32 v (sb + 0x18)) in
  mk_fs dev block_size (disk32 v (sb + 0x04) + 2 ^ 32 * disk32 v (sb + 0x150)) (disk32 v (sb + 0x00)) (disk32 v (sb + 0x20))
    (disk32 v (sb + 0x28)) (disk16 v (sb + 0x58)) (disk16 v (sb + 0xfe)) (if decide (block_size = 1024) then 2 else 1)
    (disk32 v (sb + 0x5c)) (disk32 v (sb + 0x60)) (disk32 v (sb + 0x64)).
Definition known_features (fs : ext4_fs) : Prop :=
  (∀ i, 0 ≤ i → Z.testbit (fs_feature_incompat fs) i = true → i ∈ [1; 6; 7; 9]) ∧
  (∀ i, 0 ≤ i → Z.testbit (fs_feature_ro_compat fs) i = true → i ∈ [0; 1; 3; 5; 6; 10]) ∧
  Z.testbit (fs_feature_incompat fs) 6 = true.

(** The extents stored in an inode, and the address of a byte of its file. *)
Definition extent_at (p : list Z) (k : Z) : ext4_extent :=
  let o := EXT4_EXT_HEADER_SIZE + k * EXT4_EXTENT_SIZE in
  mk_extent (rd32 p o) (rd16 p (o + 4)) (rd32 p (o + 8) + 2 ^ 32 * rd16 p (o + 6)).
Definition extents (ip : ext4_inode) : list ext4_extent := extent_at (i_block ip) <$> seqZ 0 (rd16 (i_block ip) 2).
Definition covers (b : Z) (ex : ext4_extent) : Prop := ee_block ex ≤ b < ee_block ex + ee_len ex.
#[export] Instance covers_dec b ex : Decision (covers b ex).
Proof. unfold covers. apply _. Defined.
Definition file_addr (fs : ext4_fs) (ip : ext4_inode) (i : Z) : option Z :=
  let b := i / fs_block_size fs in
  ex ← head (filter (covers b) (extents ip));
  Some ((ee_start ex + (b - ee_block ex)) * fs_block_size fs + i mod fs_block_size fs).
Definition file_byte (v : Z → block) (fs : ext4_fs) (ip : ext4_inode) (i : Z) : option Z := disk_byte v <$> file_addr fs ip i.

(** An inode whose i_block is a leaf of extents that fits it. *)
Record leaf_ok (fs : ext4_fs) (ip : ext4_inode) : Prop := {
  lo_len : Z.of_nat (length (i_block ip)) = EXT4_INODE_BLOCK_BYTES;
  lo_bytes : Forall byte_ok (i_block ip);
  lo_magic : rd16 (i_block ip) 0 = EXT4_EXT_MAGIC;
  lo_depth : rd16 (i_block ip) 6 = 0;
  lo_entries : rd16 (i_block ip) 2 ≤ 4;
  lo_extents : Forall (λ ex, ee_block ex + ee_len ex < 2 ^ 32 ∧ (ee_start ex + ee_len ex) * fs_block_size fs ≤ 2 ^ 64) (extents ip)
}.

(** * Lemmas *)

Lemma lor_shift a b k : 0 ≤ k → 0 ≤ a < 2 ^ k → Z.lor a (Z.shiftl b k) = a + 2 ^ k * b.
Proof.
  intros Hk Ha. assert (E : Z.land a (Z.shiftl b k) = 0).
  { apply Z.bits_inj'. intros i Hi. rewrite Z.land_spec, Z.bits_0. destruct (decide (i < k)).
    - rewrite Z.shiftl_spec_low by done. by rewrite andb_false_r.
    - rewrite (testbit_high a k i) by lia. done. }
  pose proof (Z.add_lor_land a (Z.shiftl b k)) as Hl. rewrite E, Z.add_0_r in Hl. rewrite Hl, Z.shiftl_mul_pow2 by done. lia.
Qed.
Lemma bytes_at_ok p i : Forall byte_ok p → byte_ok (byte_at p i).
Proof. intros Hp. unfold byte_at. destruct (p !! Z.to_nat i) eqn:E; [|done]. by eapply Forall_lookup_1 in E. Qed.
Lemma le16_eq p o : Forall byte_ok p → ext4_read_le16 p o = rd16 p o.
Proof.
  intros Hp. unfold ext4_read_le16, rd16. pose proof (bytes_at_ok p o Hp). pose proof (bytes_at_ok p (o + 1) Hp). unfold byte_ok in *.
  rewrite lor_shift by lia. apply u16_small. lia.
Qed.
Lemma le32_eq p o : Forall byte_ok p → ext4_read_le32 p o = rd32 p o.
Proof.
  intros Hp. unfold ext4_read_le32, rd32. pose proof (bytes_at_ok p o Hp). pose proof (bytes_at_ok p (o + 1) Hp).
  pose proof (bytes_at_ok p (o + 2) Hp). pose proof (bytes_at_ok p (o + 3) Hp). unfold byte_ok in *.
  assert (Hs : ∀ b k, 0 ≤ b < 2 ^ 8 → 0 ≤ k ≤ 24 → u32 (Z.shiftl b k) = Z.shiftl b k).
  { intros b k Hb Hk. apply u32_small. rewrite Z.shiftl_mul_pow2 by lia.
    assert (2 ^ k ≤ 2 ^ 24) by (apply Z.pow_le_mono_r; lia). assert (0 < 2 ^ k) by (apply Z.pow_pos_nonneg; lia). nia. }
  rewrite !Hs by lia. rewrite (lor_shift _ _ 8), (lor_shift _ _ 16), (lor_shift _ _ 24); lia.
Qed.
Lemma split_eq lo hi : 0 ≤ lo < 2 ^ 32 → 0 ≤ hi < 2 ^ 32 → ext4_read_le64_split lo hi = lo + 2 ^ 32 * hi.
Proof.
  intros Hl Hh. unfold ext4_read_le64_split. rewrite u64_small, Z.lor_comm, lor_shift; try lia.
  rewrite Z.shiftl_mul_pow2 by lia. lia.
Qed.
Lemma rd16_bound p o : Forall byte_ok p → 0 ≤ rd16 p o < 2 ^ 16.
Proof. intros Hp. unfold rd16. pose proof (bytes_at_ok p o Hp). pose proof (bytes_at_ok p (o + 1) Hp). unfold byte_ok in *. lia. Qed.
Lemma rd32_bound p o : Forall byte_ok p → 0 ≤ rd32 p o < 2 ^ 32.
Proof.
  intros Hp. unfold rd32. pose proof (bytes_at_ok p o Hp). pose proof (bytes_at_ok p (o + 1) Hp).
  pose proof (bytes_at_ok p (o + 2) Hp). pose proof (bytes_at_ok p (o + 3) Hp). unfold byte_ok in *. lia.
Qed.
Lemma le8_run p o : inside p o 1 → le8 p o = Ret (byte_at p o).
Proof. intros Hi. unfold le8. by rewrite decide_True. Qed.
Lemma le16_run p o : Forall byte_ok p → inside p o 2 → le16 p o = Ret (rd16 p o).
Proof. intros Hp Hi. unfold le16. by rewrite decide_True, le16_eq. Qed.
Lemma le32_run p o : Forall byte_ok p → inside p o 4 → le32 p o = Ret (rd32 p o).
Proof. intros Hp Hi. unfold le32. by rewrite decide_True, le32_eq. Qed.
Lemma bytes_of_run p o n : inside p o n → bytes_of p o n = Ret (slice p o n).
Proof. intros Hi. unfold bytes_of. by rewrite decide_True. Qed.

(** ** Addresses *)

Lemma addr_near a k : 0 ≤ k → a mod BSIZE + k < BSIZE → (a + k) / BSIZE = a / BSIZE ∧ (a + k) mod BSIZE = a mod BSIZE + k.
Proof. unfold BSIZE. intros Hk Ha. Z.to_euclidean_division_equations. lia. Qed.
Lemma disk_byte_near v a k : 0 ≤ k → a mod BSIZE + k < BSIZE → disk_byte v (a + k) = byte_at (v (a / BSIZE)) (a mod BSIZE + k).
Proof. intros Hk Ha. unfold disk_byte. destruct (addr_near a k) as [-> ->]; done. Qed.
Lemma disk16_near v a k : 0 ≤ k → a mod BSIZE + k + 2 ≤ BSIZE → disk16 v (a + k) = rd16 (v (a / BSIZE)) (a mod BSIZE + k).
Proof. intros Hk Ha. unfold disk16, rd16. rewrite <-!Z.add_assoc, !disk_byte_near by lia. by rewrite !Z.add_assoc. Qed.
Lemma disk32_near v a k : 0 ≤ k → a mod BSIZE + k + 4 ≤ BSIZE → disk32 v (a + k) = rd32 (v (a / BSIZE)) (a mod BSIZE + k).
Proof. intros Hk Ha. unfold disk32, rd32. rewrite <-!(Z.add_assoc a), !disk_byte_near by lia. by rewrite !(Z.add_assoc (a mod BSIZE)). Qed.
Lemma disk_bytes_near v a k n : 0 ≤ k → 0 ≤ n → a mod BSIZE + k + n ≤ BSIZE → block_ok (v (a / BSIZE)) →
  disk_bytes v (a + k) n = slice (v (a / BSIZE)) (a mod BSIZE + k) n.
Proof.
  intros Hk Hn Ha Hb. assert (0 ≤ a mod BSIZE) by (by apply Z.mod_pos_bound). unfold disk_bytes. apply list_eq_same_length with (Z.to_nat n).
  - pose proof (slice_length _ (a mod BSIZE + k) n Hb). lia.
  - rewrite length_fmap, length_seqZ. lia.
  - intros i x y Hi Hx Hy. apply list_lookup_fmap_Some in Hx as (z & -> & Hz). apply lookup_seqZ in Hz as [-> Hz].
    rewrite <-(Nat2Z.id i), (slice_lookup _ _ n (Z.of_nat i)) in Hy by (done || lia). simplify_eq.
    rewrite <-(Z.add_assoc a), disk_byte_near by lia. f_equal. lia.
Qed.
Lemma disk32_range v a : (∀ n, 0 ≤ n → block_ok (v n)) → 0 ≤ a → 0 ≤ disk32 v a < 2 ^ 32.
Proof.
  intros Hv Ha. assert (Hb : ∀ k, 0 ≤ k → byte_ok (disk_byte v (a + k))).
  { intros k Hk. apply byte_at_ok, Hv. apply Z.div_pos; [lia|done]. }
  pose proof (Hb 0). pose proof (Hb 1). pose proof (Hb 2). pose proof (Hb 3). rewrite Z.add_0_r in *. unfold byte_ok, disk32 in *. lia.
Qed.

(** A record of a size that divides the block stays in its block. *)
Lemma aligned_fits a n : 0 < n → (n | BSIZE) → (n | a) → a mod BSIZE + n ≤ BSIZE.
Proof.
  intros Hn [q Hq] [k Hk]. assert (0 < q) by (unfold BSIZE in *; nia). rewrite Hk, Hq.
  rewrite Z.mul_mod_distr_r by lia. pose proof (Z.mod_pos_bound k q). nia.
Qed.

(** ** Reading a block *)

Ltac outs := unfold mbind, outcome_bind, mret, outcome_ret; cbv beta iota.

Section lemmas.
Context {B : Type} `{BlockReader B}.

Lemma with_buf_run {A} dev v (s : B) n (f : block → outcome A) :
  br_ok dev v s → 0 ≤ n → ∃ s', with_buf dev n f s = at_state (f (v n)) s' ∧ br_ok dev v s'.
Proof.
  intros Hok Hn. destruct (br_read dev v s n Hok Hn) as (h & s1 & s2 & Hr & Hd & Hl & Hok2). exists s2. split; [|done].
  unfold with_buf. rewrite (bind_Ret _ _ _ _ _ Hr), (bind_Ret _ _ _ _ _ Hd). unfold at_state at 1.
  unfold mbind, K_bind. destruct (f (v n)); [by rewrite Hl|done..].
Qed.

Lemma at_state_bind {A C} (a : A) (f : A → K B C) s : mbind f (at_state (Ret a)) s = f a s.
Proof. done. Qed.

Lemma header_run fs ip : leaf_ok fs ip →
  ext4_read_extent_header ip =
    Ret (Some (mk_header EXT4_EXT_MAGIC (rd16 (i_block ip) 2) (rd16 (i_block ip) 4) 0 (rd32 (i_block ip) 8))).
Proof.
  intros [Hl Hb Hm Hd He Hx]. unfold EXT4_INODE_BLOCK_BYTES in Hl. unfold ext4_read_extent_header. outs.
  rewrite !le16_run, !le32_run by (done || (unfold inside; lia)). rewrite Hm, Hd. by rewrite decide_False by auto.
Qed.
Lemma extent_run fs ip k : leaf_ok fs ip → 0 ≤ k < 4 → ext4_read_extent ip k = Ret (extent_at (i_block ip) k).
Proof.
  intros [Hl Hb Hm Hd He Hx] Hk. unfold EXT4_INODE_BLOCK_BYTES in Hl. unfold ext4_read_extent, extent_at, EXT4_EXT_HEADER_SIZE, EXT4_EXTENT_SIZE. outs.
  rewrite !le16_run, !le32_run by (done || (unfold inside; lia)). rewrite Z.add_0_r.
  rewrite split_eq; [done|by apply rd32_bound|]. pose proof (rd16_bound (i_block ip) (12 + k * 12 + 6) Hb). lia.
Qed.
Lemma find_loop_run fs ip b l : leaf_ok fs ip → Forall (λ k, 0 ≤ k < 4) l →
  Forall (λ k, ee_block (extent_at (i_block ip) k) + ee_len (extent_at (i_block ip) k) < 2 ^ 32) l →
  find_extent_loop ip b l = Ret (head (filter (covers b) (extent_at (i_block ip) <$> l))).
Proof.
  intros Hok. induction l as [|k l IH]; intros Hl Hx; [done|]. inversion_clear Hl as [|?? Hk Hl']. inversion_clear Hx as [|?? Hw Hx'].
  cbn [find_extent_loop]. rewrite (extent_run fs) by done. outs. rewrite fmap_cons, filter_cons.
  pose proof (rd32_bound (i_block ip) (12 + k * 12) (lo_bytes _ _ Hok)). pose proof (rd16_bound (i_block ip) (12 + k * 12 + 4) (lo_bytes _ _ Hok)).
  rewrite u32_small; [|unfold extent_at, EXT4_EXT_HEADER_SIZE, EXT4_EXTENT_SIZE in *; cbn in *; lia].
  change (Decision (covers b ?x)) with (Decision (covers b x)). destruct (decide (covers b (extent_at (i_block ip) k))) as [Hc|Hc].
  - by rewrite decide_True by apply Hc.
  - rewrite decide_False by apply Hc. by apply IH.
Qed.
Lemma find_extent_run fs ip b : leaf_ok fs ip → ext4_find_extent ip b = Ret (head (filter (covers b) (extents ip))).
Proof.
  intros Hok. unfold ext4_find_extent. rewrite (header_run fs) by done. outs. cbn [eh_depth eh_entries]. rewrite decide_False by auto.
  apply (find_loop_run fs); [done| |].
  - apply Forall_forall. intros k Hk%elem_of_seqZ. pose proof (lo_entries _ _ Hok). lia.
  - pose proof (lo_extents _ _ Hok) as Hx. unfold extents in Hx. rewrite Forall_fmap in Hx. eapply Forall_impl; [exact Hx|]. by intros k [Hw _].
Qed.

(** ** Inodes *)

Lemma group_table_run fs v (s : B) g : br_ok (fs_dev fs) v s → fs_ok fs → 0 ≤ g < 2 ^ 32 →
  ∃ s', ext4_read_inode_table_block fs g s = Ret (table_at v fs g, s') ∧ br_ok (fs_dev fs) v s'.
Proof.
  intros Hok Hf Hg. destruct (fo_desc _ Hf) as (Hds & Hdd & Hdb). pose proof (fo_block _ Hf) as Hbs. pose proof (fo_gdt _ Hf) as Hgd.
  unfold ext4_read_inode_table_block, table_at.
  set (a := fs_group_desc_block fs * fs_block_size fs + g * fs_desc_size fs).
  assert (Ha : 0 ≤ a) by (unfold a; nia).
  assert (Hfit : a mod BSIZE + fs_desc_size fs ≤ BSIZE).
  { apply aligned_fits; [lia|done|]. apply Z.divide_add_r; [by apply Z.divide_mul_r|by apply Z.divide_mul_r]. }
  rewrite (u64_small (g * _)) by nia. rewrite (u64_small (fs_group_desc_block fs * _)) by nia. fold a. rewrite u64_small by (unfold a; nia).
  assert (Hn : 0 ≤ a / BSIZE) by (by apply Z.div_pos). assert (0 ≤ a mod BSIZE) by (by apply Z.mod_pos_bound).
  match goal with |- context [with_buf _ _ ?f] => destruct (with_buf_run (fs_dev fs) v s (a / BSIZE) f Hok Hn) as (s' & Hw & Hok') end.
  exists s'. split; [|done]. rewrite Hw.
  destruct (br_len (fs_dev fs) v s (a / BSIZE) Hok Hn) as [Hlen Hby]. outs.
  rewrite !le32_run by (done || (unfold inside; lia)). rewrite !disk32_near by lia. rewrite split_eq by (by apply rd32_bound). done.
Qed.

Lemma raw_inode_run v a : block_ok (v (a / BSIZE)) → 0 ≤ a → a mod BSIZE + 128 ≤ BSIZE →
  read_raw_inode (a mod BSIZE) (v (a / BSIZE)) = Ret (inode_at v a).
Proof.
  intros [Hlen Hby] Ha Hfit. assert (0 ≤ a mod BSIZE) by (by apply Z.mod_pos_bound). unfold read_raw_inode, inode_at, EXT4_INODE_BLOCK_BYTES. outs.
  rewrite !le16_run, !le32_run, bytes_of_run by (done || (unfold inside; lia)). cbv beta iota.
  replace (disk16 v a) with (disk16 v (a + 0)) by (by rewrite Z.add_0_r). rewrite disk16_near, !disk32_near, disk_bytes_near by (done || lia).
  rewrite split_eq by (by apply rd32_bound). done.
Qed.

Lemma ext4_inode_run fs v (s : B) ino : br_ok (fs_dev fs) v s → fs_ok fs → 0 < ino < 2 ^ 32 → inode_addr v fs ino < 2 ^ 64 →
  ∃ s', ext4_read_inode fs ino s = Ret (inode_at v (inode_addr v fs ino), s') ∧ br_ok (fs_dev fs) v s'.
Proof.
  intros Hok Hf Hi Hlt. destruct (fo_inode _ Hf) as (His & Hid & Hib). pose proof (fo_block _ Hf) as Hbs. pose proof (fo_group _ Hf) as Hgr.
  unfold ext4_read_inode. rewrite decide_False by lia. rewrite u32_small by lia.
  set (g := (ino - 1) / fs_inodes_per_group fs). set (k := (ino - 1) mod fs_inodes_per_group fs).
  assert (Hgk : 0 ≤ g ∧ 0 ≤ k ∧ g < 2 ^ 32 ∧ k < 2 ^ 32).
  { unfold g, k. pose proof (Z.mod_le (ino - 1) (fs_inodes_per_group fs)). pose proof (Z.mod_pos_bound (ino - 1) (fs_inodes_per_group fs)).
    pose proof (Z.div_pos (ino - 1) (fs_inodes_per_group fs)). pose proof (Z.div_le_upper_bound (ino - 1) (fs_inodes_per_group fs) (ino - 1)). nia. }
  destruct (group_table_run fs v s g) as (s1 & Ht & Hok1); [done|done|lia|]. rewrite (bind_Ret _ _ _ _ _ Ht). unfold inode_addr in *. fold g k in Hlt |- *.
  set (a := table_at v fs g * fs_block_size fs + k * fs_inode_size fs) in *.
  assert (Htp : 0 ≤ table_at v fs g).
  { assert (0 ≤ g * fs_desc_size fs) by (pose proof (fo_desc _ Hf); nia). assert (0 ≤ fs_group_desc_block fs * fs_block_size fs) by (pose proof (fo_gdt _ Hf); nia).
    unfold table_at. pose proof (disk32_range v) as Hr.
    pose proof (Hr (fs_group_desc_block fs * fs_block_size fs + g * fs_desc_size fs + 0x08)).
    pose proof (Hr (fs_group_desc_block fs * fs_block_size fs + g * fs_desc_size fs + 0x28)).
    assert (∀ n, 0 ≤ n → block_ok (v n)) by (intros n; by apply (br_len (fs_dev fs) v s)). intuition lia. }
  assert (Ha : 0 ≤ a) by (unfold a; nia).
  rewrite (u64_small (k * _)) by nia. rewrite (u64_small (table_at v fs g * _)) by (unfold a in *; nia). fold a. rewrite u64_small by lia.
  assert (Hn : 0 ≤ a / BSIZE) by (by apply Z.div_pos).
  destruct (with_buf_run (fs_dev fs) v s1 (a / BSIZE) (read_raw_inode (a mod BSIZE)) Hok1 Hn) as (s' & Hw & Hok').
  exists s'. split; [|done]. rewrite Hw.
  rewrite raw_inode_run; [done|by eapply br_len|done|].
  assert (a mod BSIZE + fs_inode_size fs ≤ BSIZE); [|lia]. apply aligned_fits; [lia|done|].
  apply Z.divide_add_r; [by apply Z.divide_mul_r|by apply Z.divide_mul_r, Z.divide_refl].
Qed.

(** ** Files *)

Lemma file_addr_near fs ip x j : 0 < fs_block_size fs → 0 ≤ j → x mod fs_block_size fs + j < fs_block_size fs →
  file_addr fs ip (x + j) = (λ a, a + j) <$> file_addr fs ip x.
Proof.
  intros Hb Hj Hm. assert (E : (x + j) / fs_block_size fs = x / fs_block_size fs ∧ (x + j) mod fs_block_size fs = x mod fs_block_size fs + j).
  { pose proof (Z.div_mod x (fs_block_size fs)). pose proof (Z.mod_pos_bound x (fs_block_size fs)).
    split; [symmetry; apply (Z.div_unique _ _ _ (x mod fs_block_size fs + j))|symmetry; apply (Z.mod_unique _ _ (x / fs_block_size fs))]; lia. }
  unfold file_addr. destruct E as [-> ->]. destruct (head _) as [ex|]; simpl; [f_equal; lia|done].
Qed.
Lemma extent_bounds fs ip b ex : leaf_ok fs ip → head (filter (covers b) (extents ip)) = Some ex →
  covers b ex ∧ 0 ≤ ee_block ex ∧ 0 ≤ ee_start ex ∧ ee_block ex + ee_len ex < 2 ^ 32 ∧ (ee_start ex + ee_len ex) * fs_block_size fs ≤ 2 ^ 64.
Proof.
  intros Hok Hh. assert (Hin : ex ∈ filter (covers b) (extents ip)) by (destruct (filter _ _); [done|simpl in Hh; simplify_eq; left]).
  apply list_elem_of_filter in Hin as [Hc Hin]. pose proof (lo_extents _ _ Hok) as Hx. rewrite Forall_forall in Hx.
  destruct (Hx ex Hin) as [H1 H2]. apply list_elem_of_fmap in Hin as (k & -> & _).
  pose proof (lo_bytes _ _ Hok) as Hb. unfold extent_at in *. cbn [ee_block ee_len ee_start] in *.
  pose proof (rd32_bound (i_block ip) (EXT4_EXT_HEADER_SIZE + k * EXT4_EXTENT_SIZE) Hb).
  pose proof (rd32_bound (i_block ip) (EXT4_EXT_HEADER_SIZE + k * EXT4_EXTENT_SIZE + 8) Hb).
  pose proof (rd16_bound (i_block ip) (EXT4_EXT_HEADER_SIZE + k * EXT4_EXTENT_SIZE + 6) Hb). repeat split; lia || done || apply Hc.
Qed.

(** One round of ext4_read_file copies the bytes up to the end of a block of the
    file system or of the cache, and at least one. *)
Lemma ext4_round_run fs ip v (s : B) offset len n dst :
  br_ok (fs_dev fs) v s → 0 < fs_block_size fs ≤ 2 ^ 31 → leaf_ok fs ip → 0 ≤ offset → offset + len ≤ 2 ^ 32 * fs_block_size fs → 0 ≤ n < len →
  match file_addr fs ip (offset + n) with
  | None => read_file_round fs ip offset len (n, dst) s = Ret (inr (-1, dst), s)
  | Some a => ∃ c s', read_file_round fs ip offset len (n, dst) s = Ret (inl (n + c, dst ++ disk_bytes v a c), s') ∧
      br_ok (fs_dev fs) v s' ∧ 0 < c ≤ len - n ∧ ∀ j, 0 ≤ j < c → file_addr fs ip (offset + n + j) = Some (a + j)
  end.
Proof.
  intros Hok Hbs Hleaf Ho Hlen Hn. unfold read_file_round. rewrite decide_False by lia. rewrite decide_False by lia.
  rewrite (u64_small (offset + n)) by lia. set (x := offset + n). set (b := x / fs_block_size fs). set (r := x mod fs_block_size fs).
  assert (Hr : 0 ≤ r < fs_block_size fs) by (apply Z.mod_pos_bound; lia).
  assert (Hb : 0 ≤ b < 2 ^ 32) by (unfold b; split; [apply Z.div_pos; lia|apply Z.div_lt_upper_bound; lia]).
  rewrite (u32_small b) by done. rewrite (find_extent_run fs) by done. unfold file_addr at 1. fold b r.
  destruct (head (filter (covers b) (extents ip))) as [ex|] eqn:Hh; [|reflexivity]. rewrite at_state_bind. cbn [mbind option_bind].
  destruct (extent_bounds fs ip b ex Hleaf Hh) as ([Hc1 Hc2] & He & Hs & Hw & Hmax).
  set (a := (ee_start ex + (b - ee_block ex)) * fs_block_size fs + r). assert (Ha : 0 ≤ a < 2 ^ 64) by (unfold a; nia).
  rewrite (u32_small (b - ee_block ex)) by lia. rewrite (u64_small (ee_start ex + _)) by nia.
  rewrite (u64_small (_ * fs_block_size fs)) by nia. fold a. rewrite (u64_small a) by done.
  assert (Hm : 0 ≤ a mod BSIZE < BSIZE) by (by apply Z.mod_pos_bound).
  set (c0 := if decide (len - n > BSIZE - a mod BSIZE) then BSIZE - a mod BSIZE else len - n).
  set (c := if decide (c0 > fs_block_size fs - r) then fs_block_size fs - r else c0).
  assert (Hc : 0 < c ≤ len - n ∧ c ≤ BSIZE - a mod BSIZE ∧ c ≤ fs_block_size fs - r) by (unfold c, c0; repeat case_decide; lia).
  assert (Hq : 0 ≤ a / BSIZE) by (apply Z.div_pos; lia || done).
  destruct (with_buf_run (fs_dev fs) v s (a / BSIZE) (λ d, bytes_of d (a mod BSIZE) c) Hok Hq) as (s' & Hw' & Hok').
  destruct (br_len (fs_dev fs) v s (a / BSIZE) Hok Hq) as [Hl Hby].
  rewrite bytes_of_run in Hw' by (unfold inside; lia). exists c, s'. split_and!; [|done|lia|lia|].
  - rewrite (bind_Ret _ _ _ _ _ Hw'). cbn [mret K_ret]. rewrite (u64_small (n + c)) by lia.
    rewrite <-(Z.add_0_r a) at 3. by rewrite disk_bytes_near, Z.add_0_r by (done || lia).
  - intros j Hj. assert (Hx : file_addr fs ip x = Some a) by (unfold file_addr; fold b r; by rewrite Hh).
    rewrite file_addr_near, Hx; [done|lia|lia|]. fold r. lia.
Qed.

Lemma ext4_loop_run fs ip v offset len fuel : 0 < fs_block_size fs ≤ 2 ^ 31 → leaf_ok fs ip → 0 ≤ offset →
  offset + len ≤ 2 ^ 32 * fs_block_size fs → ∀ (s : B) n, br_ok (fs_dev fs) v s → 0 ≤ n ≤ len → len - n < Z.of_nat fuel →
  (∀ i, 0 ≤ i < n → is_Some (file_addr fs ip (offset + i))) →
  ∃ k s', loop fuel (read_file_round fs ip offset len) (n, (λ i, default 0 (file_byte v fs ip i)) <$> seqZ offset n) s =
      Ret ((if decide (k = len) then i32 len else -1, (λ i, default 0 (file_byte v fs ip i)) <$> seqZ offset k), s') ∧
    br_ok (fs_dev fs) v s' ∧ n ≤ k ≤ len ∧ (∀ i, 0 ≤ i < k → is_Some (file_addr fs ip (offset + i))) ∧
    (k < len → file_addr fs ip (offset + k) = None).
Proof.
  intros Hbs Hleaf Ho Hlen. induction fuel as [|fuel IH]; intros s n Hok Hn Hf Hmap; [lia|]. rewrite loop_S.
  destruct (decide (n < len)) as [Hlt|Hge].
  - pose proof (ext4_round_run fs ip v s offset len n ((λ i, default 0 (file_byte v fs ip i)) <$> seqZ offset n) Hok Hbs Hleaf Ho Hlen ltac:(lia)) as Hround.
    destruct (file_addr fs ip (offset + n)) as [a|] eqn:Ha.
    + destruct Hround as (c & s1 & Hrun & Hok1 & Hc & Hj). rewrite (bind_Ret _ _ _ _ _ Hrun).
      assert (E : ((λ i, default 0 (file_byte v fs ip i)) <$> seqZ offset n) ++ disk_bytes v a c = (λ i, default 0 (file_byte v fs ip i)) <$> seqZ offset (n + c)).
      { rewrite seqZ_app, fmap_app by lia. f_equal. unfold disk_bytes. apply list_eq. intros i. rewrite !list_lookup_fmap.
        destruct (seqZ a c !! i) as [y|] eqn:Ey.
        - apply lookup_seqZ in Ey as [-> Hi]. assert (Ez : seqZ (offset + n) c !! i = Some (offset + n + Z.of_nat i)) by (apply lookup_seqZ; done).
          rewrite Ez. simpl. unfold file_byte. by rewrite Hj by lia.
        - apply lookup_seqZ_ge in Ey || (apply lookup_ge_None in Ey). rewrite length_seqZ in Ey. rewrite (lookup_ge_None_2 (seqZ (offset + n) c)); [done|by rewrite length_seqZ]. }
      rewrite E. destruct (IH s1 (n + c)) as (k & s' & Hl & Hok' & Hk & Hmap' & Hnone); [done|lia|lia| |].
      * intros i Hi. destruct (decide (i < n)); [apply Hmap; lia|]. replace (offset + i) with (offset + n + (i - n)) by lia. rewrite Hj by lia. done.
      * exists k, s'. split_and!; try done; lia.
    + rewrite (bind_Ret _ _ _ _ _ Hround). exists n, s. rewrite decide_False by lia. split_and!; try done; lia.
  - assert (n = len) as -> by lia. exists len, s. rewrite decide_True by done. split_and!; try done; try lia.
    erewrite bind_Ret; [|unfold read_file_round; rewrite decide_True by lia; reflexivity]. done.
Qed.

(** ** The superblock *)

(** No bit of [x] outside the mask [m]. *)
Lemma no_unknown_bits x m : 0 ≤ x < 2 ^ 32 → 0 ≤ m < 2 ^ 32 →
  Z.land x (not32 m) = 0 ↔ ∀ i, 0 ≤ i → Z.testbit x i = true → Z.testbit m i = true.
Proof.
  intros Hx Hm. assert (Hbit : ∀ i, 0 ≤ i → Z.testbit (not32 m) i = bool_decide (i < 32) && negb (Z.testbit m i)).
  { intros i Hi. unfold not32. change (2 ^ 32 - 1) with (Z.ones 32). rewrite Z.sub_nocarry_ldiff.
    - rewrite Z.ldiff_spec. destruct (decide (i < 32)) as [Hlt|Hge].
      + by rewrite Z.ones_spec_low, bool_decide_eq_true_2 by lia.
      + by rewrite Z.ones_spec_high, bool_decide_eq_false_2 by lia.
    - destruct (decide (m = 0)) as [->|]; [done|]. apply Z.ldiff_ones_r_low; [lia|]. apply Z.log2_lt_pow2; lia. }
  split.
  - intros H0 i Hi Hxi. assert (Hb : Z.testbit (Z.land x (not32 m)) i = false) by (rewrite H0; apply Z.bits_0).
    rewrite Z.land_spec, Hxi, Hbit in Hb by done. destruct (Z.testbit m i); [done|].
    destruct (decide (i < 32)) as [Hlt|Hge]; [by rewrite bool_decide_eq_true_2 in Hb|]. by rewrite (testbit_high x 32) in Hxi by lia.
  - intros Hall. apply Z.bits_inj'. intros i Hi. rewrite Z.land_spec, Z.bits_0, Hbit by done. destruct (Z.testbit x i) eqn:E; [|done].
    rewrite (Hall i Hi E), andb_false_r. done.
Qed.
Lemma mask_bits i m l : 0 ≤ i → m < 2 ^ 16 → 0 ≤ m → (∀ k, (k < 16)%nat → Z.testbit m (Z.of_nat k) = bool_decide (Z.of_nat k ∈ l)) →
  Forall (λ k, k < 16) l → Z.testbit m i = true ↔ i ∈ l.
Proof.
  intros Hi Hm H0 Hk Hl. destruct (decide (i < 16)) as [Hlt|Hge].
  - specialize (Hk (Z.to_nat i) ltac:(lia)). rewrite Z2Nat.id in Hk by done. rewrite Hk. apply bool_decide_eq_true.
  - rewrite (testbit_high m 16) by lia. split; [done|]. intros Hin. rewrite Forall_forall in Hl. specialize (Hl i Hin). lia.
Qed.
Lemma low16 (P : nat → Prop) : Forall P (seq 0 16) → ∀ k, (k < 16)%nat → P k.
Proof. intros HF k Hk. rewrite Forall_forall in HF. apply HF. apply elem_of_seq. lia. Qed.

Lemma check_features_run fs : 0 ≤ fs_feature_incompat fs < 2 ^ 32 → 0 ≤ fs_feature_ro_compat fs < 2 ^ 32 →
  (ext4_check_features fs = 0 ∧ known_features fs) ∨ (ext4_check_features fs = -1 ∧ ¬ known_features fs).
Proof.
  intros Hi Hr. unfold ext4_check_features, known_features.
  assert (Mi : ∀ i, 0 ≤ i → Z.testbit supported_incompat i = true ↔ i ∈ [1; 6; 7; 9]).
  { intros i H0. apply mask_bits; [done|done|done| |repeat constructor]. apply low16. repeat (constructor; [reflexivity|]). constructor. }
  assert (Mr : ∀ i, 0 ≤ i → Z.testbit supported_ro_compat i = true ↔ i ∈ [0; 1; 3; 5; 6; 10]).
  { intros i H0. apply mask_bits; [done|done|done| |repeat constructor]. apply low16. repeat (constructor; [reflexivity|]). constructor. }
  pose proof (no_unknown_bits _ supported_incompat Hi ltac:(done)) as Ni. pose proof (no_unknown_bits _ supported_ro_compat Hr ltac:(done)) as Nr.
  change 0x0040 with (2 ^ 6). rewrite land_pow2 by done.
  destruct (decide (Z.land (fs_feature_incompat fs) (not32 supported_incompat) ≠ 0)) as [H1|H1].
  { right. split; [done|]. intros (Ha & _). apply H1, Ni. intros i H0 Hb. apply Mi; [done|]. by apply Ha. }
  destruct (decide (Z.land (fs_feature_ro_compat fs) (not32 supported_ro_compat) ≠ 0)) as [H2|H2].
  { right. split; [done|]. intros (_ & Ha & _). apply H2, Nr. intros i H0 Hb. apply Mr; [done|]. by apply Ha. }
  apply dec_stable in H1. apply dec_stable in H2. destruct (Z.testbit (fs_feature_incompat fs) 6).
  - left. rewrite decide_False by done. split; [done|]. split_and!; [| |done]; intros i H0 Hb.
    + apply Mi; [done|]. by apply Ni.
    + apply Mr; [done|]. by apply Nr.
  - right. rewrite decide_True by done. split; [done|]. by intros (_ & _ & ?).
Qed.

Lemma super_run v dev : block_ok (v 0) → disk32 v (EXT4_SUPER_OFFSET + 0x18) < 32 →
  read_super dev (v 0) = Ret (if decide (disk16 v (EXT4_SUPER_OFFSET + 0x38) = EXT4_SUPER_MAGIC) then Some (super_at v dev) else None).
Proof.
  intros [Hl Hb] Hlog. unfold read_super, super_at. unfold EXT4_SUPER_OFFSET in *. unfold BSIZE in Hl. outs.
  assert (E16 : ∀ a, 0 ≤ a → a + 2 ≤ BSIZE → rd16 (v 0) a = disk16 v a) by (intros a H0 H1; symmetry; apply (disk16_near v 0 a); [done|change (0 mod BSIZE) with 0; lia]).
  assert (E32 : ∀ a, 0 ≤ a → a + 4 ≤ BSIZE → rd32 (v 0) a = disk32 v a) by (intros a H0 H1; symmetry; apply (disk32_near v 0 a); [done|change (0 mod BSIZE) with 0; lia]).
  unfold BSIZE in E16, E32. rewrite !le16_run, !le32_run by (done || (unfold inside; lia)).
  pose proof (rd32_bound (v 0) (1024 + 0x18) Hb). pose proof (rd32_bound (v 0) (1024 + 0x04) Hb). pose proof (rd32_bound (v 0) (1024 + 0x150) Hb).
  rewrite !E16, !E32 in * by lia.
  destruct (decide (disk16 v (1024 + 56) = EXT4_SUPER_MAGIC)) as [Hm|Hm]; [|by rewrite decide_True].
  rewrite decide_False by auto. rewrite decide_False by lia. rewrite split_eq by done. rewrite Z.shiftl_mul_pow2 by lia. done.
Qed.

(** ** Any inode *)

(** With at most four entries the extents are read inside i_block. *)
Lemma find_total ip b : Z.of_nat (length (i_block ip)) = EXT4_INODE_BLOCK_BYTES → Forall byte_ok (i_block ip) → rd16 (i_block ip) 2 ≤ 4 →
  ∃ r, ext4_find_extent ip b = Ret r.
Proof.
  intros Hl Hb He. unfold EXT4_INODE_BLOCK_BYTES in Hl. unfold ext4_find_extent, ext4_read_extent_header. outs.
  rewrite !le16_run, !le32_run by (done || (unfold inside; lia)). case_decide; [by eexists|]. case_decide; [by eexists|]. cbn [eh_entries].
  assert (Hs : Forall (λ k, 0 ≤ k < 4) (seqZ 0 (rd16 (i_block ip) 2))) by (apply Forall_forall; intros k Hk%elem_of_seqZ; lia).
  revert Hs. generalize (seqZ 0 (rd16 (i_block ip) 2)). intros l. induction 1 as [|k l Hk Hl' IH]; [by eexists|].
  cbn [find_extent_loop]. unfold ext4_read_extent, EXT4_EXT_HEADER_SIZE, EXT4_EXTENT_SIZE. outs.
  rewrite !le16_run, !le32_run by (done || (unfold inside; lia)). case_decide; [by eexists|]. exact IH.
Qed.

Lemma read_round_total fs ip v (s : B) offset len n dst :
  br_ok (fs_dev fs) v s → 0 < fs_block_size fs → Z.of_nat (length (i_block ip)) = EXT4_INODE_BLOCK_BYTES → Forall byte_ok (i_block ip) →
  rd16 (i_block ip) 2 ≤ 4 → 0 ≤ len < 2 ^ 64 → 0 ≤ n ≤ len →
  ∃ r s', read_file_round fs ip offset len (n, dst) s = Ret (r, s') ∧ br_ok (fs_dev fs) v s' ∧
    match r with inl (n', _) => n < n' ≤ len | inr _ => True end.
Proof.
  intros Hok Hbs Hl Hb He Hlen Hn. unfold read_file_round. case_decide as Hlt; [by eexists _, s|]. rewrite decide_False by lia.
  destruct (find_total ip (u32 (u64 (offset + n) / fs_block_size fs)) Hl Hb He) as [[ex|] ->]; rewrite at_state_bind; [|by eexists _, s].
  set (r := u64 (offset + n) mod fs_block_size fs). assert (Hr : 0 ≤ r < fs_block_size fs) by (by apply Z.mod_pos_bound).
  match goal with |- context [?a / BSIZE] => set (q := a) end.
  assert (Hm : 0 ≤ q mod BSIZE < BSIZE) by (by apply Z.mod_pos_bound). assert (Hq : 0 ≤ q / BSIZE) by (apply Z.div_pos; [apply u64_range|done]).
  match goal with |- context [bytes_of _ _ ?x] => set (c := x) end.
  assert (Hc : 0 < c ≤ len - n ∧ c ≤ BSIZE - q mod BSIZE) by (unfold c; repeat case_decide; lia).
  destruct (with_buf_run (fs_dev fs) v s (q / BSIZE) (λ d, bytes_of d (q mod BSIZE) c) Hok Hq) as (s' & Hw & Hok').
  destruct (br_len (fs_dev fs) v s (q / BSIZE) Hok Hq) as [Hlb _]. rewrite bytes_of_run in Hw by (unfold inside; lia).
  rewrite (bind_Ret _ _ _ _ _ Hw). eexists _, s'. split; [reflexivity|]. split; [done|]. rewrite u64_small; lia.
Qed.
End lemmas.

(** * Theorems *)

Section theorems.
Context {B : Type} `{BlockReader B}.

(** Mounting reads the superblock of an image and accepts it exactly when the
    magic number is there and every feature is one the reader knows. *)
Theorem ext4_mount_spec dev v (s : B) :
  br_ok dev v s → disk32 v (EXT4_SUPER_OFFSET + 0x18) < 32 →
  ∃ r s', ext4_mount dev s = Ret (r, s') ∧ br_ok dev v s' ∧
    if decide (disk16 v (EXT4_SUPER_OFFSET + 0x38) = EXT4_SUPER_MAGIC)
    then r.2 = Some (super_at v dev) ∧ (r.1 = 0 ∧ known_features (super_at v dev) ∨ r.1 = -1 ∧ ¬ known_features (super_at v dev))
    else r = (-1, None).
Proof.
  intros Hok Hlog. assert (Hv : ∀ n, 0 ≤ n → block_ok (v n)) by (intros n; by apply (br_len dev v s)).
  destruct (with_buf_run dev v s 0 (read_super dev) Hok ltac:(done)) as (s' & Hw & Hok').
  rewrite super_run in Hw by (done || by apply Hv). unfold ext4_mount. rewrite (bind_Ret _ _ _ _ _ Hw). case_decide.
  - eexists _, s'. split; [reflexivity|]. split; [done|]. split; [done|]. apply check_features_run; by apply disk32_range.
  - eexists _, s'. split; [reflexivity|]. done.
Qed.

(** The inode [ino] is read from its place in the inode table of its group. *)
Theorem ext4_read_inode_spec fs v (s : B) ino :
  br_ok (fs_dev fs) v s → fs_ok fs → 0 < ino < 2 ^ 32 → inode_addr v fs ino < 2 ^ 64 →
  ∃ s', ext4_read_inode fs ino s = Ret (inode_at v (inode_addr v fs ino), s') ∧ br_ok (fs_dev fs) v s'.
Proof. apply ext4_inode_run. Qed.

(** C20: ext4_read_file copies the bytes that the extents of the inode give
    for the offsets from the start on, as many as asked for or as the file
    has, across blocks of the file system and of the cache; it returns -1
    exactly at the first byte that no extent covers. *)
Theorem ext4_read_file_spec fs ip v (s : B) offset len :
  br_ok (fs_dev fs) v s → 0 < fs_block_size fs ≤ 2 ^ 31 → leaf_ok fs ip → 0 ≤ i_size ip ≤ 2 ^ 32 * fs_block_size fs →
  0 ≤ offset → 0 ≤ len < 2 ^ 32 →
  let n := Z.max 0 (Z.min len (i_size ip - offset)) in
  ∃ k s', ext4_read_file fs ip offset len s =
      Ret ((if decide (k = n) then i32 n else -1, (λ i, default 0 (file_byte v fs ip i)) <$> seqZ offset k), s') ∧
    br_ok (fs_dev fs) v s' ∧ 0 ≤ k ≤ n ∧ (∀ i, 0 ≤ i < k → is_Some (file_addr fs ip (offset + i))) ∧
    (k < n → file_addr fs ip (offset + k) = None).
Proof.
  intros Hok Hbs Hleaf Hsz Ho Hlen n. unfold ext4_read_file. case_decide as Hend.
  - assert (n = 0) as -> by lia. exists 0, s. split_and!; done || lia.
  - rewrite u64_small by lia.
    assert (E : (if decide (offset + len > i_size ip) then i_size ip - offset else len) = n) by (unfold n; case_decide; lia). rewrite E.
    apply (ext4_loop_run fs ip v offset n (S (Z.to_nat n)) Hbs Hleaf Ho ltac:(lia) s 0); [done|lia|lia|lia].
Qed.

(** ext4_read_file ends on every inode with at most four extents, whatever the
    rest of its i_block says: every round copies at least one byte. *)
Theorem ext4_read_file_total fs ip v (s : B) offset len :
  br_ok (fs_dev fs) v s → 0 < fs_block_size fs → Z.of_nat (length (i_block ip)) = EXT4_INODE_BLOCK_BYTES → Forall byte_ok (i_block ip) →
  rd16 (i_block ip) 2 ≤ 4 → 0 ≤ i_size ip < 2 ^ 64 → 0 ≤ offset → 0 ≤ len < 2 ^ 64 →
  ∃ r s', ext4_read_file fs ip offset len s = Ret (r, s') ∧ br_ok (fs_dev fs) v s'.
Proof.
  intros Hok Hbs Hl Hb He Hsz Ho Hlen. unfold ext4_read_file. case_decide as Hend; [by exists (0, []), s|].
  set (n := if decide (u64 (offset + len) > i_size ip) then i_size ip - offset else len).
  assert (Hn : 0 ≤ n < 2 ^ 64) by (unfold n; case_decide; lia). clearbody n.
  assert (Hrun : ∀ fuel (s : B) d dst, br_ok (fs_dev fs) v s → 0 ≤ d ≤ n → n - d < Z.of_nat fuel →
    ∃ r s', loop fuel (read_file_round fs ip offset n) (d, dst) s = Ret (r, s') ∧ br_ok (fs_dev fs) v s').
  { induction fuel as [|fuel IH]; intros s1 d dst Hok1 Hd Hf; [lia|]. rewrite loop_S.
    destruct (read_round_total fs ip v s1 offset n d dst) as (r & s2 & Hr & Hok2 & Hm); [done..|].
    rewrite (bind_Ret _ _ _ _ _ Hr). destruct r as [[d' dst']|r]; [apply IH; [done|lia|lia]|by exists r, s2]. }
  apply Hrun; [done|lia|lia].
Qed.
End theorems.

(** * A small image *)

(** A device that is only read, as its blocks. *)
Definition flat_reader (disk : Z → block) (Hdisk : ∀ n, block_ok (disk n)) : BlockReader unit.
Proof.
  refine {| br_bread := λ dev n s, Ret (n, s); br_data := λ h s, Ret (disk h, s); br_brelse := λ h s, Ret (tt, s);
    br_ok := λ dev v s, ∀ n, v n = disk n |}.
  - intros dev v s n Hv _. by rewrite Hv.
  - intros dev v [] n Hv _. exists n, tt, tt. split_and!; try done. by rewrite Hv.
Defined.

#[export] Instance byte_ok_dec x : Decision (byte_ok x).
Proof. unfold byte_ok. apply _. Defined.
#[export] Instance block_ok_dec b : Decision (block_ok b).
Proof. unfold block_ok. apply _. Defined.

(** An inode whose file is [len] blocks from block [start]. *)
Definition demo_put_inode (d : block) (o size len start : Z) : block :=
  let d := wr32 (wr32 (wr16 d o 0x81a4) (o + 0x04) size) (o + 0x20) 0x80000 in
  let d := wr16 (wr16 (wr16 d (o + 0x28) EXT4_EXT_MAGIC) (o + 0x2a) 1) (o + 0x2c) 4 in
  wr32 (wr16 d (o + 0x28 + 12 + 4) len) (o + 0x28 + 12 + 8) start.
Definition demo_put_dirent (d : block) (o ino len type : Z) (name : list Z) : block :=
  blit (set_byte (set_byte (wr16 (wr32 d o ino) (o + 4) len) (o + 6) (Z.of_nat (length name))) (o + 7) type) (o + 8) name.

(** Group descriptors in block 1, inodes in block 2; inode 2 is the root, with the
    directory blocks 3 and 4, inode 3 a file of ten bytes in block 5, inode 4 a
    directory with the block 4.  Block 3 ends with an empty record, as every
    directory block does where METADATA_CSUM is set. *)
Definition demo_fs : ext4_fs := mk_fs 0 4096 64 64 32768 64 256 64 1 0 0x2c2 0x400.
Definition demo_super : block :=
  let d := wr32 (wr16 (wr32 zero_block 1024 64) (1024 + 0x38) EXT4_SUPER_MAGIC) (1024 + 0x18) 2 in
  let d := wr32 (wr32 (wr32 d (1024 + 0x04) 64) (1024 + 0x20) 32768) (1024 + 0x28) 64 in
  wr32 (wr32 (wr16 (wr16 d (1024 + 0x58) 256) (1024 + 0xfe) 64) (1024 + 0x60) 0x2c2) (1024 + 0x64) 0x400.
Definition demo_disk (n : Z) : block :=
  if decide (n = 0) then demo_super
  else if decide (n = 1) then wr32 zero_block 8 2
  else if decide (n = 2) then demo_put_inode (demo_put_inode (demo_put_inode zero_block 256 8192 2 3) 512 10 1 5) 768 4096 1 4
  else if decide (n = 3) then
    demo_put_dirent (demo_put_dirent (demo_put_dirent zero_block 0 2 12 2 [46]) 12 3 4072 1 [97]) 4084 0 12 0xde []
  else if decide (n = 4) then demo_put_dirent zero_block 0 3 4096 1 [98]
  else if decide (n = 5) then blit zero_block 0 [104; 101; 108; 108; 111; 119; 111; 114; 108; 100]
  else zero_block.
Lemma demo_disk_ok n : block_ok (demo_disk n).
Proof. unfold demo_disk. repeat case_decide; apply (bool_decide_unpack _); vm_compute; exact I. Qed.
#[local] Instance demo_reader : BlockReader unit := flat_reader demo_disk demo_disk_ok.

Definition demo_inode (k : Z) : ext4_inode := inode_at demo_disk (8192 + 256 * k).
Lemma demo_fs_ok : fs_ok demo_fs.
Proof. split; simpl; try done; split; try done; split; [exists 16|exists 16|exists 64|exists 64]; done. Qed.
Lemma demo_leaf_ok k : 1 ≤ k ≤ 3 → leaf_ok demo_fs (demo_inode k).
Proof.
  intros Hk. assert (k = 1 ∨ k = 2 ∨ k = 3) as [->|[->| ->]] by lia; (split; [vm_compute; reflexivity|apply (bool_decide_unpack _); vm_compute; exact I|
    vm_compute; reflexivity|vm_compute; reflexivity|vm_compute; discriminate|apply (bool_decide_unpack _); vm_compute; exact I]).
Qed.

Lemma ext4_mount_spec_witness :
  ∃ r s', ext4_mount 0 tt = Ret (r, s') ∧ br_ok 0 demo_disk s' ∧ r.2 = Some (super_at demo_disk 0).
Proof.
  destruct (ext4_mount_spec 0 demo_disk tt) as (r & s' & Hr & Hok & Hm); [intros n; reflexivity|vm_compute; reflexivity|].
  exists r, s'. split; [exact Hr|]. split; [exact Hok|].
  destruct (decide (disk16 demo_disk (EXT4_SUPER_OFFSET + 0x38) = EXT4_SUPER_MAGIC)) as [|Hne]; [exact (proj1 Hm)|].
  destruct Hne. vm_compute. reflexivity.
Defined.
Lemma ext4_read_inode_spec_witness :
  ∃ s', ext4_read_inode demo_fs 3 tt = Ret (inode_at demo_disk (inode_addr demo_disk demo_fs 3), s') ∧ br_ok 0 demo_disk s'.
Proof.
  apply (ext4_read_inode_spec demo_fs demo_disk tt 3); [intros n; reflexivity|exact demo_fs_ok|lia|vm_compute; reflexivity].
Defined.
Lemma ext4_read_file_spec_witness : ∃ k s' dst, ext4_read_file demo_fs (demo_inode 2) 2 32 tt = Ret ((if decide (k = 8) then 8 else -1, dst), s').
Proof.
  destruct (ext4_read_file_spec demo_fs (demo_inode 2) demo_disk tt 2 32) as (k & s' & Hr & _);
    [intros n; reflexivity|simpl; lia|apply demo_leaf_ok; lia|split; vm_compute; discriminate|lia|lia|].
  exists k, s'. eexists. exact Hr.
Defined.
Example demo_read : ext4_read_file demo_fs (demo_inode 2) 2 32 tt = Ret ((8, [108; 108; 111; 119; 111; 114; 108; 100]), tt).
Proof. vm_compute. reflexivity. Qed.
Lemma ext4_read_file_total_witness : ∃ r s', ext4_read_file demo_fs (demo_inode 2) 0 (2 ^ 40) tt = Ret (r, s') ∧ br_ok 0 demo_disk s'.
Proof.
  apply (ext4_read_file_total demo_fs (demo_inode 2) demo_disk tt 0 (2 ^ 40)); [intros n; reflexivity|reflexivity|vm_compute; reflexivity| |vm_compute; discriminate|
    split; [vm_compute; discriminate|vm_compute; reflexivity]|lia|lia].
  apply (bool_decide_unpack _). vm_compute. exact I.
Defined.

(** s_desc_size is 0 in an image without the 64BIT feature, which ext4_mount
    accepts: then every group has the inode table of group 0. *)
Example legacy_groups {B} `{BlockReader B} fs g (s : B) : fs_desc_size fs = 0 →
  ext4_read_inode_table_block fs g s = ext4_read_inode_table_block fs 0 s.
Proof. intros Hd. unfold ext4_read_inode_table_block. by rewrite Hd, Z.mul_0_r. Qed.
(** A fifth extent lies outside i_block; nothing checks [eh_entries]. *)
Example extent_overrun : ext4_find_extent (mk_inode 0 0 0 0 (<[2%nat := 5]> (i_block (demo_inode 2)))) 7 = Fault.
Proof. vm_compute. reflexivity. Qed.
