(* ===== verification/Ext4Dir.v ===== *)
(** kernel/fs/ext4fs/dir.c: the directories of ext4, by name, by position and by
    path.

    A directory block is a chain of records; [dir_chain] reads it as a list of
    [drec].  Looking a name up, stepping through a directory and resolving a path
    are related to those lists. *)
From S2P Require Import Prelude Block Path Vfs Ext4.

Definition EXT4_DIRENT_NAME : Z := 8.
Definition EXT4_NAME_MAX : Z := 255.
Definition EXT4_FT_REG_FILE : Z := 1.
Definition EXT4_FT_DIR : Z := 2.

(** struct vfs_dirent: [name] is the bytes before the terminator that the code
    stores, at most [DIRENT_NAME_SIZE - 1]. *)
Definition DIRENT_NAME_SIZE : Z := 28.
Record vfs_dirent := mk_dirent { de_name : cstring; de_ino : Z; de_type : Z }.

(** [strncmp(p, q, n) == 0]; [q] ends with a terminator. *)
Fixpoint strncmp_eq (n : nat) (p q : list Z) : bool :=
  match n with
  | O => true
  | S n =>
      let a := default 0 (head p) in
      let b := default 0 (head q) in
      if decide (a ≠ b) then false else if decide (a = 0) then true else strncmp_eq n (tail p) (tail q)
  end.
(** The raw name is at [raw_name] of the buffer. *)
Definition ext4_name_eq (d : block) (raw_name raw_len : Z) (name : cstring) : outcome bool :=
  if decide (Z.of_nat (length name) ≠ raw_len) then mret false else
  raw ← bytes_of d raw_name raw_len;
  mret (strncmp_eq (Z.to_nat raw_len) raw name).

(** The loop of ext4_lookup_dir over the block that starts at [base] of the
    buffer: the result, and with 1 the entry and the position after it.  A
    record has at least 8 bytes, so [bs / 8 + 1] rounds are enough. *)
Fixpoint lookup_dir_loop (fuel : nat) (bs base : Z) (d : block) (offset : Z) : outcome (Z * option (vfs_dirent * Z)) :=
  match fuel with
  | O => NoFuel
  | S fuel =>
      if decide (¬ offset < bs) then mret (0, None) else
      let dirent := base + offset in
      entry_ino ← le32 d (dirent + 0x00);
      rec_len ← le16 d (dirent + 0x04);
      name_len ← le8 d (dirent + 0x06);
      entry_type ← le8 d (dirent + 0x07);
      if decide (rec_len < EXT4_DIRENT_NAME ∨ offset + rec_len > bs) then mret (-1, None) else
      let offset := offset + rec_len in
      if decide (entry_ino = 0 ∨ name_len = 0 ∨ name_len > EXT4_NAME_MAX ∨ EXT4_DIRENT_NAME + name_len > rec_len)
      then lookup_dir_loop fuel bs base d offset else
      let n := if decide (name_len < DIRENT_NAME_SIZE - 1) then name_len else DIRENT_NAME_SIZE - 1 in
      name ← bytes_of d (dirent + EXT4_DIRENT_NAME) n;
      mret (1, Some (mk_dirent name entry_ino (if decide (entry_type = EXT4_FT_DIR) then VFS_DIR else VFS_FILE), offset))
  end.
Definition dir_fuel (bs : Z) : nat := S (Z.to_nat (bs / 8)).

(** The loop of ext4_lookup_in_dir_block: the inode number and the file type of
    the entry, or [None] for -1. *)
Fixpoint dir_block_loop (fuel : nat) (bs base : Z) (d : block) (name : cstring) (offset : Z) : outcome (option (Z * Z)) :=
  match fuel with
  | O => NoFuel
  | S fuel =>
      if decide (¬ offset < bs) then mret None else
      let dirent := base + offset in
      entry_ino ← le32 d (dirent + 0x00);
      rec_len ← le16 d (dirent + 0x04);
      name_len ← le8 d (dirent + 0x06);
      entry_type ← le8 d (dirent + 0x07);
      if decide (rec_len < EXT4_DIRENT_NAME ∨ offset + rec_len > bs) then mret None else
      if decide (entry_ino ≠ 0 ∧ name_len ≤ EXT4_NAME_MAX ∧ EXT4_DIRENT_NAME + name_len ≤ rec_len) then
        eq ← ext4_name_eq d (dirent + EXT4_DIRENT_NAME) name_len name;
        if eq : bool then mret (Some (entry_ino, entry_type))
        else dir_block_loop fuel bs base d name (offset + rec_len)
      else dir_block_loop fuel bs base d name (offset + rec_len)
  end.

(** The loops of ext4_readdir_at up to the block that [seen] counts to: the block,
    or the count after the blocks of the extent. *)
Fixpoint count_blocks (start target seen : Z) (js : list Z) : Z + Z :=
  match js with
  | [] => inl seen
  | j :: js => if decide (seen = target) then inr (u64 (start + j)) else count_blocks start target (u64 (seen + 1)) js
  end.
Fixpoint nth_block (ip : ext4_inode) (target seen : Z) (l : list Z) : outcome (option Z) :=
  match l with
  | [] => mret None
  | i :: l =>
      ex ← ext4_read_extent ip i;
      match count_blocks (ee_start ex) target seen (seqZ 0 (ee_len ex)) with
      | inr b => mret (Some b)
      | inl seen => nth_block ip target seen l
      end
  end.

Section directories.
Context {B : Type} `{BlockReader B}.

Definition ext4_lookup_dir (fs : ext4_fs) (blk offset_in_block : Z) : K B (Z * option (vfs_dirent * Z)) :=
  let byte_offset := u64 (blk * fs_block_size fs) in
  with_buf (fs_dev fs) (byte_offset / BSIZE) (λ d,
    lookup_dir_loop (dir_fuel (fs_block_size fs)) (fs_block_size fs) (byte_offset mod BSIZE) d offset_in_block).

(** The result, [*offset] and what is stored in [*dir]. *)
Definition ext4_readdir_at (fs : ext4_fs) (ip : ext4_inode) (offset : Z) : K B (Z * Z * option vfs_dirent) :=
  eh ← at_state (ext4_read_extent_header ip);
  match eh with
  | None => mret (-1, offset, None)
  | Some eh =>
      if decide (eh_depth eh ≠ 0) then mret (-1, offset, None) else
      if decide (fs_block_size fs = 0) then kfault else
      let logical_block := offset / fs_block_size fs in
      let in_block := offset mod fs_block_size fs in
      b ← at_state (nth_block ip logical_block 0 (seqZ 0 (eh_entries eh)));
      match b with
      | None => mret (0, offset, None)
      | Some b =>
          '(r, e) ← ext4_lookup_dir fs b in_block;
          match e with
          | Some (dir, in_block) => mret (r, u64 (logical_block * fs_block_size fs + in_block), Some dir)
          | None =>
              if decide (r = 0) then mret (r, u64 ((logical_block + 1) * fs_block_size fs), None)
              else mret (r, offset, None)
          end
      end
  end.

Definition ext4_lookup_in_dir_block (fs : ext4_fs) (blk : Z) (name : cstring) : K B (option (Z * Z)) :=
  let byte_offset := u64 (blk * fs_block_size fs) in
  with_buf (fs_dev fs) (byte_offset / BSIZE) (λ d,
    dir_block_loop (dir_fuel (fs_block_size fs)) (fs_block_size fs) (byte_offset mod BSIZE) d name 0).

Definition ext4_lookup_in_dir (fs : ext4_fs) (dir : ext4_inode) (name : cstring) : K B (option (Z * Z)) :=
  eh ← at_state (ext4_read_extent_header dir);
  match eh with
  | None => mret None
  | Some eh =>
      if decide (eh_depth eh ≠ 0) then mret None else
      for_find (seqZ 0 (eh_entries eh)) (λ i,
        ex ← at_state (ext4_read_extent dir i);
        for_find (seqZ 0 (ee_len ex)) (λ j, ext4_lookup_in_dir_block fs (u64 (ee_start ex + j)) name))
  end.

(** The loop of ext4_lookup_path_ino: every round passes at least one byte of
    the path.  The result is the inode, its file type and its number. *)
Fixpoint path_loop (fuel : nat) (fs : ext4_fs) (cur : ext4_inode) (cur_type cur_ino : Z) (path : cstring) :
    K B (option (ext4_inode * Z * Z)) :=
  match fuel with
  | O => λ _, NoFuel
  | S fuel =>
      match skipelem path with
      | None => mret (Some (cur, cur_type, cur_ino))
      | Some (name, path) =>
          if decide (cur_type ≠ EXT4_FT_DIR) then mret None else
          r ← ext4_lookup_in_dir fs cur name;
          match r with
          | None => mret None
          | Some (next_ino, next_type) =>
              cur ← ext4_read_inode fs next_ino;
              path_loop fuel fs cur next_type next_ino path
          end
      end
  end.
Definition ext4_lookup_path_ino (fs : ext4_fs) (path : cstring) : K B (option (ext4_inode * Z * Z)) :=
  if decide (head path ≠ Some SLASH) then mret None else
  root ← ext4_read_inode fs EXT4_ROOT_INO;
  path_loop (S (length path)) fs root EXT4_FT_DIR EXT4_ROOT_INO path.
End directories.

(** * Reference: the records of a directory *)

Record drec := mk_drec { r_ino : Z; r_rec_len : Z; r_nlen : Z; r_name : cstring; r_type : Z }.
Definition drec_at (d : block) (o : Z) : drec :=
  mk_drec (rd32 d o) (rd16 d (o + 4)) (byte_at d (o + 6)) (slice d (o + 8) (byte_at d (o + 6))) (byte_at d (o + 7)).

(** The records from [o] to the end of the block. *)
Fixpoint dir_chain (d : block) (base bs o : Z) (l : list drec) : Prop :=
  match l with
  | [] => o = bs
  | r :: l => r = drec_at d (base + o) ∧ 8 ≤ r_rec_len r ∧ o + r_rec_len r ≤ bs ∧ dir_chain d base bs (o + r_rec_len r) l
  end.

(** A record in use, and the one with a name. *)
Definition live (r : drec) : Prop := r_ino r ≠ 0 ∧ r_nlen r ≠ 0 ∧ 8 + r_nlen r ≤ r_rec_len r.
#[export] Instance live_dec r : Decision (live r).
Proof. unfold live. apply _. Defined.
Definition find_name (name : cstring) (r : drec) : option (Z * Z) :=
  if decide (live r ∧ r_name r = name) then Some (r_ino r, r_type r) else None.
Definition first {A R} (f : A → option R) (l : list A) : option R := head (omap f l).

Definition dirent_of (r : drec) : vfs_dirent :=
  mk_dirent (take 27 (r_name r)) (r_ino r) (if decide (r_type r = EXT4_FT_DIR) then VFS_DIR else VFS_FILE).
(** The next record in use from [o] on, and the position after it. *)
Fixpoint next_live (o : Z) (l : list drec) : option (drec * Z) :=
  match l with
  | [] => None
  | r :: l => if decide (live r) then Some (r, o + r_rec_len r) else next_live (o + r_rec_len r) l
  end.

(** The blocks of a directory, and the records of each. *)
Definition dir_blocks (ip : ext4_inode) : list Z := extents ip ≫= λ ex, (λ j, ee_start ex + j) <$> seqZ 0 (ee_len ex).
Definition block_chain (v : Z → block) (fs : ext4_fs) (b : Z) (l : list drec) : Prop :=
  dir_chain (v (b * fs_block_size fs / BSIZE)) (b * fs_block_size fs mod BSIZE) (fs_block_size fs) 0 l.
Record dir_ok (v : Z → block) (fs : ext4_fs) (ip : ext4_inode) (ls : list (list drec)) : Prop := {
  do_leaf : leaf_ok fs ip;
  do_size : 0 < fs_block_size fs ∧ (fs_block_size fs | BSIZE);
  do_blocks : Forall2 (block_chain v fs) (dir_blocks ip) ls
}.

(** * Lemmas *)

(** ** Names *)

Lemma strncmp_eq_spec p q : length p = length q → Forall (.≠ 0) q → strncmp_eq (length q) p q = bool_decide (p = q).
Proof.
  revert p. induction q as [|b q IH]; intros [|a p] Hl Hq; try done. inversion_clear Hq as [|?? Hb Hq']. cbn [length strncmp_eq head tail from_option id].
  destruct (decide (a ≠ b)) as [Hab|Hab]; [symmetry; apply bool_decide_eq_false_2; congruence|].
  apply dec_stable in Hab as ->. rewrite decide_False by done. cbn in Hl. rewrite IH by (done || lia).
  destruct (decide (p = q)) as [->|Hpq]; [by rewrite !bool_decide_eq_true_2|]. rewrite !bool_decide_eq_false_2; congruence.
Qed.
Lemma name_eq_run d o n name : block_ok d → inside d o n → 0 ≤ n → Forall (.≠ 0) name →
  ext4_name_eq d o n name = Ret (bool_decide (slice d o n = name)).
Proof.
  intros [Hb Hby] [Ho Hn] H0 Hz. unfold ext4_name_eq.
  assert (Hl : Z.of_nat (length (slice d o n)) = n) by (apply slice_length; [done|lia|lia|lia]).
  destruct (decide (Z.of_nat (length name) = n)) as [Heq|Hne].
  - rewrite decide_False by auto. rewrite bytes_of_run by done. outs.
    replace (Z.to_nat n) with (length name) by lia. rewrite strncmp_eq_spec; [done|lia|done].
  - rewrite decide_True by done. outs. rewrite bool_decide_eq_false_2; [done|]. intros <-. lia.
Qed.

(** ** One block *)

Lemma dir_chain_length d base bs o l : dir_chain d base bs o l → 8 * Z.of_nat (length l) ≤ bs - o.
Proof. revert o. induction l as [|r l IH]; intros o; simpl; [lia|]. intros (_ & H1 & _ & H2%IH). lia. Qed.

(** The header of a record is inside the buffer. *)
Lemma header_reads d base bs o l r : block_ok d → 0 ≤ base → base + bs ≤ BSIZE → 0 ≤ o → dir_chain d base bs o (r :: l) →
  le32 d (base + o + 0) = Ret (r_ino r) ∧ le16 d (base + o + 4) = Ret (r_rec_len r) ∧
  le8 d (base + o + 6) = Ret (r_nlen r) ∧ le8 d (base + o + 7) = Ret (r_type r) ∧ o < bs ∧
  0 ≤ r_nlen r ≤ EXT4_NAME_MAX ∧ inside d (base + o + 8) (r_rec_len r - 8).
Proof.
  intros [Hl Hby] Hb Hbs Ho (-> & H1 & H2 & _). cbn [drec_at r_ino r_rec_len r_nlen r_type] in *.
  assert (Hin : ∀ k n, 0 ≤ k → k + n ≤ 8 → inside d (base + o + k) n) by (intros k n; unfold inside; lia).
  rewrite le32_run, le16_run, !le8_run by (done || (apply Hin; lia)). rewrite Z.add_0_r.
  pose proof (byte_at_ok d (base + o + 6) (conj Hl Hby)). unfold byte_ok, EXT4_NAME_MAX, inside in *.
  do 4 (split; [done|]). lia.
Qed.

Lemma lookup_dir_chain fuel d base bs o l : block_ok d → 0 ≤ base → base + bs ≤ BSIZE → 0 ≤ o → dir_chain d base bs o l →
  (length l < fuel)%nat →
  lookup_dir_loop fuel bs base d o =
    Ret (match next_live o l with Some (r, o') => (1, Some (dirent_of r, o')) | None => (0, None) end).
Proof.
  intros Hd Hb Hbs. revert o l. induction fuel as [|fuel IH]; intros o l Ho Hc Hf; [lia|]. destruct l as [|r l].
  - simpl in Hc. subst o. cbn [lookup_dir_loop next_live]. by rewrite decide_True by lia.
  - destruct (header_reads d base bs o l r Hd Hb Hbs Ho Hc) as (E1 & E2 & E3 & E4 & Hlt & Hn & Hin).
    destruct Hc as (Hr & H1 & H2 & Hc). cbn [lookup_dir_loop next_live length] in *. rewrite decide_False by lia. outs.
    rewrite E1, E2, E3, E4. rewrite decide_False by (unfold EXT4_DIRENT_NAME; lia).
    destruct (decide (live r)) as [Hlive|Hdead].
    + destruct Hlive as (L1 & L2 & L3). rewrite decide_False by (unfold EXT4_DIRENT_NAME; lia). unfold EXT4_DIRENT_NAME, DIRENT_NAME_SIZE.
      set (n := if decide (r_nlen r < 28 - 1) then r_nlen r else 28 - 1). assert (Hn' : 0 ≤ n ≤ r_nlen r ∧ n = Z.min (r_nlen r) 27) by (unfold n; case_decide; lia).
      rewrite bytes_of_run by (unfold inside in *; lia). do 3 f_equal. unfold dirent_of. do 2 f_equal. rewrite Hr. cbn [drec_at r_name r_nlen].
      unfold slice. rewrite take_take. f_equal. rewrite Hr in Hn'. cbn [drec_at r_nlen] in Hn'. lia.
    + rewrite decide_True; [apply IH; [lia|done|lia]|]. unfold live in Hdead. unfold EXT4_DIRENT_NAME.
      destruct (decide (r_ino r = 0)); [by left|]. destruct (decide (r_nlen r = 0)); [by right; left|]. right. right. right. lia.
Qed.

Lemma block_chain_find fuel d base bs o l name : block_ok d → 0 ≤ base → base + bs ≤ BSIZE → 0 ≤ o → dir_chain d base bs o l →
  (length l < fuel)%nat → name ≠ [] → Forall (.≠ 0) name →
  dir_block_loop fuel bs base d name o = Ret (first (find_name name) l).
Proof.
  intros Hd Hb Hbs Ho Hc Hf Hname Hz. revert o l Ho Hc Hf. induction fuel as [|fuel IH]; intros o l Ho Hc Hf; [lia|]. destruct l as [|r l].
  - simpl in Hc. subst o. cbn [dir_block_loop]. by rewrite decide_True by lia.
  - destruct (header_reads d base bs o l r Hd Hb Hbs Ho Hc) as (E1 & E2 & E3 & E4 & Hlt & Hn & Hin).
    destruct Hc as (Hr & H1 & H2 & Hc). cbn [dir_block_loop length] in *. rewrite decide_False by lia. outs.
    rewrite E1, E2, E3, E4. rewrite decide_False by (unfold EXT4_DIRENT_NAME; lia). unfold EXT4_DIRENT_NAME.
    assert (Hrest : dir_block_loop fuel bs base d name (o + r_rec_len r) = Ret (first (find_name name) l)) by (apply IH; [lia|done|lia]).
    assert (Hnm : r_name r = slice d (base + o + 8) (r_nlen r)) by (by rewrite Hr).
    unfold first. cbn [omap list_omap]. unfold find_name at 1.
    destruct (decide (r_ino r ≠ 0 ∧ r_nlen r ≤ EXT4_NAME_MAX ∧ 8 + r_nlen r ≤ r_rec_len r)) as [(L1 & L2 & L3)|Hdead].
    + rewrite name_eq_run; [|done|unfold inside in *; lia|lia|done]. rewrite <-Hnm. destruct (decide (r_name r = name)) as [Heq|Hne].
      * rewrite bool_decide_eq_true_2 by done. rewrite decide_True; [done|]. split; [|done]. split_and!; [done| |done].
        intros H0. apply Hname. rewrite <-Heq, Hnm, H0. done.
      * rewrite bool_decide_eq_false_2 by done. rewrite decide_False by naive_solver. exact Hrest.
    + rewrite decide_False; [exact Hrest|]. intros [(L1 & _ & L3) _]. apply Hdead. split_and!; [done|lia|done].
Qed.

(** ** First elements *)

Lemma omap_bind {A C R} (f : C → option R) (g : A → list C) l : omap f (l ≫= g) = l ≫= λ x, omap f (g x).
Proof. induction l as [|x l IH]; [done|]. cbn. by rewrite omap_app, IH. Qed.
Lemma first_bind {A C R} (f : C → option R) (g : A → list C) l : first f (l ≫= g) = first (λ x, first f (g x)) l.
Proof.
  unfold first. rewrite omap_bind. induction l as [|x l IH]; [done|]. cbn. destruct (omap f (g x)); [exact IH|done].
Qed.
Lemma first_ext {A R} (f g : A → option R) l : (∀ x, x ∈ l → f x = g x) → first f l = first g l.
Proof.
  intros Hfg. unfold first. f_equal. induction l as [|x l IH]; [done|]. cbn. rewrite Hfg by left. rewrite IH; [done|]. intros y Hy. apply Hfg. by right.
Qed.
Lemma first_fmap {A C R} (f : C → option R) (g : A → C) l : first f (g <$> l) = first (λ x, f (g x)) l.
Proof. unfold first. f_equal. induction l as [|x l IH]; [done|]. cbn. by rewrite IH. Qed.
Lemma first_concat {A C R} (P : A → list C → Prop) (h : A → option R) (f : C → option R) xs ls :
  Forall2 P xs ls → (∀ x l, x ∈ xs → P x l → h x = first f l) → first h xs = first f (concat ls).
Proof.
  intros HP Hh. replace (concat ls) with (ls ≫= id) by (clear; induction ls; [done|]; cbn; by f_equal). rewrite first_bind.
  unfold first at 1 2. f_equal. induction HP as [|x l xs ls Hx HP IH]; [done|]. cbn. rewrite (Hh x l) by (done || left). rewrite IH; [done|].
  intros y l' Hy. apply Hh. by right.
Qed.

(** A search whose rounds keep [Inv]. *)
Lemma find_first_run {S A R} (Inv : S → Prop) (g : A → option R) (body : A → K S (option R)) l s :
  Inv s → (∀ x s, x ∈ l → Inv s → ∃ s', body x s = Ret (g x, s') ∧ Inv s') →
  ∃ s', for_find l body s = Ret (first g l, s') ∧ Inv s'.
Proof.
  revert s. induction l as [|x l IH]; intros s HI Hb; [by exists s|]. destruct (Hb x s) as (s1 & Hr & HI1); [left|done|].
  cbn [for_find]. rewrite (bind_Ret _ _ _ _ _ Hr). unfold first. cbn. destruct (g x) as [r|]; [by exists s1|].
  apply IH; [done|]. intros y s2 Hy. apply Hb. by right.
Qed.

Section lemmas.
Context {B : Type} `{BlockReader B}.

(** ** The blocks of a directory *)

Lemma base_fits fs b : 0 < fs_block_size fs → (fs_block_size fs | BSIZE) →
  0 ≤ b * fs_block_size fs mod BSIZE ∧ b * fs_block_size fs mod BSIZE + fs_block_size fs ≤ BSIZE.
Proof. intros Hp Hd. split; [by apply Z.mod_pos_bound|]. apply aligned_fits; [done|done|]. by apply Z.divide_factor_r. Qed.
Lemma dir_fuel_enough v fs b l : block_chain v fs b l → (length l < dir_fuel (fs_block_size fs))%nat.
Proof.
  intros Hc%dir_chain_length. unfold dir_fuel. assert (Z.of_nat (length l) ≤ fs_block_size fs / 8); [|lia]. apply Z.div_le_lower_bound; lia.
Qed.
Lemma dir_block_range fs ip b : leaf_ok fs ip → 0 < fs_block_size fs → b ∈ dir_blocks ip → 0 ≤ b < 2 ^ 64 ∧ b * fs_block_size fs < 2 ^ 64.
Proof.
  intros Hok Hp Hb. apply list_elem_of_bind in Hb as (ex & Hj & Hex). apply list_elem_of_fmap in Hj as (j & -> & Hj%elem_of_seqZ).
  pose proof (lo_extents _ _ Hok) as Hx. rewrite Forall_forall in Hx. destruct (Hx ex Hex) as [_ Hw].
  assert (0 ≤ ee_start ex); [|nia]. apply list_elem_of_fmap in Hex as (k & -> & _). unfold extent_at. cbn [ee_start].
  pose proof (lo_bytes _ _ Hok) as Hby. pose proof (rd32_bound (i_block ip) (EXT4_EXT_HEADER_SIZE + k * EXT4_EXTENT_SIZE + 8) Hby).
  pose proof (rd16_bound (i_block ip) (EXT4_EXT_HEADER_SIZE + k * EXT4_EXTENT_SIZE + 6) Hby). lia.
Qed.

(** The loops over the extents see the blocks in this order. *)
Lemma search_blocks {R} fs ip v (s : B) (body : Z → K B (option R)) (g : Z → option R) :
  br_ok (fs_dev fs) v s → leaf_ok fs ip → 0 < fs_block_size fs →
  (∀ b s, b ∈ dir_blocks ip → br_ok (fs_dev fs) v s → ∃ s', body b s = Ret (g b, s') ∧ br_ok (fs_dev fs) v s') →
  ∃ s', for_find (seqZ 0 (rd16 (i_block ip) 2)) (λ i,
          ex ← at_state (ext4_read_extent ip i);
          for_find (seqZ 0 (ee_len ex)) (λ j, body (u64 (ee_start ex + j)))) s = Ret (first g (dir_blocks ip), s') ∧ br_ok (fs_dev fs) v s'.
Proof.
  intros Hok Hleaf Hp Hbody. unfold dir_blocks. rewrite first_bind. unfold extents. rewrite first_fmap.
  apply (find_first_run (br_ok (fs_dev fs) v)); [done|]. intros k s1 Hk Hok1.
  assert (Hk4 : 0 ≤ k < 4) by (apply elem_of_seqZ in Hk; pose proof (lo_entries _ _ Hleaf); lia).
  rewrite (extent_run fs) by done. rewrite at_state_bind, first_fmap.
  assert (Hin : ∀ j, j ∈ seqZ 0 (ee_len (extent_at (i_block ip) k)) → ee_start (extent_at (i_block ip) k) + j ∈ dir_blocks ip).
  { intros j Hj. apply list_elem_of_bind. exists (extent_at (i_block ip) k). split; [by apply list_elem_of_fmap_2|].
    unfold extents. by apply list_elem_of_fmap_2. }
  apply (find_first_run (br_ok (fs_dev fs) v)); [done|]. intros j s2 Hj Hok2. specialize (Hin j Hj).
  destruct (dir_block_range fs ip _ Hleaf Hp Hin) as [Hb0 Hb1]. rewrite u64_small by nia. by apply Hbody.
Qed.

Lemma lookup_block_run fs ip v (s : B) b l name : br_ok (fs_dev fs) v s → leaf_ok fs ip → 0 < fs_block_size fs → (fs_block_size fs | BSIZE) →
  b ∈ dir_blocks ip → block_chain v fs b l → name ≠ [] → Forall (.≠ 0) name →
  ∃ s', ext4_lookup_in_dir_block fs b name s = Ret (first (find_name name) l, s') ∧ br_ok (fs_dev fs) v s'.
Proof.
  intros Hok Hleaf Hp Hd Hb Hc Hname Hz. destruct (dir_block_range fs ip b Hleaf Hp Hb) as [Hb0 Hb1]. destruct (base_fits fs b Hp Hd) as [Hm1 Hm2].
  unfold ext4_lookup_in_dir_block. rewrite u64_small by nia. assert (Hq : 0 ≤ b * fs_block_size fs / BSIZE) by (apply Z.div_pos; [nia|done]).
  match goal with |- context [with_buf _ _ ?f] => destruct (with_buf_run (fs_dev fs) v s _ f Hok Hq) as (s' & Hw & Hok') end.
  exists s'. split; [|done]. rewrite Hw. rewrite (block_chain_find _ _ _ _ 0 l); try done.
  - by eapply br_len.
  - by eapply dir_fuel_enough.
Qed.
Lemma lookup_dir_run fs ip v (s : B) b l1 l2 o : br_ok (fs_dev fs) v s → leaf_ok fs ip → 0 < fs_block_size fs → (fs_block_size fs | BSIZE) →
  b ∈ dir_blocks ip → 0 ≤ o → dir_chain (v (b * fs_block_size fs / BSIZE)) (b * fs_block_size fs mod BSIZE) (fs_block_size fs) o l2 →
  block_chain v fs b (l1 ++ l2) →
  ∃ s', ext4_lookup_dir fs b o s =
      Ret (match next_live o l2 with Some (r, o') => (1, Some (dirent_of r, o')) | None => (0, None) end, s') ∧ br_ok (fs_dev fs) v s'.
Proof.
  intros Hok Hleaf Hp Hd Hb Ho Hc Hc'. destruct (dir_block_range fs ip b Hleaf Hp Hb) as [Hb0 Hb1]. destruct (base_fits fs b Hp Hd) as [Hm1 Hm2].
  unfold ext4_lookup_dir. rewrite u64_small by nia. assert (Hq : 0 ≤ b * fs_block_size fs / BSIZE) by (apply Z.div_pos; [nia|done]).
  match goal with |- context [with_buf _ _ ?f] => destruct (with_buf_run (fs_dev fs) v s _ f Hok Hq) as (s' & Hw & Hok') end.
  exists s'. split; [|done]. rewrite Hw. rewrite (lookup_dir_chain _ _ _ _ o l2); try done.
  - by eapply br_len.
  - apply dir_fuel_enough in Hc'. rewrite length_app in Hc'. lia.
Qed.

(** ** The block at a position *)

Lemma count_blocks_run start t seen js : 0 ≤ seen ≤ t → t < 2 ^ 63 → Z.of_nat (length js) < 2 ^ 63 →
  count_blocks start t seen js =
    match js !! Z.to_nat (t - seen) with Some j => inr (u64 (start + j)) | None => inl (seen + Z.of_nat (length js)) end.
Proof.
  revert seen. induction js as [|j js IH]; intros seen Hs Ht Hl; cbn [count_blocks length] in *.
  - rewrite lookup_nil. f_equal. lia.
  - destruct (decide (seen = t)) as [->|Hne]; [by replace (Z.to_nat (t - t)) with 0%nat by lia|].
    rewrite u64_small, IH by lia. replace (Z.to_nat (t - seen)) with (S (Z.to_nat (t - (seen + 1)))) by lia. cbn [lookup list_lookup].
    destruct (js !! Z.to_nat (t - (seen + 1))); [done|]. f_equal. lia.
Qed.
Lemma nth_block_run fs ip t seen l : leaf_ok fs ip → 0 < fs_block_size fs → Forall (λ k, 0 ≤ k < 4 ∧ k < rd16 (i_block ip) 2) l → 0 ≤ seen ≤ t → t < 2 ^ 62 →
  nth_block ip t seen l = Ret (((extent_at (i_block ip) <$> l) ≫= λ ex, (λ j, ee_start ex + j) <$> seqZ 0 (ee_len ex)) !! Z.to_nat (t - seen)).
Proof.
  intros Hleaf Hp Hl. revert seen. induction Hl as [|k l [Hk Hke] Hl IH]; intros seen Hs Ht; [done|]. cbn [nth_block fmap list_fmap].
  rewrite (extent_run fs) by done. outs. set (ex := extent_at (i_block ip) k).
  assert (Hlen : 0 ≤ ee_len ex < 2 ^ 16) by (apply rd16_bound, (lo_bytes _ _ Hleaf)).
  rewrite count_blocks_run by (rewrite ?length_seqZ; lia). rewrite length_seqZ. cbn [list_bind].
  match goal with |- context [(?a ++ ?b) !! _] => assert (Hla : length a = Z.to_nat (ee_len ex)) by (by rewrite length_fmap, length_seqZ) end.
  destruct (seqZ 0 (ee_len ex) !! Z.to_nat (t - seen)) as [j|] eqn:Hj.
  - rewrite lookup_app_l by (rewrite Hla; apply lookup_lt_Some in Hj; by rewrite length_seqZ in Hj).
    rewrite list_lookup_fmap, Hj. cbn. do 2 f_equal. apply u64_small.
    apply lookup_seqZ in Hj as [-> Hj]. assert (Hex : ex ∈ extents ip) by (apply list_elem_of_fmap_2, elem_of_seqZ; lia).
    destruct (dir_block_range fs ip (ee_start ex + (0 + Z.of_nat (Z.to_nat (t - seen)))) Hleaf Hp) as [? _]; [|done].
    apply list_elem_of_bind. exists ex. split; [|done]. apply list_elem_of_fmap_2, elem_of_seqZ. lia.
  - apply lookup_ge_None in Hj. rewrite length_seqZ in Hj. rewrite lookup_app_r by (rewrite Hla; lia). rewrite IH by lia. do 2 f_equal. rewrite Hla. lia.
Qed.

(** ** Positions *)

Definition span (l : list drec) : Z := foldr (λ r n, r_rec_len r + n) 0 l.
Lemma span_app l1 l2 : span (l1 ++ l2) = span l1 + span l2.
Proof. induction l1 as [|r l1 IH]; cbn; [done|]. fold (span (l1 ++ l2)) (span l1). rewrite IH. lia. Qed.
Lemma chain_split d base bs o l1 l2 : dir_chain d base bs o (l1 ++ l2) → dir_chain d base bs (o + span l1) l2 ∧ 0 ≤ span l1.
Proof.
  revert o. induction l1 as [|r l1 IH]; intros o; cbn; [rewrite Z.add_0_r; intros H0; split; [exact H0|lia]|].
  fold (span l1). intros (_ & H8 & _ & Hc). destruct (IH _ Hc) as [Hc' H0]. rewrite Z.add_assoc. split; [done|lia].
Qed.
Lemma chain_end d base bs o l : dir_chain d base bs o l → o + span l = bs.
Proof. intros Hc. rewrite <-(app_nil_r l) in Hc. by apply chain_split in Hc as [? _]. Qed.

(** Where the next record in use is. *)
Lemma next_live_split o l : match next_live o l with
  | Some (r, o') => ∃ dead l', l = dead ++ r :: l' ∧ Forall (λ r, ¬ live r) dead ∧ live r ∧ o' = o + span (dead ++ [r])
  | None => Forall (λ r, ¬ live r) l
  end.
Proof.
  revert o. induction l as [|r l IH]; intros o; cbn [next_live]; [done|]. destruct (decide (live r)) as [Hr|Hr].
  - exists [], l. split_and!; try done. unfold span. cbn [app foldr]. lia.
  - specialize (IH (o + r_rec_len r)). destruct (next_live _ l) as [[q o']|]; [|by constructor].
    destruct IH as (dead & l' & -> & Hdead & Hq & ->). exists (r :: dead), l'. split_and!; [done|by constructor|done|]. unfold span. cbn [app foldr]. lia.
Qed.

Lemma filter_dead l : Forall (λ r, ¬ live r) l → filter live l = [].
Proof. induction 1 as [|r l Hr Hl IH]; [done|]. by rewrite filter_cons_False. Qed.

Lemma dir_blocks_length fs ip : leaf_ok fs ip → Z.of_nat (length (dir_blocks ip)) ≤ 4 * 2 ^ 16.
Proof.
  intros Hok. unfold dir_blocks, extents.
  assert (Hl : ∀ l, Z.of_nat (length ((extent_at (i_block ip) <$> l) ≫= λ ex, (λ j, ee_start ex + j) <$> seqZ 0 (ee_len ex))) ≤ Z.of_nat (length l) * 2 ^ 16).
  { induction l as [|k l IH]; [done|]. rewrite fmap_cons, bind_cons, length_app, length_fmap, length_seqZ. cbn [length].
    pose proof (rd16_bound (i_block ip) (EXT4_EXT_HEADER_SIZE + k * EXT4_EXTENT_SIZE + 4) (lo_bytes _ _ Hok)).
    change (ee_len (extent_at (i_block ip) k)) with (rd16 (i_block ip) (EXT4_EXT_HEADER_SIZE + k * EXT4_EXTENT_SIZE + 4)). lia. }
  specialize (Hl (seqZ 0 (rd16 (i_block ip) 2))). rewrite length_seqZ in Hl. pose proof (lo_entries _ _ Hok).
  pose proof (rd16_bound (i_block ip) 2 (lo_bytes _ _ Hok)). lia.
Qed.

Lemma find_block fs ip k : leaf_ok fs ip → 0 < fs_block_size fs → 0 ≤ k < 2 ^ 62 →
  nth_block ip k 0 (seqZ 0 (rd16 (i_block ip) 2)) = Ret (dir_blocks ip !! Z.to_nat k).
Proof.
  intros Hleaf Hp Hk. rewrite (nth_block_run fs) by (done || lia || (apply Forall_forall; intros x Hx%elem_of_seqZ; pose proof (lo_entries _ _ Hleaf); lia)).
  rewrite Z.sub_0_r. done.
Qed.

(** readdir at the records [l2] of block [k]. *)
Lemma readdir_run fs ip v ls (s : B) k l1 l2 : br_ok (fs_dev fs) v s → dir_ok v fs ip ls → ls !! k = Some (l1 ++ l2) → l2 ≠ [] →
  ∃ s', ext4_readdir_at fs ip (Z.of_nat k * fs_block_size fs + span l1) s =
    Ret (match next_live (span l1) l2 with
         | Some (r, o') => (1, Z.of_nat k * fs_block_size fs + o', Some (dirent_of r))
         | None => (0, (Z.of_nat k + 1) * fs_block_size fs, None) end, s') ∧ br_ok (fs_dev fs) v s'.
Proof.
  intros Hok [Hleaf [Hp Hd] HF] Hk Hne. destruct (Forall2_lookup_r _ _ _ _ _ HF Hk) as (b & Hb & Hc). pose proof (dir_blocks_length fs ip Hleaf) as Hlen.
  pose proof (lookup_lt_Some _ _ _ Hb) as Hkl. assert (Hin : b ∈ dir_blocks ip) by (by eapply list_elem_of_lookup_2).
  assert (Hbs : fs_block_size fs ≤ BSIZE) by (by apply Z.divide_pos_le). unfold BSIZE in Hbs.
  destruct (chain_split _ _ _ _ _ _ Hc) as [Hc2 Hs]. pose proof (chain_end _ _ _ _ _ Hc2) as Hend. rewrite Z.add_0_l in *.
  assert (Hlt : span l1 < fs_block_size fs).
  { destruct l2 as [|r l2]; [done|]. destruct Hc2 as (_ & H8 & H9 & _). lia. }
  destruct (lookup_dir_run fs ip v s b l1 l2 (span l1) Hok Hleaf Hp Hd Hin Hs Hc2 Hc) as (s' & Hr & Hok'). exists s'. split; [|done].
  unfold ext4_readdir_at. rewrite (header_run fs) by done. rewrite at_state_bind. cbn [eh_depth eh_entries]. rewrite decide_False by auto. rewrite decide_False by lia.
  assert (E1 : (Z.of_nat k * fs_block_size fs + span l1) / fs_block_size fs = Z.of_nat k).
  { symmetry. apply (Z.div_unique _ _ _ (span l1)); lia. }
  assert (E2 : (Z.of_nat k * fs_block_size fs + span l1) mod fs_block_size fs = span l1).
  { symmetry. apply (Z.mod_unique _ _ (Z.of_nat k)); lia. }
  rewrite E1, E2. rewrite (find_block fs) by (done || lia). rewrite at_state_bind, Nat2Z.id, Hb. rewrite (bind_Ret _ _ _ _ _ Hr).
  pose proof (next_live_split (span l1) l2) as Hn. destruct (next_live (span l1) l2) as [[r o']|].
  - destruct Hn as (dead & l' & -> & _ & _ & ->). rewrite u64_small; [done|].
    rewrite cons_middle, app_assoc in Hc2. pose proof (chain_split _ _ _ _ _ _ Hc2) as [Hc3 H3]. pose proof (chain_end _ _ _ _ _ Hc3).
    assert (0 ≤ span l'); [|nia]. rewrite <-(app_nil_r l') in Hc3. by apply chain_split in Hc3 as [_ ?].
  - rewrite decide_True by done. rewrite u64_small by nia. done.
Qed.
Lemma readdir_end fs ip v ls (s : B) : br_ok (fs_dev fs) v s → dir_ok v fs ip ls →
  ext4_readdir_at fs ip (Z.of_nat (length ls) * fs_block_size fs) s = Ret ((0, Z.of_nat (length ls) * fs_block_size fs, None), s).
Proof.
  intros Hok [Hleaf [Hp Hd] HF]. pose proof (dir_blocks_length fs ip Hleaf) as Hlen. pose proof (Forall2_length _ _ _ HF) as Hl.
  unfold ext4_readdir_at. rewrite (header_run fs) by done. rewrite at_state_bind. cbn [eh_depth eh_entries]. rewrite decide_False by auto. rewrite decide_False by lia.
  rewrite Z.div_mul by lia. rewrite (find_block fs) by (done || lia). rewrite at_state_bind, Nat2Z.id, (lookup_ge_None_2 (dir_blocks ip)) by lia. done.
Qed.

(** ** Listing a directory *)

(** readdir until it says that there is no more. *)
Fixpoint list_dir (n : nat) (fs : ext4_fs) (ip : ext4_inode) (offset : Z) : K B (list vfs_dirent) :=
  match n with
  | O => λ _, NoFuel
  | S n =>
      '(r, offset, dir) ← ext4_readdir_at fs ip offset;
      match dir with
      | None => mret []
      | Some dir => l ← list_dir n fs ip offset; mret (dir :: l)
      end
  end.

(** The last record of each block is in use. *)
Definition dense (l : list drec) : Prop := ∃ l' r, l = l' ++ [r] ∧ live r.

Lemma list_from fs ip v ls n : dir_ok v fs ip ls → Forall dense ls → ∀ (s : B) k l1 l2, br_ok (fs_dev fs) v s →
  ls !! k = Some (l1 ++ l2) → l2 ≠ [] → (length (filter live (l2 ++ concat (drop (S k) ls))) < n)%nat →
  ∃ s', list_dir n fs ip (Z.of_nat k * fs_block_size fs + span l1) s =
    Ret (dirent_of <$> filter live (l2 ++ concat (drop (S k) ls)), s') ∧ br_ok (fs_dev fs) v s'.
Proof.
  intros Hdir Hdense. induction n as [|n IH]; intros s k l1 l2 Hok Hk Hne Hn; [lia|]. cbn [list_dir].
  destruct (readdir_run fs ip v ls s k l1 l2 Hok Hdir Hk Hne) as (s1 & Hr & Hok1). rewrite (bind_Ret _ _ _ _ _ Hr).
  pose proof (next_live_split (span l1) l2) as Hnl. destruct (next_live (span l1) l2) as [[r o']|]; [|exfalso].
  - destruct Hnl as (dead & l3 & -> & Hdead & Hlive & ->).
    assert (Hf : filter live ((dead ++ r :: l3) ++ concat (drop (S k) ls)) = r :: filter live (l3 ++ concat (drop (S k) ls))).
    { rewrite <-app_assoc, filter_app, filter_dead by done. cbn [app]. by rewrite filter_cons_True. }
    rewrite Hf in Hn |- *. cbn [length fmap list_fmap] in *.
    assert (Hspan : span l1 + span (dead ++ [r]) = span (l1 ++ dead ++ [r])) by (by rewrite (span_app l1)). rewrite Z.add_assoc.
    destruct l3 as [|r3 l3].
    + (* the next block *) assert (Hbs : span l1 + span (dead ++ [r]) = fs_block_size fs).
      { destruct Hdir as [_ _ HF]. destruct (Forall2_lookup_r _ _ _ _ _ HF Hk) as (b & _ & Hc). apply chain_end in Hc. rewrite span_app in Hc. lia. }
      replace (Z.of_nat k * fs_block_size fs + span l1 + span (dead ++ [r])) with (Z.of_nat (S k) * fs_block_size fs) by lia. cbn [app] in *.
      destruct (ls !! S k) as [l|] eqn:Hl.
      * pose proof Hdense as Hd'. rewrite Forall_lookup in Hd'. destruct (Hd' _ _ Hl) as (l' & q & -> & _). rewrite (drop_S _ _ _ Hl) in *. cbn [concat] in *.
        destruct (IH s1 (S k) [] (l' ++ [q])) as (s2 & Hr2 & Hok2); [done|done|by destruct l'|lia|]. cbn [span foldr] in Hr2. rewrite Z.add_0_r in Hr2.
        exists s2. rewrite (bind_Ret _ _ _ _ _ Hr2). done.
      * apply lookup_ge_None in Hl. pose proof (lookup_lt_Some _ _ _ Hk). assert (Hkl : S k = length ls) by lia.
        rewrite (drop_ge ls) by lia. cbn [concat filter list_filter fmap list_fmap]. exists s1. split; [|done]. rewrite Hkl.
        destruct n as [|n]; [lia|]. cbn [list_dir]. rewrite bind_assoc. rewrite (bind_Ret _ _ _ _ _ (readdir_end fs ip v ls s1 Hok1 Hdir)). done.
    + destruct (IH s1 k (l1 ++ dead ++ [r]) (r3 :: l3)) as (s2 & Hr2 & Hok2); [done| |done|lia|].
      { rewrite Hk. f_equal. by rewrite <-!app_assoc. }
      exists s2. rewrite <-Hspan, Z.add_assoc in Hr2. rewrite (bind_Ret _ _ _ _ _ Hr2). done.
  - rewrite Forall_lookup in Hdense. destruct (Hdense _ _ Hk) as (l' & q & Heq & Hq). rewrite Forall_forall in Hnl. apply (Hnl q); [|done].
    destruct (exists_last Hne) as (l2' & q' & ->). rewrite app_assoc in Heq. apply app_inj_tail in Heq as [_ ->]. apply elem_of_app. right. left.
Qed.

(** ** Any block *)

(** The computation returns or leaves its buffer. *)
Definition ends {A} (o : outcome A) : Prop := (∃ a, o = Ret a) ∨ o = Fault.
Lemma ends_bind {A C} (o : outcome A) (f : A → outcome C) : ends o → (∀ a, o = Ret a → ends (f a)) → ends (mbind f o).
Proof. intros [[a ->]| ->] Hf; [by apply Hf|by right]. Qed.
Lemma ends_ret {A} (a : A) : ends (mret a).
Proof. left. by exists a. Qed.
Lemma ends_le8 p o : ends (le8 p o).
Proof. unfold le8. case_decide; [left; by eexists|by right]. Qed.
Lemma ends_le16 p o : ends (le16 p o).
Proof. unfold le16. case_decide; [left; by eexists|by right]. Qed.
Lemma ends_le32 p o : ends (le32 p o).
Proof. unfold le32. case_decide; [left; by eexists|by right]. Qed.
Lemma ends_bytes p o n : ends (bytes_of p o n).
Proof. unfold bytes_of. case_decide; [left; by eexists|by right]. Qed.
Hint Resolve ends_bind ends_ret ends_le8 ends_le16 ends_le32 ends_bytes : core.

(** Every round passes a record of at least eight bytes. *)
Lemma lookup_dir_ends fuel bs base d o : o ≤ bs → (bs - o) / 8 < Z.of_nat fuel → ends (lookup_dir_loop fuel bs base d o).
Proof.
  revert o. induction fuel as [|fuel IH]; intros o Ho Hf; [pose proof (Z.div_pos (bs - o) 8); lia|]. cbn [lookup_dir_loop]. case_decide; [auto|].
  apply ends_bind; [auto|intros ino _]. apply ends_bind; [auto|intros len _]. apply ends_bind; [auto|intros nlen _]. apply ends_bind; [auto|intros ty _].
  case_decide as Hbad; [auto|]. case_decide; [|apply ends_bind; auto]. unfold EXT4_DIRENT_NAME in Hbad. apply IH; [lia|].
  assert ((bs - (o + len)) / 8 ≤ (bs - o) / 8 - 1); [|lia]. replace ((bs - o) / 8 - 1) with ((bs - o + (-1) * 8) / 8) by (rewrite Z.div_add; lia).
  apply Z.div_le_mono; lia.
Qed.
Lemma dir_block_ends fuel bs base d name o : o ≤ bs → (bs - o) / 8 < Z.of_nat fuel → ends (dir_block_loop fuel bs base d name o).
Proof.
  revert o. induction fuel as [|fuel IH]; intros o Ho Hf; [pose proof (Z.div_pos (bs - o) 8); lia|]. cbn [dir_block_loop]. case_decide; [auto|].
  apply ends_bind; [auto|intros ino _]. apply ends_bind; [auto|intros len _]. apply ends_bind; [auto|intros nlen _]. apply ends_bind; [auto|intros ty _].
  case_decide as Hbad; [auto|]. unfold EXT4_DIRENT_NAME in Hbad. assert (Hnext : ends (dir_block_loop fuel bs base d name (o + len))).
  { apply IH; [lia|]. assert ((bs - (o + len)) / 8 ≤ (bs - o) / 8 - 1); [|lia].
    replace ((bs - o) / 8 - 1) with ((bs - o + (-1) * 8) / 8) by (rewrite Z.div_add; lia). apply Z.div_le_mono; lia. }
  case_decide; [|done]. apply ends_bind; [|intros []; auto]. unfold ext4_name_eq. case_decide; auto.
Qed.
End lemmas.

(** * Theorems *)

Section theorems.
Context {B : Type} `{BlockReader B}.

(** ext4_lookup_in_dir returns the number and type of the first record in
    use with the name among the records of all blocks of the directory, in the
    order of the extents, or -1 when there is none. *)
Theorem ext4_lookup_in_dir_spec fs ip v ls (s : B) name :
  br_ok (fs_dev fs) v s → dir_ok v fs ip ls → name ≠ [] → Forall (.≠ 0) name →
  ∃ s', ext4_lookup_in_dir fs ip name s = Ret (first (find_name name) (concat ls), s') ∧ br_ok (fs_dev fs) v s'.
Proof.
  intros Hok [Hleaf [Hp Hd] HF] Hname Hz. unfold ext4_lookup_in_dir. rewrite (header_run fs) by done. rewrite at_state_bind.
  cbn [eh_depth eh_entries]. rewrite decide_False by auto.
  set (h := λ b, match list_find (λ p, p.1 = b) (zip (dir_blocks ip) ls) with Some (_, (_, l)) => first (find_name name) l | None => None end).
  assert (Hh : ∀ b l, b ∈ dir_blocks ip → block_chain v fs b l → h b = first (find_name name) l).
  { intros b l Hb Hc. destruct (lookup_block_run fs ip v s b l name) as (s1 & E1 & _); [done..|]. unfold h.
    destruct (list_find (λ p, p.1 = b) (zip (dir_blocks ip) ls)) as [[i [b' l']]|] eqn:E.
    - apply list_find_Some in E as (Hi & Heq & _). simpl in Heq. subst b'. apply lookup_zip_Some in Hi as [Hi1 Hi2].
      pose proof (Forall2_lookup_lr _ _ _ _ _ _ HF Hi1 Hi2) as Hc'. destruct (lookup_block_run fs ip v s b l' name) as (s2 & E2 & _); [done..|]. congruence.
    - apply list_find_None in E. apply list_elem_of_lookup_1 in Hb as [i Hi]. destruct (Forall2_lookup_l _ _ _ _ _ HF Hi) as (l' & Hl' & _).
      rewrite Forall_lookup in E. destruct (E i (b, l')); [|done]. apply lookup_zip_Some. done. }
  rewrite <-(first_concat (block_chain v fs) h (find_name name) (dir_blocks ip) ls HF Hh).
  apply (search_blocks fs ip v s (λ b, ext4_lookup_in_dir_block fs b name) h Hok Hleaf Hp).
  intros b s1 Hb Hok1. destruct (list_elem_of_lookup_1 _ _ Hb) as [i Hi]. destruct (Forall2_lookup_l _ _ _ _ _ HF Hi) as (l & _ & Hc).
  rewrite (Hh b l Hb Hc). by eapply lookup_block_run.
Qed.

(** Calling ext4_readdir_at from offset 0 until it returns no entry gives
    the records in use of the directory, each once and in order, when every
    block ends with a record in use. *)
Theorem ext4_readdir_complete fs ip v ls (s : B) n :
  br_ok (fs_dev fs) v s → dir_ok v fs ip ls → Forall dense ls → (length (filter live (concat ls)) < n)%nat →
  ∃ s', list_dir n fs ip 0 s = Ret (dirent_of <$> filter live (concat ls), s') ∧ br_ok (fs_dev fs) v s'.
Proof.
  intros Hok Hdir Hdense Hn. destruct ls as [|l ls].
  - exists s. split; [|done]. destruct n as [|n]; [lia|]. cbn [list_dir]. rewrite bind_assoc || idtac.
    rewrite (bind_Ret _ _ _ _ _ (readdir_end fs ip v [] s Hok Hdir)). done.
  - inversion Hdense as [|? ? (l' & r & -> & Hr) _]; subst. destruct (list_from fs ip v ((l' ++ [r]) :: ls) n Hdir Hdense s 0 [] (l' ++ [r])) as (s' & Hrun & Hok'); try done.
    + by destruct l'.
    + by exists s'.
Qed.

(** The scans of ext4_lookup_dir and ext4_lookup_in_dir_block end on
    every block, whatever its bytes are: each round passes a record of at
    least eight bytes. *)
Theorem ext4_dir_scans_end fs v (s : B) blk o name :
  br_ok (fs_dev fs) v s → 0 ≤ o ≤ fs_block_size fs →
  ends (ext4_lookup_dir fs blk o s) ∧ ends (ext4_lookup_in_dir_block fs blk name s).
Proof.
  intros Hok Ho. assert (Hq : 0 ≤ u64 (blk * fs_block_size fs) / BSIZE) by (apply Z.div_pos; [apply u64_range|done]).
  unfold ext4_lookup_dir, ext4_lookup_in_dir_block. split.
  - match goal with |- context [with_buf _ _ ?f] => destruct (with_buf_run (fs_dev fs) v s _ f Hok Hq) as (s' & Hw & _) end. rewrite Hw.
    match goal with |- context [at_state ?o _] => assert (He : ends o) end; [|destruct He as [[a ->]| ->]; [left; by eexists|by right]].
    apply lookup_dir_ends; [lia|]. unfold dir_fuel. assert ((fs_block_size fs - o) / 8 ≤ fs_block_size fs / 8) by (apply Z.div_le_mono; lia).
    pose proof (Z.div_pos (fs_block_size fs) 8). lia.
  - match goal with |- context [with_buf _ _ ?f] => destruct (with_buf_run (fs_dev fs) v s _ f Hok Hq) as (s' & Hw & _) end. rewrite Hw.
    match goal with |- context [at_state ?o _] => assert (He : ends o) end; [|destruct He as [[a ->]| ->]; [left; by eexists|by right]].
    apply dir_block_ends; [lia|]. unfold dir_fuel. rewrite Z.sub_0_r. pose proof (Z.div_pos (fs_block_size fs) 8). lia.
Qed.

(** Resolving a path is walking its components from the root. *)
Fixpoint ext4_walk (fs : ext4_fs) (cur : ext4_inode) (cur_type cur_ino : Z) (es : list cstring) : K B (option (ext4_inode * Z * Z)) :=
  match es with
  | [] => mret (Some (cur, cur_type, cur_ino))
  | e :: es =>
      if decide (cur_type ≠ EXT4_FT_DIR) then mret None else
      r ← ext4_lookup_in_dir fs cur e;
      match r with
      | None => mret None
      | Some (ino, type) => ip ← ext4_read_inode fs ino; ext4_walk fs ip type ino es
      end
  end.
Theorem ext4_lookup_path_walk fs path (s : B) : head path = Some SLASH → names_fit (components path) →
  ext4_lookup_path_ino fs path s = (root ← ext4_read_inode fs EXT4_ROOT_INO; ext4_walk fs root EXT4_FT_DIR EXT4_ROOT_INO (components path)) s.
Proof.
  intros Hhd Hfit. unfold ext4_lookup_path_ino. rewrite decide_False by auto.
  assert (Hl : ∀ fuel path cur ty ino (s : B), (length path < fuel)%nat → names_fit (components path) →
    path_loop fuel fs cur ty ino path s = ext4_walk fs cur ty ino (components path) s).
  { clear. induction fuel as [|fuel IH]; intros path cur ty ino s Hf Hn; [lia|]. cbn [path_loop]. pose proof (skipelem_spec path) as Hsk.
    destruct (skipelem path) as [[e r]|]; [|rewrite Hsk; reflexivity]. destruct Hsk as (e' & _ & Hc & -> & Hr & _). rewrite Hc in *. cbn [ext4_walk].
    apply Forall_cons in Hn as [He' Hn]. rewrite (take_ge e') by lia. case_decide; [reflexivity|]. unfold mbind, K_bind.
    destruct (ext4_lookup_in_dir fs cur e' s) as [[[[i t]|] s1]| | |]; try done.
    destruct (ext4_read_inode fs i s1) as [[ip s2]| | |]; [|done..]. apply IH; [lia|done]. }
  unfold mbind, K_bind. destruct (ext4_read_inode fs EXT4_ROOT_INO s) as [[root s1]| | |]; [|done..]. apply Hl; [lia|done].
Qed.
End theorems.

(** * Examples *)

#[local] Instance demo_reader : BlockReader unit := flat_reader demo_disk demo_disk_ok.
Definition demo_recs : list (list drec) :=
  [[drec_at (demo_disk 3) 0; drec_at (demo_disk 3) 12; drec_at (demo_disk 3) 4084]; [drec_at (demo_disk 4) 0]].
Lemma demo_root_ok : dir_ok demo_disk demo_fs (demo_inode 1) demo_recs.
Proof.
  split; [apply demo_leaf_ok; lia|split; [reflexivity|by exists 1]|].
  assert (E : dir_blocks (demo_inode 1) = [3; 4]) by (vm_compute; reflexivity). rewrite E.
  repeat constructor; vm_compute; reflexivity || discriminate.
Qed.
Lemma demo_sub_ok : dir_ok demo_disk demo_fs (demo_inode 3) [[drec_at (demo_disk 4) 0]].
Proof.
  split; [apply demo_leaf_ok; lia|split; [reflexivity|by exists 1]|].
  assert (E : dir_blocks (demo_inode 3) = [4]) by (vm_compute; reflexivity). rewrite E.
  repeat constructor; vm_compute; reflexivity || discriminate.
Qed.

Lemma ext4_lookup_in_dir_spec_witness :
  ∃ s', ext4_lookup_in_dir demo_fs (demo_inode 1) [98] tt = Ret (first (find_name [98]) (concat demo_recs), s') ∧ br_ok 0 demo_disk s'.
Proof.
  apply (ext4_lookup_in_dir_spec demo_fs (demo_inode 1) demo_disk demo_recs tt [98]); [intros n; reflexivity|exact demo_root_ok|discriminate|].
  repeat constructor. discriminate.
Defined.
Lemma ext4_readdir_complete_witness :
  ∃ s', list_dir 3 demo_fs (demo_inode 3) 0 tt = Ret (dirent_of <$> filter live (concat [[drec_at (demo_disk 4) 0]]), s') ∧ br_ok 0 demo_disk s'.
Proof.
  apply (ext4_readdir_complete demo_fs (demo_inode 3) demo_disk [[drec_at (demo_disk 4) 0]] tt 3); [intros n; reflexivity|exact demo_sub_ok| |vm_compute; lia].
  constructor; [|constructor]. exists [], (drec_at (demo_disk 4) 0). split; [reflexivity|]. split; [vm_compute; discriminate|split; vm_compute; discriminate].
Defined.
Lemma ext4_dir_scans_end_witness :
  ends (ext4_lookup_dir demo_fs 5 0 tt) ∧ ends (ext4_lookup_in_dir_block demo_fs 5 [98] tt).
Proof. apply (ext4_dir_scans_end demo_fs demo_disk tt 5 0 [98]); [intros n; reflexivity|simpl; lia]. Defined.
Lemma ext4_lookup_path_walk_witness :
  ext4_lookup_path_ino demo_fs [47; 98] tt =
  (root ← ext4_read_inode demo_fs EXT4_ROOT_INO; ext4_walk demo_fs root EXT4_FT_DIR EXT4_ROOT_INO (components [47; 98])) tt.
Proof. apply (ext4_lookup_path_walk demo_fs [47; 98] tt); [reflexivity|]. apply (bool_decide_unpack _). vm_compute. exact I. Defined.

(** A directory block that ends with an empty record ends the listing, though
    the next block has entries: readdir returns 0 at the end of every block. *)
Example readdir_stops_early :
  list_dir 10 demo_fs (demo_inode 1) 0 tt = Ret ([mk_dirent [46] 2 VFS_DIR; mk_dirent [97] 3 VFS_FILE], tt) ∧
  ext4_lookup_in_dir demo_fs (demo_inode 1) [98] tt = Ret (Some (3, EXT4_FT_REG_FILE), tt).
Proof. split; vm_compute; reflexivity. Qed.

(** A record that leaves fewer than eight bytes makes the scan read its header
    past the end of the buffer. *)
Definition bad_dir : block := demo_put_dirent zero_block 0 3 4092 1 [98].
Example dir_overrun : dir_block_loop (dir_fuel 4096) 4096 0 bad_dir [97] 0 = Fault.
Proof. vm_compute. reflexivity. Qed.
(** So does a file system whose blocks are larger than those of the cache. *)
Example big_block_overrun :
  ext4_lookup_in_dir_block (mk_fs 0 8192 64 64 32768 64 256 64 1 0 0x2c2 0x400) 2 [97] tt = Fault.
Proof. vm_compute. reflexivity. Qed.
