(* ===== verification/Overlay.v ===== *)
(** kernel/fs/ext4fs/mix.c, its tables: the overlay entries that change what a
    directory of ext4 shows, in a fixed array hashed into chains, and the map
    from the files of ext4 to their copies.

    A vfs_inode is a number, as in TmpfsDir.v; [node_addr] is its address.  The
    reference of the overlay is a list of entries, the last one added first:
    finding is finding the first entry with a key, adding is putting an entry in
    front while there are fewer than [OVERLAY_ENTRIES], and removing takes the
    first entry with the key out. *)
From S2P Require Import Prelude Path.

Definition OVERLAY_HASH : Z := 32.
Definition OVERLAY_ENTRIES : Z := 64.
Definition UPPER_MAX : Z := 64.

(** struct overlay_entry: [oe_next] is the index of the entry it points to. *)
Record overlay_entry := mk_oe {
  oe_name : cstring; oe_root : option Z; oe_parent : option Z; oe_whiteout : Z; oe_next : option nat; oe_used : Z
}.
Record upper_map := mk_up { up_ino : Z; up_upper : option Z; up_used : Z }.
Record overlay := mk_ov { entries : list overlay_entry; buckets : list (option nat); uppers : list upper_map }.

(** The static arrays at boot. *)
Definition overlay_boot : overlay :=
  mk_ov (replicate (Z.to_nat OVERLAY_ENTRIES) (mk_oe [] None None 0 None 0))
    (replicate (Z.to_nat OVERLAY_HASH) None) (replicate (Z.to_nat UPPER_MAX) (mk_up 0 None 0)).

Definition set_entries l (s : overlay) : overlay := mk_ov l (buckets s) (uppers s).
Definition set_buckets l (s : overlay) : overlay := mk_ov (entries s) l (uppers s).
Definition set_uppers l (s : overlay) : overlay := mk_ov (entries s) (buckets s) l.
Definition get_oe (i : nat) : K overlay overlay_entry := λ s,
  match entries s !! i with Some e => Ret (e, s) | None => Fault end.
Definition put_oe (i : nat) (e : overlay_entry) : K overlay unit := modify (λ s, set_entries (<[i := e]> (entries s)) s).
Definition get_bucket (h : Z) : K overlay (option nat) := λ s,
  match buckets s !! Z.to_nat h with Some p => Ret (p, s) | None => Fault end.
Definition put_bucket (h : Z) (p : option nat) : K overlay unit := modify (λ s, set_buckets (<[Z.to_nat h := p]> (buckets s)) s).
Definition set_oe_next n (e : overlay_entry) : overlay_entry :=
  mk_oe (oe_name e) (oe_root e) (oe_parent e) (oe_whiteout e) n (oe_used e).
Definition set_oe_used n (e : overlay_entry) : overlay_entry :=
  mk_oe (oe_name e) (oe_root e) (oe_parent e) (oe_whiteout e) (oe_next e) n.

Section overlay.
Variable node_addr : Z → Z.

Fixpoint hash_loop (h : Z) (name : cstring) : Z :=
  match name with
  | [] => h
  | c :: name => hash_loop (u32 (u32 (h * 33) + u8 c)) name
  end.
Definition overlay_hash (parent : Z) (name : cstring) : Z :=
  let h := u32 (Z.shiftr (node_addr parent) 4) in
  let h := Z.lxor h (u32 (node_addr parent)) in
  Z.land (hash_loop h name) (OVERLAY_HASH - 1).

Definition overlay_find_empty : K overlay Z :=
  r ← for_find (seqZ 0 OVERLAY_ENTRIES) (λ i,
        e ← get_oe (Z.to_nat i);
        if decide (oe_used e = 0) then mret (Some i) else mret None);
  mret (default (-1) r).

(** [entry->parent == parent && namecmp(entry->name, name) == 0] *)
Definition oe_matches (parent : Z) (name : cstring) (e : overlay_entry) : bool :=
  bool_decide (oe_parent e = Some parent) && name_eq (oe_name e) name.

(** A chain has at most as many entries as the array. *)
Definition chain_fuel : nat := S (Z.to_nat OVERLAY_ENTRIES).
Fixpoint chain_find (fuel : nat) (parent : Z) (name : cstring) (entry : option nat) : K overlay (option nat) :=
  match fuel with
  | O => λ _, NoFuel
  | S fuel =>
      match entry with
      | None => mret None
      | Some i =>
          e ← get_oe i;
          if decide (oe_used e = 0) then chain_find fuel parent name (oe_next e)
          else if oe_matches parent name e then mret (Some i)
          else chain_find fuel parent name (oe_next e)
      end
  end.
Definition overlay_find (parent : Z) (name : cstring) : K overlay (option nat) :=
  entry ← get_bucket (overlay_hash parent name);
  chain_find chain_fuel parent name entry.

Definition overlay_add (root : option Z) (parent : Z) (name : cstring) (whiteout : Z) : K overlay Z :=
  i ← overlay_find_empty;
  if decide (i = -1) then mret (-1) else
  let i := Z.to_nat i in
  let len := if decide (Z.of_nat (length name) < DIRSIZ) then Z.of_nat (length name) else DIRSIZ - 1 in
  e ← get_oe i;
  put_oe i (mk_oe (take (Z.to_nat len) name) root (Some parent) whiteout (oe_next e) 1) ;;
  let hash := overlay_hash parent name in
  b ← get_bucket hash;
  e ← get_oe i;
  put_oe i (set_oe_next b e) ;;
  put_bucket hash (Some i) ;;
  mret 0.

Fixpoint remove_loop (fuel : nat) (parent : Z) (name : cstring) (hash : Z) (prev entry : option nat) : K overlay Z :=
  match fuel with
  | O => λ _, NoFuel
  | S fuel =>
      match entry with
      | None => mret (-1)
      | Some i =>
          e ← get_oe i;
          if decide (oe_used e ≠ 0 ∧ oe_matches parent name e = true) then
            (match prev with
             | None => put_bucket hash (oe_next e)
             | Some p => pe ← get_oe p; put_oe p (set_oe_next (oe_next e) pe)
             end) ;;
            e ← get_oe i;
            put_oe i (set_oe_next None e) ;;
            e ← get_oe i;
            put_oe i (set_oe_used 0 e) ;;
            mret 0
          else remove_loop fuel parent name hash (Some i) (oe_next e)
      end
  end.
Definition overlay_remove (parent : Z) (name : cstring) : K overlay Z :=
  let hash := overlay_hash parent name in
  entry ← get_bucket hash;
  remove_loop chain_fuel parent name hash None entry.

(** ** The upper map *)

Definition get_up (i : Z) : K overlay upper_map := λ s,
  match uppers s !! Z.to_nat i with Some u => Ret (u, s) | None => Fault end.
Definition put_up (i : Z) (u : upper_map) : K overlay unit := modify (λ s, set_uppers (<[Z.to_nat i := u]> (uppers s)) s).

Definition upper_find (ino : Z) : K overlay (option Z) :=
  r ← for_find (seqZ 0 UPPER_MAX) (λ i,
        u ← get_up i;
        if decide (up_used u ≠ 0 ∧ up_ino u = ino) then mret (Some (up_upper u)) else mret None);
  mret (default None r).
Definition upper_add (ino : Z) (upper : option Z) : K overlay Z :=
  r ← for_find (seqZ 0 UPPER_MAX) (λ i,
        u ← get_up i;
        if decide (up_used u = 0) then put_up i (mk_up ino upper 1) ;; mret (Some 0) else mret None);
  mret (default (-1) r).
Definition upper_remove (ino : Z) : K overlay unit :=
  _ ← for_find (seqZ 0 UPPER_MAX) (λ i,
        u ← get_up i;
        if decide (up_used u ≠ 0 ∧ up_ino u = ino) then put_up i (mk_up (up_ino u) (up_upper u) 0) ;; mret (Some tt) else mret None);
  mret tt.

(** ** Reference: a list of entries *)

Record orec := mk_orec { or_root : option Z; or_parent : Z; or_name : cstring; or_whiteout : Z }.
Definition has_key (parent : Z) (name : cstring) (r : orec) : Prop := or_parent r = parent ∧ or_name r = name.
#[export] Instance has_key_dec parent name r : Decision (has_key parent name r).
Proof. unfold has_key. apply _. Defined.

Inductive ov_op := Ofind (parent : Z) (name : cstring) | Oadd (root : option Z) (parent : Z) (name : cstring) (whiteout : Z)
  | Oremove (parent : Z) (name : cstring).
Inductive ov_result := Rfound (r : option orec) | Rcode (z : Z).

Fixpoint remove_key (parent : Z) (name : cstring) (l : list orec) : list orec :=
  match l with [] => [] | r :: l => if decide (has_key parent name r) then l else r :: remove_key parent name l end.
Definition spec_step (op : ov_op) (l : list orec) : ov_result * list orec :=
  match op with
  | Ofind p n => (Rfound (head (filter (has_key p n) l)), l)
  | Oadd root p n w => if decide (Z.of_nat (length l) < OVERLAY_ENTRIES) then (Rcode 0, mk_orec root p n w :: l) else (Rcode (-1), l)
  | Oremove p n => if decide (Exists (has_key p n) l) then (Rcode 0, remove_key p n l) else (Rcode (-1), l)
  end.

(** What is in an entry. *)
Definition rec_of (e : overlay_entry) : orec := mk_orec (oe_root e) (default 0 (oe_parent e)) (oe_name e) (oe_whiteout e).
Definition ov_step (op : ov_op) : K overlay ov_result :=
  match op with
  | Ofind p n => r ← overlay_find p n;
      match r with None => mret (Rfound None) | Some i => e ← get_oe i; mret (Rfound (Some (rec_of e))) end
  | Oadd root p n w => z ← overlay_add root p n w; mret (Rcode z)
  | Oremove p n => z ← overlay_remove p n; mret (Rcode z)
  end.
Fixpoint ov_run (ops : list ov_op) : K overlay (list ov_result) :=
  match ops with [] => mret [] | op :: ops => r ← ov_step op; rs ← ov_run ops; mret (r :: rs) end.
Fixpoint spec_run (ops : list ov_op) (l : list orec) : list ov_result :=
  match ops with [] => [] | op :: ops => let '(r, l) := spec_step op l in r :: spec_run ops l end.

(** Names that an entry holds whole. *)
Definition short (n : cstring) : Prop := Z.of_nat (length n) < DIRSIZ.
Definition op_short (op : ov_op) : Prop :=
  match op with Oadd _ _ n _ => short n | _ => True end.

(** ** The chains *)

(** The entries of a chain, from [pos] on. *)
Fixpoint chain (es : list overlay_entry) (pos : option nat) (l : list nat) : Prop :=
  match l with
  | [] => pos = None
  | i :: l => pos = Some i ∧ ∃ e, es !! i = Some e ∧ chain es (oe_next e) l
  end.
Definition entry_hash (es : list overlay_entry) (i : nat) : Z :=
  match es !! i with Some e => overlay_hash (default 0 (oe_parent e)) (oe_name e) | None => -1 end.

(** [idx] are the entries in use, the last one added first. *)
Record ov_rel (s : overlay) (idx : list nat) : Prop := {
  or_len : length (entries s) = Z.to_nat OVERLAY_ENTRIES;
  or_blen : length (buckets s) = Z.to_nat OVERLAY_HASH;
  or_nodup : NoDup idx;
  or_used i e : entries s !! i = Some e → oe_used e ≠ 0 ↔ i ∈ idx;
  or_entry i : i ∈ idx → ∃ e p, entries s !! i = Some e ∧ oe_parent e = Some p ∧ short (oe_name e);
  or_chain b : 0 ≤ b < OVERLAY_HASH →
    ∃ hd, buckets s !! Z.to_nat b = Some hd ∧ chain (entries s) hd (filter (λ i, entry_hash (entries s) i = b) idx)
}.
Definition contents (s : overlay) (idx : list nat) : list orec := omap (λ i, rec_of <$> entries s !! i) idx.

(** * Lemmas *)

Lemma overlay_hash_range p n : 0 ≤ overlay_hash p n < OVERLAY_HASH.
Proof.
  unfold overlay_hash, OVERLAY_HASH. rewrite Z.land_comm. apply (land_range _ _ 5); [done|done|].
  assert (H : ∀ n h, 0 ≤ h → 0 ≤ hash_loop h n); [|apply H; apply Z.lxor_nonneg; split; intros; apply u32_range].
  clear n. induction n as [|c n IH]; intros h Hh; [done|]. apply IH, u32_range.
Qed.

Lemma short_name_eq a b : short a → name_eq a b = bool_decide (a = b).
Proof.
  intros Ha. unfold name_eq, short, DIRSIZ in *. rewrite (take_ge a) by lia. apply bool_decide_ext. split; [|intros <-; by rewrite take_ge by lia].
  intros Hab. rewrite Hab. apply take_ge. apply (f_equal length) in Hab. rewrite length_take in Hab. lia.
Qed.
Lemma matches_spec p n e q : oe_parent e = Some q → short (oe_name e) → oe_matches p n e = bool_decide (has_key p n (rec_of e)).
Proof.
  intros Hp Hs. unfold oe_matches, has_key, rec_of. rewrite short_name_eq by done. rewrite Hp. cbn.
  destruct (decide (q = p)) as [->|Hne].
  - rewrite bool_decide_eq_true_2 by done. cbn. apply bool_decide_ext. split; [done|]. by intros [_ ?].
  - rewrite bool_decide_eq_false_2 by congruence. symmetry. apply bool_decide_eq_false_2. by intros [? _].
Qed.

Lemma get_oe_run s i e : entries s !! i = Some e → get_oe i s = Ret (e, s).
Proof. intros He. unfold get_oe. by rewrite He. Qed.

(** A chain only depends on the entries in it. *)
Lemma ochain_ext es es' pos l : (∀ i, i ∈ l → es' !! i = es !! i) → chain es pos l → chain es' pos l.
Proof.
  revert pos. induction l as [|i l IH]; intros pos Hl; cbn; [done|]. intros (-> & e & He & Hc). split; [done|]. exists e.
  rewrite Hl by left. split; [done|]. apply IH; [|done]. intros j Hj. apply Hl. by right.
Qed.
Lemma chain_insert es i e pos l : i ∉ l → chain es pos l → chain (<[i := e]> es) pos l.
Proof. intros Hi. apply ochain_ext. intros j Hj. apply list_lookup_insert_ne. intros ->. done. Qed.

Lemma idx_length s idx : ov_rel s idx → (length idx ≤ Z.to_nat OVERLAY_ENTRIES)%nat.
Proof.
  intros HR. rewrite <-(length_seq (Z.to_nat OVERLAY_ENTRIES) 0). apply submseteq_length, NoDup_submseteq; [apply (or_nodup _ _ HR)|].
  intros i Hi. destruct (or_entry _ _ HR i Hi) as (e & p & He & _). apply lookup_lt_Some in He. rewrite (or_len _ _ HR) in He. apply elem_of_seq. lia.
Qed.
Lemma chain_short s idx b : ov_rel s idx → (length (filter (λ i, entry_hash (entries s) i = b) idx) < chain_fuel)%nat.
Proof. intros HR. pose proof (idx_length s idx HR). pose proof (length_filter (λ i, entry_hash (entries s) i = b) idx). unfold chain_fuel. lia. Qed.
Lemma contents_length s idx : ov_rel s idx → length (contents s idx) = length idx.
Proof.
  intros HR. unfold contents. assert (Hi : ∀ i, i ∈ idx → is_Some (entries s !! i)).
  { intros i Hi. destruct (or_entry _ _ HR i Hi) as (e & _ & -> & _). done. }
  clear HR. induction idx as [|i idx IH]; [done|]. cbn. destruct (Hi i) as [e ->]; [left|]. cbn. f_equal. apply IH. intros j Hj. apply Hi. by right.
Qed.

(** ** Finding *)

Definition idx_matches (s : overlay) (p : Z) (n : cstring) (i : nat) : Prop := ∃ e, entries s !! i = Some e ∧ has_key p n (rec_of e).
#[export] Instance idx_matches_dec s p n i : Decision (idx_matches s p n i).
Proof.
  unfold idx_matches. destruct (entries s !! i) as [e|]; [|right; naive_solver].
  destruct (decide (has_key p n (rec_of e))); [left; by exists e|right; naive_solver].
Defined.

Lemma find_in_chain s idx p n fuel pos l : ov_rel s idx → chain (entries s) pos l → (∀ i, i ∈ l → i ∈ idx) → (length l < fuel)%nat →
  chain_find fuel p n pos s = Ret (head (filter (idx_matches s p n) l), s).
Proof.
  intros HR. revert pos fuel. induction l as [|i l IH]; intros pos fuel Hc Hl Hf; (destruct fuel as [|fuel]; [cbn in Hf; lia|]); cbn [chain_find].
  - cbn in Hc. by subst.
  - cbn in Hc. destruct Hc as (-> & e & He & Hc). rewrite (bind_Ret _ _ _ _ _ (get_oe_run s i e He)).
    destruct (or_entry _ _ HR i) as (e' & q & He' & Hq & Hsh); [apply Hl; left|]. assert (e' = e) as -> by congruence.
    rewrite decide_False by (apply (or_used _ _ HR i e He), Hl; left). rewrite (matches_spec p n e q Hq Hsh). rewrite filter_cons.
    destruct (decide (has_key p n (rec_of e))) as [Hk|Hk].
    + rewrite bool_decide_eq_true_2 by done. rewrite decide_True by (by exists e). done.
    + rewrite bool_decide_eq_false_2 by done. rewrite decide_False by (intros (? & ? & ?); congruence).
      apply IH; [done| |cbn in Hf; lia]. intros j Hj. apply Hl. by right.
Qed.
Lemma filter_matches s (idx : list nat) p n :
  filter (idx_matches s p n) (filter (λ i, entry_hash (entries s) i = overlay_hash p n) idx) = filter (idx_matches s p n) idx.
Proof.
  rewrite list_filter_filter. apply list_filter_iff. intros i. split; [by intros []|].
  intros (e & He & Hp & Hn). split; [by exists e|]. unfold entry_hash. rewrite He. unfold rec_of in *. cbn in *. by rewrite Hp, Hn.
Qed.
Lemma overlay_find_run s idx p n : ov_rel s idx → overlay_find p n s = Ret (head (filter (idx_matches s p n) idx), s).
Proof.
  intros HR. unfold overlay_find. destruct (or_chain _ _ HR (overlay_hash p n) (overlay_hash_range p n)) as (hd & Hb & Hc).
  rewrite (bind_Ret (get_bucket _) _ s hd s) by (unfold get_bucket; by rewrite Hb).
  rewrite (find_in_chain s idx p n _ hd _ HR Hc); [by rewrite filter_matches| |by apply chain_short].
  intros i Hi. by apply list_elem_of_filter in Hi as [_ Hi].
Qed.
Lemma contents_find s idx p n : ov_rel s idx → 
  head (filter (has_key p n) (contents s idx)) = (i ← head (filter (idx_matches s p n) idx); rec_of <$> entries s !! i).
Proof.
  intros HR. unfold contents. assert (Hi : ∀ i, i ∈ idx → is_Some (entries s !! i)).
  { intros i Hi. destruct (or_entry _ _ HR i Hi) as (e & _ & -> & _). done. }
  clear HR. induction idx as [|i idx IH]; [done|]. destruct (Hi i) as [e He]; [left|]. rewrite filter_cons. cbn [omap list_omap]. rewrite He. cbn [fmap option_fmap option_map].
  rewrite filter_cons. destruct (decide (has_key p n (rec_of e))) as [Hk|Hk].
  - rewrite decide_True by (by exists e). cbn. by rewrite He.
  - rewrite decide_False by (intros (? & ? & ?); congruence). apply IH. intros j Hj. apply Hi. by right.
Qed.
(** ** Adding *)

Lemma filter_ext_in {A} (P Q : A → Prop) `{∀ x, Decision (P x), ∀ x, Decision (Q x)} (l : list A) :
  (∀ x, x ∈ l → P x ↔ Q x) → filter P l = filter Q l.
Proof.
  induction l as [|x l IH]; intros HPQ; [done|]. rewrite !filter_cons. rewrite IH by (intros y Hy; apply HPQ; by right).
  pose proof (HPQ x ltac:(left)). destruct (decide (P x)), (decide (Q x)); done || tauto.
Qed.

Lemma find_empty_run s idx : ov_rel s idx → ∃ r, overlay_find_empty s = Ret (r, s) ∧
  if decide (Z.of_nat (length idx) < OVERLAY_ENTRIES) then 0 ≤ r < OVERLAY_ENTRIES ∧ Z.to_nat r ∉ idx else r = -1.
Proof.
  intros HR. pose proof (or_len _ _ HR) as Hlen. unfold overlay_find_empty.
  destruct (for_find_seq (λ k s1, s1 = s ∧ ∀ j, 0 ≤ j < k → Z.to_nat j ∈ idx) (λ r s1, s1 = s ∧ 0 ≤ r < OVERLAY_ENTRIES ∧ Z.to_nat r ∉ idx)
    (λ i, e ← get_oe (Z.to_nat i); if decide (oe_used e = 0) then mret (Some i) else mret None) 0 OVERLAY_ENTRIES s) as (x & s' & Hrun & Hx).
  - done.
  - intros i s1 Hi [-> Hj]. destruct (lookup_lt_is_Some_2 (entries s) (Z.to_nat i)) as [e He]; [rewrite Hlen; lia|].
    rewrite (bind_Ret _ _ _ _ _ (get_oe_run s _ e He)). pose proof (or_used _ _ HR _ e He) as Hu. case_decide as H0.
    + exists (Some i), s. split; [done|]. split_and!; [done|lia|lia|]. intros Hin. by apply Hu in Hin.
    + exists None, s. split; [done|]. split; [done|]. intros j Hj'. destruct (decide (j = i)) as [->|]; [by apply Hu|]. apply Hj. lia.
  - split; [done|]. intros j Hj. lia.
  - rewrite (bind_Ret _ _ _ _ _ Hrun). pose proof (idx_length s idx HR) as Hmax. destruct x as [r|].
    + destruct Hx as (-> & Hr & Hni). exists r. split; [done|]. rewrite decide_True; [done|].
      assert (Hs : (length (Z.to_nat r :: idx) ≤ length (seq 0 (Z.to_nat OVERLAY_ENTRIES)))%nat).
      { apply submseteq_length, NoDup_submseteq; [constructor; [done|apply (or_nodup _ _ HR)]|]. intros i Hi. apply elem_of_seq.
        apply elem_of_cons in Hi as [->|Hi]; [lia|]. destruct (or_entry _ _ HR i Hi) as (e & p & He & _). apply lookup_lt_Some in He. lia. }
      rewrite length_seq in Hs. cbn [length] in Hs. lia.
    + destruct Hx as (-> & Hall). exists (-1). split; [done|]. rewrite decide_False; [done|].
      assert (Hs : (length (seq 0 (Z.to_nat OVERLAY_ENTRIES)) ≤ length idx)%nat).
      { apply submseteq_length, NoDup_submseteq; [apply NoDup_seq|]. intros i Hi%elem_of_seq. specialize (Hall (Z.of_nat i)). rewrite Nat2Z.id in Hall. apply Hall. lia. }
      rewrite length_seq in Hs. lia.
Qed.

Lemma contents_ext s s' idx : (∀ i, i ∈ idx → rec_of <$> entries s' !! i = rec_of <$> entries s !! i) → contents s' idx = contents s idx.
Proof.
  intros Hi. unfold contents. induction idx as [|i idx IH]; [done|]. cbn. rewrite Hi by left. rewrite IH; [done|]. intros j Hj. apply Hi. by right.
Qed.

Lemma add_run s idx root p n w : ov_rel s idx → short n →
  if decide (Z.of_nat (length idx) < OVERLAY_ENTRIES)
  then ∃ i s', overlay_add root p n w s = Ret (0, s') ∧ ov_rel s' (i :: idx) ∧
    contents s' (i :: idx) = mk_orec root p n w :: contents s idx ∧ uppers s' = uppers s
  else overlay_add root p n w s = Ret (-1, s).
Proof.
  intros HR Hn. destruct (find_empty_run s idx HR) as (r & Hr & Hcase). unfold overlay_add. rewrite (bind_Ret _ _ _ _ _ Hr).
  destruct (decide (Z.of_nat (length idx) < OVERLAY_ENTRIES)) as [Hlt|Hge]; [|subst r; by rewrite decide_True by done].
  destruct Hcase as [Hr0 Hni]. rewrite decide_False by lia. set (i := Z.to_nat r) in *.
  destruct (lookup_lt_is_Some_2 (entries s) i) as [e He]; [rewrite (or_len _ _ HR); lia|].
  rewrite (bind_Ret _ _ _ _ _ (get_oe_run s i e He)). rewrite decide_True by exact Hn. rewrite Nat2Z.id, take_ge by lia.
  set (h := overlay_hash p n). pose proof (overlay_hash_range p n) as Hh. fold h in Hh. destruct (or_chain _ _ HR h Hh) as (hd & Hb & _).
  set (e1 := mk_oe n root (Some p) w (oe_next e) 1). set (e2 := mk_oe n root (Some p) w hd 1).
  assert (Hi : (i < length (entries s))%nat) by (by eapply lookup_lt_Some).
  exists i, (mk_ov (<[i := e2]> (entries s)) (<[Z.to_nat h := Some i]> (buckets s)) (uppers s)). split.
  { rewrite (bind_Ret (put_oe i e1) _ s tt (set_entries (<[i := e1]> (entries s)) s)) by done.
    rewrite (bind_Ret (get_bucket h) _ _ hd (set_entries (<[i := e1]> (entries s)) s)) by (unfold get_bucket; cbn; by rewrite Hb).
    rewrite (bind_Ret _ _ _ _ _ (get_oe_run (set_entries (<[i := e1]> (entries s)) s) i e1 (list_lookup_insert_eq _ _ _ Hi))).
    unfold put_oe, put_bucket, modify, mbind, K_bind, mret, K_ret, set_entries, set_buckets. cbn [entries buckets uppers].
    rewrite list_insert_insert_eq. done. }
  assert (Hold : ∀ j, j ∈ idx → <[i := e2]> (entries s) !! j = entries s !! j) by (intros j Hj; apply list_lookup_insert_ne; intros ->; done).
  assert (Hnew : <[i := e2]> (entries s) !! i = Some e2) by (by apply list_lookup_insert_eq).
  split; [|split; [|done]].
  - split; cbn [entries buckets].
    + rewrite length_insert. apply (or_len _ _ HR).
    + rewrite length_insert. apply (or_blen _ _ HR).
    + constructor; [done|apply (or_nodup _ _ HR)].
    + intros j x. destruct (decide (j = i)) as [->|Hj].
      * rewrite Hnew. intros [= <-]. split; [intros _; left|done].
      * rewrite list_lookup_insert_ne by done. intros Hx. rewrite (or_used _ _ HR j x Hx), elem_of_cons. naive_solver.
    + intros j [->|Hj]%elem_of_cons; [by exists e2, p|]. destruct (or_entry _ _ HR j Hj) as (x & q & Hx & Hq & Hs). exists x, q. rewrite Hold; done.
    + intros b Hbr. destruct (or_chain _ _ HR b Hbr) as (hd' & Hb' & Hc').
      assert (Hf : filter (λ j, entry_hash (<[i := e2]> (entries s)) j = b) idx = filter (λ j, entry_hash (entries s) j = b) idx).
      { apply filter_ext_in. intros j Hj. unfold entry_hash. by rewrite Hold. }
      assert (Hhi : entry_hash (<[i := e2]> (entries s)) i = h) by (unfold entry_hash; by rewrite Hnew).
      rewrite filter_cons, Hf, Hhi. destruct (decide (h = b)) as [<-|Hne].
      * exists (Some i). rewrite list_lookup_insert_eq by (rewrite (or_blen _ _ HR); unfold OVERLAY_HASH in *; lia). split; [done|]. cbn [chain].
        split; [done|]. exists e2. split; [done|]. cbn. assert (hd' = hd) as -> by congruence. apply chain_insert; [|done].
        intros Hin. by apply list_elem_of_filter in Hin as [_ ?].
      * exists hd'. rewrite list_lookup_insert_ne by (unfold OVERLAY_HASH in *; lia). split; [done|]. apply chain_insert; [|done].
        intros Hin. by apply list_elem_of_filter in Hin as [_ ?].
  - unfold contents at 1. cbn [omap list_omap entries]. rewrite Hnew. cbn [fmap option_fmap option_map]. f_equal.
    apply (contents_ext s (mk_ov (<[i := e2]> (entries s)) (buckets s) (uppers s))). cbn [entries]. intros j Hj. by rewrite Hold.
Qed.

(** ** Removing *)

Lemma chain_cut es hd l1 q i l2 eq e : NoDup (l1 ++ q :: i :: l2) → es !! q = Some eq → es !! i = Some e →
  chain es hd (l1 ++ q :: i :: l2) → chain (<[q := set_oe_next (oe_next e) eq]> es) hd (l1 ++ q :: l2).
Proof.
  intros Hnd Hq He. revert hd. induction l1 as [|j l1 IH]; intros hd; cbn [app chain] in *.
  - intros (-> & x & Hx & Hxi & y & Hy & Hc). split; [done|]. exists (set_oe_next (oe_next e) eq).
    rewrite list_lookup_insert_eq by (by eapply lookup_lt_Some). split; [done|]. cbn. assert (y = e) as -> by congruence.
    apply chain_insert; [|done]. apply NoDup_cons in Hnd as [Hnq _]. set_solver.
  - intros (-> & x & Hx & Hc). split; [done|]. exists x. apply NoDup_cons in Hnd as [Hj Hnd]. rewrite list_lookup_insert_ne by set_solver.
    split; [done|]. by apply IH.
Qed.

(** The entry [i] out of its chain, after the entries [l1]. *)
Definition detach (h : Z) (l1 : list nat) (i : nat) (e : overlay_entry) (s : overlay) : overlay :=
  let s := match last l1 with
           | None => set_buckets (<[Z.to_nat h := oe_next e]> (buckets s)) s
           | Some q => match entries s !! q with
                       | Some eq => set_entries (<[q := set_oe_next (oe_next e) eq]> (entries s)) s
                       | None => s end
           end in
  set_entries (<[i := set_oe_used 0 (set_oe_next None e)]> (entries s)) s.

Lemma remove_skip s idx p n h l1 l2 fuel prev pos : ov_rel s idx → chain (entries s) pos (l1 ++ l2) → (∀ j, j ∈ l1 → j ∈ idx) →
  Forall (λ j, ¬ idx_matches s p n j) l1 → (length l1 < fuel)%nat →
  ∃ pos', chain (entries s) pos' l2 ∧
  remove_loop fuel p n h prev pos s = remove_loop (fuel - length l1) p n h (match last l1 with Some q => Some q | None => prev end) pos' s.
Proof.
  intros HR. revert prev pos fuel. induction l1 as [|j l1 IH]; intros prev pos fuel Hc Hl Hm Hf.
  - exists pos. split; [done|]. by rewrite Nat.sub_0_r.
  - destruct fuel as [|fuel]; [lia|]. cbn in Hc. destruct Hc as (-> & e & He & Hc). inversion_clear Hm as [|?? Hj Hm'].
    destruct (IH (Some j) (oe_next e) fuel) as (pos' & Hc' & Hr'); [done|intros k Hk; apply Hl; by right|done|cbn in Hf; lia|].
    exists pos'. split; [done|]. cbn [remove_loop]. rewrite (bind_Ret _ _ _ _ _ (get_oe_run s j e He)).
    destruct (or_entry _ _ HR j) as (e' & q & He' & Hq & Hsh); [apply Hl; left|]. assert (e' = e) as -> by congruence.
    rewrite decide_False; [|intros [_ Hmt]; rewrite (matches_spec p n e q Hq Hsh) in Hmt; apply bool_decide_eq_true in Hmt; apply Hj; by exists e].
    rewrite Hr'. cbn [length Nat.sub]. f_equal. destruct l1 as [|k l1]; [done|]. change (last (j :: k :: l1)) with (last (k :: l1)). by destruct (last_is_Some (k :: l1)) as [_ [? ->]].
Qed.

Lemma remove_at s idx p n h l1 i l2 fuel pos e : ov_rel s idx → chain (entries s) pos (l1 ++ i :: l2) → (∀ j, j ∈ l1 ++ i :: l2 → j ∈ idx) →
  NoDup (l1 ++ i :: l2) → Forall (λ j, ¬ idx_matches s p n j) l1 → entries s !! i = Some e → has_key p n (rec_of e) → (length (l1 ++ i :: l2) < fuel)%nat →
  remove_loop fuel p n h None pos s = Ret (0, detach h l1 i e s).
Proof.
  intros HR Hc Hl Hnd Hm He Hk Hf. rewrite length_app in Hf. cbn [length] in Hf.
  destruct (remove_skip s idx p n h l1 (i :: l2) fuel None pos HR Hc) as (pos' & Hc' & ->); [intros j Hj; apply Hl; set_solver|done|lia|].
  cbn in Hc'. destruct Hc' as (-> & _). destruct (fuel - length l1)%nat as [|f] eqn:Ef; [lia|]. cbn [remove_loop].
  rewrite (bind_Ret _ _ _ _ _ (get_oe_run s i e He)). destruct (or_entry _ _ HR i) as (e' & q0 & He' & Hq0 & Hsh); [apply Hl; set_solver|].
  assert (e' = e) as -> by congruence. rewrite decide_True.
  2:{ split; [apply (or_used _ _ HR i e He), Hl; set_solver|]. rewrite (matches_spec p n e q0 Hq0 Hsh). by apply bool_decide_eq_true. }
  assert (Hi : (i < length (entries s))%nat) by (by eapply lookup_lt_Some). unfold detach.
  assert (Hput : ∀ s1, length (entries s1) = length (entries s) → entries s1 !! i = Some e →
    (e ← get_oe i; put_oe i (set_oe_next None e) ;; e ← get_oe i; put_oe i (set_oe_used 0 e) ;; mret 0) s1 =
    Ret (0, set_entries (<[i := set_oe_used 0 (set_oe_next None e)]> (entries s1)) s1)).
  { intros s1 Hl1 He1. rewrite (bind_Ret _ _ _ _ _ (get_oe_run s1 i e He1)).
    rewrite (bind_Ret (put_oe i _) _ s1 tt (set_entries (<[i := set_oe_next None e]> (entries s1)) s1)) by done.
    assert (He2 : entries (set_entries (<[i := set_oe_next None e]> (entries s1)) s1) !! i = Some (set_oe_next None e)) by (apply list_lookup_insert_eq; lia).
    rewrite (bind_Ret _ _ _ _ _ (get_oe_run _ i _ He2)). unfold put_oe, modify, mbind, K_bind, mret, K_ret, set_entries. cbn [entries buckets uppers].
    by rewrite list_insert_insert_eq. }
  destruct (last l1) as [q|] eqn:Hlast.
  - assert (Hq : q ∈ l1) by (by apply last_Some_elem_of). destruct (or_entry _ _ HR q) as (eq & pq & Heq & _); [apply Hl; set_solver|]. rewrite Heq.
    assert (Hqi : q ≠ i) by (intros ->; apply NoDup_app in Hnd as (_ & Hd & _); apply (Hd i Hq); left).
    rewrite bind_assoc, (bind_Ret _ _ _ _ _ (get_oe_run s q eq Heq)).
    rewrite (bind_Ret (put_oe q _) _ s tt (set_entries (<[q := set_oe_next (oe_next e) eq]> (entries s)) s)) by done.
    apply Hput; cbn [entries set_entries]; [by rewrite length_insert|by rewrite list_lookup_insert_ne].
  - rewrite (bind_Ret (put_bucket h _) _ s tt (set_buckets (<[Z.to_nat h := oe_next e]> (buckets s)) s)) by done. by apply Hput.
Qed.
Lemma head_filter_split {A} (P : A → Prop) `{∀ x, Decision (P x)} (l : list A) x :
  head (filter P l) = Some x → ∃ l1 l2, l = l1 ++ x :: l2 ∧ Forall (λ y, ¬ P y) l1 ∧ P x.
Proof.
  induction l as [|y l IH]; [done|]. rewrite filter_cons. destruct (decide (P y)) as [Hy|Hy]; cbn.
  - intros [= ->]. by exists [], l.
  - intros (l1 & l2 & -> & HF & Hx)%IH. exists (y :: l1), l2. split_and!; [done|by constructor|done].
Qed.

(** The parts of an entry that stay. *)
Definition fixed (e : overlay_entry) : cstring * option Z * option Z * Z := (oe_name e, oe_root e, oe_parent e, oe_whiteout e).
Lemma detach_fixed h l1 i e s j : entries s !! i = Some e → fixed <$> entries (detach h l1 i e s) !! j = fixed <$> entries s !! j.
Proof.
  intros He. assert (Hi : (i < length (entries s))%nat) by (by eapply lookup_lt_Some). unfold detach.
  assert (Hins : ∀ es, length es = length (entries s) → (fixed <$> es !! j = fixed <$> entries s !! j) →
    fixed <$> <[i := set_oe_used 0 (set_oe_next None e)]> es !! j = fixed <$> entries s !! j).
  { intros es Hlen Hj. destruct (decide (i = j)) as [<-|Hne]; [rewrite list_lookup_insert_eq, He by lia; done|by rewrite list_lookup_insert_ne]. }
  destruct (last l1) as [q|]; [|by apply Hins]. destruct (entries s !! q) as [eq|] eqn:Hq; [|by apply Hins]. apply Hins; cbn; [by rewrite length_insert|].
  destruct (decide (q = j)) as [<-|Hne]; [|by rewrite list_lookup_insert_ne]. rewrite list_lookup_insert_eq by (by eapply lookup_lt_Some). by rewrite Hq.
Qed.
Lemma detach_used h l1 i e s j x : entries s !! i = Some e → entries (detach h l1 i e s) !! j = Some x →
  oe_used x = if decide (j = i) then 0 else default 0 (oe_used <$> entries s !! j).
Proof.
  intros He. assert (Hi : (i < length (entries s))%nat) by (by eapply lookup_lt_Some). unfold detach.
  assert (Hins : ∀ es, length es = length (entries s) → (oe_used <$> es !! j = oe_used <$> entries s !! j) →
    <[i := set_oe_used 0 (set_oe_next None e)]> es !! j = Some x → oe_used x = if decide (j = i) then 0 else default 0 (oe_used <$> entries s !! j)).
  { intros es Hlen Hj. destruct (decide (j = i)) as [->|Hne]; [rewrite list_lookup_insert_eq by lia; by intros [= <-]|].
    rewrite list_lookup_insert_ne by done. intros Hx. by rewrite <-Hj, Hx. }
  destruct (last l1) as [q|]; [|by apply Hins]. destruct (entries s !! q) as [eq|] eqn:Hq; [|by apply Hins]. apply Hins; cbn; [by rewrite length_insert|].
  destruct (decide (q = j)) as [<-|Hne]; [|by rewrite list_lookup_insert_ne]. rewrite list_lookup_insert_eq by (by eapply lookup_lt_Some). by rewrite Hq.
Qed.
Lemma fixed_hash es es' j : fixed <$> es' !! j = fixed <$> es !! j → entry_hash es' j = entry_hash es j.
Proof.
  unfold entry_hash. destruct (es' !! j) as [x|], (es !! j) as [y|]; cbn; try done. unfold fixed. by intros [= -> _ -> _].
Qed.

Lemma detach_chain h l1 i l2 e s hd : NoDup (l1 ++ i :: l2) → chain (entries s) hd (l1 ++ i :: l2) → entries s !! i = Some e →
  chain (entries (detach h l1 i e s)) (if decide (l1 = []) then oe_next e else hd) (l1 ++ l2).
Proof.
  intros Hnd Hc He. unfold detach. pose proof (NoDup_app l1 (i :: l2)) as Hna. apply Hna in Hnd as Hnd'. destruct Hnd' as (_ & Hd & Hn2).
  apply NoDup_cons in Hn2 as [Hi2 _]. assert (Hi1 : i ∉ l1) by (intros Hi1; apply (Hd i Hi1); left).
  destruct l1 as [|a l1'] using rev_ind; cbn [last].
  - cbn in Hc. destruct Hc as (-> & e' & He' & Hc). assert (e' = e) as -> by congruence. cbn [decide app]. rewrite decide_True by done. cbn [entries set_entries set_buckets].
    by apply chain_insert.
  - rewrite last_snoc. rewrite decide_False by (by destruct l1'). rewrite <-app_assoc in Hc, Hnd. cbn [app] in Hc, Hnd. rewrite <-app_assoc. cbn [app].
    destruct (entries s !! a) as [ea|] eqn:Ha.
    + cbn [entries set_entries]. apply chain_insert; [set_solver|]. by apply (chain_cut _ _ _ a i l2 ea e).
    + exfalso. clear -Hc Ha. revert hd Hc. induction l1' as [|b l IH]; intros hd; cbn; [intros (_ & ? & ? & _); congruence|]. intros (_ & x & _ & Hc). by apply IH in Hc.
Qed.
Lemma detach_rel s idx p n l1 i l2 e : ov_rel s idx → filter (λ j, entry_hash (entries s) j = overlay_hash p n) idx = l1 ++ i :: l2 →
  entries s !! i = Some e → ov_rel (detach (overlay_hash p n) l1 i e s) (filter (.≠ i) idx).
Proof.
  intros HR HL He. set (h := overlay_hash p n) in *. pose proof (overlay_hash_range p n) as Hh. fold h in Hh.
  assert (Hlen : length (entries (detach h l1 i e s)) = length (entries s)).
  { unfold detach. destruct (last l1) as [q|]; [destruct (entries s !! q)|]; cbn; by rewrite !length_insert. }
  assert (Hhash : ∀ j, entry_hash (entries (detach h l1 i e s)) j = entry_hash (entries s) j) by (intros j; by apply fixed_hash, detach_fixed).
  assert (HndL : NoDup (l1 ++ i :: l2)) by (rewrite <-HL; apply NoDup_filter, (or_nodup _ _ HR)).
  assert (HiL : i ∈ filter (λ j, entry_hash (entries s) j = h) idx) by (rewrite HL; apply elem_of_app; right; left).
  apply list_elem_of_filter in HiL as [Hhi Hii]. split.
  - rewrite Hlen. apply (or_len _ _ HR).
  - unfold detach. destruct (last l1) as [q|]; [destruct (entries s !! q)|]; cbn; rewrite ?length_insert; apply (or_blen _ _ HR).
  - apply NoDup_filter, (or_nodup _ _ HR).
  - intros j x Hx. rewrite (detach_used h l1 i e s j x He Hx), list_elem_of_filter. destruct (decide (j = i)) as [->|Hne]; [naive_solver|].
    destruct (entries s !! j) as [y|] eqn:Hy; [|apply lookup_ge_None in Hy; apply lookup_lt_Some in Hx; lia].
    cbn. rewrite (or_used _ _ HR j y Hy). naive_solver.
  - intros j [Hj Hji]%list_elem_of_filter. destruct (or_entry _ _ HR j Hji) as (x & q & Hx & Hq & Hs).
    pose proof (detach_fixed h l1 i e s j He) as Hf. rewrite Hx in Hf. destruct (entries (detach h l1 i e s) !! j) as [x'|]; [|done].
    cbn in Hf. unfold fixed in Hf. injection Hf as Hn _ Hp _. exists x', q. split; [done|]. rewrite Hn, Hp. done.
  - intros b Hb. destruct (or_chain _ _ HR b Hb) as (hd & Hbk & Hc).
    assert (Hfil : filter (λ j, entry_hash (entries (detach h l1 i e s)) j = b) (filter (.≠ i) idx) = filter (.≠ i) (filter (λ j, entry_hash (entries s) j = b) idx)).
    { rewrite !list_filter_filter. apply list_filter_iff. intros j. rewrite Hhash. naive_solver. }
    rewrite Hfil. destruct (decide (b = h)) as [->|Hne].
    + rewrite HL in Hc |- *. assert (Hf : filter (.≠ i) (l1 ++ i :: l2) = l1 ++ l2).
      { apply NoDup_app in HndL as (_ & Hd & [Hi2 _]%NoDup_cons). rewrite filter_app, filter_cons_False by auto.
        rewrite !filter_ne_notin; [done|done|]. intros Hi1. apply (Hd i Hi1). left. }
      rewrite Hf. exists (if decide (l1 = []) then oe_next e else hd). split; [|by apply detach_chain].
      unfold detach. destruct l1 as [|a l1] using rev_ind; [rewrite decide_True by done; cbn; apply list_lookup_insert_eq; rewrite (or_blen _ _ HR); unfold OVERLAY_HASH in *; lia|].
      rewrite decide_False by (by destruct l1). rewrite last_snoc. by destruct (entries s !! a).
    + assert (Hnin : ∀ j, j ∈ l1 ++ i :: l2 → j ∉ filter (λ j, entry_hash (entries s) j = b) idx).
      { intros j Hj [Hjb _]%list_elem_of_filter. rewrite <-HL in Hj. apply list_elem_of_filter in Hj as [Hjh _]. congruence. }
      rewrite filter_ne_notin by (apply Hnin; apply elem_of_app; right; left). exists hd. split.
      * unfold detach. destruct (last l1) as [q|]; [destruct (entries s !! q); done|]. cbn. rewrite list_lookup_insert_ne by (unfold OVERLAY_HASH in *; lia). done.
      * unfold detach. destruct (last l1) as [q|] eqn:Hlast.
        -- destruct (entries s !! q) as [eq|]; cbn; [|apply chain_insert; [apply Hnin, elem_of_app; right; left|done]].
           apply chain_insert; [apply Hnin, elem_of_app; right; left|]. apply chain_insert; [|done].
           apply Hnin, elem_of_app. left. by apply last_Some_elem_of.
        -- cbn. apply chain_insert; [apply Hnin, elem_of_app; right; left|done].
Qed.

Lemma remove_run s idx p n : ov_rel s idx →
  match head (filter (idx_matches s p n) idx) with
  | None => overlay_remove p n s = Ret (-1, s)
  | Some i => ∃ s', overlay_remove p n s = Ret (0, s') ∧ ov_rel s' (filter (.≠ i) idx) ∧
      (∀ j, fixed <$> entries s' !! j = fixed <$> entries s !! j) ∧ uppers s' = uppers s
  end.
Proof.
  intros HR. unfold overlay_remove. set (h := overlay_hash p n). destruct (or_chain _ _ HR h (overlay_hash_range p n)) as (hd & Hb & Hc).
  rewrite (bind_Ret (get_bucket _) _ s hd s) by (unfold get_bucket; by rewrite Hb).
  set (L := filter (λ j, entry_hash (entries s) j = h) idx) in *. rewrite <-(filter_matches s idx p n). fold h L.
  assert (HLi : ∀ j, j ∈ L → j ∈ idx) by (intros j [_ Hj]%list_elem_of_filter; done).
  pose proof (chain_short s idx h HR) as Hlen. fold L in Hlen.
  destruct (head (filter (idx_matches s p n) L)) as [i|] eqn:Hhd.
  - apply head_filter_split in Hhd as (l1 & l2 & HL & Hnm & (e & He & Hk)). exists (detach h l1 i e s). rewrite HL in Hc, Hlen. split_and!.
    + apply (remove_at s idx p n h l1 i l2 chain_fuel hd e HR Hc); try done; [intros j Hj; apply HLi; by rewrite HL|].
      rewrite <-HL. apply NoDup_filter, (or_nodup _ _ HR).
    + by apply (detach_rel s idx p n l1 i l2 e HR HL He).
    + intros j. by apply detach_fixed.
    + unfold detach. destruct (last l1) as [q|]; [by destruct (entries s !! q)|done].
  - rewrite <-(app_nil_r L) in Hc. destruct (remove_skip s idx p n h L [] chain_fuel None hd HR Hc HLi) as (pos' & Hp & ->); [|done|].
    + apply Forall_forall. intros j Hj Hm. assert (Hin : j ∈ filter (idx_matches s p n) L) by (by apply list_elem_of_filter).
      destruct (filter (idx_matches s p n) L); [by apply elem_of_nil in Hin|done].
    + cbn in Hp. subst pos'. destruct (chain_fuel - length L)%nat as [|f] eqn:Ef; [lia|]. done.
Qed.

Lemma fixed_rec e e' : fixed e = fixed e' → rec_of e = rec_of e'.
Proof. unfold fixed, rec_of. by intros [= -> -> -> ->]. Qed.
Lemma contents_remove s s' idx p n i : ov_rel s idx → head (filter (idx_matches s p n) idx) = Some i →
  (∀ j, fixed <$> entries s' !! j = fixed <$> entries s !! j) → contents s' (filter (.≠ i) idx) = remove_key p n (contents s idx).
Proof.
  intros HR Hhd Hfx. rewrite (contents_ext s s').
  2:{ intros j _. specialize (Hfx j). destruct (entries s' !! j), (entries s !! j); cbn in *; try done. f_equal. apply fixed_rec. congruence. }
  apply head_filter_split in Hhd as (a & c & -> & Hnm & (e & He & Hk)). pose proof (or_nodup _ _ HR) as Hnd. apply NoDup_app in Hnd as (_ & Hd & [Hic _]%NoDup_cons).
  rewrite filter_app, filter_cons_False by auto. rewrite !filter_ne_notin; [|done|intros Hi; apply (Hd i Hi); left].
  unfold contents. rewrite !omap_app. cbn [omap list_omap]. rewrite He. cbn [fmap option_fmap option_map].
  clear HR Hd. induction Hnm as [|j a Hj Hnm IH]; cbn [omap list_omap app remove_key]; [by rewrite decide_True|].
  destruct (entries s !! j) as [x|] eqn:Hx; cbn [fmap option_fmap option_map app remove_key]; [|exact IH].
  rewrite decide_False; [by f_equal|]. intros Hk'. apply Hj. by exists x.
Qed.

Lemma boot_rel : ov_rel overlay_boot [].
Proof.
  split; cbn [overlay_boot entries buckets].
  - apply length_replicate.
  - apply length_replicate.
  - constructor.
  - intros i e He. apply lookup_replicate in He as [-> _]. cbn. split; [done|]. by intros ?%elem_of_nil.
  - intros i Hi. by apply elem_of_nil in Hi.
  - intros b Hb. exists None. split; [|done]. apply lookup_replicate. split; [done|]. unfold OVERLAY_HASH in *. lia.
Qed.

Lemma head_none_exists (p : Z) (n : cstring) l : Exists (has_key p n) l ↔ is_Some (head (filter (has_key p n) l)).
Proof.
  rewrite Exists_exists. split.
  - intros (r & Hr & Hk). assert (Hin : r ∈ filter (has_key p n) l) by (by apply list_elem_of_filter). destruct (filter (has_key p n) l); [by apply elem_of_nil in Hin|done].
  - intros [r Hr]. apply head_filter_split in Hr as (l1 & l2 & -> & _ & Hk). exists r. split; [|done]. apply elem_of_app. right. left.
Qed.

(** One operation, related to the list. *)
Lemma step_run s idx op : ov_rel s idx → op_short op →
  ∃ s' idx', ov_step op s = Ret ((spec_step op (contents s idx)).1, s') ∧ ov_rel s' idx' ∧
    contents s' idx' = (spec_step op (contents s idx)).2 ∧ uppers s' = uppers s.
Proof.
  intros HR Hop. destruct op as [p n|root p n w|p n]; cbn [ov_step spec_step op_short] in *.
  - exists s, idx. rewrite (bind_Ret _ _ _ _ _ (overlay_find_run s idx p n HR)). cbn [fst snd]. rewrite contents_find by done. split_and!; [|done..].
    destruct (head (filter (idx_matches s p n) idx)) as [i|] eqn:Hhd; [|done].
    apply head_filter_split in Hhd as (a & c & _ & _ & (e & He & _)). rewrite (bind_Ret _ _ _ _ _ (get_oe_run s i e He)). cbn. by rewrite He.
  - pose proof (add_run s idx root p n w HR Hop) as Ha. rewrite contents_length by done.
    destruct (decide (Z.of_nat (length idx) < OVERLAY_ENTRIES)).
    + destruct Ha as (i & s' & Hr & HR' & Hc & Hu). exists s', (i :: idx). by rewrite (bind_Ret _ _ _ _ _ Hr).
    + exists s, idx. by rewrite (bind_Ret _ _ _ _ _ Ha).
  - pose proof (remove_run s idx p n HR) as Hrm. pose proof (head_none_exists p n (contents s idx)) as Hex. rewrite contents_find in Hex by done.
    destruct (head (filter (idx_matches s p n) idx)) as [i|] eqn:Hhd.
    + destruct Hrm as (s' & Hr & HR' & Hfx & Hu). exists s', (filter (.≠ i) idx). rewrite (bind_Ret _ _ _ _ _ Hr).
      rewrite decide_True; [split_and!; [done|done|by apply contents_remove|done]|]. apply Hex. cbn.
      apply head_filter_split in Hhd as (a & c & _ & _ & (e & He & _)). by rewrite He.
    + exists s, idx. rewrite (bind_Ret _ _ _ _ _ Hrm). rewrite decide_False; [done|]. intros [x Hx]%Hex. done.
Qed.

(** * Theorems *)

(** C12: For every sequence of overlay_find, overlay_add and overlay_remove
    from boot with names shorter than DIRSIZ, the hashed table of mix.c gives
    the results of a list of entries: it finds the entry added last for a
    name, refuses the entry after the OVERLAY_ENTRIES-th, and forgets an entry
    that is removed. *)
Theorem overlay_refines ops : Forall op_short ops → ∃ s', ov_run ops overlay_boot = Ret (spec_run ops [], s').
Proof.
  intros Hops. assert (H : ∀ s idx, ov_rel s idx → ∃ s', ov_run ops s = Ret (spec_run ops (contents s idx), s')); [|apply (H _ [] boot_rel)].
  induction Hops as [|op ops Hop Hops IH]; intros s idx HR; [by exists s|]. cbn [ov_run spec_run].
  destruct (step_run s idx op HR Hop) as (s1 & idx1 & Hs & HR1 & Hc & _). rewrite (bind_Ret _ _ _ _ _ Hs).
  destruct (IH s1 idx1 HR1) as (s' & Hr). exists s'. rewrite (bind_Ret _ _ _ _ _ Hr), Hc. by destruct (spec_step op (contents s idx)).
Qed.
End overlay.

Lemma overlay_refines_witness :
  ∃ s', ov_run (λ v, 0x80200000 + 176 * v) [Oadd (Some 3) 1 [97] 0; Oadd None 1 [98] 1; Oremove 1 [97]; Ofind 1 [98]] overlay_boot =
    Ret (spec_run [Oadd (Some 3) 1 [97] 0; Oadd None 1 [98] 1; Oremove 1 [97]; Ofind 1 [98]] [], s').
Proof. apply (overlay_refines (λ v, 0x80200000 + 176 * v)). repeat constructor. Defined.

(** An entry for a name of [DIRSIZ] bytes or more is never found again: it keeps
    the first bytes of the name, and is in the chain of the whole name. *)
Example overlay_long_name :
  let name := replicate 24 97 in
  (z ← overlay_add (λ v, 176 * v) (Some 3) 1 name 0; r ← overlay_find (λ v, 176 * v) 1 name; mret (z, r)) overlay_boot =
  (z ← overlay_add (λ v, 176 * v) (Some 3) 1 name 0; mret (z, None)) overlay_boot ∧
  (z ← overlay_add (λ v, 176 * v) (Some 3) 1 name 0; mret z : K overlay Z) overlay_boot ≠ (mret (-1) : K overlay Z) overlay_boot.
Proof. split; [vm_compute; reflexivity|vm_compute; discriminate]. Qed.
