(* ===== verification/Mix.v ===== *)
(** kernel/fs/ext4fs/inode.c and mix.c: the root file system, a read-only ext4
    below and tmpfs on top of it.

    The state puts together the inode cache and tmpfs (TmpfsDir.v), the device
    (Ext4.v) and the overlay tables (Overlay.v).  The private data of an ext4
    inode is a page of the inode cache; [x_info] is what that page holds.  Every
    operation that changes a file of ext4 changes its copy in tmpfs, and every
    change of a directory of ext4 is an entry of the overlay. *)
From S2P Require Import Prelude Kalloc ListHead Slab Path Block Icache IndexTree TmpfsFile TmpfsDir TmpfsTree Ext4 Ext4Dir Overlay.

Abbreviation VFS_DIR := TmpfsDir.VFS_DIR.
Abbreviation VFS_FILE := TmpfsDir.VFS_FILE.

Definition T_DIR : Z := 1.
Definition T_FILE : Z := 2.

(** struct ext4_inode_info *)
Record ext4_info := mk_info { inf_inode : ext4_inode; inf_name : cstring }.
(** The fields of struct file. *)
Record mfile := mk_mfile { mf_type : Z; mf_node : option Z; mf_offset : Z }.

Record mixfs (P M B : Type) := mk_mix {
  x_t : tfs P M; x_disk : B; x_fs : option ext4_fs; x_info : gmap Z ext4_info; x_ov : overlay
}.
Arguments mk_mix {_ _ _} _ _ _ _ _.
Arguments x_t {_ _ _} _.
Arguments x_disk {_ _ _} _.
Arguments x_fs {_ _ _} _.
Arguments x_info {_ _ _} _.
Arguments x_ov {_ _ _} _.

Section mix.
Context {P : Type} `{PA : PageAllocator P} {M : Type} `{OA : ObjAllocator M} {B : Type} `{BR : BlockReader B}.
Variables root_dir root_inode : Z.
Variable node_addr : Z → Z.
Abbreviation st := (mixfs P M B).
Abbreviation destroy_node := (tmpfs_destroy_inode root_dir root_inode).

Definition set_x_t t (s : st) : st := mk_mix t (x_disk s) (x_fs s) (x_info s) (x_ov s).
Definition set_x_disk d (s : st) : st := mk_mix (x_t s) d (x_fs s) (x_info s) (x_ov s).
Definition set_x_fs f (s : st) : st := mk_mix (x_t s) (x_disk s) f (x_info s) (x_ov s).
Definition set_x_info i (s : st) : st := mk_mix (x_t s) (x_disk s) (x_fs s) i (x_ov s).
Definition set_x_ov o (s : st) : st := mk_mix (x_t s) (x_disk s) (x_fs s) (x_info s) o.
Definition on_t {A} (m : K (tfs P M) A) : K st A := zoom x_t set_x_t m.
Definition on_disk {A} (m : K B A) : K st A := zoom x_disk set_x_disk m.
Definition on_ov {A} (m : K overlay A) : K st A := zoom x_ov set_x_ov m.
Definition on_ic {A} (m : K (icache P) A) : K st A := on_t (on_cache m).

Definition node (v : Z) : K st cinode := on_t (get_vi v).
Definition node_type (v : Z) : K st Z := f ← on_t (get_vf v); mret (vf_type f).

(** The page at [p] as a struct ext4_inode_info. *)
Definition get_info (p : Z) : K st ext4_info := λ s,
  match x_info s !! p with Some i => Ret (i, s) | None => Fault end.
Definition put_info (p : Z) (i : ext4_info) : K st unit := modify (λ s, set_x_info (<[p := i]> (x_info s)) s).

(** ** inode.c *)

(** The slot had the page already; a page that kalloc has just given is zero. *)
Definition page_kept (dev p : Z) (slot : option cinode) : bool :=
  match slot with Some y => bool_decide (i_dev y = dev ∧ private_data y = p) | None => false end.

(** ext4_inode_to_vfs once the type is known. *)
Definition fill_ext4_inode (ino : Z) (inode : ext4_inode) (type : Z) : K st (option Z) :=
  r ← gets x_fs;
  match r with
  | None => kfault
  | Some fs =>
      before ← gets (λ s, inodes (t_ic (x_t s)));
      r ← on_ic (get_inode (fs_dev fs) ino true);
      match r with
      | None => kfault (* put_inode(0, 1) *)
      | Some vip =>
          x ← node vip;
          let info := private_data x in
          if decide (info = 0) then mret None else
          old ← gets (λ s, if page_kept (fs_dev fs) info (before !! Z.to_nat vip) then x_info s !! info else None);
          put_info info (mk_info inode (default [] (inf_name <$> old))) ;;
          on_ic (put_ci vip (mk_cinode (fs_dev fs) ino (i_count x) 1 info (pd_owned x))) ;;
          on_t (put_vf vip (mk_vf type (i_size inode) true)) ;;
          on_t (v_release vip) ;; (* initsleeplock *)
          mret (Some vip)
      end
  end.
Definition ext4_inode_to_vfs (ino : Z) (inode : ext4_inode) (file_type : Z) : K st (option Z) :=
  if decide (file_type = EXT4_FT_DIR) then fill_ext4_inode ino inode VFS_DIR
  else if decide (file_type = EXT4_FT_REG_FILE) then fill_ext4_inode ino inode VFS_FILE
  else mret None.

Definition ext4_vfs_lookup (dir : Z) (name : cstring) : K st (option Z) :=
  r ← gets x_fs;
  match r with
  | None => mret None
  | Some fs =>
      x ← node dir;
      dir_info ← get_info (private_data x);
      r ← on_disk (ext4_lookup_in_dir fs (inf_inode dir_info) name);
      match r with
      | None => mret None
      | Some (ino, file_type) =>
          inode ← on_disk (ext4_read_inode fs ino);
          ext4_inode_to_vfs ino inode file_type
      end
  end.

Definition ext4_vfs_stat (v : option Z) (stp : Z) : K st (Z * option (Z * Z * Z * Z)) :=
  match v with
  | None => mret (-1, None)
  | Some v =>
      if decide (stp = 0) then mret (-1, None) else
      x ← node v;
      f ← on_t (get_vf v);
      mret (0, Some (0, if decide (vf_type f = VFS_DIR) then T_DIR else T_FILE, i_nlinks x, vf_size f))
  end.

Definition ext4_vfs_read (f : option mfile) (size : Z) : K st (Z * list Z) :=
  r ← gets x_fs;
  match r, f with
  | Some fs, Some (mk_mfile _ (Some v) off) =>
      x ← node v;
      if decide (private_data x = 0) then mret (-1, []) else
      info ← get_info (private_data x);
      on_disk (ext4_read_file fs (inf_inode info) off size)
  | _, _ => mret (-1, [])
  end.

(** The result, the entry and the new offset of the file. *)
Definition ext4_vfs_readdir (v off : Z) : K st (Z * option vfs_dirent * Z) :=
  r ← gets x_fs;
  match r with
  | None => mret (-1, None, off)
  | Some fs =>
      x ← node v;
      if decide (private_data x = 0) then mret (-1, None, off) else
      info ← get_info (private_data x);
      '(r, off', de) ← on_disk (ext4_readdir_at fs (inf_inode info) off);
      mret (r, de, if decide (r ≠ -1) then off' else off)
  end.

Definition ext4_destroy_inode (v : Z) : K st unit := on_ic (put_inode v true).

Definition ext4_namei (path : cstring) : K st (option Z) :=
  r ← gets x_fs;
  match r with
  | None => mret None
  | Some fs =>
      r ← on_disk (ext4_lookup_path_ino fs path);
      match r with
      | None => mret None
      | Some (inode, file_type, ino) => ext4_inode_to_vfs ino inode file_type
      end
  end.

(** mount.c: [vfs_root] is in the tmpfs state. *)
Definition ext4_mount_root (dev : Z) : K st Z :=
  '(z, fs) ← on_disk (ext4_mount dev);
  if decide (z < 0) then modify (set_x_fs None) ;; mret (-1) else
  modify (set_x_fs fs) ;;
  r ← ext4_namei [SLASH];
  on_t (modify (λ t, set_t_mnt (mk_tmount (tmpfs_inited (t_mnt t)) (tmpfs_root_mounted (t_mnt t)) r) t)) ;;
  mret 0.
(** ** mix.c *)

(** tmpfs_fill_vfs_inode(n->ino, n->private_data, n->type) *)
Definition fill_from (n : Z) : K st (option Z) :=
  x ← node n;
  t ← node_type n;
  on_t (tmpfs_fill_vfs_inode (i_ino x) (private_data x) (u8 t)).

(** tmpfs_vfs_read and tmpfs_vfs_write on a file; they return -1 when the node
    has no tmpfs_inode. *)
Definition tmp_read (f : mfile) (buffer size : Z) : K st (Z * list Z) :=
  match mf_node f with
  | None => mret (-1, [])
  | Some v =>
      x ← node v;
      if decide (private_data x = 0) then mret (-1, []) else
      on_t (on_file v (private_data x) (tmpfs_vfs_read 1 1 (private_data x) buffer (mf_offset f) size))
  end.
Definition tmp_write (f : mfile) (buffer size : Z) (src : list Z) : K st Z :=
  match mf_node f with
  | None => mret (-1)
  | Some v =>
      x ← node v;
      if decide (private_data x = 0) then mret (-1) else
      on_t (on_file v (private_data x) (tmpfs_vfs_write 1 1 (private_data x) buffer (mf_offset f) size src))
  end.
Definition tmp_truncate (v size : Z) : K st Z :=
  x ← node v;
  if decide (private_data x = 0) then mret (-1) else
  on_t (on_file v (private_data x) (tmpfs_vfs_truncate 1 (private_data x) size)).

Definition mix_destroy_tmpfs_node (up : Z) : K st unit :=
  x ← node up;
  let ti := private_data x in
  de ← (if decide (ti ≠ 0) then ip ← on_t (get_ino ti); mret (ti_dir ip) else mret 0);
  on_ic (put_ci up (set_i_nlinks 0 x)) ;;
  on_t (destroy_node up) ;;
  (if decide (de ≠ 0) then on_t (free_dirent de) else mret tt).

Definition mix_is_tmpfs (v : Z) : K st bool := x ← node v; mret (bool_decide (i_dev x = TMPFS_DEV)).

(** The result, the bytes and the file after. *)
Definition mix_vfs_read (f : option mfile) (buffer size : Z) : K st (Z * list Z * option mfile) :=
  match f with
  | Some (mk_mfile ty (Some v) off as fl) =>
      if decide (buffer = 0) then mret (-1, [], f) else
      t ← mix_is_tmpfs v;
      if t : bool then r ← tmp_read fl buffer size; mret (r, f) else
      x ← node v;
      up ← on_ov (upper_find (i_ino x));
      match up with
      | Some up =>
          vip ← fill_from up;
          match vip with
          | None => mret (-1, [], f)
          | Some vip =>
              on_ic (put_inode v false) ;;
              let fl := mk_mfile ty (Some vip) off in
              r ← tmp_read fl buffer size; mret (r, Some fl)
          end
      | None => r ← ext4_vfs_read f size; mret (r, f)
      end
  | _ => mret (-1, [], f)
  end.

(** The result, the entry and [*offset]; [strcpy] of a name of less than DIRSIZ
    bytes. *)
Definition overlay_readdir_at (dir off : Z) : K st (Z * option vfs_dirent * Z) :=
  r ← for_find (seqZ off (OVERLAY_ENTRIES - off)) (λ i,
        e ← on_ov (get_oe (Z.to_nat i));
        if decide (oe_parent e ≠ Some dir ∨ oe_used e = 0 ∨ oe_whiteout e ≠ 0) then mret None else
        match oe_root e with
        | None => kfault
        | Some r => x ← node r; t ← node_type r; mret (Some (mk_dirent (oe_name e) (i_ino x) t, i + 1))
        end);
  mret (match r with Some (de, off) => (1, Some de, off) | None => (0, None, off) end).

Definition mix_vfs_lookup (dir : option Z) (name : cstring) : K st (option Z) :=
  match dir with
  | None => mret None
  | Some d =>
      t ← node_type d;
      x ← node d;
      if decide (t ≠ VFS_DIR ∨ private_data x = 0) then mret None else
      if name_eq name [DOT] then on_ic (get_inode (i_dev x) (i_ino x) true) else
      tm ← mix_is_tmpfs d;
      if tm : bool then on_t (tmpfs_vfs_lookup dir name) else
      entry ← on_ov (overlay_find node_addr d name);
      match entry with
      | Some i =>
          e ← on_ov (get_oe i);
          if decide (oe_whiteout e ≠ 0 ∨ oe_used e = 0) then mret None else
          match oe_root e with None => kfault | Some r => fill_from r end
      | None =>
          lower ← ext4_vfs_lookup d name;
          match lower with
          | None => mret None
          | Some l =>
              y ← node l;
              (if decide (private_data y ≠ 0) then
                 info ← get_info (private_data y);
                 put_info (private_data y) (mk_info (inf_inode info) (take (Z.to_nat (DIRSIZ - 1)) name))
               else mret tt) ;;
              up ← on_ov (upper_find (i_ino y));
              match up with
              | Some up => vip ← fill_from up; on_ic (put_inode l false) ;; mret vip
              | None => mret (Some l)
              end
          end
      end
  end.

(** The loop over the entries of ext4: those the overlay has are passed over, a
    file that was copied is shown as its copy.  Every entry that is passed over
    takes at least eight bytes of the directory. *)
Fixpoint readdir_lower (fuel : nat) (v off : Z) : K st (Z * option vfs_dirent * Z) :=
  match fuel with
  | O => λ _, NoFuel
  | S fuel =>
      '(r, de, off) ← ext4_vfs_readdir v off;
      match de with
      | Some de =>
          if decide (r ≠ 1) then mret (r, Some de, off) else
          e ← on_ov (overlay_find node_addr v (de_name de));
          match e with
          | Some _ => readdir_lower fuel v off
          | None =>
              up ← on_ov (upper_find (de_ino de));
              match up with
              | None => mret (r, Some de, off)
              | Some up => x ← node up; t ← node_type up; mret (r, Some (mk_dirent (de_name de) (i_ino x) t), off)
              end
          end
      | None => mret (r, None, off)
      end
  end.
Definition readdir_fuel (v : Z) : K st nat := λ s,
  match node v s with
  | Ret (x, _) =>
      match x_info s !! private_data x, x_fs s with
      | Some i, Some fs => Ret (S (length (dir_blocks (inf_inode i)) * S (Z.to_nat (fs_block_size fs / 8))), s)
      | _, _ => Ret (1%nat, s)
      end
  | Panic w => Panic w | Fault => Fault | NoFuel => NoFuel
  end.

Definition mix_vfs_readdir (f : option mfile) (dirent : Z) : K st (Z * option vfs_dirent * option mfile) :=
  match f with
  | Some (mk_mfile ty (Some v) off) =>
      if decide (dirent = 0) then mret (-1, None, f) else
      t ← node_type v;
      if decide (ty ≠ FILE_VFS_NODE ∨ t ≠ VFS_DIR) then mret (-1, None, f) else
      tm ← mix_is_tmpfs v;
      if tm : bool then
        '(r, de, off) ← on_t (tmpfs_vfs_readdir 1 ty off (Some v) dirent);
        mret (r, (λ '(ino, t, name), mk_dirent name ino t) <$> de, Some (mk_mfile ty (Some v) off))
      else
      '(found, off) ← (if decide (off < OVERLAY_ENTRIES) then
          '(ret, de, off) ← overlay_readdir_at v off;
          if decide (ret = 1) then mret (de, off) else mret (None, OVERLAY_ENTRIES)
        else mret (None, off));
      match found with
      | Some de => mret (1, Some de, Some (mk_mfile ty (Some v) off))
      | None =>
          fuel ← readdir_fuel v;
          '(r, de, off) ← readdir_lower fuel v (off - OVERLAY_ENTRIES);
          mret (r, de, Some (mk_mfile ty (Some v) (if decide (r = 1) then u64 (OVERLAY_ENTRIES + off) else off)))
      end
  | _ => mret (-1, None, f)
  end.

Definition mix_create_tmpfs_root (name : cstring) (type : Z) : K st (option Z) :=
  inode ← on_t new_inode;
  dir ← on_t new_dirent;
  if decide (inode = 0 ∨ dir = 0) then
    (if decide (inode ≠ 0) then on_t (free_inode inode) else mret tt) ;;
    (if decide (dir ≠ 0) then on_t (free_dirent dir) else mret tt) ;;
    mret None
  else
  ino ← on_t (gets (λ t, t_next_ino (t_mem t)));
  on_t (modify_mem (set_next_ino (u32 (ino + 1)))) ;;
  on_t (put_ino inode (mk_tin (u16 type) 1 ino 0 dir (replicate 12 0))) ;;
  let len := if decide (Z.of_nat (length name) < DIRSIZ) then Z.of_nat (length name) else DIRSIZ - 1 in
  on_t (put_de dir (mk_td inode (take (Z.to_nat len) name) (u8 type) 0 0)) ;;
  v ← on_t (tmpfs_fill_vfs_inode ino inode (u8 type));
  match v with
  | None => on_t (free_inode inode) ;; on_t (free_dirent dir) ;; mret None
  | Some v => mret (Some v)
  end.

Definition mix_vfs_create (dir : option Z) (name : option cstring) (mode : Z) : K st Z :=
  match dir with
  | None => mret (-1)
  | Some d =>
      t ← node_type d;
      x ← node d;
      if decide (t ≠ VFS_DIR ∨ private_data x = 0) then mret (-1) else
      match name with
      | None => mret (-1)
      | Some name =>
          if decide (name = []) then mret (-1) else
          tm ← mix_is_tmpfs d;
          if tm : bool then on_t (tmpfs_vfs_create dir (Some name) mode) else
          entry ← on_ov (overlay_find node_addr d name);
          stop ← match entry with
                 | None => mret false
                 | Some i =>
                     e ← on_ov (get_oe i);
                     if decide (oe_whiteout e = 0) then mret true else on_ov (overlay_remove node_addr d name) ;; mret false
                 end;
          if stop : bool then mret (-1) else
          root ← mix_create_tmpfs_root name mode;
          match root with
          | None => mret (-1)
          | Some r =>
              z ← on_ov (overlay_add node_addr (Some r) d name 0);
              if decide (z < 0) then mix_destroy_tmpfs_node r ;; mret (-1) else mret 0
          end
      end
  end.
Definition mix_vfs_mkdir (dir : option Z) (name : option cstring) (mode : Z) : K st Z := mix_vfs_create dir name VFS_DIR.

(** A new node for the file of ext4 [v], in the upper map. *)
Definition upper_of (v : Z) : K st (option Z) :=
  x ← node v;
  up ← on_ov (upper_find (i_ino x));
  match up with
  | Some up => mret (Some up)
  | None =>
      info ← get_info (private_data x);
      up ← mix_create_tmpfs_root (inf_name info) VFS_FILE;
      match up with
      | None => mret None
      | Some up =>
          z ← on_ov (upper_add (i_ino x) (Some up));
          if decide (z < 0) then mix_destroy_tmpfs_node up ;; mret None else mret (Some up)
      end
  end.
Definition mix_vfs_truncate (v : option Z) (size : Z) : K st Z :=
  match v with
  | None => mret (-1)
  | Some v =>
      t ← node_type v;
      x ← node v;
      if decide (t ≠ VFS_FILE ∨ private_data x = 0) then mret (-1) else
      tm ← mix_is_tmpfs v;
      if tm : bool then tmp_truncate v size else
      if decide (size ≠ 0) then mret (-1) else
      up ← upper_of v;
      match up with None => mret (-1) | Some up => tmp_truncate up size end
  end.

(** One link of the tmpfs node less, in its inode and in its slot: the entry of
    the inode. *)
Definition drop_link (r : Z) : K st (Z * Z) :=
  x ← node r;
  ti ← on_t (get_ino (private_data x));
  on_t (put_ino (private_data x) (set_nlinks (u16 (ti_nlinks ti - 1)) ti)) ;;
  on_ic (put_ci r (set_i_nlinks (u16 (ti_nlinks ti - 1)) x)) ;;
  mret (u16 (ti_nlinks ti - 1), ti_dir ti).

Definition unlink_upper (d : Z) (name : cstring) : K st (option Z) :=
  for_find (seqZ 0 OVERLAY_ENTRIES) (λ i,
    e ← on_ov (get_oe (Z.to_nat i));
    if decide (oe_matches d name e = true ∧ oe_used e ≠ 0 ∧ oe_whiteout e = 0) then
      match oe_root e with
      | None => kfault
      | Some r =>
          t ← node_type r;
          if decide (t = VFS_DIR) then mret (Some (-1)) else
          '(nlinks, de) ← drop_link r;
          (if decide (nlinks = 0) then
             on_ov (overlay_remove node_addr d name) ;;
             on_t (destroy_node r) ;;
             on_t (free_dirent de)
           else mret tt) ;;
          mret (Some 0)
      end
    else mret None).

Definition mix_vfs_unlink (dir : option Z) (name : option cstring) : K st Z :=
  match dir with
  | None => mret (-1)
  | Some d =>
      t ← node_type d;
      x ← node d;
      if decide (t ≠ VFS_DIR ∨ private_data x = 0) then mret (-1) else
      match name with
      | None => mret (-1)
      | Some name =>
          if decide (name = []) then mret (-1) else
          r ← unlink_upper d name;
          match r with
          | Some z => mret z
          | None =>
              tm ← mix_is_tmpfs d;
              if tm : bool then on_t (tmpfs_vfs_unlink dir (Some name)) else
              lower ← ext4_vfs_lookup d name;
              match lower with
              | None => mret (-1)
              | Some l =>
                  t ← node_type l;
                  if decide (t = VFS_DIR) then on_ic (put_inode l false) ;; mret (-1) else
                  y ← node l;
                  up ← on_ov (upper_find (i_ino y));
                  match up with
                  | None => mret tt
                  | Some up =>
                      on_ov (upper_remove (i_ino y)) ;;
                      z ← node up;
                      de ← (if decide (private_data z ≠ 0) then '(_, de) ← drop_link up; mret de else mret 0);
                      on_t (destroy_node up) ;;
                      (if decide (de ≠ 0) then on_t (free_dirent de) else mret tt)
                  end ;;
                  on_ic (put_inode l false) ;;
                  on_ov (overlay_add node_addr None d name 1)
              end
          end
      end
  end.

(** The loop that copies the file of ext4 into the new node: false when it
    fails. *)
Definition copy_round (fs : ext4_fs) (inode : ext4_inode) (size up : Z) : Z → K st (Z + bool) := λ off,
  if decide (¬ off < size) then mret (inr true) else
  let want := size - off in
  let len := if decide (want < PGSIZE) then want else PGSIZE in
  '(n, tmp) ← on_disk (ext4_read_file fs inode off len);
  if decide (n ≤ 0) then mret (inr false) else
  w ← tmp_write (mk_mfile FILE_VFS_NODE (Some up) off) 1 n tmp;
  if decide (w ≠ n) then mret (inr false) else mret (inl (u64 (off + n))).

Definition copy_up (v : Z) : K st bool :=
  x ← node v;
  info ← get_info (private_data x);
  up ← mix_create_tmpfs_root (inf_name info) VFS_FILE;
  match up with
  | None => mret false
  | Some up =>
      r ← gets x_fs;
      match r with
      | None => mix_destroy_tmpfs_node up ;; mret false
      | Some fs =>
          f ← on_t (get_vf v);
          ok ← loop (S (S (Z.to_nat (vf_size f / PGSIZE)))) (copy_round fs (inf_inode info) (vf_size f) up) 0;
          if negb ok then mix_destroy_tmpfs_node up ;; mret false else
          z ← on_ov (upper_add (i_ino x) (Some up));
          if decide (z < 0) then mix_destroy_tmpfs_node up ;; mret false else mret true
      end
  end.

Definition mix_vfs_write (f : option mfile) (buffer size : Z) (src : list Z) : K st (Z * option mfile) :=
  match f with
  | Some (mk_mfile ty (Some v) off as fl) =>
      if decide (buffer = 0) then mret (-1, f) else
      t ← mix_is_tmpfs v;
      if t : bool then z ← tmp_write fl buffer size src; mret (z, f) else
      x ← node v;
      if decide (private_data x = 0) then mret (-1, f) else
      up ← on_ov (upper_find (i_ino x));
      ok ← match up with Some _ => mret true | None => copy_up v end;
      if negb ok then mret (-1, f) else
      up ← on_ov (upper_find (i_ino x));
      match up with
      | None => kfault
      | Some up =>
          vip ← fill_from up;
          match vip with
          | None => mret (-1, f)
          | Some vip =>
              on_ic (put_inode v false) ;;
              let fl := mk_mfile ty (Some vip) off in
              z ← tmp_write fl buffer size src; mret (z, Some fl)
          end
      end
  | _ => mret (-1, f)
  end.
(** * Lemmas *)

(** The overlay entries a computation leaves alone. *)
Definition same_ov (s s' : st) : Prop := entries (x_ov s') = entries (x_ov s) ∧ buckets (x_ov s') = buckets (x_ov s).
Definition keeps_ov {A} (m : K st A) : Prop := ∀ s a s', m s = Ret (a, s') → same_ov s s'.
Lemma keeps_ret {A} (a : A) : keeps_ov (mret a).
Proof. by intros s b s' [= _ <-]. Qed.
Lemma keeps_fault {A} : keeps_ov (kfault : K st A).
Proof. by intros s b s'. Qed.
Lemma keeps_bind {A C} (m : K st A) (f : A → K st C) : keeps_ov m → (∀ a, keeps_ov (f a)) → keeps_ov (mbind f m).
Proof.
  intros Hm Hf s c s' (a & s1 & H1 & H2)%bind_Ret_inv. destruct (Hm _ _ _ H1) as [E1 E2]. destruct (Hf _ _ _ _ H2) as [E3 E4].
  split; congruence.
Qed.
Lemma keeps_gets {A} (f : st → A) : keeps_ov (gets f).
Proof. by intros s b s' [= _ <-]. Qed.
Lemma keeps_t {A} (m : K (tfs P M) A) : keeps_ov (on_t m).
Proof. intros s a s' Hr. unfold on_t, zoom in Hr. destruct (m (x_t s)) as [[b t]| | |]; [|done..]. by injection Hr as <- <-. Qed.
Lemma keeps_disk {A} (m : K B A) : keeps_ov (on_disk m).
Proof. intros s a s' Hr. unfold on_disk, zoom in Hr. destruct (m (x_disk s)) as [[b t]| | |]; [|done..]. by injection Hr as <- <-. Qed.
Lemma keeps_info p i : keeps_ov (put_info p i).
Proof. by intros s a s' [= _ <-]. Qed.
Lemma keeps_get_info p : keeps_ov (get_info p).
Proof. intros s a s'. unfold get_info. destruct (x_info s !! p); [|done]. by intros [= _ <-]. Qed.
Lemma keeps_on_ov {A} (m : K overlay A) : (∀ o a o', m o = Ret (a, o') → entries o' = entries o ∧ buckets o' = buckets o) → keeps_ov (on_ov m).
Proof.
  intros Hm s a s' Hr. unfold on_ov, zoom in Hr. destruct (m (x_ov s)) as [[b o]| | |] eqn:E; [|done..]. injection Hr as <- <-. by apply Hm in E.
Qed.
Lemma for_find_keeps {S A R} (I : S → S → Prop) (body : A → K S (option R)) l : (∀ s, I s s) → (∀ s1 s2 s3, I s1 s2 → I s2 s3 → I s1 s3) →
  (∀ x s a s', body x s = Ret (a, s') → I s s') → ∀ s a s', for_find l body s = Ret (a, s') → I s s'.
Proof.
  intros Hr Ht Hb. induction l as [|x l IH]; intros s a s'; cbn [for_find]; [by intros [= _ <-]|].
  intros (r & s1 & H1 & H2)%bind_Ret_inv. apply Hb in H1. destruct r as [v|]; [by injection H2 as _ <-|]. apply IH in H2. by eapply Ht.
Qed.
Lemma upper_find_keeps ino : keeps_ov (on_ov (upper_find ino)).
Proof.
  apply keeps_on_ov. intros o a o' (r & o1 & H1 & H2)%bind_Ret_inv. injection H2 as _ <-.
  refine (for_find_keeps (λ o o', entries o' = entries o ∧ buckets o' = buckets o) _ _ _ _ _ _ _ _ H1); [done|intuition congruence|].
  intros i o2 b o3 (u & o4 & H3 & H4)%bind_Ret_inv. unfold get_up in H3. destruct (uppers o2 !! Z.to_nat i); [|done]. injection H3 as <- <-.
  case_decide; injection H4 as _ <-; done.
Qed.
Lemma upper_remove_keeps ino : keeps_ov (on_ov (upper_remove ino)).
Proof.
  apply keeps_on_ov. intros o a o' (r & o1 & H1 & H2)%bind_Ret_inv. injection H2 as _ <-.
  refine (for_find_keeps (λ o o', entries o' = entries o ∧ buckets o' = buckets o) _ _ _ _ _ _ _ _ H1); [done|intuition congruence|].
  intros i o2 b o3 (u & o4 & H3 & H4)%bind_Ret_inv. unfold get_up in H3. destruct (uppers o2 !! Z.to_nat i); [|done]. injection H3 as <- <-.
  case_decide; [|injection H4 as _ <-; done]. apply bind_Ret_inv in H4 as (? & o5 & H5 & H6). injection H5 as _ <-. by injection H6 as _ <-.
Qed.
Create HintDb keeps.
Hint Resolve keeps_ret keeps_fault keeps_gets keeps_t keeps_disk keeps_info keeps_get_info upper_find_keeps upper_remove_keeps : keeps.
Ltac keeps := repeat first [ progress (auto with keeps) | apply keeps_bind; [|intros ?] | case_decide | case_match | progress unfold on_ic, node, node_type ].

Lemma ext4_lookup_keeps d name : keeps_ov (ext4_vfs_lookup d name).
Proof. unfold ext4_vfs_lookup, ext4_inode_to_vfs, fill_ext4_inode. keeps. Qed.
Lemma create_root_keeps name type : keeps_ov (mix_create_tmpfs_root name type).
Proof. unfold mix_create_tmpfs_root. keeps. Qed.
Lemma drop_link_keeps r : keeps_ov (drop_link r).
Proof. unfold drop_link. keeps. Qed.
Hint Resolve ext4_lookup_keeps create_root_keeps drop_link_keeps : keeps.

Lemma ov_rel_same o o' idx : entries o' = entries o → buckets o' = buckets o → ov_rel node_addr o idx → ov_rel node_addr o' idx.
Proof.
  intros He Hb HR. split; rewrite ?He, ?Hb; [apply (or_len _ _ _ HR)|apply (or_blen _ _ _ HR)|apply (or_nodup _ _ _ HR)|apply (or_used _ _ _ HR)|
    apply (or_entry _ _ _ HR)|apply (or_chain _ _ _ HR)].
Qed.
Lemma contents_same o o' idx : entries o' = entries o → contents o' idx = contents o idx.
Proof. intros He. unfold contents. by rewrite He. Qed.
Lemma on_ov_run {A} (m : K overlay A) s a o : m (x_ov s) = Ret (a, o) → on_ov m s = Ret (a, set_x_ov o s).
Proof. intros Hm. unfold on_ov, zoom. by rewrite Hm. Qed.
Lemma set_x_ov_id s : set_x_ov (x_ov s) s = s.
Proof. by destruct s. Qed.

(** A directory of ext4 in the inode cache. *)
Definition ext4_dir (d : Z) (s : st) : Prop := ∃ x, node d s = Ret (x, s) ∧ node_type d s = Ret (VFS_DIR, s) ∧ private_data x ≠ 0 ∧ i_dev x ≠ TMPFS_DEV.

(** Looking up a name that the overlay has. *)
Lemma lookup_entry d name s idx r : ov_rel node_addr (x_ov s) idx → ext4_dir d s → name_eq name [DOT] = false →
  head (filter (has_key d name) (contents (x_ov s) idx)) = Some r →
  mix_vfs_lookup (Some d) name s =
    if decide (or_whiteout r ≠ 0) then Ret (None, s) else match or_root r with Some v => fill_from v s | None => Fault end.
Proof.
  intros HR (x & Hx & Ht & Hp & Hd) Hn Hr. unfold mix_vfs_lookup. rewrite (bind_Ret _ _ _ _ _ Ht), (bind_Ret _ _ _ _ _ Hx).
  rewrite decide_False by naive_solver. rewrite Hn.
  rewrite (bind_Ret (mix_is_tmpfs d) _ s false s) by (unfold mix_is_tmpfs; rewrite (bind_Ret _ _ _ _ _ Hx); by rewrite bool_decide_eq_false_2).
  rewrite (contents_find node_addr) in Hr by done. destruct (head (filter (idx_matches (x_ov s) d name) idx)) as [i|] eqn:Hi; [|done].
  rewrite (bind_Ret _ _ _ _ _ (on_ov_run _ s _ _ (overlay_find_run node_addr (x_ov s) idx d name HR))), Hi, set_x_ov_id.
  apply head_filter_split in Hi as (a & c & Hidx & _ & (e & He & _)). simpl in Hr. rewrite He in Hr. simpl in Hr. injection Hr as <-.
  rewrite (bind_Ret _ _ _ _ _ (on_ov_run _ s _ _ (get_oe_run (x_ov s) i e He))), set_x_ov_id. cbn [rec_of or_whiteout or_root].
  assert (Hu : oe_used e ≠ 0) by (apply (or_used _ _ _ HR i e He); rewrite Hidx; apply elem_of_app; right; left).
  destruct (decide (oe_whiteout e ≠ 0)) as [Hw|Hw]; [by rewrite decide_True by auto|]. rewrite decide_False by tauto. by destruct (oe_root e).
Qed.

(** Without a node of its own for the name, mix_vfs_unlink turns to ext4. *)
Lemma unlink_upper_none d name s idx : ov_rel node_addr (x_ov s) idx →
  (∀ r, r ∈ contents (x_ov s) idx → has_key d name r → or_whiteout r ≠ 0) → unlink_upper d name s = Ret (None, s).
Proof.
  intros HR Hw. unfold unlink_upper. destruct (for_find_seq (λ _ s1, s1 = s) (λ _ _, False)
    (λ i, e ← on_ov (get_oe (Z.to_nat i));
      if decide (oe_matches d name e = true ∧ oe_used e ≠ 0 ∧ oe_whiteout e = 0) then
        match oe_root e with
        | None => kfault
        | Some r =>
            t ← node_type r;
            if decide (t = VFS_DIR) then mret (Some (-1)) else
            '(nlinks, de) ← drop_link r;
            (if decide (nlinks = 0) then
               on_ov (overlay_remove node_addr d name) ;;
               on_t (destroy_node r) ;;
               on_t (free_dirent de)
             else mret tt) ;;
            mret (Some 0)
        end
      else mret None) 0 OVERLAY_ENTRIES s) as (x & s' & Hrun & Hx); [done| |done|].
  - intros i s1 Hi ->. destruct (lookup_lt_is_Some_2 (entries (x_ov s)) (Z.to_nat i)) as [e He]; [rewrite (or_len _ _ _ HR); unfold OVERLAY_ENTRIES in *; lia|].
    exists None, s. split; [|done]. rewrite (bind_Ret _ _ _ _ _ (on_ov_run _ s _ _ (get_oe_run (x_ov s) _ e He))), set_x_ov_id.
    rewrite decide_False; [done|]. intros (Hm & Hu & H0). apply (or_used _ _ _ HR _ e He) in Hu as Hin.
    destruct (or_entry _ _ _ HR _ Hin) as (e' & q & He' & Hq & Hs). assert (e' = e) as -> by congruence.
    rewrite (matches_spec _ _ _ q Hq Hs) in Hm. apply bool_decide_eq_true in Hm. apply (Hw (rec_of e)); [|done|done].
    apply list_elem_of_omap. exists (Z.to_nat i). by rewrite He.
  - rewrite Hrun. destruct x; [done|]. by subst.
Qed.

(** The entries of other names. *)
Definition other_names (d : Z) (name : cstring) (l l' : list orec) : Prop :=
  ∀ p n, (p, n) ≠ (d, name) → head (filter (has_key p n) l') = head (filter (has_key p n) l).
Lemma other_cons d name l root w : other_names d name l (mk_orec root d name w :: l).
Proof. intros p n Hne. rewrite filter_cons_False; [done|]. intros [H0 H1]. simpl in *. congruence. Qed.
Lemma other_remove d name l : other_names d name l (remove_key d name l).
Proof.
  intros p n Hne. induction l as [|r l IH]; [done|]. cbn [remove_key]. destruct (decide (has_key d name r)) as [Hk|Hk].
  - rewrite filter_cons_False; [done|]. intros [H0 H1]. destruct Hk. congruence.
  - rewrite !filter_cons. destruct (decide (has_key p n r)); [done|exact IH].
Qed.

Lemma ov_rel_after s s' idx : same_ov s s' → ov_rel node_addr (x_ov s) idx →
  ov_rel node_addr (x_ov s') idx ∧ contents (x_ov s') idx = contents (x_ov s) idx.
Proof. intros [He Hb] HR. split; [by eapply ov_rel_same|by apply contents_same]. Qed.

(** An entry put in front of those of the overlay. *)
Lemma add_front root d name w s s' idx : ov_rel node_addr (x_ov s) idx → short name →
  on_ov (overlay_add node_addr root d name w) s = Ret (0, s') →
  ∃ idx', ov_rel node_addr (x_ov s') idx' ∧ contents (x_ov s') idx' = mk_orec root d name w :: contents (x_ov s) idx.
Proof.
  intros HR Hs Hr. pose proof (add_run node_addr (x_ov s) idx root d name w HR Hs) as Ha. unfold on_ov, zoom in Hr. case_decide.
  - destruct Ha as (i & o & Ho & HR' & Hc & _). rewrite Ho in Hr. injection Hr as <-. by exists (i :: idx).
  - by rewrite Ha in Hr.
Qed.

Lemma not_dot name : short name → name ≠ [DOT] → name_eq name [DOT] = false.
Proof. intros Hs Hne. rewrite short_name_eq by done. by apply bool_decide_eq_false. Qed.

(** ** Nodes of tmpfs *)

(** The list of the inode cache links slots. *)
Definition links_ok (s : st) : Prop := ∀ k n, ilinks (t_ic (x_t s)) !! k = Some n → 0 ≤ prev n.
(** Slot [v] shows the inode [ino] of tmpfs, with its tmpfs_inode at [a]. *)
Definition tmp_node (v ino a ty : Z) (s : st) : Prop := ∃ c nl,
  node v s = Ret (mk_cinode TMPFS_DEV ino c nl a 0, s) ∧ node_type v s = Ret (ty, s).

Lemma for_find_inv {S A R} (body : A → K S (option R)) l s v s' :
  for_find l body s = Ret (Some v, s') → ∃ x s1, x ∈ l ∧ body x s1 = Ret (Some v, s').
Proof.
  revert s. induction l as [|x l IH]; intros s; cbn [for_find]; [done|]. intros (r & s1 & H1 & H2)%bind_Ret_inv.
  destruct r as [w|]; [injection H2 as -> ->; exists x, s; split; [left|done]|].
  destruct (IH _ H2) as (y & s2 & Hy & H3). exists y, s2. split; [by right|done].
Qed.
Lemma find_free_pos (c : icache P) n pos i c' : (∀ k e, ilinks c !! k = Some e → 0 ≤ prev e) → 0 ≤ pos →
  find_free n pos c = Ret (Some i, c') → 0 ≤ i.
Proof.
  intros Hl. revert pos. induction n as [|n IH]; intros pos Hp; cbn [find_free]; [done|]. case_decide; [done|].
  intros (x & c1 & H1 & H2)%bind_Ret_inv. unfold get_ci in H1. destruct (inodes c !! Z.to_nat pos); [|done]. injection H1 as -> <-.
  destruct (bool_decide _); [by injection H2 as <- _|]. apply bind_Ret_inv in H2 as (m & c2 & H2 & H3).
  unfold on_ilinks, zoom, get_prev in H2. destruct (ilinks c !! pos) as [e|] eqn:E; [|done]. injection H2 as <- <-.
  apply (IH (prev e)); [by eapply Hl|]. by destruct c.
Qed.
Lemma get_inode_pos (c : icache P) dev ino al i c' : (∀ k e, ilinks c !! k = Some e → 0 ≤ prev e) →
  get_inode dev ino al c = Ret (Some i, c') → 0 ≤ i.
Proof.
  intros Hl. unfold get_inode. intros (u & c1 & H1 & H2)%bind_Ret_inv. unfold acquire in H1. destruct (icache_lock c); [done|]. injection H1 as _ <-.
  apply bind_Ret_inv in H2 as (r & c2 & H2 & H3). unfold find_slot in H2. destruct r as [j|].
  - apply for_find_inv in H2 as (k & c3 & Hk & H2). apply bind_Ret_inv in H2 as (x & c4 & _ & H2). case_decide; [|done]. injection H2 as <- <-.
    apply bind_Ret_inv in H3 as (? & ? & _ & H3). apply bind_Ret_inv in H3 as (? & ? & _ & H3). apply bind_Ret_inv in H3 as (? & ? & _ & H3).
    injection H3 as <- _. apply elem_of_seqZ in Hk. lia.
  - assert (Hc2 : ilinks c2 = ilinks c).
    { refine (for_find_keeps (λ c1 c2, ilinks c2 = ilinks c1) _ _ _ _ _ (set_icache_lock true c) _ _ H2); [done|congruence|].
      intros k c3 b c4 (x & c5 & H4 & H5)%bind_Ret_inv. unfold get_ci in H4. destruct (inodes c3 !! Z.to_nat k); [|done]. injection H4 as _ <-.
      by case_decide; injection H5 as _ <-. }
    apply bind_Ret_inv in H3 as (p & c3 & H3 & H4). unfold on_ilinks, zoom, get_prev in H3. destruct (ilinks c2 !! IHEAD) as [e|] eqn:E; [|done].
    injection H3 as <- <-. apply bind_Ret_inv in H4 as (r & c4 & H4 & H5). destruct r as [j|].
    + assert (Hj : 0 ≤ j).
      { revert H4. apply find_free_pos; [intros k n; simpl; rewrite Hc2; apply Hl|]. rewrite Hc2 in E. by eapply Hl. }
      repeat (apply bind_Ret_inv in H5 as (? & ? & _ & H5)). by injection H5 as <- _.
    + by apply bind_Ret_inv in H5 as (? & ? & _ & H5).
Qed.

(** A slot that tmpfs_fill_vfs_inode gives shows the inode. *)
Lemma fill_node ino a ty s v s' : links_ok s → on_t (tmpfs_fill_vfs_inode ino a ty) s = Ret (Some v, s') →
  tmp_node v ino a ty s' ∧ t_mem (x_t s') = t_mem (x_t s) ∧ same_ov s s'.
Proof.
  intros Hl Hr. assert (Hov : same_ov s s') by (by eapply keeps_t). unfold on_t, zoom in Hr.
  destruct (tmpfs_fill_vfs_inode ino a ty (x_t s)) as [[o u]| | |] eqn:E; [|done..]. injection Hr as -> <-.
  unfold tmpfs_fill_vfs_inode in E. case_decide; [done|]. apply bind_Ret_inv in E as (r & u1 & E1 & E2). destruct r as [j|]; [|done].
  unfold on_cache, zoom in E1. destruct (get_inode TMPFS_DEV ino false (t_ic (x_t s))) as [[r c]| | |] eqn:Eg; [|done..]. injection E1 as -> <-.
  apply (get_inode_pos _ _ _ _ _ _ Hl) in Eg. apply bind_Ret_inv in E2 as (ip & u2 & E2 & E3).
  unfold get_ino in E2. destruct (t_inos _ !! a); [|done]. injection E2 as -> <-.
  apply bind_Ret_inv in E3 as (x & u3 & E3 & E4). unfold on_cache, zoom, get_ci in E3. simpl in E3.
  destruct (inodes c !! Z.to_nat j) as [x'|] eqn:Ex; [|done]. injection E3 as -> <-. apply lookup_lt_Some in Ex.
  unfold tmpfs_get_root_sb, put_vf, on_cache, zoom, put_ci, modify, gets, mbind, K_bind in E4. simpl in E4.
  destruct (tmpfs_root_mounted _); [|simpl in E4; by destruct (put_inode _ _ _) as [[? ?]| | |]]. injection E4 as <- <-.
  split; [|done]. exists (i_count x), (ti_nlinks ip). split.
  - unfold node, on_t, zoom, get_vi. rewrite decide_False by (unfold TMP_ROOT; lia). unfold on_cache, zoom, get_ci. simpl.
    by rewrite list_lookup_insert_eq.
  - unfold node_type, on_t, zoom, get_vf, gets, mbind, K_bind. simpl. by rewrite lookup_insert_eq.
Qed.

Lemma tmp_node_t s s' v ino a ty : x_t s' = x_t s → tmp_node v ino a ty s → tmp_node v ino a ty s'.
Proof.
  intros Heq (c & nl & Hn & Ht). exists c, nl. unfold node, node_type, on_t, zoom, mbind, K_bind in *. rewrite Heq. split.
  - destruct (get_vi v (x_t s)) as [[x u]| | |]; [|done..]. injection Hn as -> Hs. f_equal. f_equal. destruct s, s'. unfold set_x_t in *. simpl in *. congruence.
  - destruct (get_vf v (x_t s)) as [[x u]| | |]; [|done..]. injection Ht as <- Hs. destruct s, s'. unfold mret, K_ret, set_x_t in *. simpl in *. congruence.
Qed.

(** Taking an object leaves the cache and the next number alone. *)
Lemma alloc_keeps (m : K (tfs P M) Z) s a s' : m = new_inode ∨ m = new_dirent → on_t m s = Ret (a, s') →
  t_ic (x_t s') = t_ic (x_t s) ∧ t_next_ino (t_mem (x_t s')) = t_next_ino (t_mem (x_t s)).
Proof.
  intros Hm Hr. unfold on_t, zoom in Hr. destruct (m (x_t s)) as [[b u]| | |] eqn:E; [|done..]. injection Hr as -> <-.
  destruct Hm as [->| ->]; [unfold new_inode in E|unfold new_dirent in E]; apply bind_Ret_inv in E as (c & u1 & E1 & E2);
    unfold on_objs, zoom in E1; destruct (obj_alloc _ _) as [[o k]| | |]; try done; injection E1 as _ <-; case_decide; by injection E2 as _ <-.
Qed.

(** What mix_create_tmpfs_root makes. *)
Definition fresh_inode (name : cstring) (mode ino a : Z) (s' : st) : Prop := ∃ de,
  t_inos (t_mem (x_t s')) !! a = Some (mk_tin (u16 mode) 1 ino 0 de (replicate 12 0)) ∧
  t_dents (t_mem (x_t s')) !! de = Some (mk_td a name (u8 mode) 0 0).
Lemma create_root_node name mode s v s' : short name → links_ok s → mix_create_tmpfs_root name mode s = Ret (Some v, s') →
  ∃ a, let ino := t_next_ino (t_mem (x_t s)) in tmp_node v ino a (u8 mode) s' ∧ fresh_inode name mode ino a s'.
Proof.
  intros Hs Hl Hr. unfold mix_create_tmpfs_root in Hr. apply bind_Ret_inv in Hr as (a & s1 & H1 & Hr). apply bind_Ret_inv in Hr as (de & s2 & H2 & Hr).
  case_decide as H0; [repeat (apply bind_Ret_inv in Hr as (? & ? & _ & Hr)); done|].
  destruct (alloc_keeps _ _ _ _ (or_introl eq_refl) H1) as [E1 N1]. destruct (alloc_keeps _ _ _ _ (or_intror eq_refl) H2) as [E2 N2].
  rewrite N1 in N2.
  rewrite (bind_Ret (on_t (gets (λ t, t_next_ino (t_mem t)))) _ s2 (t_next_ino (t_mem (x_t s))) s2) in Hr by (rewrite <-N2; by destruct s2).
  apply bind_Ret_inv in Hr as (? & s3 & H3 & Hr). injection H3 as _ <-. apply bind_Ret_inv in Hr as (? & s4 & H4 & Hr).
  unfold on_t, zoom, put_ino in H4. simpl in H4. destruct (t_inos _ !! a); [|done]. injection H4 as _ <-.
  rewrite decide_True, take_ge in Hr by (unfold short in Hs; lia).
  apply bind_Ret_inv in Hr as (? & s5 & H5 & Hr). unfold on_t, zoom, put_de in H5. simpl in H5. destruct (t_dents _ !! de); [|done]. injection H5 as _ <-.
  apply bind_Ret_inv in Hr as (w & s6 & H6 & Hr). destruct w as [w|]; [|repeat (apply bind_Ret_inv in Hr as (? & ? & _ & Hr)); done]. injection Hr as <- <-.
  apply fill_node in H6 as (Hn & Hm & _); [|intros k n; simpl; rewrite E2, E1; apply Hl]. exists a. split; [done|].
  exists de. rewrite Hm. simpl. by rewrite !lookup_insert_eq.
Qed.

(** * Theorems *)

(** C13: When mix_vfs_unlink succeeds on a name shorter than DIRSIZ in a
    directory of ext4, and the overlay had no node of its own for the name, it
    has put a whiteout in front of the entries of the overlay and touched no
    other name. From then on, in every state that has these entries and the
    directory in the inode cache, mix_vfs_lookup does not find the name
    (unless it is the single dot). *)
Theorem mix_unlink_hides d name s s' idx :
  ov_rel node_addr (x_ov s) idx → short name → ext4_dir d s →
  (∀ r, r ∈ contents (x_ov s) idx → has_key d name r → or_whiteout r ≠ 0) →
  mix_vfs_unlink (Some d) (Some name) s = Ret (0, s') →
  ∃ idx', ov_rel node_addr (x_ov s') idx' ∧ contents (x_ov s') idx' = mk_orec None d name 1 :: contents (x_ov s) idx ∧
    other_names d name (contents (x_ov s) idx) (contents (x_ov s') idx') ∧
    ∀ t, same_ov s' t → ext4_dir d t → name ≠ [DOT] → mix_vfs_lookup (Some d) name t = Ret (None, t).
Proof.
  intros HR Hs (x & Hx & Ht & Hp & Hd) Hw Hr. unfold mix_vfs_unlink in Hr. rewrite (bind_Ret _ _ _ _ _ Ht), (bind_Ret _ _ _ _ _ Hx) in Hr.
  rewrite decide_False in Hr by naive_solver. case_decide as Hnil; [done|].
  rewrite (bind_Ret _ _ _ _ _ (unlink_upper_none d name s idx HR Hw)) in Hr.
  rewrite (bind_Ret (mix_is_tmpfs d) _ s false s) in Hr by (unfold mix_is_tmpfs; rewrite (bind_Ret _ _ _ _ _ Hx); by rewrite bool_decide_eq_false_2).
  apply bind_Ret_inv in Hr as (lower & s1 & H1 & Hr). destruct lower as [l|]; [|done].
  assert (K1 : same_ov s s1) by (by eapply ext4_lookup_keeps). apply bind_Ret_inv in Hr as (t & s2 & H2 & Hr).
  assert (K2 : same_ov s1 s2) by (revert H2; unfold node_type; apply keeps_bind; [apply keeps_t|intros; apply keeps_ret]).
  case_decide; [by apply bind_Ret_inv in Hr as (? & ? & _ & Hr)|].
  apply bind_Ret_inv in Hr as (y & s3 & H3 & Hr). assert (K3 : same_ov s2 s3) by (by eapply keeps_t).
  apply bind_Ret_inv in Hr as (up & s4 & H4 & Hr). assert (K4 : same_ov s3 s4) by (by eapply upper_find_keeps).
  apply bind_Ret_inv in Hr as (u & s5 & H5 & Hr). assert (K5 : same_ov s4 s5) by (revert H5; match goal with |- ?m s4 = _ → _ => assert (Hk : keeps_ov m); [destruct up; keeps|apply Hk] end).
  apply bind_Ret_inv in Hr as (u' & s6 & H6 & Hr). assert (K6 : same_ov s5 s6) by (by eapply keeps_t).
  assert (K : same_ov s s6) by (unfold same_ov in *; intuition congruence). destruct (ov_rel_after s s6 idx K HR) as [HR6 Hc6].
  destruct (add_front None d name 1 s6 s' idx HR6 Hs Hr) as (idx' & HR' & Hc). rewrite Hc6 in Hc. exists idx'. rewrite Hc.
  split_and!; [done|done|apply other_cons|]. intros s7 Hov Hdir Hdot. destruct (ov_rel_after s' s7 idx' Hov HR') as [HRt Hct].
  rewrite (lookup_entry d name s7 idx' (mk_orec None d name 1) HRt Hdir); [by rewrite decide_True|by apply not_dot|]. rewrite Hct, Hc. by rewrite filter_cons_True.
Qed.

(** C28: When mix_vfs_create succeeds on a name shorter than DIRSIZ in a
    directory of ext4, there is a tmpfs inode with the next inode number, the
    type asked for, one link, no bytes and that name, a slot of the inode
    cache shows it, and the first entry of the overlay for the name is that
    slot, in place of a whiteout if there was one; no other name is touched.
    From then on, in every state that has these entries, the directory and the
    slot, mix_vfs_lookup asks for this inode (unless the name is the single
    dot) and what it returns is a slot that shows it. *)
Theorem mix_create_shows d name mode s s' idx :
  ov_rel node_addr (x_ov s) idx → short name → ext4_dir d s → links_ok s → mix_vfs_create (Some d) (Some name) mode s = Ret (0, s') →
  ∃ r a idx', let ino := t_next_ino (t_mem (x_t s)) in
    tmp_node r ino a (u8 mode) s' ∧ fresh_inode name mode ino a s' ∧
    ov_rel node_addr (x_ov s') idx' ∧ head (filter (has_key d name) (contents (x_ov s') idx')) = Some (mk_orec (Some r) d name 0) ∧
    other_names d name (contents (x_ov s) idx) (contents (x_ov s') idx') ∧
    ∀ t, same_ov s' t → ext4_dir d t → links_ok t → name ≠ [DOT] → tmp_node r ino a (u8 mode) t →
      mix_vfs_lookup (Some d) name t = on_t (tmpfs_fill_vfs_inode ino a (u8 mode)) t ∧
      ∀ v t', mix_vfs_lookup (Some d) name t = Ret (Some v, t') → tmp_node v ino a (u8 mode) t'.
Proof.
  intros HR Hs (x & Hx & Ht & Hp & Hd) Hl Hr. unfold mix_vfs_create in Hr. rewrite (bind_Ret _ _ _ _ _ Ht), (bind_Ret _ _ _ _ _ Hx) in Hr.
  rewrite decide_False in Hr by naive_solver. case_decide as Hnil; [done|].
  rewrite (bind_Ret (mix_is_tmpfs d) _ s false s) in Hr by (unfold mix_is_tmpfs; rewrite (bind_Ret _ _ _ _ _ Hx); by rewrite bool_decide_eq_false_2).
  rewrite (bind_Ret _ _ _ _ _ (on_ov_run _ s _ _ (overlay_find_run node_addr (x_ov s) idx d name HR))), set_x_ov_id in Hr.
  apply bind_Ret_inv in Hr as (stop & s1 & H1 & Hr). destruct stop; [done|].
  assert (Hmid : x_t s1 = x_t s ∧ ∃ idx1, ov_rel node_addr (x_ov s1) idx1 ∧ other_names d name (contents (x_ov s) idx) (contents (x_ov s1) idx1)).
  { pose proof (remove_run node_addr (x_ov s) idx d name HR) as Hrm. destruct (head (filter (idx_matches (x_ov s) d name) idx)) as [i|] eqn:Hi.
    - pose proof Hi as Hi'. apply head_filter_split in Hi' as (a & c & _ & _ & (e & He & _)).
      rewrite (bind_Ret _ _ _ _ _ (on_ov_run _ s _ _ (get_oe_run (x_ov s) i e He))), set_x_ov_id in H1. case_decide; [done|].
      destruct Hrm as (o & Ho & HRo & Hfx & _). rewrite (bind_Ret _ _ _ _ _ (on_ov_run _ s _ _ Ho)) in H1. injection H1 as <-.
      split; [done|]. exists (filter (.≠ i) idx). split; [done|]. cbn [x_ov set_x_ov]. rewrite (contents_remove node_addr (x_ov s) o idx d name i HR Hi Hfx). apply other_remove.
    - injection H1 as <-. split; [done|]. exists idx. split; [done|]. by intros p n _. }
  destruct Hmid as (Ht1 & idx1 & HR1 & Ho1). apply bind_Ret_inv in Hr as (root & s2 & H2 & Hr). destruct root as [r|]; [|done].
  destruct (create_root_node name mode s1 r s2 Hs ltac:(intros k n; rewrite Ht1; apply Hl) H2) as (ta & Hnode & Hfresh). rewrite Ht1 in *.
  assert (K2 : same_ov s1 s2) by (by eapply create_root_keeps). destruct (ov_rel_after s1 s2 idx1 K2 HR1) as [HR2 Hc2].
  apply bind_Ret_inv in Hr as (z & s3 & H3 & Hr). case_decide as Hz; [by apply bind_Ret_inv in Hr as (? & ? & _ & Hr)|]. injection Hr as <-.
  assert (z = 0) as ->.
  { pose proof (add_run node_addr (x_ov s2) idx1 (Some r) d name 0 HR2 Hs) as Ha. unfold on_ov, zoom in H3. case_decide.
    - destruct Ha as (? & ? & Ha & _). rewrite Ha in H3. congruence.
    - rewrite Ha in H3. injection H3 as <- _. lia. }
  destruct (add_front (Some r) d name 0 s2 s3 idx1 HR2 Hs H3) as (idx' & HR' & Hc). rewrite Hc2 in Hc.
  assert (Hhd : head (filter (has_key d name) (contents (x_ov s3) idx')) = Some (mk_orec (Some r) d name 0)) by (rewrite Hc; by rewrite filter_cons_True).
  assert (Ht3 : x_t s3 = x_t s2) by (unfold on_ov, zoom in H3; destruct (overlay_add _ _ _ _ _ _) as [[? ?]| | |]; [|done..]; by injection H3 as _ <-).
  exists r, ta, idx'. split_and!; [by apply (tmp_node_t s2)|by unfold fresh_inode; rewrite Ht3|done|done| |].
  - intros p n Hne. rewrite Hc. rewrite (other_cons d name (contents (x_ov s1) idx1) (Some r) 0 p n Hne). by apply Ho1.
  - intros t Hov Hdir Hlt Hdot (c & nl & Hn & Hty). destruct (ov_rel_after s3 t idx' Hov HR') as [HRt Hct].
    assert (Hlook : mix_vfs_lookup (Some d) name t = on_t (tmpfs_fill_vfs_inode (t_next_ino (t_mem (x_t s))) ta (u8 mode)) t).
    { rewrite (lookup_entry d name t idx' _ HRt Hdir (not_dot _ Hs Hdot) ltac:(by rewrite Hct)). rewrite decide_False by auto. cbn [or_root].
      unfold fill_from. rewrite (bind_Ret _ _ _ _ _ Hn), (bind_Ret _ _ _ _ _ Hty). cbn [i_ino private_data].
      replace (u8 (u8 mode)) with (u8 mode) by (symmetry; apply u8_small, Z.mod_pos_bound; lia). done. }
    split; [done|]. intros v t'. rewrite Hlook. intros Hf. by destruct (fill_node _ _ _ _ _ _ Hlt Hf).
Qed.

(** Looking up a file of ext4 while the inode cache is full stops the kernel:
    ext4_inode_to_vfs calls put_inode with a null pointer. *)
Theorem ext4_full_cache_fault ino inode file_type fs s s1 :
  file_type = EXT4_FT_DIR ∨ file_type = EXT4_FT_REG_FILE → x_fs s = Some fs →
  on_ic (get_inode (fs_dev fs) ino true) s = Ret (None, s1) → ext4_inode_to_vfs ino inode file_type s = Fault.
Proof.
  intros Ht Hfs Hg. assert (Hr : ∀ type, fill_ext4_inode ino inode type s = Fault).
  { intros type. unfold fill_ext4_inode. rewrite (bind_Ret (gets x_fs) _ s (Some fs) s) by (unfold gets; by rewrite Hfs).
    rewrite (bind_Ret (gets _) _ s _ s) by done. by rewrite (bind_Ret _ _ _ _ _ Hg). }
  unfold ext4_inode_to_vfs. destruct Ht as [->| ->]; [rewrite decide_True by done|rewrite decide_False, decide_True by done]; apply Hr.
Qed.
End mix.

(** * A small system *)

#[local] Existing Instance demo_image.
#[local] Existing Instance bump_objects.
#[local] Instance demo_reader : BlockReader unit := flat_reader demo_disk demo_disk_ok.

(** The image of Ext4.v mounted as the root, with three pages of memory. *)
Definition demo_three : kmem := run_or kalloc_init demo_boot.
Definition demo_mix_cold : mixfs kmem bump unit :=
  mk_mix (mk_tfs (demo_icold demo_three) (mk_tmem ∅ ∅ ∅ (mk_bump 1000 ∅) 2) (mk_vnodes (mk_cinode 0 0 0 0 0 0) ∅ ∅) (mk_tmount false false None))
    tt None ∅ overlay_boot.
Definition demo_addr (v : Z) : Z := 0x80200000 + 176 * v.
Definition demo_mix : mixfs kmem bump unit := run_or (on_t (tmpfs_boot 100 200) ;; ext4_mount_root 0 ;; mret tt) demo_mix_cold.
(** The result of a computation, without its state. *)
Definition code {S A} (o : outcome (A * S)) : option A := match o with Ret (a, _) => Some a | _ => None end.
Lemma code_Ret {S A} (o : outcome (A * S)) a : code o = Some a → ∃ s, o = Ret (a, s).
Proof. destruct o as [[b s]| | |]; try done. intros [= ->]. by exists s. Qed.

Lemma demo_mix_overlay : x_ov demo_mix = overlay_boot.
Proof. vm_compute. reflexivity. Qed.
Lemma demo_mix_rel : ov_rel demo_addr (x_ov demo_mix) [].
Proof. rewrite demo_mix_overlay. apply boot_rel. Qed.
Lemma demo_mix_root : ext4_dir 0 demo_mix.
Proof.
  assert (Hx : (λ x, (bool_decide (private_data x ≠ 0), i_dev x)) <$> inodes (t_ic (x_t demo_mix)) !! Z.to_nat 0 = Some (true, 0)) by (vm_compute; reflexivity).
  assert (Ht : vf_type (default (mk_vf 0 0 false) (vn_fields (t_vn (x_t demo_mix)) !! 0)) = VFS_DIR) by (vm_compute; reflexivity).
  revert Hx Ht. generalize demo_mix. intros s Hx Ht. destruct s as [[ic mem vn mnt] dsk fs inf ov]. cbn [x_t t_ic t_vn] in *.
  destruct (inodes ic !! Z.to_nat 0) as [x|] eqn:E; [|done]. simpl in Hx. injection Hx as Hp Hd. apply bool_decide_eq_true in Hp. exists x. split_and!.
  - unfold node, on_t, zoom, get_vi. simpl. unfold on_cache, zoom, get_ci. simpl. change (inodes ic !! 0%nat) with (inodes ic !! Z.to_nat 0). rewrite E. by destruct ic.
  - unfold node_type, on_t, zoom, get_vf, gets, mbind, K_bind. simpl. unfold mret, K_ret. simpl in Ht. by rewrite Ht.
  - done.
  - rewrite Hd. done.
Qed.

Lemma demo_mix_links : links_ok demo_mix.
Proof.
  assert (Hall : map_Forall (λ _ n, 0 ≤ prev n) (ilinks (t_ic (x_t demo_mix)))) by (apply (bool_decide_unpack _); vm_compute; reflexivity).
  intros k n Hk. exact (Hall k n Hk).
Qed.

Lemma mix_unlink_hides_witness :
  ∃ s' idx', mix_vfs_unlink 100 200 demo_addr (Some 0) (Some [98]) demo_mix = Ret (0, s') ∧
    contents (x_ov s') idx' = mk_orec None 0 [98] 1 :: contents (x_ov demo_mix) [].
Proof.
  assert (Hc : code (mix_vfs_unlink 100 200 demo_addr (Some 0) (Some [98]) demo_mix) = Some 0) by (vm_compute; reflexivity).
  apply code_Ret in Hc as [s' Hs].
  destruct (mix_unlink_hides 100 200 demo_addr 0 [98] demo_mix s' [] demo_mix_rel) as (idx' & _ & Hc & _).
  - vm_compute. reflexivity.
  - exact demo_mix_root.
  - intros r Hr. exfalso. revert Hr. apply not_elem_of_nil.
  - exact Hs.
  - exists s', idx'. split; [exact Hs|exact Hc].
Defined.
Lemma mix_create_shows_witness :
  ∃ s' r idx', mix_vfs_create 100 200 demo_addr (Some 0) (Some [99]) VFS_FILE demo_mix = Ret (0, s') ∧
    head (filter (has_key 0 [99]) (contents (x_ov s') idx')) = Some (mk_orec (Some r) 0 [99] 0).
Proof.
  assert (Hc : code (mix_vfs_create 100 200 demo_addr (Some 0) (Some [99]) VFS_FILE demo_mix) = Some 0) by (vm_compute; reflexivity).
  apply code_Ret in Hc as [s' Hs].
  destruct (mix_create_shows 100 200 demo_addr 0 [99] VFS_FILE demo_mix s' [] demo_mix_rel) as (r & a & idx' & _ & _ & _ & Hr & _).
  - vm_compute. reflexivity.
  - exact demo_mix_root.
  - exact demo_mix_links.
  - exact Hs.
  - exists s', r, idx'. split; [exact Hs|exact Hr].
Defined.

Abbreviation demo_unlink n := (mix_vfs_unlink 100 200 demo_addr (Some 0) (Some n)).
Abbreviation demo_lookup n := (mix_vfs_lookup demo_addr (Some 0) n).
Abbreviation demo_create n := (mix_vfs_create 100 200 demo_addr (Some 0) (Some n) VFS_FILE).

(** A file of ext4 that is unlinked, created anew and unlinked again is
    found again, because the second mix_vfs_unlink leaves no whiteout. *)
Example unlink_resurrects :
  code ((a ← demo_unlink [98]; l1 ← demo_lookup [98]; b ← demo_create [98]; c ← demo_unlink [98]; l2 ← demo_lookup [98];
         mret (a, l1, b, c, bool_decide (is_Some l2))) demo_mix) = Some (0, None, 0, 0, true).
Proof. vm_compute. reflexivity. Qed.

(** Unlinking a file that was unlinked already succeeds, and takes one more entry
    of the overlay. *)
Example unlink_twice : code ((a ← demo_unlink [98]; b ← demo_unlink [98]; mret (a, b)) demo_mix) = Some (0, 0).
Proof. vm_compute. reflexivity. Qed.

(** readdir at the end of a directory of ext4 returns 0 and leaves the offset
    without the part of the overlay: the next call reads inside a record. *)
Fixpoint demo_readdirs (n : nat) (f : option mfile) : K (mixfs kmem bump unit) (list (Z * option cstring)) :=
  match n with
  | O => mret []
  | S n => '(r, de, f) ← mix_vfs_readdir demo_addr f 1; l ← demo_readdirs n f; mret ((r, de_name <$> de) :: l)
  end.
Example readdir_past_end :
  code (demo_readdirs 4 (Some (mk_mfile FILE_VFS_NODE (Some 0) 0)) demo_mix) = Some [(1, Some [46]); (1, Some [97]); (0, None); (-1, None)].
Proof. vm_compute. reflexivity. Qed.

(** The first write to a file of ext4 copies it; the copy is read from then on,
    also under the other name of the file. *)
Example copy_up_write :
  code ((v ← demo_lookup [97];
         '(z, f) ← mix_vfs_write 100 200 (Some (mk_mfile FILE_VFS_NODE v 0)) 1 1 [72];
         w ← demo_lookup [98];
         '(n, bytes, _) ← mix_vfs_read (Some (mk_mfile FILE_VFS_NODE w 0)) 1 10;
         mret (z, n, bytes)) demo_mix) = Some (1, 10, [72; 101; 108; 108; 111; 119; 111; 114; 108; 100]).
Proof. vm_compute. reflexivity. Qed.
