(* ===== verification/Pci.v ===== *)
(** kernel/driver/pci.c and the probing half of kernel/driver/pci_resource.c:
    enumeration of bus 0, the command register, the size probe of the base
    address registers (BARs) and the search for a conflicting range.

    Configuration space is the class [PciBus]: reads of one, two and four
    bytes with their C ranges and writes of two and four bytes, at the offset
    the ECAM macros add to their base.  A pointer to an entry of [pci_devices]
    is its index, a pointer to one of its BARs the pair of indices.  Log output
    is dropped.  Nothing is assumed of the hardware except where a theorem
    says so ([bar_bus]: a BAR keeps the bits that are writable and nothing
    else changes). *)
From S2P Require Import Prelude.

(** include/driver/pci.h *)
Definition PCIE_ECAM_BUS_SHIFT : Z := 20.
Definition PCIE_ECAH_DEV_SHIFT : Z := 15.
Definition PCIE_ECAM_FUNC_SHIFT : Z := 12.
Definition INVALID_ID : Z := 0xffff.
Definition VENDOR_OFFSET : Z := 0x00.
Definition DEVICE_OFFSET : Z := 0x02.
Definition COMMAND_OFFSET : Z := 0x04.
Definition STATUS_OFFSET : Z := 0x06.
Definition REVISION_ID_OFFSET : Z := 0x08.
Definition BAR_OFFSET : Z := 0x10.
Definition HEADER_TYPE_OFFSET : Z := 0x0E.
Definition CAPABILITIES_OFFSET : Z := 0x34.
Definition INTERRUPT_PIN_OFFSET : Z := 0x3D.
Definition PCI_COMMAND_IO : Z := 1.
Definition PCI_COMMAND_MEMORY : Z := 2.
Definition PCI_MAX_DEVICES : Z := 32.

(** The bits of the command register that let a device decode addresses. *)
Definition PCI_DECODE : Z := Z.lor PCI_COMMAND_IO PCI_COMMAND_MEMORY.

(** [~x] of a uint32 *)
Definition not32 (x : Z) : Z := u32 (Z.lnot x).

Class PciBus (B : Type) := {
  pcie_read8 : Z → B → Z;
  pcie_read16 : Z → B → Z;
  pcie_read32 : Z → B → Z;
  pcie_write16 : Z → Z → B → B;
  pcie_write32 : Z → Z → B → B;
  pcie_range8 a b : 0 ≤ pcie_read8 a b < 2 ^ 8;
  pcie_range16 a b : 0 ≤ pcie_read16 a b < 2 ^ 16;
  pcie_range32 a b : 0 ≤ pcie_read32 a b < 2 ^ 32
}.

Record pci_bar := mk_bar {
  bar_base : Z;
  bar_size : Z;
  bar_valid : bool;
  is_io : bool;
  is_64 : bool;
  prefetchable : bool
}.
Definition bar_zero : pci_bar := mk_bar 0 0 false false false false.

Record pci_device := mk_device {
  d_bus : Z;
  d_dev : Z;
  d_func : Z;
  header_type : Z;
  d_vendor : Z;
  d_device : Z;
  class_code : Z;
  interrupt_pin : Z;
  bars : list pci_bar
}.
Definition device_zero : pci_device := mk_device 0 0 0 0 0 0 0 0 (replicate 6 bar_zero).

Record pci_state (B : Type) := mk_pci {
  bus : B;
  pci_devices : list pci_device;
  pci_device_count : Z
}.
Arguments mk_pci {_} _ _ _.
Arguments bus {_} _.
Arguments pci_devices {_} _.
Arguments pci_device_count {_} _.

(** The first element that gives a result, the C loops with a return. *)
Fixpoint find_first {A R} (f : A → option R) (l : list A) : option R :=
  match l with [] => None | x :: l => match f x with Some r => Some r | None => find_first f l end end.

Section pci.
Context {B : Type} {PB : PciBus B}.
Abbreviation st := (pci_state B).

Definition set_bus b (s : st) : st := mk_pci b (pci_devices s) (pci_device_count s).
Definition set_devices l (s : st) : st := mk_pci (bus s) l (pci_device_count s).
Definition set_count n (s : st) : st := mk_pci (bus s) (pci_devices s) n.
Definition on_bus {A} (m : K B A) : K st A := zoom bus set_bus m.

(** [pci_devices[d]] and [pci_devices[d].bars[i]] *)
Definition get_device (d : nat) : K st pci_device := λ s,
  match pci_devices s !! d with Some x => Ret (x, s) | None => Fault end.
Definition put_device (d : nat) (x : pci_device) : K st unit := λ s,
  if decide (d < length (pci_devices s))%nat then Ret (tt, set_devices (<[d := x]> (pci_devices s)) s) else Fault.
Definition with_bars (l : list pci_bar) (x : pci_device) : pci_device :=
  mk_device (d_bus x) (d_dev x) (d_func x) (header_type x) (d_vendor x) (d_device x) (class_code x) (interrupt_pin x) l.
Definition set_bars (d : nat) (l : list pci_bar) : K st unit := x ← get_device d; put_device d (with_bars l x).
Definition put_bar (d : nat) (i : Z) (e : pci_bar) : K st unit :=
  x ← get_device d;
  if decide (0 ≤ i < 6) then put_device d (with_bars (<[Z.to_nat i := e]> (bars x)) x) else kfault.

(** ** pci.c *)

Definition enumerate_device (dev : Z) : K st unit :=
  let addr := Z.shiftl dev PCIE_ECAH_DEV_SHIFT in
  b ← gets bus;
  let vendor := pcie_read16 (addr + VENDOR_OFFSET) b in
  if decide (vendor = INVALID_ID) then mret tt else
  let device := pcie_read16 (addr + DEVICE_OFFSET) b in
  let header_type := pcie_read8 (addr + HEADER_TYPE_OFFSET) b in
  let class_code := Z.shiftr (pcie_read32 (addr + REVISION_ID_OFFSET) b) 8 in
  let interrupt_pin := pcie_read8 (addr + INTERRUPT_PIN_OFFSET) b in
  n ← gets pci_device_count;
  x ← get_device (Z.to_nat n);
  put_device (Z.to_nat n) (mk_device 0 dev 0 header_type vendor device class_code interrupt_pin (bars x)) ;;
  modify (set_count (u32 (n + 1))).

Definition pcie_enumerate : K st unit :=
  modify (set_count 0) ;;
  forM (seqZ 0 PCI_MAX_DEVICES) enumerate_device.

Definition pci_find_device (vendor device : Z) : K st (option nat) :=
  gets (λ s, fst <$> list_find (λ x, d_vendor x = vendor ∧ d_device x = device)
                       (take (Z.to_nat (pci_device_count s)) (pci_devices s))).

Definition pci_restore_command (saved_command cfg_addr : Z) : K B unit :=
  modify (pcie_write16 (cfg_addr + COMMAND_OFFSET) saved_command).

(** The saved command, or [None] when decoding stays enabled. *)
Definition pci_disable_decoding (cfg_addr : Z) : K B (option Z) :=
  saved ← gets (pcie_read16 (cfg_addr + COMMAND_OFFSET));
  let probe_command := u16 (Z.land saved (not32 PCI_DECODE)) in
  modify (pcie_write16 (cfg_addr + COMMAND_OFFSET) probe_command) ;;
  command ← gets (pcie_read16 (cfg_addr + COMMAND_OFFSET));
  if has command PCI_DECODE then
    modify (pcie_write16 (cfg_addr + COMMAND_OFFSET) saved) ;; mret None
  else mret (Some saved).

(** ** pci_resource.c *)

(** The two size probes: all ones written, read back, the old value restored
    and checked.  [None] is a restore mismatch, [Some 0] an absent BAR. *)
Definition probe_mask64 (reg old_low : Z) : K B (option (Z * Z)) :=
  old_high ← gets (pcie_read32 (reg + 4));
  modify (pcie_write32 reg 0xffffffff) ;;
  modify (pcie_write32 (reg + 4) 0xffffffff) ;;
  probe_low ← gets (pcie_read32 reg);
  probe_high ← gets (pcie_read32 (reg + 4));
  modify (pcie_write32 reg old_low) ;;
  modify (pcie_write32 (reg + 4) old_high) ;;
  low ← gets (pcie_read32 reg);
  high ← gets (pcie_read32 (reg + 4));
  if decide (low ≠ old_low ∨ high ≠ old_high) then mret None else
  mret (Some (Z.lor (Z.shiftl probe_high 32) (Z.land probe_low (not32 0xf)),
              Z.lor (Z.shiftl old_high 32) (Z.land old_low (not32 0xf)))).

Definition probe_mask32 (reg old_low : Z) (io : bool) : K B (option (Z * Z)) :=
  modify (pcie_write32 reg 0xffffffff) ;;
  probe ← gets (pcie_read32 reg);
  modify (pcie_write32 reg old_low) ;;
  low ← gets (pcie_read32 reg);
  if decide (low ≠ old_low) then mret None else
  let address_mask := if io then not32 0x3 else not32 0xf in
  mret (Some (Z.land probe address_mask, Z.land old_low address_mask)).

(** One round of pci_probe_bar: [None] is [goto failed]. *)
Definition probe_slot (cfg_addr i : Z) : K B (option pci_bar) :=
  let reg := cfg_addr + BAR_OFFSET + i * 4 in
  old_low ← gets (pcie_read32 reg);
  let type := Z.land (Z.shiftr old_low 1) 3 in
  let io := has old_low 1 in
  if negb io && bool_decide (type ≠ 0 ∧ type ≠ 2) then mret None else
  let wide := negb io && bool_decide (type = 2) in
  let pre := negb io && has old_low 8 in
  if wide && bool_decide (i = 5) then mret None else
  r ← (if wide then probe_mask64 reg old_low else probe_mask32 reg old_low io);
  match r with
  | None => mret None
  | Some (mask, base) =>
      let e := if decide (mask ≠ 0)
               then mk_bar base (if wide then u64 (Z.lnot mask + 1) else u32 (Z.lnot mask + 1)) true io wide pre
               else mk_bar 0 0 false io wide pre in
      if bar_valid e && bool_decide (bar_size e = 0 ∨ Z.land (bar_size e) (u64 (bar_size e - 1)) ≠ 0 ∨
                                     Z.land (bar_base e) (u64 (bar_size e - 1)) ≠ 0)
      then mret None else mret (Some e)
  end.

Definition zero_bars : list pci_bar := replicate 6 bar_zero.

(** The loop over the slots; a 64-bit BAR takes two of them. *)
Definition probe_round (cfg_addr : Z) (d : nat) (i : Z) : K st (Z + bool) :=
  if decide (i < 6) then
    r ← on_bus (probe_slot cfg_addr i);
    match r with
    | None => mret (inr false)
    | Some e =>
        (if bar_valid e then put_bar d i e else mret tt) ;;
        mret (inl (if is_64 e then i + 2 else i + 1))
    end
  else mret (inr true).

Definition pci_probe_bar (cfg_addr : Z) (d : nat) : K st Z :=
  set_bars d zero_bars ;;
  x ← get_device d;
  if decide (Z.land (header_type x) 0x7f ≠ 0) then mret (-1) else
  ok ← loop 7 (probe_round cfg_addr d) 0;
  if ok : bool then mret 0 else set_bars d zero_bars ;; mret (-1).

Definition pci_cfg_addr (x : pci_device) : Z :=
  Z.lor (Z.lor (Z.shiftl (d_bus x) PCIE_ECAM_BUS_SHIFT) (Z.shiftl (d_dev x) PCIE_ECAH_DEV_SHIFT))
    (Z.shiftl (d_func x) PCIE_ECAM_FUNC_SHIFT).

(** One device of pci_collect_resources: [Some (-1)] leaves the loop. *)
Definition collect_device (target : nat) (n : Z) : K st (option Z) :=
  let d := Z.to_nat n in
  if decide (d = target) then mret None else
  x ← get_device d;
  if decide (Z.land (header_type x) 0x7f ≠ 0) then mret (Some (-1)) else
  let cfg := pci_cfg_addr x in
  c ← on_bus (pci_disable_decoding cfg);
  match c with
  | None => mret (Some (-1))
  | Some saved =>
      result ← pci_probe_bar cfg d;
      on_bus (pci_restore_command saved cfg) ;;
      now ← on_bus (gets (pcie_read16 (cfg + COMMAND_OFFSET)));
      if decide (now ≠ saved ∨ result < 0) then mret (Some (-1)) else mret None
  end.
Definition pci_collect_resources (target : nat) : K st Z :=
  n ← gets pci_device_count;
  r ← for_find (seqZ 0 n) (collect_device target);
  mret (match r with Some e => e | None => 0 end).

(** The end of [bar] if it meets [base, base + size), ~0 if it wraps. *)
Definition bar_conflict (base size : Z) (bar : pci_bar) : option Z :=
  if negb (bar_valid bar) || is_io bar || bool_decide (bar_base bar = 0) then None else
  let end_ := u64 (bar_base bar + bar_size bar) in
  if decide (end_ < bar_base bar) then Some (2 ^ 64 - 1) else
  if decide (base < end_ ∧ bar_base bar < u64 (base + size)) then Some end_ else None.

Definition pci_memory_conflict (base size : Z) (self : nat * nat) (s : st) : Z :=
  default 0 (find_first (λ n, find_first (λ i,
      x ← pci_devices s !! n;
      bar ← bars x !! i;
      if decide ((n, i) = self) then None else bar_conflict base size bar) (seq 0 6))
    (seq 0 (Z.to_nat (pci_device_count s)))).

(** ** What a probed BAR looks like *)

(** A power of two in size, naturally aligned, inside its address width. *)
Definition bar_ok (e : pci_bar) : Prop :=
  bar_valid e = true →
  ∃ k, 0 ≤ k < 64 ∧ bar_size e = 2 ^ k ∧ bar_base e mod 2 ^ k = 0 ∧ 0 ≤ bar_base e ∧
    bar_base e + bar_size e ≤ 2 ^ (if is_64 e then 64 else 32) ∧ (is_64 e = true → is_io e = false).

(** Six slots; the slot after a 64-bit BAR is taken by its upper half. *)
Record bars_ok (l : list pci_bar) : Prop := {
  bo_len : length l = 6%nat;
  bo_all : Forall bar_ok l;
  bo_pair i e : l !! i = Some e → bar_valid e = true → is_64 e = true → (i < 5)%nat ∧ l !! S i = Some bar_zero
}.

(** A valid memory BAR with an address, other than [self]. *)
Definition active (s : st) (self : nat * nat) (bar : pci_bar) : Prop :=
  ∃ n i x, (n < Z.to_nat (pci_device_count s))%nat ∧ (i < 6)%nat ∧ (n, i) ≠ self ∧
    pci_devices s !! n = Some x ∧ bars x !! i = Some bar ∧
    bar_valid bar = true ∧ is_io bar = false ∧ bar_base bar ≠ 0.

Record pci_inv (s : st) : Prop := {
  pv_len : length (pci_devices s) = Z.to_nat PCI_MAX_DEVICES;
  pv_count : 0 ≤ pci_device_count s ≤ PCI_MAX_DEVICES;
  pv_bars : Forall (λ x, bars_ok (bars x)) (pci_devices s)
}.

(** Two address ranges with no byte in common. *)
Definition apart (b1 s1 b2 s2 : Z) : Prop := b1 + s1 ≤ b2 ∨ b2 + s2 ≤ b1.

(** * Lemmas *)

(** ** Bits *)

Lemma land_pred_pow2 n : 0 < n → Z.land n (n - 1) = 0 → n = 2 ^ Z.log2 n.
Proof.
  intros Hn Hl. destruct (Z.log2_spec n Hn) as [H1 H2]. rewrite Z.pow_succ_r in H2 by apply Z.log2_nonneg.
  destruct (decide (n = 2 ^ Z.log2 n)) as [|Hne]; [done|exfalso].
  assert (Hb : ∀ m, 2 ^ Z.log2 n ≤ m < 2 * 2 ^ Z.log2 n → Z.testbit m (Z.log2 n) = true).
  { intros m Hm. rewrite Z.testbit_true by apply Z.log2_nonneg.
    replace (m / 2 ^ Z.log2 n) with 1; [done|]. apply (Z.div_unique _ _ 1 (m - 2 ^ Z.log2 n)); lia. }
  pose proof (f_equal (λ x, Z.testbit x (Z.log2 n)) Hl) as Hbit. simpl in Hbit.
  rewrite Z.land_spec, !Hb, Z.bits_0 in Hbit by lia. done.
Qed.

(** [x & (2^k - 1)] *)
Lemma land_ones_mod x k : 0 ≤ k → Z.land x (2 ^ k - 1) = x mod 2 ^ k.
Proof. intros Hk. replace (2 ^ k - 1) with (Z.ones k) by (rewrite Z.ones_equiv; lia). by rewrite Z.land_ones. Qed.

(** The test of pci_probe_bar and pci_assign_memory_bars on a size and a base. *)
Lemma aligned_pow2 size base w :
  0 ≤ w → 0 ≤ size < 2 ^ w → w ≤ 64 → 0 ≤ base < 2 ^ w →
  ¬ (size = 0 ∨ Z.land size (u64 (size - 1)) ≠ 0 ∨ Z.land base (u64 (size - 1)) ≠ 0) →
  ∃ k, 0 ≤ k ∧ size = 2 ^ k ∧ base mod 2 ^ k = 0 ∧ base + size ≤ 2 ^ w.
Proof.
  intros Hw Hs Hw64 Hb Hno. assert (2 ^ w ≤ 2 ^ 64) by (apply Z.pow_le_mono_r; lia).
  rewrite u64_small in Hno by lia.
  assert (Hp : size = 2 ^ Z.log2 size) by (apply land_pred_pow2; [lia|]; destruct (decide (Z.land size (size - 1) = 0)); tauto).
  assert (Hk := Z.log2_nonneg size). set (k := Z.log2 size) in *. clearbody k. subst size.
  rewrite !land_ones_mod in Hno by done. exists k. assert (base mod 2 ^ k = 0) by (destruct (decide (base mod 2 ^ k = 0)); tauto).
  split_and!; [done..|]. assert (k < w) by (apply (Z.pow_lt_mono_r_iff 2); lia).
  replace (2 ^ w) with (2 ^ (w - k) * 2 ^ k) in * by (rewrite <-Z.pow_add_r by lia; f_equal; lia).
  pose proof (Z.div_mod base (2 ^ k) ltac:(lia)). assert (base / 2 ^ k < 2 ^ (w - k)) by (apply Z.div_lt_upper_bound; lia). nia.
Qed.

(** ** Loops with a return *)

Lemma find_first_None {A R} (f : A → option R) l : find_first f l = None ↔ ∀ x, x ∈ l → f x = None.
Proof.
  induction l as [|x l IH]; simpl; [split; [intros _ x Hx; by apply elem_of_nil in Hx|done]|].
  destruct (f x) eqn:Hx; [split; [done|intros H; rewrite (H x) in Hx by (by left); done]|].
  rewrite IH. split; [|intros H y Hy; apply H; by right]. intros H y [->|Hy]%elem_of_cons; auto.
Qed.

Lemma find_first_Some {A R} (f : A → option R) l r : find_first f l = Some r → ∃ x, x ∈ l ∧ f x = Some r.
Proof.
  induction l as [|x l IH]; simpl; [done|]. destruct (f x) eqn:Hx.
  - intros [= ->]. exists x. split; [by left|done].
  - intros (y & Hy & Hf)%IH. exists y. split; [by right|done].
Qed.

(** ** Probing *)

Lemma on_bus_run {A} (m : K B A) s x b : m (bus s) = Ret (x, b) → on_bus m s = Ret (x, set_bus b s).
Proof. apply zoom_Ret. Qed.

Lemma not32_range x : 0 ≤ not32 x < 2 ^ 32.
Proof. apply u32_range. Qed.

Lemma probe_mask_run (wide io : bool) reg old b :
  0 ≤ old < 2 ^ 32 →
  ∃ r b', (if wide then probe_mask64 reg old else probe_mask32 reg old io) b = Ret (r, b') ∧
    match r with
    | None => True
    | Some (mask, base) => let w := if wide then 64 else 32 in 0 ≤ mask < 2 ^ w ∧ 0 ≤ base < 2 ^ w
    end.
Proof.
  intros Ho. destruct wide.
  - unfold probe_mask64. kunfold. case_decide; eexists _, _; (split; [done|]); [done|].
    assert (Hlor : ∀ h l, 0 ≤ h < 2 ^ 32 → 0 ≤ l < 2 ^ 32 → 0 ≤ Z.lor (Z.shiftl h 32) (Z.land l (not32 0xf)) < 2 ^ 64).
    { intros h l Hh Hl. apply lor_range; [lia| |].
      - rewrite Z.shiftl_mul_pow2 by lia. nia.
      - assert (0 ≤ Z.land l (not32 0xf) < 2 ^ 32) by (apply land_range; [lia..|apply not32_range]). lia. }
    split; apply Hlor; done || apply pcie_range32.
  - unfold probe_mask32. kunfold. case_decide; eexists _, _; (split; [done|]); [done|].
    simpl. split; apply land_range; try lia; try apply pcie_range32; destruct io; apply not32_range.
Qed.

(** Whatever the registers read, a slot that is accepted is well formed. *)
Lemma probe_slot_run cfg i b :
  ∃ r b', probe_slot cfg i b = Ret (r, b') ∧
    match r with None => True | Some e => bar_ok e ∧ (is_64 e = true → i ≠ 5) end.
Proof.
  unfold probe_slot. rewrite bind_gets. set (old := pcie_read32 _ b). assert (Ho : 0 ≤ old < 2 ^ 32) by apply pcie_range32.
  destruct (negb (has old 1) && bool_decide _); [by eexists _, _|].
  set (wide := negb (has old 1) && bool_decide (_ = 2)).
  destruct (wide && bool_decide (i = 5)) eqn:H5; [by eexists _, _|].
  destruct (probe_mask_run wide (has old 1) (cfg + BAR_OFFSET + i * 4) old b Ho) as (r & b' & Hrun & Hr).
  rewrite (bind_Ret _ _ _ _ _ Hrun). destruct r as [[mask base]|]; [|by eexists _, _].
  cbv zeta in Hr. destruct Hr as [Hm Hb].
  set (e := if decide (mask ≠ 0) then _ else _).
  assert (H64 : is_64 e = wide) by (unfold e; by destruct (decide (mask ≠ 0))).
  assert (Hi : is_64 e = true → i ≠ 5).
  { rewrite H64. intros Hw ->. rewrite Hw in H5. done. }
  destruct (bar_valid e && _) eqn:Hv; [by eexists _, _|]. eexists _, _. split; [done|]. split; [|done].
  intros Hval. rewrite Hval in Hv. simpl in Hv. apply bool_decide_eq_false in Hv.
  assert (Hsz : 0 ≤ bar_size e < 2 ^ (if wide then 64 else 32) ∧ 0 ≤ bar_base e < 2 ^ (if wide then 64 else 32)).
  { unfold e. destruct (decide (mask ≠ 0)); [|simpl; destruct wide; lia]. simpl. split; [|done].
    destruct wide; [apply u64_range|apply u32_range]. }
  destruct (aligned_pow2 (bar_size e) (bar_base e) (if wide then 64 else 32)) as (k & Hk & H1 & H2 & H3);
    [by destruct wide|apply Hsz|by destruct wide|apply Hsz|done|].
  assert (k < 64). { apply (Z.pow_lt_mono_r_iff 2); [lia|lia|]. rewrite <- H1. destruct wide; lia. }
  exists k. rewrite H64. split_and!; [done|done|done|done|apply Hsz|done|].
  intros Hw. unfold wide in Hw. apply andb_true_iff in Hw as [Hio%negb_true_iff _]. unfold e. by destruct (decide (mask ≠ 0)).
Qed.

(** The state with the bus [b] and the BARs [l] in device [d], which was [x]. *)
Definition at_bars (s : st) (d : nat) (x : pci_device) (b : B) (l : list pci_bar) : st :=
  mk_pci b (<[d := with_bars l x]> (pci_devices s)) (pci_device_count s).

Lemma at_bars_get s d x b l : (d < length (pci_devices s))%nat →
  get_device d (at_bars s d x b l) = Ret (with_bars l x, at_bars s d x b l).
Proof. intros Hd. unfold get_device. simpl. by rewrite list_lookup_insert_eq. Qed.

Lemma at_bars_put s d x b l l' : (d < length (pci_devices s))%nat →
  put_device d (with_bars l' x) (at_bars s d x b l) = Ret (tt, at_bars s d x b l').
Proof.
  intros Hd. unfold put_device. simpl. rewrite length_insert, decide_True by done.
  unfold set_devices, at_bars. simpl. by rewrite list_insert_insert_eq.
Qed.

Lemma set_bars_run s d x b l l' : (d < length (pci_devices s))%nat →
  set_bars d l' (at_bars s d x b l) = Ret (tt, at_bars s d x b l').
Proof.
  intros Hd. unfold set_bars. rewrite (bind_Ret _ _ _ _ _ (at_bars_get s d x b l Hd)).
  exact (at_bars_put s d x b l l' Hd).
Qed.

Lemma set_bars_first s d x l : pci_devices s !! d = Some x → set_bars d l s = Ret (tt, at_bars s d x (bus s) l).
Proof.
  intros Hx. unfold set_bars, get_device, put_device. kunfold. rewrite Hx.
  rewrite decide_True by (by eapply lookup_lt_Some). done.
Qed.

Lemma put_bar_run s d x b l i e : (d < length (pci_devices s))%nat → 0 ≤ i < 6 →
  put_bar d i e (at_bars s d x b l) = Ret (tt, at_bars s d x b (<[Z.to_nat i := e]> l)).
Proof.
  intros Hd Hi. unfold put_bar. rewrite (bind_Ret _ _ _ _ _ (at_bars_get s d x b l Hd)). rewrite decide_True by done.
  exact (at_bars_put s d x b l _ Hd).
Qed.

(** The BARs after the slots before [i] have been probed. *)
Record probed (i : Z) (l : list pci_bar) : Prop := {
  pr_len : length l = 6%nat;
  pr_all : Forall bar_ok l;
  pr_rest j e : l !! j = Some e → i ≤ Z.of_nat j → e = bar_zero;
  pr_pair j e : l !! j = Some e → bar_valid e = true → is_64 e = true →
    (j < 5)%nat ∧ Z.of_nat j + 1 < i ∧ l !! S j = Some bar_zero
}.

Lemma probed_0 : probed 0 zero_bars.
Proof.
  split; [done|by apply Forall_replicate| |].
  - intros j e [-> _]%lookup_replicate. done.
  - intros j e [-> _]%lookup_replicate. done.
Qed.

Lemma probed_mono i i' l : probed i l → i ≤ i' → probed i' l.
Proof.
  intros [H1 H2 H3 H4] Hi. split; [done|done| |].
  - intros j e Hj Hij. apply (H3 j e Hj). lia.
  - intros j e Hj Hv Hw. destruct (H4 j e Hj Hv Hw) as (? & ? & ?). split_and!; [done|lia|done].
Qed.

Lemma probed_insert i l e :
  probed i l → 0 ≤ i < 6 → bar_ok e → (is_64 e = true → i ≠ 5) →
  probed (if is_64 e then i + 2 else i + 1) (<[Z.to_nat i := e]> l).
Proof.
  intros [H1 H2 H3 H4] Hi He H5. split; [by rewrite length_insert|by apply Forall_insert| |].
  - intros j e' Hj Hge. rewrite list_lookup_insert_ne in Hj by (destruct (is_64 e); lia).
    apply (H3 j e' Hj). destruct (is_64 e); lia.
  - intros j e' Hj Hv Hw. rewrite list_lookup_insert in Hj. case_decide as Hc.
    + destruct Hc as [<- _]. injection Hj as <-. rewrite Hw. specialize (H5 Hw). split_and!; [lia|lia|].
      rewrite list_lookup_insert_ne by lia. destruct (lookup_lt_is_Some_2 l (S (Z.to_nat i))) as [z Hz]; [lia|].
      rewrite Hz. f_equal. apply (H3 _ _ Hz). lia.
    + destruct (H4 j e' Hj Hv Hw) as (? & ? & ?). split_and!; [done|destruct (is_64 e); lia|].
      by rewrite list_lookup_insert_ne by lia.
Qed.

Lemma probe_round_lt cfg d i : i < 6 → probe_round cfg d i =
  (r ← on_bus (probe_slot cfg i);
   match r with
   | None => mret (inr false)
   | Some e =>
       (if bar_valid e then put_bar d i e else mret tt) ;; mret (inl (if is_64 e then i + 2 else i + 1))
   end).
Proof. intros Hi. unfold probe_round. by rewrite decide_True. Qed.

Lemma probe_loop_run cfg s d x n i b l :
  (d < length (pci_devices s))%nat → 0 ≤ i ≤ 6 → 6 - i < Z.of_nat n → probed i l →
  ∃ (ok : bool) b' l', loop n (probe_round cfg d) i (at_bars s d x b l) = Ret (ok, at_bars s d x b' l') ∧
    (ok = true → bars_ok l').
Proof.
  intros Hd. revert i b l. induction n as [|n IH]; intros i b l Hi Hn HP; [lia|].
  cbn [loop]. destruct (decide (i < 6)) as [H6|H6].
  - destruct (probe_slot_run cfg i b) as (r & b' & Hrun & Hr).
    rewrite (probe_round_lt cfg d i H6), bind_assoc.
    rewrite (bind_Ret _ _ _ _ _ (on_bus_run _ (at_bars s d x b l) _ _ Hrun)).
    change (set_bus b' (at_bars s d x b l)) with (at_bars s d x b' l).
    destruct r as [e|]; [|by exists false, b', l]. destruct Hr as [He H5].
    assert (Hnext : 0 ≤ (if is_64 e then i + 2 else i + 1) ≤ 6) by (destruct (is_64 e); [specialize (H5 eq_refl)|]; lia).
    rewrite bind_assoc. destruct (bar_valid e) eqn:Hv.
    + rewrite (bind_Ret _ _ _ _ _ (put_bar_run s d x b' l i e Hd ltac:(lia))). rewrite bind_mret.
      apply IH; [done|destruct (is_64 e); lia|apply probed_insert; [done|lia|done|done]].
    + rewrite !bind_mret. apply IH; [done|destruct (is_64 e); lia|].
      apply (probed_mono i); [done|destruct (is_64 e); lia].
  - exists true, b, l. split; [unfold probe_round; by rewrite decide_False|]. intros _. destruct HP as [H1 H2 H3 H4]. split; [done|done|].
    intros j e Hj Hv Hw. destruct (H4 j e Hj Hv Hw) as (? & ? & ?). done.
Qed.

Lemma zero_bars_ok : bars_ok zero_bars.
Proof.
  split; [done|by apply Forall_replicate|]. intros j e [-> _]%lookup_replicate. done.
Qed.

Lemma pci_probe_bar_run cfg s d x :
  pci_devices s !! d = Some x →
  ∃ r b' l', pci_probe_bar cfg d s = Ret (r, at_bars s d x b' l') ∧ bars_ok l' ∧
    (r = 0 ∨ r = -1 ∧ l' = zero_bars).
Proof.
  intros Hx. pose proof (lookup_lt_Some _ _ _ Hx) as Hd. unfold pci_probe_bar.
  rewrite (bind_Ret _ _ _ _ _ (set_bars_first s d x zero_bars Hx)).
  rewrite (bind_Ret _ _ _ _ _ (at_bars_get s d x (bus s) zero_bars Hd)). case_decide.
  - exists (-1), (bus s), zero_bars. split_and!; [done|apply zero_bars_ok|by right].
  - destruct (probe_loop_run cfg s d x 7 0 (bus s) zero_bars Hd) as (ok & b' & l' & Hrun & Hok); [lia|lia|apply probed_0|].
    rewrite (bind_Ret _ _ _ _ _ Hrun). destruct ok.
    + exists 0, b', l'. split_and!; [done|by apply Hok|by left].
    + rewrite (bind_Ret _ _ _ _ _ (set_bars_run s d x b' l' zero_bars Hd)).
      exists (-1), b', zero_bars. split_and!; [done|apply zero_bars_ok|by right].
Qed.

(** ** Enumeration and collection *)

Lemma at_bars_inv s d x b l :
  pci_inv s → pci_devices s !! d = Some x → bars_ok l → pci_inv (at_bars s d x b l).
Proof.
  intros [H1 H2 H3] Hx Hl. split; simpl; [by rewrite length_insert|done|by apply Forall_insert].
Qed.

Lemma active_bar_ok s self bar : pci_inv s → active s self bar →
  ∃ k, 0 ≤ k ∧ bar_size bar = 2 ^ k ∧ bar_base bar mod 2 ^ k = 0 ∧ 0 < bar_base bar ∧ bar_base bar + bar_size bar ≤ 2 ^ 64.
Proof.
  intros HI (n & i & x & _ & _ & _ & Hx & Hi & Hv & _ & Hne).
  pose proof (Forall_lookup_1 _ _ _ _ (pv_bars _ HI) Hx) as Hb.
  destruct (Forall_lookup_1 _ _ _ _ (bo_all _ Hb) Hi Hv) as (k & Hk & Hs & Ha & H0 & Hend & _).
  exists k. split_and!; [lia|done|done|lia|]. destruct (is_64 bar); lia.
Qed.

Lemma bar_conflict_None base size bar :
  0 ≤ base → 0 < size → base + size < 2 ^ 64 → 0 ≤ bar_base bar → bar_base bar + bar_size bar ≤ 2 ^ 64 → 0 < bar_size bar →
  bar_valid bar = true → is_io bar = false → bar_base bar ≠ 0 →
  match bar_conflict base size bar with
  | None => apart base size (bar_base bar) (bar_size bar)
  | Some e => base < e ∧ (bar_base bar + bar_size bar = 2 ^ 64 ∧ e = 2 ^ 64 - 1 ∨
      ¬ apart base size (bar_base bar) (bar_size bar) ∧ e = bar_base bar + bar_size bar)
  end.
Proof.
  intros H0 Hs Hb H1 H2 H3 Hv Hio Hne. unfold bar_conflict, apart. rewrite Hv, Hio, bool_decide_eq_false_2 by done. simpl.
  destruct (decide (bar_base bar + bar_size bar = 2 ^ 64)) as [Hw|Hw].
  - rewrite Hw. change (u64 (2 ^ 64)) with 0. rewrite decide_True by lia. split; [lia|]. by left.
  - rewrite !u64_small by lia. rewrite decide_False by lia. case_decide; [|lia]. split; [lia|]. right. lia.
Qed.

(** ** The size probe against a device that behaves *)

Lemma and_restore old m : 0 ≤ old < 2 ^ 32 → 0 ≤ m < 2 ^ 32 → ∀ v,
  Z.lor (Z.land old m) (Z.land (Z.lor (Z.land v m) (Z.land old (not32 m))) (not32 m)) = old.
Proof.
  intros Ho Hm v. apply Z.bits_inj'. intros i Hi. rewrite !Z.lor_spec, !Z.land_spec.
  unfold not32. rewrite !Z.lor_spec, !Z.land_spec. unfold u32.
  destruct (decide (i < 32)) as [H32|H32].
  - rewrite !Z.mod_pow2_bits_low, Z.lnot_spec by lia. destruct (Z.testbit old i), (Z.testbit m i), (Z.testbit v i); done.
  - rewrite !(testbit_high old 32) by lia. rewrite !Z.mod_pow2_bits_high by lia. by rewrite !andb_false_r.
Qed.

(** The BARs of the device at [cfg] as PCI describes them: a write keeps the
    bits of [m] and leaves the rest, and every other BAR, alone. *)
Definition bar_reg (cfg a : Z) : Prop := ∃ i, 0 ≤ i < 6 ∧ a = cfg + BAR_OFFSET + i * 4.
Record bar_bus (cfg : Z) (m : Z → Z) : Prop := {
  bb_mask a : 0 ≤ m a < 2 ^ 32;
  bb_same a v b : bar_reg cfg a →
    pcie_read32 a (pcie_write32 a v b) = Z.lor (Z.land v (m a)) (Z.land (pcie_read32 a b) (not32 (m a)));
  bb_other a a' v b : bar_reg cfg a → bar_reg cfg a' → a' ≠ a →
    pcie_read32 a' (pcie_write32 a v b) = pcie_read32 a' b
}.
(** All BARs of the device read the same. *)
Definition same_bars (cfg : Z) (b b' : B) : Prop := ∀ a, bar_reg cfg a → pcie_read32 a b' = pcie_read32 a b.

Lemma restore_same cfg m b b1 a v :
  bar_bus cfg m → bar_reg cfg a → pcie_read32 a b1 = pcie_read32 a (pcie_write32 a v b) →
  pcie_read32 a (pcie_write32 a (pcie_read32 a b) b1) = pcie_read32 a b.
Proof.
  intros HB Ha H1. rewrite (bb_same _ _ HB _ _ b1 Ha), H1, (bb_same _ _ HB _ _ b Ha).
  apply and_restore; [apply pcie_range32|apply HB].
Qed.

Lemma probe_mask64_bus reg old b r b' : probe_mask64 reg old b = Ret (r, b') → b' =
  pcie_write32 (reg + 4) (pcie_read32 (reg + 4) b)
    (pcie_write32 reg old (pcie_write32 (reg + 4) 0xffffffff (pcie_write32 reg 0xffffffff b))).
Proof. unfold probe_mask64. kunfold. case_decide; congruence. Qed.
Lemma probe_mask32_bus reg old io b r b' : probe_mask32 reg old io b = Ret (r, b') → b' =
  pcie_write32 reg old (pcie_write32 reg 0xffffffff b).
Proof. unfold probe_mask32. kunfold. case_decide; congruence. Qed.

Lemma probe_mask_restores cfg m (wide io : bool) i b r b' :
  bar_bus cfg m → 0 ≤ i < 6 → (wide = true → i ≠ 5) →
  let reg := cfg + BAR_OFFSET + i * 4 in
  (if wide then probe_mask64 reg (pcie_read32 reg b) else probe_mask32 reg (pcie_read32 reg b) io) b = Ret (r, b') →
  same_bars cfg b b'.
Proof.
  intros HB Hi Hw reg. assert (Hr : bar_reg cfg reg) by (by exists i). destruct wide.
  - assert (Hr4 : bar_reg cfg (reg + 4)) by (exists (i + 1); unfold reg; specialize (Hw eq_refl); split; lia).
    assert (Hne : reg + 4 ≠ reg) by lia. assert (Hne' : reg ≠ reg + 4) by lia.
    intros ->%probe_mask64_bus a Ha. set (b1 := pcie_write32 (reg + 4) 0xffffffff _). destruct (decide (a = reg + 4)) as [->|Ha4].
    + apply (restore_same cfg m b _ _ 0xffffffff HB Hr4). rewrite (bb_other _ _ HB _ _ _ _ Hr Hr4 Hne). unfold b1.
      by rewrite !(bb_same _ _ HB _ _ _ Hr4), (bb_other _ _ HB _ _ _ _ Hr Hr4 Hne).
    + rewrite (bb_other _ _ HB _ _ _ _ Hr4 Ha Ha4). destruct (decide (a = reg)) as [->|Har].
      * apply (restore_same cfg m b _ _ 0xffffffff HB Hr). unfold b1. by rewrite (bb_other _ _ HB _ _ _ _ Hr4 Hr Hne').
      * unfold b1. by rewrite !(bb_other _ _ HB _ _ _ _ Hr Ha Har), (bb_other _ _ HB _ _ _ _ Hr4 Ha Ha4), (bb_other _ _ HB _ _ _ _ Hr Ha Har).
  - intros ->%probe_mask32_bus a Ha. set (b1 := pcie_write32 reg 0xffffffff b). destruct (decide (a = reg)) as [->|Har].
    + by apply (restore_same cfg m b _ _ 0xffffffff HB Hr).
    + unfold b1. by rewrite !(bb_other _ _ HB _ _ _ _ Hr Ha Har).
Qed.

Lemma probe_slot_restores cfg m i b r b' :
  bar_bus cfg m → 0 ≤ i < 6 → probe_slot cfg i b = Ret (r, b') → same_bars cfg b b'.
Proof.
  intros HB Hi. unfold probe_slot. rewrite bind_gets. set (old := pcie_read32 _ b).
  destruct (negb (has old 1) && bool_decide (_ ∧ _)); [intros [= <- <-]; by intros a|].
  set (wide := negb (has old 1) && bool_decide (_ = 2)).
  destruct (wide && bool_decide (i = 5)) eqn:H5; [intros [= <- <-]; by intros a|].
  intros (q & b1 & Hrun & Hrest)%bind_Ret_inv.
  assert (b' = b1) as -> by (destruct q as [[mask base]|]; [destruct (_ && bool_decide _) in Hrest|]; by injection Hrest).
  apply (probe_mask_restores cfg m wide (has old 1) i b q); [done|done| |exact Hrun].
  intros Hw ->. rewrite Hw in H5. done.
Qed.

Lemma same_bars_trans cfg b1 b2 b3 : same_bars cfg b1 b2 → same_bars cfg b2 b3 → same_bars cfg b1 b3.
Proof. intros H1 H2 a Ha. by rewrite (H2 a Ha), (H1 a Ha). Qed.

Lemma on_bus_inv {A} (m : K B A) s x s' : on_bus m s = Ret (x, s') → ∃ b, m (bus s) = Ret (x, b) ∧ s' = set_bus b s.
Proof. unfold on_bus, zoom. destruct (m (bus s)) as [[a b]| | |]; [|done..]. intros [= <- <-]. by exists b. Qed.

Lemma put_device_bus d x s u s' : put_device d x s = Ret (u, s') → bus s' = bus s.
Proof. unfold put_device. case_decide; [|done]. by intros [= <- <-]. Qed.
Lemma get_device_inv d s x s' : get_device d s = Ret (x, s') → s' = s.
Proof. unfold get_device. destruct (pci_devices s !! d); [|done]. by intros [= <- <-]. Qed.
Lemma set_bars_bus d l s u s' : set_bars d l s = Ret (u, s') → bus s' = bus s.
Proof. intros (x & s1 & ->%get_device_inv & H2)%bind_Ret_inv. by eapply put_device_bus. Qed.
Lemma put_bar_bus d i e s u s' : put_bar d i e s = Ret (u, s') → bus s' = bus s.
Proof. intros (x & s1 & ->%get_device_inv & H2)%bind_Ret_inv. case_decide; [by eapply put_device_bus|done]. Qed.

Lemma probe_loop_bus cfg m d n i s ok s' :
  bar_bus cfg m → 0 ≤ i → loop n (probe_round cfg d) i s = Ret (ok, s') → same_bars cfg (bus s) (bus s').
Proof.
  intros HB. revert i s. induction n as [|n IH]; intros i s Hi; [done|]. cbn [loop].
  destruct (decide (i < 6)) as [H6|H6].
  - rewrite (probe_round_lt cfg d i H6), bind_assoc. intros (r & s1 & (b1 & Hb1 & ->)%on_bus_inv & H2)%bind_Ret_inv.
    apply (probe_slot_restores cfg m i _ _ _ HB ltac:(lia)) in Hb1. destruct r as [e|]; [|by injection H2 as <- <-].
    rewrite bind_assoc in H2. apply bind_Ret_inv in H2 as ([] & s2 & Hput & H2). rewrite bind_mret in H2.
    assert (Hs2 : bus s2 = b1).
    { destruct (bar_valid e); [by apply put_bar_bus in Hput|by injection Hput as <-]. }
    rewrite <-Hs2 in Hb1. apply (same_bars_trans _ _ _ _ Hb1). refine (IH _ _ _ H2). destruct (is_64 e); lia.
  - unfold probe_round. rewrite decide_False by done. intros [= <- <-]. by intros a.
Qed.

Lemma enumerate_run s dev :
  pci_inv s → 0 ≤ dev < 32 → pci_device_count s ≤ dev →
  let v := pcie_read16 (Z.shiftl dev PCIE_ECAH_DEV_SHIFT + VENDOR_OFFSET) (bus s) in
  ∃ s', enumerate_device dev s = Ret (tt, s') ∧ pci_inv s' ∧ bus s' = bus s ∧
    if decide (v = INVALID_ID) then s' = s
    else ∃ x, pci_device_count s' = pci_device_count s + 1 ∧ d_bus x = 0 ∧ d_dev x = dev ∧ d_func x = 0 ∧ d_vendor x = v ∧
      d_device x = pcie_read16 (Z.shiftl dev PCIE_ECAH_DEV_SHIFT + DEVICE_OFFSET) (bus s) ∧
      pci_devices s' = <[Z.to_nat (pci_device_count s) := x]> (pci_devices s).
Proof.
  intros HI Hd Hc v. pose proof (pv_count _ HI). unfold enumerate_device. rewrite bind_gets. fold v. case_decide; [by exists s|].
  rewrite bind_gets. destruct (lookup_lt_is_Some_2 (pci_devices s) (Z.to_nat (pci_device_count s))) as [y Hy];
    [rewrite (pv_len _ HI); unfold PCI_MAX_DEVICES; lia|].
  rewrite (bind_Ret _ _ s y s) by (unfold get_device; by rewrite Hy).
  set (x := mk_device _ _ _ _ _ _ _ _ _). eexists. split; [|split; [|split; [|exists x; split_and!]]].
  - rewrite (bind_Ret _ _ s tt (set_devices (<[Z.to_nat (pci_device_count s) := x]> (pci_devices s)) s))
      by (unfold put_device; by rewrite decide_True by (by eapply lookup_lt_Some)). done.
  - split; simpl; [rewrite length_insert; apply HI|rewrite u32_small by (unfold PCI_MAX_DEVICES in *; lia); unfold PCI_MAX_DEVICES in *; lia|].
    apply Forall_insert; [apply HI|]. simpl. by apply (Forall_lookup_1 _ _ _ _ (pv_bars _ HI) Hy).
  - done.
  - simpl. apply u32_small. unfold PCI_MAX_DEVICES in *. lia.
  - done.
  - done.
  - done.
  - done.
  - done.
  - done.
Qed.

(** * Theorems *)

(** C31: Whatever the registers of a device read, pci_probe_bar returns and
    leaves six well-formed BARs: a valid one has a nonzero power-of-two size
    its base is aligned to, a 64-bit one leaves the next slot empty; after a
    failure all six are cleared, and no other device changes. *)
Theorem pci_probe_bar_spec cfg s d x :
  pci_inv s → pci_devices s !! d = Some x →
  ∃ r s' l, pci_probe_bar cfg d s = Ret (r, s') ∧ pci_inv s' ∧
    pci_devices s' = <[d := with_bars l x]> (pci_devices s) ∧ pci_device_count s' = pci_device_count s ∧
    bars_ok l ∧ (r = 0 ∨ r = -1 ∧ l = zero_bars).
Proof.
  intros HI Hx. destruct (pci_probe_bar_run cfg s d x Hx) as (r & b & l & Hrun & Hl & Hr).
  exists r, (at_bars s d x b l), l. split_and!; [done|by apply at_bars_inv|done..].
Qed.

(** Probing writes all ones to the BARs and puts the old values back: on a
    device whose BARs behave as PCI says, every one of them reads the same
    before and after, whether the scan succeeds or fails. *)
Theorem pci_probe_bar_restores cfg m s d r s' :
  bar_bus cfg m → pci_probe_bar cfg d s = Ret (r, s') → same_bars cfg (bus s) (bus s').
Proof.
  intros HB (u & s1 & H1 & H2)%bind_Ret_inv. apply set_bars_bus in H1.
  apply bind_Ret_inv in H2 as (x & s2 & ->%get_device_inv & H2). rewrite <-H1. case_decide; [by injection H2 as <- <-|].
  apply bind_Ret_inv in H2 as (ok & s3 & H3 & H4). apply (probe_loop_bus cfg m d) in H3; [|done..].
  destruct ok; [by injection H4 as <- <-|]. apply bind_Ret_inv in H4 as (u' & s4 & H4 & H5).
  apply set_bars_bus in H4. injection H5 as <- <-. by rewrite H4.
Qed.

(** pci_memory_conflict returns 0 only when the range meets no assigned
    memory BAR but [self]; otherwise the address it returns is past the start
    of the range and is the end of a BAR that meets it (or the last address,
    for a BAR that ends at 2^64). *)
Theorem pci_memory_conflict_spec base size self s :
  pci_inv s → 0 ≤ base → 0 < size → base + size < 2 ^ 64 →
  let c := pci_memory_conflict base size self s in
  if decide (c = 0)
  then ∀ bar, active s self bar → apart base size (bar_base bar) (bar_size bar)
  else base < c ∧ ∃ bar, active s self bar ∧
    (bar_base bar + bar_size bar = 2 ^ 64 ∧ c = 2 ^ 64 - 1 ∨
     ¬ apart base size (bar_base bar) (bar_size bar) ∧ c = bar_base bar + bar_size bar).
Proof.
  intros HI Hb Hs He c. unfold c, pci_memory_conflict. clear c.
  assert (Hact : ∀ bar, active s self bar → match bar_conflict base size bar with
    | None => apart base size (bar_base bar) (bar_size bar)
    | Some e => base < e ∧ (bar_base bar + bar_size bar = 2 ^ 64 ∧ e = 2 ^ 64 - 1 ∨
        ¬ apart base size (bar_base bar) (bar_size bar) ∧ e = bar_base bar + bar_size bar)
    end).
  { intros bar Ha. destruct (active_bar_ok s self bar HI Ha) as (k & Hk & Hsz & _ & H0 & Hend).
    destruct Ha as (n & i & x & _ & _ & _ & _ & _ & Hv & Hio & Hne).
    apply bar_conflict_None; try done; lia. }
  destruct (find_first _ _) as [e|] eqn:Hf; [change (default 0 (Some e)) with e|change (default 0 None) with 0].
  - apply find_first_Some in Hf as (n & Hn%elem_of_seq & Hf). apply find_first_Some in Hf as (i & Hi%elem_of_seq & Hf).
    apply bind_Some in Hf as (x & Hx & Hf). apply bind_Some in Hf as (bar & Hbar & Hf). case_decide as Hself; [done|].
    assert (Ha : active s self bar).
    { unfold bar_conflict in Hf. destruct (negb (bar_valid bar) || is_io bar || bool_decide _) eqn:E; [done|].
      apply orb_false_iff in E as [[Hv%negb_false_iff Hio]%orb_false_iff Hne%bool_decide_eq_false].
      exists n, i, x. split_and!; [lia|lia|done..]. }
    specialize (Hact bar Ha). rewrite Hf in Hact. destruct Hact as [Hlt Hc].
    rewrite decide_False by lia. split; [done|]. by exists bar.
  - rewrite decide_True by done. intros bar (n & i & x & Hn & Hi & Hself & Hx & Hbar & Hrest).
    rewrite find_first_None in Hf. specialize (Hf n). rewrite elem_of_seq in Hf. specialize (Hf ltac:(lia)).
    rewrite find_first_None in Hf. specialize (Hf i). rewrite elem_of_seq in Hf. specialize (Hf ltac:(lia)).
    rewrite Hx in Hf. simpl in Hf. rewrite Hbar in Hf. simpl in Hf. rewrite decide_False in Hf by done.
    specialize (Hact bar). rewrite Hf in Hact. apply Hact. exists n, i, x. done.
Qed.

(** What enumeration reads of a device of bus 0. *)
Definition present (b : B) (dev : Z) : Prop :=
  pcie_read16 (Z.shiftl dev PCIE_ECAH_DEV_SHIFT + VENDOR_OFFSET) b ≠ INVALID_ID.
Definition ids (b : B) (dev : Z) : Z * Z * Z :=
  (dev, pcie_read16 (Z.shiftl dev PCIE_ECAH_DEV_SHIFT + VENDOR_OFFSET) b,
        pcie_read16 (Z.shiftl dev PCIE_ECAH_DEV_SHIFT + DEVICE_OFFSET) b).
Definition device_ids (x : pci_device) : Z * Z * Z := (d_dev x, d_vendor x, d_device x).

(** pcie_enumerate records exactly the devices of bus 0 that answer, in the
    order of their numbers, with the identifiers they read. *)
Theorem pcie_enumerate_spec s :
  pci_inv s →
  ∃ s', pcie_enumerate s = Ret (tt, s') ∧ pci_inv s' ∧ bus s' = bus s ∧
    device_ids <$> take (Z.to_nat (pci_device_count s')) (pci_devices s') =
    ids (bus s) <$> filter (present (bus s)) (seqZ 0 PCI_MAX_DEVICES).
Proof.
  intros HI. unfold pcie_enumerate. rewrite (bind_Ret _ _ s tt (set_count 0 s) eq_refl).
  assert (HI0 : pci_inv (set_count 0 s)) by (destruct HI; by split).
  destruct (forM_seq (λ j t, pci_inv t ∧ bus t = bus s ∧ pci_device_count t ≤ j ∧
      device_ids <$> take (Z.to_nat (pci_device_count t)) (pci_devices t) =
      ids (bus s) <$> filter (present (bus s)) (seqZ 0 j)) enumerate_device 0 PCI_MAX_DEVICES (set_count 0 s))
    as (s' & Hrun & H1 & H2 & _ & H3); [done| |done|by exists s'].
  intros j t Hj (HIt & Hbt & Hct & Heq). destruct (enumerate_run t j HIt Hj Hct) as (t' & Hrun & HI' & Hb' & Hcase).
  exists t'. split; [done|]. split; [done|]. split; [congruence|]. pose proof (pv_count _ HIt).
  assert (Hseq : seqZ 0 (j + 1) = seqZ 0 j ++ [j]) by (rewrite seqZ_app by lia; f_equal; by rewrite Z.add_0_l).
  rewrite Hseq, filter_app, fmap_app, <-Heq. rewrite Hbt in Hcase. case_decide as Hv.
  - subst t'. split; [lia|]. rewrite filter_cons_False by (by intros []). by rewrite filter_nil, app_nil_r.
  - destruct Hcase as (x & Hc & _ & Hd & _ & Hvd & Hdd & Hdev). rewrite Hc, Hdev. split; [lia|].
    rewrite filter_cons_True by done. rewrite filter_nil.
    replace (Z.to_nat (pci_device_count t + 1)) with (S (Z.to_nat (pci_device_count t))) by lia.
    assert (Hlt : (Z.to_nat (pci_device_count t) < length (pci_devices t))%nat) by (rewrite (pv_len _ HIt); lia).
    rewrite (take_S_r _ _ x) by (by apply list_lookup_insert_eq). rewrite take_insert_ge, fmap_app by lia. simpl.
    unfold device_ids at 2, ids. by rewrite Hd, Hvd, Hdd.
Qed.

End pci.

(** ** A concrete bus

    A map of 32-bit registers, each with its writable bits; device 1 has a
    4 KiB memory BAR in slot 0 and a 16 KiB 64-bit one in slots 4 and 5. *)

Definition demo_mask (a : Z) : Z :=
  if decide (a = 0x8004) then 0xffff else
  if decide (a = 0x8010) then 0xfffff000 else
  if decide (a = 0x8020) then 0xffffc000 else
  if decide (a = 0x8024) then 0xffffffff else 0.

Definition reg_read32 (a : Z) (b : gmap Z Z) : Z := u32 (default 0 (b !! a)).
Definition reg_part (k a : Z) (b : gmap Z Z) : Z := Z.shiftr (reg_read32 (a - a mod 4) b) (8 * (a mod 4)) mod 2 ^ k.
Definition reg_write32 (a v : Z) (b : gmap Z Z) : gmap Z Z :=
  <[a := Z.lor (Z.land v (demo_mask a)) (Z.land (reg_read32 a b) (not32 (demo_mask a)))]> b.

#[export] Instance demo_bus : PciBus (gmap Z Z).
Proof.
  refine {| pcie_read8 := reg_part 8; pcie_read16 := reg_part 16; pcie_read32 := reg_read32;
            pcie_write16 a v b := reg_write32 a v b; pcie_write32 := reg_write32 |}.
  - intros a b. apply Z.mod_pos_bound. lia.
  - intros a b. apply Z.mod_pos_bound. lia.
  - intros a b. apply u32_range.
Defined.

Definition demo_regs : gmap Z Z :=
  list_to_map ((λ d, (Z.shiftl d 15, 0xffffffff)) <$> seqZ 0 32) .
Definition demo_pci : pci_state (gmap Z Z) :=
  mk_pci (<[0x8000 := 0x10421af4]> (<[0x8004 := 0x3]> (<[0x8020 := 0x4]> demo_regs))) (replicate 32 device_zero) 0.

Lemma demo_pci_inv : pci_inv demo_pci.
Proof. split; [done|done|]. apply Forall_replicate, zero_bars_ok. Qed.

Lemma demo_bar_bus cfg : bar_bus cfg demo_mask.
Proof.
  assert (Hm : ∀ a, 0 ≤ demo_mask a < 2 ^ 32) by (intros a; unfold demo_mask; repeat case_decide; done).
  split; [done| |].
  - intros a v b _. simpl. unfold reg_write32, reg_read32 at 1. rewrite lookup_insert_eq. simpl. apply u32_small, lor_range; [lia| |].
    + rewrite Z.land_comm. destruct (Hm a). split; [by apply Z.land_nonneg; left|].
      apply bits_range; [lia|by apply Z.land_nonneg; left|]. intros i Hi. rewrite Z.land_spec, (testbit_high _ 32) by done. done.
    + apply land_range; [lia|apply u32_range|apply not32_range].
  - intros a a' v b _ _ Hne. simpl. unfold reg_write32, reg_read32 at 1. by rewrite lookup_insert_ne.
Qed.

Lemma pci_probe_bar_spec_witness :
  ∃ r s' l, pci_probe_bar 0x8000 1 demo_pci = Ret (r, s') ∧ pci_inv s' ∧ bars_ok l ∧ (r = 0 ∨ r = -1 ∧ l = zero_bars).
Proof.
  destruct (pci_probe_bar_spec 0x8000 demo_pci 1 device_zero demo_pci_inv eq_refl) as (r & s' & l & Hrun & HI & _ & _ & Hl & Hr).
  exists r, s', l. split; [exact Hrun|]. split; [exact HI|]. split; [exact Hl|exact Hr].
Defined.

Lemma pci_probe_bar_restores_witness :
  match pci_probe_bar 0x8000 1 demo_pci with Ret (_, s') => same_bars 0x8000 (bus demo_pci) (bus s') | _ => False end.
Proof.
  destruct (pci_probe_bar 0x8000 1 demo_pci) as [[r s']| | |] eqn:Hrun; [|vm_compute in Hrun; discriminate Hrun..].
  exact (pci_probe_bar_restores 0x8000 demo_mask demo_pci 1 r s' (demo_bar_bus 0x8000) Hrun).
Defined.

Lemma pci_memory_conflict_spec_witness :
  ∀ bar, active demo_pci (1, 0)%nat bar → apart 0x40000000 0x1000 (bar_base bar) (bar_size bar).
Proof.
  exact (pci_memory_conflict_spec 0x40000000 0x1000 (1, 0)%nat demo_pci demo_pci_inv ltac:(done) ltac:(done) ltac:(done)).
Defined.

Lemma pcie_enumerate_spec_witness :
  ∃ s', pcie_enumerate demo_pci = Ret (tt, s') ∧ pci_inv s' ∧
    device_ids <$> take (Z.to_nat (pci_device_count s')) (pci_devices s') = [(1, 0x1af4, 0x1042)].
Proof.
  destruct (pcie_enumerate_spec demo_pci demo_pci_inv) as (s' & Hrun & HI & _ & H). exists s'.
  split; [exact Hrun|]. split; [exact HI|]. rewrite H. vm_compute. reflexivity.
Defined.

(** The probe reads the sizes of the demonstration device. *)
Example demo_probe :
  match pci_probe_bar 0x8000 1 demo_pci with
  | Ret (r, s') => r = 0 ∧ (λ x, (λ e, (bar_size e, is_64 e, bar_valid e)) <$> bars x) <$> pci_devices s' !! 1%nat =
      Some [(0x1000, false, true); (0, false, false); (0, false, false); (0, false, false); (0x4000, true, true); (0, false, false)]
  | _ => False
  end.
Proof. vm_compute. done. Qed.
