(* ===== verification/PciAssign.v ===== *)
(** kernel/driver/pci_resource.c, pci_assign_memory_bars: addresses for the
    memory BARs of the block device, the kernel mapping of its VirtIO
    configuration pages, and the rollback of both.

    kvmmap_mmio_current for one page and the clearing of an entry found by
    walk_current (arch/loongarch/mm/vm.c) are the class [IoMap]: mapping a
    page adds it to the kernel's view or fails and changes nothing, and never
    replaces a page that is there.  [goto failed] is a value: the ranges
    mapped so far. *)
From Stdlib Require Import Sorted.
From S2P Require Import Prelude Pci.

(** platform/pcie_ecam.h, asm/machine.h (LoongArch) *)
Definition PCIE_ECAM_MMIO_PA : Z := 0x40000000.
Definition PCIE_ECAM_MMIO_RANGE : Z := 0x40000000.
Definition KERNEL_IO_BASE : Z := 0xffffffd000000000.
Definition window_end : Z := PCIE_ECAM_MMIO_PA + PCIE_ECAM_MMIO_RANGE.

(** include/driver/virtio_pci.h *)
Record virtio_pci_cap := mk_cap {
  cap_vndr : Z;
  cap_next : Z;
  cap_len : Z;
  cfg_type : Z;
  cap_bar : Z;
  cap_id : Z;
  cap_padding : Z * Z;
  cap_offset : Z;
  cap_length : Z
}.
Definition cap_zero : virtio_pci_cap := mk_cap 0 0 0 0 0 0 (0, 0) 0 0.

Record virtio_pci_regions := mk_regions {
  r_common : virtio_pci_cap;
  r_notify : virtio_pci_cap;
  r_isr : virtio_pci_cap;
  r_device : virtio_pci_cap;
  notify_off_multiplier : Z;
  r_valid : bool;
  r_mapped : bool;
  common_va : Z;
  notify_va : Z;
  isr_va : Z;
  device_va : Z
}.
Definition regions_zero : virtio_pci_regions :=
  mk_regions cap_zero cap_zero cap_zero cap_zero 0 false false 0 0 0 0.

Definition io_va (pa : Z) : Z := u64 (KERNEL_IO_BASE + pa).

Class IoMap (M : Type) := {
  io_map : Z → Z → K M Z;
  io_clear : Z → K M unit;
  io_view : M → gmap Z Z;
  io_map_run va pa m : ∃ r m', io_map va pa m = Ret (r, m') ∧
    (r = 0 ∧ io_view m !! va = None ∧ io_view m' = <[va := pa]> (io_view m) ∨ r = -1 ∧ io_view m' = io_view m);
  io_clear_run va m : ∃ m', io_clear va m = Ret (tt, m') ∧ io_view m' = delete va (io_view m)
}.

Record as_state (B M : Type) := mk_as {
  as_pci : pci_state B;
  regions : virtio_pci_regions;
  kmap : M
}.
Arguments mk_as {_ _} _ _ _.
Arguments as_pci {_ _} _.
Arguments regions {_ _} _.
Arguments kmap {_ _} _.

Section assign.
Context {B : Type} {PB : PciBus B} {M : Type} {IM : IoMap M}.
Abbreviation st := (as_state B M).

Definition set_as_pci p (s : st) : st := mk_as p (regions s) (kmap s).
Definition set_regions r (s : st) : st := mk_as (as_pci s) r (kmap s).
Definition set_kmap m (s : st) : st := mk_as (as_pci s) (regions s) m.
Definition on_pci {A} (m : K (pci_state B) A) : K st A := zoom as_pci set_as_pci m.
Definition on_cfg {A} (m : K B A) : K st A := on_pci (on_bus m).
Definition on_kmap {A} (m : K M A) : K st A := zoom kmap set_kmap m.

(** [device->bars[i]] *)
Definition get_bar (d : nat) (i : Z) : K (pci_state B) pci_bar :=
  x ← get_device d;
  match bars x !! Z.to_nat i with Some e => mret e | None => kfault end.
Definition with_base (base : Z) (e : pci_bar) : pci_bar :=
  mk_bar base (bar_size e) (bar_valid e) (is_io e) (is_64 e) (prefetchable e).
Definition set_base (d : nat) (i base : Z) : K (pci_state B) unit :=
  e ← get_bar d i; put_bar d i (with_base base e).

Definition caps (r : virtio_pci_regions) : list virtio_pci_cap := [r_common r; r_notify r; r_isr r; r_device r].

(** ** Addresses for the BARs *)

(** The preassigned BARs: [Some tt] is [goto failed]. *)
Definition validate_bar (d : nat) (i : Z) : K (pci_state B) (option unit) :=
  bar ← get_bar d i;
  if negb (bar_valid bar) || is_io bar then mret None else
  if decide (bar_size bar = 0 ∨ Z.land (bar_size bar) (u64 (bar_size bar - 1)) ≠ 0 ∨
             bar_size bar > PCIE_ECAM_MMIO_RANGE) then mret (Some tt) else
  conflict ← gets (pci_memory_conflict (bar_base bar) (bar_size bar) (d, Z.to_nat i));
  if decide (bar_base bar ≠ 0 ∧
             (bar_base bar < PCIE_ECAM_MMIO_PA ∨ bar_base bar >= window_end ∨
              bar_size bar > u64 (window_end - bar_base bar) ∨
              Z.land (bar_base bar) (u64 (bar_size bar - 1)) ≠ 0 ∨ conflict ≠ 0))
  then mret (Some tt) else mret None.

(** One round of the search for an address. *)
Definition candidate_round (d : nat) (i size align candidate : Z) : K (pci_state B) (Z + option Z) :=
  if decide (candidate > window_end) then mret (inr None) else
  let candidate := Z.land (u64 (candidate + align - 1)) (Z.lnot (align - 1)) in
  if decide (candidate >= window_end ∨ size > u64 (window_end - candidate)) then mret (inr None) else
  conflict ← gets (pci_memory_conflict candidate size (d, Z.to_nat i));
  if decide (conflict = 0) then mret (inr (Some candidate)) else mret (inl conflict).

(** A round moves the candidate up by a page or more. *)
Definition candidate_fuel : nat := Z.to_nat (PCIE_ECAM_MMIO_RANGE / PGSIZE + 2).

Definition allocate_bar (cfg : Z) (d : nat) (old_raw : list Z) (i : Z) : K (pci_state B) (option unit) :=
  bar ← get_bar d i;
  if negb (bar_valid bar) || is_io bar || bool_decide (bar_base bar ≠ 0) then mret None else
  let align := if decide (bar_size bar > PGSIZE) then bar_size bar else PGSIZE in
  c ← loop candidate_fuel (candidate_round d i (bar_size bar) align) PCIE_ECAM_MMIO_PA;
  match c with
  | None => mret (Some tt)
  | Some candidate =>
      set_base d i candidate ;;
      let reg := cfg + BAR_OFFSET + i * 4 in
      on_bus (modify (pcie_write32 reg (Z.lor (u32 candidate) (Z.land (default 0 (old_raw !! Z.to_nat i)) 0xf)))) ;;
      (if is_64 bar then on_bus (modify (pcie_write32 (reg + 4) (u32 (Z.shiftr candidate 32)))) else mret tt) ;;
      low ← on_bus (gets (pcie_read32 reg));
      high ← (if is_64 bar then on_bus (gets (pcie_read32 (reg + 4))) else mret 0);
      let readback := Z.lor (Z.land low (not32 0xf)) (Z.shiftl high 32) in
      if decide (readback ≠ candidate) then mret (Some tt) else mret None
  end.

(** ** The pages of the four regions *)

Definition cap_range (l : list pci_bar) (c : virtio_pci_cap) : option (Z * Z) :=
  bar ← l !! Z.to_nat (cap_bar c);
  if decide (cap_offset c > bar_size bar ∨ cap_length c = 0 ∨ cap_length c > u64 (bar_size bar - cap_offset c)) then None else
  let pa := u64 (bar_base bar + cap_offset c) in
  Some (PGROUNDDOWN pa, PGROUNDUP (u64 (pa + cap_length c))).

(** The exchange sort on the starts. *)
Definition swap_if (l : list (Z * Z)) (i j : nat) : list (Z * Z) :=
  match l !! i, l !! j with
  | Some a, Some b => if decide (b.1 < a.1) then <[i := b]> (<[j := a]> l) else l
  | _, _ => l
  end.
Definition sort_ranges (l : list (Z * Z)) : list (Z * Z) :=
  foldl (λ l i, foldl (λ l j, swap_if l i j) l (seq (i + 1) (3 - i))) l (seq 0 4).

(** A range that starts inside or right after the last one is merged into it. *)
Definition merge_step (acc : list (Z * Z)) (r : Z * Z) : list (Z * Z) :=
  match last acc with
  | Some p => if decide (r.1 ≤ p.2)
              then if decide (r.2 > p.2) then <[(length acc - 1)%nat := (p.1, r.2)]> acc else acc
              else acc ++ [r]
  | None => acc ++ [r]
  end.
Definition merge_ranges (l : list (Z * Z)) : list (Z * Z) := foldl merge_step [] l.

(** ** Mapping *)

(** The pages of one range; the result is whether all are mapped, and where
    the mapping ends. *)
Fixpoint map_pages (n : nat) (pa end_ : Z) : K M (bool * Z) :=
  if decide (pa < end_) then
    match n with
    | O => λ _, NoFuel
    | S n =>
        r ← io_map (io_va pa) pa;
        if decide (r < 0) then mret (false, pa) else map_pages n (u64 (pa + PGSIZE)) end_
    end
  else mret (true, pa).

(** A range with the end of its mapped part. *)
Abbreviation mrange := (Z * Z * Z)%type.
Fixpoint map_ranges (l : list (Z * Z)) : K M (bool * list mrange) :=
  match l with
  | [] => mret (true, [])
  | (start_, end_) :: l =>
      '(ok, mapped_end) ← map_pages (Z.to_nat ((end_ - start_) / PGSIZE)) start_ end_;
      if ok : bool then
        '(ok', l') ← map_ranges l;
        mret (ok', (start_, end_, mapped_end) :: l')
      else mret (false, (start_, end_, mapped_end) :: ((λ x, (x.1, x.2, x.1)) <$> l))
  end.

Fixpoint unmap_pages (n : nat) (pa end_ : Z) : K M unit :=
  if decide (pa < end_) then
    match n with O => λ _, NoFuel | S n => io_clear (io_va pa) ;; unmap_pages n (u64 (pa + PGSIZE)) end_ end
  else mret tt.
Definition unmap_ranges (l : list mrange) : K M unit :=
  forM l (λ x, unmap_pages (Z.to_nat ((x.2 - x.1.1) / PGSIZE)) x.1.1 x.2).

(** ** The whole operation *)

Definition region_va (l : list pci_bar) (c : virtio_pci_cap) : Z :=
  u64 (KERNEL_IO_BASE + default 0 (bar_base <$> l !! Z.to_nat (cap_bar c)) + cap_offset c).

(** From the validation on: [Some l] is [goto failed] with the ranges [l]. *)
Definition assign_body (cfg saved : Z) (d : nat) (old_raw : list Z) : K st (option (list mrange)) :=
  v ← on_pci (for_find (seqZ 0 6) (validate_bar d));
  if decide (v ≠ None) then mret (Some []) else
  a ← on_pci (for_find (seqZ 0 6) (allocate_bar cfg d old_raw));
  if decide (a ≠ None) then mret (Some []) else
  x ← on_pci (get_device d);
  r ← gets regions;
  match mapM (cap_range (bars x)) (caps r) with
  | None => mret (Some [])
  | Some rs =>
      '(ok, l) ← on_kmap (map_ranges (merge_ranges (sort_ranges rs)));
      if negb ok then mret (Some l) else
      on_cfg (modify (pcie_write16 (cfg + COMMAND_OFFSET) (Z.lor saved PCI_COMMAND_MEMORY))) ;;
      now ← on_cfg (gets (pcie_read16 (cfg + COMMAND_OFFSET)));
      if decide (now ≠ Z.lor saved PCI_COMMAND_MEMORY) then mret (Some l) else
      modify (set_regions (mk_regions (r_common r) (r_notify r) (r_isr r) (r_device r) (notify_off_multiplier r) (r_valid r) true
        (region_va (bars x) (r_common r)) (region_va (bars x) (r_notify r))
        (region_va (bars x) (r_isr r)) (region_va (bars x) (r_device r)))) ;;
      mret None
  end.

(** The label [failed]. *)
Definition assign_rollback (cfg saved : Z) (d : nat) (old_base old_raw : list Z) (ranges : list mrange) : K st Z :=
  on_cfg (modify (pcie_write16 (cfg + COMMAND_OFFSET) (u16 (Z.land saved (not32 PCI_DECODE))))) ;;
  now ← on_cfg (gets (pcie_read16 (cfg + COMMAND_OFFSET)));
  if has now PCI_DECODE then mret (-1) else
  on_kmap (unmap_ranges ranges) ;;
  on_pci (forM (seqZ 0 6) (λ i,
    on_bus (modify (pcie_write32 (cfg + BAR_OFFSET + i * 4) (default 0 (old_raw !! Z.to_nat i)))) ;;
    set_base d i (default 0 (old_base !! Z.to_nat i)))) ;;
  b ← on_cfg (gets id);
  if decide (Forall (λ i, pcie_read32 (cfg + BAR_OFFSET + i * 4) b = default 0 (old_raw !! Z.to_nat i)) (seqZ 0 6)) then
    on_cfg (pci_restore_command saved cfg) ;; mret (-1)
  else mret (-1).

Definition cap_mem (l : list pci_bar) (c : virtio_pci_cap) : Prop :=
  cap_bar c < 6 ∧ match l !! Z.to_nat (cap_bar c) with Some e => bar_valid e = true ∧ is_io e = false | None => False end.
#[global] Instance cap_mem_dec l c : Decision (cap_mem l c).
Proof. unfold cap_mem. destruct (l !! Z.to_nat (cap_bar c)); apply _. Defined.

Definition pci_assign_memory_bars (d : nat) : K st Z :=
  r ← gets regions;
  x ← on_pci (get_device d);
  let cfg := pci_cfg_addr x in
  if negb (r_valid r) then mret (-1) else
  if r_mapped r then mret 0 else
  if decide (¬ Forall (cap_mem (bars x)) (caps r)) then mret (-1) else
  c ← on_pci (pci_collect_resources d);
  if decide (c < 0) then mret (-1) else
  dis ← on_cfg (pci_disable_decoding cfg);
  match dis with
  | None => mret (-1)
  | Some saved =>
      x ← on_pci (get_device d);
      let old_base := bar_base <$> bars x in
      b ← on_cfg (gets id);
      let old_raw := (λ i, pcie_read32 (cfg + BAR_OFFSET + i * 4) b) <$> seqZ 0 6 in
      f ← assign_body cfg saved d old_raw;
      match f with
      | None => mret 0
      | Some ranges => assign_rollback cfg saved d old_base old_raw ranges
      end
  end.

(** ** What assignment promises *)

(** The memory BAR [e] in slot [i] of device [d] has its place in the window. *)
Definition placed (p : pci_state B) (d i : nat) (e : pci_bar) : Prop :=
  PCIE_ECAM_MMIO_PA ≤ bar_base e ∧ bar_base e + bar_size e ≤ window_end ∧ bar_base e mod bar_size e = 0 ∧
  ∀ bar, active p (d, i) bar → apart (bar_base e) (bar_size e) (bar_base bar) (bar_size bar).

(** Every BAR of [l] that has an address is placed, and the first [n] memory
    BARs have one. *)
Definition placed_upto (p : pci_state B) (d : nat) (l : list pci_bar) (n : Z) : Prop :=
  ∀ i e, l !! i = Some e → bar_valid e = true → is_io e = false →
    (bar_base e ≠ 0 → placed p d i e) ∧ (Z.of_nat i < n → bar_base e ≠ 0).

(** * Lemmas *)

(** ** Devices and BARs *)

Lemma at_bars_id (p : pci_state B) d x : pci_devices p !! d = Some x → at_bars p d x (bus p) (bars x) = p.
Proof.
  intros Hx. unfold at_bars. destruct p as [b l n]. simpl in *. f_equal.
  replace (with_bars (bars x) x) with x by (by destruct x). by apply list_insert_id.
Qed.

Lemma get_bar_run (p : pci_state B) d x b l i e : (d < length (pci_devices p))%nat → l !! Z.to_nat i = Some e →
  get_bar d i (at_bars p d x b l) = Ret (e, at_bars p d x b l).
Proof.
  intros Hd He. unfold get_bar. rewrite (bind_Ret _ _ _ _ _ (at_bars_get p d x b l Hd)). simpl. by rewrite He.
Qed.

Lemma set_base_run (p : pci_state B) d x b l i e base : (d < length (pci_devices p))%nat → 0 ≤ i < 6 → l !! Z.to_nat i = Some e →
  set_base d i base (at_bars p d x b l) = Ret (tt, at_bars p d x b (<[Z.to_nat i := with_base base e]> l)).
Proof.
  intros Hd Hi He. unfold set_base. rewrite (bind_Ret _ _ _ _ _ (get_bar_run p d x b l i e Hd He)).
  exact (put_bar_run p d x b l i _ Hd Hi).
Qed.

(** The BARs of device [d] and those of the others. *)
Lemma active_at_bars (p : pci_state B) d x b l self bar :
  (d < length (pci_devices p))%nat → length l = 6%nat →
  active (at_bars p d x b l) self bar ↔
  (∃ n i y, (n < Z.to_nat (pci_device_count p))%nat ∧ (i < 6)%nat ∧ n ≠ d ∧ (n, i) ≠ self ∧
     pci_devices p !! n = Some y ∧ bars y !! i = Some bar ∧ bar_valid bar = true ∧ is_io bar = false ∧ bar_base bar ≠ 0) ∨
  ((d < Z.to_nat (pci_device_count p))%nat ∧ ∃ i, (d, i) ≠ self ∧ l !! i = Some bar ∧
     bar_valid bar = true ∧ is_io bar = false ∧ bar_base bar ≠ 0).
Proof.
  intros Hd Hl. unfold active. simpl. split.
  - intros (n & i & y & Hn & Hi & Hs & Hy & Hb & Hrest). destruct (decide (n = d)) as [->|Hne].
    + right. rewrite list_lookup_insert_eq in Hy by done. injection Hy as <-. split; [done|]. by exists i.
    + left. rewrite list_lookup_insert_ne in Hy by done. exists n, i, y. done.
  - intros [(n & i & y & Hn & Hi & Hne & Hs & Hy & Hrest)|(Hc & i & Hs & Hi & Hrest)].
    + exists n, i, y. by rewrite list_lookup_insert_ne.
    + exists d, i, (with_bars l x). rewrite list_lookup_insert_eq by done.
      pose proof (lookup_lt_Some _ _ _ Hi). split_and!; [done|lia|done..|apply Hrest|apply Hrest|apply Hrest].
Qed.

Lemma bars_ok_lookup l i e : bars_ok l → l !! i = Some e → bar_valid e = true → is_io e = false →
  ∃ k, 0 ≤ k ∧ bar_size e = 2 ^ k ∧ bar_base e mod 2 ^ k = 0 ∧ 0 ≤ bar_base e ∧ bar_base e + bar_size e ≤ 2 ^ 64.
Proof.
  intros Hl Hi Hv Hio. destruct (Forall_lookup_1 _ _ _ _ (bo_all _ Hl) Hi Hv) as (k & Hk & Hs & Ha & H0 & He & _).
  exists k. split_and!; [lia|done|done|done|]. destruct (is_64 e); lia.
Qed.

(** A new address in the window keeps the BARs well formed. *)
Lemma bars_ok_base l i e base :
  bars_ok l → l !! i = Some e → bar_valid e = true → 0 ≤ base → base mod bar_size e = 0 → base + bar_size e ≤ 2 ^ 32 →
  bars_ok (<[i := with_base base e]> l).
Proof.
  intros [H1 H2 H3] Hi Hv H0 Ha He. pose proof (lookup_lt_Some _ _ _ Hi) as Hlt.
  destruct (Forall_lookup_1 _ _ _ _ H2 Hi Hv) as (k & Hk & Hs & _ & _ & _ & Hio).
  split; [by rewrite length_insert| |].
  - apply Forall_insert; [done|]. intros _. exists k. simpl. rewrite Hs in Ha. split_and!; try done; try lia. destruct (is_64 e); lia.
  - intros j e' Hj Hv' Hw. rewrite list_lookup_insert in Hj. case_decide as Hc.
    + destruct Hc as [<- _]. injection Hj as <-. destruct (H3 i e Hi Hv Hw) as [? Hz].
      split; [done|]. by rewrite list_lookup_insert_ne by lia.
    + destruct (H3 j e' Hj Hv' Hw) as [? Hz]. split; [done|]. destruct (decide (S j = i)) as [<-|Hne].
      * rewrite Hi in Hz. injection Hz as ->. done.
      * by rewrite list_lookup_insert_ne by lia.
Qed.

(** ** The search for an address *)

Lemma align_up_pow2 c k : 0 ≤ k → 0 ≤ c → c + 2 ^ k - 1 < 2 ^ 64 →
  let c' := Z.land (u64 (c + 2 ^ k - 1)) (Z.lnot (2 ^ k - 1)) in c ≤ c' < c + 2 ^ k ∧ c' mod 2 ^ k = 0.
Proof.
  intros Hk Hc Hb. cbv zeta. rewrite land_lnot_ones, u64_small by lia. rewrite Z.mod_mul by lia. split; [|done].
  pose proof (Z.div_mod (c + 2 ^ k - 1) (2 ^ k) ltac:(lia)). pose proof (Z.mod_pos_bound (c + 2 ^ k - 1) (2 ^ k) ltac:(lia)). lia.
Qed.

Lemma candidate_loop_run (p : pci_state B) d i size j n c :
  pci_inv p → 12 ≤ j ≤ 30 → size ≤ 2 ^ j → 0 < size → PCIE_ECAM_MMIO_PA ≤ c →
  window_end / 4096 - (c + 4095) / 4096 + 2 ≤ Z.of_nat n → (1 ≤ n)%nat →
  ∃ r, loop n (candidate_round d i size (2 ^ j)) c p = Ret (r, p) ∧
    match r with
    | None => True
    | Some a => PCIE_ECAM_MMIO_PA ≤ a ∧ a + size ≤ window_end ∧ a mod 2 ^ j = 0 ∧
        ∀ bar, active p (d, Z.to_nat i) bar → apart a size (bar_base bar) (bar_size bar)
    end.
Proof.
  intros HI Hj Hsz Hs0. revert c. induction n as [|n IH]; intros c Hc Hfuel H1; [lia|].
  assert (H2j : 2 ^ 12 ≤ 2 ^ j ≤ 2 ^ 30) by (split; apply Z.pow_le_mono_r; lia).
  cbn [loop]. destruct (decide (c > window_end)) as [Hbig|Hbig].
  { exists None. unfold candidate_round. by rewrite decide_True. }
  destruct (align_up_pow2 c j) as [Hr Hal]; [lia|unfold PCIE_ECAM_MMIO_PA in *; lia|unfold window_end, PCIE_ECAM_MMIO_PA, PCIE_ECAM_MMIO_RANGE in *; lia|].
  set (c' := Z.land _ _) in Hr, Hal.
  destruct (decide (c' >= window_end ∨ size > u64 (window_end - c'))) as [Hfull|Hfull].
  { exists None. unfold candidate_round. rewrite decide_False by done. fold c'. by rewrite decide_True. }
  unfold window_end, PCIE_ECAM_MMIO_PA, PCIE_ECAM_MMIO_RANGE in *. rewrite u64_small in Hfull by lia.
  pose proof (pci_memory_conflict_spec c' size (d, Z.to_nat i) p HI ltac:(lia) ltac:(lia) ltac:(lia)) as Hcon.
  cbv zeta in Hcon. set (e := pci_memory_conflict _ _ _ _) in Hcon.
  assert (Hround : candidate_round d i size (2 ^ j) c p = Ret (if decide (e = 0) then inr (Some c') else inl e, p)).
  { unfold candidate_round, window_end, PCIE_ECAM_MMIO_PA, PCIE_ECAM_MMIO_RANGE. rewrite decide_False by done. fold c'.
    rewrite decide_False by (rewrite u64_small by lia; lia). rewrite bind_gets. fold e. by case_decide. }
  rewrite (bind_Ret _ _ _ _ _ Hround). destruct (decide (e = 0)) as [He|He].
  - exists (Some c'). split; [done|]. split_and!; [lia|lia|done|done].
  - destruct Hcon as [Hlt _].
    assert (Hc4 : c' mod 4096 = 0).
    { replace (2 ^ j) with (2 ^ (j - 12) * 4096) in Hal by (change 4096 with (2 ^ 12); rewrite <-Z.pow_add_r by lia; f_equal; lia).
      pose proof (Z.div_mod c' (2 ^ (j - 12) * 4096) ltac:(lia)) as Hd. rewrite Hal in Hd.
      rewrite Hd, Z.add_0_r, <-Z.mul_assoc, (Z.mul_comm 4096), Z.mul_assoc. by rewrite Z.mod_mul. }
    change ((0x40000000 + 0x40000000) / 4096) with 524288 in *.
    assert ((c + 4095) / 4096 + 1 ≤ (e + 4095) / 4096 ∧ (c + 4095) / 4096 ≤ 524288).
    { split; [|apply (Z.div_le_mono _ 2147487743 4096); lia].
      pose proof (Z.div_mod c' 4096 ltac:(lia)). assert ((c + 4095) / 4096 ≤ c' / 4096).
      { apply Z.lt_succ_r, Z.div_lt_upper_bound; lia. }
      assert (c' / 4096 + 1 ≤ (e + 4095) / 4096) by (apply Z.div_le_lower_bound; lia). lia. }
    apply IH; [lia|lia|lia].
Qed.

(** A BAR that passes the validation: it fits the window, and is placed if it
    has an address. *)
Definition validated (p : pci_state B) (d : nat) (l : list pci_bar) (n : Z) : Prop :=
  ∀ i e, l !! i = Some e → Z.of_nat i < n → bar_valid e = true → is_io e = false →
    bar_size e ≤ PCIE_ECAM_MMIO_RANGE ∧ (bar_base e ≠ 0 → placed p d i e).

Lemma validate_bar_run (p : pci_state B) d x b l i e :
  let q := at_bars p d x b l in
  pci_inv q → (d < length (pci_devices p))%nat → bars_ok l → 0 ≤ i < 6 → l !! Z.to_nat i = Some e →
  ∃ r, validate_bar d i q = Ret (r, q) ∧
    (r = None → bar_valid e = true → is_io e = false →
      bar_size e ≤ PCIE_ECAM_MMIO_RANGE ∧ (bar_base e ≠ 0 → placed q d (Z.to_nat i) e)).
Proof.
  intros q HI Hd Hl Hi He. unfold validate_bar. rewrite (bind_Ret _ _ _ _ _ (get_bar_run p d x b l i e Hd He)).
  destruct (bar_valid e) eqn:Hv; [|by exists None]. destruct (is_io e) eqn:Hio; [by exists None|]. simpl.
  destruct (bars_ok_lookup l _ e Hl He Hv Hio) as (k & Hk & Hs & Ha & H0 & Hend).
  case_decide as Hsz; [by exists (Some tt)|]. rewrite bind_gets. case_decide as Hbad; [by exists (Some tt)|].
  exists None. split; [done|]. intros _ _ _. split; [lia|]. intros Hb.
  assert (Hp : 0 < bar_size e) by (rewrite Hs; lia). rewrite (u64_small (bar_size e - 1)) in Hbad by lia.
  unfold placed, window_end, PCIE_ECAM_MMIO_PA, PCIE_ECAM_MMIO_RANGE in *.
  assert (Hwin : bar_base e + bar_size e ≤ 0x40000000 + 0x40000000 ∧ 0x40000000 ≤ bar_base e).
  { destruct (decide (bar_base e < 0x40000000)); [tauto|]. destruct (decide (bar_base e >= 0x40000000 + 0x40000000)); [tauto|].
    rewrite u64_small in Hbad by lia. split; [|lia]. destruct (decide (bar_size e > 0x40000000 + 0x40000000 - bar_base e)); [tauto|lia]. }
  split_and!; [lia|lia|by rewrite Hs|].
  pose proof (pci_memory_conflict_spec (bar_base e) (bar_size e) (d, Z.to_nat i) q HI ltac:(lia) ltac:(lia) ltac:(lia)) as Hc.
  cbv zeta in Hc. case_decide; [done|tauto].
Qed.

Lemma validate_run (p : pci_state B) d x b l :
  let q := at_bars p d x b l in
  pci_inv q → (d < length (pci_devices p))%nat → bars_ok l →
  ∃ r, for_find (seqZ 0 6) (validate_bar d) q = Ret (r, q) ∧ (r = None → validated q d l 6).
Proof.
  intros q HI Hd Hl.
  destruct (for_find_seq (λ n t, t = q ∧ validated q d l n) (λ _ t, t = q) (validate_bar d) 0 6 q) as (r & s' & Hrun & Hr).
  - lia.
  - intros i t Hi [-> HV]. destruct (lookup_lt_is_Some_2 l (Z.to_nat i)) as [e He]; [rewrite (bo_len _ Hl); lia|].
    destruct (validate_bar_run p d x b l i e HI Hd Hl Hi He) as (r & Hrun & Hr). exists r, q. split; [done|].
    destruct r as [[]|]; [done|]. split; [done|]. intros j e' Hj Hlt Hv Hio.
    destruct (decide (j = Z.to_nat i)) as [->|Hne]; [|apply (HV j e'); [done|lia|done..]]. simplify_eq. by apply Hr.
  - split; [done|]. intros j e _ Hlt. lia.
  - exists r. destruct r as [[]|]; [subst s'; by split|]. destruct Hr as [-> HV]. split; [done|]. by intros _.
Qed.

(** ** Assigning one BAR *)

Lemma apart_sym a s a' s' : apart a s a' s' → apart a' s' a s.
Proof. unfold apart. tauto. Qed.

(** BAR [i], which had no address, gets [c], clear of every assigned BAR: the
    others stay placed. *)
Lemma placed_insert (p : pci_state B) d x b b' l i e c n :
  let q := at_bars p d x b l in
  let l' := <[Z.to_nat i := with_base c e]> l in
  (d < length (pci_devices p))%nat → length l = 6%nat → (d < Z.to_nat (pci_device_count p))%nat →
  0 ≤ i < 6 → l !! Z.to_nat i = Some e → bar_valid e = true → is_io e = false → bar_base e = 0 → c ≠ 0 →
  placed_upto q d l n → PCIE_ECAM_MMIO_PA ≤ c → c + bar_size e ≤ window_end → c mod bar_size e = 0 →
  (∀ bar, active q (d, Z.to_nat i) bar → apart c (bar_size e) (bar_base bar) (bar_size bar)) →
  placed_upto (at_bars p d x b' l') d l' (if decide (n = i) then i + 1 else n).
Proof.
  intros q l' Hd Hl Hdc Hi He Hv Hio Hb0 Hc0 HP Hc1 Hc2 Hc3 Hfree.
  assert (Hl' : length l' = 6%nat) by (unfold l'; by rewrite length_insert).
  assert (Hlt := lookup_lt_Some _ _ _ He).
  (* the assigned BARs afterwards are those of before and BAR i *)
  assert (Hact : ∀ self bar, active (at_bars p d x b' l') self bar →
    bar = with_base c e ∧ self ≠ (d, Z.to_nat i) ∨ active q self bar ∧ (active q (d, Z.to_nat i) bar)).
  { intros self bar. rewrite (active_at_bars p d x b' l') by done. unfold q. rewrite !(active_at_bars p d x b l) by done.
    intros [(m & j & y & Hm & Hj & Hmd & Hs & Hrest)|(_ & j & Hs & Hj & Hrest)].
    - right. split; left; exists m, j, y; [done|]. split_and!; try done; try apply Hrest. congruence.
    - unfold l' in Hj. destruct (decide (j = Z.to_nat i)) as [->|Hne].
      + left. rewrite list_lookup_insert_eq in Hj by done. split; congruence.
      + right. rewrite list_lookup_insert_ne in Hj by done. split; right; (split; [done|]); exists j; [done|].
        split; [congruence|done]. }
  intros j f Hj Hvf Hif. unfold l' in Hj. destruct (decide (j = Z.to_nat i)) as [->|Hne].
  - rewrite list_lookup_insert_eq in Hj by done. injection Hj as <-. simpl. split; [intros _|done].
    split_and!; [done..|]. simpl. intros bar [[_ Hs]|[_ Ha]]%Hact; [done|]. by apply Hfree.
  - rewrite list_lookup_insert_ne in Hj by done. destruct (HP j f Hj Hvf Hif) as [H1 H2]. split.
    + intros Hf0. destruct (H1 Hf0) as (W1 & W2 & W3 & W4). split_and!; [done..|].
      intros bar [[-> _]|[Ha _]]%Hact; [|by apply W4]. simpl. apply apart_sym, Hfree.
      apply (active_at_bars p d x b l); [done..|]. right. split; [done|]. exists j. split; [congruence|done].
    + intros Hlt'. apply H2. case_decide; [|done]. lia.
Qed.

(** The BARs differ in their addresses at most. *)
Definition same_shape (l l' : list pci_bar) : Prop := with_base 0 <$> l' = with_base 0 <$> l.

Lemma same_shape_insert l0 l i e c : same_shape l0 l → l !! i = Some e → same_shape l0 (<[i := with_base c e]> l).
Proof.
  unfold same_shape. intros <- Hi. rewrite list_fmap_insert. apply list_insert_id. rewrite list_lookup_fmap, Hi. done.
Qed.

(** Sizes up to that of the window. *)
Definition fits (l : list pci_bar) : Prop :=
  ∀ i e, l !! i = Some e → bar_valid e = true → is_io e = false → bar_size e ≤ PCIE_ECAM_MMIO_RANGE.

Lemma fits_insert l i e c : fits l → l !! i = Some e → fits (<[i := with_base c e]> l).
Proof.
  intros HF Hi j e' Hj Hv Hio. rewrite list_lookup_insert in Hj. case_decide as Hc; [|by apply (HF j)].
  injection Hj as <-. by apply (HF i e).
Qed.

Lemma candidate_fuel_enough :
  window_end / 4096 - (PCIE_ECAM_MMIO_PA + 4095) / 4096 + 2 ≤ Z.of_nat candidate_fuel ∧ (1 ≤ candidate_fuel)%nat.
Proof.
  assert (H : Z.of_nat candidate_fuel = 262146) by (unfold candidate_fuel; by rewrite Z2Nat.id).
  split; [|lia]. rewrite H. unfold window_end, PCIE_ECAM_MMIO_PA, PCIE_ECAM_MMIO_RANGE.
  change ((0x40000000 + 0x40000000) / 4096) with 524288. change ((0x40000000 + 4095) / 4096) with 262144. lia.
Qed.

Lemma allocate_bar_run (p : pci_state B) cfg d x b l raw i l0 :
  let q := at_bars p d x b l in
  pci_inv q → (d < length (pci_devices p))%nat → (d < Z.to_nat (pci_device_count p))%nat → bars_ok l → fits l →
  same_shape l0 l → placed_upto q d l i → 0 ≤ i < 6 →
  ∃ r b' l', allocate_bar cfg d raw i q = Ret (r, at_bars p d x b' l') ∧
    bars_ok l' ∧ fits l' ∧ same_shape l0 l' ∧ (r = None → placed_upto (at_bars p d x b' l') d l' (i + 1)).
Proof.
  intros q HI Hd Hdc Hl HF HS HP Hi. destruct (lookup_lt_is_Some_2 l (Z.to_nat i)) as [e He]; [rewrite (bo_len _ Hl); lia|].
  unfold allocate_bar. rewrite (bind_Ret _ _ _ _ _ (get_bar_run p d x b l i e Hd He)).
  assert (Hskip : (bar_valid e = true → is_io e = false → bar_base e ≠ 0) → placed_upto q d l (i + 1)).
  { intros Hsk j f Hj Hv Hio. destruct (HP j f Hj Hv Hio) as [H1 H2]. split; [done|]. intros Hlt.
    destruct (decide (j = Z.to_nat i)) as [->|Hne]; [|apply H2; lia]. simplify_eq. auto. }
  destruct (bar_valid e) eqn:Hv; [|exists None, b, l; split_and!; try done; intros _; by apply Hskip].
  destruct (is_io e) eqn:Hio; [exists None, b, l; split_and!; try done; intros _; by apply Hskip|]. cbn [negb orb].
  case_bool_decide as Hb0; [exists None, b, l; split_and!; try done; intros _; by apply Hskip|].
  assert (H0 : bar_base e = 0) by (destruct (decide (bar_base e = 0)); tauto).
  destruct (bars_ok_lookup l _ e Hl He Hv Hio) as (k & Hk & Hs & _ & _ & _). pose proof (HF _ e He Hv Hio) as Hfit.
  unfold PCIE_ECAM_MMIO_RANGE in Hfit. change 0x40000000 with (2 ^ 30) in Hfit. rewrite Hs in Hfit.
  apply Z.pow_le_mono_r_iff in Hfit; [|lia|lia].
  assert (Hal : ∃ j, (if decide (bar_size e > PGSIZE) then bar_size e else PGSIZE) = 2 ^ j ∧ 12 ≤ j ≤ 30 ∧ k ≤ j).
  { case_decide as Hbig; [exists k|exists 12; split; [done|]]; unfold PGSIZE in *; change 4096 with (2 ^ 12) in Hbig; rewrite Hs in Hbig.
    - split_and!; [done| |lia|lia]. destruct (decide (12 ≤ k)); [done|].
      assert (2 ^ k ≤ 2 ^ 12) by (apply Z.pow_le_mono_r; lia). lia.
    - split; [lia|]. destruct (decide (k ≤ 12)); [done|]. assert (2 ^ 12 < 2 ^ k) by (apply Z.pow_lt_mono_r; lia). lia. }
  destruct Hal as (j & -> & Hj & Hkj).
  destruct (candidate_loop_run q d i (bar_size e) j candidate_fuel PCIE_ECAM_MMIO_PA HI Hj) as (c & Hrun & Hc);
    [rewrite Hs; apply Z.pow_le_mono_r; lia|rewrite Hs; lia|unfold PCIE_ECAM_MMIO_PA; lia|apply candidate_fuel_enough|apply candidate_fuel_enough|].
  rewrite (bind_Ret _ _ _ _ _ Hrun). destruct c as [c|]; [|by exists (Some tt), b, l].
  destruct Hc as (W1 & W2 & W3 & W4).
  assert (Hmod : c mod bar_size e = 0).
  { rewrite Hs. apply Z.mod_divide; [lia|]. apply Z.mod_divide in W3; [|lia]. apply (Z.divide_trans _ (2 ^ j)); [|done].
    exists (2 ^ (j - k)). rewrite <-Z.pow_add_r by lia. f_equal. lia. }
  set (l' := <[Z.to_nat i := with_base c e]> l).
  assert (Hgoal : ∀ b' r, bars_ok l' ∧ fits l' ∧ same_shape l0 l' ∧ (r = @None unit → placed_upto (at_bars p d x b' l') d l' (i + 1))).
  { intros b' r. unfold window_end, PCIE_ECAM_MMIO_PA, PCIE_ECAM_MMIO_RANGE in *. split_and!.
    - apply bars_ok_base; [done..|lia|done|lia].
    - by apply fits_insert.
    - by apply same_shape_insert.
    - intros _. pose proof (placed_insert p d x b b' l i e c i Hd (bo_len _ Hl) Hdc Hi He Hv Hio H0 ltac:(lia) HP) as Hins.
      rewrite decide_True in Hins by done. by apply Hins. }
  rewrite (bind_Ret _ _ _ _ _ (set_base_run p d x b l i e c Hd Hi He)). fold l'.
  clear Hrun. unfold on_bus. kunfold. destruct (is_64 e); case_decide; eexists _, _, l'; (split; [done|apply Hgoal]).
Qed.

Lemma allocate_run (p : pci_state B) cfg d x b l raw :
  let q := at_bars p d x b l in
  pci_inv p → pci_devices p !! d = Some x → (d < Z.to_nat (pci_device_count p))%nat → bars_ok l → fits l → placed_upto q d l 0 →
  ∃ r b' l', for_find (seqZ 0 6) (allocate_bar cfg d raw) q = Ret (r, at_bars p d x b' l') ∧
    bars_ok l' ∧ same_shape l l' ∧ (r = None → placed_upto (at_bars p d x b' l') d l' 6).
Proof.
  intros q HI Hx Hdc Hl HF HP. pose proof (lookup_lt_Some _ _ _ Hx) as Hd.
  destruct (for_find_seq (λ n t, ∃ b' l', t = at_bars p d x b' l' ∧ bars_ok l' ∧ fits l' ∧ same_shape l l' ∧ placed_upto t d l' n)
    (λ _ t, ∃ b' l', t = at_bars p d x b' l' ∧ bars_ok l' ∧ same_shape l l') (allocate_bar cfg d raw) 0 6 q) as (r & s' & Hrun & Hr).
  - lia.
  - intros i t Hi (b1 & l1 & -> & Hl1 & HF1 & HS1 & HP1).
    destruct (allocate_bar_run p cfg d x b1 l1 raw i l) as (r & b2 & l2 & Hrun & Hl2 & HF2 & HS2 & HP2); try done.
    { by apply at_bars_inv. }
    exists r, (at_bars p d x b2 l2). split; [done|]. destruct r as [[]|]; exists b2, l2; [done|]. split_and!; try done. by apply HP2.
  - exists b, l. done.
  - exists r. destruct r as [[]|].
    + destruct Hr as (b' & l' & -> & ? & ?). exists b', l'. done.
    + destruct Hr as (b' & l' & -> & ? & ? & ? & ?). exists b', l'. done.
Qed.

(** ** Sorting and merging the ranges *)

Definition starts_le (a b : Z * Z) : Prop := a.1 ≤ b.1.
Definition covers (r a : Z * Z) : Prop := r.1 ≤ a.1 ∧ a.2 ≤ r.2.

Lemma swap_if_perm l i j : i ≠ j → swap_if l i j ≡ₚ l.
Proof.
  intros Hne. unfold swap_if. destruct (l !! i) as [a|] eqn:Hi; [|done]. destruct (l !! j) as [b|] eqn:Hj; [|done].
  case_decide; [|done]. apply Permutation_inj. split; [by rewrite !length_insert|].
  exists (λ k, if decide (k = i) then j else if decide (k = j) then i else k). split.
  - intros k k'. repeat case_decide; congruence.
  - pose proof (lookup_lt_Some _ _ _ Hi). pose proof (lookup_lt_Some _ _ _ Hj). intros k.
    destruct (decide (k = i)) as [->|]; [rewrite list_lookup_insert_eq by (rewrite length_insert; lia); done|].
    rewrite list_lookup_insert_ne by done. destruct (decide (k = j)) as [->|]; [by rewrite list_lookup_insert_eq|].
    by rewrite list_lookup_insert_ne.
Qed.

Lemma sort_ranges_perm l : sort_ranges l ≡ₚ l.
Proof. unfold sort_ranges. cbn -[swap_if]. by rewrite !swap_if_perm by done. Qed.

Lemma sort_ranges_sorted l : length l = 4%nat → StronglySorted starts_le (sort_ranges l).
Proof.
  intros Hl. destruct l as [|a [|b [|c [|e [|]]]]]; try done. clear Hl. unfold sort_ranges. cbn -[swap_if].
  unfold swap_if. cbn. apply Sorted_StronglySorted; [intros x y z; unfold starts_le; lia|].
  repeat (case_decide; cbn); repeat constructor; unfold starts_le; lia.
Qed.

(** Starts and ends of the merged ranges are those of the ranges. *)
Lemma merge_step_ends (Ps Pe : Z → Prop) acc r :
  Forall (λ x, Ps x.1 ∧ Pe x.2) acc → Ps r.1 ∧ Pe r.2 → Forall (λ x, Ps x.1 ∧ Pe x.2) (merge_step acc r).
Proof.
  intros HA HR. unfold merge_step. assert (Happ : Forall (λ x, Ps x.1 ∧ Pe x.2) (acc ++ [r])).
  { apply Forall_app. split; [done|]. by apply Forall_singleton. }
  destruct (last acc) as [q|] eqn:Hl; [|done].
  rewrite last_lookup in Hl. pose proof (Forall_lookup_1 _ _ _ _ HA Hl) as [Hq _].
  case_decide; [|done]. case_decide; [|done]. apply Forall_insert; [done|]. split; [done|apply HR].
Qed.

Lemma merge_fold_ends (Ps Pe : Z → Prop) l acc :
  Forall (λ x, Ps x.1 ∧ Pe x.2) acc → Forall (λ x, Ps x.1 ∧ Pe x.2) l →
  Forall (λ x, Ps x.1 ∧ Pe x.2) (foldl merge_step acc l).
Proof.
  revert acc. induction l as [|r l IH]; intros acc HA HL; [done|]. apply Forall_cons in HL as [Hr HL].
  simpl. apply IH; [by apply merge_step_ends|done].
Qed.

Lemma merge_fold_le l acc :
  Forall (λ x, x.1 ≤ x.2) acc → Forall (λ x, x.1 ≤ x.2) l → Forall (λ x, x.1 ≤ x.2) (foldl merge_step acc l).
Proof.
  revert acc. induction l as [|r l IH]; intros acc HA HL; [done|]. apply Forall_cons in HL as [Hr HL].
  simpl. apply IH; [|done]. unfold merge_step.
  assert (Happ : Forall (λ x, x.1 ≤ x.2) (acc ++ [r])) by (apply Forall_app; split; [done|by apply Forall_singleton]).
  destruct (last acc) as [q|] eqn:Hl; [|done]. rewrite last_lookup in Hl. pose proof (Forall_lookup_1 _ _ _ _ HA Hl) as Hq.
  case_decide; [|done]. case_decide; [|done]. apply Forall_insert; [done|]. simpl in *. lia.
Qed.

Lemma merge_step_covers acc r :
  Forall (λ x, x.1 ≤ r.1) acc →
  (∃ y, y ∈ merge_step acc r ∧ covers y r) ∧ ∀ x, x ∈ acc → ∃ y, y ∈ merge_step acc r ∧ covers y x.
Proof.
  intros HA. unfold merge_step, covers.
  assert (Happ : (∃ y, y ∈ acc ++ [r] ∧ y.1 ≤ r.1 ∧ r.2 ≤ y.2) ∧ ∀ x, x ∈ acc → ∃ y, y ∈ acc ++ [r] ∧ y.1 ≤ x.1 ∧ x.2 ≤ y.2).
  { split; [exists r; split; [set_solver|lia]|]. intros x Hx. exists x. split; [set_solver|lia]. }
  destruct (last acc) as [q|] eqn:Hl; [|done]. case_decide; [|done].
  rewrite last_lookup in Hl. replace (pred (length acc)) with (length acc - 1)%nat in Hl by lia.
  pose proof (Forall_lookup_1 _ _ _ _ HA Hl) as Hq. simpl in Hq. pose proof (lookup_lt_Some _ _ _ Hl) as Hlt.
  case_decide as Hgt.
  - assert (Hin : (q.1, r.2) ∈ <[(length acc - 1)%nat := (q.1, r.2)]> acc)
      by (eapply list_elem_of_lookup_2; by apply list_lookup_insert_eq).
    split; [exists (q.1, r.2); split; [done|simpl; lia]|].
    intros x (k & Hk)%list_elem_of_lookup. destruct (decide (k = (length acc - 1)%nat)) as [->|Hne].
    + exists (q.1, r.2). split; [done|]. simpl. replace x with q by congruence. lia.
    + exists x. split; [|lia]. eapply (list_elem_of_lookup_2 _ k). by rewrite list_lookup_insert_ne.
  - split; [exists q; split; [by eapply list_elem_of_lookup_2|lia]|]. intros x Hx. exists x. split; [done|lia].
Qed.

Lemma merge_step_starts (c : Z) acc r :
  Forall (λ x, x.1 ≤ c) acc → r.1 ≤ c → Forall (λ x, x.1 ≤ c) (merge_step acc r).
Proof.
  intros HA HR. pose proof (merge_step_ends (λ z, z ≤ c) (λ _, True) acc r) as H.
  eapply Forall_impl; [apply H; [|done]|by intros x []]. eapply Forall_impl; [exact HA|done].
Qed.

Lemma merge_fold_covers l acc :
  StronglySorted starts_le l → (∀ r, r ∈ l → Forall (λ x, x.1 ≤ r.1) acc) →
  ∀ a, a ∈ acc ∨ a ∈ l → ∃ y, y ∈ foldl merge_step acc l ∧ covers y a.
Proof.
  revert acc. induction l as [|r l IH]; intros acc HS HA a Ha; simpl.
  - destruct Ha as [Ha|Ha%elem_of_nil]; [|done]. exists a. unfold covers. split; [done|lia].
  - apply StronglySorted_inv in HS as [HS Hr]. destruct (merge_step_covers acc r) as [C1 C2]; [apply HA; by left|].
    assert (Hstep : ∀ r', r' ∈ l → Forall (λ x, x.1 ≤ r'.1) (merge_step acc r)).
    { intros r' Hr'. rewrite List.Forall_forall in Hr. pose proof (Hr r' ltac:(by apply list_elem_of_In)) as Hle.
      apply merge_step_starts; [apply HA; by right|exact Hle]. }
    assert (Hvia : (∃ y, y ∈ merge_step acc r ∧ covers y a) → ∃ y, y ∈ foldl merge_step (merge_step acc r) l ∧ covers y a).
    { intros (y & Hy & Hc). destruct (IH (merge_step acc r) HS Hstep y) as (z & Hz & Hcz); [by left|].
      exists z. split; [done|]. unfold covers in *. lia. }
    destruct Ha as [Ha|[->|Ha]%elem_of_cons]; [apply Hvia; by apply C2|by apply Hvia|]. apply IH; [done..|by right].
Qed.

Lemma merge_ranges_covers l a : length l = 4%nat → a ∈ l → ∃ y, y ∈ merge_ranges (sort_ranges l) ∧ covers y a.
Proof.
  intros Hl Ha. apply merge_fold_covers; [by apply sort_ranges_sorted|done|]. right. by rewrite sort_ranges_perm.
Qed.

(** ** Mapping and unmapping pages *)

Fixpoint pages (n : nat) (pa : Z) : list Z :=
  match n with O => [] | S n => pa :: pages n (pa + PGSIZE) end.
Definition range_pages (l : list mrange) : list Z :=
  l ≫= λ x, pages (Z.to_nat ((x.2 - x.1.1) / PGSIZE)) x.1.1.

(** [v'] is [v] with the pages [ps] added one by one, none of them there before. *)
Fixpoint adds (v : gmap Z Z) (ps : list Z) (v' : gmap Z Z) : Prop :=
  match ps with
  | [] => v' = v
  | pa :: ps => v !! io_va pa = None ∧ adds (<[io_va pa := pa]> v) ps v'
  end.
Fixpoint dels (ps : list Z) (v : gmap Z Z) : gmap Z Z :=
  match ps with [] => v | pa :: ps => dels ps (delete (io_va pa) v) end.

Lemma adds_app v ps1 v1 ps2 v2 : adds v ps1 v1 → adds v1 ps2 v2 → adds v (ps1 ++ ps2) v2.
Proof. revert v. induction ps1 as [|pa ps IH]; intros v; simpl; [by intros ->|]. intros [? ?] ?. eauto. Qed.

Lemma dels_app ps1 ps2 v : dels (ps1 ++ ps2) v = dels ps2 (dels ps1 v).
Proof. revert v. induction ps1 as [|pa ps IH]; intros v; simpl; [done|]. apply IH. Qed.

Lemma dels_delete ps k v : dels ps (delete k v) = delete k (dels ps v).
Proof.
  revert v. induction ps as [|pa ps IH]; intros v; simpl; [done|]. rewrite delete_delete. apply IH.
Qed.

(** Taking the added pages away again gives the view of before. *)
Lemma adds_dels v ps v' : adds v ps v' → dels ps v' = v.
Proof.
  revert v. induction ps as [|pa ps IH]; intros v; simpl; [done|]. intros [Hn Ha].
  rewrite dels_delete, (IH _ Ha). by apply delete_insert_id.
Qed.

Lemma adds_keep v ps v' k y : adds v ps v' → v !! k = Some y → v' !! k = Some y.
Proof.
  revert v. induction ps as [|pa ps IH]; intros v; simpl; [by intros ->|]. intros [Hn Ha] Hk.
  apply (IH _ Ha). rewrite lookup_insert_ne; [done|congruence].
Qed.

Lemma adds_lookup v ps v' pa : adds v ps v' → pa ∈ ps → v' !! io_va pa = Some pa.
Proof.
  revert v. induction ps as [|q ps IH]; intros v; simpl; [by intros _ ?%elem_of_nil|].
  intros [Hn Ha] [->|Hin]%elem_of_cons; [|by apply (IH _ Ha)]. apply (adds_keep _ _ _ _ _ Ha), lookup_insert_eq.
Qed.

Lemma map_pages_run n pa m :
  0 ≤ pa → pa + Z.of_nat n * PGSIZE < 2 ^ 63 →
  ∃ ok k m', map_pages n pa (pa + Z.of_nat n * PGSIZE) m = Ret ((ok, pa + Z.of_nat k * PGSIZE), m') ∧
    (k ≤ n)%nat ∧ (ok = true → k = n) ∧ adds (io_view m) (pages k pa) (io_view m').
Proof.
  revert pa m. induction n as [|n IH]; intros pa m Hpa Hb; cbn [map_pages].
  - rewrite decide_False by lia. exists true, 0%nat, m. split_and!; [|done..]. by replace (pa + Z.of_nat 0 * PGSIZE) with pa by lia.
  - unfold PGSIZE in *. rewrite decide_True by lia. destruct (io_map_run (io_va pa) pa m) as (r & m1 & Hrun & Hr).
    rewrite (bind_Ret _ _ _ _ _ Hrun). destruct Hr as [(-> & Hn & Hv)|(-> & Hv)].
    + rewrite decide_False by lia. rewrite u64_small by lia.
      replace (pa + Z.of_nat (S n) * 4096) with (pa + 4096 + Z.of_nat n * 4096) by lia.
      destruct (IH (pa + 4096) m1) as (ok & k & m2 & H2 & Hk & Hok & Ha); [lia|lia|].
      exists ok, (S k), m2. split_and!; [|lia|intros E; rewrite (Hok E); done|].
      * rewrite H2. do 3 f_equal. lia.
      * simpl. rewrite <-Hv. done.
    + rewrite decide_True by lia. exists false, 0%nat, m1. split_and!; [|lia|done|done].
      by replace (pa + Z.of_nat 0 * 4096) with pa by lia.
Qed.

Lemma unmap_pages_run n pa m :
  0 ≤ pa → pa + Z.of_nat n * PGSIZE < 2 ^ 63 →
  ∃ m', unmap_pages n pa (pa + Z.of_nat n * PGSIZE) m = Ret (tt, m') ∧ io_view m' = dels (pages n pa) (io_view m).
Proof.
  revert pa m. induction n as [|n IH]; intros pa m Hpa Hb; cbn [unmap_pages].
  - rewrite decide_False by lia. by exists m.
  - unfold PGSIZE in *. rewrite decide_True by lia. destruct (io_clear_run (io_va pa) m) as (m1 & Hrun & Hv).
    rewrite (bind_Ret _ _ _ _ _ Hrun). rewrite u64_small by lia.
    replace (pa + Z.of_nat (S n) * 4096) with (pa + 4096 + Z.of_nat n * 4096) by lia.
    destruct (IH (pa + 4096) m1) as (m2 & H2 & Hv2); [lia|lia|]. exists m2. split; [done|]. simpl. by rewrite Hv2, Hv.
Qed.

(** A range of whole pages that does not wrap. *)
Definition pages_ok (x : Z * Z) : Prop := (0 ≤ x.1 ∧ x.1 mod 4096 = 0) ∧ (x.2 < 2 ^ 62 ∧ x.2 mod 4096 = 0).
Definition mrange_ok (x : mrange) : Prop :=
  0 ≤ x.1.1 ∧ x.1.1 ≤ x.2 < 2 ^ 62 ∧ (x.2 - x.1.1) mod 4096 = 0.

Lemma range_count s e : s mod 4096 = 0 → e mod 4096 = 0 → s ≤ e → s + Z.of_nat (Z.to_nat ((e - s) / PGSIZE)) * PGSIZE = e.
Proof.
  intros Hs He Hle. unfold PGSIZE. assert ((e - s) mod 4096 = 0) by (by rewrite Zminus_mod, Hs, He).
  pose proof (Z.div_mod (e - s) 4096 ltac:(lia)). pose proof (Z.div_pos (e - s) 4096). lia.
Qed.

Lemma range_pages_cons x l :
  range_pages (x :: l) = pages (Z.to_nat ((x.2 - x.1.1) / PGSIZE)) x.1.1 ++ range_pages l.
Proof. done. Qed.
Lemma range_pages_none (l : list (Z * Z)) : range_pages ((λ x, (x.1, x.2, x.1)) <$> l) = [].
Proof.
  induction l as [|x l IH]; [done|]. rewrite fmap_cons, range_pages_cons, IH. simpl. by rewrite Z.sub_diag.
Qed.

Lemma map_ranges_run l m :
  Forall (λ x, pages_ok x ∧ x.1 ≤ x.2) l →
  ∃ ok l' m', map_ranges l m = Ret ((ok, l'), m') ∧ Forall mrange_ok l' ∧
    adds (io_view m) (range_pages l') (io_view m') ∧ (ok = true → l' = (λ x, (x.1, x.2, x.2)) <$> l).
Proof.
  revert m. induction l as [|[s e] l IH]; intros m HL; cbn [map_ranges].
  - exists true, [], m. split_and!; done.
  - apply Forall_cons in HL as [(((H0 & Hs) & Hb & He) & Hle) HL]. simpl in *.
    pose proof (range_count s e Hs He Hle) as Hcnt. set (n := Z.to_nat ((e - s) / PGSIZE)) in *.
    destruct (map_pages_run n s m) as (ok & k & m1 & Hrun & Hk & Hok & Ha); [lia|lia|]. rewrite Hcnt in Hrun.
    rewrite (bind_Ret _ _ _ _ _ Hrun). unfold PGSIZE in *.
    assert (Hcount : Z.to_nat ((s + Z.of_nat k * 4096 - s) / PGSIZE) = k).
    { unfold PGSIZE. replace (s + Z.of_nat k * 4096 - s) with (Z.of_nat k * 4096) by lia. rewrite Z.div_mul by lia. lia. }
    assert (Hx : mrange_ok (s, e, s + Z.of_nat k * 4096)).
    { unfold mrange_ok. simpl. split_and!; [lia|lia|lia|]. replace (s + Z.of_nat k * 4096 - s) with (Z.of_nat k * 4096) by lia. by rewrite Z.mod_mul. }
    destruct ok.
    + destruct (IH m1 HL) as (ok' & l' & m2 & Hrun2 & Hl' & Ha2 & Hok2). rewrite (bind_Ret _ _ _ _ _ Hrun2).
      exists ok', ((s, e, s + Z.of_nat k * 4096) :: l'), m2. split_and!; [done|by constructor| |].
      * rewrite range_pages_cons. cbn [fst snd]. rewrite Hcount. by apply (adds_app _ _ (io_view m1)).
      * intros E. rewrite (Hok2 E). simpl. rewrite (Hok eq_refl). by rewrite Hcnt.
    + exists false, ((s, e, s + Z.of_nat k * 4096) :: ((λ x, (x.1, x.2, x.1)) <$> l)), m1. split_and!; [done| | |done].
      * constructor; [done|]. apply Forall_fmap. eapply Forall_impl; [exact HL|]. intros [s' e'] [((? & ?) & ? & ?) ?].
        unfold mrange_ok. simpl in *. rewrite Z.sub_diag. split_and!; [done|lia|lia|done].
      * rewrite range_pages_cons, range_pages_none, app_nil_r. cbn [fst snd]. rewrite Hcount. exact Ha.
Qed.

Lemma unmap_ranges_run l m :
  Forall mrange_ok l → ∃ m', unmap_ranges l m = Ret (tt, m') ∧ io_view m' = dels (range_pages l) (io_view m).
Proof.
  revert m. induction l as [|[[s e] q] l IH]; intros m HL; [by exists m|].
  apply Forall_cons in HL as [(H0 & Hq & Hmod) HL]. simpl in H0, Hq, Hmod. unfold unmap_ranges. cbn [forM fst snd].
  set (n := Z.to_nat ((q - s) / PGSIZE)). assert (Hn : s + Z.of_nat n * PGSIZE = q).
  { unfold n, PGSIZE. pose proof (Z.div_mod (q - s) 4096 ltac:(lia)). pose proof (Z.div_pos (q - s) 4096). lia. }
  destruct (unmap_pages_run n s m) as (m1 & Hrun & Hv); [lia|lia|]. rewrite Hn in Hrun. fold n.
  rewrite (bind_Ret _ _ _ _ _ Hrun). destruct (IH m1 HL) as (m2 & Hrun2 & Hv2). exists m2. split; [exact Hrun2|].
  rewrite Hv2, Hv, range_pages_cons. cbn [fst snd]. fold n. by rewrite dels_app.
Qed.

(** ** Collecting and rolling back *)

(** Decoding switched off in the Command register, [saved] with the two bits
    cleared; and whether the device says it still decodes. *)
Definition switch_off (cfg saved : Z) (b : B) : B :=
  pcie_write16 (cfg + COMMAND_OFFSET) (u16 (Z.land saved (not32 PCI_DECODE))) b.
Definition decodes (cfg : Z) (b : B) : bool := has (pcie_read16 (cfg + COMMAND_OFFSET) b) PCI_DECODE.

Lemma disable_decoding_run cfg b : ∃ c b', pci_disable_decoding cfg b = Ret (c, b') ∧
  let b1 := switch_off cfg (pcie_read16 (cfg + COMMAND_OFFSET) b) b in
  match c with
  | None => decodes cfg b1 = true ∧ b' = pcie_write16 (cfg + COMMAND_OFFSET) (pcie_read16 (cfg + COMMAND_OFFSET) b) b1
  | Some saved => saved = pcie_read16 (cfg + COMMAND_OFFSET) b ∧ decodes cfg b1 = false ∧ b' = b1
  end.
Proof.
  unfold pci_disable_decoding. kunfold. cbv zeta. unfold decodes. change (pcie_write16 _ (u16 _) b) with (switch_off cfg (pcie_read16 (cfg + COMMAND_OFFSET) b) b).
  destruct (has (pcie_read16 _ (switch_off _ _ _)) PCI_DECODE) eqn:E; eexists _, _; (split; [reflexivity|]); simpl; rewrite ?E; auto.
Qed.

(** The devices but [d] may be probed; [d] and the count stay. *)
Record collected (d : nat) (p p' : pci_state B) : Prop := {
  co_inv : pci_inv p';
  co_count : pci_device_count p' = pci_device_count p;
  co_dev : pci_devices p' !! d = pci_devices p !! d
}.

Lemma collect_device_run d p q n :
  collected d p q → 0 ≤ n < pci_device_count p →
  ∃ r q', collect_device d n q = Ret (r, q') ∧ collected d p q' ∧ (r = None ∨ r = Some (-1)).
Proof.
  intros HC Hn. unfold collect_device. case_decide as Hd; [by exists None, q; split_and!; auto|].
  pose proof (co_inv _ _ _ HC) as HI. pose proof (pv_count _ HI). rewrite (co_count _ _ _ HC) in *.
  destruct (lookup_lt_is_Some_2 (pci_devices q) (Z.to_nat n)) as [x Hx]; [rewrite (pv_len _ HI); lia|].
  rewrite (bind_Ret _ _ q x q) by (unfold get_device; by rewrite Hx). case_decide; [by exists (Some (-1)), q; split_and!; auto|].
  assert (Hbus : ∀ b, collected d p (set_bus b q)).
  { intros b. destruct HC as [[? ? ?] ? ?]. split; [by split|done..]. }
  destruct (disable_decoding_run (pci_cfg_addr x) (bus q)) as (c & b1 & Hdis & _).
  rewrite (bind_Ret _ _ _ _ _ (on_bus_run _ q _ _ Hdis)). destruct c as [saved|]; [|by exists (Some (-1)), (set_bus b1 q); split_and!; auto].
  destruct (pci_probe_bar_run (pci_cfg_addr x) (set_bus b1 q) (Z.to_nat n) x Hx) as (r & b2 & l & Hrun & Hl & _).
  rewrite (bind_Ret _ _ _ _ _ Hrun).
  assert (HC2 : ∀ b, collected d p (at_bars (set_bus b1 q) (Z.to_nat n) x b l)).
  { intros b. split; [apply at_bars_inv; [apply Hbus|done..]|apply HC|]. simpl. rewrite list_lookup_insert_ne by done. apply HC. }
  unfold on_bus, pci_restore_command. kunfold. case_decide; eexists _, _; (split; [done|split; [|auto]]);
    exact (HC2 (pcie_write16 _ _ _)).
Qed.

Lemma collect_run d p :
  pci_inv p → ∃ r p', pci_collect_resources d p = Ret (r, p') ∧ collected d p p' ∧ (r = 0 ∨ r = -1).
Proof.
  intros HI. pose proof (pv_count _ HI). unfold pci_collect_resources. rewrite bind_gets.
  destruct (for_find_seq (λ _ t, collected d p t) (λ v t, v = -1 ∧ collected d p t) (collect_device d) 0 (pci_device_count p) p)
    as (r & p' & Hrun & Hr).
  - lia.
  - intros n q Hn HC. destruct (collect_device_run d p q n HC Hn) as (r & q' & Hrun & HC' & Hr).
    exists r, q'. split; [done|]. by destruct Hr as [->| ->].
  - by split.
  - rewrite (bind_Ret _ _ _ _ _ Hrun). destruct r as [v|].
    + destruct Hr as [-> HC]. exists (-1), p'. auto.
    + exists 0, p'. auto.
Qed.

Lemma on_pci_run {A} (m : K (pci_state B) A) (s : st) x q : m (as_pci s) = Ret (x, q) → on_pci m s = Ret (x, set_as_pci q s).
Proof. apply zoom_Ret. Qed.
Lemma on_kmap_run {A} (m : K M A) (s : st) x q : m (kmap s) = Ret (x, q) → on_kmap m s = Ret (x, set_kmap q s).
Proof. apply zoom_Ret. Qed.

Lemma same_shape_lookup l l' i e : same_shape l l' → l !! i = Some e → ∃ e', l' !! i = Some e' ∧ with_base 0 e' = with_base 0 e.
Proof.
  intros HS Hi. assert (Hf : (with_base 0 <$> l') !! i = Some (with_base 0 e)) by (rewrite HS, list_lookup_fmap, Hi; done).
  rewrite list_lookup_fmap in Hf. destruct (l' !! i) as [e'|]; [|done]. exists e'. split; [done|]. simpl in Hf. congruence.
Qed.

Lemma with_base_back e e' : with_base 0 e' = with_base 0 e → with_base (bar_base e) e' = e.
Proof. destruct e, e'. unfold with_base. simpl. congruence. Qed.

(** The registers of the six BARs written back with the values [v]. *)
Definition bars_back (cfg : Z) (v : Z → Z) (b : B) : B :=
  foldl (λ b i, pcie_write32 (cfg + BAR_OFFSET + i * 4) (v i) b) b (seqZ 0 6).

(** The loop that writes the registers and the addresses back. *)
Lemma restore_bars_run cfg (p : pci_state B) d x b l l0 (raw : list Z) :
  (d < length (pci_devices p))%nat → length l0 = 6%nat → same_shape l0 l →
  forM (seqZ 0 6) (λ i,
      on_bus (modify (pcie_write32 (cfg + BAR_OFFSET + i * 4) (default 0 (raw !! Z.to_nat i)))) ;;
      set_base d i (default 0 ((bar_base <$> l0) !! Z.to_nat i))) (at_bars p d x b l) = Ret (tt, at_bars p d x (bars_back cfg (λ i, default 0 (raw !! Z.to_nat i)) b) l0).
Proof.
  intros Hd Hl0 HS.
  destruct (forM_seq (λ n t, ∃ l', t = at_bars p d x (foldl (λ b i, pcie_write32 (cfg + BAR_OFFSET + i * 4) (default 0 (raw !! Z.to_nat i)) b) b (seqZ 0 n)) l' ∧
      same_shape l0 l' ∧ take (Z.to_nat n) l' = take (Z.to_nat n) l0)
    (λ i, on_bus (modify (pcie_write32 (cfg + BAR_OFFSET + i * 4) (default 0 (raw !! Z.to_nat i)))) ;;
      set_base d i (default 0 ((bar_base <$> l0) !! Z.to_nat i))) 0 6 (at_bars p d x b l)) as (s' & Hrun & l' & -> & HS' & Ht).
  - lia.
  - intros i t Hi (l1 & -> & HS1 & Ht1). set (b1 := foldl _ b (seqZ 0 i)).
    destruct (lookup_lt_is_Some_2 l0 (Z.to_nat i)) as [e He]; [lia|].
    destruct (same_shape_lookup _ _ _ _ HS1 He) as (e1 & He1 & Heq). pose proof (lookup_lt_Some _ _ _ He1) as Hlt.
    set (b2 := pcie_write32 (cfg + BAR_OFFSET + i * 4) (default 0 (raw !! Z.to_nat i)) b1).
    exists (at_bars p d x b2 (<[Z.to_nat i := e]> l1)). split.
    + rewrite (bind_Ret _ _ _ _ _ (on_bus_run _ (at_bars p d x b1 l1) tt b2 eq_refl)).
      change (set_bus b2 (at_bars p d x b1 l1)) with (at_bars p d x b2 l1).
      rewrite list_lookup_fmap, He. simpl. rewrite (set_base_run p d x b2 l1 i e1 _ Hd Hi He1). by rewrite (with_base_back e e1 Heq).
    + exists (<[Z.to_nat i := e]> l1). split_and!.
      * rewrite seqZ_app, foldl_app by lia. replace (seqZ (0 + i) 1) with [i] by (unfold seqZ; simpl; f_equal; lia). done.
      * pose proof (same_shape_insert l0 l1 _ e1 (bar_base e) HS1 He1) as HSi. by rewrite (with_base_back e e1 Heq) in HSi.
      * replace (Z.to_nat (i + 1)) with (S (Z.to_nat i)) by lia.
        rewrite (take_S_r _ _ e) by (by apply list_lookup_insert_eq). rewrite (take_S_r _ _ _ He), take_insert_ge by done. by rewrite Ht1.
  - exists l. by rewrite !take_0.
  - rewrite Hrun. assert (Hlen : length l' = 6%nat) by (rewrite <-(length_fmap (with_base 0)), HS', length_fmap; done).
    rewrite !firstn_all2 in Ht by lia. by rewrite Ht.
Qed.

Lemma rollback_run cfg saved d x (p : pci_state B) b l l0 raw rs (s : st) v :
  as_pci s = at_bars p d x b l → (d < length (pci_devices p))%nat → length l0 = 6%nat → same_shape l0 l →
  Forall mrange_ok rs → adds v (range_pages rs) (io_view (kmap s)) →
  ∃ s', assign_rollback cfg saved d (bar_base <$> l0) raw rs s = Ret (-1, s') ∧ regions s' = regions s ∧
    let b1 := switch_off cfg saved b in
    let b2 := bars_back cfg (λ i, default 0 (raw !! Z.to_nat i)) b1 in
    ((decodes cfg b1 = true ∧ as_pci s' = at_bars p d x b1 l) ∨
     decodes cfg b1 = false ∧ io_view (kmap s') = v ∧
       ((∀ i, 0 ≤ i < 6 → pcie_read32 (cfg + BAR_OFFSET + i * 4) b2 = default 0 (raw !! Z.to_nat i)) ∧
          as_pci s' = at_bars p d x (pcie_write16 (cfg + COMMAND_OFFSET) saved b2) l0 ∨
        (∃ i, 0 ≤ i < 6 ∧ pcie_read32 (cfg + BAR_OFFSET + i * 4) b2 ≠ default 0 (raw !! Z.to_nat i)) ∧ as_pci s' = at_bars p d x b2 l0)).
Proof.
  intros Hp Hd Hl0 HS Hrs Hadd. unfold assign_rollback, on_cfg.
  cbv zeta. set (b1 := switch_off cfg saved b).
  rewrite (bind_Ret _ _ s tt (set_as_pci (at_bars p d x b1 l) s)) by (apply on_pci_run; rewrite Hp; done).
  rewrite (bind_Ret _ _ _ (pcie_read16 (cfg + COMMAND_OFFSET) b1) (set_as_pci (at_bars p d x b1 l) s)) by done.
  destruct (has _ PCI_DECODE) eqn:Hdec.
  - eexists. split; [done|]. split; [done|]. by left.
  - destruct (unmap_ranges_run rs (kmap s) Hrs) as (m' & Hun & Hv).
    rewrite (bind_Ret _ _ _ _ _ (on_kmap_run _ (set_as_pci (at_bars p d x b1 l) s) _ _ Hun)).
    pose proof (restore_bars_run cfg p d x b1 l l0 raw Hd Hl0 HS) as Hres. set (b2 := bars_back _ _ b1) in *.
    erewrite bind_Ret by (apply on_pci_run; exact Hres).
    rewrite (adds_dels _ _ _ Hadd) in Hv.
    rewrite (bind_Ret _ _ _ b2 (set_as_pci (at_bars p d x b2 l0) (set_kmap m' (set_as_pci (at_bars p d x b1 l) s)))) by done.
    case_decide as Hback; (eexists; split; [done|]); (split; [done|]); right; (split_and!; [done|done|]).
    + left. split; [|done]. rewrite Forall_forall in Hback. intros i Hi. apply Hback, elem_of_seqZ. lia.
    + right. split; [|done]. apply not_Forall_Exists in Hback; [|apply _]. apply Exists_exists in Hback as (i & Hi%elem_of_seqZ & Hne).
      exists i. split; [lia|done].
Qed.

(** ** The body *)

(** The C types of the fields of the capabilities. *)
Definition cap_ok (c : virtio_pci_cap) : Prop :=
  0 ≤ cap_bar c ∧ 0 ≤ cap_offset c < 2 ^ 32 ∧ 0 ≤ cap_length c < 2 ^ 32.

Lemma cap_range_run (p : pci_state B) d l0 l c r :
  placed_upto p d l 6 → length l = 6%nat → same_shape l0 l → cap_ok c → cap_mem l0 c → cap_range l c = Some r →
  pages_ok r ∧ r.1 ≤ r.2 ∧ ∃ e, l !! Z.to_nat (cap_bar c) = Some e ∧
    r.1 ≤ bar_base e + cap_offset c ∧ bar_base e + cap_offset c + cap_length c ≤ r.2.
Proof.
  intros HP Hl HS (H0 & Ho & Hln) (Hb & Hmem) Hr. destruct (l0 !! Z.to_nat (cap_bar c)) as [e0|] eqn:He0; [|done].
  destruct (same_shape_lookup _ _ _ _ HS He0) as (e & He & Heq). destruct Hmem as [Hv Hio].
  assert (Hv' : bar_valid e = true ∧ is_io e = false) by (destruct e, e0; unfold with_base in Heq; simpl in *; by simplify_eq).
  destruct (HP _ e He (proj1 Hv') (proj2 Hv')) as [Hpl Hbase].
  destruct (Hpl (Hbase ltac:(lia))) as (W1 & W2 & _ & _). unfold cap_range in Hr. rewrite He in Hr. cbn [mbind option_bind] in Hr.
  case_decide as Hc; [done|]. injection Hr as <-. cbn [fst snd].
  unfold window_end, PCIE_ECAM_MMIO_PA, PCIE_ECAM_MMIO_RANGE in *.
  assert (cap_offset c ≤ bar_size e) by lia. rewrite u64_small in Hc by lia.
  rewrite !(u64_small (bar_base e + cap_offset c)) by lia. rewrite u64_small by lia.
  destruct (PGROUNDDOWN_bounds (bar_base e + cap_offset c)) as [HD HDm].
  destruct (PGROUNDUP_bounds (bar_base e + cap_offset c + cap_length c)) as [HU HUm]; [lia|].
  split; [unfold pages_ok; cbn [fst snd]; split_and!; [lia|done|lia|done]|]. split; [lia|]. exists e. split_and!; [done|lia|lia].
Qed.

Lemma pages_elem n pa q : q ∈ pages n pa ↔ ∃ k, (k < n)%nat ∧ q = pa + Z.of_nat k * PGSIZE.
Proof.
  revert pa. induction n as [|n IH]; intros pa; simpl.
  - split; [by intros ?%elem_of_nil|]. intros (k & ? & _). lia.
  - rewrite elem_of_cons, IH. split.
    + intros [->|(k & Hk & ->)]; [exists 0%nat; lia|]. exists (S k). lia.
    + intros (k & Hk & ->). destruct k as [|k]; [left; lia|]. right. exists k. lia.
Qed.

(** Every page a merged range covers is among the pages mapped. *)
Lemma range_pages_elem l r pa :
  r ∈ l → pages_ok r → r.1 ≤ pa < r.2 → pa mod 4096 = 0 → pa ∈ range_pages ((λ x, (x.1, x.2, x.2)) <$> l).
Proof.
  intros Hin ((H0 & Hs) & Hb & He) Hr Hpa. unfold range_pages. apply list_elem_of_bind.
  exists (r.1, r.2, r.2). split; [|by apply (list_elem_of_fmap_2 (λ x : Z * Z, (x.1, x.2, x.2)))]. cbn [fst snd].
  apply pages_elem. exists (Z.to_nat ((pa - r.1) / 4096)). unfold PGSIZE.
  assert ((pa - r.1) mod 4096 = 0) by (by rewrite Zminus_mod, Hpa, Hs).
  pose proof (Z.div_mod (pa - r.1) 4096 ltac:(lia)). pose proof (Z.div_pos (pa - r.1) 4096).
  assert ((pa - r.1) / 4096 < (r.2 - r.1) / 4096); [|lia].
  assert ((r.2 - r.1) mod 4096 = 0) by (by rewrite Zminus_mod, He, Hs). pose proof (Z.div_mod (r.2 - r.1) 4096 ltac:(lia)). lia.
Qed.

(** The bytes of the region of capability [c] are mapped. *)
Definition region_mapped (v : gmap Z Z) (l : list pci_bar) (c : virtio_pci_cap) : Prop :=
  ∃ e, l !! Z.to_nat (cap_bar c) = Some e ∧
    ∀ a, bar_base e + cap_offset c ≤ a < bar_base e + cap_offset c + cap_length c →
      v !! io_va (PGROUNDDOWN a) = Some (PGROUNDDOWN a).

Lemma assign_body_run cfg saved d x (p : pci_state B) b raw (s : st) :
  pci_inv p → pci_devices p !! d = Some x → (d < Z.to_nat (pci_device_count p))%nat →
  as_pci s = at_bars p d x b (bars x) → Forall cap_ok (caps (regions s)) → Forall (cap_mem (bars x)) (caps (regions s)) →
  ∃ f s' b' l', assign_body cfg saved d raw s = Ret (f, s') ∧ as_pci s' = at_bars p d x b' l' ∧
    bars_ok l' ∧ same_shape (bars x) l' ∧
    match f with
    | None => placed_upto (as_pci s') d l' 6 ∧ (r_mapped (regions s') = true ∧ caps (regions s') = caps (regions s)) ∧
        Forall (region_mapped (io_view (kmap s')) l') (caps (regions s))
    | Some rs => Forall mrange_ok rs ∧ adds (io_view (kmap s)) (range_pages rs) (io_view (kmap s'))
    end.
Proof.
  intros HI Hx Hdc Hp Hok Hmem. pose proof (lookup_lt_Some _ _ _ Hx) as Hd. unfold assign_body.
  pose proof (Forall_lookup_1 _ _ _ _ (pv_bars _ HI) Hx) as Hl. simpl in Hl.
  assert (HIq : pci_inv (at_bars p d x b (bars x))) by (by apply at_bars_inv).
  destruct (validate_run p d x b (bars x) HIq Hd Hl) as (v & Hval & HV).
  rewrite (bind_Ret _ _ s v (set_as_pci (at_bars p d x b (bars x)) s)) by (apply on_pci_run; by rewrite Hp).
  case_decide as Hv; [by exists (Some []), (set_as_pci (at_bars p d x b (bars x)) s), b, (bars x)|].
  assert (v = None) as -> by (destruct v; [|done]; by destruct Hv). specialize (HV eq_refl).
  assert (Hlt6 : ∀ i e, bars x !! i = Some e → Z.of_nat i < 6).
  { intros i e Hi. pose proof (lookup_lt_Some _ _ _ Hi). rewrite (bo_len _ Hl) in *. lia. }
  destruct (allocate_run p cfg d x b (bars x) raw HI Hx Hdc Hl) as (a & b1 & l1 & Hall & Hl1 & HS1 & HP1).
  { intros i e Hi Hve Hio. by apply (HV i e Hi (Hlt6 i e Hi)). }
  { intros i e Hi Hve Hio. destruct (HV i e Hi (Hlt6 i e Hi) Hve Hio). split; [done|lia]. }
  erewrite bind_Ret by (apply on_pci_run; exact Hall).
  case_decide as Ha; [by eexists (Some []), _, b1, l1|].
  assert (a = None) as -> by (destruct a; [|done]; by destruct Ha). specialize (HP1 eq_refl).
  erewrite bind_Ret by (apply on_pci_run; exact (at_bars_get p d x b1 l1 Hd)). rewrite bind_gets.
  cbn [regions set_as_pci bars with_bars].
  set (s1 := set_as_pci (at_bars p d x b1 l1) _).
  destruct (mapM (cap_range l1) (caps (regions s))) as [rs|] eqn:Hrs; [|by exists (Some []), s1, b1, l1].
  apply mapM_Some_1 in Hrs. assert (Hlen : length rs = 4%nat) by (by rewrite <-(Forall2_length _ _ _ Hrs)).
  assert (Hcap : ∀ k c r, caps (regions s) !! k = Some c → rs !! k = Some r → pages_ok r ∧ r.1 ≤ r.2 ∧
    ∃ e, l1 !! Z.to_nat (cap_bar c) = Some e ∧ r.1 ≤ bar_base e + cap_offset c ∧ bar_base e + cap_offset c + cap_length c ≤ r.2).
  { intros k c r Hc Hr. pose proof (Forall2_lookup_lr _ _ _ _ _ _ Hrs Hc Hr) as Hcr.
    apply (cap_range_run _ d (bars x) l1 c r HP1 (bo_len _ Hl1) HS1);
      [by apply (Forall_lookup_1 _ _ _ _ Hok Hc)|by apply (Forall_lookup_1 _ _ _ _ Hmem Hc)|exact Hcr]. }
  assert (Hrs_ok : Forall (λ r, pages_ok r ∧ r.1 ≤ r.2) rs).
  { apply Forall_lookup. intros k r Hr. destruct (Forall2_lookup_r _ _ _ _ _ Hrs Hr) as (c & Hc & _).
    destruct (Hcap k c r Hc Hr) as (H1 & H2 & _). done. }
  set (ms := merge_ranges (sort_ranges rs)).
  assert (Hms : Forall (λ r, pages_ok r ∧ r.1 ≤ r.2) ms).
  { assert (Hsort : Forall (λ r, pages_ok r ∧ r.1 ≤ r.2) (sort_ranges rs)) by (by rewrite sort_ranges_perm).
    apply Forall_and. split.
    - apply (merge_fold_ends (λ z, 0 ≤ z ∧ z mod 4096 = 0) (λ z, z < 2 ^ 62 ∧ z mod 4096 = 0)); [done|].
      eapply Forall_impl; [exact Hsort|]. by intros r [? _].
    - apply merge_fold_le; [done|]. eapply Forall_impl; [exact Hsort|]. by intros r [_ ?]. }
  destruct (map_ranges_run ms (kmap s)) as (ok & l2 & m2 & Hmap & Hl2 & Hadd & Hfull); [done|].
  erewrite bind_Ret by (apply on_kmap_run; exact Hmap).
  destruct ok; cbn [negb]; [|by eexists (Some l2), _, b1, l1].
  set (b2 := pcie_write16 (cfg + COMMAND_OFFSET) (Z.lor saved PCI_COMMAND_MEMORY) b1).
  rewrite (bind_Ret _ _ _ tt (set_as_pci (at_bars p d x b2 l1) (set_kmap m2 s1))) by done.
  rewrite (bind_Ret _ _ _ (pcie_read16 (cfg + COMMAND_OFFSET) b2) (set_as_pci (at_bars p d x b2 l1) (set_kmap m2 s1))) by done.
  case_decide; [by eexists (Some l2), _, b2, l1|].
  eexists None, _, b2, l1. split; [done|]. split_and!; [done..|].
  apply Forall_lookup. intros k c Hc. destruct (Forall2_lookup_l _ _ _ _ _ Hrs Hc) as (r & Hr & _).
  destruct (Hcap k c r Hc Hr) as (_ & _ & e & He & HrS & HrE). exists e. split; [done|]. intros y Hy.
  destruct (merge_ranges_covers rs r Hlen ltac:(by eapply list_elem_of_lookup_2)) as (z & Hz & Hz1 & Hz2). fold ms in Hz.
  destruct (PGROUNDDOWN_bounds y) as [Hyb Hym].
  rewrite Forall_forall in Hms. destruct (Hms z Hz) as [Hzok _]. pose proof Hzok as ((? & Hzs) & ? & Hze).
  apply (adds_lookup _ _ _ _ Hadd). rewrite (Hfull eq_refl). apply (range_pages_elem ms z); [done|done| |done].
  split; [|lia]. pose proof (Z.div_mod z.1 4096). pose proof (Z.div_mod (PGROUNDDOWN y) 4096). lia.
Qed.

(** The three ways the operation ends. *)
Definition assigned (s s' : st) (d : nat) (x : pci_device) : Prop :=
  ∃ l', pci_devices (as_pci s') !! d = Some (with_bars l' x) ∧ same_shape (bars x) l' ∧
    placed_upto (as_pci s') d l' 6 ∧ (r_mapped (regions s') = true ∧ caps (regions s') = caps (regions s)) ∧
    Forall (region_mapped (io_view (kmap s')) l') (caps (regions s)).

(** The bus when the device itself is first written: as it was, or after the
    other devices have been probed. *)
Definition untouched (s : st) (d : nat) (b : B) : Prop :=
  b = bus (as_pci s) ∨ ∃ c p, pci_collect_resources d (as_pci s) = Ret (c, p) ∧ b = bus p.

(** What the failure leaves on the bus of a device whose registers were those
    of [b]: nothing written; a Command register that was put back because
    decoding did not stop; all six BAR registers reading as before, and the
    Command register put back; or all six written back, one not taking its
    value, and decoding left off. *)
Inductive bus_undone (cfg : Z) (b : B) : B → Prop :=
  | bus_same : bus_undone cfg b b
  | bus_command saved :
      saved = pcie_read16 (cfg + COMMAND_OFFSET) b → decodes cfg (switch_off cfg saved b) = true →
      bus_undone cfg b (pcie_write16 (cfg + COMMAND_OFFSET) saved (switch_off cfg saved b))
  | bus_back saved b1 b2 :
      saved = pcie_read16 (cfg + COMMAND_OFFSET) b → decodes cfg (switch_off cfg saved b1) = false →
      b2 = bars_back cfg (λ i, pcie_read32 (cfg + BAR_OFFSET + i * 4) (switch_off cfg saved b)) (switch_off cfg saved b1) →
      (∀ i, 0 ≤ i < 6 → pcie_read32 (cfg + BAR_OFFSET + i * 4) b2 = pcie_read32 (cfg + BAR_OFFSET + i * 4) (switch_off cfg saved b)) →
      bus_undone cfg b (pcie_write16 (cfg + COMMAND_OFFSET) saved b2)
  | bus_refused saved b1 b2 i :
      saved = pcie_read16 (cfg + COMMAND_OFFSET) b → decodes cfg (switch_off cfg saved b1) = false →
      b2 = bars_back cfg (λ i, pcie_read32 (cfg + BAR_OFFSET + i * 4) (switch_off cfg saved b)) (switch_off cfg saved b1) →
      0 ≤ i < 6 → pcie_read32 (cfg + BAR_OFFSET + i * 4) b2 ≠ pcie_read32 (cfg + BAR_OFFSET + i * 4) (switch_off cfg saved b) →
      bus_undone cfg b b2.

Definition undone (s s' : st) (d : nat) (x : pci_device) : Prop :=
  pci_devices (as_pci s') !! d = Some x ∧ io_view (kmap s') = io_view (kmap s) ∧ regions s' = regions s ∧
  ∃ b, untouched s d b ∧ bus_undone (pci_cfg_addr x) b (bus (as_pci s')).

(** The device stopped decoding when it was first told to, and goes on when
    it is told again. *)
Definition stuck (s s' : st) (d : nat) (x : pci_device) : Prop :=
  let cfg := pci_cfg_addr x in
  ∃ b b1, untouched s d b ∧ let saved := pcie_read16 (cfg + COMMAND_OFFSET) b in
    decodes cfg (switch_off cfg saved b) = false ∧
    bus (as_pci s') = switch_off cfg saved b1 ∧ decodes cfg (bus (as_pci s')) = true.

(** The end of the rollback as the bus has it. *)
Lemma rolled_back cfg b0 b1 b2 saved d x (p q : pci_state B) :
  saved = pcie_read16 (cfg + COMMAND_OFFSET) b0 → b1 = switch_off cfg saved b0 → decodes cfg (switch_off cfg saved b2) = false →
  let raw := (λ i, pcie_read32 (cfg + BAR_OFFSET + i * 4) b1) <$> seqZ 0 6 in
  let b3 := bars_back cfg (λ i, default 0 (raw !! Z.to_nat i)) (switch_off cfg saved b2) in
  (∀ i, 0 ≤ i < 6 → pcie_read32 (cfg + BAR_OFFSET + i * 4) b3 = default 0 (raw !! Z.to_nat i)) ∧
     q = at_bars p d x (pcie_write16 (cfg + COMMAND_OFFSET) saved b3) (bars x) ∨
  (∃ i, 0 ≤ i < 6 ∧ pcie_read32 (cfg + BAR_OFFSET + i * 4) b3 ≠ default 0 (raw !! Z.to_nat i)) ∧ q = at_bars p d x b3 (bars x) →
  ∃ b', q = at_bars p d x b' (bars x) ∧ bus_undone cfg b0 b'.
Proof.
  intros Hs -> Hoff raw b3.
  assert (Hraw : ∀ i, 0 ≤ i < 6 → default 0 (raw !! Z.to_nat i) = pcie_read32 (cfg + BAR_OFFSET + i * 4) (switch_off cfg saved b0)).
  { intros i Hi. unfold raw. rewrite list_lookup_fmap, lookup_seqZ_lt by lia. simpl. do 2 f_equal. lia. }
  assert (Hb3 : b3 = bars_back cfg (λ i, pcie_read32 (cfg + BAR_OFFSET + i * 4) (switch_off cfg saved b0)) (switch_off cfg saved b2)) by reflexivity.
  intros [[Hall ->]|[(i & Hi & Hne) ->]]; (eexists; split; [done|]).
  - eapply bus_back; [done|exact Hoff|exact Hb3|]. intros i Hi. by rewrite Hall, Hraw.
  - eapply (bus_refused cfg b0 saved b2 b3 i); [done|done|exact Hb3|done|]. by rewrite <- Hraw.
Qed.

Lemma assign_body_regions cfg saved d raw s rs s' :
  assign_body cfg saved d raw s = Ret (Some rs, s') → regions s' = regions s.
Proof.
  unfold assign_body.
  assert (Hpci : ∀ A (m : K (pci_state B) A) (t t' : st) y, on_pci m t = Ret (y, t') → regions t' = regions t).
  { intros A m t t' y. unfold on_pci, zoom. destruct (m (as_pci t)) as [[? ?]| | |]; [|done..]. by intros [= <- <-]. }
  intros (v & s1 & E1%Hpci & H)%bind_Ret_inv. case_decide; [by injection H as <- <-|].
  apply bind_Ret_inv in H as (a & s2 & E2%Hpci & H). case_decide; [injection H as <- <-; congruence|].
  apply bind_Ret_inv in H as (x & s3 & E3%Hpci & H). rewrite bind_gets in H.
  destruct (mapM _ _) as [q|]; [|injection H as <- <-; congruence].
  apply bind_Ret_inv in H as ([ok l] & s4 & E4 & H).
  assert (H4' : regions s4 = regions s3).
  { revert E4. unfold on_kmap, zoom. destruct (map_ranges _ _) as [[? ?]| | |]; [|done..]. intros E. injection E as _ <-. done. }
  destruct ok; cbn [negb] in H; [|injection H as <- <-; congruence].
  apply bind_Ret_inv in H as (u & s5 & E5%Hpci & H). apply bind_Ret_inv in H as (now & s6 & E6%Hpci & H).
  case_decide; [injection H as <- <-; congruence|]. done.
Qed.

Lemma assign_run s d x :
  pci_inv (as_pci s) → pci_devices (as_pci s) !! d = Some x → (d < Z.to_nat (pci_device_count (as_pci s)))%nat →
  Forall cap_ok (caps (regions s)) →
  ∃ r s', pci_assign_memory_bars d s = Ret (r, s') ∧ pci_inv (as_pci s') ∧
    (r = 0 ∧ (if r_mapped (regions s) then s' = s else assigned s s' d x) ∨
     r = -1 ∧ (undone s s' d x ∨ stuck s s' d x)).
Proof.
  intros HI Hx Hdc Hok. unfold pci_assign_memory_bars. rewrite bind_gets.
  assert (Hfail : ∀ t : st, pci_inv (as_pci t) → pci_devices (as_pci t) !! d = Some x → kmap t = kmap s → regions t = regions s →
    (∃ b, untouched s d b ∧ bus_undone (pci_cfg_addr x) b (bus (as_pci t))) →
    ∃ r s', @Ret (Z * st) (-1, t) = Ret (r, s') ∧ pci_inv (as_pci s') ∧
      (r = 0 ∧ (if r_mapped (regions s) then s' = s else assigned s s' d x) ∨ r = -1 ∧ (undone s s' d x ∨ stuck s s' d x))).
  { intros t H0 H1 H2 H3 H4. exists (-1), t. split_and!; [done|done|]. right. split; [done|]. left. unfold undone. by rewrite H2. }
  assert (Hsame : ∃ b, untouched s d b ∧ bus_undone (pci_cfg_addr x) b (bus (as_pci s)))
    by (exists (bus (as_pci s)); split; [by left|constructor]).
  rewrite (bind_Ret _ _ s x s) by (unfold on_pci, zoom, get_device; rewrite Hx; by destruct s).
  destruct (r_valid (regions s)); cbn [negb]; [|by apply Hfail].
  destruct (r_mapped (regions s)) eqn:Hm; [exists 0, s; split_and!; [done|done|by left]|].
  case_decide as Hmem; [by apply Hfail|].
  destruct (collect_run d (as_pci s) HI) as (c & p & Hcol & [HIp Hcnt Hdev] & Hc).
  rewrite (bind_Ret _ _ _ _ _ (on_pci_run _ s _ _ Hcol)). rewrite Hx in Hdev.
  assert (Hun : untouched s d (bus p)) by (right; by exists c, p).
  case_decide as Hneg; [apply (Hfail (set_as_pci p s)); [done..|]; exists (bus p); split; [done|constructor]|].
  destruct (disable_decoding_run (pci_cfg_addr x) (bus p)) as (dis & b1 & Hdis & Hoff).
  rewrite (bind_Ret _ _ _ dis (set_as_pci (set_bus b1 p) s)) by exact (on_pci_run _ (set_as_pci p s) _ _ (on_bus_run _ p _ _ Hdis)).
  assert (HI1 : ∀ b, pci_inv (set_bus b p)) by (intros b; destruct HIp; by split).
  destruct dis as [saved|]; [|apply (Hfail (set_as_pci (set_bus b1 p) s)); [apply HI1|done..|]; exists (bus p); split; [done|];
    destruct Hoff as [Hd1 ->]; by constructor].
  destruct Hoff as (Hsv & Hd0 & Hb1).
  rewrite (bind_Ret _ _ _ x (set_as_pci (set_bus b1 p) s)) by (unfold on_pci, zoom, get_device; simpl; by rewrite Hdev).
  rewrite (bind_Ret _ _ _ b1 (set_as_pci (set_bus b1 p) s)) by done.
  set (raw := _ <$> seqZ 0 6). pose proof (lookup_lt_Some _ _ _ Hdev) as Hd.
  destruct (assign_body_run (pci_cfg_addr x) saved d x p b1 raw (set_as_pci (set_bus b1 p) s)) as (f & s1 & b2 & l & Hrun & Hp1 & Hl & HS & Hf);
    [done|done|by rewrite Hcnt| |done|done|].
  { simpl. rewrite <-(at_bars_id p d x Hdev) at 1. done. }
  rewrite (bind_Ret _ _ _ _ _ Hrun). destruct f as [rs|].
  - destruct Hf as [Hrs Hadd]. pose proof (assign_body_regions _ _ _ _ _ _ _ Hrun) as Hreg.
    destruct (rollback_run (pci_cfg_addr x) saved d x p b2 l (bars x) raw rs s1 (io_view (kmap s)) Hp1 Hd) as (s2 & Hroll & Hreg2 & Hend);
      [apply (bo_len _ (Forall_lookup_1 _ _ _ _ (pv_bars _ HIp) Hdev))|done|done|done|].
    exists (-1), s2. split; [exact Hroll|]. cbv zeta in Hend. destruct Hend as [(Hst & Hp2)|(Hoff & Hv & Hend)].
    + split; [rewrite Hp2; by apply at_bars_inv|]. right. split; [done|]. right. exists (bus p), b2. rewrite Hp2. simpl.
      rewrite <- Hsv. split_and!; [done|congruence|done|done].
    + pose proof (Forall_lookup_1 _ _ _ _ (pv_bars _ HIp) Hdev) as Hbars.
      destruct (rolled_back (pci_cfg_addr x) (bus p) b1 b2 saved d x p (as_pci s2)) as (b' & Hp2 & Hbu); [congruence|congruence|exact Hoff|exact Hend|].
      split; [rewrite Hp2; by apply at_bars_inv|]. right. split; [done|]. left. unfold undone. rewrite Hp2.
      split_and!; [|done|by rewrite Hreg2, Hreg|by exists (bus p)].
      simpl. rewrite list_lookup_insert_eq by done. f_equal. by destruct x.
  - destruct Hf as (HP & [Hmd Hcp] & Hreg). exists 0, s1. split; [done|]. split; [rewrite Hp1; by apply at_bars_inv|].
    left. split; [done|]. exists l. split_and!; [|done..]. rewrite Hp1. simpl. by rewrite list_lookup_insert_eq.
Qed.

Lemma assigned_placed s s' d x :
  pci_inv (as_pci s) → pci_devices (as_pci s) !! d = Some x → assigned s s' d x →
  ∃ l, pci_devices (as_pci s') !! d = Some (with_bars l x) ∧
    (∀ i e, l !! i = Some e → bar_valid e = true → is_io e = false → placed (as_pci s') d i e) ∧
    caps (regions s') = caps (regions s) ∧ Forall (region_mapped (io_view (kmap s')) l) (caps (regions s)).
Proof.
  intros HI Hx (l & Hl & HS & HP & [_ Hcaps] & Hreg). exists l. split_and!; [done| |done|done].
  intros i e Hi Hv Hio. destruct (HP i e Hi Hv Hio) as [H1 H2]. apply H1, H2.
  assert (Hlen : length l = 6%nat).
  { rewrite <-(length_fmap (with_base 0)), HS, length_fmap. apply (Forall_lookup_1 _ _ _ _ (pv_bars _ HI) Hx). }
  pose proof (lookup_lt_Some _ _ _ Hi). lia.
Qed.

(** * Theorems *)

(** C15: pci_assign_memory_bars always returns. When it succeeds, every memory
    BAR of the device lies in the PCI memory window, is aligned to its size
    and shares no byte with any other assigned memory BAR, its own or of
    another device, and the kernel maps every page of the four VirtIO regions. *)
Theorem pci_assign_places s d x :
  pci_inv (as_pci s) → pci_devices (as_pci s) !! d = Some x → (d < Z.to_nat (pci_device_count (as_pci s)))%nat →
  Forall cap_ok (caps (regions s)) →
  ∃ r s', pci_assign_memory_bars d s = Ret (r, s') ∧ pci_inv (as_pci s') ∧
    (r = 0 → r_mapped (regions s) = false →
     ∃ l, pci_devices (as_pci s') !! d = Some (with_bars l x) ∧
       (∀ i e, l !! i = Some e → bar_valid e = true → is_io e = false → placed (as_pci s') d i e) ∧
       Forall (region_mapped (io_view (kmap s')) l) (caps (regions s))).
Proof.
  intros HI Hx Hdc Hok. destruct (assign_run s d x HI Hx Hdc Hok) as (r & s' & Hrun & HI' & Hcase).
  exists r, s'. split_and!; [done|done|]. intros -> Hm. destruct Hcase as [[_ Hc]|[? _]]; [|done].
  rewrite Hm in Hc. destruct (assigned_placed s s' d x HI Hx Hc) as (l & Hl & HP & _ & Hreg). by exists l.
Qed.

(** C23: When pci_assign_memory_bars fails, the BAR table of the device, the
    kernel map of the device pages and the region table are what they were. On
    the bus, either nothing of the device was written, or its Command register
    was put back because decoding did not stop, or the six BAR registers were
    written back with what they held when decoding was switched off: if all of
    them then read so the Command register is put back, else decoding is left
    off. The one other end is a device that stopped decoding the first time it
    was told to and does not stop when it is told again. *)
Theorem pci_assign_undoes s d x :
  pci_inv (as_pci s) → pci_devices (as_pci s) !! d = Some x → (d < Z.to_nat (pci_device_count (as_pci s)))%nat →
  Forall cap_ok (caps (regions s)) →
  ∃ r s', pci_assign_memory_bars d s = Ret (r, s') ∧ (r ≠ 0 → r = -1 ∧ (undone s s' d x ∨ stuck s s' d x)).
Proof.
  intros HI Hx Hdc Hok. destruct (assign_run s d x HI Hx Hdc Hok) as (r & s' & Hrun & _ & Hcase).
  exists r, s'. split; [done|]. intros Hr. by destruct Hcase as [[-> _]|Hc].
Qed.

End assign.

(** ** A concrete device *)

#[export] Instance demo_iomap : IoMap (gmap Z Z).
Proof.
  refine {| io_map va pa m := match m !! va with None => Ret (0, <[va := pa]> m) | Some _ => Ret (-1, m) end;
            io_clear va m := Ret (tt, delete va m); io_view m := m |}.
  - intros va pa m. destruct (m !! va) eqn:H; eexists _, _; (split; [done|]); [by right|by left].
  - intros va m. by eexists.
Defined.

(** Device 1 of [demo_pci], probed, as entry 0 of the table; with [bad], a BAR
    in slot 1, whose register ignores writes. *)
Definition demo_bars (bad : bool) : list pci_bar :=
  [mk_bar 0 0x1000 true false false false; if bad then mk_bar 0 0x1000 true false false false else bar_zero;
   bar_zero; bar_zero; mk_bar 0 0x4000 true false true false; bar_zero].
Definition demo_device (bad : bool) : pci_device := mk_device 0 1 0 0 0x1af4 0x1042 0x10000 1 (demo_bars bad).
Definition demo_cap (ty off len : Z) : virtio_pci_cap := mk_cap 9 0 16 ty 4 0 (0, 0) off len.
Definition demo_regions : virtio_pci_regions :=
  mk_regions (demo_cap 1 0 56) (demo_cap 2 0x3000 4) (demo_cap 3 0x1000 1) (demo_cap 4 0x2000 64) 4 true false 0 0 0 0.
Definition demo_as (bad : bool) : as_state (gmap Z Z) (gmap Z Z) :=
  mk_as (mk_pci (bus demo_pci) (<[0%nat := demo_device bad]> (replicate 32 device_zero)) 1) demo_regions ∅.

Lemma demo_bars_ok bad : bars_ok (demo_bars bad).
Proof.
  assert (H12 : bar_ok (mk_bar 0 0x1000 true false false false)) by (intros _; by exists 12).
  split; [done| |].
  - repeat (apply Forall_cons; split); [done|by destruct bad|done|done| |done|done]. intros _. by exists 14.
  - destruct bad; intros i e; do 6 (destruct i as [|i]; [intros [= <-]; first [done|intros _ _; split; [lia|done]]|]); done.
Qed.
Lemma demo_as_inv bad : pci_inv (as_pci (demo_as bad)).
Proof.
  split; [done|done|]. apply Forall_insert; [apply Forall_replicate, zero_bars_ok|exact (demo_bars_ok bad)].
Qed.
Lemma demo_caps_ok bad : Forall cap_ok (caps (regions (demo_as bad))).
Proof. repeat (apply Forall_cons; split); done. Qed.

(** The two BARs are placed side by side and decoding is switched on; with
    the bad BAR nothing is assigned. *)
Definition demo_assigned (bad : bool) : option (Z * list Z * Z) :=
  match pci_assign_memory_bars 0 (demo_as bad) with
  | Ret (r, s) => Some (r, default [] ((λ x, bar_base <$> bars x) <$> pci_devices (as_pci s) !! 0%nat),
                        pcie_read16 0x8004 (bus (as_pci s)))
  | _ => None
  end.
Example demo_assigned_result :
  demo_assigned false = Some (0, [0x40000000; 0; 0; 0; 0x40004000; 0], 3) ∧
  demo_assigned true = Some (-1, [0; 0; 0; 0; 0; 0], 3).
Proof. split; vm_compute; reflexivity. Qed.

Lemma pci_assign_places_witness :
  ∃ s' l, pci_assign_memory_bars 0 (demo_as false) = Ret (0, s') ∧
    (∀ i e, l !! i = Some e → bar_valid e = true → is_io e = false → placed (as_pci s') 0 i e) ∧
    Forall (region_mapped (io_view (kmap s')) l) (caps demo_regions).
Proof.
  destruct (pci_assign_places (demo_as false) 0 (demo_device false) (demo_as_inv false) eq_refl ltac:(vm_compute; lia) (demo_caps_ok false))
    as (r & s' & Hrun & _ & Hok).
  assert (r = 0) as ->.
  { destruct demo_assigned_result as [H _]. unfold demo_assigned in H. rewrite Hrun in H. injection H as H _ _. exact H. }
  destruct (Hok eq_refl eq_refl) as (l & _ & HP & HR). exists s', l. split; [exact Hrun|]. split; [exact HP|exact HR].
Defined.

Lemma pci_assign_undoes_witness :
  ∃ s', pci_assign_memory_bars 0 (demo_as true) = Ret (-1, s') ∧
    (undone (demo_as true) s' 0 (demo_device true) ∨ stuck (demo_as true) s' 0 (demo_device true)).
Proof.
  destruct (pci_assign_undoes (demo_as true) 0 (demo_device true) (demo_as_inv true) eq_refl ltac:(vm_compute; lia) (demo_caps_ok true))
    as (r & s' & Hrun & Hok).
  assert (r = -1) as ->.
  { destruct demo_assigned_result as [_ H]. unfold demo_assigned in H. rewrite Hrun in H. injection H as H _ _. exact H. }
  exists s'. split; [exact Hrun|]. apply Hok. discriminate.
Defined.
