(* ===== verification/VirtioPci.v ===== *)
(** kernel/driver/virtio_pci.c: the walk of the capability list of the block
    device and the discovery that composes enumeration, probing, the walk and
    the assignment of addresses.

    Capabilities are read from the bus of [PciBus]; [visited] is the C array,
    as the set of its nonzero indices. *)
From S2P Require Import Prelude Pci PciAssign.

(** include/driver/virtio_pci.h, pci.h *)
Definition PCI_VENDOR_ID : Z := 0x1AF4.
Definition PCI_TRANS_BLK_ID : Z := 0x1001.
Definition PCI_MODERN_BLK_ID : Z := 0x1042.
Definition VIRTIO_PCI_CAP_COMMON_CFG : Z := 1.
Definition VIRTIO_PCI_CAP_NOTIFY_CFG : Z := 2.
Definition VIRTIO_PCI_CAP_ISR_CFG : Z := 3.
Definition VIRTIO_PCI_CAP_DEVICE_CFG : Z := 4.
Definition PCI_CAP_ID_VENDOR : Z := 0x09.
Definition PCI_CONFIG_SPACE_SIZE : Z := 256.
Definition PCI_STATUS_CAP_LIST : Z := 16.

(** The four structures the driver looks for. *)
Inductive target := T_common | T_notify | T_isr | T_device.
#[global] Instance target_eq_dec : EqDecision target.
Proof. solve_decision. Defined.

Section scan.
Context {B : Type} {PB : PciBus B}.

Definition read_virtio_pci_cap (addr : Z) (b : B) : virtio_pci_cap :=
  mk_cap (pcie_read8 addr b) (pcie_read8 (addr + 1) b) (pcie_read8 (addr + 2) b) (pcie_read8 (addr + 3) b)
    (pcie_read8 (addr + 4) b) (pcie_read8 (addr + 5) b) (pcie_read8 (addr + 6) b, pcie_read8 (addr + 7) b)
    (pcie_read32 (addr + 8) b) (pcie_read32 (addr + 12) b).

Definition target_of (cfg_type : Z) : option target :=
  if decide (cfg_type = VIRTIO_PCI_CAP_COMMON_CFG) then Some T_common else
  if decide (cfg_type = VIRTIO_PCI_CAP_NOTIFY_CFG) then Some T_notify else
  if decide (cfg_type = VIRTIO_PCI_CAP_ISR_CFG) then Some T_isr else
  if decide (cfg_type = VIRTIO_PCI_CAP_DEVICE_CFG) then Some T_device else None.
Definition min_length (t : target) : Z := match t with T_common => 56 | T_notify => 2 | T_isr => 1 | T_device => 8 end.
Definition alignment (t : target) : Z := match t with T_common => 4 | T_notify => 2 | T_isr => 1 | T_device => 4 end.
Definition get_target (t : target) (r : virtio_pci_regions) : virtio_pci_cap :=
  match t with T_common => r_common r | T_notify => r_notify r | T_isr => r_isr r | T_device => r_device r end.
(** [*target = cap], with the multiplier for the notify structure. *)
Definition set_target (t : target) (c : virtio_pci_cap) (mult : Z) (r : virtio_pci_regions) : virtio_pci_regions :=
  match t with
  | T_common => mk_regions c (r_notify r) (r_isr r) (r_device r) (notify_off_multiplier r) (r_valid r) (r_mapped r)
      (common_va r) (notify_va r) (isr_va r) (device_va r)
  | T_notify => mk_regions (r_common r) c (r_isr r) (r_device r) mult (r_valid r) (r_mapped r)
      (common_va r) (notify_va r) (isr_va r) (device_va r)
  | T_isr => mk_regions (r_common r) (r_notify r) c (r_device r) (notify_off_multiplier r) (r_valid r) (r_mapped r)
      (common_va r) (notify_va r) (isr_va r) (device_va r)
  | T_device => mk_regions (r_common r) (r_notify r) (r_isr r) c (notify_off_multiplier r) (r_valid r) (r_mapped r)
      (common_va r) (notify_va r) (isr_va r) (device_va r)
  end.

(** The checks of one structure against its BAR. *)
Definition region_fits (l : list pci_bar) (t : target) (c : virtio_pci_cap) : Prop :=
  cap_bar c < 6 ∧
  match l !! Z.to_nat (cap_bar c) with
  | None => False
  | Some bar => bar_valid bar = true ∧ min_length t ≤ cap_length c ∧ cap_offset c mod alignment t = 0 ∧
      cap_offset c ≤ bar_size bar ∧ cap_length c ≤ u64 (bar_size bar - cap_offset c)
  end.
#[global] Instance region_fits_dec l t c : Decision (region_fits l t c).
Proof. unfold region_fits. destruct (l !! Z.to_nat (cap_bar c)); apply _. Defined.

(** One capability: [None] is [return -1]; [Some r] the regions found so far. *)
Definition scan_cap (cfg pos : Z) (l : list pci_bar) (found : virtio_pci_regions) (b : B) : option virtio_pci_regions :=
  let addr := cfg + pos in
  if decide (pcie_read8 addr b ≠ PCI_CAP_ID_VENDOR) then Some found else
  let len := pcie_read8 (addr + 2) b in
  if decide (len < 3 ∨ pos + len > PCI_CONFIG_SPACE_SIZE) then None else
  if decide (len < 16) then Some found else
  let cap := read_virtio_pci_cap addr b in
  match target_of (cfg_type cap) with
  | None => Some found
  | Some t =>
      if decide (t = T_notify ∧ len < 20) then None else
      if decide (¬ region_fits l t cap) then None else
      if decide (cap_len (get_target t found) = 0) then Some (set_target t cap (pcie_read32 (addr + 16) b) found)
      else Some found
  end.

(** One round of the walk; the fuel is one more than the number of positions. *)
Definition scan_round (cfg : Z) (l : list pci_bar) (x : Z * gset Z * virtio_pci_regions) :
    K B (Z * gset Z * virtio_pci_regions + option virtio_pci_regions) :=
  let '(pos, visited, found) := x in
  if decide (pos = 0) then mret (inr (Some found)) else
  if decide (pos < 0x40 ∨ Z.land pos 3 ≠ 0 ∨ pos ∈ visited) then mret (inr None) else
  next ← gets (pcie_read8 (cfg + pos + 1));
  r ← gets (scan_cap cfg pos l found);
  match r with
  | None => mret (inr None)
  | Some found => mret (inl (next, {[ pos ]} ∪ visited, found))
  end.

Definition scan_fuel : nat := 50.

(** The result and the new value of [*regions]. *)
Definition virtio_pci_scan_caps (cfg : Z) (l : list pci_bar) : K B (Z * virtio_pci_regions) :=
  status ← gets (pcie_read16 (cfg + STATUS_OFFSET));
  if negb (has status PCI_STATUS_CAP_LIST) then mret (-1, regions_zero) else
  pos ← gets (pcie_read8 (cfg + CAPABILITIES_OFFSET));
  r ← loop scan_fuel (scan_round cfg l) (pos, ∅, regions_zero);
  match r with
  | None => mret (-1, regions_zero)
  | Some found =>
      if decide (Exists (λ c, cap_len c = 0) (caps found)) then mret (-1, regions_zero) else
      mret (0, mk_regions (r_common found) (r_notify found) (r_isr found) (r_device found)
                 (notify_off_multiplier found) true (r_mapped found) (common_va found) (notify_va found) (isr_va found) (device_va found))
  end.

(** ** Lemmas *)

(** What the discovery needs of the regions, whatever the walk found. *)
Definition found_ok (r : virtio_pci_regions) : Prop := r_mapped r = false ∧ Forall cap_ok (caps r).

(** ** Reference

    The list as the bus has it, and the structures of the VirtIO standard:
    their types, sizes and alignments as numbers. *)
Definition virtio_type (t : target) : Z := match t with T_common => 1 | T_notify => 2 | T_isr => 3 | T_device => 4 end.

(** [ps] are the capabilities from [pos] to the end of the list. *)
Fixpoint chain (cfg : Z) (b : B) (pos : Z) (ps : list Z) : Prop :=
  match ps with
  | [] => pos = 0
  | p :: ps => pos = p ∧ 0x40 ≤ p ∧ (4 | p) ∧ chain cfg b (pcie_read8 (cfg + p + 1) b) ps
  end.

(** The capability at [p] describes a structure of type [t]. *)
Definition describes (cfg : Z) (b : B) (t : target) (p : Z) : Prop :=
  pcie_read8 (cfg + p) b = 9 ∧ 16 ≤ pcie_read8 (cfg + p + 2) b ∧ pcie_read8 (cfg + p + 3) b = virtio_type t.
#[global] Instance describes_dec cfg b t p : Decision (describes cfg b t p).
Proof. unfold describes. apply _. Defined.

(** [len] bytes at [off] of BAR [i] can hold a structure of type [t]. *)
Definition big_enough (t : target) (off len : Z) : Prop :=
  match t with
  | T_common => 56 ≤ len ∧ (4 | off)
  | T_notify => 2 ≤ len ∧ (2 | off)
  | T_isr => 1 ≤ len
  | T_device => 8 ≤ len ∧ (4 | off)
  end.
Definition inside_bar (l : list pci_bar) (t : target) (i off len : Z) : Prop :=
  big_enough t off len ∧ ∃ bar, l !! Z.to_nat i = Some bar ∧ bar_valid bar = true ∧ off + len ≤ bar_size bar.

(** A capability that does not spoil the list. *)
Definition sound (cfg : Z) (b : B) (l : list pci_bar) (p : Z) : Prop :=
  pcie_read8 (cfg + p) b = 9 →
  3 ≤ pcie_read8 (cfg + p + 2) b ∧ p + pcie_read8 (cfg + p + 2) b ≤ 256 ∧
  ∀ t, describes cfg b t p →
    inside_bar l t (pcie_read8 (cfg + p + 4) b) (pcie_read32 (cfg + p + 8) b) (pcie_read32 (cfg + p + 12) b) ∧
    (t = T_notify → 20 ≤ pcie_read8 (cfg + p + 2) b).

(** The whole list is sound, ends and has a structure of every type. *)
Record good_list (cfg : Z) (b : B) (l : list pci_bar) (ps : list Z) : Prop := {
  gl_chain : chain cfg b (pcie_read8 (cfg + CAPABILITIES_OFFSET) b) ps;
  gl_nodup : NoDup ps;
  gl_sound : Forall (sound cfg b l) ps;
  gl_every t : ∃ p, p ∈ ps ∧ describes cfg b t p
}.

(** The slots of the BAR table, with 64-bit sizes. *)
Definition bar_table (l : list pci_bar) : Prop := length l = 6%nat ∧ Forall (λ e, bar_valid e = true → 0 ≤ bar_size e < 2 ^ 64) l.

Lemma probed_table l : bars_ok l → bar_table l.
Proof.
  intros [Hlen Hall _]. split; [done|]. eapply Forall_impl; [exact Hall|]. intros e He Hv. destruct (He Hv) as (k & Hk & -> & _).
  split; [lia|]. apply Z.pow_lt_mono_r; lia.
Qed.

Lemma target_of_type n t : target_of n = Some t ↔ n = virtio_type t.
Proof.
  unfold target_of. split.
  - intros Ht. repeat (case_decide; [injection Ht as <-; done|]). done.
  - intros ->. by destruct t.
Qed.

Lemma aligned_iff t c : min_length t ≤ cap_length c ∧ cap_offset c mod alignment t = 0 ↔ big_enough t (cap_offset c) (cap_length c).
Proof. destruct t; simpl; rewrite ?Z.mod_1_r; rewrite <- ?Z.mod_divide by lia; intuition. Qed.

Lemma region_fits_inside l t c : bar_table l → cap_ok c → region_fits l t c ↔ inside_bar l t (cap_bar c) (cap_offset c) (cap_length c).
Proof.
  intros [Hlen Hall] (Hb & Ho & Hl). unfold region_fits, inside_bar. rewrite <- aligned_iff.
  assert (Hmin : 0 < min_length t) by (by destruct t). destruct (l !! _) as [bar|] eqn:Hbar.
  - pose proof (Forall_lookup_1 _ _ _ _ Hall Hbar) as Hs. simpl in Hs. apply lookup_lt_Some in Hbar as Hlt. split.
    + intros (_ & Hv & H1 & H2 & H3 & H4). specialize (Hs Hv). split; [done|]. exists bar. split_and!; [done..|].
      unfold u64 in H4. rewrite Z.mod_small in H4; lia.
    + intros ([H1 H2] & bar' & [= <-] & Hv & Hle). specialize (Hs Hv). split_and!; try done; try lia. unfold u64. rewrite Z.mod_small; lia.
  - split; [by intros []|]. by intros (_ & bar & ? & _).
Qed.

Lemma get_set_target t u c m r : get_target u (set_target t c m r) = if decide (u = t) then c else get_target u r.
Proof. by destruct t, u. Qed.

Lemma read_cap_ok addr b : cap_ok (read_virtio_pci_cap addr b).
Proof.
  unfold cap_ok. simpl. pose proof (pcie_range8 (addr + 4) b). split; [lia|]. split; apply pcie_range32.
Qed.

Lemma scan_cap_ok cfg pos l found b r : found_ok found → scan_cap cfg pos l found b = Some r → found_ok r.
Proof.
  intros Hf. unfold scan_cap. repeat (case_decide; [by intros [= <-]|]).
  set (cap := read_virtio_pci_cap _ _). destruct (target_of (cfg_type cap)) as [t|]; [|by intros [= <-]].
  do 2 (case_decide; [done|]). case_decide; [|by intros [= <-]]. intros [= <-].
  destruct Hf as (F2 & F3). split; [by destruct t|].
  pose proof (read_cap_ok (cfg + pos) b) as Hc. fold cap in Hc. unfold caps in *.
  repeat (apply Forall_cons in F3 as [? F3]). destruct t; simpl; repeat (apply Forall_cons; split; [done|]); done.
Qed.

(** The structure at [p] goes to its field if the field is still empty. *)
Definition taken (cfg : Z) (b : B) (p : Z) (t : target) (c : virtio_pci_cap) : virtio_pci_cap :=
  if decide (describes cfg b t p ∧ cap_len c = 0) then read_virtio_pci_cap (cfg + p) b else c.

Lemma scan_cap_sound cfg p l found b : bar_table l →
  match scan_cap cfg p l found b with
  | None => ¬ sound cfg b l p
  | Some f => sound cfg b l p ∧ ∀ t, get_target t f = taken cfg b p t (get_target t found)
  end.
Proof.
  intros Hl. unfold scan_cap, taken, sound.
  case_decide as Hid; [split; [done|]; intros t; by rewrite decide_False by (by intros [[? _] _])|].
  unfold PCI_CONFIG_SPACE_SIZE. case_decide as Hlen; [intros Hs; destruct (Hs Hid); lia|].
  case_decide as H16; [split; [|intros t; rewrite decide_False; [done|intros [(_ & ? & _) _]; lia]]|].
  { intros _. split_and!; [lia..|]. intros t (_ & ? & _). lia. }
  set (cap := read_virtio_pci_cap _ _). pose proof (read_cap_ok (cfg + p) b : cap_ok cap) as Hcap.
  assert (Hd : ∀ t, describes cfg b t p ↔ target_of (cfg_type cap) = Some t).
  { intros t. rewrite target_of_type. unfold describes. simpl. split; [by intros (_ & _ & ?)|]. intros ?. split_and!; [done|lia|done]. }
  destruct (target_of (cfg_type cap)) as [t|].
  2:{ split; [intros _; split_and!; [lia..|]; by intros t ?%Hd|]. intros t. rewrite decide_False; [done|]. by intros [?%Hd _]. }
  assert (Hdt : describes cfg b t p) by (by apply Hd).
  case_decide as Hn; [intros Hs; destruct (Hs Hid) as (_ & _ & Ht); destruct (Ht t Hdt) as [_ Hlast]; destruct Hn as [? ?]; specialize (Hlast ltac:(done)); lia|].
  case_decide as Hfit.
  { intros Hs. apply Hfit, region_fits_inside; [done|done|]. destruct (Hs Hid) as (_ & _ & Ht). apply (Ht t Hdt). }
  apply region_fits_inside in Hfit; [|done..].
  assert (Hsnd : 3 ≤ pcie_read8 (cfg + p + 2) b ∧ p + pcie_read8 (cfg + p + 2) b ≤ 256 ∧
    ∀ u, describes cfg b u p → inside_bar l u (cap_bar cap) (cap_offset cap) (cap_length cap) ∧ (u = T_notify → 20 ≤ pcie_read8 (cfg + p + 2) b)).
  { split_and!; [lia..|]. intros u [= <-]%Hd. split; [done|]. intros ->. destruct (decide (pcie_read8 (cfg + p + 2) b < 20)); [by exfalso; apply Hn|lia]. }
  case_decide as H0.
  - split; [by intros _|]. intros u. rewrite get_set_target. destruct (decide (u = t)) as [->|Hne]; [by rewrite decide_True|].
    rewrite decide_False; [done|]. intros [[= <-]%Hd _]. done.
  - split; [by intros _|]. intros u. rewrite decide_False; [done|]. intros [[= <-]%Hd ?]. done.
Qed.

(** The positions the walk can accept. *)
Definition cap_positions : list Z := (λ k, 0x40 + 4 * k) <$> seqZ 0 48.

Lemma land3_divide pos : Z.land pos 3 = 0 ↔ (4 | pos).
Proof. change 3 with (2 ^ 2 - 1). rewrite land_ones_mod by lia. change (2 ^ 2) with 4. apply Z.mod_divide. lia. Qed.

Lemma position_in pos : 0x40 ≤ pos < 256 → (4 | pos) → pos ∈ cap_positions.
Proof.
  intros Hp [k ->]. apply list_elem_of_fmap. exists (k - 16). split; [lia|]. apply elem_of_seqZ. lia.
Qed.

Lemma chain_positions cfg b ps pos : 0 ≤ pos < 256 → chain cfg b pos ps → Forall (.∈ cap_positions) ps.
Proof.
  revert pos. induction ps as [|p ps IH]; intros pos Hpos Hc; [done|]. destruct Hc as (-> & ? & ? & Hc).
  apply Forall_cons. split; [apply position_in; [lia|done]|]. eapply IH; [apply pcie_range8|done].
Qed.

Lemma chain_fun cfg b ps qs pos : chain cfg b pos ps → chain cfg b pos qs → ps = qs.
Proof.
  revert qs pos. induction ps as [|p ps IH]; intros [|q qs] pos Hp Hq; [done| | |].
  - destruct Hq as (-> & ? & _). simpl in Hp. lia.
  - destruct Hp as (-> & ? & _). simpl in Hq. lia.
  - destruct Hp as (-> & _ & _ & Hp), Hq as (-> & _ & _ & Hq). f_equal. by eapply IH.
Qed.

Lemma scan_round_run cfg l pos visited found b :
  scan_round cfg l (pos, visited, found) b = Ret (
    if decide (pos = 0) then inr (Some found) else
    if decide (pos < 0x40 ∨ Z.land pos 3 ≠ 0 ∨ pos ∈ visited) then inr None else
    match scan_cap cfg pos l found b with
    | None => inr None
    | Some f => inl (pcie_read8 (cfg + pos + 1) b, {[ pos ]} ∪ visited, f)
    end, b).
Proof. unfold scan_round. do 2 (case_decide; [done|]). kunfold. by destruct (scan_cap cfg pos l found b). Qed.

(** The field of type [t] after the capabilities [ps]. *)
Definition after (cfg : Z) (b : B) (ps : list Z) (t : target) (c : virtio_pci_cap) : virtio_pci_cap :=
  fold_left (λ c p, taken cfg b p t c) ps c.

(** The rest of the walk, with enough fuel for the positions not visited:
    it fails exactly when the rest of the list is not sound. *)
Lemma scan_loop_run cfg l n pos visited found b :
  bar_table l → found_ok found → 0 ≤ pos < 256 → (∀ q, q ∈ visited → q ∈ cap_positions) → (48 < n + size visited)%nat →
  ∃ r, loop n (scan_round cfg l) (pos, visited, found) b = Ret (r, b) ∧
    match r with
    | None => ∀ ps, chain cfg b pos ps → NoDup ps → (∀ q, q ∈ ps → q ∉ visited) → Forall (sound cfg b l) ps → False
    | Some f => found_ok f ∧ ∃ ps, chain cfg b pos ps ∧ NoDup ps ∧ (∀ q, q ∈ ps → q ∉ visited) ∧ Forall (sound cfg b l) ps ∧
        ∀ t, get_target t f = after cfg b ps t (get_target t found)
    end.
Proof.
  intros Hl. revert pos visited found. induction n as [|n IH]; intros pos visited found Hf Hpos Hvis Hn.
  - exfalso. assert (Hsub : visited ⊆ list_to_set cap_positions).
    { intros q Hq. apply elem_of_list_to_set. by apply Hvis. }
    apply subseteq_size in Hsub. assert (size (list_to_set cap_positions : gset Z) = 48%nat) by (vm_compute; reflexivity). lia.
  - cbn [loop]. rewrite (bind_Ret _ _ _ _ _ (scan_round_run cfg l pos visited found b)).
    destruct (decide (pos = 0)) as [->|Hnz].
    { exists (Some found). split; [done|]. split; [done|]. exists []. split_and!; [done|apply NoDup_nil_2|set_solver|done|done]. }
    destruct (decide (_ ∨ _)) as [Hbad|Hok].
    { exists None. split; [done|]. intros [|p ps] Hc Hnd Hv _; [done|]. destruct Hc as (-> & ? & ?%land3_divide & _).
      destruct Hbad as [?|[?|?]]; [lia|done|]. apply (Hv p); [set_solver|done]. }
    pose proof (scan_cap_sound cfg pos l found b Hl) as Hsc. destruct (scan_cap cfg pos l found b) as [f|] eqn:Hs.
    2:{ exists None. split; [done|]. intros [|p ps] Hc _ _ Hsn; [done|]. destruct Hc as (-> & _). by apply Forall_cons in Hsn as []. }
    destruct Hsc as [Hsnd Hget].
    assert (Hp : 0x40 ≤ pos ∧ (4 | pos) ∧ pos ∉ visited).
    { rewrite <- land3_divide. destruct (decide (Z.land pos 3 = 0)); [|tauto]. split_and!; [|done|tauto].
      destruct (decide (pos < 0x40)); [tauto|lia]. }
    destruct Hp as (H40 & H4 & Hnv).
    destruct (IH (pcie_read8 (cfg + pos + 1) b) ({[ pos ]} ∪ visited) f) as (r & Hrun & Hr).
    { by eapply scan_cap_ok. } { apply pcie_range8. }
    { intros q [->%elem_of_singleton|?]%elem_of_union; [apply position_in; [lia|done]|auto]. }
    { rewrite size_union by (by apply disjoint_singleton_l). rewrite size_singleton. lia. }
    exists r. split; [exact Hrun|]. destruct r as [f'|].
    + destruct Hr as (Hf' & ps & Hc & Hnd & Hv & Hsn & Hg). split; [done|]. exists (pos :: ps). split_and!; [done| | | |].
      * apply NoDup_cons. split; [|done]. intros Hin. apply (Hv pos Hin). set_solver.
      * intros q [->|Hq]%elem_of_cons; [done|]. specialize (Hv q Hq). set_solver.
      * by apply Forall_cons.
      * intros t. rewrite Hg, Hget. done.
    + intros [|p ps] Hc Hnd Hv Hsn; [done|]. destruct Hc as (-> & _ & _ & Hc). apply NoDup_cons in Hnd as [Hni Hnd].
      apply Forall_cons in Hsn as [_ Hsn]. apply (Hr ps); [done|done| |done].
      intros q Hq. apply not_elem_of_union. split; [set_solver|apply Hv; set_solver].
Qed.

(** The first capability of a type fills the field. *)
Lemma taken_full cfg b p t c : cap_len c ≠ 0 → taken cfg b p t c = c.
Proof. intros Hc. unfold taken. by rewrite decide_False by (by intros []). Qed.

Lemma after_nonzero cfg b ps t c : cap_len c ≠ 0 → after cfg b ps t c = c.
Proof. intros Hc. induction ps as [|p ps IH]; [done|]. unfold after in *. simpl. rewrite taken_full by done. exact IH. Qed.

Lemma after_first cfg b ps t c : cap_len c = 0 →
  after cfg b ps t c = match list_find (describes cfg b t) ps with Some (_, p) => read_virtio_pci_cap (cfg + p) b | None => c end.
Proof.
  intros Hc. induction ps as [|p ps IH]; [done|]. unfold after in *. simpl. unfold taken at 2. destruct (decide (describes cfg b t p)) as [Hd|Hd].
  - rewrite (decide_True (P := _ ∧ _)) by done. apply after_nonzero. simpl. destruct Hd as (_ & ? & _). lia.
  - rewrite (decide_False (P := _ ∧ _)) by (by intros []). rewrite IH. by destruct (list_find _ ps) as [[]|].
Qed.

Lemma first_found cfg b ps t : cap_len (after cfg b ps t (get_target t regions_zero)) ≠ 0 ↔ ∃ p, p ∈ ps ∧ describes cfg b t p.
Proof.
  assert (Hz : cap_len (get_target t regions_zero) = 0) by (by destruct t). rewrite (after_first _ _ _ _ _ Hz).
  destruct (list_find _ ps) as [[i p]|] eqn:Hf.
  - apply list_find_Some in Hf as (Hi & Hd & _). split; [|by intros _ ?; destruct Hd as (_ & ? & _); simpl in *; lia].
    intros _. exists p. split; [by eapply list_elem_of_lookup_2|done].
  - split; [by rewrite Hz|]. intros (p & Hp & Hd). apply list_find_None in Hf. rewrite Forall_forall in Hf. by apply Hf in Hp.
Qed.

(** * Theorems *)

Lemma all_present f : Exists (λ c, cap_len c = 0) (caps f) ↔ ∃ t, cap_len (get_target t f) = 0.
Proof.
  unfold caps. rewrite !Exists_cons, Exists_nil. split.
  - intros [|[|[|[|[]]]]]; [by exists T_common|by exists T_notify|by exists T_isr|by exists T_device].
  - intros [[] ?]; simpl in *; tauto.
Qed.

(** The walk from the head of the list on. *)
Lemma virtio_pci_scan_caps_run cfg l b :
  bar_table l →
  ∃ r regs, virtio_pci_scan_caps cfg l b = Ret ((r, regs), b) ∧
    (r = 0 ∧ r_valid regs = true ∧ r_mapped regs = false ∧ Forall cap_ok (caps regs) ∧
       has (pcie_read16 (cfg + STATUS_OFFSET) b) PCI_STATUS_CAP_LIST = true ∧
       (∃ ps, good_list cfg b l ps ∧ ∀ t, ∃ i p, list_find (describes cfg b t) ps = Some (i, p) ∧
          get_target t regs = read_virtio_pci_cap (cfg + p) b) ∨
     r = -1 ∧ regs = regions_zero ∧
       (has (pcie_read16 (cfg + STATUS_OFFSET) b) PCI_STATUS_CAP_LIST = true → ∀ ps, ¬ good_list cfg b l ps)).
Proof.
  intros Hl. unfold virtio_pci_scan_caps. rewrite bind_gets.
  destruct (has _ PCI_STATUS_CAP_LIST); cbn [negb]; [|by eexists _, _; split; [|right]].
  rewrite bind_gets.
  destruct (scan_loop_run cfg l scan_fuel (pcie_read8 (cfg + CAPABILITIES_OFFSET) b) ∅ regions_zero b Hl) as (r & Hrun & Hr).
  - split; [done|]. repeat (apply Forall_cons; split; [done|]). done.
  - apply pcie_range8.
  - set_solver.
  - unfold scan_fuel. rewrite size_empty. lia.
  - rewrite (bind_Ret _ _ _ _ _ Hrun). destruct r as [f|].
    2:{ eexists _, _. split; [done|]. right. split_and!; [done..|]. intros _ ps []. eapply Hr; [done|done|set_solver|done]. }
    destruct Hr as ((H2 & H3) & ps & Hc & Hnd & _ & Hsn & Hg). case_decide as He; rewrite all_present in He.
    + eexists _, _. split; [done|]. right. split_and!; [done..|]. intros _ qs [Hc' _ _ Hev].
      destruct He as [t Ht]. rewrite Hg in Ht. destruct (Hev t) as (p & Hp & Hd).
      assert (qs = ps) as -> by (by eapply chain_fun). apply (proj2 (first_found cfg b ps t)); [by exists p|done].
    + assert (Hev : ∀ t, ∃ p, p ∈ ps ∧ describes cfg b t p).
      { intros t. apply first_found. rewrite <- Hg. intros H0. apply He. by exists t. }
      eexists _, _. split; [done|]. left. split_and!; [done..|]. exists ps. split; [by split|]. intros t.
      assert (Hgt : get_target t f = after cfg b ps t (get_target t regions_zero)) by apply Hg.
      rewrite after_first in Hgt by (by destruct t).
      destruct (list_find (describes cfg b t) ps) as [[i p]|] eqn:Hf.
      * exists i, p. split; [done|]. rewrite <- Hgt. by destruct t.
      * exfalso. destruct (Hev t) as (p & Hp & Hd). apply list_find_None in Hf. rewrite Forall_forall in Hf. by apply Hf in Hp.
Qed.

(** C33: The walk of the capability list ends on every device, a list that
    loops included. It succeeds exactly when the status register announces a
    list, the list ends without repeating a position, every vendor capability
    on it is long enough and inside the configuration space, every one that
    describes a VirtIO structure has it inside a BAR of the device with the
    size and alignment of its type, and each of the four types is there; the
    region table then has for each type the first capability of the list that
    describes it. Otherwise it returns -1 and the region table is cleared.
    (The BAR table has six slots with 64-bit sizes.) *)
Theorem virtio_pci_scan_caps_spec cfg l b :
  bar_table l →
  ∃ r regs, virtio_pci_scan_caps cfg l b = Ret ((r, regs), b) ∧
    (r = 0 ∧ r_valid regs = true ∧ r_mapped regs = false ∧ has (pcie_read16 (cfg + STATUS_OFFSET) b) PCI_STATUS_CAP_LIST = true ∧
       (∃ ps, good_list cfg b l ps ∧ ∀ t, ∃ i p, list_find (describes cfg b t) ps = Some (i, p) ∧
          get_target t regs = read_virtio_pci_cap (cfg + p) b) ∨
     r = -1 ∧ regs = regions_zero ∧
       (has (pcie_read16 (cfg + STATUS_OFFSET) b) PCI_STATUS_CAP_LIST = true → ∀ ps, ¬ good_list cfg b l ps)).
Proof.
  intros Hl. destruct (virtio_pci_scan_caps_run cfg l b Hl) as (r & regs & Hrun & Hr). exists r, regs. split; [done|]. tauto.
Qed.

End scan.

(** ** Discovery *)

Section discover.
Context {B : Type} {PB : PciBus B} {M : Type} {IM : IoMap M}.
Abbreviation st := (as_state B M).

Definition capabilities_pointer_scan : K st (option nat) :=
  on_pci pcie_enumerate ;;
  modify (set_regions regions_zero) ;;
  f ← on_pci (pci_find_device PCI_VENDOR_ID PCI_MODERN_BLK_ID);
  f ← (match f with
       | Some d => mret (Some d)
       | None => on_pci (pci_find_device PCI_VENDOR_ID PCI_TRANS_BLK_ID)
       end);
  match f with
  | None => mret None
  | Some d =>
      x ← on_pci (get_device d);
      let cfg := pci_cfg_addr x in
      c ← on_cfg (pci_disable_decoding cfg);
      match c with
      | None => mret None
      | Some saved =>
          result ← on_pci (pci_probe_bar cfg d);
          on_cfg (pci_restore_command saved cfg) ;;
          now ← on_cfg (gets (pcie_read16 (cfg + COMMAND_OFFSET)));
          if decide (now ≠ saved) then mret None else
          if decide (result < 0) then mret None else
          x ← on_pci (get_device d);
          '(r, regs) ← on_cfg (virtio_pci_scan_caps cfg (bars x));
          modify (set_regions regs) ;;
          if decide (r < 0) then mret None else
          a ← pci_assign_memory_bars d;
          if decide (a < 0) then mret None else mret (Some d)
      end
  end.

Lemma find_device_run (p : pci_state B) v id o p' :
  pci_find_device v id p = Ret (o, p') → p' = p ∧ ∀ d, o = Some d →
    ∃ x, pci_devices p !! d = Some x ∧ (d < Z.to_nat (pci_device_count p))%nat ∧ d_vendor x = v ∧ d_device x = id.
Proof.
  unfold pci_find_device. intros [= <- <-]. split; [done|]. intros d ([i x] & Hf & ->)%fmap_Some.
  apply list_find_Some in Hf as (Hi & Hx & _). apply lookup_take_Some in Hi as [Hi Hlt]. simpl. exists x. by destruct Hx.
Qed.

(** The block device the discovery returns. *)
Definition discovered (s : st) (d : nat) : Prop :=
  ∃ x, pci_devices (as_pci s) !! d = Some x ∧ d_vendor x = PCI_VENDOR_ID ∧
    (d_device x = PCI_MODERN_BLK_ID ∨ d_device x = PCI_TRANS_BLK_ID) ∧
    (∀ i e, bars x !! i = Some e → bar_valid e = true → is_io e = false → placed (as_pci s) d i e) ∧
    Forall (region_mapped (io_view (kmap s)) (bars x)) (caps (regions s)).

(** From the scan of the capabilities on. *)
Lemma discover_tail (s : st) d x cfg :
  pci_inv (as_pci s) → pci_devices (as_pci s) !! d = Some x → (d < Z.to_nat (pci_device_count (as_pci s)))%nat →
  d_vendor x = PCI_VENDOR_ID → d_device x = PCI_MODERN_BLK_ID ∨ d_device x = PCI_TRANS_BLK_ID → bar_table (bars x) →
  ∃ o s', ('(r, regs) ← on_cfg (virtio_pci_scan_caps cfg (bars x));
           modify (set_regions regs) ;;
           if decide (r < 0) then mret None else
           a ← pci_assign_memory_bars d;
           if decide (a < 0) then mret None else mret (Some d)) s = Ret (o, s') ∧ pci_inv (as_pci s') ∧
    ∀ d', o = Some d' → discovered s' d'.
Proof.
  intros HI Hx Hdc Hv Hid Hbt. destruct (virtio_pci_scan_caps_run cfg (bars x) (bus (as_pci s)) Hbt) as (r & regs & Hrun & Hr).
  rewrite (bind_Ret _ _ s (r, regs) s) by (etrans; [exact (on_pci_run _ s _ _ (on_bus_run _ (as_pci s) _ _ Hrun))|by destruct s as [[]]]).
  rewrite (bind_Ret _ _ s tt (set_regions regs s) eq_refl).
  destruct Hr as [(-> & _ & Hm & Hcaps & _)|(-> & -> & _)]; [rewrite decide_False by lia|by exists None, (set_regions regions_zero s)].
  destruct (assign_run (set_regions regs s) d x HI Hx Hdc Hcaps) as (a & s' & Ha & HI' & Hcase).
  rewrite (bind_Ret _ _ _ _ _ Ha). destruct Hcase as [[-> Hc]|[-> _]]; [|by exists None, s'].
  exists (Some d), s'. split_and!; [done|done|]. intros d' [= <-]. simpl in Hc. rewrite Hm in Hc.
  destruct (assigned_placed (set_regions regs s) s' d x HI Hx Hc) as (l & Hl & HP & Hcp & Hreg). exists (with_bars l x).
  split_and!; [done|done|done|exact HP|]. by rewrite Hcp.
Qed.

(** C32: Discovery of the block device always returns. If it finds one, it is
    a VirtIO block device whose memory BARs are all placed in the PCI window,
    clear of each other and of every other device, and whose four
    configuration structures are mapped. *)
Theorem capabilities_pointer_scan_spec (s : st) :
  pci_inv (as_pci s) →
  ∃ o s', capabilities_pointer_scan s = Ret (o, s') ∧ pci_inv (as_pci s') ∧ ∀ d, o = Some d → discovered s' d.
Proof.
  intros HI. unfold capabilities_pointer_scan.
  destruct (pcie_enumerate_spec (as_pci s) HI) as (p & Henum & HIp & _).
  rewrite (bind_Ret _ _ _ _ _ (on_pci_run _ s _ _ Henum)).
  rewrite (bind_Ret _ _ _ tt (mk_as p regions_zero (kmap s))) by reflexivity. set (s1 := mk_as p regions_zero (kmap s)).
  destruct (pci_find_device PCI_VENDOR_ID PCI_MODERN_BLK_ID p) as [[f1 p1]| | |] eqn:Hf1; [|done..].
  destruct (find_device_run _ _ _ _ _ Hf1) as [-> Hd1]. rewrite (bind_Ret _ _ s1 f1 s1) by exact (on_pci_run _ s1 _ _ Hf1).
  destruct (pci_find_device PCI_VENDOR_ID PCI_TRANS_BLK_ID p) as [[f2 p2]| | |] eqn:Hf2; [|done..].
  destruct (find_device_run _ _ _ _ _ Hf2) as [-> Hd2].
  set (f := match f1 with Some d => Some d | None => f2 end).
  rewrite (bind_Ret _ _ s1 f s1) by (destruct f1; [done|exact (on_pci_run _ s1 _ _ Hf2)]).
  destruct f as [d|] eqn:Hf; [|by exists None, s1].
  assert (Hd : ∃ x, pci_devices p !! d = Some x ∧ (d < Z.to_nat (pci_device_count p))%nat ∧ d_vendor x = PCI_VENDOR_ID ∧
    (d_device x = PCI_MODERN_BLK_ID ∨ d_device x = PCI_TRANS_BLK_ID)).
  { unfold f in Hf. destruct f1 as [d1|].
    - destruct (Hd1 d Hf) as (x & ? & ? & ? & ?). exists x. auto.
    - destruct (Hd2 d Hf) as (x & ? & ? & ? & ?). exists x. auto. }
  destruct Hd as (x & Hx & Hdc & Hv & Hid). pose proof (lookup_lt_Some _ _ _ Hx) as Hlt.
  rewrite (bind_Ret _ _ s1 x s1) by (unfold on_pci, zoom, get_device; simpl; by rewrite Hx).
  destruct (disable_decoding_run (pci_cfg_addr x) (bus p)) as (c & b1 & Hdis & _).
  rewrite (bind_Ret _ _ s1 c (set_as_pci (set_bus b1 p) s1)) by exact (on_pci_run _ s1 _ _ (on_bus_run _ p _ _ Hdis)).
  assert (HIb : ∀ b, pci_inv (set_bus b p)) by (intros b; destruct HIp; by split).
  destruct c as [saved|]; [|exists None, (set_as_pci (set_bus b1 p) s1); split_and!; [done|apply HIb|done]].
  destruct (pci_probe_bar_run (pci_cfg_addr x) (set_bus b1 p) d x Hx) as (r & b2 & l & Hprobe & Hl & _).
  rewrite (bind_Ret _ _ _ _ _ (on_pci_run _ (set_as_pci (set_bus b1 p) s1) _ _ Hprobe)).
  set (b3 := pcie_write16 (pci_cfg_addr x + COMMAND_OFFSET) saved b2).
  set (q := at_bars (set_bus b1 p) d x b3 l).
  rewrite (bind_Ret _ _ _ tt (set_as_pci q s1)) by reflexivity.
  rewrite (bind_Ret _ _ _ (pcie_read16 (pci_cfg_addr x + COMMAND_OFFSET) b3) (set_as_pci q s1)) by reflexivity.
  assert (HIq : pci_inv q) by (by apply at_bars_inv).
  case_decide; [by exists None, (set_as_pci q s1)|]. case_decide; [by exists None, (set_as_pci q s1)|].
  rewrite (bind_Ret _ _ _ (with_bars l x) (set_as_pci q s1)) by exact (on_pci_run _ (set_as_pci q s1) _ _ (at_bars_get (set_bus b1 p) d x b3 l Hlt)).
  apply (discover_tail (set_as_pci q s1) d (with_bars l x)); [done| |done|done|done|by apply probed_table].
  simpl. by apply list_lookup_insert_eq.
Qed.

End discover.

(** The demonstration device with its capability list: common, ISR, device
    and notify structures in the 64-bit BAR. *)
Definition demo_virtio : as_state (gmap Z Z) (gmap Z Z) :=
  mk_as (mk_pci (list_to_map [(0x8004, 0x00100003); (0x8034, 0x40);
      (0x8040, 0x01105009); (0x8044, 4); (0x8048, 0); (0x804c, 56);
      (0x8050, 0x03106009); (0x8054, 4); (0x8058, 0x1000); (0x805c, 1);
      (0x8060, 0x04107009); (0x8064, 4); (0x8068, 0x2000); (0x806c, 64);
      (0x8070, 0x02140009); (0x8074, 4); (0x8078, 0x3000); (0x807c, 4); (0x8080, 4)] ∪ bus demo_pci)
    (replicate 32 device_zero) 0) regions_zero ∅.

Lemma demo_virtio_inv : pci_inv (as_pci demo_virtio).
Proof. split; [done|done|]. apply Forall_replicate, zero_bars_ok. Qed.

Example demo_discovery :
  match capabilities_pointer_scan demo_virtio with Ret (o, _) => o = Some 0%nat | _ => False end.
Proof. vm_compute. reflexivity. Qed.

Lemma capabilities_pointer_scan_spec_witness :
  ∃ s', capabilities_pointer_scan demo_virtio = Ret (Some 0%nat, s') ∧ discovered s' 0.
Proof.
  destruct (capabilities_pointer_scan_spec demo_virtio demo_virtio_inv) as (o & s' & Hrun & _ & Hd).
  assert (o = Some 0%nat) as -> by (pose proof demo_discovery as H; rewrite Hrun in H; exact H).
  exists s'. split; [exact Hrun|]. apply (Hd 0%nat). reflexivity.
Defined.

Example demo_scan :
  match virtio_pci_scan_caps 0x8000 (demo_bars false) (bus (as_pci demo_virtio)) with Ret ((r, _), _) => r = 0 | _ => False end.
Proof. vm_compute. reflexivity. Qed.

Lemma virtio_pci_scan_caps_spec_witness :
  ∃ regs ps, virtio_pci_scan_caps 0x8000 (demo_bars false) (bus (as_pci demo_virtio)) = Ret ((0, regs), bus (as_pci demo_virtio)) ∧
    good_list 0x8000 (bus (as_pci demo_virtio)) (demo_bars false) ps ∧
    ∀ t, ∃ i p, list_find (describes 0x8000 (bus (as_pci demo_virtio)) t) ps = Some (i, p) ∧
      get_target t regs = read_virtio_pci_cap (0x8000 + p) (bus (as_pci demo_virtio)).
Proof.
  destruct (virtio_pci_scan_caps_spec 0x8000 (demo_bars false) (bus (as_pci demo_virtio)) (probed_table _ (demo_bars_ok false)))
    as (r & regs & Hrun & Hcase).
  pose proof demo_scan as Hd. rewrite Hrun in Hd. destruct Hcase as [(-> & _ & _ & _ & ps & Hps & Hg)|(-> & _)]; [|discriminate Hd].
  exists regs, ps. split; [exact Hrun|]. split; [exact Hps|exact Hg].
Defined.
