(* ===== verification/VirtioBlk.v ===== *)
(** kernel/driver/virtio_blk.c: the descriptors of the queue, the path of a
    request through virtio_disk_rw and the interrupt handler.

    The queue of 64 descriptors is memory that driver and device share.  A
    thread in virtio_disk_rw runs from one point where it may sleep to the
    next; those runs, the interrupt handler and the device interleave
    ([blk_step]).  A sleeping thread runs again only after a wakeup on its
    channel.  The device is the class [BlkDevice]: what VirtIO 1.1 says of a
    block device and its virtqueue (sections 2.6 and 5.2.6). *)
From S2P Require Import Prelude Block Bcache.

(** ** Data *)

Definition NUM : Z := 64.
Definition NO_DESC : Z := 0xff.
Definition VIRTQ_DESC_F_NEXT : Z := 1.
Definition VIRTQ_DESC_F_WRITE : Z := 2.
Definition VIRTIO_BLK_T_IN : Z := 0.
Definition VIRTIO_BLK_T_OUT : Z := 1.

Record virtq_desc := mk_desc { d_addr : Z; d_len : Z; d_flags : Z; d_next : Z }.
Record virtio_blk_req := mk_req { rq_type : Z; rq_reserved : Z; rq_sector : Z }.
(** An element of [info]. *)
Record blk_info := mk_info { in_buffer : option nat; in_status : Z }.
(** The fields of a buffer of the cache that the driver uses. *)
Record io_buf := mk_io { io_data : block; io_blkno : Z; io_done : Z }.

(** [vq_mem]: the pointers to the three areas are set. *)
Record virtqueue := mk_vq {
  vq_mem : bool;
  desc : list virtq_desc;
  avail_idx : Z;
  avail_ring : list Z;
  used_idx : Z;
  used_ring : list Z
}.

(** What sleep and wakeup name. *)
Inductive blk_chan := Chan_desc | Chan_buf (b : nat).
#[global] Instance blk_chan_eq : EqDecision blk_chan.
Proof. solve_decision. Defined.

(** struct VirtioBlkDrvier, the buffers and the wakeup calls made. *)
Record driver := mk_driver {
  vq : virtqueue;
  req : list virtio_blk_req;
  info : list blk_info;
  last_used_idx : Z;
  free_desc_idx : Z;
  io_bufs : list io_buf;
  woken : list blk_chan
}.

Definition set_vq x s := mk_driver x (req s) (info s) (last_used_idx s) (free_desc_idx s) (io_bufs s) (woken s).
Definition set_req x s := mk_driver (vq s) x (info s) (last_used_idx s) (free_desc_idx s) (io_bufs s) (woken s).
Definition set_info x s := mk_driver (vq s) (req s) x (last_used_idx s) (free_desc_idx s) (io_bufs s) (woken s).
Definition set_last_used x s := mk_driver (vq s) (req s) (info s) x (free_desc_idx s) (io_bufs s) (woken s).
Definition set_free_desc x s := mk_driver (vq s) (req s) (info s) (last_used_idx s) x (io_bufs s) (woken s).
Definition set_io_bufs x s := mk_driver (vq s) (req s) (info s) (last_used_idx s) (free_desc_idx s) x (woken s).
Definition set_woken x s := mk_driver (vq s) (req s) (info s) (last_used_idx s) (free_desc_idx s) (io_bufs s) x.
Definition set_desc x s :=
  set_vq (mk_vq (vq_mem (vq s)) x (avail_idx (vq s)) (avail_ring (vq s)) (used_idx (vq s)) (used_ring (vq s))) s.

Definition wake (c : blk_chan) : K driver unit := modify (λ s, set_woken (woken s ++ [c]) s).

(** An element of an array of the driver; an index outside is undefined. *)
Definition at_index {A} (l : driver → list A) (i : Z) : K driver A := λ s,
  match l s !! Z.to_nat i with Some x => if decide (0 ≤ i) then Ret (x, s) else Fault | None => Fault end.
Definition put_desc (i : Z) (d : virtq_desc) : K driver unit := λ s,
  match desc (vq s) !! Z.to_nat i with
  | Some _ => if decide (0 ≤ i) then Ret (tt, set_desc (<[Z.to_nat i := d]> (desc (vq s))) s) else Fault
  | None => Fault
  end.
Definition get_desc (i : Z) : K driver virtq_desc := at_index (λ s, desc (vq s)) i.

(** ** Descriptors *)

Definition init_free_desc_list : K driver unit :=
  forM (seqZ 0 NUM) (λ i, d ← get_desc i; put_desc i (mk_desc (d_addr d) (d_len d) (d_flags d) (u16 (i + 1)))) ;;
  d ← get_desc (NUM - 1);
  put_desc (NUM - 1) (mk_desc (d_addr d) (d_len d) (d_flags d) NO_DESC) ;;
  modify (set_free_desc 0).

Definition alloc_desc : K driver Z :=
  idx ← gets free_desc_idx;
  if decide (idx = NO_DESC) then mret (-1) else
  d ← get_desc idx;
  modify (set_free_desc (d_next d)) ;;
  mret idx.

Definition free_desc (idx : Z) : K driver Z :=
  if decide (idx < 0 ∨ idx >= NUM) then mret (-1) else
  put_desc idx (mk_desc 0 0 0 0) ;; mret 0.

Definition insert_free_desc_list (idx : Z) : K driver unit :=
  r ← free_desc idx;
  if decide (r < 0) then mret tt else
  current ← gets free_desc_idx;
  modify (set_free_desc idx) ;;
  d ← get_desc idx;
  put_desc idx (mk_desc (d_addr d) (d_len d) (d_flags d) (u16 current)).

(** A chain has at most [NUM] descriptors. *)
Definition free_chain_round (idx : Z) : K driver (Z + unit) :=
  if decide (idx = NO_DESC) then mret (inr tt) else
  d ← get_desc idx;
  insert_free_desc_list idx ;;
  mret (inl (d_next d)).
Definition chain_fuel : nat := S (Z.to_nat NUM).
Definition free_chain (idx : Z) : K driver unit :=
  if decide (idx < 0 ∨ idx >= NUM) then mret tt else
  loop chain_fuel free_chain_round idx ;;
  wake Chan_desc.

(** [None] is -1; the loop over three indices is written out. *)
Definition alloc3_desc : K driver (option (Z * Z * Z)) :=
  i0 ← alloc_desc;
  if decide (i0 < 0) then mret None else
  i1 ← alloc_desc;
  if decide (i1 < 0) then insert_free_desc_list i0 ;; mret None else
  i2 ← alloc_desc;
  if decide (i2 < 0) then insert_free_desc_list i0 ;; insert_free_desc_list i1 ;; mret None else
  mret (Some (i0, i1, i2)).

(** ** Requests *)

(** The physical addresses of req[i], of the data of a buffer and of
    info[i].status, which arch_kva_to_pa gives. *)
Class DmaLayout := { req_pa : Z → Z; data_pa : nat → Z; status_pa : Z → Z }.

Definition put_at {A} (l : driver → list A) (set : list A → driver → driver) (i : nat) (x : A) : K driver unit :=
  modify (λ s, set (<[i := x]> (l s)) s).
Definition with_done (n : Z) (y : io_buf) : io_buf := mk_io (io_data y) (io_blkno y) n.
Definition with_data (x : block) (y : io_buf) : io_buf := mk_io x (io_blkno y) (io_done y).

Section driver.
Context `{DmaLayout}.

(** From the request header to the entry of the available ring. *)
Definition rw_fill (b : nat) (write : bool) (i0 i1 i2 : Z) : K driver unit :=
  buffer ← at_index io_bufs (Z.of_nat b);
  _ ← at_index req i0;
  put_at req set_req (Z.to_nat i0)
    (mk_req (if write then VIRTIO_BLK_T_OUT else VIRTIO_BLK_T_IN) 0 (u64 (io_blkno buffer * (BSIZE / 512)))) ;;
  put_desc i0 (mk_desc (req_pa i0) 16 VIRTQ_DESC_F_NEXT (u16 i1)) ;;
  put_desc i1 (mk_desc (data_pa b) BSIZE (Z.lor (if write then 0 else VIRTQ_DESC_F_WRITE) VIRTQ_DESC_F_NEXT) (u16 i2)) ;;
  put_desc i2 (mk_desc (status_pa i0) 1 VIRTQ_DESC_F_WRITE NO_DESC) ;;
  put_at io_bufs set_io_bufs b (with_done 0 buffer) ;;
  x ← at_index info i0;
  put_at info set_info (Z.to_nat i0) (mk_info (Some b) (in_status x)) ;;
  n ← gets (λ s, avail_idx (vq s));
  _ ← at_index (λ s, avail_ring (vq s)) (n mod NUM);
  modify (λ s, set_vq (mk_vq (vq_mem (vq s)) (desc (vq s)) (avail_idx (vq s))
    (<[Z.to_nat (n mod NUM) := u16 i0]> (avail_ring (vq s))) (used_idx (vq s)) (used_ring (vq s))) s).

(** A round of the allocation loop: [None] sleeps on the free list. *)
Definition rw_try (b : nat) (write : bool) : K driver (option (Z * Z * Z)) :=
  r ← alloc3_desc;
  match r with
  | None => mret None
  | Some (i0, i1, i2) => rw_fill b write i0 i1 i2 ;; mret (Some (i0, i1, i2))
  end.

(** virtio_disk_rw up to its first sleep or the first memory barrier. *)
Definition rw_start (b : nat) (write : bool) : K driver (option (Z * Z * Z)) :=
  m ← gets (λ s, vq_mem (vq s));
  if negb m then kpanic "virtio_disk_rw: virtqueue is not initialized" else rw_try b write.

(** Between the barriers; the notification lets the device look, which here
    it may do at any time.  Then the thread sleeps on the buffer. *)
Definition rw_publish : K driver unit :=
  modify (λ s, set_vq (mk_vq (vq_mem (vq s)) (desc (vq s)) (u16 (avail_idx (vq s) + 1)) (avail_ring (vq s))
    (used_idx (vq s)) (used_ring (vq s))) s).

(** After a wakeup: [false] sleeps on the buffer again. *)
Definition rw_resume (b : nat) (i0 : Z) : K driver bool :=
  buffer ← at_index io_bufs (Z.of_nat b);
  if decide (io_done buffer = 0) then mret false else
  x ← at_index info i0;
  put_at info set_info (Z.to_nat i0) (mk_info None (in_status x)) ;;
  free_chain i0 ;;
  mret true.

(** ** The interrupt handler *)

(** Its loop condition. *)
Definition irq_more : K driver bool :=
  l ← gets last_used_idx;
  u ← gets (λ s, used_idx (vq s));
  mret (bool_decide (l ≠ u)).

(** Up to the loop; [reason] is what ack_interrupt returned. *)
Definition irq_enter (reason : Z) : K driver bool :=
  if decide (reason = 0) then mret false else irq_more.

(** The body of the loop, then its condition. *)
Definition irq_round : K driver bool :=
  l ← gets last_used_idx;
  e ← at_index (λ s, used_ring (vq s)) (l mod NUM);
  let id := i32 e in
  if decide (id < 0 ∨ id >= NUM) then kpanic "virtio_disk_intr: invalid used descriptor" else
  x ← at_index info id;
  match in_buffer x with
  | None => kpanic "virtio_disk_intr: invalid used descriptor"
  | Some b =>
      if decide (in_status x ≠ 0) then kpanic "virtio_disk_intr status error" else
      buffer ← at_index io_bufs (Z.of_nat b);
      put_at io_bufs set_io_bufs b (with_done 1 buffer) ;;
      wake (Chan_buf b) ;;
      modify (set_last_used (u16 (l + 1))) ;;
      irq_more
  end.
End driver.

(** ** The device *)

(** The chain at descriptor [h] is a block request: header [i], the data of
    buffer [b], the status byte of [j], each with the access its direction
    needs, for a whole block. *)
Record request_at `{DmaLayout} (s : driver) (h i : Z) (b : nat) (j : Z) (write : bool) (n : Z) : Prop := {
  ra_head : ∃ h1 h2, 
    desc (vq s) !! Z.to_nat h = Some (mk_desc (req_pa i) 16 VIRTQ_DESC_F_NEXT h1) ∧
    desc (vq s) !! Z.to_nat h1 =
      Some (mk_desc (data_pa b) BSIZE (if write then VIRTQ_DESC_F_NEXT else VIRTQ_DESC_F_NEXT + VIRTQ_DESC_F_WRITE) h2) ∧
    ∃ e, desc (vq s) !! Z.to_nat h2 = Some (mk_desc (status_pa j) 1 VIRTQ_DESC_F_WRITE e);
  ra_req : req s !! Z.to_nat i = Some (mk_req (if write then VIRTIO_BLK_T_OUT else VIRTIO_BLK_T_IN) 0 (8 * n));
  ra_status : 0 ≤ j < NUM;
  ra_data : is_Some (io_bufs s !! b)
}.

(** What the device does to the memory of a request that succeeds: the data of
    a read, the status, and the head of the chain in the used ring. *)
Definition respond {D} `{Disk D} (h : Z) (b : nat) (j : Z) (write : bool) (n : Z) (m : D) (s : driver) : driver :=
  mk_driver
    (mk_vq (vq_mem (vq s)) (desc (vq s)) (avail_idx (vq s)) (avail_ring (vq s)) (u16 (used_idx (vq s) + 1))
       (<[Z.to_nat (used_idx (vq s) mod NUM) := h]> (used_ring (vq s))))
    (req s) (alter (λ x, mk_info (in_buffer x) 0) (Z.to_nat j) (info s)) (last_used_idx s) (free_desc_idx s)
    (if write then io_bufs s else alter (with_data (disk_read n m)) b (io_bufs s)) (woken s).
Definition transfer {D} `{Disk D} (write : bool) (n : Z) (x : block) (m : D) : D :=
  if write then disk_write n x m else m.

(** The device takes heads from the available ring in order, keeps them, and
    answers the requests it has in any order. *)
Class BlkDevice (D V : Type) `{DmaLayout, Disk D} := {
  dev_next : V → Z;
  dev_taken : V → list Z;
  dev_media : V → D;
  dev_fetch : driver → V → V → Prop;
  dev_serve : driver → V → Z → driver → V → Prop;
  dev_fetch_ok s v v' : dev_fetch s v v' →
    dev_next v ≠ avail_idx (vq s) ∧ dev_next v' = u16 (dev_next v + 1) ∧ dev_media v' = dev_media v ∧
    ∃ h, avail_ring (vq s) !! Z.to_nat (dev_next v mod NUM) = Some h ∧ dev_taken v' ≡ₚ h :: dev_taken v;
  dev_fetch_can s v h : dev_next v ≠ avail_idx (vq s) →
    avail_ring (vq s) !! Z.to_nat (dev_next v mod NUM) = Some h → ∃ v', dev_fetch s v v';
  dev_serve_ok s v h s' v' i b j write n y : dev_serve s v h s' v' →
    request_at s h i b j write n → io_bufs s !! b = Some y →
    s' = respond h b j write n (dev_media v) s ∧ dev_next v' = dev_next v ∧ dev_taken v ≡ₚ h :: dev_taken v' ∧
    dev_media v' = transfer write n (io_data y) (dev_media v);
  dev_serve_can s v h i b j write n : h ∈ dev_taken v → request_at s h i b j write n →
    ∃ s' v', dev_serve s v h s' v'
}.

(** ** The system *)

Inductive waits :=
  | W_desc (awake : bool)
  | W_post (i : Z * Z * Z)
  | W_done (i : Z * Z * Z) (awake : bool).
(** A thread in virtio_disk_rw: its arguments and where it is. *)
Record thread := mk_thread { th_buf : nat; th_write : bool; th_at : waits }.

(** Who holds blk_lock between two steps. *)
Inductive holder := L_thread (t : Z) | L_irq.
Record sys (V : Type) := mk_sys { drv : driver; dev : V; thr : gmap Z thread; blk_lock : option holder }.
Arguments mk_sys {_} _ _ _ _.
Arguments drv {_} _.
Arguments dev {_} _.
Arguments thr {_} _.
Arguments blk_lock {_} _.

Definition wake_thread (l : list blk_chan) (x : thread) : thread :=
  match th_at x with
  | W_desc _ => if decide (Chan_desc ∈ l) then mk_thread (th_buf x) (th_write x) (W_desc true) else x
  | W_done i _ => if decide (Chan_buf (th_buf x) ∈ l) then mk_thread (th_buf x) (th_write x) (W_done i true) else x
  | W_post _ => x
  end.

(** The state after a run of the driver: its wakeups reach the sleepers. *)
Definition settle {V} (d : driver) (f : gmap Z thread → gmap Z thread) (l : option holder) (c : sys V) : sys V :=
  mk_sys (set_woken [] d) (dev c) (f (wake_thread (woken d) <$> thr c)) l.

(** What the callers of virtio_disk_rw see. *)
Inductive label := Call (t : Z) (b : nat) (write : bool) | Return (t : Z) | Edit (b : nat) (n : Z) (x : block).

Definition started (t : Z) (b : nat) (write : bool) (r : option (Z * Z * Z)) : thread :=
  mk_thread b write (match r with Some i => W_post i | None => W_desc false end).
Definition lock_of (t : Z) (r : option (Z * Z * Z)) : option holder := match r with Some _ => Some (L_thread t) | None => None end.
Definition unused {V} (b : nat) (c : sys V) : Prop := ∀ t x, thr c !! t = Some x → th_buf x ≠ b.

Inductive blk_step {D V} `{BlkDevice D V} : sys V → option label → sys V → Prop :=
  | st_call c t b w r d : blk_lock c = None → thr c !! t = None → unused b c → (b < length (io_bufs (drv c)))%nat →
      rw_start b w (drv c) = Ret (r, d) →
      blk_step c (Some (Call t b w)) (settle d <[t := started t b w r]> (lock_of t r) c)
  | st_retry c t b w r d : blk_lock c = None → thr c !! t = Some (mk_thread b w (W_desc true)) →
      rw_try b w (drv c) = Ret (r, d) →
      blk_step c None (settle d <[t := started t b w r]> (lock_of t r) c)
  | st_publish c t b w i d : thr c !! t = Some (mk_thread b w (W_post i)) → rw_publish (drv c) = Ret (tt, d) →
      blk_step c None (settle d <[t := mk_thread b w (W_done i false)]> None c)
  | st_resume c t b w i d : blk_lock c = None → thr c !! t = Some (mk_thread b w (W_done i true)) →
      rw_resume b i.1.1 (drv c) = Ret (true, d) →
      blk_step c (Some (Return t)) (settle d (delete t) None c)
  | st_again c t b w i d : blk_lock c = None → thr c !! t = Some (mk_thread b w (W_done i true)) →
      rw_resume b i.1.1 (drv c) = Ret (false, d) →
      blk_step c None (settle d <[t := mk_thread b w (W_done i false)]> None c)
  | st_irq c reason go d : blk_lock c = None → irq_enter reason (drv c) = Ret (go, d) →
      blk_step c None (settle d id (if go : bool then Some L_irq else None) c)
  | st_round c go d : blk_lock c = Some L_irq → irq_round (drv c) = Ret (go, d) →
      blk_step c None (settle d id (if go : bool then Some L_irq else None) c)
  | st_fetch c v : dev_fetch (drv c) (dev c) v → blk_step c None (mk_sys (drv c) v (thr c) (blk_lock c))
  | st_serve c h d v : h ∈ dev_taken (dev c) → dev_serve (drv c) (dev c) h d v →
      blk_step c None (mk_sys d v (thr c) (blk_lock c))
  | st_edit c b y n x : unused b c → io_bufs (drv c) !! b = Some y → 0 ≤ n < 2 ^ 61 → block_ok x →
      blk_step c (Some (Edit b n x))
        (mk_sys (set_io_bufs (<[b := mk_io x n (io_done y)]> (io_bufs (drv c))) (drv c)) (dev c) (thr c) (blk_lock c)).

(** ** The free list *)

Fixpoint flist (l : list virtq_desc) (h : Z) (fl : list Z) : Prop :=
  match fl with
  | [] => h = NO_DESC
  | i :: fl => h = i ∧ 0 ≤ i < NUM ∧ ∃ x, l !! Z.to_nat i = Some x ∧ flist l (d_next x) fl
  end.

Lemma flist_range l h fl i : flist l h fl → i ∈ fl → 0 ≤ i < NUM.
Proof. revert h. induction fl as [|j fl IH]; intros h; [by intros _ []%not_elem_of_nil|]. intros (-> & Hr & x & _ & Hf) [->|Hi]%elem_of_cons; eauto. Qed.
Lemma flist_head l h fl : flist l h fl → h = NO_DESC ∧ fl = [] ∨ 0 ≤ h < NUM.
Proof. destruct fl as [|i fl]; simpl; [by left|]. intros (-> & Hr & _). by right. Qed.
Lemma flist_frame l l' h fl :
  (∀ i, i ∈ fl → l' !! Z.to_nat i = l !! Z.to_nat i) → flist l h fl → flist l' h fl.
Proof.
  revert h. induction fl as [|i fl IH]; intros h Hl; [done|]. intros (-> & Hr & x & Hx & Hf).
  split; [done|]. split; [done|]. exists x. split; [rewrite Hl; [done|by left]|]. apply IH; [|done]. intros j Hj. apply Hl. by right.
Qed.

(** The state with another descriptor table and another head. *)
Definition with_free (h : Z) (l : list virtq_desc) (s : driver) : driver := set_free_desc h (set_desc l s).

Lemma at_index_run {A} (l : driver → list A) i s x : 0 ≤ i → l s !! Z.to_nat i = Some x → at_index l i s = Ret (x, s).
Proof. intros Hi Hx. unfold at_index. by rewrite Hx, decide_True. Qed.
Lemma get_desc_run i s x : 0 ≤ i → desc (vq s) !! Z.to_nat i = Some x → get_desc i s = Ret (x, s).
Proof. apply (at_index_run (λ s, desc (vq s))). Qed.
Lemma put_desc_run i d s : 0 ≤ i < Z.of_nat (length (desc (vq s))) →
  put_desc i d s = Ret (tt, set_desc (<[Z.to_nat i := d]> (desc (vq s))) s).
Proof.
  intros Hi. unfold put_desc. destruct (lookup_lt_is_Some_2 (desc (vq s)) (Z.to_nat i)) as [x ->]; [lia|].
  by rewrite decide_True by lia.
Qed.
Lemma put_at_run {A} (l : driver → list A) set i x s : put_at l set i x s = Ret (tt, set (<[i := x]> (l s)) s).
Proof. done. Qed.

Lemma alloc_desc_nil s : flist (desc (vq s)) (free_desc_idx s) [] → alloc_desc s = Ret (-1, s).
Proof. intros Hf. unfold alloc_desc. rewrite bind_gets. by rewrite decide_True. Qed.
Lemma alloc_desc_cons s i fl : flist (desc (vq s)) (free_desc_idx s) (i :: fl) →
  ∃ h, alloc_desc s = Ret (i, set_free_desc h s) ∧ flist (desc (vq s)) h fl ∧ 0 ≤ i < NUM.
Proof.
  intros (Hh & Hr & x & Hx & Hf). exists (d_next x). split; [|done]. unfold alloc_desc. rewrite bind_gets, Hh.
  rewrite decide_False by (unfold NO_DESC, NUM in *; lia).
  rewrite (bind_Ret _ _ _ _ _ (get_desc_run _ _ _ (proj1 Hr) Hx)). done.
Qed.

Lemma insert_free_run s i fl :
  length (desc (vq s)) = Z.to_nat NUM → flist (desc (vq s)) (free_desc_idx s) fl → 0 ≤ i < NUM → i ∉ fl →
  ∃ x, insert_free_desc_list i s = Ret (tt, with_free i (<[Z.to_nat i := x]> (desc (vq s))) s) ∧
    flist (<[Z.to_nat i := x]> (desc (vq s))) i (i :: fl).
Proof.
  intros Hlen Hf Hi Hni. assert (Hc : 0 ≤ free_desc_idx s < 2 ^ 16).
  { apply flist_head in Hf. unfold NO_DESC, NUM in *. lia. }
  set (x := mk_desc 0 0 0 (free_desc_idx s)). exists x. split.
  - unfold insert_free_desc_list, free_desc. rewrite decide_False by lia. rewrite bind_assoc.
    rewrite (bind_Ret _ _ _ _ _ (put_desc_run i _ s ltac:(unfold NUM in *; lia))). rewrite bind_mret, decide_False by lia.
    rewrite bind_gets. rewrite (bind_Ret _ _ _ tt _ eq_refl).
    erewrite bind_Ret; [|apply get_desc_run; [lia|simpl; apply list_lookup_insert_eq; unfold NUM in *; lia]].
    rewrite put_desc_run by (simpl; rewrite length_insert; unfold NUM in *; lia). simpl. unfold x.
    rewrite list_insert_insert_eq. rewrite u16_small by done. by destruct s as [[]].
  - split_and!; [done|unfold NUM in *; lia..|]. exists x. split; [apply list_lookup_insert_eq; unfold NUM in *; lia|].
    simpl. apply (flist_frame (desc (vq s))); [|done]. intros j Hj. rewrite list_lookup_insert_ne; [done|].
    pose proof (flist_range _ _ _ _ Hf Hj). intros ?. apply Hni. by replace i with j by lia.
Qed.

(** The descriptors outside [fl] are as they were. *)
Definition kept (fl : list Z) (l l' : list virtq_desc) : Prop :=
  length l' = length l ∧ ∀ k, 0 ≤ k → k ∉ fl → l' !! Z.to_nat k = l !! Z.to_nat k.
Lemma kept_refl fl l : kept fl l l.
Proof. done. Qed.
Lemma kept_insert fl l i x : 0 ≤ i → i ∈ fl → kept fl l (<[Z.to_nat i := x]> l).
Proof.
  intros Hi Hin. split; [apply length_insert|]. intros k Hk Hnk. apply list_lookup_insert_ne. intros ?. apply Hnk. by replace k with i by lia.
Qed.
Lemma kept_trans fl l1 l2 l3 : kept fl l1 l2 → kept fl l2 l3 → kept fl l1 l3.
Proof. intros [H1 H2] [H3 H4]. split; [congruence|]. intros k Hk Hn. by rewrite H4, H2. Qed.
Lemma with_free_with_free h1 l1 h2 l2 s : with_free h1 l1 (with_free h2 l2 s) = with_free h1 l1 s.
Proof. by destruct s as [[]]. Qed.
Lemma with_free_self s : with_free (free_desc_idx s) (desc (vq s)) s = s.
Proof. by destruct s as [[]]. Qed.

(** alloc3_desc takes three descriptors, or leaves the same ones free. *)
Lemma alloc3_run s fl :
  length (desc (vq s)) = Z.to_nat NUM → flist (desc (vq s)) (free_desc_idx s) fl → NoDup fl →
  (∃ i0 i1 i2 rest h, fl = i0 :: i1 :: i2 :: rest ∧ alloc3_desc s = Ret (Some (i0, i1, i2), set_free_desc h s) ∧
     flist (desc (vq s)) h rest) ∨
  (∃ fl' h l, (length fl < 3)%nat ∧ fl' ≡ₚ fl ∧ alloc3_desc s = Ret (None, with_free h l s) ∧ flist l h fl' ∧
     kept fl (desc (vq s)) l).
Proof.
  intros Hlen Hf Hnd. unfold alloc3_desc.
  destruct fl as [|i0 fl].
  { right. exists [], (free_desc_idx s), (desc (vq s)). rewrite (bind_Ret _ _ _ _ _ (alloc_desc_nil s Hf)), decide_True by lia.
    split_and!; [simpl; lia|done|by rewrite with_free_self|done..]. }
  destruct (alloc_desc_cons s i0 fl Hf) as (h0 & Ha0 & Hf0 & Hr0). rewrite (bind_Ret _ _ _ _ _ Ha0), decide_False by lia.
  set (s0 := set_free_desc h0 s) in *. apply NoDup_cons in Hnd as [Hn0 Hnd].
  destruct fl as [|i1 fl].
  { right. rewrite (bind_Ret _ _ _ _ _ (alloc_desc_nil s0 Hf0)), decide_True by lia.
    destruct (insert_free_run s0 i0 [] Hlen Hf0 Hr0 Hn0) as (x & Hi & Hfx). rewrite (bind_Ret _ _ _ _ _ Hi).
    exists [i0], i0, (<[Z.to_nat i0 := x]> (desc (vq s))). split; [simpl; lia|]. split; [done|]. split; [|split; [exact Hfx|apply kept_insert; [lia|by left]]].
    unfold s0, mret, K_ret. by destruct s as [[]]. }
  destruct (alloc_desc_cons s0 i1 fl Hf0) as (h1 & Ha1 & Hf1 & Hr1). rewrite (bind_Ret _ _ _ _ _ Ha1), decide_False by lia.
  set (s1 := set_free_desc h1 s0) in *. apply NoDup_cons in Hnd as [Hn1 Hnd].
  destruct fl as [|i2 fl].
  { right. rewrite (bind_Ret _ _ _ _ _ (alloc_desc_nil s1 Hf1)), decide_True by lia.
    destruct (insert_free_run s1 i0 [] Hlen Hf1 Hr0 ltac:(set_solver)) as (x & Hi & Hfx). rewrite (bind_Ret _ _ _ _ _ Hi).
    set (s2 := with_free _ _ s1).
    destruct (insert_free_run s2 i1 [i0]) as (y & Hj & Hfy); [simpl; by rewrite length_insert|exact Hfx|done|set_solver|].
    rewrite (bind_Ret _ _ _ _ _ Hj). exists [i1; i0], i1, (<[Z.to_nat i1 := y]> (<[Z.to_nat i0 := x]> (desc (vq s)))).
    split; [simpl; lia|]. split; [apply Permutation_swap|]. split; [|split; [exact Hfy|]].
    - unfold s2, s1, s0, mret, K_ret. by destruct s as [[]].
    - apply (kept_trans _ _ (<[Z.to_nat i0 := x]> (desc (vq s)))); apply kept_insert; [lia|by left|lia|by right; left]. }
  destruct (alloc_desc_cons s1 i2 fl Hf1) as (h2 & Ha2 & Hf2 & Hr2). rewrite (bind_Ret _ _ _ _ _ Ha2), decide_False by lia.
  left. exists i0, i1, i2, fl, h2. split; [done|]. split; [|exact Hf2]. unfold s1, s0, mret, K_ret. by destruct s as [[]].
Qed.

(** free_chain puts the three descriptors of a request back. *)
Lemma free_chain_run s fl i0 i1 i2 x0 x1 x2 :
  length (desc (vq s)) = Z.to_nat NUM → flist (desc (vq s)) (free_desc_idx s) fl →
  NoDup (i0 :: i1 :: i2 :: fl) → Forall (λ i, 0 ≤ i < NUM) [i0; i1; i2] →
  desc (vq s) !! Z.to_nat i0 = Some x0 → d_next x0 = i1 → desc (vq s) !! Z.to_nat i1 = Some x1 → d_next x1 = i2 →
  desc (vq s) !! Z.to_nat i2 = Some x2 → d_next x2 = NO_DESC →
  ∃ l, free_chain i0 s = Ret (tt, set_woken (woken s ++ [Chan_desc]) (with_free i2 l s)) ∧
    flist l i2 (i2 :: i1 :: i0 :: fl) ∧ kept [i0; i1; i2] (desc (vq s)) l.
Proof.
  intros Hlen Hf Hnd Hr H0 E0 H1 E1 H2 E2. apply Forall_cons in Hr as [R0 [R1 [R2 _]%Forall_cons]%Forall_cons].
  unfold free_chain. rewrite decide_False by lia. unfold chain_fuel, NUM. change (Z.to_nat 64) with 64%nat.
  assert (Hround : ∀ i fl t x, length (desc (vq t)) = Z.to_nat NUM → flist (desc (vq t)) (free_desc_idx t) fl → 0 ≤ i < NUM →
    i ∉ fl → desc (vq t) !! Z.to_nat i = Some x → ∃ y, free_chain_round i t = Ret (inl (d_next x), with_free i (<[Z.to_nat i := y]> (desc (vq t))) t) ∧
    flist (<[Z.to_nat i := y]> (desc (vq t))) i (i :: fl)).
  { intros i fl' t x Hl Hft Hi Hni Hx. destruct (insert_free_run t i fl' Hl Hft Hi Hni) as (y & Hrun & Hfy). exists y. split; [|done].
    unfold free_chain_round. rewrite decide_False by (unfold NO_DESC, NUM in *; lia).
    rewrite (bind_Ret _ _ _ _ _ (get_desc_run _ _ _ (proj1 Hi) Hx)). by rewrite (bind_Ret _ _ _ _ _ Hrun). }
  assert (Hne : ∀ a b, 0 ≤ a → 0 ≤ b → a ≠ b → Z.to_nat a ≠ Z.to_nat b) by lia.
  apply NoDup_cons in Hnd as [N0 [N1 [N2 _]%NoDup_cons]%NoDup_cons].
  destruct (Hround i0 fl s x0) as (y0 & Hrun0 & Hf0); [done|done|done|set_solver|done|].
  rewrite loop_S, bind_assoc, (bind_Ret _ _ _ _ _ Hrun0), E0. set (s0 := with_free _ _ s) in *.
  destruct (Hround i1 (i0 :: fl) s0 x1) as (y1 & Hrun1 & Hf1);
    [simpl; by rewrite length_insert|done|done|set_solver|simpl; rewrite list_lookup_insert_ne; [done|apply Hne; [lia..|set_solver]]|].
  rewrite loop_S, bind_assoc, (bind_Ret _ _ _ _ _ Hrun1), E1. set (s1 := with_free _ _ s0) in *.
  destruct (Hround i2 (i1 :: i0 :: fl) s1 x2) as (y2 & Hrun2 & Hf2);
    [simpl; by rewrite !length_insert|done|done|set_solver| |].
  { simpl. rewrite !list_lookup_insert_ne; [done|apply Hne; [lia..|set_solver]|apply Hne; [lia..|set_solver]]. }
  rewrite loop_S, bind_assoc, (bind_Ret _ _ _ _ _ Hrun2), E2. rewrite loop_S.
  eexists. split; [|split; [exact Hf2|split; [simpl; by rewrite !length_insert|]]].
  - unfold s1, s0. by destruct s as [[]].
  - intros k Hk Hnk. simpl. rewrite !list_lookup_insert_ne; [done|apply Hne; [lia..|set_solver]..].
Qed.

(** ** Lists gathered from the threads *)

Definition chain_of (x : thread) : list Z :=
  match th_at x with W_desc _ => [] | W_post i => [i.1.1; i.1.2; i.2] | W_done i _ => [i.1.1; i.1.2; i.2] end.
Definition head_of (x : thread) : list Z := match th_at x with W_done i _ => [i.1.1] | _ => [] end.
Definition collect (f : thread → list Z) (m : gmap Z thread) : list Z := map_to_list m ≫= λ p, f p.2.

Section collect.
Context (f : thread → list Z).

Lemma collect_new m t x : m !! t = None → collect f (<[t := x]> m) ≡ₚ f x ++ collect f m.
Proof. intros Hm. unfold collect. by rewrite (map_to_list_insert m t x Hm). Qed.
Lemma collect_delete m t x : m !! t = Some x → collect f m ≡ₚ f x ++ collect f (delete t m).
Proof.
  intros Hm. rewrite <-(insert_delete_id m t x Hm) at 1. rewrite collect_new; [done|apply lookup_delete_eq].
Qed.
Lemma collect_update m t x y : m !! t = Some y → f y ++ collect f (<[t := x]> m) ≡ₚ f x ++ collect f m.
Proof.
  intros Hm. rewrite (collect_delete m t y Hm). rewrite (collect_delete (<[t := x]> m) t x) by apply lookup_insert_eq.
  rewrite delete_insert_eq. rewrite !app_assoc. by rewrite (Permutation_app_comm (f y)).
Qed.
Lemma collect_put m t x : m !! t = None ∨ (∃ y, m !! t = Some y ∧ f y = []) → collect f (<[t := x]> m) ≡ₚ f x ++ collect f m.
Proof.
  intros [Hm|(y & Hm & Hy)]; [by apply collect_new|]. pose proof (collect_update m t x y Hm) as Hc. by rewrite Hy in Hc.
Qed.
Lemma collect_same m t x y : m !! t = Some y → f y = f x → collect f (<[t := x]> m) ≡ₚ collect f m.
Proof.
  intros Hm Hy. pose proof (collect_update m t x y Hm) as Hc. rewrite Hy in Hc. by apply Permutation_app_inv_l in Hc.
Qed.
Lemma collect_fmap g m : (∀ x, f (g x) = f x) → collect f (g <$> m) ≡ₚ collect f m.
Proof.
  intros Hg. unfold collect. rewrite map_to_list_fmap. induction (map_to_list m) as [|[t x] l IH]; [done|]. simpl. by rewrite IH, Hg.
Qed.
Lemma collect_elem m i : i ∈ collect f m ↔ ∃ t x, m !! t = Some x ∧ i ∈ f x.
Proof.
  unfold collect. rewrite list_elem_of_bind. split.
  - intros ([t x] & Hi & Hm%elem_of_map_to_list). eauto.
  - intros (t & x & Hm & Hi). exists (t, x). split; [done|]. by apply elem_of_map_to_list.
Qed.
Lemma collect_unique m t t' x x' i :
  NoDup (collect f m) → m !! t = Some x → m !! t' = Some x' → i ∈ f x → i ∈ f x' → t = t'.
Proof.
  intros Hnd Hx Hx' Hi Hi'. destruct (decide (t = t')) as [->|Hne]; [done|]. exfalso.
  rewrite (collect_delete m t x Hx) in Hnd. apply NoDup_app in Hnd as (_ & Hd & _). apply (Hd i Hi).
  apply collect_elem. exists t', x'. by rewrite lookup_delete_ne.
Qed.
End collect.

Lemma heads_chains m : (3 * length (collect head_of m) ≤ length (collect chain_of m))%nat.
Proof.
  unfold collect. induction (map_to_list m) as [|[t [b w [a|i|i a]]] l IH]; [done|..]; rewrite !bind_cons, !length_app; simpl; lia.
Qed.
Lemma heads_subset m i : i ∈ collect head_of m → i ∈ collect chain_of m.
Proof.
  rewrite !collect_elem. intros (t & [b w []] & Hm & Hi); simpl in Hi; [by apply not_elem_of_nil in Hi..|].
  exists t, (mk_thread b w (W_done i0 awake)). split; [done|]. simpl. set_solver.
Qed.
Lemma heads_NoDup m : NoDup (collect chain_of m) → NoDup (collect head_of m).
Proof.
  unfold collect. induction (map_to_list m) as [|[t x] l IH]; [done|]. simpl. intros (H1 & H2 & H3)%NoDup_app. apply NoDup_app.
  split_and!; [destruct x as [b w []]; simpl; [constructor..|apply NoDup_singleton]| |by apply IH].
  intros i Hi. specialize (H2 i). intros Hin. apply H2.
  - destruct x as [b w []]; simpl in *; set_solver.
  - apply list_elem_of_bind in Hin as ([t' x'] & Hi' & Hl). apply list_elem_of_bind. exists (t', x'). split; [|done].
    destruct x' as [b w []]; simpl in *; set_solver.
Qed.

(** A segment of a ring from position [k] on. *)
Definition ring_seg (ring : list Z) (k : Z) (l : list Z) : Prop :=
  ∀ n h, l !! n = Some h → ring !! Z.to_nat ((k + Z.of_nat n) mod NUM) = Some h.

Lemma u16_mod k : u16 k mod NUM = k mod NUM.
Proof. apply Z.mod_mod_divide. by exists 1024. Qed.
Lemma ring_seg_tail ring k h l : ring_seg ring k (h :: l) → ring_seg ring (u16 (k + 1)) l.
Proof.
  intros Hs n x Hx. specialize (Hs (S n) x Hx). rewrite <-Hs. f_equal. f_equal.
  rewrite Z.add_mod, u16_mod, <-Z.add_mod by done. f_equal. lia.
Qed.
Lemma ring_seg_head ring k h l : ring_seg ring k (h :: l) → ring !! Z.to_nat (k mod NUM) = Some h.
Proof. intros Hs. specialize (Hs 0%nat h eq_refl). by rewrite Z.add_0_r in Hs. Qed.
Lemma ring_seg_snoc ring k l h :
  ring_seg ring k l → ring !! Z.to_nat ((k + Z.of_nat (length l)) mod NUM) = Some h → ring_seg ring k (l ++ [h]).
Proof.
  intros Hs Hh n x [Hx|[Hn Hx]]%lookup_app_Some; [by apply Hs|]. apply list_lookup_singleton_Some in Hx as [Hz <-].
  by replace n with (length l) by lia.
Qed.
Lemma ring_seg_insert ring k l h j :
  ring_seg ring k l → (length l < Z.to_nat NUM)%nat → j mod NUM = (k + Z.of_nat (length l)) mod NUM →
  ring_seg (<[Z.to_nat (j mod NUM) := h]> ring) k l.
Proof.
  intros Hs Hl Hj n x Hx. rewrite list_lookup_insert_ne; [by apply Hs|]. pose proof (lookup_lt_Some _ _ _ Hx). intros Heq.
  assert (Hm : j mod NUM = (k + Z.of_nat n) mod NUM) by (pose proof (Z.mod_pos_bound j NUM); pose proof (Z.mod_pos_bound (k + Z.of_nat n) NUM); unfold NUM in *; lia).
  rewrite Hj in Hm. unfold NUM in *. pose proof (Z.div_mod (k + Z.of_nat n) 64). pose proof (Z.div_mod (k + Z.of_nat (length l)) 64). lia.
Qed.

(** ** The invariant *)

Definition phase_ok (U Dn : list Z) (i0 : Z) (aw : bool) (y : io_buf) (st : Z) : Prop :=
  (if decide (i0 ∈ Dn) then io_done y = 1 ∧ aw = true else io_done y = 0 ∧ aw = false) ∧ (i0 ∈ U → st = 0).

Definition io_ok (y : io_buf) : Prop := block_ok (io_data y) ∧ 0 ≤ io_blkno y < 2 ^ 61.

Section sys.
Context {D V : Type} `{BlkDevice D V}.

(** The memory of the request a thread made with the chain [i]. *)
Record chain_mem (s : driver) (b : nat) (w : bool) (i : Z * Z * Z) (y : io_buf) (st : Z) : Prop := {
  cm_0 : desc (vq s) !! Z.to_nat i.1.1 = Some (mk_desc (req_pa i.1.1) 16 VIRTQ_DESC_F_NEXT i.1.2);
  cm_1 : desc (vq s) !! Z.to_nat i.1.2 =
    Some (mk_desc (data_pa b) BSIZE (if w then VIRTQ_DESC_F_NEXT else VIRTQ_DESC_F_NEXT + VIRTQ_DESC_F_WRITE) i.2);
  cm_2 : desc (vq s) !! Z.to_nat i.2 = Some (mk_desc (status_pa i.1.1) 1 VIRTQ_DESC_F_WRITE NO_DESC);
  cm_req : req s !! Z.to_nat i.1.1 =
    Some (mk_req (if w then VIRTIO_BLK_T_OUT else VIRTIO_BLK_T_IN) 0 (8 * io_blkno y));
  cm_info : info s !! Z.to_nat i.1.1 = Some (mk_info (Some b) st);
  cm_buf : io_bufs s !! b = Some y
}.

Definition thread_ok (c : sys V) (fl U Dn : list Z) (t : Z) (x : thread) : Prop :=
  match th_at x with
  | W_desc aw => aw = false → (length fl < 3)%nat
  | W_post i => blk_lock c = Some (L_thread t) ∧
      avail_ring (vq (drv c)) !! Z.to_nat (avail_idx (vq (drv c)) mod NUM) = Some i.1.1 ∧
      ∃ y st, chain_mem (drv c) (th_buf x) (th_write x) i y st ∧ io_done y = 0
  | W_done i aw => ∃ y st, chain_mem (drv c) (th_buf x) (th_write x) i y st ∧ phase_ok U Dn i.1.1 aw y st
  end.

(** [fl] is the free list, [P] what the device has not fetched yet, [U] what
    it has answered, [Dn] what the handler has seen. *)
Record blk_inv (c : sys V) (fl P U Dn : list Z) : Prop := {
  bi_len : Forall (λ n, n = Z.to_nat NUM) [length (desc (vq (drv c))); length (avail_ring (vq (drv c)));
    length (used_ring (vq (drv c))); length (req (drv c)); length (info (drv c))];
  bi_mem : vq_mem (vq (drv c)) = true;
  bi_woken : woken (drv c) = [];
  bi_io : Forall io_ok (io_bufs (drv c));
  bi_free : flist (desc (vq (drv c))) (free_desc_idx (drv c)) fl;
  bi_perm : fl ++ collect chain_of (thr c) ≡ₚ seqZ 0 NUM;
  bi_bufs : ∀ t t' x x', thr c !! t = Some x → thr c !! t' = Some x' → th_buf x = th_buf x' → t = t';
  bi_range : ∀ t x, thr c !! t = Some x → (th_buf x < length (io_bufs (drv c)))%nat;
  bi_heads : P ++ dev_taken (dev c) ++ U ++ Dn ≡ₚ collect head_of (thr c);
  bi_P : ring_seg (avail_ring (vq (drv c))) (dev_next (dev c)) P ∧
    avail_idx (vq (drv c)) = u16 (dev_next (dev c) + Z.of_nat (length P)) ∧ 0 ≤ dev_next (dev c) < 2 ^ 16;
  bi_U : ring_seg (used_ring (vq (drv c))) (last_used_idx (drv c)) U ∧
    used_idx (vq (drv c)) = u16 (last_used_idx (drv c) + Z.of_nat (length U)) ∧ 0 ≤ last_used_idx (drv c) < 2 ^ 16;
  bi_irq : blk_lock c = Some L_irq → U ≠ [];
  bi_post : ∀ t, blk_lock c = Some (L_thread t) → ∃ b w i, thr c !! t = Some (mk_thread b w (W_post i));
  bi_thr : ∀ t x, thr c !! t = Some x → thread_ok c fl U Dn t x
}.

(** ** The contract: an atomic disk *)

(** The blocks of the buffers with their numbers, the disk, and for each call
    whether its transfer has happened. *)
Record disk_sys := mk_disk { a_bufs : list (block * Z); a_media : D; a_thr : gmap Z (nat * bool * bool) }.

Inductive disk_step : disk_sys → option label → disk_sys → Prop :=
  | ds_idle a : disk_step a None a
  | ds_call a t b w : a_thr a !! t = None →
      disk_step a (Some (Call t b w)) (mk_disk (a_bufs a) (a_media a) (<[t := (b, w, false)]> (a_thr a)))
  | ds_xfer a t b w x n : a_thr a !! t = Some (b, w, false) → a_bufs a !! b = Some (x, n) →
      disk_step a None
        (mk_disk (if w : bool then a_bufs a else <[b := (disk_read n (a_media a), n)]> (a_bufs a))
           (transfer w n x (a_media a)) (<[t := (b, w, true)]> (a_thr a)))
  | ds_return a t b w : a_thr a !! t = Some (b, w, true) →
      disk_step a (Some (Return t)) (mk_disk (a_bufs a) (a_media a) (delete t (a_thr a)))
  | ds_edit a b n x : (∀ t b' w f, a_thr a !! t = Some (b', w, f) → b' ≠ b) →
      disk_step a (Some (Edit b n x)) (mk_disk (<[b := (x, n)]> (a_bufs a)) (a_media a) (a_thr a)).

Definition answered (U Dn : list Z) (x : thread) : nat * bool * bool :=
  (th_buf x, th_write x, match th_at x with W_done i _ => bool_decide (i.1.1 ∈ U ++ Dn) | _ => false end).
Definition contents (s : driver) : list (block * Z) := (λ y, (io_data y, io_blkno y)) <$> io_bufs s.
Definition view (c : sys V) (U Dn : list Z) : disk_sys :=
  mk_disk (contents (drv c)) (dev_media (dev c)) (answered U Dn <$> thr c).

(** ** How far the requests still have to go *)

Definition todo (x : thread) : list Z :=
  match th_at x with W_desc true => replicate 9 0 | W_desc false => replicate 8 0 | W_post _ => replicate 7 0 | W_done _ _ => [] end.
Definition weight (c : sys V) (P U Dn : list Z) : nat :=
  length (collect todo (thr c)) + 6 * length P + 5 * length (dev_taken (dev c)) + 4 * length U + length Dn +
  match blk_lock c with Some L_irq => 0 | _ => 1 end.

(** A step of the service: not a call, an edit or an interrupt that finds
    nothing to do. *)
Definition lower (n m n' m' : nat) : Prop := (n < n' ∨ n = n' ∧ m < m')%nat.
Definition advances (c : sys V) (P U Dn : list Z) (l : option label) (c' : sys V) (P' U' Dn' : list Z) : Prop :=
  match l with
  | Some (Call _ _ _) | Some (Edit _ _ _) => True
  | _ => c' = c ∨ lower (size (thr c')) (weight c' P' U' Dn') (size (thr c)) (weight c P U Dn)
  end.
Definition next_ok (c : sys V) (P U Dn : list Z) (l : option label) (c' : sys V) : Prop :=
  ∃ fl' P' U' Dn', blk_inv c' fl' P' U' Dn' ∧ disk_step (view c U Dn) l (view c' U' Dn') ∧ advances c P U Dn l c' P' U' Dn'.

(** ** Consequences of the invariant *)

Section inv.
Context (c : sys V) (fl P U Dn : list Z) (HI : blk_inv c fl P U Dn).

Lemma blk_inv_len :
  length (desc (vq (drv c))) = 64%nat ∧ length (avail_ring (vq (drv c))) = 64%nat ∧
  length (used_ring (vq (drv c))) = 64%nat ∧ length (req (drv c)) = 64%nat ∧ length (info (drv c)) = 64%nat.
Proof. pose proof (bi_len _ _ _ _ _ HI) as Hl. rewrite !Forall_cons in Hl. change (Z.to_nat NUM) with 64%nat in Hl. tauto. Qed.
Lemma inv_nodup : NoDup (fl ++ collect chain_of (thr c)).
Proof. rewrite (bi_perm _ _ _ _ _ HI). apply NoDup_seqZ. Qed.
Lemma inv_chain_range i : i ∈ fl ++ collect chain_of (thr c) → 0 ≤ i < NUM.
Proof. rewrite (bi_perm _ _ _ _ _ HI). intros Hi%elem_of_seqZ. lia. Qed.
Lemma inv_thread_range t x i : thr c !! t = Some x → i ∈ chain_of x → 0 ≤ i < NUM.
Proof. intros Hx Hi. apply inv_chain_range, elem_of_app. right. apply collect_elem. eauto. Qed.
Lemma inv_free_chain t x i : thr c !! t = Some x → i ∈ chain_of x → i ∉ fl.
Proof.
  intros Hx Hi Hf. destruct (proj1 (NoDup_app _ _) inv_nodup) as (_ & Hd & _). apply (Hd i Hf), collect_elem. eauto.
Qed.
Lemma inv_chain_unique t t' x x' i :
  thr c !! t = Some x → thr c !! t' = Some x' → i ∈ chain_of x → i ∈ chain_of x' → t = t'.
Proof. apply collect_unique. apply (proj1 (NoDup_app _ _) inv_nodup). Qed.
Lemma inv_short : (3 * (length P + length (dev_taken (dev c)) + length U + length Dn) ≤ 64)%nat.
Proof.
  pose proof (heads_chains (thr c)) as Hh. rewrite <-(Permutation_length (bi_heads _ _ _ _ _ HI)), !length_app in Hh.
  pose proof (Permutation_length (bi_perm _ _ _ _ _ HI)) as Hp. rewrite length_app, length_seqZ in Hp. unfold NUM in Hp. lia.
Qed.
Lemma inv_heads_nodup : NoDup (P ++ dev_taken (dev c) ++ U ++ Dn).
Proof. rewrite (bi_heads _ _ _ _ _ HI). apply heads_NoDup. apply (proj1 (NoDup_app _ _) inv_nodup). Qed.
Lemma inv_head h : h ∈ P ++ dev_taken (dev c) ++ U ++ Dn →
  ∃ t b w i aw, thr c !! t = Some (mk_thread b w (W_done i aw)) ∧ i.1.1 = h.
Proof.
  rewrite (bi_heads _ _ _ _ _ HI), collect_elem. intros (t & [b w [a|i|i a]] & Hx & Hh); simpl in Hh; [set_solver..|].
  exists t, b, w, i, a. set_solver.
Qed.
Lemma inv_head_in t b w i aw : thr c !! t = Some (mk_thread b w (W_done i aw)) → i.1.1 ∈ P ++ dev_taken (dev c) ++ U ++ Dn.
Proof. intros Hx. rewrite (bi_heads _ _ _ _ _ HI), collect_elem. exists t, (mk_thread b w (W_done i aw)). split; [done|]. simpl. set_solver. Qed.
Lemma inv_buf_ok b y : io_bufs (drv c) !! b = Some y → io_ok y.
Proof. apply Forall_lookup_1, (bi_io _ _ _ _ _ HI). Qed.
End inv.

Lemma to_nat_ne a b : 0 ≤ a → 0 ≤ b → a ≠ b → Z.to_nat a ≠ Z.to_nat b.
Proof. lia. Qed.

Lemma request_frame s s' b w i y st :
  chain_mem s b w i y st →
  (∀ k, k ∈ [i.1.1; i.1.2; i.2] → desc (vq s') !! Z.to_nat k = desc (vq s) !! Z.to_nat k) →
  req s' !! Z.to_nat i.1.1 = req s !! Z.to_nat i.1.1 → info s' !! Z.to_nat i.1.1 = info s !! Z.to_nat i.1.1 →
  io_bufs s' !! b = io_bufs s !! b → chain_mem s' b w i y st.
Proof.
  intros [] Hd Hr Hi Hb. split; [rewrite Hd by set_solver; done..|by rewrite Hr|by rewrite Hi|by rewrite Hb].
Qed.

Lemma wake_thread_nil x : wake_thread [] x = x.
Proof. destruct x as [b w []]; done. Qed.
Lemma settle_quiet (d : driver) f l (c : sys V) : woken d = [] → settle d f l c = mk_sys d (dev c) (f (thr c)) l.
Proof.
  intros Hw. unfold settle. rewrite Hw. replace (set_woken [] d) with d by (destruct d; simpl in *; by subst).
  rewrite (map_fmap_ext _ id); [by rewrite map_fmap_id|]. intros t x _. apply wake_thread_nil.
Qed.

(** ** Making a request *)

Definition filled (b : nat) (w : bool) (i : Z * Z * Z) (y : io_buf) (st : Z) (s : driver) : driver :=
  mk_driver
    (mk_vq (vq_mem (vq s))
       (<[Z.to_nat i.2 := mk_desc (status_pa i.1.1) 1 VIRTQ_DESC_F_WRITE NO_DESC]>
         (<[Z.to_nat i.1.2 := mk_desc (data_pa b) BSIZE
              (if w then VIRTQ_DESC_F_NEXT else VIRTQ_DESC_F_NEXT + VIRTQ_DESC_F_WRITE) i.2]>
           (<[Z.to_nat i.1.1 := mk_desc (req_pa i.1.1) 16 VIRTQ_DESC_F_NEXT i.1.2]> (desc (vq s)))))
       (avail_idx (vq s)) (<[Z.to_nat (avail_idx (vq s) mod NUM) := i.1.1]> (avail_ring (vq s)))
       (used_idx (vq s)) (used_ring (vq s)))
    (<[Z.to_nat i.1.1 := mk_req (if w then VIRTIO_BLK_T_OUT else VIRTIO_BLK_T_IN) 0 (8 * io_blkno y)]> (req s))
    (<[Z.to_nat i.1.1 := mk_info (Some b) st]> (info s)) (last_used_idx s) (free_desc_idx s)
    (<[b := with_done 0 y]> (io_bufs s)) (woken s).

Lemma rw_fill_run s b w i0 i1 i2 y x :
  length (desc (vq s)) = 64%nat → length (avail_ring (vq s)) = 64%nat → length (req s) = 64%nat →
  0 ≤ i0 < NUM → 0 ≤ i1 < NUM → 0 ≤ i2 < NUM → io_bufs s !! b = Some y → io_ok y → info s !! Z.to_nat i0 = Some x →
  rw_fill b w i0 i1 i2 s = Ret (tt, filled b w (i0, i1, i2) y (in_status x) s).
Proof.
  intros Hd Ha Hr R0 R1 R2 Hy [_ Hn] Hx. unfold NUM in R0, R1, R2. unfold rw_fill.
  erewrite bind_Ret; [|apply at_index_run; [lia|by rewrite Nat2Z.id]].
  destruct (lookup_lt_is_Some_2 (req s) (Z.to_nat i0)) as [q Hq]; [lia|].
  erewrite bind_Ret; [|apply at_index_run; [lia|done]].
  erewrite bind_Ret; [|apply put_at_run].
  do 3 (erewrite bind_Ret; [|apply put_desc_run; simpl; rewrite ?length_insert; lia]).
  erewrite bind_Ret; [|apply put_at_run].
  erewrite bind_Ret; [|apply at_index_run; [lia|exact Hx]].
  erewrite bind_Ret; [|apply put_at_run]. rewrite bind_gets.
  pose proof (Z.mod_pos_bound (avail_idx (vq s)) NUM ltac:(done)) as Hm. unfold NUM in Hm at 3.
  destruct (lookup_lt_is_Some_2 (avail_ring (vq s)) (Z.to_nat (avail_idx (vq s) mod NUM))) as [r Hrg]; [lia|].
  erewrite bind_Ret; [|apply at_index_run; [simpl; lia|exact Hrg]].
  unfold modify, filled. simpl. rewrite (u16_small i0), (u16_small i1), (u16_small i2) by lia.
  unfold BSIZE. change (4096 / 512) with 8. rewrite (Z.mul_comm _ 8), u64_small by lia.
  destruct s as [[]], w; reflexivity.
Qed.

Lemma filled_chain s b w i y st :
  length (desc (vq s)) = 64%nat → length (req s) = 64%nat → length (info s) = 64%nat →
  NoDup [i.1.1; i.1.2; i.2] → Forall (λ k, 0 ≤ k < NUM) [i.1.1; i.1.2; i.2] → io_bufs s !! b = Some y →
  chain_mem (filled b w i y st s) b w i (with_done 0 y) st.
Proof.
  intros Hd Hr Hi Hnd HR Hy. rewrite !Forall_cons in HR. unfold NUM in HR. destruct HR as (R0 & R1 & R2 & _).
  rewrite !NoDup_cons in Hnd. destruct Hnd as (N0 & N1 & _).
  split; simpl.
  - rewrite !list_lookup_insert_ne by (apply to_nat_ne; [lia..|set_solver]). apply list_lookup_insert_eq. lia.
  - rewrite list_lookup_insert_ne by (apply to_nat_ne; [lia..|set_solver]). apply list_lookup_insert_eq. rewrite length_insert. lia.
  - apply list_lookup_insert_eq. rewrite !length_insert. lia.
  - apply list_lookup_insert_eq. lia.
  - apply list_lookup_insert_eq. lia.
  - apply list_lookup_insert_eq. by eapply lookup_lt_Some.
Qed.

Lemma filled_other s b w i y st b' w' j y' st' :
  chain_mem s b' w' j y' st' → b' ≠ b → Forall (λ k, 0 ≤ k < NUM) [i.1.1; i.1.2; i.2] →
  (∀ k, k ∈ [j.1.1; j.1.2; j.2] → 0 ≤ k ∧ k ∉ [i.1.1; i.1.2; i.2]) → chain_mem (filled b w i y st s) b' w' j y' st'.
Proof.
  intros HC Hb HR Hj. rewrite !Forall_cons in HR. destruct HR as (R0 & R1 & R2 & _).
  destruct (Hj j.1.1) as [Hj0 Hn0]; [set_solver|].
  apply (request_frame s); [done| |simpl..].
  - intros k [Hk Hnk]%Hj. simpl. rewrite !list_lookup_insert_ne by (apply to_nat_ne; [lia..|set_solver]). done.
  - apply list_lookup_insert_ne, to_nat_ne; [lia..|set_solver].
  - apply list_lookup_insert_ne, to_nat_ne; [lia..|set_solver].
  - by apply list_lookup_insert_ne.
Qed.

(** A thread that is new or waits for descriptors. *)
Definition asking (c : sys V) (t : Z) (b : nat) (w : bool) : Prop :=
  (b < length (io_bufs (drv c)))%nat ∧ (∀ t' x, thr c !! t' = Some x → t' ≠ t → th_buf x ≠ b) ∧
  (thr c !! t = None ∨ ∃ aw, thr c !! t = Some (mk_thread b w (W_desc aw))).

Lemma asking_collect f c t b w x : asking c t b w → (∀ aw, f (mk_thread b w (W_desc aw)) = []) →
  collect f (<[t := x]> (thr c)) ≡ₚ f x ++ collect f (thr c).
Proof. intros (_ & _ & Ht) Hf. apply collect_put. destruct Ht as [Ht|[aw Ht]]; [by left|right]. eauto. Qed.
Lemma asking_bufs c t b w a fl P U Dn : blk_inv c fl P U Dn → asking c t b w →
  ∀ t1 t2 x1 x2, <[t := mk_thread b w a]> (thr c) !! t1 = Some x1 → <[t := mk_thread b w a]> (thr c) !! t2 = Some x2 →
    th_buf x1 = th_buf x2 → t1 = t2.
Proof.
  intros HI (_ & Hb & _) t1 t2 x1 x2 [[<- <-]|[Hn1 E1]]%lookup_insert_Some [[<- <-]|[Hn2 E2]]%lookup_insert_Some Heq; [done|..].
  - by destruct (Hb t2 x2 E2).
  - by destruct (Hb t1 x1 E1).
  - by apply (bi_bufs _ _ _ _ _ HI t1 t2 x1 x2).
Qed.

(** Without a holder of the lock no thread is about to publish. *)
Lemma no_post c fl P U Dn t b w i :
  blk_inv c fl P U Dn → blk_lock c = None → thr c !! t = Some (mk_thread b w (W_post i)) → False.
Proof. intros HI Hl Hx. pose proof (bi_thr _ _ _ _ _ HI _ _ Hx) as (Hk & _). simpl in Hk. congruence. Qed.

Lemma try_takes c i0 i1 i2 rest h P U Dn t b w y :
  blk_inv c (i0 :: i1 :: i2 :: rest) P U Dn → blk_lock c = None → asking c t b w → flist (desc (vq (drv c))) h rest →
  io_bufs (drv c) !! b = Some y → ∀ st,
  blk_inv (mk_sys (filled b w (i0, i1, i2) y st (set_free_desc h (drv c))) (dev c)
    (<[t := mk_thread b w (W_post (i0, i1, i2))]> (thr c)) (Some (L_thread t))) rest P U Dn.
Proof.
  intros HI Hlock Hask Hf Hy st. destruct (blk_inv_len _ _ _ _ _ HI) as (Ld & La & Lu & Lr & Li).
  pose proof (inv_nodup _ _ _ _ _ HI) as Hnd. pose proof (inv_short _ _ _ _ _ HI) as Hshort.
  assert (Hr : ∀ k, k ∈ i0 :: i1 :: i2 :: rest → 0 ≤ k < NUM).
  { intros k Hk. apply (inv_chain_range _ _ _ _ _ HI), elem_of_app. by left. }
  assert (HR : Forall (λ k, 0 ≤ k < NUM) [i0; i1; i2]) by (rewrite !Forall_cons; split_and!; try apply Hr; set_solver).
  assert (Hnd3 : NoDup [i0; i1; i2]).
  { apply (NoDup_app [i0; i1; i2] (rest ++ collect chain_of (thr c))) in Hnd. tauto. }
  assert (Hdisj : ∀ k, k ∈ [i0; i1; i2] → k ∉ rest).
  { intros k Hk Hkr. apply (NoDup_app [i0; i1; i2] (rest ++ collect chain_of (thr c))) in Hnd as (_ & Hd & _).
    apply (Hd k Hk), elem_of_app. by left. }
  assert (Hchain : collect chain_of (<[t := mk_thread b w (W_post (i0, i1, i2))]> (thr c)) ≡ₚ [i0; i1; i2] ++ collect chain_of (thr c))
    by exact (asking_collect chain_of c t b w (mk_thread b w (W_post (i0, i1, i2))) Hask (λ _, eq_refl)).
  assert (Hhead : collect head_of (<[t := mk_thread b w (W_post (i0, i1, i2))]> (thr c)) ≡ₚ collect head_of (thr c))
    by exact (asking_collect head_of c t b w (mk_thread b w (W_post (i0, i1, i2))) Hask (λ _, eq_refl)).
  split; simpl.
  - rewrite !Forall_cons, !length_insert. by rewrite Ld, La, Lu, Lr, Li.
  - apply HI.
  - apply HI.
  - apply Forall_insert; [apply HI|]. exact (inv_buf_ok _ _ _ _ _ HI b y Hy).
  - apply (flist_frame (desc (vq (drv c)))); [|done]. intros k Hk. assert (0 ≤ k) by (apply Hr; set_solver).
    rewrite !Forall_cons in HR. rewrite !list_lookup_insert_ne; [done|apply to_nat_ne; [lia..|set_solver]..].
  - rewrite Hchain. rewrite <-(bi_perm _ _ _ _ _ HI). simpl. by rewrite <-!Permutation_middle.
  - by eapply asking_bufs.
  - intros t' x [[<- <-]|[Hn Hx]]%lookup_insert_Some; rewrite length_insert; [apply Hask|]. by apply (bi_range _ _ _ _ _ HI t' x).
  - rewrite Hhead. apply HI.
  - destruct (bi_P _ _ _ _ _ HI) as (HP & HA & HN). split; [|done]. apply ring_seg_insert; [done|unfold NUM; lia|]. by rewrite HA, u16_mod.
  - apply HI.
  - done.
  - intros t' [= <-]. exists b, w, (i0, i1, i2). apply lookup_insert_eq.
  - intros t' x [[<- <-]|[Hn Hx]]%lookup_insert_Some.
    + split; [done|]. split; [|exists (with_done 0 y), st; split; [by apply filled_chain|done]].
      simpl. apply list_lookup_insert_eq. pose proof (Z.mod_pos_bound (avail_idx (vq (drv c))) NUM ltac:(done)). unfold NUM in *. lia.
    + assert (Hfr : ∀ i y' st', chain_of x = [i.1.1; i.1.2; i.2] → chain_mem (drv c) (th_buf x) (th_write x) i y' st' →
        chain_mem (filled b w (i0, i1, i2) y st (set_free_desc h (drv c))) (th_buf x) (th_write x) i y' st').
      { intros i y' st' Hc HC. apply filled_other; [by destruct HC|by apply Hask with t'|done|]. rewrite <-Hc. intros k Hk.
        split; [by apply (inv_thread_range _ _ _ _ _ HI t' x)|]. intros Hk'. apply (inv_free_chain _ _ _ _ _ HI t' x k Hx Hk). set_solver. }
      pose proof (bi_thr _ _ _ _ _ HI t' x Hx) as Hok. destruct x as [b' w' [aw|i|i aw]]; simpl in *.
      * intros Ha. specialize (Hok Ha). simpl in *. lia.
      * destruct Hok as [Hl _]. congruence.
      * destruct Hok as (y' & st' & HC & Hph). exists y', st'. split; [|done]. by apply (Hfr i).
Qed.

Lemma try_sleeps c fl fl' h l P U Dn t b w :
  blk_inv c fl P U Dn → blk_lock c = None → asking c t b w → (length fl < 3)%nat → fl' ≡ₚ fl → flist l h fl' →
  kept fl (desc (vq (drv c))) l →
  blk_inv (mk_sys (with_free h l (drv c)) (dev c) (<[t := mk_thread b w (W_desc false)]> (thr c)) None) fl' P U Dn.
Proof.
  intros HI Hlock Hask Hlt Hperm Hf [Hkl Hk]. destruct (blk_inv_len _ _ _ _ _ HI) as (Ld & La & Lu & Lr & Li).
  assert (Hcol : ∀ f : thread → list Z, (∀ aw, f (mk_thread b w (W_desc aw)) = []) →
    collect f (<[t := mk_thread b w (W_desc false)]> (thr c)) ≡ₚ collect f (thr c)).
  { intros f Hnil. rewrite (asking_collect f _ _ _ _ _ Hask Hnil), Hnil. done. }
  split; simpl; try done; try apply HI.
  - rewrite !Forall_cons. by rewrite Hkl, Ld, La, Lu, Lr, Li.
  - rewrite Hcol, Hperm by done. apply HI.
  - by eapply asking_bufs.
  - intros t' x [[<- <-]|[Hn Hx]]%lookup_insert_Some; [apply Hask|]. by apply (bi_range _ _ _ _ _ HI t' x).
  - rewrite Hcol by done. apply HI.
  - intros t' x [[<- <-]|[Hn Hx]]%lookup_insert_Some; [unfold thread_ok; simpl; intros _; by rewrite Hperm|].
    assert (Hfr : ∀ i y' st', chain_of x = [i.1.1; i.1.2; i.2] → chain_mem (drv c) (th_buf x) (th_write x) i y' st' →
        chain_mem (with_free h l (drv c)) (th_buf x) (th_write x) i y' st').
    { intros i y' st' Hc HC. apply (request_frame (drv c)); [done| |done..]. rewrite <-Hc. intros k Hkc. apply Hk.
      - by apply (inv_thread_range _ _ _ _ _ HI t' x).
      - by apply (inv_free_chain _ _ _ _ _ HI t' x). }
    pose proof (bi_thr _ _ _ _ _ HI t' x Hx) as Hok. destruct x as [b' w' [aw|i|i aw]]; simpl in *.
    + intros Ha. by rewrite Hperm.
    + destruct Hok as [Hl _]. congruence.
    + destruct Hok as (y' & st' & HC & Hph). exists y', st'. split; [|done]. by apply (Hfr i).
Qed.

(** What the callers see does not change when only flags and rings do. *)
Lemma filled_contents s b w i y st : io_bufs s !! b = Some y → contents (filled b w i y st s) = contents s.
Proof.
  intros Hy. unfold contents. simpl. rewrite list_fmap_insert. apply list_insert_id. by rewrite list_lookup_fmap, Hy.
Qed.

Lemma try_run c fl P U Dn t b w :
  blk_inv c fl P U Dn → blk_lock c = None → asking c t b w →
  ∃ r d fl', rw_try b w (drv c) = Ret (r, d) ∧ woken d = [] ∧ contents d = contents (drv c) ∧
    blk_inv (mk_sys d (dev c) (<[t := started t b w r]> (thr c)) (lock_of t r)) fl' P U Dn.
Proof.
  intros HI Hlock Hask. destruct (blk_inv_len _ _ _ _ _ HI) as (Ld & La & Lu & Lr & Li). unfold rw_try.
  pose proof (inv_nodup _ _ _ _ _ HI) as [Hnd _]%NoDup_app.
  destruct (lookup_lt_is_Some_2 (io_bufs (drv c)) b) as [y Hy]; [apply Hask|].
  destruct (alloc3_run (drv c) fl Ld (bi_free _ _ _ _ _ HI) Hnd) as [(i0 & i1 & i2 & rest & h & -> & Hrun & Hf)|(fl' & h & l & Hlt & Hp & Hrun & Hf & Hk)].
  - rewrite (bind_Ret _ _ _ _ _ Hrun).
    assert (Hr : ∀ k, k ∈ i0 :: i1 :: i2 :: rest → 0 ≤ k < NUM) by (intros k; apply (flist_range _ _ _ _ (bi_free _ _ _ _ _ HI))).
    destruct (lookup_lt_is_Some_2 (info (drv c)) (Z.to_nat i0)) as [x Hx].
    { specialize (Hr i0 ltac:(set_solver)). unfold NUM in Hr. lia. }
    erewrite bind_Ret; [|apply (rw_fill_run _ b w i0 i1 i2 y x); try done; [apply Hr; set_solver..|by apply (inv_buf_ok _ _ _ _ _ HI b)]].
    eexists (Some (i0, i1, i2)), _, rest. split; [done|]. split; [apply HI|]. split; [etrans; [apply filled_contents; exact Hy|done]|].
    by apply (try_takes c i0 i1 i2 rest h P U Dn t b w y).
  - rewrite (bind_Ret _ _ _ _ _ Hrun). eexists None, _, fl'. split; [done|]. split; [apply HI|]. split; [done|].
    by apply (try_sleeps c fl fl' h l P U Dn t b w).
Qed.

(** ** The steps of a thread *)

Lemma view_same c c' U Dn U' Dn' :
  contents (drv c') = contents (drv c) → dev_media (dev c') = dev_media (dev c) →
  answered U' Dn' <$> thr c' = answered U Dn <$> thr c → disk_step (view c U Dn) None (view c' U' Dn').
Proof. intros E1 E2 E3. unfold view. rewrite E1, E2, E3. constructor. Qed.

Lemma answered_insert U Dn (m : gmap Z thread) t x a :
  answered U Dn x = a → answered U Dn <$> <[t := x]> m = <[t := a]> (answered U Dn <$> m).
Proof. intros <-. apply fmap_insert. Qed.
Lemma answered_update U Dn (m : gmap Z thread) t x y :
  m !! t = Some y → answered U Dn x = answered U Dn y → answered U Dn <$> <[t := x]> m = answered U Dn <$> m.
Proof. intros Hm Hx. rewrite fmap_insert. apply insert_id. by rewrite lookup_fmap, Hm, Hx. Qed.

Lemma call_next c fl P U Dn t b w r d :
  blk_inv c fl P U Dn → blk_lock c = None → thr c !! t = None → unused b c → (b < length (io_bufs (drv c)))%nat →
  rw_start b w (drv c) = Ret (r, d) →
  next_ok c P U Dn (Some (Call t b w)) (settle d <[t := started t b w r]> (lock_of t r) c).
Proof.
  intros HI Hl Ht Hu Hb Hrun. destruct (try_run c fl P U Dn t b w HI Hl) as (r' & d' & fl' & Hrun' & Hw & Hc & HI').
  { split_and!; [done|by intros t' x Hx _; apply Hu with t'|by left]. }
  unfold rw_start in Hrun. rewrite bind_gets, (bi_mem _ _ _ _ _ HI) in Hrun. simpl in Hrun. rewrite Hrun' in Hrun. injection Hrun as <- <-.
  rewrite settle_quiet by done. exists fl', P, U, Dn. split_and!; [done| |done].
  replace (view (mk_sys d' _ _ _) U Dn) with
    (mk_disk (a_bufs (view c U Dn)) (a_media (view c U Dn)) (<[t := (b, w, false)]> (a_thr (view c U Dn)))).
  - apply ds_call. simpl. by rewrite lookup_fmap, Ht.
  - unfold view. simpl. rewrite Hc. f_equal. symmetry. apply answered_insert. by destruct r'.
Qed.

Lemma size_update (m : gmap Z thread) t x y : m !! t = Some y → size (<[t := x]> m) = size m.
Proof. intros Hm. rewrite map_size_insert_Some by eauto. done. Qed.

Lemma retry_next c fl P U Dn t b w r d :
  blk_inv c fl P U Dn → blk_lock c = None → thr c !! t = Some (mk_thread b w (W_desc true)) →
  rw_try b w (drv c) = Ret (r, d) → next_ok c P U Dn None (settle d <[t := started t b w r]> (lock_of t r) c).
Proof.
  intros HI Hl Ht Hrun. destruct (try_run c fl P U Dn t b w HI Hl) as (r' & d' & fl' & Hrun' & Hw & Hc & HI').
  { split_and!; [by apply (bi_range _ _ _ _ _ HI t _ Ht)| |by right; eexists].
    intros t' x Hx Hne Heq. apply Hne. by apply (bi_bufs _ _ _ _ _ HI t' t x _ Hx Ht). }
  rewrite Hrun' in Hrun. injection Hrun as <- <-. rewrite settle_quiet by done. exists fl', P, U, Dn. split; [done|]. split.
  - apply view_same; [done..|].
    simpl. eapply answered_update; [done|]. by destruct r'.
  - right. right. simpl. split; [by eapply size_update|]. unfold weight. simpl.
    pose proof (Permutation_length (collect_update todo _ t (started t b w r') _ Ht)) as Hlen. rewrite !length_app in Hlen.
    rewrite Hl. destruct r'; simpl in *; lia.
Qed.

Lemma publish_next c fl P U Dn t b w i d :
  blk_inv c fl P U Dn → thr c !! t = Some (mk_thread b w (W_post i)) → rw_publish (drv c) = Ret (tt, d) →
  next_ok c P U Dn None (settle d <[t := mk_thread b w (W_done i false)]> None c).
Proof.
  intros HI Ht [= <-]. rewrite settle_quiet by apply HI. pose proof (inv_nodup _ _ _ _ _ HI) as Hnd.
  destruct (bi_thr _ _ _ _ _ HI t _ Ht) as (Hlock & Hring & y & st & HC & Hdone). simpl in Hlock, Hring, HC.
  assert (Hnew : i.1.1 ∉ P ++ dev_taken (dev c) ++ U ++ Dn).
  { intros (t' & b' & w' & i' & aw & Hx & Hi)%(inv_head _ _ _ _ _ HI).
    assert (t = t') as <-; [|congruence]. eapply (inv_chain_unique _ _ _ _ _ HI t t' _ _ i.1.1 Ht Hx); simpl; rewrite ?Hi; set_solver. }
  exists fl, (P ++ [i.1.1]), U, Dn. split; [|split].
  - split; simpl; try apply HI.
    + rewrite (collect_same chain_of (thr c) t (mk_thread b w (W_done i false)) _ Ht eq_refl). apply HI.
    + intros t1 t2 x1 x2 [[<- <-]|[Hn1 E1]]%lookup_insert_Some [[<- <-]|[Hn2 E2]]%lookup_insert_Some Heq; [done|..];
        eapply (bi_bufs _ _ _ _ _ HI); eauto.
    + intros t' x [[<- <-]|[Hn Hx]]%lookup_insert_Some; eapply (bi_range _ _ _ _ _ HI) in Ht; [done|]. by eapply (bi_range _ _ _ _ _ HI).
    + pose proof (collect_update head_of _ t (mk_thread b w (W_done i false)) _ Ht) as Hp. simpl in Hp. rewrite Hp.
      rewrite <-(bi_heads _ _ _ _ _ HI), <-app_assoc. symmetry. apply Permutation_middle.
    + destruct (bi_P _ _ _ _ _ HI) as (HP & HA & HN). split_and!; [|rewrite HA|lia..].
      * apply ring_seg_snoc; [done|]. by rewrite HA, u16_mod in Hring.
      * rewrite length_app. unfold u16. simpl. rewrite Zplus_mod_idemp_l. f_equal. lia.
    + done.
    + done.
    + intros t' x [[<- <-]|[Hn Hx]]%lookup_insert_Some.
      * exists y, st. split; [by destruct HC|]. split; [rewrite decide_False by set_solver; done|set_solver].
      * pose proof (bi_thr _ _ _ _ _ HI t' x Hx) as Hok. destruct x as [b' w' [aw|i'|i' aw]]; simpl in *; [done| |].
        -- destruct Hok as [Hl _]. congruence.
        -- destruct Hok as (y' & st' & HC' & Hph). exists y', st'. split; [by destruct HC'|done].
  - apply view_same; [done..|].
    simpl. eapply answered_update; [done|]. unfold answered. simpl. rewrite bool_decide_false by set_solver. done.
  - right. right. simpl. split; [by eapply size_update|]. unfold weight. simpl.
    pose proof (Permutation_length (collect_update todo _ t (mk_thread b w (W_done i false)) _ Ht)) as Hlen.
    rewrite !length_app in Hlen. simpl in Hlen. rewrite Hlock, length_app. simpl. lia.
Qed.

Lemma wake_thread_same l x :
  th_buf (wake_thread l x) = th_buf x ∧ th_write (wake_thread l x) = th_write x ∧
  chain_of (wake_thread l x) = chain_of x ∧ head_of (wake_thread l x) = head_of x ∧
  ∀ U Dn, answered U Dn (wake_thread l x) = answered U Dn x.
Proof. destruct x as [b w []]; unfold wake_thread; simpl; [case_decide|..|case_decide]; done. Qed.

Lemma resume_run c fl P U Dn t b w i :
  blk_inv c fl P U Dn → thr c !! t = Some (mk_thread b w (W_done i true)) →
  ∃ l st, i.1.1 ∈ Dn ∧
    rw_resume b i.1.1 (drv c) = Ret (true, set_woken [Chan_desc]
      (with_free i.2 l (set_info (<[Z.to_nat i.1.1 := mk_info None st]> (info (drv c))) (drv c)))) ∧
    flist l i.2 (i.2 :: i.1.2 :: i.1.1 :: fl) ∧ kept [i.1.1; i.1.2; i.2] (desc (vq (drv c))) l.
Proof.
  intros HI Ht. destruct (blk_inv_len _ _ _ _ _ HI) as (Ld & La & Lu & Lr & Li).
  destruct (bi_thr _ _ _ _ _ HI t _ Ht) as (y & st & HC & Hph & _). simpl in HC. case_decide as Hin; [|by destruct Hph].
  destruct Hph as [Hdone _].
  assert (HR : ∀ k, k ∈ [i.1.1; i.1.2; i.2] → 0 ≤ k < NUM) by (intros k; by apply (inv_thread_range _ _ _ _ _ HI t _ k Ht)).
  pose proof (inv_nodup _ _ _ _ _ HI) as Hnd. rewrite (collect_delete chain_of _ _ _ Ht) in Hnd. simpl in Hnd.
  set (s1 := set_info (<[Z.to_nat i.1.1 := mk_info None st]> (info (drv c))) (drv c)).
  edestruct (free_chain_run s1 fl i.1.1 i.1.2 i.2) as (l & Hrun & Hf & Hk);
    [done|apply HI| |rewrite !Forall_cons; split_and!; [by apply HR; set_solver..|done]|apply HC|done|apply HC|done|apply HC|done|].
  { replace (fl ++ i.1.1 :: i.1.2 :: i.2 :: collect chain_of (delete t (thr c)))
      with ((fl ++ [i.1.1; i.1.2; i.2]) ++ collect chain_of (delete t (thr c))) in Hnd by by rewrite <-app_assoc.
    apply NoDup_app in Hnd as [Hnd _]. by rewrite (Permutation_app_comm fl) in Hnd. }
  exists l, st. split; [done|]. split; [|done]. unfold rw_resume.
  erewrite bind_Ret; [|apply at_index_run; [lia|rewrite Nat2Z.id; apply HC]]. rewrite decide_False by (rewrite Hdone; done).
  erewrite bind_Ret; [|apply at_index_run; [apply HR; set_solver|apply HC]].
  erewrite bind_Ret; [|apply put_at_run]. rewrite (bind_Ret _ _ _ _ _ Hrun). simpl. by rewrite (bi_woken _ _ _ _ _ HI).
Qed.

Lemma resume_next c fl P U Dn t b w i d :
  blk_inv c fl P U Dn → blk_lock c = None → thr c !! t = Some (mk_thread b w (W_done i true)) →
  rw_resume b i.1.1 (drv c) = Ret (true, d) → next_ok c P U Dn (Some (Return t)) (settle d (delete t) None c).
Proof.
  intros HI Hlock Ht Hrun. destruct (resume_run c fl P U Dn t b w i HI Ht) as (l & st & Hin & Hrun' & Hf & [Hkl Hk]).
  rewrite Hrun' in Hrun. injection Hrun as <-. destruct (blk_inv_len _ _ _ _ _ HI) as (Ld & La & Lu & Lr & Li).
  apply elem_of_Permutation in Hin as [Dn' HDn].
  pose proof (inv_heads_nodup _ _ _ _ _ HI) as Hnd. rewrite HDn in Hnd.
  assert (Hni : i.1.1 ∉ Dn').
  { rewrite !app_assoc in Hnd. apply NoDup_app in Hnd as (_ & _ & Hnd). by apply NoDup_cons in Hnd as [? _]. }
  assert (Hother : ∀ t' x i' aw, t' ≠ t → thr c !! t' = Some x → th_at x = W_done i' aw →
    i'.1.1 ≠ i.1.1 ∧ (i'.1.1 ∈ Dn' ↔ i'.1.1 ∈ Dn)).
  { intros t' [b' w' a'] i' aw Hne Hx Ha. simpl in Ha. subst a'.
    assert (Hneq : i'.1.1 ≠ i.1.1); [|split; [done|rewrite HDn; set_solver]].
    intros Heq. apply Hne. apply (inv_chain_unique _ _ _ _ _ HI t' t _ _ i.1.1 Hx Ht); simpl; rewrite <-?Heq; set_solver. }
  assert (Hlk : ∀ t' x, delete t (wake_thread [Chan_desc] <$> thr c) !! t' = Some x →
    t' ≠ t ∧ ∃ x0, thr c !! t' = Some x0 ∧ x = wake_thread [Chan_desc] x0).
  { intros t' x [Hne Hx]%lookup_delete_Some. apply lookup_fmap_Some in Hx as (x0 & <- & Hx0). eauto. }
  assert (Hcol : ∀ f, (∀ x, f (wake_thread [Chan_desc] x) = f x) →
    collect f (delete t (wake_thread [Chan_desc] <$> thr c)) ≡ₚ collect f (delete t (thr c))).
  { intros f Hfw. rewrite <-fmap_delete. by apply collect_fmap. }
  exists (i.2 :: i.1.2 :: i.1.1 :: fl), P, U, Dn'. split; [|split].
  - split; simpl; try apply HI; try done.
    + rewrite !Forall_cons, length_insert. by rewrite Hkl, Ld, La, Lu, Lr, Li.
    + rewrite Hcol by (intros; apply wake_thread_same). rewrite <-(bi_perm _ _ _ _ _ HI), (collect_delete chain_of _ _ _ Ht).
      simpl. rewrite <-!Permutation_middle. exact (Permutation_app_tail _ (symmetry (Permutation_rev [i.1.1; i.1.2; i.2]))).
    + intros t1 t2 x1 x2 (Hn1 & y1 & Hy1 & ->)%Hlk (Hn2 & y2 & Hy2 & ->)%Hlk.
      rewrite !(proj1 (wake_thread_same _ _)). by apply (bi_bufs _ _ _ _ _ HI).
    + intros t' x (Hn & x0 & Hx0 & ->)%Hlk. rewrite (proj1 (wake_thread_same _ _)). by apply (bi_range _ _ _ _ _ HI t').
    + rewrite Hcol by (intros; apply wake_thread_same). pose proof (bi_heads _ _ _ _ _ HI) as Hh.
      rewrite HDn, (collect_delete head_of _ _ _ Ht) in Hh. simpl in Hh. rewrite !app_assoc, <-Permutation_middle in Hh.
      apply Permutation_cons_inv in Hh. by rewrite !app_assoc.
    + intros t' x (Hn & x0 & Hx0 & ->)%Hlk. pose proof (bi_thr _ _ _ _ _ HI t' x0 Hx0) as Hok.
      destruct x0 as [b' w' [aw|i'|i' aw]] eqn:Ex.
      * change (wake_thread [Chan_desc] _) with (mk_thread b' w' (W_desc true)). done.
      * destruct Hok as [Hl _]. congruence.
      * replace (wake_thread [Chan_desc] _) with x0 by (rewrite Ex; reflexivity).
        rewrite Ex. destruct Hok as (y' & st' & HC' & Hph & Hu). simpl in HC'. destruct (Hother t' _ i' aw Hn Hx0 eq_refl) as [Hne Hiff].
        exists y', st'. split; [|split; [|done]].
        -- assert (HR : ∀ k, k ∈ [i'.1.1; i'.1.2; i'.2] → 0 ≤ k < NUM) by (intros k; by apply (inv_thread_range _ _ _ _ _ HI t' _ k Hx0)).
           simpl. apply (request_frame (drv c)); [done| |done| |done]; simpl.
           ++ intros k Hkin. apply Hk; [by apply HR|]. intros Hk2. apply Hn.
              apply (inv_chain_unique _ _ _ _ _ HI t' t _ _ k Hx0 Ht); done.
           ++ apply list_lookup_insert_ne, to_nat_ne; [|apply HR; set_solver|done].
              apply (inv_thread_range _ _ _ _ _ HI t _ i.1.1 Ht). simpl. set_solver.
        -- destruct (decide (i'.1.1 ∈ Dn)); [rewrite decide_True by tauto|rewrite decide_False by tauto]; done.
  - replace (view (settle _ _ _ _) U Dn') with
      (mk_disk (a_bufs (view c U Dn)) (a_media (view c U Dn)) (delete t (a_thr (view c U Dn)))).
    + apply (ds_return _ t b w). simpl. rewrite lookup_fmap, Ht. simpl. unfold answered. simpl. rewrite bool_decide_true; [done|]. rewrite HDn. set_solver.
    + unfold view. simpl. f_equal. apply map_eq. intros t'. destruct (decide (t = t')) as [<-|Hne].
      { by rewrite lookup_fmap, !lookup_delete_eq. }
      rewrite lookup_fmap, !lookup_delete_ne, !lookup_fmap by done. destruct (thr c !! t') as [x|] eqn:Hx; [|done]. simpl. f_equal.
      rewrite (proj2 (proj2 (proj2 (proj2 (wake_thread_same _ _))))). unfold answered. f_equal.
      destruct x as [b' w' [aw|i'|i' aw]]; [done..|]. simpl. apply bool_decide_ext.
      destruct (Hother t' _ i' aw ltac:(done) Hx eq_refl) as [_ Hiff]. rewrite !elem_of_app. tauto.
  - right. left. simpl. rewrite map_size_delete_Some by (rewrite lookup_fmap, Ht; eauto). rewrite map_size_fmap.
    assert (size (thr c) ≠ 0%nat); [|lia]. intros Hz%map_size_empty_iff. rewrite Hz in Ht. by rewrite lookup_empty in Ht.
Qed.

(** ** The interrupt handler *)

Lemma irq_more_run s : irq_more s = Ret (bool_decide (last_used_idx s ≠ used_idx (vq s)), s).
Proof. done. Qed.
Lemma used_more k n : 0 ≤ k < 2 ^ 16 → (n < 64)%nat → (k ≠ u16 (k + Z.of_nat n)) ↔ (n ≠ 0%nat).
Proof.
  intros Hk Hn. unfold u16. split; [intros Hne ->; apply Hne; rewrite Z.mod_small; lia|].
  intros Hn0 Heq. pose proof (Z.div_mod (k + Z.of_nat n) (2 ^ 16)). pose proof (Z.mod_pos_bound (k + Z.of_nat n) (2 ^ 16)). lia.
Qed.

Lemma irq_next c fl P U Dn reason go d :
  blk_inv c fl P U Dn → blk_lock c = None → irq_enter reason (drv c) = Ret (go, d) →
  next_ok c P U Dn None (settle d id (if go : bool then Some L_irq else None) c).
Proof.
  intros HI Hl Hrun.
  assert (d = drv c ∧ (go = true → U ≠ [])) as [-> Hgo].
  { unfold irq_enter in Hrun. case_decide; [by injection Hrun as <- <-|]. rewrite irq_more_run in Hrun. injection Hrun as <- <-.
    split; [done|]. intros Hne%bool_decide_eq_true. destruct (bi_U _ _ _ _ _ HI) as (_ & Hu & Hr).
    rewrite Hu, used_more in Hne by (pose proof (inv_short _ _ _ _ _ HI); lia). by intros ->. }
  rewrite settle_quiet by apply HI. exists fl, P, U, Dn. destruct go.
  - split; [|split; [by apply view_same|]].
    + split; simpl; try apply HI; [by intros _; apply Hgo|done|]. intros t x Hx. pose proof (bi_thr _ _ _ _ _ HI t x Hx) as Hok.
      destruct x as [b w []]; [done| |done]. by destruct (no_post _ _ _ _ _ _ _ _ _ HI Hl Hx).
    + right. right. unfold weight. simpl. rewrite Hl. split; [done|lia].
  - replace (mk_sys (drv c) (dev c) (id (thr c)) None) with c by (destruct c; simpl in *; by subst).
    split; [done|]. split; [constructor|]. by left.
Qed.

Lemma round_run c fl P h U Dn :
  blk_inv c fl P (h :: U) Dn →
  ∃ t b w i y, i.1.1 = h ∧ thr c !! t = Some (mk_thread b w (W_done i false)) ∧ io_bufs (drv c) !! b = Some y ∧
    (∀ t' x, t' ≠ t → thr c !! t' = Some x → th_buf x ≠ b ∧ (h ∉ chain_of x)) ∧ (h ∉ Dn) ∧ (h ∉ U) ∧
    irq_round (drv c) = Ret (bool_decide (U ≠ []), set_last_used (u16 (last_used_idx (drv c) + 1))
      (set_woken [Chan_buf b] (set_io_bufs (<[b := with_done 1 y]> (io_bufs (drv c))) (drv c)))).
Proof.
  intros HI. destruct (bi_U _ _ _ _ _ HI) as (HU & Hui & Hlr). pose proof (inv_short _ _ _ _ _ HI) as Hshort. simpl in Hshort.
  pose proof (inv_heads_nodup _ _ _ _ _ HI) as Hnd. rewrite !app_assoc in Hnd. apply NoDup_app in Hnd as (HndU & HdD & _).
  apply NoDup_app in HndU as (_ & _ & HndU). apply NoDup_cons in HndU as [HnU _].
  assert (HnD : h ∉ Dn) by (apply HdD; set_solver).
  destruct (inv_head _ _ _ _ _ HI h) as (t & b & w & i & aw & Ht & Hih); [set_solver|].
  destruct (bi_thr _ _ _ _ _ HI t _ Ht) as (y & st & HC & Hph & Hst). simpl in HC. rewrite Hih, decide_False in Hph by done.
  destruct Hph as [Hdone ->]. rewrite Hih in Hst. specialize (Hst ltac:(set_solver)). subst st.
  assert (Hh : 0 ≤ h < NUM) by (rewrite <-Hih; apply (inv_thread_range _ _ _ _ _ HI t _ _ Ht); simpl; set_solver).
  exists t, b, w, i, y. split; [done|]. split; [done|]. split; [apply HC|]. split.
  { intros t' x Hne Hx. split; [intros Hb; apply Hne; by apply (bi_bufs _ _ _ _ _ HI t' t x _ Hx Ht)|].
    intros Hin. apply Hne. apply (inv_chain_unique _ _ _ _ _ HI t' t _ _ h Hx Ht Hin). rewrite <-Hih. simpl. set_solver. }
  split; [done|]. split; [done|]. unfold irq_round. rewrite bind_gets.
  pose proof (Z.mod_pos_bound (last_used_idx (drv c)) NUM ltac:(done)) as Hm.
  erewrite bind_Ret; [|apply at_index_run; [lia|exact (ring_seg_head _ _ _ _ HU)]].
  rewrite i32_small by (unfold NUM in Hh; lia). rewrite decide_False by lia.
  erewrite bind_Ret; [|apply at_index_run; [lia|rewrite <-Hih; apply HC]]. simpl.
  erewrite bind_Ret; [|apply at_index_run; [lia|rewrite Nat2Z.id; apply HC]].
  erewrite bind_Ret; [|apply put_at_run]. erewrite bind_Ret; [|done]. erewrite bind_Ret; [|done].
  rewrite irq_more_run. simpl. rewrite (bi_woken _ _ _ _ _ HI). do 2 f_equal. apply bool_decide_ext.
  rewrite Hui. replace (last_used_idx (drv c) + Z.of_nat (length (h :: U))) with (last_used_idx (drv c) + 1 + Z.of_nat (length U)) by (simpl; lia).
  assert (Hsp : u16 (last_used_idx (drv c) + 1 + Z.of_nat (length U)) = u16 (u16 (last_used_idx (drv c) + 1) + Z.of_nat (length U)))
    by (unfold u16; by rewrite Zplus_mod_idemp_l).
  pose proof (Z.mod_pos_bound (last_used_idx (drv c) + 1) (2 ^ 16) ltac:(done)).
  rewrite Hsp, used_more by (unfold u16; lia). destruct U; simpl; split; done.
Qed.

Lemma round_next c fl P U Dn go d :
  blk_inv c fl P U Dn → blk_lock c = Some L_irq → irq_round (drv c) = Ret (go, d) →
  next_ok c P U Dn None (settle d id (if go : bool then Some L_irq else None) c).
Proof.
  intros HI Hl Hrun. destruct U as [|h U]; [by destruct (bi_irq _ _ _ _ _ HI Hl)|].
  destruct (round_run c fl P h U Dn HI) as (t & b & w & i & y & Hih & Ht & Hy & Hother & HnD & HnU & Hrun').
  rewrite Hrun' in Hrun. injection Hrun as <- <-. destruct (bi_U _ _ _ _ _ HI) as (HU & Hui & Hlr).
  set (wk := wake_thread [Chan_buf b]).
  assert (Hwt : wk (mk_thread b w (W_done i false)) = mk_thread b w (W_done i true)) by (unfold wk, wake_thread; simpl; by rewrite decide_True by set_solver).
  assert (Hwo : ∀ t' x, t' ≠ t → thr c !! t' = Some x → wk x = x).
  { intros t' x Hne Hx. destruct (Hother t' x Hne Hx) as [Hb _]. destruct x as [b' w' [aw|i'|i' aw]]; [done..|].
    unfold wk, wake_thread. simpl. rewrite decide_False; [done|]. simpl in Hb. set_solver. }
  assert (Hlk : ∀ t' x, (wk <$> thr c) !! t' = Some x → t' = t ∧ x = mk_thread b w (W_done i true) ∨ t' ≠ t ∧ thr c !! t' = Some x).
  { intros t' x (x0 & <- & Hx0)%lookup_fmap_Some. destruct (decide (t' = t)) as [->|Hne]; [left|right].
    - rewrite Ht in Hx0. injection Hx0 as <-. by rewrite Hwt.
    - by rewrite (Hwo t' x0). }
  assert (Hcol : ∀ f, (∀ x, f (wk x) = f x) → collect f (wk <$> thr c) ≡ₚ collect f (thr c)) by (intros; by apply collect_fmap).
  destruct (bi_thr _ _ _ _ _ HI t _ Ht) as (y0 & st & HC & _). simpl in HC.
  assert (y0 = y) as -> by (pose proof (cm_buf _ _ _ _ _ _ HC); congruence).
  match goal with |- context [settle ?d id ?l c] => change (settle d id l c) with (mk_sys (set_woken [] d) (dev c) (wk <$> thr c) l) end.
  exists fl, P, U, (h :: Dn). split; [|split].
  - split; simpl; try apply HI; try done.
    + apply Forall_insert; [apply HI|]. exact (inv_buf_ok _ _ _ _ _ HI b y Hy).
    + rewrite Hcol by (intros; apply wake_thread_same). apply HI.
    + intros t1 t2 x1 x2 E1 E2. apply lookup_fmap_Some in E1 as (z1 & <- & E1), E2 as (z2 & <- & E2).
      unfold wk. rewrite !(proj1 (wake_thread_same _ _)). by apply (bi_bufs _ _ _ _ _ HI).
    + intros t' x (x0 & <- & Hx0)%lookup_fmap_Some. unfold wk. rewrite (proj1 (wake_thread_same _ _)), length_insert.
      by apply (bi_range _ _ _ _ _ HI t').
    + rewrite Hcol by (intros; apply wake_thread_same). rewrite <-(bi_heads _ _ _ _ _ HI). simpl. by rewrite <-(Permutation_middle U Dn h).
    + split; [by apply ring_seg_tail in HU|]. split; [|apply Z.mod_pos_bound; done]. rewrite Hui. simpl.
      unfold u16. rewrite Zplus_mod_idemp_l. f_equal. lia.
    + case_bool_decide; done.
    + intros t'. case_bool_decide; done.
    + intros t' x [[-> ->]|[Hne Hx]]%Hlk.
      * exists (with_done 1 y), st. split; [|split; [rewrite decide_True by (rewrite Hih; set_solver); done|rewrite Hih; set_solver]].
        destruct HC. split; try done. simpl. apply list_lookup_insert_eq. by eapply lookup_lt_Some.
      * destruct (Hother t' x Hne Hx) as [Hb Hh]. pose proof (bi_thr _ _ _ _ _ HI t' x Hx) as Hok.
        destruct x as [b' w' [aw|i'|i' aw]]; simpl in *; [done| |].
        -- destruct Hok as [Hl' _]. congruence.
        -- destruct Hok as (y' & st' & HC' & Hph & Hu). exists y', st'. split; [|split].
           ++ apply (request_frame (drv c)); [done..|]. simpl. by apply list_lookup_insert_ne.
           ++ assert (i'.1.1 ≠ h) by set_solver.
              destruct (decide (i'.1.1 ∈ Dn)); [rewrite decide_True by set_solver|rewrite decide_False by set_solver]; done.
           ++ intros Hin. apply Hu. by right.
  - apply view_same; [|done|].
    + unfold contents. simpl. rewrite list_fmap_insert. apply list_insert_id. by rewrite list_lookup_fmap, Hy.
    + simpl. rewrite <-map_fmap_compose. apply map_fmap_ext. intros t' x _. unfold compose, wk.
      rewrite (proj2 (proj2 (proj2 (proj2 (wake_thread_same _ _))))). unfold answered. f_equal.
      destruct (th_at x); [done..|]. apply bool_decide_ext. set_solver.
  - right. right. simpl. rewrite map_size_fmap. split; [done|]. unfold weight. simpl.
    rewrite (Permutation_length (Hcol todo ltac:(intros [b' w' [[]|i'|i' aw]]; unfold wk, wake_thread; simpl; [done..|case_decide; done]))).
    rewrite Hl. case_bool_decide; lia.
Qed.

(** ** The device *)

Lemma fetch_next c fl P U Dn v :
  blk_inv c fl P U Dn → dev_fetch (drv c) (dev c) v → next_ok c P U Dn None (mk_sys (drv c) v (thr c) (blk_lock c)).
Proof.
  intros HI (Hne & Hn & Hm & h & Hh & Ht)%dev_fetch_ok. destruct (bi_P _ _ _ _ _ HI) as (HP & HA & HN).
  destruct P as [|h' P]; [destruct Hne; rewrite HA; unfold u16; rewrite Z.mod_small; simpl; lia|].
  assert (h' = h) as -> by (apply ring_seg_head in HP; congruence).
  exists fl, P, U, Dn. split; [|split; [by apply view_same|]].
  - split; simpl; try apply HI.
    + rewrite Ht. rewrite <-(bi_heads _ _ _ _ _ HI). simpl. by rewrite <-Permutation_middle.
    + rewrite Hn. split_and!; [by apply ring_seg_tail in HP| |apply Z.mod_pos_bound; done..].
      rewrite HA. simpl. unfold u16. rewrite Zplus_mod_idemp_l. f_equal. lia.
  - right. right. split; [done|]. unfold weight. simpl. rewrite Ht. simpl. lia.
Qed.

Lemma chain_request s b w i y st : 0 ≤ i.1.1 < NUM → chain_mem s b w i y st →
  request_at s i.1.1 i.1.1 b i.1.1 w (io_blkno y).
Proof. intros Hr [? ? ? ? ? ?]. split; [by eauto 10|done|done|by eexists]. Qed.

(** The buffer of a request after its answer. *)
Definition received (w : bool) (n : Z) (m : D) (y : io_buf) : io_buf := if w then y else with_data (disk_read n m) y.

Lemma respond_chain s h b w i y st m : i.1.1 = h → 0 ≤ h → chain_mem s b w i y st →
  chain_mem (respond h b h w (io_blkno y) m s) b w i (received w (io_blkno y) m y) 0.
Proof.
  intros <- Hh HC. destruct HC as [C0 C1 C2 C3 C4 C5]. split; simpl; [done..| | |].
  - rewrite C3. by destruct w.
  - by rewrite list_lookup_alter_eq, C4.
  - destruct w; [done|]. by rewrite list_lookup_alter_eq, C5.
Qed.
Lemma respond_other s h b w n m b' w' i' y' st' : b' ≠ b → i'.1.1 ≠ h → 0 ≤ i'.1.1 → 0 ≤ h →
  chain_mem s b' w' i' y' st' → chain_mem (respond h b h w n m s) b' w' i' y' st'.
Proof.
  intros Hb Hi Hr Hh HC. apply (request_frame s); [done|done|done|..]; simpl.
  - apply list_lookup_alter_ne. lia.
  - destruct w; [done|]. by apply list_lookup_alter_ne.
Qed.
Lemma alter_insert {A} (f : A → A) (l : list A) i y : l !! i = Some y → alter f i l = <[i := f y]> l.
Proof.
  intros Hy. apply list_eq. intros k. destruct (decide (i = k)) as [<-|Hne].
  - rewrite list_lookup_alter_eq, Hy, list_lookup_insert_eq; [done|]. by eapply lookup_lt_Some.
  - by rewrite list_lookup_alter_ne, list_lookup_insert_ne.
Qed.
Lemma respond_contents s h b w m y : io_bufs s !! b = Some y →
  contents (respond h b h w (io_blkno y) m s) =
  if w then contents s else <[b := (disk_read (io_blkno y) m, io_blkno y)]> (contents s).
Proof.
  intros Hy. unfold contents. simpl. destruct w; [done|]. by rewrite (alter_insert _ _ _ _ Hy), list_fmap_insert.
Qed.

Lemma serve_inv c fl P U Dn T t b w i aw y st v :
  blk_inv c fl P U Dn → dev_taken (dev c) ≡ₚ i.1.1 :: T → thr c !! t = Some (mk_thread b w (W_done i aw)) →
  chain_mem (drv c) b w i y st → dev_next v = dev_next (dev c) → T = dev_taken v →
  blk_inv (mk_sys (respond i.1.1 b i.1.1 w (io_blkno y) (dev_media (dev c)) (drv c)) v (thr c) (blk_lock c)) fl P (U ++ [i.1.1]) Dn.
Proof.
  intros HI HT Ht HC Hvn ->. destruct (blk_inv_len _ _ _ _ _ HI) as (Ld & La & Lu & Lr & Li).
  pose proof (inv_short _ _ _ _ _ HI) as Hshort. set (h := i.1.1) in *.
  assert (Hh : 0 ≤ h < NUM) by (apply (inv_thread_range _ _ _ _ _ HI t _ _ Ht); simpl; set_solver).
  assert (Hother : ∀ t' x, t' ≠ t → thr c !! t' = Some x → th_buf x ≠ b ∧ (h ∉ chain_of x)).
  { intros t' x Hne Hx. split; [intros Hb; apply Hne; by apply (bi_bufs _ _ _ _ _ HI t' t x _ Hx Ht)|].
    intros Hin. apply Hne. apply (inv_chain_unique _ _ _ _ _ HI t' t _ _ h Hx Ht Hin). simpl. set_solver. }
  split; simpl; try apply HI.
  - rewrite !Forall_cons, length_insert, length_alter. by rewrite Ld, La, Lu, Lr, Li.
  - destruct w; [apply HI|]. rewrite (alter_insert _ _ _ _ (cm_buf _ _ _ _ _ _ HC)). apply Forall_insert; [apply HI|].
    split; [apply disk_len|]. apply (inv_buf_ok _ _ _ _ _ HI b y), HC.
  - intros t' x Hx. pose proof (bi_range _ _ _ _ _ HI t' x Hx). destruct w; [done|by rewrite length_alter].
  - rewrite <-(bi_heads _ _ _ _ _ HI), HT. apply Permutation_app_head. simpl. rewrite <-app_assoc. simpl.
    by rewrite <-!Permutation_middle.
  - rewrite Hvn. apply HI.
  - destruct (bi_U _ _ _ _ _ HI) as (HU & Hui & Hlr). rewrite length_app. split_and!; [|rewrite Hui|lia..].
    + apply ring_seg_snoc.
      * apply ring_seg_insert; [done|unfold NUM; lia|]. by rewrite Hui, u16_mod.
      * rewrite Hui, u16_mod. apply list_lookup_insert_eq.
        pose proof (Z.mod_pos_bound (last_used_idx (drv c) + Z.of_nat (length U)) NUM ltac:(done)). unfold NUM in *. lia.
    + unfold u16. rewrite Zplus_mod_idemp_l. f_equal. simpl. lia.
  - intros _. by destruct U.
  - intros t' x Hx. pose proof (bi_thr _ _ _ _ _ HI t' x Hx) as Hok. destruct (decide (t' = t)) as [->|Hne].
    + rewrite Ht in Hx. injection Hx as <-. destruct Hok as (y' & st' & HC' & Hph & _). simpl in HC'.
      assert (y' = y) as -> by (pose proof (cm_buf _ _ _ _ _ _ HC); pose proof (cm_buf _ _ _ _ _ _ HC'); congruence).
      exists (received w (io_blkno y) (dev_media (dev c)) y), 0. split; [by apply respond_chain with st; [|lia|]|].
      split; [by destruct w|done].
    + destruct (Hother t' x Hne Hx) as [Hb Hnh].
      assert (Hfr : ∀ j y' st', chain_of x = [j.1.1; j.1.2; j.2] → chain_mem (drv c) (th_buf x) (th_write x) j y' st' →
        chain_mem (respond h b h w (io_blkno y) (dev_media (dev c)) (drv c)) (th_buf x) (th_write x) j y' st').
      { intros j y' st' Hc HC'. apply respond_other; [done|intros Heq; apply Hnh; rewrite Hc, <-Heq; set_solver| |lia|done].
        apply (inv_thread_range _ _ _ _ _ HI t' x); [done|]. rewrite Hc. set_solver. }
      destruct x as [b' w' [aw'|j|j aw']]; simpl in *; [done| |].
      * destruct Hok as (Hl & Hr & y' & st' & HC' & Hd). split; [done|]. split; [done|]. exists y', st'. split; [by apply Hfr|done].
      * destruct Hok as (y' & st' & HC' & Hph & Hu). exists y', st'. split; [by apply Hfr|]. split; [done|].
        intros [Hin|Hin]%elem_of_app; [by apply Hu|set_solver].
Qed.

Lemma serve_next c fl P U Dn h d v :
  blk_inv c fl P U Dn → h ∈ dev_taken (dev c) → dev_serve (drv c) (dev c) h d v →
  next_ok c P U Dn None (mk_sys d v (thr c) (blk_lock c)).
Proof.
  intros HI Hin Hs. destruct (inv_head _ _ _ _ _ HI h) as (t & b & w & i & aw & Ht & <-); [set_solver|].
  destruct (bi_thr _ _ _ _ _ HI t _ Ht) as (y & st & HC & Hph). simpl in HC.
  assert (Hr : 0 ≤ i.1.1 < NUM) by (apply (inv_thread_range _ _ _ _ _ HI t _ _ Ht); simpl; set_solver).
  destruct (dev_serve_ok _ _ _ _ _ _ _ _ _ _ _ Hs (chain_request _ _ _ _ _ _ Hr HC) (cm_buf _ _ _ _ _ _ HC)) as (-> & Hvn & HT & Hm).
  assert (HnUD : i.1.1 ∉ U ++ Dn).
  { pose proof (inv_heads_nodup _ _ _ _ _ HI) as Hnd. apply NoDup_app in Hnd as (_ & _ & Hnd). apply NoDup_app in Hnd as (_ & Hd & _). by apply Hd. }
  exists fl, P, (U ++ [i.1.1]), Dn. split; [by eapply serve_inv|]. split.
  - replace (view (mk_sys _ v _ _) _ _) with (mk_disk (if w then a_bufs (view c U Dn)
        else <[b := (disk_read (io_blkno y) (a_media (view c U Dn)), io_blkno y)]> (a_bufs (view c U Dn)))
      (transfer w (io_blkno y) (io_data y) (a_media (view c U Dn))) (<[t := (b, w, true)]> (a_thr (view c U Dn)))).
    + apply ds_xfer; simpl.
      * rewrite lookup_fmap, Ht. simpl. unfold answered. simpl. by rewrite bool_decide_false.
      * unfold contents. by rewrite list_lookup_fmap, (cm_buf _ _ _ _ _ _ HC).
    + unfold view. simpl. rewrite (respond_contents _ _ _ _ _ _ (cm_buf _ _ _ _ _ _ HC)), Hm. f_equal.
      apply map_eq. intros t'. rewrite lookup_fmap. destruct (decide (t = t')) as [<-|Hne].
      * rewrite lookup_insert_eq, Ht. simpl. unfold answered. simpl. rewrite bool_decide_true; [done|set_solver].
      * rewrite lookup_insert_ne, lookup_fmap by done. destruct (thr c !! t') as [x|] eqn:Hx; [|done]. simpl. f_equal. unfold answered. f_equal.
        destruct x as [b' w' [aw'|j|j aw']]; [done..|]. simpl. apply bool_decide_ext.
        assert (j.1.1 ≠ i.1.1); [|set_solver]. intros Heq. apply Hne.
        apply (inv_chain_unique _ _ _ _ _ HI t t' _ _ i.1.1 Ht Hx); simpl; rewrite <-?Heq; set_solver.
  - right. right. split; [done|]. unfold weight. simpl. rewrite HT, length_app. simpl. lia.
Qed.

Lemma edit_next c fl P U Dn b y n x :
  blk_inv c fl P U Dn → unused b c → io_bufs (drv c) !! b = Some y → 0 ≤ n < 2 ^ 61 → block_ok x →
  next_ok c P U Dn (Some (Edit b n x))
    (mk_sys (set_io_bufs (<[b := mk_io x n (io_done y)]> (io_bufs (drv c))) (drv c)) (dev c) (thr c) (blk_lock c)).
Proof.
  intros HI Hu Hy Hn Hx. exists fl, P, U, Dn. split; [|split; [|done]].
  - split; simpl; try apply HI.
    + apply Forall_insert; [apply HI|done].
    + intros t z Hz. rewrite length_insert. by apply (bi_range _ _ _ _ _ HI t).
    + intros t z Hz. pose proof (bi_thr _ _ _ _ _ HI t z Hz) as Hok. pose proof (Hu t z Hz) as Hb.
      assert (Hfr : ∀ i y' st', chain_mem (drv c) (th_buf z) (th_write z) i y' st' →
        chain_mem (set_io_bufs (<[b := mk_io x n (io_done y)]> (io_bufs (drv c))) (drv c)) (th_buf z) (th_write z) i y' st').
      { intros i y' st' HC. apply (request_frame (drv c)); [done..|]. simpl. by apply list_lookup_insert_ne. }
      destruct z as [b' w' [aw'|j|j aw']]; simpl in *; [done| |].
      * destruct Hok as (Hl & Hr & y' & st' & HC & Hd). split; [done|]. split; [done|]. exists y', st'. split; [by apply Hfr|done].
      * destruct Hok as (y' & st' & HC & Hph). exists y', st'. split; [by apply Hfr|done].
  - replace (view (mk_sys _ _ _ _) U Dn) with (mk_disk (<[b := (x, n)]> (a_bufs (view c U Dn))) (a_media (view c U Dn)) (a_thr (view c U Dn))).
    + apply ds_edit. intros t b' w f. simpl. rewrite lookup_fmap. destruct (thr c !! t) as [z|] eqn:Hz; [|done]. simpl.
      intros [= <- _ _]. by apply (Hu t).
    + unfold view, contents. simpl. by rewrite list_fmap_insert.
Qed.

Lemma step_next c fl P U Dn l c' : blk_inv c fl P U Dn → blk_step c l c' → next_ok c P U Dn l c'.
Proof.
  intros HI Hs. destruct Hs.
  - by eapply call_next.
  - by eapply retry_next.
  - by eapply publish_next.
  - by eapply resume_next.
  - edestruct (resume_run c) as (l & st & _ & Hrun & _); [done..|]. congruence.
  - by eapply irq_next.
  - by eapply round_next.
  - by eapply fetch_next.
  - by eapply serve_next.
  - by eapply edit_next.
Qed.

(** ** Runs *)

(** The driver when virtio_disk_init has made the queue: zeroed pages and the
    list of free descriptors. *)
Definition boot_driver (l : list io_buf) : driver :=
  mk_driver (mk_vq true (replicate 64 (mk_desc 0 0 0 0)) 0 (replicate 64 0) 0 (replicate 64 0))
    (replicate 64 (mk_req 0 0 0)) (replicate 64 (mk_info None 0)) 0 0 l [].
Definition booted (c : sys V) : Prop :=
  ∃ l, Forall io_ok l ∧ init_free_desc_list (boot_driver l) = Ret (tt, drv c) ∧
    dev_next (dev c) = 0 ∧ dev_taken (dev c) = [] ∧ thr c = ∅ ∧ blk_lock c = None.

Definition visible (l : option label) : list label := match l with Some x => [x] | None => [] end.
Inductive blk_run (c0 : sys V) : list label → sys V → Prop :=
  | run_start : blk_run c0 [] c0
  | run_step tr c l c' : blk_run c0 tr c → blk_step c l c' → blk_run c0 (tr ++ visible l) c'.
Inductive disk_run (a0 : disk_sys) : list label → disk_sys → Prop :=
  | disk_start : disk_run a0 [] a0
  | disk_next tr a l a' : disk_run a0 tr a → disk_step a l a' → disk_run a0 (tr ++ visible l) a'.

Lemma init_free_desc_list_run l : ∃ ds, init_free_desc_list (boot_driver l) = Ret (tt, with_free 0 ds (boot_driver l)) ∧
  length ds = 64%nat ∧ flist ds 0 (seqZ 0 NUM).
Proof.
  eexists. split; [vm_compute; reflexivity|]. split; [reflexivity|].
  assert (Hs : seqZ 0 NUM = [0; 1; 2; 3; 4; 5; 6; 7; 8; 9; 10; 11; 12; 13; 14; 15; 16; 17; 18; 19; 20; 21; 22; 23; 24; 25; 26; 27; 28; 29; 30; 31;
    32; 33; 34; 35; 36; 37; 38; 39; 40; 41; 42; 43; 44; 45; 46; 47; 48; 49; 50; 51; 52; 53; 54; 55; 56; 57; 58; 59; 60; 61; 62; 63]) by reflexivity.
  rewrite Hs. repeat (split; [reflexivity|split; [unfold NUM; lia|eexists; split; [reflexivity|]]]). reflexivity.
Qed.

Lemma booted_inv c : booted c → blk_inv c (seqZ 0 NUM) [] [] [].
Proof.
  intros (l & Hl & Hd & Hn & HT & Ht & Hk). destruct (init_free_desc_list_run l) as (ds & Hrun & Hlen & Hf).
  rewrite Hrun in Hd. injection Hd as Hd. split; rewrite <-?Hd, ?Ht, ?HT, ?Hk, ?Hn.
  - rewrite !Forall_cons. split_and!; [exact Hlen|reflexivity..|constructor].
  - reflexivity.
  - reflexivity.
  - exact Hl.
  - exact Hf.
  - unfold collect. rewrite map_to_list_empty. cbn [mbind list_bind]. rewrite app_nil_r. apply Permutation_refl.
  - intros t t' x x' Hx. by rewrite lookup_empty in Hx.
  - intros t x Hx. rewrite lookup_empty in Hx. discriminate.
  - unfold collect. rewrite map_to_list_empty. constructor.
  - split; [intros n h Hx; discriminate Hx|]. split; [reflexivity|lia].
  - split; [intros n h Hx; discriminate Hx|]. split; [reflexivity|]. cbn. lia.
  - discriminate.
  - discriminate.
  - intros t x Hx. rewrite lookup_empty in Hx. discriminate.
Qed.

Lemma run_inv c0 tr c : booted c0 → blk_run c0 tr c →
  ∃ fl P U Dn, blk_inv c fl P U Dn ∧ disk_run (mk_disk (contents (drv c0)) (dev_media (dev c0)) ∅) tr (view c U Dn).
Proof.
  intros Hb Hr. induction Hr as [|tr c l c' _ (fl & P & U & Dn & HI & HD) Hs].
  - exists (seqZ 0 NUM), [], [], []. split; [by apply booted_inv|]. destruct Hb as (? & _ & _ & _ & _ & Ht & _).
    unfold view. rewrite Ht, fmap_empty. constructor.
  - destruct (step_next c fl P U Dn l c' HI Hs) as (fl' & P' & U' & Dn' & HI' & HD' & _).
    exists fl', P', U', Dn'. split; [done|]. by econstructor.
Qed.

(** ** Progress *)

Definition service (c c' : sys V) : Prop :=
  c' ≠ c ∧ ∃ l, blk_step c l c' ∧ (l = None ∨ ∃ t, l = Some (Return t)).

(** Every way to go on reaches [Q], and there is one until then. *)
Inductive inevitably (Q : sys V → Prop) (c : sys V) : Prop :=
  | now : Q c → inevitably Q c
  | later : (∃ c', service c c') → (∀ c', service c c' → inevitably Q c') → inevitably Q c.

Lemma u16_succ_ne k : u16 (k + 1) ≠ k.
Proof. unfold u16. intros Heq. pose proof (Z.div_mod (k + 1) (2 ^ 16)). pose proof (Z.mod_pos_bound (k + 1) (2 ^ 16)). lia. Qed.

(** The part of the system that can move, one lemma for each. *)
Lemma move_fetch c fl h P U Dn : blk_inv c fl (h :: P) U Dn → ∃ c', service c c'.
Proof.
  intros HI. destruct (bi_P _ _ _ _ _ HI) as (HP & HA & HN). destruct (dev_fetch_can (drv c) (dev c) h) as [v Hv].
  - rewrite HA. apply used_more; [done|pose proof (inv_short _ _ _ _ _ HI); lia|done].
  - by apply ring_seg_head in HP.
  - eexists. split; [|exists None; split; [by eapply st_fetch|by left]].
    intros Heq%(f_equal (λ c, dev_next (dev c))). simpl in Heq. apply dev_fetch_ok in Hv as (_ & Hn & _).
    rewrite Hn in Heq. by apply u16_succ_ne in Heq.
Qed.
Lemma move_serve c fl P U Dn h : blk_inv c fl P U Dn → h ∈ dev_taken (dev c) → ∃ c', service c c'.
Proof.
  intros HI Hh. destruct (inv_head _ _ _ _ _ HI h) as (t & b & w & i & aw & Ht & <-); [set_solver|].
  destruct (bi_thr _ _ _ _ _ HI t _ Ht) as (y & st & HC & _). simpl in HC.
  assert (Hr : 0 ≤ i.1.1 < NUM) by (apply (inv_thread_range _ _ _ _ _ HI t _ _ Ht); simpl; set_solver).
  destruct (dev_serve_can (drv c) (dev c) i.1.1 i.1.1 b i.1.1 w (io_blkno y)) as (d & v & Hv); [done|by eapply chain_request|].
  eexists. split; [|exists None; split; [by eapply (st_serve c i.1.1)|by left]].
  intros Heq%(f_equal (λ c, used_idx (vq (drv c)))). simpl in Heq.
  destruct (dev_serve_ok _ _ _ _ _ _ _ _ _ _ _ Hv (chain_request _ _ _ _ _ _ Hr HC) (cm_buf _ _ _ _ _ _ HC)) as (-> & _).
  simpl in Heq. by apply u16_succ_ne in Heq.
Qed.
Lemma move_irq c fl P h U Dn : blk_inv c fl P (h :: U) Dn → blk_lock c = None → ∃ c', service c c'.
Proof.
  intros HI Hl. destruct (bi_U _ _ _ _ _ HI) as (_ & Hu & Hr).
  eexists. split; [|exists None; split; [eapply (st_irq c 1 true); [done|]|by left]].
  - intros Heq%(f_equal blk_lock). simpl in Heq. congruence.
  - unfold irq_enter. rewrite decide_False by done. rewrite irq_more_run, bool_decide_true; [done|]. rewrite Hu.
    apply used_more; [done|pose proof (inv_short _ _ _ _ _ HI); lia|done].
Qed.
Lemma move_round c fl P U Dn : blk_inv c fl P U Dn → blk_lock c = Some L_irq → ∃ c', service c c'.
Proof.
  intros HI Hl. destruct U as [|h U]; [by destruct (bi_irq _ _ _ _ _ HI Hl)|].
  destruct (round_run c fl P h U Dn HI) as (t & b & w & i & y & _ & _ & _ & _ & _ & _ & Hrun).
  eexists. split; [|exists None; split; [by eapply st_round|by left]].
  intros Heq%(f_equal (λ c, last_used_idx (drv c))). simpl in Heq. by apply u16_succ_ne in Heq.
Qed.
Lemma move_resume c fl P U h Dn : blk_inv c fl P U (h :: Dn) → blk_lock c = None → ∃ c', service c c'.
Proof.
  intros HI Hl. destruct (inv_head _ _ _ _ _ HI h) as (t & b & w & i & aw & Ht & <-); [set_solver|].
  destruct (bi_thr _ _ _ _ _ HI t _ Ht) as (y & st & _ & Hph & _). rewrite decide_True in Hph by set_solver. destruct Hph as [_ ->].
  destruct (resume_run c fl _ _ _ t b w i HI Ht) as (l & st' & _ & Hrun & _).
  eexists. split; [|exists (Some (Return t)); split; [by eapply st_resume|by right; eexists]].
  intros Heq%(f_equal (λ c, thr c !! t)). simpl in Heq. rewrite lookup_delete_eq in Heq. congruence.
Qed.
Lemma waiting_asks c fl P U Dn t b w aw : blk_inv c fl P U Dn → thr c !! t = Some (mk_thread b w (W_desc aw)) → asking c t b w.
Proof.
  intros HI Ht. split_and!; [by apply (bi_range _ _ _ _ _ HI t _ Ht)| |by right; eexists].
  intros t' x' Hx' Hnt Hbb. apply Hnt. by apply (bi_bufs _ _ _ _ _ HI t' t x' _ Hx' Ht).
Qed.
(** With nothing on its way every descriptor is free, so nobody who waits for
    descriptors is asleep. *)
Lemma move_retry c fl : blk_inv c fl [] [] [] → dev_taken (dev c) = [] → blk_lock c = None → thr c ≠ ∅ → ∃ c', service c c'.
Proof.
  intros HI HT Hl (t & x & Ht)%map_choose. pose proof (bi_thr _ _ _ _ _ HI t x Ht) as Hok.
  pose proof (bi_heads _ _ _ _ _ HI) as Hh. rewrite HT in Hh. simpl in Hh. apply Permutation_nil_l in Hh.
  assert (Hd : ∀ t' x', thr c !! t' = Some x' → ∃ aw, th_at x' = W_desc aw).
  { intros t' [b' w' [aw|i|i aw]] Hx'; [by eexists|by destruct (no_post _ _ _ _ _ _ _ _ _ HI Hl Hx')|]. exfalso.
    assert (i.1.1 ∈ collect head_of (thr c)) as Hin; [|rewrite <-Hh in Hin; set_solver].
    apply collect_elem. eexists _, _. split; [done|]. simpl. set_solver. }
  destruct (Hd t x Ht) as [aw Haw]. destruct x as [b w a]. simpl in Haw. subst a.
  assert (Hlen : length fl = 64%nat).
  { pose proof (Permutation_length (bi_perm _ _ _ _ _ HI)) as Hp. rewrite length_app, length_seqZ in Hp.
    assert (collect chain_of (thr c) = []) as Hnil; [|rewrite Hnil in Hp; simpl in Hp; unfold NUM in Hp; lia].
    destruct (collect chain_of (thr c)) as [|k ks] eqn:Hc; [done|]. exfalso.
    assert (k ∈ collect chain_of (thr c)) as Hk by (rewrite Hc; set_solver). apply collect_elem in Hk as (t' & x' & Hx' & Hk).
    destruct (Hd t' x' Hx') as [aw' Ha']. unfold chain_of in Hk. rewrite Ha' in Hk. set_solver. }
  assert (aw = true) as -> by (destruct aw; [done|]; specialize (Hok eq_refl); lia).
  destruct (try_run c fl _ _ _ t b w HI Hl (waiting_asks _ _ _ _ _ _ _ _ _ HI Ht)) as (r & d & fl' & Hrun & Hw & _ & _).
  eexists. split; [|exists None; split; [by eapply st_retry|by left]]. rewrite settle_quiet by done.
  intros Heq%(f_equal (λ c, thr c !! t)). simpl in Heq. rewrite lookup_insert_eq, Ht in Heq. by destruct r.
Qed.

Lemma progress c fl P U Dn : blk_inv c fl P U Dn → thr c ≠ ∅ → ∃ c', service c c'.
Proof.
  intros HI Hne. destruct (blk_lock c) as [[t|]|] eqn:Hl.
  - destruct (bi_post _ _ _ _ _ HI t Hl) as (b & w & i & Ht). eexists. split; [|exists None; split; [by eapply st_publish|by left]].
    intros Heq%(f_equal blk_lock). simpl in Heq. congruence.
  - by eapply move_round.
  - destruct P as [|h P]; [|by eapply move_fetch].
    destruct (dev_taken (dev c)) as [|h T] eqn:HT; [|eapply (move_serve c _ _ _ _ h HI); rewrite HT; set_solver].
    destruct U as [|h U]; [|by eapply move_irq]. destruct Dn as [|h Dn]; [|by eapply move_resume]. by eapply move_retry.
Qed.

(** A service step takes a thread away or brings the rest closer. *)
Lemma service_lower c fl P U Dn c' : blk_inv c fl P U Dn → service c c' →
  ∃ fl' P' U' Dn', blk_inv c' fl' P' U' Dn' ∧ lower (size (thr c')) (weight c' P' U' Dn') (size (thr c)) (weight c P U Dn).
Proof.
  intros HI (Hne & l & Hs & Hl). destruct (step_next c fl P U Dn l c' HI Hs) as (fl' & P' & U' & Dn' & HI' & _ & Ha).
  exists fl', P', U', Dn'. split; [done|]. destruct Hl as [->|[t ->]]; by destruct Ha.
Qed.

Lemma inv_inevitably n m c fl P U Dn :
  blk_inv c fl P U Dn → (size (thr c) ≤ n)%nat → (size (thr c) = n → weight c P U Dn ≤ m)%nat → inevitably (λ c, thr c = ∅) c.
Proof.
  revert m c fl P U Dn. induction n as [n IHn] using lt_wf_ind. induction m as [m IHm] using lt_wf_ind. intros c fl P U Dn HI Hn Hm.
  destruct (decide (thr c = ∅)) as [He|He]; [by apply now|]. apply later; [by eapply progress|].
  intros c' Hs. destruct (service_lower c fl P U Dn c' HI Hs) as (fl' & P' & U' & Dn' & HI' & Hlow).
  destruct (decide (size (thr c') = n)) as [Heq|Hlt].
  - destruct Hlow as [Hlt|[Hsz Hw]]; [lia|]. eapply (IHm (weight c' P' U' Dn')); [|done|lia|done]. specialize (Hm ltac:(lia)). lia.
  - destruct Hlow as [?|[? ?]]; eapply (IHn (size (thr c')) ltac:(lia)); [done|done|by intros _|done|done|by intros _].
Qed.

(** * Theorems *)

(** C5: Whatever threads call and however they, the interrupt handler and the
    device interleave, the block driver behaves as an atomic disk: between its
    call and its return every request is carried out exactly once, a write
    storing the block of its buffer and a read filling it, and nothing else
    changes the disk or a buffer. *)
Theorem blk_refines c0 tr c :
  booted c0 → blk_run c0 tr c →
  ∃ a, disk_run (mk_disk (contents (drv c0)) (dev_media (dev c0)) ∅) tr a ∧
    a_bufs a = contents (drv c) ∧ a_media a = dev_media (dev c) ∧
    ∀ t b w, (∃ f, a_thr a !! t = Some (b, w, f)) ↔ ∃ p, thr c !! t = Some (mk_thread b w p).
Proof.
  intros Hb Hr. destruct (run_inv c0 tr c Hb Hr) as (fl & P & U & Dn & HI & HD). exists (view c U Dn). split_and!; [done..|].
  intros t b w. simpl. rewrite lookup_fmap. destruct (thr c !! t) as [[b' w' p]|]; simpl; [|naive_solver].
  unfold answered. simpl. naive_solver.
Qed.

(** ** Errors of the device *)

(** The handler stops the machine when the device reports that the request it
    has to handle next did not succeed. *)
Lemma irq_status_panics s e x b :
  used_ring (vq s) !! Z.to_nat (last_used_idx s mod NUM) = Some e → 0 ≤ e < NUM → info s !! Z.to_nat e = Some x →
  in_buffer x = Some b → in_status x ≠ 0 → irq_round s = Panic "virtio_disk_intr status error".
Proof.
  intros He Hr Hx Hb Hst. unfold irq_round. rewrite bind_gets.
  pose proof (Z.mod_pos_bound (last_used_idx s) NUM ltac:(done)).
  erewrite bind_Ret; [|apply at_index_run; [lia|exact He]]. rewrite i32_small by (unfold NUM in Hr; lia).
  rewrite decide_False by lia. erewrite bind_Ret; [|apply at_index_run; [lia|exact Hx]]. rewrite Hb. by rewrite decide_True.
Qed.

(** The answer to the request at [h] with the status [st]. *)
Definition with_status (h st : Z) (s : driver) : driver :=
  set_info (alter (λ x, mk_info (in_buffer x) st) (Z.to_nat h) (info s)) s.

(** The handler's next round, with whatever status the device gave the request. *)
Lemma round_status c fl P h U Dn st :
  blk_inv c fl P (h :: U) Dn →
  used_ring (vq (drv c)) !! Z.to_nat (last_used_idx (drv c) mod NUM) = Some h ∧
  if decide (st = 0) then ∃ go d, irq_round (with_status h st (drv c)) = Ret (go, d)
  else irq_round (with_status h st (drv c)) = Panic "virtio_disk_intr status error".
Proof.
  intros HI. destruct (bi_U _ _ _ _ _ HI) as (HU & _ & _). pose proof (ring_seg_head _ _ _ _ HU) as Hh. split; [done|].
  destruct (round_run c fl P h U Dn HI) as (t & b & w & i & y & Hih & Ht & _ & _ & _ & _ & Hrun).
  assert (Hr : 0 ≤ h < NUM) by (rewrite <-Hih; apply (inv_thread_range _ _ _ _ _ HI t _ _ Ht); simpl; set_solver).
  destruct (bi_thr _ _ _ _ _ HI t _ Ht) as (y' & st' & HC & _ & Hst). rewrite Hih in Hst. specialize (Hst ltac:(set_solver)). subst st'.
  pose proof (cm_info _ _ _ _ _ _ HC) as Hx. simpl in Hx. rewrite Hih in Hx.
  unfold with_status. rewrite (alter_insert _ _ _ _ Hx). simpl. case_decide as Hz.
  - subst st. rewrite list_insert_id by done. replace (set_info (info (drv c)) (drv c)) with (drv c) by (by destruct (drv c)). eauto.
  - apply (irq_status_panics _ h (mk_info (Some b) st) b); try done. simpl. apply list_lookup_insert_eq. by eapply lookup_lt_Some.
Qed.

(** C7: In every state the block driver reaches with a device that reports
    success, each descriptor is on the free list or in the chain of exactly
    one request; a call, a retry after a wakeup, the end of a request and
    every round of the handler run without a panic or an access outside the
    arrays, and a thread woken on its buffer is done. Whatever status the
    device gives the request the handler takes next, that round returns if it
    is 0 and stops the machine with the status panic if it is not. *)
Theorem blk_safe c0 tr c :
  booted c0 → blk_run c0 tr c →
  (∃ fl, flist (desc (vq (drv c))) (free_desc_idx (drv c)) fl ∧ fl ++ collect chain_of (thr c) ≡ₚ seqZ 0 NUM) ∧
  (blk_lock c = None →
     (∀ t b w, thr c !! t = None → unused b c → (b < length (io_bufs (drv c)))%nat → ∃ r d, rw_start b w (drv c) = Ret (r, d)) ∧
     (∀ t b w aw, thr c !! t = Some (mk_thread b w (W_desc aw)) → ∃ r d, rw_try b w (drv c) = Ret (r, d)) ∧
     (∀ t b w i, thr c !! t = Some (mk_thread b w (W_done i true)) → ∃ d, rw_resume b i.1.1 (drv c) = Ret (true, d))) ∧
  (blk_lock c = Some L_irq → (∃ go d, irq_round (drv c) = Ret (go, d)) ∧
     ∃ h, used_ring (vq (drv c)) !! Z.to_nat (last_used_idx (drv c) mod NUM) = Some h ∧
       ∀ st, if decide (st = 0) then ∃ go d, irq_round (with_status h st (drv c)) = Ret (go, d)
             else irq_round (with_status h st (drv c)) = Panic "virtio_disk_intr status error").
Proof.
  intros Hb Hr. destruct (run_inv c0 tr c Hb Hr) as (fl & P & U & Dn & HI & _). split; [|split].
  - exists fl. split; apply HI.
  - intros Hl. split; [|split].
    + intros t b w Ht Hu Hlt. destruct (try_run c fl P U Dn t b w HI Hl) as (r & d & _ & Hrun & _).
      { split_and!; [done|by intros t' x Hx _; apply Hu with t'|by left]. }
      exists r, d. unfold rw_start. by rewrite bind_gets, (bi_mem _ _ _ _ _ HI).
    + intros t b w aw Ht. destruct (try_run c fl P U Dn t b w HI Hl (waiting_asks _ _ _ _ _ _ _ _ _ HI Ht)) as (r & d & _ & Hrun & _). eauto.
    + intros t b w i Ht. destruct (resume_run c fl P U Dn t b w i HI Ht) as (l & st & _ & Hrun & _). eauto.
  - intros Hl. destruct U as [|h U]; [by destruct (bi_irq _ _ _ _ _ HI Hl)|].
    destruct (round_run c fl P h U Dn HI) as (t & b & w & i & y & _ & _ & _ & _ & _ & _ & Hrun). split; [eauto|].
    exists h. split; [apply (round_status c fl P h U Dn 0 HI)|]. intros st. apply (round_status c fl P h U Dn st HI).
Qed.

(** C6: No wakeup is lost and nothing starves: from every state the block
    driver reaches, as long as the device answers and interrupts are taken,
    every order of the steps that are left ends with all calls returned, those
    that wait for descriptors included. *)
Theorem blk_requests_end c0 tr c : booted c0 → blk_run c0 tr c → inevitably (λ c, thr c = ∅) c.
Proof.
  intros Hb Hr. destruct (run_inv c0 tr c Hb Hr) as (fl & P & U & Dn & HI & _).
  by eapply (inv_inevitably (size (thr c)) (weight c P U Dn)).
Qed.
End sys.

(** ** A concrete device *)

#[local] Existing Instance mem_disk.
#[local] Instance demo_layout : DmaLayout :=
  {| req_pa i := 2 ^ 32 + 16 * i; data_pa b := 2 ^ 40 + 4096 * Z.of_nat b; status_pa i := 2 ^ 36 + 16 * i |}.

Record demo_dev := mk_demo { dm_next : Z; dm_taken : list Z; dm_media : gmap Z block }.

Lemma demo_request_unique s h i b j w n i' b' j' w' n' :
  request_at s h i b j w n → request_at s h i' b' j' w' n' → i = i' ∧ b = b' ∧ j = j' ∧ w = w' ∧ n = n'.
Proof.
  intros [(h1 & h2 & A0 & A1 & e & A2) Aq _ _] [(k1 & k2 & B0 & B1 & e' & B2) Bq _ _].
  rewrite A0 in B0. injection B0 as Hi <-. rewrite A1 in B1. injection B1 as Hb Hf <-. rewrite A2 in B2. injection B2 as Hj _.
  assert (i = i') as <- by lia. rewrite Aq in Bq. injection Bq as Ht Hn.
  split; [done|]. split; [lia|]. split; [lia|]. split; [by destruct w, w'|lia].
Qed.

#[local] Instance demo_blk : BlkDevice (gmap Z block) demo_dev.
Proof.
  refine {| dev_next := dm_next; dev_taken := dm_taken; dev_media := dm_media;
    dev_fetch s v v' := dm_next v ≠ avail_idx (vq s) ∧ ∃ h, avail_ring (vq s) !! Z.to_nat (dm_next v mod NUM) = Some h ∧
      v' = mk_demo (u16 (dm_next v + 1)) (h :: dm_taken v) (dm_media v);
    dev_serve s v h s' v' := ∃ i b j w n y, request_at s h i b j w n ∧ io_bufs s !! b = Some y ∧ dm_taken v ≡ₚ h :: dm_taken v' ∧
      s' = respond h b j w n (dm_media v) s ∧ dm_next v' = dm_next v ∧ dm_media v' = transfer w n (io_data y) (dm_media v) |}.
  - intros s v v' (Hne & h & Hh & ->). split_and!; [done..|]. by exists h.
  - intros s v h Hne Hh. eexists. split; [done|]. by exists h.
  - intros s v h s' v' i b j w n y (i' & b' & j' & w' & n' & y' & Hq & Hy' & HT & -> & Hn & Hm) Hq' Hy.
    destruct (demo_request_unique _ _ _ _ _ _ _ _ _ _ _ _ Hq Hq') as (-> & -> & -> & -> & ->).
    rewrite Hy in Hy'. injection Hy' as ->. done.
  - intros s v h i b j w n [T HT]%elem_of_Permutation Hq. destruct (ra_data _ _ _ _ _ _ _ Hq) as [y Hy].
    exists (respond h b j w n (dm_media v) s), (mk_demo (dm_next v) T (transfer w n (io_data y) (dm_media v))).
    exists i, b, j, w, n, y. done.
Defined.

Definition demo_sys (bufs : list io_buf) : sys demo_dev :=
  mk_sys (match init_free_desc_list (boot_driver bufs) with Ret (_, d) => d | _ => boot_driver bufs end) (mk_demo 0 [] ∅) ∅ None.
Definition demo_bufs : list io_buf := [mk_io zero_block 7 0].

Lemma demo_booted : booted (demo_sys demo_bufs).
Proof.
  exists demo_bufs. split.
  { apply Forall_singleton. split; [apply (bool_decide_unpack _); vm_compute; exact I|cbn; lia]. }
  split; [vm_compute; reflexivity|]. split_and!; reflexivity.
Qed.

(** A call of one thread, up to its descriptors in the ring. *)
Lemma demo_call : ∃ c, blk_run (demo_sys demo_bufs) [Call 1 0%nat true] c ∧ thr c ≠ ∅.
Proof.
  eexists. split.
  - apply (run_step _ [] _ (Some (Call 1 0%nat true)) _ (run_start _)). eapply st_call; [reflexivity|reflexivity| | |].
    + intros t x Hx. unfold demo_sys in Hx. cbn [thr] in Hx. rewrite lookup_empty in Hx. discriminate.
    + vm_compute. lia.
    + vm_compute. reflexivity.
  - cbn [settle thr]. apply insert_non_empty.
Defined.

Lemma blk_refines_witness :
  ∃ c a, thr c ≠ ∅ ∧ disk_run (mk_disk (contents (drv (demo_sys demo_bufs))) ∅ ∅) [Call 1 0%nat true] a ∧
    a_bufs a = contents (drv c) ∧ a_media a = dm_media (dev c).
Proof.
  destruct demo_call as (c & Hr & Hne).
  destruct (blk_refines (demo_sys demo_bufs) _ c demo_booted Hr) as (a & Ha & Hb & Hm & _). exists c, a.
  split; [exact Hne|]. split; [exact Ha|]. split; [exact Hb|exact Hm].
Defined.

Lemma blk_safe_witness :
  ∃ c fl, thr c ≠ ∅ ∧ blk_run (demo_sys demo_bufs) [Call 1 0%nat true] c ∧
    fl ++ collect chain_of (thr c) ≡ₚ seqZ 0 NUM.
Proof.
  destruct demo_call as (c & Hr & Hne). destruct (blk_safe (demo_sys demo_bufs) _ c demo_booted Hr) as ((fl & _ & Hp) & _).
  exists c, fl. split; [exact Hne|]. split; [exact Hr|exact Hp].
Defined.

Lemma blk_requests_end_witness :
  ∃ c, thr c ≠ ∅ ∧ blk_run (demo_sys demo_bufs) [Call 1 0%nat true] c ∧ inevitably (λ c, thr c = ∅) c.
Proof.
  destruct demo_call as (c & Hr & Hne). exists c. split; [exact Hne|]. split; [exact Hr|].
  exact (blk_requests_end (demo_sys demo_bufs) _ c demo_booted Hr).
Defined.
